(* ===== verification/_CoqProject ===== *)
-Q . S2P
Prelude.v
Alu.v
Bits.v
Queue.v
Wide.v
Operand.v
Meta.v
CompTables.v
Codec.v
Switch.v
Decoder.v
Emit.v
CompProofs.v
Ckpt.v
CkptProofs.v
Replay.v
CkptManager.v
Interp.v
Isa.v
Asm.v
AsmInst.v
AsmProofs.v
LinkProofs.v
AsmLabels.v
Mmu.v
Runloop.v
ProxySim.v
IsaReplay.v
Bus.v
Tlb.v
SoftMmu.v
SoftMmuProofs.v
SoftExamples.v
Priv.v
PrivProofs.v
PrivExamples.v
Devices.v
DeviceProofs.v
X86.v
Jit.v
JitEmit.v
JitProofs.v
JitAlu.v
JitMul.v
JitDiv.v
JitDivisions.v
JitMulhsu.v
JitMem.v
JitCorrect.v
JitEmit32.v
JitAlu32.v
JitMul32.v
JitMem32.v
JitCorrect32.v
JitLabels.v
JitFused.v
JitTrace.v
JitFunction.v
JitInstruction.v
Fields.v
JitTracer.v
JitRecord.v
JitRecorded.v
JitFusion.v
JitGroups.v
JitFusedRecord.v
JitFindings.v
JitFindings32.v
