(* ===== verification/Prelude.v ===== *)
(** * A verification of rv8: codec, interpreters, compiler, machine and checkpoints

    rv8 is a RISC-V simulator: a user-level one ([rv-sim]), one that compiles what
    runs often ([rv-jit]) and one of a whole machine ([rv-sys]).  This fork adds a
    recorder of checkpoints to the first.  The development models the path an
    instruction takes (fetch, decode, expand, execute, retire), the recorder that
    watches it, the compiler of traces, and the machine around it (address
    translation, traps, interrupts, devices), and proves that each part does what
    it is for.

    ** The program and the files that model it

    Words and the instruction set:
    - [Prelude] (this file): machine words, the notations of [word_scope], the
      hint databases [words], [wrap] and [bits], arrays with C bounds.
    - [Alu]: [asm/alu.h], [emu/amo.h].  Multiply-high, division, AMO operators,
      at any even width.
    - [Bits]: [asm/bits.h], bit counts and rounding.  [Wide]: the emulated 128-bit
      integers of [asm/operators.h] and [asm/types.h].
    - [Queue]: [util/queue.h], the lock-free queue, as a system of threads that
      take atomic steps.
    - [Operand]: the bit-scatter templates of [asm/types.h] and the operands of
      [asm/operands.h].  An operand is data (its segments, width, sign); encoding
      and decoding are moves of bits.
    - [Meta], [CompTables]: the tables of [asm/meta.cc]: opcode to codec, match
      and mask words, compression, expansion and pseudo-instructions.
    - [Switch]: [decode_inst_op] of [asm/switch.h], the nested switches as a
      decision tree ([dtree]) that [run] evaluates.
    - [Codec], [Decoder]: [asm/decode.h], [asm/encode.h], [asm/codec.h],
      [asm/constraints.h]: one decoder and one encoder per codec, fetch,
      constraints, compression and expansion.
    - [CompProofs]: compression and expansion are inverse.

    The assembler:
    - [Emit]: the emitters of [asm/jit.cc], one function per instruction, over the
      width-typed immediates of [asm/types.h].  [AsmInst]: the [asm_] functions of
      the same file, which add the emitter's word to a section.
    - [Asm]: [asm/assembler.h] and [asm/assembler.cc]: sections, labels (objects in
      a table, found by name and by offset), relocations, constants, alignment and
      linking.  [AsmProofs]: what [load_imm] loads, by executing what it emits.
      [LinkProofs]: what linked instructions refer to.  [AsmLabels]: the order of
      the maps, numeric labels and their names.

    The recorder:
    - [Ckpt], [CkptProofs]: [MemTrace] of [util/fmt.h]: page records (which bytes
      were touched, their first values), execution counters, the store table,
      and the abstract map [recorded] from addresses to first values.
    - [Replay]: the contract of a trace on sequences of accesses.
    - [CkptManager]: [CheckpointManager] of [util/fmt.h] and [util/fmt.cc], the
      state machine that opens traces and cuts checkpoints; output is a log.

    The user-level simulator:
    - [Interp]: [exec_inst_rv32] and [exec_inst_rv64] of [emu/interp.h] on the
      state of [emu/processor-base.h].  An instruction is a program ([io]) over
      the requests it makes of the MMU.
    - [Isa]: the interpreter against a reference semantics of the integer ISA.
    - [Mmu]: the interface of an MMU ([Mmu]), its contract ([MmuLaws]), the proxy
      of [emu/mmu-proxy.h] and its proof of the contract; the memory
      instructions, proved against the contract.
    - [Runloop]: [step] of [emu/processor-runloop.h] with its cache of decoded
      instructions; what it calls is the class [Platform].
    - [ProxySim]: the platform of [rv-sim]: [emu/processor-proxy.h] and parts of
      [emu/processor-impl.h] (control registers, [inst_priv], the hooks).
    - [IsaReplay]: the contract of a checkpoint for whole runs of the simulator.

    The compiler ([rv-jit]):
    - [X86]: the calls the source makes of the third-party assembler, as data, with
      their documented meaning on the state the emitted code works on.  The
      processor that executes them is a parameter ([Cpu]).
    - [Jit], [JitEmit]: [jit/jit-decode.h] and [jit/jit-emitter-rv64.h].  An emitter
      is a program of the monad [M], which appends instructions and changes the
      emitter object (labels, trampolines, callstack, counters).  What the host
      provides (options, addresses of functions) is the class [Jit].
    - [JitProofs], [JitAlu], [JitMul], [JitDiv], [JitDivisions], [JitMulhsu],
      [JitMem]: what each emitter's code computes.  [JitCorrect]: one instruction
      against the interpreter.  [JitLabels]: labels and the order of the code.
      [JitFused]: fused instructions, their meaning and their code.  [JitTrace]: a
      trace against a run of the interpreter.  [JitFunction]: the function
      [jit_trace] builds.
    - [JitEmit32]: [jit/jit-emitter-rv32.h].  The lemmas on emitted code are for a
      register width and an operation width, and are used at both emitters:
      [JitAlu32], [JitMul32], [JitMem32], [JitCorrect32].  [JitInstruction]: one
      instruction at either width.
    - [JitTracer]: [jit/jit-tracer.h] and [jit_trace] of [jit/jit-runloop.h], which
      interprets until the tracer stops and compiles what was recorded; the tracer,
      a parameter of the run loop, is the class [Tracer].  [Fields]: the ranges of
      decoded fields.  [JitRecord], [JitRecorded]: what is recorded, and how what is
      compiled for it runs.
    - [JitFusion]: [jit/jit-fusion.h], a tracer around a tracer that replaces groups
      of instructions by fused ones.  [JitGroups]: what a group does, and how the
      function compiled for a trace with groups replaced runs.  [JitFusedRecord]:
      [jit_trace] with this tracer.  [JitFindings], [JitFindings32]: where compiler
      and interpreter part.

    The full-system simulator:
    - [Bus]: [emu/mmu-memory.h], the segments of physical memory: the interface
      ([Bus], with the contract [BusLaws]) and [user_memory], which meets it.  The
      virtual methods of the device segments are the class [Devices].
    - [Tlb]: [emu/tlb-soft.h].  [SoftMmu]: [emu/mmu-soft.h] and [emu/pte.h], the
      page-table walk, the access checks and the four operations, over any [Bus]:
      another instance of [Mmu].  [SoftMmuProofs], [SoftExamples]: its theorems
      and their witnesses on a concrete memory.
    - [Priv]: [emu/processor-priv-1.9.h] and the rest of [emu/processor-impl.h]:
      machine and supervisor registers, traps, returns, the interrupt service
      routine, and [step] as the privileged processor takes it; another instance
      of [Platform].  What the routine asks of the devices is the class
      [Interrupts].  [PrivProofs], [PrivExamples]: its theorems and witnesses.
    - [Devices]: [emu/device-*.h] and the queue of [emu/console.h]: the instances
      of [Devices] and [Interrupts] for the machine that [init] builds.
      [DeviceProofs]: what the devices promise their drivers.

    The run loop ([Runloop.step1]) fetches through [Mmu], decodes through
    [Decoder] and the cache, tells the checkpoint manager ([on_fetch]), executes
    ([Interp]) with the data accesses going through [Mmu], which again tells the
    manager, and retires.  [ProxySim] instantiates the classes for [rv-sim]; for
    [rv-sys] [Mmu] is [SoftMmu] over [Bus] over [Devices], and [Platform] and the
    treatment of traps are [Priv].

    ** What is proved

    - Codec: encoding then decoding is the identity on well-formed instructions
      (in the CS format [rd] comes back in the place of [rs2]);
      decoding any word gives a well-formed instruction or [illegal]; the opcode
      switch agrees with the match and mask tables in both directions; operands
      round-trip and are canonical; compressing, encoding, decoding and expanding
      gives the instruction back, on RV32 and RV64, but for four forms whose
      constraints accept immediates they do not hold, and [rs2] in the CS format.
    - Assembler: emitting and decoding is the identity on operands that fit (but for
      the immediate source of three control-register instructions), and other
      operands are refused; [load_imm] loads what it is asked for (under a
      stated condition, and what it loads otherwise); relocation patches exactly
      the instruction it should, and a relocated call, executed, reaches its label;
      the maps stay in order, a numeric label is the nearest, the loop that names
      one ends.
    - Arithmetic: the half-width multiply-high algorithms compute the high word;
      division and remainder are total and satisfy the Euclidean equation; the
      128-bit operators compute modulo [2^128]; the bit counts count.
    - Interpreter: every integer instruction of RV32IMA and RV64IMA computes the
      value, target or memory effect of the reference semantics, but for shift
      counts that are not reduced (undefined) and the reservation [sc] keeps; [x0],
      the frame of an instruction and the sentinel [-1] that marks an illegal one.
    - Run loop: the instruction cache does not change what runs that do not fetch
      the zero word do; [step] terminates.
    - Compiler: the code of one instruction leaves what the interpreter leaves, on
      RV64 and RV32, wherever its operands are placed; the function compiled for a
      trace runs like the interpreter along the trace, and comes out with its
      registers and memory, at its caller or at the next trace, with its program
      counter (unless at its caller after a final [jalr]) and its count of
      instructions (unless a return missed its call).  Each is for the operands the
      code is exact for: [exact], [exact32] and [fused_exact] list the others, and
      [JitFindings] and [JitFindings32] show what happens there.  Recording with the
      plain tracer ends; what it records is the interpreter's path, with the
      targets of its branches marked; so what [jit_trace] compiles runs like the
      interpreter when the start of the trace is reached again.  With fusion the
      same holds of the instructions executed, and the code never stops inside a
      group, for recordings that end with no program counter executed twice.
    - Recorder: [load], [store] and [fetch] refine the first-value map and count;
      the manager never fails, and cuts a checkpoint exactly when the period has
      elapsed and the trace justifies it.
    - Checkpoints: replaying from the recorded bytes, as accesses and as a run of
      the simulator, does what the recorded run did.
    - Memory and translation: a bus of well-formed segments is a byte memory; a
      TLB hit is a translation in force; translation finds the address the
      architecture defines, and what it does where the architecture faults: it
      faults, or follows an entry that is none; the walk terminates unless every
      table has a pointer for it; the access checks protect user mode; which
      exception each access raises.
    - Privilege: trap entry and return are inverse, go where delegation says, and
      touch the status fields they should; what a control-register instruction
      writes; which interrupt is taken.
    - Devices: the claim and completion protocol of the interrupt controller, the
      one-shot timer, the path of a typed character to the handler; the queue is
      first-in first-out for one producer and one consumer under every
      interleaving.

    The places where the code does not do what it means to are theorems or lemmas
    of their own beside the theorem they bound
    ([CompProofs.encode_cs_loses_rs2], [Replay.fetch_partial_corrupts],
    [ProxySim.zero_word_depends_on_cache],
    [SoftMmuProofs.store_after_load_leaves_clean],
    [PrivProofs.user_takes_machine_mode], [PrivProofs.trap_storm],
    [Queue.race_pops_empty] and others); the theorems state the conditions that
    exclude them.

    ** Conventions

    A [w]-bit word is a [Z]; signed registers are kept as their signed value, and
    wraps are explicit (the build passes [-fwrapv]).  [option] is an assertion or
    an undefined operation, [io], [outcome] and [reply] keep [raise] apart from
    undefined behaviour.  Recursion is structural: on lists, on the number of
    bytes of an access, on the requests of an [io] program.  Five loops have fuel:
    the recursion of [load_imm_r] ([load_imm_correct]: four calls are enough for 64
    bits), the loop that names a numeric label ([add_label_num_total]: one round
    more than there are names), that of [step] ([step_terminates] proves that its argument [count] is enough
    for [rv-sim]; [PrivProofs.trap_storm] that no fuel is enough for [rv-sys] in
    general), the page-table walk ([walk_terminates]: the levels, and two more if
    each has a pointer) and the recording of a trace ([recording_terminates]: more
    than there are program counters; with fusion none need be enough,
    [self_call_unended]).

    Parameters stand for what is outside: the host's memory is a function from
    addresses to bytes, [cpu_cycle_clock], the host's random seeds, the boot
    images and the system calls are arguments, and the order in which an
    unordered map is dumped is an [enumeration].  The floating-point cases of the
    interpreter are an argument of [exec_inst] as well ([FpReads]: what the cache
    theorem asks of them).

    ** Not modelled

    The floating-point cases of the interpreter ([Isa.exec_frame] is for processors
    without F and D, [Runloop.inst_cache_transparent] for cases that read the fields
    of their format, the other theorems hold whatever those cases do);
    [exec_inst_rv128]; signal handlers and the debugger; the console's thread
    (polling and terminal settings) and the memory orders of the queue, whose
    atomic steps are taken to be sequentially consistent; ELF loading and
    printing, which includes the disassembler; string formatting.  Of the JIT: the
    traces of RV32 as whole functions (their instructions are verified one by one);
    the encoding of the host's instructions and the placement of labels,
    which are the assembler's; the lookup of traces ([create_trace_lookup]), the
    caches of compiled traces and the patching of jumps.  [use_mmu] is cleared by
    the constructor and set nowhere; the theorems are for that case. *)

From Stdlib Require Import ZArith Lia Bool.
From stdpp Require Import base numbers list.

#[local] Open Scope Z_scope.

(** ** Machine words

    A [w]-bit unsigned C++ value is a [Z] in [0, 2^w); a signed one is a [Z] in
    [-2^(w-1), 2^(w-1)).  Every operation that can leave the range is followed
    by an explicit wrap; the build passes [-fwrapv], so signed arithmetic wraps
    as well. *)

Definition uwrap (w x : Z) : Z := x mod 2 ^ w.
Definition swrap (w x : Z) : Z := (x + 2 ^ (w - 1)) mod 2 ^ w - 2 ^ (w - 1).

Definition in_u (w x : Z) : Prop := 0 <= x < 2 ^ w.
Definition in_s (w x : Z) : Prop := - 2 ^ (w - 1) <= x < 2 ^ (w - 1).

(** [~x] at width [w], and the conversion of a C++ [bool] to an integer. *)
Definition bnot (w x : Z) : Z := uwrap w (Z.lnot x).
Definition b2z (b : bool) : Z := if b then 1 else 0.

Declare Scope word_scope.
Delimit Scope word_scope with word.
Notation "x '+[' w ] y" := (uwrap w (x + y)) (at level 50, w at level 200, left associativity) : word_scope.
Notation "x '-[' w ] y" := (uwrap w (x - y)) (at level 50, w at level 200, left associativity) : word_scope.
Notation "x '*[' w ] y" := (uwrap w (x * y)) (at level 40, w at level 200, left associativity) : word_scope.
Notation "x '<<[' w ] y" := (uwrap w (Z.shiftl x y)) (at level 51, w at level 200, left associativity) : word_scope.
Notation "x '>>>' y" := (Z.shiftr x y) (at level 51, left associativity) : word_scope.
Notation "x '.&' y" := (Z.land x y) (at level 52, left associativity) : word_scope.
Notation "x '.^' y" := (Z.lxor x y) (at level 53, left associativity) : word_scope.
Notation "x '.|' y" := (Z.lor x y) (at level 54, left associativity) : word_scope.
#[local] Open Scope word_scope.

Create HintDb words.
Create Rewrite HintDb wrap.
Create Rewrite HintDb bits.

(** ** Tactics *)

(** [zbits n Hn] turns an equality of integers into one of bit [n]. *)
Ltac zbits n Hn :=
  apply Z.bits_inj'; intros n Hn;
  repeat first [ rewrite Z.lor_spec | rewrite Z.land_spec | rewrite Z.lxor_spec
               | rewrite Z.lnot_spec by lia ].

(** Case analysis on every boolean comparison of the goal and context. *)
Ltac bcases :=
  repeat match goal with
  | |- context [ ?a <? ?b ] => destruct (Z.ltb_spec a b)
  | |- context [ ?a <=? ?b ] => destruct (Z.leb_spec a b)
  | |- context [ ?a =? ?b ] => destruct (Z.eqb_spec a b)
  | H : context [ ?a <? ?b ] |- _ => destruct (Z.ltb_spec a b)
  | H : context [ ?a <=? ?b ] |- _ => destruct (Z.leb_spec a b)
  | H : context [ ?a =? ?b ] |- _ => destruct (Z.eqb_spec a b)
  end.

(** [lia] with the equations of constant divisions and remainders. *)
Ltac dlia := first [ lia | Z.to_euclidean_division_equations; lia ].

(** ** Powers of two *)

Lemma pow2_pos (n : Z) : 0 <= n -> 0 < 2 ^ n.
Proof. intros; apply Z.pow_pos_nonneg; lia. Qed.

Lemma pow2_split (a b : Z) : 0 <= a -> 0 <= b -> 2 ^ (a + b) = 2 ^ a * 2 ^ b.
Proof. intros; apply Z.pow_add_r; lia. Qed.

Lemma pow2_half (w : Z) : 0 < w -> 2 ^ w = 2 * 2 ^ (w - 1).
Proof. intros. rewrite <- (Z.pow_succ_r 2 (w - 1)) by lia. f_equal; lia. Qed.

(** Quotient and remainder as fresh variables. *)
Lemma div_mod_ex (a b : Z) : 0 < b ->
  exists d r, a = b * d + r /\ 0 <= r < b /\ a / b = d /\ a mod b = r.
Proof.
  intros. exists (a / b), (a mod b).
  repeat split; try (apply Z.mod_pos_bound; lia). apply Z.div_mod; lia.
Qed.

(** [lia] with the positivity of the powers of two in the goal. *)
Ltac pow_pos :=
  repeat match goal with
  | |- context [ 2 ^ ?n ] =>
      lazymatch goal with
      | _ : 0 < 2 ^ n |- _ => fail
      | _ => assert (0 < 2 ^ n) by (apply pow2_pos; lia)
      end
  | H : context [ 2 ^ ?n ] |- _ =>
      lazymatch goal with
      | _ : 0 < 2 ^ n |- _ => fail
      | _ => assert (0 < 2 ^ n) by (apply pow2_pos; lia)
      end
  end.

(** ** Wrapping *)

Lemma uwrap_range (w x : Z) : 0 <= w -> in_u w (uwrap w x).
Proof. intros; unfold in_u, uwrap; apply Z.mod_pos_bound, pow2_pos; lia. Qed.

Lemma uwrap_small (w x : Z) : in_u w x -> uwrap w x = x.
Proof. intros; apply Z.mod_small; assumption. Qed.

Lemma uwrap_idemp (w x : Z) : uwrap w (uwrap w x) = uwrap w x.
Proof. apply Z.mod_mod_divide. exists 1; lia. Qed.

Lemma uwrap_add_multiple (w x k : Z) : 0 <= w -> uwrap w (x + k * 2 ^ w) = uwrap w x.
Proof. intros; unfold uwrap. apply Z_mod_plus_full. Qed.

Lemma uwrap_add_l (w x y : Z) : uwrap w (uwrap w x + y) = uwrap w (x + y).
Proof. apply Zplus_mod_idemp_l. Qed.

Lemma uwrap_add_r (w x y : Z) : uwrap w (x + uwrap w y) = uwrap w (x + y).
Proof. apply Zplus_mod_idemp_r. Qed.

Lemma uwrap_sub_l (w x y : Z) : uwrap w (uwrap w x - y) = uwrap w (x - y).
Proof. apply Zminus_mod_idemp_l. Qed.

Lemma uwrap_sub_r (w x y : Z) : uwrap w (x - uwrap w y) = uwrap w (x - y).
Proof. apply Zminus_mod_idemp_r. Qed.

Lemma uwrap_mul_l (w x y : Z) : uwrap w (uwrap w x * y) = uwrap w (x * y).
Proof. apply Zmult_mod_idemp_l. Qed.

Lemma uwrap_mul_r (w x y : Z) : uwrap w (x * uwrap w y) = uwrap w (x * y).
Proof. apply Zmult_mod_idemp_r. Qed.

#[export] Hint Rewrite uwrap_idemp uwrap_add_l uwrap_add_r uwrap_sub_l uwrap_sub_r
  uwrap_mul_l uwrap_mul_r : wrap.
#[export] Hint Resolve uwrap_range uwrap_small : words.

Lemma swrap_range (w x : Z) : 0 < w -> in_s w (swrap w x).
Proof.
  intros; unfold in_s, swrap.
  pose proof (pow2_half w ltac:(lia)).
  pose proof (Z.mod_pos_bound (x + 2 ^ (w - 1)) (2 ^ w) (pow2_pos w ltac:(lia))). lia.
Qed.

Lemma swrap_small (w x : Z) : 0 < w -> in_s w x -> swrap w x = x.
Proof.
  intros ? [? ?]; unfold swrap. pose proof (pow2_half w ltac:(lia)).
  rewrite Z.mod_small; lia.
Qed.

Lemma uwrap_swrap (w x : Z) : uwrap w (swrap w x) = uwrap w x.
Proof.
  unfold uwrap, swrap. rewrite Zminus_mod_idemp_l. f_equal. lia.
Qed.

Lemma swrap_uwrap (w x : Z) : swrap w (uwrap w x) = swrap w x.
Proof. unfold uwrap, swrap. rewrite Zplus_mod_idemp_l. reflexivity. Qed.

#[export] Hint Rewrite uwrap_swrap swrap_uwrap : wrap.
#[export] Hint Resolve swrap_range : words.

(** Two numbers congruent modulo [2^w] have the same signed reading. *)
Lemma swrap_uwrap_inj (w x y : Z) : uwrap w x = uwrap w y -> swrap w x = swrap w y.
Proof. intros H. rewrite <- (swrap_uwrap w x), H. apply swrap_uwrap. Qed.

Lemma swrap_neg (w x : Z) :
  0 < w -> in_u w x -> swrap w x = if x <? 2 ^ (w - 1) then x else x - 2 ^ w.
Proof.
  intros Hw [? ?]. pose proof (pow2_half w Hw). unfold swrap.
  destruct (Z.ltb_spec x (2 ^ (w - 1))).
  - rewrite Z.mod_small; lia.
  - rewrite <- (Z_mod_plus_full _ (-1)). rewrite Z.mod_small; lia.
Qed.

(** ** Bits *)

Lemma uwrap_land (w x : Z) : 0 <= w -> Z.land x (2 ^ w - 1) = uwrap w x.
Proof.
  intros; unfold uwrap. rewrite <- (Z.land_ones x w) by lia. rewrite Z.ones_equiv.
  f_equal; lia.
Qed.

Lemma testbit_uwrap (w x n : Z) :
  0 <= w -> 0 <= n -> Z.testbit (uwrap w x) n = (n <? w) && Z.testbit x n.
Proof.
  intros; unfold uwrap. destruct (Z.ltb_spec n w); simpl.
  - apply Z.mod_pow2_bits_low; lia.
  - apply Z.mod_pow2_bits_high; lia.
Qed.

Lemma testbit_high (w x n : Z) : in_u w x -> 0 <= w <= n -> Z.testbit x n = false.
Proof.
  intros Hx ?. rewrite <- (uwrap_small w x Hx), testbit_uwrap by lia.
  destruct (Z.ltb_spec n w); [lia | reflexivity].
Qed.

Lemma in_u_testbit (w x : Z) :
  0 <= w -> 0 <= x -> (forall n, w <= n -> Z.testbit x n = false) -> in_u w x.
Proof.
  intros ? ? Hb. assert (x = uwrap w x) as ->; [|apply uwrap_range; lia].
  apply Z.bits_inj'; intros n Hn. rewrite testbit_uwrap by lia.
  destruct (Z.ltb_spec n w); [reflexivity | apply Hb; lia].
Qed.

Lemma testbit_shiftl (x k n : Z) :
  0 <= n -> 0 <= k -> Z.testbit (Z.shiftl x k) n = (k <=? n) && Z.testbit x (n - k).
Proof.
  intros. destruct (Z.leb_spec k n); simpl.
  - apply Z.shiftl_spec; lia.
  - rewrite Z.shiftl_spec by lia. apply Z.testbit_neg_r; lia.
Qed.

Lemma testbit_pow2_m1 (k n : Z) : 0 <= n -> 0 <= k -> Z.testbit (2 ^ k - 1) n = (n <? k).
Proof.
  intros. replace (2 ^ k - 1) with (Z.ones k) by (rewrite Z.ones_equiv; lia).
  destruct (Z.ltb_spec n k).
  - apply Z.ones_spec_low; lia.
  - apply Z.ones_spec_high; lia.
Qed.

Lemma land_range (w x y : Z) : 0 <= w -> in_u w x -> 0 <= y -> in_u w (Z.land x y).
Proof.
  intros ? Hx ?. apply in_u_testbit; [lia | apply Z.land_nonneg; left; apply Hx |].
  intros n ?. rewrite Z.land_spec, (testbit_high w x n Hx) by lia. reflexivity.
Qed.

Lemma lor_range (w x y : Z) : 0 <= w -> in_u w x -> in_u w y -> in_u w (Z.lor x y).
Proof.
  intros ? Hx Hy. apply in_u_testbit; [lia | apply Z.lor_nonneg; split; [apply Hx | apply Hy] |].
  intros n ?. rewrite Z.lor_spec, (testbit_high w x n Hx), (testbit_high w y n Hy) by lia. reflexivity.
Qed.

Lemma lxor_range (w x y : Z) : 0 <= w -> in_u w x -> in_u w y -> in_u w (Z.lxor x y).
Proof.
  intros ? Hx Hy. apply in_u_testbit;
    [lia | apply Z.lxor_nonneg; split; intro; [apply Hy | apply Hx] |].
  intros n ?. rewrite Z.lxor_spec, (testbit_high w x n Hx), (testbit_high w y n Hy) by lia. reflexivity.
Qed.

Lemma shiftr_div (x n : Z) : 0 <= n -> Z.shiftr x n = x / 2 ^ n.
Proof. apply Z.shiftr_div_pow2. Qed.

Lemma shiftl_mul (x n : Z) : 0 <= n -> Z.shiftl x n = x * 2 ^ n.
Proof. apply Z.shiftl_mul_pow2. Qed.

Lemma shiftr_range (w x n : Z) : 0 <= w -> 0 <= n -> in_u w x -> in_u w (Z.shiftr x n).
Proof.
  intros ? ? [? ?]. rewrite shiftr_div by lia. pose proof (pow2_pos n ltac:(lia)).
  split; [apply Z.div_pos; lia |].
  apply Z.div_lt_upper_bound; [lia | nia].
Qed.

Lemma land_mod (x k : Z) (n : Z) : 0 <= k < 2 ^ n -> 0 <= n -> x .& k = (x mod 2 ^ n) .& k.
Proof.
  intros Hk Hn. apply Z.bits_inj'. intros i Hi. rewrite !Z.land_spec. fold (uwrap n x).
  rewrite testbit_uwrap by lia. destruct (Z.ltb_spec i n); [reflexivity |].
  rewrite (testbit_high n k i) by (unfold in_u; lia). rewrite !andb_false_r. reflexivity.
Qed.

(** Words side by side. *)
Lemma lor_concat (k x y : Z) : in_u k x -> 0 <= k -> x .| Z.shiftl y k = x + y * 2 ^ k.
Proof.
  intros Hx Hk. rewrite <- shiftl_mul by lia.
  assert (Hd : x .& Z.shiftl y k = 0).
  { apply Z.bits_inj'. intros n Hn. rewrite Z.land_spec, testbit_shiftl, Z.bits_0 by lia.
    destruct (Z.leb_spec k n); [rewrite (testbit_high k x n Hx) by lia; reflexivity | apply andb_false_r]. }
  rewrite <- Z.lxor_lor, <- Z.add_nocarry_lxor by exact Hd. reflexivity.
Qed.

Lemma bnot_val (w x : Z) : 0 <= w -> in_u w x -> bnot w x = 2 ^ w - 1 - x.
Proof.
  intros ? [? ?]. unfold bnot, Z.lnot.
  rewrite <- (uwrap_add_multiple w _ 1) by lia. rewrite uwrap_small; [lia | split; lia].
Qed.

(** Exclusive or with the all-ones word is the complement. *)
Lemma lxor_ones (w x : Z) : 0 <= w -> in_u w x -> Z.lxor (2 ^ w - 1) x = 2 ^ w - 1 - x.
Proof.
  intros Hw Hx. rewrite <- bnot_val by assumption.
  apply Z.bits_inj'; intros n Hn. unfold bnot.
  rewrite testbit_uwrap, Z.lxor_spec, testbit_pow2_m1, Z.lnot_spec by lia.
  destruct (Z.ltb_spec n w); simpl; [reflexivity |].
  rewrite (testbit_high w x n Hx) by lia. reflexivity.
Qed.

Lemma lxor_uwrap_ones (w x : Z) : 0 <= w -> Z.lxor (2 ^ w - 1) (uwrap w x) = uwrap w (-1 - x).
Proof.
  intros. rewrite lxor_ones by (auto with words). rewrite <- bnot_val by (auto with words).
  unfold bnot, Z.lnot. rewrite <- (uwrap_sub_r w (-1) x). f_equal; lia.
Qed.

#[export] Hint Resolve land_range lor_range lxor_range shiftr_range : words.
#[export] Hint Rewrite Z.land_spec Z.lor_spec Z.lxor_spec : bits.

(** ** Lists and options *)

(** Run a list of checks in order; the first failing one decides. *)
Lemma forallb_In {A} (f : A -> bool) (l : list A) (x : A) :
  forallb f l = true -> In x l -> f x = true.
Proof. intros H; rewrite List.forallb_forall in H; auto. Qed.

(** ** Memory accesses *)

(** The sizes of the C++ types memory is accessed at. *)
Definition access_size (sz : Z) : Prop := sz = 1 \/ sz = 2 \/ sz = 4 \/ sz = 8.

(** ** Arrays with C bounds *)

Definition aget {A} (l : list A) (i : Z) : option A :=
  if 0 <=? i then l !! Z.to_nat i else None.

Definition aset {A} (l : list A) (i : Z) (x : A) : option (list A) :=
  if (0 <=? i) && (i <? Z.of_nat (length l)) then Some (<[Z.to_nat i := x]> l) else None.

Lemma aget_Some {A} (l : list A) (i : Z) :
  0 <= i < Z.of_nat (length l) -> exists x, aget l i = Some x.
Proof.
  intros H. unfold aget. rewrite (proj2 (Z.leb_le 0 i)) by lia.
  apply lookup_lt_is_Some. lia.
Qed.

Lemma aset_Some {A} (l : list A) (i : Z) (x : A) :
  0 <= i < Z.of_nat (length l) ->
  aset l i x = Some (<[Z.to_nat i := x]> l).
Proof.
  intros H. unfold aset. rewrite (proj2 (Z.leb_le 0 i)), (proj2 (Z.ltb_lt i _)) by lia. reflexivity.
Qed.

Lemma aget_set {A} (l : list A) (i j : Z) (x : A) :
  0 <= i < Z.of_nat (length l) -> 0 <= j ->
  aget (<[Z.to_nat i := x]> l) j = if j =? i then Some x else aget l j.
Proof.
  intros Hi Hj. unfold aget. rewrite (proj2 (Z.leb_le 0 j)) by lia.
  destruct (Z.eqb_spec j i) as [-> |].
  - apply list_lookup_insert_eq. lia.
  - apply list_lookup_insert_ne. lia.
Qed.
