(* ===== verification/Alu.v ===== *)
(** * Integer arithmetic helpers: [asm/alu.h] and [emu/amo.h]

    The templates are instantiated at [u32]/[s32] and [u64]/[s64]; the
    definitions take the width [w] and the results hold for every even width. *)

From Stdlib Require Import ZArith Lia Bool.
From S2P Require Import Prelude.

#[local] Open Scope Z_scope.
#[local] Open Scope word_scope.

(** ** Multiply high *)

(** [mulhu]: the high half of the product from four half-width products. *)
Definition mulhu (w x y : Z) : Z :=
  let qb := w / 2 in
  let mask := (1 <<[w] qb) -[w] 1 in
  let x0 := x .& mask in
  let x1 := (x >>> qb) .& mask in
  let y0 := y .& mask in
  let y1 := (y >>> qb) .& mask in
  let z0 := x0 *[w] y0 in
  let z1 := x1 *[w] y0 in
  let z2 := x0 *[w] y1 in
  let z3 := x1 *[w] y1 in
  let z4 := z1 +[w] (z0 >>> qb) in
  let c1 := z2 +[w] (z4 .& mask) in
  z3 +[w] (z4 >>> qb) +[w] (c1 >>> qb).

(** [mulh]: sign-magnitude product, then a conditional two-word negation. *)
Definition mulh (w x y : Z) : Z :=
  let qb := w / 2 in
  let mask := (1 <<[w] qb) -[w] 1 in
  let xs := b2z (x <? 0) in
  let ys := b2z (y <? 0) in
  let xu := (bnot w xs +[w] 1) .^ (uwrap w x -[w] xs) in
  let yu := (bnot w ys +[w] 1) .^ (uwrap w y -[w] ys) in
  let x0 := xu .& mask in
  let x1 := (xu >>> qb) .& mask in
  let y0 := yu .& mask in
  let y1 := (yu >>> qb) .& mask in
  let z0 := x0 *[w] y0 in
  let z1 := x1 *[w] y0 in
  let z2 := x0 *[w] y1 in
  let z3 := x1 *[w] y1 in
  let z4 := z1 +[w] (z0 >>> qb) in
  let c1 := z2 +[w] (z4 .& mask) in
  let h1 := z3 +[w] (z4 >>> qb) +[w] (c1 >>> qb) in
  let l1 := (c1 <<[w] qb) +[w] (z0 .& mask) in
  let rs := xs .^ ys in
  let l2 := l1 -[w] rs in
  let hb := b2z (l1 <? l2) in
  let h2 := h1 -[w] hb in
  swrap w (uwrap w (- rs) .^ h2).

(** [mulhsu]: signed [x] times unsigned [y]. *)
Definition mulhsu (w x y : Z) : Z :=
  let qb := w / 2 in
  let mask := (1 <<[w] qb) -[w] 1 in
  let xs := b2z (x <? 0) in
  let xu := (bnot w xs +[w] 1) .^ (uwrap w x -[w] xs) in
  let x0 := xu .& mask in
  let x1 := (xu >>> qb) .& mask in
  let y0 := y .& mask in
  let y1 := (y >>> qb) .& mask in
  let z0 := x0 *[w] y0 in
  let z1 := x1 *[w] y0 in
  let z2 := x0 *[w] y1 in
  let z3 := x1 *[w] y1 in
  let z4 := z1 +[w] (z0 >>> qb) in
  let c1 := z2 +[w] (z4 .& mask) in
  let h1 := z3 +[w] (z4 >>> qb) +[w] (c1 >>> qb) in
  let l1 := (c1 <<[w] qb) +[w] (z0 .& mask) in
  let l2 := l1 -[w] xs in
  let hb := b2z (l1 <? l2) in
  let h2 := h1 -[w] hb in
  swrap w (uwrap w (- xs) .^ h2).

(** ** Division and remainder: C++ division truncates *)

Definition limits_min (w : Z) : Z := - 2 ^ (w - 1).

Definition div (w x y : Z) : Z :=
  if (x =? limits_min w) && (y =? -1) then limits_min w
  else if y =? 0 then -1 else swrap w (Z.quot x y).

Definition divu (w x y : Z) : Z :=
  if y =? 0 then uwrap w (-1) else uwrap w (x / y).

Definition rem (w x y : Z) : Z :=
  if (x =? limits_min w) && (y =? -1) then 0
  else if y =? 0 then x else swrap w (Z.rem x y).

Definition remu (w x y : Z) : Z :=
  if y =? 0 then x else uwrap w (x mod y).

(** ** AMO operators *)

Inductive amo_op : Type :=
  amoswap | amoadd | amoxor | amoor | amoand | amomin | amomax | amominu | amomaxu.

Definition amoswap_fn (w x y : Z) : Z := y.
Definition amoadd_fn (w x y : Z) : Z := x +[w] y.
Definition amoxor_fn (w x y : Z) : Z := x .^ y.
Definition amoor_fn (w x y : Z) : Z := x .| y.
Definition amoand_fn (w x y : Z) : Z := x .& y.
Definition amomin_fn (w x y : Z) : Z := uwrap w (Z.min (swrap w x) (swrap w y)).
Definition amomax_fn (w x y : Z) : Z := uwrap w (Z.max (swrap w x) (swrap w y)).
Definition amominu_fn (w x y : Z) : Z := Z.min (uwrap w x) (uwrap w y).
Definition amomaxu_fn (w x y : Z) : Z := Z.max (uwrap w x) (uwrap w y).

Definition amo_fn (w : Z) (op : amo_op) (x y : Z) : Z :=
  match op with
  | amoswap => amoswap_fn w x y
  | amoadd => amoadd_fn w x y
  | amoxor => amoxor_fn w x y
  | amoor => amoor_fn w x y
  | amoand => amoand_fn w x y
  | amomin => amomin_fn w x y
  | amomax => amomax_fn w x y
  | amominu => amominu_fn w x y
  | amomaxu => amomaxu_fn w x y
  end.

(** ** Correctness of the multiply-high routines *)

Section MulHigh.
  Context (w q : Z) (Hw : w = 2 * q) (Hq : 0 < q).

Lemma half_mask : (1 <<[w] (w / 2)) -[w] 1 = 2 ^ q - 1.
Proof using Hw Hq.
  replace (w / 2) with q by (subst; rewrite Z.mul_comm, Z.div_mul; lia).
  rewrite shiftl_mul by lia. rewrite Z.mul_1_l.
  assert (0 < 2 ^ q) by (apply pow2_pos; lia).
  assert (2 ^ q < 2 ^ w) by (apply Z.pow_lt_mono_r; lia).
  rewrite !uwrap_small; split; try lia; rewrite uwrap_small; unfold in_u; lia.
Qed.

Lemma half_width : w / 2 = q.
Proof using Hw. subst; rewrite Z.mul_comm, Z.div_mul; lia. Qed.

(** The four half-width products recombine to the two halves of the product;
    no intermediate sum overflows. *)
Lemma partial_products (x0 x1 y0 y1 : Z) :
  0 <= x0 < 2 ^ q -> 0 <= x1 < 2 ^ q -> 0 <= y0 < 2 ^ q -> 0 <= y1 < 2 ^ q ->
  let mask := 2 ^ q - 1 in
  let z0 := x0 *[w] y0 in
  let z4 := (x1 *[w] y0) +[w] (z0 >>> q) in
  let c1 := (x0 *[w] y1) +[w] (z4 .& mask) in
  let p := (x1 * 2 ^ q + x0) * (y1 * 2 ^ q + y0) in
  (x1 *[w] y1) +[w] (z4 >>> q) +[w] (c1 >>> q) = p / 2 ^ w
  /\ (c1 <<[w] q) +[w] (z0 .& mask) = p mod 2 ^ w.
Proof using Hw Hq.
  intros Hx0 Hx1 Hy0 Hy1. cbv zeta. rewrite !uwrap_land, !shiftr_div, shiftl_mul by lia.
  assert (HB : 0 < 2 ^ q) by (apply pow2_pos; lia).
  assert (HBB : 2 ^ w = 2 ^ q * 2 ^ q) by (subst w; rewrite <- pow2_split by lia; f_equal; lia).
  rewrite (uwrap_small w (x0 * y0)), (uwrap_small w (x1 * y0)),
    (uwrap_small w (x0 * y1)), (uwrap_small w (x1 * y1)) by (split; rewrite ?HBB; nia).
  destruct (div_mod_ex (x0 * y0) (2 ^ q) HB) as (q0 & r0 & E0 & R0 & Ed0 & Em0).
  rewrite Ed0. change (uwrap q (x0 * y0)) with ((x0 * y0) mod 2 ^ q). rewrite Em0.
  assert (0 <= q0 < 2 ^ q) by nia.
  rewrite (uwrap_small w (x1 * y0 + q0)) by (split; rewrite ?HBB; nia).
  destruct (div_mod_ex (x1 * y0 + q0) (2 ^ q) HB) as (q4 & r4 & E4 & R4 & Ed4 & Em4).
  rewrite Ed4. change (uwrap q (x1 * y0 + q0)) with ((x1 * y0 + q0) mod 2 ^ q). rewrite Em4.
  rewrite (uwrap_small w (x0 * y1 + r4)) by (split; rewrite ?HBB; nia).
  destruct (div_mod_ex (x0 * y1 + r4) (2 ^ q) HB) as (qc & rc & Ec & Rc & Edc & Emc).
  rewrite Edc.
  assert (Hp : (x1 * 2 ^ q + x0) * (y1 * 2 ^ q + y0)
            = 2 ^ w * (x1 * y1 + q4 + qc) + (rc * 2 ^ q + r0)).
  { rewrite HBB. transitivity (x1 * y1 * (2 ^ q * 2 ^ q) + x1 * y0 * 2 ^ q + x0 * y1 * 2 ^ q + x0 * y0);
      [ring | rewrite E0].
    replace (x1 * y0) with (2 ^ q * q4 + r4 - q0) by lia.
    replace (x0 * y1) with (2 ^ q * qc + rc - r4) by lia. ring. }
  assert (0 <= rc * 2 ^ q + r0 < 2 ^ w) by (rewrite HBB; nia).
  assert (0 <= x1 * y1 + q4 + qc < 2 ^ w).
  { assert (0 <= x1 * 2 ^ q + x0 < 2 ^ w) by (rewrite HBB; nia).
    assert (0 <= y1 * 2 ^ q + y0 < 2 ^ w) by (rewrite HBB; nia).
    assert (0 <= q4 /\ 0 <= qc) by nia. split; nia. }
  split.
  - rewrite Hp. rewrite uwrap_add_l.
    rewrite uwrap_small by (split; lia).
    apply Z.div_unique with (r := rc * 2 ^ q + r0); lia.
  - rewrite Hp. rewrite uwrap_add_l.
    unfold uwrap. rewrite Ec.
    replace ((2 ^ q * qc + rc) * 2 ^ q + r0) with (rc * 2 ^ q + r0 + qc * 2 ^ w)
      by (rewrite HBB; ring).
    rewrite Z_mod_plus_full.
    rewrite (Z.add_comm (2 ^ w * _)), (Z.mul_comm (2 ^ w)), Z_mod_plus_full. reflexivity.
Qed.

(** The routine on whole words: the operands are split by shift and mask. *)
Lemma product_halves (x y : Z) :
  in_u w x -> in_u w y ->
  let mask := 2 ^ q - 1 in
  let x0 := x .& mask in
  let x1 := (x >>> q) .& mask in
  let y0 := y .& mask in
  let y1 := (y >>> q) .& mask in
  let z0 := x0 *[w] y0 in
  let z4 := (x1 *[w] y0) +[w] (z0 >>> q) in
  let c1 := (x0 *[w] y1) +[w] (z4 .& mask) in
  (x1 *[w] y1) +[w] (z4 >>> q) +[w] (c1 >>> q) = x * y / 2 ^ w
  /\ (c1 <<[w] q) +[w] (z0 .& mask) = (x * y) mod 2 ^ w.
Proof using Hw Hq.
  intros Hx Hy mask x0 x1 y0 y1.
  assert (HB : 0 < 2 ^ q) by (apply pow2_pos; lia).
  assert (Hsplit : forall v, in_u w v ->
    0 <= (v >>> q) .& mask < 2 ^ q /\ 0 <= v .& mask < 2 ^ q
    /\ v = ((v >>> q) .& mask) * 2 ^ q + (v .& mask)).
  { intros v [Hv0 Hv1]. unfold mask. rewrite !uwrap_land, shiftr_div by lia.
    assert (2 ^ w = 2 ^ q * 2 ^ q) by (subst w; rewrite <- pow2_split by lia; f_equal; lia).
    assert (0 <= v / 2 ^ q < 2 ^ q) by (split; [apply Z.div_pos | apply Z.div_lt_upper_bound]; lia).
    rewrite (uwrap_small q (v / 2 ^ q)) by assumption.
    split; [assumption | split; [apply uwrap_range; lia |]].
    unfold uwrap. pose proof (Z.div_mod v (2 ^ q) ltac:(lia)). lia. }
  destruct (Hsplit x Hx) as (Hx1 & Hx0 & Ex). destruct (Hsplit y Hy) as (Hy1 & Hy0 & Ey).
  pose proof (partial_products _ _ _ _ Hx0 Hx1 Hy0 Hy1) as P.
  cbv zeta in P. rewrite <- Ex, <- Ey in P. exact P.
Qed.

(** [(~s + 1) ^ (x - s)] with [s] the sign is the magnitude. *)
Lemma magnitude (x : Z) :
  in_s w x ->
  (bnot w (b2z (x <? 0)) +[w] 1) .^ (uwrap w x -[w] b2z (x <? 0)) = Z.abs x.
Proof using Hw Hq.
  intros [Hx0 Hx1]. pose proof (pow2_half w ltac:(lia)).
  assert (0 < 2 ^ (w - 1)) by (apply pow2_pos; lia).
  rewrite uwrap_sub_l. destruct (Z.ltb_spec x 0); simpl b2z.
  - rewrite bnot_val by (unfold in_u; lia).
    rewrite (uwrap_small w (2 ^ w - 1 - 1 + 1)) by (unfold in_u; lia).
    replace (2 ^ w - 1 - 1 + 1) with (2 ^ w - 1) by lia.
    rewrite <- (uwrap_add_multiple w _ 1), uwrap_small by (unfold in_u; lia).
    rewrite lxor_ones by (unfold in_u; lia). lia.
  - rewrite bnot_val by (unfold in_u; lia).
    replace (2 ^ w - 1 - 0 + 1) with (0 + 1 * 2 ^ w) by lia.
    rewrite uwrap_add_multiple, (uwrap_small w 0) by (unfold in_u; lia).
    rewrite Z.lxor_0_l, uwrap_small by (unfold in_u; lia). lia.
Qed.

(** The two-word conditional negation: the high half of [-p] or of [p]. *)
Lemma negate_high (p : Z) (neg : bool) :
  0 <= p < 2 ^ w * 2 ^ w ->
  let rs := b2z neg in
  let h1 := p / 2 ^ w in
  let l1 := p mod 2 ^ w in
  let l2 := l1 -[w] rs in
  uwrap w (- rs) .^ (h1 -[w] b2z (l1 <? l2))
    = uwrap w ((if neg then - p else p) / 2 ^ w).
Proof using Hw Hq.
  intros Hp. cbv zeta. assert (HB : 0 < 2 ^ w) by (apply pow2_pos; lia).
  destruct (div_mod_ex p (2 ^ w) HB) as (h & l & E & Hl & -> & ->).
  assert (0 <= h < 2 ^ w) by nia.
  destruct neg; cbn [b2z].
  - change (Z.opp 1) with (-1). replace (uwrap w (-1)) with (2 ^ w - 1)
      by (rewrite <- (uwrap_add_multiple w (-1) 1), uwrap_small; unfold in_u; lia).
    rewrite lxor_uwrap_ones by lia.
    destruct (Z.eq_dec l 0) as [-> |].
    + assert (2 ^ 1 < 2 ^ w) by (apply Z.pow_lt_mono_r; lia).
      replace (uwrap w (0 - 1)) with (2 ^ w - 1)
        by (rewrite <- (uwrap_add_multiple w (0 - 1) 1), uwrap_small; unfold in_u; lia).
      replace (- p) with (- h * 2 ^ w) by lia. rewrite Z.div_mul by lia.
      destruct (Z.ltb_spec 0 (2 ^ w - 1)); [simpl b2z; f_equal; lia | lia].
    + rewrite (uwrap_small w (l - 1)) by (unfold in_u; lia).
      destruct (Z.ltb_spec l (l - 1)); [lia | simpl b2z]. f_equal.
      replace (- p) with ((2 ^ w - l) + (- h - 1) * 2 ^ w) by lia.
      rewrite Z_div_plus_full, (Z.div_small (2 ^ w - l)); lia.
  - rewrite !Z.sub_0_r, (uwrap_small w l) by (unfold in_u; lia).
    rewrite Z.ltb_irrefl. simpl b2z. unfold uwrap at 1. rewrite Z.mod_0_l, Z.lxor_0_l by lia.
    f_equal. rewrite Z.sub_0_r. apply Z.div_unique with (r := l); lia.
Qed.
End MulHigh.

Lemma mulhu_value (w q x y : Z) :
  w = 2 * q -> 0 < q -> in_u w x -> in_u w y -> mulhu w x y = x * y / 2 ^ w.
Proof.
  intros Hw Hq Hx Hy. unfold mulhu. rewrite (half_mask w q), (half_width w q) by assumption.
  apply (product_halves w q Hw Hq x y Hx Hy).
Qed.

Lemma abs_in_u (w x : Z) : 0 < w -> in_s w x -> in_u w (Z.abs x).
Proof. intros Hw [? ?]. pose proof (pow2_half w Hw). unfold in_u. pow_pos. lia. Qed.

Lemma in_s_in_u_abs_mul (w x y : Z) : 0 < w -> in_u w x -> in_u w y -> 0 <= x * y < 2 ^ w * 2 ^ w.
Proof. intros ? [? ?] [? ?]. nia. Qed.

Lemma mulh_value (w q x y : Z) :
  w = 2 * q -> 0 < q -> in_s w x -> in_s w y -> mulh w x y = x * y / 2 ^ w.
Proof.
  intros Hw Hq Hx Hy. unfold mulh. rewrite (half_mask w q), (half_width w q) by assumption.
  rewrite !(magnitude w q) by assumption.
  pose proof (abs_in_u w x ltac:(lia) Hx) as Ax. pose proof (abs_in_u w y ltac:(lia) Hy) as Ay.
  destruct (product_halves w q Hw Hq _ _ Ax Ay) as [Eh El]. cbv zeta in Eh, El |- *.
  rewrite Eh, El. clear Eh El.
  replace (b2z (x <? 0) .^ b2z (y <? 0)) with (b2z (xorb (x <? 0) (y <? 0)))
    by (destruct (x <? 0), (y <? 0); reflexivity).
  pose proof (negate_high w q Hw Hq _ (xorb (x <? 0) (y <? 0))
    (in_s_in_u_abs_mul w _ _ ltac:(lia) Ax Ay)) as N. cbv zeta in N. rewrite N.
  replace (if xorb (x <? 0) (y <? 0) then - (Z.abs x * Z.abs y) else Z.abs x * Z.abs y)
    with (x * y) by (bcases; simpl; nia).
  rewrite swrap_uwrap. apply swrap_small; [lia |].
  destruct Hx, Hy. pose proof (pow2_half w ltac:(lia)). pow_pos.
  split; [apply Z.div_le_lower_bound | apply Z.div_lt_upper_bound]; nia.
Qed.

Lemma mulhsu_value (w q x y : Z) :
  w = 2 * q -> 0 < q -> in_s w x -> in_u w y -> mulhsu w x y = x * y / 2 ^ w.
Proof.
  intros Hw Hq Hx Hy. unfold mulhsu. rewrite (half_mask w q), (half_width w q) by assumption.
  rewrite !(magnitude w q) by assumption.
  pose proof (abs_in_u w x ltac:(lia) Hx) as Ax.
  destruct (product_halves w q Hw Hq _ _ Ax Hy) as [Eh El]. cbv zeta in Eh, El |- *.
  rewrite Eh, El. clear Eh El.
  pose proof (negate_high w q Hw Hq _ (x <? 0)
    (in_s_in_u_abs_mul w _ _ ltac:(lia) Ax Hy)) as N. cbv zeta in N. rewrite N.
  replace (if x <? 0 then - (Z.abs x * y) else Z.abs x * y) with (x * y) by (bcases; nia).
  rewrite swrap_uwrap. apply swrap_small; [lia |].
  destruct Hx, Hy. pose proof (pow2_half w ltac:(lia)). pow_pos.
  split; [apply Z.div_le_lower_bound | apply Z.div_lt_upper_bound]; nia.
Qed.

(** C23: At every even width the three multiply-high helpers, which work in half
    words and on magnitudes, return the high word of the full product, rounded
    towards minus infinity: unsigned, signed, and signed by unsigned. *)
Theorem multiply_high_spec (w q x y x' y' : Z) :
  w = 2 * q -> 0 < q -> in_u w x -> in_u w y -> in_s w x' -> in_s w y' ->
  mulhu w x y = x * y / 2 ^ w /\ mulh w x' y' = x' * y' / 2 ^ w /\ mulhsu w x' y = x' * y / 2 ^ w.
Proof. intros. split; [| split]; eauto using mulhu_value, mulh_value, mulhsu_value. Qed.

Lemma multiply_high_spec_witness :
  mulhu 64 (2 ^ 64 - 1) (2 ^ 64 - 1) = 2 ^ 64 - 2
  /\ mulhu 64 (2 ^ 64 - 1) (2 ^ 64 - 1) = (2 ^ 64 - 1) * (2 ^ 64 - 1) / 2 ^ 64
  /\ mulh 64 (- 2 ^ 63) (-1) = (- 2 ^ 63) * (-1) / 2 ^ 64
  /\ mulhsu 64 (- 2 ^ 63) (2 ^ 64 - 1) = (- 2 ^ 63) * (2 ^ 64 - 1) / 2 ^ 64.
Proof. split; [reflexivity | apply (multiply_high_spec 64 32); unfold in_u, in_s; lia]. Defined.

(** ** Division *)

(** The quotient overflows only for the least value over minus one. *)
Lemma quot_in_s (w x y : Z) :
  1 < w -> in_s w x -> in_s w y -> (x <> - 2 ^ (w - 1) \/ y <> -1) -> y <> 0 -> in_s w (Z.quot x y).
Proof.
  intros Hw Hx Hy Hno Hy0. unfold in_s in *.
  assert (1 < 2 ^ (w - 1)) by (change 1 with (2 ^ 0); apply Z.pow_lt_mono_r; lia).
  assert (Z.abs y * Z.abs (Z.quot x y) <= Z.abs x)
    by (rewrite <- Z.quot_abs by assumption; apply Z.mul_quot_le; lia).
  destruct (Z.eq_dec y (-1)) as [-> |].
  { change (-1) with (Z.opp 1). rewrite Z.quot_opp_r, Z.quot_1_r by lia. lia. }
  destruct (Z.eq_dec y 1) as [-> |]; [rewrite Z.quot_1_r; lia |].
  assert (2 * Z.abs (Z.quot x y) <= Z.abs y * Z.abs (Z.quot x y))
    by (apply Z.mul_le_mono_nonneg_r; lia).
  lia.
Qed.

Lemma div_rem_regular (w x y : Z) :
  1 < w -> in_s w x -> in_s w y -> (x <> - 2 ^ (w - 1) \/ y <> -1) ->
  let d := if y =? 0 then -1 else swrap w (Z.quot x y) in
  let r := if y =? 0 then x else swrap w (Z.rem x y) in
  in_s w d /\ in_s w r /\ swrap w (d * y + r) = x
  /\ (y <> 0 -> Z.abs r < Z.abs y /\ 0 <= r * x)
  /\ (y = 0 -> d = -1 /\ r = x).
Proof.
  intros Hw Hx Hy Hno. cbv zeta.
  assert (1 < 2 ^ (w - 1)) by (change 1 with (2 ^ 0); apply Z.pow_lt_mono_r; lia).
  destruct (Z.eqb_spec y 0) as [-> | Hy0].
  - split; [unfold in_s; lia |]. split; [assumption |].
    split; [rewrite Z.mul_0_r, Z.add_0_l; apply swrap_small; [lia | assumption] |].
    split; lia.
  - pose proof (Z.quot_rem x y Hy0) as E. pose proof (Z.rem_bound_abs x y Hy0) as B.
    pose proof (Z.rem_sign_nz x y Hy0) as S. 
    assert (Hs : 0 <= Z.rem x y * x).
    { destruct (Z.eq_dec (Z.rem x y) 0) as [-> |]; [lia |].
      specialize (S ltac:(assumption)). destruct (Z.rem x y), x; simpl in *; lia. }
    assert (Hr : in_s w (Z.rem x y)) by (unfold in_s in *; lia).
    assert (Hq : in_s w (Z.quot x y)) by (apply quot_in_s; assumption).
    rewrite (swrap_small w _ ltac:(lia) Hq), (swrap_small w _ ltac:(lia) Hr).
    replace (Z.quot x y * y + Z.rem x y) with x by lia.
    rewrite (swrap_small w x) by (assumption || lia).
    repeat split; try apply Hr; try apply Hq; lia.
Qed.

(** Signed division and remainder are total on every pair of words: the
    results are words; for a non-zero divisor the Euclidean equation holds
    (modulo the wrap at [min / -1]), the remainder is smaller than the divisor
    and has the sign of the dividend; division by zero gives -1 and the
    dividend. *)
Lemma div_rem_value (w x y : Z) :
  1 < w -> in_s w x -> in_s w y ->
  in_s w (div w x y) /\ in_s w (rem w x y)
  /\ swrap w (div w x y * y + rem w x y) = x
  /\ (y <> 0 -> Z.abs (rem w x y) < Z.abs y /\ 0 <= rem w x y * x)
  /\ (y = 0 -> div w x y = -1 /\ rem w x y = x).
Proof.
  intros Hw Hx Hy. pose proof (pow2_half w ltac:(lia)) as Hh.
  assert (1 < 2 ^ (w - 1)) by (change 1 with (2 ^ 0); apply Z.pow_lt_mono_r; lia).
  unfold div, rem, limits_min. destruct Hx as [Hx0 Hx1]. destruct Hy as [Hy0 Hy1].
  destruct (Z.eqb_spec x (- 2 ^ (w - 1))) as [-> |]; simpl andb.
  - destruct (Z.eqb_spec y (-1)) as [-> |].
    + unfold in_s. repeat split; try lia.
      unfold swrap. replace (- 2 ^ (w - 1) * -1 + 0 + 2 ^ (w - 1)) with (0 + 1 * 2 ^ w) by lia.
      rewrite Z_mod_plus_full, Z.mod_0_l; lia.
    + apply div_rem_regular; unfold in_s; lia.
  - apply div_rem_regular; unfold in_s; lia.
Qed.

(** Unsigned division is total too, with the all-ones quotient and the
    dividend as remainder for a zero divisor. *)
Lemma divu_remu_value (w x y : Z) :
  0 < w -> in_u w x -> in_u w y ->
  in_u w (divu w x y) /\ in_u w (remu w x y)
  /\ (y <> 0 -> x = divu w x y * y + remu w x y /\ remu w x y < y)
  /\ (y = 0 -> divu w x y = 2 ^ w - 1 /\ remu w x y = x).
Proof.
  intros Hw [Hx0 Hx1] [Hy0 Hy1]. unfold divu, remu. pose proof (pow2_pos w ltac:(lia)).
  destruct (Z.eqb_spec y 0) as [-> |].
  - rewrite <- (uwrap_add_multiple w (-1) 1) by lia.
    rewrite uwrap_small by (unfold in_u; lia). unfold in_u. lia.
  - pose proof (Z.mod_pos_bound x y ltac:(lia)). pose proof (Z.div_mod x y ltac:(lia)).
    assert (0 <= x / y <= x) by (split; [apply Z.div_pos; lia | apply Z.div_le_upper_bound; nia]).
    rewrite !uwrap_small by (unfold in_u; lia). unfold in_u. lia.
Qed.

(** Division never fails.  Signed: the results are words; the Euclidean equation
    holds modulo the wrap at [min / -1]; for a divisor other than zero the remainder
    is smaller and has the sign of the dividend; by zero the quotient is -1 and the
    remainder the dividend.  Unsigned: the same with the all-ones quotient. *)
Theorem division_total (w x y x' y' : Z) :
  1 < w -> in_s w x -> in_s w y -> in_u w x' -> in_u w y' ->
  (in_s w (div w x y) /\ in_s w (rem w x y)
   /\ swrap w (div w x y * y + rem w x y) = x
   /\ (y <> 0 -> Z.abs (rem w x y) < Z.abs y /\ 0 <= rem w x y * x)
   /\ (y = 0 -> div w x y = -1 /\ rem w x y = x))
  /\ in_u w (divu w x' y') /\ in_u w (remu w x' y')
  /\ (y' <> 0 -> x' = divu w x' y' * y' + remu w x' y' /\ remu w x' y' < y')
  /\ (y' = 0 -> divu w x' y' = 2 ^ w - 1 /\ remu w x' y' = x').
Proof. intros. split; [apply div_rem_value | apply divu_remu_value]; assumption || lia. Qed.

Lemma division_total_witness :
  div 64 (- 2 ^ 63) (-1) = - 2 ^ 63 /\ rem 64 (-7) 2 = -1
  /\ in_s 64 (div 64 (-7) 2) /\ in_u 64 (divu 64 7 2).
Proof.
  split; [reflexivity | split; [reflexivity |]].
  destruct (division_total 64 (-7) 2 7 2) as [(H & _) (H' & _)]; unfold in_s, in_u; try lia.
  split; [exact H | exact H'].
Defined.

Lemma unsigned_signed (w x : Z) : in_u w x -> uwrap w (swrap w x) = x.
Proof. intros. rewrite uwrap_swrap. apply uwrap_small; assumption. Qed.

(** Every AMO operator returns a word, the minimum and maximum operators
    return one of their operands, and the order they use is the signed one for
    [amomin]/[amomax] and the unsigned one for [amominu]/[amomaxu]. *)
Theorem amo_fn_spec (w : Z) (op : amo_op) (x y : Z) :
  0 < w -> in_u w x -> in_u w y ->
  in_u w (amo_fn w op x y) /\
  match op with
  | amomin => amo_fn w op x y = if swrap w x <=? swrap w y then x else y
  | amomax => amo_fn w op x y = if swrap w x <=? swrap w y then y else x
  | amominu => amo_fn w op x y = if x <=? y then x else y
  | amomaxu => amo_fn w op x y = if x <=? y then y else x
  | amoswap => amo_fn w op x y = y
  | amoadd => swrap w (amo_fn w op x y) = swrap w (swrap w x + swrap w y)
  | _ => True
  end.
Proof.
  intros Hw Hx Hy.
  assert (Emin : amo_fn w amomin x y = if swrap w x <=? swrap w y then x else y).
  { cbn [amo_fn]. unfold amomin_fn. destruct (Z.leb_spec (swrap w x) (swrap w y)).
    - rewrite Z.min_l by lia. apply unsigned_signed; assumption.
    - rewrite Z.min_r by lia. apply unsigned_signed; assumption. }
  assert (Emax : amo_fn w amomax x y = if swrap w x <=? swrap w y then y else x).
  { cbn [amo_fn]. unfold amomax_fn. destruct (Z.leb_spec (swrap w x) (swrap w y)).
    - rewrite Z.max_r by lia. apply unsigned_signed; assumption.
    - rewrite Z.max_l by lia. apply unsigned_signed; assumption. }
  destruct op; rewrite ?Emin, ?Emax; cbn [amo_fn];
    unfold amoswap_fn, amoadd_fn, amoxor_fn, amoor_fn, amoand_fn, amominu_fn, amomaxu_fn;
    rewrite ?(uwrap_small w x), ?(uwrap_small w y) by assumption;
    (split; [auto using Z.lt_le_incl with words |]); try exact I; try reflexivity.
  - apply swrap_uwrap_inj. rewrite <- (uwrap_add_l w (swrap w x)), <- (uwrap_add_r w _ (swrap w y)).
    autorewrite with wrap. reflexivity.
  - apply land_range; [lia | assumption | apply Hy].
  - destruct (_ <=? _); assumption.
  - destruct (_ <=? _); assumption.
  - unfold in_u in *; lia.
  - bcases; lia.
  - unfold in_u in *; lia.
  - bcases; lia.
Qed.

Lemma amo_fn_spec_witness :
  amo_fn 32 amomin (2 ^ 32 - 1) 1 = 2 ^ 32 - 1
  /\ in_u 32 (amo_fn 32 amomin (2 ^ 32 - 1) 1).
Proof. split; [reflexivity | apply (amo_fn_spec 32 amomin (2 ^ 32 - 1) 1); unfold in_u; lia]. Defined.
