(* ===== verification/Bits.v ===== *)
(** * Bit utilities: [asm/bits.h]

    Counting and rounding by loops in constant time, the overflow tests, the
    population counts in parallel, and what they compute. *)

From Stdlib Require Import ZArith Lia Bool List.
From stdpp Require Import base numbers list.
From S2P Require Import Prelude.

#[local] Open Scope Z_scope.
#[local] Open Scope word_scope.

(** ** The functions, at an unsigned type of [n] bits *)

Definition bit_at (val : Z) (i : nat) : bool := negb ((val .& Z.shiftl 1 (Z.of_nat i)) =? 0).

Definition popcount (n : nat) (val : Z) : Z :=
  fold_left (fun count i => count + b2z (bit_at val i)) (List.seq 0 n) 0.

(** One round of the counting loops: [count += !(found |= ...)]. *)
Definition count_round (val : Z) (s : Z * bool) (i : nat) : Z * bool :=
  let found := snd s || bit_at val i in (fst s + b2z (negb found), found).

Definition clz (n : nat) (val : Z) : Z := fst (fold_left (count_round val) (rev (List.seq 0 n)) (0, false)).
Definition ctz (n : nat) (val : Z) : Z := fst (fold_left (count_round val) (List.seq 0 n) (0, false)).

Definition ispow2 (n : Z) (val : Z) : bool := negb (val =? 0) && ((val .& (val -[n] 1)) =? 0).

(** [1 << k] is an [int]; [None]: the shift is undefined. *)
Definition roundpow2 (n : nat) (val : Z) : option Z :=
  if ispow2 (Z.of_nat n) val then Some val
  else
    let k := Z.of_nat n - clz n val in
    if 31 <? k then None else Some (uwrap (Z.of_nat n) (swrap 32 (Z.shiftl 1 k))).

Definition round_up (w addr page_size : Z) : Z :=
  ((addr +[w] page_size) -[w] 1) .& bnot w (page_size -[w] 1).

(** [bitextend] at a signed or unsigned type of [w] bits, as its word. *)
Definition bitextend (w val b : Z) : Z :=
  let mask := 1 <<[w] (b - 1) in
  let val := val .& ((1 <<[w] b) -[w] 1) in
  (val .^ mask) -[w] mask.

(** The parallel counts, for compilers without the builtin. *)
Definition pair_sum (mask s val : Z) : Z := (val .& mask) + ((val >>> s) .& mask).
Definition popcount16 (val : Z) : Z :=
  let val := pair_sum 0x5555 1 val in
  let val := pair_sum 0x3333 2 val in
  let val := pair_sum 0x0f0f 4 val in
  uwrap 16 (pair_sum 0x00ff 8 val).
Definition popcount32 (val : Z) : Z :=
  let val := uwrap 32 (pair_sum 0x55555555 1 val) in
  let val := uwrap 32 (pair_sum 0x33333333 2 val) in
  let val := uwrap 32 (pair_sum 0x0f0f0f0f 4 val) in
  let val := uwrap 32 (pair_sum 0x00ff00ff 8 val) in
  uwrap 32 (pair_sum 0x0000ffff 16 val).
Definition popcount64 (val : Z) : Z :=
  let val := uwrap 64 (pair_sum 0x5555555555555555 1 val) in
  let val := uwrap 64 (pair_sum 0x3333333333333333 2 val) in
  let val := uwrap 64 (pair_sum 0x0f0f0f0f0f0f0f0f 4 val) in
  let val := uwrap 64 (pair_sum 0x00ff00ff00ff00ff 8 val) in
  let val := uwrap 64 (pair_sum 0x0000ffff0000ffff 16 val) in
  uwrap 32 (uwrap 32 val + uwrap 32 (val >>> 32)).

(** The limits and the overflow tests at a type of [w] bits. *)
Definition type_min (w : Z) (signed : bool) : Z := if signed then - 2 ^ (w - 1) else 0.
Definition type_max (w : Z) (signed : bool) : Z := if signed then 2 ^ (w - 1) - 1 else 2 ^ w - 1.
Definition wrap (w : Z) (signed : bool) (x : Z) : Z := if signed then swrap w x else uwrap w x.
Definition add_overflow (w : Z) (signed : bool) (a b : Z) : bool :=
  if b <? 1 then negb (wrap w signed (type_min w signed - b) <=? a)
  else negb (a <=? wrap w signed (type_max w signed - b)).
Definition sub_underflow (w : Z) (signed : bool) (a b : Z) : bool :=
  if b <? 1 then negb (a <=? wrap w signed (type_max w signed + b))
  else negb (wrap w signed (type_min w signed + b) <=? a).

(** ** What they compute *)

Lemma bit_at_spec (val : Z) (i : nat) : bit_at val i = Z.testbit val (Z.of_nat i).
Proof.
  unfold bit_at. rewrite shiftl_mul, Z.mul_1_l by lia.
  destruct (Z.testbit val (Z.of_nat i)) eqn:E.
  - apply negb_true_iff, Z.eqb_neq. intros H.
    assert (Hb := f_equal (fun z => Z.testbit z (Z.of_nat i)) H). cbv beta in Hb.
    rewrite Z.land_spec, E, Z.pow2_bits_true, Z.bits_0 in Hb by lia. discriminate Hb.
  - apply negb_false_iff, Z.eqb_eq, Z.bits_inj'. intros j Hj.
    rewrite Z.land_spec, Z.bits_0, Z.pow2_bits_eqb by lia.
    destruct (Z.eqb_spec (Z.of_nat i) j) as [<- |]; [rewrite E; reflexivity | apply andb_false_r].
Qed.

(** The loops keep the count of positions before the first bit found. *)
Lemma count_loop (val : Z) (l : list nat) : forall count,
  (snd (fold_left (count_round val) l (count, false)) = existsb (bit_at val) l)
  /\ exists k, fst (fold_left (count_round val) l (count, false)) = count + Z.of_nat k
     /\ (k <= length l)%nat
     /\ (forall j, (j < k)%nat -> exists i, l !! j = Some i /\ bit_at val i = false)
     /\ (forall i, l !! k = Some i -> bit_at val i = true).
Proof.
  assert (Hf : forall l count, fold_left (count_round val) l (count, true) = (count, true)).
  { intros l'. induction l' as [| i l' IH]; intros c; [reflexivity |]. cbn [fold_left].
    replace (count_round val (c, true) i) with (c, true) by (unfold count_round; cbn; f_equal; lia). apply IH. }
  induction l as [| i l IH]; intros count; cbn [fold_left existsb length].
  - split; [reflexivity |]. exists 0%nat. cbn. repeat split; try lia; discriminate.
  - assert (Hr : count_round val (count, false) i = (count + b2z (negb (bit_at val i)), bit_at val i)) by reflexivity.
    rewrite Hr. destruct (bit_at val i) eqn:E; cbn [negb b2z orb].
    + rewrite Hf. cbn. split; [reflexivity |]. exists 0%nat. repeat split; try lia.
      cbn. intros ? [= <-]. exact E.
    + destruct (IH (count + 1)) as (H1 & k & H2 & H3 & H4 & H5). split; [exact H1 |].
      exists (S k). rewrite H2. repeat split; try lia.
      * intros [| j] Hj; [exists i; auto | apply H4; lia].
      * exact H5.
Qed.

Lemma seq_nth (n j i : nat) : List.seq 0 n !! j = Some i -> i = j /\ (j < n)%nat.
Proof. intros H. change (List.seq 0 n) with (seq 0 n) in H. apply lookup_seq in H. lia. Qed.

(** [ctz] is the position of the lowest bit set, or the width. *)
Lemma ctz_spec (n : nat) (val : Z) :
  0 <= ctz n val <= Z.of_nat n
  /\ (forall i, 0 <= i < ctz n val -> Z.testbit val i = false)
  /\ (ctz n val < Z.of_nat n -> Z.testbit val (ctz n val) = true).
Proof.
  unfold ctz. destruct (count_loop val (List.seq 0 n) 0) as (_ & k & -> & Hk & Hb & Ht).
  rewrite Z.add_0_l in *. rewrite List.length_seq in Hk. split; [lia |]. split.
  - intros i Hi. destruct (Hb (Z.to_nat i) ltac:(lia)) as (i' & Hi' & E).
    apply seq_nth in Hi' as [-> _]. rewrite bit_at_spec, Z2Nat.id in E by lia. exact E.
  - intros Hlt. rewrite <- bit_at_spec. apply Ht. apply (lookup_seq_lt 0). lia.
Qed.

(** [clz] counts down from the top: the highest bit set is at [n - 1 - clz]. *)
Lemma clz_spec (n : nat) (val : Z) :
  0 <= clz n val <= Z.of_nat n
  /\ (forall i, Z.of_nat n - clz n val <= i < Z.of_nat n -> Z.testbit val i = false)
  /\ (clz n val < Z.of_nat n -> Z.testbit val (Z.of_nat n - 1 - clz n val) = true).
Proof.
  unfold clz. destruct (count_loop val (rev (List.seq 0 n)) 0) as (_ & k & -> & Hk & Hb & Ht).
  rewrite Z.add_0_l in *. rewrite List.length_rev, List.length_seq in Hk.
  assert (Hnth : forall j, (j < n)%nat -> rev (List.seq 0 n) !! j = Some (n - 1 - j)%nat).
  { intros j Hj. rewrite List.rev_alt. change (reverse (seq 0 n) !! j = Some (n - 1 - j)%nat).
    rewrite reverse_lookup by (rewrite length_seq; lia). rewrite length_seq. rewrite lookup_seq_lt by lia. f_equal. lia. }
  split; [lia |]. split.
  - intros i Hi. destruct (Hb (n - 1 - Z.to_nat i)%nat ltac:(lia)) as (i' & Hi' & E).
    rewrite Hnth in Hi' by lia. injection Hi' as <-. rewrite bit_at_spec in E.
    rewrite <- E. f_equal. lia.
  - intros Hlt. rewrite <- (Ht (n - 1 - k)%nat) by (apply Hnth; lia). rewrite bit_at_spec. f_equal. lia.
Qed.

(** ** The parallel counts *)

(** The sum of the [m] lowest fields of [k] bits. *)
Fixpoint field_sum (m : nat) (k x : Z) : Z :=
  match m with
  | O => 0
  | S m' => x mod 2 ^ k + field_sum m' k (x / 2 ^ k)
  end.

(** Ones in the lower half of each of [m] fields of [2 * k] bits. *)
Fixpoint half_ones (m : nat) (k : Z) : Z :=
  match m with
  | O => 0
  | S m' => (2 ^ k - 1) + half_ones m' k * 2 ^ (2 * k)
  end.

Lemma land_concat (n a b c d : Z) : 0 <= n -> in_u n a -> in_u n c ->
  (a + b * 2 ^ n) .& (c + d * 2 ^ n) = (a .& c) + (b .& d) * 2 ^ n.
Proof.
  intros Hn Ha Hc. assert (Hac : in_u n (a .& c)) by (apply land_range; [lia | exact Ha | apply Hc]).
  rewrite <- !lor_concat by assumption. apply Z.bits_inj'. intros i Hi.
  rewrite !Z.land_spec, !Z.lor_spec, !Z.land_spec, !testbit_shiftl by lia. rewrite Z.land_spec.
  destruct (Z.leb_spec n i); cbn [andb].
  - rewrite (testbit_high n a), (testbit_high n c) by (assumption || lia). reflexivity.
  - rewrite !orb_false_r. reflexivity.
Qed.

(** One halving step adds the fields in pairs, without carries between pairs. *)
Lemma pair_sum_spec (k : Z) (m : nat) : 0 < k -> forall x, 0 <= x < 2 ^ (2 * k * Z.of_nat m) ->
  let y := pair_sum (half_ones m k) k x in
  0 <= y < 2 ^ (2 * k * Z.of_nat m) /\ field_sum m (2 * k) y = field_sum (2 * m) k x.
Proof.
  intros Hk. assert (HK : 0 < 2 ^ k) by (apply pow2_pos; lia).
  assert (HB : 2 ^ (2 * k) = 2 ^ k * 2 ^ k) by (rewrite <- pow2_split by lia; f_equal; lia).
  assert (H2k : 2 <= 2 ^ k) by (change 2 with (2 ^ 1) at 1; apply Z.pow_le_mono_r; lia).
  induction m as [| m IH]; intros x Hx; cbv zeta.
  - change (Z.of_nat 0) with 0 in *. rewrite Z.mul_0_r in *. change (2 ^ 0) with 1 in *. unfold pair_sum. cbn [half_ones]. rewrite !Z.land_0_r.
    split; [lia | reflexivity].
  - assert (HM : 2 ^ (2 * k * Z.of_nat (S m)) = 2 ^ (2 * k) * 2 ^ (2 * k * Z.of_nat m))
      by (rewrite <- pow2_split by lia; f_equal; lia).
    assert (HMp : 0 < 2 ^ (2 * k * Z.of_nat m)) by (apply pow2_pos; lia).
    rewrite HM in Hx |- *.
    destruct (div_mod_ex x (2 ^ (2 * k)) ltac:(lia)) as (x' & d & Ex & Hd & _ & _).
    destruct (div_mod_ex d (2 ^ k) HK) as (dh & dl & Ed & Hdl & Edh & Edl).
    assert (Hx' : 0 <= x' < 2 ^ (2 * k * Z.of_nat m)) by nia.
    assert (Hdh : 0 <= dh < 2 ^ k) by nia.
    destruct (IH x' Hx') as [Hr Hs]. set (y' := pair_sum (half_ones m k) k x') in *.
    assert (Ey : pair_sum (half_ones (S m) k) k x = (dl + dh) + y' * 2 ^ (2 * k)).
    { unfold pair_sum. cbn [half_ones]. rewrite Ex. rewrite (Z.mul_comm (2 ^ (2 * k)) x'), (Z.add_comm _ d).
      rewrite land_concat by (unfold in_u; nia).
      assert (Esh : (d + x' * 2 ^ (2 * k)) >>> k = (dh + (x' mod 2 ^ k) * 2 ^ k) + (x' >>> k) * 2 ^ (2 * k)).
      { rewrite !shiftr_div by lia. pose proof (Z.div_mod x' (2 ^ k) ltac:(lia)).
        symmetry. apply Z.div_unique with (r := dl); [lia |]. rewrite Ed, HB. nia. }
      pose proof (Z.mod_pos_bound x' (2 ^ k) HK).
      rewrite Esh, land_concat by (unfold in_u; nia).
      rewrite !uwrap_land by lia. unfold uwrap.
      rewrite Edl, Z_mod_plus_full, (Z.mod_small dh) by lia. unfold y', pair_sum. lia. }
    rewrite Ey. split; [nia |].
    replace (2 * S m)%nat with (S (S (2 * m))) by lia. cbn [field_sum].
    rewrite Z_mod_plus_full, (Z.mod_small (dl + dh)) by nia.
    rewrite Z_div_plus_full, (Z.div_small (dl + dh)), Z.add_0_l, Hs by nia.
    assert (Exk : x / 2 ^ k = (dh + x' * 2 ^ k)) by (symmetry; apply Z.div_unique with (r := dl); nia).
    assert (Exm : x mod 2 ^ k = dl) by (symmetry; apply Z.mod_unique with (q := dh + x' * 2 ^ k); nia).
    rewrite Exk, Exm, Z_mod_plus_full, (Z.mod_small dh), Z_div_plus_full, (Z.div_small dh), Z.add_0_l by lia. lia.
Qed.

Lemma popcount_fields (n : nat) (val : Z) : popcount n val = field_sum n 1 val.
Proof.
  unfold popcount.
  assert (H : forall n s c, fold_left (fun count i => count + b2z (bit_at val i)) (List.seq s n) c
    = c + field_sum n 1 (val >>> Z.of_nat s)).
  { intros m. induction m as [| m IH]; intros s c; cbn [List.seq fold_left field_sum]; [lia |].
    rewrite IH, bit_at_spec. rewrite <- (Z.shiftr_div_pow2 _ 1), Z.shiftr_shiftr by lia.
    replace (Z.of_nat s + 1) with (Z.of_nat (S s)) by lia. change (2 ^ 1) with 2.
    rewrite <- Z.bit0_mod, Z.shiftr_spec, Z.add_0_l by lia.
    destruct (Z.testbit val (Z.of_nat s)); cbn; lia. }
  rewrite H, Z.shiftr_0_r. lia.
Qed.

(** The step of a population count at [w] bits, with its mask. *)
Lemma count_step (w k k2 M : Z) (m n : nat) (x : Z) :
  0 < k -> k2 = 2 * k -> n = (2 * m)%nat -> w = k2 * Z.of_nat m -> M = half_ones m k -> in_u w x ->
  uwrap w (pair_sum M k x) = pair_sum M k x /\ in_u w (pair_sum M k x)
  /\ field_sum m k2 (pair_sum M k x) = field_sum n k x.
Proof.
  intros Hk -> -> -> -> Hx. destruct (pair_sum_spec k m Hk x Hx) as [H1 H2]. split; [apply uwrap_small, H1 | auto].
Qed.

Ltac halve w k k2 M m n R :=
  let U := fresh in let R' := fresh in let S := fresh in
  destruct (count_step w k k2 M m n _ eq_refl eq_refl eq_refl eq_refl eq_refl R) as (U & R' & S);
  rewrite <- S; try rewrite U; clear U S R; rename R' into R.

Lemma bit_sum_le (m : nat) (x : Z) : field_sum m 1 x <= Z.of_nat m.
Proof.
  revert x. induction m as [| m IH]; intros x; cbn [field_sum]; [lia |].
  specialize (IH (x / 2 ^ 1)). pose proof (Z.mod_pos_bound x (2 ^ 1) ltac:(lia)). change (2 ^ 1) with 2 in *. lia.
Qed.

(** The population counts in parallel are the count of the bits, at 16, 32 and 64
    bits. *)
Lemma popcount_parallel (v16 v32 v64 : Z) : in_u 16 v16 -> in_u 32 v32 -> in_u 64 v64 ->
  popcount16 v16 = popcount 16 v16 /\ popcount32 v32 = popcount 32 v32 /\ popcount64 v64 = popcount 64 v64.
Proof.
  intros R16 R32 R64. rewrite !popcount_fields. split; [| split].
  - unfold popcount16. cbv zeta.
    halve 16 1 2 0x5555 8%nat 16%nat R16. halve 16 2 4 0x3333 4%nat 8%nat R16.
    halve 16 4 8 0x0f0f 2%nat 4%nat R16. halve 16 8 16 0x00ff 1%nat 2%nat R16.
    cbn [field_sum]. rewrite Z.add_0_r. symmetry. apply Z.mod_small, R16.
  - unfold popcount32. cbv zeta.
    halve 32 1 2 0x55555555 16%nat 32%nat R32. halve 32 2 4 0x33333333 8%nat 16%nat R32.
    halve 32 4 8 0x0f0f0f0f 4%nat 8%nat R32. halve 32 8 16 0x00ff00ff 2%nat 4%nat R32.
    halve 32 16 32 0x0000ffff 1%nat 2%nat R32.
    cbn [field_sum]. rewrite Z.add_0_r. symmetry. apply Z.mod_small, R32.
  - pose proof (bit_sum_le 64 v64) as Hb. revert Hb. unfold popcount64. cbv zeta.
    halve 64 1 2 0x5555555555555555 32%nat 64%nat R64. halve 64 2 4 0x3333333333333333 16%nat 32%nat R64.
    halve 64 4 8 0x0f0f0f0f0f0f0f0f 8%nat 16%nat R64. halve 64 8 16 0x00ff00ff00ff00ff 4%nat 8%nat R64.
    halve 64 16 32 0x0000ffff0000ffff 2%nat 4%nat R64.
    cbn [field_sum]. rewrite Z.add_0_r, shiftr_div by lia. intros Hb. apply uwrap_small.
    pose proof (uwrap_range 32 (pair_sum 0x0000ffff0000ffff 16 (pair_sum 0x00ff00ff00ff00ff 8
      (pair_sum 0x0f0f0f0f0f0f0f0f 4 (pair_sum 0x3333333333333333 2 (pair_sum 0x5555555555555555 1 v64))))) ltac:(lia)).
    pose proof (uwrap_range 32 (pair_sum 0x0000ffff0000ffff 16 (pair_sum 0x00ff00ff00ff00ff 8
      (pair_sum 0x0f0f0f0f0f0f0f0f 4 (pair_sum 0x3333333333333333 2 (pair_sum 0x5555555555555555 1 v64)))) / 2 ^ 32) ltac:(lia)).
    unfold in_u, uwrap in *. split; [lia |]. eapply Z.le_lt_trans; [exact Hb | reflexivity].
Qed.

(** ** Overflow, extension, rounding *)

Definition in_type (w : Z) (signed : bool) (x : Z) : Prop := if signed then in_s w x else in_u w x.

Lemma wrap_small (w : Z) (signed : bool) (x : Z) : 0 < w -> in_type w signed x -> wrap w signed x = x.
Proof. intros Hw. destruct signed; cbn; [apply swrap_small, Hw | apply uwrap_small]. Qed.

(** The tests are exact, and compute without leaving the type. *)
Lemma overflow_exact (w : Z) (signed : bool) (a b : Z) : 1 < w -> in_type w signed a -> in_type w signed b ->
  (add_overflow w signed a b = true <-> ~ in_type w signed (a + b))
  /\ (sub_underflow w signed a b = true <-> ~ in_type w signed (a - b)).
Proof.
  intros Hw Ha Hb. pose proof (pow2_half w ltac:(lia)). pose proof (pow2_pos (w - 1) ltac:(lia)).
  unfold add_overflow, sub_underflow. destruct signed; cbn [in_type type_min type_max] in *.
  all: unfold in_s, in_u in *; destruct (Z.ltb_spec b 1);
    rewrite !wrap_small by (cbn [in_type]; unfold in_s, in_u; lia || exact Hw);
    rewrite !negb_true_iff, !Z.leb_gt; lia.
Qed.

(** Sign extension of the low [b] bits. *)
Lemma bitextend_spec (w val b : Z) : 0 < b < w -> bitextend w val b = uwrap w (swrap b val).
Proof.
  intros Hb. unfold bitextend. pose proof (pow2_pos (b - 1) ltac:(lia)). pose proof (pow2_half b ltac:(lia)).
  assert (2 ^ b < 2 ^ w) by (apply Z.pow_lt_mono_r; lia).
  rewrite !shiftl_mul, !Z.mul_1_l by lia.
  rewrite (uwrap_small w (2 ^ (b - 1))), (uwrap_small w (2 ^ b)), (uwrap_small w (2 ^ b - 1)) by (unfold in_u; lia).
  rewrite uwrap_land by lia. rewrite <- swrap_uwrap.
  assert (Hx : 0 <= uwrap b val < 2 ^ b) by (apply uwrap_range; lia). set (x := uwrap b val) in *.
  destruct (Z.lt_ge_cases x (2 ^ (b - 1))) as [Hlt | Hge].
  - rewrite swrap_small by (unfold in_s; lia).
    replace (x .^ 2 ^ (b - 1)) with (x + 2 ^ (b - 1)); [f_equal; lia |].
    rewrite Z.add_nocarry_lxor; [reflexivity |].
    apply Z.bits_inj'. intros i Hi. rewrite Z.land_spec, Z.pow2_bits_eqb, Z.bits_0 by lia.
    destruct (Z.eqb_spec (b - 1) i) as [<- |]; [| apply andb_false_r].
    rewrite (testbit_high (b - 1) x) by (unfold in_u; lia). reflexivity.
  - assert (Es : swrap b x = x - 2 ^ b).
    { unfold swrap. replace (x + 2 ^ (b - 1)) with ((x - 2 ^ (b - 1)) + 1 * 2 ^ b) by lia.
      rewrite Z_mod_plus_full, Z.mod_small by lia. lia. }
    rewrite Es. replace (x .^ 2 ^ (b - 1)) with (x - 2 ^ (b - 1)); [f_equal; lia |].
    rewrite Z.sub_nocarry_ldiff.
    + apply Z.bits_inj'. intros i Hi. rewrite Z.lxor_spec, Z.ldiff_spec, Z.pow2_bits_eqb by lia.
      destruct (Z.eqb_spec (b - 1) i) as [<- |].
      * assert (Hbit : Z.testbit x (b - 1) = true).
        { rewrite Z.testbit_odd, shiftr_div by lia. replace (x / 2 ^ (b - 1)) with 1; [reflexivity |].
          apply Z.div_unique with (r := x - 2 ^ (b - 1)); lia. }
        rewrite Hbit. reflexivity.
      * rewrite xorb_false_r, andb_true_r. reflexivity.
    + apply Z.bits_inj'. intros i Hi. rewrite Z.ldiff_spec, Z.pow2_bits_eqb, Z.bits_0 by lia.
      destruct (Z.eqb_spec (b - 1) i) as [<- |]; [| reflexivity].
      rewrite Z.testbit_odd, shiftr_div by lia. replace (x / 2 ^ (b - 1)) with 1; [reflexivity |].
      apply Z.div_unique with (r := x - 2 ^ (b - 1)); lia.
Qed.

(** The least multiple of a power of two from [addr] on. *)
Lemma round_up_spec (w addr k : Z) : 0 <= k < w -> in_u w addr -> addr + 2 ^ k - 1 < 2 ^ w ->
  round_up w addr (2 ^ k) = (addr + 2 ^ k - 1) / 2 ^ k * 2 ^ k
  /\ addr <= round_up w addr (2 ^ k) < addr + 2 ^ k.
Proof.
  intros Hk Ha Hs. pose proof (pow2_pos k ltac:(lia)).
  assert (2 ^ k < 2 ^ w) by (apply Z.pow_lt_mono_r; lia).
  assert (E : round_up w addr (2 ^ k) = (addr + 2 ^ k - 1) / 2 ^ k * 2 ^ k).
  { unfold round_up. rewrite (uwrap_sub_l w), (uwrap_small w (addr + 2 ^ k - 1)) by (destruct Ha; unfold in_u; lia).
    rewrite (uwrap_small w (2 ^ k - 1)) by (unfold in_u; lia).
    rewrite <- shiftr_div, <- shiftl_mul by lia. unfold bnot. destruct Ha.
    apply Z.bits_inj'. intros i Hi. rewrite Z.land_spec, testbit_uwrap, Z.lnot_spec, testbit_pow2_m1, testbit_shiftl by lia.
    destruct (Z.leb_spec k i); cbn [andb].
    - rewrite (proj2 (Z.ltb_ge i k)) by lia. cbn [negb]. rewrite Z.shiftr_spec by lia.
      replace (i - k + k) with i by lia. destruct (Z.ltb_spec i w); [rewrite andb_true_r; reflexivity |].
      rewrite (testbit_high w) by (unfold in_u; lia). reflexivity.
    - rewrite (proj2 (Z.ltb_lt i k)) by lia. cbn [negb]. rewrite !andb_false_r. reflexivity. }
  split; [exact E |]. rewrite E. pose proof (Z.div_mod (addr + 2 ^ k - 1) (2 ^ k) ltac:(lia)).
  pose proof (Z.mod_pos_bound (addr + 2 ^ k - 1) (2 ^ k) ltac:(lia)). lia.
Qed.

(** The lowest bit set divides the number. *)
Lemma ctz_divides (n : nat) (val : Z) : 0 < val < 2 ^ Z.of_nat n ->
  0 <= ctz n val < Z.of_nat n /\ exists m, val = m * 2 ^ ctz n val /\ Z.odd m = true.
Proof.
  intros Hv. destruct (ctz_spec n val) as (H1 & H2 & H3).
  assert (Hc : ctz n val < Z.of_nat n).
  { destruct (Z.lt_ge_cases (ctz n val) (Z.of_nat n)) as [H | H]; [exact H | exfalso].
    assert (E : val = 0); [| lia]. apply Z.bits_inj'. intros i Hi. rewrite Z.bits_0.
    destruct (Z.lt_ge_cases i (Z.of_nat n)); [apply H2; lia | apply (testbit_high (Z.of_nat n)); unfold in_u; lia]. }
  split; [lia |]. exists (val >>> ctz n val). split.
  - rewrite <- shiftl_mul by lia. apply Z.bits_inj'. intros i Hi. rewrite testbit_shiftl by lia.
    destruct (Z.leb_spec (ctz n val) i); cbn [andb]; [| apply H2; lia].
    rewrite Z.shiftr_spec by lia. f_equal. lia.
  - rewrite <- Z.bit0_odd, Z.shiftr_spec by lia. apply H3, Hc.
Qed.

(** A word whose predecessor shares no bit with it is a power of two. *)
Lemma ispow2_power (n : nat) (val : Z) : in_u (Z.of_nat n) val -> ispow2 (Z.of_nat n) val = true ->
  val = 2 ^ ctz n val /\ 0 <= ctz n val < Z.of_nat n.
Proof.
  intros Hv H. unfold ispow2 in H. apply andb_true_iff in H as [H0 H]. apply negb_true_iff, Z.eqb_neq in H0.
  apply Z.eqb_eq in H. unfold in_u in Hv. destruct (ctz_divides n val) as (Hc & m & Em & Hm); [lia |].
  split; [| exact Hc]. set (c := ctz n val) in *. apply Z.odd_spec in Hm as [k ->].
  pose proof (pow2_pos c ltac:(lia)) as Hp.
  assert (E2 : 2 ^ (c + 1) = 2 * 2 ^ c) by (rewrite pow2_split by lia; change (2 ^ 1) with 2; lia).
  assert (Hk : val / 2 ^ (c + 1) = k) by (symmetry; apply Z.div_unique with (r := 2 ^ c); rewrite E2; lia).
  assert (Hk1 : (val - 1) / 2 ^ (c + 1) = k) by (symmetry; apply Z.div_unique with (r := 2 ^ c - 1); rewrite E2; lia).
  assert (Hz : k = 0).
  { rewrite uwrap_small in H by (unfold in_u; lia). apply Z.bits_inj'. intros i Hi.
    apply (f_equal (fun z => Z.testbit z (i + (c + 1)))) in H.
    rewrite Z.land_spec, Z.bits_0, <- !Z.shiftr_spec, !shiftr_div, Hk, Hk1, andb_diag in H by lia.
    rewrite Z.bits_0. exact H. }
  subst k. lia.
Qed.

(** The counting loops and the parallel population counts of [bits.h] compute
    what they are named for at every width and input: [ctz] and [clz] are the
    numbers of zeros below the lowest and above the highest bit set (the width when
    there is none), and the parallel counts agree with the loop over the bits. *)
Theorem bit_counts_correct (n : nat) (val v16 v32 v64 : Z) :
  in_u 16 v16 -> in_u 32 v32 -> in_u 64 v64 ->
  (forall c, ctz n val = c <->
     0 <= c <= Z.of_nat n /\ (forall i, 0 <= i < c -> Z.testbit val i = false)
     /\ (c < Z.of_nat n -> Z.testbit val c = true))
  /\ (forall c, clz n val = c <->
     0 <= c <= Z.of_nat n /\ (forall i, Z.of_nat n - c <= i < Z.of_nat n -> Z.testbit val i = false)
     /\ (c < Z.of_nat n -> Z.testbit val (Z.of_nat n - 1 - c) = true))
  /\ popcount16 v16 = popcount 16 v16 /\ popcount32 v32 = popcount 32 v32 /\ popcount64 v64 = popcount 64 v64.
Proof.
  intros H16 H32 H64. pose proof (ctz_spec n val) as (C1 & C2 & C3). pose proof (clz_spec n val) as (D1 & D2 & D3).
  split; [| split; [| apply popcount_parallel; assumption]]; intros c; split.
  - intros <-. auto.
  - intros (B1 & B2 & B3). destruct (Z.lt_trichotomy (ctz n val) c) as [Hlt | [-> | Hgt]]; [| reflexivity |].
    + rewrite B2 in C3 by lia. discriminate C3. lia.
    + rewrite C2 in B3 by lia. discriminate B3. lia.
  - intros <-. auto.
  - intros (B1 & B2 & B3). destruct (Z.lt_trichotomy (clz n val) c) as [Hlt | [-> | Hgt]]; [| reflexivity |].
    + rewrite B2 in D3 by lia. discriminate D3. lia.
    + rewrite D2 in B3 by lia. discriminate B3. lia.
Qed.

Lemma bit_counts_correct_witness :
  popcount64 0xf0f0f0f0f0f0f0f0 = popcount 64 0xf0f0f0f0f0f0f0f0 /\ ctz 32 0x50 = 4 /\ clz 32 0x50 = 25.
Proof.
  destruct (bit_counts_correct 32 0x50 0 0 0xf0f0f0f0f0f0f0f0) as (H1 & H2 & _ & _ & H3);
    try (unfold in_u; lia).
  split; [exact H3 |]. split; vm_compute; reflexivity.
Defined.
