(* ===== verification/Queue.v ===== *)
(** * The lockless queue: [util/queue.h]

    [queue_atomic], which carries the console's input from its thread to the
    processor.  Each atomic access is a step; a turn advances one thread by one
    step, so a list of turns is an interleaving (sequentially consistent: the
    memory orders are not modelled).  With one producer and one consumer every
    interleaving is a first-in first-out queue; with two consumers it is not. *)

From Stdlib Require Import ZArith Lia Bool List.
From stdpp Require Import base numbers list option.
From S2P Require Import Prelude.

#[local] Open Scope Z_scope.
#[local] Open Scope word_scope.

(** ** The shared words *)

Definition offset_bits : Z := 48.
Definition version_bits : Z := 16.
Definition offset_mask : Z := 2 ^ offset_bits - 1.
Definition version_mask : Z := 2 ^ version_bits - 1.
Definition spin_limit : Z := 2 ^ 24.

Record queue : Type := mkQueue {
  vec : list Z;
  counter_back : Z; version_back : Z;
  counter_front : Z; version_front : Z }.

Definition pack_offset (version offset : Z) : Z := Z.shiftl version offset_bits .| offset.
Definition unpack_offset (pack : Z) : Z := pack .& offset_mask.
Definition same_version (counter pack : Z) : bool :=
  ((pack >>> offset_bits) .& version_mask) =? (counter .& version_mask).

Section Queue.
  Context (size_limit : Z).

Definition queue_new : queue :=
  mkQueue (replicate (Z.to_nat size_limit) 0) 0 (pack_offset 0 0) 0 (pack_offset 0 size_limit).

(** [empty], [full] and [size], of the two offsets they load. *)
Definition is_empty (back front : Z) : bool := (front -[64] back) =? size_limit.
Definition is_full (back front : Z) : bool := front =? back.
Definition size_of (back front : Z) : Z :=
  if front <? back then back -[64] front else (size_limit -[64] front) +[64] back.

(** ** The two operations, atomic access by atomic access *)

(** [push_back]: what it is about to do, with its local variables. *)
Inductive push_pc : Type :=
| PushIdle
| PushFront (elem : Z)                                  (* load [version_front] *)
| PushCounter (elem front spin : Z)                     (* load [counter_back] *)
| PushVersion (elem front spin counter : Z)             (* load [version_back] *)
| PushSwap (elem front spin counter back : Z)           (* compare and exchange *)
| PushStore (elem offset pack : Z)                      (* store the element *)
| PushPublish (elem pack : Z).                          (* store [version_back] *)

(** [pop_front] *)
Inductive pop_pc : Type :=
| PopIdle
| PopBack                                               (* load [version_back] *)
| PopCounter (back spin : Z)                            (* load [counter_front] *)
| PopVersion (back spin counter : Z)                    (* load [version_front] *)
| PopSwap (back spin counter front : Z)                 (* compare and exchange *)
| PopLoad (offset pack : Z)                             (* load the element *)
| PopPublish (val pack : Z).                            (* store [version_front] *)

(** What an operation returns: a push succeeds or gives up, a pop returns an
    element or the zero that stands for none. *)
Inductive queue_event : Type := EPushed (elem : Z) | EFull | EPopped (val : Z) | ENone.

Definition push_retry (elem front spin : Z) : push_pc * option queue_event :=
  if spin + 1 <? spin_limit then (PushCounter elem front (spin + 1), None) else (PushIdle, Some EFull).

(** One step of [push_back]; [weak] makes the exchange fail. *)
Definition push_step (weak : bool) (q : queue) (l : push_pc) : queue * (push_pc * option queue_event) :=
  match l with
  | PushIdle => (q, (PushIdle, None))
  | PushFront elem => (q, (PushCounter elem (unpack_offset (version_front q)) 0, None))
  | PushCounter elem front spin => (q, (PushVersion elem front spin (counter_back q), None))
  | PushVersion elem front spin counter =>
      if same_version counter (version_back q) then
        let back := unpack_offset (version_back q) in
        (q, if front =? back then (PushIdle, Some EFull) else (PushSwap elem front spin counter back, None))
      else (q, push_retry elem front spin)
  | PushSwap elem front spin counter back =>
      if (counter_back q =? counter) && negb weak then
        let version := (counter +[64] 1) .& version_mask in
        (mkQueue (vec q) version (version_back q) (counter_front q) (version_front q),
         (PushStore elem (back .& (size_limit -[64] 1)) (pack_offset version ((back +[64] 1) .& offset_mask)), None))
      else (q, push_retry elem front spin)
  | PushStore elem offset pack =>
      (mkQueue (<[Z.to_nat offset := elem]> (vec q)) (counter_back q) (version_back q) (counter_front q) (version_front q),
       (PushPublish elem pack, None))
  | PushPublish elem pack =>
      (mkQueue (vec q) (counter_back q) pack (counter_front q) (version_front q), (PushIdle, Some (EPushed elem)))
  end.

Definition pop_retry (back spin : Z) : pop_pc * option queue_event :=
  if spin + 1 <? spin_limit then (PopCounter back (spin + 1), None) else (PopIdle, Some ENone).

Definition pop_step (weak : bool) (q : queue) (l : pop_pc) : queue * (pop_pc * option queue_event) :=
  match l with
  | PopIdle => (q, (PopIdle, None))
  | PopBack => (q, (PopCounter (unpack_offset (version_back q)) 0, None))
  | PopCounter back spin => (q, (PopVersion back spin (counter_front q), None))
  | PopVersion back spin counter =>
      if same_version counter (version_front q) then
        let front := unpack_offset (version_front q) in
        (q, if is_empty back front then (PopIdle, Some ENone) else (PopSwap back spin counter front, None))
      else (q, pop_retry back spin)
  | PopSwap back spin counter front =>
      if (counter_front q =? counter) && negb weak then
        let version := (counter +[64] 1) .& version_mask in
        (mkQueue (vec q) (counter_back q) (version_back q) version (version_front q),
         (PopLoad (front .& (size_limit -[64] 1)) (pack_offset version ((front +[64] 1) .& offset_mask)), None))
      else (q, pop_retry back spin)
  | PopLoad offset pack => (q, (PopPublish (default 0 (vec q !! Z.to_nat offset)) pack, None))
  | PopPublish val pack =>
      (mkQueue (vec q) (counter_back q) (version_back q) (counter_front q) pack, (PopIdle, Some (EPopped val)))
  end.

(** ** Interleavings: one producer, any number of consumers *)

Record threads : Type := mkThreads { shared : queue; producer : push_pc; consumers : list pop_pc }.

Inductive turn : Type := Push (elem : Z) | PushStep (weak : bool) | Pop (i : nat) | PopStep (i : nat) (weak : bool).

(** [Push] and [Pop] start an operation; [None]: the thread is not ready for it. *)
Definition turn_step (m : turn) (s : threads) : option (threads * option queue_event) :=
  match m with
  | Push elem =>
      match producer s with
      | PushIdle => Some (mkThreads (shared s) (PushFront elem) (consumers s), None)
      | _ => None
      end
  | PushStep weak =>
      let '(q, (l, e)) := push_step weak (shared s) (producer s) in Some (mkThreads q l (consumers s), e)
  | Pop i =>
      match consumers s !! i with
      | Some PopIdle => Some (mkThreads (shared s) (producer s) (<[i := PopBack]> (consumers s)), None)
      | _ => None
      end
  | PopStep i weak =>
      match consumers s !! i with
      | Some l =>
          let '(q, (l, e)) := pop_step weak (shared s) l in
          Some (mkThreads q (producer s) (<[i := l]> (consumers s)), e)
      | None => None
      end
  end.

Fixpoint turns (l : list turn) (s : threads) : option (threads * list queue_event) :=
  match l with
  | [] => Some (s, [])
  | m :: l' =>
      '(s', e) ← turn_step m s; '(s'', es) ← turns l' s';
      Some (s'', match e with Some e => e :: es | None => es end)
  end.

Definition start (n : nat) : threads := mkThreads queue_new PushIdle (replicate n PopIdle).
End Queue.

Definition pushed (es : list queue_event) : list Z := omap (fun e => match e with EPushed x => Some x | _ => None end) es.
Definition popped (es : list queue_event) : list Z := omap (fun e => match e with EPopped x => Some x | _ => None end) es.

(** Two elements through a queue of four. *)
Example queue_run :
  option_map snd (turns 4
    ([Push 7] ++ replicate 7 (PushStep false) ++ [Push 8; Pop 0%nat] ++ replicate 6 (PushStep false)
     ++ replicate 6 (PopStep 0 false) ++ [Pop 0%nat] ++ replicate 6 (PopStep 0 false) ++ [Pop 0%nat] ++ replicate 6 (PopStep 0 false))
    (start 4 1)) = Some [EPushed 7; EPushed 8; EPopped 7; EPopped 8; ENone].
Proof. vm_compute. reflexivity. Qed.

(** Two consumers: one loads the back offset while the queue holds one element and
    stops; the producer adds another, the other consumer takes both; the first then
    passes the emptiness test, which only compares with its stale offset, and takes
    a slot that holds nothing new. *)
Definition race : list turn :=
  [Push 7] ++ replicate 6 (PushStep false)
  ++ [Pop 0%nat; PopStep 0 false]
  ++ [Push 8] ++ replicate 6 (PushStep false)
  ++ [Pop 1%nat] ++ replicate 6 (PopStep 1 false) ++ [Pop 1%nat] ++ replicate 6 (PopStep 1 false)
  ++ replicate 5 (PopStep 0 false).

Example race_pops_empty :
  option_map (fun r => (pushed (snd r), popped (snd r))) (turns 4 race (start 4 2)) = Some ([7; 8], [7; 8; 0]).
Proof. vm_compute. reflexivity. Qed.

(** ** One consumer *)

Lemma lor_shift_add (v o : Z) : in_u offset_bits o -> pack_offset v o = o + v * 2 ^ offset_bits.
Proof. intros Ho. unfold pack_offset. rewrite Z.lor_comm. apply lor_concat; [exact Ho | easy]. Qed.

Lemma unpack_pack (v o : Z) : in_u offset_bits o -> unpack_offset (pack_offset v o) = o.
Proof.
  intros Ho. rewrite lor_shift_add by exact Ho. unfold unpack_offset, offset_mask. rewrite uwrap_land by easy.
  unfold uwrap. rewrite Z_mod_plus_full. apply Z.mod_small, Ho.
Qed.

Lemma same_version_pack (c v o : Z) : in_u version_bits c -> in_u version_bits v -> in_u offset_bits o ->
  same_version c (pack_offset v o) = (v =? c).
Proof.
  intros Hc Hv Ho. unfold same_version, version_mask. rewrite lor_shift_add by exact Ho.
  rewrite shiftr_div, Z_div_plus_full, (Z.div_small o), Z.add_0_l by (easy || apply Ho).
  rewrite !uwrap_land, !uwrap_small by easy. reflexivity.
Qed.

Lemma mod_apart (N i j : Z) : 0 < N -> 0 < j - i < N -> i mod N <> j mod N.
Proof.
  intros HN Hij E. pose proof (Z.div_mod i N ltac:(lia)). pose proof (Z.div_mod j N ltac:(lia)).
  assert (Hd : j - i = N * (j / N - i / N)) by (rewrite Z.mul_sub_distr_l; lia).
  set (d := j / N - i / N) in *. clearbody d. destruct (Z.lt_ge_cases 0 d); nia.
Qed.

Lemma land_pred_pow2 (k x : Z) : 0 <= k < 64 -> x .& (2 ^ k -[64] 1) = x mod 2 ^ k.
Proof.
  intros Hk. assert (2 ^ k < 2 ^ 64) by (apply Z.pow_lt_mono_r; lia). pose proof (pow2_pos k ltac:(lia)).
  rewrite uwrap_small by (unfold in_u; lia). apply uwrap_land. lia.
Qed.

Lemma next_version (v : Z) : in_u version_bits v -> in_u version_bits ((v +[64] 1) .& version_mask).
Proof. intros _. unfold version_mask. rewrite uwrap_land by easy. apply uwrap_range. easy. Qed.

Lemma next_offset (o : Z) : in_u offset_bits (o + 1) -> 0 <= o -> (o +[64] 1) .& offset_mask = o + 1.
Proof.
  intros Ho H0. unfold offset_mask. assert (o + 1 < 2 ^ 64) by (destruct Ho as [_ Ho]; etransitivity; [exact Ho | reflexivity]).
  rewrite (uwrap_small 64) by (unfold in_u; lia). rewrite uwrap_land by easy. apply uwrap_small, Ho.
Qed.

Section Spsc.
  Context (k : Z) (Hk : 0 <= k < 47).
  Local Abbreviation N := (2 ^ k).

Lemma N_bounds : 0 < N < 2 ^ 47.
Proof using Hk. split; [apply pow2_pos; lia | apply Z.pow_lt_mono_r; lia]. Qed.

(** With [ps] all the elements pushed and [c] of them popped: the offsets count
    both, and the slots between them hold the elements. *)
Record queue_ok (q : queue) (ps : list Z) (c : nat) (vb vf : Z) : Prop := {
  qk_vec : length (vec q) = Z.to_nat N;
  qk_vb : in_u version_bits vb;
  qk_vf : in_u version_bits vf;
  qk_back : version_back q = pack_offset vb (Z.of_nat (length ps));
  qk_front : version_front q = pack_offset vf (N + Z.of_nat c);
  qk_count : (c <= length ps)%nat /\ Z.of_nat (length ps) <= Z.of_nat c + N;
  qk_bound : N + Z.of_nat (length ps) < 2 ^ offset_bits;
  qk_slots : forall i, (c <= i < length ps)%nat -> vec q !! Z.to_nat (Z.of_nat i mod N) = ps !! i }.

Local Abbreviation len ps := (Z.of_nat (length ps)).

(** Where the producer is: its counter, and what its locals say. *)
Definition producer_ok (l : push_pc) (q : queue) (ps : list Z) (c : nat) (vb : Z) : Prop :=
  let room := len ps < Z.of_nat c + N in
  let front_ok f := len ps <= f <= N + Z.of_nat c in
  let entered pack := room /\ in_u version_bits (counter_back q) /\ pack = pack_offset (counter_back q) (len ps + 1) in
  match l with
  | PushIdle | PushFront _ => counter_back q = vb
  | PushCounter _ f _ => counter_back q = vb /\ front_ok f
  | PushVersion _ f _ n => counter_back q = vb /\ front_ok f /\ n = vb
  | PushSwap _ f _ n back => counter_back q = vb /\ front_ok f /\ n = vb /\ back = len ps /\ room
  | PushStore _ off pack => entered pack /\ off = len ps mod N
  | PushPublish e pack => entered pack /\ vec q !! Z.to_nat (len ps mod N) = Some e
  end.

Definition consumer_ok (l : pop_pc) (q : queue) (ps : list Z) (c : nat) (vf : Z) : Prop :=
  let back_ok b := Z.of_nat c <= b <= len ps in
  let entered pack := (c < length ps)%nat /\ in_u version_bits (counter_front q)
                      /\ pack = pack_offset (counter_front q) (N + Z.of_nat c + 1) in
  match l with
  | PopIdle | PopBack => counter_front q = vf
  | PopCounter b _ => counter_front q = vf /\ back_ok b
  | PopVersion b _ n => counter_front q = vf /\ back_ok b /\ n = vf
  | PopSwap b _ n front => counter_front q = vf /\ back_ok b /\ n = vf /\ front = N + Z.of_nat c /\ (c < length ps)%nat
  | PopLoad off pack => entered pack /\ off = (N + Z.of_nat c) mod N
  | PopPublish v pack => entered pack /\ ps !! c = Some v
  end.

Lemma offset_range (ps : list Z) (c : nat) : (c <= length ps)%nat -> N + len ps < 2 ^ offset_bits ->
  in_u offset_bits (len ps) /\ in_u offset_bits (N + Z.of_nat c) /\ in_u offset_bits (len ps + 1)
  /\ ((c < length ps)%nat -> in_u offset_bits (N + Z.of_nat c + 1)).
Proof using Hk. intros Hc Hb. pose proof N_bounds. unfold in_u. lia. Qed.

(** What a step may add to the elements pushed, or take. *)
Definition event_push (e : option queue_event) : list Z := match e with Some (EPushed x) => [x] | _ => [] end.
Definition event_pop (e : option queue_event) : list Z := match e with Some (EPopped x) => [x] | _ => [] end.

(** The producer's step. *)
Lemma push_step_ok (weak : bool) (q q' : queue) (l l' : push_pc) (e : option queue_event) (ps : list Z) (c : nat) (vb vf : Z) (cl : pop_pc) :
  queue_ok q ps c vb vf -> producer_ok l q ps c vb -> consumer_ok cl q ps c vf ->
  push_step N weak q l = (q', (l', e)) -> N + len (ps ++ event_push e) < 2 ^ offset_bits ->
  exists vb', queue_ok q' (ps ++ event_push e) c vb' vf /\ producer_ok l' q' (ps ++ event_push e) c vb'
    /\ consumer_ok cl q' (ps ++ event_push e) c vf /\ event_pop e = [].
Proof using Hk.
  intros Hq Hl Hc E Hb. pose proof N_bounds as HN. pose proof Hq as [H1 H2 H3 H4 H5 H6 H7 H8].
  destruct (offset_range ps c (proj1 H6) H7) as (R1 & R2 & R3 & _).
  assert (Hsame : forall l1, producer_ok l1 q ps c vb ->
    exists vb', queue_ok q (ps ++ []) c vb' vf /\ producer_ok l1 q (ps ++ []) c vb' /\ consumer_ok cl q (ps ++ []) c vf /\ event_pop None = []).
  { intros l1 Hl1. exists vb. rewrite app_nil_r. auto. }
  assert (Hretry : forall elem f spin, counter_back q = vb -> len ps <= f <= N + Z.of_nat c ->
    forall l1 e1, push_retry elem f spin = (l1, e1) ->
    exists vb', queue_ok q (ps ++ event_push e1) c vb' vf /\ producer_ok l1 q (ps ++ event_push e1) c vb'
      /\ consumer_ok cl q (ps ++ event_push e1) c vf /\ event_pop e1 = []).
  { intros elem f spin Hv Hf l1 e1. unfold push_retry. destruct (_ <? _); intros [= <- <-]; apply Hsame; cbn; auto. }
  destruct l as [| elem | elem f spin | elem f spin n | elem f spin n back | elem off pack | elem pack]; cbn [push_step] in E.
  - injection E as <- <- <-. apply Hsame, Hl.
  - injection E as <- <- <-. apply Hsame. cbn. rewrite H5, unpack_pack by exact R2. split; [exact Hl | lia].
  - injection E as <- <- <-. apply Hsame. destruct Hl. cbn. auto.
  - destruct Hl as (Hv & Hf & ->). rewrite H4, same_version_pack, Z.eqb_refl, unpack_pack in E by assumption.
    destruct (Z.eqb_spec f (len ps)) as [-> | Hne]; injection E as <- <- <-; apply Hsame; [exact Hv |].
    cbn. repeat split; try assumption; lia.
  - destruct Hl as (Hv & Hf & -> & -> & Hroom). rewrite Hv, Z.eqb_refl in E. destruct weak; cbn [negb andb] in E.
    + destruct (push_retry elem f spin) as [l1 e1] eqn:Er. injection E as <- <- <-. eapply Hretry; eauto.
    + injection E as <- <- <-. exists vb. cbn [event_push event_pop]. rewrite app_nil_r.
      split; [split; assumption |]. split; [| split; [destruct cl; exact Hc | reflexivity]].
      cbn [producer_ok counter_back]. rewrite land_pred_pow2, next_offset by (assumption || lia).
      split; [| reflexivity]. split; [exact Hroom |]. split; [apply next_version, H2 | reflexivity].
  - destruct Hl as ((Hroom & Hv & ->) & ->). injection E as <- <- <-. exists vb. cbn [event_push event_pop]. rewrite app_nil_r.
    pose proof (Z.mod_pos_bound (len ps) N ltac:(lia)) as Hm.
    split; [| split; [| split; [destruct cl; exact Hc | reflexivity]]].
    + split; cbn [vec version_back version_front]; try assumption; [rewrite length_insert; exact H1 |].
      intros i Hi. rewrite list_lookup_insert_ne; [apply H8, Hi |].
      pose proof (mod_apart N (Z.of_nat i) (len ps) ltac:(lia) ltac:(lia)).
      pose proof (Z.mod_pos_bound (Z.of_nat i) N ltac:(lia)). lia.
    + cbn [producer_ok vec counter_back]. split; [auto |]. apply list_lookup_insert_eq. rewrite H1. lia.
  - destruct Hl as ((Hroom & Hv & ->) & Hslot). injection E as <- <- <-. exists (counter_back q).
    cbn [event_push event_pop] in Hb |- *.
    assert (Hlen : len (ps ++ [elem]) = len ps + 1) by (rewrite length_app; cbn; lia).
    assert (Hlen' : length (ps ++ [elem]) = S (length ps)) by (rewrite length_app; cbn; lia).
    split; [| split; [reflexivity | split; [| reflexivity]]].
    + rewrite Hlen in Hb. split; cbn [vec version_back version_front]; try assumption; rewrite ?Hlen;
        [reflexivity | rewrite Hlen'; lia | exact Hb |].
      intros i Hi. rewrite Hlen' in Hi. destruct (decide (i = length ps)) as [-> | Hi'].
      * rewrite Hslot, lookup_app_r, Nat.sub_diag by lia. reflexivity.
      * rewrite lookup_app_l by lia. apply H8. lia.
    + assert (Hx : forall x, ps !! c = Some x -> (ps ++ [elem]) !! c = Some x)
        by (intros x Hxx; apply lookup_app_l_Some, Hxx).
      destruct cl; cbn [consumer_ok counter_front] in Hc |- *; rewrite ?Hlen, ?Hlen'; intuition (auto; lia).
Qed.

(** The consumer's step: an element popped is the next one pushed. *)
Lemma pop_step_ok (weak : bool) (q q' : queue) (l l' : pop_pc) (e : option queue_event) (ps : list Z) (c : nat) (vb vf : Z) (pl : push_pc) :
  queue_ok q ps c vb vf -> consumer_ok l q ps c vf -> producer_ok pl q ps c vb ->
  pop_step N weak q l = (q', (l', e)) ->
  exists vf' c', queue_ok q' ps c' vb vf' /\ consumer_ok l' q' ps c' vf' /\ producer_ok pl q' ps c' vb
    /\ take c' ps = take c ps ++ event_pop e /\ event_push e = [].
Proof using Hk.
  intros Hq Hl Hc E. pose proof N_bounds as HN. pose proof Hq as [H1 H2 H3 H4 H5 H6 H7 H8].
  destruct (offset_range ps c (proj1 H6) H7) as (R1 & R2 & _ & R4).
  assert (Hsame : forall l1, consumer_ok l1 q ps c vf ->
    exists vf' c', queue_ok q ps c' vb vf' /\ consumer_ok l1 q ps c' vf' /\ producer_ok pl q ps c' vb
      /\ take c' ps = take c ps ++ [] /\ event_push None = []).
  { intros l1 Hl1. exists vf, c. rewrite app_nil_r. auto. }
  assert (Hretry : forall b spin, counter_front q = vf -> Z.of_nat c <= b <= len ps ->
    forall l1 e1, pop_retry b spin = (l1, e1) ->
    exists vf' c', queue_ok q ps c' vb vf' /\ consumer_ok l1 q ps c' vf' /\ producer_ok pl q ps c' vb
      /\ take c' ps = take c ps ++ event_pop e1 /\ event_push e1 = []).
  { intros b spin Hv Hb l1 e1. unfold pop_retry. destruct (_ <? _); intros [= <- <-]; apply Hsame; cbn; auto. }
  assert (Hpl : forall cb' vec' vf', cb' = counter_back q -> vec' = vec q ->
    producer_ok pl (mkQueue vec' cb' (version_back q) vf' (version_front q)) ps c vb).
  { intros cb' vec' vf' -> ->. destruct pl; exact Hc. }
  destruct l as [| | b spin | b spin n | b spin n front | off pack | v pack]; cbn [pop_step] in E.
  - injection E as <- <- <-. apply Hsame, Hl.
  - injection E as <- <- <-. apply Hsame. cbn. rewrite H4, unpack_pack by exact R1. split; [exact Hl | lia].
  - injection E as <- <- <-. apply Hsame. destruct Hl. cbn. auto.
  - destruct Hl as (Hv & Hb & ->). rewrite H5, same_version_pack, Z.eqb_refl, unpack_pack in E by assumption.
    unfold is_empty in E. rewrite uwrap_small in E by (unfold in_u; change (2 ^ 64) with (2 * 2 ^ 63); lia).
    destruct (Z.eqb_spec (N + Z.of_nat c - b) N); injection E as <- <- <-; apply Hsame; [exact Hv |].
    cbn. repeat split; try assumption; lia.
  - destruct Hl as (Hv & Hb & -> & -> & Hne). rewrite Hv, Z.eqb_refl in E. destruct weak; cbn [negb andb] in E.
    + destruct (pop_retry b spin) as [l1 e1] eqn:Er. injection E as <- <- <-. eapply Hretry; eauto.
    + injection E as <- <- <-. exists vf, c. cbn [event_push event_pop]. rewrite app_nil_r.
      split; [split; assumption |]. split; [| split; [apply Hpl; reflexivity | auto]].
      cbn [consumer_ok counter_front]. rewrite land_pred_pow2, next_offset by (auto || lia).
      split; [| reflexivity]. split; [exact Hne |]. split; [apply next_version, H3 | reflexivity].
  - destruct Hl as ((Hne & Hv & ->) & ->). injection E as <- <- <-. exists vf, c. cbn [event_push event_pop]. rewrite app_nil_r.
    split; [exact Hq |]. split; [| auto]. cbn [consumer_ok]. split; [auto |].
    destruct (lookup_lt_is_Some_2 ps c Hne) as [x Hx].
    replace ((N + Z.of_nat c) mod N) with (Z.of_nat c mod N)
      by (replace (N + Z.of_nat c) with (Z.of_nat c + 1 * N) by lia; rewrite Z_mod_plus_full; reflexivity).
    rewrite H8, Hx by lia. reflexivity.
  - destruct Hl as ((Hne & Hv & ->) & Hx). injection E as <- <- <-. exists (counter_front q), (S c).
    cbn [event_push event_pop].
    split; [| split; [reflexivity | split; [| split; [apply take_S_r, Hx | reflexivity]]]].
    + split; cbn [vec version_back version_front]; try assumption;
        [f_equal; lia | lia | intros i Hi; apply H8; lia].
    + destruct pl; cbn [producer_ok vec counter_back] in Hc |- *; intuition (auto; lia).
Qed.

(** A state of one producer and one consumer. *)
Definition spsc_ok (s : threads) (ps : list Z) (c : nat) : Prop :=
  exists cl vb vf, consumers s = [cl] /\ queue_ok (shared s) ps c vb vf
    /\ producer_ok (producer s) (shared s) ps c vb /\ consumer_ok cl (shared s) ps c vf.

Lemma spsc_start : spsc_ok (start N 1) [] 0.
Proof using Hk.
  pose proof N_bounds. exists PopIdle, 0, 0. split; [reflexivity |]. split; [| split; reflexivity].
  assert (in_u version_bits 0) by (split; reflexivity || easy).
  split; cbn [shared start queue_new vec version_back version_front length]; try assumption.
  - apply length_replicate.
  - reflexivity.
  - f_equal. lia.
  - lia.
  - change (2 ^ offset_bits) with (2 * 2 ^ 47). lia.
  - intros i Hi. lia.
Qed.

Lemma turn_step_ok (m : turn) (s s' : threads) (e : option queue_event) (ps : list Z) (c : nat) :
  spsc_ok s ps c -> turn_step N m s = Some (s', e) -> N + len (ps ++ event_push e) < 2 ^ offset_bits ->
  exists c', spsc_ok s' (ps ++ event_push e) c' /\ take c' (ps ++ event_push e) = take c ps ++ event_pop e.
Proof using Hk.
  intros (cl & vb & vf & Hcl & Hq & Hp & Hc). destruct s as [q pl cls]. cbn [shared producer consumers] in *. subst cls.
  destruct m as [elem | weak | i | i weak]; cbn [turn_step producer consumers shared].
  - destruct pl; try discriminate. intros [= <- <-] _. exists c. cbn [event_push event_pop]. rewrite !app_nil_r.
    split; [| reflexivity]. exists cl, vb, vf. auto.
  - destruct (push_step N weak q pl) as [q1 [l1 e1]] eqn:E. intros [= <- <-] Hb.
    destruct (push_step_ok _ _ _ _ _ _ _ _ _ _ _ Hq Hp Hc E Hb) as (vb' & K1 & K2 & K3 & K4).
    exists c. rewrite K4, app_nil_r. split; [exists cl, vb', vf; auto |].
    apply take_app_le. apply (proj1 (qk_count _ _ _ _ _ Hq)).
  - destruct i as [| i]; [| discriminate]. cbn. destruct cl; try discriminate. intros [= <- <-] _.
    exists c. cbn [event_push event_pop]. rewrite !app_nil_r. split; [| reflexivity]. exists PopBack, vb, vf. auto.
  - destruct i as [| i]; [| discriminate]. cbn.
    destruct (pop_step N weak q cl) as [q1 [l1 e1]] eqn:E. intros [= <- <-] Hb.
    destruct (pop_step_ok _ _ _ _ _ _ _ _ _ _ _ Hq Hc Hp E) as (vf' & c' & K1 & K2 & K3 & K4 & K5).
    exists c'. rewrite K5, app_nil_r. split; [exists l1, vb, vf'; auto | exact K4].
Qed.

Lemma turns_ok (l : list turn) : forall (s s' : threads) (es : list queue_event) (ps : list Z) (c : nat),
  spsc_ok s ps c -> turns N l s = Some (s', es) -> N + len (ps ++ pushed es) < 2 ^ offset_bits ->
  exists c', spsc_ok s' (ps ++ pushed es) c' /\ take c' (ps ++ pushed es) = take c ps ++ popped es.
Proof using Hk.
  induction l as [| m l IH]; intros s s' es ps c Hs E Hb.
  - injection E as <- <-. exists c. cbn. rewrite !app_nil_r. auto.
  - cbn [turns] in E. destruct (turn_step N m s) as [[s1 e] |] eqn:Em; [| discriminate E]. cbn in E.
    destruct (turns N l s1) as [[s2 es'] |] eqn:El; [| discriminate E]. injection E as <- <-.
    set (es := match e with Some e => e :: es' | None => es' end) in *.
    assert (Hpush : ps ++ pushed es = (ps ++ event_push e) ++ pushed es').
    { unfold es. destruct e as [[] |]; cbn; rewrite <- ?app_assoc, ?app_nil_r; reflexivity. }
    assert (Hpop : popped es = event_pop e ++ popped es').
    { unfold es. destruct e as [[] |]; reflexivity. }
    rewrite Hpush in Hb |- *. rewrite Hpop.
    assert (Hb1 : N + len (ps ++ event_push e) < 2 ^ offset_bits) by (rewrite length_app in Hb; lia).
    destruct (turn_step_ok m s s1 e ps c Hs Em Hb1) as (c1 & Hs1 & T1).
    destruct (IH s1 s2 es' _ c1 Hs1 El Hb) as (c' & Hs' & T'). exists c'. split; [exact Hs' |].
    rewrite T', T1, app_assoc. reflexivity.
Qed.
End Spsc.

(** C35: With one producer and one consumer, every interleaving of the atomic steps
    of [push_back] and [pop_front] is a first-in first-out queue: the elements popped
    are a prefix of the elements pushed, in order, nothing lost, repeated or made up,
    and never more than [size_limit] are in between, as long as fewer than
    [2^48 - size_limit] have been pushed. *)
Theorem spsc_fifo (k : Z) (l : list turn) (s : threads) (es : list queue_event) :
  0 <= k < 47 -> turns (2 ^ k) l (start (2 ^ k) 1) = Some (s, es) ->
  2 ^ k + Z.of_nat (length (pushed es)) < 2 ^ offset_bits ->
  exists waiting, pushed es = popped es ++ waiting /\ Z.of_nat (length waiting) <= 2 ^ k.
Proof.
  intros Hk E Hb. destruct (turns_ok k Hk l _ s es [] 0 (spsc_start k Hk) E Hb) as (c & Hs & T).
  destruct Hs as (cl & vb & vf & _ & Hq & _). pose proof (qk_count _ _ _ _ _ _ Hq) as Hc. cbn [app] in *.
  exists (drop c (pushed es)). cbn in T. rewrite <- T, take_drop. split; [reflexivity |].
  rewrite length_drop. lia.
Qed.

Definition demo : list turn :=
  [Push 7] ++ replicate 7 (PushStep false) ++ [Push 8; Pop 0%nat] ++ replicate 6 (PushStep false)
  ++ replicate 6 (PopStep 0 false).

Lemma spsc_fifo_witness :
  exists s es, turns (2 ^ 2) demo (start (2 ^ 2) 1) = Some (s, es) /\ pushed es = [7; 8]
    /\ exists waiting, pushed es = popped es ++ waiting /\ Z.of_nat (length waiting) <= 2 ^ 2.
Proof.
  assert (H : option_map (fun r => pushed (snd r)) (turns (2 ^ 2) demo (start (2 ^ 2) 1)) = Some [7; 8])
    by (vm_compute; reflexivity).
  destruct (turns (2 ^ 2) demo (start (2 ^ 2) 1)) as [[s es] |] eqn:E; [| discriminate H].
  injection H as H. exists s, es. split; [reflexivity |]. split; [exact H |].
  apply (spsc_fifo 2 demo s es); [lia | exact E | rewrite H; reflexivity].
Defined.
