(* ===== verification/Wide.v ===== *)
(** * Wide integers: [asm/operators.h], the 128-bit types of [asm/types.h]

    Two 64-bit halves; the branches for unpredicated shifts. *)

From Stdlib Require Import ZArith Lia Bool List.
From stdpp Require Import base numbers list.
From S2P Require Import Prelude.

#[local] Open Scope Z_scope.
#[local] Open Scope word_scope.

(** ** The types *)

(** [__u128] and [__s128]; the upper half of the second is signed. *)
Record u128 : Type := mkU128 { uhi : Z; ulo : Z }.
Record s128 : Type := mkS128 { shi : Z; slo : Z }.

(** The constructors from 64 bits extend the sign, also of the unsigned type. *)
Definition sign_half (lo : Z) : Z := bnot 64 ((lo >>> 63) -[64] 1).
Definition u128_of (lo : Z) : u128 := let lo := uwrap 64 lo in mkU128 (sign_half lo) lo.
Definition s128_of (lo : Z) : s128 := let lo := uwrap 64 lo in mkS128 (swrap 64 (sign_half lo)) lo.

(** ** Unsigned *)

Definition u128_eq (x y : u128) : bool := (ulo x =? ulo y) && (uhi x =? uhi y).
Definition u128_ne (x y : u128) : bool := negb (ulo x =? ulo y) || negb (uhi x =? uhi y).
Definition u128_lt (x y : u128) : bool := (uhi x <? uhi y) || ((uhi x =? uhi y) && (ulo x <? ulo y)).
Definition u128_gt (x y : u128) : bool := (uhi y <? uhi x) || ((uhi x =? uhi y) && (ulo y <? ulo x)).
Definition u128_ge (x y : u128) : bool := (uhi y <? uhi x) || ((uhi x =? uhi y) && (ulo y <=? ulo x)).
Definition u128_le (x y : u128) : bool := (uhi x <? uhi y) || ((uhi x =? uhi y) && (ulo x <=? ulo y)).

Definition u128_and (x y : u128) : u128 := mkU128 (uhi x .& uhi y) (ulo x .& ulo y).
Definition u128_or (x y : u128) : u128 := mkU128 (uhi x .| uhi y) (ulo x .| ulo y).
Definition u128_xor (x y : u128) : u128 := mkU128 (uhi x .^ uhi y) (ulo x .^ ulo y).
Definition u128_not (x : u128) : u128 := mkU128 (bnot 64 (uhi x)) (bnot 64 (ulo x)).
(** With an [s32]: the upper half is kept. *)
Definition u128_and_s32 (x : u128) (y : Z) : u128 := mkU128 (uhi x) (ulo x .& uwrap 64 y).
Definition u128_or_s32 (x : u128) (y : Z) : u128 := mkU128 (uhi x) (ulo x .| uwrap 64 y).
Definition u128_xor_s32 (x : u128) (y : Z) : u128 := mkU128 (uhi x) (ulo x .^ uwrap 64 y).

Definition u128_shl (x : u128) (shamt : Z) : u128 :=
  let s := shamt .& 127 in
  if s =? 0 then x
  else if s <? 64 then mkU128 ((uhi x <<[64] s) .| (ulo x >>> (64 - s))) (ulo x <<[64] s)
  else mkU128 (ulo x <<[64] (s - 64)) 0.
Definition u128_shr (x : u128) (shamt : Z) : u128 :=
  let s := shamt .& 127 in
  if s =? 0 then x
  else if s <? 64 then mkU128 (uhi x >>> s) ((ulo x >>> s) .| (uhi x <<[64] (64 - s)))
  else mkU128 0 (uhi x >>> (s - 64)).

Definition u128_add (x y : u128) : u128 :=
  let lo := ulo x +[64] ulo y in
  let c := b2z (lo <? ulo x) in
  mkU128 ((uhi x +[64] uhi y) +[64] c) lo.
Definition u128_sub (x y : u128) : u128 :=
  let lo := ulo x -[64] ulo y in
  let b := b2z (ulo x <? lo) in
  mkU128 ((uhi x -[64] uhi y) -[64] b) lo.
Definition u128_neg (x : u128) : u128 := u128_add (u128_not x) (u128_of 1).

Definition u128_mul (x y : u128) : u128 :=
  let z0 := u128_of (ulo x *[64] ulo y) in
  let z1 := u128_of (uhi x *[64] ulo y) in
  let z2 := u128_of (ulo x *[64] uhi y) in
  let z4 := u128_add z1 z2 in
  let c1 := u128_of (b2z (u128_lt z4 z1)) in
  u128_add (u128_shl (u128_add z4 c1) 64) z0.

(** The division loop, from bit 127 down to bit 0. *)
Definition div_round (x y : u128) (qr : u128 * u128) (i : nat) : u128 * u128 :=
  let (q, r) := qr in
  let i := Z.of_nat i in
  let r := u128_shl r 1 in
  let r := u128_or r (u128_and (u128_shr x i) (u128_of 1)) in
  let d := u128_of (b2z (u128_ge r y)) in
  (u128_or q (u128_shl d i), u128_sub r (u128_and y (u128_neg d))).
Definition div_loop (x y : u128) : u128 * u128 :=
  fold_left (div_round x y) (rev (List.seq 0 128)) (u128_of 0, u128_of 0).
Definition u128_div (x y : u128) : u128 :=
  if u128_eq y (u128_of 0) then mkU128 (uwrap 64 (-1)) (uwrap 64 (-1)) else fst (div_loop x y).
Definition u128_rem (x y : u128) : u128 :=
  if u128_eq y (u128_of 0) then x else snd (div_loop x y).

(** ** Signed *)

Definition s128_eq (x y : s128) : bool := (slo x =? slo y) && (shi x =? shi y).
Definition s128_ne (x y : s128) : bool := negb (slo x =? slo y) || negb (shi x =? shi y).
Definition s128_lt (x y : s128) : bool := (shi x <? shi y) || ((shi x =? shi y) && (slo x <? slo y)).
Definition s128_gt (x y : s128) : bool := (shi y <? shi x) || ((shi x =? shi y) && (slo y <? slo x)).
Definition s128_ge (x y : s128) : bool := (shi y <? shi x) || ((shi x =? shi y) && (slo y <=? slo x)).
Definition s128_le (x y : s128) : bool := (shi x <? shi y) || ((shi x =? shi y) && (slo x <=? slo y)).
Definition s128_and (x y : s128) : s128 := mkS128 (shi x .& shi y) (slo x .& slo y).
Definition s128_or (x y : s128) : s128 := mkS128 (shi x .| shi y) (slo x .| slo y).
Definition s128_xor (x y : s128) : s128 := mkS128 (shi x .^ shi y) (slo x .^ slo y).
Definition s128_not (x : s128) : s128 := mkS128 (Z.lnot (shi x)) (bnot 64 (slo x)).
Definition s128_and_s32 (x : s128) (y : Z) : s128 := mkS128 (shi x) (slo x .& uwrap 64 y).
Definition s128_or_s32 (x : s128) (y : Z) : s128 := mkS128 (shi x) (slo x .| uwrap 64 y).
Definition s128_xor_s32 (x : s128) (y : Z) : s128 := mkS128 (shi x) (slo x .^ uwrap 64 y).

(** Shifts of the signed half as the compilers do them: left in two's complement,
    right with the sign. *)
Definition s128_shl (x : s128) (shamt : Z) : s128 :=
  let s := shamt .& 127 in
  if s =? 0 then x
  else if s <? 64 then mkS128 (swrap 64 ((uwrap 64 (shi x) <<[64] s) .| (slo x >>> (64 - s)))) (slo x <<[64] s)
  else mkS128 (swrap 64 (slo x <<[64] (s - 64))) 0.
Definition s128_shr (x : s128) (shamt : Z) : s128 :=
  let s := shamt .& 127 in
  if s =? 0 then x
  else if s <? 64
  then mkS128 (shi x >>> s) ((slo x >>> s) .| uwrap 64 (shi x <<[64] (64 - s)))
  else mkS128 (swrap 64 (- (uwrap 64 (shi x) >>> 63))) (uwrap 64 (shi x >>> (s - 64))).
Definition s128_add (x y : s128) : s128 :=
  let lo := slo x +[64] slo y in
  let c := b2z (lo <? slo x) in
  mkS128 (swrap 64 ((shi x +[64] shi y) +[64] c)) lo.
Definition s128_sub (x y : s128) : s128 :=
  let lo := slo x -[64] slo y in
  let b := b2z (slo x <? lo) in
  mkS128 (swrap 64 ((shi x -[64] shi y) -[64] b)) lo.
Definition s128_neg (x : s128) : s128 := s128_add (s128_not x) (s128_of 1).
Definition s128_mul (x y : s128) : s128 :=
  let z0 := s128_of (slo x *[64] slo y) in
  let z1 := s128_of (shi x *[64] slo y) in
  let z2 := s128_of (slo x *[64] shi y) in
  let z4 := s128_add z1 z2 in
  let c1 := s128_of (b2z (s128_lt z4 z1)) in
  s128_add (s128_shl (s128_add z4 c1) 64) z0.

(** ** The values *)

Definition uval (x : u128) : Z := ulo x + uhi x * 2 ^ 64.
Definition sval (x : s128) : Z := slo x + shi x * 2 ^ 64.
Definition u128_ok (x : u128) : Prop := in_u 64 (uhi x) /\ in_u 64 (ulo x).
Definition s128_ok (x : s128) : Prop := in_s 64 (shi x) /\ in_u 64 (slo x).

Lemma uval_range (x : u128) : u128_ok x -> in_u 128 (uval x).
Proof. intros [[? ?] [? ?]]. unfold uval, in_u. change (2 ^ 128) with (2 ^ 64 * 2 ^ 64). nia. Qed.

(** The value is the concatenation of the halves. *)
Lemma testbit_uval (x : u128) (i : Z) : u128_ok x -> 0 <= i ->
  Z.testbit (uval x) i = if i <? 64 then Z.testbit (ulo x) i else Z.testbit (uhi x) (i - 64).
Proof.
  intros [Hh Hl] Hi. unfold uval. rewrite <- lor_concat by (assumption || lia).
  rewrite Z.lor_spec, testbit_shiftl by lia.
  destruct (Z.ltb_spec i 64), (Z.leb_spec 64 i); try lia; cbn [andb]; [apply orb_false_r |].
  rewrite (testbit_high 64 (ulo x)) by (assumption || lia). reflexivity.
Qed.

Lemma uval_inj (x y : u128) : u128_ok x -> u128_ok y -> uval x = uval y -> x = y.
Proof.
  intros [[? ?] [? ?]] [[? ?] [? ?]] E. unfold uval in E. destruct x as [a b], y as [c d]. cbn in *.
  assert (a = c) as -> by nia. f_equal. lia.
Qed.

Lemma u128_of_small (x : Z) : 0 <= x < 2 ^ 63 -> u128_of x = mkU128 0 x.
Proof.
  intros Hx. unfold u128_of. rewrite uwrap_small by (unfold in_u; change (2 ^ 64) with (2 * 2 ^ 63); lia).
  unfold sign_half. rewrite shiftr_div, Z.div_small by lia. reflexivity.
Qed.

(** ** The operations on values *)

Lemma u128_of_ok (x : Z) : u128_ok (u128_of x).
Proof. split; apply uwrap_range; lia. Qed.

Lemma u128_bits_ok (x y : u128) : u128_ok x -> u128_ok y ->
  u128_ok (u128_and x y) /\ u128_ok (u128_or x y) /\ u128_ok (u128_xor x y) /\ u128_ok (u128_not x).
Proof.
  intros [H1 H2] [H3 H4]. split; [| split; [| split]]; split; cbn [uhi ulo u128_and u128_or u128_xor u128_not];
    first [apply land_range | apply lor_range | apply lxor_range | apply uwrap_range];
    assumption || lia || apply H3 || apply H4.
Qed.

Lemma u128_bits (x y : u128) : u128_ok x -> u128_ok y ->
  uval (u128_and x y) = uval x .& uval y /\ uval (u128_or x y) = uval x .| uval y
  /\ uval (u128_xor x y) = uval x .^ uval y /\ uval (u128_not x) = bnot 128 (uval x).
Proof.
  intros Hx Hy. destruct (u128_bits_ok x y Hx Hy) as (O1 & O2 & O3 & O4).
  split; [| split; [| split]]; apply Z.bits_inj'; intros i Hi.
  - rewrite Z.land_spec, !testbit_uval by assumption. cbn [uhi ulo u128_and]. rewrite !Z.land_spec. destruct (i <? 64); reflexivity.
  - rewrite Z.lor_spec, !testbit_uval by assumption. cbn [uhi ulo u128_or]. rewrite !Z.lor_spec. destruct (i <? 64); reflexivity.
  - rewrite Z.lxor_spec, !testbit_uval by assumption. cbn [uhi ulo u128_xor]. rewrite !Z.lxor_spec. destruct (i <? 64); reflexivity.
  - unfold bnot. rewrite testbit_uwrap, Z.lnot_spec, !testbit_uval by (assumption || lia).
    cbn [uhi ulo u128_not]. unfold bnot. destruct (Z.ltb_spec i 64); rewrite testbit_uwrap, Z.lnot_spec by lia.
    + rewrite (proj2 (Z.ltb_lt i 64)), (proj2 (Z.ltb_lt i 128)) by lia. reflexivity.
    + destruct (Z.ltb_spec (i - 64) 64), (Z.ltb_spec i 128); try lia; reflexivity.
Qed.

Lemma u128_compare (x y : u128) : u128_ok x -> u128_ok y ->
  u128_eq x y = (uval x =? uval y) /\ u128_ne x y = negb (uval x =? uval y)
  /\ u128_lt x y = (uval x <? uval y) /\ u128_gt x y = (uval y <? uval x)
  /\ u128_le x y = (uval x <=? uval y) /\ u128_ge x y = (uval y <=? uval x).
Proof.
  intros [[? ?] [? ?]] [[? ?] [? ?]]. unfold u128_eq, u128_ne, u128_lt, u128_gt, u128_le, u128_ge, uval.
  repeat split; bcases; reflexivity || nia.
Qed.

Lemma u128_add_spec (x y : u128) : u128_ok x -> u128_ok y ->
  u128_ok (u128_add x y) /\ uval (u128_add x y) = uwrap 128 (uval x + uval y).
Proof.
  intros [[? ?] [? ?]] [[? ?] [? ?]]. split; [split; apply uwrap_range; lia |].
  unfold u128_add, uval. cbn [uhi ulo]. rewrite uwrap_add_l.
  pose proof (Z.div_mod (ulo x + ulo y) (2 ^ 64) ltac:(lia)) as E.
  pose proof (Z.mod_pos_bound (ulo x + ulo y) (2 ^ 64) ltac:(lia)).
  assert (Hc : b2z (ulo x +[64] ulo y <? ulo x) = (ulo x + ulo y) / 2 ^ 64).
  { unfold uwrap. assert (0 <= (ulo x + ulo y) / 2 ^ 64 <= 1) by (split; [apply Z.div_pos; lia | apply Z.lt_succ_r, Z.div_lt_upper_bound; lia]).
    destruct (Z.ltb_spec ((ulo x + ulo y) mod 2 ^ 64) (ulo x)); cbn [b2z]; nia. }
  rewrite Hc. unfold uwrap. change (2 ^ 128) with (2 ^ 64 * 2 ^ 64).
  set (h := uhi x + uhi y + (ulo x + ulo y) / 2 ^ 64).
  replace (ulo x + uhi x * 2 ^ 64 + (ulo y + uhi y * 2 ^ 64)) with ((ulo x + ulo y) mod 2 ^ 64 + h * 2 ^ 64) by (unfold h; lia).
  rewrite Z.rem_mul_r, Z_mod_plus_full, Z_div_plus_full by lia. rewrite Z.mod_mod, (Z.div_small (_ mod _)), Z.add_0_l by lia. unfold h. rewrite (Z.mul_comm (2 ^ 64)). reflexivity.
Qed.

Lemma u128_sub_spec (x y : u128) : u128_ok x -> u128_ok y ->
  u128_ok (u128_sub x y) /\ uval (u128_sub x y) = uwrap 128 (uval x - uval y).
Proof.
  intros [[? ?] [? ?]] [[? ?] [? ?]]. split; [split; apply uwrap_range; lia |].
  unfold u128_sub, uval. cbn [uhi ulo]. rewrite uwrap_sub_l.
  pose proof (Z.div_mod (ulo x - ulo y) (2 ^ 64) ltac:(lia)) as E.
  pose proof (Z.mod_pos_bound (ulo x - ulo y) (2 ^ 64) ltac:(lia)).
  assert (Hc : b2z (ulo x <? ulo x -[64] ulo y) = - ((ulo x - ulo y) / 2 ^ 64)).
  { unfold uwrap. assert (-1 <= (ulo x - ulo y) / 2 ^ 64 <= 0)
      by (split; [apply Z.div_le_lower_bound; lia | apply Z.lt_succ_r, Z.div_lt_upper_bound; lia]).
    destruct (Z.ltb_spec (ulo x) ((ulo x - ulo y) mod 2 ^ 64)); cbn [b2z]; nia. }
  rewrite Hc. unfold uwrap. change (2 ^ 128) with (2 ^ 64 * 2 ^ 64).
  set (h := uhi x - uhi y - - ((ulo x - ulo y) / 2 ^ 64)).
  replace (ulo x + uhi x * 2 ^ 64 - (ulo y + uhi y * 2 ^ 64)) with ((ulo x - ulo y) mod 2 ^ 64 + h * 2 ^ 64) by (unfold h; lia).
  rewrite Z.rem_mul_r, Z_mod_plus_full, Z_div_plus_full by lia. rewrite Z.mod_mod, (Z.div_small (_ mod _)), Z.add_0_l by lia. unfold h. rewrite (Z.mul_comm (2 ^ 64)). reflexivity.
Qed.

Lemma u128_neg_spec (x : u128) : u128_ok x -> u128_ok (u128_neg x) /\ uval (u128_neg x) = uwrap 128 (- uval x).
Proof.
  intros Hx. destruct (u128_bits_ok x x Hx Hx) as (_ & _ & _ & Hn). destruct (u128_bits x x Hx Hx) as (_ & _ & _ & En).
  destruct (u128_add_spec _ _ Hn (u128_of_ok 1)) as [Ho E]. split; [exact Ho |]. unfold u128_neg. rewrite E, En.
  pose proof (uval_range x Hx). rewrite bnot_val by (assumption || lia). change (uval (u128_of 1)) with 1.
  replace (2 ^ 128 - 1 - uval x + 1) with (- uval x + 1 * 2 ^ 128) by lia. apply uwrap_add_multiple. lia.
Qed.

Lemma shamt_range (s : Z) : s .& 127 = s mod 128 /\ 0 <= s mod 128 < 128.
Proof. split; [apply (uwrap_land 7); lia | apply Z.mod_pos_bound; lia]. Qed.

Lemma u128_shl_spec (x : u128) (shamt : Z) : u128_ok x ->
  u128_ok (u128_shl x shamt) /\ uval (u128_shl x shamt) = uwrap 128 (Z.shiftl (uval x) (shamt mod 128)).
Proof.
  intros Hx. destruct (shamt_range shamt) as [Es Hs]. unfold u128_shl. rewrite Es. set (s := shamt mod 128) in *. cbv zeta.
  assert (Hsub : forall a b, u128_ok a -> (forall i, 0 <= i -> Z.testbit (uval a) i = Z.testbit b i) ->
    u128_ok a /\ uval a = b) by (intros a b Ha Hb; split; [exact Ha | apply Z.bits_inj'; exact Hb]).
  pose proof Hx as [Hh Hl].
  destruct (Z.eqb_spec s 0) as [-> | Hs0].
  { split; [exact Hx |]. rewrite Z.shiftl_0_r. symmetry. apply uwrap_small, uval_range, Hx. }
  destruct (Z.ltb_spec s 64).
  - apply Hsub.
    { split; cbn [uhi ulo]; [apply lor_range; [lia | apply uwrap_range; lia | apply shiftr_range; lia || assumption] | apply uwrap_range; lia]. }
    intros i Hi. rewrite testbit_uwrap, testbit_shiftl by lia.
    assert (Ho : u128_ok (mkU128 ((uhi x <<[64] s) .| (ulo x >>> 64 - s)) (ulo x <<[64] s))).
    { split; cbn [uhi ulo]; [apply lor_range; [lia | apply uwrap_range; lia | apply shiftr_range; lia || assumption] | apply uwrap_range; lia]. }
    rewrite testbit_uval by assumption. cbn [uhi ulo].
    destruct (Z.ltb_spec i 64).
    + rewrite testbit_uwrap, testbit_shiftl, (proj2 (Z.ltb_lt i 64)), (proj2 (Z.ltb_lt i 128)) by lia. cbn [andb].
      destruct (Z.leb_spec s i); [| reflexivity]. cbn [andb]. rewrite testbit_uval, (proj2 (Z.ltb_lt _ 64)) by (assumption || lia). reflexivity.
    + rewrite Z.lor_spec, testbit_uwrap, testbit_shiftl, Z.shiftr_spec by lia.
      rewrite (proj2 (Z.leb_le s i)) by lia. cbn [andb].
      destruct (Z.ltb_spec (i - 64) 64), (Z.ltb_spec i 128); try lia; cbn [andb orb].
      * rewrite testbit_uval by (assumption || lia). replace (i - 64 + (64 - s)) with (i - s) by lia.
        destruct (Z.ltb_spec (i - s) 64).
        -- rewrite (proj2 (Z.leb_gt s (i - 64))) by lia. reflexivity.
        -- rewrite (proj2 (Z.leb_le s (i - 64))), (testbit_high 64 (ulo x)) by (assumption || lia).
           rewrite orb_false_r. cbn [andb]. f_equal. lia.
      * apply (testbit_high 64); [exact Hl | lia].
  - assert (Ho : u128_ok (mkU128 (ulo x <<[64] (s - 64)) 0)).
    { split; cbn [uhi ulo]; [apply uwrap_range; lia | unfold in_u; lia]. }
    apply Hsub; [exact Ho |]. intros i Hi. rewrite testbit_uval, testbit_uwrap, testbit_shiftl by (assumption || lia).
    cbn [uhi ulo]. destruct (Z.ltb_spec i 64).
    + rewrite Z.bits_0, (proj2 (Z.leb_gt s i)) by lia. destruct (i <? 128); reflexivity.
    + rewrite testbit_uwrap, testbit_shiftl by lia.
      destruct (Z.ltb_spec (i - 64) 64), (Z.ltb_spec i 128); try lia; cbn [andb]; try reflexivity.
      destruct (Z.leb_spec (s - 64) (i - 64)), (Z.leb_spec s i); try lia; cbn [andb]; try reflexivity.
      rewrite testbit_uval, (proj2 (Z.ltb_lt (i - s) 64)) by (assumption || lia). f_equal. lia.
Qed.

Lemma u128_shr_spec (x : u128) (shamt : Z) : u128_ok x ->
  u128_ok (u128_shr x shamt) /\ uval (u128_shr x shamt) = uval x >>> (shamt mod 128).
Proof.
  intros Hx. destruct (shamt_range shamt) as [Es Hs]. unfold u128_shr. rewrite Es. set (s := shamt mod 128) in *. cbv zeta.
  pose proof Hx as [Hh Hl].
  destruct (Z.eqb_spec s 0) as [-> | Hs0]; [rewrite Z.shiftr_0_r; auto |].
  destruct (Z.ltb_spec s 64).
  - assert (Ho : u128_ok (mkU128 (uhi x >>> s) ((ulo x >>> s) .| (uhi x <<[64] (64 - s))))).
    { split; cbn [uhi ulo]; [apply shiftr_range; lia || assumption |].
      apply lor_range; [lia | apply shiftr_range; lia || assumption | apply uwrap_range; lia]. }
    split; [exact Ho |]. apply Z.bits_inj'. intros i Hi. rewrite testbit_uval, Z.shiftr_spec, testbit_uval by (assumption || lia).
    cbn [uhi ulo]. destruct (Z.ltb_spec i 64).
    + rewrite Z.lor_spec, Z.shiftr_spec, testbit_uwrap, testbit_shiftl, (proj2 (Z.ltb_lt i 64)) by lia. cbn [andb].
      destruct (Z.ltb_spec (i + s) 64), (Z.leb_spec (64 - s) i); try lia; cbn [andb]; [apply orb_false_r |].
      rewrite (testbit_high 64 (ulo x)) by (assumption || lia). cbn [orb]. f_equal. lia.
    + rewrite Z.shiftr_spec, (proj2 (Z.ltb_ge (i + s) 64)) by lia. f_equal. lia.
  - assert (Ho : u128_ok (mkU128 0 (uhi x >>> (s - 64)))).
    { split; cbn [uhi ulo]; [unfold in_u; lia | apply shiftr_range; lia || assumption]. }
    split; [exact Ho |]. apply Z.bits_inj'. intros i Hi. rewrite testbit_uval, Z.shiftr_spec, testbit_uval by (assumption || lia).
    cbn [uhi ulo]. rewrite (proj2 (Z.ltb_ge (i + s) 64)) by lia.
    destruct (Z.ltb_spec i 64); [rewrite Z.shiftr_spec by lia; f_equal; lia |].
    rewrite Z.bits_0. symmetry. apply (testbit_high 64); [exact Hh | lia].
Qed.

(** ** Division *)

(** One bit of the quotient. *)
Lemma bit_value (b : bool) : uval (u128_of (b2z b)) = b2z b.
Proof. destruct b; reflexivity. Qed.

Lemma lor_low_bit (x b : Z) : 0 <= b < 2 -> (2 * x) .| b = 2 * x + b.
Proof.
  intros Hb. rewrite Z.lor_comm. replace (2 * x) with (Z.shiftl x 1) by (rewrite shiftl_mul; lia).
  rewrite lor_concat by (unfold in_u; lia). rewrite shiftl_mul by lia. lia.
Qed.

Lemma shift_bit (x i : Z) : 0 <= i -> (x >>> i) .& 1 = (x / 2 ^ i) mod 2.
Proof. intros Hi. rewrite shiftr_div by lia. apply (uwrap_land 1). lia. Qed.

(** The values of one round, on a remainder with room for a bit and a quotient
    whose bits from [k] down are clear. *)
Lemma div_round_values (x y q r : u128) (k : nat) (Q : Z) :
  u128_ok x -> u128_ok y -> u128_ok q -> u128_ok r -> (k < 128)%nat ->
  uval r < 2 ^ 127 -> uval q = Q * 2 ^ Z.of_nat (S k) ->
  let (q', r') := div_round x y (q, r) k in
  let r1 := 2 * uval r + (uval x / 2 ^ Z.of_nat k) mod 2 in
  let d := b2z (uval y <=? r1) in
  u128_ok q' /\ u128_ok r' /\ uval q' = (2 * Q + d) * 2 ^ Z.of_nat k /\ uval r' = uwrap 128 (r1 - d * uval y).
Proof.
  intros Hx Hy Hq Hr Hk Hr0 Eq. pose proof (uval_range r Hr) as [Rr _]. pose proof (uval_range y Hy) as RY.
  set (b := (uval x / 2 ^ Z.of_nat k) mod 2). assert (Hb : 0 <= b < 2) by (apply Z.mod_pos_bound; lia).
  unfold div_round. cbv zeta.
  destruct (u128_shl_spec r 1 Hr) as [O1 E1]. change (1 mod 128) with 1 in E1.
  rewrite shiftl_mul, uwrap_small in E1 by (unfold in_u; change (2 ^ 128) with (2 * 2 ^ 127); lia).
  destruct (u128_shr_spec x (Z.of_nat k) Hx) as [O2 E2]. rewrite (Z.mod_small _ 128) in E2 by lia.
  destruct (u128_bits_ok _ _ O2 (u128_of_ok 1)) as (O3 & _). destruct (u128_bits _ _ O2 (u128_of_ok 1)) as (E3 & _).
  change (uval (u128_of 1)) with 1 in E3. rewrite E2, shift_bit in E3 by lia. fold b in E3.
  set (bit := u128_and (u128_shr x (Z.of_nat k)) (u128_of 1)) in *.
  destruct (u128_bits_ok _ _ O1 O3) as (_ & O4 & _). destruct (u128_bits _ _ O1 O3) as (_ & E4 & _).
  rewrite E1, E3 in E4. change (2 ^ 1) with 2 in E4. rewrite (Z.mul_comm _ 2), lor_low_bit in E4 by exact Hb.
  set (r1 := u128_or (u128_shl r 1) bit) in *.
  destruct (u128_compare r1 y O4 Hy) as (_ & _ & _ & _ & _ & ->). rewrite E4.
  set (d := uval y <=? 2 * uval r + b).
  destruct (u128_neg_spec _ (u128_of_ok (b2z d))) as [O5 E5]. rewrite bit_value in E5.
  destruct (u128_bits_ok _ _ Hy O5) as (O6 & _). destruct (u128_bits _ _ Hy O5) as (E6 & _). rewrite E5 in E6.
  assert (E6' : uval y .& uwrap 128 (- b2z d) = b2z d * uval y).
  { destruct d; cbn [b2z]; [| apply Z.land_0_r].
    change (uwrap 128 (Z.opp 1)) with (2 ^ 128 - 1). rewrite uwrap_land, uwrap_small by (assumption || lia). lia. }
  destruct (u128_sub_spec _ _ O4 O6) as [O7 E7]. rewrite E4, E6, E6' in E7.
  destruct (u128_shl_spec _ (Z.of_nat k) (u128_of_ok (b2z d))) as [O8 E8].
  assert (2 ^ Z.of_nat k < 2 ^ 128) by (apply Z.pow_lt_mono_r; lia). assert (0 < 2 ^ Z.of_nat k) by (apply pow2_pos; lia).
  rewrite bit_value, (Z.mod_small _ 128), uwrap_small in E8
    by (try rewrite shiftl_mul by lia; unfold in_u; destruct d; cbn [b2z]; lia).
  destruct (u128_bits_ok _ _ Hq O8) as (_ & O9 & _). destruct (u128_bits _ _ Hq O8) as (_ & E9 & _).
  rewrite Eq, E8, Nat2Z.inj_succ, Z.pow_succ_r in E9 by lia.
  replace (Q * (2 * 2 ^ Z.of_nat k)) with (Z.shiftl (2 * Q) (Z.of_nat k)) in E9 by (rewrite shiftl_mul; lia).
  rewrite <- Z.shiftl_lor, lor_low_bit, shiftl_mul in E9 by (destruct d; cbn; lia).
  auto.
Qed.

(** The arithmetic of one round. *)
Lemma div_round_arith (X Y b : Z) : 0 < Y -> 0 <= b < 2 ->
  let r1 := 2 * (X mod Y) + b in let d := b2z (Y <=? r1) in
  (2 * X + b) / Y = 2 * (X / Y) + d /\ (2 * X + b) mod Y = r1 - d * Y.
Proof.
  intros HY Hb. cbv zeta. pose proof (Z.div_mod X Y ltac:(lia)). pose proof (Z.mod_pos_bound X Y HY).
  set (d := b2z _). assert (Hd : 0 <= 2 * (X mod Y) + b - d * Y < Y)
    by (unfold d; destruct (Z.leb_spec Y (2 * (X mod Y) + b)); cbn [b2z]; lia).
  split; symmetry; [apply Z.div_unique with (r := 2 * (X mod Y) + b - d * Y) | apply Z.mod_unique with (q := 2 * (X / Y) + d)]; lia.
Qed.

(** What the loop holds when [k] bits are left. *)
Record div_inv (x y : u128) (k : nat) (q r : u128) : Prop := {
  dv_q : u128_ok q;
  dv_r : u128_ok r;
  dv_quot : uval q = uval x / 2 ^ Z.of_nat k / uval y * 2 ^ Z.of_nat k;
  dv_rem : uval r = (uval x / 2 ^ Z.of_nat k) mod uval y }.

Lemma div_round_inv (x y : u128) (k : nat) (q r : u128) : u128_ok x -> u128_ok y -> 0 < uval y -> (k < 128)%nat ->
  div_inv x y (S k) q r -> let (q', r') := div_round x y (q, r) k in div_inv x y k q' r'.
Proof.
  intros Hx Hy Hy0 Hk [Hq Hr Eq Er]. pose proof (uval_range x Hx) as RX. pose proof (uval_range y Hy) as RY.
  assert (HP : 0 < 2 ^ Z.of_nat k) by (apply pow2_pos; lia).
  assert (HPk : 2 ^ Z.of_nat (S k) = 2 * 2 ^ Z.of_nat k) by (rewrite Nat2Z.inj_succ, Z.pow_succ_r; lia).
  set (X := uval x / 2 ^ Z.of_nat (S k)) in *. set (b := (uval x / 2 ^ Z.of_nat k) mod 2).
  assert (EX : uval x / 2 ^ Z.of_nat k = 2 * X + b).
  { unfold X, b. rewrite HPk, (Z.mul_comm 2 (2 ^ Z.of_nat k)), <- Z.div_div by lia. apply Z.div_mod. lia. }
  assert (HX : 0 <= X < 2 ^ 127).
  { unfold X. split; [apply Z.div_pos; unfold in_u in RX; lia |]. apply Z.div_lt_upper_bound; [lia |]. unfold in_u in RX.
    rewrite HPk. change (2 ^ 128) with (2 * 2 ^ 127) in RX. nia. }
  pose proof (Z.mod_le X (uval y) ltac:(lia) Hy0). 
  pose proof (div_round_values x y q r k (X / uval y) Hx Hy Hq Hr Hk ltac:(lia) Eq) as H1.
  destruct (div_round x y (q, r) k) as [q' r']. cbv zeta in H1. rewrite Er in H1. fold b in H1.
  destruct H1 as (O1 & O2 & E1 & E2).
  destruct (div_round_arith X (uval y) b Hy0 ltac:(apply Z.mod_pos_bound; lia)) as [D1 D2]. cbv zeta in D1, D2.
  split; [exact O1 | exact O2 | rewrite E1, EX, D1; reflexivity |].
  rewrite E2, <- D2, EX. pose proof (Z.mod_pos_bound (2 * X + b) (uval y) Hy0). apply uwrap_small. unfold in_u in *. lia.
Qed.

Lemma div_loop_spec (x y : u128) : u128_ok x -> u128_ok y -> 0 < uval y ->
  let (q, r) := div_loop x y in
  u128_ok q /\ u128_ok r /\ uval q = uval x / uval y /\ uval r = uval x mod uval y.
Proof.
  intros Hx Hy Hy0. unfold div_loop.
  assert (H : forall n q r, (n <= 128)%nat -> div_inv x y n q r ->
    let (q', r') := fold_left (div_round x y) (rev (List.seq 0 n)) (q, r) in div_inv x y 0 q' r').
  { induction n as [| n IH]; intros q r Hn Hi; [exact Hi |]. rewrite List.seq_S, List.rev_app_distr. cbn [rev app fold_left Nat.add].
    pose proof (div_round_inv x y n q r Hx Hy Hy0 ltac:(lia) Hi) as H.
    destruct (div_round x y (q, r) n) as [q1 r1]. apply IH; [lia | exact H]. }
  pose proof (uval_range x Hx) as RX.
  specialize (H 128%nat (u128_of 0) (u128_of 0) ltac:(lia)).
  assert (H0 : uval x / 2 ^ Z.of_nat 128 = 0) by (apply Z.div_small; exact RX).
  destruct (fold_left (div_round x y) (rev (List.seq 0 128)) (u128_of 0, u128_of 0)) as [q r].
  destruct H as [O1 O2 E1 E2].
  - split; [apply u128_of_ok | apply u128_of_ok | rewrite H0, Z.div_0_l by lia; reflexivity | rewrite H0, Z.mod_0_l by lia; reflexivity].
  - change (2 ^ Z.of_nat 0) with 1 in *. rewrite Z.div_1_r in *. rewrite Z.mul_1_r in E1. auto.
Qed.

(** C36: The 128-bit unsigned operators compute on the values of their operands,
    modulo [2^128]: sum, difference, negation, the bitwise operators, the shifts (by
    the count modulo 128) and the comparisons; quotient and remainder, by 128 rounds
    on the halves, are exact, and by zero all ones and the dividend. *)
Theorem u128_correct (x y : u128) (s : Z) : u128_ok x -> u128_ok y ->
  let X := uval x in let Y := uval y in
  (uval (u128_add x y) = uwrap 128 (X + Y) /\ uval (u128_sub x y) = uwrap 128 (X - Y)
   /\ uval (u128_neg x) = uwrap 128 (- X))
  /\ (uval (u128_and x y) = X .& Y /\ uval (u128_or x y) = X .| Y
      /\ uval (u128_xor x y) = X .^ Y /\ uval (u128_not x) = bnot 128 X)
  /\ (uval (u128_shl x s) = X <<[128] (s mod 128) /\ uval (u128_shr x s) = X >>> (s mod 128))
  /\ (u128_eq x y = (X =? Y) /\ u128_ne x y = negb (X =? Y) /\ u128_lt x y = (X <? Y) /\ u128_gt x y = (Y <? X)
      /\ u128_le x y = (X <=? Y) /\ u128_ge x y = (Y <=? X))
  /\ uval (u128_div x y) = (if Y =? 0 then 2 ^ 128 - 1 else X / Y)
  /\ uval (u128_rem x y) = (if Y =? 0 then X else X mod Y).
Proof.
  intros Hx Hy X Y. split; [| split; [apply u128_bits; assumption | split; [| split; [apply u128_compare; assumption |]]]].
  - split; [apply u128_add_spec | split; [apply u128_sub_spec | apply u128_neg_spec]]; assumption.
  - split; [apply u128_shl_spec | apply u128_shr_spec]; assumption.
  - unfold u128_div, u128_rem. destruct (u128_compare y (u128_of 0) Hy (u128_of_ok 0)) as (-> & _).
    change (uval (u128_of 0)) with 0. fold Y. destruct (Z.eqb_spec Y 0) as [E | E]; [split; reflexivity |].
    pose proof (uval_range y Hy) as [Hy0 _]. fold Y in Hy0.
    pose proof (div_loop_spec x y Hx Hy ltac:(fold Y; lia)) as H. destruct (div_loop x y) as [q r].
    destruct H as (_ & _ & Hq & Hr). auto.
Qed.

Lemma u128_correct_witness :
  let x := mkU128 0xfedcba9876543210 0x0123456789abcdef in let y := mkU128 0 0xdeadbeef in
  uval (u128_div x y) = uval x / uval y /\ u128_lt y x = true.
Proof.
  cbv zeta. set (x := mkU128 0xfedcba9876543210 0x0123456789abcdef). set (y := mkU128 0 0xdeadbeef).
  destruct (u128_correct x y 0) as (_ & _ & _ & (_ & _ & _ & Hgt & _) & Hd & _).
  - split; split; reflexivity || discriminate.
  - split; split; reflexivity || discriminate.
  - split; [exact Hd | reflexivity].
Defined.

(** ** What does not hold *)

(** The product keeps 64 bits of the product of the lower halves, and extends their
    sign: it is wrong from [2^63] on. *)
Example u128_mul_wrong :
  uval (u128_mul (mkU128 0 (2 ^ 63)) (mkU128 0 1)) = 2 ^ 128 - 2 ^ 63
  /\ uval (u128_mul (mkU128 0 (2 ^ 32)) (mkU128 0 (2 ^ 32))) = 0.
Proof. vm_compute. split; reflexivity. Qed.

(** Masking with a non-negative [s32] keeps the upper half. *)
Example u128_and_s32_wrong : uval (u128_and_s32 (mkU128 1 0xff) 0xf) = 2 ^ 64 + 15.
Proof. reflexivity. Qed.

(** ** The signed type *)

(** The same bits. *)
Definition as_u128 (x : s128) : u128 := mkU128 (uwrap 64 (shi x)) (slo x).

Lemma sign_half_signed (lo : Z) : uwrap 64 (swrap 64 (sign_half lo)) = sign_half lo.
Proof. rewrite uwrap_swrap. unfold sign_half. apply uwrap_small, uwrap_range. lia. Qed.

(** Sum, difference and left shift are those of the unsigned type on the bits. *)
Lemma s128_words (x y : s128) (s : Z) : s128_ok x -> s128_ok y ->
  as_u128 (s128_add x y) = u128_add (as_u128 x) (as_u128 y)
  /\ as_u128 (s128_sub x y) = u128_sub (as_u128 x) (as_u128 y)
  /\ as_u128 (s128_shl x s) = u128_shl (as_u128 x) s.
Proof.
  intros Hx Hy. unfold as_u128, s128_add, u128_add, s128_sub, u128_sub. cbn [shi slo uhi ulo].
  split; [| split].
  - f_equal. rewrite uwrap_swrap, uwrap_idemp, !(uwrap_add_l 64 (_ + _)), <- !Z.add_assoc, uwrap_add_l.
    rewrite !(Z.add_comm (shi x)), <- !Z.add_assoc, uwrap_add_l. reflexivity.
  - f_equal. rewrite uwrap_swrap, uwrap_idemp, !(uwrap_sub_l 64 (_ - _)), <- !Z.sub_add_distr, uwrap_sub_l.
    rewrite <- (uwrap_sub_r 64 (shi x)), <- (uwrap_sub_r 64 (shi x) (uwrap 64 (shi y) + _)), uwrap_add_l. reflexivity.
  - destruct (shamt_range s) as [Ek Hk]. unfold s128_shl, u128_shl. cbn [uhi ulo]. rewrite Ek. cbv zeta.
    destruct (_ =? 0); [reflexivity |].
    destruct (Z.ltb_spec (s mod 128) 64); cbn [shi slo]; rewrite uwrap_swrap; f_equal; [| apply uwrap_idemp].
    destruct Hx as [_ Hl]. apply uwrap_small, lor_range; [lia | apply uwrap_range; lia |].
    apply shiftr_range; [lia | lia | exact Hl].
Qed.

(** Comparison and right shift respect the sign. *)
Lemma s128_signed (x y : s128) (s : Z) : s128_ok x -> s128_ok y ->
  s128_lt x y = (sval x <? sval y) /\ s128_le x y = (sval x <=? sval y) /\ s128_eq x y = (sval x =? sval y)
  /\ s128_gt x y = (sval y <? sval x) /\ s128_ge x y = (sval y <=? sval x).
Proof.
  intros [[? ?] [? ?]] [[? ?] [? ?]]. unfold s128_lt, s128_le, s128_eq, s128_gt, s128_ge, sval.
  repeat split; bcases; reflexivity || nia.
Qed.

Lemma testbit_sval (x : s128) (i : Z) : s128_ok x -> 0 <= i ->
  Z.testbit (sval x) i = if i <? 64 then Z.testbit (slo x) i else Z.testbit (shi x) (i - 64).
Proof.
  intros [_ Hl] Hi. unfold sval. rewrite <- lor_concat by (assumption || lia).
  rewrite Z.lor_spec, testbit_shiftl by lia.
  destruct (Z.ltb_spec i 64), (Z.leb_spec 64 i); try lia; cbn [andb]; [apply orb_false_r |].
  rewrite (testbit_high 64 (slo x)) by (assumption || lia). reflexivity.
Qed.

Lemma testbit_in_s (w x i : Z) : 0 < w -> in_s w x -> w - 1 <= i -> Z.testbit x i = (x <? 0).
Proof.
  intros Hw [Hl Hu] Hi. assert (2 ^ (w - 1) <= 2 ^ i) by (apply Z.pow_le_mono_r; lia).
  rewrite Z.testbit_odd, shiftr_div by lia. destruct (Z.ltb_spec x 0).
  - replace (x / 2 ^ i) with (-1); [reflexivity |]. apply Z.div_unique with (r := x + 2 ^ i); lia.
  - rewrite Z.div_small by lia. reflexivity.
Qed.

Lemma s128_shr_spec (x : s128) (shamt : Z) : s128_ok x ->
  s128_ok (s128_shr x shamt) /\ sval (s128_shr x shamt) = sval x >>> (shamt mod 128).
Proof.
  intros Hx. destruct (shamt_range shamt) as [Es Hs]. unfold s128_shr. rewrite Es. set (s := shamt mod 128) in *. cbv zeta.
  pose proof Hx as [Hh Hl].
  assert (Hsh : forall n, 0 <= n -> in_s 64 (shi x >>> n)).
  { intros n Hn. destruct Hh as [H1 H2]. rewrite shiftr_div by lia. pose proof (pow2_pos n Hn).
    split; [apply Z.div_le_lower_bound; [lia |] | apply Z.div_lt_upper_bound; [lia |]]; nia. }
  destruct (Z.eqb_spec s 0) as [-> | Hs0]; [rewrite Z.shiftr_0_r; auto |].
  destruct (Z.ltb_spec s 64).
  - assert (Ho : s128_ok (mkS128 (shi x >>> s) ((slo x >>> s) .| uwrap 64 (shi x <<[64] (64 - s))))).
    { split; cbn [shi slo]; [apply Hsh; lia |].
      apply lor_range; [lia | apply shiftr_range; lia || assumption | apply uwrap_range; lia]. }
    split; [exact Ho |]. apply Z.bits_inj'. intros i Hi. rewrite testbit_sval, Z.shiftr_spec, testbit_sval by (assumption || lia).
    cbn [shi slo]. destruct (Z.ltb_spec i 64).
    + rewrite Z.lor_spec, Z.shiftr_spec, uwrap_idemp, testbit_uwrap, testbit_shiftl, (proj2 (Z.ltb_lt i 64)) by lia. cbn [andb].
      destruct (Z.ltb_spec (i + s) 64), (Z.leb_spec (64 - s) i); try lia; cbn [andb]; [apply orb_false_r |].
      rewrite (testbit_high 64 (slo x)) by (assumption || lia). cbn [orb]. f_equal. lia.
    + rewrite Z.shiftr_spec, (proj2 (Z.ltb_ge (i + s) 64)) by lia. f_equal. lia.
  - set (hi := swrap 64 (- (uwrap 64 (shi x) >>> 63))).
    assert (Ehi : hi = if shi x <? 0 then -1 else 0).
    { unfold hi. destruct Hh as [H1 H2]. change (2 ^ (64 - 1)) with (2 ^ 63) in *. destruct (Z.ltb_spec (shi x) 0).
      - rewrite <- (uwrap_add_multiple 64 _ 1), uwrap_small by (unfold in_u; lia). rewrite shiftr_div by lia.
        replace ((shi x + 1 * 2 ^ 64) / 2 ^ 63) with 1; [reflexivity |].
        apply Z.div_unique with (r := shi x + 2 ^ 63); lia.
      - rewrite uwrap_small by (unfold in_u; lia). rewrite shiftr_div, Z.div_small by lia. reflexivity. }
    assert (Ho : s128_ok (mkS128 hi (uwrap 64 (shi x >>> (s - 64))))).
    { split; cbn [shi slo]; [unfold hi; apply swrap_range; lia | apply uwrap_range; lia]. }
    split; [exact Ho |]. apply Z.bits_inj'. intros i Hi. rewrite testbit_sval, Z.shiftr_spec, testbit_sval by (assumption || lia).
    cbn [shi slo]. rewrite (proj2 (Z.ltb_ge (i + s) 64)) by lia.
    destruct (Z.ltb_spec i 64).
    + rewrite testbit_uwrap, Z.shiftr_spec, (proj2 (Z.ltb_lt i 64)) by lia. cbn [andb]. f_equal. lia.
    + rewrite (testbit_in_s 64 (shi x) (i + s - 64)) by (assumption || lia). rewrite Ehi.
      destruct (shi x <? 0); [| apply Z.bits_0]. apply Z.bits_m1. lia.
Qed.
