(* ===== verification/Operand.v ===== *)
(** * Instruction operands: the bit-field templates of [asm/types.h] and
    [asm/operands.h]

    An operand is described by segments of the instruction word, each a list of
    ranges of the decoded value.  [S_decode] and [S_encode] follow the template
    recursion, including the sign of the computed shift. *)

From Stdlib Require Import ZArith Lia Bool.
From stdpp Require Import base list.
From S2P Require Import Prelude.

#[local] Open Scope Z_scope.
#[local] Open Scope word_scope.

(** ** Templates *)

(** [B<N,M>]: bits [N] down to [M] of the decoded value. *)
Record B : Type := mkB { b_n : Z; b_m : Z }.
Definition b_width (b : B) : Z := b_n b - b_m b + 1.
Definition b_mask (h : B) : Z := ((1 <<[64] (b_n h + 1)) -[64] 1) .^ ((1 <<[64] b_m h) -[64] 1).

(** [S<K,L,Args...>]: bits [K] down to [L] of the instruction. *)
Record S : Type := mkS { s_k : Z; s_l : Z; s_args : list B }.

Fixpoint s_offset (args : list B) : Z :=
  match args with
  | [] => 0
  | h :: t => s_offset t + b_width h
  end.

Definition s_shift (l : Z) (h : B) (t : list B) : Z :=
  s_offset (h :: t) + l - b_width h - b_m h.

Fixpoint S_decode (l : Z) (args : list B) (inst : Z) : Z :=
  match args with
  | [] => 0
  | h :: t =>
      let shift := s_shift l h t in
      ((if shift <? 0 then inst <<[64] (- shift) else inst >>> shift) .& b_mask h)
      .| S_decode l t inst
  end.

Fixpoint S_encode (l : Z) (args : list B) (imm : Z) : Z :=
  match args with
  | [] => 0
  | h :: t =>
      let shift := s_shift l h t in
      (if shift <? 0 then (imm .& b_mask h) >>> (- shift) else (imm .& b_mask h) <<[64] shift)
      .| S_encode l t imm
  end.

Fixpoint imm_decode (segs : list S) (inst : Z) : Z :=
  match segs with
  | [] => 0
  | h :: t => imm_decode t inst .| S_decode (s_l h) (s_args h) inst
  end.

Fixpoint imm_encode (segs : list S) (imm : Z) : Z :=
  match segs with
  | [] => 0
  | h :: t => imm_encode t imm .| S_encode (s_l h) (s_args h) imm
  end.

(** [sign_extend<T,B>]: assignment to a signed bit-field. *)
Definition sign_extend (w x : Z) : Z := swrap w x.

(** [simm_operand_t<W,...>] and [uimm_operand_t<W,...>]. *)
Record operand : Type := mkOperand { o_signed : bool; o_width : Z; o_segs : list S }.
Definition simm_operand (w : Z) (segs : list S) : operand := mkOperand true w segs.
Definition uimm_operand (w : Z) (segs : list S) : operand := mkOperand false w segs.

(** The immediate reaches [encode] converted to [u64]. *)
Definition op_decode (o : operand) (inst : Z) : Z :=
  let x := imm_decode (o_segs o) inst in
  if o_signed o then sign_extend (o_width o) x else x.

Definition op_encode (o : operand) (imm : Z) : Z := imm_encode (o_segs o) (uwrap 64 imm).

(** ** The operands of the instruction formats *)

Definition operand_rd := uimm_operand 5 [mkS 11 7 [mkB 4 0]].
Definition operand_rs1 := uimm_operand 5 [mkS 19 15 [mkB 4 0]].
Definition operand_rs2 := uimm_operand 5 [mkS 24 20 [mkB 4 0]].
Definition operand_rs3 := uimm_operand 5 [mkS 31 27 [mkB 4 0]].
Definition operand_frd := uimm_operand 5 [mkS 11 7 [mkB 4 0]].
Definition operand_frs1 := uimm_operand 5 [mkS 19 15 [mkB 4 0]].
Definition operand_frs2 := uimm_operand 5 [mkS 24 20 [mkB 4 0]].
Definition operand_frs3 := uimm_operand 5 [mkS 31 27 [mkB 4 0]].
Definition operand_aq := uimm_operand 1 [mkS 26 26 [mkB 0 0]].
Definition operand_rl := uimm_operand 1 [mkS 25 25 [mkB 0 0]].
Definition operand_pred := uimm_operand 4 [mkS 27 24 [mkB 3 0]].
Definition operand_succ := uimm_operand 4 [mkS 23 20 [mkB 3 0]].
Definition operand_rm := uimm_operand 3 [mkS 14 12 [mkB 2 0]].
Definition operand_imm20 := simm_operand 32 [mkS 31 12 [mkB 31 12]].
Definition operand_oimm20 := simm_operand 32 [mkS 31 12 [mkB 31 12]].
Definition operand_jimm20 := simm_operand 21 [mkS 31 12 [mkB 20 20; mkB 10 1; mkB 11 11; mkB 19 12]].
Definition operand_imm12 := simm_operand 12 [mkS 31 20 [mkB 11 0]].
Definition operand_oimm12 := simm_operand 12 [mkS 31 20 [mkB 11 0]].
Definition operand_csr12 := uimm_operand 12 [mkS 31 20 [mkB 11 0]].
Definition operand_simm12 := simm_operand 12 [mkS 31 25 [mkB 11 5]; mkS 11 7 [mkB 4 0]].
Definition operand_sbimm12 := simm_operand 13 [mkS 31 25 [mkB 12 12; mkB 10 5]; mkS 11 7 [mkB 4 1; mkB 11 11]].
Definition operand_zimm := uimm_operand 5 [mkS 19 15 [mkB 4 0]].
Definition operand_shamt5 := uimm_operand 5 [mkS 24 20 [mkB 4 0]].
Definition operand_shamt6 := uimm_operand 6 [mkS 25 20 [mkB 5 0]].
Definition operand_shamt7 := uimm_operand 7 [mkS 26 20 [mkB 6 0]].
Definition operand_crd0 := uimm_operand 1 [mkS 12 12 [mkB 0 0]].
Definition operand_crdq := uimm_operand 3 [mkS 4 2 [mkB 2 0]].
Definition operand_crs1q := uimm_operand 3 [mkS 9 7 [mkB 2 0]].
Definition operand_crs1rdq := uimm_operand 3 [mkS 9 7 [mkB 2 0]].
Definition operand_crs2q := uimm_operand 3 [mkS 4 2 [mkB 2 0]].
Definition operand_crd := uimm_operand 5 [mkS 11 7 [mkB 4 0]].
Definition operand_crs1 := uimm_operand 5 [mkS 11 7 [mkB 4 0]].
Definition operand_crs1rd := uimm_operand 5 [mkS 11 7 [mkB 4 0]].
Definition operand_crs2 := uimm_operand 5 [mkS 6 2 [mkB 4 0]].
Definition operand_cfrdq := uimm_operand 3 [mkS 4 2 [mkB 2 0]].
Definition operand_cfrs2q := uimm_operand 3 [mkS 4 2 [mkB 2 0]].
Definition operand_cfrs2 := uimm_operand 5 [mkS 6 2 [mkB 4 0]].
Definition operand_cfrd := uimm_operand 5 [mkS 11 7 [mkB 4 0]].
Definition operand_cimmsh5 := uimm_operand 5 [mkS 6 2 [mkB 4 0]].
Definition operand_cimmsh6 := uimm_operand 6 [mkS 12 12 [mkB 5 5]; mkS 6 2 [mkB 4 0]].
Definition operand_cimmi := simm_operand 6 [mkS 12 12 [mkB 5 5]; mkS 6 2 [mkB 4 0]].
Definition operand_cnzimmi := simm_operand 6 [mkS 12 12 [mkB 5 5]; mkS 6 2 [mkB 4 0]].
Definition operand_cimmui := simm_operand 18 [mkS 12 12 [mkB 17 17]; mkS 6 2 [mkB 16 12]].
Definition operand_cimmlwsp := uimm_operand 8 [mkS 12 12 [mkB 5 5]; mkS 6 2 [mkB 4 2; mkB 7 6]].
Definition operand_cimmldsp := uimm_operand 9 [mkS 12 12 [mkB 5 5]; mkS 6 2 [mkB 4 3; mkB 8 6]].
Definition operand_cimmlqsp := uimm_operand 10 [mkS 12 12 [mkB 5 5]; mkS 6 2 [mkB 4 4; mkB 9 6]].
Definition operand_cimm16sp := simm_operand 10 [mkS 12 12 [mkB 9 9]; mkS 6 2 [mkB 4 4; mkB 6 6; mkB 8 7; mkB 5 5]].
Definition operand_cimmj := simm_operand 12 [mkS 12 2 [mkB 11 11; mkB 4 4; mkB 9 8; mkB 10 10; mkB 6 6; mkB 7 7; mkB 3 1; mkB 5 5]].
Definition operand_cimmb := simm_operand 9 [mkS 12 10 [mkB 8 8; mkB 4 3]; mkS 6 2 [mkB 7 6; mkB 2 1; mkB 5 5]].
Definition operand_cimmswsp := uimm_operand 8 [mkS 12 7 [mkB 5 2; mkB 7 6]].
Definition operand_cimmsdsp := uimm_operand 9 [mkS 12 7 [mkB 5 3; mkB 8 6]].
Definition operand_cimmsqsp := uimm_operand 10 [mkS 12 7 [mkB 5 4; mkB 9 6]].
Definition operand_cimm4spn := uimm_operand 10 [mkS 12 5 [mkB 5 4; mkB 9 6; mkB 2 2; mkB 3 3]].
Definition operand_cimmw := uimm_operand 7 [mkS 12 10 [mkB 5 3]; mkS 6 5 [mkB 2 2; mkB 6 6]].
Definition operand_cimmd := uimm_operand 8 [mkS 12 10 [mkB 5 3]; mkS 6 5 [mkB 7 6]].
Definition operand_cimmq := uimm_operand 9 [mkS 12 10 [mkB 5 4; mkB 8 8]; mkS 6 5 [mkB 7 6]].

Definition all_operands : list operand :=
  [operand_rd; operand_rs1; operand_rs2; operand_rs3; operand_frd; operand_frs1;
   operand_frs2; operand_frs3; operand_aq; operand_rl; operand_pred; operand_succ;
   operand_rm; operand_imm20; operand_oimm20; operand_jimm20; operand_imm12;
   operand_oimm12; operand_csr12; operand_simm12; operand_sbimm12; operand_zimm;
   operand_shamt5; operand_shamt6; operand_shamt7; operand_crd0; operand_crdq;
   operand_crs1q; operand_crs1rdq; operand_crs2q; operand_crd; operand_crs1;
   operand_crs1rd; operand_crs2; operand_cfrdq; operand_cfrs2q; operand_cfrs2;
   operand_cfrd; operand_cimmsh5; operand_cimmsh6; operand_cimmi; operand_cnzimmi;
   operand_cimmui; operand_cimmlwsp; operand_cimmldsp; operand_cimmlqsp; operand_cimm16sp;
   operand_cimmj; operand_cimmb; operand_cimmswsp; operand_cimmsdsp; operand_cimmsqsp;
   operand_cimm4spn; operand_cimmw; operand_cimmd; operand_cimmq].

(** ** Bit ranges as moves

    An operand moves ranges of instruction bits to ranges of the decoded value.
    A move [(dst, src, w)] copies [w] bits. *)

Definition move : Type := Z * Z * Z.

Definition in_dst (c : move) (k : Z) : bool :=
  let '(dst, _, w) := c in (dst <=? k) && (k <? dst + w).

Definition mv (cs : list move) (f : Z -> bool) (k : Z) : bool :=
  existsb (fun c : move => in_dst c k && (let '(dst, src, _) := c in f (k - dst + src))) cs.

Definition in_dsts (cs : list move) (k : Z) : bool := existsb (fun c => in_dst c k) cs.

Definition swap (c : move) : move := let '(dst, src, w) := c in (src, dst, w).
Definition swaps (cs : list move) : list move := map swap cs.

(** Two moves read disjoint source ranges. *)
Definition src_disj (a b : move) : bool :=
  let '(_, s, w) := a in let '(_, s', w') := b in (s + w <=? s') || (s' + w' <=? s).

Fixpoint src_pairwise (cs : list move) : bool :=
  match cs with
  | [] => true
  | c :: t => forallb (src_disj c) t && src_pairwise t
  end.

Definition srcs_disj (cs cs' : list move) : bool := forallb (fun c => forallb (src_disj c) cs') cs.

Fixpoint s_moves (l : Z) (args : list B) : list move :=
  match args with
  | [] => []
  | h :: t => (b_m h, l + s_offset t, b_width h) :: s_moves l t
  end.

Fixpoint moves (segs : list S) : list move :=
  match segs with
  | [] => []
  | h :: t => moves t ++ s_moves (s_l h) (s_args h)
  end.

(** The ranges are well placed: inside the 64-bit instruction and value. *)
Definition b_ok (b : B) : bool := (0 <=? b_m b) && (b_m b <=? b_n b) && (b_n b <? 63).
Definition s_ok (s : S) : bool :=
  forallb b_ok (s_args s) && (0 <=? s_l s) && (s_l s + s_offset (s_args s) <=? 64).

Lemma mv_app (cs cs' : list move) (f : Z -> bool) (k : Z) :
  mv (cs ++ cs') f k = mv cs f k || mv cs' f k.
Proof. apply existsb_app. Qed.

Lemma mv_ext (cs : list move) (f g : Z -> bool) (k : Z) :
  (forall i, f i = g i) -> mv cs f k = mv cs g k.
Proof.
  intros H. unfold mv. induction cs as [|[[d s] w] cs IH]; simpl; [reflexivity |].
  rewrite IH, H. reflexivity.
Qed.

(** Only the positions the moves read matter. *)
Lemma mv_ext_src (cs : list move) (f g : Z -> bool) (k : Z) :
  (forall i, in_dsts (swaps cs) i = true -> f i = g i) -> mv cs f k = mv cs g k.
Proof.
  unfold mv, in_dsts. induction cs as [|[[d s] w] cs IH]; [reflexivity |].
  cbn [swaps map swap existsb in_dst]. intros H. f_equal.
  - destruct ((d <=? k) && (k <? d + w)) eqn:E; [|reflexivity]. cbn [andb]. apply H.
    rewrite andb_true_iff, Z.leb_le, Z.ltb_lt in E.
    rewrite (proj2 (Z.leb_le s _)), (proj2 (Z.ltb_lt _ (s + w))) by lia. reflexivity.
  - apply IH. intros i Hi. apply H. apply orb_true_iff. right. exact Hi.
Qed.

Lemma swaps_swaps (cs : list move) : swaps (swaps cs) = cs.
Proof.
  unfold swaps. rewrite map_map. rewrite <- (map_id cs) at 2.
  apply map_ext. intros [[d s] w]. reflexivity.
Qed.

(** Only positions at or above the sources matter. *)
Definition src_pos (cs : list move) : bool :=
  forallb (fun c : move => let '(_, s, _) := c in 0 <=? s) cs.

Lemma mv_ext_pos (cs : list move) (f g : Z -> bool) (k : Z) :
  src_pos cs = true -> (forall i, 0 <= i -> f i = g i) -> mv cs f k = mv cs g k.
Proof.
  intros Hp H. unfold mv. induction cs as [|[[d s] w] cs IH]; [reflexivity |].
  cbn [src_pos forallb existsb] in *. apply andb_true_iff in Hp as [Hs Hp].
  rewrite (IH Hp). f_equal. destruct (in_dst (d, s, w) k) eqn:E; [|reflexivity].
  cbn [in_dst] in E. rewrite andb_true_iff, !Z.leb_le in *. rewrite H by lia. reflexivity.
Qed.

Lemma mv_out (cs : list move) (f : Z -> bool) (k : Z) : in_dsts cs k = false -> mv cs f k = false.
Proof.
  unfold in_dsts, mv. induction cs as [|[[d s] w] cs IH]; [reflexivity |]. cbn [existsb].
  intros H. apply orb_false_iff in H as [-> H]. exact (IH H).
Qed.

Lemma mv_or (cs : list move) (f g : Z -> bool) (k : Z) :
  mv cs (fun i => f i || g i) k = mv cs f k || mv cs g k.
Proof.
  unfold mv. induction cs as [|[[d s] w] cs IH]; [reflexivity |]. cbn [existsb].
  rewrite IH. destruct (in_dst (d, s, w) k), (f (k - d + s)), (g (k - d + s)); simpl;
    rewrite ?orb_true_r, ?orb_false_r; reflexivity.
Qed.

Lemma mv_false (cs : list move) (k : Z) : mv cs (fun _ => false) k = false.
Proof.
  unfold mv. induction cs as [|[[d s] w] cs IH]; [reflexivity |]. cbn [existsb].
  rewrite IH, andb_false_r. reflexivity.
Qed.

(** Reading a range no move of [cs'] writes gives nothing. *)
Lemma mv_swaps_disj (cs cs' : list move) (f : Z -> bool) (k : Z) :
  srcs_disj cs cs' = true -> mv cs (mv (swaps cs') f) k = false.
Proof.
  unfold srcs_disj. rewrite forallb_forall. intros H.
  apply not_true_is_false. intros E. unfold mv at 1 in E.
  apply existsb_exists in E as [[[d s] w] [Hin E]]. apply andb_true_iff in E as [E1 E2].
  specialize (H _ Hin). rewrite forallb_forall in H.
  unfold mv, swaps in E2. apply existsb_exists in E2 as [c' [Hin' E2]].
  apply in_map_iff in Hin' as [[[d' s'] w'] [<- Hin']].
  specialize (H _ Hin'). simpl in *. apply andb_true_iff in E2 as [E2 _].
  apply andb_true_iff in E2 as [E2 E3]. apply andb_true_iff in E1 as [E1 E4].
  apply orb_true_iff in H. rewrite !Z.leb_le in *. rewrite !Z.ltb_lt in *. lia.
Qed.

Lemma src_disj_sym (a b : move) : src_disj a b = src_disj b a.
Proof. destruct a as [[? ?] ?], b as [[? ?] ?]. unfold src_disj. apply orb_comm. Qed.

(** Reading back what was written gives the value on the covered range. *)
Lemma mv_swaps_self (cs : list move) (f : Z -> bool) (k : Z) :
  src_pairwise cs = true -> mv cs (mv (swaps cs) f) k = in_dsts cs k && f k.
Proof.
  induction cs as [|c cs IH]; [reflexivity |]. cbn [src_pairwise]. intros H.
  apply andb_true_iff in H as [Hc Hcs]. specialize (IH Hcs).
  change (c :: cs) with ([c] ++ cs). unfold swaps. rewrite map_app. fold (swaps [c]) (swaps cs).
  rewrite mv_app.
  rewrite !(mv_ext _ (mv (swaps [c] ++ swaps cs) f)
    (fun i => mv (swaps [c]) f i || mv (swaps cs) f i) k) by (intros; apply mv_app).
  rewrite !mv_or, IH.
  rewrite (mv_swaps_disj [c] cs) by (unfold srcs_disj; cbn [forallb]; rewrite Hc; reflexivity).
  rewrite (mv_swaps_disj cs [c]).
  - unfold in_dsts. rewrite existsb_app. simpl orb. rewrite orb_false_r.
    destruct c as [[d s] w]. unfold mv, swaps, swap, in_dst. cbn [map existsb].
    rewrite !orb_false_r. replace (k - d + s - s + d) with k by lia.
    destruct (Z.leb_spec d k), (Z.ltb_spec k (d + w)); cbn [andb orb]; try reflexivity.
    destruct (Z.leb_spec s (k - d + s)), (Z.ltb_spec (k - d + s) (s + w)); try lia. 
    cbn [andb]. destruct (f k); [rewrite ?andb_true_r, ?orb_true_r | rewrite ?andb_false_r]; reflexivity.
  - unfold srcs_disj. rewrite forallb_forall. intros x Hx. cbn [forallb].
    rewrite forallb_forall in Hc. rewrite src_disj_sym, (Hc x Hx). reflexivity.
Qed.

(** ** The templates move bits *)

Lemma testbit_b_mask (b : B) (k : Z) :
  b_ok b = true -> 0 <= k -> Z.testbit (b_mask b) k = (b_m b <=? k) && (k <? b_m b + b_width b).
Proof.
  unfold b_ok, b_width, b_mask. rewrite !andb_true_iff, Z.ltb_lt, !Z.leb_le. intros [[H1 H2] H3] Hk.
  rewrite Z.lxor_spec, !shiftl_mul, !Z.mul_1_l by lia.
  assert (Hp : forall j, 0 <= j <= 63 -> uwrap 64 (uwrap 64 (2 ^ j) - 1) = 2 ^ j - 1).
  { intros j Hj. assert (2 ^ j < 2 ^ 64) by (apply Z.pow_lt_mono_r; lia).
    assert (0 < 2 ^ j) by (apply pow2_pos; lia).
    rewrite (uwrap_small 64 (2 ^ j)) by (unfold in_u; lia).
    apply uwrap_small; unfold in_u; lia. }
  rewrite !Hp, !testbit_pow2_m1 by lia. bcases; reflexivity || lia.
Qed.

Lemma s_offset_nonneg (t : list B) : forallb b_ok t = true -> 0 <= s_offset t.
Proof.
  induction t as [|b t IH]; cbn [forallb s_offset]; [lia |].
  rewrite andb_true_iff. intros [H1 H2]. specialize (IH H2).
  unfold b_ok in H1. rewrite !andb_true_iff, Z.ltb_lt, !Z.leb_le in H1. unfold b_width. lia.
Qed.

Lemma S_decode_moves (l : Z) (args : list B) (inst k : Z) :
  forallb b_ok args = true -> 0 <= l -> 0 <= k ->
  Z.testbit (S_decode l args inst) k = mv (s_moves l args) (Z.testbit inst) k.
Proof.
  intros Hok Hl Hk. induction args as [|b t IH]; [apply Z.testbit_0_l |].
  cbn [forallb] in Hok. apply andb_true_iff in Hok as [Hb Ht].
  pose proof (s_offset_nonneg t Ht) as Ho.
  cbn [S_decode s_moves]. rewrite Z.lor_spec, Z.land_spec, IH, testbit_b_mask by assumption.
  unfold mv. cbn [existsb in_dst]. f_equal. rewrite andb_comm.
  destruct ((b_m b <=? k) && (k <? b_m b + b_width b)) eqn:E; [|reflexivity]. cbn [andb].
  unfold b_ok in Hb. rewrite !andb_true_iff, Z.ltb_lt, !Z.leb_le in *. unfold b_width in E.
  assert (Es : s_shift l b t = s_offset t + l - b_m b) by (unfold s_shift; cbn [s_offset]; lia).
  rewrite Es. destruct (Z.ltb_spec (s_offset t + l - b_m b) 0).
  - rewrite testbit_uwrap, testbit_shiftl by lia.
    rewrite (proj2 (Z.ltb_lt k 64)), (proj2 (Z.leb_le _ k)) by lia. cbn [andb]. f_equal; lia.
  - rewrite Z.shiftr_spec by lia. f_equal; lia.
Qed.

Lemma S_encode_moves (l : Z) (args : list B) (imm k : Z) :
  forallb b_ok args = true -> 0 <= l -> l + s_offset args <= 64 -> 0 <= k ->
  Z.testbit (S_encode l args imm) k = mv (swaps (s_moves l args)) (Z.testbit imm) k.
Proof.
  intros Hok Hl Hfit Hk. induction args as [|b t IH]; [apply Z.testbit_0_l |].
  cbn [forallb s_offset] in Hok, Hfit. apply andb_true_iff in Hok as [Hb Ht].
  pose proof (s_offset_nonneg t Ht) as Ho. pose proof Hb as Hb'.
  unfold b_ok in Hb'. rewrite !andb_true_iff, Z.ltb_lt, !Z.leb_le in Hb'.
  assert (0 < b_width b) by (unfold b_width; lia).
  cbn [S_encode s_moves swaps map swap]. rewrite Z.lor_spec, IH by (assumption || lia).
  unfold mv. cbn [existsb in_dst]. f_equal.
  assert (Es : s_shift l b t = s_offset t + l - b_m b) by (unfold s_shift; cbn [s_offset]; lia).
  rewrite Es. destruct (Z.ltb_spec (s_offset t + l - b_m b) 0).
  - rewrite Z.shiftr_spec, Z.land_spec, testbit_b_mask by (assumption || lia).
    replace (k - (l + s_offset t) + b_m b) with (k + - (s_offset t + l - b_m b)) by lia.
    rewrite andb_comm. f_equal. bcases; reflexivity || lia.
  - rewrite testbit_uwrap, testbit_shiftl by lia.
    destruct (Z.leb_spec (s_offset t + l - b_m b) k).
    + rewrite Z.land_spec, testbit_b_mask by (assumption || lia).
      replace (k - (l + s_offset t) + b_m b) with (k - (s_offset t + l - b_m b)) by lia.
      cbn [andb]. rewrite (andb_comm (Z.testbit _ _)), andb_assoc. f_equal. bcases; reflexivity || lia.
    + rewrite (proj2 (Z.leb_gt (l + s_offset t) k)) by lia. rewrite andb_false_r. reflexivity.
Qed.

Lemma imm_decode_moves (segs : list S) (inst k : Z) :
  forallb s_ok segs = true -> 0 <= k ->
  Z.testbit (imm_decode segs inst) k = mv (moves segs) (Z.testbit inst) k.
Proof.
  intros Hok Hk. induction segs as [|s t IH]; [apply Z.testbit_0_l |].
  cbn [forallb] in Hok. apply andb_true_iff in Hok as [Hs Ht].
  unfold s_ok in Hs. rewrite !andb_true_iff, !Z.leb_le in Hs.
  cbn [imm_decode moves]. rewrite Z.lor_spec, IH, mv_app by assumption. f_equal.
  apply S_decode_moves; tauto.
Qed.

Lemma imm_encode_moves (segs : list S) (imm k : Z) :
  forallb s_ok segs = true -> 0 <= k ->
  Z.testbit (imm_encode segs imm) k = mv (swaps (moves segs)) (Z.testbit imm) k.
Proof.
  intros Hok Hk. induction segs as [|s t IH]; [apply Z.testbit_0_l |].
  cbn [forallb] in Hok. apply andb_true_iff in Hok as [Hs Ht].
  unfold s_ok in Hs. rewrite !andb_true_iff, !Z.leb_le in Hs.
  cbn [imm_encode moves]. unfold swaps. rewrite map_app. fold (swaps (moves t)).
  rewrite Z.lor_spec, IH, mv_app by assumption. f_equal. apply S_encode_moves; tauto.
Qed.

(** ** Operands: range and round trip *)

Definition o_moves (o : operand) : list move := moves (o_segs o).

(** The least decoded bit of an operand: its values are multiples of
    [2 ^ o_align]. *)
Definition o_align (o : operand) : Z :=
  fold_right (fun c : move => Z.min (let '(d, _, _) := c in d)) 64 (o_moves o).

(** The values an operand can hold: in the range of its width and aligned. *)
Definition imm_fits (o : operand) (x : Z) : Prop :=
  (if o_signed o then in_s (o_width o) x else in_u (o_width o) x) /\ x mod 2 ^ o_align o = 0.

Definition imm_fitsb (o : operand) (x : Z) : bool :=
  (if o_signed o then (- 2 ^ (o_width o - 1) <=? x) && (x <? 2 ^ (o_width o - 1))
   else (0 <=? x) && (x <? 2 ^ o_width o)) && (x mod 2 ^ o_align o =? 0).

Definition bits64 : list Z := map Z.of_nat (List.seq 0 64).

(** Well-formedness, checked by evaluation for every operand: segments inside
    the word, no bit read or written twice, decoded bits exactly
    [o_align, o_width). *)
Definition operand_ok (o : operand) : bool :=
  forallb s_ok (o_segs o) && src_pairwise (o_moves o) && src_pairwise (swaps (o_moves o))
  && forallb (fun k => eqb (in_dsts (o_moves o) k) ((o_align o <=? k) && (k <? o_width o))) bits64
  && forallb (fun c : move => let '(d, s, w) := c in
                (0 <=? s) && (0 <=? d) && (d + w <=? 64) && (s + w <=? 32)) (o_moves o)
  && (0 <=? o_align o) && (o_align o <? o_width o) && (o_width o <=? 32).

Lemma all_operands_ok : forallb operand_ok all_operands = true.
Proof. vm_compute. reflexivity. Qed.

Lemma bits64_In (k : Z) : 0 <= k < 64 -> In k bits64.
Proof.
  intros. unfold bits64. apply in_map_iff. exists (Z.to_nat k).
  split; [lia | apply in_seq; lia].
Qed.

Record operand_facts (o : operand) : Prop := {
  of_segs : forallb s_ok (o_segs o) = true;
  of_src : src_pairwise (o_moves o) = true;
  of_pos : src_pos (o_moves o) = true;
  of_pos' : src_pos (swaps (o_moves o)) = true;
  of_dst : src_pairwise (swaps (o_moves o)) = true;
  of_cover : forall k, 0 <= k ->
    in_dsts (o_moves o) k = (o_align o <=? k) && (k <? o_width o);
  of_high : forall k, 32 <= k -> in_dsts (swaps (o_moves o)) k = false;
  of_align : 0 <= o_align o;
  of_width : o_align o < o_width o <= 32 }.

Lemma operand_ok_facts (o : operand) : operand_ok o = true -> operand_facts o.
Proof.
  unfold operand_ok. rewrite !andb_true_iff, !Z.leb_le, Z.ltb_lt.
  intros [[[[[[[H1 H2] H3] H4] H5] H6] H7] H8]. rewrite forallb_forall in H4, H5.
  split; try assumption; try lia.
  - apply forallb_forall. intros [[d s] w] Hin. specialize (H5 _ Hin). simpl in *.
    rewrite !andb_true_iff in *. tauto.
  - apply forallb_forall. intros c Hin. apply in_map_iff in Hin as [[[d s] w] [<- Hin]].
    specialize (H5 _ Hin). simpl in *. rewrite !andb_true_iff in *. tauto.
  - intros k Hk. destruct (Z.ltb_spec k 64).
    + apply eqb_prop, (H4 k), bits64_In; lia.
    + rewrite (proj2 (Z.ltb_ge k (o_width o))), andb_false_r by lia.
      unfold in_dsts. apply not_true_is_false. intros E.
      apply existsb_exists in E as [[[d s] w] [Hin E]]. specialize (H5 _ Hin). simpl in *.
      rewrite !andb_true_iff, !Z.leb_le in *. rewrite Z.ltb_lt in E. lia.
  - intros k Hk. unfold in_dsts, swaps. apply not_true_is_false. intros E.
    apply existsb_exists in E as [c [Hin E]]. apply in_map_iff in Hin as [[[d s] w] [<- Hin]].
    specialize (H5 _ Hin). simpl in *. rewrite !andb_true_iff, !Z.leb_le in *.
    rewrite Z.ltb_lt in E. lia.
Qed.

Lemma operand_In_facts (o : operand) : In o all_operands -> operand_facts o.
Proof. intros H. apply operand_ok_facts, (forallb_In _ _ _ all_operands_ok H). Qed.

Lemma imm_decode_nonneg (segs : list S) (inst : Z) : 0 <= inst -> 0 <= imm_decode segs inst.
Proof.
  intros Hi. induction segs as [|s t IH]; simpl; [lia |]. apply Z.lor_nonneg; split; [exact IH |].
  induction (s_args s) as [|b bs IHb]; simpl; [lia |]. apply Z.lor_nonneg; split; [|exact IHb].
  apply Z.land_nonneg. left. destruct (_ <? 0).
  - apply uwrap_range; lia.
  - apply Z.shiftr_nonneg; lia.
Qed.

(** The decoded pattern occupies exactly the bits the operand covers. *)
Lemma imm_decode_range (o : operand) (inst : Z) :
  operand_facts o -> 0 <= inst -> in_u (o_width o) (imm_decode (o_segs o) inst).
Proof.
  intros F Hi. destruct F. apply in_u_testbit; [lia | apply imm_decode_nonneg; lia |].
  intros n Hn. rewrite imm_decode_moves by (assumption || lia).
  apply mv_out. fold (o_moves o). rewrite of_cover0 by lia.
  rewrite (proj2 (Z.ltb_ge n (o_width o))) by lia. apply andb_false_r.
Qed.

Lemma mod_pow2_testbit (x a : Z) : 0 <= a ->
  x mod 2 ^ a = 0 <-> (forall k, 0 <= k < a -> Z.testbit x k = false).
Proof.
  intros Ha. split.
  - intros H k Hk. rewrite <- (Z.mod_pow2_bits_low x a) by lia. rewrite H. apply Z.testbit_0_l.
  - intros H. apply Z.bits_inj'. intros n Hn. rewrite Z.testbit_0_l.
    change (x mod 2 ^ a) with (uwrap a x). rewrite testbit_uwrap by lia.
    destruct (Z.ltb_spec n a); [apply H; lia | reflexivity].
Qed.

(** The bits an encoded and decoded value keeps. *)
Lemma decode_encode_testbit (o : operand) (x k : Z) :
  operand_facts o -> 0 <= k ->
  Z.testbit (imm_decode (o_segs o) (op_encode o x)) k
  = (o_align o <=? k) && (k <? o_width o) && Z.testbit x k.
Proof.
  intros F Hk. destruct F. rewrite imm_decode_moves by assumption. fold (o_moves o).
  rewrite (mv_ext_pos _ _ (mv (swaps (o_moves o)) (Z.testbit (uwrap 64 x)))).
  - rewrite mv_swaps_self, of_cover0 by assumption. rewrite testbit_uwrap by lia.
    bcases; cbn [andb]; try reflexivity; lia.
  - assumption.
  - intros i Hi. apply imm_encode_moves; assumption.
Qed.

Lemma swrap_testbit_low (w x k : Z) : 0 < w -> 0 <= k < w -> Z.testbit (swrap w x) k = Z.testbit x k.
Proof.
  intros Hw Hk. pose proof (testbit_uwrap w (swrap w x) k ltac:(lia) ltac:(lia)) as E.
  rewrite uwrap_swrap, testbit_uwrap in E by lia.
  rewrite (proj2 (Z.ltb_lt k w)) in E by lia. simpl in E. congruence.
Qed.

Lemma eq_of_low_bits (w x y : Z) : 0 <= w ->
  (forall k, 0 <= k < w -> Z.testbit x k = Z.testbit y k) -> uwrap w x = uwrap w y.
Proof.
  intros Hw H. apply Z.bits_inj'. intros k Hk. rewrite !testbit_uwrap by lia.
  destruct (Z.ltb_spec k w); [rewrite H by lia|]; reflexivity.
Qed.

Lemma operand_decode_encode (o : operand) (x : Z) :
  operand_facts o -> imm_fits o x -> op_decode o (op_encode o x) = x.
Proof.
  intros F [Hr Ha]. pose proof (of_align o F). pose proof (of_width o F).
  rewrite mod_pow2_testbit in Ha by lia.
  assert (E : uwrap (o_width o) (imm_decode (o_segs o) (op_encode o x)) = uwrap (o_width o) x).
  { apply eq_of_low_bits; [lia |]. intros k Hk. rewrite decode_encode_testbit by (assumption || lia).
    destruct (Z.leb_spec (o_align o) k).
    - rewrite (proj2 (Z.ltb_lt k (o_width o))) by lia. reflexivity.
    - symmetry. apply Ha; lia. }
  unfold op_decode, sign_extend. destruct (o_signed o).
  - rewrite (swrap_uwrap_inj _ _ _ E). apply swrap_small; [lia | assumption].
  - assert (0 <= op_encode o x).
    { unfold op_encode. apply Z.bits_iff_nonneg_ex. exists 64. intros m Hm.
      rewrite imm_encode_moves by (apply (of_segs o F) || lia).
      apply mv_out. apply (of_high o F). lia. }
    rewrite (uwrap_small _ (imm_decode _ _)) in E by (apply imm_decode_range; assumption).
    rewrite (uwrap_small _ x) in E by assumption. exact E.
Qed.

(** Every decoded operand is a value the operand can hold. *)
Lemma operand_decode_fits (o : operand) (inst : Z) :
  operand_facts o -> 0 <= inst -> imm_fits o (op_decode o inst).
Proof.
  intros F Hi. pose proof (of_align o F). pose proof (of_width o F).
  assert (Hlow : forall k, 0 <= k < o_align o -> Z.testbit (imm_decode (o_segs o) inst) k = false).
  { intros k Hk. rewrite imm_decode_moves by (apply (of_segs o F) || lia). fold (o_moves o).
    apply mv_out. rewrite (of_cover o F) by lia.
    rewrite (proj2 (Z.leb_gt (o_align o) k)) by lia. reflexivity. }
  unfold imm_fits, op_decode, sign_extend. rewrite mod_pow2_testbit by lia.
  destruct (o_signed o).
  - split; [apply swrap_range; lia |]. intros k Hk.
    rewrite swrap_testbit_low by lia. apply Hlow; lia.
  - split; [apply imm_decode_range; assumption | assumption].
Qed.

Lemma op_encode_nonneg (o : operand) (x : Z) : operand_facts o -> in_u 32 (op_encode o x).
Proof.
  intros F. assert (Hb : forall m, 32 <= m -> Z.testbit (op_encode o x) m = false).
  { intros m Hm. unfold op_encode. rewrite imm_encode_moves by (apply (of_segs o F) || lia).
    apply mv_out. apply (of_high o F). lia. }
  apply in_u_testbit; [lia | | exact Hb].
  apply Z.bits_iff_nonneg_ex. exists 32. intros m Hm. apply Hb. lia.
Qed.

(** The positions an operand's moves write are non-negative. *)
Lemma dsts_nonneg (o : operand) (i : Z) :
  operand_facts o -> in_dsts (o_moves o) i = true -> 0 <= i.
Proof.
  intros F Hc. pose proof (of_pos' o F) as Hp.
  apply existsb_exists in Hc as [[[d s] w] [Hc1 Hc2]].
  unfold src_pos in Hp. rewrite forallb_forall in Hp.
  specialize (Hp _ (in_map swap _ _ Hc1)). simpl in *.
  rewrite andb_true_iff, !Z.leb_le in *. lia.
Qed.

(** Only the low [o_width] bits of a value are encoded. *)
Lemma op_encode_congr (o : operand) (x y : Z) :
  operand_facts o -> uwrap (o_width o) x = uwrap (o_width o) y -> op_encode o x = op_encode o y.
Proof.
  intros F E. pose proof (of_width o F). pose proof (of_align o F).
  apply Z.bits_inj'. intros k Hk. unfold op_encode.
  rewrite !imm_encode_moves by (apply (of_segs o F) || lia).
  apply mv_ext_src. fold (o_moves o). rewrite swaps_swaps. intros i Hi.
  pose proof (dsts_nonneg o i F Hi).
  rewrite (of_cover o F), andb_true_iff, Z.leb_le, Z.ltb_lt in Hi by lia.
  pose proof (testbit_uwrap (o_width o) x i ltac:(lia) ltac:(lia)) as Ex.
  rewrite E, testbit_uwrap in Ex by lia. rewrite (proj2 (Z.ltb_lt i (o_width o))) in Ex by lia.
  rewrite !testbit_uwrap by lia. cbn [andb] in Ex. rewrite Ex. reflexivity.
Qed.

(** ** Independence of operands in one word *)

Lemma imm_decode_lor (o : operand) (a b : Z) :
  operand_facts o -> imm_decode (o_segs o) (Z.lor a b)
  = Z.lor (imm_decode (o_segs o) a) (imm_decode (o_segs o) b).
Proof.
  intros F. apply Z.bits_inj'. intros k Hk. rewrite Z.lor_spec.
  rewrite !imm_decode_moves by (apply (of_segs o F) || lia).
  rewrite <- mv_or. apply mv_ext. intros i. apply Z.lor_spec.
Qed.

(** [o] does not see [b]. *)
Definition blind (o : operand) (b : Z) : Prop := imm_decode (o_segs o) b = 0.

Lemma op_decode_lor_l (o : operand) (a b : Z) :
  operand_facts o -> blind o b -> op_decode o (Z.lor a b) = op_decode o a.
Proof.
  intros F Hb. unfold op_decode. cbv zeta.
  replace (imm_decode (o_segs o) (Z.lor a b)) with (imm_decode (o_segs o) a); [reflexivity |].
  rewrite imm_decode_lor by assumption. rewrite Hb, Z.lor_0_r. reflexivity.
Qed.

Lemma op_decode_lor_r (o : operand) (a b : Z) :
  operand_facts o -> blind o a -> op_decode o (Z.lor a b) = op_decode o b.
Proof. intros F Ha. rewrite Z.lor_comm. apply op_decode_lor_l; assumption. Qed.

Lemma blind_lor (o : operand) (a b : Z) :
  operand_facts o -> blind o a -> blind o b -> blind o (Z.lor a b).
Proof. intros F Ha Hb. unfold blind. rewrite imm_decode_lor by assumption. rewrite Ha, Hb. reflexivity. Qed.

Definition operands_disj (o o' : operand) : bool := srcs_disj (o_moves o) (o_moves o').

Lemma blind_encode (o o' : operand) (x : Z) :
  operand_facts o -> operand_facts o' -> operands_disj o o' = true -> blind o (op_encode o' x).
Proof.
  intros F F' D. unfold blind. apply Z.bits_inj'. intros k Hk. rewrite Z.testbit_0_l.
  rewrite imm_decode_moves by (apply (of_segs o F) || lia). fold (o_moves o).
  rewrite (mv_ext_pos _ _ (mv (swaps (o_moves o')) (Z.testbit (uwrap 64 x)))).
  - apply mv_swaps_disj, D.
  - apply (of_pos o F).
  - intros i Hi. apply imm_encode_moves; [apply (of_segs o' F') | assumption].
Qed.

(** On the operand's bits, [a] sets nothing that [b] does not. *)
Definition subsumed (o : operand) (a b : Z) : Prop :=
  forall i, in_dsts (swaps (o_moves o)) i = true -> Z.testbit a i = true -> Z.testbit b i = true.

Lemma op_decode_subsumed (o : operand) (a b : Z) :
  operand_facts o -> subsumed o a b -> op_decode o (Z.lor a b) = op_decode o b.
Proof.
  intros F H. unfold op_decode. cbv zeta.
  replace (imm_decode (o_segs o) (Z.lor a b)) with (imm_decode (o_segs o) b); [reflexivity |].
  apply Z.bits_inj'. intros k Hk. rewrite !imm_decode_moves by (apply (of_segs o F) || lia).
  apply mv_ext_src. intros i Hi. rewrite Z.lor_spec. specialize (H i Hi).
  destruct (Z.testbit a i); [rewrite H by reflexivity |]; reflexivity.
Qed.

Lemma testbit_o_bits (o : operand) (i : Z) :
  operand_facts o -> Z.testbit (op_encode o (-1)) i = in_dsts (swaps (o_moves o)) i.
Proof.
  intros F. destruct (Z.ltb_spec i 0).
  - rewrite Z.testbit_neg_r by assumption. symmetry. apply not_true_is_false. intros Hi.
    pose proof (of_pos o F) as Hp. apply existsb_exists in Hi as [c [Hin Hi]].
    apply in_map_iff in Hin as [[[d s] w] [<- Hin]]. unfold src_pos in Hp.
    rewrite forallb_forall in Hp. specialize (Hp _ Hin). simpl in *.
    rewrite andb_true_iff, !Z.leb_le in *. lia.
  - unfold op_encode. rewrite imm_encode_moves by (apply (of_segs o F) || lia).
    fold (o_moves o). rewrite (mv_ext_src _ _ (fun _ => true)).
    + unfold mv, in_dsts. induction (swaps (o_moves o)) as [|[[d s] w] cs IH]; [reflexivity |].
      cbn [existsb]. rewrite IH, andb_true_r. reflexivity.
    + rewrite swaps_swaps. intros j Hj. pose proof (dsts_nonneg o j F Hj).
      pose proof (of_width o F).
      rewrite (of_cover o F), andb_true_iff, Z.leb_le, Z.ltb_lt in Hj by lia.
      rewrite testbit_uwrap by lia. rewrite (proj2 (Z.ltb_lt j 64)) by lia.
      rewrite Z.bits_m1 by lia. reflexivity.
Qed.

(** Decoding gives a value the operand holds; re-encoding it restores exactly
    the operand's bits. *)
Lemma operand_decode_bits (o : operand) (inst : Z) :
  operand_facts o -> in_u 64 inst ->
  imm_fits o (op_decode o inst)
  /\ (forall k, 0 <= k -> Z.testbit (op_encode o (op_decode o inst)) k
        = in_dsts (swaps (o_moves o)) k && Z.testbit inst k).
Proof.
  intros F Hi.
  split; [apply operand_decode_fits; [assumption | apply Hi] |]. intros k Hk.
  pose proof (of_align o F). pose proof (of_width o F).
  unfold op_encode. rewrite imm_encode_moves by (apply (of_segs o F) || lia). fold (o_moves o).
  rewrite (mv_ext_src (swaps (o_moves o)) _ (mv (swaps (swaps (o_moves o))) (Z.testbit inst))).
  - apply mv_swaps_self, (of_dst o F).
  - rewrite swaps_swaps. intros i Hc. pose proof (dsts_nonneg o i F Hc).
    rewrite (of_cover o F), andb_true_iff, Z.leb_le, Z.ltb_lt in Hc by lia.
    unfold o_moves. rewrite <- imm_decode_moves by (apply (of_segs o F) || lia).
    rewrite testbit_uwrap by lia. rewrite (proj2 (Z.ltb_lt i 64)) by lia. cbn [andb].
    unfold op_decode, sign_extend. destruct (o_signed o); [apply swrap_testbit_low; lia | reflexivity].
Qed.

(** C22: for every operand of every format, encoding a value the operand can
    hold (in range and aligned) and decoding the word gives the value back;
    conversely any word decodes to a value the operand can hold, and re-encoding
    it gives back exactly the bits of the word that belong to the operand. *)
Theorem operand_codec (o : operand) :
  In o all_operands ->
  (forall x, imm_fits o x -> op_decode o (op_encode o x) = x)
  /\ (forall inst, in_u 64 inst ->
      imm_fits o (op_decode o inst)
      /\ (forall k, 0 <= k -> Z.testbit (op_encode o (op_decode o inst)) k
            = in_dsts (swaps (o_moves o)) k && Z.testbit inst k)).
Proof.
  intros H. apply operand_In_facts in H. split; [intros x | intros inst];
    [apply operand_decode_encode, H | apply operand_decode_bits, H].
Qed.

Lemma operand_codec_witness :
  (op_encode operand_sbimm12 (-4096) = 0x80000000
   /\ op_decode operand_sbimm12 (op_encode operand_sbimm12 (-4096)) = -4096)
  /\ op_decode operand_jimm20 0xfffff06f = -2
  /\ imm_fits operand_jimm20 (op_decode operand_jimm20 0xfffff06f).
Proof.
  split; split; [reflexivity | | reflexivity |].
  - refine (proj1 (operand_codec operand_sbimm12 _) _ _).
    + unfold all_operands. simpl. tauto.
    + split; [split; vm_compute; congruence | reflexivity].
  - refine (proj1 (proj2 (operand_codec operand_jimm20 _) _ _)).
    + unfold all_operands. simpl. tauto.
    + split; vm_compute; congruence.
Defined.
