(* ===== verification/Meta.v ===== *)
(** * Instruction metadata: [asm/meta.h] and [asm/meta.cc]

    The enumerations of opcodes and codecs and the generated tables giving the
    codec, the match value and the mask of every opcode.  A C table indexed by
    the opcode is a function of the opcode. *)

From Stdlib Require Import ZArith Lia Bool.
From stdpp Require Import base list.
From S2P Require Import Prelude.

#[local] Open Scope Z_scope.

(** ** Enumerations *)

(** Instruction codecs. *)
Inductive rv_codec : Set :=
  | rv_codec_illegal | rv_codec_none | rv_codec_u | rv_codec_uj | rv_codec_i | rv_codec_i_sh5
  | rv_codec_i_sh6 | rv_codec_i_sh7 | rv_codec_i_csr | rv_codec_s | rv_codec_sb | rv_codec_r
  | rv_codec_r_m | rv_codec_r4_m | rv_codec_r_a | rv_codec_r_l | rv_codec_r_f | rv_codec_cb
  | rv_codec_cb_imm | rv_codec_cb_sh5 | rv_codec_cb_sh6 | rv_codec_ci | rv_codec_ci_sh5
  | rv_codec_ci_sh6 | rv_codec_ci_16sp | rv_codec_ci_lwsp | rv_codec_ci_ldsp | rv_codec_ci_lqsp
  | rv_codec_ci_li | rv_codec_ci_lui | rv_codec_ci_none | rv_codec_ciw_4spn | rv_codec_cj
  | rv_codec_cj_jal | rv_codec_cl_lw | rv_codec_cl_ld | rv_codec_cl_lq | rv_codec_cr
  | rv_codec_cr_mv | rv_codec_cr_jalr | rv_codec_cr_jr | rv_codec_cs | rv_codec_cs_sw
  | rv_codec_cs_sd | rv_codec_cs_sq | rv_codec_css_swsp | rv_codec_css_sdsp | rv_codec_css_sqsp.

(** Opcodes, in the order of the enumeration. *)
Inductive rv_op : Set :=
  | rv_op_illegal | rv_op_lui | rv_op_auipc | rv_op_jal | rv_op_jalr | rv_op_beq | rv_op_bne
  | rv_op_blt | rv_op_bge | rv_op_bltu | rv_op_bgeu | rv_op_lb | rv_op_lh | rv_op_lw | rv_op_lbu
  | rv_op_lhu | rv_op_sb | rv_op_sh | rv_op_sw | rv_op_addi | rv_op_slti | rv_op_sltiu
  | rv_op_xori | rv_op_ori | rv_op_andi | rv_op_slli | rv_op_srli | rv_op_srai | rv_op_add
  | rv_op_sub | rv_op_sll | rv_op_slt | rv_op_sltu | rv_op_xor | rv_op_srl | rv_op_sra | rv_op_or
  | rv_op_and | rv_op_fence | rv_op_fence_i | rv_op_lwu | rv_op_ld | rv_op_sd | rv_op_addiw
  | rv_op_slliw | rv_op_srliw | rv_op_sraiw | rv_op_addw | rv_op_subw | rv_op_sllw | rv_op_srlw
  | rv_op_sraw | rv_op_ldu | rv_op_lq | rv_op_sq | rv_op_addid | rv_op_sllid | rv_op_srlid
  | rv_op_sraid | rv_op_addd | rv_op_subd | rv_op_slld | rv_op_srld | rv_op_srad | rv_op_mul
  | rv_op_mulh | rv_op_mulhsu | rv_op_mulhu | rv_op_div | rv_op_divu | rv_op_rem | rv_op_remu
  | rv_op_mulw | rv_op_divw | rv_op_divuw | rv_op_remw | rv_op_remuw | rv_op_muld | rv_op_divd
  | rv_op_divud | rv_op_remd | rv_op_remud | rv_op_lr_w | rv_op_sc_w | rv_op_amoswap_w
  | rv_op_amoadd_w | rv_op_amoxor_w | rv_op_amoor_w | rv_op_amoand_w | rv_op_amomin_w
  | rv_op_amomax_w | rv_op_amominu_w | rv_op_amomaxu_w | rv_op_lr_d | rv_op_sc_d
  | rv_op_amoswap_d | rv_op_amoadd_d | rv_op_amoxor_d | rv_op_amoor_d | rv_op_amoand_d
  | rv_op_amomin_d | rv_op_amomax_d | rv_op_amominu_d | rv_op_amomaxu_d | rv_op_lr_q | rv_op_sc_q
  | rv_op_amoswap_q | rv_op_amoadd_q | rv_op_amoxor_q | rv_op_amoor_q | rv_op_amoand_q
  | rv_op_amomin_q | rv_op_amomax_q | rv_op_amominu_q | rv_op_amomaxu_q | rv_op_ecall
  | rv_op_ebreak | rv_op_uret | rv_op_sret | rv_op_hret | rv_op_mret | rv_op_dret
  | rv_op_sfence_vm | rv_op_sfence_vma | rv_op_wfi | rv_op_csrrw | rv_op_csrrs | rv_op_csrrc
  | rv_op_csrrwi | rv_op_csrrsi | rv_op_csrrci | rv_op_flw | rv_op_fsw | rv_op_fmadd_s
  | rv_op_fmsub_s | rv_op_fnmsub_s | rv_op_fnmadd_s | rv_op_fadd_s | rv_op_fsub_s | rv_op_fmul_s
  | rv_op_fdiv_s | rv_op_fsgnj_s | rv_op_fsgnjn_s | rv_op_fsgnjx_s | rv_op_fmin_s | rv_op_fmax_s
  | rv_op_fsqrt_s | rv_op_fle_s | rv_op_flt_s | rv_op_feq_s | rv_op_fcvt_w_s | rv_op_fcvt_wu_s
  | rv_op_fcvt_s_w | rv_op_fcvt_s_wu | rv_op_fmv_x_s | rv_op_fclass_s | rv_op_fmv_s_x
  | rv_op_fcvt_l_s | rv_op_fcvt_lu_s | rv_op_fcvt_s_l | rv_op_fcvt_s_lu | rv_op_fld | rv_op_fsd
  | rv_op_fmadd_d | rv_op_fmsub_d | rv_op_fnmsub_d | rv_op_fnmadd_d | rv_op_fadd_d | rv_op_fsub_d
  | rv_op_fmul_d | rv_op_fdiv_d | rv_op_fsgnj_d | rv_op_fsgnjn_d | rv_op_fsgnjx_d | rv_op_fmin_d
  | rv_op_fmax_d | rv_op_fcvt_s_d | rv_op_fcvt_d_s | rv_op_fsqrt_d | rv_op_fle_d | rv_op_flt_d
  | rv_op_feq_d | rv_op_fcvt_w_d | rv_op_fcvt_wu_d | rv_op_fcvt_d_w | rv_op_fcvt_d_wu
  | rv_op_fclass_d | rv_op_fcvt_l_d | rv_op_fcvt_lu_d | rv_op_fmv_x_d | rv_op_fcvt_d_l
  | rv_op_fcvt_d_lu | rv_op_fmv_d_x | rv_op_flq | rv_op_fsq | rv_op_fmadd_q | rv_op_fmsub_q
  | rv_op_fnmsub_q | rv_op_fnmadd_q | rv_op_fadd_q | rv_op_fsub_q | rv_op_fmul_q | rv_op_fdiv_q
  | rv_op_fsgnj_q | rv_op_fsgnjn_q | rv_op_fsgnjx_q | rv_op_fmin_q | rv_op_fmax_q
  | rv_op_fcvt_s_q | rv_op_fcvt_q_s | rv_op_fcvt_d_q | rv_op_fcvt_q_d | rv_op_fsqrt_q
  | rv_op_fle_q | rv_op_flt_q | rv_op_feq_q | rv_op_fcvt_w_q | rv_op_fcvt_wu_q | rv_op_fcvt_q_w
  | rv_op_fcvt_q_wu | rv_op_fclass_q | rv_op_fcvt_l_q | rv_op_fcvt_lu_q | rv_op_fcvt_q_l
  | rv_op_fcvt_q_lu | rv_op_fmv_x_q | rv_op_fmv_q_x | rv_op_c_addi4spn | rv_op_c_fld | rv_op_c_lw
  | rv_op_c_flw | rv_op_c_fsd | rv_op_c_sw | rv_op_c_fsw | rv_op_c_nop | rv_op_c_addi
  | rv_op_c_jal | rv_op_c_li | rv_op_c_addi16sp | rv_op_c_lui | rv_op_c_srli | rv_op_c_srai
  | rv_op_c_andi | rv_op_c_sub | rv_op_c_xor | rv_op_c_or | rv_op_c_and | rv_op_c_subw
  | rv_op_c_addw | rv_op_c_j | rv_op_c_beqz | rv_op_c_bnez | rv_op_c_slli | rv_op_c_fldsp
  | rv_op_c_lwsp | rv_op_c_flwsp | rv_op_c_jr | rv_op_c_mv | rv_op_c_ebreak | rv_op_c_jalr
  | rv_op_c_add | rv_op_c_fsdsp | rv_op_c_swsp | rv_op_c_fswsp | rv_op_c_ld | rv_op_c_sd
  | rv_op_c_addiw | rv_op_c_ldsp | rv_op_c_sdsp | rv_op_c_lq | rv_op_c_sq | rv_op_c_lqsp
  | rv_op_c_sqsp | rv_op_nop | rv_op_mv | rv_op_not | rv_op_neg | rv_op_negw | rv_op_sext_w
  | rv_op_seqz | rv_op_snez | rv_op_sltz | rv_op_sgtz | rv_op_fmv_s | rv_op_fabs_s | rv_op_fneg_s
  | rv_op_fmv_d | rv_op_fabs_d | rv_op_fneg_d | rv_op_fmv_q | rv_op_fabs_q | rv_op_fneg_q
  | rv_op_beqz | rv_op_bnez | rv_op_blez | rv_op_bgez | rv_op_bltz | rv_op_bgtz | rv_op_ble
  | rv_op_bleu | rv_op_bgt | rv_op_bgtu | rv_op_j | rv_op_ret | rv_op_jr | rv_op_rdcycle
  | rv_op_rdtime | rv_op_rdinstret | rv_op_rdcycleh | rv_op_rdtimeh | rv_op_rdinstreth
  | rv_op_frcsr | rv_op_frrm | rv_op_frflags | rv_op_fscsr | rv_op_fsrm | rv_op_fsflags
  | rv_op_fsrmi | rv_op_fsflagsi.

(** The opcodes as an array: position [i] holds the opcode numbered [i]. *)
Definition all_ops : list rv_op :=
  [
    rv_op_illegal; rv_op_lui; rv_op_auipc; rv_op_jal; rv_op_jalr; rv_op_beq; rv_op_bne;
    rv_op_blt; rv_op_bge; rv_op_bltu; rv_op_bgeu; rv_op_lb; rv_op_lh; rv_op_lw; rv_op_lbu;
    rv_op_lhu; rv_op_sb; rv_op_sh; rv_op_sw; rv_op_addi; rv_op_slti; rv_op_sltiu; rv_op_xori;
    rv_op_ori; rv_op_andi; rv_op_slli; rv_op_srli; rv_op_srai; rv_op_add; rv_op_sub; rv_op_sll;
    rv_op_slt; rv_op_sltu; rv_op_xor; rv_op_srl; rv_op_sra; rv_op_or; rv_op_and; rv_op_fence;
    rv_op_fence_i; rv_op_lwu; rv_op_ld; rv_op_sd; rv_op_addiw; rv_op_slliw; rv_op_srliw;
    rv_op_sraiw; rv_op_addw; rv_op_subw; rv_op_sllw; rv_op_srlw; rv_op_sraw; rv_op_ldu; rv_op_lq;
    rv_op_sq; rv_op_addid; rv_op_sllid; rv_op_srlid; rv_op_sraid; rv_op_addd; rv_op_subd;
    rv_op_slld; rv_op_srld; rv_op_srad; rv_op_mul; rv_op_mulh; rv_op_mulhsu; rv_op_mulhu;
    rv_op_div; rv_op_divu; rv_op_rem; rv_op_remu; rv_op_mulw; rv_op_divw; rv_op_divuw;
    rv_op_remw; rv_op_remuw; rv_op_muld; rv_op_divd; rv_op_divud; rv_op_remd; rv_op_remud;
    rv_op_lr_w; rv_op_sc_w; rv_op_amoswap_w; rv_op_amoadd_w; rv_op_amoxor_w; rv_op_amoor_w;
    rv_op_amoand_w; rv_op_amomin_w; rv_op_amomax_w; rv_op_amominu_w; rv_op_amomaxu_w; rv_op_lr_d;
    rv_op_sc_d; rv_op_amoswap_d; rv_op_amoadd_d; rv_op_amoxor_d; rv_op_amoor_d; rv_op_amoand_d;
    rv_op_amomin_d; rv_op_amomax_d; rv_op_amominu_d; rv_op_amomaxu_d; rv_op_lr_q; rv_op_sc_q;
    rv_op_amoswap_q; rv_op_amoadd_q; rv_op_amoxor_q; rv_op_amoor_q; rv_op_amoand_q;
    rv_op_amomin_q; rv_op_amomax_q; rv_op_amominu_q; rv_op_amomaxu_q; rv_op_ecall; rv_op_ebreak;
    rv_op_uret; rv_op_sret; rv_op_hret; rv_op_mret; rv_op_dret; rv_op_sfence_vm;
    rv_op_sfence_vma; rv_op_wfi; rv_op_csrrw; rv_op_csrrs; rv_op_csrrc; rv_op_csrrwi;
    rv_op_csrrsi; rv_op_csrrci; rv_op_flw; rv_op_fsw; rv_op_fmadd_s; rv_op_fmsub_s;
    rv_op_fnmsub_s; rv_op_fnmadd_s; rv_op_fadd_s; rv_op_fsub_s; rv_op_fmul_s; rv_op_fdiv_s;
    rv_op_fsgnj_s; rv_op_fsgnjn_s; rv_op_fsgnjx_s; rv_op_fmin_s; rv_op_fmax_s; rv_op_fsqrt_s;
    rv_op_fle_s; rv_op_flt_s; rv_op_feq_s; rv_op_fcvt_w_s; rv_op_fcvt_wu_s; rv_op_fcvt_s_w;
    rv_op_fcvt_s_wu; rv_op_fmv_x_s; rv_op_fclass_s; rv_op_fmv_s_x; rv_op_fcvt_l_s;
    rv_op_fcvt_lu_s; rv_op_fcvt_s_l; rv_op_fcvt_s_lu; rv_op_fld; rv_op_fsd; rv_op_fmadd_d;
    rv_op_fmsub_d; rv_op_fnmsub_d; rv_op_fnmadd_d; rv_op_fadd_d; rv_op_fsub_d; rv_op_fmul_d;
    rv_op_fdiv_d; rv_op_fsgnj_d; rv_op_fsgnjn_d; rv_op_fsgnjx_d; rv_op_fmin_d; rv_op_fmax_d;
    rv_op_fcvt_s_d; rv_op_fcvt_d_s; rv_op_fsqrt_d; rv_op_fle_d; rv_op_flt_d; rv_op_feq_d;
    rv_op_fcvt_w_d; rv_op_fcvt_wu_d; rv_op_fcvt_d_w; rv_op_fcvt_d_wu; rv_op_fclass_d;
    rv_op_fcvt_l_d; rv_op_fcvt_lu_d; rv_op_fmv_x_d; rv_op_fcvt_d_l; rv_op_fcvt_d_lu;
    rv_op_fmv_d_x; rv_op_flq; rv_op_fsq; rv_op_fmadd_q; rv_op_fmsub_q; rv_op_fnmsub_q;
    rv_op_fnmadd_q; rv_op_fadd_q; rv_op_fsub_q; rv_op_fmul_q; rv_op_fdiv_q; rv_op_fsgnj_q;
    rv_op_fsgnjn_q; rv_op_fsgnjx_q; rv_op_fmin_q; rv_op_fmax_q; rv_op_fcvt_s_q; rv_op_fcvt_q_s;
    rv_op_fcvt_d_q; rv_op_fcvt_q_d; rv_op_fsqrt_q; rv_op_fle_q; rv_op_flt_q; rv_op_feq_q;
    rv_op_fcvt_w_q; rv_op_fcvt_wu_q; rv_op_fcvt_q_w; rv_op_fcvt_q_wu; rv_op_fclass_q;
    rv_op_fcvt_l_q; rv_op_fcvt_lu_q; rv_op_fcvt_q_l; rv_op_fcvt_q_lu; rv_op_fmv_x_q;
    rv_op_fmv_q_x; rv_op_c_addi4spn; rv_op_c_fld; rv_op_c_lw; rv_op_c_flw; rv_op_c_fsd;
    rv_op_c_sw; rv_op_c_fsw; rv_op_c_nop; rv_op_c_addi; rv_op_c_jal; rv_op_c_li;
    rv_op_c_addi16sp; rv_op_c_lui; rv_op_c_srli; rv_op_c_srai; rv_op_c_andi; rv_op_c_sub;
    rv_op_c_xor; rv_op_c_or; rv_op_c_and; rv_op_c_subw; rv_op_c_addw; rv_op_c_j; rv_op_c_beqz;
    rv_op_c_bnez; rv_op_c_slli; rv_op_c_fldsp; rv_op_c_lwsp; rv_op_c_flwsp; rv_op_c_jr;
    rv_op_c_mv; rv_op_c_ebreak; rv_op_c_jalr; rv_op_c_add; rv_op_c_fsdsp; rv_op_c_swsp;
    rv_op_c_fswsp; rv_op_c_ld; rv_op_c_sd; rv_op_c_addiw; rv_op_c_ldsp; rv_op_c_sdsp; rv_op_c_lq;
    rv_op_c_sq; rv_op_c_lqsp; rv_op_c_sqsp; rv_op_nop; rv_op_mv; rv_op_not; rv_op_neg;
    rv_op_negw; rv_op_sext_w; rv_op_seqz; rv_op_snez; rv_op_sltz; rv_op_sgtz; rv_op_fmv_s;
    rv_op_fabs_s; rv_op_fneg_s; rv_op_fmv_d; rv_op_fabs_d; rv_op_fneg_d; rv_op_fmv_q;
    rv_op_fabs_q; rv_op_fneg_q; rv_op_beqz; rv_op_bnez; rv_op_blez; rv_op_bgez; rv_op_bltz;
    rv_op_bgtz; rv_op_ble; rv_op_bleu; rv_op_bgt; rv_op_bgtu; rv_op_j; rv_op_ret; rv_op_jr;
    rv_op_rdcycle; rv_op_rdtime; rv_op_rdinstret; rv_op_rdcycleh; rv_op_rdtimeh;
    rv_op_rdinstreth; rv_op_frcsr; rv_op_frrm; rv_op_frflags; rv_op_fscsr; rv_op_fsrm;
    rv_op_fsflags; rv_op_fsrmi; rv_op_fsflagsi
  ].

(** The number of an opcode in the enumeration. *)
Definition rv_op_num (op : rv_op) : nat :=
  match op with
  | rv_op_illegal => 0 | rv_op_lui => 1 | rv_op_auipc => 2 | rv_op_jal => 3 | rv_op_jalr => 4
  | rv_op_beq => 5 | rv_op_bne => 6 | rv_op_blt => 7 | rv_op_bge => 8 | rv_op_bltu => 9
  | rv_op_bgeu => 10 | rv_op_lb => 11 | rv_op_lh => 12 | rv_op_lw => 13 | rv_op_lbu => 14
  | rv_op_lhu => 15 | rv_op_sb => 16 | rv_op_sh => 17 | rv_op_sw => 18 | rv_op_addi => 19
  | rv_op_slti => 20 | rv_op_sltiu => 21 | rv_op_xori => 22 | rv_op_ori => 23 | rv_op_andi => 24
  | rv_op_slli => 25 | rv_op_srli => 26 | rv_op_srai => 27 | rv_op_add => 28 | rv_op_sub => 29
  | rv_op_sll => 30 | rv_op_slt => 31 | rv_op_sltu => 32 | rv_op_xor => 33 | rv_op_srl => 34
  | rv_op_sra => 35 | rv_op_or => 36 | rv_op_and => 37 | rv_op_fence => 38 | rv_op_fence_i => 39
  | rv_op_lwu => 40 | rv_op_ld => 41 | rv_op_sd => 42 | rv_op_addiw => 43 | rv_op_slliw => 44
  | rv_op_srliw => 45 | rv_op_sraiw => 46 | rv_op_addw => 47 | rv_op_subw => 48
  | rv_op_sllw => 49 | rv_op_srlw => 50 | rv_op_sraw => 51 | rv_op_ldu => 52 | rv_op_lq => 53
  | rv_op_sq => 54 | rv_op_addid => 55 | rv_op_sllid => 56 | rv_op_srlid => 57
  | rv_op_sraid => 58 | rv_op_addd => 59 | rv_op_subd => 60 | rv_op_slld => 61 | rv_op_srld => 62
  | rv_op_srad => 63 | rv_op_mul => 64 | rv_op_mulh => 65 | rv_op_mulhsu => 66
  | rv_op_mulhu => 67 | rv_op_div => 68 | rv_op_divu => 69 | rv_op_rem => 70 | rv_op_remu => 71
  | rv_op_mulw => 72 | rv_op_divw => 73 | rv_op_divuw => 74 | rv_op_remw => 75
  | rv_op_remuw => 76 | rv_op_muld => 77 | rv_op_divd => 78 | rv_op_divud => 79
  | rv_op_remd => 80 | rv_op_remud => 81 | rv_op_lr_w => 82 | rv_op_sc_w => 83
  | rv_op_amoswap_w => 84 | rv_op_amoadd_w => 85 | rv_op_amoxor_w => 86 | rv_op_amoor_w => 87
  | rv_op_amoand_w => 88 | rv_op_amomin_w => 89 | rv_op_amomax_w => 90 | rv_op_amominu_w => 91
  | rv_op_amomaxu_w => 92 | rv_op_lr_d => 93 | rv_op_sc_d => 94 | rv_op_amoswap_d => 95
  | rv_op_amoadd_d => 96 | rv_op_amoxor_d => 97 | rv_op_amoor_d => 98 | rv_op_amoand_d => 99
  | rv_op_amomin_d => 100 | rv_op_amomax_d => 101 | rv_op_amominu_d => 102
  | rv_op_amomaxu_d => 103 | rv_op_lr_q => 104 | rv_op_sc_q => 105 | rv_op_amoswap_q => 106
  | rv_op_amoadd_q => 107 | rv_op_amoxor_q => 108 | rv_op_amoor_q => 109 | rv_op_amoand_q => 110
  | rv_op_amomin_q => 111 | rv_op_amomax_q => 112 | rv_op_amominu_q => 113
  | rv_op_amomaxu_q => 114 | rv_op_ecall => 115 | rv_op_ebreak => 116 | rv_op_uret => 117
  | rv_op_sret => 118 | rv_op_hret => 119 | rv_op_mret => 120 | rv_op_dret => 121
  | rv_op_sfence_vm => 122 | rv_op_sfence_vma => 123 | rv_op_wfi => 124 | rv_op_csrrw => 125
  | rv_op_csrrs => 126 | rv_op_csrrc => 127 | rv_op_csrrwi => 128 | rv_op_csrrsi => 129
  | rv_op_csrrci => 130 | rv_op_flw => 131 | rv_op_fsw => 132 | rv_op_fmadd_s => 133
  | rv_op_fmsub_s => 134 | rv_op_fnmsub_s => 135 | rv_op_fnmadd_s => 136 | rv_op_fadd_s => 137
  | rv_op_fsub_s => 138 | rv_op_fmul_s => 139 | rv_op_fdiv_s => 140 | rv_op_fsgnj_s => 141
  | rv_op_fsgnjn_s => 142 | rv_op_fsgnjx_s => 143 | rv_op_fmin_s => 144 | rv_op_fmax_s => 145
  | rv_op_fsqrt_s => 146 | rv_op_fle_s => 147 | rv_op_flt_s => 148 | rv_op_feq_s => 149
  | rv_op_fcvt_w_s => 150 | rv_op_fcvt_wu_s => 151 | rv_op_fcvt_s_w => 152
  | rv_op_fcvt_s_wu => 153 | rv_op_fmv_x_s => 154 | rv_op_fclass_s => 155 | rv_op_fmv_s_x => 156
  | rv_op_fcvt_l_s => 157 | rv_op_fcvt_lu_s => 158 | rv_op_fcvt_s_l => 159
  | rv_op_fcvt_s_lu => 160 | rv_op_fld => 161 | rv_op_fsd => 162 | rv_op_fmadd_d => 163
  | rv_op_fmsub_d => 164 | rv_op_fnmsub_d => 165 | rv_op_fnmadd_d => 166 | rv_op_fadd_d => 167
  | rv_op_fsub_d => 168 | rv_op_fmul_d => 169 | rv_op_fdiv_d => 170 | rv_op_fsgnj_d => 171
  | rv_op_fsgnjn_d => 172 | rv_op_fsgnjx_d => 173 | rv_op_fmin_d => 174 | rv_op_fmax_d => 175
  | rv_op_fcvt_s_d => 176 | rv_op_fcvt_d_s => 177 | rv_op_fsqrt_d => 178 | rv_op_fle_d => 179
  | rv_op_flt_d => 180 | rv_op_feq_d => 181 | rv_op_fcvt_w_d => 182 | rv_op_fcvt_wu_d => 183
  | rv_op_fcvt_d_w => 184 | rv_op_fcvt_d_wu => 185 | rv_op_fclass_d => 186
  | rv_op_fcvt_l_d => 187 | rv_op_fcvt_lu_d => 188 | rv_op_fmv_x_d => 189 | rv_op_fcvt_d_l => 190
  | rv_op_fcvt_d_lu => 191 | rv_op_fmv_d_x => 192 | rv_op_flq => 193 | rv_op_fsq => 194
  | rv_op_fmadd_q => 195 | rv_op_fmsub_q => 196 | rv_op_fnmsub_q => 197 | rv_op_fnmadd_q => 198
  | rv_op_fadd_q => 199 | rv_op_fsub_q => 200 | rv_op_fmul_q => 201 | rv_op_fdiv_q => 202
  | rv_op_fsgnj_q => 203 | rv_op_fsgnjn_q => 204 | rv_op_fsgnjx_q => 205 | rv_op_fmin_q => 206
  | rv_op_fmax_q => 207 | rv_op_fcvt_s_q => 208 | rv_op_fcvt_q_s => 209 | rv_op_fcvt_d_q => 210
  | rv_op_fcvt_q_d => 211 | rv_op_fsqrt_q => 212 | rv_op_fle_q => 213 | rv_op_flt_q => 214
  | rv_op_feq_q => 215 | rv_op_fcvt_w_q => 216 | rv_op_fcvt_wu_q => 217 | rv_op_fcvt_q_w => 218
  | rv_op_fcvt_q_wu => 219 | rv_op_fclass_q => 220 | rv_op_fcvt_l_q => 221
  | rv_op_fcvt_lu_q => 222 | rv_op_fcvt_q_l => 223 | rv_op_fcvt_q_lu => 224
  | rv_op_fmv_x_q => 225 | rv_op_fmv_q_x => 226 | rv_op_c_addi4spn => 227 | rv_op_c_fld => 228
  | rv_op_c_lw => 229 | rv_op_c_flw => 230 | rv_op_c_fsd => 231 | rv_op_c_sw => 232
  | rv_op_c_fsw => 233 | rv_op_c_nop => 234 | rv_op_c_addi => 235 | rv_op_c_jal => 236
  | rv_op_c_li => 237 | rv_op_c_addi16sp => 238 | rv_op_c_lui => 239 | rv_op_c_srli => 240
  | rv_op_c_srai => 241 | rv_op_c_andi => 242 | rv_op_c_sub => 243 | rv_op_c_xor => 244
  | rv_op_c_or => 245 | rv_op_c_and => 246 | rv_op_c_subw => 247 | rv_op_c_addw => 248
  | rv_op_c_j => 249 | rv_op_c_beqz => 250 | rv_op_c_bnez => 251 | rv_op_c_slli => 252
  | rv_op_c_fldsp => 253 | rv_op_c_lwsp => 254 | rv_op_c_flwsp => 255 | rv_op_c_jr => 256
  | rv_op_c_mv => 257 | rv_op_c_ebreak => 258 | rv_op_c_jalr => 259 | rv_op_c_add => 260
  | rv_op_c_fsdsp => 261 | rv_op_c_swsp => 262 | rv_op_c_fswsp => 263 | rv_op_c_ld => 264
  | rv_op_c_sd => 265 | rv_op_c_addiw => 266 | rv_op_c_ldsp => 267 | rv_op_c_sdsp => 268
  | rv_op_c_lq => 269 | rv_op_c_sq => 270 | rv_op_c_lqsp => 271 | rv_op_c_sqsp => 272
  | rv_op_nop => 273 | rv_op_mv => 274 | rv_op_not => 275 | rv_op_neg => 276 | rv_op_negw => 277
  | rv_op_sext_w => 278 | rv_op_seqz => 279 | rv_op_snez => 280 | rv_op_sltz => 281
  | rv_op_sgtz => 282 | rv_op_fmv_s => 283 | rv_op_fabs_s => 284 | rv_op_fneg_s => 285
  | rv_op_fmv_d => 286 | rv_op_fabs_d => 287 | rv_op_fneg_d => 288 | rv_op_fmv_q => 289
  | rv_op_fabs_q => 290 | rv_op_fneg_q => 291 | rv_op_beqz => 292 | rv_op_bnez => 293
  | rv_op_blez => 294 | rv_op_bgez => 295 | rv_op_bltz => 296 | rv_op_bgtz => 297
  | rv_op_ble => 298 | rv_op_bleu => 299 | rv_op_bgt => 300 | rv_op_bgtu => 301 | rv_op_j => 302
  | rv_op_ret => 303 | rv_op_jr => 304 | rv_op_rdcycle => 305 | rv_op_rdtime => 306
  | rv_op_rdinstret => 307 | rv_op_rdcycleh => 308 | rv_op_rdtimeh => 309
  | rv_op_rdinstreth => 310 | rv_op_frcsr => 311 | rv_op_frrm => 312 | rv_op_frflags => 313
  | rv_op_fscsr => 314 | rv_op_fsrm => 315 | rv_op_fsflags => 316 | rv_op_fsrmi => 317
  | rv_op_fsflagsi => 318
  end%nat.

(** The numbering agrees with the array, so it is injective and the array is
    complete. *)
Lemma all_ops_num (op : rv_op) : nth_error all_ops (rv_op_num op) = Some op.
Proof. destruct op; reflexivity. Qed.

Lemma all_ops_In (op : rv_op) : In op all_ops.
Proof. eapply nth_error_In, all_ops_num. Qed.

Lemma rv_op_num_inj (a b : rv_op) : rv_op_num a = rv_op_num b -> a = b.
Proof.
  intros H. pose proof (all_ops_num a) as Ha. rewrite H, all_ops_num in Ha. congruence.
Qed.

Definition rv_op_eqb (a b : rv_op) : bool := Nat.eqb (rv_op_num a) (rv_op_num b).

Lemma rv_op_eqb_eq (a b : rv_op) : rv_op_eqb a b = true <-> a = b.
Proof.
  unfold rv_op_eqb. rewrite Nat.eqb_eq.
  split; [apply rv_op_num_inj | intros ->; reflexivity].
Qed.

#[export] Instance rv_op_eq_dec : EqDecision rv_op.
Proof.
  intros a b. destruct (rv_op_eqb a b) eqn:E.
  - left. apply rv_op_eqb_eq, E.
  - right. intros H. apply rv_op_eqb_eq in H. congruence.
Defined.

#[export] Instance rv_codec_eq_dec : EqDecision rv_codec.
Proof. solve_decision. Defined.

(** A property of every opcode follows from its evaluation on the array. *)
Lemma forall_ops (f : rv_op -> bool) (op : rv_op) : forallb f all_ops = true -> f op = true.
Proof. intros H. exact (forallb_In f all_ops op H (all_ops_In op)). Qed.

(** ** Tables *)

(** [rv_inst_codec]: the codec of an opcode. *)
Definition rv_inst_codec (op : rv_op) : rv_codec :=
  match op with
  | rv_op_illegal => rv_codec_illegal
  | rv_op_lui => rv_codec_u
  | rv_op_auipc => rv_codec_u
  | rv_op_jal => rv_codec_uj
  | rv_op_jalr => rv_codec_i
  | rv_op_beq => rv_codec_sb
  | rv_op_bne => rv_codec_sb
  | rv_op_blt => rv_codec_sb
  | rv_op_bge => rv_codec_sb
  | rv_op_bltu => rv_codec_sb
  | rv_op_bgeu => rv_codec_sb
  | rv_op_lb => rv_codec_i
  | rv_op_lh => rv_codec_i
  | rv_op_lw => rv_codec_i
  | rv_op_lbu => rv_codec_i
  | rv_op_lhu => rv_codec_i
  | rv_op_sb => rv_codec_s
  | rv_op_sh => rv_codec_s
  | rv_op_sw => rv_codec_s
  | rv_op_addi => rv_codec_i
  | rv_op_slti => rv_codec_i
  | rv_op_sltiu => rv_codec_i
  | rv_op_xori => rv_codec_i
  | rv_op_ori => rv_codec_i
  | rv_op_andi => rv_codec_i
  | rv_op_slli => rv_codec_i_sh7
  | rv_op_srli => rv_codec_i_sh7
  | rv_op_srai => rv_codec_i_sh7
  | rv_op_add => rv_codec_r
  | rv_op_sub => rv_codec_r
  | rv_op_sll => rv_codec_r
  | rv_op_slt => rv_codec_r
  | rv_op_sltu => rv_codec_r
  | rv_op_xor => rv_codec_r
  | rv_op_srl => rv_codec_r
  | rv_op_sra => rv_codec_r
  | rv_op_or => rv_codec_r
  | rv_op_and => rv_codec_r
  | rv_op_fence => rv_codec_r_f
  | rv_op_fence_i => rv_codec_none
  | rv_op_lwu => rv_codec_i
  | rv_op_ld => rv_codec_i
  | rv_op_sd => rv_codec_s
  | rv_op_addiw => rv_codec_i
  | rv_op_slliw => rv_codec_i_sh5
  | rv_op_srliw => rv_codec_i_sh5
  | rv_op_sraiw => rv_codec_i_sh5
  | rv_op_addw => rv_codec_r
  | rv_op_subw => rv_codec_r
  | rv_op_sllw => rv_codec_r
  | rv_op_srlw => rv_codec_r
  | rv_op_sraw => rv_codec_r
  | rv_op_ldu => rv_codec_i
  | rv_op_lq => rv_codec_i
  | rv_op_sq => rv_codec_s
  | rv_op_addid => rv_codec_i
  | rv_op_sllid => rv_codec_i_sh6
  | rv_op_srlid => rv_codec_i_sh6
  | rv_op_sraid => rv_codec_i_sh6
  | rv_op_addd => rv_codec_r
  | rv_op_subd => rv_codec_r
  | rv_op_slld => rv_codec_r
  | rv_op_srld => rv_codec_r
  | rv_op_srad => rv_codec_r
  | rv_op_mul => rv_codec_r
  | rv_op_mulh => rv_codec_r
  | rv_op_mulhsu => rv_codec_r
  | rv_op_mulhu => rv_codec_r
  | rv_op_div => rv_codec_r
  | rv_op_divu => rv_codec_r
  | rv_op_rem => rv_codec_r
  | rv_op_remu => rv_codec_r
  | rv_op_mulw => rv_codec_r
  | rv_op_divw => rv_codec_r
  | rv_op_divuw => rv_codec_r
  | rv_op_remw => rv_codec_r
  | rv_op_remuw => rv_codec_r
  | rv_op_muld => rv_codec_r
  | rv_op_divd => rv_codec_r
  | rv_op_divud => rv_codec_r
  | rv_op_remd => rv_codec_r
  | rv_op_remud => rv_codec_r
  | rv_op_lr_w => rv_codec_r_l
  | rv_op_sc_w => rv_codec_r_a
  | rv_op_amoswap_w => rv_codec_r_a
  | rv_op_amoadd_w => rv_codec_r_a
  | rv_op_amoxor_w => rv_codec_r_a
  | rv_op_amoor_w => rv_codec_r_a
  | rv_op_amoand_w => rv_codec_r_a
  | rv_op_amomin_w => rv_codec_r_a
  | rv_op_amomax_w => rv_codec_r_a
  | rv_op_amominu_w => rv_codec_r_a
  | rv_op_amomaxu_w => rv_codec_r_a
  | rv_op_lr_d => rv_codec_r_l
  | rv_op_sc_d => rv_codec_r_a
  | rv_op_amoswap_d => rv_codec_r_a
  | rv_op_amoadd_d => rv_codec_r_a
  | rv_op_amoxor_d => rv_codec_r_a
  | rv_op_amoor_d => rv_codec_r_a
  | rv_op_amoand_d => rv_codec_r_a
  | rv_op_amomin_d => rv_codec_r_a
  | rv_op_amomax_d => rv_codec_r_a
  | rv_op_amominu_d => rv_codec_r_a
  | rv_op_amomaxu_d => rv_codec_r_a
  | rv_op_lr_q => rv_codec_r_l
  | rv_op_sc_q => rv_codec_r_a
  | rv_op_amoswap_q => rv_codec_r_a
  | rv_op_amoadd_q => rv_codec_r_a
  | rv_op_amoxor_q => rv_codec_r_a
  | rv_op_amoor_q => rv_codec_r_a
  | rv_op_amoand_q => rv_codec_r_a
  | rv_op_amomin_q => rv_codec_r_a
  | rv_op_amomax_q => rv_codec_r_a
  | rv_op_amominu_q => rv_codec_r_a
  | rv_op_amomaxu_q => rv_codec_r_a
  | rv_op_ecall => rv_codec_none
  | rv_op_ebreak => rv_codec_none
  | rv_op_uret => rv_codec_none
  | rv_op_sret => rv_codec_none
  | rv_op_hret => rv_codec_none
  | rv_op_mret => rv_codec_none
  | rv_op_dret => rv_codec_none
  | rv_op_sfence_vm => rv_codec_r
  | rv_op_sfence_vma => rv_codec_r
  | rv_op_wfi => rv_codec_none
  | rv_op_csrrw => rv_codec_i_csr
  | rv_op_csrrs => rv_codec_i_csr
  | rv_op_csrrc => rv_codec_i_csr
  | rv_op_csrrwi => rv_codec_i_csr
  | rv_op_csrrsi => rv_codec_i_csr
  | rv_op_csrrci => rv_codec_i_csr
  | rv_op_flw => rv_codec_i
  | rv_op_fsw => rv_codec_s
  | rv_op_fmadd_s => rv_codec_r4_m
  | rv_op_fmsub_s => rv_codec_r4_m
  | rv_op_fnmsub_s => rv_codec_r4_m
  | rv_op_fnmadd_s => rv_codec_r4_m
  | rv_op_fadd_s => rv_codec_r_m
  | rv_op_fsub_s => rv_codec_r_m
  | rv_op_fmul_s => rv_codec_r_m
  | rv_op_fdiv_s => rv_codec_r_m
  | rv_op_fsgnj_s => rv_codec_r
  | rv_op_fsgnjn_s => rv_codec_r
  | rv_op_fsgnjx_s => rv_codec_r
  | rv_op_fmin_s => rv_codec_r
  | rv_op_fmax_s => rv_codec_r
  | rv_op_fsqrt_s => rv_codec_r_m
  | rv_op_fle_s => rv_codec_r
  | rv_op_flt_s => rv_codec_r
  | rv_op_feq_s => rv_codec_r
  | rv_op_fcvt_w_s => rv_codec_r_m
  | rv_op_fcvt_wu_s => rv_codec_r_m
  | rv_op_fcvt_s_w => rv_codec_r_m
  | rv_op_fcvt_s_wu => rv_codec_r_m
  | rv_op_fmv_x_s => rv_codec_r
  | rv_op_fclass_s => rv_codec_r
  | rv_op_fmv_s_x => rv_codec_r
  | rv_op_fcvt_l_s => rv_codec_r_m
  | rv_op_fcvt_lu_s => rv_codec_r_m
  | rv_op_fcvt_s_l => rv_codec_r_m
  | rv_op_fcvt_s_lu => rv_codec_r_m
  | rv_op_fld => rv_codec_i
  | rv_op_fsd => rv_codec_s
  | rv_op_fmadd_d => rv_codec_r4_m
  | rv_op_fmsub_d => rv_codec_r4_m
  | rv_op_fnmsub_d => rv_codec_r4_m
  | rv_op_fnmadd_d => rv_codec_r4_m
  | rv_op_fadd_d => rv_codec_r_m
  | rv_op_fsub_d => rv_codec_r_m
  | rv_op_fmul_d => rv_codec_r_m
  | rv_op_fdiv_d => rv_codec_r_m
  | rv_op_fsgnj_d => rv_codec_r
  | rv_op_fsgnjn_d => rv_codec_r
  | rv_op_fsgnjx_d => rv_codec_r
  | rv_op_fmin_d => rv_codec_r
  | rv_op_fmax_d => rv_codec_r
  | rv_op_fcvt_s_d => rv_codec_r_m
  | rv_op_fcvt_d_s => rv_codec_r_m
  | rv_op_fsqrt_d => rv_codec_r_m
  | rv_op_fle_d => rv_codec_r
  | rv_op_flt_d => rv_codec_r
  | rv_op_feq_d => rv_codec_r
  | rv_op_fcvt_w_d => rv_codec_r_m
  | rv_op_fcvt_wu_d => rv_codec_r_m
  | rv_op_fcvt_d_w => rv_codec_r_m
  | rv_op_fcvt_d_wu => rv_codec_r_m
  | rv_op_fclass_d => rv_codec_r
  | rv_op_fcvt_l_d => rv_codec_r_m
  | rv_op_fcvt_lu_d => rv_codec_r_m
  | rv_op_fmv_x_d => rv_codec_r
  | rv_op_fcvt_d_l => rv_codec_r_m
  | rv_op_fcvt_d_lu => rv_codec_r_m
  | rv_op_fmv_d_x => rv_codec_r
  | rv_op_flq => rv_codec_i
  | rv_op_fsq => rv_codec_s
  | rv_op_fmadd_q => rv_codec_r4_m
  | rv_op_fmsub_q => rv_codec_r4_m
  | rv_op_fnmsub_q => rv_codec_r4_m
  | rv_op_fnmadd_q => rv_codec_r4_m
  | rv_op_fadd_q => rv_codec_r_m
  | rv_op_fsub_q => rv_codec_r_m
  | rv_op_fmul_q => rv_codec_r_m
  | rv_op_fdiv_q => rv_codec_r_m
  | rv_op_fsgnj_q => rv_codec_r
  | rv_op_fsgnjn_q => rv_codec_r
  | rv_op_fsgnjx_q => rv_codec_r
  | rv_op_fmin_q => rv_codec_r
  | rv_op_fmax_q => rv_codec_r
  | rv_op_fcvt_s_q => rv_codec_r_m
  | rv_op_fcvt_q_s => rv_codec_r_m
  | rv_op_fcvt_d_q => rv_codec_r_m
  | rv_op_fcvt_q_d => rv_codec_r_m
  | rv_op_fsqrt_q => rv_codec_r_m
  | rv_op_fle_q => rv_codec_r
  | rv_op_flt_q => rv_codec_r
  | rv_op_feq_q => rv_codec_r
  | rv_op_fcvt_w_q => rv_codec_r_m
  | rv_op_fcvt_wu_q => rv_codec_r_m
  | rv_op_fcvt_q_w => rv_codec_r_m
  | rv_op_fcvt_q_wu => rv_codec_r_m
  | rv_op_fclass_q => rv_codec_r
  | rv_op_fcvt_l_q => rv_codec_r_m
  | rv_op_fcvt_lu_q => rv_codec_r_m
  | rv_op_fcvt_q_l => rv_codec_r_m
  | rv_op_fcvt_q_lu => rv_codec_r_m
  | rv_op_fmv_x_q => rv_codec_r
  | rv_op_fmv_q_x => rv_codec_r
  | rv_op_c_addi4spn => rv_codec_ciw_4spn
  | rv_op_c_fld => rv_codec_cl_ld
  | rv_op_c_lw => rv_codec_cl_lw
  | rv_op_c_flw => rv_codec_cl_lw
  | rv_op_c_fsd => rv_codec_cs_sd
  | rv_op_c_sw => rv_codec_cs_sw
  | rv_op_c_fsw => rv_codec_cs_sw
  | rv_op_c_nop => rv_codec_ci_none
  | rv_op_c_addi => rv_codec_ci
  | rv_op_c_jal => rv_codec_cj_jal
  | rv_op_c_li => rv_codec_ci_li
  | rv_op_c_addi16sp => rv_codec_ci_16sp
  | rv_op_c_lui => rv_codec_ci_lui
  | rv_op_c_srli => rv_codec_cb_sh6
  | rv_op_c_srai => rv_codec_cb_sh6
  | rv_op_c_andi => rv_codec_cb_imm
  | rv_op_c_sub => rv_codec_cs
  | rv_op_c_xor => rv_codec_cs
  | rv_op_c_or => rv_codec_cs
  | rv_op_c_and => rv_codec_cs
  | rv_op_c_subw => rv_codec_cs
  | rv_op_c_addw => rv_codec_cs
  | rv_op_c_j => rv_codec_cj
  | rv_op_c_beqz => rv_codec_cb
  | rv_op_c_bnez => rv_codec_cb
  | rv_op_c_slli => rv_codec_ci_sh6
  | rv_op_c_fldsp => rv_codec_ci_ldsp
  | rv_op_c_lwsp => rv_codec_ci_lwsp
  | rv_op_c_flwsp => rv_codec_ci_lwsp
  | rv_op_c_jr => rv_codec_cr_jr
  | rv_op_c_mv => rv_codec_cr_mv
  | rv_op_c_ebreak => rv_codec_ci_none
  | rv_op_c_jalr => rv_codec_cr_jalr
  | rv_op_c_add => rv_codec_cr
  | rv_op_c_fsdsp => rv_codec_css_sdsp
  | rv_op_c_swsp => rv_codec_css_swsp
  | rv_op_c_fswsp => rv_codec_css_swsp
  | rv_op_c_ld => rv_codec_cl_ld
  | rv_op_c_sd => rv_codec_cs_sd
  | rv_op_c_addiw => rv_codec_ci
  | rv_op_c_ldsp => rv_codec_ci_ldsp
  | rv_op_c_sdsp => rv_codec_css_sdsp
  | rv_op_c_lq => rv_codec_cl_lq
  | rv_op_c_sq => rv_codec_cs_sq
  | rv_op_c_lqsp => rv_codec_ci_lqsp
  | rv_op_c_sqsp => rv_codec_css_sqsp
  | rv_op_nop => rv_codec_i
  | rv_op_mv => rv_codec_i
  | rv_op_not => rv_codec_i
  | rv_op_neg => rv_codec_r
  | rv_op_negw => rv_codec_r
  | rv_op_sext_w => rv_codec_i
  | rv_op_seqz => rv_codec_i
  | rv_op_snez => rv_codec_r
  | rv_op_sltz => rv_codec_r
  | rv_op_sgtz => rv_codec_r
  | rv_op_fmv_s => rv_codec_r
  | rv_op_fabs_s => rv_codec_r
  | rv_op_fneg_s => rv_codec_r
  | rv_op_fmv_d => rv_codec_r
  | rv_op_fabs_d => rv_codec_r
  | rv_op_fneg_d => rv_codec_r
  | rv_op_fmv_q => rv_codec_r
  | rv_op_fabs_q => rv_codec_r
  | rv_op_fneg_q => rv_codec_r
  | rv_op_beqz => rv_codec_sb
  | rv_op_bnez => rv_codec_sb
  | rv_op_blez => rv_codec_sb
  | rv_op_bgez => rv_codec_sb
  | rv_op_bltz => rv_codec_sb
  | rv_op_bgtz => rv_codec_sb
  | rv_op_ble => rv_codec_sb
  | rv_op_bleu => rv_codec_sb
  | rv_op_bgt => rv_codec_sb
  | rv_op_bgtu => rv_codec_sb
  | rv_op_j => rv_codec_uj
  | rv_op_ret => rv_codec_i
  | rv_op_jr => rv_codec_i
  | rv_op_rdcycle => rv_codec_i_csr
  | rv_op_rdtime => rv_codec_i_csr
  | rv_op_rdinstret => rv_codec_i_csr
  | rv_op_rdcycleh => rv_codec_i_csr
  | rv_op_rdtimeh => rv_codec_i_csr
  | rv_op_rdinstreth => rv_codec_i_csr
  | rv_op_frcsr => rv_codec_i_csr
  | rv_op_frrm => rv_codec_i_csr
  | rv_op_frflags => rv_codec_i_csr
  | rv_op_fscsr => rv_codec_i_csr
  | rv_op_fsrm => rv_codec_i_csr
  | rv_op_fsflags => rv_codec_i_csr
  | rv_op_fsrmi => rv_codec_i_csr
  | rv_op_fsflagsi => rv_codec_i_csr
  end.

(** [rv_inst_match]: the fixed bits of an opcode; pseudo-instructions have none. *)
Definition rv_inst_match (op : rv_op) : Z :=
  match op with
  | rv_op_lui => 0x37
  | rv_op_auipc => 0x17
  | rv_op_jal => 0x6f
  | rv_op_jalr => 0x67
  | rv_op_beq => 0x63
  | rv_op_bne => 0x1063
  | rv_op_blt => 0x4063
  | rv_op_bge => 0x5063
  | rv_op_bltu => 0x6063
  | rv_op_bgeu => 0x7063
  | rv_op_lb => 0x3
  | rv_op_lh => 0x1003
  | rv_op_lw => 0x2003
  | rv_op_lbu => 0x4003
  | rv_op_lhu => 0x5003
  | rv_op_sb => 0x23
  | rv_op_sh => 0x1023
  | rv_op_sw => 0x2023
  | rv_op_addi => 0x13
  | rv_op_slti => 0x2013
  | rv_op_sltiu => 0x3013
  | rv_op_xori => 0x4013
  | rv_op_ori => 0x6013
  | rv_op_andi => 0x7013
  | rv_op_slli => 0x1013
  | rv_op_srli => 0x5013
  | rv_op_srai => 0x40005013
  | rv_op_add => 0x33
  | rv_op_sub => 0x40000033
  | rv_op_sll => 0x1033
  | rv_op_slt => 0x2033
  | rv_op_sltu => 0x3033
  | rv_op_xor => 0x4033
  | rv_op_srl => 0x5033
  | rv_op_sra => 0x40005033
  | rv_op_or => 0x6033
  | rv_op_and => 0x7033
  | rv_op_fence => 0xf
  | rv_op_fence_i => 0x100f
  | rv_op_lwu => 0x6003
  | rv_op_ld => 0x3003
  | rv_op_sd => 0x3023
  | rv_op_addiw => 0x1b
  | rv_op_slliw => 0x101b
  | rv_op_srliw => 0x501b
  | rv_op_sraiw => 0x4000501b
  | rv_op_addw => 0x3b
  | rv_op_subw => 0x4000003b
  | rv_op_sllw => 0x103b
  | rv_op_srlw => 0x503b
  | rv_op_sraw => 0x4000503b
  | rv_op_ldu => 0x7003
  | rv_op_lq => 0x200f
  | rv_op_sq => 0x4023
  | rv_op_addid => 0x5b
  | rv_op_sllid => 0x105b
  | rv_op_srlid => 0x505b
  | rv_op_sraid => 0x4000505b
  | rv_op_addd => 0x7b
  | rv_op_subd => 0x4000007b
  | rv_op_slld => 0x107b
  | rv_op_srld => 0x507b
  | rv_op_srad => 0x4000507b
  | rv_op_mul => 0x2000033
  | rv_op_mulh => 0x2001033
  | rv_op_mulhsu => 0x2002033
  | rv_op_mulhu => 0x2003033
  | rv_op_div => 0x2004033
  | rv_op_divu => 0x2005033
  | rv_op_rem => 0x2006033
  | rv_op_remu => 0x2007033
  | rv_op_mulw => 0x200003b
  | rv_op_divw => 0x200403b
  | rv_op_divuw => 0x200503b
  | rv_op_remw => 0x200603b
  | rv_op_remuw => 0x200703b
  | rv_op_muld => 0x200007b
  | rv_op_divd => 0x200407b
  | rv_op_divud => 0x200507b
  | rv_op_remd => 0x200607b
  | rv_op_remud => 0x200707b
  | rv_op_lr_w => 0x1000202f
  | rv_op_sc_w => 0x1800202f
  | rv_op_amoswap_w => 0x800202f
  | rv_op_amoadd_w => 0x202f
  | rv_op_amoxor_w => 0x2000202f
  | rv_op_amoor_w => 0x4000202f
  | rv_op_amoand_w => 0x6000202f
  | rv_op_amomin_w => 0x8000202f
  | rv_op_amomax_w => 0xa000202f
  | rv_op_amominu_w => 0xc000202f
  | rv_op_amomaxu_w => 0xe000202f
  | rv_op_lr_d => 0x1000302f
  | rv_op_sc_d => 0x1800302f
  | rv_op_amoswap_d => 0x800302f
  | rv_op_amoadd_d => 0x302f
  | rv_op_amoxor_d => 0x2000302f
  | rv_op_amoor_d => 0x4000302f
  | rv_op_amoand_d => 0x6000302f
  | rv_op_amomin_d => 0x8000302f
  | rv_op_amomax_d => 0xa000302f
  | rv_op_amominu_d => 0xc000302f
  | rv_op_amomaxu_d => 0xe000302f
  | rv_op_lr_q => 0x1000402f
  | rv_op_sc_q => 0x1800402f
  | rv_op_amoswap_q => 0x800402f
  | rv_op_amoadd_q => 0x402f
  | rv_op_amoxor_q => 0x2000402f
  | rv_op_amoor_q => 0x4000402f
  | rv_op_amoand_q => 0x6000402f
  | rv_op_amomin_q => 0x8000402f
  | rv_op_amomax_q => 0xa000402f
  | rv_op_amominu_q => 0xc000402f
  | rv_op_amomaxu_q => 0xe000402f
  | rv_op_ecall => 0x73
  | rv_op_ebreak => 0x100073
  | rv_op_uret => 0x200073
  | rv_op_sret => 0x10200073
  | rv_op_hret => 0x20200073
  | rv_op_mret => 0x30200073
  | rv_op_dret => 0x7b200073
  | rv_op_sfence_vm => 0x10400073
  | rv_op_sfence_vma => 0x12000073
  | rv_op_wfi => 0x10500073
  | rv_op_csrrw => 0x1073
  | rv_op_csrrs => 0x2073
  | rv_op_csrrc => 0x3073
  | rv_op_csrrwi => 0x5073
  | rv_op_csrrsi => 0x6073
  | rv_op_csrrci => 0x7073
  | rv_op_flw => 0x2007
  | rv_op_fsw => 0x2027
  | rv_op_fmadd_s => 0x43
  | rv_op_fmsub_s => 0x47
  | rv_op_fnmsub_s => 0x4b
  | rv_op_fnmadd_s => 0x4f
  | rv_op_fadd_s => 0x53
  | rv_op_fsub_s => 0x8000053
  | rv_op_fmul_s => 0x10000053
  | rv_op_fdiv_s => 0x18000053
  | rv_op_fsgnj_s => 0x20000053
  | rv_op_fsgnjn_s => 0x20001053
  | rv_op_fsgnjx_s => 0x20002053
  | rv_op_fmin_s => 0x28000053
  | rv_op_fmax_s => 0x28001053
  | rv_op_fsqrt_s => 0x58000053
  | rv_op_fle_s => 0xa0000053
  | rv_op_flt_s => 0xa0001053
  | rv_op_feq_s => 0xa0002053
  | rv_op_fcvt_w_s => 0xc0000053
  | rv_op_fcvt_wu_s => 0xc0100053
  | rv_op_fcvt_s_w => 0xd0000053
  | rv_op_fcvt_s_wu => 0xd0100053
  | rv_op_fmv_x_s => 0xe0000053
  | rv_op_fclass_s => 0xe0001053
  | rv_op_fmv_s_x => 0xf0000053
  | rv_op_fcvt_l_s => 0xc0200053
  | rv_op_fcvt_lu_s => 0xc0300053
  | rv_op_fcvt_s_l => 0xd0200053
  | rv_op_fcvt_s_lu => 0xd0300053
  | rv_op_fld => 0x3007
  | rv_op_fsd => 0x3027
  | rv_op_fmadd_d => 0x2000043
  | rv_op_fmsub_d => 0x2000047
  | rv_op_fnmsub_d => 0x200004b
  | rv_op_fnmadd_d => 0x200004f
  | rv_op_fadd_d => 0x2000053
  | rv_op_fsub_d => 0xa000053
  | rv_op_fmul_d => 0x12000053
  | rv_op_fdiv_d => 0x1a000053
  | rv_op_fsgnj_d => 0x22000053
  | rv_op_fsgnjn_d => 0x22001053
  | rv_op_fsgnjx_d => 0x22002053
  | rv_op_fmin_d => 0x2a000053
  | rv_op_fmax_d => 0x2a001053
  | rv_op_fcvt_s_d => 0x40100053
  | rv_op_fcvt_d_s => 0x42000053
  | rv_op_fsqrt_d => 0x5a000053
  | rv_op_fle_d => 0xa2000053
  | rv_op_flt_d => 0xa2001053
  | rv_op_feq_d => 0xa2002053
  | rv_op_fcvt_w_d => 0xc2000053
  | rv_op_fcvt_wu_d => 0xc2100053
  | rv_op_fcvt_d_w => 0xd2000053
  | rv_op_fcvt_d_wu => 0xd2100053
  | rv_op_fclass_d => 0xe2001053
  | rv_op_fcvt_l_d => 0xc2200053
  | rv_op_fcvt_lu_d => 0xc2300053
  | rv_op_fmv_x_d => 0xe2000053
  | rv_op_fcvt_d_l => 0xd2200053
  | rv_op_fcvt_d_lu => 0xd2300053
  | rv_op_fmv_d_x => 0xf2000053
  | rv_op_flq => 0x4007
  | rv_op_fsq => 0x4027
  | rv_op_fmadd_q => 0x6000043
  | rv_op_fmsub_q => 0x6000047
  | rv_op_fnmsub_q => 0x600004b
  | rv_op_fnmadd_q => 0x600004f
  | rv_op_fadd_q => 0x6000053
  | rv_op_fsub_q => 0xe000053
  | rv_op_fmul_q => 0x16000053
  | rv_op_fdiv_q => 0x1e000053
  | rv_op_fsgnj_q => 0x26000053
  | rv_op_fsgnjn_q => 0x26001053
  | rv_op_fsgnjx_q => 0x26002053
  | rv_op_fmin_q => 0x2e000053
  | rv_op_fmax_q => 0x2e001053
  | rv_op_fcvt_s_q => 0x40300053
  | rv_op_fcvt_q_s => 0x46000053
  | rv_op_fcvt_d_q => 0x42300053
  | rv_op_fcvt_q_d => 0x46100053
  | rv_op_fsqrt_q => 0x5e000053
  | rv_op_fle_q => 0xa6000053
  | rv_op_flt_q => 0xa6001053
  | rv_op_feq_q => 0xa6002053
  | rv_op_fcvt_w_q => 0xc6000053
  | rv_op_fcvt_wu_q => 0xc6100053
  | rv_op_fcvt_q_w => 0xd6000053
  | rv_op_fcvt_q_wu => 0xd6100053
  | rv_op_fclass_q => 0xe6001053
  | rv_op_fcvt_l_q => 0xc6200053
  | rv_op_fcvt_lu_q => 0xc6300053
  | rv_op_fcvt_q_l => 0xd6200053
  | rv_op_fcvt_q_lu => 0xd6300053
  | rv_op_fmv_x_q => 0xe6000053
  | rv_op_fmv_q_x => 0xf6000053
  | rv_op_c_fld => 0x2000
  | rv_op_c_lw => 0x4000
  | rv_op_c_flw => 0x6000
  | rv_op_c_fsd => 0xa000
  | rv_op_c_sw => 0xc000
  | rv_op_c_fsw => 0xe000
  | rv_op_c_nop => 0x1
  | rv_op_c_addi => 0x1
  | rv_op_c_jal => 0x2001
  | rv_op_c_li => 0x4001
  | rv_op_c_addi16sp => 0x6101
  | rv_op_c_lui => 0x6001
  | rv_op_c_srli => 0x8001
  | rv_op_c_srai => 0x8401
  | rv_op_c_andi => 0x8801
  | rv_op_c_sub => 0x8c01
  | rv_op_c_xor => 0x8c21
  | rv_op_c_or => 0x8c41
  | rv_op_c_and => 0x8c61
  | rv_op_c_subw => 0x9c01
  | rv_op_c_addw => 0x9c21
  | rv_op_c_j => 0xa001
  | rv_op_c_beqz => 0xc001
  | rv_op_c_bnez => 0xe001
  | rv_op_c_slli => 0x2
  | rv_op_c_fldsp => 0x2002
  | rv_op_c_lwsp => 0x4002
  | rv_op_c_flwsp => 0x6002
  | rv_op_c_jr => 0x8002
  | rv_op_c_mv => 0x8002
  | rv_op_c_ebreak => 0x9002
  | rv_op_c_jalr => 0x9002
  | rv_op_c_add => 0x9002
  | rv_op_c_fsdsp => 0xa002
  | rv_op_c_swsp => 0xc002
  | rv_op_c_fswsp => 0xe002
  | rv_op_c_ld => 0x6000
  | rv_op_c_sd => 0xe000
  | rv_op_c_addiw => 0x2001
  | rv_op_c_ldsp => 0x6002
  | rv_op_c_sdsp => 0xe002
  | rv_op_c_lq => 0x2000
  | rv_op_c_sq => 0xa000
  | rv_op_c_lqsp => 0x2002
  | rv_op_c_sqsp => 0xa002
  | _ => 0x0
  end.

(** [rv_inst_mask]: the bits of the encoding the opcode fixes. *)
Definition rv_inst_mask (op : rv_op) : Z :=
  match op with
  | rv_op_lui => 0x7f
  | rv_op_auipc => 0x7f
  | rv_op_jal => 0x7f
  | rv_op_jalr => 0x707f
  | rv_op_beq => 0x707f
  | rv_op_bne => 0x707f
  | rv_op_blt => 0x707f
  | rv_op_bge => 0x707f
  | rv_op_bltu => 0x707f
  | rv_op_bgeu => 0x707f
  | rv_op_lb => 0x707f
  | rv_op_lh => 0x707f
  | rv_op_lw => 0x707f
  | rv_op_lbu => 0x707f
  | rv_op_lhu => 0x707f
  | rv_op_sb => 0x707f
  | rv_op_sh => 0x707f
  | rv_op_sw => 0x707f
  | rv_op_addi => 0x707f
  | rv_op_slti => 0x707f
  | rv_op_sltiu => 0x707f
  | rv_op_xori => 0x707f
  | rv_op_ori => 0x707f
  | rv_op_andi => 0x707f
  | rv_op_slli => 0xf800707f
  | rv_op_srli => 0xf800707f
  | rv_op_srai => 0xf800707f
  | rv_op_add => 0xfe00707f
  | rv_op_sub => 0xfe00707f
  | rv_op_sll => 0xfe00707f
  | rv_op_slt => 0xfe00707f
  | rv_op_sltu => 0xfe00707f
  | rv_op_xor => 0xfe00707f
  | rv_op_srl => 0xfe00707f
  | rv_op_sra => 0xfe00707f
  | rv_op_or => 0xfe00707f
  | rv_op_and => 0xfe00707f
  | rv_op_fence => 0x707f
  | rv_op_fence_i => 0x707f
  | rv_op_lwu => 0x707f
  | rv_op_ld => 0x707f
  | rv_op_sd => 0x707f
  | rv_op_addiw => 0x707f
  | rv_op_slliw => 0xfe00707f
  | rv_op_srliw => 0xfe00707f
  | rv_op_sraiw => 0xfe00707f
  | rv_op_addw => 0xfe00707f
  | rv_op_subw => 0xfe00707f
  | rv_op_sllw => 0xfe00707f
  | rv_op_srlw => 0xfe00707f
  | rv_op_sraw => 0xfe00707f
  | rv_op_ldu => 0x707f
  | rv_op_lq => 0x707f
  | rv_op_sq => 0x707f
  | rv_op_addid => 0x707f
  | rv_op_sllid => 0xfc00707f
  | rv_op_srlid => 0xfc00707f
  | rv_op_sraid => 0xfc00707f
  | rv_op_addd => 0xfe00707f
  | rv_op_subd => 0xfe00707f
  | rv_op_slld => 0xfe00707f
  | rv_op_srld => 0xfe00707f
  | rv_op_srad => 0xfe00707f
  | rv_op_mul => 0xfe00707f
  | rv_op_mulh => 0xfe00707f
  | rv_op_mulhsu => 0xfe00707f
  | rv_op_mulhu => 0xfe00707f
  | rv_op_div => 0xfe00707f
  | rv_op_divu => 0xfe00707f
  | rv_op_rem => 0xfe00707f
  | rv_op_remu => 0xfe00707f
  | rv_op_mulw => 0xfe00707f
  | rv_op_divw => 0xfe00707f
  | rv_op_divuw => 0xfe00707f
  | rv_op_remw => 0xfe00707f
  | rv_op_remuw => 0xfe00707f
  | rv_op_muld => 0xfe00707f
  | rv_op_divd => 0xfe00707f
  | rv_op_divud => 0xfe00707f
  | rv_op_remd => 0xfe00707f
  | rv_op_remud => 0xfe00707f
  | rv_op_lr_w => 0xf9f0707f
  | rv_op_sc_w => 0xf800707f
  | rv_op_amoswap_w => 0xf800707f
  | rv_op_amoadd_w => 0xf800707f
  | rv_op_amoxor_w => 0xf800707f
  | rv_op_amoor_w => 0xf800707f
  | rv_op_amoand_w => 0xf800707f
  | rv_op_amomin_w => 0xf800707f
  | rv_op_amomax_w => 0xf800707f
  | rv_op_amominu_w => 0xf800707f
  | rv_op_amomaxu_w => 0xf800707f
  | rv_op_lr_d => 0xf9f0707f
  | rv_op_sc_d => 0xf800707f
  | rv_op_amoswap_d => 0xf800707f
  | rv_op_amoadd_d => 0xf800707f
  | rv_op_amoxor_d => 0xf800707f
  | rv_op_amoor_d => 0xf800707f
  | rv_op_amoand_d => 0xf800707f
  | rv_op_amomin_d => 0xf800707f
  | rv_op_amomax_d => 0xf800707f
  | rv_op_amominu_d => 0xf800707f
  | rv_op_amomaxu_d => 0xf800707f
  | rv_op_lr_q => 0xf9f0707f
  | rv_op_sc_q => 0xf800707f
  | rv_op_amoswap_q => 0xf800707f
  | rv_op_amoadd_q => 0xf800707f
  | rv_op_amoxor_q => 0xf800707f
  | rv_op_amoor_q => 0xf800707f
  | rv_op_amoand_q => 0xf800707f
  | rv_op_amomin_q => 0xf800707f
  | rv_op_amomax_q => 0xf800707f
  | rv_op_amominu_q => 0xf800707f
  | rv_op_amomaxu_q => 0xf800707f
  | rv_op_ecall => 0xffffffff
  | rv_op_ebreak => 0xffffffff
  | rv_op_uret => 0xffffffff
  | rv_op_sret => 0xffffffff
  | rv_op_hret => 0xffffffff
  | rv_op_mret => 0xffffffff
  | rv_op_dret => 0xffffffff
  | rv_op_sfence_vm => 0xfff07fff
  | rv_op_sfence_vma => 0xfe007fff
  | rv_op_wfi => 0xffffffff
  | rv_op_csrrw => 0x707f
  | rv_op_csrrs => 0x707f
  | rv_op_csrrc => 0x707f
  | rv_op_csrrwi => 0x707f
  | rv_op_csrrsi => 0x707f
  | rv_op_csrrci => 0x707f
  | rv_op_flw => 0x707f
  | rv_op_fsw => 0x707f
  | rv_op_fmadd_s => 0x600007f
  | rv_op_fmsub_s => 0x600007f
  | rv_op_fnmsub_s => 0x600007f
  | rv_op_fnmadd_s => 0x600007f
  | rv_op_fadd_s => 0xfe00007f
  | rv_op_fsub_s => 0xfe00007f
  | rv_op_fmul_s => 0xfe00007f
  | rv_op_fdiv_s => 0xfe00007f
  | rv_op_fsgnj_s => 0xfe00707f
  | rv_op_fsgnjn_s => 0xfe00707f
  | rv_op_fsgnjx_s => 0xfe00707f
  | rv_op_fmin_s => 0xfe00707f
  | rv_op_fmax_s => 0xfe00707f
  | rv_op_fsqrt_s => 0xfff0007f
  | rv_op_fle_s => 0xfe00707f
  | rv_op_flt_s => 0xfe00707f
  | rv_op_feq_s => 0xfe00707f
  | rv_op_fcvt_w_s => 0xfff0007f
  | rv_op_fcvt_wu_s => 0xfff0007f
  | rv_op_fcvt_s_w => 0xfff0007f
  | rv_op_fcvt_s_wu => 0xfff0007f
  | rv_op_fmv_x_s => 0xfff0707f
  | rv_op_fclass_s => 0xfff0707f
  | rv_op_fmv_s_x => 0xfff0707f
  | rv_op_fcvt_l_s => 0xfff0007f
  | rv_op_fcvt_lu_s => 0xfff0007f
  | rv_op_fcvt_s_l => 0xfff0007f
  | rv_op_fcvt_s_lu => 0xfff0007f
  | rv_op_fld => 0x707f
  | rv_op_fsd => 0x707f
  | rv_op_fmadd_d => 0x600007f
  | rv_op_fmsub_d => 0x600007f
  | rv_op_fnmsub_d => 0x600007f
  | rv_op_fnmadd_d => 0x600007f
  | rv_op_fadd_d => 0xfe00007f
  | rv_op_fsub_d => 0xfe00007f
  | rv_op_fmul_d => 0xfe00007f
  | rv_op_fdiv_d => 0xfe00007f
  | rv_op_fsgnj_d => 0xfe00707f
  | rv_op_fsgnjn_d => 0xfe00707f
  | rv_op_fsgnjx_d => 0xfe00707f
  | rv_op_fmin_d => 0xfe00707f
  | rv_op_fmax_d => 0xfe00707f
  | rv_op_fcvt_s_d => 0xfff0007f
  | rv_op_fcvt_d_s => 0xfff0007f
  | rv_op_fsqrt_d => 0xfff0007f
  | rv_op_fle_d => 0xfe00707f
  | rv_op_flt_d => 0xfe00707f
  | rv_op_feq_d => 0xfe00707f
  | rv_op_fcvt_w_d => 0xfff0007f
  | rv_op_fcvt_wu_d => 0xfff0007f
  | rv_op_fcvt_d_w => 0xfff0007f
  | rv_op_fcvt_d_wu => 0xfff0007f
  | rv_op_fclass_d => 0xfff0707f
  | rv_op_fcvt_l_d => 0xfff0007f
  | rv_op_fcvt_lu_d => 0xfff0007f
  | rv_op_fmv_x_d => 0xfff0707f
  | rv_op_fcvt_d_l => 0xfff0007f
  | rv_op_fcvt_d_lu => 0xfff0007f
  | rv_op_fmv_d_x => 0xfff0707f
  | rv_op_flq => 0x707f
  | rv_op_fsq => 0x707f
  | rv_op_fmadd_q => 0x600007f
  | rv_op_fmsub_q => 0x600007f
  | rv_op_fnmsub_q => 0x600007f
  | rv_op_fnmadd_q => 0x600007f
  | rv_op_fadd_q => 0xfe00007f
  | rv_op_fsub_q => 0xfe00007f
  | rv_op_fmul_q => 0xfe00007f
  | rv_op_fdiv_q => 0xfe00007f
  | rv_op_fsgnj_q => 0xfe00707f
  | rv_op_fsgnjn_q => 0xfe00707f
  | rv_op_fsgnjx_q => 0xfe00707f
  | rv_op_fmin_q => 0xfe00707f
  | rv_op_fmax_q => 0xfe00707f
  | rv_op_fcvt_s_q => 0xfff0007f
  | rv_op_fcvt_q_s => 0xfff0007f
  | rv_op_fcvt_d_q => 0xfff0007f
  | rv_op_fcvt_q_d => 0xfff0007f
  | rv_op_fsqrt_q => 0xfff0007f
  | rv_op_fle_q => 0xfe00707f
  | rv_op_flt_q => 0xfe00707f
  | rv_op_feq_q => 0xfe00707f
  | rv_op_fcvt_w_q => 0xfff0007f
  | rv_op_fcvt_wu_q => 0xfff0007f
  | rv_op_fcvt_q_w => 0xfff0007f
  | rv_op_fcvt_q_wu => 0xfff0007f
  | rv_op_fclass_q => 0xfff0707f
  | rv_op_fcvt_l_q => 0xfff0007f
  | rv_op_fcvt_lu_q => 0xfff0007f
  | rv_op_fcvt_q_l => 0xfff0007f
  | rv_op_fcvt_q_lu => 0xfff0007f
  | rv_op_fmv_x_q => 0xfff0707f
  | rv_op_fmv_q_x => 0xfff0707f
  | rv_op_c_addi4spn => 0xe003
  | rv_op_c_fld => 0xe003
  | rv_op_c_lw => 0xe003
  | rv_op_c_flw => 0xe003
  | rv_op_c_fsd => 0xe003
  | rv_op_c_sw => 0xe003
  | rv_op_c_fsw => 0xe003
  | rv_op_c_nop => 0xffff
  | rv_op_c_addi => 0xe003
  | rv_op_c_jal => 0xe003
  | rv_op_c_li => 0xe003
  | rv_op_c_addi16sp => 0xef83
  | rv_op_c_lui => 0xe003
  | rv_op_c_srli => 0xec03
  | rv_op_c_srai => 0xec03
  | rv_op_c_andi => 0xec03
  | rv_op_c_sub => 0xfc63
  | rv_op_c_xor => 0xfc63
  | rv_op_c_or => 0xfc63
  | rv_op_c_and => 0xfc63
  | rv_op_c_subw => 0xfc63
  | rv_op_c_addw => 0xfc63
  | rv_op_c_j => 0xe003
  | rv_op_c_beqz => 0xe003
  | rv_op_c_bnez => 0xe003
  | rv_op_c_slli => 0xe003
  | rv_op_c_fldsp => 0xe003
  | rv_op_c_lwsp => 0xe003
  | rv_op_c_flwsp => 0xe003
  | rv_op_c_jr => 0xf07f
  | rv_op_c_mv => 0xf003
  | rv_op_c_ebreak => 0xffff
  | rv_op_c_jalr => 0xf07f
  | rv_op_c_add => 0xf003
  | rv_op_c_fsdsp => 0xe003
  | rv_op_c_swsp => 0xe003
  | rv_op_c_fswsp => 0xe003
  | rv_op_c_ld => 0xe003
  | rv_op_c_sd => 0xe003
  | rv_op_c_addiw => 0xe003
  | rv_op_c_ldsp => 0xe003
  | rv_op_c_sdsp => 0xe003
  | rv_op_c_lq => 0xe003
  | rv_op_c_sq => 0xe003
  | rv_op_c_lqsp => 0xe003
  | rv_op_c_sqsp => 0xe003
  | _ => 0x0
  end.
