(* ===== verification/CompTables.v ===== *)
(** * Compression and pseudo-instruction tables: [asm/meta.cc]

    The operand constraints, the constraint list of every compressed and
    pseudo form, the candidate lists of every opcode and the decompression
    tables, as generated in the source.  A constraint array keeps its
    [rvc_end] terminator; a candidate array keeps its [nullptr] entry. *)

From Stdlib Require Import ZArith Bool.
From stdpp Require Import base list.
From S2P Require Import Prelude Meta.

#[local] Open Scope Z_scope.

(** ** Constraints *)

Inductive rvc_constraint : Set :=
  | rvc_end | rvc_simm_6 | rvc_simm_9 | rvc_simm_10 | rvc_simm_12 | rvc_imm_5 | rvc_imm_6
  | rvc_imm_7 | rvc_imm_8 | rvc_imm_9 | rvc_imm_10 | rvc_imm_12 | rvc_imm_18 | rvc_imm_nz
  | rvc_imm_x2 | rvc_imm_x4 | rvc_imm_x8 | rvc_imm_x16 | rvc_rd_b3 | rvc_rs1_b3 | rvc_rs2_b3
  | rvc_rd_eq_rs1 | rvc_rd_eq_ra | rvc_rd_eq_sp | rvc_rd_eq_x0 | rvc_rs1_eq_sp | rvc_rs1_eq_x0
  | rvc_rs2_eq_x0 | rvc_rd_ne_x0_x2 | rvc_rd_ne_x0 | rvc_rs1_ne_x0 | rvc_rs2_ne_x0
  | rvc_rs2_eq_rs1 | rvc_rs1_eq_ra | rvc_imm_eq_zero | rvc_imm_eq_n1 | rvc_imm_eq_p1
  | rvc_csr_eq_0x001 | rvc_csr_eq_0x002 | rvc_csr_eq_0x003 | rvc_csr_eq_0xc00 | rvc_csr_eq_0xc01
  | rvc_csr_eq_0xc02 | rvc_csr_eq_0xc80 | rvc_csr_eq_0xc81 | rvc_csr_eq_0xc82.

#[export] Instance rvc_constraint_eq_dec : EqDecision rvc_constraint.
Proof. solve_decision. Defined.

(** A candidate: the replacement opcode and its constraints, [None] for the
    null pointer that ends an array. *)
Record rv_comp_data : Type := Comp { cd_op : rv_op; cd_constraints : option (list rvc_constraint) }.

(** ** Constraint lists *)

Definition rvcc_c_addi4spn : list rvc_constraint :=
  [rvc_imm_10; rvc_imm_x4; rvc_imm_nz; rvc_rd_b3; rvc_rs1_eq_sp; rvc_end].
Definition rvcc_c_fld : list rvc_constraint :=
  [rvc_imm_8; rvc_imm_x8; rvc_rd_b3; rvc_rs1_b3; rvc_end].
Definition rvcc_c_lw : list rvc_constraint :=
  [rvc_imm_7; rvc_imm_x4; rvc_rd_b3; rvc_rs1_b3; rvc_end].
Definition rvcc_c_flw : list rvc_constraint :=
  [rvc_imm_7; rvc_imm_x4; rvc_rd_b3; rvc_rs1_b3; rvc_end].
Definition rvcc_c_fsd : list rvc_constraint :=
  [rvc_imm_8; rvc_imm_x8; rvc_rs1_b3; rvc_rs2_b3; rvc_end].
Definition rvcc_c_sw : list rvc_constraint :=
  [rvc_imm_7; rvc_imm_x4; rvc_rs1_b3; rvc_rs2_b3; rvc_end].
Definition rvcc_c_fsw : list rvc_constraint :=
  [rvc_imm_7; rvc_imm_x4; rvc_rs1_b3; rvc_rs2_b3; rvc_end].
Definition rvcc_c_nop : list rvc_constraint :=
  [rvc_rd_eq_x0; rvc_rs1_eq_x0; rvc_rs2_eq_x0; rvc_end].
Definition rvcc_c_addi : list rvc_constraint :=
  [rvc_simm_6; rvc_imm_nz; rvc_rd_ne_x0; rvc_rd_eq_rs1; rvc_end].
Definition rvcc_c_jal : list rvc_constraint :=
  [rvc_imm_12; rvc_imm_x2; rvc_rd_eq_ra; rvc_end].
Definition rvcc_c_li : list rvc_constraint :=
  [rvc_simm_6; rvc_rd_ne_x0; rvc_rs1_eq_x0; rvc_end].
Definition rvcc_c_addi16sp : list rvc_constraint :=
  [rvc_simm_10; rvc_imm_x4; rvc_imm_nz; rvc_rd_eq_sp; rvc_rs1_eq_sp; rvc_end].
Definition rvcc_c_lui : list rvc_constraint :=
  [rvc_imm_18; rvc_imm_nz; rvc_rd_ne_x0_x2; rvc_end].
Definition rvcc_c_srli_rv32c : list rvc_constraint :=
  [rvc_imm_5; rvc_imm_nz; rvc_rd_eq_rs1; rvc_rd_b3; rvc_rs1_b3; rvc_end].
Definition rvcc_c_srai_rv32c : list rvc_constraint :=
  [rvc_imm_5; rvc_imm_nz; rvc_rd_eq_rs1; rvc_rd_b3; rvc_rs1_b3; rvc_end].
Definition rvcc_c_andi : list rvc_constraint :=
  [rvc_imm_5; rvc_imm_nz; rvc_rd_eq_rs1; rvc_rd_b3; rvc_rs1_b3; rvc_end].
Definition rvcc_c_sub : list rvc_constraint :=
  [rvc_rd_eq_rs1; rvc_rd_b3; rvc_rs1_b3; rvc_rs2_b3; rvc_end].
Definition rvcc_c_xor : list rvc_constraint :=
  [rvc_rd_eq_rs1; rvc_rd_b3; rvc_rs1_b3; rvc_rs2_b3; rvc_end].
Definition rvcc_c_or : list rvc_constraint :=
  [rvc_rd_eq_rs1; rvc_rd_b3; rvc_rs1_b3; rvc_rs2_b3; rvc_end].
Definition rvcc_c_and : list rvc_constraint :=
  [rvc_rd_eq_rs1; rvc_rd_b3; rvc_rs1_b3; rvc_rs2_b3; rvc_end].
Definition rvcc_c_subw : list rvc_constraint :=
  [rvc_rd_eq_rs1; rvc_rd_b3; rvc_rs1_b3; rvc_rs2_b3; rvc_end].
Definition rvcc_c_addw : list rvc_constraint :=
  [rvc_rd_eq_rs1; rvc_rd_b3; rvc_rs1_b3; rvc_rs2_b3; rvc_end].
Definition rvcc_c_j : list rvc_constraint :=
  [rvc_simm_12; rvc_imm_x2; rvc_rd_eq_x0; rvc_end].
Definition rvcc_c_beqz : list rvc_constraint :=
  [rvc_simm_9; rvc_imm_x2; rvc_rs1_b3; rvc_rs2_eq_x0; rvc_end].
Definition rvcc_c_bnez : list rvc_constraint :=
  [rvc_simm_9; rvc_imm_x2; rvc_rs1_b3; rvc_rs2_eq_x0; rvc_end].
Definition rvcc_c_slli_rv32c : list rvc_constraint :=
  [rvc_imm_5; rvc_imm_nz; rvc_rd_ne_x0; rvc_rd_eq_rs1; rvc_end].
Definition rvcc_c_fldsp : list rvc_constraint :=
  [rvc_imm_9; rvc_imm_x8; rvc_rs1_eq_sp; rvc_end].
Definition rvcc_c_lwsp : list rvc_constraint :=
  [rvc_imm_8; rvc_imm_x4; rvc_rd_ne_x0; rvc_rs1_eq_sp; rvc_end].
Definition rvcc_c_flwsp : list rvc_constraint :=
  [rvc_imm_8; rvc_imm_x4; rvc_rs1_eq_sp; rvc_end].
Definition rvcc_c_jr : list rvc_constraint :=
  [rvc_imm_eq_zero; rvc_rd_eq_x0; rvc_rs1_ne_x0; rvc_end].
Definition rvcc_c_mv : list rvc_constraint :=
  [rvc_imm_eq_zero; rvc_rd_ne_x0; rvc_end].
Definition rvcc_c_ebreak : list rvc_constraint :=
  [rvc_end].
Definition rvcc_c_jalr : list rvc_constraint :=
  [rvc_imm_eq_zero; rvc_rd_eq_ra; rvc_rs1_ne_x0; rvc_end].
Definition rvcc_c_add : list rvc_constraint :=
  [rvc_rd_eq_rs1; rvc_rd_ne_x0; rvc_rs2_ne_x0; rvc_end].
Definition rvcc_c_fsdsp : list rvc_constraint :=
  [rvc_imm_9; rvc_imm_x8; rvc_rs1_eq_sp; rvc_end].
Definition rvcc_c_swsp : list rvc_constraint :=
  [rvc_imm_8; rvc_imm_x4; rvc_rs1_eq_sp; rvc_end].
Definition rvcc_c_fswsp : list rvc_constraint :=
  [rvc_imm_8; rvc_imm_x4; rvc_rs1_eq_sp; rvc_end].
Definition rvcc_c_ld : list rvc_constraint :=
  [rvc_imm_8; rvc_imm_x8; rvc_rd_b3; rvc_rs1_b3; rvc_end].
Definition rvcc_c_sd : list rvc_constraint :=
  [rvc_imm_8; rvc_imm_x8; rvc_rs1_b3; rvc_rs2_b3; rvc_end].
Definition rvcc_c_addiw : list rvc_constraint :=
  [rvc_simm_6; rvc_rd_ne_x0; rvc_rd_eq_rs1; rvc_end].
Definition rvcc_c_srli_rv64c : list rvc_constraint :=
  [rvc_imm_5; rvc_imm_nz; rvc_rd_eq_rs1; rvc_rd_b3; rvc_rs1_b3; rvc_end].
Definition rvcc_c_srai_rv64c : list rvc_constraint :=
  [rvc_imm_5; rvc_imm_nz; rvc_rd_eq_rs1; rvc_rd_b3; rvc_rs1_b3; rvc_end].
Definition rvcc_c_slli_rv64c : list rvc_constraint :=
  [rvc_imm_5; rvc_imm_nz; rvc_rd_ne_x0; rvc_rd_eq_rs1; rvc_end].
Definition rvcc_c_ldsp : list rvc_constraint :=
  [rvc_imm_9; rvc_imm_x8; rvc_rd_ne_x0; rvc_rs1_eq_sp; rvc_end].
Definition rvcc_c_sdsp : list rvc_constraint :=
  [rvc_imm_9; rvc_imm_x8; rvc_rs1_eq_sp; rvc_end].
Definition rvcc_c_lq : list rvc_constraint :=
  [rvc_imm_9; rvc_imm_x16; rvc_end].
Definition rvcc_c_sq : list rvc_constraint :=
  [rvc_imm_9; rvc_imm_x16; rvc_end].
Definition rvcc_c_lqsp : list rvc_constraint :=
  [rvc_imm_10; rvc_imm_x16; rvc_rs1_eq_sp; rvc_end].
Definition rvcc_c_sqsp : list rvc_constraint :=
  [rvc_imm_10; rvc_imm_x16; rvc_rs1_eq_sp; rvc_end].

Definition rvcd_rv32_lui : list rv_comp_data :=
  [Comp rv_op_c_lui (Some rvcc_c_lui); Comp rv_op_illegal None].
Definition rvcd_rv32_jal : list rv_comp_data :=
  [Comp rv_op_c_jal (Some rvcc_c_jal); Comp rv_op_c_j (Some rvcc_c_j); Comp rv_op_illegal None].
Definition rvcd_rv32_jalr : list rv_comp_data :=
  [Comp rv_op_c_jr (Some rvcc_c_jr); Comp rv_op_c_jalr (Some rvcc_c_jalr);
  Comp rv_op_illegal None].
Definition rvcd_rv32_beq : list rv_comp_data :=
  [Comp rv_op_c_beqz (Some rvcc_c_beqz); Comp rv_op_illegal None].
Definition rvcd_rv32_bne : list rv_comp_data :=
  [Comp rv_op_c_bnez (Some rvcc_c_bnez); Comp rv_op_illegal None].
Definition rvcd_rv32_lw : list rv_comp_data :=
  [Comp rv_op_c_lw (Some rvcc_c_lw); Comp rv_op_c_lwsp (Some rvcc_c_lwsp);
  Comp rv_op_illegal None].
Definition rvcd_rv32_sw : list rv_comp_data :=
  [Comp rv_op_c_sw (Some rvcc_c_sw); Comp rv_op_c_swsp (Some rvcc_c_swsp);
  Comp rv_op_illegal None].
Definition rvcd_rv32_addi : list rv_comp_data :=
  [Comp rv_op_c_addi4spn (Some rvcc_c_addi4spn); Comp rv_op_c_nop (Some rvcc_c_nop);
  Comp rv_op_c_addi (Some rvcc_c_addi); Comp rv_op_c_li (Some rvcc_c_li);
  Comp rv_op_c_addi16sp (Some rvcc_c_addi16sp); Comp rv_op_c_mv (Some rvcc_c_mv);
  Comp rv_op_illegal None].
Definition rvcd_rv32_andi : list rv_comp_data :=
  [Comp rv_op_c_andi (Some rvcc_c_andi); Comp rv_op_illegal None].
Definition rvcd_rv32_slli : list rv_comp_data :=
  [Comp rv_op_c_slli (Some rvcc_c_slli_rv32c); Comp rv_op_illegal None].
Definition rvcd_rv32_srli : list rv_comp_data :=
  [Comp rv_op_c_srli (Some rvcc_c_srli_rv32c); Comp rv_op_illegal None].
Definition rvcd_rv32_srai : list rv_comp_data :=
  [Comp rv_op_c_srai (Some rvcc_c_srai_rv32c); Comp rv_op_illegal None].
Definition rvcd_rv32_add : list rv_comp_data :=
  [Comp rv_op_c_add (Some rvcc_c_add); Comp rv_op_illegal None].
Definition rvcd_rv32_sub : list rv_comp_data :=
  [Comp rv_op_c_sub (Some rvcc_c_sub); Comp rv_op_illegal None].
Definition rvcd_rv32_xor : list rv_comp_data :=
  [Comp rv_op_c_xor (Some rvcc_c_xor); Comp rv_op_illegal None].
Definition rvcd_rv32_or : list rv_comp_data :=
  [Comp rv_op_c_or (Some rvcc_c_or); Comp rv_op_illegal None].
Definition rvcd_rv32_and : list rv_comp_data :=
  [Comp rv_op_c_and (Some rvcc_c_and); Comp rv_op_illegal None].
Definition rvcd_rv32_ebreak : list rv_comp_data :=
  [Comp rv_op_c_ebreak (Some rvcc_c_ebreak); Comp rv_op_illegal None].
Definition rvcd_rv32_flw : list rv_comp_data :=
  [Comp rv_op_c_flw (Some rvcc_c_flw); Comp rv_op_c_flwsp (Some rvcc_c_flwsp);
  Comp rv_op_illegal None].
Definition rvcd_rv32_fsw : list rv_comp_data :=
  [Comp rv_op_c_fsw (Some rvcc_c_fsw); Comp rv_op_c_fswsp (Some rvcc_c_fswsp);
  Comp rv_op_illegal None].
Definition rvcd_rv32_fld : list rv_comp_data :=
  [Comp rv_op_c_fld (Some rvcc_c_fld); Comp rv_op_c_fldsp (Some rvcc_c_fldsp);
  Comp rv_op_illegal None].
Definition rvcd_rv32_fsd : list rv_comp_data :=
  [Comp rv_op_c_fsd (Some rvcc_c_fsd); Comp rv_op_c_fsdsp (Some rvcc_c_fsdsp);
  Comp rv_op_illegal None].
Definition rvcd_rv64_lui : list rv_comp_data :=
  [Comp rv_op_c_lui (Some rvcc_c_lui); Comp rv_op_illegal None].
Definition rvcd_rv64_jal : list rv_comp_data :=
  [Comp rv_op_c_j (Some rvcc_c_j); Comp rv_op_illegal None].
Definition rvcd_rv64_jalr : list rv_comp_data :=
  [Comp rv_op_c_jr (Some rvcc_c_jr); Comp rv_op_c_jalr (Some rvcc_c_jalr);
  Comp rv_op_illegal None].
Definition rvcd_rv64_beq : list rv_comp_data :=
  [Comp rv_op_c_beqz (Some rvcc_c_beqz); Comp rv_op_illegal None].
Definition rvcd_rv64_bne : list rv_comp_data :=
  [Comp rv_op_c_bnez (Some rvcc_c_bnez); Comp rv_op_illegal None].
Definition rvcd_rv64_lw : list rv_comp_data :=
  [Comp rv_op_c_lw (Some rvcc_c_lw); Comp rv_op_c_lwsp (Some rvcc_c_lwsp);
  Comp rv_op_illegal None].
Definition rvcd_rv64_sw : list rv_comp_data :=
  [Comp rv_op_c_sw (Some rvcc_c_sw); Comp rv_op_c_swsp (Some rvcc_c_swsp);
  Comp rv_op_illegal None].
Definition rvcd_rv64_addi : list rv_comp_data :=
  [Comp rv_op_c_addi4spn (Some rvcc_c_addi4spn); Comp rv_op_c_nop (Some rvcc_c_nop);
  Comp rv_op_c_addi (Some rvcc_c_addi); Comp rv_op_c_li (Some rvcc_c_li);
  Comp rv_op_c_addi16sp (Some rvcc_c_addi16sp); Comp rv_op_c_mv (Some rvcc_c_mv);
  Comp rv_op_illegal None].
Definition rvcd_rv64_andi : list rv_comp_data :=
  [Comp rv_op_c_andi (Some rvcc_c_andi); Comp rv_op_illegal None].
Definition rvcd_rv64_add : list rv_comp_data :=
  [Comp rv_op_c_add (Some rvcc_c_add); Comp rv_op_illegal None].
Definition rvcd_rv64_sub : list rv_comp_data :=
  [Comp rv_op_c_sub (Some rvcc_c_sub); Comp rv_op_illegal None].
Definition rvcd_rv64_xor : list rv_comp_data :=
  [Comp rv_op_c_xor (Some rvcc_c_xor); Comp rv_op_illegal None].
Definition rvcd_rv64_or : list rv_comp_data :=
  [Comp rv_op_c_or (Some rvcc_c_or); Comp rv_op_illegal None].
Definition rvcd_rv64_and : list rv_comp_data :=
  [Comp rv_op_c_and (Some rvcc_c_and); Comp rv_op_illegal None].
Definition rvcd_rv64_ld : list rv_comp_data :=
  [Comp rv_op_c_ld (Some rvcc_c_ld); Comp rv_op_c_ldsp (Some rvcc_c_ldsp);
  Comp rv_op_illegal None].
Definition rvcd_rv64_sd : list rv_comp_data :=
  [Comp rv_op_c_sd (Some rvcc_c_sd); Comp rv_op_c_sdsp (Some rvcc_c_sdsp);
  Comp rv_op_illegal None].
Definition rvcd_rv64_slli : list rv_comp_data :=
  [Comp rv_op_c_slli (Some rvcc_c_slli_rv64c); Comp rv_op_illegal None].
Definition rvcd_rv64_srli : list rv_comp_data :=
  [Comp rv_op_c_srli (Some rvcc_c_srli_rv64c); Comp rv_op_illegal None].
Definition rvcd_rv64_srai : list rv_comp_data :=
  [Comp rv_op_c_srai (Some rvcc_c_srai_rv64c); Comp rv_op_illegal None].
Definition rvcd_rv64_addiw : list rv_comp_data :=
  [Comp rv_op_c_addiw (Some rvcc_c_addiw); Comp rv_op_illegal None].
Definition rvcd_rv64_addw : list rv_comp_data :=
  [Comp rv_op_c_addw (Some rvcc_c_addw); Comp rv_op_illegal None].
Definition rvcd_rv64_subw : list rv_comp_data :=
  [Comp rv_op_c_subw (Some rvcc_c_subw); Comp rv_op_illegal None].
Definition rvcd_rv64_ebreak : list rv_comp_data :=
  [Comp rv_op_c_ebreak (Some rvcc_c_ebreak); Comp rv_op_illegal None].
Definition rvcd_rv64_fld : list rv_comp_data :=
  [Comp rv_op_c_fld (Some rvcc_c_fld); Comp rv_op_c_fldsp (Some rvcc_c_fldsp);
  Comp rv_op_illegal None].
Definition rvcd_rv64_fsd : list rv_comp_data :=
  [Comp rv_op_c_fsd (Some rvcc_c_fsd); Comp rv_op_c_fsdsp (Some rvcc_c_fsdsp);
  Comp rv_op_illegal None].
Definition rvcd_rv128_lq : list rv_comp_data :=
  [Comp rv_op_c_lq (Some rvcc_c_lq); Comp rv_op_c_lqsp (Some rvcc_c_lqsp);
  Comp rv_op_illegal None].
Definition rvcd_rv128_sq : list rv_comp_data :=
  [Comp rv_op_c_sq (Some rvcc_c_sq); Comp rv_op_c_sqsp (Some rvcc_c_sqsp);
  Comp rv_op_illegal None].
Definition rvcc_jal : list rvc_constraint :=
  [rvc_rd_eq_ra; rvc_end].
Definition rvcc_jalr : list rvc_constraint :=
  [rvc_rd_eq_ra; rvc_imm_eq_zero; rvc_end].
Definition rvcc_nop : list rvc_constraint :=
  [rvc_rd_eq_x0; rvc_rs1_eq_x0; rvc_imm_eq_zero; rvc_end].
Definition rvcc_mv : list rvc_constraint :=
  [rvc_imm_eq_zero; rvc_end].
Definition rvcc_not : list rvc_constraint :=
  [rvc_imm_eq_n1; rvc_end].
Definition rvcc_neg : list rvc_constraint :=
  [rvc_rs1_eq_x0; rvc_end].
Definition rvcc_negw : list rvc_constraint :=
  [rvc_rs1_eq_x0; rvc_end].
Definition rvcc_sext_w : list rvc_constraint :=
  [rvc_imm_eq_zero; rvc_end].
Definition rvcc_seqz : list rvc_constraint :=
  [rvc_imm_eq_p1; rvc_end].
Definition rvcc_snez : list rvc_constraint :=
  [rvc_rs1_eq_x0; rvc_end].
Definition rvcc_sltz : list rvc_constraint :=
  [rvc_rs2_eq_x0; rvc_end].
Definition rvcc_sgtz : list rvc_constraint :=
  [rvc_rs1_eq_x0; rvc_end].
Definition rvcc_fmv_s : list rvc_constraint :=
  [rvc_rs2_eq_rs1; rvc_end].
Definition rvcc_fabs_s : list rvc_constraint :=
  [rvc_rs2_eq_rs1; rvc_end].
Definition rvcc_fneg_s : list rvc_constraint :=
  [rvc_rs2_eq_rs1; rvc_end].
Definition rvcc_fmv_d : list rvc_constraint :=
  [rvc_rs2_eq_rs1; rvc_end].
Definition rvcc_fabs_d : list rvc_constraint :=
  [rvc_rs2_eq_rs1; rvc_end].
Definition rvcc_fneg_d : list rvc_constraint :=
  [rvc_rs2_eq_rs1; rvc_end].
Definition rvcc_fmv_q : list rvc_constraint :=
  [rvc_rs2_eq_rs1; rvc_end].
Definition rvcc_fabs_q : list rvc_constraint :=
  [rvc_rs2_eq_rs1; rvc_end].
Definition rvcc_fneg_q : list rvc_constraint :=
  [rvc_rs2_eq_rs1; rvc_end].
Definition rvcc_beqz : list rvc_constraint :=
  [rvc_rs2_eq_x0; rvc_end].
Definition rvcc_bnez : list rvc_constraint :=
  [rvc_rs2_eq_x0; rvc_end].
Definition rvcc_blez : list rvc_constraint :=
  [rvc_rs1_eq_x0; rvc_end].
Definition rvcc_bgez : list rvc_constraint :=
  [rvc_rs2_eq_x0; rvc_end].
Definition rvcc_bltz : list rvc_constraint :=
  [rvc_rs2_eq_x0; rvc_end].
Definition rvcc_bgtz : list rvc_constraint :=
  [rvc_rs1_eq_x0; rvc_end].
Definition rvcc_ble : list rvc_constraint :=
  [rvc_end].
Definition rvcc_bleu : list rvc_constraint :=
  [rvc_end].
Definition rvcc_bgt : list rvc_constraint :=
  [rvc_end].
Definition rvcc_bgtu : list rvc_constraint :=
  [rvc_end].
Definition rvcc_j : list rvc_constraint :=
  [rvc_rd_eq_x0; rvc_end].
Definition rvcc_ret : list rvc_constraint :=
  [rvc_rd_eq_x0; rvc_rs1_eq_ra; rvc_end].
Definition rvcc_jr : list rvc_constraint :=
  [rvc_rd_eq_x0; rvc_imm_eq_zero; rvc_end].
Definition rvcc_rdcycle : list rvc_constraint :=
  [rvc_rs1_eq_x0; rvc_csr_eq_0xc00; rvc_end].
Definition rvcc_rdtime : list rvc_constraint :=
  [rvc_rs1_eq_x0; rvc_csr_eq_0xc01; rvc_end].
Definition rvcc_rdinstret : list rvc_constraint :=
  [rvc_rs1_eq_x0; rvc_csr_eq_0xc02; rvc_end].
Definition rvcc_rdcycleh : list rvc_constraint :=
  [rvc_rs1_eq_x0; rvc_csr_eq_0xc80; rvc_end].
Definition rvcc_rdtimeh : list rvc_constraint :=
  [rvc_rs1_eq_x0; rvc_csr_eq_0xc81; rvc_end].
Definition rvcc_rdinstreth : list rvc_constraint :=
  [rvc_rs1_eq_x0; rvc_csr_eq_0xc82; rvc_end].
Definition rvcc_frcsr : list rvc_constraint :=
  [rvc_rs1_eq_x0; rvc_csr_eq_0x003; rvc_end].
Definition rvcc_frrm : list rvc_constraint :=
  [rvc_rs1_eq_x0; rvc_csr_eq_0x002; rvc_end].
Definition rvcc_frflags : list rvc_constraint :=
  [rvc_rs1_eq_x0; rvc_csr_eq_0x001; rvc_end].
Definition rvcc_fscsr : list rvc_constraint :=
  [rvc_csr_eq_0x003; rvc_end].
Definition rvcc_fsrm : list rvc_constraint :=
  [rvc_csr_eq_0x002; rvc_end].
Definition rvcc_fsflags : list rvc_constraint :=
  [rvc_csr_eq_0x001; rvc_end].
Definition rvcc_fsrmi : list rvc_constraint :=
  [rvc_csr_eq_0x002; rvc_end].
Definition rvcc_fsflagsi : list rvc_constraint :=
  [rvc_csr_eq_0x001; rvc_end].
Definition rvcp_jal : list rv_comp_data :=
  [Comp rv_op_j (Some rvcc_j); Comp rv_op_jal (Some rvcc_jal); Comp rv_op_illegal None].
Definition rvcp_jalr : list rv_comp_data :=
  [Comp rv_op_ret (Some rvcc_ret); Comp rv_op_jr (Some rvcc_jr);
  Comp rv_op_jalr (Some rvcc_jalr); Comp rv_op_illegal None].
Definition rvcp_beq : list rv_comp_data :=
  [Comp rv_op_beqz (Some rvcc_beqz); Comp rv_op_illegal None].
Definition rvcp_bne : list rv_comp_data :=
  [Comp rv_op_bnez (Some rvcc_bnez); Comp rv_op_illegal None].
Definition rvcp_blt : list rv_comp_data :=
  [Comp rv_op_bltz (Some rvcc_bltz); Comp rv_op_bgtz (Some rvcc_bgtz);
  Comp rv_op_bgt (Some rvcc_bgt); Comp rv_op_illegal None].
Definition rvcp_bge : list rv_comp_data :=
  [Comp rv_op_blez (Some rvcc_blez); Comp rv_op_bgez (Some rvcc_bgez);
  Comp rv_op_ble (Some rvcc_ble); Comp rv_op_illegal None].
Definition rvcp_bltu : list rv_comp_data :=
  [Comp rv_op_bgtu (Some rvcc_bgtu); Comp rv_op_illegal None].
Definition rvcp_bgeu : list rv_comp_data :=
  [Comp rv_op_bleu (Some rvcc_bleu); Comp rv_op_illegal None].
Definition rvcp_addi : list rv_comp_data :=
  [Comp rv_op_nop (Some rvcc_nop); Comp rv_op_mv (Some rvcc_mv); Comp rv_op_illegal None].
Definition rvcp_sltiu : list rv_comp_data :=
  [Comp rv_op_seqz (Some rvcc_seqz); Comp rv_op_illegal None].
Definition rvcp_xori : list rv_comp_data :=
  [Comp rv_op_not (Some rvcc_not); Comp rv_op_illegal None].
Definition rvcp_sub : list rv_comp_data :=
  [Comp rv_op_neg (Some rvcc_neg); Comp rv_op_illegal None].
Definition rvcp_slt : list rv_comp_data :=
  [Comp rv_op_sltz (Some rvcc_sltz); Comp rv_op_sgtz (Some rvcc_sgtz); Comp rv_op_illegal None].
Definition rvcp_sltu : list rv_comp_data :=
  [Comp rv_op_snez (Some rvcc_snez); Comp rv_op_illegal None].
Definition rvcp_addiw : list rv_comp_data :=
  [Comp rv_op_sext_w (Some rvcc_sext_w); Comp rv_op_illegal None].
Definition rvcp_subw : list rv_comp_data :=
  [Comp rv_op_negw (Some rvcc_negw); Comp rv_op_illegal None].
Definition rvcp_csrrw : list rv_comp_data :=
  [Comp rv_op_fscsr (Some rvcc_fscsr); Comp rv_op_fsrm (Some rvcc_fsrm);
  Comp rv_op_fsflags (Some rvcc_fsflags); Comp rv_op_illegal None].
Definition rvcp_csrrs : list rv_comp_data :=
  [Comp rv_op_rdcycle (Some rvcc_rdcycle); Comp rv_op_rdtime (Some rvcc_rdtime);
  Comp rv_op_rdinstret (Some rvcc_rdinstret); Comp rv_op_rdcycleh (Some rvcc_rdcycleh);
  Comp rv_op_rdtimeh (Some rvcc_rdtimeh); Comp rv_op_rdinstreth (Some rvcc_rdinstreth);
  Comp rv_op_frcsr (Some rvcc_frcsr); Comp rv_op_frrm (Some rvcc_frrm);
  Comp rv_op_frflags (Some rvcc_frflags); Comp rv_op_illegal None].
Definition rvcp_csrrwi : list rv_comp_data :=
  [Comp rv_op_fsrmi (Some rvcc_fsrmi); Comp rv_op_fsflagsi (Some rvcc_fsflagsi);
  Comp rv_op_illegal None].
Definition rvcp_fsgnj_s : list rv_comp_data :=
  [Comp rv_op_fmv_s (Some rvcc_fmv_s); Comp rv_op_illegal None].
Definition rvcp_fsgnjn_s : list rv_comp_data :=
  [Comp rv_op_fneg_s (Some rvcc_fneg_s); Comp rv_op_illegal None].
Definition rvcp_fsgnjx_s : list rv_comp_data :=
  [Comp rv_op_fabs_s (Some rvcc_fabs_s); Comp rv_op_illegal None].
Definition rvcp_fsgnj_d : list rv_comp_data :=
  [Comp rv_op_fmv_d (Some rvcc_fmv_d); Comp rv_op_illegal None].
Definition rvcp_fsgnjn_d : list rv_comp_data :=
  [Comp rv_op_fneg_d (Some rvcc_fneg_d); Comp rv_op_illegal None].
Definition rvcp_fsgnjx_d : list rv_comp_data :=
  [Comp rv_op_fabs_d (Some rvcc_fabs_d); Comp rv_op_illegal None].
Definition rvcp_fsgnj_q : list rv_comp_data :=
  [Comp rv_op_fmv_q (Some rvcc_fmv_q); Comp rv_op_illegal None].
Definition rvcp_fsgnjn_q : list rv_comp_data :=
  [Comp rv_op_fneg_q (Some rvcc_fneg_q); Comp rv_op_illegal None].
Definition rvcp_fsgnjx_q : list rv_comp_data :=
  [Comp rv_op_fabs_q (Some rvcc_fabs_q); Comp rv_op_illegal None].

(** ** Tables indexed by opcode *)

(** [rv_inst_pseudo]: the pseudo forms of an opcode, tried in order. *)
Definition rv_inst_pseudo (op : rv_op) : option (list rv_comp_data) :=
  match op with
  | rv_op_jal => Some rvcp_jal
  | rv_op_jalr => Some rvcp_jalr
  | rv_op_beq => Some rvcp_beq
  | rv_op_bne => Some rvcp_bne
  | rv_op_blt => Some rvcp_blt
  | rv_op_bge => Some rvcp_bge
  | rv_op_bltu => Some rvcp_bltu
  | rv_op_bgeu => Some rvcp_bgeu
  | rv_op_addi => Some rvcp_addi
  | rv_op_sltiu => Some rvcp_sltiu
  | rv_op_xori => Some rvcp_xori
  | rv_op_sub => Some rvcp_sub
  | rv_op_slt => Some rvcp_slt
  | rv_op_sltu => Some rvcp_sltu
  | rv_op_addiw => Some rvcp_addiw
  | rv_op_subw => Some rvcp_subw
  | rv_op_csrrw => Some rvcp_csrrw
  | rv_op_csrrs => Some rvcp_csrrs
  | rv_op_csrrwi => Some rvcp_csrrwi
  | rv_op_fsgnj_s => Some rvcp_fsgnj_s
  | rv_op_fsgnjn_s => Some rvcp_fsgnjn_s
  | rv_op_fsgnjx_s => Some rvcp_fsgnjx_s
  | rv_op_fsgnj_d => Some rvcp_fsgnj_d
  | rv_op_fsgnjn_d => Some rvcp_fsgnjn_d
  | rv_op_fsgnjx_d => Some rvcp_fsgnjx_d
  | rv_op_fsgnj_q => Some rvcp_fsgnj_q
  | rv_op_fsgnjn_q => Some rvcp_fsgnjn_q
  | rv_op_fsgnjx_q => Some rvcp_fsgnjx_q
  | _ => None
  end.

(** [rv_inst_depseudo]: the real opcode of a pseudo-instruction and what it fixes. *)
Definition rv_inst_depseudo (op : rv_op) : rv_comp_data :=
  match op with
  | rv_op_jal => Comp rv_op_jal (Some rvcc_jal)
  | rv_op_jalr => Comp rv_op_jalr (Some rvcc_jalr)
  | rv_op_nop => Comp rv_op_addi (Some rvcc_nop)
  | rv_op_mv => Comp rv_op_addi (Some rvcc_mv)
  | rv_op_not => Comp rv_op_xori (Some rvcc_not)
  | rv_op_neg => Comp rv_op_sub (Some rvcc_neg)
  | rv_op_negw => Comp rv_op_subw (Some rvcc_negw)
  | rv_op_sext_w => Comp rv_op_addiw (Some rvcc_sext_w)
  | rv_op_seqz => Comp rv_op_sltiu (Some rvcc_seqz)
  | rv_op_snez => Comp rv_op_sltu (Some rvcc_snez)
  | rv_op_sltz => Comp rv_op_slt (Some rvcc_sltz)
  | rv_op_sgtz => Comp rv_op_slt (Some rvcc_sgtz)
  | rv_op_fmv_s => Comp rv_op_fsgnj_s (Some rvcc_fmv_s)
  | rv_op_fabs_s => Comp rv_op_fsgnjx_s (Some rvcc_fabs_s)
  | rv_op_fneg_s => Comp rv_op_fsgnjn_s (Some rvcc_fneg_s)
  | rv_op_fmv_d => Comp rv_op_fsgnj_d (Some rvcc_fmv_d)
  | rv_op_fabs_d => Comp rv_op_fsgnjx_d (Some rvcc_fabs_d)
  | rv_op_fneg_d => Comp rv_op_fsgnjn_d (Some rvcc_fneg_d)
  | rv_op_fmv_q => Comp rv_op_fsgnj_q (Some rvcc_fmv_q)
  | rv_op_fabs_q => Comp rv_op_fsgnjx_q (Some rvcc_fabs_q)
  | rv_op_fneg_q => Comp rv_op_fsgnjn_q (Some rvcc_fneg_q)
  | rv_op_beqz => Comp rv_op_beq (Some rvcc_beqz)
  | rv_op_bnez => Comp rv_op_bne (Some rvcc_bnez)
  | rv_op_blez => Comp rv_op_bge (Some rvcc_blez)
  | rv_op_bgez => Comp rv_op_bge (Some rvcc_bgez)
  | rv_op_bltz => Comp rv_op_blt (Some rvcc_bltz)
  | rv_op_bgtz => Comp rv_op_blt (Some rvcc_bgtz)
  | rv_op_ble => Comp rv_op_bge (Some rvcc_ble)
  | rv_op_bleu => Comp rv_op_bgeu (Some rvcc_bleu)
  | rv_op_bgt => Comp rv_op_blt (Some rvcc_bgt)
  | rv_op_bgtu => Comp rv_op_bltu (Some rvcc_bgtu)
  | rv_op_j => Comp rv_op_jal (Some rvcc_j)
  | rv_op_ret => Comp rv_op_jalr (Some rvcc_ret)
  | rv_op_jr => Comp rv_op_jalr (Some rvcc_jr)
  | rv_op_rdcycle => Comp rv_op_csrrs (Some rvcc_rdcycle)
  | rv_op_rdtime => Comp rv_op_csrrs (Some rvcc_rdtime)
  | rv_op_rdinstret => Comp rv_op_csrrs (Some rvcc_rdinstret)
  | rv_op_rdcycleh => Comp rv_op_csrrs (Some rvcc_rdcycleh)
  | rv_op_rdtimeh => Comp rv_op_csrrs (Some rvcc_rdtimeh)
  | rv_op_rdinstreth => Comp rv_op_csrrs (Some rvcc_rdinstreth)
  | rv_op_frcsr => Comp rv_op_csrrs (Some rvcc_frcsr)
  | rv_op_frrm => Comp rv_op_csrrs (Some rvcc_frrm)
  | rv_op_frflags => Comp rv_op_csrrs (Some rvcc_frflags)
  | rv_op_fscsr => Comp rv_op_csrrw (Some rvcc_fscsr)
  | rv_op_fsrm => Comp rv_op_csrrw (Some rvcc_fsrm)
  | rv_op_fsflags => Comp rv_op_csrrw (Some rvcc_fsflags)
  | rv_op_fsrmi => Comp rv_op_csrrwi (Some rvcc_fsrmi)
  | rv_op_fsflagsi => Comp rv_op_csrrwi (Some rvcc_fsflagsi)
  | _ => Comp rv_op_illegal None
  end.

(** [rv_inst_comp_rv32]: the compressed forms of an opcode, tried in order. *)
Definition rv_inst_comp_rv32 (op : rv_op) : option (list rv_comp_data) :=
  match op with
  | rv_op_lui => Some rvcd_rv32_lui
  | rv_op_jal => Some rvcd_rv32_jal
  | rv_op_jalr => Some rvcd_rv32_jalr
  | rv_op_beq => Some rvcd_rv32_beq
  | rv_op_bne => Some rvcd_rv32_bne
  | rv_op_lw => Some rvcd_rv32_lw
  | rv_op_sw => Some rvcd_rv32_sw
  | rv_op_addi => Some rvcd_rv32_addi
  | rv_op_andi => Some rvcd_rv32_andi
  | rv_op_slli => Some rvcd_rv32_slli
  | rv_op_srli => Some rvcd_rv32_srli
  | rv_op_srai => Some rvcd_rv32_srai
  | rv_op_add => Some rvcd_rv32_add
  | rv_op_sub => Some rvcd_rv32_sub
  | rv_op_xor => Some rvcd_rv32_xor
  | rv_op_or => Some rvcd_rv32_or
  | rv_op_and => Some rvcd_rv32_and
  | rv_op_ebreak => Some rvcd_rv32_ebreak
  | rv_op_flw => Some rvcd_rv32_flw
  | rv_op_fsw => Some rvcd_rv32_fsw
  | rv_op_fld => Some rvcd_rv32_fld
  | rv_op_fsd => Some rvcd_rv32_fsd
  | _ => None
  end.

(** [rv_inst_comp_rv64]: the compressed forms of an opcode, tried in order. *)
Definition rv_inst_comp_rv64 (op : rv_op) : option (list rv_comp_data) :=
  match op with
  | rv_op_lui => Some rvcd_rv64_lui
  | rv_op_jal => Some rvcd_rv64_jal
  | rv_op_jalr => Some rvcd_rv64_jalr
  | rv_op_beq => Some rvcd_rv64_beq
  | rv_op_bne => Some rvcd_rv64_bne
  | rv_op_lw => Some rvcd_rv64_lw
  | rv_op_sw => Some rvcd_rv64_sw
  | rv_op_addi => Some rvcd_rv64_addi
  | rv_op_andi => Some rvcd_rv64_andi
  | rv_op_slli => Some rvcd_rv64_slli
  | rv_op_srli => Some rvcd_rv64_srli
  | rv_op_srai => Some rvcd_rv64_srai
  | rv_op_add => Some rvcd_rv64_add
  | rv_op_sub => Some rvcd_rv64_sub
  | rv_op_xor => Some rvcd_rv64_xor
  | rv_op_or => Some rvcd_rv64_or
  | rv_op_and => Some rvcd_rv64_and
  | rv_op_ld => Some rvcd_rv64_ld
  | rv_op_sd => Some rvcd_rv64_sd
  | rv_op_addiw => Some rvcd_rv64_addiw
  | rv_op_addw => Some rvcd_rv64_addw
  | rv_op_subw => Some rvcd_rv64_subw
  | rv_op_ebreak => Some rvcd_rv64_ebreak
  | rv_op_fld => Some rvcd_rv64_fld
  | rv_op_fsd => Some rvcd_rv64_fsd
  | _ => None
  end.

(** [rv_inst_comp_rv128]: the compressed forms of an opcode, tried in order. *)
Definition rv_inst_comp_rv128 (op : rv_op) : option (list rv_comp_data) :=
  match op with
  | rv_op_lq => Some rvcd_rv128_lq
  | rv_op_sq => Some rvcd_rv128_sq
  | _ => None
  end.

(** [rv_inst_decomp_rv32]: the opcode a compressed one expands to, or [rv_op_illegal]. *)
Definition rv_inst_decomp_rv32 (op : rv_op) : rv_op :=
  match op with
  | rv_op_c_addi4spn => rv_op_addi
  | rv_op_c_fld => rv_op_fld
  | rv_op_c_lw => rv_op_lw
  | rv_op_c_flw => rv_op_flw
  | rv_op_c_fsd => rv_op_fsd
  | rv_op_c_sw => rv_op_sw
  | rv_op_c_fsw => rv_op_fsw
  | rv_op_c_nop => rv_op_addi
  | rv_op_c_addi => rv_op_addi
  | rv_op_c_jal => rv_op_jal
  | rv_op_c_li => rv_op_addi
  | rv_op_c_addi16sp => rv_op_addi
  | rv_op_c_lui => rv_op_lui
  | rv_op_c_srli => rv_op_srli
  | rv_op_c_srai => rv_op_srai
  | rv_op_c_andi => rv_op_andi
  | rv_op_c_sub => rv_op_sub
  | rv_op_c_xor => rv_op_xor
  | rv_op_c_or => rv_op_or
  | rv_op_c_and => rv_op_and
  | rv_op_c_subw => rv_op_subw
  | rv_op_c_addw => rv_op_addw
  | rv_op_c_j => rv_op_jal
  | rv_op_c_beqz => rv_op_beq
  | rv_op_c_bnez => rv_op_bne
  | rv_op_c_slli => rv_op_slli
  | rv_op_c_fldsp => rv_op_fld
  | rv_op_c_lwsp => rv_op_lw
  | rv_op_c_flwsp => rv_op_flw
  | rv_op_c_jr => rv_op_jalr
  | rv_op_c_mv => rv_op_addi
  | rv_op_c_ebreak => rv_op_ebreak
  | rv_op_c_jalr => rv_op_jalr
  | rv_op_c_add => rv_op_add
  | rv_op_c_fsdsp => rv_op_fsd
  | rv_op_c_swsp => rv_op_sw
  | rv_op_c_fswsp => rv_op_fsw
  | _ => rv_op_illegal
  end.

(** [rv_inst_decomp_rv64]: the opcode a compressed one expands to, or [rv_op_illegal]. *)
Definition rv_inst_decomp_rv64 (op : rv_op) : rv_op :=
  match op with
  | rv_op_c_addi4spn => rv_op_addi
  | rv_op_c_fld => rv_op_fld
  | rv_op_c_lw => rv_op_lw
  | rv_op_c_fsd => rv_op_fsd
  | rv_op_c_sw => rv_op_sw
  | rv_op_c_nop => rv_op_addi
  | rv_op_c_addi => rv_op_addi
  | rv_op_c_li => rv_op_addi
  | rv_op_c_addi16sp => rv_op_addi
  | rv_op_c_lui => rv_op_lui
  | rv_op_c_srli => rv_op_srli
  | rv_op_c_srai => rv_op_srai
  | rv_op_c_andi => rv_op_andi
  | rv_op_c_sub => rv_op_sub
  | rv_op_c_xor => rv_op_xor
  | rv_op_c_or => rv_op_or
  | rv_op_c_and => rv_op_and
  | rv_op_c_subw => rv_op_subw
  | rv_op_c_addw => rv_op_addw
  | rv_op_c_j => rv_op_jal
  | rv_op_c_beqz => rv_op_beq
  | rv_op_c_bnez => rv_op_bne
  | rv_op_c_slli => rv_op_slli
  | rv_op_c_fldsp => rv_op_fld
  | rv_op_c_lwsp => rv_op_lw
  | rv_op_c_jr => rv_op_jalr
  | rv_op_c_mv => rv_op_addi
  | rv_op_c_ebreak => rv_op_ebreak
  | rv_op_c_jalr => rv_op_jalr
  | rv_op_c_add => rv_op_add
  | rv_op_c_fsdsp => rv_op_fsd
  | rv_op_c_swsp => rv_op_sw
  | rv_op_c_ld => rv_op_ld
  | rv_op_c_sd => rv_op_sd
  | rv_op_c_addiw => rv_op_addiw
  | rv_op_c_ldsp => rv_op_ld
  | rv_op_c_sdsp => rv_op_sd
  | _ => rv_op_illegal
  end.

(** [rv_inst_decomp_rv128]: the opcode a compressed one expands to, or [rv_op_illegal]. *)
Definition rv_inst_decomp_rv128 (op : rv_op) : rv_op :=
  match op with
  | rv_op_c_lq => rv_op_lq
  | rv_op_c_sq => rv_op_sq
  | rv_op_c_lqsp => rv_op_lq
  | rv_op_c_sqsp => rv_op_sq
  | _ => rv_op_illegal
  end.
