(* ===== verification/Codec.v ===== *)
(** * Instruction decoding and encoding: [asm/codec.h], [asm/decode.h],
    [asm/encode.h] and the type switches of [asm/switch.h]

    One decoder and one encoder per codec, as the source writes them.  A decoder
    updates the decoded-instruction record and leaves the other fields; an
    encoder returns the operand bits, or [None] where an assertion fails (the
    build keeps assertions). *)

From Stdlib Require Import ZArith Lia Bool.
From stdpp Require Import base list.
From S2P Require Import Prelude Operand Meta.

#[local] Open Scope Z_scope.
#[local] Open Scope word_scope.

(** ** The decoded instruction *)

Record decode : Type := mkDecode {
  imm : Z; rd : Z; rs1 : Z; rs2 : Z; rs3 : Z;
  op : rv_op; codec : rv_codec;
  rm : Z; aq : Z; rl : Z; pred : Z; succ : Z }.

(** The constructor [decode()]. *)
Definition decode_init : decode :=
  mkDecode 0 0 0 0 0 rv_op_illegal rv_codec_illegal 0 0 0 0 0.

(** Assignments convert to the width of the field. *)
Definition set_imm (x : Z) (d : decode) : decode :=
  mkDecode (swrap 32 x) (rd d) (rs1 d) (rs2 d) (rs3 d) (op d) (codec d) (rm d) (aq d) (rl d) (pred d) (succ d).
Definition set_rd (x : Z) (d : decode) : decode :=
  mkDecode (imm d) (uwrap 8 x) (rs1 d) (rs2 d) (rs3 d) (op d) (codec d) (rm d) (aq d) (rl d) (pred d) (succ d).
Definition set_rs1 (x : Z) (d : decode) : decode :=
  mkDecode (imm d) (rd d) (uwrap 8 x) (rs2 d) (rs3 d) (op d) (codec d) (rm d) (aq d) (rl d) (pred d) (succ d).
Definition set_rs2 (x : Z) (d : decode) : decode :=
  mkDecode (imm d) (rd d) (rs1 d) (uwrap 8 x) (rs3 d) (op d) (codec d) (rm d) (aq d) (rl d) (pred d) (succ d).
Definition set_rs3 (x : Z) (d : decode) : decode :=
  mkDecode (imm d) (rd d) (rs1 d) (rs2 d) (uwrap 8 x) (op d) (codec d) (rm d) (aq d) (rl d) (pred d) (succ d).
Definition set_op (o : rv_op) (d : decode) : decode :=
  mkDecode (imm d) (rd d) (rs1 d) (rs2 d) (rs3 d) o (codec d) (rm d) (aq d) (rl d) (pred d) (succ d).
Definition set_codec (c : rv_codec) (d : decode) : decode :=
  mkDecode (imm d) (rd d) (rs1 d) (rs2 d) (rs3 d) (op d) c (rm d) (aq d) (rl d) (pred d) (succ d).
Definition set_rm (x : Z) (d : decode) : decode :=
  mkDecode (imm d) (rd d) (rs1 d) (rs2 d) (rs3 d) (op d) (codec d) (uwrap 3 x) (aq d) (rl d) (pred d) (succ d).
Definition set_aq (x : Z) (d : decode) : decode :=
  mkDecode (imm d) (rd d) (rs1 d) (rs2 d) (rs3 d) (op d) (codec d) (rm d) (uwrap 1 x) (rl d) (pred d) (succ d).
Definition set_rl (x : Z) (d : decode) : decode :=
  mkDecode (imm d) (rd d) (rs1 d) (rs2 d) (rs3 d) (op d) (codec d) (rm d) (aq d) (uwrap 1 x) (pred d) (succ d).
Definition set_pred (x : Z) (d : decode) : decode :=
  mkDecode (imm d) (rd d) (rs1 d) (rs2 d) (rs3 d) (op d) (codec d) (rm d) (aq d) (rl d) (uwrap 4 x) (succ d).
Definition set_succ (x : Z) (d : decode) : decode :=
  mkDecode (imm d) (rd d) (rs1 d) (rs2 d) (rs3 d) (op d) (codec d) (rm d) (aq d) (rl d) (pred d) (uwrap 4 x).

(** [d ~> s1 ~> s2]: assignments in order. *)
#[local] Notation "d '~>' s" := (s d) (at level 68, left associativity, only parsing).
#[local] Notation "o '!' i" := (op_decode o i) (at level 30, only parsing).

Definition rv_ireg_zero : Z := 0.
Definition rv_ireg_ra : Z := 1.
Definition rv_ireg_sp : Z := 2.

(** [assert(b)]. *)
Definition assert_ {A} (b : bool) (k : option A) : option A := if b then k else None.

(** ** Instruction length *)

Definition inst_length (inst : Z) : Z :=
  if negb ((inst .& 0x3) =? 0x3) then 2
  else if negb ((inst .& 0x1c) =? 0x1c) then 4
  else if (inst .& 0x3f) =? 0x1f then 6
  else if (inst .& 0x7f) =? 0x3f then 8
  else 0.

(** [inst_fetch]: reads little-endian words through [read16] and [read32],
    each given a byte address. *)
Definition inst_fetch (read16 read32 : Z -> Z) (addr : Z) : Z * Z :=
  let inst := uwrap 32 (read32 addr) in
  if negb ((inst .& 0x3) =? 0x3) then (inst .& 0xffff, 2)
  else if negb ((inst .& 0x1c) =? 0x1c) then (inst, 4)
  else if (inst .& 0x3f) =? 0x1f then
    (inst .| (uwrap 16 (read16 (addr + 4)) <<[64] 32), 6)
  else if (inst .& 0x7f) =? 0x3f then
    (inst .| (uwrap 32 (read32 (addr + 4)) <<[64] 32), 8)
  else (0, 0).

(** ** Decoders *)

Definition decode_none (dec : decode) (inst : Z) : decode :=
  dec ~> set_rs2 rv_ireg_zero ~> set_rs1 rv_ireg_zero ~> set_rd rv_ireg_zero ~> set_imm 0.

Definition decode_ci_none (dec : decode) (inst : Z) : decode :=
  dec ~> set_rs2 rv_ireg_zero ~> set_rs1 rv_ireg_zero ~> set_rd rv_ireg_zero ~> set_imm 0.

Definition decode_cr (dec : decode) (inst : Z) : decode :=
  dec ~> set_rs1 (operand_crs1rd ! inst) ~> set_rd (operand_crs1rd ! inst)
      ~> set_rs2 (operand_crs2 ! inst) ~> set_imm 0.

Definition decode_cr_mv (dec : decode) (inst : Z) : decode :=
  dec ~> set_rd (operand_crd ! inst) ~> set_rs1 (operand_crs2 ! inst) ~> set_rs2 rv_ireg_zero
      ~> set_imm 0.

Definition decode_cr_jalr (dec : decode) (inst : Z) : decode :=
  dec ~> set_rd rv_ireg_ra ~> set_rs1 (operand_crs1 ! inst) ~> set_rs2 rv_ireg_zero ~> set_imm 0.

Definition decode_cr_jr (dec : decode) (inst : Z) : decode :=
  dec ~> set_rd rv_ireg_zero ~> set_rs1 (operand_crs1 ! inst) ~> set_rs2 rv_ireg_zero
      ~> set_imm 0.

Definition decode_ci (dec : decode) (inst : Z) : decode :=
  dec ~> set_rs1 (operand_crs1rd ! inst) ~> set_rd (operand_crs1rd ! inst)
      ~> set_rs2 rv_ireg_zero ~> set_imm (operand_cimmi ! inst).

Definition decode_ci_sh5 (dec : decode) (inst : Z) : decode :=
  dec ~> set_rs1 (operand_crs1rd ! inst) ~> set_rd (operand_crs1rd ! inst)
      ~> set_rs2 rv_ireg_zero ~> set_imm (operand_cimmsh5 ! inst).

Definition decode_ci_sh6 (dec : decode) (inst : Z) : decode :=
  dec ~> set_rs1 (operand_crs1rd ! inst) ~> set_rd (operand_crs1rd ! inst)
      ~> set_rs2 rv_ireg_zero ~> set_imm (operand_cimmsh6 ! inst).

Definition decode_ci_li (dec : decode) (inst : Z) : decode :=
  dec ~> set_rd (operand_crd ! inst) ~> set_rs1 rv_ireg_zero ~> set_rs2 rv_ireg_zero
      ~> set_imm (operand_cimmi ! inst).

Definition decode_ci_lui (dec : decode) (inst : Z) : decode :=
  dec ~> set_rd (operand_crd ! inst) ~> set_rs1 rv_ireg_zero ~> set_rs2 rv_ireg_zero
      ~> set_imm (operand_cimmui ! inst).

Definition decode_ci_lwsp (dec : decode) (inst : Z) : decode :=
  dec ~> set_rd (operand_crd ! inst) ~> set_rs1 rv_ireg_sp ~> set_rs2 rv_ireg_zero
      ~> set_imm (operand_cimmlwsp ! inst).

Definition decode_ci_ldsp (dec : decode) (inst : Z) : decode :=
  dec ~> set_rd (operand_crd ! inst) ~> set_rs1 rv_ireg_sp ~> set_rs2 rv_ireg_zero
      ~> set_imm (operand_cimmldsp ! inst).

Definition decode_ci_lqsp (dec : decode) (inst : Z) : decode :=
  dec ~> set_rd (operand_crd ! inst) ~> set_rs1 rv_ireg_sp ~> set_rs2 rv_ireg_zero
      ~> set_imm (operand_cimmlqsp ! inst).

Definition decode_ci_16sp (dec : decode) (inst : Z) : decode :=
  dec ~> set_rd rv_ireg_sp ~> set_rs1 rv_ireg_sp ~> set_rs2 rv_ireg_zero
      ~> set_imm (operand_cimm16sp ! inst).

Definition decode_css_swsp (dec : decode) (inst : Z) : decode :=
  dec ~> set_rd rv_ireg_zero ~> set_rs1 rv_ireg_sp ~> set_rs2 (operand_crs2 ! inst)
      ~> set_imm (operand_cimmswsp ! inst).

Definition decode_css_sdsp (dec : decode) (inst : Z) : decode :=
  dec ~> set_rd rv_ireg_zero ~> set_rs1 rv_ireg_sp ~> set_rs2 (operand_crs2 ! inst)
      ~> set_imm (operand_cimmsdsp ! inst).

Definition decode_css_sqsp (dec : decode) (inst : Z) : decode :=
  dec ~> set_rd rv_ireg_zero ~> set_rs1 rv_ireg_sp ~> set_rs2 (operand_crs2 ! inst)
      ~> set_imm (operand_cimmsqsp ! inst).

Definition decode_ciw_4spn (dec : decode) (inst : Z) : decode :=
  dec ~> set_rd (operand_crdq ! inst + 8) ~> set_rs1 rv_ireg_sp ~> set_rs2 rv_ireg_zero
      ~> set_imm (operand_cimm4spn ! inst).

Definition decode_cl_lw (dec : decode) (inst : Z) : decode :=
  dec ~> set_rd (operand_crdq ! inst + 8) ~> set_rs1 (operand_crs1q ! inst + 8)
      ~> set_rs2 rv_ireg_zero ~> set_imm (operand_cimmw ! inst).

Definition decode_cl_ld (dec : decode) (inst : Z) : decode :=
  dec ~> set_rd (operand_crdq ! inst + 8) ~> set_rs1 (operand_crs1q ! inst + 8)
      ~> set_rs2 rv_ireg_zero ~> set_imm (operand_cimmd ! inst).

Definition decode_cl_lq (dec : decode) (inst : Z) : decode :=
  dec ~> set_rd (operand_crdq ! inst + 8) ~> set_rs1 (operand_crs1q ! inst + 8)
      ~> set_rs2 rv_ireg_zero ~> set_imm (operand_cimmq ! inst).

Definition decode_cs (dec : decode) (inst : Z) : decode :=
  dec ~> set_rs1 (operand_crs1rdq ! inst + 8) ~> set_rd (operand_crs1rdq ! inst + 8)
      ~> set_rs2 (operand_crs2q ! inst + 8) ~> set_imm 0.

Definition decode_cs_sw (dec : decode) (inst : Z) : decode :=
  dec ~> set_rd rv_ireg_zero ~> set_rs1 (operand_crs1q ! inst + 8)
      ~> set_rs2 (operand_crs2q ! inst + 8) ~> set_imm (operand_cimmw ! inst).

Definition decode_cs_sd (dec : decode) (inst : Z) : decode :=
  dec ~> set_rd rv_ireg_zero ~> set_rs1 (operand_crs1q ! inst + 8)
      ~> set_rs2 (operand_crs2q ! inst + 8) ~> set_imm (operand_cimmd ! inst).

Definition decode_cs_sq (dec : decode) (inst : Z) : decode :=
  dec ~> set_rd rv_ireg_zero ~> set_rs1 (operand_crs1q ! inst + 8)
      ~> set_rs2 (operand_crs2q ! inst + 8) ~> set_imm (operand_cimmq ! inst).

Definition decode_cb (dec : decode) (inst : Z) : decode :=
  dec ~> set_rd rv_ireg_zero ~> set_rs1 (operand_crs1q ! inst + 8) ~> set_rs2 rv_ireg_zero
      ~> set_imm (operand_cimmb ! inst).

Definition decode_cb_imm (dec : decode) (inst : Z) : decode :=
  dec ~> set_rs1 (operand_crs1rdq ! inst + 8) ~> set_rd (operand_crs1rdq ! inst + 8)
      ~> set_rs2 rv_ireg_zero ~> set_imm (operand_cimmi ! inst).

Definition decode_cb_sh5 (dec : decode) (inst : Z) : decode :=
  dec ~> set_rs1 (operand_crs1rdq ! inst + 8) ~> set_rd (operand_crs1rdq ! inst + 8)
      ~> set_rs2 rv_ireg_zero ~> set_imm (operand_cimmsh5 ! inst).

Definition decode_cb_sh6 (dec : decode) (inst : Z) : decode :=
  dec ~> set_rs1 (operand_crs1rdq ! inst + 8) ~> set_rd (operand_crs1rdq ! inst + 8)
      ~> set_rs2 rv_ireg_zero ~> set_imm (operand_cimmsh6 ! inst).

Definition decode_cj (dec : decode) (inst : Z) : decode :=
  dec ~> set_rs2 rv_ireg_zero ~> set_rs1 rv_ireg_zero ~> set_rd rv_ireg_zero
      ~> set_imm (operand_cimmj ! inst).

Definition decode_cj_jal (dec : decode) (inst : Z) : decode :=
  dec ~> set_rd rv_ireg_ra ~> set_rs2 rv_ireg_zero ~> set_rs1 rv_ireg_zero
      ~> set_imm (operand_cimmj ! inst).

Definition decode_r (dec : decode) (inst : Z) : decode :=
  dec ~> set_rd (operand_rd ! inst) ~> set_rs1 (operand_rs1 ! inst)
      ~> set_rs2 (operand_rs2 ! inst) ~> set_imm 0.

Definition decode_r_m (dec : decode) (inst : Z) : decode :=
  dec ~> set_rd (operand_rd ! inst) ~> set_rs1 (operand_rs1 ! inst)
      ~> set_rs2 (operand_rs2 ! inst) ~> set_imm 0 ~> set_rm (operand_rm ! inst).

Definition decode_r_l (dec : decode) (inst : Z) : decode :=
  dec ~> set_rd (operand_rd ! inst) ~> set_rs1 (operand_rs1 ! inst) ~> set_rs2 rv_ireg_zero
      ~> set_imm 0 ~> set_aq (operand_aq ! inst) ~> set_rl (operand_rl ! inst).

Definition decode_r_a (dec : decode) (inst : Z) : decode :=
  dec ~> set_rd (operand_rd ! inst) ~> set_rs1 (operand_rs1 ! inst)
      ~> set_rs2 (operand_rs2 ! inst) ~> set_imm 0 ~> set_aq (operand_aq ! inst)
      ~> set_rl (operand_rl ! inst).

Definition decode_r4_m (dec : decode) (inst : Z) : decode :=
  dec ~> set_rd (operand_rd ! inst) ~> set_rs1 (operand_rs1 ! inst)
      ~> set_rs2 (operand_rs2 ! inst) ~> set_rs3 (operand_rs3 ! inst) ~> set_imm 0
      ~> set_rm (operand_rm ! inst).

Definition decode_r_f (dec : decode) (inst : Z) : decode :=
  dec ~> set_rs2 rv_ireg_zero ~> set_rs1 rv_ireg_zero ~> set_rd rv_ireg_zero
      ~> set_pred (operand_pred ! inst) ~> set_succ (operand_succ ! inst) ~> set_imm 0.

Definition decode_i (dec : decode) (inst : Z) : decode :=
  dec ~> set_rd (operand_rd ! inst) ~> set_rs1 (operand_rs1 ! inst) ~> set_rs2 rv_ireg_zero
      ~> set_imm (operand_imm12 ! inst).

Definition decode_i_csr (dec : decode) (inst : Z) : decode :=
  dec ~> set_rd (operand_rd ! inst) ~> set_rs1 (operand_rs1 ! inst) ~> set_rs2 rv_ireg_zero
      ~> set_imm (operand_csr12 ! inst).

Definition decode_i_sh5 (dec : decode) (inst : Z) : decode :=
  dec ~> set_rd (operand_rd ! inst) ~> set_rs1 (operand_rs1 ! inst) ~> set_rs2 rv_ireg_zero
      ~> set_imm (operand_shamt5 ! inst).

Definition decode_i_sh6 (dec : decode) (inst : Z) : decode :=
  dec ~> set_rd (operand_rd ! inst) ~> set_rs1 (operand_rs1 ! inst) ~> set_rs2 rv_ireg_zero
      ~> set_imm (operand_shamt6 ! inst).

Definition decode_i_sh7 (dec : decode) (inst : Z) : decode :=
  dec ~> set_rd (operand_rd ! inst) ~> set_rs1 (operand_rs1 ! inst) ~> set_rs2 rv_ireg_zero
      ~> set_imm (operand_shamt7 ! inst).

Definition decode_s (dec : decode) (inst : Z) : decode :=
  dec ~> set_rd rv_ireg_zero ~> set_rs1 (operand_rs1 ! inst) ~> set_rs2 (operand_rs2 ! inst)
      ~> set_imm (operand_simm12 ! inst).

Definition decode_sb (dec : decode) (inst : Z) : decode :=
  dec ~> set_rd rv_ireg_zero ~> set_rs1 (operand_rs1 ! inst) ~> set_rs2 (operand_rs2 ! inst)
      ~> set_imm (operand_sbimm12 ! inst).

Definition decode_u (dec : decode) (inst : Z) : decode :=
  dec ~> set_rd (operand_rd ! inst) ~> set_rs2 rv_ireg_zero ~> set_rs1 rv_ireg_zero
      ~> set_imm (operand_imm20 ! inst).

Definition decode_uj (dec : decode) (inst : Z) : decode :=
  dec ~> set_rd (operand_rd ! inst) ~> set_rs2 rv_ireg_zero ~> set_rs1 rv_ireg_zero
      ~> set_imm (operand_jimm20 ! inst).

(** ** Encoders *)

Definition encode_none (dec : decode) : option Z :=
  Some (0).

Definition encode_ci_none (dec : decode) : option Z :=
  assert_ (rd dec =? rv_ireg_zero) (
  assert_ (rs1 dec =? rv_ireg_zero) (
  assert_ (rs2 dec =? rv_ireg_zero) (
  Some (0)))).

Definition encode_cr (dec : decode) : option Z :=
  assert_ (rd dec =? rs1 dec) (
  Some (op_encode operand_crs1rd (rd dec) .| op_encode operand_crs2 (rs2 dec))).

Definition encode_cr_mv (dec : decode) : option Z :=
  assert_ (imm dec =? 0) (
  Some (op_encode operand_crd (rd dec) .| op_encode operand_crs2 (rs1 dec))).

Definition encode_cr_jalr (dec : decode) : option Z :=
  assert_ (rd dec =? rv_ireg_ra) (
  Some (op_encode operand_crs1 (rs1 dec))).

Definition encode_cr_jr (dec : decode) : option Z :=
  assert_ (rd dec =? rv_ireg_zero) (
  Some (op_encode operand_crs1 (rs1 dec))).

Definition encode_ci (dec : decode) : option Z :=
  assert_ (rd dec =? rs1 dec) (
  Some (op_encode operand_crs1rd (rs1 dec) .| op_encode operand_cimmi (imm dec))).

Definition encode_ci_sh5 (dec : decode) : option Z :=
  assert_ (rd dec =? rs1 dec) (
  Some (op_encode operand_crs1rd (rs1 dec) .| op_encode operand_cimmsh5 (imm dec))).

Definition encode_ci_sh6 (dec : decode) : option Z :=
  assert_ (rd dec =? rs1 dec) (
  Some (op_encode operand_crs1rd (rs1 dec) .| op_encode operand_cimmsh6 (imm dec))).

Definition encode_ci_li (dec : decode) : option Z :=
  assert_ (rs1 dec =? rv_ireg_zero) (
  Some (op_encode operand_crd (rd dec) .| op_encode operand_cimmi (imm dec))).

Definition encode_ci_lui (dec : decode) : option Z :=
  assert_ (rs1 dec =? rv_ireg_zero) (
  Some (op_encode operand_crd (rd dec) .| op_encode operand_cimmui (imm dec))).

Definition encode_ci_lwsp (dec : decode) : option Z :=
  assert_ (rs1 dec =? rv_ireg_sp) (
  Some (op_encode operand_crd (rd dec) .| op_encode operand_cimmlwsp (imm dec))).

Definition encode_ci_ldsp (dec : decode) : option Z :=
  assert_ (rs1 dec =? rv_ireg_sp) (
  Some (op_encode operand_crd (rd dec) .| op_encode operand_cimmldsp (imm dec))).

Definition encode_ci_lqsp (dec : decode) : option Z :=
  assert_ (rs1 dec =? rv_ireg_sp) (
  Some (op_encode operand_crd (rd dec) .| op_encode operand_cimmlqsp (imm dec))).

Definition encode_ci_16sp (dec : decode) : option Z :=
  assert_ (rd dec =? rv_ireg_sp) (
  assert_ (rs1 dec =? rv_ireg_sp) (
  Some (op_encode operand_cimm16sp (imm dec)))).

Definition encode_css_swsp (dec : decode) : option Z :=
  assert_ (rs1 dec =? rv_ireg_sp) (
  Some (op_encode operand_crs2 (rs2 dec) .| op_encode operand_cimmswsp (imm dec))).

Definition encode_css_sdsp (dec : decode) : option Z :=
  assert_ (rs1 dec =? rv_ireg_sp) (
  Some (op_encode operand_crs2 (rs2 dec) .| op_encode operand_cimmsdsp (imm dec))).

Definition encode_css_sqsp (dec : decode) : option Z :=
  assert_ (rs1 dec =? rv_ireg_sp) (
  Some (op_encode operand_crs2 (rs2 dec) .| op_encode operand_cimmsqsp (imm dec))).

Definition encode_ciw_4spn (dec : decode) : option Z :=
  assert_ (rs1 dec =? rv_ireg_sp) (
  Some (op_encode operand_crdq (rd dec + 8) .| op_encode operand_cimm4spn (imm dec))).

Definition encode_cl_lw (dec : decode) : option Z :=
  Some (op_encode operand_crdq (rd dec + 8) .| op_encode operand_crs1q (rs1 dec + 8) .| op_encode operand_cimmw (imm dec)).

Definition encode_cl_ld (dec : decode) : option Z :=
  Some (op_encode operand_crdq (rd dec + 8) .| op_encode operand_crs1q (rs1 dec + 8) .| op_encode operand_cimmd (imm dec)).

Definition encode_cl_lq (dec : decode) : option Z :=
  Some (op_encode operand_crdq (rd dec + 8) .| op_encode operand_crs1q (rs1 dec + 8) .| op_encode operand_cimmq (imm dec)).

Definition encode_cs (dec : decode) : option Z :=
  assert_ (rd dec =? rs1 dec) (
  Some (op_encode operand_crdq (rd dec + 8) .| op_encode operand_crs1q (rs1 dec + 8))).

Definition encode_cs_sw (dec : decode) : option Z :=
  Some (op_encode operand_crs1q (rs1 dec + 8) .| op_encode operand_crs2q (rs2 dec + 8) .| op_encode operand_cimmw (imm dec)).

Definition encode_cs_sd (dec : decode) : option Z :=
  Some (op_encode operand_crs1q (rs1 dec + 8) .| op_encode operand_crs2q (rs2 dec + 8) .| op_encode operand_cimmd (imm dec)).

Definition encode_cs_sq (dec : decode) : option Z :=
  Some (op_encode operand_crs1q (rs1 dec + 8) .| op_encode operand_crs2q (rs2 dec + 8) .| op_encode operand_cimmq (imm dec)).

Definition encode_cb (dec : decode) : option Z :=
  Some (op_encode operand_crs1q (rs1 dec + 8) .| op_encode operand_cimmb (imm dec)).

Definition encode_cb_imm (dec : decode) : option Z :=
  assert_ (rd dec =? rs1 dec) (
  Some (op_encode operand_crs1rdq (rs1 dec + 8) .| op_encode operand_cimmi (imm dec))).

Definition encode_cb_sh5 (dec : decode) : option Z :=
  assert_ (rd dec =? rs1 dec) (
  Some (op_encode operand_crs1rdq (rs1 dec + 8) .| op_encode operand_cimmsh5 (imm dec))).

Definition encode_cb_sh6 (dec : decode) : option Z :=
  assert_ (rd dec =? rs1 dec) (
  Some (op_encode operand_crs1rdq (rs1 dec + 8) .| op_encode operand_cimmsh6 (imm dec))).

Definition encode_cj (dec : decode) : option Z :=
  Some (op_encode operand_cimmj (imm dec)).

Definition encode_cj_jal (dec : decode) : option Z :=
  Some (op_encode operand_cimmj (imm dec)).

Definition encode_r (dec : decode) : option Z :=
  Some (op_encode operand_rd (rd dec) .| op_encode operand_rs1 (rs1 dec)
        .| op_encode operand_rs2 (rs2 dec)).

Definition encode_r_m (dec : decode) : option Z :=
  Some (op_encode operand_rd (rd dec) .| op_encode operand_rs1 (rs1 dec)
        .| op_encode operand_rs2 (rs2 dec) .| op_encode operand_rm (rm dec)).

Definition encode_r_l (dec : decode) : option Z :=
  assert_ (rs2 dec =? 0) (
  Some (op_encode operand_rd (rd dec) .| op_encode operand_rs1 (rs1 dec) .| op_encode operand_aq (aq dec) .| op_encode operand_rl (rl dec))).

Definition encode_r_a (dec : decode) : option Z :=
  Some (op_encode operand_rd (rd dec) .| op_encode operand_rs1 (rs1 dec)
        .| op_encode operand_rs2 (rs2 dec) .| op_encode operand_aq (aq dec) .| op_encode operand_rl (rl dec)).

Definition encode_r4_m (dec : decode) : option Z :=
  Some (op_encode operand_rd (rd dec) .| op_encode operand_rs1 (rs1 dec)
        .| op_encode operand_rs2 (rs2 dec) .| op_encode operand_rs3 (rs3 dec) .| op_encode operand_rm (rm dec)).

Definition encode_r_f (dec : decode) : option Z :=
  Some (op_encode operand_pred (pred dec) .| op_encode operand_succ (succ dec)).

Definition encode_i (dec : decode) : option Z :=
  Some (op_encode operand_rd (rd dec) .| op_encode operand_rs1 (rs1 dec) .| op_encode operand_imm12 (imm dec)).

Definition encode_i_csr (dec : decode) : option Z :=
  Some (op_encode operand_rd (rd dec) .| op_encode operand_rs1 (rs1 dec) .| op_encode operand_csr12 (imm dec)).

Definition encode_i_sh5 (dec : decode) : option Z :=
  Some (op_encode operand_rd (rd dec) .| op_encode operand_rs1 (rs1 dec) .| op_encode operand_shamt5 (imm dec)).

Definition encode_i_sh6 (dec : decode) : option Z :=
  Some (op_encode operand_rd (rd dec) .| op_encode operand_rs1 (rs1 dec) .| op_encode operand_shamt6 (imm dec)).

Definition encode_i_sh7 (dec : decode) : option Z :=
  Some (op_encode operand_rd (rd dec) .| op_encode operand_rs1 (rs1 dec) .| op_encode operand_shamt7 (imm dec)).

Definition encode_s (dec : decode) : option Z :=
  Some (op_encode operand_rs1 (rs1 dec)
        .| op_encode operand_rs2 (rs2 dec) .| op_encode operand_simm12 (imm dec)).

Definition encode_sb (dec : decode) : option Z :=
  Some (op_encode operand_rs1 (rs1 dec)
        .| op_encode operand_rs2 (rs2 dec) .| op_encode operand_sbimm12 (imm dec)).

Definition encode_u (dec : decode) : option Z :=
  Some (op_encode operand_rd (rd dec) .| op_encode operand_imm20 (imm dec)).

Definition encode_uj (dec : decode) : option Z :=
  Some (op_encode operand_rd (rd dec) .| op_encode operand_jimm20 (imm dec)).

Create HintDb encoders.
#[export] Hint Unfold encode_none encode_ci_none encode_cr encode_cr_mv encode_cr_jalr encode_cr_jr encode_ci
  encode_ci_sh5 encode_ci_sh6 encode_ci_li encode_ci_lui encode_ci_lwsp encode_ci_ldsp
  encode_ci_lqsp encode_ci_16sp encode_css_swsp encode_css_sdsp encode_css_sqsp
  encode_ciw_4spn encode_cl_lw encode_cl_ld encode_cl_lq encode_cs encode_cs_sw encode_cs_sd
  encode_cs_sq encode_cb encode_cb_imm encode_cb_sh5 encode_cb_sh6 encode_cj encode_cj_jal
  encode_r encode_r_m encode_r_l encode_r_a encode_r4_m encode_r_f encode_i encode_i_csr
  encode_i_sh5 encode_i_sh6 encode_i_sh7 encode_s encode_sb encode_u encode_uj : encoders.

(** ** Type switches *)

Definition decode_inst_type (dec : decode) (inst : Z) : decode :=
  let dec := set_codec (rv_inst_codec (op dec)) dec in
  match codec dec with
  | rv_codec_none => decode_none dec inst
  | rv_codec_u => decode_u dec inst
  | rv_codec_uj => decode_uj dec inst
  | rv_codec_i => decode_i dec inst
  | rv_codec_i_sh5 => decode_i_sh5 dec inst
  | rv_codec_i_sh6 => decode_i_sh6 dec inst
  | rv_codec_i_sh7 => decode_i_sh7 dec inst
  | rv_codec_i_csr => decode_i_csr dec inst
  | rv_codec_s => decode_s dec inst
  | rv_codec_sb => decode_sb dec inst
  | rv_codec_r => decode_r dec inst
  | rv_codec_r_m => decode_r_m dec inst
  | rv_codec_r4_m => decode_r4_m dec inst
  | rv_codec_r_a => decode_r_a dec inst
  | rv_codec_r_l => decode_r_l dec inst
  | rv_codec_r_f => decode_r_f dec inst
  | rv_codec_cb => decode_cb dec inst
  | rv_codec_cb_imm => decode_cb_imm dec inst
  | rv_codec_cb_sh5 => decode_cb_sh5 dec inst
  | rv_codec_cb_sh6 => decode_cb_sh6 dec inst
  | rv_codec_ci => decode_ci dec inst
  | rv_codec_ci_sh5 => decode_ci_sh5 dec inst
  | rv_codec_ci_sh6 => decode_ci_sh6 dec inst
  | rv_codec_ci_16sp => decode_ci_16sp dec inst
  | rv_codec_ci_lwsp => decode_ci_lwsp dec inst
  | rv_codec_ci_ldsp => decode_ci_ldsp dec inst
  | rv_codec_ci_lqsp => decode_ci_lqsp dec inst
  | rv_codec_ci_li => decode_ci_li dec inst
  | rv_codec_ci_lui => decode_ci_lui dec inst
  | rv_codec_ci_none => decode_ci_none dec inst
  | rv_codec_ciw_4spn => decode_ciw_4spn dec inst
  | rv_codec_cj => decode_cj dec inst
  | rv_codec_cj_jal => decode_cj_jal dec inst
  | rv_codec_cl_lw => decode_cl_lw dec inst
  | rv_codec_cl_ld => decode_cl_ld dec inst
  | rv_codec_cl_lq => decode_cl_lq dec inst
  | rv_codec_cr => decode_cr dec inst
  | rv_codec_cr_mv => decode_cr_mv dec inst
  | rv_codec_cr_jalr => decode_cr_jalr dec inst
  | rv_codec_cr_jr => decode_cr_jr dec inst
  | rv_codec_cs => decode_cs dec inst
  | rv_codec_cs_sw => decode_cs_sw dec inst
  | rv_codec_cs_sd => decode_cs_sd dec inst
  | rv_codec_cs_sq => decode_cs_sq dec inst
  | rv_codec_css_swsp => decode_css_swsp dec inst
  | rv_codec_css_sdsp => decode_css_sdsp dec inst
  | rv_codec_css_sqsp => decode_css_sqsp dec inst
  | rv_codec_illegal => dec
  end.

(** The encoded word and the record with its codec field refreshed. *)
Definition encode_inst (dec : decode) : option (decode * Z) :=
  let dec := set_codec (rv_inst_codec (op dec)) dec in
  let inst := rv_inst_match (op dec) in
  let ret (r : option Z) := option_map (fun bits => (dec, inst .| bits)) r in
  match codec dec with
  | rv_codec_none => ret (encode_none dec)
  | rv_codec_u => ret (encode_u dec)
  | rv_codec_uj => ret (encode_uj dec)
  | rv_codec_i => ret (encode_i dec)
  | rv_codec_i_sh5 => ret (encode_i_sh5 dec)
  | rv_codec_i_sh6 => ret (encode_i_sh6 dec)
  | rv_codec_i_sh7 => ret (encode_i_sh7 dec)
  | rv_codec_i_csr => ret (encode_i_csr dec)
  | rv_codec_s => ret (encode_s dec)
  | rv_codec_sb => ret (encode_sb dec)
  | rv_codec_r => ret (encode_r dec)
  | rv_codec_r_m => ret (encode_r_m dec)
  | rv_codec_r4_m => ret (encode_r4_m dec)
  | rv_codec_r_a => ret (encode_r_a dec)
  | rv_codec_r_l => ret (encode_r_l dec)
  | rv_codec_r_f => ret (encode_r_f dec)
  | rv_codec_cb => ret (encode_cb dec)
  | rv_codec_cb_imm => ret (encode_cb_imm dec)
  | rv_codec_cb_sh5 => ret (encode_cb_sh5 dec)
  | rv_codec_cb_sh6 => ret (encode_cb_sh6 dec)
  | rv_codec_ci => ret (encode_ci dec)
  | rv_codec_ci_sh5 => ret (encode_ci_sh5 dec)
  | rv_codec_ci_sh6 => ret (encode_ci_sh6 dec)
  | rv_codec_ci_16sp => ret (encode_ci_16sp dec)
  | rv_codec_ci_lwsp => ret (encode_ci_lwsp dec)
  | rv_codec_ci_ldsp => ret (encode_ci_ldsp dec)
  | rv_codec_ci_lqsp => ret (encode_ci_lqsp dec)
  | rv_codec_ci_li => ret (encode_ci_li dec)
  | rv_codec_ci_lui => ret (encode_ci_lui dec)
  | rv_codec_ci_none => ret (encode_ci_none dec)
  | rv_codec_ciw_4spn => ret (encode_ciw_4spn dec)
  | rv_codec_cj => ret (encode_cj dec)
  | rv_codec_cj_jal => ret (encode_cj_jal dec)
  | rv_codec_cl_lw => ret (encode_cl_lw dec)
  | rv_codec_cl_ld => ret (encode_cl_ld dec)
  | rv_codec_cl_lq => ret (encode_cl_lq dec)
  | rv_codec_cr => ret (encode_cr dec)
  | rv_codec_cr_mv => ret (encode_cr_mv dec)
  | rv_codec_cr_jalr => ret (encode_cr_jalr dec)
  | rv_codec_cr_jr => ret (encode_cr_jr dec)
  | rv_codec_cs => ret (encode_cs dec)
  | rv_codec_cs_sw => ret (encode_cs_sw dec)
  | rv_codec_cs_sd => ret (encode_cs_sd dec)
  | rv_codec_cs_sq => ret (encode_cs_sq dec)
  | rv_codec_css_swsp => ret (encode_css_swsp dec)
  | rv_codec_css_sdsp => ret (encode_css_sdsp dec)
  | rv_codec_css_sqsp => ret (encode_css_sqsp dec)
  | rv_codec_illegal => Some (dec, inst)
  end.

(** ** Format table

    The specification of the formats: which field of the record each operand
    carries.  [SOp o b] is operand [o] plus bias [b] (8 for the three-bit
    registers), [SCopy o b] repeats the operand of [rs1], [SConst z] is a value
    the format implies. *)

Inductive src : Type := SConst (z : Z) | SOp (o : operand) (bias : Z) | SCopy (o : operand) (bias : Z).

Inductive field : Type :=
  F_imm | F_rd | F_rs1 | F_rs2 | F_rs3 | F_rm | F_aq | F_rl | F_pred | F_succ.

Definition shape : Type := list (field * src).

Definition shape_of (c : rv_codec) : shape :=
  match c with
  | rv_codec_illegal => []
  | rv_codec_none => [(F_rd, SConst 0); (F_rs1, SConst 0); (F_rs2, SConst 0); (F_imm, SConst 0)]
  | rv_codec_u => [(F_rd, SOp operand_rd 0); (F_rs1, SConst 0); (F_rs2, SConst 0);
      (F_imm, SOp operand_imm20 0)]
  | rv_codec_uj => [(F_rd, SOp operand_rd 0); (F_rs1, SConst 0); (F_rs2, SConst 0);
      (F_imm, SOp operand_jimm20 0)]
  | rv_codec_i => [(F_rd, SOp operand_rd 0); (F_rs1, SOp operand_rs1 0); (F_rs2, SConst 0);
      (F_imm, SOp operand_imm12 0)]
  | rv_codec_i_sh5 => [(F_rd, SOp operand_rd 0); (F_rs1, SOp operand_rs1 0); (F_rs2, SConst 0);
      (F_imm, SOp operand_shamt5 0)]
  | rv_codec_i_sh6 => [(F_rd, SOp operand_rd 0); (F_rs1, SOp operand_rs1 0); (F_rs2, SConst 0);
      (F_imm, SOp operand_shamt6 0)]
  | rv_codec_i_sh7 => [(F_rd, SOp operand_rd 0); (F_rs1, SOp operand_rs1 0); (F_rs2, SConst 0);
      (F_imm, SOp operand_shamt7 0)]
  | rv_codec_i_csr => [(F_rd, SOp operand_rd 0); (F_rs1, SOp operand_rs1 0); (F_rs2, SConst 0);
      (F_imm, SOp operand_csr12 0)]
  | rv_codec_s => [(F_rd, SConst 0); (F_rs1, SOp operand_rs1 0); (F_rs2, SOp operand_rs2 0);
      (F_imm, SOp operand_simm12 0)]
  | rv_codec_sb => [(F_rd, SConst 0); (F_rs1, SOp operand_rs1 0); (F_rs2, SOp operand_rs2 0);
      (F_imm, SOp operand_sbimm12 0)]
  | rv_codec_r => [(F_rd, SOp operand_rd 0); (F_rs1, SOp operand_rs1 0);
      (F_rs2, SOp operand_rs2 0); (F_imm, SConst 0)]
  | rv_codec_r_m => [(F_rd, SOp operand_rd 0); (F_rs1, SOp operand_rs1 0);
      (F_rs2, SOp operand_rs2 0); (F_imm, SConst 0); (F_rm, SOp operand_rm 0)]
  | rv_codec_r4_m => [(F_rd, SOp operand_rd 0); (F_rs1, SOp operand_rs1 0);
      (F_rs2, SOp operand_rs2 0); (F_rs3, SOp operand_rs3 0); (F_imm, SConst 0);
      (F_rm, SOp operand_rm 0)]
  | rv_codec_r_a => [(F_rd, SOp operand_rd 0); (F_rs1, SOp operand_rs1 0);
      (F_rs2, SOp operand_rs2 0); (F_imm, SConst 0); (F_aq, SOp operand_aq 0);
      (F_rl, SOp operand_rl 0)]
  | rv_codec_r_l => [(F_rd, SOp operand_rd 0); (F_rs1, SOp operand_rs1 0); (F_rs2, SConst 0);
      (F_imm, SConst 0); (F_aq, SOp operand_aq 0); (F_rl, SOp operand_rl 0)]
  | rv_codec_r_f => [(F_rd, SConst 0); (F_rs1, SConst 0); (F_rs2, SConst 0); (F_imm, SConst 0);
      (F_pred, SOp operand_pred 0); (F_succ, SOp operand_succ 0)]
  | rv_codec_cb => [(F_rd, SConst 0); (F_rs1, SOp operand_crs1q 8); (F_rs2, SConst 0);
      (F_imm, SOp operand_cimmb 0)]
  | rv_codec_cb_imm => [(F_rd, SCopy operand_crs1rdq 8); (F_rs1, SOp operand_crs1rdq 8);
      (F_rs2, SConst 0); (F_imm, SOp operand_cimmi 0)]
  | rv_codec_cb_sh5 => [(F_rd, SCopy operand_crs1rdq 8); (F_rs1, SOp operand_crs1rdq 8);
      (F_rs2, SConst 0); (F_imm, SOp operand_cimmsh5 0)]
  | rv_codec_cb_sh6 => [(F_rd, SCopy operand_crs1rdq 8); (F_rs1, SOp operand_crs1rdq 8);
      (F_rs2, SConst 0); (F_imm, SOp operand_cimmsh6 0)]
  | rv_codec_ci => [(F_rd, SCopy operand_crs1rd 0); (F_rs1, SOp operand_crs1rd 0);
      (F_rs2, SConst 0); (F_imm, SOp operand_cimmi 0)]
  | rv_codec_ci_sh5 => [(F_rd, SCopy operand_crs1rd 0); (F_rs1, SOp operand_crs1rd 0);
      (F_rs2, SConst 0); (F_imm, SOp operand_cimmsh5 0)]
  | rv_codec_ci_sh6 => [(F_rd, SCopy operand_crs1rd 0); (F_rs1, SOp operand_crs1rd 0);
      (F_rs2, SConst 0); (F_imm, SOp operand_cimmsh6 0)]
  | rv_codec_ci_16sp => [(F_rd, SConst 2); (F_rs1, SConst 2); (F_rs2, SConst 0);
      (F_imm, SOp operand_cimm16sp 0)]
  | rv_codec_ci_lwsp => [(F_rd, SOp operand_crd 0); (F_rs1, SConst 2); (F_rs2, SConst 0);
      (F_imm, SOp operand_cimmlwsp 0)]
  | rv_codec_ci_ldsp => [(F_rd, SOp operand_crd 0); (F_rs1, SConst 2); (F_rs2, SConst 0);
      (F_imm, SOp operand_cimmldsp 0)]
  | rv_codec_ci_lqsp => [(F_rd, SOp operand_crd 0); (F_rs1, SConst 2); (F_rs2, SConst 0);
      (F_imm, SOp operand_cimmlqsp 0)]
  | rv_codec_ci_li => [(F_rd, SOp operand_crd 0); (F_rs1, SConst 0); (F_rs2, SConst 0);
      (F_imm, SOp operand_cimmi 0)]
  | rv_codec_ci_lui => [(F_rd, SOp operand_crd 0); (F_rs1, SConst 0); (F_rs2, SConst 0);
      (F_imm, SOp operand_cimmui 0)]
  | rv_codec_ci_none => [(F_rd, SConst 0); (F_rs1, SConst 0); (F_rs2, SConst 0);
      (F_imm, SConst 0)]
  | rv_codec_ciw_4spn => [(F_rd, SOp operand_crdq 8); (F_rs1, SConst 2); (F_rs2, SConst 0);
      (F_imm, SOp operand_cimm4spn 0)]
  | rv_codec_cj => [(F_rd, SConst 0); (F_rs1, SConst 0); (F_rs2, SConst 0);
      (F_imm, SOp operand_cimmj 0)]
  | rv_codec_cj_jal => [(F_rd, SConst 1); (F_rs1, SConst 0); (F_rs2, SConst 0);
      (F_imm, SOp operand_cimmj 0)]
  | rv_codec_cl_lw => [(F_rd, SOp operand_crdq 8); (F_rs1, SOp operand_crs1q 8);
      (F_rs2, SConst 0); (F_imm, SOp operand_cimmw 0)]
  | rv_codec_cl_ld => [(F_rd, SOp operand_crdq 8); (F_rs1, SOp operand_crs1q 8);
      (F_rs2, SConst 0); (F_imm, SOp operand_cimmd 0)]
  | rv_codec_cl_lq => [(F_rd, SOp operand_crdq 8); (F_rs1, SOp operand_crs1q 8);
      (F_rs2, SConst 0); (F_imm, SOp operand_cimmq 0)]
  | rv_codec_cr => [(F_rd, SCopy operand_crs1rd 0); (F_rs1, SOp operand_crs1rd 0);
      (F_rs2, SOp operand_crs2 0); (F_imm, SConst 0)]
  | rv_codec_cr_mv => [(F_rd, SOp operand_crd 0); (F_rs1, SOp operand_crs2 0); (F_rs2, SConst 0);
      (F_imm, SConst 0)]
  | rv_codec_cr_jalr => [(F_rd, SConst 1); (F_rs1, SOp operand_crs1 0); (F_rs2, SConst 0);
      (F_imm, SConst 0)]
  | rv_codec_cr_jr => [(F_rd, SConst 0); (F_rs1, SOp operand_crs1 0); (F_rs2, SConst 0);
      (F_imm, SConst 0)]
  | rv_codec_cs => [(F_rd, SCopy operand_crs1rdq 8); (F_rs1, SOp operand_crs1rdq 8);
      (F_rs2, SOp operand_crs2q 8); (F_imm, SConst 0)]
  | rv_codec_cs_sw => [(F_rd, SConst 0); (F_rs1, SOp operand_crs1q 8);
      (F_rs2, SOp operand_crs2q 8); (F_imm, SOp operand_cimmw 0)]
  | rv_codec_cs_sd => [(F_rd, SConst 0); (F_rs1, SOp operand_crs1q 8);
      (F_rs2, SOp operand_crs2q 8); (F_imm, SOp operand_cimmd 0)]
  | rv_codec_cs_sq => [(F_rd, SConst 0); (F_rs1, SOp operand_crs1q 8);
      (F_rs2, SOp operand_crs2q 8); (F_imm, SOp operand_cimmq 0)]
  | rv_codec_css_swsp => [(F_rd, SConst 0); (F_rs1, SConst 2); (F_rs2, SOp operand_crs2 0);
      (F_imm, SOp operand_cimmswsp 0)]
  | rv_codec_css_sdsp => [(F_rd, SConst 0); (F_rs1, SConst 2); (F_rs2, SOp operand_crs2 0);
      (F_imm, SOp operand_cimmsdsp 0)]
  | rv_codec_css_sqsp => [(F_rd, SConst 0); (F_rs1, SConst 2); (F_rs2, SOp operand_crs2 0);
      (F_imm, SOp operand_cimmsqsp 0)]
  end.

(** ** The decoders and encoders implement the format table *)

Definition get (f : field) (d : decode) : Z :=
  match f with
  | F_imm => imm d | F_rd => rd d | F_rs1 => rs1 d | F_rs2 => rs2 d | F_rs3 => rs3 d
  | F_rm => rm d | F_aq => aq d | F_rl => rl d | F_pred => pred d | F_succ => succ d
  end.

Definition set (f : field) (x : Z) (d : decode) : decode :=
  match f with
  | F_imm => set_imm x d | F_rd => set_rd x d | F_rs1 => set_rs1 x d | F_rs2 => set_rs2 x d
  | F_rs3 => set_rs3 x d | F_rm => set_rm x d | F_aq => set_aq x d | F_rl => set_rl x d
  | F_pred => set_pred x d | F_succ => set_succ x d
  end.

(** The conversion of an assignment to a field. *)
Definition conv (f : field) (x : Z) : Z :=
  match f with
  | F_imm => swrap 32 x
  | F_rd | F_rs1 | F_rs2 | F_rs3 => uwrap 8 x
  | F_rm => uwrap 3 x
  | F_aq | F_rl => uwrap 1 x
  | F_pred | F_succ => uwrap 4 x
  end.

#[export] Instance field_eq_dec : EqDecision field.
Proof. solve_decision. Defined.

Lemma get_set (f g : field) (x : Z) (d : decode) :
  get f (set g x d) = if decide (f = g) then conv f x else get f d.
Proof. destruct f, g; reflexivity. Qed.

Lemma decode_ext (d d' : decode) :
  (forall f, get f d = get f d') -> op d = op d' -> codec d = codec d' -> d = d'.
Proof.
  intros H Ho Hc.
  pose proof (H F_imm); pose proof (H F_rd); pose proof (H F_rs1); pose proof (H F_rs2);
  pose proof (H F_rs3); pose proof (H F_rm); pose proof (H F_aq); pose proof (H F_rl);
  pose proof (H F_pred); pose proof (H F_succ).
  destruct d, d'; simpl in *; congruence.
Qed.

#[export] Instance B_eq_dec : EqDecision B.
Proof. solve_decision. Defined.
#[export] Instance S_eq_dec : EqDecision S.
Proof. solve_decision. Defined.
#[export] Instance operand_eq_dec : EqDecision operand.
Proof. solve_decision. Defined.
#[export] Instance src_eq_dec : EqDecision src.
Proof. solve_decision. Defined.

Definition src_val (s : src) (inst : Z) : Z :=
  match s with
  | SConst z => z
  | SOp o b | SCopy o b => op_decode o inst + b
  end.

Definition shape_decode (sh : shape) (d : decode) (inst : Z) : decode :=
  fold_left (fun d '(f, s) => set f (src_val s inst) d) sh d.

Definition shape_encode (sh : shape) (d : decode) : Z :=
  fold_left (fun acc '(f, s) =>
    match s with SOp o b => acc .| op_encode o (get f d - b) | _ => acc end) sh 0.

(** What a record must satisfy to be an instruction of a format. *)
Definition src_wf (d : decode) (fs : field * src) : Prop :=
  let '(f, s) := fs in
  match s with
  | SConst z => get f d = z
  | SOp o b => imm_fits o (get f d - b)
  | SCopy o b => get f d = rs1 d
  end.

Definition mentions (sh : shape) (f : field) : bool :=
  existsb (fun fs : field * src => bool_decide (f = fst fs)) sh.

Definition wf_shape (sh : shape) (d : decode) : Prop :=
  Forall (src_wf d) sh /\ (forall f, mentions sh f = false -> get f d = 0).

(** The instruction bits of an operand. *)
Definition o_bits (o : operand) : Z := op_encode o (-1).

(** Where the opcode's mask fixes bits of an operand (the conversion selector
    in [rs2] of [fcvt], for instance) the operand has those bits. *)
Definition src_fixed (d : decode) (fs : field * src) : Prop :=
  match snd fs with
  | SOp o b => op_encode o (get (fst fs) d - b) .& rv_inst_mask (op d)
               = rv_inst_match (op d) .& o_bits o
  | _ => True
  end.

(** A well-formed instruction: the codec is that of the opcode, the fields are
    those of the format and the operands agree with the fixed bits. *)
Definition wf_decode (d : decode) : Prop :=
  codec d = rv_inst_codec (op d) /\ wf_shape (shape_of (codec d)) d
  /\ Forall (src_fixed d) (shape_of (codec d)).

Lemma decode_inst_type_shape (d : decode) (inst : Z) :
  decode_inst_type d inst
  = shape_decode (shape_of (rv_inst_codec (op d))) (set_codec (rv_inst_codec (op d)) d) inst.
Proof.
  unfold decode_inst_type. cbn [codec set_codec op].
  destruct (rv_inst_codec (op d)); cbn; rewrite ?Z.add_0_r; reflexivity.
Qed.

(** The three-bit register encoders pass [reg + 8]; only the low three bits
    are kept, so this is [reg - 8]. *)
Lemma op_encode_plus8 (o : operand) (x : Z) :
  In o [operand_crdq; operand_crs1q; operand_crs1rdq; operand_crs2q] ->
  op_encode o (x + 8) = op_encode o (x - 8).
Proof.
  intros Hin. apply op_encode_congr.
  - apply operand_In_facts. unfold all_operands. simpl in *. tauto.
  - replace (x + 8) with (x - 8 + 2 * 8) by lia.
    simpl in Hin. destruct Hin as [<-|[<-|[<-|[<-|[]]]]]; apply uwrap_add_multiple; vm_compute; congruence.
Qed.

(** Discharge the assertions of an encoder from the format's conditions. *)
Ltac assertions :=
  repeat match goal with
  | |- context [ assert_ ?b ?k ] =>
      replace (assert_ b k) with k
        by (unfold assert_; rewrite (proj2 (Z.eqb_eq _ _)) by (unfold rv_ireg_zero, rv_ireg_ra, rv_ireg_sp; congruence);
            reflexivity)
  end.

Lemma encode_inst_shape (d : decode) :
  wf_decode d -> codec d <> rv_codec_cs ->
  encode_inst d = Some (d, rv_inst_match (op d) .| shape_encode (shape_of (codec d)) d).
Proof.
  intros [Hc [[Hwf _] _]] Hcs. unfold encode_inst.
  assert (Ed : set_codec (rv_inst_codec (op d)) d = d)
    by (rewrite <- Hc; destruct d; reflexivity).
  rewrite Ed. cbv zeta. destruct (codec d); try congruence;
    cbn [shape_of] in Hwf; rewrite ?Forall_cons in Hwf; cbn [src_wf get] in Hwf;
    destruct_and? Hwf; autounfold with encoders; assertions;
    cbn [option_map shape_of shape_encode fold_left get];
    rewrite ?op_encode_plus8 by (simpl; tauto);
    rewrite ?Z.sub_0_r, ?Z.lor_0_l, ?Z.lor_0_r; try reflexivity.
  all: congruence.
Qed.

(** ** Format-level round trip *)

Definition fs_disj (x y : field * src) : bool :=
  match snd x, snd y with
  | SOp o _, SOp o' _ => operands_disj o o'
  | _, _ => true
  end.

(** The values of a source survive the conversion of the assignment. *)
Definition conv_ok (f : field) (o : operand) (b : Z) : bool :=
  match f with
  | F_imm => (b =? 0) && (o_signed o || (o_width o <? 32))
  | _ => negb (o_signed o) && (0 <=? b) && (conv f (2 ^ o_width o - 1 + b) =? 2 ^ o_width o - 1 + b)
  end.

Definition fs_ok (sh : shape) (fs : field * src) : bool :=
  match snd fs with
  | SConst z => conv (fst fs) z =? z
  | SOp o b => existsb (fun o' => bool_decide (o = o')) all_operands && conv_ok (fst fs) o b
               && forallb (fun fs' => bool_decide (fst fs = fst fs') || fs_disj fs fs') sh
  | SCopy o b => existsb (fun fs' => bool_decide (fs' = (F_rs1, SOp o b))) sh
  end.

Definition shape_ok (sh : shape) : bool :=
  bool_decide (NoDup (map fst sh)) && forallb (fs_ok sh) sh.

Lemma shapes_ok (c : rv_codec) : shape_ok (shape_of c) = true.
Proof. destruct c; vm_compute; reflexivity. Qed.

Lemma conv_ok_conv (f : field) (o : operand) (b x : Z) :
  operand_facts o -> conv_ok f o b = true -> imm_fits o (x - b) -> conv f x = x.
Proof.
  intros F Hok [Hr _]. pose proof (of_width o F). pose proof (of_align o F).
  destruct f; cbn [conv conv_ok] in *;
    rewrite ?andb_true_iff, ?Z.eqb_eq, ?Z.leb_le in Hok.
  1: { destruct Hok as [-> Hok]. rewrite Z.sub_0_r in Hr. apply swrap_small; [lia |].
       apply orb_true_iff in Hok. destruct (o_signed o).
       - assert (2 ^ (o_width o - 1) <= 2 ^ (32 - 1)) by (apply Z.pow_le_mono_r; lia).
         unfold in_s in *; lia.
       - destruct Hok as [|Hok]; [discriminate |]. rewrite Z.ltb_lt in Hok.
         assert (2 ^ o_width o <= 2 ^ (32 - 1)) by (apply Z.pow_le_mono_r; lia).
         unfold in_s, in_u in *; lia. }
  all: destruct Hok as [[Hs Hb] Hc]; apply negb_true_iff in Hs; rewrite Hs in Hr;
    match type of Hc with uwrap ?w ?y = _ => pose proof (uwrap_range w y ltac:(lia)) as Hw end;
    rewrite Hc in Hw; apply uwrap_small; unfold in_u in *; lia.
Qed.

Lemma get_shape_decode_other (sh : shape) (d : decode) (inst : Z) (f : field) :
  mentions sh f = false -> get f (shape_decode sh d inst) = get f d.
Proof.
  revert d. induction sh as [|[g s] sh IH]; intros d; [reflexivity |].
  unfold mentions, shape_decode in *. cbn [existsb fold_left fst]. intros H.
  apply orb_false_iff in H as [H1 H2]. rewrite IH by assumption. rewrite get_set.
  apply bool_decide_eq_false in H1. destruct (decide (f = g)); [contradiction | reflexivity].
Qed.

Lemma mentions_In (sh : shape) (f : field) : mentions sh f = true <-> In f (map fst sh).
Proof.
  unfold mentions. rewrite existsb_exists, in_map_iff. split.
  - intros [[g s] [Hin E]]. apply bool_decide_eq_true in E. exists (g, s); auto.
  - intros [[g s] [E Hin]]. exists (g, s). split; [assumption | apply bool_decide_eq_true; auto].
Qed.

Lemma get_shape_decode (sh : shape) (d : decode) (inst : Z) (f : field) (s : src) :
  NoDup (map fst sh) -> In (f, s) sh ->
  get f (shape_decode sh d inst) = conv f (src_val s inst).
Proof.
  revert d. induction sh as [|[g s'] sh IH]; intros d Hnd Hin; [destruct Hin |].
  cbn [map fst] in Hnd. apply NoDup_cons in Hnd as [Hg Hnd].
  unfold shape_decode. cbn [fold_left]. fold (shape_decode sh (set g (src_val s' inst) d) inst).
  destruct Hin as [E | Hin]; [|apply IH; assumption].
  injection E as -> ->. rewrite get_shape_decode_other.
  - rewrite get_set. destruct (decide (f = f)); [reflexivity | contradiction].
  - apply not_true_is_false. rewrite mentions_In. rewrite <- list_elem_of_In. exact Hg.
Qed.

(** One term of the encoded word. *)
Definition fs_term (d : decode) (fs : field * src) : Z :=
  match snd fs with SOp o b => op_encode o (get (fst fs) d - b) | _ => 0 end.

Lemma shape_encode_cons (fs : field * src) (sh : shape) (d : decode) :
  shape_encode (fs :: sh) d = fs_term d fs .| shape_encode sh d.
Proof.
  assert (G : forall l acc, fold_left (fun acc '(f, s) =>
    match s with SOp o b => acc .| op_encode o (get f d - b) | _ => acc end) l acc
    = acc .| shape_encode l d).
  { unfold shape_encode. induction l as [|[f s] l IH]; intros acc; cbn [fold_left].
    - symmetry; apply Z.lor_0_r.
    - rewrite IH. rewrite (IH (match s with SOp o b => 0 .| _ | _ => 0 end)).
      destruct s; rewrite ?Z.lor_0_l, ?Z.lor_assoc; reflexivity. }
  unfold shape_encode at 1. cbn [fold_left]. destruct fs as [f s]. rewrite G.
  destruct s; reflexivity.
Qed.

Lemma blind_0 (o : operand) : operand_facts o -> blind o 0.
Proof.
  intros F. unfold blind. apply Z.bits_inj'. intros k Hk. rewrite Z.testbit_0_l.
  rewrite imm_decode_moves by (apply (of_segs o F) || lia).
  rewrite (mv_ext _ _ (fun _ => false)) by (intros; apply Z.testbit_0_l). apply mv_false.
Qed.

(** The other operands of the format are invisible to [o]. *)
Lemma blind_shape_encode (o : operand) (sh : shape) (d : decode) :
  operand_facts o ->
  (forall f' o' b', In (f', SOp o' b') sh -> operand_facts o' /\ operands_disj o o' = true) ->
  blind o (shape_encode sh d).
Proof.
  intros F H. induction sh as [|[f s] sh IH]; [apply blind_0, F |].
  rewrite shape_encode_cons. apply blind_lor; [assumption | |].
  - destruct s; cbn [fs_term snd fst]; try apply blind_0, F.
    destruct (H f o0 bias (or_introl eq_refl)). apply blind_encode; assumption.
  - apply IH. intros f' o' b' Hin. apply (H f' o' b'). right. assumption.
Qed.

Record shape_facts (sh : shape) : Prop := {
  sf_nodup : NoDup (map fst sh);
  sf_const : forall f z, In (f, SConst z) sh -> conv f z = z;
  sf_op : forall f o b, In (f, SOp o b) sh -> In o all_operands /\ conv_ok f o b = true;
  sf_disj : forall f o b f' o' b', In (f, SOp o b) sh -> In (f', SOp o' b') sh ->
    f <> f' -> operands_disj o o' = true;
  sf_copy : forall f o b, In (f, SCopy o b) sh -> In (F_rs1, SOp o b) sh /\ (f = F_rd) }.

Lemma shape_of_facts (c : rv_codec) : shape_facts (shape_of c).
Proof.
  pose proof (shapes_ok c) as H. unfold shape_ok in H. apply andb_true_iff in H as [Hn H].
  rewrite forallb_forall in H. split.
  - apply bool_decide_eq_true in Hn. exact Hn.
  - intros f z Hin. apply H in Hin. apply Z.eqb_eq, Hin.
  - intros f o b Hin. apply H in Hin. cbn [fs_ok snd fst] in Hin.
    rewrite !andb_true_iff in Hin. destruct Hin as [[Ho Hc] _]. split; [|assumption].
    apply existsb_exists in Ho as [o' [Ho E]]. apply bool_decide_eq_true in E. congruence.
  - intros f o b f' o' b' Hin Hin' Hne. apply H in Hin. cbn [fs_ok snd fst] in Hin.
    rewrite !andb_true_iff, forallb_forall in Hin. destruct Hin as [_ Hin].
    specialize (Hin _ Hin'). cbn [fst] in Hin. apply orb_true_iff in Hin as [E|E].
    + apply bool_decide_eq_true in E. contradiction.
    + exact E.
  - intros f o b Hin. split.
    + apply H in Hin. cbn [fs_ok snd] in Hin. apply existsb_exists in Hin as [fs [Hin E]].
      apply bool_decide_eq_true in E. congruence.
    + destruct c; cbn [shape_of In] in Hin; intuition congruence.
Qed.

(** Decoding field [f] of an encoded instruction. *)
Lemma op_decode_shape_encode (sh : shape) (d : decode) (base : Z) (f : field) (o : operand) (b : Z) :
  shape_facts sh -> In (f, SOp o b) sh ->
  subsumed o base (op_encode o (get f d - b)) ->
  op_decode o (base .| shape_encode sh d) = op_decode o (op_encode o (get f d - b)).
Proof.
  intros SF Hin Hb. destruct (sf_op _ SF _ _ _ Hin) as [Ho _].
  pose proof (operand_In_facts o Ho) as F.
  apply in_split in Hin as [l1 [l2 E]].
  assert (Hother : forall l, (forall x, In x l -> In x (l1 ++ l2)) -> blind o (shape_encode l d)).
  { intros l Hl. apply blind_shape_encode; [assumption |]. intros f' o' b' Hin'.
    apply Hl in Hin'.
    assert (Hsh : In (f', SOp o' b') sh) by (rewrite E; rewrite !in_app_iff in *; simpl; tauto).
    destruct (sf_op _ SF _ _ _ Hsh). split; [apply operand_In_facts; assumption |].
    apply (sf_disj _ SF f o b f' o' b'); [rewrite E, in_app_iff; simpl; tauto | assumption |].
    intros ->. pose proof (sf_nodup _ SF) as Hn. rewrite E, map_app in Hn. cbn [map fst] in Hn.
    rewrite NoDup_ListNoDup in Hn. apply NoDup_remove_2 in Hn. apply Hn.
    rewrite <- map_app. apply (in_map fst) in Hin'. exact Hin'. }
  assert (Happ : forall l x, shape_encode (l ++ x) d = shape_encode l d .| shape_encode x d).
  { intros l x. induction l as [|a l IH]; [symmetry; apply Z.lor_0_l |].
    rewrite <- app_comm_cons, !shape_encode_cons, IH, Z.lor_assoc. reflexivity. }
  rewrite E, Happ, shape_encode_cons.
  unfold fs_term. cbn [fst snd].
  rewrite (Z.lor_comm (shape_encode l1 d)), !Z.lor_assoc.
  rewrite !op_decode_lor_l by (assumption || (apply Hother; intros; rewrite in_app_iff; tauto)).
  apply op_decode_subsumed; assumption.
Qed.

(** The match value has no bit outside the mask. *)
Lemma match_in_mask (o : rv_op) : rv_inst_match o .& rv_inst_mask o = rv_inst_match o.
Proof.
  apply Z.eqb_eq, (forall_ops (fun o => rv_inst_match o .& rv_inst_mask o =? rv_inst_match o)).
  vm_compute. reflexivity.
Qed.

Lemma fixed_subsumed (d : decode) (f : field) (o : operand) (b : Z) :
  operand_facts o -> src_fixed d (f, SOp o b) ->
  subsumed o (rv_inst_match (op d)) (op_encode o (get f d - b)).
Proof.
  unfold src_fixed, subsumed. cbn [fst snd]. intros F E i Hi Hm.
  apply (f_equal (fun z => Z.testbit z i)) in E. rewrite !Z.land_spec in E.
  unfold o_bits in E. rewrite Hm, testbit_o_bits, Hi in E by assumption.
  apply andb_true_iff in E. tauto.
Qed.

(** Every operand of an encoded instruction decodes to its field. *)
Lemma op_decode_field (d : decode) (f : field) (o : operand) (b : Z) :
  wf_decode d -> In (f, SOp o b) (shape_of (codec d)) ->
  op_decode o (rv_inst_match (op d) .| shape_encode (shape_of (codec d)) d) + b = get f d
  /\ conv f (get f d) = get f d.
Proof.
  intros [Hc [[Hwf Hz] Hb]] Hin. pose proof (shape_of_facts (codec d)) as SF.
  destruct (sf_op _ SF _ _ _ Hin) as [Ho Hcv].
  pose proof (proj1 (List.Forall_forall _ _) Hwf _ Hin) as Hfit. cbn [src_wf] in Hfit.
  split; [|eapply conv_ok_conv; eauto using operand_In_facts].
  rewrite (op_decode_shape_encode _ d _ f o b SF Hin).
  - rewrite operand_decode_encode by (eauto using operand_In_facts). lia.
  - apply fixed_subsumed; [eauto using operand_In_facts |].
    apply (proj1 (List.Forall_forall _ _) Hb _ Hin).
Qed.

Lemma decode_type_encode (d : decode) :
  wf_decode d ->
  decode_inst_type (set_op (op d) decode_init)
    (rv_inst_match (op d) .| shape_encode (shape_of (codec d)) d) = d.
Proof.
  intros Hd. pose proof Hd as [Hc [[Hwf Hz] _]]. pose proof (shape_of_facts (codec d)) as SF.
  rewrite decode_inst_type_shape. cbn [set_op op]. rewrite <- Hc.
  set (w := rv_inst_match (op d) .| shape_encode (shape_of (codec d)) d).
  assert (Hop : forall sh e i, op (shape_decode sh e i) = op e /\ codec (shape_decode sh e i) = codec e).
  { unfold shape_decode. induction sh as [|[f s] sh IH]; intros e i; cbn [fold_left]; [auto |].
    destruct (IH (set f (src_val s i) e) i) as [-> ->]. destruct f; auto. }
  pose proof (fun f o b => op_decode_field d f o b Hd) as Hval. fold w in Hval.
  apply decode_ext;
    [| rewrite (proj1 (Hop _ _ _)); reflexivity | rewrite (proj2 (Hop _ _ _)); reflexivity].
  intros f. destruct (mentions (shape_of (codec d)) f) eqn:Em.
  - apply mentions_In, in_map_iff in Em as [[f' s] [E Hin]]. cbn [fst] in E. subst f'.
    rewrite (get_shape_decode _ _ _ f s (sf_nodup _ SF) Hin).
    pose proof (proj1 (List.Forall_forall _ _) Hwf _ Hin) as Hfit.
    destruct s as [z | o b | o b]; cbn [src_val src_wf] in *.
    + rewrite Hfit. apply (sf_const _ SF), Hin.
    + destruct (Hval f o b Hin) as [-> ->]. reflexivity.
    + destruct (sf_copy _ SF _ _ _ Hin) as [Hin1 ->].
      destruct (Hval F_rs1 o b Hin1) as [Hv Hv']. cbn [get] in Hv, Hv', Hfit |- *.
      rewrite Hv, Hfit. exact Hv'.
  - rewrite get_shape_decode_other by assumption. rewrite (Hz f Em). destruct f; reflexivity.
Qed.
