(* ===== verification/Switch.v ===== *)
(** * The opcode switch: [asm/switch.h]

    The generated nest of switch statements that maps an instruction word to an
    opcode, as a tree: [Sw sel cases] is a switch on the selected bits without
    a default, [SwD] one with a default, [Op alts] the chain of guarded
    assignments of a case.  [run] executes a tree; an instruction that leaves
    the nest without an assignment is [rv_op_illegal]. *)

From Stdlib Require Import ZArith Lia Bool.
From stdpp Require Import base list.
From S2P Require Import Prelude Operand Meta Codec.

#[local] Open Scope Z_scope.
#[local] Open Scope word_scope.

(** ** Extensions: the boolean template parameters *)

Record isa : Type := mkIsa {
  rv32 : bool; rv64 : bool; rv128 : bool;
  rvi : bool; rvm : bool; rva : bool; rvs : bool; rvf : bool; rvd : bool; rvq : bool; rvc : bool }.

Definition isa_rv32 : isa := mkIsa true false false true true true true true true true true.
Definition isa_rv64 : isa := mkIsa false true false true true true true true true true true.
Definition isa_rv128 : isa := mkIsa false false true true true true true true true true true.

(** ** Decision trees *)

(** A selector ORs fields [(inst >> shift) & mask]. *)
Definition selector : Type := list (Z * Z).

#[local] Set Warnings "-register-all".

Inductive dtree : Type :=
| Op (alts : list (list (isa -> bool) * rv_op))
| Sw (sel : selector) (cases : list (Z * dtree))
| SwD (sel : selector) (cases : list (Z * dtree)) (dflt : dtree).

(** [if (f && ...) op = o; else if ...] *)
Fixpoint pick (fl : isa) (alts : list (list (isa -> bool) * rv_op)) : rv_op :=
  match alts with
  | [] => rv_op_illegal
  | (fs, o) :: t => if forallb (fun f => f fl) fs then o else pick fl t
  end.

Definition sel_val (sel : selector) (inst : Z) : Z :=
  fold_right (fun '(sh, m) acc => ((inst >>> sh) .& m) .| acc) 0 sel.

Fixpoint run (fl : isa) (t : dtree) (inst : Z) : rv_op :=
  match t with
  | Op alts => pick fl alts
  | Sw sel cases =>
      (fix go (cs : list (Z * dtree)) : rv_op :=
         match cs with
         | [] => rv_op_illegal
         | (v, t') :: cs' => if sel_val sel inst =? v then run fl t' inst else go cs'
         end) cases
  | SwD sel cases d =>
      (fix go (cs : list (Z * dtree)) : rv_op :=
         match cs with
         | [] => run fl d inst
         | (v, t') :: cs' => if sel_val sel inst =? v then run fl t' inst else go cs'
         end) cases
  end.

(** ** The generated nest *)

Definition tree_c0 : dtree :=
  Sw [(13, 0x7)] [
    (0, Op [([rvc], rv_op_c_addi4spn)]);
    (1, Op [([rvc], rv_op_c_fld)]);
    (2, Op [([rvc], rv_op_c_lw)]);
    (3, Op [([rvc; rv32], rv_op_c_flw); ([rvc; rv64], rv_op_c_ld)]);
    (5, Op [([rvc], rv_op_c_fsd)]);
    (6, Op [([rvc], rv_op_c_sw)]);
    (7, Op [([rvc; rv32], rv_op_c_fsw); ([rvc; rv64], rv_op_c_sd)])].

Definition tree_c1 : dtree :=
  Sw [(13, 0x7)] [
    (0, SwD [(2, 0x7ff)] [
      (0, Op [([rvc], rv_op_c_nop)])] (Op [([rvc], rv_op_c_addi)]));
    (1, Op [([rvc; rv32], rv_op_c_jal); ([rvc; rv64], rv_op_c_addiw)]);
    (2, Op [([rvc], rv_op_c_li)]);
    (3, SwD [(7, 0x1f)] [
      (2, Op [([rvc], rv_op_c_addi16sp)])] (Op [([rvc], rv_op_c_lui)]));
    (4, Sw [(10, 0x3)] [
      (0, Op [([rvc; rv32], rv_op_c_srli); ([rvc; rv64], rv_op_c_srli)]);
      (1, Op [([rvc; rv32], rv_op_c_srai); ([rvc; rv64], rv_op_c_srai)]);
      (2, Op [([rvc], rv_op_c_andi)]);
      (3, Sw [(10, 0x4); (5, 0x3)] [
        (0, Op [([rvc], rv_op_c_sub)]);
        (1, Op [([rvc], rv_op_c_xor)]);
        (2, Op [([rvc], rv_op_c_or)]);
        (3, Op [([rvc], rv_op_c_and)]);
        (4, Op [([rvc], rv_op_c_subw)]);
        (5, Op [([rvc], rv_op_c_addw)])])]);
    (5, Op [([rvc], rv_op_c_j)]);
    (6, Op [([rvc], rv_op_c_beqz)]);
    (7, Op [([rvc], rv_op_c_bnez)])].

Definition tree_c2 : dtree :=
  Sw [(13, 0x7)] [
    (0, Op [([rvc; rv32], rv_op_c_slli); ([rvc; rv64], rv_op_c_slli)]);
    (1, Op [([rvc], rv_op_c_fldsp)]);
    (2, Op [([rvc], rv_op_c_lwsp)]);
    (3, Op [([rvc; rv32], rv_op_c_flwsp); ([rvc; rv64], rv_op_c_ldsp)]);
    (4, Sw [(12, 0x1)] [
      (0, SwD [(2, 0x1f)] [
        (0, Op [([rvc], rv_op_c_jr)])] (Op [([rvc], rv_op_c_mv)]));
      (1, SwD [(2, 0x1f)] [
        (0, SwD [(7, 0x1f)] [
          (0, Op [([rvc], rv_op_c_ebreak)])] (Op [([rvc], rv_op_c_jalr)]))] (Op [([rvc], rv_op_c_add)]))]);
    (5, Op [([rvc], rv_op_c_fsdsp)]);
    (6, Op [([rvc], rv_op_c_swsp)]);
    (7, Op [([rvc; rv32], rv_op_c_fswsp); ([rvc; rv64], rv_op_c_sdsp)])].

Definition tree_load : dtree :=
  Sw [(12, 0x7)] [
    (0, Op [([rvi], rv_op_lb)]);
    (1, Op [([rvi], rv_op_lh)]);
    (2, Op [([rvi], rv_op_lw)]);
    (3, Op [([rvi], rv_op_ld)]);
    (4, Op [([rvi], rv_op_lbu)]);
    (5, Op [([rvi], rv_op_lhu)]);
    (6, Op [([rvi], rv_op_lwu)]);
    (7, Op [([rvi; rv128], rv_op_ldu)])].

Definition tree_load_fp : dtree :=
  Sw [(12, 0x7)] [
    (2, Op [([rvf], rv_op_flw)]);
    (3, Op [([rvd], rv_op_fld)]);
    (4, Op [([rvq], rv_op_flq)])].

Definition tree_misc_mem : dtree :=
  Sw [(12, 0x7)] [
    (0, Op [([rvi], rv_op_fence)]);
    (1, Op [([rvi], rv_op_fence_i)]);
    (2, Op [([rvi; rv128], rv_op_lq)])].

Definition tree_op_imm : dtree :=
  Sw [(12, 0x7)] [
    (0, Op [([rvi], rv_op_addi)]);
    (1, Sw [(27, 0x1f)] [
      (0, Op [([rvi; rv32], rv_op_slli); ([rvi; rv64], rv_op_slli); ([rvi; rv128], rv_op_slli)])]);
    (2, Op [([rvi], rv_op_slti)]);
    (3, Op [([rvi], rv_op_sltiu)]);
    (4, Op [([rvi], rv_op_xori)]);
    (5, Sw [(27, 0x1f)] [
      (0, Op [([rvi; rv32], rv_op_srli); ([rvi; rv64], rv_op_srli); ([rvi; rv128], rv_op_srli)]);
      (8, Op [([rvi; rv32], rv_op_srai); ([rvi; rv64], rv_op_srai); ([rvi; rv128], rv_op_srai)])]);
    (6, Op [([rvi], rv_op_ori)]);
    (7, Op [([rvi], rv_op_andi)])].

Definition tree_op_imm_32 : dtree :=
  Sw [(12, 0x7)] [
    (0, Op [([rvi], rv_op_addiw)]);
    (1, Sw [(25, 0x7f)] [
      (0, Op [([rvi], rv_op_slliw)])]);
    (5, Sw [(25, 0x7f)] [
      (0, Op [([rvi], rv_op_srliw)]);
      (32, Op [([rvi], rv_op_sraiw)])])].

Definition tree_store : dtree :=
  Sw [(12, 0x7)] [
    (0, Op [([rvi], rv_op_sb)]);
    (1, Op [([rvi], rv_op_sh)]);
    (2, Op [([rvi], rv_op_sw)]);
    (3, Op [([rvi], rv_op_sd)]);
    (4, Op [([rvi; rv128], rv_op_sq)])].

Definition tree_store_fp : dtree :=
  Sw [(12, 0x7)] [
    (2, Op [([rvf], rv_op_fsw)]);
    (3, Op [([rvd], rv_op_fsd)]);
    (4, Op [([rvq], rv_op_fsq)])].

Definition tree_amo : dtree :=
  Sw [(24, 0xf8); (12, 0x7)] [
    (2, Op [([rva], rv_op_amoadd_w)]);
    (3, Op [([rva], rv_op_amoadd_d)]);
    (4, Op [([rva; rv128], rv_op_amoadd_q)]);
    (10, Op [([rva], rv_op_amoswap_w)]);
    (11, Op [([rva], rv_op_amoswap_d)]);
    (12, Op [([rva; rv128], rv_op_amoswap_q)]);
    (18, Sw [(20, 0x1f)] [
      (0, Op [([rva], rv_op_lr_w)])]);
    (19, Sw [(20, 0x1f)] [
      (0, Op [([rva], rv_op_lr_d)])]);
    (20, Sw [(20, 0x1f)] [
      (0, Op [([rva; rv128], rv_op_lr_q)])]);
    (26, Op [([rva], rv_op_sc_w)]);
    (27, Op [([rva], rv_op_sc_d)]);
    (28, Op [([rva; rv128], rv_op_sc_q)]);
    (34, Op [([rva], rv_op_amoxor_w)]);
    (35, Op [([rva], rv_op_amoxor_d)]);
    (36, Op [([rva; rv128], rv_op_amoxor_q)]);
    (66, Op [([rva], rv_op_amoor_w)]);
    (67, Op [([rva], rv_op_amoor_d)]);
    (68, Op [([rva; rv128], rv_op_amoor_q)]);
    (98, Op [([rva], rv_op_amoand_w)]);
    (99, Op [([rva], rv_op_amoand_d)]);
    (100, Op [([rva; rv128], rv_op_amoand_q)]);
    (130, Op [([rva], rv_op_amomin_w)]);
    (131, Op [([rva], rv_op_amomin_d)]);
    (132, Op [([rva; rv128], rv_op_amomin_q)]);
    (162, Op [([rva], rv_op_amomax_w)]);
    (163, Op [([rva], rv_op_amomax_d)]);
    (164, Op [([rva; rv128], rv_op_amomax_q)]);
    (194, Op [([rva], rv_op_amominu_w)]);
    (195, Op [([rva], rv_op_amominu_d)]);
    (196, Op [([rva; rv128], rv_op_amominu_q)]);
    (226, Op [([rva], rv_op_amomaxu_w)]);
    (227, Op [([rva], rv_op_amomaxu_d)]);
    (228, Op [([rva; rv128], rv_op_amomaxu_q)])].

Definition tree_op : dtree :=
  Sw [(22, 0x3f8); (12, 0x7)] [
    (0, Op [([rvi], rv_op_add)]);
    (1, Op [([rvi], rv_op_sll)]);
    (2, Op [([rvi], rv_op_slt)]);
    (3, Op [([rvi], rv_op_sltu)]);
    (4, Op [([rvi], rv_op_xor)]);
    (5, Op [([rvi], rv_op_srl)]);
    (6, Op [([rvi], rv_op_or)]);
    (7, Op [([rvi], rv_op_and)]);
    (8, Op [([rvm], rv_op_mul)]);
    (9, Op [([rvm], rv_op_mulh)]);
    (10, Op [([rvm], rv_op_mulhsu)]);
    (11, Op [([rvm], rv_op_mulhu)]);
    (12, Op [([rvm], rv_op_div)]);
    (13, Op [([rvm], rv_op_divu)]);
    (14, Op [([rvm], rv_op_rem)]);
    (15, Op [([rvm], rv_op_remu)]);
    (256, Op [([rvi], rv_op_sub)]);
    (261, Op [([rvi], rv_op_sra)])].

Definition tree_op_32 : dtree :=
  Sw [(22, 0x3f8); (12, 0x7)] [
    (0, Op [([rvi], rv_op_addw)]);
    (1, Op [([rvi], rv_op_sllw)]);
    (5, Op [([rvi], rv_op_srlw)]);
    (8, Op [([rvm], rv_op_mulw)]);
    (12, Op [([rvm], rv_op_divw)]);
    (13, Op [([rvm], rv_op_divuw)]);
    (14, Op [([rvm], rv_op_remw)]);
    (15, Op [([rvm], rv_op_remuw)]);
    (256, Op [([rvi], rv_op_subw)]);
    (261, Op [([rvi], rv_op_sraw)])].

Definition tree_madd : dtree :=
  Sw [(25, 0x3)] [
    (0, Op [([rvf], rv_op_fmadd_s)]);
    (1, Op [([rvd], rv_op_fmadd_d)]);
    (3, Op [([rvq], rv_op_fmadd_q)])].

Definition tree_msub : dtree :=
  Sw [(25, 0x3)] [
    (0, Op [([rvf], rv_op_fmsub_s)]);
    (1, Op [([rvd], rv_op_fmsub_d)]);
    (3, Op [([rvq], rv_op_fmsub_q)])].

Definition tree_nmsub : dtree :=
  Sw [(25, 0x3)] [
    (0, Op [([rvf], rv_op_fnmsub_s)]);
    (1, Op [([rvd], rv_op_fnmsub_d)]);
    (3, Op [([rvq], rv_op_fnmsub_q)])].

Definition tree_nmadd : dtree :=
  Sw [(25, 0x3)] [
    (0, Op [([rvf], rv_op_fnmadd_s)]);
    (1, Op [([rvd], rv_op_fnmadd_d)]);
    (3, Op [([rvq], rv_op_fnmadd_q)])].

Definition tree_op_fp : dtree :=
  Sw [(25, 0x7f)] [
    (0, Op [([rvf], rv_op_fadd_s)]);
    (1, Op [([rvd], rv_op_fadd_d)]);
    (3, Op [([rvq], rv_op_fadd_q)]);
    (4, Op [([rvf], rv_op_fsub_s)]);
    (5, Op [([rvd], rv_op_fsub_d)]);
    (7, Op [([rvq], rv_op_fsub_q)]);
    (8, Op [([rvf], rv_op_fmul_s)]);
    (9, Op [([rvd], rv_op_fmul_d)]);
    (11, Op [([rvq], rv_op_fmul_q)]);
    (12, Op [([rvf], rv_op_fdiv_s)]);
    (13, Op [([rvd], rv_op_fdiv_d)]);
    (15, Op [([rvq], rv_op_fdiv_q)]);
    (16, Sw [(12, 0x7)] [
      (0, Op [([rvf], rv_op_fsgnj_s)]);
      (1, Op [([rvf], rv_op_fsgnjn_s)]);
      (2, Op [([rvf], rv_op_fsgnjx_s)])]);
    (17, Sw [(12, 0x7)] [
      (0, Op [([rvd], rv_op_fsgnj_d)]);
      (1, Op [([rvd], rv_op_fsgnjn_d)]);
      (2, Op [([rvd], rv_op_fsgnjx_d)])]);
    (19, Sw [(12, 0x7)] [
      (0, Op [([rvq], rv_op_fsgnj_q)]);
      (1, Op [([rvq], rv_op_fsgnjn_q)]);
      (2, Op [([rvq], rv_op_fsgnjx_q)])]);
    (20, Sw [(12, 0x7)] [
      (0, Op [([rvf], rv_op_fmin_s)]);
      (1, Op [([rvf], rv_op_fmax_s)])]);
    (21, Sw [(12, 0x7)] [
      (0, Op [([rvd], rv_op_fmin_d)]);
      (1, Op [([rvd], rv_op_fmax_d)])]);
    (23, Sw [(12, 0x7)] [
      (0, Op [([rvq], rv_op_fmin_q)]);
      (1, Op [([rvq], rv_op_fmax_q)])]);
    (32, Sw [(20, 0x1f)] [
      (1, Op [([rvd], rv_op_fcvt_s_d)]);
      (3, Op [([rvq], rv_op_fcvt_s_q)])]);
    (33, Sw [(20, 0x1f)] [
      (0, Op [([rvd], rv_op_fcvt_d_s)]);
      (3, Op [([rvq], rv_op_fcvt_d_q)])]);
    (35, Sw [(20, 0x1f)] [
      (0, Op [([rvq], rv_op_fcvt_q_s)]);
      (1, Op [([rvq], rv_op_fcvt_q_d)])]);
    (44, Sw [(20, 0x1f)] [
      (0, Op [([rvf], rv_op_fsqrt_s)])]);
    (45, Sw [(20, 0x1f)] [
      (0, Op [([rvd], rv_op_fsqrt_d)])]);
    (47, Sw [(20, 0x1f)] [
      (0, Op [([rvq], rv_op_fsqrt_q)])]);
    (80, Sw [(12, 0x7)] [
      (0, Op [([rvf], rv_op_fle_s)]);
      (1, Op [([rvf], rv_op_flt_s)]);
      (2, Op [([rvf], rv_op_feq_s)])]);
    (81, Sw [(12, 0x7)] [
      (0, Op [([rvd], rv_op_fle_d)]);
      (1, Op [([rvd], rv_op_flt_d)]);
      (2, Op [([rvd], rv_op_feq_d)])]);
    (83, Sw [(12, 0x7)] [
      (0, Op [([rvq], rv_op_fle_q)]);
      (1, Op [([rvq], rv_op_flt_q)]);
      (2, Op [([rvq], rv_op_feq_q)])]);
    (96, Sw [(20, 0x1f)] [
      (0, Op [([rvf], rv_op_fcvt_w_s)]);
      (1, Op [([rvf], rv_op_fcvt_wu_s)]);
      (2, Op [([rvf], rv_op_fcvt_l_s)]);
      (3, Op [([rvf], rv_op_fcvt_lu_s)])]);
    (97, Sw [(20, 0x1f)] [
      (0, Op [([rvd], rv_op_fcvt_w_d)]);
      (1, Op [([rvd], rv_op_fcvt_wu_d)]);
      (2, Op [([rvd], rv_op_fcvt_l_d)]);
      (3, Op [([rvd], rv_op_fcvt_lu_d)])]);
    (99, Sw [(20, 0x1f)] [
      (0, Op [([rvq], rv_op_fcvt_w_q)]);
      (1, Op [([rvq], rv_op_fcvt_wu_q)]);
      (2, Op [([rvq], rv_op_fcvt_l_q)]);
      (3, Op [([rvq], rv_op_fcvt_lu_q)])]);
    (104, Sw [(20, 0x1f)] [
      (0, Op [([rvf], rv_op_fcvt_s_w)]);
      (1, Op [([rvf], rv_op_fcvt_s_wu)]);
      (2, Op [([rvf], rv_op_fcvt_s_l)]);
      (3, Op [([rvf], rv_op_fcvt_s_lu)])]);
    (105, Sw [(20, 0x1f)] [
      (0, Op [([rvd], rv_op_fcvt_d_w)]);
      (1, Op [([rvd], rv_op_fcvt_d_wu)]);
      (2, Op [([rvd], rv_op_fcvt_d_l)]);
      (3, Op [([rvd], rv_op_fcvt_d_lu)])]);
    (107, Sw [(20, 0x1f)] [
      (0, Op [([rvq], rv_op_fcvt_q_w)]);
      (1, Op [([rvq], rv_op_fcvt_q_wu)]);
      (2, Op [([rvq], rv_op_fcvt_q_l)]);
      (3, Op [([rvq], rv_op_fcvt_q_lu)])]);
    (112, Sw [(17, 0xf8); (12, 0x7)] [
      (0, Op [([rvf], rv_op_fmv_x_s)]);
      (1, Op [([rvf], rv_op_fclass_s)])]);
    (113, Sw [(17, 0xf8); (12, 0x7)] [
      (0, Op [([rvd], rv_op_fmv_x_d)]);
      (1, Op [([rvd], rv_op_fclass_d)])]);
    (115, Sw [(17, 0xf8); (12, 0x7)] [
      (0, Op [([rvq], rv_op_fmv_x_q)]);
      (1, Op [([rvq], rv_op_fclass_q)])]);
    (120, Sw [(17, 0xf8); (12, 0x7)] [
      (0, Op [([rvf], rv_op_fmv_s_x)])]);
    (121, Sw [(17, 0xf8); (12, 0x7)] [
      (0, Op [([rvd], rv_op_fmv_d_x)])]);
    (123, Sw [(17, 0xf8); (12, 0x7)] [
      (0, Op [([rvq], rv_op_fmv_q_x)])])].

Definition tree_op_imm_64 : dtree :=
  Sw [(12, 0x7)] [
    (0, Op [([rvi; rv128], rv_op_addid)]);
    (1, Sw [(26, 0x3f)] [
      (0, Op [([rvi; rv128], rv_op_sllid)])]);
    (5, Sw [(26, 0x3f)] [
      (0, Op [([rvi; rv128], rv_op_srlid)]);
      (16, Op [([rvi; rv128], rv_op_sraid)])])].

Definition tree_branch : dtree :=
  Sw [(12, 0x7)] [
    (0, Op [([rvi], rv_op_beq)]);
    (1, Op [([rvi], rv_op_bne)]);
    (4, Op [([rvi], rv_op_blt)]);
    (5, Op [([rvi], rv_op_bge)]);
    (6, Op [([rvi], rv_op_bltu)]);
    (7, Op [([rvi], rv_op_bgeu)])].

Definition tree_jalr : dtree :=
  Sw [(12, 0x7)] [
    (0, Op [([rvi], rv_op_jalr)])].

Definition tree_priv : dtree :=
  Sw [(20, 0xfe0); (7, 0x1f)] [
    (0, Sw [(15, 0x3ff)] [
      (0, Op [([rvs], rv_op_ecall)]);
      (32, Op [([rvs], rv_op_ebreak)]);
      (64, Op [([rvs], rv_op_uret)])]);
    (256, Sw [(20, 0x1f)] [
      (2, Sw [(15, 0x1f)] [
        (0, Op [([rvs], rv_op_sret)])]);
      (4, Op [([rvs], rv_op_sfence_vm)]);
      (5, Sw [(15, 0x1f)] [
        (0, Op [([rvs], rv_op_wfi)])])]);
    (288, Op [([rvs], rv_op_sfence_vma)]);
    (512, Sw [(15, 0x3ff)] [
      (64, Op [([rvs], rv_op_hret)])]);
    (768, Sw [(15, 0x3ff)] [
      (64, Op [([rvs], rv_op_mret)])]);
    (1952, Sw [(15, 0x3ff)] [
      (576, Op [([rvs], rv_op_dret)])])].

Definition tree_system : dtree :=
  Sw [(12, 0x7)] [
    (0, tree_priv);
    (1, Op [([rvs], rv_op_csrrw)]);
    (2, Op [([rvs], rv_op_csrrs)]);
    (3, Op [([rvs], rv_op_csrrc)]);
    (5, Op [([rvs], rv_op_csrrwi)]);
    (6, Op [([rvs], rv_op_csrrsi)]);
    (7, Op [([rvs], rv_op_csrrci)])].

Definition tree_op_64 : dtree :=
  Sw [(22, 0x3f8); (12, 0x7)] [
    (0, Op [([rvi; rv128], rv_op_addd)]);
    (1, Op [([rvi; rv128], rv_op_slld)]);
    (5, Op [([rvi; rv128], rv_op_srld)]);
    (8, Op [([rvm; rv128], rv_op_muld)]);
    (12, Op [([rvm; rv128], rv_op_divd)]);
    (13, Op [([rvm; rv128], rv_op_divud)]);
    (14, Op [([rvm; rv128], rv_op_remd)]);
    (15, Op [([rvm; rv128], rv_op_remud)]);
    (256, Op [([rvi; rv128], rv_op_subd)]);
    (261, Op [([rvi; rv128], rv_op_srad)])].

Definition tree_32 : dtree :=
  Sw [(2, 0x1f)] [
    (0, tree_load);
    (1, tree_load_fp);
    (3, tree_misc_mem);
    (4, tree_op_imm);
    (5, Op [([rvi], rv_op_auipc)]);
    (6, tree_op_imm_32);
    (8, tree_store);
    (9, tree_store_fp);
    (11, tree_amo);
    (12, tree_op);
    (13, Op [([rvi], rv_op_lui)]);
    (14, tree_op_32);
    (16, tree_madd);
    (17, tree_msub);
    (18, tree_nmsub);
    (19, tree_nmadd);
    (20, tree_op_fp);
    (22, tree_op_imm_64);
    (24, tree_branch);
    (25, tree_jalr);
    (27, Op [([rvi], rv_op_jal)]);
    (28, tree_system);
    (30, tree_op_64)].

Definition tree_root : dtree :=
  Sw [(0, 0x3)] [
    (0, tree_c0);
    (1, tree_c1);
    (2, tree_c2);
    (3, tree_32)].

(** [decode_inst_op]. *)
Definition decode_inst_op (fl : isa) (inst : Z) : rv_op := run fl tree_root inst.

(** ** Symbolic execution on partly known words *)

Section Dtree_ind.
  Variable P : dtree -> Prop.
  Hypothesis HOp : forall alts, P (Op alts).
  Hypothesis HSw : forall sel cases, Forall (fun c => P (snd c)) cases -> P (Sw sel cases).
  Hypothesis HSwD : forall sel cases d,
    Forall (fun c => P (snd c)) cases -> P d -> P (SwD sel cases d).

(** Induction that also covers the trees inside the case lists. *)
Fixpoint dtree_rect' (t : dtree) : P t :=
  let fix cases_ok (cs : list (Z * dtree)) : Forall (fun c => P (snd c)) cs :=
    match cs with
    | [] => Forall_nil_2 _
    | c :: cs' => Forall_cons_2 _ c cs' (dtree_rect' (snd c)) (cases_ok cs')
    end in
  match t with
  | Op alts => HOp alts
  | Sw sel cases => HSw sel cases (cases_ok cases)
  | SwD sel cases d => HSwD sel cases d (cases_ok cases) (dtree_rect' d)
  end.
End Dtree_ind.

(** The selector reads only bits in [k]. *)
Definition sel_known (k : Z) (sel : selector) : bool :=
  forallb (fun '(sh, m) => (0 <=? sh) && (((k >>> sh) .& m) =? m)) sel.

(** [excl]: selector values the word is assumed not to have. *)
Definition excluded (excl : list (selector * Z)) (sel : selector) (v : Z) : bool :=
  existsb (fun e => bool_decide (e = (sel, v))) excl.

(** Does every word with [inst & k = v] (outside [excl]) reach [target]? *)
Fixpoint chk (fl : isa) (excl : list (selector * Z)) (k v : Z) (target : rv_op) (t : dtree) : bool :=
  match t with
  | Op alts => bool_decide (pick fl alts = target)
  | Sw sel cases =>
      let known := sel_known k sel in
      (fix go (cs : list (Z * dtree)) : bool :=
         match cs with
         | [] => bool_decide (rv_op_illegal = target)
         | (x, t') :: cs' =>
             if known then
               if sel_val sel v =? x then chk fl excl k v target t' else go cs'
             else (excluded excl sel x || chk fl excl k v target t') && go cs'
         end) cases
  | SwD sel cases d =>
      let known := sel_known k sel in
      (fix go (cs : list (Z * dtree)) : bool :=
         match cs with
         | [] => chk fl excl k v target d
         | (x, t') :: cs' =>
             if known then
               if sel_val sel v =? x then chk fl excl k v target t' else go cs'
             else (excluded excl sel x || chk fl excl k v target t') && go cs'
         end) cases
  end.

Definition holds_excl (excl : list (selector * Z)) (inst : Z) : Prop :=
  Forall (fun e => sel_val (fst e) inst <> snd e) excl.

Lemma sel_val_known (k inst : Z) (sel : selector) :
  sel_known k sel = true -> sel_val sel (inst .& k) = sel_val sel inst.
Proof.
  unfold sel_known, sel_val. induction sel as [|[sh m] sel IH]; [reflexivity |].
  cbn [forallb fold_right]. rewrite !andb_true_iff, Z.leb_le, Z.eqb_eq. intros [[Hs Hm] H].
  rewrite (IH H). f_equal. rewrite Z.shiftr_land, <- Z.land_assoc, Hm. reflexivity.
Qed.

Lemma chk_sound (fl : isa) (excl : list (selector * Z)) (k v : Z) (target : rv_op) (inst : Z) :
  inst .& k = v -> holds_excl excl inst ->
  forall t, chk fl excl k v target t = true -> run fl t inst = target.
Proof.
  intros Hv He. 
  assert (Hcases : forall sel cases dflt dchk,
    Forall (fun c : Z * dtree => chk fl excl k v target (snd c) = true -> run fl (snd c) inst = target) cases ->
    (dchk = true -> dflt = target) ->
    (fix go (cs : list (Z * dtree)) : bool :=
         match cs with
         | [] => dchk
         | (x, t') :: cs' =>
             if sel_known k sel then
               if sel_val sel v =? x then chk fl excl k v target t' else go cs'
             else (excluded excl sel x || chk fl excl k v target t') && go cs'
         end) cases = true ->
    (fix go (cs : list (Z * dtree)) : rv_op :=
         match cs with
         | [] => dflt
         | (x, t') :: cs' => if sel_val sel inst =? x then run fl t' inst else go cs'
         end) cases = target).
  { intros sel cases dflt dchk HF Hd. induction HF as [|[x t'] cs Ht HF IH]; [exact Hd |].
    cbn [snd] in Ht. destruct (sel_known k sel) eqn:Ek.
    - rewrite <- (sel_val_known k inst sel Ek), Hv.
      destruct (sel_val sel v =? x); [exact Ht |]. intros E. rewrite <- (IH E).
      rewrite <- (sel_val_known k inst sel Ek), Hv. reflexivity.
    - intros E. apply andb_true_iff in E as [E1 E2].
      destruct (Z.eqb_spec (sel_val sel inst) x) as [Ex|]; [|exact (IH E2)].
      apply orb_true_iff in E1 as [E1|E1]; [|exact (Ht E1)].
      unfold excluded in E1. apply existsb_exists in E1 as [e [Hin E1]].
      apply bool_decide_eq_true in E1. subst e.
      pose proof (proj1 (List.Forall_forall _ _) He _ Hin) as Hne. cbn [fst snd] in Hne.
      contradiction. }
  induction t as [alts | sel cases HF | sel cases d HF IHd] using dtree_rect'.
  - intros E. apply bool_decide_eq_true in E. exact E.
  - apply Hcases; [exact HF |]. intros E. apply bool_decide_eq_true in E. exact E.
  - apply Hcases; [exact HF | exact IHd].
Qed.

(** Five compressed forms share their encoding space with another one; the
    selector values that belong to the other form. *)
Definition op_excl (o : rv_op) : list (selector * Z) :=
  match o with
  | rv_op_c_addi => [([(2, 0x7ff)], 0)]
  | rv_op_c_lui => [([(7, 0x1f)], 2)]
  | rv_op_c_mv => [([(2, 0x1f)], 0)]
  | rv_op_c_add => [([(2, 0x1f)], 0)]
  | rv_op_c_jalr => [([(7, 0x1f)], 0)]
  | _ => []
  end.

(** The opcodes the nest reaches under an extension set. *)
Definition reachable (fl : isa) (o : rv_op) : bool :=
  chk fl (op_excl o) (rv_inst_mask o) (rv_inst_match o) o tree_root.

(** ** What a decoded word looks like *)

(** The word bits a selector fixes when it has value [x]. *)
Definition sel_bits (sel : selector) : Z :=
  fold_right (fun '(sh, m) acc => Z.shiftl m sh .| acc) 0 sel.
Definition sel_word (sel : selector) (x : Z) : Z :=
  fold_right (fun '(sh, m) acc => Z.shiftl (x .& m) sh .| acc) 0 sel.

Fixpoint sel_disj (sel : selector) : bool :=
  match sel with
  | [] => true
  | (sh, m) :: t => (0 <=? sh) && forallb (fun '(_, m') => (m .& m') =? 0) t && sel_disj t
  end.

(** Along every path to an opcode the bits the path has tested include the
    opcode's mask and agree with its match value. *)
Definition fixes (k v : Z) (o : rv_op) : bool :=
  ((rv_inst_mask o .& k) =? rv_inst_mask o) && ((v .& rv_inst_mask o) =? rv_inst_match o).

Fixpoint tests_mask (k v : Z) (t : dtree) : bool :=
  match t with
  | Op alts => forallb (fun a => fixes k v (snd a)) alts
  | Sw sel cases =>
      sel_disj sel &&
      forallb (fun '(x, t') => tests_mask (k .| sel_bits sel) (v .| sel_word sel x) t') cases
  | SwD sel cases d =>
      sel_disj sel &&
      forallb (fun '(x, t') => tests_mask (k .| sel_bits sel) (v .| sel_word sel x) t') cases
      && tests_mask k v d
  end.

Lemma tree_tests_mask : tests_mask 0 0 tree_root = true.
Proof. vm_compute. reflexivity. Qed.

Lemma field_word (sh m inst : Z) : 0 <= sh ->
  inst .& Z.shiftl m sh = Z.shiftl ((inst >>> sh) .& m) sh.
Proof.
  intros Hs. zbits n Hn. rewrite !testbit_shiftl, Z.land_spec by lia.
  destruct (Z.leb_spec sh n); cbn [andb]; [|apply andb_false_r].
  rewrite Z.shiftr_spec by lia. do 2 f_equal; lia.
Qed.

(** The fields of a selector with disjoint masks are recovered from its value. *)
Lemma sel_word_spec (sel : selector) (inst : Z) :
  sel_disj sel = true -> inst .& sel_bits sel = sel_word sel (sel_val sel inst).
Proof.
  assert (Hval : forall l, Forall (fun '(sh, m) => True) l -> forall m0,
            forallb (fun '(_, m') => (m0 .& m') =? 0) l = true -> sel_val l inst .& m0 = 0).
  { induction l as [|[sh m] l IH]; intros _ m0 H; [reflexivity |].
    cbn [forallb] in H. apply andb_true_iff in H as [H1 H2]. apply Z.eqb_eq in H1.
    unfold sel_val. cbn [fold_right]. fold (sel_val l inst).
    rewrite Z.land_lor_distr_l, <- Z.land_assoc, (Z.land_comm m m0), H1, Z.land_0_r, Z.lor_0_l.
    apply IH; [apply Forall_true; intros [? ?]; exact I | assumption]. }
  assert (Hgen : forall l x, sel_disj l = true ->
            (Forall (fun '(sh, m) => x .& m = sel_val l inst .& m) l) ->
            inst .& sel_bits l = sel_word l x).
  { induction l as [|[sh m] l IH]; intros x Hd Hx; [apply Z.land_0_r |].
    cbn [sel_disj] in Hd. rewrite !andb_true_iff, Z.leb_le in Hd. destruct Hd as [[Hs Hm] Hd].
    apply Forall_cons in Hx as [Hx Hxs].
    unfold sel_bits, sel_word. cbn [fold_right]. fold (sel_bits l) (sel_word l x).
    rewrite Z.land_lor_distr_r, field_word by assumption.
    assert (Hz : sel_val l inst .& m = 0) by (apply Hval; [apply Forall_true; intros [? ?]; exact I | assumption]).
    f_equal.
    - rewrite Hx. unfold sel_val. cbn [fold_right]. fold (sel_val l inst).
      rewrite Z.land_lor_distr_l, Hz, Z.lor_0_r, <- Z.land_assoc, Z.land_diag. reflexivity.
    - apply IH; [assumption |]. rewrite List.Forall_forall in Hxs |- *.
      intros [sh' m'] Hin. specialize (Hxs _ Hin). cbn in Hxs. rewrite Hxs.
      unfold sel_val. cbn [fold_right]. fold (sel_val l inst).
      rewrite forallb_forall in Hm. specialize (Hm _ Hin). cbn in Hm. apply Z.eqb_eq in Hm.
      rewrite Z.land_lor_distr_l, <- Z.land_assoc, Hm, Z.land_0_r. apply Z.lor_0_l. }
  intros Hd. apply Hgen; [assumption |]. apply List.Forall_forall. intros [? ?] _. reflexivity.
Qed.

Lemma pick_In (fl : isa) (alts : list (list (isa -> bool) * rv_op)) :
  pick fl alts = rv_op_illegal \/ In (pick fl alts) (map snd alts).
Proof.
  induction alts as [|[fs o] alts IH]; cbn [pick map snd]; [auto |].
  destruct (forallb _ fs); [right; left; reflexivity |]. destruct IH; [auto | right; right; assumption].
Qed.

Lemma tests_mask_sound (fl : isa) (inst : Z) (t : dtree) : forall k v,
  inst .& k = v -> tests_mask k v t = true -> run fl t inst <> rv_op_illegal ->
  inst .& rv_inst_mask (run fl t inst) = rv_inst_match (run fl t inst).
Proof.
  assert (Hstep : forall sel cases k v (dflt : rv_op),
    Forall (fun c : Z * dtree => forall k v, inst .& k = v -> tests_mask k v (snd c) = true ->
      run fl (snd c) inst <> rv_op_illegal ->
      inst .& rv_inst_mask (run fl (snd c) inst) = rv_inst_match (run fl (snd c) inst)) cases ->
    inst .& k = v -> sel_disj sel = true ->
    forallb (fun '(x, t') => tests_mask (k .| sel_bits sel) (v .| sel_word sel x) t') cases = true ->
    let P := fun o => o <> rv_op_illegal -> inst .& rv_inst_mask o = rv_inst_match o in
    P dflt ->
    P ((fix go (cs : list (Z * dtree)) : rv_op :=
         match cs with
         | [] => dflt
         | (x, t') :: cs' => if sel_val sel inst =? x then run fl t' inst else go cs'
         end) cases)).
  { intros sel cases k v dflt HF Hk Hd. induction HF as [|[x t'] cs Ht HF IH]; [auto |].
    cbn [forallb snd] in *. intros E Hdf Hne. apply andb_true_iff in E as [E1 E2].
    destruct (Z.eqb_spec (sel_val sel inst) x) as [<-|]; [|exact (IH E2 Hdf Hne)].
    refine (Ht _ _ _ E1 Hne). rewrite Z.land_lor_distr_r, Hk, sel_word_spec by assumption.
    reflexivity. }
  induction t as [alts | sel cases HF | sel cases d HF IHd] using dtree_rect'; intros k v Hk.
  - cbn [tests_mask run]. intros E Hne. destruct (pick_In fl alts) as [|Hin]; [contradiction |].
    apply in_map_iff in Hin as [a [Ea Hin]]. apply (forallb_In _ _ _ E) in Hin.
    unfold fixes in Hin. rewrite Ea, andb_true_iff, !Z.eqb_eq in Hin. destruct Hin as [H1 H2].
    rewrite <- H2, <- Hk, <- Z.land_assoc, (Z.land_comm k), H1. reflexivity.
  - cbn [tests_mask]. intros E. apply andb_true_iff in E as [Ed E].
    apply (Hstep sel cases k v rv_op_illegal HF Hk Ed E). congruence.
  - cbn [tests_mask]. rewrite !andb_true_iff. intros [[Ed E] E'].
    apply (Hstep sel cases k v (run fl d inst) HF Hk Ed E). exact (IHd k v Hk E').
Qed.

(** ** Correctness of the opcode switch *)

(** An instruction word that decodes to an opcode has that opcode's fixed
    bits, whatever extensions are enabled: the nest never guesses. *)
Lemma op_sound (fl : isa) (inst : Z) :
  decode_inst_op fl inst <> rv_op_illegal ->
  inst .& rv_inst_mask (decode_inst_op fl inst) = rv_inst_match (decode_inst_op fl inst).
Proof.
  intros H. apply (tests_mask_sound fl inst tree_root 0 0);
    [apply Z.land_0_r | exact tree_tests_mask | exact H].
Qed.

(** Real opcodes (pseudo-instructions have an empty mask). *)
Definition real_op (o : rv_op) : bool := negb (rv_inst_mask o =? 0).

(** Opcodes that exist on RV128 only. *)
Definition rv128_ops : list rv_op :=
  [rv_op_ldu; rv_op_lq; rv_op_sq; rv_op_addid; rv_op_sllid; rv_op_srlid; rv_op_sraid;
   rv_op_addd; rv_op_subd; rv_op_slld; rv_op_srld; rv_op_srad; rv_op_muld; rv_op_divd;
   rv_op_divud; rv_op_remd; rv_op_remud; rv_op_lr_q; rv_op_sc_q; rv_op_amoswap_q;
   rv_op_amoadd_q; rv_op_amoxor_q; rv_op_amoor_q; rv_op_amoand_q; rv_op_amomin_q;
   rv_op_amomax_q; rv_op_amominu_q; rv_op_amomaxu_q].

(** Compressed opcodes of one register width. *)
Definition rv32_c_ops : list rv_op :=
  [rv_op_c_flw; rv_op_c_fsw; rv_op_c_jal; rv_op_c_flwsp; rv_op_c_fswsp].
Definition rv64_c_ops : list rv_op :=
  [rv_op_c_ld; rv_op_c_sd; rv_op_c_addiw; rv_op_c_ldsp; rv_op_c_sdsp].
Definition shift_c_ops : list rv_op := [rv_op_c_srli; rv_op_c_srai; rv_op_c_slli].
(** The RV128 compressed memory forms, which no branch of the nest assigns. *)
Definition rv128_c_ops : list rv_op := [rv_op_c_lq; rv_op_c_sq; rv_op_c_lqsp; rv_op_c_sqsp].

Definition mem_op (o : rv_op) (l : list rv_op) : bool := existsb (rv_op_eqb o) l.

(** The opcodes of each register width that the nest decodes. *)
Definition op_of_rv32 (o : rv_op) : bool :=
  real_op o && negb (mem_op o (rv128_ops ++ rv128_c_ops ++ rv64_c_ops)).
Definition op_of_rv64 (o : rv_op) : bool :=
  real_op o && negb (mem_op o (rv128_ops ++ rv128_c_ops ++ rv32_c_ops)).
Definition op_of_rv128 (o : rv_op) : bool :=
  real_op o && negb (mem_op o (rv128_c_ops ++ rv32_c_ops ++ rv64_c_ops ++ shift_c_ops)).

Definition rv_base (fl : isa) (o : rv_op) : Prop :=
  (fl = isa_rv32 /\ op_of_rv32 o = true) \/ (fl = isa_rv64 /\ op_of_rv64 o = true)
  \/ (fl = isa_rv128 /\ op_of_rv128 o = true).

Lemma base_reachable (fl : isa) (o : rv_op) : rv_base fl o -> reachable fl o = true.
Proof.
  assert (H : forallb (fun o => (negb (op_of_rv32 o) || reachable isa_rv32 o)
    && (negb (op_of_rv64 o) || reachable isa_rv64 o)
    && (negb (op_of_rv128 o) || reachable isa_rv128 o)) all_ops = true)
    by (vm_compute; reflexivity).
  pose proof (forall_ops _ o H) as Ho. cbv beta in Ho. rewrite !andb_true_iff in Ho.
  destruct Ho as [[H1 H2] H3].
  intros [[-> E] | [[-> E] | [-> E]]]; rewrite E in *; assumption.
Qed.

(** Every word carrying the fixed bits of an opcode of the base decodes to
    that opcode; the five compressed forms that share encodings exclude the
    field values of the other form. *)
Lemma op_complete (fl : isa) (o : rv_op) (inst : Z) :
  rv_base fl o -> inst .& rv_inst_mask o = rv_inst_match o -> holds_excl (op_excl o) inst ->
  decode_inst_op fl inst = o.
Proof.
  intros Hb Hm He. apply (chk_sound fl (op_excl o) _ _ o inst Hm He).
  apply base_reachable, Hb.
Qed.

(** C14: the opcode switch is the matching relation of the metadata tables. A
    word that decodes to an opcode carries that opcode's fixed bits, whatever
    extensions are enabled: the nest never guesses. Conversely every word that
    carries the fixed bits of an opcode of the base decodes to that opcode; the
    five compressed forms that share encodings exclude the field values of the
    other form. *)
Theorem decode_inst_op_correct (fl : isa) (inst : Z) :
  (decode_inst_op fl inst <> rv_op_illegal ->
   inst .& rv_inst_mask (decode_inst_op fl inst) = rv_inst_match (decode_inst_op fl inst))
  /\ (forall o, rv_base fl o -> inst .& rv_inst_mask o = rv_inst_match o ->
      holds_excl (op_excl o) inst -> decode_inst_op fl inst = o).
Proof. split; [apply op_sound | intros o; apply op_complete]. Qed.

Lemma decode_inst_op_correct_witness :
  (decode_inst_op isa_rv64 0x02a5d533 = rv_op_divu
   /\ 0x02a5d533 .& rv_inst_mask (decode_inst_op isa_rv64 0x02a5d533)
      = rv_inst_match (decode_inst_op isa_rv64 0x02a5d533))
  /\ decode_inst_op isa_rv64 0x10505 = rv_op_c_addi.
Proof.
  split; [split; [reflexivity |] |].
  - apply (proj1 (decode_inst_op_correct isa_rv64 0x02a5d533)).
    intros E. apply (f_equal rv_op_num) in E. vm_compute in E. discriminate E.
  - apply (proj2 (decode_inst_op_correct isa_rv64 0x10505)).
    + right; left; split; reflexivity.
    + reflexivity.
    + repeat constructor. vm_compute. congruence.
Defined.

(** No leaf of the tree assigns an opcode of [l]. *)
Fixpoint avoids (l : list rv_op) (t : dtree) : bool :=
  match t with
  | Op alts => forallb (fun a => negb (mem_op (snd a) l)) alts
  | Sw _ cases => forallb (fun c => avoids l (snd c)) cases
  | SwD _ cases d => forallb (fun c => avoids l (snd c)) cases && avoids l d
  end.

Lemma avoids_sound (fl : isa) (inst : Z) (l : list rv_op) (t : dtree) :
  mem_op rv_op_illegal l = false -> avoids l t = true -> mem_op (run fl t inst) l = false.
Proof.
  intros Hil. induction t as [alts | sel cases HF | sel cases d HF IHd] using dtree_rect';
    cbn [avoids run].
  - intros E. destruct (pick_In fl alts) as [-> | Hin]; [exact Hil |].
    apply in_map_iff in Hin as [a [<- Hin]]. apply (forallb_In _ _ _ E), negb_true_iff in Hin.
    exact Hin.
  - intros E. induction HF as [|[x t'] cs Ht HF IH]; [exact Hil |].
    cbn [forallb snd] in *. apply andb_true_iff in E as [E1 E2].
    destruct (_ =? x); [exact (Ht E1) | exact (IH E2)].
  - intros E. apply andb_true_iff in E as [E E'].
    induction HF as [|[x t'] cs Ht HF IH]; [exact (IHd E') |].
    cbn [forallb snd] in *. apply andb_true_iff in E as [E1 E2].
    destruct (_ =? x); [exact (Ht E1) | exact (IH E2)].
Qed.

(** The RV128 compressed loads and stores are in the metadata tables but no
    word decodes to them, on any extension set. *)
Theorem rv128_c_unreachable (fl : isa) (inst : Z) :
  mem_op (decode_inst_op fl inst) rv128_c_ops = false.
Proof. apply avoids_sound; vm_compute; reflexivity. Qed.
