(* ===== verification/Decoder.v ===== *)
(** * The codec: [asm/codec.h] and [asm/constraints.h]

    Decoding a word (opcode switch, then operands, then expansion of compressed
    forms), compression, and the pseudo-instruction mappings. *)

From Stdlib Require Import ZArith Lia Bool.
From stdpp Require Import base list.
From S2P Require Import Prelude Operand Meta CompTables Codec Switch.

#[local] Open Scope Z_scope.
#[local] Open Scope word_scope.

(** ** Constraints *)

(** One case of the switch in [constraint_check]. *)
Definition constraint_holds (d : decode) (c : rvc_constraint) : bool :=
  match c with
  | rvc_end => true
  | rvc_simm_6 => (imm d >=? -32) && (imm d <? 32)
  | rvc_simm_9 => (imm d >=? -256) && (imm d <? 256)
  | rvc_simm_10 => (imm d >=? -512) && (imm d <? 512)
  | rvc_simm_12 => (imm d >=? -2048) && (imm d <? 2048)
  | rvc_imm_5 => (imm d >=? 0) && (imm d <=? 0x1f)
  | rvc_imm_6 => (imm d >=? 0) && (imm d <=? 0x3f)
  | rvc_imm_7 => (imm d >=? 0) && (imm d <=? 0x7f)
  | rvc_imm_8 => (imm d >=? 0) && (imm d <=? 0xff)
  | rvc_imm_9 => (imm d >=? 0) && (imm d <=? 0x1ff)
  | rvc_imm_10 => (imm d >=? 0) && (imm d <=? 0x3ff)
  | rvc_imm_12 => (imm d >=? 0) && (imm d <=? 0xfff)
  | rvc_imm_18 => (imm d >=? 0) && (imm d <=? 0x3ffff)
  | rvc_imm_nz => negb (imm d =? 0)
  | rvc_imm_x2 => (imm d .& 0x1) =? 0
  | rvc_imm_x4 => (imm d .& 0x3) =? 0
  | rvc_imm_x8 => (imm d .& 0x7) =? 0
  | rvc_imm_x16 => (imm d .& 0xf) =? 0
  | rvc_rd_b3 => (rd d >=? 8) && (rd d <=? 15)
  | rvc_rs1_b3 => (rs1 d >=? 8) && (rs1 d <=? 15)
  | rvc_rs2_b3 => (rs2 d >=? 8) && (rs2 d <=? 15)
  | rvc_rd_eq_rs1 => rd d =? rs1 d
  | rvc_rd_eq_ra => rd d =? 1
  | rvc_rd_eq_sp => rd d =? 2
  | rvc_rd_eq_x0 => rd d =? 0
  | rvc_rs1_eq_sp => rs1 d =? 2
  | rvc_rs1_eq_x0 => rs1 d =? 0
  | rvc_rs2_eq_x0 => rs2 d =? 0
  | rvc_rd_ne_x0_x2 => negb (rd d =? 0) && negb (rd d =? 2)
  | rvc_rd_ne_x0 => negb (rd d =? 0)
  | rvc_rs1_ne_x0 => negb (rs1 d =? 0)
  | rvc_rs2_ne_x0 => negb (rs2 d =? 0)
  | rvc_rs2_eq_rs1 => rs2 d =? rs1 d
  | rvc_rs1_eq_ra => rs1 d =? 1
  | rvc_imm_eq_zero => imm d =? 0
  | rvc_imm_eq_n1 => imm d =? -1
  | rvc_imm_eq_p1 => imm d =? 1
  | rvc_csr_eq_0x001 => imm d =? 0x001
  | rvc_csr_eq_0x002 => imm d =? 0x002
  | rvc_csr_eq_0x003 => imm d =? 0x003
  | rvc_csr_eq_0xc00 => imm d =? 0xc00
  | rvc_csr_eq_0xc01 => imm d =? 0xc01
  | rvc_csr_eq_0xc02 => imm d =? 0xc02
  | rvc_csr_eq_0xc80 => imm d =? 0xc80
  | rvc_csr_eq_0xc81 => imm d =? 0xc81
  | rvc_csr_eq_0xc82 => imm d =? 0xc82
  end.

(** The loop runs to the terminator; every array has one. *)
Fixpoint constraint_check (d : decode) (cs : list rvc_constraint) : bool :=
  match cs with
  | [] | rvc_end :: _ => true
  | c :: t => if constraint_holds d c then constraint_check d t else false
  end.

Definition constraint_set1 (d : decode) (c : rvc_constraint) : decode :=
  match c with
  | rvc_rd_eq_rs1 => set_rd (rs1 d) d
  | rvc_rd_eq_ra => set_rd 1 d
  | rvc_rd_eq_sp => set_rd 2 d
  | rvc_rd_eq_x0 => set_rd 0 d
  | rvc_rs1_eq_sp => set_rs1 2 d
  | rvc_rs1_eq_x0 => set_rs1 0 d
  | rvc_rs2_eq_x0 => set_rs2 0 d
  | rvc_rs2_eq_rs1 => set_rs2 (rs1 d) d
  | rvc_rs1_eq_ra => set_rs1 1 d
  | rvc_imm_eq_zero => set_imm 0 d
  | rvc_imm_eq_n1 => set_imm (-1) d
  | rvc_imm_eq_p1 => set_imm 1 d
  | rvc_csr_eq_0x001 => set_imm 0x001 d
  | rvc_csr_eq_0x002 => set_imm 0x002 d
  | rvc_csr_eq_0x003 => set_imm 0x003 d
  | rvc_csr_eq_0xc00 => set_imm 0xc00 d
  | rvc_csr_eq_0xc01 => set_imm 0xc01 d
  | rvc_csr_eq_0xc02 => set_imm 0xc02 d
  | rvc_csr_eq_0xc80 => set_imm 0xc80 d
  | rvc_csr_eq_0xc81 => set_imm 0xc81 d
  | rvc_csr_eq_0xc82 => set_imm 0xc82 d
  | _ => d
  end.

Fixpoint constraint_set (d : decode) (cs : list rvc_constraint) : decode :=
  match cs with
  | [] | rvc_end :: _ => d
  | c :: t => constraint_set (constraint_set1 d c) t
  end.

(** ** Decoding *)

Definition decompress (table : rv_op -> rv_op) (dec : decode) : decode :=
  let decomp_op := table (op dec) in
  if bool_decide (decomp_op = rv_op_illegal) then dec
  else set_codec (rv_inst_codec decomp_op) (set_op decomp_op dec).

Definition decompress_inst_rv32 : decode -> decode := decompress rv_inst_decomp_rv32.
Definition decompress_inst_rv64 : decode -> decode := decompress rv_inst_decomp_rv64.
Definition decompress_inst_rv128 : decode -> decode := decompress rv_inst_decomp_rv128.

Definition decode_inst (fl : isa) (dec : decode) (inst : Z) : decode :=
  let dec := set_op (decode_inst_op fl inst) dec in
  decode_inst_type dec inst.

Definition decode_inst_rv32 (dec : decode) (inst : Z) : decode :=
  decompress_inst_rv32 (decode_inst isa_rv32 dec inst).
Definition decode_inst_rv64 (dec : decode) (inst : Z) : decode :=
  decompress_inst_rv64 (decode_inst isa_rv64 dec inst).
Definition decode_inst_rv128 (dec : decode) (inst : Z) : decode :=
  decompress_inst_rv128 (decode_inst isa_rv128 dec inst).

(** ** Compression and pseudo-instructions

    The functions return [false] and leave the record alone ([None] here) or
    update it and return [true]. *)

Fixpoint comp_scan (dec : decode) (comp_data : list rv_comp_data) : option decode :=
  match comp_data with
  | [] | Comp _ None :: _ => None
  | Comp o (Some cs) :: t =>
      if constraint_check dec cs then Some (set_codec (rv_inst_codec o) (set_op o dec))
      else comp_scan dec t
  end.

Definition comp_table (table : rv_op -> option (list rv_comp_data)) (dec : decode) : option decode :=
  match table (op dec) with
  | None => None
  | Some comp_data => comp_scan dec comp_data
  end.

Definition decode_pseudo_inst : decode -> option decode := comp_table rv_inst_pseudo.
Definition compress_inst_rv32 : decode -> option decode := comp_table rv_inst_comp_rv32.
Definition compress_inst_rv64 : decode -> option decode := comp_table rv_inst_comp_rv64.
Definition compress_inst_rv128 : decode -> option decode := comp_table rv_inst_comp_rv128.

Definition encode_pseudo (dec : decode) : option decode :=
  match rv_inst_depseudo (op dec) with
  | Comp _ None => None
  | Comp o (Some cs) => Some (constraint_set (set_codec (rv_inst_codec o) (set_op o dec)) cs)
  end.

(** ** Encode, then decode *)

(** Side conditions of the compressed forms that share an encoding with a
    different instruction. *)
Definition op_guard (d : decode) : Prop :=
  match op d with
  | rv_op_c_addi => rd d <> 0 \/ imm d <> 0
  | rv_op_c_lui => rd d <> 2
  | rv_op_c_mv => rs1 d <> 0
  | rv_op_c_add => rs2 d <> 0
  | rv_op_c_jalr => rs1 d <> 0
  | _ => True
  end.

Lemma word_matches_mask (d : decode) :
  wf_decode d ->
  (rv_inst_match (op d) .| shape_encode (shape_of (codec d)) d) .& rv_inst_mask (op d)
  = rv_inst_match (op d).
Proof.
  intros [Hc [_ Hb]].
  rewrite Z.land_lor_distr_l, match_in_mask.
  assert (H : forall sh, Forall (src_fixed d) sh ->
    shape_encode sh d .& rv_inst_mask (op d) .| rv_inst_match (op d) = rv_inst_match (op d)).
  { intros sh. induction 1 as [|[f s] sh Hf _ IH]; [apply Z.lor_0_l |].
    rewrite shape_encode_cons, Z.land_lor_distr_l, <- Z.lor_assoc, IH.
    destruct s as [z | o b | o b]; cbn [fs_term snd fst]; try apply Z.lor_0_l.
    unfold src_fixed in Hf. cbn [snd fst] in Hf. rewrite Hf.
    zbits n Hn. destruct (Z.testbit (rv_inst_match (op d)) n); [apply orb_true_r | reflexivity]. }
  rewrite Z.lor_comm. apply H, Hb.
Qed.

(** A word with no bit set in the positions of an operand decodes to zero there. *)
Lemma op_decode_clear (o : operand) (inst : Z) :
  operand_facts o -> (forall i, in_dsts (swaps (o_moves o)) i = true -> Z.testbit inst i = false) ->
  op_decode o inst = 0.
Proof.
  intros F H. unfold op_decode. cbv zeta.
  replace (imm_decode (o_segs o) inst) with 0.
  - unfold sign_extend. destruct (o_signed o); [|reflexivity].
    pose proof (of_width o F). pose proof (of_align o F).
    apply swrap_small; [lia |]. pose proof (pow2_pos (o_width o - 1) ltac:(lia)). unfold in_s; lia.
  - symmetry. apply Z.bits_inj'. intros k Hk. rewrite Z.testbit_0_l.
    rewrite imm_decode_moves by (apply (of_segs o F) || lia).
    rewrite (mv_ext_src _ _ (fun _ => false)) by exact H. apply mv_false.
Qed.

Lemma sel_crd (inst : Z) : sel_val [(7, 0x1f)] inst = op_decode operand_crd inst.
Proof. unfold op_decode, sel_val. cbn. rewrite ?Z.lor_0_r, ?Z.lor_0_l. reflexivity. Qed.

Lemma sel_crs2 (inst : Z) : sel_val [(2, 0x1f)] inst = op_decode operand_crs2 inst.
Proof. unfold op_decode, sel_val. cbn. rewrite ?Z.lor_0_r, ?Z.lor_0_l. reflexivity. Qed.

(** [inst[12:2]] clear: the [c.nop] case. *)
Lemma sel_nop (inst : Z) :
  sel_val [(2, 0x7ff)] inst = 0 -> op_decode operand_crs1rd inst = 0 /\ op_decode operand_cimmi inst = 0.
Proof.
  unfold sel_val. cbn [fold_right]. rewrite Z.lor_0_r. intros E.
  assert (Hb : forall i, 2 <= i <= 12 -> Z.testbit inst i = false).
  { intros i Hi. apply (f_equal (fun z => Z.testbit z (i - 2))) in E.
    rewrite Z.land_spec, Z.shiftr_spec, Z.testbit_0_l in E by lia.
    change 0x7ff with (2 ^ 11 - 1) in E. rewrite testbit_pow2_m1 in E by lia.
    rewrite (proj2 (Z.ltb_lt (i - 2) 11)), andb_true_r in E by lia.
    replace (i - 2 + 2) with i in E by lia. exact E. }
  split; apply op_decode_clear; try (apply operand_In_facts; unfold all_operands; simpl; tauto);
    intros i Hi; apply Hb; cbn - [Z.leb Z.ltb] in Hi;
    unfold b_width in Hi; cbn [b_n b_m] in Hi;
    rewrite ?orb_true_iff, ?andb_true_iff, ?Z.leb_le, ?Z.ltb_lt in Hi;
    repeat match type of Hi with _ \/ _ => destruct Hi as [Hi | Hi] end; try discriminate Hi; lia.
Qed.

(** The guard contradicts the excluded selector value, read as field [f]. *)
Ltac field_of f o :=
  match goal with Hf : forall f o b, _ |- _ =>
    solve [ pose proof (proj1 (Hf f o 0 ltac:(simpl; tauto))) as H; cbn [get] in H;
            try (change operand_crs1 with operand_crd in H); lia ] end.

Lemma guard_holds_excl (d : decode) :
  wf_decode d -> op_guard d ->
  holds_excl (op_excl (op d)) (rv_inst_match (op d) .| shape_encode (shape_of (codec d)) d).
Proof.
  intros Hwf Hg. pose proof (fun f o b => op_decode_field d f o b Hwf) as Hf.
  pose proof Hwf as [Hc _].
  set (w := rv_inst_match (op d) .| shape_encode (shape_of (codec d)) d) in *.
  destruct (op d) eqn:Eo; try (apply Forall_nil; exact I); unfold op_guard in Hg; rewrite Eo in Hg;
    apply Forall_singleton; cbn [fst snd]; cbn [rv_inst_codec] in Hc; rewrite Hc in Hf;
    cbn [shape_of] in Hf.
  all: try solve [
    intros E; rewrite ?sel_crd, ?sel_crs2 in E;
    first [ field_of F_rd operand_crd | field_of F_rs1 operand_crs2
          | field_of F_rs2 operand_crs2 | field_of F_rs1 operand_crs1 ] ].
  intros E. apply sel_nop in E as [E1 E2].
  pose proof (proj1 (Hf F_rs1 operand_crs1rd 0 ltac:(simpl; tauto))) as H1.
  pose proof (proj1 (Hf F_imm operand_cimmi 0 ltac:(simpl; tauto))) as H2.
  pose proof Hwf as [_ [[Hs _] _]]. rewrite Hc in Hs. cbn [shape_of] in Hs.
  apply Forall_cons in Hs as [Hs _]. cbn [src_wf get] in *. lia.
Qed.

(** The word of a well-formed instruction decodes to it. *)
Lemma word_decodes (fl : isa) (d : decode) :
  rv_base fl (op d) -> wf_decode d -> op_guard d ->
  decode_inst fl decode_init (rv_inst_match (op d) .| shape_encode (shape_of (codec d)) d) = d.
Proof.
  intros Hb Hwf Hg. unfold decode_inst. rewrite (op_complete fl (op d)); [|assumption | |].
  - apply decode_type_encode, Hwf.
  - apply word_matches_mask, Hwf.
  - apply guard_holds_excl; assumption.
Qed.
Lemma encode_then_decode (fl : isa) (d : decode) :
  rv_base fl (op d) -> wf_decode d -> op_guard d -> codec d <> rv_codec_cs ->
  exists w, encode_inst d = Some (d, w) /\ decode_inst fl decode_init w = d.
Proof.
  intros Hb Hwf Hg Hcs. eexists. split; [apply encode_inst_shape; assumption | apply word_decodes; assumption].
Qed.

(** What [encode_cs] encodes: [rd] in the place of [rs2]. *)
Definition encoded (d : decode) : decode := match codec d with rv_codec_cs => set_rs2 (rd d) d | _ => d end.

(** No opcode of the format fixes a bit of [rs2]. *)
Lemma cs_fixed (o : rv_op) (x : Z) : rv_inst_codec o = rv_codec_cs -> 0 <= x < 8 ->
  op_encode operand_crs2q x .& rv_inst_mask o = rv_inst_match o .& o_bits operand_crs2q.
Proof.
  intros E Hx. assert (Hc : x = 0 \/ x = 1 \/ x = 2 \/ x = 3 \/ x = 4 \/ x = 5 \/ x = 6 \/ x = 7) by lia.
  destruct o; try discriminate E; repeat destruct Hc as [-> | Hc]; try subst x; vm_compute; reflexivity.
Qed.

Lemma encode_cs_word (d : decode) : wf_decode d -> codec d = rv_codec_cs ->
  wf_decode (set_rs2 (rd d) d)
  /\ encode_inst d = Some (d, rv_inst_match (op d) .| shape_encode (shape_of rv_codec_cs) (set_rs2 (rd d) d)).
Proof.
  intros (Hc & (Hs & Hu) & Hb) Ec. rewrite Ec in Hs, Hu, Hb.
  cbn [shape_of] in Hs, Hb. rewrite !Forall_cons in Hs, Hb. cbn [src_wf get] in Hs.
  destruct Hs as (Hrd & H1 & H2 & Hi & _). destruct Hb as (B1 & B2 & _ & B4 & _).
  pose proof (proj1 H1) as R1. change (in_u 3 (rs1 d - 8)) in R1. unfold in_u in R1. change (2 ^ 3) with 8 in R1.
  assert (E8 : uwrap 8 (rd d) = rs1 d) by (rewrite Hrd; apply uwrap_small; split; [lia | change (2 ^ 8) with 256; lia]). split.
  - split; [exact Hc |]. cbn [codec set_rs2]. rewrite Ec. split; [split |].
    + cbn [shape_of]. rewrite !Forall_cons. cbn [src_wf get rd rs1 rs2 imm set_rs2].
      split; [exact Hrd |]. split; [exact H1 |]. split; [rewrite E8; exact H1 |]. split; [exact Hi | apply Forall_nil; exact I].
    + intros f. specialize (Hu f). destruct f; first [exact Hu | discriminate].
    + cbn [shape_of]. rewrite !Forall_cons. split; [exact B1 |]. split; [exact B2 |]. split; [| split; [exact B4 | apply Forall_nil; exact I]].
      cbn [src_fixed snd fst get set_rs2 op rd rs2]. rewrite E8. apply cs_fixed; [congruence | exact R1].
  - unfold encode_inst. assert (Ed : set_codec (rv_inst_codec (op d)) d = d) by (rewrite <- Hc; destruct d; reflexivity).
    rewrite Ed. cbv zeta. rewrite Ec. autounfold with encoders; assertions.
    cbn [option_map shape_of shape_encode fold_left get rd rs1 rs2 imm set_rs2]. rewrite ?op_encode_plus8 by (simpl; tauto).
    rewrite ?Z.sub_0_r, ?Z.lor_0_l, ?Z.lor_0_r, E8, Hrd. do 3 f_equal. apply Z.lor_comm.
Qed.

(** Encoding, then decoding. *)
Lemma encode_then_decode_any (fl : isa) (d : decode) :
  rv_base fl (op d) -> wf_decode d -> op_guard d ->
  exists w, encode_inst d = Some (d, w) /\ decode_inst fl decode_init w = encoded d.
Proof.
  intros Hb Hwf Hg. unfold encoded. destruct (decide (codec d = rv_codec_cs)) as [Ec | Ec].
  - destruct (encode_cs_word d Hwf Ec) as [Hwf' Ee]. eexists. split; [exact Ee |]. rewrite Ec.
    pose proof (word_decodes fl (set_rs2 (rd d) d) Hb Hwf') as E. cbn [codec op set_rs2] in E. rewrite Ec in E. apply E.
    unfold op_guard. cbn [op set_rs2]. assert (Eo : rv_inst_codec (op d) = rv_codec_cs) by (destruct Hwf; congruence).
    destruct (op d); try exact I; discriminate Eo.
  - destruct (encode_then_decode fl d Hb Hwf Hg Ec) as (w & Ee & Ed). exists w. split; [exact Ee |]. rewrite Ed.
    destruct (codec d); congruence.
Qed.

(** C2: for every well-formed instruction of the base (compressed forms
    included), encoding succeeds and decoding the encoded word gives back the
    instruction, opcode, codec and all operand fields; but for the CS
    register-register format, whose encoder writes [rd] in the place of [rs2]:
    these come back with [rs2] replaced by [rd] and nothing else changed.  A
    compressed form whose fields make it another instruction ([c.addi] of zero to
    [x0], [c.lui] of [sp], [c.mv] and [c.jalr] of [x0] in [rs1], [c.add] of [x0] in
    [rs2]) is not an instruction of its opcode ([op_guard]). *)
Theorem decode_encode_inst (fl : isa) (d : decode) :
  rv_base fl (op d) -> wf_decode d -> op_guard d ->
  exists w, encode_inst d = Some (d, w) /\ decode_inst fl decode_init w = encoded d.
Proof. apply encode_then_decode_any. Qed.

(** Evaluate well-formedness on a concrete instruction. *)
Ltac wf_eval :=
  split; [reflexivity | split; [split |]];
  [ repeat (apply Forall_cons; split); try apply Forall_nil;
    try reflexivity; split; try reflexivity; split; vm_compute; congruence
  | intros f; destruct f; vm_compute; congruence
  | repeat (apply Forall_cons; split); try apply Forall_nil; try exact I; reflexivity ].

Lemma decode_encode_inst_witness :
  let d := mkDecode (-16) 2 2 0 0 rv_op_c_addi rv_codec_ci 0 0 0 0 0 in
  encode_inst d = Some (d, 0x1141)
  /\ exists w, encode_inst d = Some (d, w) /\ decode_inst isa_rv64 decode_init w = d.
Proof.
  split; [reflexivity | apply (decode_encode_inst isa_rv64)].
  - right; left; split; reflexivity.
  - wf_eval.
  - left. cbn. congruence.
Defined.

Lemma shape_decode_keeps (sh : shape) (d : decode) (inst : Z) :
  op (shape_decode sh d inst) = op d /\ codec (shape_decode sh d inst) = codec d.
Proof.
  unfold shape_decode. revert d. induction sh as [|[f s] sh IH]; intros d; cbn [fold_left]; [auto |].
  destruct (IH (set f (src_val s inst) d)) as [-> ->]. destruct f; auto.
Qed.

(** Re-encoding a decoded operand reproduces the fixed bits it contains. *)
Lemma reencode_masked (p : operand) (inst mask m : Z) :
  In p all_operands -> in_u 64 inst -> inst .& mask = m ->
  op_encode p (op_decode p inst) .& mask = m .& o_bits p.
Proof.
  intros Hp Hi <-. pose proof (operand_In_facts p Hp) as F. zbits n Hn.
  unfold o_bits. rewrite testbit_o_bits by assumption.
  rewrite (proj2 (operand_decode_bits p inst F Hi)) by assumption.
  destruct (in_dsts _ n), (Z.testbit inst n), (Z.testbit mask n); reflexivity.
Qed.

Lemma decoded_wf (fl : isa) (inst : Z) :
  in_u 64 inst -> decode_inst_op fl inst <> rv_op_illegal ->
  wf_decode (decode_inst fl decode_init inst).
Proof.
  intros Hi Hop. unfold decode_inst. set (o := decode_inst_op fl inst) in *.
  pose proof (tests_mask_sound fl inst tree_root 0 0 (Z.land_0_r _) tree_tests_mask Hop) as Hm.
  change (run fl tree_root inst) with o in Hm.
  rewrite decode_inst_type_shape. cbn [op set_op]. set (c := rv_inst_codec o).
  set (d0 := set_codec c (set_op o decode_init)).
  pose proof (shape_of_facts c) as SF.
  destruct (shape_decode_keeps (shape_of c) d0 inst) as [Eo Ec].
  assert (Hval : forall f p b, In (f, SOp p b) (shape_of c) ->
            get f (shape_decode (shape_of c) d0 inst) = op_decode p inst + b).
  { intros f p b Hin. rewrite (get_shape_decode _ _ _ f _ (sf_nodup _ SF) Hin). cbn [src_val].
    destruct (sf_op _ SF _ _ _ Hin) as [Hp Hcv]. pose proof (operand_In_facts p Hp) as F.
    apply (conv_ok_conv f p b); [assumption | assumption |].
    replace (op_decode p inst + b - b) with (op_decode p inst) by lia.
    apply operand_decode_fits; [assumption | apply Hi]. }
  unfold wf_decode. rewrite Eo, Ec. cbn [op codec d0 set_codec set_op].
  split; [reflexivity | split; [split |]].
  - apply List.Forall_forall. intros [f s] Hin. destruct s as [z | p b | p b]; cbn [src_wf].
    + rewrite (get_shape_decode _ _ _ f _ (sf_nodup _ SF) Hin). apply (sf_const _ SF), Hin.
    + rewrite (Hval f p b Hin). replace (op_decode p inst + b - b) with (op_decode p inst) by lia.
      apply operand_decode_fits; [|apply Hi]. apply operand_In_facts, (sf_op _ SF _ _ _ Hin).
    + destruct (sf_copy _ SF _ _ _ Hin) as [Hin1 ->].
      rewrite (get_shape_decode _ _ _ F_rd _ (sf_nodup _ SF) Hin).
      pose proof (get_shape_decode _ d0 inst F_rs1 _ (sf_nodup _ SF) Hin1) as E1.
      cbn [get] in E1. rewrite E1. reflexivity.
  - intros f Hf. rewrite get_shape_decode_other by assumption. destruct f; reflexivity.
  - apply List.Forall_forall. intros [f s] Hin. destruct s as [z | p b | p b]; try exact I.
    unfold src_fixed. cbn [snd fst]. rewrite (Hval f p b Hin), Eo. cbn [op d0 set_codec set_op].
    replace (op_decode p inst + b - b) with (op_decode p inst) by lia.
    apply reencode_masked; [apply (sf_op _ SF _ _ _ Hin) | assumption | exact Hm].
Qed.

(** C18: decoding any word that is not illegal gives a well-formed instruction:
    the opcode's codec, every operand in its range and aligned, implied fields
    at their values, unused fields untouched, and the bits the opcode fixes
    inside an operand respected. *)
Theorem decode_inst_wf (fl : isa) (inst : Z) :
  in_u 64 inst -> decode_inst_op fl inst <> rv_op_illegal ->
  wf_decode (decode_inst fl decode_init inst).
Proof. apply decoded_wf. Qed.

Lemma decode_inst_wf_witness :
  decode_inst isa_rv64 decode_init 0xfe0718e3
    = mkDecode (-16) 0 14 0 0 rv_op_bne rv_codec_sb 0 0 0 0 0
  /\ wf_decode (decode_inst isa_rv64 decode_init 0xfe0718e3).
Proof.
  split; [reflexivity | apply decode_inst_wf].
  - split; vm_compute; congruence.
  - intros E. apply (f_equal rv_op_num) in E. vm_compute in E. discriminate E.
Defined.
