(* ===== verification/Emit.v ===== *)
(** * The instruction emitters: [asm/jit.cc]

    One function per instruction: it checks its operands against the
    width-typed immediates of [asm/types.h], fills a record and encodes it. *)

From Stdlib Require Import ZArith Lia Bool List.
From stdpp Require Import base list.
From S2P Require Import Prelude Operand Meta CompTables Codec Switch Decoder.

#[local] Open Scope Z_scope.
#[local] Open Scope word_scope.

(** ** Width-typed immediates *)

(** [offset_t], [ptr_t], [simm_t] and [uimm_t]; the constructor converts to the
    64-bit type of the value. *)
Inductive imm_type : Type := offset_t (width : Z) | ptr_t (width : Z) | simm_t (width : Z) | uimm_t (width : Z).

Definition imm_value (t : imm_type) (x : Z) : Z :=
  match t with offset_t _ | simm_t _ => swrap 64 x | ptr_t _ | uimm_t _ => uwrap 64 x end.

Definition valid (t : imm_type) (x : Z) : bool :=
  match t with
  | offset_t w | simm_t w => (imm_value t x <=? 2 ^ (w - 1) - 1) && (imm_value t x >=? - 2 ^ (w - 1))
  | ptr_t w | uimm_t w => imm_value t x <=? 2 ^ w - 1
  end.

Definition offset32 : imm_type := offset_t 32.
Definition offset21 : imm_type := offset_t 21.
Definition offset13 : imm_type := offset_t 13.
Definition offset12 : imm_type := offset_t 12.
Definition simm32 : imm_type := simm_t 32.
Definition simm12 : imm_type := simm_t 12.
Definition uimm12 : imm_type := uimm_t 12.
Definition uimm7 : imm_type := uimm_t 7.
Definition uimm6 : imm_type := uimm_t 6.
Definition uimm5 : imm_type := uimm_t 5.
Definition ireg5 : imm_type := uimm_t 5.
Definition freg5 : imm_type := uimm_t 5.
Definition arg4 : imm_type := uimm_t 4.
Definition arg3 : imm_type := uimm_t 3.
Definition arg1 : imm_type := uimm_t 1.

(** ** The body of an emitter *)

(** An operand: its type, the field of the record it is assigned to, its value. *)
Definition argument : Type := imm_type * field * Z.

(** The record an emitter fills; [None] where an operand is not valid. *)
Definition build (o : rv_op) (args : list argument) : option decode :=
  if forallb (fun '(t, _, x) => valid t x) args
  then Some (fold_left (fun dec '(t, f, x) => set f (imm_value t x) dec) args (set_op o decode_init))
  else None.

(** The word, 0 for operands that are not valid; [None] is a failed assertion. *)
Definition emit (o : rv_op) (args : list argument) : option Z :=
  match build o args with
  | None => Some 0
  | Some dec => option_map snd (encode_inst dec)
  end.

(** ** The emitters *)

Definition emit_lui (rd imm20 : Z) : option Z :=
  emit rv_op_lui [(ireg5, F_rd, rd); (simm32, F_imm, imm20)].
Definition emit_auipc (rd oimm20 : Z) : option Z :=
  emit rv_op_auipc [(ireg5, F_rd, rd); (offset32, F_imm, oimm20)].
Definition emit_jal (rd jimm20 : Z) : option Z :=
  emit rv_op_jal [(ireg5, F_rd, rd); (offset21, F_imm, jimm20)].
Definition emit_jalr (rd rs1 imm12 : Z) : option Z :=
  emit rv_op_jalr [(ireg5, F_rd, rd); (ireg5, F_rs1, rs1); (simm12, F_imm, imm12)].
Definition emit_beq (rs1 rs2 sbimm12 : Z) : option Z :=
  emit rv_op_beq [(ireg5, F_rs1, rs1); (ireg5, F_rs2, rs2); (offset13, F_imm, sbimm12)].
Definition emit_bne (rs1 rs2 sbimm12 : Z) : option Z :=
  emit rv_op_bne [(ireg5, F_rs1, rs1); (ireg5, F_rs2, rs2); (offset13, F_imm, sbimm12)].
Definition emit_blt (rs1 rs2 sbimm12 : Z) : option Z :=
  emit rv_op_blt [(ireg5, F_rs1, rs1); (ireg5, F_rs2, rs2); (offset13, F_imm, sbimm12)].
Definition emit_bge (rs1 rs2 sbimm12 : Z) : option Z :=
  emit rv_op_bge [(ireg5, F_rs1, rs1); (ireg5, F_rs2, rs2); (offset13, F_imm, sbimm12)].
Definition emit_bltu (rs1 rs2 sbimm12 : Z) : option Z :=
  emit rv_op_bltu [(ireg5, F_rs1, rs1); (ireg5, F_rs2, rs2); (offset13, F_imm, sbimm12)].
Definition emit_bgeu (rs1 rs2 sbimm12 : Z) : option Z :=
  emit rv_op_bgeu [(ireg5, F_rs1, rs1); (ireg5, F_rs2, rs2); (offset13, F_imm, sbimm12)].
Definition emit_lb (rd rs1 oimm12 : Z) : option Z :=
  emit rv_op_lb [(ireg5, F_rd, rd); (ireg5, F_rs1, rs1); (offset12, F_imm, oimm12)].
Definition emit_lh (rd rs1 oimm12 : Z) : option Z :=
  emit rv_op_lh [(ireg5, F_rd, rd); (ireg5, F_rs1, rs1); (offset12, F_imm, oimm12)].
Definition emit_lw (rd rs1 oimm12 : Z) : option Z :=
  emit rv_op_lw [(ireg5, F_rd, rd); (ireg5, F_rs1, rs1); (offset12, F_imm, oimm12)].
Definition emit_lbu (rd rs1 oimm12 : Z) : option Z :=
  emit rv_op_lbu [(ireg5, F_rd, rd); (ireg5, F_rs1, rs1); (offset12, F_imm, oimm12)].
Definition emit_lhu (rd rs1 oimm12 : Z) : option Z :=
  emit rv_op_lhu [(ireg5, F_rd, rd); (ireg5, F_rs1, rs1); (offset12, F_imm, oimm12)].
Definition emit_sb (rs1 rs2 simm12 : Z) : option Z :=
  emit rv_op_sb [(ireg5, F_rs1, rs1); (ireg5, F_rs2, rs2); (offset12, F_imm, simm12)].
Definition emit_sh (rs1 rs2 simm12 : Z) : option Z :=
  emit rv_op_sh [(ireg5, F_rs1, rs1); (ireg5, F_rs2, rs2); (offset12, F_imm, simm12)].
Definition emit_sw (rs1 rs2 simm12 : Z) : option Z :=
  emit rv_op_sw [(ireg5, F_rs1, rs1); (ireg5, F_rs2, rs2); (offset12, F_imm, simm12)].
Definition emit_addi (rd rs1 imm12 : Z) : option Z :=
  emit rv_op_addi [(ireg5, F_rd, rd); (ireg5, F_rs1, rs1); (simm12, F_imm, imm12)].
Definition emit_slti (rd rs1 imm12 : Z) : option Z :=
  emit rv_op_slti [(ireg5, F_rd, rd); (ireg5, F_rs1, rs1); (simm12, F_imm, imm12)].
Definition emit_sltiu (rd rs1 imm12 : Z) : option Z :=
  emit rv_op_sltiu [(ireg5, F_rd, rd); (ireg5, F_rs1, rs1); (simm12, F_imm, imm12)].
Definition emit_xori (rd rs1 imm12 : Z) : option Z :=
  emit rv_op_xori [(ireg5, F_rd, rd); (ireg5, F_rs1, rs1); (simm12, F_imm, imm12)].
Definition emit_ori (rd rs1 imm12 : Z) : option Z :=
  emit rv_op_ori [(ireg5, F_rd, rd); (ireg5, F_rs1, rs1); (simm12, F_imm, imm12)].
Definition emit_andi (rd rs1 imm12 : Z) : option Z :=
  emit rv_op_andi [(ireg5, F_rd, rd); (ireg5, F_rs1, rs1); (simm12, F_imm, imm12)].
Definition emit_slli (rd rs1 shamt7 : Z) : option Z :=
  emit rv_op_slli [(ireg5, F_rd, rd); (ireg5, F_rs1, rs1); (uimm7, F_imm, shamt7)].
Definition emit_srli (rd rs1 shamt7 : Z) : option Z :=
  emit rv_op_srli [(ireg5, F_rd, rd); (ireg5, F_rs1, rs1); (uimm7, F_imm, shamt7)].
Definition emit_srai (rd rs1 shamt7 : Z) : option Z :=
  emit rv_op_srai [(ireg5, F_rd, rd); (ireg5, F_rs1, rs1); (uimm7, F_imm, shamt7)].
Definition emit_add (rd rs1 rs2 : Z) : option Z :=
  emit rv_op_add [(ireg5, F_rd, rd); (ireg5, F_rs1, rs1); (ireg5, F_rs2, rs2)].
Definition emit_sub (rd rs1 rs2 : Z) : option Z :=
  emit rv_op_sub [(ireg5, F_rd, rd); (ireg5, F_rs1, rs1); (ireg5, F_rs2, rs2)].
Definition emit_sll (rd rs1 rs2 : Z) : option Z :=
  emit rv_op_sll [(ireg5, F_rd, rd); (ireg5, F_rs1, rs1); (ireg5, F_rs2, rs2)].
Definition emit_slt (rd rs1 rs2 : Z) : option Z :=
  emit rv_op_slt [(ireg5, F_rd, rd); (ireg5, F_rs1, rs1); (ireg5, F_rs2, rs2)].
Definition emit_sltu (rd rs1 rs2 : Z) : option Z :=
  emit rv_op_sltu [(ireg5, F_rd, rd); (ireg5, F_rs1, rs1); (ireg5, F_rs2, rs2)].
Definition emit_xor (rd rs1 rs2 : Z) : option Z :=
  emit rv_op_xor [(ireg5, F_rd, rd); (ireg5, F_rs1, rs1); (ireg5, F_rs2, rs2)].
Definition emit_srl (rd rs1 rs2 : Z) : option Z :=
  emit rv_op_srl [(ireg5, F_rd, rd); (ireg5, F_rs1, rs1); (ireg5, F_rs2, rs2)].
Definition emit_sra (rd rs1 rs2 : Z) : option Z :=
  emit rv_op_sra [(ireg5, F_rd, rd); (ireg5, F_rs1, rs1); (ireg5, F_rs2, rs2)].
Definition emit_or (rd rs1 rs2 : Z) : option Z :=
  emit rv_op_or [(ireg5, F_rd, rd); (ireg5, F_rs1, rs1); (ireg5, F_rs2, rs2)].
Definition emit_and (rd rs1 rs2 : Z) : option Z :=
  emit rv_op_and [(ireg5, F_rd, rd); (ireg5, F_rs1, rs1); (ireg5, F_rs2, rs2)].
Definition emit_fence (pred succ : Z) : option Z :=
  emit rv_op_fence [(arg4, F_pred, pred); (arg4, F_succ, succ)].
Definition emit_fence_i : option Z :=
  emit rv_op_fence_i [].
Definition emit_lwu (rd rs1 oimm12 : Z) : option Z :=
  emit rv_op_lwu [(ireg5, F_rd, rd); (ireg5, F_rs1, rs1); (offset12, F_imm, oimm12)].
Definition emit_ld (rd rs1 oimm12 : Z) : option Z :=
  emit rv_op_ld [(ireg5, F_rd, rd); (ireg5, F_rs1, rs1); (offset12, F_imm, oimm12)].
Definition emit_sd (rs1 rs2 simm12 : Z) : option Z :=
  emit rv_op_sd [(ireg5, F_rs1, rs1); (ireg5, F_rs2, rs2); (offset12, F_imm, simm12)].
Definition emit_addiw (rd rs1 imm12 : Z) : option Z :=
  emit rv_op_addiw [(ireg5, F_rd, rd); (ireg5, F_rs1, rs1); (simm12, F_imm, imm12)].
Definition emit_slliw (rd rs1 shamt5 : Z) : option Z :=
  emit rv_op_slliw [(ireg5, F_rd, rd); (ireg5, F_rs1, rs1); (uimm5, F_imm, shamt5)].
Definition emit_srliw (rd rs1 shamt5 : Z) : option Z :=
  emit rv_op_srliw [(ireg5, F_rd, rd); (ireg5, F_rs1, rs1); (uimm5, F_imm, shamt5)].
Definition emit_sraiw (rd rs1 shamt5 : Z) : option Z :=
  emit rv_op_sraiw [(ireg5, F_rd, rd); (ireg5, F_rs1, rs1); (uimm5, F_imm, shamt5)].
Definition emit_addw (rd rs1 rs2 : Z) : option Z :=
  emit rv_op_addw [(ireg5, F_rd, rd); (ireg5, F_rs1, rs1); (ireg5, F_rs2, rs2)].
Definition emit_subw (rd rs1 rs2 : Z) : option Z :=
  emit rv_op_subw [(ireg5, F_rd, rd); (ireg5, F_rs1, rs1); (ireg5, F_rs2, rs2)].
Definition emit_sllw (rd rs1 rs2 : Z) : option Z :=
  emit rv_op_sllw [(ireg5, F_rd, rd); (ireg5, F_rs1, rs1); (ireg5, F_rs2, rs2)].
Definition emit_srlw (rd rs1 rs2 : Z) : option Z :=
  emit rv_op_srlw [(ireg5, F_rd, rd); (ireg5, F_rs1, rs1); (ireg5, F_rs2, rs2)].
Definition emit_sraw (rd rs1 rs2 : Z) : option Z :=
  emit rv_op_sraw [(ireg5, F_rd, rd); (ireg5, F_rs1, rs1); (ireg5, F_rs2, rs2)].
Definition emit_ldu (rd rs1 oimm12 : Z) : option Z :=
  emit rv_op_ldu [(ireg5, F_rd, rd); (ireg5, F_rs1, rs1); (offset12, F_imm, oimm12)].
Definition emit_lq (rd rs1 oimm12 : Z) : option Z :=
  emit rv_op_lq [(ireg5, F_rd, rd); (ireg5, F_rs1, rs1); (offset12, F_imm, oimm12)].
Definition emit_sq (rs1 rs2 simm12 : Z) : option Z :=
  emit rv_op_sq [(ireg5, F_rs1, rs1); (ireg5, F_rs2, rs2); (offset12, F_imm, simm12)].
Definition emit_addid (rd rs1 imm12 : Z) : option Z :=
  emit rv_op_addid [(ireg5, F_rd, rd); (ireg5, F_rs1, rs1); (simm12, F_imm, imm12)].
Definition emit_sllid (rd rs1 shamt6 : Z) : option Z :=
  emit rv_op_sllid [(ireg5, F_rd, rd); (ireg5, F_rs1, rs1); (uimm6, F_imm, shamt6)].
Definition emit_srlid (rd rs1 shamt6 : Z) : option Z :=
  emit rv_op_srlid [(ireg5, F_rd, rd); (ireg5, F_rs1, rs1); (uimm6, F_imm, shamt6)].
Definition emit_sraid (rd rs1 shamt6 : Z) : option Z :=
  emit rv_op_sraid [(ireg5, F_rd, rd); (ireg5, F_rs1, rs1); (uimm6, F_imm, shamt6)].
Definition emit_addd (rd rs1 rs2 : Z) : option Z :=
  emit rv_op_addd [(ireg5, F_rd, rd); (ireg5, F_rs1, rs1); (ireg5, F_rs2, rs2)].
Definition emit_subd (rd rs1 rs2 : Z) : option Z :=
  emit rv_op_subd [(ireg5, F_rd, rd); (ireg5, F_rs1, rs1); (ireg5, F_rs2, rs2)].
Definition emit_slld (rd rs1 rs2 : Z) : option Z :=
  emit rv_op_slld [(ireg5, F_rd, rd); (ireg5, F_rs1, rs1); (ireg5, F_rs2, rs2)].
Definition emit_srld (rd rs1 rs2 : Z) : option Z :=
  emit rv_op_srld [(ireg5, F_rd, rd); (ireg5, F_rs1, rs1); (ireg5, F_rs2, rs2)].
Definition emit_srad (rd rs1 rs2 : Z) : option Z :=
  emit rv_op_srad [(ireg5, F_rd, rd); (ireg5, F_rs1, rs1); (ireg5, F_rs2, rs2)].
Definition emit_mul (rd rs1 rs2 : Z) : option Z :=
  emit rv_op_mul [(ireg5, F_rd, rd); (ireg5, F_rs1, rs1); (ireg5, F_rs2, rs2)].
Definition emit_mulh (rd rs1 rs2 : Z) : option Z :=
  emit rv_op_mulh [(ireg5, F_rd, rd); (ireg5, F_rs1, rs1); (ireg5, F_rs2, rs2)].
Definition emit_mulhsu (rd rs1 rs2 : Z) : option Z :=
  emit rv_op_mulhsu [(ireg5, F_rd, rd); (ireg5, F_rs1, rs1); (ireg5, F_rs2, rs2)].
Definition emit_mulhu (rd rs1 rs2 : Z) : option Z :=
  emit rv_op_mulhu [(ireg5, F_rd, rd); (ireg5, F_rs1, rs1); (ireg5, F_rs2, rs2)].
Definition emit_div (rd rs1 rs2 : Z) : option Z :=
  emit rv_op_div [(ireg5, F_rd, rd); (ireg5, F_rs1, rs1); (ireg5, F_rs2, rs2)].
Definition emit_divu (rd rs1 rs2 : Z) : option Z :=
  emit rv_op_divu [(ireg5, F_rd, rd); (ireg5, F_rs1, rs1); (ireg5, F_rs2, rs2)].
Definition emit_rem (rd rs1 rs2 : Z) : option Z :=
  emit rv_op_rem [(ireg5, F_rd, rd); (ireg5, F_rs1, rs1); (ireg5, F_rs2, rs2)].
Definition emit_remu (rd rs1 rs2 : Z) : option Z :=
  emit rv_op_remu [(ireg5, F_rd, rd); (ireg5, F_rs1, rs1); (ireg5, F_rs2, rs2)].
Definition emit_mulw (rd rs1 rs2 : Z) : option Z :=
  emit rv_op_mulw [(ireg5, F_rd, rd); (ireg5, F_rs1, rs1); (ireg5, F_rs2, rs2)].
Definition emit_divw (rd rs1 rs2 : Z) : option Z :=
  emit rv_op_divw [(ireg5, F_rd, rd); (ireg5, F_rs1, rs1); (ireg5, F_rs2, rs2)].
Definition emit_divuw (rd rs1 rs2 : Z) : option Z :=
  emit rv_op_divuw [(ireg5, F_rd, rd); (ireg5, F_rs1, rs1); (ireg5, F_rs2, rs2)].
Definition emit_remw (rd rs1 rs2 : Z) : option Z :=
  emit rv_op_remw [(ireg5, F_rd, rd); (ireg5, F_rs1, rs1); (ireg5, F_rs2, rs2)].
Definition emit_remuw (rd rs1 rs2 : Z) : option Z :=
  emit rv_op_remuw [(ireg5, F_rd, rd); (ireg5, F_rs1, rs1); (ireg5, F_rs2, rs2)].
Definition emit_muld (rd rs1 rs2 : Z) : option Z :=
  emit rv_op_muld [(ireg5, F_rd, rd); (ireg5, F_rs1, rs1); (ireg5, F_rs2, rs2)].
Definition emit_divd (rd rs1 rs2 : Z) : option Z :=
  emit rv_op_divd [(ireg5, F_rd, rd); (ireg5, F_rs1, rs1); (ireg5, F_rs2, rs2)].
Definition emit_divud (rd rs1 rs2 : Z) : option Z :=
  emit rv_op_divud [(ireg5, F_rd, rd); (ireg5, F_rs1, rs1); (ireg5, F_rs2, rs2)].
Definition emit_remd (rd rs1 rs2 : Z) : option Z :=
  emit rv_op_remd [(ireg5, F_rd, rd); (ireg5, F_rs1, rs1); (ireg5, F_rs2, rs2)].
Definition emit_remud (rd rs1 rs2 : Z) : option Z :=
  emit rv_op_remud [(ireg5, F_rd, rd); (ireg5, F_rs1, rs1); (ireg5, F_rs2, rs2)].
Definition emit_lr_w (rd rs1 aq rl : Z) : option Z :=
  emit rv_op_lr_w [(ireg5, F_rd, rd); (ireg5, F_rs1, rs1); (arg1, F_aq, aq); (arg1, F_rl, rl)].
Definition emit_sc_w (rd rs1 rs2 aq rl : Z) : option Z :=
  emit rv_op_sc_w [(ireg5, F_rd, rd); (ireg5, F_rs1, rs1); (ireg5, F_rs2, rs2); (arg1, F_aq, aq); (arg1, F_rl, rl)].
Definition emit_amoswap_w (rd rs1 rs2 aq rl : Z) : option Z :=
  emit rv_op_amoswap_w [(ireg5, F_rd, rd); (ireg5, F_rs1, rs1); (ireg5, F_rs2, rs2); (arg1, F_aq, aq); (arg1, F_rl, rl)].
Definition emit_amoadd_w (rd rs1 rs2 aq rl : Z) : option Z :=
  emit rv_op_amoadd_w [(ireg5, F_rd, rd); (ireg5, F_rs1, rs1); (ireg5, F_rs2, rs2); (arg1, F_aq, aq); (arg1, F_rl, rl)].
Definition emit_amoxor_w (rd rs1 rs2 aq rl : Z) : option Z :=
  emit rv_op_amoxor_w [(ireg5, F_rd, rd); (ireg5, F_rs1, rs1); (ireg5, F_rs2, rs2); (arg1, F_aq, aq); (arg1, F_rl, rl)].
Definition emit_amoor_w (rd rs1 rs2 aq rl : Z) : option Z :=
  emit rv_op_amoor_w [(ireg5, F_rd, rd); (ireg5, F_rs1, rs1); (ireg5, F_rs2, rs2); (arg1, F_aq, aq); (arg1, F_rl, rl)].
Definition emit_amoand_w (rd rs1 rs2 aq rl : Z) : option Z :=
  emit rv_op_amoand_w [(ireg5, F_rd, rd); (ireg5, F_rs1, rs1); (ireg5, F_rs2, rs2); (arg1, F_aq, aq); (arg1, F_rl, rl)].
Definition emit_amomin_w (rd rs1 rs2 aq rl : Z) : option Z :=
  emit rv_op_amomin_w [(ireg5, F_rd, rd); (ireg5, F_rs1, rs1); (ireg5, F_rs2, rs2); (arg1, F_aq, aq); (arg1, F_rl, rl)].
Definition emit_amomax_w (rd rs1 rs2 aq rl : Z) : option Z :=
  emit rv_op_amomax_w [(ireg5, F_rd, rd); (ireg5, F_rs1, rs1); (ireg5, F_rs2, rs2); (arg1, F_aq, aq); (arg1, F_rl, rl)].
Definition emit_amominu_w (rd rs1 rs2 aq rl : Z) : option Z :=
  emit rv_op_amominu_w [(ireg5, F_rd, rd); (ireg5, F_rs1, rs1); (ireg5, F_rs2, rs2); (arg1, F_aq, aq); (arg1, F_rl, rl)].
Definition emit_amomaxu_w (rd rs1 rs2 aq rl : Z) : option Z :=
  emit rv_op_amomaxu_w [(ireg5, F_rd, rd); (ireg5, F_rs1, rs1); (ireg5, F_rs2, rs2); (arg1, F_aq, aq); (arg1, F_rl, rl)].
Definition emit_lr_d (rd rs1 aq rl : Z) : option Z :=
  emit rv_op_lr_d [(ireg5, F_rd, rd); (ireg5, F_rs1, rs1); (arg1, F_aq, aq); (arg1, F_rl, rl)].
Definition emit_sc_d (rd rs1 rs2 aq rl : Z) : option Z :=
  emit rv_op_sc_d [(ireg5, F_rd, rd); (ireg5, F_rs1, rs1); (ireg5, F_rs2, rs2); (arg1, F_aq, aq); (arg1, F_rl, rl)].
Definition emit_amoswap_d (rd rs1 rs2 aq rl : Z) : option Z :=
  emit rv_op_amoswap_d [(ireg5, F_rd, rd); (ireg5, F_rs1, rs1); (ireg5, F_rs2, rs2); (arg1, F_aq, aq); (arg1, F_rl, rl)].
Definition emit_amoadd_d (rd rs1 rs2 aq rl : Z) : option Z :=
  emit rv_op_amoadd_d [(ireg5, F_rd, rd); (ireg5, F_rs1, rs1); (ireg5, F_rs2, rs2); (arg1, F_aq, aq); (arg1, F_rl, rl)].
Definition emit_amoxor_d (rd rs1 rs2 aq rl : Z) : option Z :=
  emit rv_op_amoxor_d [(ireg5, F_rd, rd); (ireg5, F_rs1, rs1); (ireg5, F_rs2, rs2); (arg1, F_aq, aq); (arg1, F_rl, rl)].
Definition emit_amoor_d (rd rs1 rs2 aq rl : Z) : option Z :=
  emit rv_op_amoor_d [(ireg5, F_rd, rd); (ireg5, F_rs1, rs1); (ireg5, F_rs2, rs2); (arg1, F_aq, aq); (arg1, F_rl, rl)].
Definition emit_amoand_d (rd rs1 rs2 aq rl : Z) : option Z :=
  emit rv_op_amoand_d [(ireg5, F_rd, rd); (ireg5, F_rs1, rs1); (ireg5, F_rs2, rs2); (arg1, F_aq, aq); (arg1, F_rl, rl)].
Definition emit_amomin_d (rd rs1 rs2 aq rl : Z) : option Z :=
  emit rv_op_amomin_d [(ireg5, F_rd, rd); (ireg5, F_rs1, rs1); (ireg5, F_rs2, rs2); (arg1, F_aq, aq); (arg1, F_rl, rl)].
Definition emit_amomax_d (rd rs1 rs2 aq rl : Z) : option Z :=
  emit rv_op_amomax_d [(ireg5, F_rd, rd); (ireg5, F_rs1, rs1); (ireg5, F_rs2, rs2); (arg1, F_aq, aq); (arg1, F_rl, rl)].
Definition emit_amominu_d (rd rs1 rs2 aq rl : Z) : option Z :=
  emit rv_op_amominu_d [(ireg5, F_rd, rd); (ireg5, F_rs1, rs1); (ireg5, F_rs2, rs2); (arg1, F_aq, aq); (arg1, F_rl, rl)].
Definition emit_amomaxu_d (rd rs1 rs2 aq rl : Z) : option Z :=
  emit rv_op_amomaxu_d [(ireg5, F_rd, rd); (ireg5, F_rs1, rs1); (ireg5, F_rs2, rs2); (arg1, F_aq, aq); (arg1, F_rl, rl)].
Definition emit_lr_q (rd rs1 aq rl : Z) : option Z :=
  emit rv_op_lr_q [(ireg5, F_rd, rd); (ireg5, F_rs1, rs1); (arg1, F_aq, aq); (arg1, F_rl, rl)].
Definition emit_sc_q (rd rs1 rs2 aq rl : Z) : option Z :=
  emit rv_op_sc_q [(ireg5, F_rd, rd); (ireg5, F_rs1, rs1); (ireg5, F_rs2, rs2); (arg1, F_aq, aq); (arg1, F_rl, rl)].
Definition emit_amoswap_q (rd rs1 rs2 aq rl : Z) : option Z :=
  emit rv_op_amoswap_q [(ireg5, F_rd, rd); (ireg5, F_rs1, rs1); (ireg5, F_rs2, rs2); (arg1, F_aq, aq); (arg1, F_rl, rl)].
Definition emit_amoadd_q (rd rs1 rs2 aq rl : Z) : option Z :=
  emit rv_op_amoadd_q [(ireg5, F_rd, rd); (ireg5, F_rs1, rs1); (ireg5, F_rs2, rs2); (arg1, F_aq, aq); (arg1, F_rl, rl)].
Definition emit_amoxor_q (rd rs1 rs2 aq rl : Z) : option Z :=
  emit rv_op_amoxor_q [(ireg5, F_rd, rd); (ireg5, F_rs1, rs1); (ireg5, F_rs2, rs2); (arg1, F_aq, aq); (arg1, F_rl, rl)].
Definition emit_amoor_q (rd rs1 rs2 aq rl : Z) : option Z :=
  emit rv_op_amoor_q [(ireg5, F_rd, rd); (ireg5, F_rs1, rs1); (ireg5, F_rs2, rs2); (arg1, F_aq, aq); (arg1, F_rl, rl)].
Definition emit_amoand_q (rd rs1 rs2 aq rl : Z) : option Z :=
  emit rv_op_amoand_q [(ireg5, F_rd, rd); (ireg5, F_rs1, rs1); (ireg5, F_rs2, rs2); (arg1, F_aq, aq); (arg1, F_rl, rl)].
Definition emit_amomin_q (rd rs1 rs2 aq rl : Z) : option Z :=
  emit rv_op_amomin_q [(ireg5, F_rd, rd); (ireg5, F_rs1, rs1); (ireg5, F_rs2, rs2); (arg1, F_aq, aq); (arg1, F_rl, rl)].
Definition emit_amomax_q (rd rs1 rs2 aq rl : Z) : option Z :=
  emit rv_op_amomax_q [(ireg5, F_rd, rd); (ireg5, F_rs1, rs1); (ireg5, F_rs2, rs2); (arg1, F_aq, aq); (arg1, F_rl, rl)].
Definition emit_amominu_q (rd rs1 rs2 aq rl : Z) : option Z :=
  emit rv_op_amominu_q [(ireg5, F_rd, rd); (ireg5, F_rs1, rs1); (ireg5, F_rs2, rs2); (arg1, F_aq, aq); (arg1, F_rl, rl)].
Definition emit_amomaxu_q (rd rs1 rs2 aq rl : Z) : option Z :=
  emit rv_op_amomaxu_q [(ireg5, F_rd, rd); (ireg5, F_rs1, rs1); (ireg5, F_rs2, rs2); (arg1, F_aq, aq); (arg1, F_rl, rl)].
Definition emit_ecall : option Z :=
  emit rv_op_ecall [].
Definition emit_ebreak : option Z :=
  emit rv_op_ebreak [].
Definition emit_uret : option Z :=
  emit rv_op_uret [].
Definition emit_sret : option Z :=
  emit rv_op_sret [].
Definition emit_hret : option Z :=
  emit rv_op_hret [].
Definition emit_mret : option Z :=
  emit rv_op_mret [].
Definition emit_dret : option Z :=
  emit rv_op_dret [].
Definition emit_sfence_vm (rs1 : Z) : option Z :=
  emit rv_op_sfence_vm [(ireg5, F_rs1, rs1)].
Definition emit_sfence_vma (rs1 rs2 : Z) : option Z :=
  emit rv_op_sfence_vma [(ireg5, F_rs1, rs1); (ireg5, F_rs2, rs2)].
Definition emit_wfi : option Z :=
  emit rv_op_wfi [].
Definition emit_csrrw (rd rs1 csr12 : Z) : option Z :=
  emit rv_op_csrrw [(ireg5, F_rd, rd); (ireg5, F_rs1, rs1); (uimm12, F_imm, csr12)].
Definition emit_csrrs (rd rs1 csr12 : Z) : option Z :=
  emit rv_op_csrrs [(ireg5, F_rd, rd); (ireg5, F_rs1, rs1); (uimm12, F_imm, csr12)].
Definition emit_csrrc (rd rs1 csr12 : Z) : option Z :=
  emit rv_op_csrrc [(ireg5, F_rd, rd); (ireg5, F_rs1, rs1); (uimm12, F_imm, csr12)].
Definition emit_csrrwi (rd zimm csr12 : Z) : option Z :=
  emit rv_op_csrrwi [(ireg5, F_rd, rd); (uimm5, F_imm, zimm); (uimm12, F_imm, csr12)].
Definition emit_csrrsi (rd zimm csr12 : Z) : option Z :=
  emit rv_op_csrrsi [(ireg5, F_rd, rd); (uimm5, F_imm, zimm); (uimm12, F_imm, csr12)].
Definition emit_csrrci (rd zimm csr12 : Z) : option Z :=
  emit rv_op_csrrci [(ireg5, F_rd, rd); (uimm5, F_imm, zimm); (uimm12, F_imm, csr12)].
Definition emit_flw (frd rs1 oimm12 : Z) : option Z :=
  emit rv_op_flw [(freg5, F_rd, frd); (ireg5, F_rs1, rs1); (offset12, F_imm, oimm12)].
Definition emit_fsw (rs1 frs2 simm12 : Z) : option Z :=
  emit rv_op_fsw [(ireg5, F_rs1, rs1); (freg5, F_rs2, frs2); (offset12, F_imm, simm12)].
Definition emit_fmadd_s (frd frs1 frs2 frs3 rm : Z) : option Z :=
  emit rv_op_fmadd_s [(freg5, F_rd, frd); (freg5, F_rs1, frs1); (freg5, F_rs2, frs2); (freg5, F_rs3, frs3); (arg3, F_rm, rm)].
Definition emit_fmsub_s (frd frs1 frs2 frs3 rm : Z) : option Z :=
  emit rv_op_fmsub_s [(freg5, F_rd, frd); (freg5, F_rs1, frs1); (freg5, F_rs2, frs2); (freg5, F_rs3, frs3); (arg3, F_rm, rm)].
Definition emit_fnmsub_s (frd frs1 frs2 frs3 rm : Z) : option Z :=
  emit rv_op_fnmsub_s [(freg5, F_rd, frd); (freg5, F_rs1, frs1); (freg5, F_rs2, frs2); (freg5, F_rs3, frs3); (arg3, F_rm, rm)].
Definition emit_fnmadd_s (frd frs1 frs2 frs3 rm : Z) : option Z :=
  emit rv_op_fnmadd_s [(freg5, F_rd, frd); (freg5, F_rs1, frs1); (freg5, F_rs2, frs2); (freg5, F_rs3, frs3); (arg3, F_rm, rm)].
Definition emit_fadd_s (frd frs1 frs2 rm : Z) : option Z :=
  emit rv_op_fadd_s [(freg5, F_rd, frd); (freg5, F_rs1, frs1); (freg5, F_rs2, frs2); (arg3, F_rm, rm)].
Definition emit_fsub_s (frd frs1 frs2 rm : Z) : option Z :=
  emit rv_op_fsub_s [(freg5, F_rd, frd); (freg5, F_rs1, frs1); (freg5, F_rs2, frs2); (arg3, F_rm, rm)].
Definition emit_fmul_s (frd frs1 frs2 rm : Z) : option Z :=
  emit rv_op_fmul_s [(freg5, F_rd, frd); (freg5, F_rs1, frs1); (freg5, F_rs2, frs2); (arg3, F_rm, rm)].
Definition emit_fdiv_s (frd frs1 frs2 rm : Z) : option Z :=
  emit rv_op_fdiv_s [(freg5, F_rd, frd); (freg5, F_rs1, frs1); (freg5, F_rs2, frs2); (arg3, F_rm, rm)].
Definition emit_fsgnj_s (frd frs1 frs2 : Z) : option Z :=
  emit rv_op_fsgnj_s [(freg5, F_rd, frd); (freg5, F_rs1, frs1); (freg5, F_rs2, frs2)].
Definition emit_fsgnjn_s (frd frs1 frs2 : Z) : option Z :=
  emit rv_op_fsgnjn_s [(freg5, F_rd, frd); (freg5, F_rs1, frs1); (freg5, F_rs2, frs2)].
Definition emit_fsgnjx_s (frd frs1 frs2 : Z) : option Z :=
  emit rv_op_fsgnjx_s [(freg5, F_rd, frd); (freg5, F_rs1, frs1); (freg5, F_rs2, frs2)].
Definition emit_fmin_s (frd frs1 frs2 : Z) : option Z :=
  emit rv_op_fmin_s [(freg5, F_rd, frd); (freg5, F_rs1, frs1); (freg5, F_rs2, frs2)].
Definition emit_fmax_s (frd frs1 frs2 : Z) : option Z :=
  emit rv_op_fmax_s [(freg5, F_rd, frd); (freg5, F_rs1, frs1); (freg5, F_rs2, frs2)].
Definition emit_fsqrt_s (frd frs1 rm : Z) : option Z :=
  emit rv_op_fsqrt_s [(freg5, F_rd, frd); (freg5, F_rs1, frs1); (arg3, F_rm, rm)].
Definition emit_fle_s (rd frs1 frs2 : Z) : option Z :=
  emit rv_op_fle_s [(ireg5, F_rd, rd); (freg5, F_rs1, frs1); (freg5, F_rs2, frs2)].
Definition emit_flt_s (rd frs1 frs2 : Z) : option Z :=
  emit rv_op_flt_s [(ireg5, F_rd, rd); (freg5, F_rs1, frs1); (freg5, F_rs2, frs2)].
Definition emit_feq_s (rd frs1 frs2 : Z) : option Z :=
  emit rv_op_feq_s [(ireg5, F_rd, rd); (freg5, F_rs1, frs1); (freg5, F_rs2, frs2)].
Definition emit_fcvt_w_s (rd frs1 rm : Z) : option Z :=
  emit rv_op_fcvt_w_s [(ireg5, F_rd, rd); (freg5, F_rs1, frs1); (arg3, F_rm, rm)].
Definition emit_fcvt_wu_s (rd frs1 rm : Z) : option Z :=
  emit rv_op_fcvt_wu_s [(ireg5, F_rd, rd); (freg5, F_rs1, frs1); (arg3, F_rm, rm)].
Definition emit_fcvt_s_w (frd rs1 rm : Z) : option Z :=
  emit rv_op_fcvt_s_w [(freg5, F_rd, frd); (ireg5, F_rs1, rs1); (arg3, F_rm, rm)].
Definition emit_fcvt_s_wu (frd rs1 rm : Z) : option Z :=
  emit rv_op_fcvt_s_wu [(freg5, F_rd, frd); (ireg5, F_rs1, rs1); (arg3, F_rm, rm)].
Definition emit_fmv_x_s (rd frs1 : Z) : option Z :=
  emit rv_op_fmv_x_s [(ireg5, F_rd, rd); (freg5, F_rs1, frs1)].
Definition emit_fclass_s (rd frs1 : Z) : option Z :=
  emit rv_op_fclass_s [(ireg5, F_rd, rd); (freg5, F_rs1, frs1)].
Definition emit_fmv_s_x (frd rs1 : Z) : option Z :=
  emit rv_op_fmv_s_x [(freg5, F_rd, frd); (ireg5, F_rs1, rs1)].
Definition emit_fcvt_l_s (rd frs1 rm : Z) : option Z :=
  emit rv_op_fcvt_l_s [(ireg5, F_rd, rd); (freg5, F_rs1, frs1); (arg3, F_rm, rm)].
Definition emit_fcvt_lu_s (rd frs1 rm : Z) : option Z :=
  emit rv_op_fcvt_lu_s [(ireg5, F_rd, rd); (freg5, F_rs1, frs1); (arg3, F_rm, rm)].
Definition emit_fcvt_s_l (frd rs1 rm : Z) : option Z :=
  emit rv_op_fcvt_s_l [(freg5, F_rd, frd); (ireg5, F_rs1, rs1); (arg3, F_rm, rm)].
Definition emit_fcvt_s_lu (frd rs1 rm : Z) : option Z :=
  emit rv_op_fcvt_s_lu [(freg5, F_rd, frd); (ireg5, F_rs1, rs1); (arg3, F_rm, rm)].
Definition emit_fld (frd rs1 oimm12 : Z) : option Z :=
  emit rv_op_fld [(freg5, F_rd, frd); (ireg5, F_rs1, rs1); (offset12, F_imm, oimm12)].
Definition emit_fsd (rs1 frs2 simm12 : Z) : option Z :=
  emit rv_op_fsd [(ireg5, F_rs1, rs1); (freg5, F_rs2, frs2); (offset12, F_imm, simm12)].
Definition emit_fmadd_d (frd frs1 frs2 frs3 rm : Z) : option Z :=
  emit rv_op_fmadd_d [(freg5, F_rd, frd); (freg5, F_rs1, frs1); (freg5, F_rs2, frs2); (freg5, F_rs3, frs3); (arg3, F_rm, rm)].
Definition emit_fmsub_d (frd frs1 frs2 frs3 rm : Z) : option Z :=
  emit rv_op_fmsub_d [(freg5, F_rd, frd); (freg5, F_rs1, frs1); (freg5, F_rs2, frs2); (freg5, F_rs3, frs3); (arg3, F_rm, rm)].
Definition emit_fnmsub_d (frd frs1 frs2 frs3 rm : Z) : option Z :=
  emit rv_op_fnmsub_d [(freg5, F_rd, frd); (freg5, F_rs1, frs1); (freg5, F_rs2, frs2); (freg5, F_rs3, frs3); (arg3, F_rm, rm)].
Definition emit_fnmadd_d (frd frs1 frs2 frs3 rm : Z) : option Z :=
  emit rv_op_fnmadd_d [(freg5, F_rd, frd); (freg5, F_rs1, frs1); (freg5, F_rs2, frs2); (freg5, F_rs3, frs3); (arg3, F_rm, rm)].
Definition emit_fadd_d (frd frs1 frs2 rm : Z) : option Z :=
  emit rv_op_fadd_d [(freg5, F_rd, frd); (freg5, F_rs1, frs1); (freg5, F_rs2, frs2); (arg3, F_rm, rm)].
Definition emit_fsub_d (frd frs1 frs2 rm : Z) : option Z :=
  emit rv_op_fsub_d [(freg5, F_rd, frd); (freg5, F_rs1, frs1); (freg5, F_rs2, frs2); (arg3, F_rm, rm)].
Definition emit_fmul_d (frd frs1 frs2 rm : Z) : option Z :=
  emit rv_op_fmul_d [(freg5, F_rd, frd); (freg5, F_rs1, frs1); (freg5, F_rs2, frs2); (arg3, F_rm, rm)].
Definition emit_fdiv_d (frd frs1 frs2 rm : Z) : option Z :=
  emit rv_op_fdiv_d [(freg5, F_rd, frd); (freg5, F_rs1, frs1); (freg5, F_rs2, frs2); (arg3, F_rm, rm)].
Definition emit_fsgnj_d (frd frs1 frs2 : Z) : option Z :=
  emit rv_op_fsgnj_d [(freg5, F_rd, frd); (freg5, F_rs1, frs1); (freg5, F_rs2, frs2)].
Definition emit_fsgnjn_d (frd frs1 frs2 : Z) : option Z :=
  emit rv_op_fsgnjn_d [(freg5, F_rd, frd); (freg5, F_rs1, frs1); (freg5, F_rs2, frs2)].
Definition emit_fsgnjx_d (frd frs1 frs2 : Z) : option Z :=
  emit rv_op_fsgnjx_d [(freg5, F_rd, frd); (freg5, F_rs1, frs1); (freg5, F_rs2, frs2)].
Definition emit_fmin_d (frd frs1 frs2 : Z) : option Z :=
  emit rv_op_fmin_d [(freg5, F_rd, frd); (freg5, F_rs1, frs1); (freg5, F_rs2, frs2)].
Definition emit_fmax_d (frd frs1 frs2 : Z) : option Z :=
  emit rv_op_fmax_d [(freg5, F_rd, frd); (freg5, F_rs1, frs1); (freg5, F_rs2, frs2)].
Definition emit_fcvt_s_d (frd frs1 rm : Z) : option Z :=
  emit rv_op_fcvt_s_d [(freg5, F_rd, frd); (freg5, F_rs1, frs1); (arg3, F_rm, rm)].
Definition emit_fcvt_d_s (frd frs1 rm : Z) : option Z :=
  emit rv_op_fcvt_d_s [(freg5, F_rd, frd); (freg5, F_rs1, frs1); (arg3, F_rm, rm)].
Definition emit_fsqrt_d (frd frs1 rm : Z) : option Z :=
  emit rv_op_fsqrt_d [(freg5, F_rd, frd); (freg5, F_rs1, frs1); (arg3, F_rm, rm)].
Definition emit_fle_d (rd frs1 frs2 : Z) : option Z :=
  emit rv_op_fle_d [(ireg5, F_rd, rd); (freg5, F_rs1, frs1); (freg5, F_rs2, frs2)].
Definition emit_flt_d (rd frs1 frs2 : Z) : option Z :=
  emit rv_op_flt_d [(ireg5, F_rd, rd); (freg5, F_rs1, frs1); (freg5, F_rs2, frs2)].
Definition emit_feq_d (rd frs1 frs2 : Z) : option Z :=
  emit rv_op_feq_d [(ireg5, F_rd, rd); (freg5, F_rs1, frs1); (freg5, F_rs2, frs2)].
Definition emit_fcvt_w_d (rd frs1 rm : Z) : option Z :=
  emit rv_op_fcvt_w_d [(ireg5, F_rd, rd); (freg5, F_rs1, frs1); (arg3, F_rm, rm)].
Definition emit_fcvt_wu_d (rd frs1 rm : Z) : option Z :=
  emit rv_op_fcvt_wu_d [(ireg5, F_rd, rd); (freg5, F_rs1, frs1); (arg3, F_rm, rm)].
Definition emit_fcvt_d_w (frd rs1 rm : Z) : option Z :=
  emit rv_op_fcvt_d_w [(freg5, F_rd, frd); (ireg5, F_rs1, rs1); (arg3, F_rm, rm)].
Definition emit_fcvt_d_wu (frd rs1 rm : Z) : option Z :=
  emit rv_op_fcvt_d_wu [(freg5, F_rd, frd); (ireg5, F_rs1, rs1); (arg3, F_rm, rm)].
Definition emit_fclass_d (rd frs1 : Z) : option Z :=
  emit rv_op_fclass_d [(ireg5, F_rd, rd); (freg5, F_rs1, frs1)].
Definition emit_fcvt_l_d (rd frs1 rm : Z) : option Z :=
  emit rv_op_fcvt_l_d [(ireg5, F_rd, rd); (freg5, F_rs1, frs1); (arg3, F_rm, rm)].
Definition emit_fcvt_lu_d (rd frs1 rm : Z) : option Z :=
  emit rv_op_fcvt_lu_d [(ireg5, F_rd, rd); (freg5, F_rs1, frs1); (arg3, F_rm, rm)].
Definition emit_fmv_x_d (rd frs1 : Z) : option Z :=
  emit rv_op_fmv_x_d [(ireg5, F_rd, rd); (freg5, F_rs1, frs1)].
Definition emit_fcvt_d_l (frd rs1 rm : Z) : option Z :=
  emit rv_op_fcvt_d_l [(freg5, F_rd, frd); (ireg5, F_rs1, rs1); (arg3, F_rm, rm)].
Definition emit_fcvt_d_lu (frd rs1 rm : Z) : option Z :=
  emit rv_op_fcvt_d_lu [(freg5, F_rd, frd); (ireg5, F_rs1, rs1); (arg3, F_rm, rm)].
Definition emit_fmv_d_x (frd rs1 : Z) : option Z :=
  emit rv_op_fmv_d_x [(freg5, F_rd, frd); (ireg5, F_rs1, rs1)].
Definition emit_flq (frd rs1 oimm12 : Z) : option Z :=
  emit rv_op_flq [(freg5, F_rd, frd); (ireg5, F_rs1, rs1); (offset12, F_imm, oimm12)].
Definition emit_fsq (rs1 frs2 simm12 : Z) : option Z :=
  emit rv_op_fsq [(ireg5, F_rs1, rs1); (freg5, F_rs2, frs2); (offset12, F_imm, simm12)].
Definition emit_fmadd_q (frd frs1 frs2 frs3 rm : Z) : option Z :=
  emit rv_op_fmadd_q [(freg5, F_rd, frd); (freg5, F_rs1, frs1); (freg5, F_rs2, frs2); (freg5, F_rs3, frs3); (arg3, F_rm, rm)].
Definition emit_fmsub_q (frd frs1 frs2 frs3 rm : Z) : option Z :=
  emit rv_op_fmsub_q [(freg5, F_rd, frd); (freg5, F_rs1, frs1); (freg5, F_rs2, frs2); (freg5, F_rs3, frs3); (arg3, F_rm, rm)].
Definition emit_fnmsub_q (frd frs1 frs2 frs3 rm : Z) : option Z :=
  emit rv_op_fnmsub_q [(freg5, F_rd, frd); (freg5, F_rs1, frs1); (freg5, F_rs2, frs2); (freg5, F_rs3, frs3); (arg3, F_rm, rm)].
Definition emit_fnmadd_q (frd frs1 frs2 frs3 rm : Z) : option Z :=
  emit rv_op_fnmadd_q [(freg5, F_rd, frd); (freg5, F_rs1, frs1); (freg5, F_rs2, frs2); (freg5, F_rs3, frs3); (arg3, F_rm, rm)].
Definition emit_fadd_q (frd frs1 frs2 rm : Z) : option Z :=
  emit rv_op_fadd_q [(freg5, F_rd, frd); (freg5, F_rs1, frs1); (freg5, F_rs2, frs2); (arg3, F_rm, rm)].
Definition emit_fsub_q (frd frs1 frs2 rm : Z) : option Z :=
  emit rv_op_fsub_q [(freg5, F_rd, frd); (freg5, F_rs1, frs1); (freg5, F_rs2, frs2); (arg3, F_rm, rm)].
Definition emit_fmul_q (frd frs1 frs2 rm : Z) : option Z :=
  emit rv_op_fmul_q [(freg5, F_rd, frd); (freg5, F_rs1, frs1); (freg5, F_rs2, frs2); (arg3, F_rm, rm)].
Definition emit_fdiv_q (frd frs1 frs2 rm : Z) : option Z :=
  emit rv_op_fdiv_q [(freg5, F_rd, frd); (freg5, F_rs1, frs1); (freg5, F_rs2, frs2); (arg3, F_rm, rm)].
Definition emit_fsgnj_q (frd frs1 frs2 : Z) : option Z :=
  emit rv_op_fsgnj_q [(freg5, F_rd, frd); (freg5, F_rs1, frs1); (freg5, F_rs2, frs2)].
Definition emit_fsgnjn_q (frd frs1 frs2 : Z) : option Z :=
  emit rv_op_fsgnjn_q [(freg5, F_rd, frd); (freg5, F_rs1, frs1); (freg5, F_rs2, frs2)].
Definition emit_fsgnjx_q (frd frs1 frs2 : Z) : option Z :=
  emit rv_op_fsgnjx_q [(freg5, F_rd, frd); (freg5, F_rs1, frs1); (freg5, F_rs2, frs2)].
Definition emit_fmin_q (frd frs1 frs2 : Z) : option Z :=
  emit rv_op_fmin_q [(freg5, F_rd, frd); (freg5, F_rs1, frs1); (freg5, F_rs2, frs2)].
Definition emit_fmax_q (frd frs1 frs2 : Z) : option Z :=
  emit rv_op_fmax_q [(freg5, F_rd, frd); (freg5, F_rs1, frs1); (freg5, F_rs2, frs2)].
Definition emit_fcvt_s_q (frd frs1 rm : Z) : option Z :=
  emit rv_op_fcvt_s_q [(freg5, F_rd, frd); (freg5, F_rs1, frs1); (arg3, F_rm, rm)].
Definition emit_fcvt_q_s (frd frs1 rm : Z) : option Z :=
  emit rv_op_fcvt_q_s [(freg5, F_rd, frd); (freg5, F_rs1, frs1); (arg3, F_rm, rm)].
Definition emit_fcvt_d_q (frd frs1 rm : Z) : option Z :=
  emit rv_op_fcvt_d_q [(freg5, F_rd, frd); (freg5, F_rs1, frs1); (arg3, F_rm, rm)].
Definition emit_fcvt_q_d (frd frs1 rm : Z) : option Z :=
  emit rv_op_fcvt_q_d [(freg5, F_rd, frd); (freg5, F_rs1, frs1); (arg3, F_rm, rm)].
Definition emit_fsqrt_q (frd frs1 rm : Z) : option Z :=
  emit rv_op_fsqrt_q [(freg5, F_rd, frd); (freg5, F_rs1, frs1); (arg3, F_rm, rm)].
Definition emit_fle_q (rd frs1 frs2 : Z) : option Z :=
  emit rv_op_fle_q [(ireg5, F_rd, rd); (freg5, F_rs1, frs1); (freg5, F_rs2, frs2)].
Definition emit_flt_q (rd frs1 frs2 : Z) : option Z :=
  emit rv_op_flt_q [(ireg5, F_rd, rd); (freg5, F_rs1, frs1); (freg5, F_rs2, frs2)].
Definition emit_feq_q (rd frs1 frs2 : Z) : option Z :=
  emit rv_op_feq_q [(ireg5, F_rd, rd); (freg5, F_rs1, frs1); (freg5, F_rs2, frs2)].
Definition emit_fcvt_w_q (rd frs1 rm : Z) : option Z :=
  emit rv_op_fcvt_w_q [(ireg5, F_rd, rd); (freg5, F_rs1, frs1); (arg3, F_rm, rm)].
Definition emit_fcvt_wu_q (rd frs1 rm : Z) : option Z :=
  emit rv_op_fcvt_wu_q [(ireg5, F_rd, rd); (freg5, F_rs1, frs1); (arg3, F_rm, rm)].
Definition emit_fcvt_q_w (frd rs1 rm : Z) : option Z :=
  emit rv_op_fcvt_q_w [(freg5, F_rd, frd); (ireg5, F_rs1, rs1); (arg3, F_rm, rm)].
Definition emit_fcvt_q_wu (frd rs1 rm : Z) : option Z :=
  emit rv_op_fcvt_q_wu [(freg5, F_rd, frd); (ireg5, F_rs1, rs1); (arg3, F_rm, rm)].
Definition emit_fclass_q (rd frs1 : Z) : option Z :=
  emit rv_op_fclass_q [(ireg5, F_rd, rd); (freg5, F_rs1, frs1)].
Definition emit_fcvt_l_q (rd frs1 rm : Z) : option Z :=
  emit rv_op_fcvt_l_q [(ireg5, F_rd, rd); (freg5, F_rs1, frs1); (arg3, F_rm, rm)].
Definition emit_fcvt_lu_q (rd frs1 rm : Z) : option Z :=
  emit rv_op_fcvt_lu_q [(ireg5, F_rd, rd); (freg5, F_rs1, frs1); (arg3, F_rm, rm)].
Definition emit_fcvt_q_l (frd rs1 rm : Z) : option Z :=
  emit rv_op_fcvt_q_l [(freg5, F_rd, frd); (ireg5, F_rs1, rs1); (arg3, F_rm, rm)].
Definition emit_fcvt_q_lu (frd rs1 rm : Z) : option Z :=
  emit rv_op_fcvt_q_lu [(freg5, F_rd, frd); (ireg5, F_rs1, rs1); (arg3, F_rm, rm)].
Definition emit_fmv_x_q (rd frs1 : Z) : option Z :=
  emit rv_op_fmv_x_q [(ireg5, F_rd, rd); (freg5, F_rs1, frs1)].
Definition emit_fmv_q_x (frd rs1 : Z) : option Z :=
  emit rv_op_fmv_q_x [(freg5, F_rd, frd); (ireg5, F_rs1, rs1)].

(** ** The table of the emitters *)

Definition fn0 (g : option Z) (l : list Z) : option Z := match l with [] => g | _ => None end.
Definition fn1 (g : Z -> option Z) (l : list Z) : option Z := match l with [a] => g a | _ => None end.
Definition fn2 (g : Z -> Z -> option Z) (l : list Z) : option Z := match l with [a; b] => g a b | _ => None end.
Definition fn3 (g : Z -> Z -> Z -> option Z) (l : list Z) : option Z :=
  match l with [a; b; c] => g a b c | _ => None end.
Definition fn4 (g : Z -> Z -> Z -> Z -> option Z) (l : list Z) : option Z :=
  match l with [a; b; c; d] => g a b c d | _ => None end.
Definition fn5 (g : Z -> Z -> Z -> Z -> Z -> option Z) (l : list Z) : option Z :=
  match l with [a; b; c; d; e] => g a b c d e | _ => None end.

(** An opcode, its operands, its emitter. *)
Record row : Type := Row { row_op : rv_op; row_sig : list (imm_type * field); row_emit : list Z -> option Z }.

Definition emitters : list row := [
  Row rv_op_lui [(ireg5, F_rd); (simm32, F_imm)] (fn2 emit_lui);
  Row rv_op_auipc [(ireg5, F_rd); (offset32, F_imm)] (fn2 emit_auipc);
  Row rv_op_jal [(ireg5, F_rd); (offset21, F_imm)] (fn2 emit_jal);
  Row rv_op_jalr [(ireg5, F_rd); (ireg5, F_rs1); (simm12, F_imm)] (fn3 emit_jalr);
  Row rv_op_beq [(ireg5, F_rs1); (ireg5, F_rs2); (offset13, F_imm)] (fn3 emit_beq);
  Row rv_op_bne [(ireg5, F_rs1); (ireg5, F_rs2); (offset13, F_imm)] (fn3 emit_bne);
  Row rv_op_blt [(ireg5, F_rs1); (ireg5, F_rs2); (offset13, F_imm)] (fn3 emit_blt);
  Row rv_op_bge [(ireg5, F_rs1); (ireg5, F_rs2); (offset13, F_imm)] (fn3 emit_bge);
  Row rv_op_bltu [(ireg5, F_rs1); (ireg5, F_rs2); (offset13, F_imm)] (fn3 emit_bltu);
  Row rv_op_bgeu [(ireg5, F_rs1); (ireg5, F_rs2); (offset13, F_imm)] (fn3 emit_bgeu);
  Row rv_op_lb [(ireg5, F_rd); (ireg5, F_rs1); (offset12, F_imm)] (fn3 emit_lb);
  Row rv_op_lh [(ireg5, F_rd); (ireg5, F_rs1); (offset12, F_imm)] (fn3 emit_lh);
  Row rv_op_lw [(ireg5, F_rd); (ireg5, F_rs1); (offset12, F_imm)] (fn3 emit_lw);
  Row rv_op_lbu [(ireg5, F_rd); (ireg5, F_rs1); (offset12, F_imm)] (fn3 emit_lbu);
  Row rv_op_lhu [(ireg5, F_rd); (ireg5, F_rs1); (offset12, F_imm)] (fn3 emit_lhu);
  Row rv_op_sb [(ireg5, F_rs1); (ireg5, F_rs2); (offset12, F_imm)] (fn3 emit_sb);
  Row rv_op_sh [(ireg5, F_rs1); (ireg5, F_rs2); (offset12, F_imm)] (fn3 emit_sh);
  Row rv_op_sw [(ireg5, F_rs1); (ireg5, F_rs2); (offset12, F_imm)] (fn3 emit_sw);
  Row rv_op_addi [(ireg5, F_rd); (ireg5, F_rs1); (simm12, F_imm)] (fn3 emit_addi);
  Row rv_op_slti [(ireg5, F_rd); (ireg5, F_rs1); (simm12, F_imm)] (fn3 emit_slti);
  Row rv_op_sltiu [(ireg5, F_rd); (ireg5, F_rs1); (simm12, F_imm)] (fn3 emit_sltiu);
  Row rv_op_xori [(ireg5, F_rd); (ireg5, F_rs1); (simm12, F_imm)] (fn3 emit_xori);
  Row rv_op_ori [(ireg5, F_rd); (ireg5, F_rs1); (simm12, F_imm)] (fn3 emit_ori);
  Row rv_op_andi [(ireg5, F_rd); (ireg5, F_rs1); (simm12, F_imm)] (fn3 emit_andi);
  Row rv_op_slli [(ireg5, F_rd); (ireg5, F_rs1); (uimm7, F_imm)] (fn3 emit_slli);
  Row rv_op_srli [(ireg5, F_rd); (ireg5, F_rs1); (uimm7, F_imm)] (fn3 emit_srli);
  Row rv_op_srai [(ireg5, F_rd); (ireg5, F_rs1); (uimm7, F_imm)] (fn3 emit_srai);
  Row rv_op_add [(ireg5, F_rd); (ireg5, F_rs1); (ireg5, F_rs2)] (fn3 emit_add);
  Row rv_op_sub [(ireg5, F_rd); (ireg5, F_rs1); (ireg5, F_rs2)] (fn3 emit_sub);
  Row rv_op_sll [(ireg5, F_rd); (ireg5, F_rs1); (ireg5, F_rs2)] (fn3 emit_sll);
  Row rv_op_slt [(ireg5, F_rd); (ireg5, F_rs1); (ireg5, F_rs2)] (fn3 emit_slt);
  Row rv_op_sltu [(ireg5, F_rd); (ireg5, F_rs1); (ireg5, F_rs2)] (fn3 emit_sltu);
  Row rv_op_xor [(ireg5, F_rd); (ireg5, F_rs1); (ireg5, F_rs2)] (fn3 emit_xor);
  Row rv_op_srl [(ireg5, F_rd); (ireg5, F_rs1); (ireg5, F_rs2)] (fn3 emit_srl);
  Row rv_op_sra [(ireg5, F_rd); (ireg5, F_rs1); (ireg5, F_rs2)] (fn3 emit_sra);
  Row rv_op_or [(ireg5, F_rd); (ireg5, F_rs1); (ireg5, F_rs2)] (fn3 emit_or);
  Row rv_op_and [(ireg5, F_rd); (ireg5, F_rs1); (ireg5, F_rs2)] (fn3 emit_and);
  Row rv_op_fence [(arg4, F_pred); (arg4, F_succ)] (fn2 emit_fence);
  Row rv_op_fence_i [] (fn0 emit_fence_i);
  Row rv_op_lwu [(ireg5, F_rd); (ireg5, F_rs1); (offset12, F_imm)] (fn3 emit_lwu);
  Row rv_op_ld [(ireg5, F_rd); (ireg5, F_rs1); (offset12, F_imm)] (fn3 emit_ld);
  Row rv_op_sd [(ireg5, F_rs1); (ireg5, F_rs2); (offset12, F_imm)] (fn3 emit_sd);
  Row rv_op_addiw [(ireg5, F_rd); (ireg5, F_rs1); (simm12, F_imm)] (fn3 emit_addiw);
  Row rv_op_slliw [(ireg5, F_rd); (ireg5, F_rs1); (uimm5, F_imm)] (fn3 emit_slliw);
  Row rv_op_srliw [(ireg5, F_rd); (ireg5, F_rs1); (uimm5, F_imm)] (fn3 emit_srliw);
  Row rv_op_sraiw [(ireg5, F_rd); (ireg5, F_rs1); (uimm5, F_imm)] (fn3 emit_sraiw);
  Row rv_op_addw [(ireg5, F_rd); (ireg5, F_rs1); (ireg5, F_rs2)] (fn3 emit_addw);
  Row rv_op_subw [(ireg5, F_rd); (ireg5, F_rs1); (ireg5, F_rs2)] (fn3 emit_subw);
  Row rv_op_sllw [(ireg5, F_rd); (ireg5, F_rs1); (ireg5, F_rs2)] (fn3 emit_sllw);
  Row rv_op_srlw [(ireg5, F_rd); (ireg5, F_rs1); (ireg5, F_rs2)] (fn3 emit_srlw);
  Row rv_op_sraw [(ireg5, F_rd); (ireg5, F_rs1); (ireg5, F_rs2)] (fn3 emit_sraw);
  Row rv_op_ldu [(ireg5, F_rd); (ireg5, F_rs1); (offset12, F_imm)] (fn3 emit_ldu);
  Row rv_op_lq [(ireg5, F_rd); (ireg5, F_rs1); (offset12, F_imm)] (fn3 emit_lq);
  Row rv_op_sq [(ireg5, F_rs1); (ireg5, F_rs2); (offset12, F_imm)] (fn3 emit_sq);
  Row rv_op_addid [(ireg5, F_rd); (ireg5, F_rs1); (simm12, F_imm)] (fn3 emit_addid);
  Row rv_op_sllid [(ireg5, F_rd); (ireg5, F_rs1); (uimm6, F_imm)] (fn3 emit_sllid);
  Row rv_op_srlid [(ireg5, F_rd); (ireg5, F_rs1); (uimm6, F_imm)] (fn3 emit_srlid);
  Row rv_op_sraid [(ireg5, F_rd); (ireg5, F_rs1); (uimm6, F_imm)] (fn3 emit_sraid);
  Row rv_op_addd [(ireg5, F_rd); (ireg5, F_rs1); (ireg5, F_rs2)] (fn3 emit_addd);
  Row rv_op_subd [(ireg5, F_rd); (ireg5, F_rs1); (ireg5, F_rs2)] (fn3 emit_subd);
  Row rv_op_slld [(ireg5, F_rd); (ireg5, F_rs1); (ireg5, F_rs2)] (fn3 emit_slld);
  Row rv_op_srld [(ireg5, F_rd); (ireg5, F_rs1); (ireg5, F_rs2)] (fn3 emit_srld);
  Row rv_op_srad [(ireg5, F_rd); (ireg5, F_rs1); (ireg5, F_rs2)] (fn3 emit_srad);
  Row rv_op_mul [(ireg5, F_rd); (ireg5, F_rs1); (ireg5, F_rs2)] (fn3 emit_mul);
  Row rv_op_mulh [(ireg5, F_rd); (ireg5, F_rs1); (ireg5, F_rs2)] (fn3 emit_mulh);
  Row rv_op_mulhsu [(ireg5, F_rd); (ireg5, F_rs1); (ireg5, F_rs2)] (fn3 emit_mulhsu);
  Row rv_op_mulhu [(ireg5, F_rd); (ireg5, F_rs1); (ireg5, F_rs2)] (fn3 emit_mulhu);
  Row rv_op_div [(ireg5, F_rd); (ireg5, F_rs1); (ireg5, F_rs2)] (fn3 emit_div);
  Row rv_op_divu [(ireg5, F_rd); (ireg5, F_rs1); (ireg5, F_rs2)] (fn3 emit_divu);
  Row rv_op_rem [(ireg5, F_rd); (ireg5, F_rs1); (ireg5, F_rs2)] (fn3 emit_rem);
  Row rv_op_remu [(ireg5, F_rd); (ireg5, F_rs1); (ireg5, F_rs2)] (fn3 emit_remu);
  Row rv_op_mulw [(ireg5, F_rd); (ireg5, F_rs1); (ireg5, F_rs2)] (fn3 emit_mulw);
  Row rv_op_divw [(ireg5, F_rd); (ireg5, F_rs1); (ireg5, F_rs2)] (fn3 emit_divw);
  Row rv_op_divuw [(ireg5, F_rd); (ireg5, F_rs1); (ireg5, F_rs2)] (fn3 emit_divuw);
  Row rv_op_remw [(ireg5, F_rd); (ireg5, F_rs1); (ireg5, F_rs2)] (fn3 emit_remw);
  Row rv_op_remuw [(ireg5, F_rd); (ireg5, F_rs1); (ireg5, F_rs2)] (fn3 emit_remuw);
  Row rv_op_muld [(ireg5, F_rd); (ireg5, F_rs1); (ireg5, F_rs2)] (fn3 emit_muld);
  Row rv_op_divd [(ireg5, F_rd); (ireg5, F_rs1); (ireg5, F_rs2)] (fn3 emit_divd);
  Row rv_op_divud [(ireg5, F_rd); (ireg5, F_rs1); (ireg5, F_rs2)] (fn3 emit_divud);
  Row rv_op_remd [(ireg5, F_rd); (ireg5, F_rs1); (ireg5, F_rs2)] (fn3 emit_remd);
  Row rv_op_remud [(ireg5, F_rd); (ireg5, F_rs1); (ireg5, F_rs2)] (fn3 emit_remud);
  Row rv_op_lr_w [(ireg5, F_rd); (ireg5, F_rs1); (arg1, F_aq); (arg1, F_rl)] (fn4 emit_lr_w);
  Row rv_op_sc_w [(ireg5, F_rd); (ireg5, F_rs1); (ireg5, F_rs2); (arg1, F_aq); (arg1, F_rl)] (fn5 emit_sc_w);
  Row rv_op_amoswap_w [(ireg5, F_rd); (ireg5, F_rs1); (ireg5, F_rs2); (arg1, F_aq); (arg1, F_rl)] (fn5 emit_amoswap_w);
  Row rv_op_amoadd_w [(ireg5, F_rd); (ireg5, F_rs1); (ireg5, F_rs2); (arg1, F_aq); (arg1, F_rl)] (fn5 emit_amoadd_w);
  Row rv_op_amoxor_w [(ireg5, F_rd); (ireg5, F_rs1); (ireg5, F_rs2); (arg1, F_aq); (arg1, F_rl)] (fn5 emit_amoxor_w);
  Row rv_op_amoor_w [(ireg5, F_rd); (ireg5, F_rs1); (ireg5, F_rs2); (arg1, F_aq); (arg1, F_rl)] (fn5 emit_amoor_w);
  Row rv_op_amoand_w [(ireg5, F_rd); (ireg5, F_rs1); (ireg5, F_rs2); (arg1, F_aq); (arg1, F_rl)] (fn5 emit_amoand_w);
  Row rv_op_amomin_w [(ireg5, F_rd); (ireg5, F_rs1); (ireg5, F_rs2); (arg1, F_aq); (arg1, F_rl)] (fn5 emit_amomin_w);
  Row rv_op_amomax_w [(ireg5, F_rd); (ireg5, F_rs1); (ireg5, F_rs2); (arg1, F_aq); (arg1, F_rl)] (fn5 emit_amomax_w);
  Row rv_op_amominu_w [(ireg5, F_rd); (ireg5, F_rs1); (ireg5, F_rs2); (arg1, F_aq); (arg1, F_rl)] (fn5 emit_amominu_w);
  Row rv_op_amomaxu_w [(ireg5, F_rd); (ireg5, F_rs1); (ireg5, F_rs2); (arg1, F_aq); (arg1, F_rl)] (fn5 emit_amomaxu_w);
  Row rv_op_lr_d [(ireg5, F_rd); (ireg5, F_rs1); (arg1, F_aq); (arg1, F_rl)] (fn4 emit_lr_d);
  Row rv_op_sc_d [(ireg5, F_rd); (ireg5, F_rs1); (ireg5, F_rs2); (arg1, F_aq); (arg1, F_rl)] (fn5 emit_sc_d);
  Row rv_op_amoswap_d [(ireg5, F_rd); (ireg5, F_rs1); (ireg5, F_rs2); (arg1, F_aq); (arg1, F_rl)] (fn5 emit_amoswap_d);
  Row rv_op_amoadd_d [(ireg5, F_rd); (ireg5, F_rs1); (ireg5, F_rs2); (arg1, F_aq); (arg1, F_rl)] (fn5 emit_amoadd_d);
  Row rv_op_amoxor_d [(ireg5, F_rd); (ireg5, F_rs1); (ireg5, F_rs2); (arg1, F_aq); (arg1, F_rl)] (fn5 emit_amoxor_d);
  Row rv_op_amoor_d [(ireg5, F_rd); (ireg5, F_rs1); (ireg5, F_rs2); (arg1, F_aq); (arg1, F_rl)] (fn5 emit_amoor_d);
  Row rv_op_amoand_d [(ireg5, F_rd); (ireg5, F_rs1); (ireg5, F_rs2); (arg1, F_aq); (arg1, F_rl)] (fn5 emit_amoand_d);
  Row rv_op_amomin_d [(ireg5, F_rd); (ireg5, F_rs1); (ireg5, F_rs2); (arg1, F_aq); (arg1, F_rl)] (fn5 emit_amomin_d);
  Row rv_op_amomax_d [(ireg5, F_rd); (ireg5, F_rs1); (ireg5, F_rs2); (arg1, F_aq); (arg1, F_rl)] (fn5 emit_amomax_d);
  Row rv_op_amominu_d [(ireg5, F_rd); (ireg5, F_rs1); (ireg5, F_rs2); (arg1, F_aq); (arg1, F_rl)] (fn5 emit_amominu_d);
  Row rv_op_amomaxu_d [(ireg5, F_rd); (ireg5, F_rs1); (ireg5, F_rs2); (arg1, F_aq); (arg1, F_rl)] (fn5 emit_amomaxu_d);
  Row rv_op_lr_q [(ireg5, F_rd); (ireg5, F_rs1); (arg1, F_aq); (arg1, F_rl)] (fn4 emit_lr_q);
  Row rv_op_sc_q [(ireg5, F_rd); (ireg5, F_rs1); (ireg5, F_rs2); (arg1, F_aq); (arg1, F_rl)] (fn5 emit_sc_q);
  Row rv_op_amoswap_q [(ireg5, F_rd); (ireg5, F_rs1); (ireg5, F_rs2); (arg1, F_aq); (arg1, F_rl)] (fn5 emit_amoswap_q);
  Row rv_op_amoadd_q [(ireg5, F_rd); (ireg5, F_rs1); (ireg5, F_rs2); (arg1, F_aq); (arg1, F_rl)] (fn5 emit_amoadd_q);
  Row rv_op_amoxor_q [(ireg5, F_rd); (ireg5, F_rs1); (ireg5, F_rs2); (arg1, F_aq); (arg1, F_rl)] (fn5 emit_amoxor_q);
  Row rv_op_amoor_q [(ireg5, F_rd); (ireg5, F_rs1); (ireg5, F_rs2); (arg1, F_aq); (arg1, F_rl)] (fn5 emit_amoor_q);
  Row rv_op_amoand_q [(ireg5, F_rd); (ireg5, F_rs1); (ireg5, F_rs2); (arg1, F_aq); (arg1, F_rl)] (fn5 emit_amoand_q);
  Row rv_op_amomin_q [(ireg5, F_rd); (ireg5, F_rs1); (ireg5, F_rs2); (arg1, F_aq); (arg1, F_rl)] (fn5 emit_amomin_q);
  Row rv_op_amomax_q [(ireg5, F_rd); (ireg5, F_rs1); (ireg5, F_rs2); (arg1, F_aq); (arg1, F_rl)] (fn5 emit_amomax_q);
  Row rv_op_amominu_q [(ireg5, F_rd); (ireg5, F_rs1); (ireg5, F_rs2); (arg1, F_aq); (arg1, F_rl)] (fn5 emit_amominu_q);
  Row rv_op_amomaxu_q [(ireg5, F_rd); (ireg5, F_rs1); (ireg5, F_rs2); (arg1, F_aq); (arg1, F_rl)] (fn5 emit_amomaxu_q);
  Row rv_op_ecall [] (fn0 emit_ecall);
  Row rv_op_ebreak [] (fn0 emit_ebreak);
  Row rv_op_uret [] (fn0 emit_uret);
  Row rv_op_sret [] (fn0 emit_sret);
  Row rv_op_hret [] (fn0 emit_hret);
  Row rv_op_mret [] (fn0 emit_mret);
  Row rv_op_dret [] (fn0 emit_dret);
  Row rv_op_sfence_vm [(ireg5, F_rs1)] (fn1 emit_sfence_vm);
  Row rv_op_sfence_vma [(ireg5, F_rs1); (ireg5, F_rs2)] (fn2 emit_sfence_vma);
  Row rv_op_wfi [] (fn0 emit_wfi);
  Row rv_op_csrrw [(ireg5, F_rd); (ireg5, F_rs1); (uimm12, F_imm)] (fn3 emit_csrrw);
  Row rv_op_csrrs [(ireg5, F_rd); (ireg5, F_rs1); (uimm12, F_imm)] (fn3 emit_csrrs);
  Row rv_op_csrrc [(ireg5, F_rd); (ireg5, F_rs1); (uimm12, F_imm)] (fn3 emit_csrrc);
  Row rv_op_csrrwi [(ireg5, F_rd); (uimm5, F_imm); (uimm12, F_imm)] (fn3 emit_csrrwi);
  Row rv_op_csrrsi [(ireg5, F_rd); (uimm5, F_imm); (uimm12, F_imm)] (fn3 emit_csrrsi);
  Row rv_op_csrrci [(ireg5, F_rd); (uimm5, F_imm); (uimm12, F_imm)] (fn3 emit_csrrci);
  Row rv_op_flw [(freg5, F_rd); (ireg5, F_rs1); (offset12, F_imm)] (fn3 emit_flw);
  Row rv_op_fsw [(ireg5, F_rs1); (freg5, F_rs2); (offset12, F_imm)] (fn3 emit_fsw);
  Row rv_op_fmadd_s [(freg5, F_rd); (freg5, F_rs1); (freg5, F_rs2); (freg5, F_rs3); (arg3, F_rm)] (fn5 emit_fmadd_s);
  Row rv_op_fmsub_s [(freg5, F_rd); (freg5, F_rs1); (freg5, F_rs2); (freg5, F_rs3); (arg3, F_rm)] (fn5 emit_fmsub_s);
  Row rv_op_fnmsub_s [(freg5, F_rd); (freg5, F_rs1); (freg5, F_rs2); (freg5, F_rs3); (arg3, F_rm)] (fn5 emit_fnmsub_s);
  Row rv_op_fnmadd_s [(freg5, F_rd); (freg5, F_rs1); (freg5, F_rs2); (freg5, F_rs3); (arg3, F_rm)] (fn5 emit_fnmadd_s);
  Row rv_op_fadd_s [(freg5, F_rd); (freg5, F_rs1); (freg5, F_rs2); (arg3, F_rm)] (fn4 emit_fadd_s);
  Row rv_op_fsub_s [(freg5, F_rd); (freg5, F_rs1); (freg5, F_rs2); (arg3, F_rm)] (fn4 emit_fsub_s);
  Row rv_op_fmul_s [(freg5, F_rd); (freg5, F_rs1); (freg5, F_rs2); (arg3, F_rm)] (fn4 emit_fmul_s);
  Row rv_op_fdiv_s [(freg5, F_rd); (freg5, F_rs1); (freg5, F_rs2); (arg3, F_rm)] (fn4 emit_fdiv_s);
  Row rv_op_fsgnj_s [(freg5, F_rd); (freg5, F_rs1); (freg5, F_rs2)] (fn3 emit_fsgnj_s);
  Row rv_op_fsgnjn_s [(freg5, F_rd); (freg5, F_rs1); (freg5, F_rs2)] (fn3 emit_fsgnjn_s);
  Row rv_op_fsgnjx_s [(freg5, F_rd); (freg5, F_rs1); (freg5, F_rs2)] (fn3 emit_fsgnjx_s);
  Row rv_op_fmin_s [(freg5, F_rd); (freg5, F_rs1); (freg5, F_rs2)] (fn3 emit_fmin_s);
  Row rv_op_fmax_s [(freg5, F_rd); (freg5, F_rs1); (freg5, F_rs2)] (fn3 emit_fmax_s);
  Row rv_op_fsqrt_s [(freg5, F_rd); (freg5, F_rs1); (arg3, F_rm)] (fn3 emit_fsqrt_s);
  Row rv_op_fle_s [(ireg5, F_rd); (freg5, F_rs1); (freg5, F_rs2)] (fn3 emit_fle_s);
  Row rv_op_flt_s [(ireg5, F_rd); (freg5, F_rs1); (freg5, F_rs2)] (fn3 emit_flt_s);
  Row rv_op_feq_s [(ireg5, F_rd); (freg5, F_rs1); (freg5, F_rs2)] (fn3 emit_feq_s);
  Row rv_op_fcvt_w_s [(ireg5, F_rd); (freg5, F_rs1); (arg3, F_rm)] (fn3 emit_fcvt_w_s);
  Row rv_op_fcvt_wu_s [(ireg5, F_rd); (freg5, F_rs1); (arg3, F_rm)] (fn3 emit_fcvt_wu_s);
  Row rv_op_fcvt_s_w [(freg5, F_rd); (ireg5, F_rs1); (arg3, F_rm)] (fn3 emit_fcvt_s_w);
  Row rv_op_fcvt_s_wu [(freg5, F_rd); (ireg5, F_rs1); (arg3, F_rm)] (fn3 emit_fcvt_s_wu);
  Row rv_op_fmv_x_s [(ireg5, F_rd); (freg5, F_rs1)] (fn2 emit_fmv_x_s);
  Row rv_op_fclass_s [(ireg5, F_rd); (freg5, F_rs1)] (fn2 emit_fclass_s);
  Row rv_op_fmv_s_x [(freg5, F_rd); (ireg5, F_rs1)] (fn2 emit_fmv_s_x);
  Row rv_op_fcvt_l_s [(ireg5, F_rd); (freg5, F_rs1); (arg3, F_rm)] (fn3 emit_fcvt_l_s);
  Row rv_op_fcvt_lu_s [(ireg5, F_rd); (freg5, F_rs1); (arg3, F_rm)] (fn3 emit_fcvt_lu_s);
  Row rv_op_fcvt_s_l [(freg5, F_rd); (ireg5, F_rs1); (arg3, F_rm)] (fn3 emit_fcvt_s_l);
  Row rv_op_fcvt_s_lu [(freg5, F_rd); (ireg5, F_rs1); (arg3, F_rm)] (fn3 emit_fcvt_s_lu);
  Row rv_op_fld [(freg5, F_rd); (ireg5, F_rs1); (offset12, F_imm)] (fn3 emit_fld);
  Row rv_op_fsd [(ireg5, F_rs1); (freg5, F_rs2); (offset12, F_imm)] (fn3 emit_fsd);
  Row rv_op_fmadd_d [(freg5, F_rd); (freg5, F_rs1); (freg5, F_rs2); (freg5, F_rs3); (arg3, F_rm)] (fn5 emit_fmadd_d);
  Row rv_op_fmsub_d [(freg5, F_rd); (freg5, F_rs1); (freg5, F_rs2); (freg5, F_rs3); (arg3, F_rm)] (fn5 emit_fmsub_d);
  Row rv_op_fnmsub_d [(freg5, F_rd); (freg5, F_rs1); (freg5, F_rs2); (freg5, F_rs3); (arg3, F_rm)] (fn5 emit_fnmsub_d);
  Row rv_op_fnmadd_d [(freg5, F_rd); (freg5, F_rs1); (freg5, F_rs2); (freg5, F_rs3); (arg3, F_rm)] (fn5 emit_fnmadd_d);
  Row rv_op_fadd_d [(freg5, F_rd); (freg5, F_rs1); (freg5, F_rs2); (arg3, F_rm)] (fn4 emit_fadd_d);
  Row rv_op_fsub_d [(freg5, F_rd); (freg5, F_rs1); (freg5, F_rs2); (arg3, F_rm)] (fn4 emit_fsub_d);
  Row rv_op_fmul_d [(freg5, F_rd); (freg5, F_rs1); (freg5, F_rs2); (arg3, F_rm)] (fn4 emit_fmul_d);
  Row rv_op_fdiv_d [(freg5, F_rd); (freg5, F_rs1); (freg5, F_rs2); (arg3, F_rm)] (fn4 emit_fdiv_d);
  Row rv_op_fsgnj_d [(freg5, F_rd); (freg5, F_rs1); (freg5, F_rs2)] (fn3 emit_fsgnj_d);
  Row rv_op_fsgnjn_d [(freg5, F_rd); (freg5, F_rs1); (freg5, F_rs2)] (fn3 emit_fsgnjn_d);
  Row rv_op_fsgnjx_d [(freg5, F_rd); (freg5, F_rs1); (freg5, F_rs2)] (fn3 emit_fsgnjx_d);
  Row rv_op_fmin_d [(freg5, F_rd); (freg5, F_rs1); (freg5, F_rs2)] (fn3 emit_fmin_d);
  Row rv_op_fmax_d [(freg5, F_rd); (freg5, F_rs1); (freg5, F_rs2)] (fn3 emit_fmax_d);
  Row rv_op_fcvt_s_d [(freg5, F_rd); (freg5, F_rs1); (arg3, F_rm)] (fn3 emit_fcvt_s_d);
  Row rv_op_fcvt_d_s [(freg5, F_rd); (freg5, F_rs1); (arg3, F_rm)] (fn3 emit_fcvt_d_s);
  Row rv_op_fsqrt_d [(freg5, F_rd); (freg5, F_rs1); (arg3, F_rm)] (fn3 emit_fsqrt_d);
  Row rv_op_fle_d [(ireg5, F_rd); (freg5, F_rs1); (freg5, F_rs2)] (fn3 emit_fle_d);
  Row rv_op_flt_d [(ireg5, F_rd); (freg5, F_rs1); (freg5, F_rs2)] (fn3 emit_flt_d);
  Row rv_op_feq_d [(ireg5, F_rd); (freg5, F_rs1); (freg5, F_rs2)] (fn3 emit_feq_d);
  Row rv_op_fcvt_w_d [(ireg5, F_rd); (freg5, F_rs1); (arg3, F_rm)] (fn3 emit_fcvt_w_d);
  Row rv_op_fcvt_wu_d [(ireg5, F_rd); (freg5, F_rs1); (arg3, F_rm)] (fn3 emit_fcvt_wu_d);
  Row rv_op_fcvt_d_w [(freg5, F_rd); (ireg5, F_rs1); (arg3, F_rm)] (fn3 emit_fcvt_d_w);
  Row rv_op_fcvt_d_wu [(freg5, F_rd); (ireg5, F_rs1); (arg3, F_rm)] (fn3 emit_fcvt_d_wu);
  Row rv_op_fclass_d [(ireg5, F_rd); (freg5, F_rs1)] (fn2 emit_fclass_d);
  Row rv_op_fcvt_l_d [(ireg5, F_rd); (freg5, F_rs1); (arg3, F_rm)] (fn3 emit_fcvt_l_d);
  Row rv_op_fcvt_lu_d [(ireg5, F_rd); (freg5, F_rs1); (arg3, F_rm)] (fn3 emit_fcvt_lu_d);
  Row rv_op_fmv_x_d [(ireg5, F_rd); (freg5, F_rs1)] (fn2 emit_fmv_x_d);
  Row rv_op_fcvt_d_l [(freg5, F_rd); (ireg5, F_rs1); (arg3, F_rm)] (fn3 emit_fcvt_d_l);
  Row rv_op_fcvt_d_lu [(freg5, F_rd); (ireg5, F_rs1); (arg3, F_rm)] (fn3 emit_fcvt_d_lu);
  Row rv_op_fmv_d_x [(freg5, F_rd); (ireg5, F_rs1)] (fn2 emit_fmv_d_x);
  Row rv_op_flq [(freg5, F_rd); (ireg5, F_rs1); (offset12, F_imm)] (fn3 emit_flq);
  Row rv_op_fsq [(ireg5, F_rs1); (freg5, F_rs2); (offset12, F_imm)] (fn3 emit_fsq);
  Row rv_op_fmadd_q [(freg5, F_rd); (freg5, F_rs1); (freg5, F_rs2); (freg5, F_rs3); (arg3, F_rm)] (fn5 emit_fmadd_q);
  Row rv_op_fmsub_q [(freg5, F_rd); (freg5, F_rs1); (freg5, F_rs2); (freg5, F_rs3); (arg3, F_rm)] (fn5 emit_fmsub_q);
  Row rv_op_fnmsub_q [(freg5, F_rd); (freg5, F_rs1); (freg5, F_rs2); (freg5, F_rs3); (arg3, F_rm)] (fn5 emit_fnmsub_q);
  Row rv_op_fnmadd_q [(freg5, F_rd); (freg5, F_rs1); (freg5, F_rs2); (freg5, F_rs3); (arg3, F_rm)] (fn5 emit_fnmadd_q);
  Row rv_op_fadd_q [(freg5, F_rd); (freg5, F_rs1); (freg5, F_rs2); (arg3, F_rm)] (fn4 emit_fadd_q);
  Row rv_op_fsub_q [(freg5, F_rd); (freg5, F_rs1); (freg5, F_rs2); (arg3, F_rm)] (fn4 emit_fsub_q);
  Row rv_op_fmul_q [(freg5, F_rd); (freg5, F_rs1); (freg5, F_rs2); (arg3, F_rm)] (fn4 emit_fmul_q);
  Row rv_op_fdiv_q [(freg5, F_rd); (freg5, F_rs1); (freg5, F_rs2); (arg3, F_rm)] (fn4 emit_fdiv_q);
  Row rv_op_fsgnj_q [(freg5, F_rd); (freg5, F_rs1); (freg5, F_rs2)] (fn3 emit_fsgnj_q);
  Row rv_op_fsgnjn_q [(freg5, F_rd); (freg5, F_rs1); (freg5, F_rs2)] (fn3 emit_fsgnjn_q);
  Row rv_op_fsgnjx_q [(freg5, F_rd); (freg5, F_rs1); (freg5, F_rs2)] (fn3 emit_fsgnjx_q);
  Row rv_op_fmin_q [(freg5, F_rd); (freg5, F_rs1); (freg5, F_rs2)] (fn3 emit_fmin_q);
  Row rv_op_fmax_q [(freg5, F_rd); (freg5, F_rs1); (freg5, F_rs2)] (fn3 emit_fmax_q);
  Row rv_op_fcvt_s_q [(freg5, F_rd); (freg5, F_rs1); (arg3, F_rm)] (fn3 emit_fcvt_s_q);
  Row rv_op_fcvt_q_s [(freg5, F_rd); (freg5, F_rs1); (arg3, F_rm)] (fn3 emit_fcvt_q_s);
  Row rv_op_fcvt_d_q [(freg5, F_rd); (freg5, F_rs1); (arg3, F_rm)] (fn3 emit_fcvt_d_q);
  Row rv_op_fcvt_q_d [(freg5, F_rd); (freg5, F_rs1); (arg3, F_rm)] (fn3 emit_fcvt_q_d);
  Row rv_op_fsqrt_q [(freg5, F_rd); (freg5, F_rs1); (arg3, F_rm)] (fn3 emit_fsqrt_q);
  Row rv_op_fle_q [(ireg5, F_rd); (freg5, F_rs1); (freg5, F_rs2)] (fn3 emit_fle_q);
  Row rv_op_flt_q [(ireg5, F_rd); (freg5, F_rs1); (freg5, F_rs2)] (fn3 emit_flt_q);
  Row rv_op_feq_q [(ireg5, F_rd); (freg5, F_rs1); (freg5, F_rs2)] (fn3 emit_feq_q);
  Row rv_op_fcvt_w_q [(ireg5, F_rd); (freg5, F_rs1); (arg3, F_rm)] (fn3 emit_fcvt_w_q);
  Row rv_op_fcvt_wu_q [(ireg5, F_rd); (freg5, F_rs1); (arg3, F_rm)] (fn3 emit_fcvt_wu_q);
  Row rv_op_fcvt_q_w [(freg5, F_rd); (ireg5, F_rs1); (arg3, F_rm)] (fn3 emit_fcvt_q_w);
  Row rv_op_fcvt_q_wu [(freg5, F_rd); (ireg5, F_rs1); (arg3, F_rm)] (fn3 emit_fcvt_q_wu);
  Row rv_op_fclass_q [(ireg5, F_rd); (freg5, F_rs1)] (fn2 emit_fclass_q);
  Row rv_op_fcvt_l_q [(ireg5, F_rd); (freg5, F_rs1); (arg3, F_rm)] (fn3 emit_fcvt_l_q);
  Row rv_op_fcvt_lu_q [(ireg5, F_rd); (freg5, F_rs1); (arg3, F_rm)] (fn3 emit_fcvt_lu_q);
  Row rv_op_fcvt_q_l [(freg5, F_rd); (ireg5, F_rs1); (arg3, F_rm)] (fn3 emit_fcvt_q_l);
  Row rv_op_fcvt_q_lu [(freg5, F_rd); (ireg5, F_rs1); (arg3, F_rm)] (fn3 emit_fcvt_q_lu);
  Row rv_op_fmv_x_q [(ireg5, F_rd); (freg5, F_rs1)] (fn2 emit_fmv_x_q);
  Row rv_op_fmv_q_x [(freg5, F_rd); (ireg5, F_rs1)] (fn2 emit_fmv_q_x)].

Definition arguments (r : row) (xs : list Z) : list argument := zip_with (fun p x => (p, x)) (row_sig r) xs.

(** ** What an emitted word decodes to *)

(** Offsets and upper immediates lose their low bits: what a format can hold. *)
Definition imm_multiple (c : rv_codec) : Z :=
  match c with rv_codec_sb | rv_codec_uj => 2 | rv_codec_u => 4096 | _ => 1 end.

Definition arg_fits (o : rv_op) (a : argument) : Prop :=
  let '(t, f, x) := a in
  valid t x = true /\ (f = F_imm -> imm_value t x mod imm_multiple (rv_inst_codec o) = 0).

(** The operands of a format that an emitter does not set but the opcode fixes. *)
Definition fixed_fields (o : rv_op) (fs : list field) : list (field * Z) :=
  omap (fun '(f, s) => match s with
                       | SOp p _ => if bool_decide (f ∈ fs) then None else Some (f, op_decode p (rv_inst_match o))
                       | _ => None
                       end) (shape_of (rv_inst_codec o)).

Definition holds_type (t : imm_type) (f : field) (p : operand) (c : rv_codec) : bool :=
  match t with
  | offset_t w | simm_t w => o_signed p && (o_width p =? w)
  | ptr_t w | uimm_t w => negb (o_signed p) && (o_width p =? w)
  end && (2 ^ o_align p =? (if bool_decide (f = F_imm) then imm_multiple c else 1)).

(** The signature of a row agrees with the format of its opcode. *)
Definition source_ok (r : row) (fs : field * src) : bool :=
  let '(f, s) := fs in
  let o := row_op r in
  match s with
  | SConst z => (z =? 0) && negb (bool_decide (f ∈ (row_sig r).*2))
  | SCopy _ _ => false
  | SOp p b =>
      (b =? 0) && existsb (fun q => bool_decide (p = q)) all_operands &&
      match list_find (fun q : imm_type * field => q.2 = f) (row_sig r) with
      | Some (_, (t, _)) => holds_type t f p (rv_inst_codec o) && (o_bits p .& rv_inst_mask o =? 0)
      | None =>
          let v := op_decode p (rv_inst_match o) in
          imm_fitsb p v && (op_encode p v .& rv_inst_mask o =? rv_inst_match o .& o_bits p)
          && (rv_inst_match o .| op_encode p v =? rv_inst_match o) && (op_encode p 0 =? 0)
      end
  end.

Definition plain_codec (c : rv_codec) : bool :=
  match c with
  | rv_codec_none | rv_codec_u | rv_codec_uj | rv_codec_i | rv_codec_i_sh5 | rv_codec_i_sh6
  | rv_codec_i_sh7 | rv_codec_i_csr | rv_codec_s | rv_codec_sb | rv_codec_r | rv_codec_r_m
  | rv_codec_r4_m | rv_codec_r_a | rv_codec_r_l | rv_codec_r_f => true
  | _ => false
  end.

Definition row_ok (r : row) : bool :=
  plain_codec (rv_inst_codec (row_op r))
  && forallb (source_ok r) (shape_of (rv_inst_codec (row_op r)))
  && forallb (fun q : imm_type * field => mentions (shape_of (rv_inst_codec (row_op r))) q.2) (row_sig r)
  && bool_decide (NoDup (row_sig r).*2).

(** The control-register instructions with an immediate source: their emitters
    assign both operands to [imm]. *)
Definition zimm_ops : list rv_op := [rv_op_csrrwi; rv_op_csrrsi; rv_op_csrrci].

Lemma rows_ok (r : row) : In r emitters -> row_op r ∉ zimm_ops -> row_ok r = true.
Proof.
  assert (H : forallb (fun r => row_ok r || bool_decide (row_op r ∈ zimm_ops)) emitters = true)
    by (vm_compute; reflexivity).
  intros Hin Hz. rewrite forallb_forall in H. apply H in Hin.
  rewrite bool_decide_false, orb_false_r in Hin by exact Hz. exact Hin.
Qed.

(** Every entry of the table calls the emitter of its opcode. *)
Lemma row_emit_eq (r : row) (xs : list Z) :
  In r emitters -> length xs = length (row_sig r) -> row_emit r xs = emit (row_op r) (arguments r xs).
Proof.
  intros Hin. revert xs.
  assert (H : Forall (fun r => forall xs, length xs = length (row_sig r) ->
                row_emit r xs = emit (row_op r) (arguments r xs)) emitters).
  { unfold emitters.
    repeat (apply List.Forall_cons;
      [ intros xs E; cbn [row_sig length] in E;
        repeat (destruct xs as [| ? xs]; cbn [length] in E; try discriminate E); reflexivity |]).
    apply List.Forall_nil. }
  exact (proj1 (List.Forall_forall _ _) H r Hin).
Qed.

(** *** The record an emitter fills *)

Definition assign_all (l : list (field * Z)) (d : decode) : decode := fold_left (fun d '(f, x) => set f x d) l d.

Lemma assign_all_keeps (l : list (field * Z)) : forall d, op (assign_all l d) = op d /\ codec (assign_all l d) = codec d.
Proof.
  unfold assign_all. induction l as [| [f x] l IH]; intros d; [split; reflexivity |].
  cbn [fold_left]. destruct (IH (set f x d)) as [-> ->]. destruct f; split; reflexivity.
Qed.

Lemma get_assign_other (l : list (field * Z)) (f : field) : forall d, f ∉ l.*1 -> get f (assign_all l d) = get f d.
Proof.
  unfold assign_all. induction l as [| [g x] l IH]; intros d Hf; [reflexivity |].
  cbn [fold_left]. rewrite fmap_cons, not_elem_of_cons in Hf. destruct Hf as [Hg Hf]. cbn [fst] in Hg.
  rewrite IH by exact Hf. rewrite get_set. destruct (decide (f = g)); [contradiction | reflexivity].
Qed.

Lemma get_assign (l : list (field * Z)) (f : field) (x : Z) (d : decode) :
  NoDup l.*1 -> (f, x) ∈ l -> get f (assign_all l d) = conv f x.
Proof.
  unfold assign_all. revert d. induction l as [| [g y] l IH]; intros d Hn Hin; [apply not_elem_of_nil in Hin; easy |].
  rewrite fmap_cons in Hn. apply NoDup_cons in Hn as [Hg Hn]. cbn [fold_left fst] in *.
  apply elem_of_cons in Hin as [E | Hin]; [| exact (IH _ Hn Hin)]. injection E as -> ->.
  transitivity (get g (set g y d)); [apply (get_assign_other l), Hg |].
  rewrite get_set. destruct (decide (g = g)); [reflexivity | contradiction].
Qed.

Lemma assign_app (l k : list (field * Z)) (d : decode) : assign_all (l ++ k) d = assign_all k (assign_all l d).
Proof. apply fold_left_app. Qed.

Lemma set_codec_assign (c : rv_codec) (l : list (field * Z)) : forall d,
  set_codec c (assign_all l d) = assign_all l (set_codec c d).
Proof.
  unfold assign_all. induction l as [| [f x] l IH]; intros d; [reflexivity |].
  cbn [fold_left]. rewrite IH. destruct f; reflexivity.
Qed.

(** The fields an emitter sets, and those with the bits its opcode fixes. *)
Definition emitted (r : row) (xs : list Z) : list (field * Z) :=
  zip_with (fun p x => (p.2, imm_value p.1 x)) (row_sig r) xs.
Definition completed (r : row) (xs : list Z) : decode :=
  assign_all (emitted r xs ++ fixed_fields (row_op r) (row_sig r).*2)
    (set_codec (rv_inst_codec (row_op r)) (set_op (row_op r) decode_init)).

Lemma build_emitted (r : row) (xs : list Z) :
  Forall (fun a : argument => valid a.1.1 a.2 = true) (arguments r xs) ->
  build (row_op r) (arguments r xs) = Some (assign_all (emitted r xs) (set_op (row_op r) decode_init)).
Proof.
  intros Hv. unfold build.
  replace (forallb _ (arguments r xs)) with true.
  - f_equal. unfold arguments, emitted, assign_all. generalize (set_op (row_op r) decode_init). revert xs Hv.
    unfold arguments. induction (row_sig r) as [| [t f] ps IH]; intros [| x xs] Hv d; try reflexivity.
    cbn [zip_with fold_left fst snd]. apply (IH xs). cbn [zip_with] in Hv. apply Forall_cons in Hv as [_ Hv]. exact Hv.
  - symmetry. apply forallb_forall. intros [[t f] x] Hin. exact (proj1 (List.Forall_forall _ _) Hv _ Hin).
Qed.

Lemma encode_plain (d : decode) : plain_codec (rv_inst_codec (op d)) = true ->
  (rv_inst_codec (op d) = rv_codec_r_l -> rs2 d = 0) ->
  encode_inst d = Some (set_codec (rv_inst_codec (op d)) d,
                        rv_inst_match (op d) .| shape_encode (shape_of (rv_inst_codec (op d))) d).
Proof.
  intros Hp Hl. unfold encode_inst. cbn [codec op set_codec].
  destruct (rv_inst_codec (op d)); try discriminate Hp; autounfold with encoders;
    cbn [rs2 set_codec]; rewrite ?Hl by reflexivity; cbn [assert_ Z.eqb];
    cbn [option_map shape_of shape_encode fold_left get set_codec rd rs1 rs2 rs3 imm rm aq rl pred succ];
    rewrite ?Z.sub_0_r, ?Z.lor_0_l, ?Z.lor_0_r; reflexivity.
Qed.

(** *** The completed record is well formed *)

Lemma fixed_In (o : rv_op) (fs : list field) (f : field) (v : Z) :
  (f, v) ∈ fixed_fields o fs <->
  exists p b, In (f, SOp p b) (shape_of (rv_inst_codec o)) /\ (f ∉ fs) /\ v = op_decode p (rv_inst_match o).
Proof.
  unfold fixed_fields. rewrite list_elem_of_omap. split.
  - intros ([g s] & Hin & E). apply list_elem_of_In in Hin. destruct s as [z | p b | p b]; try discriminate E.
    case_bool_decide as Hg; [discriminate E |]. injection E as -> <-. exists p, b. auto.
  - intros (p & b & Hin & Hf & ->). exists (f, SOp p b). split; [apply list_elem_of_In, Hin |].
    cbn beta iota. rewrite bool_decide_false by exact Hf. reflexivity.
Qed.

Lemma fixed_NoDup (o : rv_op) (fs : list field) : NoDup ((fixed_fields o fs).*1).
Proof.
  unfold fixed_fields. pose proof (sf_nodup _ (shape_of_facts (rv_inst_codec o))) as Hn.
  induction (shape_of (rv_inst_codec o)) as [| [f s] sh IH]; [apply NoDup_nil_2 |].
  cbn [map fst] in Hn. apply NoDup_cons in Hn as [Hf Hn]. specialize (IH Hn). cbn [omap list_omap].
  destruct s as [z | p b | p b]; try exact IH. case_bool_decide as Hg; [exact IH |].
  cbn [fmap list_fmap fst]. apply NoDup_cons. split; [| exact IH].
  intros Hin. apply Hf. apply list_elem_of_fmap in Hin as ([g v] & -> & Hin).
  apply list_elem_of_omap in Hin as ([g' s'] & Hin & E). apply list_elem_of_In, (in_map fst), list_elem_of_In in Hin.
  destruct s' as [z | p' b' | p' b']; try discriminate E. case_bool_decide; [discriminate E |].
  injection E as -> _. exact Hin.
Qed.

Lemma assoc_unique {A B} (l : list (A * B)) (k : A) (x y : B) :
  NoDup (map fst l) -> In (k, x) l -> In (k, y) l -> x = y.
Proof.
  induction l as [| [k' z] l IH]; intros Hn Hx Hy; [destruct Hx |].
  cbn [map fst] in Hn. apply NoDup_cons in Hn as [Hk Hn].
  assert (Hno : forall v, ~ In (k', v) l) by (intros v Hv; apply Hk, list_elem_of_In; exact (in_map fst _ _ Hv)).
  destruct Hx as [Hx | Hx], Hy as [Hy | Hy];
    [congruence | injection Hx as -> _; destruct (Hno _ Hy) | injection Hy as -> _; destruct (Hno _ Hx) | exact (IH Hn Hx Hy)].
Qed.

(** An operand that no fixed bit of the opcode touches. *)
Lemma free_operand (o : rv_op) (p : operand) (x : Z) : In p all_operands ->
  o_bits p .& rv_inst_mask o = 0 -> op_encode p x .& rv_inst_mask o = rv_inst_match o .& o_bits p.
Proof.
  intros Hp H. pose proof (operand_In_facts p Hp) as F. rewrite <- match_in_mask. zbits n Hn.
  apply (f_equal (fun z => Z.testbit z n)) in H. rewrite Z.land_spec, Z.testbit_0_l in H.
  unfold o_bits in *. rewrite testbit_o_bits in * by exact F.
  destruct (in_dsts (swaps (o_moves p)) n) eqn:E; cbn [andb] in H.
  - rewrite H. rewrite !andb_false_r. reflexivity.
  - unfold op_encode. rewrite imm_encode_moves by (apply (of_segs p F) || lia).
    rewrite (mv_out _ _ _ E), andb_false_r. reflexivity.
Qed.

Lemma imm_fitsb_spec (p : operand) (x : Z) : imm_fitsb p x = true -> imm_fits p x.
Proof.
  unfold imm_fitsb, imm_fits, in_s, in_u. rewrite andb_true_iff, Z.eqb_eq. intros [H ->]. split; [| reflexivity].
  destruct (o_signed p); rewrite andb_true_iff, Z.leb_le, Z.ltb_lt in H; exact H.
Qed.

Section Row.
  Context (r : row) (xs : list Z).
  Context (Hok : row_ok r = true) (Hlen : length xs = length (row_sig r)).
  Context (Hfit : Forall (arg_fits (row_op r)) (arguments r xs)).
  #[local] Abbreviation o := (row_op r).
  #[local] Abbreviation c := (rv_inst_codec (row_op r)).
  #[local] Abbreviation fs := ((row_sig r).*2).
  #[local] Abbreviation fixed := (fixed_fields (row_op r) (row_sig r).*2).
  #[local] Abbreviation start := (set_codec (rv_inst_codec (row_op r)) (set_op (row_op r) decode_init)).

Lemma emitted_fields : (emitted r xs).*1 = fs.
Proof.
  unfold emitted. clear Hok Hfit. revert xs Hlen. induction (row_sig r) as [| p ps IH]; intros [| x xs'] E;
    try discriminate E; [reflexivity |].
  cbn [zip_with fmap list_fmap]. f_equal. apply IH. injection E as E. exact E.
Qed.

Lemma row_facts :
  plain_codec c = true /\ (forall f s, In (f, s) (shape_of c) -> source_ok r (f, s) = true)
  /\ (forall f, f ∈ fs -> mentions (shape_of c) f = true) /\ NoDup fs.
Proof.
  unfold row_ok in Hok. rewrite !andb_true_iff in Hok. destruct Hok as [[[H1 H2] H3] H4].
  rewrite forallb_forall in H2, H3. split; [exact H1 | split; [| split]].
  - intros f s Hin. exact (H2 _ Hin).
  - intros f Hf. apply list_elem_of_fmap in Hf as (q & -> & Hq). apply H3, list_elem_of_In, Hq.
  - apply bool_decide_eq_true in H4. exact H4.
Qed.

Lemma set_fields_NoDup : NoDup ((emitted r xs ++ fixed).*1).
Proof.
  rewrite fmap_app, emitted_fields. apply NoDup_app. destruct row_facts as (_ & _ & _ & Hn).
  split; [exact Hn | split; [| apply fixed_NoDup]]. intros f Hf Hin.
  apply list_elem_of_fmap in Hin as ([g v] & -> & Hin). apply fixed_In in Hin as (_ & _ & _ & Hg & _). exact (Hg Hf).
Qed.

Lemma argument_lookup (t : imm_type) (f : field) (x : Z) : In (t, f, x) (arguments r xs) ->
  exists k, row_sig r !! k = Some (t, f) /\ xs !! k = Some x.
Proof.
  intros Hin. apply list_elem_of_In, list_elem_of_lookup in Hin as [k Hk]. unfold arguments in Hk.
  apply lookup_zip_with_Some in Hk as (q & y & E & Hq & Hy). injection E as <- <-. eauto.
Qed.

Lemma argument_set (t : imm_type) (f : field) (x : Z) : In (t, f, x) (arguments r xs) -> f ∈ fs.
Proof.
  intros Hin. destruct (argument_lookup t f x Hin) as (k & Hk & _).
  apply list_elem_of_fmap. exists (t, f). split; [reflexivity | eapply list_elem_of_lookup_2, Hk].
Qed.

(** An argument reaches its field unchanged. *)
Lemma argument_field (t : imm_type) (f : field) (x : Z) (p : operand) (b : Z) :
  In (t, f, x) (arguments r xs) -> In (f, SOp p b) (shape_of c) ->
  b = 0 /\ imm_fits p (imm_value t x) /\ conv f (imm_value t x) = imm_value t x
  /\ o_bits p .& rv_inst_mask o = 0 /\ (f, imm_value t x) ∈ emitted r xs.
Proof.
  intros Hin Hsh. destruct row_facts as (_ & Hs & _ & Hn). specialize (Hs f _ Hsh). cbn [source_ok] in Hs.
  rewrite !andb_true_iff in Hs. destruct Hs as [[Hb Hp] Hs]. apply Z.eqb_eq in Hb. subst b. split; [reflexivity |].
  destruct (argument_lookup t f x Hin) as (k & Hk & Hx).
  destruct (list_find (fun q : imm_type * field => q.2 = f) (row_sig r)) as [[j [t' f']] |] eqn:Ef.
  2: { exfalso. apply list_find_None in Ef. apply (proj1 (List.Forall_forall _ _) Ef (t, f)); [| reflexivity].
       apply list_elem_of_In. eapply list_elem_of_lookup_2, Hk. }
  apply list_find_Some in Ef as (Hj & E & _). cbn [snd] in E. subst f'.
  assert (j = k) as ->.
  { eapply (NoDup_lookup fs); [exact Hn | |]; rewrite list_lookup_fmap; [rewrite Hj | rewrite Hk]; reflexivity. }
  rewrite Hk in Hj. injection Hj as <-.
  apply andb_true_iff in Hs as [Ht Hm]. apply Z.eqb_eq in Hm.
  pose proof (proj1 (List.Forall_forall _ _) Hfit _ Hin) as [Hv Hal].
  assert (Hfits : imm_fits p (imm_value t x)).
  { unfold holds_type in Ht. apply andb_true_iff in Ht as [Ht Ha]. apply Z.eqb_eq in Ha. unfold imm_fits. rewrite Ha.
    split.
    - unfold valid in Hv. destruct t as [w | w | w | w]; apply andb_true_iff in Ht as [Hsg Hw]; apply Z.eqb_eq in Hw;
        rewrite ?Hsg, ?Hw; try apply negb_true_iff in Hsg; rewrite ?Hsg;
        unfold in_s, in_u; rewrite ?andb_true_iff, ?Z.leb_le, ?Z.geb_le in Hv;
        pose proof (Z.mod_pos_bound x (2 ^ 64) ltac:(lia)); cbn [imm_value] in *; unfold uwrap in *; lia.
    - case_bool_decide as Hi; [exact (Hal Hi) | apply Z.mod_1_r]. }
  split; [exact Hfits |].
  destruct (sf_op _ (shape_of_facts c) _ _ _ Hsh) as [Hpo Hcv].
  split; [apply (conv_ok_conv f p 0); [apply operand_In_facts, Hpo | exact Hcv | rewrite Z.sub_0_r; exact Hfits] |].
  split; [exact Hm |]. unfold emitted. apply list_elem_of_lookup. exists k.
  apply lookup_zip_with_Some. exists (t, f), x. auto.
Qed.

Lemma field_argument (f : field) : f ∈ fs -> exists t x, In (t, f, x) (arguments r xs).
Proof.
  intros Hf. apply list_elem_of_fmap in Hf as ([t g] & -> & Hin). apply list_elem_of_lookup in Hin as [k Hk].
  destruct (lookup_lt_is_Some_2 xs k) as [x Hx]; [rewrite Hlen; eapply lookup_lt_Some, Hk |].
  exists t, x. apply list_elem_of_In, list_elem_of_lookup. exists k. apply lookup_zip_with_Some.
  exists (t, g), x. auto.
Qed.

Lemma completed_op : op (completed r xs) = o /\ codec (completed r xs) = c.
Proof. unfold completed. destruct (assign_all_keeps (emitted r xs ++ fixed) start) as [-> ->]. split; reflexivity. Qed.

(** What the completed record and the emitted one hold in a field of the format. *)
Lemma completed_source (f : field) (s : src) : In (f, s) (shape_of c) ->
  let d := completed r xs in
  src_wf d (f, s) /\ src_fixed d (f, s)
  /\ rv_inst_match o .| fs_term (assign_all (emitted r xs) start) (f, s) = rv_inst_match o .| fs_term d (f, s).
Proof.
  intros Hin d. destruct row_facts as (_ & Hs & Hm & _). pose proof set_fields_NoDup as Hn.
  pose proof (shape_of_facts c) as SF. specialize (Hs f s Hin).
  unfold src_fixed, fs_term. cbn [fst snd src_wf]. subst d. rewrite (proj1 completed_op).
  destruct (decide (f ∈ fs)) as [Hf | Hf].
  - destruct (field_argument f Hf) as (t & x & Ha).
    destruct s as [z | p b | p b]; cbn [source_ok] in Hs.
    + rewrite bool_decide_true, andb_false_r in Hs by exact Hf. discriminate Hs.
    + destruct (argument_field t f x p b Ha Hin) as (-> & Hx & Hc & Hb & He).
      assert (Eg : get f (completed r xs) = imm_value t x).
      { unfold completed. rewrite (get_assign _ f (imm_value t x)) by (exact Hn || (apply elem_of_app; left; exact He)). exact Hc. }
      assert (Eg' : get f (assign_all (emitted r xs) start) = imm_value t x).
      { rewrite (get_assign _ f (imm_value t x)); [exact Hc | | exact He].
        rewrite emitted_fields. apply row_facts. }
      rewrite Eg, Eg', !Z.sub_0_r. split; [exact Hx | split; [| reflexivity]].
      apply free_operand; [apply (sf_op _ SF _ _ _ Hin) | exact Hb].
    + discriminate Hs.
  - assert (He : get f (assign_all (emitted r xs) start) = 0)
      by (rewrite get_assign_other by (rewrite emitted_fields; exact Hf); destruct f; reflexivity).
    destruct s as [z | p b | p b]; cbn [source_ok] in Hs.
    + apply andb_true_iff in Hs as [Hz _]. apply Z.eqb_eq in Hz. subst z.
      split; [| split; [exact I | reflexivity]]. unfold completed.
      rewrite get_assign_other; [destruct f; reflexivity |]. rewrite fmap_app, emitted_fields, not_elem_of_app.
      split; [exact Hf |]. intros Hx. apply list_elem_of_fmap in Hx as ([g v] & -> & Hx).
      apply fixed_In in Hx as (p & b & Hx & _). pose proof (assoc_unique _ _ _ _ (sf_nodup _ SF) Hin Hx) as E. discriminate E.
    + rewrite !andb_true_iff in Hs. destruct Hs as [[Hb _] Hs]. apply Z.eqb_eq in Hb. subst b.
      destruct (list_find (fun q : imm_type * field => q.2 = f) (row_sig r)) as [[j [t' f']] |] eqn:Ef.
      { exfalso. apply list_find_Some in Ef as (Hj & E & _). cbn [snd] in E. subst f'. apply Hf.
        apply list_elem_of_fmap. exists (t', f). split; [reflexivity | eapply list_elem_of_lookup_2, Hj]. }
      rewrite !andb_true_iff, !Z.eqb_eq in Hs. destruct Hs as [[[Hv Hk] Hj] H0]. apply imm_fitsb_spec in Hv.
      assert (Eg : get f (completed r xs) = op_decode p (rv_inst_match o)).
      { destruct (sf_op _ SF _ _ _ Hin) as [Hpo Hcv]. unfold completed.
        rewrite (get_assign _ f (op_decode p (rv_inst_match o)) start Hn).
        - apply (conv_ok_conv f p 0); [apply operand_In_facts, Hpo | exact Hcv | rewrite Z.sub_0_r; exact Hv].
        - apply elem_of_app. right. apply fixed_In. eauto. }
      rewrite Eg, He, !Z.sub_0_r, H0, Hj. split; [exact Hv | split; [exact Hk | apply Z.lor_0_r]].
    + discriminate Hs.
Qed.

Lemma completed_wf : wf_decode (completed r xs).
Proof.
  destruct completed_op as [Eo Ec]. destruct row_facts as (_ & _ & Hm & _).
  unfold wf_decode, wf_shape. rewrite Ec, Eo. split; [reflexivity |]. split; [split |].
  - apply List.Forall_forall. intros [f s] Hin. apply completed_source, Hin.
  - intros f Hf. unfold completed. rewrite get_assign_other; [destruct f; reflexivity |].
    rewrite fmap_app, emitted_fields, not_elem_of_app. split; intros Hx.
    + rewrite (Hm f Hx) in Hf. discriminate Hf.
    + apply list_elem_of_fmap in Hx as ([g v] & -> & Hx). apply fixed_In in Hx as (p & b & Hx & _).
      apply not_true_iff_false in Hf. apply Hf, mentions_In. exact (in_map fst _ _ Hx).
  - apply List.Forall_forall. intros [f s] Hin. apply completed_source, Hin.
Qed.

(** The emitted word is that of the completed record. *)
Lemma emit_completed : exists w,
  emit o (arguments r xs) = Some w /\ encode_inst (completed r xs) = Some (completed r xs, w).
Proof.
  destruct completed_op as [Eo Ec]. destruct row_facts as (Hp & Hs & _ & _).
  exists (rv_inst_match o .| shape_encode (shape_of c) (completed r xs)). split.
  - unfold emit. rewrite build_emitted.
    2: { eapply Forall_impl; [exact Hfit |]. intros [[t f] x] [H _]. exact H. }
    destruct (assign_all_keeps (emitted r xs) (set_op o decode_init)) as [Eo' _]. cbn [op set_op] in Eo'.
    rewrite encode_plain.
    + cbn [option_map snd]. rewrite !Eo'. f_equal.
      assert (G : forall sh, (forall fs, In fs sh -> In fs (shape_of c)) ->
                rv_inst_match o .| shape_encode sh (assign_all (emitted r xs) (set_op o decode_init))
                = rv_inst_match o .| shape_encode sh (completed r xs)).
      { intros sh. induction sh as [| [f s] sh IH]; intros H; [reflexivity |].
        rewrite !shape_encode_cons, !Z.lor_assoc.
        destruct (completed_source f s (H _ (or_introl eq_refl))) as (_ & _ & E). cbv zeta in E.
        rewrite <- set_codec_assign in E.
        replace (fs_term (set_codec c (assign_all (emitted r xs) (set_op o decode_init))) (f, s))
          with (fs_term (assign_all (emitted r xs) (set_op o decode_init)) (f, s)) in E by (destruct s, f; reflexivity).
        rewrite E. rewrite <- !Z.lor_assoc, !(Z.lor_comm (fs_term _ _)), !Z.lor_assoc, IH; [reflexivity |].
        intros q Hq. apply H. right. exact Hq. }
      apply G. auto.
    + rewrite Eo'. exact Hp.
    + rewrite Eo'. intros El. transitivity (get F_rs2 (assign_all (emitted r xs) (set_op o decode_init))); [reflexivity |].
      rewrite get_assign_other; [reflexivity |]. rewrite emitted_fields. intros Hx.
      specialize (Hs F_rs2 (SConst 0)). rewrite El in Hs. specialize (Hs ltac:(simpl; tauto)).
      cbn [source_ok] in Hs. rewrite bool_decide_true in Hs by exact Hx. discriminate Hs.
  - rewrite encode_inst_shape; [rewrite Ec, Eo; reflexivity | apply completed_wf |].
    rewrite Ec. intros E. rewrite E in Hp. discriminate Hp.
Qed.

Lemma completed_argument (t : imm_type) (f : field) (x : Z) :
  In (t, f, x) (arguments r xs) -> get f (completed r xs) = imm_value t x.
Proof.
  intros Hin. destruct row_facts as (_ & _ & Hm & _).
  pose proof (argument_set t f x Hin) as Hf.
  apply Hm, mentions_In, in_map_iff in Hf as ([f' s] & E & Hsh). cbn [fst] in E. subst f'.
  destruct s as [z | p b | p b].
  1,3: exfalso; destruct row_facts as (_ & Hs & _); specialize (Hs f _ Hsh); cbn [source_ok] in Hs; try discriminate Hs.
  2: { destruct (argument_field t f x p b Hin Hsh) as (_ & _ & Hc & _ & He). unfold completed.
       rewrite (get_assign _ f (imm_value t x) _ set_fields_NoDup); [exact Hc | apply elem_of_app; left; exact He]. }
  apply andb_true_iff in Hs as [_ Hs]. apply negb_true_iff, bool_decide_eq_false in Hs. apply Hs.
  exact (argument_set t f x Hin).
Qed.
End Row.

Lemma zip_refused (l : list (imm_type * field)) : forall xs,
  ~ Forall (fun a : argument => valid a.1.1 a.2 = true) (zip_with (fun p x => (p, x)) l xs) ->
  forallb (fun '(t, _, x) => valid t x) (zip_with (fun p x => (p, x)) l xs) = false.
Proof.
  intros xs H. apply not_true_iff_false. intros E. apply H. rewrite forallb_forall in E.
  apply List.Forall_forall. intros [[t f] x] Hin. exact (E _ Hin).
Qed.

(** The control-register instructions with an immediate source: [dec.imm] is
    assigned twice, and the source stays what the record starts with. *)
Lemma zimm_emitted (fl : isa) (o : rv_op) (a z c : Z) :
  o ∈ zimm_ops -> rv_base fl o -> valid ireg5 a = true -> valid uimm5 z = true -> valid uimm12 c = true ->
  exists w, emit o [(ireg5, F_rd, a); (uimm5, F_imm, z); (uimm12, F_imm, c)] = Some w
    /\ let d := decode_inst fl decode_init w in op d = o /\ rd d = uwrap 64 a /\ imm d = uwrap 64 c /\ rs1 d = 0.
Proof.
  intros Ho Hb Ha Hz Hc. unfold emit, build. cbn [forallb]. rewrite Ha, Hz, Hc. cbn [andb fold_left].
  assert (Ra : in_u 5 (uwrap 64 a)).
  { cbn in Ha. apply Z.leb_le in Ha. pose proof (uwrap_range 64 a ltac:(lia)) as [R _]. split; [exact R | change (2 ^ 5) with 32; lia]. }
  assert (Rc : in_u 12 (uwrap 64 c)).
  { cbn in Hc. apply Z.leb_le in Hc. pose proof (uwrap_range 64 c ltac:(lia)) as [R _]. split; [exact R | change (2 ^ 12) with 4096; lia]. }
  clear Ha Hc. cbn [imm_value ireg5 uimm5 uimm12]. set (a' := uwrap 64 a) in *. set (c' := uwrap 64 c) in *. clearbody a' c'.
  set (D := mkDecode c' a' 0 0 0 o rv_codec_i_csr 0 0 0 0 0).
  assert (Ec : rv_inst_codec o = rv_codec_i_csr /\ op_guard D /\ rv_inst_mask o .& o_bits operand_rd = 0
    /\ rv_inst_mask o .& o_bits operand_rs1 = 0 /\ rv_inst_mask o .& o_bits operand_csr12 = 0).
  { repeat (apply elem_of_cons in Ho as [-> | Ho]; [split_and!; reflexivity || exact I |]). apply not_elem_of_nil in Ho. destruct Ho. }
  destruct Ec as (Ec & Hg & M1 & M2 & M3).
  assert (Hwf : wf_decode D).
  { split; [symmetry; exact Ec |]. split; [split |]; cbn [D codec shape_of].
    - rewrite !Forall_cons. cbn [src_wf get rd rs1 rs2 imm]. rewrite !Z.sub_0_r. unfold imm_fits.
      split_and!; try exact Ra; try exact Rc; try apply Z.mod_1_r; try reflexivity; try apply Forall_nil; try exact I. split; reflexivity || discriminate.
    - intros f. destruct f; try discriminate; reflexivity.
    - rewrite !Forall_cons. cbn [src_fixed snd fst op]. split_and!; try apply Forall_nil; try exact I; apply free_operand; first [assumption | rewrite Z.land_comm; assumption | unfold all_operands; simpl; tauto]. }
  destruct (encode_then_decode fl D Hb Hwf Hg ltac:(discriminate)) as (w & Ew & Ed).
  exists w. rewrite Ed. split; [| auto].
  transitivity (option_map snd (encode_inst D)); [| rewrite Ew; reflexivity].
  set (X := set F_imm c' (set F_imm (uwrap 64 z) (set F_rd a' (set_op o decode_init)))).
  assert (EX : set_codec (rv_inst_codec (op X)) X = D).
  { unfold X, D, set, set_imm, set_rd, set_op, set_codec, decode_init. cbn - [uwrap swrap]. rewrite Ec. unfold in_u in *.
    change (2 ^ 5) with 32 in *. change (2 ^ 12) with 4096 in *.
    rewrite (uwrap_small 8 a'), (swrap_small 32 c') by (unfold in_u, in_s; cbn; lia). reflexivity. }
  rewrite <- EX. reflexivity.
Qed.
Definition zimm_row (r : row) : bool :=
  match row_sig r with [(uimm_t 5, F_rd); (uimm_t 5, F_imm); (uimm_t 12, F_imm)] => true | _ => false end.
Lemma zimm_signature (r : row) : In r emitters -> row_op r ∈ zimm_ops ->
  row_sig r = [(ireg5, F_rd); (uimm5, F_imm); (uimm12, F_imm)].
Proof.
  intros Hin Hz.
  assert (H : forallb (fun r => negb (bool_decide (row_op r ∈ zimm_ops)) || zimm_row r) emitters = true) by (vm_compute; reflexivity).
  rewrite forallb_forall in H. specialize (H r Hin). rewrite (bool_decide_true _ Hz) in H. cbn [negb orb] in H.
  unfold zimm_row in H. repeat (case_match; try discriminate H). reflexivity.
Qed.

(** C40: Every emitter builds the instruction it is named after: if its operands are
    valid (and the offset or upper immediate is a multiple of what the format
    holds), the word decodes to its opcode with each operand in its field; if one
    is not valid the word is zero.  The exception are the three control-register
    instructions with an immediate source: their word decodes to the opcode with
    the destination and the register number, and zero in place of the source. *)
Theorem emit_round_trip (fl : isa) (r : row) (xs : list Z) :
  In r emitters -> rv_base fl (row_op r) -> length xs = length (row_sig r) ->
  (row_op r ∉ zimm_ops -> Forall (arg_fits (row_op r)) (arguments r xs) ->
   exists w, row_emit r xs = Some w
     /\ op (decode_inst fl decode_init w) = row_op r
     /\ Forall (fun '(t, f, x) => get f (decode_inst fl decode_init w) = imm_value t x) (arguments r xs))
  /\ (row_op r ∈ zimm_ops -> Forall (fun a : argument => valid a.1.1 a.2 = true) (arguments r xs) ->
      exists rd_ zimm csr w, xs = [rd_; zimm; csr] /\ row_emit r xs = Some w
      /\ let d := decode_inst fl decode_init w in
         op d = row_op r /\ rd d = uwrap 64 rd_ /\ imm d = uwrap 64 csr /\ rs1 d = 0)
  /\ (~ Forall (fun a : argument => valid a.1.1 a.2 = true) (arguments r xs) -> row_emit r xs = Some 0).
Proof.
  intros Hin Hb Hlen. rewrite (row_emit_eq r xs Hin Hlen). split; [| split].
  - intros Hz Hfit. pose proof (rows_ok r Hin Hz) as Hok. destruct (emit_completed r xs Hok Hlen Hfit) as (w & He & Hw).
    destruct (completed_op r xs) as [Eo Ec]. destruct (row_facts r Hok) as (Hp & _).
    destruct (encode_then_decode fl (completed r xs)) as (w' & Hw' & Hd).
    + rewrite Eo. exact Hb.
    + exact (completed_wf r xs Hok Hlen Hfit).
    + unfold op_guard. rewrite Eo. destruct (row_op r); try exact I; discriminate Hp.
    + rewrite Ec. intros E. rewrite E in Hp. discriminate Hp.
    + rewrite Hw in Hw'. injection Hw' as <-. exists w. split; [exact He |]. rewrite Hd. split; [exact Eo |].
      apply List.Forall_forall. intros [[t f] x] Ha. exact (completed_argument r xs Hok Hlen Hfit t f x Ha).
  - intros Hz Hv. pose proof (zimm_signature r Hin Hz) as Hs. rewrite Hs in Hlen. unfold arguments in *. rewrite Hs in *.
    destruct xs as [| a [| z [| c [|]]]]; try discriminate Hlen. cbn [zip_with] in *. rewrite !Forall_cons in Hv. destruct Hv as (Ha & Hv & Hc & _).
    destruct (zimm_emitted fl (row_op r) a z c Hz Hb Ha Hv Hc) as (w & Ew & Hd). exists a, z, c, w. auto.
  - intros Hv. unfold emit, build, arguments. rewrite (zip_refused _ _ Hv). reflexivity.
Qed.

Lemma emit_round_trip_witness :
  emit_beq 10 11 (-8) = Some 0xfeb50ce3
  /\ (let r := Row rv_op_beq [(ireg5, F_rs1); (ireg5, F_rs2); (offset13, F_imm)] (fn3 emit_beq) in
      exists w, row_emit r [10; 11; -8] = Some w
        /\ op (decode_inst isa_rv64 decode_init w) = rv_op_beq
        /\ Forall (fun '(t, f, x) => get f (decode_inst isa_rv64 decode_init w) = imm_value t x)
             (arguments r [10; 11; -8])).
Proof.
  split; [reflexivity |].
  refine (proj1 (emit_round_trip isa_rv64
           (Row rv_op_beq [(ireg5, F_rs1); (ireg5, F_rs2); (offset13, F_imm)] (fn3 emit_beq)) [10; 11; -8] _ _ _) _ _).
  - unfold emitters. simpl. tauto.
  - right; left; split; reflexivity.
  - reflexivity.
  - intros H. repeat (apply elem_of_cons in H as [H | H]; [discriminate H |]). apply not_elem_of_nil in H. exact H.
  - repeat (apply List.Forall_cons; [split; [reflexivity | intros E; try discriminate E; reflexivity] |]).
    apply List.Forall_nil.
Defined.

(** [csrrwi t0, 0x300, 5] is emitted with 0 in place of 5. *)
Example emit_csrrwi_loses_zimm :
  emit_csrrwi 5 5 0x300 = emit_csrrwi 5 0 0x300
  /\ option_map (fun w => rs1 (decode_inst isa_rv64 decode_init w)) (emit_csrrwi 5 5 0x300) = Some 0.
Proof. vm_compute. split; reflexivity. Qed.
