(* ===== verification/CompProofs.v ===== *)
(** * Compression is safe: [asm/codec.h] with the tables of [asm/meta.cc]

    A compressed instruction, encoded and decoded again, is the instruction that
    was compressed, outside the constraint entries that are too weak. *)

From Stdlib Require Import ZArith Lia Bool.
From stdpp Require Import base list.
From S2P Require Import Prelude Operand Meta CompTables Codec Switch Decoder.

#[local] Open Scope Z_scope.
#[local] Open Scope word_scope.

(** The cases in which a constraint list accepts an instruction the compressed
    form cannot carry: [c.lui] above the 18-bit signed range, [c.jal] above the
    12-bit signed range, [c.addi16sp] not a multiple of 16, [c.nop] with an
    immediate. *)
Definition comp_defect (d : decode) (c : rv_op) : bool :=
  match c with
  | rv_op_c_lui => imm d >=? 0x20000
  | rv_op_c_jal => imm d >=? 0x800
  | rv_op_c_addi16sp => negb (imm d mod 16 =? 0)
  | rv_op_c_nop => negb (imm d =? 0)
  | _ => false
  end.

(** What comes back: the encoder of the CS format ([c.sub], [c.xor], [c.or],
    [c.and], [c.subw], [c.addw]) writes [rd] in the place of [rs2]. *)
Definition carried (d : decode) (c : rv_op) : decode :=
  match rv_inst_codec c with rv_codec_cs => set_rs2 (rd d) d | _ => d end.

Lemma land_low (x k : Z) : 0 <= k -> x .& (2 ^ k - 1) = x mod 2 ^ k.
Proof. apply uwrap_land. Qed.

Lemma land_1 (x : Z) : x .& 0x1 = x mod 2.
Proof. apply (land_low x 1); lia. Qed.
Lemma land_3 (x : Z) : x .& 0x3 = x mod 4.
Proof. apply (land_low x 2); lia. Qed.
Lemma land_7 (x : Z) : x .& 0x7 = x mod 8.
Proof. apply (land_low x 3); lia. Qed.
Lemma land_15 (x : Z) : x .& 0xf = x mod 16.
Proof. apply (land_low x 4); lia. Qed.

(** Where the mask leaves an operand free there is nothing to agree with. *)
Lemma src_fixed_free (d : decode) (f : field) (o : operand) (b : Z) :
  In o all_operands -> rv_inst_mask (op d) .& o_bits o = 0 -> src_fixed d (f, SOp o b).
Proof.
  intros Ho H. pose proof (operand_In_facts o Ho) as F. unfold src_fixed. cbn [snd fst].
  assert (Hd : forall i, Z.testbit (rv_inst_mask (op d)) i && Z.testbit (o_bits o) i = false).
  { intros i. rewrite <- Z.land_spec, H. apply Z.testbit_0_l. }
  apply Z.bits_inj'. intros n Hn. rewrite !Z.land_spec. rewrite <- (match_in_mask (op d)).
  rewrite Z.land_spec, <- andb_assoc, Hd, andb_false_r.
  specialize (Hd n). destruct (Z.testbit (rv_inst_mask (op d)) n); [|apply andb_false_r].
  cbn [andb] in Hd. unfold o_bits in Hd. rewrite testbit_o_bits in Hd by assumption.
  rewrite andb_true_r. unfold op_encode.
  rewrite imm_encode_moves by (apply (of_segs o F) || lia). apply mv_out, Hd.
Qed.

Definition mask_free (o : rv_op) : bool :=
  forallb (fun fs : field * src =>
    match snd fs with SOp p _ => (rv_inst_mask o .& o_bits p) =? 0 | _ => true end)
    (shape_of (rv_inst_codec o)).

Lemma mask_free_fixed (d : decode) :
  codec d = rv_inst_codec (op d) -> mask_free (op d) = true ->
  Forall (src_fixed d) (shape_of (codec d)).
Proof.
  intros Hc H. unfold mask_free in H. rewrite <- Hc, forallb_forall in H.
  apply List.Forall_forall. intros [f s] Hin. specialize (H _ Hin). cbn [snd] in H.
  destruct s as [z | o b | o b]; try exact I.
  apply src_fixed_free; [|apply Z.eqb_eq, H].
  eapply sf_op; [apply shape_of_facts | exact Hin].
Qed.

(** The retargeted record. *)
Definition with_op (o : rv_op) (d : decode) : decode := set_codec (rv_inst_codec o) (set_op o d).

(** A candidate accepted by its constraints gives a well-formed compressed
    instruction that expands back. *)
Definition cand_ok (fl : isa) (decomp : rv_op -> rv_op) (d : decode) (c : rv_op) : Prop :=
  rv_base fl c /\ wf_decode (with_op c d) /\ op_guard (with_op c d)
  /\ decomp c = op d /\ op d <> rv_op_illegal.

(** Turn the accepted constraints into arithmetic. *)
Ltac constraints H :=
  cbn [constraint_check constraint_holds] in H;
  repeat match type of H with
  | (if ?b then _ else false) = true =>
      let E := fresh "E" in destruct b eqn:E; [|discriminate H]
  end; clear H;
  rewrite ?land_1, ?land_3, ?land_7, ?land_15 in *;
  rewrite ?andb_true_iff, ?negb_true_iff, ?Z.geb_leb, ?Z.leb_le, ?Z.ltb_lt, ?Z.eqb_eq, ?Z.eqb_neq in *.

(** The values of an operand as an interval of multiples. *)
Definition o_lo (o : operand) : Z := if o_signed o then - 2 ^ (o_width o - 1) else 0.
Definition o_hi (o : operand) : Z := if o_signed o then 2 ^ (o_width o - 1) else 2 ^ o_width o.

Lemma imm_fits_iff (o : operand) (x lo hi a : Z) :
  o_lo o = lo -> o_hi o = hi -> 2 ^ o_align o = a ->
  imm_fits o x <-> lo <= x < hi /\ x mod a = 0.
Proof.
  intros <- <- <-. unfold imm_fits, o_lo, o_hi, in_s, in_u. destruct (o_signed o); reflexivity.
Qed.

Ltac fits_iff o x :=
  let lo := eval vm_compute in (o_lo o) in
  let hi := eval vm_compute in (o_hi o) in
  let a := eval vm_compute in (2 ^ o_align o) in
  constr:(imm_fits_iff o x lo hi a eq_refl eq_refl eq_refl).

Ltac fits_in :=
  repeat match goal with
  | H : imm_fits ?o ?x |- _ => let E := fits_iff o x in apply (proj1 E) in H
  end; rewrite ?Z.mod_1_r, ?Z.sub_0_r in *.

Ltac fits_out :=
  match goal with |- imm_fits ?o ?x => let E := fits_iff o x in apply (proj2 E) end;
  rewrite ?Z.mod_1_r, ?Z.sub_0_r.

(** [c.mv] follows [c.li], which has taken the case [rs1 = x0]. *)
Ltac guard_mv :=
  intros ?;
  repeat match goal with
  | E : (if ?b then _ else _) = false |- _ => destruct b eqn:?
  end; try discriminate; lia.

(** Discharge [cand_ok] for one candidate. *)
Ltac candidate base :=
  split; [base | split; [| split; [| split]]];
  [ split; [reflexivity | split; [split |]];
    [ repeat (apply Forall_cons; split); try apply Forall_nil;
      cbn [src_wf get imm rd rs1 rs2 with_op set_op set_codec]; try fits_out; try exact I; lia
    | let f := fresh "f" in intros f; destruct f; cbn; try discriminate; intros _; lia
    | apply mask_free_fixed; [reflexivity | vm_compute; reflexivity] ]
  | cbn; first [lia | exact I | guard_mv]
  | reflexivity
  | congruence ].

(** Split the scan of a candidate list into its branches. *)
Ltac scan H :=
  lazymatch type of H with
  | comp_scan _ ?l = _ => unfold l in H; cbn [comp_scan] in H
  end;
  repeat lazymatch type of H with
  | (if constraint_check ?d ?cs then _ else _) = _ =>
      let E := fresh "Ecs" in destruct (constraint_check d cs) eqn:E
  end; try discriminate H.

(** One branch: the result is the candidate; use its constraints. *)
Ltac branch H Hdef :=
  injection H as <-; cbn [op set_codec set_op] in *;
  split; [reflexivity |];
  try solve [exfalso; vm_compute in Hdef; discriminate Hdef];
  repeat match goal with
  | E : constraint_check _ ?cs = true |- _ => unfold cs in E; constraints E
  | E : constraint_check _ rvcc_c_li = false |- _ =>
      unfold rvcc_c_li in E; cbn [constraint_check constraint_holds] in E
  | E : constraint_check _ _ = false |- _ => clear E
  end;
  unfold comp_defect in Hdef;
  rewrite ?negb_false_iff, ?Z.eqb_eq, ?Z.geb_leb, ?Z.leb_gt in Hdef; fits_in.

(** The whole case analysis: every opcode with candidates, every candidate. *)
Ltac all_candidates table base :=
  intros [Hc [[Hs Hz] _]] Hcomp Hdef;
  pose proof (Hz F_rs3); pose proof (Hz F_rm); pose proof (Hz F_aq); pose proof (Hz F_rl);
  pose proof (Hz F_pred); pose proof (Hz F_succ); clear Hz;
  match type of Hcomp with ?f _ = _ => unfold f, comp_table in Hcomp end;
  destruct (op _) eqn:Eo; try discriminate Hcomp;
  cbn [rv_inst_codec] in Hc; rewrite Hc in *; cbn [shape_of] in Hs;
  rewrite ?Forall_cons in Hs; cbn [src_wf get] in Hs; destruct_and? Hs;
  repeat match goal with H : mentions _ _ = false -> _ |- _ => specialize (H eq_refl); cbn [get] in H end;
  cbn [table] in Hcomp; scan Hcomp;
  branch Hcomp Hdef; unfold cand_ok; rewrite Eo; candidate base.

Lemma cand_rv64 (d d' : decode) :
  wf_decode d -> compress_inst_rv64 d = Some d' -> comp_defect d (op d') = false ->
  d' = with_op (op d') d /\ cand_ok isa_rv64 rv_inst_decomp_rv64 d (op d').
Proof. all_candidates rv_inst_comp_rv64 ltac:(right; left; split; reflexivity). Qed.

Lemma cand_rv32 (d d' : decode) :
  wf_decode d -> compress_inst_rv32 d = Some d' -> comp_defect d (op d') = false ->
  d' = with_op (op d') d /\ cand_ok isa_rv32 rv_inst_decomp_rv32 d (op d').
Proof. all_candidates rv_inst_comp_rv32 ltac:(left; split; reflexivity). Qed.

Lemma candidate_round_trip (fl : isa) (decomp : rv_op -> rv_op) (d : decode) (c : rv_op) :
  wf_decode d -> cand_ok fl decomp d c ->
  exists w, encode_inst (with_op c d) = Some (with_op c d, w)
    /\ decompress decomp (decode_inst fl decode_init w) = carried d c.
Proof.
  intros [Hc _] (Hb & Hwf & Hg & Hd & Hne).
  destruct (encode_then_decode_any fl (with_op c d) Hb Hwf Hg) as [w [He Hw]].
  exists w. split; [exact He |]. rewrite Hw. unfold decompress, encoded, carried. cbn [codec with_op set_codec].
  destruct (rv_inst_codec c); cbn [op with_op set_codec set_op set_rs2 set_codec];
    rewrite Hd, bool_decide_false, <- Hc by exact Hne; destruct d; reflexivity.
Qed.

Lemma compress_rv64 (d d' : decode) :
  wf_decode d -> compress_inst_rv64 d = Some d' -> comp_defect d (op d') = false ->
  exists w, encode_inst d' = Some (d', w) /\ decode_inst_rv64 decode_init w = carried d (op d').
Proof.
  intros Hwf Hc Hd. destruct (cand_rv64 d d' Hwf Hc Hd) as [-> Hok].
  exact (candidate_round_trip _ _ _ _ Hwf Hok).
Qed.

Lemma compress_rv32 (d d' : decode) :
  wf_decode d -> compress_inst_rv32 d = Some d' -> comp_defect d (op d') = false ->
  exists w, encode_inst d' = Some (d', w) /\ decode_inst_rv32 decode_init w = carried d (op d').
Proof.
  intros Hwf Hc Hd. destruct (cand_rv32 d d' Hwf Hc Hd) as [-> Hok].
  exact (candidate_round_trip _ _ _ _ Hwf Hok).
Qed.

(** C19: whenever the RV64 or the RV32 compressor rewrites a well-formed
    instruction, the compressed instruction encodes, and the fetched halfword
    decodes and expands to the original instruction; in the CS format to the
    original with [rs2] replaced by [rd], which its encoder writes in both fields.
    Excepted are four forms the constraints accept although they do not hold the
    immediate: [c.lui] from 0x20000, [c.jal] from 0x800, [c.addi16sp] that is not a
    multiple of 16 and [c.nop] with an immediate. *)
Theorem compress_round_trip (d d' : decode) :
  wf_decode d -> comp_defect d (op d') = false ->
  (compress_inst_rv64 d = Some d' ->
   exists w, encode_inst d' = Some (d', w) /\ decode_inst_rv64 decode_init w = carried d (op d'))
  /\ (compress_inst_rv32 d = Some d' ->
      exists w, encode_inst d' = Some (d', w) /\ decode_inst_rv32 decode_init w = carried d (op d')).
Proof.
  intros Hwf Hd. split; intros Hc; [exact (compress_rv64 d d' Hwf Hc Hd) | exact (compress_rv32 d d' Hwf Hc Hd)].
Qed.

Lemma compress_round_trip_witness :
  let d := mkDecode 8 9 8 0 0 rv_op_lw rv_codec_i 0 0 0 0 0 in
  let d' := mkDecode 8 9 8 0 0 rv_op_c_lw rv_codec_cl_lw 0 0 0 0 0 in
  (compress_inst_rv64 d = Some d' /\ compress_inst_rv32 d = Some d')
  /\ (exists w, encode_inst d' = Some (d', w) /\ decode_inst_rv64 decode_init w = d)
  /\ exists w, encode_inst d' = Some (d', w) /\ decode_inst_rv32 decode_init w = d.
Proof.
  split; [split; reflexivity |].
  split; [apply (proj1 (compress_round_trip
                          (mkDecode 8 9 8 0 0 rv_op_lw rv_codec_i 0 0 0 0 0)
                          (mkDecode 8 9 8 0 0 rv_op_c_lw rv_codec_cl_lw 0 0 0 0 0)
                          ltac:(wf_eval) eq_refl)); reflexivity
         | apply (proj2 (compress_round_trip
                          (mkDecode 8 9 8 0 0 rv_op_lw rv_codec_i 0 0 0 0 0)
                          (mkDecode 8 9 8 0 0 rv_op_c_lw rv_codec_cl_lw 0 0 0 0 0)
                          ltac:(wf_eval) eq_refl)); reflexivity].
Defined.

(** ** The defects, on concrete instructions *)

(** [sub s0, s0, s1] compresses to [c.sub], which encodes as [c.sub s0, s0]:
    [encode_cs] writes [rd] into the [rs2] field. *)
Lemma encode_cs_loses_rs2 :
  let d := mkDecode 0 8 8 9 0 rv_op_sub rv_codec_r 0 0 0 0 0 in
  exists d' w, compress_inst_rv64 d = Some d' /\ encode_inst d' = Some (d', w)
    /\ rs2 (decode_inst_rv64 decode_init w) = 8 /\ rs2 d = 9.
Proof. do 2 eexists. repeat split; reflexivity. Qed.

(** [addi sp, sp, 36] is accepted for [c.addi16sp], which adds 32. *)
Lemma addi16sp_loses_bits :
  let d := mkDecode 36 2 2 0 0 rv_op_addi rv_codec_i 0 0 0 0 0 in
  exists d' w, compress_inst_rv64 d = Some d' /\ encode_inst d' = Some (d', w)
    /\ decode_inst_rv64 decode_init w = set_imm 32 d.
Proof. do 2 eexists. repeat split; reflexivity. Qed.

(** [lui a0, 0x20] is accepted for [c.lui] and comes back negative. *)
Lemma c_lui_changes_sign :
  let d := mkDecode 0x20000 10 0 0 0 rv_op_lui rv_codec_u 0 0 0 0 0 in
  exists d' w, compress_inst_rv64 d = Some d' /\ encode_inst d' = Some (d', w)
    /\ imm (decode_inst_rv64 decode_init w) = -0x20000.
Proof. do 2 eexists. repeat split; reflexivity. Qed.

(** On RV32 a forward [jal ra, 2048] is accepted for [c.jal] and jumps back. *)
Lemma c_jal_changes_sign :
  let d := mkDecode 0x800 1 0 0 0 rv_op_jal rv_codec_uj 0 0 0 0 0 in
  exists d' w, compress_inst_rv32 d = Some d' /\ encode_inst d' = Some (d', w)
    /\ imm (decode_inst_rv32 decode_init w) = -0x800.
Proof. do 2 eexists. repeat split; reflexivity. Qed.

(** The RV128 expansion table lacks every compressed opcode but the quadword
    memory forms, which never decode: [c.li] stays compressed. *)
Lemma rv128_not_expanded :
  op (decode_inst_rv128 decode_init 0x4501) = rv_op_c_li
  /\ op (decode_inst_rv64 decode_init 0x4501) = rv_op_addi.
Proof. split; reflexivity. Qed.
