(* ===== verification/Ckpt.v ===== *)
(** * Memory trace and checkpoints: [util/fmt.h] and [util/fmt.cc]

    The recorder this fork adds.  A [MemTrace] keeps, per 4 KiB page, which bytes
    were touched ([visited], one bit a byte) and the value each had when it was
    first touched ([content]); execution counters per halfword; and a hash table
    of the latest stores.  [None] stands for undefined behaviour: an index out of
    an array, or a null page pointer. *)

From Stdlib Require Import ZArith Lia Bool.
From stdpp Require Import base gmap list option.
From S2P Require Import Prelude.

#[local] Open Scope Z_scope.
#[local] Open Scope word_scope.

(** ** Page records *)

Module Page.

Record PageRec : Type := mkPage { visited : list Z; content : list Z }.

Definition new : PageRec := mkPage (replicate 512 0) (replicate 4096 0).

(** [(1 << sizeof(T)) - 1] *)
Definition mask (sz : Z) : Z := Z.shiftl 1 sz - 1.

Definition check (sz : Z) (p : PageRec) (offset : Z) : option Z :=
  b ← aget (visited p) (offset >>> 3);
  Some ((b >>> (offset .& 7)) .& mask sz).

Definition set (sz : Z) (p : PageRec) (offset : Z) : option PageRec :=
  b ← aget (visited p) (offset >>> 3);
  v ← aset (visited p) (offset >>> 3) (uwrap 8 (b .| Z.shiftl (mask sz) (offset .& 7)));
  Some (mkPage v (content p)).

(** Byte [i] of a little-endian value. *)
Definition byte (data i : Z) : Z := uwrap 8 (data >>> (8 * i)).

(** [*(T * )(content + offset) = data] *)
Fixpoint write (n : nat) (c : list Z) (offset data : Z) : option (list Z) :=
  match n with
  | O => Some c
  | S n' => c' ← aset c offset (uwrap 8 data); write n' c' (offset + 1) (data >>> 8)
  end.

Definition put (sz : Z) (p : PageRec) (offset data : Z) : option PageRec :=
  p ← set sz p offset;
  c ← write (Z.to_nat sz) (content p) offset data;
  Some (mkPage (visited p) c).

End Page.

Abbreviation PageRec := Page.PageRec.

(** ** Execution counters and stores *)

Record ExecRec : Type := mkExec { count : list Z }.
Definition exec_new : ExecRec := mkExec (replicate 2048 0).

Record StoreRec : Type := mkStore { st_addr : Z; st_size : Z }.

(** A page pointer is the number of the page it points to, [None] for NULL;
    pages are never freed while the trace lives. *)
Record PtrCache : Type := mkCache { c_idx : Z; c_ptr : option Z }.
Definition cache_new : PtrCache := mkCache 0 None.

(** ** The memory trace *)

Record MemTrace : Type := mkTrace {
  pages : gmap Z PageRec;
  execs : gmap Z ExecRec;
  stores : list StoreRec;
  fetch_cache : PtrCache;
  load_cache : PtrCache;
  exec_cache : PtrCache }.

Definition STREC_SIZE : Z := 256.

Definition trace_new : MemTrace :=
  mkTrace ∅ ∅ (replicate (Z.to_nat STREC_SIZE) (mkStore 0 0)) cache_new cache_new cache_new.

Definition with_pages (ps : gmap Z PageRec) (m : MemTrace) : MemTrace :=
  mkTrace ps (execs m) (stores m) (fetch_cache m) (load_cache m) (exec_cache m).
Definition with_execs (es : gmap Z ExecRec) (m : MemTrace) : MemTrace :=
  mkTrace (pages m) es (stores m) (fetch_cache m) (load_cache m) (exec_cache m).
Definition with_stores (ss : list StoreRec) (m : MemTrace) : MemTrace :=
  mkTrace (pages m) (execs m) ss (fetch_cache m) (load_cache m) (exec_cache m).

(** Which of the two page caches a call passes by reference. *)
Inductive which : Type := FetchC | LoadC.
Definition cache_of (w : which) (m : MemTrace) : PtrCache :=
  match w with FetchC => fetch_cache m | LoadC => load_cache m end.
Definition with_cache (w : which) (c : PtrCache) (m : MemTrace) : MemTrace :=
  match w with
  | FetchC => mkTrace (pages m) (execs m) (stores m) c (load_cache m) (exec_cache m)
  | LoadC => mkTrace (pages m) (execs m) (stores m) (fetch_cache m) c (exec_cache m)
  end.

(** [get_page(pn)]: [pages[pn]] default-inserts. *)
Definition get_page1 (pn : Z) (m : MemTrace) : MemTrace :=
  match pages m !! pn with
  | Some _ => m
  | None => with_pages (<[pn := Page.new]> (pages m)) m
  end.

(** [get_page(pn, cache)] *)
Definition get_page (w : which) (pn : Z) (m : MemTrace) : MemTrace * option Z :=
  if negb (pn =? c_idx (cache_of w m)) then
    (with_cache w (mkCache pn (Some pn)) (get_page1 pn m), Some pn)
  else (m, c_ptr (cache_of w m)).

(** Read and update a page through a pointer. *)
Definition deref (m : MemTrace) (p : option Z) : option PageRec := pn ← p; pages m !! pn.
Definition update (m : MemTrace) (p : option Z) (r : PageRec) : MemTrace :=
  match p with Some pn => with_pages (<[pn := r]> (pages m)) m | None => m end.

Definition page_check (sz : Z) (m : MemTrace) (p : option Z) (offset : Z) : option Z :=
  r ← deref m p; Page.check sz r offset.
Definition page_put (sz : Z) (m : MemTrace) (p : option Z) (offset data : Z) : option MemTrace :=
  r ← deref m p; r' ← Page.put sz r offset data; Some (update m p r').

Definition get_exec1 (pn : Z) (m : MemTrace) : MemTrace :=
  match execs m !! pn with
  | Some _ => m
  | None => with_execs (<[pn := exec_new]> (execs m)) m
  end.

(** [get_exec_counter(addr)]: the counter's page and index. *)
Definition get_exec_counter (addr : Z) (m : MemTrace) : MemTrace * option (Z * Z) :=
  let pn := addr >>> 12 in
  let m :=
    if negb (pn =? c_idx (exec_cache m)) then
      let m := get_exec1 pn m in
      mkTrace (pages m) (execs m) (stores m) (fetch_cache m) (load_cache m) (mkCache pn (Some pn))
    else m in
  (m, p ← c_ptr (exec_cache m); Some (p, (addr .& 0xfff) >>> 1)).

Definition read_counter (m : MemTrace) (r : option (Z * Z)) : option Z :=
  '(p, i) ← r; e ← execs m !! p; aget (count e) i.

Definition incr_counter (m : MemTrace) (r : option (Z * Z)) : option MemTrace :=
  '(p, i) ← r; e ← execs m !! p; c ← aget (count e) i;
  cs ← aset (count e) i (c +[32] 1);
  Some (with_execs (<[p := mkExec cs]> (execs m)) m).

(** ** Recording an access *)

(** The loop of [fetch<T>] over a partly visited halfword or word. *)
Fixpoint fetch_partial (n : nat) (i mask inst : Z) (m : MemTrace) (p : option Z) (offset : Z)
    : option MemTrace :=
  match n with
  | O => Some m
  | S n' =>
      m ← (if negb ((mask .& Z.shiftl 1 i) =? 0)
           then page_put 1 m p offset (uwrap 8 (inst >>> (i * 8)))
           else Some m);
      fetch_partial n' (i + 1) mask inst m p offset
  end.

(** [fetch<T>(page, offset, inst)]: has none of it been visited before? *)
Definition fetch_page (sz : Z) (m : MemTrace) (p : option Z) (offset inst : Z)
    : option (MemTrace * bool) :=
  mask ← page_check sz m p offset;
  if mask =? 0 then m ← page_put sz m p offset inst; Some (m, true)
  else if mask =? Z.shiftl 1 sz - 1 then Some (m, false)
  else m ← fetch_partial (Z.to_nat sz) 0 mask inst m p offset; Some (m, false).

(** [MemTrace::fetch(addr, inst, length)] *)
Definition fetch (addr inst length : Z) (m : MemTrace) : option (MemTrace * bool) :=
  let '(m, cnt) := get_exec_counter addr m in
  m ← incr_counter m cnt;
  let pn := addr >>> 12 in
  let '(m, page) := get_page FetchC pn m in
  let offset := addr .& 0xfff in
  if length =? 2 then fetch_page 2 m page offset (uwrap 16 inst)
  else if (addr .& 3) =? 0 then fetch_page 4 m page offset (uwrap 32 inst)
  else
    '(m, first1) ← fetch_page 2 m page offset (uwrap 16 inst);
    let '(m, page, offset) :=
      if offset + 2 =? 4096 then
        let '(m, page) := get_page FetchC (pn + 1) m in (m, page, offset - 4096)
      else (m, page, offset) in
    '(m, first2) ← fetch_page 2 m page (offset + 2) (uwrap 16 (inst >>> 16));
    Some (m, first1 && first2).

(** [MemTrace::prefetch(addr, length)] *)
Definition prefetch (addr length : Z) (m : MemTrace) : option (MemTrace * bool) :=
  let '(m, page) := get_page FetchC (addr >>> 12) m in
  let offset := addr .& 0xfff in
  if length =? 2 then c ← page_check 2 m page offset; Some (m, c =? 0)
  else Some (m, false).

(** The byte loop of [load]. *)
Fixpoint load_bytes (n : nat) (i pn data : Z) (m : MemTrace) (page : option Z) (offset : Z)
    : option MemTrace :=
  match n with
  | O => Some m
  | S n' =>
      let '(m, page, offset) :=
        if offset + i =? 4096 then
          let '(m, page) := get_page LoadC (pn + 1) m in (m, page, offset - 4096)
        else (m, page, offset) in
      c ← page_check 1 m page (offset + i);
      m ← (if c =? 0 then page_put 1 m page (offset + i) (Page.byte data i) else Some m);
      load_bytes n' (i + 1) pn data m page offset
  end.

(** [MemTrace::load<T>(addr, data)] *)
Definition load (sz addr data : Z) (m : MemTrace) : option MemTrace :=
  let pn := addr >>> 12 in
  let '(m, page) := get_page LoadC pn m in
  let offset := addr .& 0xfff in
  let bytes := load_bytes (Z.to_nat sz) 0 pn data m page offset in
  if (offset .& (sz - 1)) =? 0 then
    c ← page_check sz m page offset;
    if c =? 0 then page_put sz m page offset data
    else if c =? Z.shiftl 1 sz - 1 then Some m
    else bytes
  else bytes.

(** The hash of a store address: the exclusive or of its bytes. *)
Fixpoint store_hash (n : nat) (hash shift : Z) : Z :=
  match n with
  | O => hash
  | S n' => store_hash n' (hash .^ (shift .& (STREC_SIZE - 1))) (shift / STREC_SIZE)
  end.

(** [MemTrace::store<T>(addr, data)] *)
Definition store (sz addr : Z) (m : MemTrace) : option MemTrace :=
  m ← load sz addr 0 m;
  ss ← aset (stores m) (store_hash 8 0 addr) (mkStore addr sz);
  Some (with_stores ss m).
