(* ===== verification/CkptProofs.v ===== *)
(** * The memory trace records the first value of every byte *)

From Stdlib Require Import ZArith Lia Bool.
From stdpp Require Import base gmap list option.
From S2P Require Import Prelude Ckpt.

#[local] Open Scope Z_scope.
#[local] Open Scope word_scope.

(** ** Pages *)

Section PageLemmas.
  Import Page.

Definition page_wf (p : PageRec) : Prop :=
  length (visited p) = 512%nat /\ length (content p) = 4096%nat /\ Forall (in_u 8) (visited p).

Definition vis (p : PageRec) (j : Z) : bool :=
  match aget (visited p) (j / 8) with Some b => Z.testbit b (j mod 8) | None => false end.

(** What a page records for byte [j]. *)
Definition rec_at (p : PageRec) (j : Z) : option Z :=
  if vis p j then aget (content p) j else None.

Lemma new_wf : page_wf new.
Proof.
  unfold page_wf, new. cbn [visited content]. rewrite !length_replicate.
  repeat split. apply Forall_replicate. split; [dlia | reflexivity].
Qed.

Lemma rec_at_new (j : Z) : rec_at new j = None.
Proof.
  unfold rec_at, vis, new, aget. cbn [visited]. destruct (0 <=? j / 8); [|reflexivity].
  destruct (replicate 512 0 !! Z.to_nat (j / 8)) as [b|] eqn:E; [|reflexivity].
  apply lookup_replicate in E as [-> _]. rewrite Z.testbit_0_l. reflexivity.
Qed.

Lemma testbit_mask (sz i : Z) : 0 <= sz -> 0 <= i -> Z.testbit (mask sz) i = (i <? sz).
Proof. intros. unfold mask. rewrite shiftl_mul, Z.mul_1_l by dlia. apply testbit_pow2_m1; dlia. Qed.

Lemma check_spec (sz offset : Z) (p : PageRec) :
  page_wf p -> 0 <= offset < 4096 -> 0 < sz -> offset mod 8 + sz <= 8 ->
  exists c, check sz p offset = Some c /\ in_u sz c
    /\ forall i, 0 <= i < sz -> Z.testbit c i = vis p (offset + i).
Proof.
  intros (Hv & _ & Hb) Ho Hs Hf. unfold check, vis.
  rewrite shiftr_div by dlia. change (2 ^ 3) with 8.
  change 7 with (2 ^ 3 - 1). rewrite uwrap_land by dlia. unfold uwrap. change (2 ^ 3) with 8.
  destruct (aget_Some (visited p) (offset / 8)) as [b Eb]; [rewrite Hv; dlia |].
  rewrite Eb. cbn [mbind option_bind].
  assert (in_u 8 b).
  { unfold aget in Eb. destruct (0 <=? offset / 8); [|discriminate].
    exact (Forall_lookup_1 _ _ _ _ Hb Eb). }
  eexists; split; [reflexivity |]. split.
  - apply in_u_testbit; [dlia | apply Z.land_nonneg; left; apply Z.shiftr_nonneg, H |].
    intros n Hn. rewrite Z.land_spec, testbit_mask by dlia.
    rewrite (proj2 (Z.ltb_ge n sz)) by dlia. apply andb_false_r.
  - intros i Hi. rewrite Z.land_spec, testbit_mask, Z.shiftr_spec by dlia.
    rewrite (proj2 (Z.ltb_lt i sz)), andb_true_r by dlia.
    replace ((offset + i) / 8) with (offset / 8) by dlia. rewrite Eb. f_equal. dlia.
Qed.

Lemma set_spec (sz offset : Z) (p : PageRec) :
  page_wf p -> 0 <= offset < 4096 -> 0 < sz -> offset mod 8 + sz <= 8 ->
  exists p', Page.set sz p offset = Some p' /\ page_wf p' /\ content p' = content p
    /\ forall j, 0 <= j < 4096 -> vis p' j = vis p j || ((offset <=? j) && (j <? offset + sz)).
Proof.
  intros (Hv & Hc & Hb) Ho Hs Hf. unfold Page.set.
  rewrite shiftr_div by dlia. change (2 ^ 3) with 8.
  change 7 with (2 ^ 3 - 1). rewrite uwrap_land by dlia. unfold uwrap at 2. change (2 ^ 3) with 8.
  destruct (aget_Some (visited p) (offset / 8)) as [b Eb]; [rewrite Hv; dlia |].
  rewrite Eb. cbn [mbind option_bind].
  rewrite aset_Some by (rewrite Hv; dlia). cbn [mbind option_bind].
  eexists; split; [reflexivity |]. cbn [visited content]. split; [|split; [reflexivity |]].
  - unfold page_wf. cbn [visited content].
    split; [rewrite length_insert; exact Hv | split; [exact Hc |]].
    apply Forall_insert; [exact Hb | apply uwrap_range; dlia].
  - intros j Hj. unfold vis. cbn [visited]. rewrite aget_set by (rewrite ?Hv; dlia).
    destruct (Z.eqb_spec (j / 8) (offset / 8)) as [E|E].
    + rewrite E, Eb, testbit_uwrap, Z.lor_spec, testbit_shiftl by dlia.
      rewrite (proj2 (Z.ltb_lt (j mod 8) 8)) by dlia. cbn [andb]. f_equal.
      destruct (Z.leb_spec (offset mod 8) (j mod 8)); cbn [andb].
      * rewrite testbit_mask by dlia. bcases; dlia || reflexivity.
      * bcases; dlia || reflexivity.
    + destruct (aget (visited p) (j / 8)); bcases; rewrite ?orb_false_r; try reflexivity; dlia.
Qed.

Lemma write_spec (n : nat) : forall (c : list Z) (offset data : Z),
  length c = 4096%nat -> 0 <= offset -> offset + Z.of_nat n <= 4096 ->
  exists c', write n c offset data = Some c' /\ length c' = 4096%nat
    /\ forall j, 0 <= j -> aget c' j
         = if (offset <=? j) && (j <? offset + Z.of_nat n) then Some (byte data (j - offset)) else aget c j.
Proof.
  induction n as [|n IH]; intros c offset data Hl Ho Hf.
  - exists c. split; [reflexivity | split; [exact Hl |]]. intros j Hj.
    bcases; try reflexivity; dlia.
  - cbn [write]. rewrite aset_Some by (rewrite Hl; dlia). cbn [mbind option_bind].
    destruct (IH (<[Z.to_nat offset := uwrap 8 data]> c) (offset + 1) (data >>> 8))
      as (c' & -> & Hl' & Hc'); [rewrite length_insert; exact Hl | dlia | dlia |].
    exists c'. split; [reflexivity | split; [exact Hl' |]]. intros j Hj.
    rewrite Hc' by assumption. rewrite aget_set by (rewrite ?Hl; dlia).
    bcases; cbn [andb]; try dlia; try reflexivity.
    + f_equal. unfold byte. rewrite Z.shiftr_shiftr by dlia. do 2 f_equal. dlia.
    + f_equal. unfold byte. replace (j - offset) with 0 by dlia. cbn. rewrite Z.shiftr_0_r. reflexivity.
Qed.

Lemma put_spec (sz offset data : Z) (p : PageRec) :
  page_wf p -> 0 <= offset -> offset + sz <= 4096 -> 0 < sz -> offset mod 8 + sz <= 8 ->
  exists p', put sz p offset data = Some p' /\ page_wf p'
    /\ forall j, 0 <= j < 4096 -> rec_at p' j
         = if (offset <=? j) && (j <? offset + sz) then Some (byte data (j - offset)) else rec_at p j.
Proof.
  intros Hp Ho He Hs Hf. unfold put.
  destruct (set_spec sz offset p Hp ltac:(dlia) Hs Hf) as (p1 & -> & Hp1 & Hc1 & Hv1).
  cbn [mbind option_bind]. pose proof Hp1 as (Hl & Hl' & Hb).
  destruct (write_spec (Z.to_nat sz) (content p1) offset data Hl' Ho ltac:(dlia)) as (c' & -> & Hlc & Hc).
  cbn [mbind option_bind]. eexists; split; [reflexivity |].
  split; [split; [exact Hl | split; [exact Hlc | exact Hb]] |].
  intros j Hj. unfold rec_at. unfold vis at 1. cbn [visited content]. fold (vis p1 j).
  rewrite Hv1, Hc by dlia. rewrite Z2Nat.id by dlia. rewrite Hc1.
  destruct ((offset <=? j) && (j <? offset + sz)).
  - rewrite orb_true_r. reflexivity.
  - rewrite orb_false_r. reflexivity.
Qed.

End PageLemmas.

(** ** The trace as a map from addresses to first values *)

(** What the trace records for address [a]. *)
Definition recorded (m : MemTrace) (a : Z) : option Z :=
  p ← pages m !! (a / 4096); rec_at p (a mod 4096).

(** A page cache holds the page of its index, or is fresh. *)
Definition cache_ok (m : MemTrace) (c : PtrCache) : Prop :=
  (c_idx c = 0 /\ c_ptr c = None)
  \/ (c_ptr c = Some (c_idx c) /\ exists p, pages m !! c_idx c = Some p).

Definition exec_wf (m : MemTrace) : Prop :=
  (forall pn e, execs m !! pn = Some e -> length (count e) = 2048%nat)
  /\ ((c_idx (exec_cache m) = 0 /\ c_ptr (exec_cache m) = None)
      \/ (c_ptr (exec_cache m) = Some (c_idx (exec_cache m))
          /\ exists e, execs m !! c_idx (exec_cache m) = Some e)).

Record trace_wf (m : MemTrace) : Prop := {
  tw_pages : forall pn p, pages m !! pn = Some p -> page_wf p;
  tw_fetch : cache_ok m (fetch_cache m);
  tw_load : cache_ok m (load_cache m);
  tw_stores : length (stores m) = 256%nat;
  tw_exec : exec_wf m }.

(** Only the page table and the page caches differ. *)
Definition same_rest (m m' : MemTrace) : Prop :=
  stores m' = stores m /\ execs m' = execs m /\ exec_cache m' = exec_cache m.

Lemma same_rest_refl (m : MemTrace) : same_rest m m.
Proof. repeat split. Qed.

Lemma same_rest_trans (a b c : MemTrace) : same_rest a b -> same_rest b c -> same_rest a c.
Proof. unfold same_rest. intuition congruence. Qed.

Lemma cache_ok_insert (m : MemTrace) (pn : Z) (p : PageRec) (c : PtrCache) :
  cache_ok m c -> cache_ok (with_pages (<[pn := p]> (pages m)) m) c.
Proof.
  intros [H | [H [q Hq]]]; [left; assumption | right; split; [assumption |]].
  cbn [pages with_pages]. destruct (decide (c_idx c = pn)) as [<- |].
  - exists p. apply lookup_insert_eq.
  - exists q. rewrite lookup_insert_ne by congruence. exact Hq.
Qed.

Lemma trace_wf_insert (m : MemTrace) (pn : Z) (p : PageRec) :
  trace_wf m -> page_wf p -> trace_wf (with_pages (<[pn := p]> (pages m)) m).
Proof.
  intros [Hp Hf Hl Hs He] Hw. split; cbn [pages with_pages stores fetch_cache load_cache];
    try assumption.
  - intros k q Hk. destruct (decide (k = pn)) as [-> |].
    + rewrite lookup_insert_eq in Hk. congruence.
    + rewrite lookup_insert_ne in Hk by congruence. eauto.
  - apply cache_ok_insert, Hf.
  - apply cache_ok_insert, Hl.
Qed.

Lemma with_cache_wf (m : MemTrace) (w : which) (c : PtrCache) :
  trace_wf m -> cache_ok m c -> trace_wf (with_cache w c m).
Proof. intros [Hp Hf Hl Hs He] Hc. destruct w; split; assumption. Qed.

(** Looking a page up through a cache never changes what is recorded and, away
    from page 0, never yields a null pointer. *)
Lemma get_page_spec (m : MemTrace) (w : which) (pn : Z) :
  trace_wf m -> pn <> 0 ->
  exists m', get_page w pn m = (m', Some pn) /\ trace_wf m' /\ same_rest m m'
    /\ (exists p, pages m' !! pn = Some p) /\ forall a, recorded m' a = recorded m a.
Proof.
  intros Hm Hpn. unfold get_page.
  destruct (Z.eqb_spec pn (c_idx (cache_of w m))) as [E|E]; cbn [negb].
  - exists m. assert (Hc : cache_ok m (cache_of w m)) by (destruct w; apply Hm).
    destruct Hc as [[H _] | [H [p Hp]]]; [congruence |].
    rewrite H, <- E. rewrite <- E in Hp.
    split; [reflexivity | split; [exact Hm | split; [apply same_rest_refl | split; [eauto | reflexivity]]]].
  - eexists. split; [reflexivity |].
    assert (H1 : trace_wf (get_page1 pn m) /\ (exists p, pages (get_page1 pn m) !! pn = Some p)
              /\ same_rest m (get_page1 pn m)
              /\ forall a, recorded (get_page1 pn m) a = recorded m a).
    { unfold get_page1. destruct (pages m !! pn) as [p|] eqn:Ep.
      { split; [exact Hm | split; [eauto | split; [apply same_rest_refl | reflexivity]]]. }
      split; [apply trace_wf_insert; [exact Hm | apply new_wf] |].
      split; [eexists; apply lookup_insert_eq |]. split; [repeat split |].
      intros a. unfold recorded. cbn [pages with_pages].
      destruct (decide (a / 4096 = pn)) as [<- |].
      - rewrite lookup_insert_eq, Ep. cbn [mbind option_bind]. apply rec_at_new.
      - rewrite lookup_insert_ne by congruence. reflexivity. }
    destruct H1 as (H1 & [p Hp] & Hr & H2). split; [|split; [|split]].
    + apply with_cache_wf; [exact H1 |]. right. split; [reflexivity |]. exists p. exact Hp.
    + destruct w; exact Hr.
    + exists p. destruct w; exact Hp.
    + intros a. rewrite <- H2. destruct w; reflexivity.
Qed.

(** [record lo n f r]: [r] extended at the unrecorded addresses of
    [lo, lo + n) with the values [f]. *)
Definition record (lo n : Z) (f : Z -> Z) (r : Z -> option Z) (a : Z) : option Z :=
  match r a with
  | Some v => Some v
  | None => if (lo <=? a) && (a <? lo + n) then Some (f a) else None
  end.

Definition addr_of (pg offset : Z) : Z := pg * 4096 + offset.

Lemma recorded_addr (m : MemTrace) (pg : Z) (p : PageRec) (j : Z) :
  pages m !! pg = Some p -> 0 <= j < 4096 -> recorded m (addr_of pg j) = rec_at p j.
Proof.
  intros Hp Hj. unfold recorded, addr_of.
  replace ((pg * 4096 + j) / 4096) with pg by dlia.
  replace ((pg * 4096 + j) mod 4096) with j by dlia. rewrite Hp. reflexivity.
Qed.

Lemma vis_recorded (p : PageRec) (j : Z) :
  page_wf p -> 0 <= j < 4096 -> vis p j = true <-> exists v, rec_at p j = Some v.
Proof.
  intros (_ & Hc & _) Hj. unfold rec_at. destruct (vis p j).
  - split; [intros _ | reflexivity]. apply aget_Some. lia.
  - split; [discriminate | intros [v Hv]; discriminate].
Qed.

(** A coalesced write into an untouched range of one page. *)
Lemma page_put_spec (m : MemTrace) (pg sz offset data : Z) (p : PageRec) :
  trace_wf m -> pages m !! pg = Some p -> 0 <= offset -> offset + sz <= 4096 -> 0 < sz ->
  offset mod 8 + sz <= 8 ->
  (forall i, 0 <= i < sz -> vis p (offset + i) = false) ->
  exists m', page_put sz m (Some pg) offset data = Some m' /\ trace_wf m' /\ same_rest m m'
    /\ (exists p', pages m' !! pg = Some p')
    /\ forall a, recorded m' a
         = record (addr_of pg offset) sz (fun a => Page.byte data (a - addr_of pg offset)) (recorded m) a.
Proof.
  intros Hm Hp Ho He Hs Hf Hfree. unfold page_put, deref. cbn [mbind option_bind]. rewrite Hp. cbn [mbind option_bind].
  destruct (put_spec sz offset data p (tw_pages _ Hm _ _ Hp) Ho He Hs Hf) as (p' & -> & Hp' & Hr).
  cbn [mbind option_bind update]. eexists; split; [reflexivity |].
  split; [apply trace_wf_insert; assumption | split; [repeat split |]].
  split; [eexists; apply lookup_insert_eq |].
  intros a. unfold record. destruct (decide (a / 4096 = pg)) as [E|E].
  - assert (Ea : a = addr_of pg (a mod 4096)) by (unfold addr_of; dlia).
    assert (Hj : 0 <= a mod 4096 < 4096) by dlia.
    set (j := a mod 4096) in *. rewrite Ea at 1 2.
    rewrite (recorded_addr m pg p j Hp Hj).
    rewrite (recorded_addr _ pg p' j) by (assumption || apply lookup_insert_eq).
    rewrite Hr by assumption. rewrite Ea.
    replace ((addr_of pg offset <=? addr_of pg j) && (addr_of pg j <? addr_of pg offset + sz))
      with ((offset <=? j) && (j <? offset + sz)) by (unfold addr_of; bcases; lia || reflexivity).
    destruct ((offset <=? j) && (j <? offset + sz)) eqn:Er.
    + rewrite andb_true_iff, Z.leb_le, Z.ltb_lt in Er.
      replace (rec_at p j) with (@None Z).
      * do 2 f_equal. unfold addr_of. lia.
      * unfold rec_at. specialize (Hfree (j - offset) ltac:(lia)).
        replace (offset + (j - offset)) with j in Hfree by lia. rewrite Hfree. reflexivity.
    + destruct (rec_at p j); reflexivity.
  - unfold recorded at 1. cbn [pages with_pages]. rewrite lookup_insert_ne by congruence.
    fold (recorded m a).
    replace ((addr_of pg offset <=? a) && (a <? addr_of pg offset + sz)) with false.
    + destruct (recorded m a); reflexivity.
    + unfold addr_of. destruct (Z.leb_spec (pg * 4096 + offset) a), (Z.ltb_spec a (pg * 4096 + offset + sz));
        try reflexivity. exfalso. apply E. dlia.
Qed.

(** ** Load and store *)

Lemma record_empty (lo : Z) (f : Z -> Z) (r : Z -> option Z) (a : Z) : record lo 0 f r a = r a.
Proof. unfold record. destruct (r a); bcases; try reflexivity; lia. Qed.

(** Recording one byte, then the rest, is recording the range. *)
Lemma record_step (lo n : Z) (f : Z -> Z) (r r' : Z -> option Z) (a : Z) :
  0 < n -> (forall a, r' a = record lo 1 f r a) ->
  record (lo + 1) (n - 1) f r' a = record lo n f r a.
Proof.
  intros Hn H. unfold record at 1. rewrite H. unfold record.
  destruct (r a); [reflexivity |]. bcases; cbn [andb]; try reflexivity; lia.
Qed.

Lemma record_ext (lo n : Z) (f : Z -> Z) (r r' : Z -> option Z) (a : Z) :
  (forall a, r' a = r a) -> record lo n f r' a = record lo n f r a.
Proof. intros H. unfold record. rewrite H. reflexivity. Qed.

(** A range already recorded is left alone. *)
Lemma record_full (lo n : Z) (f : Z -> Z) (r : Z -> option Z) (a : Z) :
  (forall b, lo <= b < lo + n -> exists v, r b = Some v) -> record lo n f r a = r a.
Proof.
  intros H. unfold record. destruct (r a) eqn:E; [reflexivity |].
  destruct (Z.leb_spec lo a), (Z.ltb_spec a (lo + n)); try reflexivity.
  destruct (H a ltac:(lia)). congruence.
Qed.

Lemma page_check_spec (m : MemTrace) (pg sz offset : Z) (p : PageRec) :
  trace_wf m -> pages m !! pg = Some p -> 0 <= offset < 4096 -> 0 < sz -> offset mod 8 + sz <= 8 ->
  exists c, page_check sz m (Some pg) offset = Some c /\ in_u sz c
    /\ forall i, 0 <= i < sz -> Z.testbit c i = vis p (offset + i).
Proof.
  intros Hm Hp Ho Hs Hf. unfold page_check, deref. cbn [mbind option_bind]. rewrite Hp.
  cbn [mbind option_bind]. apply check_spec; try assumption. exact (tw_pages _ Hm _ _ Hp).
Qed.

Lemma bit_check (c : Z) (b : bool) : in_u 1 c -> Z.testbit c 0 = b -> c = b2z b.
Proof.
  intros [H1 H2] H. change (2 ^ 1) with 2 in H2. assert (c = 0 \/ c = 1) as [-> | ->] by lia;
    cbn in H; subst; reflexivity.
Qed.

(** One byte: recorded if it was not. *)
Lemma load_byte_spec (m : MemTrace) (pg offset b : Z) (f : Z -> Z) :
  trace_wf m -> (exists p, pages m !! pg = Some p) -> 0 <= offset < 4096 ->
  f (addr_of pg offset) = uwrap 8 b ->
  exists m', (c ← page_check 1 m (Some pg) offset;
              if c =? 0 then page_put 1 m (Some pg) offset b else Some m) = Some m'
    /\ trace_wf m' /\ same_rest m m' /\ (exists p, pages m' !! pg = Some p)
    /\ forall a, recorded m' a = record (addr_of pg offset) 1 f (recorded m) a.
Proof.
  intros Hm [p Hp] Ho Hfb.
  destruct (page_check_spec m pg 1 offset p Hm Hp Ho ltac:(lia) ltac:(dlia)) as (c & -> & Hc & Hb).
  cbn [mbind option_bind]. specialize (Hb 0 ltac:(lia)). rewrite Z.add_0_r in Hb.
  pose proof (bit_check c _ Hc Hb) as ->. destruct (vis p offset) eqn:Ev; cbn [b2z Z.eqb].
  - exists m. split; [reflexivity | split; [exact Hm | split; [apply same_rest_refl | split; [eauto |]]]].
    intros a. symmetry. apply record_full. intros a' Ha'.
    replace a' with (addr_of pg offset) by lia. rewrite (recorded_addr m pg p) by assumption.
    apply vis_recorded; [exact (tw_pages _ Hm _ _ Hp) | lia | exact Ev].
  - destruct (page_put_spec m pg 1 offset b p Hm Hp ltac:(lia) ltac:(lia) ltac:(lia) ltac:(dlia))
      as (m' & E & Hm' & Hs & Hp' & Hr).
    { intros i Hi. replace (offset + i) with offset by lia. exact Ev. }
    exists m'. split; [exact E | split; [exact Hm' | split; [exact Hs | split; [exact Hp' |]]]].
    intros a. rewrite Hr. unfold record. destruct (recorded m a); [reflexivity |].
    destruct (Z.leb_spec (addr_of pg offset) a), (Z.ltb_spec a (addr_of pg offset + 1)); try reflexivity.
    cbn [andb]. f_equal. replace a with (addr_of pg offset) by lia. rewrite Hfb.
    unfold Page.byte. rewrite Z.sub_diag. cbn. rewrite Z.shiftr_0_r. reflexivity.
Qed.

(** The byte loop: from byte [i] on, over the page boundary if need be. *)
Lemma load_bytes_spec (data addr pn : Z) (n : nat) : forall i m pg offset,
  trace_wf m -> 0 < pn -> pn = addr / 4096 -> 0 <= i -> i + Z.of_nat n <= 8 ->
  (exists p, pages m !! pg = Some p) -> addr_of pg offset = addr ->
  (pg = pn /\ 0 <= offset < 4096 /\ offset + i <= 4096) \/ (pg = pn + 1 /\ - 8 <= offset < 0 /\ 0 <= offset + i) ->
  exists m', load_bytes n i pn data m (Some pg) offset = Some m' /\ trace_wf m' /\ same_rest m m'
    /\ forall a, recorded m' a
         = record (addr + i) (Z.of_nat n) (fun a => Page.byte data (a - addr)) (recorded m) a.
Proof.
  induction n as [|n IH]; intros i m pg offset Hm Hpn Epn Hi Hn Hp Ha Hcase.
  - exists m. split; [reflexivity | split; [exact Hm | split; [apply same_rest_refl |]]].
    intros a. symmetry. apply record_empty.
  - cbn [load_bytes].
    assert (Hnext : exists m1 pg' offset',
      (if offset + i =? 4096
       then let '(m0, page) := get_page LoadC (pn + 1) m in (m0, page, offset - 4096)
       else (m, Some pg, offset)) = (m1, Some pg', offset')
      /\ trace_wf m1 /\ same_rest m m1 /\ (forall a, recorded m1 a = recorded m a)
      /\ (exists p, pages m1 !! pg' = Some p)
      /\ addr_of pg' offset' = addr
      /\ 0 <= offset' + i < 4096
      /\ ((pg' = pn /\ 0 <= offset' < 4096) \/ (pg' = pn + 1 /\ - 8 <= offset' < 0))).
    { destruct (Z.eqb_spec (offset + i) 4096).
      - destruct (get_page_spec m LoadC (pn + 1) Hm ltac:(lia)) as (m1 & -> & Hm1 & Hs1 & Hp1 & Hr1).
        exists m1, (pn + 1), (offset - 4096).
        split; [reflexivity |]. split; [exact Hm1 |]. split; [exact Hs1 |]. split; [exact Hr1 |].
        split; [exact Hp1 |]. unfold addr_of in *. lia.
      - exists m, pg, offset. split; [reflexivity |]. split; [exact Hm |].
        split; [apply same_rest_refl |]. split; [reflexivity |]. split; [exact Hp |]. lia. }
    destruct Hnext as (m1 & pg' & offset' & -> & Hm1 & Hs1 & Hr1 & Hp1 & Ha1 & Ho1 & Hc1).
    destruct (load_byte_spec m1 pg' (offset' + i) (Page.byte data i) (fun a => Page.byte data (a - addr))
                Hm1 Hp1 Ho1) as (m2 & E2 & Hm2 & Hs2 & Hp2 & Hr2).
    { cbv beta. replace (addr_of pg' (offset' + i) - addr) with i by (unfold addr_of in *; lia).
      unfold Page.byte. rewrite uwrap_idemp. reflexivity. }
    destruct (page_check 1 m1 (Some pg') (offset' + i)) as [c|]; [|discriminate].
    cbn [mbind option_bind] in E2 |- *. rewrite E2. cbn [mbind option_bind].
    destruct (IH (i + 1) m2 pg' offset' Hm2 Hpn Epn ltac:(lia) ltac:(lia) Hp2 Ha1 ltac:(lia))
      as (m3 & -> & Hm3 & Hs3 & Hr3).
    exists m3. split; [reflexivity | split; [exact Hm3 | split]].
    + eapply same_rest_trans; [exact Hs1 |]. eapply same_rest_trans; eassumption.
    + intros a. rewrite Hr3. replace (addr + (i + 1)) with (addr + i + 1) by lia.
      replace (Z.of_nat n) with (Z.of_nat (Datatypes.S n) - 1) by lia.
      apply record_step; [lia |]. intros a'. rewrite Hr2.
      replace (addr_of pg' (offset' + i)) with (addr + i) by (unfold addr_of in *; lia).
      apply record_ext, Hr1.
Qed.

Lemma aligned_fits (sz offset : Z) :
  access_size sz -> 0 <= offset < 4096 -> offset .& (sz - 1) = 0 ->
  offset mod 8 + sz <= 8 /\ offset + sz <= 4096.
Proof.
  intros Hsz Ho H.
  assert (exists k, sz = 2 ^ k /\ 0 <= k) as (k & -> & Hk)
    by (destruct Hsz as [-> | [-> | [-> | ->]]]; [exists 0 | exists 1 | exists 2 | exists 3]; split; reflexivity || lia).
  rewrite uwrap_land in H by lia. unfold uwrap in H.
  destruct Hsz as [E | [E | [E | E]]]; rewrite E in *; dlia.
Qed.

Lemma ones_of_bits (sz c : Z) : 0 < sz -> in_u sz c ->
  ((c =? 0) = true <-> forall i, 0 <= i < sz -> Z.testbit c i = false)
  /\ ((c =? Z.shiftl 1 sz - 1) = true <-> forall i, 0 <= i < sz -> Z.testbit c i = true).
Proof.
  intros Hs Hc. rewrite !Z.eqb_eq, shiftl_mul, Z.mul_1_l by lia. split; split.
  - intros -> i _. apply Z.testbit_0_l.
  - intros H. apply Z.bits_inj'. intros i Hi. rewrite Z.testbit_0_l.
    destruct (Z.ltb_spec i sz); [apply H; lia | apply (testbit_high sz); [assumption | lia]].
  - intros -> i Hi. rewrite testbit_pow2_m1 by lia. apply Z.ltb_lt. lia.
  - intros H. apply Z.bits_inj'. intros i Hi. rewrite testbit_pow2_m1 by lia.
    destruct (Z.ltb_spec i sz); [apply H; lia | apply (testbit_high sz); [assumption | lia]].
Qed.

Lemma load_spec (m : MemTrace) (sz addr data : Z) :
  trace_wf m -> access_size sz -> 4096 <= addr ->
  exists m', load sz addr data m = Some m' /\ trace_wf m' /\ same_rest m m'
    /\ forall a, recorded m' a = record addr sz (fun a => Page.byte data (a - addr)) (recorded m) a.
Proof.
  intros Hm Hsz Ha. unfold load. rewrite shiftr_div by lia. change (2 ^ 12) with 4096.
  change 0xfff with (2 ^ 12 - 1). rewrite uwrap_land by lia. unfold uwrap. change (2 ^ 12) with 4096.
  assert (Hpn : 0 < addr / 4096) by dlia. assert (Ho : 0 <= addr mod 4096 < 4096) by dlia.
  assert (Eaddr : addr_of (addr / 4096) (addr mod 4096) = addr) by (unfold addr_of; dlia).
  assert (Hs : 0 < sz <= 8) by (unfold access_size in Hsz; lia).
  destruct (get_page_spec m LoadC (addr / 4096) Hm ltac:(lia)) as (m1 & -> & Hm1 & Hs1 & Hp1 & Hr1).
  cbv zeta beta iota.
  destruct (load_bytes_spec data addr (addr / 4096) (Z.to_nat sz) 0 m1 (addr / 4096) (addr mod 4096)
              Hm1 Hpn eq_refl ltac:(lia) ltac:(lia) Hp1 Eaddr ltac:(lia)) as (m2 & Eb & Hm2 & Hs2 & Hr2).
  assert (Hbytes : exists m', load_bytes (Z.to_nat sz) 0 (addr / 4096) data m1 (Some (addr / 4096)) (addr mod 4096) = Some m'
    /\ trace_wf m' /\ same_rest m m'
    /\ forall a, recorded m' a = record addr sz (fun a => Page.byte data (a - addr)) (recorded m) a).
  { exists m2. split; [exact Eb | split; [exact Hm2 | split; [eapply same_rest_trans; eassumption |]]].
    intros a. rewrite Hr2, Z.add_0_r, Z2Nat.id by lia. apply record_ext, Hr1. }
  destruct (Z.eqb_spec (addr mod 4096 .& (sz - 1)) 0) as [Eal|]; [|exact Hbytes].
  destruct (aligned_fits sz _ Hsz Ho Eal) as [Hf8 Hf].
  destruct Hp1 as [p Hp].
  destruct (page_check_spec m1 _ sz _ p Hm1 Hp Ho ltac:(lia) Hf8) as (c & Ec & Hc & Hcb).
  rewrite Ec. cbn [mbind option_bind]. destruct (ones_of_bits sz c ltac:(lia) Hc) as [H0 H1].
  destruct (c =? 0) eqn:E0; [|destruct (c =? Z.shiftl 1 sz - 1) eqn:E1; [|exact Hbytes]].
  - destruct (page_put_spec m1 (addr / 4096) sz (addr mod 4096) data p Hm1 Hp ltac:(lia) Hf ltac:(lia) Hf8)
      as (m3 & E3 & Hm3 & Hs3 & _ & Hr3).
    { intros i Hi. rewrite <- Hcb by assumption. apply (proj1 H0 eq_refl); assumption. }
    exists m3. split; [exact E3 | split; [exact Hm3 | split; [eapply same_rest_trans; eassumption |]]].
    intros a. rewrite Hr3, Eaddr. apply record_ext, Hr1.
  - exists m1. split; [reflexivity | split; [exact Hm1 | split; [exact Hs1 |]]].
    intros a. rewrite record_full; [apply Hr1 |]. intros b Hb. rewrite <- Hr1.
    replace b with (addr_of (addr / 4096) (addr mod 4096 + (b - addr))) by (unfold addr_of in *; lia).
    rewrite (recorded_addr m1 _ p) by (assumption || lia).
    apply vis_recorded; [exact (tw_pages _ Hm1 _ _ Hp) | lia |].
    rewrite <- Hcb by lia. apply (proj1 H1 eq_refl); lia.
Qed.

Lemma store_hash_range (n : nat) : forall h x, in_u 8 h -> 0 <= x -> in_u 8 (store_hash n h x).
Proof.
  induction n as [|n IH]; intros h x Hh Hx; [exact Hh |]. cbn [store_hash].
  apply IH; [|apply Z.div_pos; unfold STREC_SIZE; lia].
  apply lxor_range; [lia | exact Hh |]. rewrite Z.land_comm.
  apply land_range; [lia | split; reflexivity || (vm_compute; congruence) | exact Hx].
Qed.

Lemma byte_zero (i : Z) : Page.byte 0 i = 0.
Proof. unfold Page.byte. rewrite Z.shiftr_0_l. reflexivity. Qed.

Lemma store_spec (m : MemTrace) (sz addr : Z) :
  trace_wf m -> access_size sz -> 4096 <= addr ->
  exists m', store sz addr m = Some m' /\ trace_wf m'
    /\ (forall a, recorded m' a = record addr sz (fun _ => 0) (recorded m) a)
    /\ stores m' = <[Z.to_nat (store_hash 8 0 addr) := mkStore addr sz]> (stores m)
    /\ execs m' = execs m.
Proof.
  intros Hm Hsz Ha. unfold store.
  destruct (load_spec m sz addr 0 Hm Hsz Ha) as (m1 & -> & Hm1 & (Hs & He & _) & Hr).
  cbn [mbind option_bind].
  assert (Hh : in_u 8 (store_hash 8 0 addr)) by (apply store_hash_range; unfold in_u; lia).
  rewrite aset_Some by (rewrite (tw_stores _ Hm1); destruct Hh; lia).
  cbn [mbind option_bind]. eexists. split; [reflexivity |]. cbn [stores with_stores execs].
  split; [|split; [|split; [rewrite Hs; reflexivity | exact He]]].
  - destruct Hm1 as [Hp Hf Hl Hst Hex]. split; try assumption.
    cbn [stores with_stores]. rewrite length_insert. exact Hst.
  - intros a. change (recorded (with_stores _ m1) a) with (recorded m1 a). rewrite Hr.
    unfold record. destruct (recorded m a); [reflexivity |].
    destruct ((addr <=? a) && (a <? addr + sz)); [|reflexivity]. rewrite byte_zero. reflexivity.
Qed.

(** ** Instruction fetch *)

(** ** The execution counts *)

(** How often the halfword at [a] was fetched: its counter, zero if there is none. *)
Definition executions (m : MemTrace) (a : Z) : Z :=
  match execs m !! (a / 4096) with
  | Some e => default 0 (aget (count e) ((a mod 4096) / 2))
  | None => 0
  end.

Lemma executions_fresh (m : MemTrace) (pn a : Z) :
  execs m !! pn = None -> executions (with_execs (<[pn := exec_new]> (execs m)) m) a = executions m a.
Proof.
  intros E. unfold executions. cbn [execs with_execs]. destruct (decide (a / 4096 = pn)) as [-> |].
  - rewrite lookup_insert_eq, E. unfold aget, exec_new. cbn [count]. destruct (0 <=? _); [| reflexivity].
    destruct (replicate _ _ !! _) as [v |] eqn:Ev; [| reflexivity].
    apply lookup_replicate_1 in Ev as [-> _]. reflexivity.
  - rewrite lookup_insert_ne by congruence. reflexivity.
Qed.

Lemma executions_insert (m : MemTrace) (pn : Z) (e : ExecRec) (c : Z) (cs : list Z) (addr a : Z) :
  execs m !! pn = Some e -> length (count e) = 2048%nat -> pn = addr / 4096 ->
  cs = <[Z.to_nat ((addr mod 4096) / 2) := uwrap 32 (c + 1)]> (count e) ->
  executions (with_execs (<[pn := mkExec cs]> (execs m)) m) a
  = if a / 2 =? addr / 2 then uwrap 32 (c + 1) else executions m a.
Proof.
  intros He Hl -> ->. unfold executions. cbn [execs with_execs].
  assert (Hix : forall x, 0 <= (x mod 4096) / 2 < 2048) by (intros x; dlia).
  destruct (decide (a / 4096 = addr / 4096)) as [Ep | Ep].
  - rewrite Ep, lookup_insert_eq, He. cbn [count]. pose proof (Hix addr). pose proof (Hix a).
    rewrite aget_set by (rewrite ?Hl; lia).
    destruct (Z.eqb_spec ((a mod 4096) / 2) ((addr mod 4096) / 2)), (Z.eqb_spec (a / 2) (addr / 2));
      try reflexivity; exfalso; dlia.
  - rewrite lookup_insert_ne by congruence. destruct (Z.eqb_spec (a / 2) (addr / 2)); [exfalso; dlia | reflexivity].
Qed.

Lemma get_exec_counter_spec (m : MemTrace) (addr : Z) :
  trace_wf m -> 4096 <= addr ->
  exists m1 r m2 e c, get_exec_counter addr m = (m1, r) /\ r = Some (addr / 4096, (addr mod 4096) / 2)
    /\ execs m1 !! (addr / 4096) = Some e /\ aget (count e) ((addr mod 4096) / 2) = Some c
    /\ incr_counter m1 r = Some m2 /\ trace_wf m2 /\ pages m2 = pages m /\ stores m2 = stores m
    /\ trace_wf m1 /\ pages m1 = pages m /\ stores m1 = stores m
    /\ c = executions m addr /\ (forall a, executions m1 a = executions m a)
    /\ forall a, executions m2 a = if a / 2 =? addr / 2 then uwrap 32 (c + 1) else executions m a.
Proof.
  intros Hm Ha. unfold get_exec_counter. rewrite !shiftr_div by lia.
  change (2 ^ 12) with 4096. change (2 ^ 1) with 2.
  change 0xfff with (2 ^ 12 - 1). rewrite uwrap_land by lia. unfold uwrap at 1. change (2 ^ 12) with 4096.
  set (pn := addr / 4096). set (ix := (addr mod 4096) / 2).
  assert (Hpn : pn <> 0) by (unfold pn; dlia). assert (Hix : 0 <= ix < 2048) by (unfold ix; dlia).
  assert (H : exists m1, (if negb (pn =? c_idx (exec_cache m))
      then mkTrace (pages (get_exec1 pn m)) (execs (get_exec1 pn m)) (stores (get_exec1 pn m))
             (fetch_cache (get_exec1 pn m)) (load_cache (get_exec1 pn m)) (mkCache pn (Some pn))
      else m) = m1
    /\ trace_wf m1 /\ pages m1 = pages m /\ stores m1 = stores m
    /\ exec_cache m1 = mkCache pn (Some pn) /\ (exists e, execs m1 !! pn = Some e)
    /\ forall a, executions m1 a = executions m a).
  { eexists. split; [reflexivity |].
    destruct (tw_exec _ Hm) as [Hlen Hc].
    destruct (Z.eqb_spec pn (c_idx (exec_cache m))) as [E|E]; cbn [negb].
    - destruct Hc as [[? _] | [Hc He]]; [congruence |]. rewrite <- E in He, Hc.
      split; [exact Hm | split; [reflexivity | split; [reflexivity | split; [| split; [exact He | reflexivity]]]]].
      destruct (exec_cache m); cbn in *; congruence.
    - unfold get_exec1. destruct (execs m !! pn) as [e|] eqn:Ee.
      + split; [| cbn; eauto 8]. destruct Hm as [Hp Hf Hl Hs _]. split; try assumption.
        split; [exact Hlen |]. right. cbn. eauto.
      + cbn. split; [|split; [reflexivity | split; [reflexivity | split; [reflexivity |]]]].
        * destruct Hm as [Hp Hf Hl Hs _]. split; try assumption.
          split; cbn [execs exec_cache c_idx c_ptr].
          -- intros k x Hk. destruct (decide (k = pn)) as [-> |].
             ++ rewrite lookup_insert_eq in Hk. injection Hk as <-. apply length_replicate.
             ++ rewrite lookup_insert_ne in Hk by congruence. eauto.
          -- right. split; [reflexivity | eexists; apply lookup_insert_eq].
        * split; [eexists; apply lookup_insert_eq | intros a; apply executions_fresh, Ee]. }
  destruct H as (m1 & E1 & Hm1 & Hp1 & Hs1 & Hc1 & [e He] & Hx1). cbv zeta. cbv zeta in E1. rewrite E1.
  exists m1. rewrite Hc1. cbn [c_ptr mbind option_bind].
  assert (Hlen : length (count e) = 2048%nat) by (eapply (tw_exec _ Hm1); exact He).
  destruct (aget_Some (count e) ix ltac:(lia)) as [c Hcn].
  do 2 eexists. exists e, c. split; [reflexivity | split; [reflexivity |]].
  split; [exact He | split; [exact Hcn |]]. unfold incr_counter. cbn [mbind option_bind].
  rewrite He. cbn [mbind option_bind]. rewrite Hcn. cbn [mbind option_bind].
  rewrite aset_Some by lia. cbn [mbind option_bind].
  split; [reflexivity |]. split; [|split; [exact Hp1 | split; [exact Hs1 | do 3 (split; [assumption |])]]].
  - destruct Hm1 as [Hp Hf Hl Hs [Hx Hy]]. split; try assumption.
    split; cbn [execs with_execs exec_cache].
    + intros k x Hk. destruct (decide (k = pn)) as [-> |].
      * rewrite lookup_insert_eq in Hk. injection Hk as <-. cbn. rewrite length_insert. exact Hlen.
      * rewrite lookup_insert_ne in Hk by congruence. eauto.
    + rewrite Hc1. right. cbn. split; [reflexivity | eexists; apply lookup_insert_eq].
  - assert (Ec : c = executions m addr) by (rewrite <- Hx1; unfold executions; fold pn ix; rewrite He, Hcn; reflexivity).
    split; [exact Ec |]. split; [exact Hx1 |]. intros a. rewrite <- Hx1. apply (executions_insert m1 pn e c _ addr a); assumption || reflexivity.
Qed.

Definition none_recorded (m : MemTrace) (lo n : Z) : Prop :=
  forall a, lo <= a < lo + n -> recorded m a = None.
Definition all_recorded (m : MemTrace) (lo n : Z) : Prop :=
  forall a, lo <= a < lo + n -> exists v, recorded m a = Some v.

Lemma fetch_page_spec (m : MemTrace) (pg sz offset inst : Z) (f : Z -> Z) (p : PageRec) :
  trace_wf m -> pages m !! pg = Some p -> 0 <= offset -> offset + sz <= 4096 -> 0 < sz ->
  offset mod 8 + sz <= 8 ->
  none_recorded m (addr_of pg offset) sz \/ all_recorded m (addr_of pg offset) sz ->
  (forall i, 0 <= i < sz -> f (addr_of pg offset + i) = Page.byte inst i) ->
  exists m' first, fetch_page sz m (Some pg) offset inst = Some (m', first)
    /\ trace_wf m' /\ same_rest m m' /\ (exists p', pages m' !! pg = Some p')
    /\ (forall a, recorded m' a = record (addr_of pg offset) sz f (recorded m) a)
    /\ (first = true <-> none_recorded m (addr_of pg offset) sz).
Proof.
  intros Hm Hp Ho He Hs Hf Hall Hfi. unfold fetch_page.
  destruct (page_check_spec m pg sz offset p Hm Hp ltac:(lia) Hs Hf) as (c & -> & Hc & Hb).
  cbn [mbind option_bind]. destruct (ones_of_bits sz c Hs Hc) as [H0 H1].
  assert (Hvis : forall i, 0 <= i < sz ->
            (Z.testbit c i = true <-> exists v, recorded m (addr_of pg offset + i) = Some v)).
  { intros i Hi. rewrite Hb by assumption.
    replace (addr_of pg offset + i) with (addr_of pg (offset + i)) by (unfold addr_of; lia).
    rewrite (recorded_addr m pg p) by (assumption || lia).
    apply vis_recorded; [exact (tw_pages _ Hm _ _ Hp) | lia]. }
  destruct Hall as [Hn | Ha].
  - assert (Hbits : forall i, 0 <= i < sz -> Z.testbit c i = false).
    { intros i Hi. apply not_true_is_false. rewrite Hvis by assumption.
      rewrite Hn by lia. intros [v Hv]; discriminate. }
    rewrite (proj2 H0 Hbits).
    destruct (page_put_spec m pg sz offset inst p Hm Hp Ho He Hs Hf) as (m' & -> & Hm' & Hs' & Hp' & Hr).
    { intros i Hi. rewrite <- Hb by assumption. apply Hbits; assumption. }
    cbn [mbind option_bind]. exists m', true.
    split; [reflexivity | split; [exact Hm' | split; [exact Hs' | split; [exact Hp' | split]]]].
    + intros a. rewrite Hr. unfold record. destruct (recorded m a); [reflexivity |].
      destruct (Z.leb_spec (addr_of pg offset) a), (Z.ltb_spec a (addr_of pg offset + sz)); try reflexivity.
      cbn [andb]. f_equal. rewrite <- Hfi by lia. f_equal. lia.
    + split; [intros _; exact Hn | reflexivity].
  - assert (Hbits : forall i, 0 <= i < sz -> Z.testbit c i = true)
      by (intros i Hi; apply Hvis; [assumption | apply Ha; lia]).
    destruct (c =? 0) eqn:E0.
    { pose proof (proj1 H0 eq_refl 0 ltac:(lia)). pose proof (Hbits 0 ltac:(lia)). congruence. }
    rewrite (proj2 H1 Hbits). exists m, false.
    split; [reflexivity | split; [exact Hm | split; [apply same_rest_refl | split; [eauto | split]]]].
    + intros a. symmetry. apply record_full. exact Ha.
    + split; [discriminate |]. intros Hn. destruct (Ha (addr_of pg offset) ltac:(lia)) as [v Hv].
      rewrite Hn in Hv by lia. discriminate.
Qed.

(** [record] on two adjacent ranges. *)
Lemma record_app (lo n k : Z) (f : Z -> Z) (r r' : Z -> option Z) (a : Z) :
  0 <= n -> 0 <= k -> (forall a, r' a = record lo n f r a) ->
  record (lo + n) k f r' a = record lo (n + k) f r a.
Proof.
  intros Hn Hk H. unfold record at 1. rewrite H. unfold record.
  destruct (r a); [reflexivity |]. bcases; cbn [andb]; try reflexivity; lia.
Qed.

Lemma byte_uwrap (w x i : Z) : 0 <= i -> 8 * i + 8 <= w -> Page.byte (uwrap w x) i = Page.byte x i.
Proof.
  intros. unfold Page.byte. zbits k Hk. rewrite !testbit_uwrap, !Z.shiftr_spec by lia.
  destruct (Z.ltb_spec k 8); cbn [andb]; [|reflexivity].
  rewrite testbit_uwrap by lia. rewrite (proj2 (Z.ltb_lt _ w)) by lia. reflexivity.
Qed.

Lemma byte_shiftr (x i j : Z) : 0 <= i -> 0 <= j -> Page.byte (x >>> (8 * j)) i = Page.byte x (i + j).
Proof. intros. unfold Page.byte. rewrite Z.shiftr_shiftr by lia. do 2 f_equal. lia. Qed.

(** The second half of a word at a halfword boundary: same page or the next. *)
Lemma second_half (m : MemTrace) (addr inst : Z) :
  trace_wf m -> 4096 <= addr -> addr mod 4 = 2 ->
  (exists p, pages m !! (addr / 4096) = Some p) ->
  none_recorded m (addr + 2) 2 \/ all_recorded m (addr + 2) 2 ->
  exists m' first,
    (let '(m, page, offset) :=
       if addr mod 4096 + 2 =? 4096 then
         let '(m, page) := get_page FetchC (addr / 4096 + 1) m in (m, page, addr mod 4096 - 4096)
       else (m, Some (addr / 4096), addr mod 4096) in
     fetch_page 2 m page (offset + 2) (uwrap 16 (inst >>> 16))) = Some (m', first)
    /\ trace_wf m' /\ same_rest m m'
    /\ (forall a, recorded m' a = record (addr + 2) 2 (fun a => Page.byte inst (a - addr)) (recorded m) a)
    /\ (first = true <-> none_recorded m (addr + 2) 2).
Proof.
  intros Hm Ha Hmod Hp Hall.
  assert (Hpage : exists m1 pg off,
    (if addr mod 4096 + 2 =? 4096 then
       let '(m, page) := get_page FetchC (addr / 4096 + 1) m in (m, page, addr mod 4096 - 4096)
     else (m, Some (addr / 4096), addr mod 4096)) = (m1, Some pg, off)
    /\ trace_wf m1 /\ same_rest m m1 /\ (forall a, recorded m1 a = recorded m a)
    /\ (exists p, pages m1 !! pg = Some p) /\ addr_of pg (off + 2) = addr + 2
    /\ 0 <= off + 2 /\ off + 4 <= 4096 /\ (off + 2) mod 8 + 2 <= 8).
  { destruct (Z.eqb_spec (addr mod 4096 + 2) 4096).
    - destruct (get_page_spec m FetchC (addr / 4096 + 1) Hm ltac:(dlia)) as (m1 & -> & H1 & H2 & H3 & H4).
      do 3 eexists. split; [reflexivity |]. do 4 (split; [assumption |]). unfold addr_of. dlia.
    - do 3 eexists. split; [reflexivity |]. split; [exact Hm |]. split; [apply same_rest_refl |].
      split; [reflexivity |]. split; [exact Hp |]. unfold addr_of. dlia. }
  destruct Hpage as (m1 & pg & off & -> & Hm1 & Hs1 & Hr1 & [p1 Hp1] & Ea & Ho & He & Hf).
  destruct (fetch_page_spec m1 pg 2 (off + 2) (uwrap 16 (inst >>> 16)) (fun a => Page.byte inst (a - addr)) p1
    Hm1 Hp1 Ho ltac:(lia) ltac:(lia) Hf) as (m' & first & -> & Hm' & Hs' & _ & Hr' & Hfirst).
  - rewrite Ea. unfold none_recorded, all_recorded in *. setoid_rewrite Hr1. exact Hall.
  - intros i Hi. rewrite Ea. rewrite byte_uwrap by lia. change 16 with (8 * 2).
    rewrite byte_shiftr by lia. f_equal. lia.
  - exists m', first. split; [reflexivity | split; [exact Hm' | split; [eapply same_rest_trans; eassumption | split]]].
    + intros a. rewrite Hr', Ea. apply record_ext, Hr1.
    + rewrite Hfirst, Ea. unfold none_recorded. setoid_rewrite Hr1. reflexivity.
Qed.

(** A fetch of a whole instruction that is either new or known records its
    bytes as a load would, and reports whether it is new. *)
Lemma fetch_spec (m : MemTrace) (addr inst len : Z) :
  trace_wf m -> len = 2 \/ len = 4 -> 4096 <= addr -> addr mod 2 = 0 ->
  none_recorded m addr len \/ all_recorded m addr len ->
  exists m' first, fetch addr inst len m = Some (m', first) /\ trace_wf m'
    /\ (forall a, recorded m' a = record addr len (fun a => Page.byte inst (a - addr)) (recorded m) a)
    /\ (first = true <-> none_recorded m addr len)
    /\ stores m' = stores m
    /\ forall a, executions m' a = if a / 2 =? addr / 2 then uwrap 32 (executions m addr + 1) else executions m a.
Proof.
  intros Hm Hlen Ha Hev Hall. unfold fetch.
  destruct (get_exec_counter_spec m addr Hm Ha)
    as (m1 & r & m2 & e & c & -> & _ & _ & _ & -> & Hm2 & Hp2 & Hst2 & _ & _ & _ & -> & _ & Hx2).
  cbn [mbind option_bind]. rewrite shiftr_div by lia. change (2 ^ 12) with 4096.
  replace (addr .& 0xfff) with (addr mod 4096) by (symmetry; apply (uwrap_land 12); lia).
  replace (addr .& 3) with (addr mod 4) by (symmetry; apply (uwrap_land 2); lia).
  assert (Hrec2 : forall a, recorded m2 a = recorded m a) by (intros a; unfold recorded; rewrite Hp2; reflexivity).
  destruct (get_page_spec m2 FetchC (addr / 4096) Hm2 ltac:(dlia)) as (m3 & E3 & Hm3 & Hs3 & [p3 Hp3] & Hr3).
  rewrite E3. clear E3.
  assert (Hrec : forall a, recorded m3 a = recorded m a) by (intros; rewrite Hr3; apply Hrec2).
  assert (Hst : stores m3 = stores m) by (destruct Hs3 as [-> _]; exact Hst2).
  assert (Hx : forall m', execs m' = execs m3 -> forall a, executions m' a
             = if a / 2 =? addr / 2 then uwrap 32 (executions m addr + 1) else executions m a).
  { intros m' E a. rewrite <- Hx2. unfold executions. rewrite E. destruct Hs3 as (_ & -> & _). reflexivity. }
  assert (Eaddr : addr_of (addr / 4096) (addr mod 4096) = addr) by (unfold addr_of; dlia).
  assert (Hall3 : none_recorded m3 addr len \/ all_recorded m3 addr len)
    by (unfold none_recorded, all_recorded in *; setoid_rewrite Hrec; exact Hall).
  assert (Hnone3 : forall lo n, none_recorded m3 lo n <-> none_recorded m lo n)
    by (intros; unfold none_recorded; setoid_rewrite Hrec; reflexivity).
  (* one page-local access of [sz] bytes at the start of the instruction *)
  assert (Hone : forall sz w, access_size sz -> sz <= len -> 8 * sz <= w ->
    addr mod 4096 + sz <= 4096 -> (addr mod 4096) mod 8 + sz <= 8 ->
    exists m' first, fetch_page sz m3 (Some (addr / 4096)) (addr mod 4096) (uwrap w inst) = Some (m', first)
    /\ trace_wf m' /\ same_rest m3 m' /\ (exists p', pages m' !! (addr / 4096) = Some p')
    /\ (forall a, recorded m' a = record addr sz (fun a => Page.byte inst (a - addr)) (recorded m) a)
    /\ (first = true <-> none_recorded m addr sz)).
  { intros sz w Hsz Hle Hw Hp Hf. assert (0 < sz) by (unfold access_size in Hsz; lia).
    destruct (fetch_page_spec m3 (addr / 4096) sz (addr mod 4096) (uwrap w inst)
      (fun a => Page.byte inst (a - addr)) p3 Hm3 Hp3 ltac:(dlia) Hp ltac:(lia) Hf)
      as (m' & first & -> & Hm' & Hs' & Hp' & Hr' & Hfirst).
    - rewrite Eaddr. destruct Hall3 as [H3|H3]; [left | right]; intros a Hr; apply H3; lia.
    - intros k Hk. rewrite Eaddr, byte_uwrap by lia. f_equal. lia.
    - rewrite Eaddr in *. exists m', first. rewrite Hnone3 in Hfirst.
      split; [reflexivity | split; [exact Hm' | split; [exact Hs' | split; [exact Hp' | split; [|exact Hfirst]]]]].
      intros a. rewrite Hr'. apply record_ext, Hrec. }
  destruct Hlen as [-> | ->]; cbn [Z.eqb Pos.eqb].
  { destruct (Hone 2 16 ltac:(unfold access_size; lia) ltac:(lia) ltac:(lia) ltac:(dlia) ltac:(dlia))
      as (m' & first & -> & Hm' & Hs' & _ & Hr' & Hf').
    exists m', first. do 4 (split; [assumption || reflexivity |]). destruct Hs' as (-> & Hex & _). auto. }
  destruct (Z.eqb_spec (addr mod 4) 0).
  { destruct (Hone 4 32 ltac:(unfold access_size; lia) ltac:(lia) ltac:(lia) ltac:(dlia) ltac:(dlia))
      as (m' & first & -> & Hm' & Hs' & _ & Hr' & Hf').
    exists m', first. do 4 (split; [assumption || reflexivity |]). destruct Hs' as (-> & Hex & _). auto. }
  destruct (Hone 2 16 ltac:(unfold access_size; lia) ltac:(lia) ltac:(lia) ltac:(dlia) ltac:(dlia))
    as (m4 & first1 & -> & Hm4 & Hs4 & Hp4 & Hr4 & Hf4).
  cbn [mbind option_bind].
  destruct (second_half m4 addr inst Hm4 Ha ltac:(dlia) Hp4) as (m5 & first2 & E5 & Hm5 & Hs5 & Hr5 & Hf5).
  { destruct Hall as [H | H]; [left | right]; intros a Hr; rewrite ?Hr4; unfold record.
    - rewrite (H a) by lia. bcases; cbn [andb]; reflexivity || lia.
    - destruct (H a ltac:(lia)) as [v ->]. eauto. }
  destruct (if _ =? 4096 then _ else _) as [[m4' page'] off']. rewrite E5. cbn [mbind option_bind].
  exists m5, (first1 && first2). split; [reflexivity | split; [exact Hm5 | split; [| split; [| split]]]].
  - intros a. rewrite Hr5. apply (record_app addr 2 2); [lia | lia | exact Hr4].
  - rewrite andb_true_iff, Hf4, Hf5. unfold none_recorded. split.
    + intros [H1 H2] a Hr. destruct (Z.ltb_spec a (addr + 2)); [apply H1; lia |].
      specialize (H2 a ltac:(lia)). rewrite Hr4 in H2. unfold record in H2.
      destruct (recorded m a); [discriminate | reflexivity].
    + intros H. split; intros a Hr; [apply H; lia |]. rewrite Hr4. unfold record.
      rewrite H by lia. bcases; cbn [andb]; reflexivity || lia.
  - destruct Hs5 as [-> _], Hs4 as [-> _]. exact Hst.
  - apply Hx. destruct Hs5 as (_ & -> & _), Hs4 as (_ & -> & _). reflexivity.
Qed.

(** ** The empty trace *)

Lemma cache_new_ok (m : MemTrace) : cache_ok m cache_new.
Proof. left. split; reflexivity. Qed.

Lemma trace_new_wf : trace_wf trace_new.
Proof.
  split; try apply cache_new_ok.
  - intros pn p H. cbn in H. rewrite lookup_empty in H. discriminate.
  - apply length_replicate.
  - split; [|left; split; reflexivity]. intros pn e H. cbn in H. rewrite lookup_empty in H. discriminate.
Qed.

Lemma recorded_new (a : Z) : recorded trace_new a = None.
Proof. unfold recorded. cbn [pages trace_new]. rewrite lookup_empty. reflexivity. Qed.

(** ** The abstract behaviour of [load] and [store] *)

(** [store] marks the bytes it touches and keeps the store as the latest one of
    its hash class. *)
Lemma store_marks (m : MemTrace) (sz addr : Z) :
  trace_wf m -> access_size sz -> 4096 <= addr ->
  exists m', store sz addr m = Some m' /\ trace_wf m'
    /\ (forall a, recorded m' a
         = match recorded m a with
           | Some v => Some v
           | None => if (addr <=? a) && (a <? addr + sz) then Some 0 else None
           end)
    /\ aget (stores m') (store_hash 8 0 addr) = Some (mkStore addr sz)
    /\ (forall i, i <> store_hash 8 0 addr -> aget (stores m') i = aget (stores m) i).
Proof.
  intros Hm Hsz Ha. destruct (store_spec m sz addr Hm Hsz Ha) as (m' & E & Hm' & Hr & Hs & _).
  assert (Hh : in_u 8 (store_hash 8 0 addr)) by (apply store_hash_range; unfold in_u; lia).
  assert (Hl : 0 <= store_hash 8 0 addr < Z.of_nat (length (stores m)))
    by (rewrite (tw_stores _ Hm); exact Hh).
  exists m'. split; [exact E | split; [exact Hm' | split; [exact Hr |]]]. rewrite Hs. split.
  - rewrite aget_set by lia. rewrite Z.eqb_refl. reflexivity.
  - intros i Hi. destruct (Z.ltb_spec i 0).
    + unfold aget. rewrite (proj2 (Z.leb_gt 0 i)) by lia. reflexivity.
    + rewrite aget_set by lia. rewrite (proj2 (Z.eqb_neq _ _) Hi). reflexivity.
Qed.

(** C21: [load] and [store] refine the abstract first-value map. Both always
    succeed (page 0 apart) and the recorded bytes afterwards are the old ones
    extended, at the addresses of the access not yet recorded and nowhere else:
    with the bytes of the value for a load, and with a placeholder zero for a
    store, so that a later load does not record the stored value as initial. This
    holds whether or not the access is aligned, partly recorded, or crosses a
    page. A load leaves the table of stores alone; a store becomes the latest one
    of its hash class and leaves the other classes. *)
Theorem access_refines (m : MemTrace) (sz addr data : Z) :
  trace_wf m -> access_size sz -> 4096 <= addr ->
  let extended m' byte := forall a, recorded m' a
        = match recorded m a with
          | Some v => Some v
          | None => if (addr <=? a) && (a <? addr + sz) then Some (byte (a - addr)) else None
          end in
  (exists m', load sz addr data m = Some m' /\ trace_wf m'
     /\ stores m' = stores m /\ extended m' (Page.byte data))
  /\ (exists m', store sz addr m = Some m' /\ trace_wf m' /\ extended m' (fun _ => 0)
      /\ aget (stores m') (store_hash 8 0 addr) = Some (mkStore addr sz)
      /\ (forall i, i <> store_hash 8 0 addr -> aget (stores m') i = aget (stores m) i)).
Proof.
  intros Hm Hsz Ha. cbv zeta. split; [| exact (store_marks m sz addr Hm Hsz Ha)].
  destruct (load_spec m sz addr data Hm Hsz Ha) as (m' & E & Hm' & (Hs & _ & _) & Hr).
  exists m'. split; [exact E | split; [exact Hm' | split; [exact Hs | exact Hr]]].
Qed.

Lemma access_refines_witness :
  (exists m', load 8 0x1ffe 0x11223344 trace_new = Some m' /\ trace_wf m'
     /\ stores m' = stores trace_new
     /\ forall a, recorded m' a
         = match recorded trace_new a with
           | Some v => Some v
           | None => if (0x1ffe <=? a) && (a <? 0x1ffe + 8) then Some (Page.byte 0x11223344 (a - 0x1ffe)) else None
           end)
  /\ exists m', store 8 0x1ffe trace_new = Some m'.
Proof.
  destruct (access_refines trace_new 8 0x1ffe 0x11223344) as [Hl (m' & Hs & _)];
    [apply trace_new_wf | unfold access_size; lia | lia |].
  split; [exact Hl | exists m'; exact Hs].
Defined.
