(* ===== verification/Replay.v ===== *)
(** * What a checkpoint is for: replaying from the recorded bytes

    The abstract contract of the memory trace.  A program run makes loads,
    stores and instruction fetches on a byte memory while [MemTrace] records.
    Starting a second run from any memory that holds the recorded bytes, every
    load and fetch returns what it returned in the first run. *)

From Stdlib Require Import ZArith Lia Bool.
From stdpp Require Import base gmap list option.
From S2P Require Import Prelude Ckpt CkptProofs.

#[local] Open Scope Z_scope.
#[local] Open Scope word_scope.

(** ** Programs as access sequences on a byte memory *)

Definition memory : Type := Z -> Z.

(** Little-endian reads and writes. *)
Fixpoint mem_read (n : nat) (M : memory) (a : Z) : Z :=
  match n with
  | O => 0
  | S n' => M a + 256 * mem_read n' M (a + 1)
  end.

Definition mem_write (sz : Z) (M : memory) (a data : Z) : memory :=
  fun b => if (a <=? b) && (b <? a + sz) then Page.byte data (b - a) else M b.

Inductive access : Type :=
| ALoad (sz addr : Z)
| AStore (sz addr data : Z)
| AFetch (addr len : Z).

(** One access of the recorded run: the memory, the trace, what was read. *)
Definition record1 (acc : access) (M : memory) (T : MemTrace) : option (memory * MemTrace * list Z) :=
  match acc with
  | ALoad sz a =>
      let v := mem_read (Z.to_nat sz) M a in
      T' ← load sz a v T; Some (M, T', [v])
  | AStore sz a d => T' ← store sz a T; Some (mem_write sz M a d, T', [])
  | AFetch a len =>
      let v := mem_read (Z.to_nat len) M a in
      '(T', _) ← fetch a v len T; Some (M, T', [v])
  end.

Fixpoint record_run (tr : list access) (M : memory) (T : MemTrace) : option (memory * MemTrace * list Z) :=
  match tr with
  | [] => Some (M, T, [])
  | acc :: tr' =>
      '(M1, T1, o1) ← record1 acc M T;
      '(M2, T2, o2) ← record_run tr' M1 T1;
      Some (M2, T2, o1 ++ o2)
  end.

(** The replayed run only has a memory. *)
Definition replay1 (acc : access) (R : memory) : memory * list Z :=
  match acc with
  | ALoad sz a => (R, [mem_read (Z.to_nat sz) R a])
  | AStore sz a d => (mem_write sz R a d, [])
  | AFetch a len => (R, [mem_read (Z.to_nat len) R a])
  end.

Fixpoint replay_run (tr : list access) (R : memory) : memory * list Z :=
  match tr with
  | [] => (R, [])
  | acc :: tr' =>
      let '(R1, o1) := replay1 acc R in
      let '(R2, o2) := replay_run tr' R1 in (R2, o1 ++ o2)
  end.

(** ** Memory lemmas *)

Definition bytes (M : memory) : Prop := forall a, in_u 8 (M a).

Lemma byte_range (d i : Z) : in_u 8 (Page.byte d i).
Proof. apply uwrap_range. lia. Qed.

Lemma bytes_write (sz : Z) (M : memory) (a d : Z) : bytes M -> bytes (mem_write sz M a d).
Proof. intros H b. unfold mem_write. destruct (_ && _); [apply byte_range | apply H]. Qed.

Lemma byte_mem_read (n : nat) (M : memory) : forall a i,
  bytes M -> 0 <= i < Z.of_nat n -> Page.byte (mem_read n M a) i = M (a + i).
Proof.
  induction n as [|n IH]; intros a i HM Hi; [lia |]. cbn [mem_read].
  pose proof (HM a) as Ha. change (2 ^ 8) with 256 in Ha. unfold in_u in Ha. change (2 ^ 8) with 256 in Ha.
  destruct (Z.eqb_spec i 0) as [-> |].
  - unfold Page.byte. cbn [Z.mul]. rewrite Z.shiftr_0_r, Z.add_0_r. unfold uwrap. change (2 ^ 8) with 256.
    rewrite (Z.mul_comm 256), Z_mod_plus_full. apply Z.mod_small. lia.
  - replace (a + i) with (a + 1 + (i - 1)) by lia. rewrite <- IH by (assumption || lia).
    unfold Page.byte. f_equal. replace (8 * i) with (8 + 8 * (i - 1)) by lia.
    rewrite <- Z.shiftr_shiftr by lia. f_equal. rewrite shiftr_div by lia. change (2 ^ 8) with 256.
    rewrite (Z.mul_comm 256), Z_div_plus_full, Z.div_small; lia.
Qed.

Lemma mem_read_ext (n : nat) (M M' : memory) : forall a,
  (forall b, a <= b < a + Z.of_nat n -> M b = M' b) -> mem_read n M a = mem_read n M' a.
Proof.
  induction n as [|n IH]; intros a H; [reflexivity |]. cbn [mem_read].
  rewrite (H a), (IH (a + 1)) by lia || (intros; apply H; lia). reflexivity.
Qed.

(** ** The contract *)

Section Replay.
  (** The instructions of the program: distinct ones do not overlap. *)
  Context (unit : Z -> Z -> Prop).
  Hypothesis unit_len : forall a l, unit a l -> (l = 2 \/ l = 4) /\ 4096 <= a /\ a mod 2 = 0.
  Hypothesis unit_disj : forall a l a' l', unit a l -> unit a' l' ->
    (a = a' /\ l = l') \/ a + l <= a' \/ a' + l' <= a.

(** Fetches fetch instructions; data accesses stay outside them. *)
Definition valid (acc : access) : Prop :=
  match acc with
  | ALoad sz a | AStore sz a _ =>
      access_size sz /\ 4096 <= a /\ forall u l, unit u l -> u + l <= a \/ a + sz <= u
  | AFetch a l => unit a l
  end.

Definition units_whole (T : MemTrace) : Prop :=
  forall a l, unit a l -> none_recorded T a l \/ all_recorded T a l.

(** The range an access touches and what it records there. *)
Definition touches (acc : access) : Z * Z :=
  match acc with ALoad sz a => (a, sz) | AStore sz a _ => (a, sz) | AFetch a l => (a, l) end.

Definition first_value (acc : access) (M : memory) (b : Z) : Z :=
  match acc with AStore _ _ _ => 0 | _ => M b end.

(** Recording the same bytes, however they are computed. *)
Lemma record_same (lo n : Z) (k f : Z -> Z) (r : Z -> option Z) :
  (forall i, 0 <= i < n -> k (lo + i) = f (lo + i)) -> forall b, record lo n k r b = record lo n f r b.
Proof using Type.
  intros H b. unfold record. destruct (r b); [reflexivity |].
  destruct (Z.leb_spec lo b), (Z.ltb_spec b (lo + n)); try reflexivity. cbn [andb]. f_equal.
  replace b with (lo + (b - lo)) by lia. apply H. lia.
Qed.

(** An access to the bytes [[lo, lo + n)] leaves the instructions it does not
    touch as they were. *)
Lemma unit_untouched (T T' : MemTrace) (lo n u l : Z) (k : Z -> Z) :
  (forall b, recorded T' b = record lo n k (recorded T) b) -> u + l <= lo \/ lo + n <= u ->
  none_recorded T u l \/ all_recorded T u l -> none_recorded T' u l \/ all_recorded T' u l.
Proof using Type.
  intros Hr Hd. assert (Hsame : forall b, u <= b < u + l -> recorded T' b = recorded T b).
  { intros b Hb. rewrite Hr. unfold record. destruct (recorded T b); [reflexivity |].
    bcases; cbn [andb]; reflexivity || lia. }
  unfold none_recorded, all_recorded. intros [H|H]; [left | right]; intros b Hb;
    rewrite Hsame by assumption; apply H, Hb.
Qed.

(** Data accesses and fetches keep every instruction whole. *)
Lemma units_data (T T' : MemTrace) (lo n : Z) (k : Z -> Z) :
  (forall b, recorded T' b = record lo n k (recorded T) b) ->
  (forall u l, unit u l -> u + l <= lo \/ lo + n <= u) -> units_whole T -> units_whole T'.
Proof using Type. intros Hr Hd HU u l Hu. exact (unit_untouched T T' lo n u l k Hr (Hd u l Hu) (HU u l Hu)). Qed.

Lemma units_fetch (T T' : MemTrace) (a l : Z) (k : Z -> Z) :
  (forall b, recorded T' b = record a l k (recorded T) b) -> unit a l -> units_whole T -> units_whole T'.
Proof using unit_disj.
  intros Hr Hv HU u n Hu. destruct (unit_disj a l u n Hv Hu) as [[<- <-] | Hd].
  - right. intros b Hb. rewrite Hr. unfold record. destruct (recorded T b); [eauto |].
    rewrite (proj2 (Z.leb_le a b)), (proj2 (Z.ltb_lt b (a + l))) by lia. eauto.
  - apply (unit_untouched T T' a l u n k Hr); [lia | apply HU, Hu].
Qed.

Lemma record1_spec (acc : access) (M : memory) (T : MemTrace) :
  valid acc -> bytes M -> trace_wf T -> units_whole T ->
  exists M' T', record1 acc M T = Some (M', T', snd (replay1 acc M)) /\ M' = fst (replay1 acc M)
    /\ bytes M' /\ trace_wf T' /\ units_whole T'
    /\ (forall b, recorded T' b = record (fst (touches acc)) (snd (touches acc)) (first_value acc M) (recorded T) b).
Proof.
  intros Hv HM HT HU.
  destruct acc as [sz a | sz a d | a l]; cbn [valid record1 replay1 touches first_value fst snd] in *.
  - destruct Hv as (Hsz & Ha & Hd).
    destruct (load_spec T sz a (mem_read (Z.to_nat sz) M a) HT Hsz Ha) as (T' & -> & HT' & _ & Hr).
    cbn [mbind option_bind].
    assert (Hr' : forall b, recorded T' b = record a sz M (recorded T) b).
    { intros b. rewrite Hr. apply record_same. intros i Hi. replace (a + i - a) with i by lia.
      apply byte_mem_read; [exact HM | lia]. }
    exists M, T'. do 4 (split; [reflexivity || assumption |]). split; [eapply units_data; eassumption | exact Hr'].
  - destruct Hv as (Hsz & Ha & Hd).
    destruct (store_spec T sz a HT Hsz Ha) as (T' & -> & HT' & Hr & _). cbn [mbind option_bind].
    do 2 eexists. do 2 (split; [reflexivity |]). split; [apply bytes_write, HM |].
    split; [exact HT' |]. split; [eapply units_data; eassumption | exact Hr].
  - destruct (unit_len a l Hv) as (Hl & Ha & Hev).
    destruct (fetch_spec T a (mem_read (Z.to_nat l) M a) l HT Hl Ha Hev (HU a l Hv))
      as (T' & first & -> & HT' & Hr & _). cbn [mbind option_bind].
    assert (Hr' : forall b, recorded T' b = record a l M (recorded T) b).
    { intros b. rewrite Hr. apply record_same. intros i Hi. replace (a + i - a) with i by lia.
      apply byte_mem_read; [exact HM | lia]. }
    exists M, T'. do 4 (split; [reflexivity || assumption |]). split; [|exact Hr'].
    eapply units_fetch; eassumption.
Qed.

Lemma record_keeps (lo n : Z) (f : Z -> Z) (r : Z -> option Z) (b v : Z) :
  r b = Some v -> record lo n f r b = Some v.
Proof. intros H. unfold record. rewrite H. reflexivity. Qed.

(** The recorded run succeeds, and what it has recorded it keeps. *)
Lemma record_run_total (tr : list access) : forall M T,
  Forall valid tr -> bytes M -> trace_wf T -> units_whole T ->
  exists M' T' obs, record_run tr M T = Some (M', T', obs)
    /\ forall b v, recorded T b = Some v -> recorded T' b = Some v.
Proof.
  induction tr as [|acc tr IH]; intros M T Hv HM HT HU; [do 3 eexists; split; [reflexivity | auto] |].
  apply Forall_cons_1 in Hv as [Hv Hvs].
  destruct (record1_spec acc M T Hv HM HT HU) as (M1 & T1 & E1 & _ & HM1 & HT1 & HU1 & Hr).
  destruct (IH M1 T1 Hvs HM1 HT1 HU1) as (M2 & T2 & o2 & E2 & Hk).
  cbn [record_run]. rewrite E1. cbn [mbind option_bind]. rewrite E2. cbn [mbind option_bind].
  do 3 eexists. split; [reflexivity |]. intros b v H. apply Hk. rewrite Hr. apply record_keeps, H.
Qed.

(** Simulation: the replay memory agrees with the program's on what has been
    recorded, and holds the future first values elsewhere. *)
Lemma replay_simulation (tr : list access) : forall M T M' T' obs R,
  Forall valid tr -> bytes M -> trace_wf T -> units_whole T ->
  record_run tr M T = Some (M', T', obs) ->
  (forall b v, recorded T b = Some v -> R b = M b) ->
  (forall b v, recorded T b = None -> recorded T' b = Some v -> R b = v) ->
  snd (replay_run tr R) = obs
  /\ (forall b v, recorded T' b = Some v -> fst (replay_run tr R) b = M' b).
Proof.
  induction tr as [|acc tr IH]; intros M T M' T' obs R Hv HM HT HU E H1 H2.
  - cbn in *. injection E as <- <- <-. split; [reflexivity | exact H1].
  - apply Forall_cons_1 in Hv as [Hv Hvs].
    destruct (record1_spec acc M T Hv HM HT HU) as (M1 & T1 & E1 & EM1 & HM1 & HT1 & HU1 & Hr).
    cbn [record_run] in E. rewrite E1 in E. cbn [mbind option_bind] in E.
    destruct (record_run_total tr M1 T1 Hvs HM1 HT1 HU1) as (M2 & T2 & o2 & E2 & Hk).
    rewrite E2 in E. cbn [mbind option_bind] in E. injection E as <- <- <-.
    (* on the bytes it reads, the access sees the same values *)
    assert (Hread : forall b, fst (touches acc) <= b < fst (touches acc) + snd (touches acc) ->
              (forall sz a d, acc <> AStore sz a d) -> R b = M b).
    { intros b Hb Hns. destruct (recorded T b) as [v|] eqn:Eb; [eapply H1, Eb |].
      apply H2; [exact Eb |]. apply Hk. rewrite Hr. unfold record. rewrite Eb.
      rewrite (proj2 (Z.leb_le _ b)), (proj2 (Z.ltb_lt b _)) by lia. cbn [andb].
      destruct acc; try reflexivity. exfalso. eapply Hns. reflexivity. }
    assert (Hobs : snd (replay1 acc R) = snd (replay1 acc M)).
    { destruct acc as [sz a | sz a d | a l]; cbn [replay1 snd touches fst] in *; try reflexivity;
        f_equal; apply mem_read_ext; intros b Hb; apply Hread; try congruence.
      - destruct Hv as ([-> | [-> | [-> | ->]]] & _); lia.
      - destruct (unit_len _ _ Hv) as ([-> | ->] & _); lia. }
    specialize (IH M1 T1 M2 T2 o2 (fst (replay1 acc R)) Hvs HM1 HT1 HU1 E2).
    assert (Hagree : forall b v, recorded T1 b = Some v -> fst (replay1 acc R) b = M1 b).
    { intros b v Hb. rewrite EM1. rewrite Hr in Hb. unfold record in Hb.
      destruct acc as [sz a | sz a d | a l]; cbn [replay1 fst snd touches] in *;
        [| unfold mem_write; destruct ((a <=? b) && (b <? a + sz)) eqn:Er; [reflexivity |] |];
        (destruct (recorded T b) eqn:Eb; [eapply H1, Eb |]); try discriminate;
        try (rewrite Er in Hb; discriminate);
        (match type of Hb with (if ?c then _ else _) = _ => destruct c eqn:Ec; [|discriminate] end);
        rewrite andb_true_iff, Z.leb_le, Z.ltb_lt in Ec; apply Hread; try congruence; lia. }
    assert (Hfuture : forall b v, recorded T1 b = None -> recorded T2 b = Some v ->
              fst (replay1 acc R) b = v).
    { intros b v Hb Hb2. rewrite Hr in Hb. unfold record in Hb.
      destruct (recorded T b) eqn:Eb; [discriminate |].
      destruct acc as [sz a | sz a d | a l]; cbn [replay1 fst snd touches] in *;
        try (apply H2; assumption). unfold mem_write.
      destruct ((a <=? b) && (b <? a + sz)); [discriminate | apply H2; assumption]. }
    destruct (IH Hagree Hfuture) as [Ho Hm].
    cbn [replay_run]. destruct (replay1 acc R) as [R1 o1] eqn:Er. cbn [fst snd] in *.
    destruct (replay_run tr R1) as [R2 o2'] eqn:Er2. cbn [fst snd] in *. subst. split; [reflexivity | exact Hm].
Qed.

End Replay.

(** C15: the contract of a checkpoint.  Recording a run of loads, stores and
    fetches from an empty trace never fails, and a replay from any memory that
    holds the recorded bytes reads, at every load and fetch, what the recorded
    run read, and ends with the same values at every recorded address.  (The
    program's instructions do not overlap each other and are not accessed as
    data: the case where that fails is [fetch_partial_corrupts].) *)
Theorem checkpoint_replay (unit : Z -> Z -> Prop) (tr : list access) (M : memory) :
  (forall a l, unit a l -> (l = 2 \/ l = 4) /\ 4096 <= a /\ a mod 2 = 0) ->
  (forall a l a' l', unit a l -> unit a' l' -> (a = a' /\ l = l') \/ a + l <= a' \/ a' + l' <= a) ->
  Forall (valid unit) tr -> bytes M ->
  exists M' T obs, record_run tr M trace_new = Some (M', T, obs)
    /\ forall R : memory, (forall b v, recorded T b = Some v -> R b = v) ->
         snd (replay_run tr R) = obs
         /\ (forall b v, recorded T b = Some v -> fst (replay_run tr R) b = M' b).
Proof.
  intros Hlen Hdisj Hv HM.
  assert (HU : units_whole unit trace_new) by (intros a l _; left; intros b _; apply recorded_new).
  destruct (record_run_total unit Hlen Hdisj tr M trace_new Hv HM trace_new_wf HU) as (M' & T & obs & E & _).
  exists M', T, obs. split; [exact E |]. intros R HR.
  apply (replay_simulation unit Hlen Hdisj tr M trace_new M' T obs R Hv HM trace_new_wf HU E).
  - intros b v H. rewrite recorded_new in H. discriminate.
  - intros b v _. apply HR.
Qed.

Lemma checkpoint_replay_witness :
  let unit := fun a l => (a = 0x1000 /\ l = 4) \/ (a = 0x1004 /\ l = 2) in
  let tr := [AFetch 0x1000 4; ALoad 8 0x2ffc; AStore 4 0x3000 7; ALoad 1 0x3001; AFetch 0x1004 2] in
  let M := fun a => a mod 256 in
  exists M' T obs, record_run tr M trace_new = Some (M', T, obs)
    /\ forall R : memory, (forall b v, recorded T b = Some v -> R b = v) ->
         snd (replay_run tr R) = obs
         /\ (forall b v, recorded T b = Some v -> fst (replay_run tr R) b = M' b).
Proof.
  cbv zeta. apply (checkpoint_replay (fun a l => (a = 0x1000 /\ l = 4) \/ (a = 0x1004 /\ l = 2))).
  - intros a l [[-> ->] | [-> ->]]; (split; [lia | split; [lia | reflexivity]]).
  - intros a l a' l' H H'. lia.
  - repeat apply Forall_cons_2; try apply Forall_nil_2; cbn [valid]; unfold access_size; try lia;
      split; try lia; split; try lia; intros u l H; lia.
  - intros a. apply (uwrap_range 8). lia.
Defined.

(** ** Where the contract ends *)

(** After a one-byte load at an odd code address, fetching the instruction that
    contains it writes that byte over the instruction's first byte position:
    the partial case of [fetch<T>] tests the visited bits the wrong way round
    and does not advance the offset. *)
Lemma fetch_partial_corrupts :
  exists m1 m2, load 1 0x1001 0x85 trace_new = Some m1
    /\ fetch 0x1000 0x8505 2 m1 = Some (m2, false)
    /\ recorded m2 0x1000 = Some 0x85.
Proof. do 2 eexists. split; [vm_compute; reflexivity |]. split; [vm_compute; reflexivity |]. vm_compute. reflexivity. Qed.

(** The first access to page 0 dereferences the null pointer of a fresh cache. *)
Lemma page_zero_null : load 1 0x10 0 trace_new = None.
Proof. vm_compute. reflexivity. Qed.
