(* ===== verification/CkptManager.v ===== *)
(** * The checkpoint manager: [CheckpointManager] of [util/fmt.h] and [util/fmt.cc]

    The state machine that opens a trace at the first fetched instruction, feeds
    it, and writes a checkpoint at the first suitable instruction after the
    period.  Everything printed is an event appended to [log]. *)

From Stdlib Require Import ZArith Lia Bool.
From stdpp Require Import base gmap list option.
From S2P Require Import Prelude Ckpt CkptProofs Replay.

#[local] Open Scope Z_scope.
#[local] Open Scope word_scope.

Inductive reason : Type := Ecall | First | FirstRvc | Repeat (exec_count rd : Z).

(** What the functions print, a constructor per format string. *)
Inductive event : Type :=
| EvBegin (addr : Z) (ireg freg : list Z)
| EvBreak (addr : Z) (why : reason)
| EvFile (begin_instret instret : Z)
| EvPage (pn : Z) (page : PageRec)
| EvExec (pn : Z) (exec : ExecRec)
| EvStore (addr size data : Z)
| EvSyscall (addr : Z)
| EvReturn (retval : Z)
| EvWrites (addr : Z) (bytes : list Z)
| EvNewline
| EvExecute (val : Z)
| EvExit (rc : Z).

Record manager : Type := mkManager {
  out : bool;                    (* the output file is open *)
  period : Z;
  begin_instret : Z;
  mem : option MemTrace;         (* [None] is the null pointer *)
  log : list event }.

Definition with_mem (m : option MemTrace) (s : manager) : manager :=
  mkManager (out s) (period s) (begin_instret s) m (log s).
Definition emit (e : event) (s : manager) : manager :=
  mkManager (out s) (period s) (begin_instret s) (mem s) (log s ++ [e]).

(** The processor fields the manager reads. *)
Record proc_view : Type := mkProc { p_instret : Z; p_ireg : list Z; p_freg : list Z }.

Definition ECALL : Z := 0x00000073.

(** The order in which an [unordered_map] is iterated is unspecified: the dump
    takes the enumeration as a parameter. *)
Record enumeration : Type := {
  enum_pages : gmap Z PageRec -> list (Z * PageRec);
  enum_execs : gmap Z ExecRec -> list (Z * ExecRec) }.

(** [MemTrace::dump] *)
Definition dump (en : enumeration) (m : MemTrace) : list event :=
  map (fun e => EvPage (fst e) (snd e)) (enum_pages en (pages m))
  ++ map (fun e => EvExec (fst e) (snd e)) (enum_execs en (execs m)).

(** The store table is printed with the current contents of guest memory; an
    entry with an address has a size of 1, 2, 4 or 8. *)
Definition dump_store (mread : Z -> Z -> Z) (s : StoreRec) : option (list event) :=
  if negb (st_addr s =? 0) then
    if (st_size s =? 1) || (st_size s =? 2) || (st_size s =? 4) || (st_size s =? 8)
    then Some [EvStore (st_addr s) (st_size s) (mread (st_size s) (st_addr s))]
    else None
  else Some [].

Fixpoint dump_stores (mread : Z -> Z -> Z) (l : list StoreRec) : option (list event) :=
  match l with
  | [] => Some []
  | s :: l' => e ← dump_store mread s; es ← dump_stores mread l'; Some (e ++ es)
  end.

(** [break_here] (the dump file opens) *)
Definition break_here (en : enumeration) (mread : Z -> Z -> Z) (instret : Z) (s : manager)
    : option manager :=
  m ← mem s;
  es ← dump_stores mread (stores m);
  Some (mkManager (out s) (period s) (begin_instret s) None
          (log s ++ [EvFile (begin_instret s) instret] ++ dump en m ++ es)).

(** Open a trace at the instruction about to execute. *)
Definition begin_checkpoint (proc : proc_view) (addr : Z) (s : manager) : manager :=
  match mem s with
  | Some _ => s
  | None =>
      emit (EvBegin addr (p_ireg proc) (p_freg proc))
        (mkManager (out s) (period s) (p_instret proc) (Some trace_new) (log s))
  end.

(** The search for a breakpoint once the period has elapsed.  Looking may touch
    the trace (the prefetch of the following halfword, the counter's page). *)
Definition find_break (proc : proc_view) (rd addr inst length : Z) (first_visit : bool)
    (m : MemTrace) (begin : Z) : option (MemTrace * option reason) :=
  if inst =? ECALL then Some (m, Some Ecall)
  else if first_visit && (length =? 4) then Some (m, Some First)
  else
    '(m, rvc) ← (if first_visit && (length =? 2) then prefetch (addr + 2) 2 m else Some (m, false));
    if rvc : bool then Some (m, Some FirstRvc)
    else if (length =? 4) && (rd >? 0) then
      let '(m, cnt) := get_exec_counter addr m in
      exec_count ← read_counter m cnt;
      let total_exec := p_instret proc -[64] begin in
      Some (m, if exec_count <? total_exec >>> 18 then Some (Repeat exec_count rd) else None)
    else Some (m, None).

(** [CheckpointManager::fetch]; [rd] is [proc.get_rd(dec)]. *)
Definition cm_fetch (en : enumeration) (mread : Z -> Z -> Z) (proc : proc_view)
    (rd addr inst length : Z) (s : manager) : option manager :=
  if out s then
    let s := begin_checkpoint proc addr s in
    m ← mem s;
    '(m, first_visit) ← fetch addr inst length m;
    let s := with_mem (Some m) s in
    '(m, why) ← (if p_instret proc -[64] begin_instret s >? period s
                 then find_break proc rd addr inst length first_visit m (begin_instret s)
                 else Some (m, None));
    let s := with_mem (Some m) s in
    match why with
    | Some r => break_here en mread (p_instret proc) (emit (EvBreak addr r) s)
    | None => Some (if inst =? ECALL then emit (EvSyscall addr) s else s)
    end
  else Some s.

(** [CheckpointManager::execute]: prints the destination register at the
    monitored address, which the command line sets. *)
Definition cm_execute (monitor_pc addr val : Z) (s : manager) : manager :=
  if addr =? monitor_pc then emit (EvExecute val) s else s.

(** [CheckpointManager::load] and [store]: recorded while a trace is open. *)
Definition cm_load (sz addr data : Z) (s : manager) : option manager :=
  match mem s with
  | Some m => m ← load sz addr data m; Some (with_mem (Some m) s)
  | None => Some s
  end.

Definition cm_store (sz addr data : Z) (s : manager) : option manager :=
  match mem s with
  | Some m => m ← store sz addr m; Some (with_mem (Some m) s)
  | None => Some s
  end.

(** The bytes a system call wrote. *)
Fixpoint mark_writes (n : nat) (addr : Z) (m : MemTrace) : option MemTrace :=
  match n with
  | O => Some m
  | S n' => m ← store 1 addr m; mark_writes n' (addr + 1) m
  end.

(** [CheckpointManager::syscall(retval, addr, size)]; a null [addr] is 0. *)
Definition cm_syscall (mread : Z -> Z -> Z) (retval addr size : Z) (s : manager) : option manager :=
  match mem s with
  | None => Some s
  | Some m =>
      let s := emit (EvReturn retval) s in
      if negb (addr =? 0) then
        m ← mark_writes (Z.to_nat size) addr m;
        Some (emit EvNewline (emit (EvWrites addr
                (map (fun i => mread 1 (addr + Z.of_nat i)) (List.seq 0 (Z.to_nat size))))
                (with_mem (Some m) s)))
      else Some (emit EvNewline s)
  end.

(** [CheckpointManager::exit] *)
Definition cm_exit (en : enumeration) (mread : Z -> Z -> Z) (proc : proc_view) (rc : Z) (s : manager)
    : option manager :=
  match mem s with
  | None => Some s
  | Some _ => break_here en mread (p_instret proc) (emit (EvExit rc) s)
  end.

(** ** Invariant *)

(** Entries of the store table in use have an access size. *)
Definition stores_ok (m : MemTrace) : Prop :=
  Forall (fun s => st_addr s <> 0 -> access_size (st_size s)) (stores m).

Definition manager_wf (s : manager) : Prop :=
  match mem s with Some m => trace_wf m /\ stores_ok m | None => True end.

Lemma trace_new_stores_ok : stores_ok trace_new.
Proof. apply Forall_replicate. cbn. lia. Qed.

Lemma dump_stores_total (mread : Z -> Z -> Z) (l : list StoreRec) :
  Forall (fun s => st_addr s <> 0 -> access_size (st_size s)) l ->
  exists es, dump_stores mread l = Some es.
Proof.
  induction 1 as [|s l Hs _ [es IH]]; [exists []; reflexivity |]. cbn [dump_stores].
  unfold dump_store. destruct (Z.eqb_spec (st_addr s) 0); cbn [negb].
  - cbn [mbind option_bind]. rewrite IH. eexists; reflexivity.
  - destruct (Hs ltac:(assumption)) as [-> | [-> | [-> | ->]]]; cbn [Z.eqb Pos.eqb orb mbind option_bind];
      rewrite IH; eexists; reflexivity.
Qed.

Lemma prefetch_spec (m : MemTrace) (addr : Z) :
  trace_wf m -> 4096 <= addr -> addr mod 2 = 0 ->
  exists m' b, prefetch addr 2 m = Some (m', b) /\ trace_wf m' /\ stores m' = stores m
    /\ (forall a, recorded m' a = recorded m a) /\ (b = true <-> none_recorded m addr 2)
    /\ forall a, executions m' a = executions m a.
Proof.
  intros Hm Ha Hev. unfold prefetch. rewrite shiftr_div by lia. change (2 ^ 12) with 4096.
  replace (addr .& 0xfff) with (addr mod 4096) by (symmetry; apply (uwrap_land 12); lia).
  destruct (get_page_spec m FetchC (addr / 4096) Hm ltac:(dlia)) as (m' & -> & Hm' & Hs & [p Hp] & Hr).
  destruct (page_check_spec m' (addr / 4096) 2 (addr mod 4096) p Hm' Hp ltac:(dlia) ltac:(lia) ltac:(dlia))
    as (c & -> & Hc & Hb). cbn [Z.eqb Pos.eqb mbind option_bind].
  exists m', (c =? 0). split; [reflexivity | split; [exact Hm' | split; [apply Hs | split; [exact Hr | split]]]].
  2: { intros a. unfold executions. destruct Hs as (_ & -> & _). reflexivity. }
  destruct (ones_of_bits 2 c ltac:(lia) Hc) as [H0 _]. rewrite H0.
  assert (Hbit : forall i, 0 <= i < 2 -> (Z.testbit c i = true <-> exists v, recorded m (addr + i) = Some v)).
  { intros i Hi. rewrite Hb, <- Hr by assumption.
    replace (addr + i) with (addr_of (addr / 4096) (addr mod 4096 + i)) by (unfold addr_of; dlia).
    rewrite (recorded_addr m' _ p) by (assumption || dlia).
    apply vis_recorded; [exact (tw_pages _ Hm' _ _ Hp) | dlia]. }
  unfold none_recorded. split.
  - intros H a Hr'. destruct (recorded m a) as [v|] eqn:E; [|reflexivity].
    specialize (H (a - addr) ltac:(lia)). exfalso.
    rewrite (proj2 (Hbit (a - addr) ltac:(lia))) in H; [discriminate |].
    replace (addr + (a - addr)) with a by lia. eauto.
  - intros H i Hi. apply not_true_is_false. rewrite Hbit by assumption.
    rewrite H by lia. intros [v Hv]; discriminate.
Qed.

(** Looking a counter up keeps the pages and finds the count. *)
Lemma read_counter_spec (m : MemTrace) (addr : Z) :
  trace_wf m -> 4096 <= addr ->
  exists m' r, get_exec_counter addr m = (m', r) /\ read_counter m' r = Some (executions m addr)
    /\ trace_wf m' /\ stores m' = stores m /\ pages m' = pages m /\ forall a, executions m' a = executions m a.
Proof.
  intros Hm Ha.
  destruct (get_exec_counter_spec m addr Hm Ha)
    as (m1 & r & m2 & e & c & E & Er & He & Hc & _ & _ & _ & _ & Hm1 & Hp1 & Hs1 & Ec & Hx & _).
  exists m1, r. split; [exact E |]. subst r c. split; [| auto].
  unfold read_counter. cbn [mbind option_bind]. rewrite He. exact Hc.
Qed.

(** ** The fetch handler *)

(** Why an instruction is a breakpoint, in terms of the trace before it: a system
    call; an instruction of four bytes, or a compressed one whose next halfword is
    not known either, that was never fetched; an instruction of four bytes with a
    destination that was executed, this time included, less than once in 2^18
    instructions of the checkpoint. *)
Definition justified (m : MemTrace) (rd addr inst length total : Z) (why : reason) : Prop :=
  match why with
  | Ecall => inst = ECALL
  | First => length = 4 /\ none_recorded m addr 4
  | FirstRvc => length = 2 /\ none_recorded m addr 4
  | Repeat n r =>
      length = 4 /\ r = rd /\ 0 < rd /\ n = uwrap 32 (executions m addr + 1) /\ n < total / 2 ^ 18
  end.

Lemma find_break_spec (proc : proc_view) (m0 m : MemTrace) (rd addr inst length begin : Z) (first : bool) :
  trace_wf m -> length = 2 \/ length = 4 -> 4096 <= addr -> addr mod 2 = 0 ->
  (forall a, recorded m a = record addr length (fun a => Page.byte inst (a - addr)) (recorded m0) a) ->
  (first = true <-> none_recorded m0 addr length) ->
  executions m addr = uwrap 32 (executions m0 addr + 1) ->
  exists m' why, find_break proc rd addr inst length first m begin = Some (m', why)
    /\ trace_wf m' /\ stores m' = stores m /\ (forall a, recorded m' a = recorded m a)
    /\ (forall a, executions m' a = executions m a)
    /\ let J := justified m0 rd addr inst length (p_instret proc -[64] begin) in
       match why with Some r => J r | None => forall r, ~ J r end.
Proof.
  intros Hm Hlen Ha Hev Hr Hf Hx. unfold find_break.
  destruct (Z.eqb_spec inst ECALL) as [-> | Hne].
  { exists m, (Some Ecall). do 5 (split; [assumption || reflexivity |]). reflexivity. }
  destruct (first && (length =? 4)) eqn:E4.
  { apply andb_true_iff in E4 as [E E4]. apply Z.eqb_eq in E4. subst length.
    exists m, (Some First). do 5 (split; [assumption || reflexivity |]). split; [reflexivity | apply Hf, E]. }
  assert (H4 : ~ (length = 4 /\ none_recorded m0 addr 4)).
  { intros [-> H]. apply Hf in H. subst first. discriminate E4. }
  assert (Hpre : exists m1 rvc,
    (if first && (length =? 2) then prefetch (addr + 2) 2 m else Some (m, false)) = Some (m1, rvc)
    /\ trace_wf m1 /\ stores m1 = stores m /\ (forall a, recorded m1 a = recorded m a)
    /\ (forall a, executions m1 a = executions m a)
    /\ (rvc = true <-> length = 2 /\ none_recorded m0 addr 4)).
  { destruct (first && (length =? 2)) eqn:E2.
    - apply andb_true_iff in E2 as [E E2]. apply Z.eqb_eq in E2. subst length.
      destruct (prefetch_spec m (addr + 2) Hm ltac:(lia) ltac:(dlia)) as (m1 & b & -> & H1 & H2 & H3 & H5 & H6).
      exists m1, b. do 5 (split; [assumption || reflexivity |]). apply Hf in E. rewrite H5. split.
      + intros Eb. split; [reflexivity |]. intros a Hra. destruct (Z.ltb_spec a (addr + 2)); [apply E; lia |].
        specialize (Eb a ltac:(lia)). rewrite Hr in Eb. unfold record in Eb.
        destruct (recorded m0 a); [discriminate | reflexivity].
      + intros [_ H] a Hra. rewrite Hr. unfold record. rewrite H by lia.
        rewrite (proj2 (Z.ltb_ge a (addr + 2))), andb_false_r by lia. reflexivity.
    - exists m, false. do 5 (split; [assumption || reflexivity |]). split; [discriminate |]. intros [-> H].
      assert (E : first = true) by (apply Hf; intros a Hra; apply H; lia). subst first. discriminate E2. }
  destruct Hpre as (m1 & rvc & -> & Hm1 & Hs1 & Hr1 & Hx1 & Hj). cbn [mbind option_bind].
  destruct rvc.
  { exists m1, (Some FirstRvc). do 5 (split; [assumption || reflexivity |]). apply Hj. reflexivity. }
  assert (H2 : ~ (length = 2 /\ none_recorded m0 addr 4)) by (intros H; apply Hj in H; discriminate H).
  destruct ((length =? 4) && (rd >? 0)) eqn:Er; [| apply andb_false_iff in Er].
  2: { exists m1, None. do 5 (split; [assumption || reflexivity |]). cbv zeta. intros [| | | n r]; cbn [justified]; try assumption.
       intros (-> & _ & Hrd & _). destruct Er as [Er | Er]; [discriminate Er |]. rewrite Z.gtb_ltb, Z.ltb_ge in Er. lia. }
  apply andb_true_iff in Er as [El Er]. apply Z.eqb_eq in El. subst length.
  rewrite Z.gtb_ltb, Z.ltb_lt in Er.
  destruct (read_counter_spec m1 addr Hm1 Ha) as (m2 & r & -> & Ec & Hm2 & Hs2 & Hp2 & Hx2).
  rewrite Ec. cbn [mbind option_bind]. do 2 eexists. split; [reflexivity |].
  split; [exact Hm2 |]. split; [congruence |]. split.
  { intros a. rewrite <- Hr1. unfold recorded. rewrite Hp2. reflexivity. }
  split; [intros a; rewrite Hx2; apply Hx1 |]. rewrite shiftr_div, Hx1, Hx by lia. cbv zeta.
  destruct (Z.ltb_spec (uwrap 32 (executions m0 addr + 1)) ((p_instret proc -[64] begin) / 2 ^ 18)); [cbn [justified]; auto |].
  intros [| | | n r']; cbn [justified]; try assumption. intros (_ & _ & _ & -> & Hlt). lia.
Qed.

Lemma with_mem_fields (m : option MemTrace) (s : manager) :
  out (with_mem m s) = out s /\ period (with_mem m s) = period s
  /\ begin_instret (with_mem m s) = begin_instret s /\ log (with_mem m s) = log s
  /\ mem (with_mem m s) = m.
Proof. repeat split. Qed.

(** The trace and the start of the checkpoint an instruction belongs to. *)
Definition trace_at (s : manager) : MemTrace :=
  match mem s with Some m => m | None => trace_new end.
Definition begin_at (proc : proc_view) (s : manager) : Z :=
  match mem s with Some _ => begin_instret s | None => p_instret proc end.

Lemma fetch_handler (en : enumeration) (mread : Z -> Z -> Z) (proc : proc_view)
    (rd addr inst length : Z) (s : manager) :
  (forall ps pn p, ps !! pn = Some p -> In (pn, p) (enum_pages en ps)) ->
  manager_wf s -> out s = true -> length = 2 \/ length = 4 -> 4096 <= addr -> addr mod 2 = 0 ->
  none_recorded (trace_at s) addr length \/ all_recorded (trace_at s) addr length ->
  let total := p_instret proc -[64] begin_at proc s in
  exists s', cm_fetch en mread proc rd addr inst length s = Some s' /\ manager_wf s' /\ out s' = true
    /\ begin_instret s' = begin_at proc s
    /\ ((exists m', mem s' = Some m'
          /\ (total <= period s \/ forall why, ~ justified (trace_at s) rd addr inst length total why)
          /\ (forall a, recorded m' a
               = record addr length (fun a => Page.byte inst (a - addr)) (recorded (trace_at s)) a)
          /\ forall a, executions m' a
               = if a / 2 =? addr / 2 then uwrap 32 (executions (trace_at s) addr + 1) else executions (trace_at s) a)
        \/ (mem s' = None /\ period s < total
            /\ exists l why es, log s' = l ++ [EvBreak addr why; EvFile (begin_at proc s) (p_instret proc)] ++ es
            /\ justified (trace_at s) rd addr inst length total why
            /\ forall b, addr <= b < addr + length ->
                 exists p v, In (EvPage (b / 4096) p) es /\ rec_at p (b mod 4096) = Some v)).
Proof.
  intros Hen Hwf Hout Hlen Ha Hev Hall total. unfold cm_fetch. rewrite Hout.
  assert (Hb : exists s0, begin_checkpoint proc addr s = s0 /\ mem s0 = Some (trace_at s)
            /\ trace_wf (trace_at s) /\ stores_ok (trace_at s) /\ out s0 = true /\ period s0 = period s
            /\ begin_instret s0 = begin_at proc s).
  { eexists. split; [reflexivity |]. unfold begin_checkpoint, trace_at, begin_at, manager_wf in *.
    destruct (mem s) as [m|] eqn:Em.
    - rewrite Em. destruct Hwf as [H1 H2]. split; [reflexivity |]. split; [exact H1 |].
      split; [exact H2 |]. auto.
    - cbn. split; [reflexivity | split; [apply trace_new_wf | split; [apply trace_new_stores_ok | auto]]]. }
  destruct Hb as (s0 & -> & Em0 & Hm0 & Hst0 & Hout0 & Hper0 & Hbeg0).
  rewrite Em0. cbn [mbind option_bind].
  destruct (fetch_spec (trace_at s) addr inst length Hm0 Hlen Ha Hev Hall)
    as (m1 & first & -> & Hm1 & Hr1 & Hf1 & Hs1 & Hx1).
  assert (Hx : executions m1 addr = uwrap 32 (executions (trace_at s) addr + 1)) by (rewrite Hx1, Z.eqb_refl; reflexivity).
  cbn [mbind option_bind begin_instret with_mem period]. rewrite Hbeg0, Hper0. fold total.
  assert (Hok1 : stores_ok m1) by (unfold stores_ok; rewrite Hs1; exact Hst0).
  destruct (total >? period s) eqn:Eel.
  - rewrite Z.gtb_ltb, Z.ltb_lt in Eel.
    destruct (find_break_spec proc (trace_at s) m1 rd addr inst length (begin_at proc s) first
                Hm1 Hlen Ha Hev Hr1 Hf1 Hx) as (m2 & why & -> & Hm2 & Hs2 & Hr2 & Hx2 & Hj).
    cbn [mbind option_bind].
    assert (Hok2 : stores_ok m2) by (unfold stores_ok; rewrite Hs2; exact Hok1).
    destruct why as [why |].
    + unfold break_here. cbn [mem emit with_mem mbind option_bind].
      destruct (dump_stores_total mread (stores m2) Hok2) as [es Ees]. rewrite Ees. cbn [mbind option_bind].
      eexists. split; [reflexivity |]. cbn. rewrite Hout0, Hbeg0. do 3 (split; [reflexivity || exact I |]).
      right. split; [reflexivity | split; [exact Eel |]].
      exists (log s0), why, (dump en m2 ++ es). split; [|split; [exact Hj |]].
      * rewrite <- !app_assoc. reflexivity.
      * intros b Hb. assert (Hrec : exists v, recorded m2 b = Some v).
        { rewrite Hr2, Hr1. unfold record. destruct (recorded (trace_at s) b); [eauto |].
          rewrite (proj2 (Z.leb_le addr b)), (proj2 (Z.ltb_lt b (addr + length))) by lia. eauto. }
        destruct Hrec as [v Hv]. unfold recorded in Hv.
        destruct (pages m2 !! (b / 4096)) as [p|] eqn:Ep; [|discriminate].
        exists p, v. split; [|exact Hv]. unfold dump. rewrite !in_app_iff. left. left.
        apply in_map_iff. exists (b / 4096, p). split; [reflexivity | apply Hen, Ep].
    + eexists. split; [reflexivity |].
      assert (Hne : inst <> ECALL) by apply (Hj Ecall).
      rewrite (proj2 (Z.eqb_neq _ _) Hne). cbn. rewrite Hout0, Hbeg0.
      split; [split; assumption |]. do 2 (split; [reflexivity |]).
      left. exists m2. split; [reflexivity | split; [right; exact Hj |]].
      split; intros a; [rewrite Hr2; apply Hr1 | rewrite Hx2; apply Hx1].
  - rewrite Z.gtb_ltb, Z.ltb_ge in Eel. cbn [mbind option_bind].
    eexists. split; [reflexivity |].
    assert (H : forall s1, (if inst =? ECALL then emit (EvSyscall addr) s1 else s1) = s1
              \/ (if inst =? ECALL then emit (EvSyscall addr) s1 else s1) = emit (EvSyscall addr) s1)
      by (intros; destruct (inst =? ECALL); auto).
    destruct (H (with_mem (Some m1) (with_mem (Some m1) s0))) as [-> | ->]; cbn; rewrite Hout0, Hbeg0;
      (split; [split; assumption |]); (do 2 (split; [reflexivity |])); left;
      (exists m1; auto).
Qed.


(** An enumeration: the standard one of finite maps. *)
Definition enum_sorted : enumeration :=
  {| enum_pages := map_to_list; enum_execs := map_to_list |}.

Lemma enum_sorted_complete (ps : gmap Z PageRec) (pn : Z) (p : PageRec) :
  ps !! pn = Some p -> In (pn, p) (enum_pages enum_sorted ps).
Proof. intros H. apply list_elem_of_In, elem_of_map_to_list, H. Qed.


Lemma store_keeps_ok (m : MemTrace) (sz addr : Z) :
  trace_wf m -> stores_ok m -> access_size sz -> 4096 <= addr ->
  exists m', store sz addr m = Some m' /\ trace_wf m' /\ stores_ok m'.
Proof.
  intros Hm Hok Hsz Ha. destruct (store_spec m sz addr Hm Hsz Ha) as (m' & E & Hm' & _ & Hs & _).
  exists m'. split; [exact E | split; [exact Hm' |]]. unfold stores_ok. rewrite Hs.
  apply Forall_insert; [exact Hok | intros _; exact Hsz].
Qed.

Lemma mark_writes_ok (n : nat) : forall addr m,
  trace_wf m -> stores_ok m -> 4096 <= addr ->
  exists m', mark_writes n addr m = Some m' /\ trace_wf m' /\ stores_ok m'.
Proof.
  induction n as [|n IH]; intros addr m Hm Hok Ha; [eauto |]. cbn [mark_writes].
  destruct (store_keeps_ok m 1 addr Hm Hok ltac:(unfold access_size; lia) Ha) as (m1 & -> & Hm1 & Hok1).
  apply IH; [assumption | assumption | lia].
Qed.

Lemma data_ops (mread : Z -> Z -> Z) (s : manager) (sz addr data retval size : Z) :
  manager_wf s -> access_size sz -> 4096 <= addr ->
  (exists s', cm_load sz addr data s = Some s' /\ manager_wf s' /\ (mem s = None -> s' = s))
  /\ (exists s', cm_store sz addr data s = Some s' /\ manager_wf s' /\ (mem s = None -> s' = s))
  /\ (exists s', cm_syscall mread retval addr size s = Some s' /\ manager_wf s'
        /\ (mem s = None -> s' = s)).
Proof.
  intros Hwf Hsz Ha. unfold cm_load, cm_store, cm_syscall. destruct (mem s) as [m|] eqn:Em.
  2: { repeat split; exists s; auto. }
  unfold manager_wf in Hwf. rewrite Em in Hwf. destruct Hwf as [Hm Hok].
  destruct (load_spec m sz addr data Hm Hsz Ha) as (m1 & -> & Hm1 & (Hs1 & _) & _).
  destruct (store_keeps_ok m sz addr Hm Hok Hsz Ha) as (m2 & -> & Hm2 & Hok2).
  destruct (mark_writes_ok (Z.to_nat size) addr m Hm Hok Ha) as (m3 & Em3 & Hm3 & Hok3).
  cbn [mbind option_bind].
  split; [|split].
  - eexists. split; [reflexivity |]. split; [|discriminate]. split; [exact Hm1 |].
    unfold stores_ok. rewrite Hs1. exact Hok.
  - eexists. split; [reflexivity |]. split; [split; assumption | discriminate].
  - rewrite (proj2 (Z.eqb_neq addr 0)) by lia. cbn [negb]. rewrite Em3. cbn [mbind option_bind].
    eexists. split; [reflexivity |]. split; [split; assumption | discriminate].
Qed.

(** The data handlers never fail on a well-formed manager and keep it
    well-formed; with no trace open they do nothing. *)
Theorem manager_data_ops (mread : Z -> Z -> Z) (s : manager) (sz addr data retval size : Z) :
  manager_wf s -> access_size sz -> 4096 <= addr ->
  (exists s', cm_load sz addr data s = Some s' /\ manager_wf s' /\ (mem s = None -> s' = s))
  /\ (exists s', cm_store sz addr data s = Some s' /\ manager_wf s' /\ (mem s = None -> s' = s))
  /\ (exists s', cm_syscall mread retval addr size s = Some s' /\ manager_wf s'
        /\ (mem s = None -> s' = s)).
Proof. apply data_ops. Qed.

Lemma manager_data_ops_witness :
  let s := mkManager true 100 0 (Some trace_new) [] in
  (exists s', cm_load 4 0x1000 7 s = Some s' /\ manager_wf s' /\ (mem s = None -> s' = s))
  /\ (exists s', cm_store 4 0x1000 7 s = Some s' /\ manager_wf s' /\ (mem s = None -> s' = s))
  /\ (exists s', cm_syscall (fun _ _ => 0) 0 0x1000 3 s = Some s' /\ manager_wf s'
        /\ (mem s = None -> s' = s)).
Proof.
  cbv zeta. apply manager_data_ops; [split; [apply trace_new_wf | apply trace_new_stores_ok] | |];
    [unfold access_size; lia | lia].
Defined.
