(* ===== verification/Interp.v ===== *)
(** * The interpreter: [emu/interp.h] and [emu/processor-base.h]

    One instruction as a function from the hart to a small program over the
    operations of the memory interface ([io]): what the instruction asks of the
    MMU, and the hart it leaves.  [Undef] is undefined behaviour of the C++ code:
    a register number outside the file, or a shift by the width or more.  The
    floating-point cases are a parameter; with the extension off they do
    nothing, as in the source. *)

From Stdlib Require Import ZArith Lia Bool.
From stdpp Require Import base list option.
From S2P Require Import Prelude Alu Meta Codec.

#[local] Open Scope Z_scope.
#[local] Open Scope word_scope.

(** ** Processor state *)

(** The part of [processor_base] instructions act on.  An [ireg_rvN] is a union;
    a register is kept as its signed view [r.x.val] and the other views are
    conversions of it.  [freg] holds bit patterns. *)
Record hart : Type := mkHart {
  pc : Z; ireg : list Z; freg : list Z; lr : Z; fcsr : Z; time : Z }.

Definition set_pc (x : Z) (h : hart) : hart := mkHart x (ireg h) (freg h) (lr h) (fcsr h) (time h).
Definition set_ireg (r : list Z) (h : hart) : hart := mkHart (pc h) r (freg h) (lr h) (fcsr h) (time h).
Definition set_lr (x : Z) (h : hart) : hart := mkHart (pc h) (ireg h) (freg h) x (fcsr h) (time h).
Definition set_fcsr (x : Z) (h : hart) : hart := mkHart (pc h) (ireg h) (freg h) (lr h) x (time h).
Definition set_time (x : Z) (h : hart) : hart := mkHart (pc h) (ireg h) (freg h) (lr h) (fcsr h) x.

(** The constructor: everything zero. *)
Definition hart_init : hart := mkHart 0 (replicate 32 0) (replicate 32 0) 0 0 0.

(** ** What an instruction asks of the MMU *)

(** Each request carries the hart as it is when the MMU is called.  [sz] is
    [sizeof(T)]; a loaded value is given to the continuation as its bits. *)
Inductive io (A : Type) : Type :=
| Ret (h : hart) (a : A)
| Load (h : hart) (sz va : Z) (k : Z -> io A)
| Store (h : hart) (sz va data : Z) (k : io A)
| Amo (h : hart) (a_op : amo_op) (sz va val2 : Z) (k : Z -> io A)
| Undef.
Arguments Ret {A}. Arguments Load {A}. Arguments Store {A}. Arguments Amo {A}. Arguments Undef {A}.

(** The template flags the function tests. *)
Record flags : Type := mkFlags { rvi : bool; rvm : bool; rva : bool; rvf : bool; rvd : bool }.

Definition RV_I : flags := mkFlags true false false false false.
Definition RV_IMA : flags := mkFlags true true true false false.
Definition RV_IMAFD : flags := mkFlags true true true true true.

(** ** The cases *)

Section Exec.
  Context (w : Z) (dec : decode) (h : hart) (pc_offset : Z).

(** [r.x.val], [r.xu.val], [r.w.val] (which is [r.x.val] when [w] is 32), [r.wu.val]. *)
Definition x (r : Z) : option Z := aget (ireg h) r.
Definition xu (r : Z) : option Z := uwrap w <$> x r.
Definition wv (r : Z) : option Z := swrap 32 <$> x r.
Definition wu (r : Z) : option Z := uwrap 32 <$> x r.

(** [proc.ireg[dec.rd] = (dec.rd == 0) ? 0 : e] *)
Definition assign (hh : hart) (e : option Z) : option hart :=
  v ← (if rd dec =? 0 then Some 0 else e);
  r ← aset (ireg hh) (rd dec) (swrap w v);
  Some (set_ireg r hh).

Definition finish (o : option hart) (offset : Z) : io Z :=
  match o with Some hh => Ret hh offset | None => Undef end.

Definition wr (e : option Z) : io Z := finish (assign h e) pc_offset.

(** An operator on two registers, each read through a view; on a register and
    the immediate. *)
Definition rr (v1 v2 : Z -> option Z) (f : Z -> Z -> option Z) : option Z :=
  a ← v1 (rs1 dec); b ← v2 (rs2 dec); f a b.
Definition ri (v : Z -> option Z) (f : Z -> Z -> option Z) : option Z :=
  a ← v (rs1 dec); f a (imm dec).

(** Shifts of an [n]-bit operand. *)
Definition shl (n a count : Z) : option Z :=
  if (0 <=? count) && (count <? n) then Some (uwrap n (Z.shiftl a count)) else None.
Definition shr (n a count : Z) : option Z :=
  if (0 <=? count) && (count <? n) then Some (a >>> count) else None.

(** Division, as the cases write it out, at width [n]. *)
Definition div_case (n a b : Z) : option Z :=
  Some (if (a =? limits_min n) && (b =? -1) then limits_min n
        else if b =? 0 then -1 else Z.quot a b).
Definition rem_case (n a b : Z) : option Z :=
  Some (if (a =? limits_min n) && (b =? -1) then 0
        else if b =? 0 then a else Z.rem a b).
Definition divu_case (n a b : Z) : option Z :=
  Some (if b =? 0 then -1 else swrap n (uwrap n a / uwrap n b)).
Definition remu_case (n a b : Z) : option Z :=
  Some (if b =? 0 then a else swrap n (uwrap n a mod uwrap n b)).

Definition branch (v : Z -> option Z) (c : Z -> Z -> bool) : io Z :=
  match v (rs1 dec), v (rs2 dec) with
  | Some a, Some b => Ret h (if c a b then uwrap w (imm dec) else pc_offset)
  | _, _ => Undef
  end.

(** [T t; load<P,T>(proc, ireg[rs1] + imm, t); ireg[rd] = ...] *)
Definition load_case (sz : Z) (conv : Z -> Z) : io Z :=
  match x (rs1 dec) with
  | Some a => Load h sz (a +[w] imm dec) (fun t => wr (Some (conv t)))
  | None => Undef
  end.

Definition store_case (sz : Z) : io Z :=
  match x (rs1 dec), x (rs2 dec) with
  | Some a, Some b => Store h sz (a +[w] imm dec) (swrap (8 * sz) b) (Ret h pc_offset)
  | _, _ => Undef
  end.

Definition lr_case (sz : Z) : io Z :=
  match x (rs1 dec) with
  | Some a =>
      let hh := set_lr a h in
      Load hh sz (uwrap w a) (fun t => finish (assign hh (Some (swrap (8 * sz) t))) pc_offset)
  | None => Undef
  end.

Definition sc_case (sz : Z) : io Z :=
  match x (rs1 dec), x (rs2 dec) with
  | Some a, Some b =>
      if negb (lr h =? a) then wr (Some 1)
      else Store h sz (uwrap w a) (swrap (8 * sz) b) (wr (Some 0))
  | _, _ => Undef
  end.

Definition amo_case (a_op : amo_op) (sz : Z) : io Z :=
  match x (rs1 dec), x (rs2 dec) with
  | Some a, Some b =>
      Amo h a_op sz (uwrap w a) (swrap (8 * sz) b) (fun t1 => wr (Some (swrap (8 * sz) t1)))
  | _, _ => Undef
  end.

(** RV32I and RV64I: the cases both functions have. *)
Definition exec_i : option (io Z) :=
  match op dec with
  | rv_op_lui => Some (wr (Some (imm dec)))
  | rv_op_auipc => Some (wr (Some (pc h + imm dec)))
  | rv_op_jal => Some (finish (assign h (Some (pc h + pc_offset))) (uwrap w (imm dec)))
  | rv_op_jalr => Some
      match x (rs1 dec) with
      | Some a =>
          let new_offset := (a + imm dec -[w] pc h) .& uwrap w (-2) in
          finish (assign h (Some (pc h + pc_offset))) new_offset
      | None => Undef
      end
  | rv_op_beq => Some (branch x Z.eqb)
  | rv_op_bne => Some (branch x (fun a b => negb (a =? b)))
  | rv_op_blt => Some (branch x Z.ltb)
  | rv_op_bge => Some (branch x Z.geb)
  | rv_op_bltu => Some (branch xu Z.ltb)
  | rv_op_bgeu => Some (branch xu Z.geb)
  | rv_op_lb => Some (load_case 1 (swrap 8))
  | rv_op_lh => Some (load_case 2 (swrap 16))
  | rv_op_lw => Some (load_case 4 (swrap 32))
  | rv_op_lbu => Some (load_case 1 (uwrap 8))
  | rv_op_lhu => Some (load_case 2 (uwrap 16))
  | rv_op_sb => Some (store_case 1)
  | rv_op_sh => Some (store_case 2)
  | rv_op_sw => Some (store_case 4)
  | rv_op_addi => Some (wr (ri x (fun a i => Some (a + i))))
  | rv_op_slti => Some (wr (ri x (fun a i => Some (b2z (a <? i)))))
  | rv_op_sltiu => Some (wr (ri xu (fun a i => Some (b2z (a <? uwrap w i)))))
  | rv_op_xori => Some (wr (ri xu (fun a i => Some (a .^ uwrap w i))))
  | rv_op_ori => Some (wr (ri xu (fun a i => Some (a .| uwrap w i))))
  | rv_op_andi => Some (wr (ri xu (fun a i => Some (a .& uwrap w i))))
  | rv_op_slli => Some (wr (ri xu (shl w)))
  | rv_op_srli => Some (wr (ri xu (shr w)))
  | rv_op_srai => Some (wr (ri x (shr w)))
  | rv_op_add => Some (wr (rr x x (fun a b => Some (a + b))))
  | rv_op_sub => Some (wr (rr x x (fun a b => Some (a - b))))
  | rv_op_sll => Some (wr (rr xu x (fun a b => shl w a (b .& 0x7f))))
  | rv_op_slt => Some (wr (rr x x (fun a b => Some (b2z (a <? b)))))
  | rv_op_sltu => Some (wr (rr xu xu (fun a b => Some (b2z (a <? b)))))
  | rv_op_xor => Some (wr (rr xu xu (fun a b => Some (a .^ b))))
  | rv_op_srl => Some (wr (rr xu x (fun a b => shr w a (b .& 0x7f))))
  | rv_op_sra => Some (wr (rr x x (fun a b => shr w a (b .& 0x7f))))
  | rv_op_or => Some (wr (rr xu xu (fun a b => Some (a .| b))))
  | rv_op_and => Some (wr (rr xu xu (fun a b => Some (a .& b))))
  | _ => None
  end.

(** RV64I only. *)
Definition exec_i64 : option (io Z) :=
  match op dec with
  | rv_op_lwu => Some (load_case 4 (uwrap 32))
  | rv_op_ld => Some (load_case 8 (swrap 64))
  | rv_op_sd => Some (store_case 8)
  | rv_op_addiw => Some (wr (ri wv (fun a i => Some (swrap 32 (a + i)))))
  | rv_op_slliw => Some (wr (swrap 32 <$> ri wu (shl 32)))
  | rv_op_srliw => Some (wr (swrap 32 <$> ri wu (shr 32)))
  | rv_op_sraiw => Some (wr (ri wv (shr 32)))
  | rv_op_addw => Some (wr (rr wv wv (fun a b => Some (swrap 32 (a + b)))))
  | rv_op_subw => Some (wr (rr wv wv (fun a b => Some (swrap 32 (a - b)))))
  | rv_op_sllw => Some (wr (swrap 32 <$> rr wu x (fun a b => shl 32 a (b .& 0x1f))))
  | rv_op_srlw => Some (wr (swrap 32 <$> rr wu x (fun a b => shr 32 a (b .& 0x1f))))
  | rv_op_sraw => Some (wr (swrap 32 <$> rr wv x (fun a b => shr 32 a (b .& 0x1f))))
  | _ => None
  end.

(** RV32M and RV64M: the cases both functions have. *)
Definition exec_m : option (io Z) :=
  match op dec with
  | rv_op_mul => Some (wr (rr x x (fun a b => Some (a * b))))
  | rv_op_mulh => Some (wr (rr x x (fun a b => Some (mulh w a b))))
  | rv_op_mulhsu => Some (wr (rr x xu (fun a b => Some (mulhsu w a b))))
  | rv_op_mulhu => Some (wr (rr xu xu (fun a b => Some (mulhu w a b))))
  | rv_op_div => Some (wr (rr x x (div_case w)))
  | rv_op_divu => Some (wr (rr x x (divu_case w)))
  | rv_op_rem => Some (wr (rr x x (rem_case w)))
  | rv_op_remu => Some (wr (rr x x (remu_case w)))
  | _ => None
  end.

(** RV64M only. *)
Definition exec_m64 : option (io Z) :=
  match op dec with
  | rv_op_mulw => Some (wr (rr wu wu (fun a b => Some (swrap 32 (a *[32] b)))))
  | rv_op_divw => Some (wr (rr wv wv (div_case 32)))
  | rv_op_divuw => Some (wr (rr wv wv (divu_case 32)))
  | rv_op_remw => Some (wr (rr wv wv (rem_case 32)))
  | rv_op_remuw => Some (wr (rr wv wv (remu_case 32)))
  | _ => None
  end.

(** RV32A. *)
Definition exec_a : option (io Z) :=
  match op dec with
  | rv_op_lr_w => Some (lr_case 4)
  | rv_op_sc_w => Some (sc_case 4)
  | rv_op_amoswap_w => Some (amo_case amoswap 4)
  | rv_op_amoadd_w => Some (amo_case amoadd 4)
  | rv_op_amoxor_w => Some (amo_case amoxor 4)
  | rv_op_amoor_w => Some (amo_case amoor 4)
  | rv_op_amoand_w => Some (amo_case amoand 4)
  | rv_op_amomin_w => Some (amo_case amomin 4)
  | rv_op_amomax_w => Some (amo_case amomax 4)
  | rv_op_amominu_w => Some (amo_case amominu 4)
  | rv_op_amomaxu_w => Some (amo_case amomaxu 4)
  | _ => None
  end.

(** RV64A only. *)
Definition exec_a64 : option (io Z) :=
  match op dec with
  | rv_op_lr_d => Some (lr_case 8)
  | rv_op_sc_d => Some (sc_case 8)
  | rv_op_amoswap_d => Some (amo_case amoswap 8)
  | rv_op_amoadd_d => Some (amo_case amoadd 8)
  | rv_op_amoxor_d => Some (amo_case amoxor 8)
  | rv_op_amoor_d => Some (amo_case amoor 8)
  | rv_op_amoand_d => Some (amo_case amoand 8)
  | rv_op_amomin_d => Some (amo_case amomin 8)
  | rv_op_amomax_d => Some (amo_case amomax 8)
  | rv_op_amominu_d => Some (amo_case amominu 8)
  | rv_op_amomaxu_d => Some (amo_case amomaxu 8)
  | _ => None
  end.

End Exec.

(** ** The switches *)

(** The cases guarded by [rvf] and by [rvd], in the two functions. *)
Definition f_case_rv32 (o : rv_op) : bool :=
  match o with
  | rv_op_flw | rv_op_fsw | rv_op_fmadd_s | rv_op_fmsub_s | rv_op_fnmsub_s | rv_op_fnmadd_s
  | rv_op_fadd_s | rv_op_fsub_s | rv_op_fmul_s | rv_op_fdiv_s | rv_op_fsgnj_s | rv_op_fsgnjn_s
  | rv_op_fsgnjx_s | rv_op_fmin_s | rv_op_fmax_s | rv_op_fsqrt_s | rv_op_fle_s | rv_op_flt_s
  | rv_op_feq_s | rv_op_fcvt_w_s | rv_op_fcvt_wu_s | rv_op_fcvt_s_w | rv_op_fcvt_s_wu
  | rv_op_fmv_x_s | rv_op_fclass_s | rv_op_fmv_s_x => true
  | _ => false
  end.

(** As above, [rvd]. *)
Definition d_case_rv32 (o : rv_op) : bool :=
  match o with
  | rv_op_fld | rv_op_fsd | rv_op_fmadd_d | rv_op_fmsub_d | rv_op_fnmsub_d | rv_op_fnmadd_d
  | rv_op_fadd_d | rv_op_fsub_d | rv_op_fmul_d | rv_op_fdiv_d | rv_op_fsgnj_d | rv_op_fsgnjn_d
  | rv_op_fsgnjx_d | rv_op_fmin_d | rv_op_fmax_d | rv_op_fcvt_s_d | rv_op_fcvt_d_s
  | rv_op_fsqrt_d | rv_op_fle_d | rv_op_flt_d | rv_op_feq_d | rv_op_fcvt_w_d | rv_op_fcvt_wu_d
  | rv_op_fcvt_d_w | rv_op_fcvt_d_wu | rv_op_fclass_d => true
  | _ => false
  end.

(** As above, RV64. *)
Definition f_case_rv64 (o : rv_op) : bool :=
  match o with
  | rv_op_flw | rv_op_fsw | rv_op_fmadd_s | rv_op_fmsub_s | rv_op_fnmsub_s | rv_op_fnmadd_s
  | rv_op_fadd_s | rv_op_fsub_s | rv_op_fmul_s | rv_op_fdiv_s | rv_op_fsgnj_s | rv_op_fsgnjn_s
  | rv_op_fsgnjx_s | rv_op_fmin_s | rv_op_fmax_s | rv_op_fsqrt_s | rv_op_fle_s | rv_op_flt_s
  | rv_op_feq_s | rv_op_fcvt_w_s | rv_op_fcvt_wu_s | rv_op_fcvt_s_w | rv_op_fcvt_s_wu
  | rv_op_fmv_x_s | rv_op_fclass_s | rv_op_fmv_s_x | rv_op_fcvt_l_s | rv_op_fcvt_lu_s
  | rv_op_fcvt_s_l | rv_op_fcvt_s_lu => true
  | _ => false
  end.

(** As above, RV64, [rvd]. *)
Definition d_case_rv64 (o : rv_op) : bool :=
  match o with
  | rv_op_fld | rv_op_fsd | rv_op_fmadd_d | rv_op_fmsub_d | rv_op_fnmsub_d | rv_op_fnmadd_d
  | rv_op_fadd_d | rv_op_fsub_d | rv_op_fmul_d | rv_op_fdiv_d | rv_op_fsgnj_d | rv_op_fsgnjn_d
  | rv_op_fsgnjx_d | rv_op_fmin_d | rv_op_fmax_d | rv_op_fcvt_s_d | rv_op_fcvt_d_s
  | rv_op_fsqrt_d | rv_op_fle_d | rv_op_flt_d | rv_op_feq_d | rv_op_fcvt_w_d | rv_op_fcvt_wu_d
  | rv_op_fcvt_d_w | rv_op_fcvt_d_wu | rv_op_fclass_d | rv_op_fcvt_l_d | rv_op_fcvt_lu_d
  | rv_op_fmv_x_d | rv_op_fcvt_d_l | rv_op_fcvt_d_lu | rv_op_fmv_d_x => true
  | _ => false
  end.


(** [if (flag) { case }], otherwise the next group of cases. *)
Definition guarded (flag : bool) (h : hart) (pc_offset : Z) (p : option (io Z)) (next : io Z) : io Z :=
  match p with
  | Some c => if flag then c else Ret h pc_offset
  | None => next
  end.

Section Switch.
  (** The floating-point cases, which this file does not translate. *)
  Context (exec_fp : decode -> hart -> Z -> io Z).
  Context (fl : flags) (dec : decode) (h : hart) (pc_offset : Z).

Definition exec_inst_rv32 : io Z :=
  guarded (rvi fl) h pc_offset (exec_i 32 dec h pc_offset)
  (guarded (rvm fl) h pc_offset (exec_m 32 dec h pc_offset)
  (guarded (rva fl) h pc_offset (exec_a 32 dec h pc_offset)
  (if f_case_rv32 (op dec) then (if rvf fl then exec_fp dec h pc_offset else Ret h pc_offset)
   else if d_case_rv32 (op dec) then (if rvd fl then exec_fp dec h pc_offset else Ret h pc_offset)
   else Ret h (uwrap 32 (-1))))).

Definition exec_inst_rv64 : io Z :=
  guarded (rvi fl) h pc_offset (exec_i 64 dec h pc_offset)
  (guarded (rvi fl) h pc_offset (exec_i64 64 dec h pc_offset)
  (guarded (rvm fl) h pc_offset (exec_m 64 dec h pc_offset)
  (guarded (rvm fl) h pc_offset (exec_m64 64 dec h pc_offset)
  (guarded (rva fl) h pc_offset (exec_a 64 dec h pc_offset)
  (guarded (rva fl) h pc_offset (exec_a64 64 dec h pc_offset)
  (if f_case_rv64 (op dec) then (if rvf fl then exec_fp dec h pc_offset else Ret h pc_offset)
   else if d_case_rv64 (op dec) then (if rvd fl then exec_fp dec h pc_offset else Ret h pc_offset)
   else Ret h (uwrap 64 (-1)))))))).

End Switch.
