(* ===== verification/Isa.v ===== *)
(** * The interpreter against the instruction set

    A reference semantics of the integer computational instructions in plain
    integer arithmetic, and the theorems that the cases of [exec_inst_rv32] and
    [exec_inst_rv64] compute it; control transfer; what an instruction may
    change; and the sentinel [-1]. *)

From Stdlib Require Import ZArith Lia Bool.
From stdpp Require Import base list option.
From S2P Require Import Prelude Alu Meta Codec Interp.

#[local] Open Scope Z_scope.
#[local] Open Scope word_scope.

(** ** Well-formed harts *)

Record hart_wf (w : Z) (h : hart) : Prop := {
  hw_length : length (ireg h) = 32%nat;
  hw_range : Forall (in_s w) (ireg h);
  hw_zero : ireg h !! 0%nat = Some 0;
  hw_pc : in_u w (pc h) }.

(** Reading and writing a register as the instruction set does: [x0] reads zero
    and ignores writes. *)
Definition get_reg (h : hart) (r : Z) : Z := default 0 (aget (ireg h) r).
Definition put_reg (r v : Z) (h : hart) : hart :=
  if r =? 0 then h else set_ireg (<[Z.to_nat r := v]> (ireg h)) h.

Definition is_reg (r : Z) : Prop := 0 <= r < 32.

Lemma aget_get_reg (w : Z) (h : hart) (r : Z) :
  hart_wf w h -> is_reg r -> aget (ireg h) r = Some (get_reg h r) /\ in_s w (get_reg h r).
Proof.
  intros H Hr. unfold is_reg in Hr.
  destruct (aget_Some (ireg h) r) as [v Hv]; [rewrite (hw_length _ _ H); lia |].
  unfold get_reg. rewrite Hv. split; [reflexivity |]. cbn.
  unfold aget in Hv. destruct (0 <=? r); [|discriminate].
  exact (Forall_lookup_1 _ _ _ _ (hw_range _ _ H) Hv).
Qed.

Lemma get_reg_zero (w : Z) (h : hart) : hart_wf w h -> get_reg h 0 = 0.
Proof. intros H. unfold get_reg. change (aget (ireg h) 0) with (ireg h !! 0%nat). rewrite (hw_zero _ _ H). reflexivity. Qed.

Lemma put_reg_wf (w : Z) (h : hart) (r v : Z) :
  hart_wf w h -> is_reg r -> in_s w v -> hart_wf w (put_reg r v h).
Proof.
  intros H Hr Hv. unfold put_reg. destruct (Z.eqb_spec r 0); [exact H |]. unfold is_reg in Hr.
  split; cbn.
  - rewrite length_insert. apply (hw_length _ _ H).
  - apply Forall_insert; [apply (hw_range _ _ H) | exact Hv].
  - rewrite list_lookup_insert_ne by lia. apply (hw_zero _ _ H).
  - apply (hw_pc _ _ H).
Qed.

Lemma get_put_reg (w : Z) (h : hart) (r v i : Z) :
  hart_wf w h -> is_reg r -> is_reg i ->
  get_reg (put_reg r v h) i = if (i =? r) && negb (r =? 0) then v else get_reg h i.
Proof.
  intros H Hr Hi. unfold is_reg in *. unfold put_reg. destruct (Z.eqb_spec r 0) as [-> | Hr0].
  - rewrite andb_false_r. reflexivity.
  - unfold get_reg at 1. cbn. rewrite aget_set by (rewrite ?(hw_length _ _ H); lia).
    rewrite andb_true_r. destruct (i =? r); reflexivity.
Qed.

(** [proc.ireg[dec.rd] = (dec.rd == 0) ? 0 : e] *)
Lemma assign_spec (w : Z) (dec : decode) (hh : hart) (v : Z) :
  hart_wf w hh -> is_reg (rd dec) ->
  assign w dec hh (Some v) = Some (put_reg (rd dec) (swrap w v) hh).
Proof.
  intros H Hr. unfold assign, put_reg, is_reg in *. pose proof (hw_length _ _ H).
  destruct (Z.eqb_spec (rd dec) 0) as [-> | Hr0]; cbn [mbind option_bind].
  - rewrite aset_Some by lia. cbn [mbind option_bind].
    change (Z.to_nat 0) with 0%nat.
    assert (Hz : swrap w 0 = 0 -> Some (set_ireg (<[0%nat:=swrap w 0]> (ireg hh)) hh) = Some hh).
    { intros ->. rewrite list_insert_id by apply (hw_zero _ _ H). destruct hh; reflexivity. }
    apply Hz. pose proof (Forall_lookup_1 _ _ _ _ (hw_range _ _ H) (hw_zero _ _ H)) as Hi0.
    destruct (Z.le_gt_cases w 0); [|apply swrap_small; [lia | exact Hi0]].
    unfold in_s in Hi0. rewrite (Z.pow_neg_r 2 (w - 1)) in Hi0 by lia. lia.
  - rewrite aset_Some by lia. reflexivity.
Qed.

(** Either the value is undefined, or the register is written. *)
Lemma assign_cases (w : Z) (dec : decode) (hh : hart) (e : option Z) :
  0 < w -> hart_wf w hh -> is_reg (rd dec) ->
  assign w dec hh e = None
  \/ exists v, in_s w v /\ assign w dec hh e = Some (put_reg (rd dec) v hh).
Proof.
  intros Hw H Hr. destruct (Z.eqb_spec (rd dec) 0) as [E0 |].
  - right. exists (swrap w 0). split; [apply swrap_range; lia |].
    rewrite <- (assign_spec w dec hh 0 H Hr). unfold assign. rewrite E0. reflexivity.
  - destruct e as [v|].
    + right. exists (swrap w v). split; [apply swrap_range; lia | apply assign_spec; assumption].
    + left. unfold assign. rewrite (proj2 (Z.eqb_neq _ _)) by assumption. reflexivity.
Qed.

Lemma wr_spec (w : Z) (dec : decode) (h : hart) (off v : Z) :
  hart_wf w h -> is_reg (rd dec) ->
  wr w dec h off (Some v) = Ret (put_reg (rd dec) (swrap w v) h) off.
Proof. intros H Hr. unfold wr. rewrite assign_spec by assumption. reflexivity. Qed.

(** ** The reference semantics *)

(** The second operand is a register or the immediate. *)
Inductive operand2 : Type := Reg | Imm.

(** What RV32I and RV64I write to [rd], for signed operands. *)
Definition isa_i (w : Z) (o : rv_op) : option (operand2 * (Z -> Z -> Z)) :=
  match o with
  | rv_op_addi => Some (Imm, fun a b => swrap w (a + b))
  | rv_op_slti => Some (Imm, fun a b => b2z (a <? b))
  | rv_op_sltiu => Some (Imm, fun a b => b2z (uwrap w a <? uwrap w b))
  | rv_op_xori => Some (Imm, fun a b => swrap w (a .^ b))
  | rv_op_ori => Some (Imm, fun a b => swrap w (a .| b))
  | rv_op_andi => Some (Imm, fun a b => swrap w (a .& b))
  | rv_op_slli => Some (Imm, fun a b => swrap w (a * 2 ^ (b mod w)))
  | rv_op_srli => Some (Imm, fun a b => swrap w (uwrap w a / 2 ^ (b mod w)))
  | rv_op_srai => Some (Imm, fun a b => a / 2 ^ (b mod w))
  | rv_op_add => Some (Reg, fun a b => swrap w (a + b))
  | rv_op_sub => Some (Reg, fun a b => swrap w (a - b))
  | rv_op_sll => Some (Reg, fun a b => swrap w (a * 2 ^ (b mod w)))
  | rv_op_slt => Some (Reg, fun a b => b2z (a <? b))
  | rv_op_sltu => Some (Reg, fun a b => b2z (uwrap w a <? uwrap w b))
  | rv_op_xor => Some (Reg, fun a b => swrap w (a .^ b))
  | rv_op_srl => Some (Reg, fun a b => swrap w (uwrap w a / 2 ^ (b mod w)))
  | rv_op_sra => Some (Reg, fun a b => a / 2 ^ (b mod w))
  | rv_op_or => Some (Reg, fun a b => swrap w (a .| b))
  | rv_op_and => Some (Reg, fun a b => swrap w (a .& b))
  | _ => None
  end.

(** The word forms of RV64I: on the low 32 bits, sign-extended. *)
Definition isa_i64 (o : rv_op) : option (operand2 * (Z -> Z -> Z)) :=
  match o with
  | rv_op_addiw => Some (Imm, fun a b => swrap 32 (a + b))
  | rv_op_slliw => Some (Imm, fun a b => swrap 32 (a * 2 ^ (b mod 32)))
  | rv_op_srliw => Some (Imm, fun a b => swrap 32 (uwrap 32 a / 2 ^ (b mod 32)))
  | rv_op_sraiw => Some (Imm, fun a b => swrap 32 a / 2 ^ (b mod 32))
  | rv_op_addw => Some (Reg, fun a b => swrap 32 (a + b))
  | rv_op_subw => Some (Reg, fun a b => swrap 32 (a - b))
  | rv_op_sllw => Some (Reg, fun a b => swrap 32 (a * 2 ^ (b mod 32)))
  | rv_op_srlw => Some (Reg, fun a b => swrap 32 (uwrap 32 a / 2 ^ (b mod 32)))
  | rv_op_sraw => Some (Reg, fun a b => swrap 32 a / 2 ^ (b mod 32))
  | _ => None
  end.

(** Division by zero gives minus one and the dividend; overflow wraps. *)
Definition isa_div (w a b : Z) : Z := if b =? 0 then -1 else swrap w (Z.quot a b).
Definition isa_rem (a b : Z) : Z := if b =? 0 then a else Z.rem a b.
Definition isa_divu (w a b : Z) : Z := if b =? 0 then -1 else swrap w (a / b).
Definition isa_remu (w a b : Z) : Z := swrap w (if b =? 0 then a else a mod b).

Definition isa_m (w : Z) (o : rv_op) : option (operand2 * (Z -> Z -> Z)) :=
  match o with
  | rv_op_mul => Some (Reg, fun a b => swrap w (a * b))
  | rv_op_mulh => Some (Reg, fun a b => (a * b) / 2 ^ w)
  | rv_op_mulhsu => Some (Reg, fun a b => (a * uwrap w b) / 2 ^ w)
  | rv_op_mulhu => Some (Reg, fun a b => swrap w ((uwrap w a * uwrap w b) / 2 ^ w))
  | rv_op_div => Some (Reg, isa_div w)
  | rv_op_divu => Some (Reg, fun a b => isa_divu w (uwrap w a) (uwrap w b))
  | rv_op_rem => Some (Reg, isa_rem)
  | rv_op_remu => Some (Reg, fun a b => isa_remu w (uwrap w a) (uwrap w b))
  | _ => None
  end.

Definition isa_m64 (o : rv_op) : option (operand2 * (Z -> Z -> Z)) :=
  match o with
  | rv_op_mulw => Some (Reg, fun a b => swrap 32 (a * b))
  | rv_op_divw => Some (Reg, fun a b => isa_div 32 (swrap 32 a) (swrap 32 b))
  | rv_op_divuw => Some (Reg, fun a b => isa_divu 32 (uwrap 32 a) (uwrap 32 b))
  | rv_op_remw => Some (Reg, fun a b => isa_rem (swrap 32 a) (swrap 32 b))
  | rv_op_remuw => Some (Reg, fun a b => isa_remu 32 (uwrap 32 a) (uwrap 32 b))
  | _ => None
  end.

(** The instructions a processor with these flags and width has. *)
Definition isa_alu (fl : flags) (w : Z) (o : rv_op) : option (operand2 * (Z -> Z -> Z)) :=
  match isa_i w o with
  | Some f => if rvi fl then Some f else None
  | None =>
      match (if w =? 64 then isa_i64 o else None) with
      | Some f => if rvi fl then Some f else None
      | None =>
          match isa_m w o with
          | Some f => if rvm fl then Some f else None
          | None =>
              match (if w =? 64 then isa_m64 o else None) with
              | Some f => if rvm fl then Some f else None
              | None => None
              end
          end
      end
  end.

Definition operand2_val (s : operand2) (h : hart) (dec : decode) : Z :=
  match s with Reg => get_reg h (rs2 dec) | Imm => imm dec end.

(** The shift counts the code can handle: an immediate below the width, and,
    for [sll], [srl] and [sra], a register whose low seven bits are below it. *)
Definition shift_ok (w : Z) (o : rv_op) (b : Z) : Prop :=
  match o with
  | rv_op_slli | rv_op_srli | rv_op_srai => 0 <= b < w
  | rv_op_slliw | rv_op_srliw | rv_op_sraiw => 0 <= b < 32
  | rv_op_sll | rv_op_srl | rv_op_sra => b mod 128 < w
  | _ => True
  end.

(** The two functions, by width. *)
Definition exec_inst (exec_fp : decode -> hart -> Z -> io Z) (fl : flags) (w : Z) : decode -> hart -> Z -> io Z :=
  if w =? 32 then exec_inst_rv32 exec_fp fl else exec_inst_rv64 exec_fp fl.

(** ** Values *)

Lemma uwrap_bitop (f : Z -> Z -> Z) (g : bool -> bool -> bool) (w a b : Z) :
  0 <= w -> g false false = false ->
  (forall x y n, Z.testbit (f x y) n = g (Z.testbit x n) (Z.testbit y n)) ->
  f (uwrap w a) (uwrap w b) = uwrap w (f a b).
Proof.
  intros Hw Hg H. apply Z.bits_inj'. intros n Hn. rewrite H, !testbit_uwrap, H by lia.
  destruct (n <? w); [reflexivity | exact Hg].
Qed.

Lemma swrap_lxor (w a b : Z) : 0 <= w -> swrap w (uwrap w a .^ uwrap w b) = swrap w (a .^ b).
Proof. intros. rewrite (uwrap_bitop _ xorb) by (auto using Z.lxor_spec). apply swrap_uwrap. Qed.
Lemma swrap_lor (w a b : Z) : 0 <= w -> swrap w (uwrap w a .| uwrap w b) = swrap w (a .| b).
Proof. intros. rewrite (uwrap_bitop _ orb) by (auto using Z.lor_spec). apply swrap_uwrap. Qed.
Lemma swrap_land (w a b : Z) : 0 <= w -> swrap w (uwrap w a .& uwrap w b) = swrap w (a .& b).
Proof. intros. rewrite (uwrap_bitop _ andb) by (auto using Z.land_spec). apply swrap_uwrap. Qed.

Lemma shl_value (n a c : Z) : 0 <= c < n -> shl n (uwrap n a) c = Some (uwrap n (a * 2 ^ c)).
Proof.
  intros H. unfold shl. rewrite (proj2 (Z.leb_le 0 c)), (proj2 (Z.ltb_lt c n)) by lia. cbn [andb].
  rewrite shiftl_mul by lia. autorewrite with wrap. reflexivity.
Qed.

Lemma shr_value (n a c : Z) : 0 <= c < n -> shr n a c = Some (a / 2 ^ c).
Proof.
  intros H. unfold shr. rewrite (proj2 (Z.leb_le 0 c)), (proj2 (Z.ltb_lt c n)) by lia. cbn [andb].
  rewrite shiftr_div by lia. reflexivity.
Qed.

Lemma in_s_shift (w a c : Z) : 0 < w -> 0 <= c -> in_s w a -> in_s w (a / 2 ^ c).
Proof.
  intros Hw Hc [Ha1 Ha2]. pose proof (pow2_pos c Hc). pose proof (pow2_pos (w - 1) ltac:(lia)). split.
  - apply Z.div_le_lower_bound; nia.
  - apply Z.div_lt_upper_bound; nia.
Qed.

Lemma swrap_add_cong (w a a' b b' : Z) :
  uwrap w a = uwrap w a' -> uwrap w b = uwrap w b' -> swrap w (a + b) = swrap w (a' + b').
Proof.
  intros Ha Hb. apply swrap_uwrap_inj.
  rewrite <- (uwrap_add_l w a), <- (uwrap_add_r w _ b), Ha, Hb. autorewrite with wrap. reflexivity.
Qed.

Lemma swrap_sub_cong (w a a' b b' : Z) :
  uwrap w a = uwrap w a' -> uwrap w b = uwrap w b' -> swrap w (a - b) = swrap w (a' - b').
Proof.
  intros Ha Hb. apply swrap_uwrap_inj.
  rewrite <- (uwrap_sub_l w a), <- (uwrap_sub_r w _ b), Ha, Hb. autorewrite with wrap. reflexivity.
Qed.

Lemma in_s_mono (n w a : Z) : 0 < n <= w -> in_s n a -> in_s w a.
Proof.
  intros H [Ha1 Ha2]. assert (2 ^ (n - 1) <= 2 ^ (w - 1)) by (apply Z.pow_le_mono_r; lia). split; lia.
Qed.

Lemma b2z_in_s (w : Z) (b : bool) : 1 < w -> in_s w (b2z b).
Proof.
  intros H. assert (2 ^ 1 <= 2 ^ (w - 1)) by (apply Z.pow_le_mono_r; lia). change (2 ^ 1) with 2 in *.
  destruct b; cbn; split; lia.
Qed.

(** The seven-bit mask agrees with the modulus where it is defined. *)
Lemma mask7_mod (w b : Z) : w = 32 \/ w = 64 -> b mod 128 < w -> b .& 0x7f = b mod w /\ 0 <= b mod w < w.
Proof.
  intros Hw Hb. split; [|apply Z.mod_pos_bound; lia].
  change 0x7f with (2 ^ 7 - 1). rewrite uwrap_land by lia. unfold uwrap. change (2 ^ 7) with 128.
  destruct Hw as [-> | ->]; dlia.
Qed.

Lemma mask5_mod (b : Z) : b .& 0x1f = b mod 32 /\ 0 <= b mod 32 < 32.
Proof.
  split; [|apply Z.mod_pos_bound; lia]. change 0x1f with (2 ^ 5 - 1). rewrite uwrap_land by lia. reflexivity.
Qed.

Lemma uwrap_eq0 (w b : Z) : 0 < w -> in_s w b -> (uwrap w b =? 0) = (b =? 0).
Proof.
  intros Hw Hb. destruct (Z.eqb_spec b 0) as [-> |]; [unfold uwrap; rewrite Z.mod_0_l; [reflexivity |] |].
  - pose proof (pow2_pos w ltac:(lia)). lia.
  - apply Z.eqb_neq. intros E. apply (f_equal (swrap w)) in E. rewrite swrap_uwrap, swrap_small in E by assumption.
    rewrite swrap_small in E; [lia | lia |]. pose proof (pow2_pos (w - 1) ltac:(lia)). split; lia.
Qed.

(** The high half of a product is in range. *)
Lemma mul_high_range (w a b : Z) : 0 < w -> in_s w a -> in_s w b -> in_s w (a * b / 2 ^ w).
Proof.
  unfold in_s. intros Hw Ha Hb. pose proof (pow2_half w Hw) as Hh. pose proof (pow2_pos (w - 1) ltac:(lia)).
  set (m := 2 ^ (w - 1)) in *. rewrite Hh. split.
  - apply Z.div_le_lower_bound; nia.
  - apply Z.div_lt_upper_bound; nia.
Qed.

Lemma mul_high_mixed_range (w a b : Z) : 0 < w -> in_s w a -> in_u w b -> in_s w (a * b / 2 ^ w).
Proof.
  unfold in_s, in_u. intros Hw Ha Hb. pose proof (pow2_half w Hw) as Hh. pose proof (pow2_pos (w - 1) ltac:(lia)).
  set (m := 2 ^ (w - 1)) in *. rewrite Hh in *. split.
  - apply Z.div_le_lower_bound; nia.
  - apply Z.div_lt_upper_bound; nia.
Qed.

(** The division cases. *)
Lemma div_case_value (w a b : Z) : 1 < w -> in_s w a -> in_s w b ->
  exists v, div_case w a b = Some v /\ v = isa_div w a b /\ in_s w v.
Proof.
  intros Hw Ha Hb. eexists. split; [reflexivity |]. unfold isa_div, limits_min.
  pose proof (pow2_half w ltac:(lia)) as Hh.
  assert (H2 : 2 ^ 1 <= 2 ^ (w - 1)) by (apply Z.pow_le_mono_r; lia). change (2 ^ 1) with 2 in H2.
  assert (Hm1 : in_s w (-1)) by (split; lia).
  assert (Hmin : in_s w (- 2 ^ (w - 1))) by (split; lia).
  destruct (Z.eqb_spec a (- 2 ^ (w - 1))), (Z.eqb_spec b (-1)), (Z.eqb_spec b 0); cbn [andb];
    try lia; try (split; [reflexivity | exact Hm1]).
  1: { split; [|exact Hmin]. subst. rewrite (Z.quot_opp_opp _ 1), Z.quot_1_r by lia.
       rewrite <- (swrap_small w _ ltac:(lia) Hmin). apply swrap_uwrap_inj.
       rewrite <- (uwrap_add_multiple w (- 2 ^ (w - 1)) 1) by lia. f_equal. lia. }
  all: assert (Hq : in_s w (Z.quot a b)) by (apply quot_in_s; assumption || tauto);
    split; [symmetry; apply swrap_small; [lia | exact Hq] | exact Hq].
Qed.

Lemma rem_case_value (w a b : Z) : 1 < w -> in_s w a -> in_s w b ->
  exists v, rem_case w a b = Some v /\ v = isa_rem a b /\ in_s w v.
Proof.
  intros Hw Ha Hb. eexists. split; [reflexivity |]. unfold isa_rem.
  pose proof (pow2_pos (w - 1) ltac:(lia)).
  assert (Hr : b <> 0 -> in_s w (Z.rem a b)).
  { intros Hb0. unfold in_s in *.
    destruct (Z.le_gt_cases 0 a); [pose proof (Z.rem_bound_pos_pos a (Z.abs b)) | pose proof (Z.rem_bound_pos_pos (- a) (Z.abs b))];
    destruct (Z.le_gt_cases 0 b);
    rewrite ?Z.abs_eq, ?Z.abs_neq, ?Z.rem_opp_l, ?Z.rem_opp_r in * by lia; lia. }
  unfold limits_min. destruct (Z.eqb_spec a (- 2 ^ (w - 1))) as [-> |]; cbn [andb].
  - destruct (Z.eqb_spec b (-1)) as [-> |].
    + rewrite (proj2 (Z.eqb_neq (-1) 0)) by lia. rewrite (Z.rem_opp_opp _ 1), Z.rem_1_r by lia. split; [reflexivity | split; lia].
    + destruct (Z.eqb_spec b 0); [split; [reflexivity | exact Ha] | split; [reflexivity | auto]].
  - destruct (Z.eqb_spec b 0); [split; [reflexivity | exact Ha] | split; [reflexivity | auto]].
Qed.

Lemma divu_case_value (w a b : Z) : 1 < w -> in_s w b ->
  exists v, divu_case w a b = Some v /\ v = isa_divu w (uwrap w a) (uwrap w b) /\ in_s w v.
Proof.
  intros Hw Hb. eexists. split; [reflexivity |]. unfold isa_divu. rewrite uwrap_eq0 by (assumption || lia).
  split; [reflexivity |]. pose proof (pow2_pos (w - 1) ltac:(lia)).
  destruct (b =? 0); [split; lia | apply swrap_range; lia].
Qed.

Lemma remu_case_value (w a b : Z) : 1 < w -> in_s w a -> in_s w b ->
  exists v, remu_case w a b = Some v /\ v = isa_remu w (uwrap w a) (uwrap w b) /\ in_s w v.
Proof.
  intros Hw Ha Hb. eexists. split; [reflexivity |]. unfold isa_remu. rewrite uwrap_eq0 by (assumption || lia).
  destruct (b =? 0); [|split; [reflexivity | apply swrap_range; lia]].
  rewrite swrap_uwrap, swrap_small by (assumption || lia). auto.
Qed.

(** ** The computational instructions *)

Section Alu.
  Context (w : Z) (dec : decode) (h : hart) (off : Z).
  Hypothesis Hw : w = 32 \/ w = 64.
  Hypothesis Hh : hart_wf w h.
  Hypothesis Hrd : is_reg (rd dec).
  Hypothesis H1 : is_reg (rs1 dec).
  Hypothesis H2 : is_reg (rs2 dec).

Let a := get_reg h (rs1 dec).
Let b := get_reg h (rs2 dec).

Lemma a_range : in_s w a. Proof using Hh H1. apply (aget_get_reg w h); assumption. Qed.
Lemma b_range : in_s w b. Proof using Hh H2. apply (aget_get_reg w h); assumption. Qed.

(** Reading the operands. *)
Lemma rr_views (f1 f2 : Z -> Z) (f : Z -> Z -> option Z) :
  rr dec (fun r => f1 <$> x h r) (fun r => f2 <$> x h r) f = f (f1 a) (f2 b).
Proof using Hh H1 H2.
  unfold rr, x. rewrite (proj1 (aget_get_reg w h _ Hh H1)), (proj1 (aget_get_reg w h _ Hh H2)). reflexivity.
Qed.

Lemma ri_view (f1 : Z -> Z) (f : Z -> Z -> option Z) :
  ri dec (fun r => f1 <$> x h r) f = f (f1 a) (imm dec).
Proof using Hh H1. unfold ri, x. rewrite (proj1 (aget_get_reg w h _ Hh H1)). reflexivity. Qed.

Lemma rr_xx (f : Z -> Z -> option Z) : rr dec (x h) (x h) f = f a b.
Proof using Hh H1 H2.
  unfold rr, x. rewrite (proj1 (aget_get_reg w h _ Hh H1)), (proj1 (aget_get_reg w h _ Hh H2)). reflexivity.
Qed.
Lemma rr_vx (f1 : Z -> Z) (f : Z -> Z -> option Z) : rr dec (fun r => f1 <$> x h r) (x h) f = f (f1 a) b.
Proof using Hh H1 H2.
  unfold rr, x. rewrite (proj1 (aget_get_reg w h _ Hh H1)), (proj1 (aget_get_reg w h _ Hh H2)). reflexivity.
Qed.
Lemma rr_xv (f2 : Z -> Z) (f : Z -> Z -> option Z) : rr dec (x h) (fun r => f2 <$> x h r) f = f a (f2 b).
Proof using Hh H1 H2.
  unfold rr, x. rewrite (proj1 (aget_get_reg w h _ Hh H1)), (proj1 (aget_get_reg w h _ Hh H2)). reflexivity.
Qed.
Lemma ri_x (f : Z -> Z -> option Z) : ri dec (x h) f = f a (imm dec).
Proof using Hh H1. unfold ri, x. rewrite (proj1 (aget_get_reg w h _ Hh H1)). reflexivity. Qed.

(** One case: the value the code writes is [v]. *)
Lemma wr_value (e : option Z) (u v : Z) :
  e = Some u -> swrap w u = v ->
  Some (wr w dec h off e) = Some (Ret (put_reg (rd dec) v h) off).
Proof using Hh Hrd. intros -> <-. f_equal. apply wr_spec; assumption. Qed.

Ltac views :=
  rewrite ?(rr_views (uwrap _) (uwrap _)), ?(rr_views (swrap _) (swrap _)), ?(rr_vx (uwrap _)),
    ?(rr_vx (swrap _)), ?(rr_xv (uwrap _)), ?rr_xx, ?(ri_view (uwrap _)), ?(ri_view (swrap _)), ?ri_x.

Ltac small := apply swrap_small; [lia |].

Lemma exec_i_alu (s : operand2) (f : Z -> Z -> Z) :
  isa_i w (op dec) = Some (s, f) -> shift_ok w (op dec) (operand2_val s h dec) ->
  exec_i w dec h off = Some (Ret (put_reg (rd dec) (f a (operand2_val s h dec)) h) off).
Proof using Hw Hh Hrd H1 H2.
  pose proof a_range as Ha. pose proof b_range as Hb. intros Ei Hs. unfold exec_i.
  destruct (op dec); try discriminate Ei; injection Ei as <- <-; cbn [operand2_val shift_ok] in *;
    fold b in Hs |- *; unfold xu; views;
    try (destruct (mask7_mod w b Hw Hs) as [-> Hc]);
    cbv beta; rewrite ?(Z.mod_small (imm dec) w) by lia;
    (eapply wr_value; [rewrite ?shl_value, ?shr_value by lia; reflexivity |]);
    rewrite ?swrap_uwrap, ?swrap_lxor, ?swrap_lor, ?swrap_land by lia; try reflexivity;
    try (small; apply b2z_in_s; lia);
    small; apply in_s_shift; lia || assumption.
Qed.

Lemma exec_i64_alu (s : operand2) (f : Z -> Z -> Z) :
  w = 64 -> isa_i64 (op dec) = Some (s, f) -> shift_ok w (op dec) (operand2_val s h dec) ->
  exec_i64 w dec h off = Some (Ret (put_reg (rd dec) (f a (operand2_val s h dec)) h) off).
Proof using Hh Hrd H1 H2.
  intros Ew Ei Hs. unfold exec_i64. destruct (mask5_mod b) as [E5 Hc].
  assert (H32 : forall v, swrap w (swrap 32 v) = swrap 32 v).
  { intros v. small. apply (in_s_mono 32); [lia | apply swrap_range; lia]. }
  assert (Hsr : forall v c, 0 <= c -> swrap w (swrap 32 v / 2 ^ c) = swrap 32 v / 2 ^ c).
  { intros v c Hc0. small. apply (in_s_mono 32); [lia |]. apply in_s_shift; [lia | lia | apply swrap_range; lia]. }
  destruct (op dec); try discriminate Ei; injection Ei as <- <-; cbn [operand2_val shift_ok] in *;
    fold b in Hs |- *; unfold wv, wu; views; cbv beta; rewrite ?E5, ?(Z.mod_small (imm dec) 32) by lia;
    (eapply wr_value; [rewrite ?shl_value, ?shr_value by lia; reflexivity |]);
    rewrite ?swrap_uwrap, ?H32, ?Hsr by lia; try reflexivity.
  1, 2: apply swrap_add_cong; auto using uwrap_swrap.
  1: apply swrap_sub_cong; auto using uwrap_swrap.
  small. apply in_s_shift; [lia | lia | apply swrap_range; lia].
Qed.

Lemma exec_m_alu (s : operand2) (f : Z -> Z -> Z) :
  isa_m w (op dec) = Some (s, f) ->
  exec_m w dec h off = Some (Ret (put_reg (rd dec) (f a (operand2_val s h dec)) h) off).
Proof using Hw Hh Hrd H1 H2.
  pose proof a_range as Ha. pose proof b_range as Hb. intros Ei. unfold exec_m.
  assert (Hq : w = 2 * (w / 2) /\ 0 < w / 2) by (destruct Hw as [-> | ->]; split; reflexivity).
  destruct Hq as [Hq Hq0]. pose proof (uwrap_range w a ltac:(lia)) as Hua.
  pose proof (uwrap_range w b ltac:(lia)) as Hub.
  destruct (op dec); try discriminate Ei; injection Ei as <- <-; cbn [operand2_val];
    fold b; unfold xu; views; cbv beta.
  - eapply wr_value; reflexivity.
  - rewrite (mulh_value w (w / 2)) by assumption. eapply wr_value; [reflexivity |]. small.
    apply mul_high_range; assumption || lia.
  - rewrite (mulhsu_value w (w / 2)) by assumption. eapply wr_value; [reflexivity |]. small.
    apply mul_high_mixed_range; assumption || lia.
  - rewrite (mulhu_value w (w / 2)) by assumption. eapply wr_value; reflexivity.
  - destruct (div_case_value w a b) as (v & -> & -> & Ev); [lia | assumption | assumption |].
    eapply wr_value; [reflexivity | small; exact Ev].
  - destruct (divu_case_value w a b) as (v & -> & -> & Ev); [lia | assumption |].
    eapply wr_value; [reflexivity | small; exact Ev].
  - destruct (rem_case_value w a b) as (v & -> & -> & Ev); [lia | assumption | assumption |].
    eapply wr_value; [reflexivity | small; exact Ev].
  - destruct (remu_case_value w a b) as (v & -> & -> & Ev); [lia | assumption | assumption |].
    eapply wr_value; [reflexivity | small; exact Ev].
Qed.

Lemma exec_m64_alu (s : operand2) (f : Z -> Z -> Z) :
  w = 64 -> isa_m64 (op dec) = Some (s, f) ->
  exec_m64 w dec h off = Some (Ret (put_reg (rd dec) (f a (operand2_val s h dec)) h) off).
Proof using Hh Hrd H1 H2.
  intros Ew Ei. unfold exec_m64.
  pose proof (swrap_range 32 a ltac:(lia)) as Ha. pose proof (swrap_range 32 b ltac:(lia)) as Hb.
  assert (H32 : forall v, in_s 32 v -> swrap w v = v).
  { intros v Hv. small. apply (in_s_mono 32); [lia | exact Hv]. }
  destruct (op dec); try discriminate Ei; injection Ei as <- <-; cbn [operand2_val];
    fold b; unfold wv, wu; views; cbv beta.
  - eapply wr_value; [reflexivity |]. rewrite H32 by (apply swrap_range; lia).
    rewrite swrap_uwrap. apply swrap_uwrap_inj. autorewrite with wrap. reflexivity.
  - destruct (div_case_value 32 (swrap 32 a) (swrap 32 b)) as (v & -> & -> & Ev); [lia | assumption | assumption |].
    eapply wr_value; [reflexivity | apply H32, Ev].
  - destruct (divu_case_value 32 (swrap 32 a) (swrap 32 b)) as (v & -> & -> & Ev); [lia | assumption |].
    eapply wr_value; [reflexivity |]. rewrite !uwrap_swrap in *. apply H32, Ev.
  - destruct (rem_case_value 32 (swrap 32 a) (swrap 32 b)) as (v & -> & -> & Ev); [lia | assumption | assumption |].
    eapply wr_value; [reflexivity | apply H32, Ev].
  - destruct (remu_case_value 32 (swrap 32 a) (swrap 32 b)) as (v & -> & -> & Ev); [lia | assumption | assumption |].
    eapply wr_value; [reflexivity |]. rewrite !uwrap_swrap in *. apply H32, Ev.
Qed.
End Alu.

(** Which group an opcode is in. *)
Lemma exec_i_other (w : Z) (dec : decode) (h : hart) (off : Z) :
  isa_i64 (op dec) <> None \/ isa_m w (op dec) <> None \/ isa_m64 (op dec) <> None ->
  exec_i w dec h off = None.
Proof. unfold exec_i. destruct (op dec); cbn; solve [reflexivity | intros [H | [H | H]]; congruence]. Qed.

Lemma exec_i64_other (w : Z) (dec : decode) (h : hart) (off : Z) :
  isa_m w (op dec) <> None \/ isa_m64 (op dec) <> None -> exec_i64 w dec h off = None.
Proof. unfold exec_i64. destruct (op dec); cbn; solve [reflexivity | intros [H | H]; congruence]. Qed.

Lemma exec_m_other (w : Z) (dec : decode) (h : hart) (off : Z) :
  isa_m64 (op dec) <> None -> exec_m w dec h off = None.
Proof. unfold exec_m. destruct (op dec); cbn; solve [reflexivity | congruence]. Qed.

Lemma exec_alu (exec_fp : decode -> hart -> Z -> io Z) (fl : flags) (w : Z) (dec : decode) (h : hart)
    (off : Z) (s : operand2) (f : Z -> Z -> Z) :
  w = 32 \/ w = 64 -> hart_wf w h -> is_reg (rd dec) -> is_reg (rs1 dec) -> is_reg (rs2 dec) ->
  isa_alu fl w (op dec) = Some (s, f) -> shift_ok w (op dec) (operand2_val s h dec) ->
  exec_inst exec_fp fl w dec h off
  = Ret (put_reg (rd dec) (f (get_reg h (rs1 dec)) (operand2_val s h dec)) h) off.
Proof.
  intros Hw Hh Hrd H1 H2 Ef Hs. unfold isa_alu in Ef.
  destruct (isa_i w (op dec)) as [[s1 f1]|] eqn:E1.
  { destruct (rvi fl) eqn:Efl; [injection Ef as -> -> | discriminate].
    pose proof (exec_i_alu w dec h off Hw Hh Hrd H1 H2 _ _ E1 Hs) as E.
    unfold exec_inst, exec_inst_rv32, exec_inst_rv64, guarded. rewrite Efl.
    destruct Hw as [-> | ->]; cbn [Z.eqb Pos.eqb]; rewrite E; reflexivity. }
  destruct (if w =? 64 then isa_i64 (op dec) else None) as [[s2 f2]|] eqn:E2.
  { destruct (Z.eqb_spec w 64) as [-> |]; [|discriminate].
    destruct (rvi fl) eqn:Efl; [injection Ef as -> -> | discriminate].
    unfold exec_inst, exec_inst_rv64, guarded. cbn [Z.eqb Pos.eqb]. rewrite Efl.
    rewrite exec_i_other by (left; congruence).
    rewrite (exec_i64_alu 64 dec h off Hh Hrd H1 H2 _ _ eq_refl E2 Hs). reflexivity. }
  destruct (isa_m w (op dec)) as [[s3 f3]|] eqn:E3.
  { destruct (rvm fl) eqn:Efl; [injection Ef as -> -> | discriminate].
    pose proof (exec_m_alu w dec h off Hw Hh Hrd H1 H2 _ _ E3) as E.
    unfold exec_inst, exec_inst_rv32, exec_inst_rv64, guarded. rewrite Efl.
    destruct Hw as [-> | ->]; cbn [Z.eqb Pos.eqb]; rewrite exec_i_other by (right; left; congruence).
    - rewrite E. reflexivity.
    - rewrite exec_i64_other by (left; congruence). rewrite E. reflexivity. }
  destruct (Z.eqb_spec w 64) as [-> |]; [|discriminate].
  destruct (isa_m64 (op dec)) as [[s4 f4]|] eqn:E4; [|discriminate].
  destruct (rvm fl) eqn:Efl; [injection Ef as -> -> | discriminate].
  unfold exec_inst, exec_inst_rv64, guarded. cbn [Z.eqb Pos.eqb]. rewrite Efl.
  rewrite exec_i_other, exec_i64_other, exec_m_other by (tauto || congruence || (right; congruence) || (right; right; congruence)).
  rewrite (exec_m64_alu 64 dec h off Hh Hrd H1 H2 _ _ eq_refl E4). reflexivity.
Qed.

(** Shift counts out of range. *)
Lemma shl_out (n a c : Z) : ~ 0 <= c < n -> shl n a c = None.
Proof. intros Hc. unfold shl. destruct (Z.leb_spec 0 c), (Z.ltb_spec c n); try reflexivity. lia. Qed.
Lemma shr_out (n a c : Z) : ~ 0 <= c < n -> shr n a c = None.
Proof. intros Hc. unfold shr. destruct (Z.leb_spec 0 c), (Z.ltb_spec c n); try reflexivity. lia. Qed.
Lemma mask7_out (w b : Z) : ~ b mod 128 < w -> ~ 0 <= b .& 0x7f < w.
Proof. intros H. change 0x7f with (2 ^ 7 - 1). rewrite uwrap_land by lia. change (uwrap 7 b) with (b mod 128). lia. Qed.

Lemma exec_shift_undefined (exec_fp : decode -> hart -> Z -> io Z) (fl : flags) (w : Z) (dec : decode) (h : hart)
    (off : Z) (s : operand2) (f : Z -> Z -> Z) :
  w = 32 \/ w = 64 -> hart_wf w h -> is_reg (rd dec) -> is_reg (rs1 dec) -> is_reg (rs2 dec) ->
  isa_alu fl w (op dec) = Some (s, f) -> ~ shift_ok w (op dec) (operand2_val s h dec) ->
  exec_inst exec_fp fl w dec h off = if rd dec =? 0 then Ret h off else Undef.
Proof.
  intros Hw Hh Hrd H1 H2 Ef Hs.
  assert (E1 : aget (ireg h) (rs1 dec) = Some (get_reg h (rs1 dec))) by (apply (aget_get_reg w); assumption).
  assert (E2 : aget (ireg h) (rs2 dec) = Some (get_reg h (rs2 dec))) by (apply (aget_get_reg w); assumption).
  assert (Hf : rvi fl = true).
  { unfold isa_alu in Ef. destruct (op dec); try (exfalso; apply Hs; exact I); destruct Hw as [-> | ->]; cbn in Ef;
      try discriminate Ef; destruct (rvi fl); solve [reflexivity | discriminate Ef]. }
  assert (E0 : wr w dec h off None = if rd dec =? 0 then Ret h off else Undef).
  { pose proof (wr_spec w dec h off 0 Hh Hrd) as E. unfold wr, assign, put_reg in *.
    destruct (rd dec =? 0); [exact E | reflexivity]. }
  unfold exec_inst, exec_inst_rv32, exec_inst_rv64, guarded. rewrite Hf.
  unfold isa_alu in Ef.
  destruct (op dec) eqn:Eo; try (exfalso; apply Hs; exact I); cbn [shift_ok] in Hs;
    destruct Hw as [-> | ->]; cbn in Ef; rewrite ?Hf in Ef; try discriminate Ef; injection Ef as <- <-; cbn [operand2_val] in Hs;
    cbn [Z.eqb Pos.eqb]; unfold exec_i, exec_i64; rewrite Eo;
    unfold rr, ri, xu, wu, wv, x; rewrite ?E1, ?E2; cbn [fmap option_fmap option_map mbind option_bind];
    rewrite ?shl_out, ?shr_out by first [exact Hs | apply mask7_out; exact Hs]; exact E0.
Qed.

(** C10: every integer computational instruction of RV32IM and RV64IM (register
    and immediate forms, word forms, multiplication and division with their zero
    and overflow cases) writes to [rd] the value of the reference semantics and
    changes nothing else, [x0] staying zero; but for a shift whose count the code
    does not reduce to the width.  These are the shifts by a register ([sll], [srl],
    [sra]) whose low seven bits are not below the width, where the instruction set
    takes the low five or six, and counts in the instruction that the width does not
    have: there the host's shift is undefined, unless [rd] is [x0], when nothing is
    computed and nothing changes. *)
Theorem alu_correct (exec_fp : decode -> hart -> Z -> io Z) (fl : flags) (w : Z) (dec : decode) (h : hart)
    (off : Z) (s : operand2) (f : Z -> Z -> Z) :
  w = 32 \/ w = 64 -> hart_wf w h -> is_reg (rd dec) -> is_reg (rs1 dec) -> is_reg (rs2 dec) ->
  isa_alu fl w (op dec) = Some (s, f) ->
  (shift_ok w (op dec) (operand2_val s h dec) ->
   exec_inst exec_fp fl w dec h off
   = Ret (put_reg (rd dec) (f (get_reg h (rs1 dec)) (operand2_val s h dec)) h) off)
  /\ (~ shift_ok w (op dec) (operand2_val s h dec) ->
      exec_inst exec_fp fl w dec h off = if rd dec =? 0 then Ret h off else Undef).
Proof.
  intros Hw Hh Hrd H1 H2 Ef.
  split; intros Hs; [eapply exec_alu | eapply exec_shift_undefined]; eassumption.
Qed.

(** A hart to evaluate on. *)
Definition hart_ex (l : list (Z * Z)) : hart :=
  foldr (fun e h => put_reg (fst e) (snd e) h) (set_pc 0x1000 hart_init) l.

Lemma hart_ex_wf (w : Z) (l : list (Z * Z)) :
  w = 32 \/ w = 64 -> Forall (fun e => is_reg (fst e) /\ in_s w (snd e)) l -> hart_wf w (hart_ex l).
Proof.
  intros Hw. induction 1 as [|e l [H1 H2] _ IH].
  - assert (H : 4096 < 2 ^ (w - 1)) by (destruct Hw as [-> | ->]; reflexivity).
    split; [reflexivity | apply Forall_replicate; unfold in_s; lia | reflexivity |].
    unfold in_u. cbn [pc hart_ex foldr set_pc]. rewrite (pow2_half w) by lia. lia.
  - apply put_reg_wf; assumption.
Qed.

(** Discharge [hart_ex_wf]'s hypothesis on a concrete list. *)
Ltac hart_ex_tac :=
  apply hart_ex_wf; [lia |];
  repeat apply Forall_cons_2; try apply Forall_nil_2; cbn [fst snd]; unfold is_reg, in_s; lia.

Lemma alu_correct_witness :
  let h := hart_ex [(5, -7); (6, 2)] in
  let dec := mkDecode 0 7 5 6 0 rv_op_divw rv_codec_r 0 0 0 0 0 in
  exec_inst (fun _ _ _ => Undef) RV_IMA 64 dec h 4 = Ret (put_reg 7 (-3) h) 4.
Proof.
  cbv zeta. refine (proj1 (alu_correct (fun _ _ _ => Undef) RV_IMA 64 (mkDecode 0 7 5 6 0 rv_op_divw rv_codec_r 0 0 0 0 0)
    (hart_ex [(5, -7); (6, 2)]) 4 Reg (fun a b => isa_div 32 (swrap 32 a) (swrap 32 b)) _ _ _ _ _ _) _).
  - right; reflexivity.
  - hart_ex_tac.
  - unfold is_reg; cbn; lia.
  - unfold is_reg; cbn; lia.
  - unfold is_reg; cbn; lia.
  - reflexivity.
  - exact I.
Defined.

(** The seven-bit mask admits counts the shift is not defined for: where the
    instruction set uses the low five (six) bits of the count, [sll] by 64 on
    RV64 is an undefined shift. *)
Lemma sll_undefined :
  exec_inst (fun _ _ _ => Undef) RV_I 64 (mkDecode 0 7 5 6 0 rv_op_sll rv_codec_r 0 0 0 0 0)
    (hart_ex [(5, 1); (6, 64)]) 4 = Undef
  /\ exec_inst (fun _ _ _ => Undef) RV_I 32 (mkDecode 0 7 5 6 0 rv_op_sra rv_codec_r 0 0 0 0 0)
       (hart_ex [(5, 1); (6, 33)]) 4 = Undef.
Proof. split; vm_compute; reflexivity. Qed.

(** ** Control transfer *)

Definition next_pc (w : Z) (h : hart) (off : Z) : Z := uwrap w (pc h + off).

(** The value written to [rd], if any, and the next program counter, from the
    operands, the program counter and the address of the next instruction. *)
Definition isa_control (w : Z) (o : rv_op) (a b i pc next : Z) : option (option Z * Z) :=
  let cond c := Some (None, if c : bool then uwrap w (pc + i) else next) in
  match o with
  | rv_op_lui => Some (Some i, next)
  | rv_op_auipc => Some (Some (swrap w (pc + i)), next)
  | rv_op_jal => Some (Some (swrap w next), uwrap w (pc + i))
  | rv_op_jalr => Some (Some (swrap w next), uwrap w (2 * ((a + i) / 2)))
  | rv_op_beq => cond (a =? b)
  | rv_op_bne => cond (negb (a =? b))
  | rv_op_blt => cond (a <? b)
  | rv_op_bge => cond (b <=? a)
  | rv_op_bltu => cond (uwrap w a <? uwrap w b)
  | rv_op_bgeu => cond (uwrap w b <=? uwrap w a)
  | _ => None
  end.

Lemma land_clear0 (w y : Z) : 1 < w -> in_u w y -> y .& uwrap w (-2) = 2 * (y / 2).
Proof.
  intros Hw Hy. rewrite <- (Z.div2_div y). replace (2 * Z.div2 y) with (Z.ldiff y 1).
  - apply Z.bits_inj'. intros n Hn. rewrite Z.land_spec, Z.ldiff_spec, testbit_uwrap by lia.
    change (-2) with (Z.lnot 1). rewrite Z.lnot_spec by lia.
    destruct (Z.ltb_spec n w); cbn [andb]; [reflexivity |].
    rewrite (testbit_high w y n Hy) by lia. reflexivity.
  - change 1 with (Z.ones 1). rewrite Z.ldiff_ones_r, Z.shiftl_mul_pow2 by lia.
    rewrite <- Z.div2_spec. change (2 ^ 1) with 2. lia.
Qed.

(** The offset [jalr] computes leads to the target with bit 0 cleared. *)
Lemma jalr_target (w p t : Z) :
  1 < w -> p mod 2 = 0 -> uwrap w (p + ((t -[w] p) .& uwrap w (-2))) = uwrap w (2 * (t / 2)).
Proof.
  intros Hw Hp. rewrite land_clear0 by (assumption || (apply uwrap_range; lia)).
  set (y := t -[w] p).
  assert (Hy : exists k, t - p = y + 2 * (k * 2 ^ (w - 1))).
  { exists ((t - p) / 2 ^ w). unfold y, uwrap. pose proof (pow2_half w ltac:(lia)).
    pose proof (Z.div_mod (t - p) (2 ^ w) ltac:(pose proof (pow2_pos w); lia)). nia. }
  destruct Hy as [k Hk]. pose proof (pow2_half w ltac:(lia)) as H2.
  rewrite <- (uwrap_add_multiple w _ k) by lia. f_equal. rewrite H2.
  set (m := k * 2 ^ (w - 1)) in *. replace (k * (2 * 2 ^ (w - 1))) with (2 * m) by (unfold m; lia).
  clearbody y m. clear -Hk Hp. dlia.
Qed.

Lemma exec_control (exec_fp : decode -> hart -> Z -> io Z) (fl : flags) (w : Z) (dec : decode) (h : hart)
    (off target : Z) (link : option Z) :
  w = 32 \/ w = 64 -> hart_wf w h -> is_reg (rd dec) -> is_reg (rs1 dec) -> is_reg (rs2 dec) ->
  in_s w (imm dec) -> pc h mod 2 = 0 -> rvi fl = true ->
  isa_control w (op dec) (get_reg h (rs1 dec)) (get_reg h (rs2 dec)) (imm dec) (pc h) (next_pc w h off)
  = Some (link, target) ->
  exists off', exec_inst exec_fp fl w dec h off
               = Ret (match link with Some v => put_reg (rd dec) v h | None => h end) off'
    /\ next_pc w h off' = target.
Proof.
  intros Hw Hh Hrd H1 H2 Hi Hpc Hf E.
  destruct (aget_get_reg w h _ Hh H1) as [E1 Ha]. destruct (aget_get_reg w h _ Hh H2) as [E2 Hb2].
  assert (Hex : exists off', exec_i w dec h off
               = Some (Ret (match link with Some v => put_reg (rd dec) v h | None => h end) off')
               /\ next_pc w h off' = target).
  { unfold exec_i. destruct (op dec); try discriminate E; injection E as <- <-;
      unfold branch, xu, x, wr, finish; rewrite ?E1, ?E2; cbn [fmap option_fmap option_map];
      rewrite ?(assign_spec w) by assumption;
      rewrite ?(swrap_small w (imm dec)) by (assumption || lia);
      unfold next_pc; rewrite ?swrap_uwrap;
      (eexists; split; [reflexivity |]);
      rewrite ?Z.geb_leb; try (match goal with |- context [if ?c then _ else _] => destruct c end);
      autorewrite with wrap; try reflexivity.
    apply jalr_target; [lia | assumption]. }
  destruct Hex as (off' & Ex & Et). exists off'. split; [|exact Et].
  unfold exec_inst, exec_inst_rv32, exec_inst_rv64, guarded. rewrite Hf.
  destruct Hw as [-> | ->]; cbn [Z.eqb Pos.eqb]; rewrite Ex; reflexivity.
Qed.

(** C16: control transfer.  [lui], [auipc], [jal], [jalr] and the branches write
    the link (or constant) of the instruction set to [rd] and the offset they
    return takes the program counter to its target: [jalr] to [rs1 + imm] with
    bit 0 cleared, read before [rd] is written; a branch to [pc + imm] exactly
    when its condition holds and to the next instruction otherwise. *)
Theorem control_correct (exec_fp : decode -> hart -> Z -> io Z) (fl : flags) (w : Z) (dec : decode) (h : hart)
    (off target : Z) (link : option Z) :
  w = 32 \/ w = 64 -> hart_wf w h -> is_reg (rd dec) -> is_reg (rs1 dec) -> is_reg (rs2 dec) ->
  in_s w (imm dec) -> pc h mod 2 = 0 -> rvi fl = true ->
  isa_control w (op dec) (get_reg h (rs1 dec)) (get_reg h (rs2 dec)) (imm dec) (pc h) (next_pc w h off)
  = Some (link, target) ->
  exists off', exec_inst exec_fp fl w dec h off
               = Ret (match link with Some v => put_reg (rd dec) v h | None => h end) off'
    /\ next_pc w h off' = target.
Proof. apply exec_control. Qed.

Lemma control_correct_witness :
  let h := hart_ex [(5, 0x2003)] in
  let dec := mkDecode (-16) 5 5 0 0 rv_op_jalr rv_codec_i 0 0 0 0 0 in
  exists off', exec_inst (fun _ _ _ => Undef) RV_I 64 dec h 4 = Ret (put_reg 5 0x1004 h) off'
    /\ next_pc 64 h off' = 0x1ff2.
Proof.
  cbv zeta. apply (control_correct (fun _ _ _ => Undef) RV_I 64 (mkDecode (-16) 5 5 0 0 rv_op_jalr rv_codec_i 0 0 0 0 0)
    (hart_ex [(5, 0x2003)]) 4 0x1ff2 (Some 0x1004)).
  - right; reflexivity.
  - hart_ex_tac.
  - unfold is_reg; cbn; lia.
  - unfold is_reg; cbn; lia.
  - unfold is_reg; cbn; lia.
  - cbn; unfold in_s; lia.
  - reflexivity.
  - reflexivity.
  - reflexivity.
Defined.

(** ** What an instruction may do *)

(** [every R Q p]: every request of [p] satisfies [R], and every way [p] returns
    satisfies [Q], whatever the MMU answers (a value of the size asked for). *)
Fixpoint every {A} (R : hart -> Z -> Z -> Prop) (Q : hart -> A -> Prop) (p : io A) : Prop :=
  match p with
  | Ret h a => Q h a
  | Load h sz va k => R h sz va /\ forall v, in_u (8 * sz) v -> every R Q (k v)
  | Store h sz va _ k => R h sz va /\ every R Q k
  | Amo h _ sz va _ k => R h sz va /\ forall v, in_u (8 * sz) v -> every R Q (k v)
  | Undef => True
  end.

(** The harts an instruction with destination [r] may leave. *)
Record frame (w r : Z) (h h' : hart) : Prop := {
  fr_wf : hart_wf w h';
  fr_pc : pc h' = pc h;
  fr_freg : freg h' = freg h;
  fr_fcsr : fcsr h' = fcsr h;
  fr_time : time h' = time h;
  fr_regs : forall i, is_reg i -> i <> r -> get_reg h' i = get_reg h i }.

Lemma frame_refl (w r : Z) (h : hart) : hart_wf w h -> frame w r h h.
Proof. intros H. split; auto. Qed.

Lemma frame_put (w r v : Z) (h : hart) : hart_wf w h -> is_reg r -> in_s w v -> frame w r h (put_reg r v h).
Proof.
  intros H Hr Hv. split; try (unfold put_reg; destruct (r =? 0); reflexivity).
  - apply put_reg_wf; assumption.
  - intros i Hi Hne. rewrite (get_put_reg w) by assumption. rewrite (proj2 (Z.eqb_neq i r) Hne). reflexivity.
Qed.

Lemma frame_lr (w r a : Z) (h h' : hart) : frame w r (set_lr a h) h' -> frame w r h h'.
Proof. intros [H1 H2 H3 H4 H5 H6]. split; assumption. Qed.

(** Branch and jump immediates are even. *)
Definition transfer_aligned (dec : decode) : Prop :=
  match op dec with
  | rv_op_jal | rv_op_beq | rv_op_bne | rv_op_blt | rv_op_bge | rv_op_bltu | rv_op_bgeu =>
      imm dec mod 2 = 0
  | _ => True
  end.

(** An offset that is not the sentinel. *)
Definition offset_ok (w off : Z) : Prop := in_u w off /\ off <> uwrap w (-1).

Lemma even_offset_ok (w y : Z) : 1 < w -> in_u w y -> y mod 2 = 0 -> offset_ok w y.
Proof.
  intros Hw Hy He. split; [exact Hy |]. intros E.
  rewrite <- (uwrap_add_multiple w (-1) 1), uwrap_small in E by (unfold in_u; pose proof (pow2_pos w ltac:(lia)); lia).
  rewrite (pow2_half w) in E by lia. subst y. clear -He.
  replace (-1 + 1 * (2 * 2 ^ (w - 1))) with (1 + (2 ^ (w - 1) - 1) * 2) in He by lia.
  rewrite Z_mod_plus_full in He. discriminate.
Qed.

Lemma uwrap_even (w y : Z) : 0 < w -> y mod 2 = 0 -> uwrap w y mod 2 = 0.
Proof.
  intros Hw He. unfold uwrap. rewrite Z.mod_mod_divide; [exact He |].
  exists (2 ^ (w - 1)). rewrite (pow2_half w) by lia. lia.
Qed.

Section Frame.
  Context (w : Z) (dec : decode) (h : hart) (off : Z).
  Hypothesis Hw : w = 32 \/ w = 64.
  Hypothesis Hh : hart_wf w h.
  Hypothesis Hrd : is_reg (rd dec).
  Hypothesis Hoff : offset_ok w off.
  Hypothesis Himm : transfer_aligned dec.

Definition request_ok (h0 : hart) (sz va : Z) : Prop := access_size sz /\ in_u w va /\ pc h0 = pc h.
Definition result_ok (h' : hart) (off' : Z) : Prop := frame w (rd dec) h h' /\ offset_ok w off'.

Abbreviation ok := (every request_ok result_ok).

Lemma finish_ok (hh : hart) (e : option Z) (o : Z) :
  (forall h', frame w (rd dec) hh h' -> frame w (rd dec) h h') -> hart_wf w hh -> offset_ok w o ->
  ok (finish (assign w dec hh e) o).
Proof using Hw Hrd.
  intros Hf Hhh Ho.
  destruct (assign_cases w dec hh e ltac:(lia) Hhh Hrd) as [-> | (v & Hv & ->)]; [exact I |].
  split; [|exact Ho]. apply Hf, frame_put; assumption.
Qed.

Lemma wr_ok (e : option Z) : ok (wr w dec h off e).
Proof using Hw Hh Hrd Hoff. apply finish_ok; auto. Qed.

Lemma ret_ok : ok (Ret h off).
Proof using Hh Hoff. split; [apply frame_refl, Hh | exact Hoff]. Qed.

Lemma imm_offset : imm dec mod 2 = 0 -> offset_ok w (uwrap w (imm dec)).
Proof using Hw. intros H. apply even_offset_ok; [lia | apply uwrap_range; lia | apply uwrap_even; lia]. Qed.

Lemma branch_ok (v : Z -> option Z) (c : Z -> Z -> bool) :
  imm dec mod 2 = 0 -> ok (branch w dec h off v c).
Proof using Hw Hh Hoff.
  intros Hi. unfold branch. destruct (v (rs1 dec)); [|exact I]. destruct (v (rs2 dec)); [|exact I].
  split; [apply frame_refl, Hh |]. destruct (c _ _); [apply imm_offset, Hi | exact Hoff].
Qed.

Lemma load_ok (sz : Z) (conv : Z -> Z) : access_size sz -> ok (load_case w dec h off sz conv).
Proof using Hw Hh Hrd Hoff.
  intros Hsz. unfold load_case. destruct (x h (rs1 dec)); [|exact I].
  split; [split; [exact Hsz | split; [apply uwrap_range; lia | reflexivity]] |]. intros v _. apply wr_ok.
Qed.

Lemma store_ok (sz : Z) : access_size sz -> ok (store_case w dec h off sz).
Proof using Hw Hh Hoff.
  intros Hsz. unfold store_case. destruct (x h (rs1 dec)); [|exact I]. destruct (x h (rs2 dec)); [|exact I].
  split; [split; [exact Hsz | split; [apply uwrap_range; lia | reflexivity]] |]. apply ret_ok.
Qed.

Lemma lr_ok (sz : Z) : access_size sz -> ok (lr_case w dec h off sz).
Proof using Hw Hh Hrd Hoff.
  intros Hsz. unfold lr_case. destruct (x h (rs1 dec)) as [a|]; [|exact I].
  split; [split; [exact Hsz | split; [apply uwrap_range; lia | reflexivity]] |]. intros v _.
  apply finish_ok; [intros h' H; eapply frame_lr, H | | exact Hoff].
  destruct Hh as [A B C D]. split; assumption.
Qed.

Lemma sc_ok (sz : Z) : access_size sz -> ok (sc_case w dec h off sz).
Proof using Hw Hh Hrd Hoff.
  intros Hsz. unfold sc_case. destruct (x h (rs1 dec)); [|exact I]. destruct (x h (rs2 dec)); [|exact I].
  destruct (negb _); [apply wr_ok |].
  split; [split; [exact Hsz | split; [apply uwrap_range; lia | reflexivity]] |]. apply wr_ok.
Qed.

Lemma amo_ok (a_op : amo_op) (sz : Z) : access_size sz -> ok (amo_case w dec h off a_op sz).
Proof using Hw Hh Hrd Hoff.
  intros Hsz. unfold amo_case. destruct (x h (rs1 dec)); [|exact I]. destruct (x h (rs2 dec)); [|exact I].
  split; [split; [exact Hsz | split; [apply uwrap_range; lia | reflexivity]] |]. intros v _. apply wr_ok.
Qed.

Lemma jalr_ok : ok match x h (rs1 dec) with
    | Some a => finish (assign w dec h (Some (pc h + off))) ((a + imm dec -[w] pc h) .& uwrap w (-2))
    | None => Undef
    end.
Proof using Hw Hh Hrd.
  destruct (x h (rs1 dec)); [|exact I]. apply finish_ok; auto.
  apply even_offset_ok; [lia | |].
  - apply land_range; [lia | apply uwrap_range; lia | apply uwrap_range; lia].
  - rewrite land_clear0 by (lia || (apply uwrap_range; lia)). rewrite Z.mul_comm. apply Z_mod_mult.
Qed.

Lemma jal_ok : imm dec mod 2 = 0 -> ok (finish (assign w dec h (Some (pc h + off))) (uwrap w (imm dec))).
Proof using Hw Hh Hrd. intros Hi. apply finish_ok; auto. apply imm_offset, Hi. Qed.

Lemma size_1 : access_size 1. Proof. unfold access_size; lia. Qed.
Lemma size_2 : access_size 2. Proof. unfold access_size; lia. Qed.
Lemma size_4 : access_size 4. Proof. unfold access_size; lia. Qed.
Lemma size_8 : access_size 8. Proof. unfold access_size; lia. Qed.

Ltac group :=
  let E := fresh in intros E; pose proof Himm as Hi; unfold transfer_aligned in Hi;
  destruct (op dec); try discriminate E; injection E as <-;
  first [ apply wr_ok | apply branch_ok | apply load_ok | apply store_ok | apply lr_ok | apply sc_ok
        | apply amo_ok | apply jalr_ok | apply jal_ok ];
  first [ exact Hi | apply size_1 | apply size_2 | apply size_4 | apply size_8 ].

Lemma exec_i_ok (p : io Z) : exec_i w dec h off = Some p -> ok p.
Proof using Hw Hh Hrd Hoff Himm. unfold exec_i. group. Qed.
Lemma exec_i64_ok (p : io Z) : exec_i64 w dec h off = Some p -> ok p.
Proof using Hw Hh Hrd Hoff Himm. unfold exec_i64. group. Qed.
Lemma exec_m_ok (p : io Z) : exec_m w dec h off = Some p -> ok p.
Proof using Hw Hh Hrd Hoff Himm. unfold exec_m. group. Qed.
Lemma exec_m64_ok (p : io Z) : exec_m64 w dec h off = Some p -> ok p.
Proof using Hw Hh Hrd Hoff Himm. unfold exec_m64. group. Qed.
Lemma exec_a_ok (p : io Z) : exec_a w dec h off = Some p -> ok p.
Proof using Hw Hh Hrd Hoff Himm. unfold exec_a. group. Qed.
Lemma exec_a64_ok (p : io Z) : exec_a64 w dec h off = Some p -> ok p.
Proof using Hw Hh Hrd Hoff Himm. unfold exec_a64. group. Qed.

Lemma guarded_ok (flag : bool) (p : option (io Z)) (next : io Z) :
  (forall q, p = Some q -> ok q) -> ok next -> ok (guarded flag h off p next).
Proof using Hh Hoff.
  intros H Hn. unfold guarded. destruct p; [|exact Hn]. destruct flag; [apply H; reflexivity | apply ret_ok].
Qed.
End Frame.

Lemma every_impl {A} (R R' : hart -> Z -> Z -> Prop) (Q Q' : hart -> A -> Prop) (p : io A) :
  (forall h sz va, R h sz va -> R' h sz va) -> (forall h a, Q h a -> Q' h a) -> every R Q p -> every R' Q' p.
Proof. intros HR HQ. induction p as [h a | h sz va k IH | h sz va d k IH | h o sz va v k IH |]; cbn; intuition. Qed.

(** C13: whatever the instruction (floating point off), every memory request has
    an access size and an address of the machine's width, and is made with the
    program counter still at the instruction; every way it returns leaves a
    well-formed hart in which only [rd], never [x0], has changed besides the
    reservation; and when the sentinel [-1] is returned, nothing was requested
    and nothing changed, so that the run loop may try the instruction again as a
    privileged one or report it as illegal. *)
Theorem exec_frame (exec_fp : decode -> hart -> Z -> io Z) (fl : flags) (w : Z) (dec : decode) (h : hart)
    (off : Z) :
  w = 32 \/ w = 64 -> rvf fl = false -> rvd fl = false ->
  hart_wf w h -> is_reg (rd dec) -> transfer_aligned dec -> offset_ok w off ->
  let p := exec_inst exec_fp fl w dec h off in
  every (request_ok w h)
    (fun h' off' => frame w (rd dec) h h' /\ in_u w off' /\ (off' = uwrap w (-1) -> p = Ret h off')) p.
Proof.
  intros Hw Hf Hd Hh Hrd Hi Hoff p.
  assert (H : every (request_ok w h) (result_ok w dec h) p \/ p = Ret h (uwrap w (-1))).
  { unfold p, exec_inst, exec_inst_rv32, exec_inst_rv64. rewrite Hf, Hd.
    assert (Hr : every (request_ok w h) (result_ok w dec h) (Ret h off)) by (apply ret_ok; assumption).
    pose proof (exec_i_ok w dec h off Hw Hh Hrd Hoff Hi) as Gi.
    pose proof (exec_i64_ok w dec h off Hw Hh Hrd Hoff Hi) as Gi64.
    pose proof (exec_m_ok w dec h off Hw Hh Hrd Hoff Hi) as Gm.
    pose proof (exec_m64_ok w dec h off Hw Hh Hrd Hoff Hi) as Gm64.
    pose proof (exec_a_ok w dec h off Hw Hh Hrd Hoff Hi) as Ga.
    pose proof (exec_a64_ok w dec h off Hw Hh Hrd Hoff Hi) as Ga64.
    unfold guarded. destruct Hw as [-> | ->]; cbn [Z.eqb Pos.eqb];
      repeat match goal with
      | |- context [match ?g with Some _ => _ | None => _ end] => destruct g; [left | ]
      | |- context [if ?c then _ else _] => destruct c
      end; auto. }
  destruct H as [H | E].
  - revert H. apply every_impl; [auto |]. intros h' off' (H1 & H2 & H3). split; [exact H1 | split; [exact H2 |]].
    intros E. contradiction.
  - rewrite E. cbn. split; [apply frame_refl, Hh | split; [apply uwrap_range; lia | auto]].
Qed.

Lemma exec_frame_witness :
  let h := hart_ex [(5, 0x2000)] in
  let dec := mkDecode 8 6 5 0 0 rv_op_ld rv_codec_i 0 0 0 0 0 in
  let p := exec_inst (fun _ _ _ => Undef) RV_IMA 64 dec h 4 in
  every (request_ok 64 h)
    (fun h' off' => frame 64 6 h h' /\ in_u 64 off' /\ (off' = uwrap 64 (-1) -> p = Ret h off')) p.
Proof.
  cbv zeta. apply (exec_frame (fun _ _ _ => Undef) RV_IMA 64 (mkDecode 8 6 5 0 0 rv_op_ld rv_codec_i 0 0 0 0 0)
    (hart_ex [(5, 0x2000)]) 4).
  - right; reflexivity.
  - reflexivity.
  - reflexivity.
  - hart_ex_tac.
  - unfold is_reg; cbn; lia.
  - exact I.
  - split; [split; lia | vm_compute; congruence].
Defined.
