(* ===== verification/Asm.v ===== *)
(** * The assembler: [asm/assembler.h] and [asm/assembler.cc]

    Sections, labels, relocations and the linker.  Labels are shared objects, so
    they live in a table and the maps hold their numbers; the maps ordered by
    offset are association lists kept in order. *)

From Stdlib Require Import ZArith Lia Bool List Ascii String.
From stdpp Require Import base numbers list option gmap strings pretty.
From S2P Require Import Prelude Bits Operand Meta CompTables Codec Switch Decoder Emit.

#[local] Open Scope Z_scope.
#[local] Open Scope word_scope.

(** ** Symbols *)

Definition in_range (lo hi : N) (c : ascii) : bool := N.leb lo (N_of_ascii c) && N.leb (N_of_ascii c) hi.
Definition isdigit (c : ascii) : bool := in_range 48 57 c.
Definition isalpha (c : ascii) : bool := in_range 65 90 c || in_range 97 122 c.
Definition isalnum (c : ascii) : bool := isalpha c || isdigit c.
Definition is_char (x c : ascii) : bool := Ascii.eqb x c.

Definition symbol_tail (c : ascii) : bool := isalnum c || is_char "_" c || is_char "." c.

Definition check_symbol (arg : string) : bool :=
  match list_ascii_of_string arg with
  | [] => false
  | c :: t => (isalpha c || is_char "_" c) && forallb symbol_tail t
  end.

Definition check_private (arg : string) : bool :=
  match list_ascii_of_string arg with
  | c :: d :: t => is_char "." c && (isalpha d || is_char "_" d) && forallb symbol_tail t
  | _ => false
  end.

(** The digits and the last character. *)
Definition split_back (arg : string) : list ascii * option ascii :=
  let l := list_ascii_of_string arg in (removelast l, last l).

Definition check_local (arg : string) : bool :=
  match split_back arg with
  | (_ :: _ as ds, Some c) => (is_char "b" c || is_char "f" c) && forallb isdigit ds
  | _ => false
  end.

(** [strtoull(s, nullptr, 10)] on digits, as an [s64]. *)
Definition strtoull (ds : list ascii) : Z :=
  swrap 64 (Z.min (2 ^ 64 - 1) (fold_left (fun n c => n * 10 + (Z.of_N (N_of_ascii c) - 48)) ds 0)).

(** ** State *)

(** A section and an offset in it, ordered lexicographically. *)
Definition section_offset : Type := Z * Z.
Definition so_lt (a b : section_offset) : bool := (a.1 <? b.1) || ((a.1 =? b.1) && (a.2 <? b.2)).

Record section : Type := mkSection { s_index : Z; s_offset : Z; s_name : string; s_buf : list Z }.
Record label : Type := mkLabel { l_name : string; l_offset : section_offset; l_num : Z }.
Record reloc : Type := mkReloc { r_offset : section_offset; r_name : string; rela_type : Z }.

(** [std::map<section_offset, T>]: find, and assignment through [operator[]]. *)
Fixpoint so_find {A} (k : section_offset) (m : list (section_offset * A)) : option A :=
  match m with
  | [] => None
  | (j, a) :: m => if bool_decide (j = k) then Some a else so_find k m
  end.
Fixpoint so_insert {A} (k : section_offset) (a : A) (m : list (section_offset * A)) : list (section_offset * A) :=
  match m with
  | [] => [(k, a)]
  | (j, b) :: m' =>
      if bool_decide (j = k) then (k, a) :: m'
      else if so_lt k j then (k, a) :: m
      else (j, b) :: so_insert k a m'
  end.

(** [labels] are the label objects; a [label_ptr] is a position in it. *)
Record assembler : Type := mkAsm {
  sections : list section;
  section_map : gmap string nat;
  labels : list label;
  labels_byoffset : list (section_offset * nat);
  labels_byname : gmap string nat;
  relocs_byoffset : list (section_offset * reloc);
  strong_exports : list string;
  weak_exports : list string;
  current : nat }.

Definition with_sections (s : list section) (a : assembler) : assembler :=
  mkAsm s (section_map a) (labels a) (labels_byoffset a) (labels_byname a) (relocs_byoffset a)
    (strong_exports a) (weak_exports a) (current a).
Definition with_current (n : nat) (a : assembler) : assembler :=
  mkAsm (sections a) (section_map a) (labels a) (labels_byoffset a) (labels_byname a) (relocs_byoffset a)
    (strong_exports a) (weak_exports a) n.
Definition with_labels (l : list label) (o : list (section_offset * nat)) (n : gmap string nat) (a : assembler) : assembler :=
  mkAsm (sections a) (section_map a) l o n (relocs_byoffset a) (strong_exports a) (weak_exports a) (current a).
Definition with_relocs (r : list (section_offset * reloc)) (a : assembler) : assembler :=
  mkAsm (sections a) (section_map a) (labels a) (labels_byoffset a) (labels_byname a) r
    (strong_exports a) (weak_exports a) (current a).

Definition size_of_buf (s : section) : Z := Z.of_nat (List.length (s_buf s)).
Definition current_section (a : assembler) : section := nth (current a) (sections a) (mkSection 0 0 "" []).
Definition upd_section (n : nat) (f : section -> section) (a : assembler) : assembler :=
  with_sections (alter f n (sections a)) a.
Definition set_buf (b : list Z) (s : section) : section := mkSection (s_index s) (s_offset s) (s_name s) b.
Definition set_offset (o : Z) (s : section) : section := mkSection (s_index s) o (s_name s) (s_buf s).

(** ** Sections *)

Definition get_section (name : string) (a : assembler) : assembler :=
  match section_map a !! name with
  | None =>
      let n := List.length (sections a) in
      mkAsm (sections a ++ [mkSection (Z.of_nat n) 0 name []]) (<[name := n]> (section_map a)) (labels a)
        (labels_byoffset a) (labels_byname a) (relocs_byoffset a) (strong_exports a) (weak_exports a) n
  | Some n => with_current n a
  end.

(** The constructor. *)
Definition assembler_new : assembler :=
  get_section ".text" (get_section "" (mkAsm [] ∅ [] [] ∅ [] [] [] 0%nat)).

Definition global (label : string) (a : assembler) : assembler :=
  mkAsm (sections a) (section_map a) (labels a) (labels_byoffset a) (labels_byname a) (relocs_byoffset a)
    (strong_exports a ++ [label]) (weak_exports a) (current a).
Definition weak (label : string) (a : assembler) : assembler :=
  mkAsm (sections a) (section_map a) (labels a) (labels_byoffset a) (labels_byname a) (relocs_byoffset a)
    (strong_exports a) (weak_exports a ++ [label]) (current a).

Definition current_offset (a : assembler) : section_offset :=
  (s_index (current_section a), size_of_buf (current_section a)).

(** [append] of a word of [n] bytes: least significant first. *)
Fixpoint le_bytes (n : nat) (d : Z) : list Z :=
  match n with O => [] | Datatypes.S n => (d .& 0xff) :: le_bytes n (d >>> 8) end.
Definition append_bytes (bs : list Z) (a : assembler) : assembler :=
  upd_section (current a) (fun s => set_buf (s_buf s ++ bs) s) a.
Definition append (n : nat) (d : Z) (a : assembler) : assembler :=
  append_bytes (le_bytes n (uwrap (8 * Z.of_nat n) d)) a.

Definition add_inst (inst : Z) (a : assembler) : assembler :=
  let len := inst_length inst in
  if len =? 2 then append 2 inst a
  else if len =? 4 then append 4 inst a
  else if len =? 6 then append 2 (inst >>> 32) (append 4 inst a)
  else if len =? 8 then append 8 inst a
  else a.

(** The body of the [asm_] functions of [asm/jit.cc]; [None]: a failed assertion. *)
Definition asm (a : assembler) (o : rv_op) (args : list argument) : option (assembler * bool) :=
  match build o args with
  | None => Some (a, false)
  | Some dec => option_map (fun r => (add_inst (snd r) a, true)) (encode_inst dec)
  end.

(** [as.add_inst(emit_...)] *)
Definition add_emitted (e : option Z) (a : assembler) : option assembler := option_map (fun i => add_inst i a) e.

(** ** Constants *)

(** [load_imm_r] calls itself on the upper part; [fuel] bounds the calls. *)
Fixpoint load_imm_r (fuel : nat) (rd val : Z) (a : assembler) : option assembler :=
  match fuel with
  | O => None
  | Datatypes.S fuel =>
      let m := val .& Z.lnot 0x7fffffff in
      if (m =? 0) || (m =? Z.lnot 0x7fffffff) then
        a ← add_emitted (emit_lui rd (Z.shiftl (val >>> 12) 12)) a;
        let val := val - Z.shiftl (val >>> 12) 12 in
        if negb (val =? 0) then add_emitted (emit_addi rd rd (bitextend 64 val 12)) a else Some a
      else
        let lo := swrap 64 (bitextend 64 val 12) in
        let hi := swrap 64 (val - lo) in
        let shift := 12 + ctz 64 (uwrap 64 hi >>> 12) in
        let hi := hi >>> shift in
        a ← load_imm_r fuel rd hi a;
        a ← add_emitted (emit_slli rd rd shift) a;
        if negb (lo =? 0) then add_emitted (emit_addi rd rd (swrap 32 (swrap 64 (bitextend 64 lo 12)))) a else Some a
  end.

Definition load_imm_fuel : nat := 4.

(** [val] is an [s64]; the emitters' operands are converted to 64 bits. *)
Definition load_imm (rd val : Z) (a : assembler) : option assembler :=
  if (val >=? -2048) && (val <=? 2047) then add_emitted (emit_addi rd rv_ireg_zero (swrap 32 val)) a
  else if ispow2 64 val then
    a ← add_emitted (emit_addi rd rv_ireg_zero 1) a;
    add_emitted (emit_slli rd rd (ctz 64 val)) a
  else load_imm_r load_imm_fuel rd val a.

(** ** Labels *)

Definition lookup_label (name : string) (a : assembler) : option nat := labels_byname a !! name.
Definition the_label (n : nat) (a : assembler) : label := nth n (labels a) (mkLabel "" (0, 0) 0).

Fixpoint label_after (at_ : section_offset) (num : Z) (ls : list label) (found : bool)
    (m : list (section_offset * nat)) : option nat :=
  match m with
  | [] => None
  | (k, n) :: m =>
      let found := found || so_lt at_ k in
      if found && (default 0 (l_num <$> ls !! n) =? num) then Some n else label_after at_ num ls found m
  end.
Definition lookup_label_f (r : reloc) (num : Z) (a : assembler) : option nat :=
  label_after (r_offset r) num (labels a) false (labels_byoffset a).

Fixpoint label_before (at_ : section_offset) (num : Z) (ls : list label) (found : option nat)
    (m : list (section_offset * nat)) : option nat :=
  match m with
  | [] => found
  | (k, n) :: m =>
      if so_lt at_ k then found
      else label_before at_ num ls (if default 0 (l_num <$> ls !! n) =? num then Some n else found) m
  end.
Definition lookup_label_b (r : reloc) (num : Z) (a : assembler) : option nat :=
  label_before (r_offset r) num (labels a) None (labels_byoffset a).

(** [lookup_label(reloc, name)]: numeric labels forwards or backwards. *)
Definition lookup_target (r : reloc) (name : string) (a : assembler) : option nat :=
  if check_local name then
    match split_back name with
    | (ds, Some c) =>
        if is_char "f" c then lookup_label_f r (strtoull ds) a
        else if is_char "b" c then lookup_label_b r (strtoull ds) a
        else lookup_label name a
    | _ => lookup_label name a
    end
  else lookup_label name a.

(** A null pointer ([None]) when the name is taken. *)
Definition add_label (name : string) (at_ : section_offset) (a : assembler) : assembler * option nat :=
  match labels_byname a !! name with
  | Some _ => (a, None)
  | None =>
      let n := List.length (labels a) in
      (with_labels (labels a ++ [mkLabel name at_ 0]) (so_insert at_ n (labels_byoffset a))
         (<[name := n]> (labels_byname a)) a, Some n)
  end.
Definition add_label_here (name : string) (a : assembler) : assembler * option nat :=
  add_label name (current_offset a) a.

Definition num_label (num i : Z) : string := (".L" ++ pretty num ++ pretty i)%string.
Definition set_num (n : nat) (num : Z) (a : assembler) : assembler :=
  with_labels (alter (fun l => mkLabel (l_name l) (l_offset l) num) n (labels a)) (labels_byoffset a)
    (labels_byname a) a.

(** The loop of [add_label(num)]: the first name that is free. *)
Fixpoint add_label_num_from (fuel : nat) (i num : Z) (a : assembler) : option (assembler * option nat) :=
  match fuel with
  | O => None
  | Datatypes.S fuel =>
      match labels_byname a !! num_label num i with
      | None =>
          match add_label_here (num_label num i) a with
          | (a, Some n) => Some (set_num n num a, Some n)
          | (a, None) => Some (a, None)
          end
      | Some _ => add_label_num_from fuel (i + 1) num a
      end
  end.
Definition add_label_num (num : Z) (a : assembler) : option (assembler * option nat) :=
  add_label_num_from (Datatypes.S (size (labels_byname a))) 1 num a.

Definition SHN_ABS : Z := 0xfff1.
Definition add_constant (name : string) (value : Z) (a : assembler) : assembler * option nat :=
  add_label name (SHN_ABS, uwrap 64 value) a.

(** ** Relocations *)

Definition lookup_reloc (k : section_offset) (a : assembler) : option reloc := so_find k (relocs_byoffset a).
Definition add_reloc (name : string) (type : Z) (a : assembler) : assembler * option reloc :=
  let k := current_offset a in
  match lookup_reloc k a with
  | Some _ => (a, None)
  | None =>
      let r := mkReloc k name type in
      (with_relocs (so_insert k r (relocs_byoffset a)) a, Some r)
  end.

(** ** Alignment *)

Definition balign (align : Z) (a : assembler) : assembler :=
  let align := uwrap 64 align in
  let size := size_of_buf (current_section a) in
  if negb (ispow2 64 align) then a
  else if (size .& (align - 1)) =? 0 then a
  else append_bytes (replicate (Z.to_nat (align - (size .& (align - 1)))) 0) a.

(** [1 << s] is an [int]; a count from 32 on is undefined. *)
Definition p2align (s : Z) (a : assembler) : option assembler :=
  if (0 <=? s) && (s <? 32) then Some (balign (swrap 32 (Z.shiftl 1 s)) a) else None.

(** ** Linking *)

(** [None]: an index past the sections. *)
Definition label_offset (l : label) (a : assembler) : option Z :=
  (fun s => s_offset s +[64] (l_offset l).2) <$> aget (sections a) (l_offset l).1.
Definition reloc_offset (r : reloc) (a : assembler) : option Z :=
  (fun s => s_offset s +[64] (r_offset r).2) <$> aget (sections a) (r_offset r).1.

Definition load_le (n : nat) (off : Z) (b : list Z) : Z :=
  fold_right (fun i v => default 0 (aget b (off + Z.of_nat i)) + 256 * v) 0 (List.seq 0 n).

(** [inst_fetch] in a buffer; [None]: it reads past the end. *)
Definition fetch_buf (off : Z) (b : list Z) : option (Z * Z) :=
  let (inst, len) := inst_fetch (fun x => load_le 2 x b) (fun x => load_le 4 x b) off in
  if (0 <=? off) && (off + Z.max 4 len <=? Z.of_nat (List.length b)) then Some (inst, len) else None.

Definition store_le (n : nat) (off v : Z) (b : list Z) : option (list Z) :=
  if (0 <=? off) && (off + Z.of_nat n <=? Z.of_nat (List.length b))
  then Some (firstn (Z.to_nat off) b ++ le_bytes n (uwrap (8 * Z.of_nat n) v) ++ skipn (Z.to_nat off + n) b)
  else None.

Definition reencode_inst (dec : decode) (off : Z) (b : list Z) : option (list Z) :=
  r ← encode_inst dec;
  let inst := snd r in
  let len := inst_length inst in
  if len =? 2 then store_le 2 off (inst .& 0xffff) b
  else if len =? 4 then store_le 4 off (inst .& 0xffffffff) b
  else Some b.

Definition R_RISCV_32 : Z := 1.
Definition R_RISCV_64 : Z := 2.
Definition R_RISCV_BRANCH : Z := 16.
Definition R_RISCV_JAL : Z := 17.
Definition R_RISCV_CALL : Z := 18.
Definition R_RISCV_PCREL_HI20 : Z := 23.
Definition R_RISCV_PCREL_LO12_I : Z := 24.
Definition R_RISCV_PCREL_LO12_S : Z := 25.
Definition R_RISCV_HI20 : Z := 26.
Definition R_RISCV_LO12_I : Z := 27.
Definition R_RISCV_LO12_S : Z := 28.

(** [((x + 0x800) >> 12) << 12] on [size_t]. *)
Definition upper_part (x : Z) : Z := ((x +[64] 0x800) >>> 12) <<[64] 12.

(** Re-encode the instruction at an offset with another immediate. *)
Definition patch (value off : Z) (b : list Z) : option (list Z) :=
  f ← fetch_buf off b;
  reencode_inst (set_imm value (decode_inst_rv64 decode_init (fst f))) off b.

(** [relocate] on the bytes of the section: the label's and the relocation's
    offsets, and for the low part of a pair what the other relocation gives. *)
Definition apply_reloc (type label_off reloc_off off : Z) (target : option Z) (b : list Z) : option (list Z) :=
  f ← fetch_buf off b;
  let dec := decode_inst_rv64 decode_init (fst f) in
  if (type =? R_RISCV_JAL) || (type =? R_RISCV_BRANCH) then
    reencode_inst (set_imm (label_off -[64] reloc_off) dec) off b
  else if type =? R_RISCV_HI20 then reencode_inst (set_imm (upper_part label_off) dec) off b
  else if (type =? R_RISCV_LO12_I) || (type =? R_RISCV_LO12_S) then
    let upper := swrap 32 (upper_part label_off) in
    reencode_inst (set_imm (label_off -[64] upper) dec) off b
  else if type =? R_RISCV_PCREL_HI20 then
    reencode_inst (set_imm (upper_part (label_off -[64] reloc_off)) dec) off b
  else if (type =? R_RISCV_PCREL_LO12_I) || (type =? R_RISCV_PCREL_LO12_S) then
    distance ← target;
    let upper := swrap 32 (upper_part distance) in
    reencode_inst (set_imm (distance -[64] upper) dec) off b
  else if type =? R_RISCV_CALL then
    let upper := swrap 32 (upper_part (label_off -[64] reloc_off)) in
    let lower := swrap 32 ((label_off -[64] reloc_off) -[64] upper) in
    b ← patch lower (off + snd f) b;
    reencode_inst (set_imm upper dec) off b
  else if type =? R_RISCV_32 then store_le 4 off label_off b
  else if type =? R_RISCV_64 then store_le 8 off label_off b
  else Some b.

(** The distance from the relocation that a label points to (an [auipc]) to that
    relocation's symbol; [None] where it is not resolved, [Some None] is undefined. *)
Definition pcrel_pair (section_ label_off : Z) (a : assembler) : option (option Z) :=
  match lookup_reloc (section_, label_off) a with
  | None => None
  | Some r =>
      match lookup_label (r_name r) a with
      | None => None
      | Some n => Some (ro ← reloc_offset r a; lo ← label_offset (the_label n a) a; Some (lo -[64] ro))
      end
  end.

Definition is_pcrel_lo (type : Z) : bool := (type =? R_RISCV_PCREL_LO12_I) || (type =? R_RISCV_PCREL_LO12_S).

(** [relocate]: [false] for a symbol that is not resolved; [None] is undefined
    behaviour (an index past a vector) or a failed assertion. *)
Definition relocate (r : reloc) (a : assembler) : option (assembler * bool) :=
  match lookup_target r (r_name r) a with
  | None => Some (a, false)
  | Some n =>
      let l := the_label n a in
      let a := with_relocs (so_insert (r_offset r) (mkReloc (r_offset r) (l_name l) (rela_type r)) (relocs_byoffset a)) a in
      label_off ← (if (l_offset l).1 =? SHN_ABS then Some (l_offset l).2 else label_offset l a);
      reloc_off ← reloc_offset r a;
      s ← aget (sections a) (r_offset r).1;
      _ ← fetch_buf (r_offset r).2 (s_buf s);
      match (if is_pcrel_lo (rela_type r) then pcrel_pair (r_offset r).1 label_off a else Some None) with
      | None => Some (a, false)
      | Some target =>
          b ← apply_reloc (rela_type r) label_off reloc_off (r_offset r).2 target (s_buf s);
          Some (upd_section (Z.to_nat (r_offset r).1) (set_buf b) a, true)
      end
  end.

(** The offsets of the sections: each after the one before. *)
Fixpoint place (off : Z) (ss : list section) : list section :=
  match ss with
  | [] => []
  | s :: ss => set_offset off s :: place (off +[64] size_of_buf s) ss
  end.

(** The loop over the relocations; the names that are not resolved are printed. *)
Fixpoint relocate_all (ks : list section_offset) (a : assembler) : option (assembler * list string) :=
  match ks with
  | [] => Some (a, [])
  | k :: ks =>
      r ← lookup_reloc k a;
      '(a, ok) ← relocate r a;
      '(a', names) ← relocate_all ks a;
      Some (a', if (ok : bool) then names else default ""%string (option_map r_name (lookup_reloc k a)) :: names)
  end.

Definition link (a : assembler) : option (assembler * list string) :=
  let a := with_sections (place 0 (sections a)) a in
  relocate_all (relocs_byoffset a).*1 a.

(** ** On concrete programs *)

Definition run_asm (l : list (assembler -> option assembler)) : option assembler :=
  fold_left (fun a f => a ← a; f a) l (Some assembler_new).
Definition text (a : assembler) : list Z := s_buf (nth 1 (sections a) (mkSection 0 0 "" [])).

Definition demo_call : option assembler :=
  run_asm [fun a => Some (fst (add_reloc "f" R_RISCV_CALL a));
           add_emitted (emit_auipc 1 0); add_emitted (emit_jalr 1 1 0);
           fun a => Some (balign 16 a); fun a => Some (fst (add_label_here "f" a));
           add_emitted (emit_addi 0 0 0)].

Example demo_link :
  option_map (fun r => (text (fst r), snd r)) (a ← demo_call; link a)
  = Some ([0x97; 0; 0; 0; 0xe7; 0x80; 0; 1; 0; 0; 0; 0; 0; 0; 0; 0; 0x13; 0; 0; 0], []).
Proof. vm_compute. reflexivity. Qed.
