(* ===== verification/AsmInst.v ===== *)
(** * Assembling instructions: the [asm_] functions of [asm/jit.cc]

    One function per instruction: it checks its operands, encodes the record and
    adds the word to the current section.  Each adds exactly the word of the
    emitter of the same name, and refuses exactly what the emitter refuses. *)

From Stdlib Require Import ZArith Bool List.
From stdpp Require Import base list option.
From S2P Require Import Prelude Meta Codec Emit Asm.

#[local] Open Scope Z_scope.

(** ** The functions *)

Definition asm_lui (as_ : assembler) (rd imm20 : Z) : option (assembler * bool) :=
  asm as_ rv_op_lui [(ireg5, F_rd, rd); (simm32, F_imm, imm20)].
Definition asm_auipc (as_ : assembler) (rd oimm20 : Z) : option (assembler * bool) :=
  asm as_ rv_op_auipc [(ireg5, F_rd, rd); (offset32, F_imm, oimm20)].
Definition asm_jal (as_ : assembler) (rd jimm20 : Z) : option (assembler * bool) :=
  asm as_ rv_op_jal [(ireg5, F_rd, rd); (offset21, F_imm, jimm20)].
Definition asm_jalr (as_ : assembler) (rd rs1 imm12 : Z) : option (assembler * bool) :=
  asm as_ rv_op_jalr [(ireg5, F_rd, rd); (ireg5, F_rs1, rs1); (simm12, F_imm, imm12)].
Definition asm_beq (as_ : assembler) (rs1 rs2 sbimm12 : Z) : option (assembler * bool) :=
  asm as_ rv_op_beq [(ireg5, F_rs1, rs1); (ireg5, F_rs2, rs2); (offset13, F_imm, sbimm12)].
Definition asm_bne (as_ : assembler) (rs1 rs2 sbimm12 : Z) : option (assembler * bool) :=
  asm as_ rv_op_bne [(ireg5, F_rs1, rs1); (ireg5, F_rs2, rs2); (offset13, F_imm, sbimm12)].
Definition asm_blt (as_ : assembler) (rs1 rs2 sbimm12 : Z) : option (assembler * bool) :=
  asm as_ rv_op_blt [(ireg5, F_rs1, rs1); (ireg5, F_rs2, rs2); (offset13, F_imm, sbimm12)].
Definition asm_bge (as_ : assembler) (rs1 rs2 sbimm12 : Z) : option (assembler * bool) :=
  asm as_ rv_op_bge [(ireg5, F_rs1, rs1); (ireg5, F_rs2, rs2); (offset13, F_imm, sbimm12)].
Definition asm_bltu (as_ : assembler) (rs1 rs2 sbimm12 : Z) : option (assembler * bool) :=
  asm as_ rv_op_bltu [(ireg5, F_rs1, rs1); (ireg5, F_rs2, rs2); (offset13, F_imm, sbimm12)].
Definition asm_bgeu (as_ : assembler) (rs1 rs2 sbimm12 : Z) : option (assembler * bool) :=
  asm as_ rv_op_bgeu [(ireg5, F_rs1, rs1); (ireg5, F_rs2, rs2); (offset13, F_imm, sbimm12)].
Definition asm_lb (as_ : assembler) (rd rs1 oimm12 : Z) : option (assembler * bool) :=
  asm as_ rv_op_lb [(ireg5, F_rd, rd); (ireg5, F_rs1, rs1); (offset12, F_imm, oimm12)].
Definition asm_lh (as_ : assembler) (rd rs1 oimm12 : Z) : option (assembler * bool) :=
  asm as_ rv_op_lh [(ireg5, F_rd, rd); (ireg5, F_rs1, rs1); (offset12, F_imm, oimm12)].
Definition asm_lw (as_ : assembler) (rd rs1 oimm12 : Z) : option (assembler * bool) :=
  asm as_ rv_op_lw [(ireg5, F_rd, rd); (ireg5, F_rs1, rs1); (offset12, F_imm, oimm12)].
Definition asm_lbu (as_ : assembler) (rd rs1 oimm12 : Z) : option (assembler * bool) :=
  asm as_ rv_op_lbu [(ireg5, F_rd, rd); (ireg5, F_rs1, rs1); (offset12, F_imm, oimm12)].
Definition asm_lhu (as_ : assembler) (rd rs1 oimm12 : Z) : option (assembler * bool) :=
  asm as_ rv_op_lhu [(ireg5, F_rd, rd); (ireg5, F_rs1, rs1); (offset12, F_imm, oimm12)].
Definition asm_sb (as_ : assembler) (rs1 rs2 simm12 : Z) : option (assembler * bool) :=
  asm as_ rv_op_sb [(ireg5, F_rs1, rs1); (ireg5, F_rs2, rs2); (offset12, F_imm, simm12)].
Definition asm_sh (as_ : assembler) (rs1 rs2 simm12 : Z) : option (assembler * bool) :=
  asm as_ rv_op_sh [(ireg5, F_rs1, rs1); (ireg5, F_rs2, rs2); (offset12, F_imm, simm12)].
Definition asm_sw (as_ : assembler) (rs1 rs2 simm12 : Z) : option (assembler * bool) :=
  asm as_ rv_op_sw [(ireg5, F_rs1, rs1); (ireg5, F_rs2, rs2); (offset12, F_imm, simm12)].
Definition asm_addi (as_ : assembler) (rd rs1 imm12 : Z) : option (assembler * bool) :=
  asm as_ rv_op_addi [(ireg5, F_rd, rd); (ireg5, F_rs1, rs1); (simm12, F_imm, imm12)].
Definition asm_slti (as_ : assembler) (rd rs1 imm12 : Z) : option (assembler * bool) :=
  asm as_ rv_op_slti [(ireg5, F_rd, rd); (ireg5, F_rs1, rs1); (simm12, F_imm, imm12)].
Definition asm_sltiu (as_ : assembler) (rd rs1 imm12 : Z) : option (assembler * bool) :=
  asm as_ rv_op_sltiu [(ireg5, F_rd, rd); (ireg5, F_rs1, rs1); (simm12, F_imm, imm12)].
Definition asm_xori (as_ : assembler) (rd rs1 imm12 : Z) : option (assembler * bool) :=
  asm as_ rv_op_xori [(ireg5, F_rd, rd); (ireg5, F_rs1, rs1); (simm12, F_imm, imm12)].
Definition asm_ori (as_ : assembler) (rd rs1 imm12 : Z) : option (assembler * bool) :=
  asm as_ rv_op_ori [(ireg5, F_rd, rd); (ireg5, F_rs1, rs1); (simm12, F_imm, imm12)].
Definition asm_andi (as_ : assembler) (rd rs1 imm12 : Z) : option (assembler * bool) :=
  asm as_ rv_op_andi [(ireg5, F_rd, rd); (ireg5, F_rs1, rs1); (simm12, F_imm, imm12)].
Definition asm_slli (as_ : assembler) (rd rs1 shamt7 : Z) : option (assembler * bool) :=
  asm as_ rv_op_slli [(ireg5, F_rd, rd); (ireg5, F_rs1, rs1); (uimm7, F_imm, shamt7)].
Definition asm_srli (as_ : assembler) (rd rs1 shamt7 : Z) : option (assembler * bool) :=
  asm as_ rv_op_srli [(ireg5, F_rd, rd); (ireg5, F_rs1, rs1); (uimm7, F_imm, shamt7)].
Definition asm_srai (as_ : assembler) (rd rs1 shamt7 : Z) : option (assembler * bool) :=
  asm as_ rv_op_srai [(ireg5, F_rd, rd); (ireg5, F_rs1, rs1); (uimm7, F_imm, shamt7)].
Definition asm_add (as_ : assembler) (rd rs1 rs2 : Z) : option (assembler * bool) :=
  asm as_ rv_op_add [(ireg5, F_rd, rd); (ireg5, F_rs1, rs1); (ireg5, F_rs2, rs2)].
Definition asm_sub (as_ : assembler) (rd rs1 rs2 : Z) : option (assembler * bool) :=
  asm as_ rv_op_sub [(ireg5, F_rd, rd); (ireg5, F_rs1, rs1); (ireg5, F_rs2, rs2)].
Definition asm_sll (as_ : assembler) (rd rs1 rs2 : Z) : option (assembler * bool) :=
  asm as_ rv_op_sll [(ireg5, F_rd, rd); (ireg5, F_rs1, rs1); (ireg5, F_rs2, rs2)].
Definition asm_slt (as_ : assembler) (rd rs1 rs2 : Z) : option (assembler * bool) :=
  asm as_ rv_op_slt [(ireg5, F_rd, rd); (ireg5, F_rs1, rs1); (ireg5, F_rs2, rs2)].
Definition asm_sltu (as_ : assembler) (rd rs1 rs2 : Z) : option (assembler * bool) :=
  asm as_ rv_op_sltu [(ireg5, F_rd, rd); (ireg5, F_rs1, rs1); (ireg5, F_rs2, rs2)].
Definition asm_xor (as_ : assembler) (rd rs1 rs2 : Z) : option (assembler * bool) :=
  asm as_ rv_op_xor [(ireg5, F_rd, rd); (ireg5, F_rs1, rs1); (ireg5, F_rs2, rs2)].
Definition asm_srl (as_ : assembler) (rd rs1 rs2 : Z) : option (assembler * bool) :=
  asm as_ rv_op_srl [(ireg5, F_rd, rd); (ireg5, F_rs1, rs1); (ireg5, F_rs2, rs2)].
Definition asm_sra (as_ : assembler) (rd rs1 rs2 : Z) : option (assembler * bool) :=
  asm as_ rv_op_sra [(ireg5, F_rd, rd); (ireg5, F_rs1, rs1); (ireg5, F_rs2, rs2)].
Definition asm_or (as_ : assembler) (rd rs1 rs2 : Z) : option (assembler * bool) :=
  asm as_ rv_op_or [(ireg5, F_rd, rd); (ireg5, F_rs1, rs1); (ireg5, F_rs2, rs2)].
Definition asm_and (as_ : assembler) (rd rs1 rs2 : Z) : option (assembler * bool) :=
  asm as_ rv_op_and [(ireg5, F_rd, rd); (ireg5, F_rs1, rs1); (ireg5, F_rs2, rs2)].
Definition asm_fence (as_ : assembler) (pred succ : Z) : option (assembler * bool) :=
  asm as_ rv_op_fence [(arg4, F_pred, pred); (arg4, F_succ, succ)].
Definition asm_fence_i (as_ : assembler) : option (assembler * bool) :=
  asm as_ rv_op_fence_i [].
Definition asm_lwu (as_ : assembler) (rd rs1 oimm12 : Z) : option (assembler * bool) :=
  asm as_ rv_op_lwu [(ireg5, F_rd, rd); (ireg5, F_rs1, rs1); (offset12, F_imm, oimm12)].
Definition asm_ld (as_ : assembler) (rd rs1 oimm12 : Z) : option (assembler * bool) :=
  asm as_ rv_op_ld [(ireg5, F_rd, rd); (ireg5, F_rs1, rs1); (offset12, F_imm, oimm12)].
Definition asm_sd (as_ : assembler) (rs1 rs2 simm12 : Z) : option (assembler * bool) :=
  asm as_ rv_op_sd [(ireg5, F_rs1, rs1); (ireg5, F_rs2, rs2); (offset12, F_imm, simm12)].
Definition asm_addiw (as_ : assembler) (rd rs1 imm12 : Z) : option (assembler * bool) :=
  asm as_ rv_op_addiw [(ireg5, F_rd, rd); (ireg5, F_rs1, rs1); (simm12, F_imm, imm12)].
Definition asm_slliw (as_ : assembler) (rd rs1 shamt5 : Z) : option (assembler * bool) :=
  asm as_ rv_op_slliw [(ireg5, F_rd, rd); (ireg5, F_rs1, rs1); (uimm5, F_imm, shamt5)].
Definition asm_srliw (as_ : assembler) (rd rs1 shamt5 : Z) : option (assembler * bool) :=
  asm as_ rv_op_srliw [(ireg5, F_rd, rd); (ireg5, F_rs1, rs1); (uimm5, F_imm, shamt5)].
Definition asm_sraiw (as_ : assembler) (rd rs1 shamt5 : Z) : option (assembler * bool) :=
  asm as_ rv_op_sraiw [(ireg5, F_rd, rd); (ireg5, F_rs1, rs1); (uimm5, F_imm, shamt5)].
Definition asm_addw (as_ : assembler) (rd rs1 rs2 : Z) : option (assembler * bool) :=
  asm as_ rv_op_addw [(ireg5, F_rd, rd); (ireg5, F_rs1, rs1); (ireg5, F_rs2, rs2)].
Definition asm_subw (as_ : assembler) (rd rs1 rs2 : Z) : option (assembler * bool) :=
  asm as_ rv_op_subw [(ireg5, F_rd, rd); (ireg5, F_rs1, rs1); (ireg5, F_rs2, rs2)].
Definition asm_sllw (as_ : assembler) (rd rs1 rs2 : Z) : option (assembler * bool) :=
  asm as_ rv_op_sllw [(ireg5, F_rd, rd); (ireg5, F_rs1, rs1); (ireg5, F_rs2, rs2)].
Definition asm_srlw (as_ : assembler) (rd rs1 rs2 : Z) : option (assembler * bool) :=
  asm as_ rv_op_srlw [(ireg5, F_rd, rd); (ireg5, F_rs1, rs1); (ireg5, F_rs2, rs2)].
Definition asm_sraw (as_ : assembler) (rd rs1 rs2 : Z) : option (assembler * bool) :=
  asm as_ rv_op_sraw [(ireg5, F_rd, rd); (ireg5, F_rs1, rs1); (ireg5, F_rs2, rs2)].
Definition asm_ldu (as_ : assembler) (rd rs1 oimm12 : Z) : option (assembler * bool) :=
  asm as_ rv_op_ldu [(ireg5, F_rd, rd); (ireg5, F_rs1, rs1); (offset12, F_imm, oimm12)].
Definition asm_lq (as_ : assembler) (rd rs1 oimm12 : Z) : option (assembler * bool) :=
  asm as_ rv_op_lq [(ireg5, F_rd, rd); (ireg5, F_rs1, rs1); (offset12, F_imm, oimm12)].
Definition asm_sq (as_ : assembler) (rs1 rs2 simm12 : Z) : option (assembler * bool) :=
  asm as_ rv_op_sq [(ireg5, F_rs1, rs1); (ireg5, F_rs2, rs2); (offset12, F_imm, simm12)].
Definition asm_addid (as_ : assembler) (rd rs1 imm12 : Z) : option (assembler * bool) :=
  asm as_ rv_op_addid [(ireg5, F_rd, rd); (ireg5, F_rs1, rs1); (simm12, F_imm, imm12)].
Definition asm_sllid (as_ : assembler) (rd rs1 shamt6 : Z) : option (assembler * bool) :=
  asm as_ rv_op_sllid [(ireg5, F_rd, rd); (ireg5, F_rs1, rs1); (uimm6, F_imm, shamt6)].
Definition asm_srlid (as_ : assembler) (rd rs1 shamt6 : Z) : option (assembler * bool) :=
  asm as_ rv_op_srlid [(ireg5, F_rd, rd); (ireg5, F_rs1, rs1); (uimm6, F_imm, shamt6)].
Definition asm_sraid (as_ : assembler) (rd rs1 shamt6 : Z) : option (assembler * bool) :=
  asm as_ rv_op_sraid [(ireg5, F_rd, rd); (ireg5, F_rs1, rs1); (uimm6, F_imm, shamt6)].
Definition asm_addd (as_ : assembler) (rd rs1 rs2 : Z) : option (assembler * bool) :=
  asm as_ rv_op_addd [(ireg5, F_rd, rd); (ireg5, F_rs1, rs1); (ireg5, F_rs2, rs2)].
Definition asm_subd (as_ : assembler) (rd rs1 rs2 : Z) : option (assembler * bool) :=
  asm as_ rv_op_subd [(ireg5, F_rd, rd); (ireg5, F_rs1, rs1); (ireg5, F_rs2, rs2)].
Definition asm_slld (as_ : assembler) (rd rs1 rs2 : Z) : option (assembler * bool) :=
  asm as_ rv_op_slld [(ireg5, F_rd, rd); (ireg5, F_rs1, rs1); (ireg5, F_rs2, rs2)].
Definition asm_srld (as_ : assembler) (rd rs1 rs2 : Z) : option (assembler * bool) :=
  asm as_ rv_op_srld [(ireg5, F_rd, rd); (ireg5, F_rs1, rs1); (ireg5, F_rs2, rs2)].
Definition asm_srad (as_ : assembler) (rd rs1 rs2 : Z) : option (assembler * bool) :=
  asm as_ rv_op_srad [(ireg5, F_rd, rd); (ireg5, F_rs1, rs1); (ireg5, F_rs2, rs2)].
Definition asm_mul (as_ : assembler) (rd rs1 rs2 : Z) : option (assembler * bool) :=
  asm as_ rv_op_mul [(ireg5, F_rd, rd); (ireg5, F_rs1, rs1); (ireg5, F_rs2, rs2)].
Definition asm_mulh (as_ : assembler) (rd rs1 rs2 : Z) : option (assembler * bool) :=
  asm as_ rv_op_mulh [(ireg5, F_rd, rd); (ireg5, F_rs1, rs1); (ireg5, F_rs2, rs2)].
Definition asm_mulhsu (as_ : assembler) (rd rs1 rs2 : Z) : option (assembler * bool) :=
  asm as_ rv_op_mulhsu [(ireg5, F_rd, rd); (ireg5, F_rs1, rs1); (ireg5, F_rs2, rs2)].
Definition asm_mulhu (as_ : assembler) (rd rs1 rs2 : Z) : option (assembler * bool) :=
  asm as_ rv_op_mulhu [(ireg5, F_rd, rd); (ireg5, F_rs1, rs1); (ireg5, F_rs2, rs2)].
Definition asm_div (as_ : assembler) (rd rs1 rs2 : Z) : option (assembler * bool) :=
  asm as_ rv_op_div [(ireg5, F_rd, rd); (ireg5, F_rs1, rs1); (ireg5, F_rs2, rs2)].
Definition asm_divu (as_ : assembler) (rd rs1 rs2 : Z) : option (assembler * bool) :=
  asm as_ rv_op_divu [(ireg5, F_rd, rd); (ireg5, F_rs1, rs1); (ireg5, F_rs2, rs2)].
Definition asm_rem (as_ : assembler) (rd rs1 rs2 : Z) : option (assembler * bool) :=
  asm as_ rv_op_rem [(ireg5, F_rd, rd); (ireg5, F_rs1, rs1); (ireg5, F_rs2, rs2)].
Definition asm_remu (as_ : assembler) (rd rs1 rs2 : Z) : option (assembler * bool) :=
  asm as_ rv_op_remu [(ireg5, F_rd, rd); (ireg5, F_rs1, rs1); (ireg5, F_rs2, rs2)].
Definition asm_mulw (as_ : assembler) (rd rs1 rs2 : Z) : option (assembler * bool) :=
  asm as_ rv_op_mulw [(ireg5, F_rd, rd); (ireg5, F_rs1, rs1); (ireg5, F_rs2, rs2)].
Definition asm_divw (as_ : assembler) (rd rs1 rs2 : Z) : option (assembler * bool) :=
  asm as_ rv_op_divw [(ireg5, F_rd, rd); (ireg5, F_rs1, rs1); (ireg5, F_rs2, rs2)].
Definition asm_divuw (as_ : assembler) (rd rs1 rs2 : Z) : option (assembler * bool) :=
  asm as_ rv_op_divuw [(ireg5, F_rd, rd); (ireg5, F_rs1, rs1); (ireg5, F_rs2, rs2)].
Definition asm_remw (as_ : assembler) (rd rs1 rs2 : Z) : option (assembler * bool) :=
  asm as_ rv_op_remw [(ireg5, F_rd, rd); (ireg5, F_rs1, rs1); (ireg5, F_rs2, rs2)].
Definition asm_remuw (as_ : assembler) (rd rs1 rs2 : Z) : option (assembler * bool) :=
  asm as_ rv_op_remuw [(ireg5, F_rd, rd); (ireg5, F_rs1, rs1); (ireg5, F_rs2, rs2)].
Definition asm_muld (as_ : assembler) (rd rs1 rs2 : Z) : option (assembler * bool) :=
  asm as_ rv_op_muld [(ireg5, F_rd, rd); (ireg5, F_rs1, rs1); (ireg5, F_rs2, rs2)].
Definition asm_divd (as_ : assembler) (rd rs1 rs2 : Z) : option (assembler * bool) :=
  asm as_ rv_op_divd [(ireg5, F_rd, rd); (ireg5, F_rs1, rs1); (ireg5, F_rs2, rs2)].
Definition asm_divud (as_ : assembler) (rd rs1 rs2 : Z) : option (assembler * bool) :=
  asm as_ rv_op_divud [(ireg5, F_rd, rd); (ireg5, F_rs1, rs1); (ireg5, F_rs2, rs2)].
Definition asm_remd (as_ : assembler) (rd rs1 rs2 : Z) : option (assembler * bool) :=
  asm as_ rv_op_remd [(ireg5, F_rd, rd); (ireg5, F_rs1, rs1); (ireg5, F_rs2, rs2)].
Definition asm_remud (as_ : assembler) (rd rs1 rs2 : Z) : option (assembler * bool) :=
  asm as_ rv_op_remud [(ireg5, F_rd, rd); (ireg5, F_rs1, rs1); (ireg5, F_rs2, rs2)].
Definition asm_lr_w (as_ : assembler) (rd rs1 aq rl : Z) : option (assembler * bool) :=
  asm as_ rv_op_lr_w [(ireg5, F_rd, rd); (ireg5, F_rs1, rs1); (arg1, F_aq, aq); (arg1, F_rl, rl)].
Definition asm_sc_w (as_ : assembler) (rd rs1 rs2 aq rl : Z) : option (assembler * bool) :=
  asm as_ rv_op_sc_w [(ireg5, F_rd, rd); (ireg5, F_rs1, rs1); (ireg5, F_rs2, rs2); (arg1, F_aq, aq); (arg1, F_rl, rl)].
Definition asm_amoswap_w (as_ : assembler) (rd rs1 rs2 aq rl : Z) : option (assembler * bool) :=
  asm as_ rv_op_amoswap_w [(ireg5, F_rd, rd); (ireg5, F_rs1, rs1); (ireg5, F_rs2, rs2); (arg1, F_aq, aq); (arg1, F_rl, rl)].
Definition asm_amoadd_w (as_ : assembler) (rd rs1 rs2 aq rl : Z) : option (assembler * bool) :=
  asm as_ rv_op_amoadd_w [(ireg5, F_rd, rd); (ireg5, F_rs1, rs1); (ireg5, F_rs2, rs2); (arg1, F_aq, aq); (arg1, F_rl, rl)].
Definition asm_amoxor_w (as_ : assembler) (rd rs1 rs2 aq rl : Z) : option (assembler * bool) :=
  asm as_ rv_op_amoxor_w [(ireg5, F_rd, rd); (ireg5, F_rs1, rs1); (ireg5, F_rs2, rs2); (arg1, F_aq, aq); (arg1, F_rl, rl)].
Definition asm_amoor_w (as_ : assembler) (rd rs1 rs2 aq rl : Z) : option (assembler * bool) :=
  asm as_ rv_op_amoor_w [(ireg5, F_rd, rd); (ireg5, F_rs1, rs1); (ireg5, F_rs2, rs2); (arg1, F_aq, aq); (arg1, F_rl, rl)].
Definition asm_amoand_w (as_ : assembler) (rd rs1 rs2 aq rl : Z) : option (assembler * bool) :=
  asm as_ rv_op_amoand_w [(ireg5, F_rd, rd); (ireg5, F_rs1, rs1); (ireg5, F_rs2, rs2); (arg1, F_aq, aq); (arg1, F_rl, rl)].
Definition asm_amomin_w (as_ : assembler) (rd rs1 rs2 aq rl : Z) : option (assembler * bool) :=
  asm as_ rv_op_amomin_w [(ireg5, F_rd, rd); (ireg5, F_rs1, rs1); (ireg5, F_rs2, rs2); (arg1, F_aq, aq); (arg1, F_rl, rl)].
Definition asm_amomax_w (as_ : assembler) (rd rs1 rs2 aq rl : Z) : option (assembler * bool) :=
  asm as_ rv_op_amomax_w [(ireg5, F_rd, rd); (ireg5, F_rs1, rs1); (ireg5, F_rs2, rs2); (arg1, F_aq, aq); (arg1, F_rl, rl)].
Definition asm_amominu_w (as_ : assembler) (rd rs1 rs2 aq rl : Z) : option (assembler * bool) :=
  asm as_ rv_op_amominu_w [(ireg5, F_rd, rd); (ireg5, F_rs1, rs1); (ireg5, F_rs2, rs2); (arg1, F_aq, aq); (arg1, F_rl, rl)].
Definition asm_amomaxu_w (as_ : assembler) (rd rs1 rs2 aq rl : Z) : option (assembler * bool) :=
  asm as_ rv_op_amomaxu_w [(ireg5, F_rd, rd); (ireg5, F_rs1, rs1); (ireg5, F_rs2, rs2); (arg1, F_aq, aq); (arg1, F_rl, rl)].
Definition asm_lr_d (as_ : assembler) (rd rs1 aq rl : Z) : option (assembler * bool) :=
  asm as_ rv_op_lr_d [(ireg5, F_rd, rd); (ireg5, F_rs1, rs1); (arg1, F_aq, aq); (arg1, F_rl, rl)].
Definition asm_sc_d (as_ : assembler) (rd rs1 rs2 aq rl : Z) : option (assembler * bool) :=
  asm as_ rv_op_sc_d [(ireg5, F_rd, rd); (ireg5, F_rs1, rs1); (ireg5, F_rs2, rs2); (arg1, F_aq, aq); (arg1, F_rl, rl)].
Definition asm_amoswap_d (as_ : assembler) (rd rs1 rs2 aq rl : Z) : option (assembler * bool) :=
  asm as_ rv_op_amoswap_d [(ireg5, F_rd, rd); (ireg5, F_rs1, rs1); (ireg5, F_rs2, rs2); (arg1, F_aq, aq); (arg1, F_rl, rl)].
Definition asm_amoadd_d (as_ : assembler) (rd rs1 rs2 aq rl : Z) : option (assembler * bool) :=
  asm as_ rv_op_amoadd_d [(ireg5, F_rd, rd); (ireg5, F_rs1, rs1); (ireg5, F_rs2, rs2); (arg1, F_aq, aq); (arg1, F_rl, rl)].
Definition asm_amoxor_d (as_ : assembler) (rd rs1 rs2 aq rl : Z) : option (assembler * bool) :=
  asm as_ rv_op_amoxor_d [(ireg5, F_rd, rd); (ireg5, F_rs1, rs1); (ireg5, F_rs2, rs2); (arg1, F_aq, aq); (arg1, F_rl, rl)].
Definition asm_amoor_d (as_ : assembler) (rd rs1 rs2 aq rl : Z) : option (assembler * bool) :=
  asm as_ rv_op_amoor_d [(ireg5, F_rd, rd); (ireg5, F_rs1, rs1); (ireg5, F_rs2, rs2); (arg1, F_aq, aq); (arg1, F_rl, rl)].
Definition asm_amoand_d (as_ : assembler) (rd rs1 rs2 aq rl : Z) : option (assembler * bool) :=
  asm as_ rv_op_amoand_d [(ireg5, F_rd, rd); (ireg5, F_rs1, rs1); (ireg5, F_rs2, rs2); (arg1, F_aq, aq); (arg1, F_rl, rl)].
Definition asm_amomin_d (as_ : assembler) (rd rs1 rs2 aq rl : Z) : option (assembler * bool) :=
  asm as_ rv_op_amomin_d [(ireg5, F_rd, rd); (ireg5, F_rs1, rs1); (ireg5, F_rs2, rs2); (arg1, F_aq, aq); (arg1, F_rl, rl)].
Definition asm_amomax_d (as_ : assembler) (rd rs1 rs2 aq rl : Z) : option (assembler * bool) :=
  asm as_ rv_op_amomax_d [(ireg5, F_rd, rd); (ireg5, F_rs1, rs1); (ireg5, F_rs2, rs2); (arg1, F_aq, aq); (arg1, F_rl, rl)].
Definition asm_amominu_d (as_ : assembler) (rd rs1 rs2 aq rl : Z) : option (assembler * bool) :=
  asm as_ rv_op_amominu_d [(ireg5, F_rd, rd); (ireg5, F_rs1, rs1); (ireg5, F_rs2, rs2); (arg1, F_aq, aq); (arg1, F_rl, rl)].
Definition asm_amomaxu_d (as_ : assembler) (rd rs1 rs2 aq rl : Z) : option (assembler * bool) :=
  asm as_ rv_op_amomaxu_d [(ireg5, F_rd, rd); (ireg5, F_rs1, rs1); (ireg5, F_rs2, rs2); (arg1, F_aq, aq); (arg1, F_rl, rl)].
Definition asm_lr_q (as_ : assembler) (rd rs1 aq rl : Z) : option (assembler * bool) :=
  asm as_ rv_op_lr_q [(ireg5, F_rd, rd); (ireg5, F_rs1, rs1); (arg1, F_aq, aq); (arg1, F_rl, rl)].
Definition asm_sc_q (as_ : assembler) (rd rs1 rs2 aq rl : Z) : option (assembler * bool) :=
  asm as_ rv_op_sc_q [(ireg5, F_rd, rd); (ireg5, F_rs1, rs1); (ireg5, F_rs2, rs2); (arg1, F_aq, aq); (arg1, F_rl, rl)].
Definition asm_amoswap_q (as_ : assembler) (rd rs1 rs2 aq rl : Z) : option (assembler * bool) :=
  asm as_ rv_op_amoswap_q [(ireg5, F_rd, rd); (ireg5, F_rs1, rs1); (ireg5, F_rs2, rs2); (arg1, F_aq, aq); (arg1, F_rl, rl)].
Definition asm_amoadd_q (as_ : assembler) (rd rs1 rs2 aq rl : Z) : option (assembler * bool) :=
  asm as_ rv_op_amoadd_q [(ireg5, F_rd, rd); (ireg5, F_rs1, rs1); (ireg5, F_rs2, rs2); (arg1, F_aq, aq); (arg1, F_rl, rl)].
Definition asm_amoxor_q (as_ : assembler) (rd rs1 rs2 aq rl : Z) : option (assembler * bool) :=
  asm as_ rv_op_amoxor_q [(ireg5, F_rd, rd); (ireg5, F_rs1, rs1); (ireg5, F_rs2, rs2); (arg1, F_aq, aq); (arg1, F_rl, rl)].
Definition asm_amoor_q (as_ : assembler) (rd rs1 rs2 aq rl : Z) : option (assembler * bool) :=
  asm as_ rv_op_amoor_q [(ireg5, F_rd, rd); (ireg5, F_rs1, rs1); (ireg5, F_rs2, rs2); (arg1, F_aq, aq); (arg1, F_rl, rl)].
Definition asm_amoand_q (as_ : assembler) (rd rs1 rs2 aq rl : Z) : option (assembler * bool) :=
  asm as_ rv_op_amoand_q [(ireg5, F_rd, rd); (ireg5, F_rs1, rs1); (ireg5, F_rs2, rs2); (arg1, F_aq, aq); (arg1, F_rl, rl)].
Definition asm_amomin_q (as_ : assembler) (rd rs1 rs2 aq rl : Z) : option (assembler * bool) :=
  asm as_ rv_op_amomin_q [(ireg5, F_rd, rd); (ireg5, F_rs1, rs1); (ireg5, F_rs2, rs2); (arg1, F_aq, aq); (arg1, F_rl, rl)].
Definition asm_amomax_q (as_ : assembler) (rd rs1 rs2 aq rl : Z) : option (assembler * bool) :=
  asm as_ rv_op_amomax_q [(ireg5, F_rd, rd); (ireg5, F_rs1, rs1); (ireg5, F_rs2, rs2); (arg1, F_aq, aq); (arg1, F_rl, rl)].
Definition asm_amominu_q (as_ : assembler) (rd rs1 rs2 aq rl : Z) : option (assembler * bool) :=
  asm as_ rv_op_amominu_q [(ireg5, F_rd, rd); (ireg5, F_rs1, rs1); (ireg5, F_rs2, rs2); (arg1, F_aq, aq); (arg1, F_rl, rl)].
Definition asm_amomaxu_q (as_ : assembler) (rd rs1 rs2 aq rl : Z) : option (assembler * bool) :=
  asm as_ rv_op_amomaxu_q [(ireg5, F_rd, rd); (ireg5, F_rs1, rs1); (ireg5, F_rs2, rs2); (arg1, F_aq, aq); (arg1, F_rl, rl)].
Definition asm_ecall (as_ : assembler) : option (assembler * bool) :=
  asm as_ rv_op_ecall [].
Definition asm_ebreak (as_ : assembler) : option (assembler * bool) :=
  asm as_ rv_op_ebreak [].
Definition asm_uret (as_ : assembler) : option (assembler * bool) :=
  asm as_ rv_op_uret [].
Definition asm_sret (as_ : assembler) : option (assembler * bool) :=
  asm as_ rv_op_sret [].
Definition asm_hret (as_ : assembler) : option (assembler * bool) :=
  asm as_ rv_op_hret [].
Definition asm_mret (as_ : assembler) : option (assembler * bool) :=
  asm as_ rv_op_mret [].
Definition asm_dret (as_ : assembler) : option (assembler * bool) :=
  asm as_ rv_op_dret [].
Definition asm_sfence_vm (as_ : assembler) (rs1 : Z) : option (assembler * bool) :=
  asm as_ rv_op_sfence_vm [(ireg5, F_rs1, rs1)].
Definition asm_sfence_vma (as_ : assembler) (rs1 rs2 : Z) : option (assembler * bool) :=
  asm as_ rv_op_sfence_vma [(ireg5, F_rs1, rs1); (ireg5, F_rs2, rs2)].
Definition asm_wfi (as_ : assembler) : option (assembler * bool) :=
  asm as_ rv_op_wfi [].
Definition asm_csrrw (as_ : assembler) (rd rs1 csr12 : Z) : option (assembler * bool) :=
  asm as_ rv_op_csrrw [(ireg5, F_rd, rd); (ireg5, F_rs1, rs1); (uimm12, F_imm, csr12)].
Definition asm_csrrs (as_ : assembler) (rd rs1 csr12 : Z) : option (assembler * bool) :=
  asm as_ rv_op_csrrs [(ireg5, F_rd, rd); (ireg5, F_rs1, rs1); (uimm12, F_imm, csr12)].
Definition asm_csrrc (as_ : assembler) (rd rs1 csr12 : Z) : option (assembler * bool) :=
  asm as_ rv_op_csrrc [(ireg5, F_rd, rd); (ireg5, F_rs1, rs1); (uimm12, F_imm, csr12)].
Definition asm_csrrwi (as_ : assembler) (rd zimm csr12 : Z) : option (assembler * bool) :=
  asm as_ rv_op_csrrwi [(ireg5, F_rd, rd); (uimm5, F_imm, zimm); (uimm12, F_imm, csr12)].
Definition asm_csrrsi (as_ : assembler) (rd zimm csr12 : Z) : option (assembler * bool) :=
  asm as_ rv_op_csrrsi [(ireg5, F_rd, rd); (uimm5, F_imm, zimm); (uimm12, F_imm, csr12)].
Definition asm_csrrci (as_ : assembler) (rd zimm csr12 : Z) : option (assembler * bool) :=
  asm as_ rv_op_csrrci [(ireg5, F_rd, rd); (uimm5, F_imm, zimm); (uimm12, F_imm, csr12)].
Definition asm_flw (as_ : assembler) (frd rs1 oimm12 : Z) : option (assembler * bool) :=
  asm as_ rv_op_flw [(freg5, F_rd, frd); (ireg5, F_rs1, rs1); (offset12, F_imm, oimm12)].
Definition asm_fsw (as_ : assembler) (rs1 frs2 simm12 : Z) : option (assembler * bool) :=
  asm as_ rv_op_fsw [(ireg5, F_rs1, rs1); (freg5, F_rs2, frs2); (offset12, F_imm, simm12)].
Definition asm_fmadd_s (as_ : assembler) (frd frs1 frs2 frs3 rm : Z) : option (assembler * bool) :=
  asm as_ rv_op_fmadd_s [(freg5, F_rd, frd); (freg5, F_rs1, frs1); (freg5, F_rs2, frs2); (freg5, F_rs3, frs3); (arg3, F_rm, rm)].
Definition asm_fmsub_s (as_ : assembler) (frd frs1 frs2 frs3 rm : Z) : option (assembler * bool) :=
  asm as_ rv_op_fmsub_s [(freg5, F_rd, frd); (freg5, F_rs1, frs1); (freg5, F_rs2, frs2); (freg5, F_rs3, frs3); (arg3, F_rm, rm)].
Definition asm_fnmsub_s (as_ : assembler) (frd frs1 frs2 frs3 rm : Z) : option (assembler * bool) :=
  asm as_ rv_op_fnmsub_s [(freg5, F_rd, frd); (freg5, F_rs1, frs1); (freg5, F_rs2, frs2); (freg5, F_rs3, frs3); (arg3, F_rm, rm)].
Definition asm_fnmadd_s (as_ : assembler) (frd frs1 frs2 frs3 rm : Z) : option (assembler * bool) :=
  asm as_ rv_op_fnmadd_s [(freg5, F_rd, frd); (freg5, F_rs1, frs1); (freg5, F_rs2, frs2); (freg5, F_rs3, frs3); (arg3, F_rm, rm)].
Definition asm_fadd_s (as_ : assembler) (frd frs1 frs2 rm : Z) : option (assembler * bool) :=
  asm as_ rv_op_fadd_s [(freg5, F_rd, frd); (freg5, F_rs1, frs1); (freg5, F_rs2, frs2); (arg3, F_rm, rm)].
Definition asm_fsub_s (as_ : assembler) (frd frs1 frs2 rm : Z) : option (assembler * bool) :=
  asm as_ rv_op_fsub_s [(freg5, F_rd, frd); (freg5, F_rs1, frs1); (freg5, F_rs2, frs2); (arg3, F_rm, rm)].
Definition asm_fmul_s (as_ : assembler) (frd frs1 frs2 rm : Z) : option (assembler * bool) :=
  asm as_ rv_op_fmul_s [(freg5, F_rd, frd); (freg5, F_rs1, frs1); (freg5, F_rs2, frs2); (arg3, F_rm, rm)].
Definition asm_fdiv_s (as_ : assembler) (frd frs1 frs2 rm : Z) : option (assembler * bool) :=
  asm as_ rv_op_fdiv_s [(freg5, F_rd, frd); (freg5, F_rs1, frs1); (freg5, F_rs2, frs2); (arg3, F_rm, rm)].
Definition asm_fsgnj_s (as_ : assembler) (frd frs1 frs2 : Z) : option (assembler * bool) :=
  asm as_ rv_op_fsgnj_s [(freg5, F_rd, frd); (freg5, F_rs1, frs1); (freg5, F_rs2, frs2)].
Definition asm_fsgnjn_s (as_ : assembler) (frd frs1 frs2 : Z) : option (assembler * bool) :=
  asm as_ rv_op_fsgnjn_s [(freg5, F_rd, frd); (freg5, F_rs1, frs1); (freg5, F_rs2, frs2)].
Definition asm_fsgnjx_s (as_ : assembler) (frd frs1 frs2 : Z) : option (assembler * bool) :=
  asm as_ rv_op_fsgnjx_s [(freg5, F_rd, frd); (freg5, F_rs1, frs1); (freg5, F_rs2, frs2)].
Definition asm_fmin_s (as_ : assembler) (frd frs1 frs2 : Z) : option (assembler * bool) :=
  asm as_ rv_op_fmin_s [(freg5, F_rd, frd); (freg5, F_rs1, frs1); (freg5, F_rs2, frs2)].
Definition asm_fmax_s (as_ : assembler) (frd frs1 frs2 : Z) : option (assembler * bool) :=
  asm as_ rv_op_fmax_s [(freg5, F_rd, frd); (freg5, F_rs1, frs1); (freg5, F_rs2, frs2)].
Definition asm_fsqrt_s (as_ : assembler) (frd frs1 rm : Z) : option (assembler * bool) :=
  asm as_ rv_op_fsqrt_s [(freg5, F_rd, frd); (freg5, F_rs1, frs1); (arg3, F_rm, rm)].
Definition asm_fle_s (as_ : assembler) (rd frs1 frs2 : Z) : option (assembler * bool) :=
  asm as_ rv_op_fle_s [(ireg5, F_rd, rd); (freg5, F_rs1, frs1); (freg5, F_rs2, frs2)].
Definition asm_flt_s (as_ : assembler) (rd frs1 frs2 : Z) : option (assembler * bool) :=
  asm as_ rv_op_flt_s [(ireg5, F_rd, rd); (freg5, F_rs1, frs1); (freg5, F_rs2, frs2)].
Definition asm_feq_s (as_ : assembler) (rd frs1 frs2 : Z) : option (assembler * bool) :=
  asm as_ rv_op_feq_s [(ireg5, F_rd, rd); (freg5, F_rs1, frs1); (freg5, F_rs2, frs2)].
Definition asm_fcvt_w_s (as_ : assembler) (rd frs1 rm : Z) : option (assembler * bool) :=
  asm as_ rv_op_fcvt_w_s [(ireg5, F_rd, rd); (freg5, F_rs1, frs1); (arg3, F_rm, rm)].
Definition asm_fcvt_wu_s (as_ : assembler) (rd frs1 rm : Z) : option (assembler * bool) :=
  asm as_ rv_op_fcvt_wu_s [(ireg5, F_rd, rd); (freg5, F_rs1, frs1); (arg3, F_rm, rm)].
Definition asm_fcvt_s_w (as_ : assembler) (frd rs1 rm : Z) : option (assembler * bool) :=
  asm as_ rv_op_fcvt_s_w [(freg5, F_rd, frd); (ireg5, F_rs1, rs1); (arg3, F_rm, rm)].
Definition asm_fcvt_s_wu (as_ : assembler) (frd rs1 rm : Z) : option (assembler * bool) :=
  asm as_ rv_op_fcvt_s_wu [(freg5, F_rd, frd); (ireg5, F_rs1, rs1); (arg3, F_rm, rm)].
Definition asm_fmv_x_s (as_ : assembler) (rd frs1 : Z) : option (assembler * bool) :=
  asm as_ rv_op_fmv_x_s [(ireg5, F_rd, rd); (freg5, F_rs1, frs1)].
Definition asm_fclass_s (as_ : assembler) (rd frs1 : Z) : option (assembler * bool) :=
  asm as_ rv_op_fclass_s [(ireg5, F_rd, rd); (freg5, F_rs1, frs1)].
Definition asm_fmv_s_x (as_ : assembler) (frd rs1 : Z) : option (assembler * bool) :=
  asm as_ rv_op_fmv_s_x [(freg5, F_rd, frd); (ireg5, F_rs1, rs1)].
Definition asm_fcvt_l_s (as_ : assembler) (rd frs1 rm : Z) : option (assembler * bool) :=
  asm as_ rv_op_fcvt_l_s [(ireg5, F_rd, rd); (freg5, F_rs1, frs1); (arg3, F_rm, rm)].
Definition asm_fcvt_lu_s (as_ : assembler) (rd frs1 rm : Z) : option (assembler * bool) :=
  asm as_ rv_op_fcvt_lu_s [(ireg5, F_rd, rd); (freg5, F_rs1, frs1); (arg3, F_rm, rm)].
Definition asm_fcvt_s_l (as_ : assembler) (frd rs1 rm : Z) : option (assembler * bool) :=
  asm as_ rv_op_fcvt_s_l [(freg5, F_rd, frd); (ireg5, F_rs1, rs1); (arg3, F_rm, rm)].
Definition asm_fcvt_s_lu (as_ : assembler) (frd rs1 rm : Z) : option (assembler * bool) :=
  asm as_ rv_op_fcvt_s_lu [(freg5, F_rd, frd); (ireg5, F_rs1, rs1); (arg3, F_rm, rm)].
Definition asm_fld (as_ : assembler) (frd rs1 oimm12 : Z) : option (assembler * bool) :=
  asm as_ rv_op_fld [(freg5, F_rd, frd); (ireg5, F_rs1, rs1); (offset12, F_imm, oimm12)].
Definition asm_fsd (as_ : assembler) (rs1 frs2 simm12 : Z) : option (assembler * bool) :=
  asm as_ rv_op_fsd [(ireg5, F_rs1, rs1); (freg5, F_rs2, frs2); (offset12, F_imm, simm12)].
Definition asm_fmadd_d (as_ : assembler) (frd frs1 frs2 frs3 rm : Z) : option (assembler * bool) :=
  asm as_ rv_op_fmadd_d [(freg5, F_rd, frd); (freg5, F_rs1, frs1); (freg5, F_rs2, frs2); (freg5, F_rs3, frs3); (arg3, F_rm, rm)].
Definition asm_fmsub_d (as_ : assembler) (frd frs1 frs2 frs3 rm : Z) : option (assembler * bool) :=
  asm as_ rv_op_fmsub_d [(freg5, F_rd, frd); (freg5, F_rs1, frs1); (freg5, F_rs2, frs2); (freg5, F_rs3, frs3); (arg3, F_rm, rm)].
Definition asm_fnmsub_d (as_ : assembler) (frd frs1 frs2 frs3 rm : Z) : option (assembler * bool) :=
  asm as_ rv_op_fnmsub_d [(freg5, F_rd, frd); (freg5, F_rs1, frs1); (freg5, F_rs2, frs2); (freg5, F_rs3, frs3); (arg3, F_rm, rm)].
Definition asm_fnmadd_d (as_ : assembler) (frd frs1 frs2 frs3 rm : Z) : option (assembler * bool) :=
  asm as_ rv_op_fnmadd_d [(freg5, F_rd, frd); (freg5, F_rs1, frs1); (freg5, F_rs2, frs2); (freg5, F_rs3, frs3); (arg3, F_rm, rm)].
Definition asm_fadd_d (as_ : assembler) (frd frs1 frs2 rm : Z) : option (assembler * bool) :=
  asm as_ rv_op_fadd_d [(freg5, F_rd, frd); (freg5, F_rs1, frs1); (freg5, F_rs2, frs2); (arg3, F_rm, rm)].
Definition asm_fsub_d (as_ : assembler) (frd frs1 frs2 rm : Z) : option (assembler * bool) :=
  asm as_ rv_op_fsub_d [(freg5, F_rd, frd); (freg5, F_rs1, frs1); (freg5, F_rs2, frs2); (arg3, F_rm, rm)].
Definition asm_fmul_d (as_ : assembler) (frd frs1 frs2 rm : Z) : option (assembler * bool) :=
  asm as_ rv_op_fmul_d [(freg5, F_rd, frd); (freg5, F_rs1, frs1); (freg5, F_rs2, frs2); (arg3, F_rm, rm)].
Definition asm_fdiv_d (as_ : assembler) (frd frs1 frs2 rm : Z) : option (assembler * bool) :=
  asm as_ rv_op_fdiv_d [(freg5, F_rd, frd); (freg5, F_rs1, frs1); (freg5, F_rs2, frs2); (arg3, F_rm, rm)].
Definition asm_fsgnj_d (as_ : assembler) (frd frs1 frs2 : Z) : option (assembler * bool) :=
  asm as_ rv_op_fsgnj_d [(freg5, F_rd, frd); (freg5, F_rs1, frs1); (freg5, F_rs2, frs2)].
Definition asm_fsgnjn_d (as_ : assembler) (frd frs1 frs2 : Z) : option (assembler * bool) :=
  asm as_ rv_op_fsgnjn_d [(freg5, F_rd, frd); (freg5, F_rs1, frs1); (freg5, F_rs2, frs2)].
Definition asm_fsgnjx_d (as_ : assembler) (frd frs1 frs2 : Z) : option (assembler * bool) :=
  asm as_ rv_op_fsgnjx_d [(freg5, F_rd, frd); (freg5, F_rs1, frs1); (freg5, F_rs2, frs2)].
Definition asm_fmin_d (as_ : assembler) (frd frs1 frs2 : Z) : option (assembler * bool) :=
  asm as_ rv_op_fmin_d [(freg5, F_rd, frd); (freg5, F_rs1, frs1); (freg5, F_rs2, frs2)].
Definition asm_fmax_d (as_ : assembler) (frd frs1 frs2 : Z) : option (assembler * bool) :=
  asm as_ rv_op_fmax_d [(freg5, F_rd, frd); (freg5, F_rs1, frs1); (freg5, F_rs2, frs2)].
Definition asm_fcvt_s_d (as_ : assembler) (frd frs1 rm : Z) : option (assembler * bool) :=
  asm as_ rv_op_fcvt_s_d [(freg5, F_rd, frd); (freg5, F_rs1, frs1); (arg3, F_rm, rm)].
Definition asm_fcvt_d_s (as_ : assembler) (frd frs1 rm : Z) : option (assembler * bool) :=
  asm as_ rv_op_fcvt_d_s [(freg5, F_rd, frd); (freg5, F_rs1, frs1); (arg3, F_rm, rm)].
Definition asm_fsqrt_d (as_ : assembler) (frd frs1 rm : Z) : option (assembler * bool) :=
  asm as_ rv_op_fsqrt_d [(freg5, F_rd, frd); (freg5, F_rs1, frs1); (arg3, F_rm, rm)].
Definition asm_fle_d (as_ : assembler) (rd frs1 frs2 : Z) : option (assembler * bool) :=
  asm as_ rv_op_fle_d [(ireg5, F_rd, rd); (freg5, F_rs1, frs1); (freg5, F_rs2, frs2)].
Definition asm_flt_d (as_ : assembler) (rd frs1 frs2 : Z) : option (assembler * bool) :=
  asm as_ rv_op_flt_d [(ireg5, F_rd, rd); (freg5, F_rs1, frs1); (freg5, F_rs2, frs2)].
Definition asm_feq_d (as_ : assembler) (rd frs1 frs2 : Z) : option (assembler * bool) :=
  asm as_ rv_op_feq_d [(ireg5, F_rd, rd); (freg5, F_rs1, frs1); (freg5, F_rs2, frs2)].
Definition asm_fcvt_w_d (as_ : assembler) (rd frs1 rm : Z) : option (assembler * bool) :=
  asm as_ rv_op_fcvt_w_d [(ireg5, F_rd, rd); (freg5, F_rs1, frs1); (arg3, F_rm, rm)].
Definition asm_fcvt_wu_d (as_ : assembler) (rd frs1 rm : Z) : option (assembler * bool) :=
  asm as_ rv_op_fcvt_wu_d [(ireg5, F_rd, rd); (freg5, F_rs1, frs1); (arg3, F_rm, rm)].
Definition asm_fcvt_d_w (as_ : assembler) (frd rs1 rm : Z) : option (assembler * bool) :=
  asm as_ rv_op_fcvt_d_w [(freg5, F_rd, frd); (ireg5, F_rs1, rs1); (arg3, F_rm, rm)].
Definition asm_fcvt_d_wu (as_ : assembler) (frd rs1 rm : Z) : option (assembler * bool) :=
  asm as_ rv_op_fcvt_d_wu [(freg5, F_rd, frd); (ireg5, F_rs1, rs1); (arg3, F_rm, rm)].
Definition asm_fclass_d (as_ : assembler) (rd frs1 : Z) : option (assembler * bool) :=
  asm as_ rv_op_fclass_d [(ireg5, F_rd, rd); (freg5, F_rs1, frs1)].
Definition asm_fcvt_l_d (as_ : assembler) (rd frs1 rm : Z) : option (assembler * bool) :=
  asm as_ rv_op_fcvt_l_d [(ireg5, F_rd, rd); (freg5, F_rs1, frs1); (arg3, F_rm, rm)].
Definition asm_fcvt_lu_d (as_ : assembler) (rd frs1 rm : Z) : option (assembler * bool) :=
  asm as_ rv_op_fcvt_lu_d [(ireg5, F_rd, rd); (freg5, F_rs1, frs1); (arg3, F_rm, rm)].
Definition asm_fmv_x_d (as_ : assembler) (rd frs1 : Z) : option (assembler * bool) :=
  asm as_ rv_op_fmv_x_d [(ireg5, F_rd, rd); (freg5, F_rs1, frs1)].
Definition asm_fcvt_d_l (as_ : assembler) (frd rs1 rm : Z) : option (assembler * bool) :=
  asm as_ rv_op_fcvt_d_l [(freg5, F_rd, frd); (ireg5, F_rs1, rs1); (arg3, F_rm, rm)].
Definition asm_fcvt_d_lu (as_ : assembler) (frd rs1 rm : Z) : option (assembler * bool) :=
  asm as_ rv_op_fcvt_d_lu [(freg5, F_rd, frd); (ireg5, F_rs1, rs1); (arg3, F_rm, rm)].
Definition asm_fmv_d_x (as_ : assembler) (frd rs1 : Z) : option (assembler * bool) :=
  asm as_ rv_op_fmv_d_x [(freg5, F_rd, frd); (ireg5, F_rs1, rs1)].
Definition asm_flq (as_ : assembler) (frd rs1 oimm12 : Z) : option (assembler * bool) :=
  asm as_ rv_op_flq [(freg5, F_rd, frd); (ireg5, F_rs1, rs1); (offset12, F_imm, oimm12)].
Definition asm_fsq (as_ : assembler) (rs1 frs2 simm12 : Z) : option (assembler * bool) :=
  asm as_ rv_op_fsq [(ireg5, F_rs1, rs1); (freg5, F_rs2, frs2); (offset12, F_imm, simm12)].
Definition asm_fmadd_q (as_ : assembler) (frd frs1 frs2 frs3 rm : Z) : option (assembler * bool) :=
  asm as_ rv_op_fmadd_q [(freg5, F_rd, frd); (freg5, F_rs1, frs1); (freg5, F_rs2, frs2); (freg5, F_rs3, frs3); (arg3, F_rm, rm)].
Definition asm_fmsub_q (as_ : assembler) (frd frs1 frs2 frs3 rm : Z) : option (assembler * bool) :=
  asm as_ rv_op_fmsub_q [(freg5, F_rd, frd); (freg5, F_rs1, frs1); (freg5, F_rs2, frs2); (freg5, F_rs3, frs3); (arg3, F_rm, rm)].
Definition asm_fnmsub_q (as_ : assembler) (frd frs1 frs2 frs3 rm : Z) : option (assembler * bool) :=
  asm as_ rv_op_fnmsub_q [(freg5, F_rd, frd); (freg5, F_rs1, frs1); (freg5, F_rs2, frs2); (freg5, F_rs3, frs3); (arg3, F_rm, rm)].
Definition asm_fnmadd_q (as_ : assembler) (frd frs1 frs2 frs3 rm : Z) : option (assembler * bool) :=
  asm as_ rv_op_fnmadd_q [(freg5, F_rd, frd); (freg5, F_rs1, frs1); (freg5, F_rs2, frs2); (freg5, F_rs3, frs3); (arg3, F_rm, rm)].
Definition asm_fadd_q (as_ : assembler) (frd frs1 frs2 rm : Z) : option (assembler * bool) :=
  asm as_ rv_op_fadd_q [(freg5, F_rd, frd); (freg5, F_rs1, frs1); (freg5, F_rs2, frs2); (arg3, F_rm, rm)].
Definition asm_fsub_q (as_ : assembler) (frd frs1 frs2 rm : Z) : option (assembler * bool) :=
  asm as_ rv_op_fsub_q [(freg5, F_rd, frd); (freg5, F_rs1, frs1); (freg5, F_rs2, frs2); (arg3, F_rm, rm)].
Definition asm_fmul_q (as_ : assembler) (frd frs1 frs2 rm : Z) : option (assembler * bool) :=
  asm as_ rv_op_fmul_q [(freg5, F_rd, frd); (freg5, F_rs1, frs1); (freg5, F_rs2, frs2); (arg3, F_rm, rm)].
Definition asm_fdiv_q (as_ : assembler) (frd frs1 frs2 rm : Z) : option (assembler * bool) :=
  asm as_ rv_op_fdiv_q [(freg5, F_rd, frd); (freg5, F_rs1, frs1); (freg5, F_rs2, frs2); (arg3, F_rm, rm)].
Definition asm_fsgnj_q (as_ : assembler) (frd frs1 frs2 : Z) : option (assembler * bool) :=
  asm as_ rv_op_fsgnj_q [(freg5, F_rd, frd); (freg5, F_rs1, frs1); (freg5, F_rs2, frs2)].
Definition asm_fsgnjn_q (as_ : assembler) (frd frs1 frs2 : Z) : option (assembler * bool) :=
  asm as_ rv_op_fsgnjn_q [(freg5, F_rd, frd); (freg5, F_rs1, frs1); (freg5, F_rs2, frs2)].
Definition asm_fsgnjx_q (as_ : assembler) (frd frs1 frs2 : Z) : option (assembler * bool) :=
  asm as_ rv_op_fsgnjx_q [(freg5, F_rd, frd); (freg5, F_rs1, frs1); (freg5, F_rs2, frs2)].
Definition asm_fmin_q (as_ : assembler) (frd frs1 frs2 : Z) : option (assembler * bool) :=
  asm as_ rv_op_fmin_q [(freg5, F_rd, frd); (freg5, F_rs1, frs1); (freg5, F_rs2, frs2)].
Definition asm_fmax_q (as_ : assembler) (frd frs1 frs2 : Z) : option (assembler * bool) :=
  asm as_ rv_op_fmax_q [(freg5, F_rd, frd); (freg5, F_rs1, frs1); (freg5, F_rs2, frs2)].
Definition asm_fcvt_s_q (as_ : assembler) (frd frs1 rm : Z) : option (assembler * bool) :=
  asm as_ rv_op_fcvt_s_q [(freg5, F_rd, frd); (freg5, F_rs1, frs1); (arg3, F_rm, rm)].
Definition asm_fcvt_q_s (as_ : assembler) (frd frs1 rm : Z) : option (assembler * bool) :=
  asm as_ rv_op_fcvt_q_s [(freg5, F_rd, frd); (freg5, F_rs1, frs1); (arg3, F_rm, rm)].
Definition asm_fcvt_d_q (as_ : assembler) (frd frs1 rm : Z) : option (assembler * bool) :=
  asm as_ rv_op_fcvt_d_q [(freg5, F_rd, frd); (freg5, F_rs1, frs1); (arg3, F_rm, rm)].
Definition asm_fcvt_q_d (as_ : assembler) (frd frs1 rm : Z) : option (assembler * bool) :=
  asm as_ rv_op_fcvt_q_d [(freg5, F_rd, frd); (freg5, F_rs1, frs1); (arg3, F_rm, rm)].
Definition asm_fsqrt_q (as_ : assembler) (frd frs1 rm : Z) : option (assembler * bool) :=
  asm as_ rv_op_fsqrt_q [(freg5, F_rd, frd); (freg5, F_rs1, frs1); (arg3, F_rm, rm)].
Definition asm_fle_q (as_ : assembler) (rd frs1 frs2 : Z) : option (assembler * bool) :=
  asm as_ rv_op_fle_q [(ireg5, F_rd, rd); (freg5, F_rs1, frs1); (freg5, F_rs2, frs2)].
Definition asm_flt_q (as_ : assembler) (rd frs1 frs2 : Z) : option (assembler * bool) :=
  asm as_ rv_op_flt_q [(ireg5, F_rd, rd); (freg5, F_rs1, frs1); (freg5, F_rs2, frs2)].
Definition asm_feq_q (as_ : assembler) (rd frs1 frs2 : Z) : option (assembler * bool) :=
  asm as_ rv_op_feq_q [(ireg5, F_rd, rd); (freg5, F_rs1, frs1); (freg5, F_rs2, frs2)].
Definition asm_fcvt_w_q (as_ : assembler) (rd frs1 rm : Z) : option (assembler * bool) :=
  asm as_ rv_op_fcvt_w_q [(ireg5, F_rd, rd); (freg5, F_rs1, frs1); (arg3, F_rm, rm)].
Definition asm_fcvt_wu_q (as_ : assembler) (rd frs1 rm : Z) : option (assembler * bool) :=
  asm as_ rv_op_fcvt_wu_q [(ireg5, F_rd, rd); (freg5, F_rs1, frs1); (arg3, F_rm, rm)].
Definition asm_fcvt_q_w (as_ : assembler) (frd rs1 rm : Z) : option (assembler * bool) :=
  asm as_ rv_op_fcvt_q_w [(freg5, F_rd, frd); (ireg5, F_rs1, rs1); (arg3, F_rm, rm)].
Definition asm_fcvt_q_wu (as_ : assembler) (frd rs1 rm : Z) : option (assembler * bool) :=
  asm as_ rv_op_fcvt_q_wu [(freg5, F_rd, frd); (ireg5, F_rs1, rs1); (arg3, F_rm, rm)].
Definition asm_fclass_q (as_ : assembler) (rd frs1 : Z) : option (assembler * bool) :=
  asm as_ rv_op_fclass_q [(ireg5, F_rd, rd); (freg5, F_rs1, frs1)].
Definition asm_fcvt_l_q (as_ : assembler) (rd frs1 rm : Z) : option (assembler * bool) :=
  asm as_ rv_op_fcvt_l_q [(ireg5, F_rd, rd); (freg5, F_rs1, frs1); (arg3, F_rm, rm)].
Definition asm_fcvt_lu_q (as_ : assembler) (rd frs1 rm : Z) : option (assembler * bool) :=
  asm as_ rv_op_fcvt_lu_q [(ireg5, F_rd, rd); (freg5, F_rs1, frs1); (arg3, F_rm, rm)].
Definition asm_fcvt_q_l (as_ : assembler) (frd rs1 rm : Z) : option (assembler * bool) :=
  asm as_ rv_op_fcvt_q_l [(freg5, F_rd, frd); (ireg5, F_rs1, rs1); (arg3, F_rm, rm)].
Definition asm_fcvt_q_lu (as_ : assembler) (frd rs1 rm : Z) : option (assembler * bool) :=
  asm as_ rv_op_fcvt_q_lu [(freg5, F_rd, frd); (ireg5, F_rs1, rs1); (arg3, F_rm, rm)].
Definition asm_fmv_x_q (as_ : assembler) (rd frs1 : Z) : option (assembler * bool) :=
  asm as_ rv_op_fmv_x_q [(ireg5, F_rd, rd); (freg5, F_rs1, frs1)].
Definition asm_fmv_q_x (as_ : assembler) (frd rs1 : Z) : option (assembler * bool) :=
  asm as_ rv_op_fmv_q_x [(freg5, F_rd, frd); (ireg5, F_rs1, rs1)].

(** ** The functions and the emitters *)

Definition assembling : Type := assembler -> list Z -> option (assembler * bool).
Definition afn0 (g : assembler -> option (assembler * bool)) : assembling := fun a l => match l with [] => g a | _ => None end.
Definition afn1 (g : assembler -> Z -> option (assembler * bool)) : assembling := fun a l => match l with [x] => g a x | _ => None end.
Definition afn2 (g : assembler -> Z -> Z -> option (assembler * bool)) : assembling := fun a l => match l with [x; y] => g a x y | _ => None end.
Definition afn3 (g : assembler -> Z -> Z -> Z -> option (assembler * bool)) : assembling := fun a l => match l with [x; y; z] => g a x y z | _ => None end.
Definition afn4 (g : assembler -> Z -> Z -> Z -> Z -> option (assembler * bool)) : assembling := fun a l => match l with [x; y; z; u] => g a x y z u | _ => None end.
Definition afn5 (g : assembler -> Z -> Z -> Z -> Z -> Z -> option (assembler * bool)) : assembling := fun a l => match l with [x; y; z; u; v] => g a x y z u v | _ => None end.

(** In the order of [emitters]. *)
Definition asm_functions : list assembling := [
  afn2 asm_lui;
  afn2 asm_auipc;
  afn2 asm_jal;
  afn3 asm_jalr;
  afn3 asm_beq;
  afn3 asm_bne;
  afn3 asm_blt;
  afn3 asm_bge;
  afn3 asm_bltu;
  afn3 asm_bgeu;
  afn3 asm_lb;
  afn3 asm_lh;
  afn3 asm_lw;
  afn3 asm_lbu;
  afn3 asm_lhu;
  afn3 asm_sb;
  afn3 asm_sh;
  afn3 asm_sw;
  afn3 asm_addi;
  afn3 asm_slti;
  afn3 asm_sltiu;
  afn3 asm_xori;
  afn3 asm_ori;
  afn3 asm_andi;
  afn3 asm_slli;
  afn3 asm_srli;
  afn3 asm_srai;
  afn3 asm_add;
  afn3 asm_sub;
  afn3 asm_sll;
  afn3 asm_slt;
  afn3 asm_sltu;
  afn3 asm_xor;
  afn3 asm_srl;
  afn3 asm_sra;
  afn3 asm_or;
  afn3 asm_and;
  afn2 asm_fence;
  afn0 asm_fence_i;
  afn3 asm_lwu;
  afn3 asm_ld;
  afn3 asm_sd;
  afn3 asm_addiw;
  afn3 asm_slliw;
  afn3 asm_srliw;
  afn3 asm_sraiw;
  afn3 asm_addw;
  afn3 asm_subw;
  afn3 asm_sllw;
  afn3 asm_srlw;
  afn3 asm_sraw;
  afn3 asm_ldu;
  afn3 asm_lq;
  afn3 asm_sq;
  afn3 asm_addid;
  afn3 asm_sllid;
  afn3 asm_srlid;
  afn3 asm_sraid;
  afn3 asm_addd;
  afn3 asm_subd;
  afn3 asm_slld;
  afn3 asm_srld;
  afn3 asm_srad;
  afn3 asm_mul;
  afn3 asm_mulh;
  afn3 asm_mulhsu;
  afn3 asm_mulhu;
  afn3 asm_div;
  afn3 asm_divu;
  afn3 asm_rem;
  afn3 asm_remu;
  afn3 asm_mulw;
  afn3 asm_divw;
  afn3 asm_divuw;
  afn3 asm_remw;
  afn3 asm_remuw;
  afn3 asm_muld;
  afn3 asm_divd;
  afn3 asm_divud;
  afn3 asm_remd;
  afn3 asm_remud;
  afn4 asm_lr_w;
  afn5 asm_sc_w;
  afn5 asm_amoswap_w;
  afn5 asm_amoadd_w;
  afn5 asm_amoxor_w;
  afn5 asm_amoor_w;
  afn5 asm_amoand_w;
  afn5 asm_amomin_w;
  afn5 asm_amomax_w;
  afn5 asm_amominu_w;
  afn5 asm_amomaxu_w;
  afn4 asm_lr_d;
  afn5 asm_sc_d;
  afn5 asm_amoswap_d;
  afn5 asm_amoadd_d;
  afn5 asm_amoxor_d;
  afn5 asm_amoor_d;
  afn5 asm_amoand_d;
  afn5 asm_amomin_d;
  afn5 asm_amomax_d;
  afn5 asm_amominu_d;
  afn5 asm_amomaxu_d;
  afn4 asm_lr_q;
  afn5 asm_sc_q;
  afn5 asm_amoswap_q;
  afn5 asm_amoadd_q;
  afn5 asm_amoxor_q;
  afn5 asm_amoor_q;
  afn5 asm_amoand_q;
  afn5 asm_amomin_q;
  afn5 asm_amomax_q;
  afn5 asm_amominu_q;
  afn5 asm_amomaxu_q;
  afn0 asm_ecall;
  afn0 asm_ebreak;
  afn0 asm_uret;
  afn0 asm_sret;
  afn0 asm_hret;
  afn0 asm_mret;
  afn0 asm_dret;
  afn1 asm_sfence_vm;
  afn2 asm_sfence_vma;
  afn0 asm_wfi;
  afn3 asm_csrrw;
  afn3 asm_csrrs;
  afn3 asm_csrrc;
  afn3 asm_csrrwi;
  afn3 asm_csrrsi;
  afn3 asm_csrrci;
  afn3 asm_flw;
  afn3 asm_fsw;
  afn5 asm_fmadd_s;
  afn5 asm_fmsub_s;
  afn5 asm_fnmsub_s;
  afn5 asm_fnmadd_s;
  afn4 asm_fadd_s;
  afn4 asm_fsub_s;
  afn4 asm_fmul_s;
  afn4 asm_fdiv_s;
  afn3 asm_fsgnj_s;
  afn3 asm_fsgnjn_s;
  afn3 asm_fsgnjx_s;
  afn3 asm_fmin_s;
  afn3 asm_fmax_s;
  afn3 asm_fsqrt_s;
  afn3 asm_fle_s;
  afn3 asm_flt_s;
  afn3 asm_feq_s;
  afn3 asm_fcvt_w_s;
  afn3 asm_fcvt_wu_s;
  afn3 asm_fcvt_s_w;
  afn3 asm_fcvt_s_wu;
  afn2 asm_fmv_x_s;
  afn2 asm_fclass_s;
  afn2 asm_fmv_s_x;
  afn3 asm_fcvt_l_s;
  afn3 asm_fcvt_lu_s;
  afn3 asm_fcvt_s_l;
  afn3 asm_fcvt_s_lu;
  afn3 asm_fld;
  afn3 asm_fsd;
  afn5 asm_fmadd_d;
  afn5 asm_fmsub_d;
  afn5 asm_fnmsub_d;
  afn5 asm_fnmadd_d;
  afn4 asm_fadd_d;
  afn4 asm_fsub_d;
  afn4 asm_fmul_d;
  afn4 asm_fdiv_d;
  afn3 asm_fsgnj_d;
  afn3 asm_fsgnjn_d;
  afn3 asm_fsgnjx_d;
  afn3 asm_fmin_d;
  afn3 asm_fmax_d;
  afn3 asm_fcvt_s_d;
  afn3 asm_fcvt_d_s;
  afn3 asm_fsqrt_d;
  afn3 asm_fle_d;
  afn3 asm_flt_d;
  afn3 asm_feq_d;
  afn3 asm_fcvt_w_d;
  afn3 asm_fcvt_wu_d;
  afn3 asm_fcvt_d_w;
  afn3 asm_fcvt_d_wu;
  afn2 asm_fclass_d;
  afn3 asm_fcvt_l_d;
  afn3 asm_fcvt_lu_d;
  afn2 asm_fmv_x_d;
  afn3 asm_fcvt_d_l;
  afn3 asm_fcvt_d_lu;
  afn2 asm_fmv_d_x;
  afn3 asm_flq;
  afn3 asm_fsq;
  afn5 asm_fmadd_q;
  afn5 asm_fmsub_q;
  afn5 asm_fnmsub_q;
  afn5 asm_fnmadd_q;
  afn4 asm_fadd_q;
  afn4 asm_fsub_q;
  afn4 asm_fmul_q;
  afn4 asm_fdiv_q;
  afn3 asm_fsgnj_q;
  afn3 asm_fsgnjn_q;
  afn3 asm_fsgnjx_q;
  afn3 asm_fmin_q;
  afn3 asm_fmax_q;
  afn3 asm_fcvt_s_q;
  afn3 asm_fcvt_q_s;
  afn3 asm_fcvt_d_q;
  afn3 asm_fcvt_q_d;
  afn3 asm_fsqrt_q;
  afn3 asm_fle_q;
  afn3 asm_flt_q;
  afn3 asm_feq_q;
  afn3 asm_fcvt_w_q;
  afn3 asm_fcvt_wu_q;
  afn3 asm_fcvt_q_w;
  afn3 asm_fcvt_q_wu;
  afn2 asm_fclass_q;
  afn3 asm_fcvt_l_q;
  afn3 asm_fcvt_lu_q;
  afn3 asm_fcvt_q_l;
  afn3 asm_fcvt_q_lu;
  afn2 asm_fmv_x_q;
  afn2 asm_fmv_q_x].

Definition all_valid (args : list argument) : bool := forallb (fun '(t, _, x) => valid t x) args.

(** What an assembling function does with an emitter's word. *)
Definition add_word (r : row) (a : assembler) (l : list Z) : option (assembler * bool) :=
  if all_valid (arguments r l)
  then option_map (fun w => (add_inst w a, true)) (row_emit r l)
  else Some (a, false).

Lemma asm_emit (a : assembler) (o : rv_op) (args : list argument) :
  asm a o args = if all_valid args
                 then option_map (fun w => (add_inst w a, true)) (emit o args) else Some (a, false).
Proof.
  unfold asm, emit, build. fold (all_valid args). destruct (all_valid args); [| reflexivity]. destruct (encode_inst _); reflexivity.
Qed.

Lemma emit_refuses (o : rv_op) (args : list argument) :
  all_valid args = false -> emit o args = Some 0.
Proof. intros H. unfold emit, build. fold (all_valid args). rewrite H. reflexivity. Qed.

Lemma asm_table : Forall2 (fun r f => forall a l, length l = length (row_sig r) -> f a l = asm a (row_op r) (arguments r l))
  emitters asm_functions.
Proof.
  unfold emitters, asm_functions.
  repeat (apply List.Forall2_cons;
    [ intros a l E; cbn [row_sig length] in E;
      repeat (destruct l as [| ? l]; cbn [length] in E; try discriminate E); reflexivity |]).
  apply List.Forall2_nil.
Qed.

Lemma In_zip {A B} (P : A -> B -> Prop) (l : list A) (k : list B) (a : A) (b : B) :
  Forall2 P l k -> In (a, b) (combine l k) -> In a l /\ P a b.
Proof.
  induction 1 as [| x y l k Hp _ IH]; intros Hin; [destruct Hin |].
  destruct Hin as [Hin | Hin]; [injection Hin as -> ->; split; [left; reflexivity | exact Hp] |].
  destruct (IH Hin). split; [right |]; assumption.
Qed.

(** The 226 assembling functions against the 226 emitters.  Given as many
    operands as it takes, the function refuses and adds nothing exactly when an
    operand does not fit its type, where the emitter gives zero; otherwise it adds
    the emitter's word and nothing else. *)
Theorem asm_adds_emitted (r : row) (f : assembling) (a : assembler) (l : list Z) :
  In (r, f) (combine emitters asm_functions) -> length l = length (row_sig r) ->
  f a l = add_word r a l
  /\ (all_valid (arguments r l) = false -> row_emit r l = Some 0).
Proof.
  intros Hin Hl. apply (In_zip _ _ _ _ _ asm_table) in Hin as [Hr Hf]. unfold add_word.
  rewrite (Hf a l Hl), (row_emit_eq r l Hr Hl), asm_emit. split; [reflexivity | apply emit_refuses].
Qed.

Lemma asm_adds_emitted_witness :
  asm_addi assembler_new 10 11 (-2048) = Some (add_inst 0x80058513 assembler_new, true)
  /\ asm_addi assembler_new 10 11 2048 = Some (assembler_new, false).
Proof.
  assert (Hin : In (Row rv_op_addi [(ireg5, F_rd); (ireg5, F_rs1); (simm12, F_imm)] (fn3 emit_addi), afn3 asm_addi)
                  (combine emitters asm_functions)) by (unfold emitters, asm_functions; cbn [combine In]; tauto).
  split.
  - exact (proj1 (asm_adds_emitted _ _ assembler_new [10; 11; -2048] Hin eq_refl)).
  - exact (proj1 (asm_adds_emitted _ _ assembler_new [10; 11; 2048] Hin eq_refl)).
Defined.
