(* ===== verification/AsmProofs.v ===== *)
(** * The assembler: theorems

    What [load_imm] loads, and what linked instructions refer to. *)

From Stdlib Require Import ZArith Lia Bool List.
From stdpp Require Import base numbers list option gmap strings pretty.
From S2P Require Import Prelude Bits Operand Meta CompTables Codec Switch Decoder Emit Interp Isa Asm.

#[local] Open Scope Z_scope.
#[local] Open Scope word_scope.

(** ** Emitted words *)

(** [inst_length] looks at the low seven bits. *)
Lemma inst_length_low (inst : Z) : inst_length inst = inst_length (inst .& 0x7f).
Proof. unfold inst_length. rewrite <- !Z.land_assoc. reflexivity. Qed.

Lemma shape_encode_range (sh : shape) (d : decode) :
  (forall f p b, In (f, SOp p b) sh -> In p all_operands) -> in_u 32 (shape_encode sh d).
Proof.
  induction sh as [| [f s] sh IH]; intros H; [unfold in_u; cbn; lia |]. rewrite shape_encode_cons.
  apply lor_range; [lia | | apply IH; intros; eapply H; right; eassumption].
  destruct s as [z | p b | p b]; cbn [fs_term snd]; try (unfold in_u; lia).
  apply op_encode_nonneg, operand_In_facts. eapply H. left. reflexivity.
Qed.

(** The bits an opcode fixes include those that give the length, four. *)
Definition four_bytes (o : rv_op) : bool :=
  (rv_inst_mask o .& 0x7f =? 0x7f) && (inst_length (rv_inst_match o) =? 4)
  && (0 <=? rv_inst_match o) && (rv_inst_match o <? 2 ^ 32).

Lemma encoded_word (d : decode) : wf_decode d -> codec d <> rv_codec_cs -> four_bytes (op d) = true ->
  exists w, encode_inst d = Some (d, w) /\ in_u 32 w /\ inst_length w = 4.
Proof.
  intros Hwf Hcs H. eexists. split; [apply encode_inst_shape; assumption |].
  pose proof (word_matches_mask _ Hwf) as Hm. unfold four_bytes in H.
  rewrite !andb_true_iff, !Z.eqb_eq, Z.leb_le, Z.ltb_lt in H. destruct H as [[[H1 H2] H3] H4]. split.
  - apply lor_range; [lia | split; assumption |].
    apply shape_encode_range. intros f p b Hf. apply (sf_op _ (shape_of_facts _) _ _ _ Hf).
  - rewrite inst_length_low, <- H1, (Z.land_assoc _ (rv_inst_mask _)), Hm, <- inst_length_low. exact H2.
Qed.

Lemma emitters_words : forallb (fun r => four_bytes (row_op r)) emitters = true.
Proof. vm_compute. reflexivity. Qed.

Lemma emit_word (r : row) (xs : list Z) :
  In r emitters -> row_op r ∉ zimm_ops -> op_of_rv64 (row_op r) = true -> length xs = length (row_sig r) ->
  Forall (arg_fits (row_op r)) (arguments r xs) ->
  exists w, row_emit r xs = Some w /\ decode_inst isa_rv64 decode_init w = completed r xs
    /\ in_u 32 w /\ inst_length w = 4.
Proof.
  intros Hin Hz Hb Hlen Hfit. pose proof (rows_ok r Hin Hz) as Hok. rewrite (row_emit_eq r xs Hin Hlen).
  destruct (emit_completed r xs Hok Hlen Hfit) as (w & He & Hw). exists w. split; [exact He |].
  destruct (completed_op r xs) as [Eo Ec]. destruct (row_facts r Hok) as (Hp & _).
  assert (Hg : op_guard (completed r xs)) by (unfold op_guard; rewrite Eo; destruct (row_op r); try exact I; discriminate Hp).
  assert (Hcs : codec (completed r xs) <> rv_codec_cs) by (rewrite Ec; intros E; rewrite E in Hp; discriminate Hp).
  assert (Hbase : rv_base isa_rv64 (op (completed r xs))) by (rewrite Eo; right; left; auto).
  pose proof (completed_wf r xs Hok Hlen Hfit) as Hwf.
  destruct (encode_then_decode isa_rv64 (completed r xs) Hbase Hwf Hg Hcs) as (w' & Hw' & Hd).
  rewrite Hw in Hw'. injection Hw' as <-. split; [exact Hd |].
  destruct (encoded_word _ Hwf Hcs) as (w' & Hw' & Hr).
  - rewrite Eo. pose proof emitters_words as H. rewrite forallb_forall in H. apply (H _ Hin).
  - rewrite Hw in Hw'. injection Hw' as <-. exact Hr.
Qed.

(** ** Executing emitted words *)

(** Straight-line execution on RV64. *)
Fixpoint exec_words (ws : list Z) (h : hart) : option hart :=
  match ws with
  | [] => Some h
  | w :: ws =>
      match exec_inst_rv64 (fun _ _ _ => Undef) RV_I (decode_inst_rv64 decode_init w) h (inst_length w) with
      | Ret h' off => exec_words ws (set_pc (pc h' +[64] off) h')
      | _ => None
      end
  end.

Definition advance (n : nat) (h : hart) : hart := set_pc (pc h +[64] (4 * Z.of_nat n)) h.

(** A word that writes one register. *)
Definition writes (w rd : Z) (f : hart -> Z) : Prop :=
  forall h, hart_wf 64 h ->
    exec_inst_rv64 (fun _ _ _ => Undef) RV_I (decode_inst_rv64 decode_init w) h (inst_length w)
    = Ret (put_reg rd (f h) h) 4.

Lemma fits_uimm5 (o : rv_op) (f : field) (x : Z) : f <> F_imm -> is_reg x -> arg_fits o (ireg5, f, x).
Proof.
  intros Hf [H1 H2]. split; [| intros E; contradiction].
  cbn [ireg5 valid imm_value]. rewrite uwrap_small by (unfold in_u; lia). apply Z.leb_le. lia.
Qed.

Lemma fits_simm (o : rv_op) (n x : Z) : 0 < n <= 64 -> in_s n x -> x mod imm_multiple (rv_inst_codec o) = 0 ->
  arg_fits o (simm_t n, F_imm, x).
Proof.
  intros Hn Hx Hm. assert (E : imm_value (simm_t n) x = x).
  { cbn [imm_value]. apply swrap_small; [lia |]. apply (in_s_mono n); [lia | exact Hx]. }
  split; [| intros _; rewrite E; exact Hm].
  cbn [valid]. rewrite E. destruct Hx. rewrite andb_true_iff, Z.leb_le, Z.geb_le. lia.
Qed.

Lemma not_zimm (o : rv_op) : negb (mem_op o zimm_ops) = true -> o ∉ zimm_ops.
Proof.
  unfold zimm_ops. intros H Hin. apply list_elem_of_In in Hin. cbn [In] in Hin.
  destruct Hin as [<- | [<- | [<- | []]]]; discriminate H.
Qed.

Ltac row_word r xs :=
  destruct (emit_word r xs) as (w & He & Hd & Hu & Hl);
    [ unfold emitters; simpl; tauto | apply not_zimm; reflexivity | reflexivity | reflexivity | |].

(** The fields of a record with valid operands. *)
Lemma reg_field (r : Z) : is_reg r -> uwrap 8 (uwrap 64 r) = r.
Proof. unfold is_reg. intros H. rewrite (uwrap_small 64 r), uwrap_small; unfold in_u; lia. Qed.

Lemma imm_field (v : Z) : in_s 32 v -> swrap 32 (swrap 64 v) = v.
Proof. intros H. rewrite (swrap_small 64 v); [apply swrap_small; [lia | exact H] | lia | apply (in_s_mono 32); [lia | exact H]]. Qed.

Ltac field_values := rewrite ?reg_field, ?imm_field by assumption; reflexivity.

(** The emitted record, and its execution. *)
Ltac finish_word d :=
  match goal with Hd : decode_inst _ _ ?w = ?c, He : _ = Some ?w, Hu : in_u 32 ?w, Hl : inst_length ?w = 4 |- _ =>
    let E := fresh "E" in
    assert (E : c = d);
    [| exists w; split; [exact He |]; split; [exact Hu |]; split; [exact Hl |]; intros h Hh;
       rewrite Hl; unfold decode_inst_rv64; rewrite Hd, E; change (decompress_inst_rv64 d) with d; unfold exec_inst_rv64, guarded; cbn [op exec_i exec_i64 rvi RV_I Z.eqb Pos.eqb] ]
  end.

Lemma emit_lui_writes (r v : Z) : is_reg r -> in_s 32 v -> v mod 4096 = 0 ->
  exists w, emit_lui r v = Some w /\ in_u 32 w /\ inst_length w = 4 /\ writes w r (fun _ => v).
Proof.
  intros Hr Hv Hm. row_word (Row rv_op_lui [(ireg5, F_rd); (simm32, F_imm)] (fn2 emit_lui)) [r; v].
  { repeat (apply List.Forall_cons || apply List.Forall_nil);
      [apply fits_uimm5; [discriminate | exact Hr] | apply fits_simm; [lia | exact Hv | exact Hm]]. }
  finish_word (mkDecode v r 0 0 0 rv_op_lui rv_codec_u 0 0 0 0 0).
  - transitivity (mkDecode (swrap 32 (swrap 64 v)) (uwrap 8 (uwrap 64 r)) 0 0 0 rv_op_lui rv_codec_u 0 0 0 0 0);
      [reflexivity | field_values].
  - rewrite wr_spec by (exact Hh || exact Hr).
    cbn [imm rd]. rewrite swrap_small; [reflexivity | lia | apply (in_s_mono 32); [lia | exact Hv]].
Qed.

Lemma emit_addi_writes (r s v : Z) : is_reg r -> is_reg s -> in_s 12 v ->
  exists w, emit_addi r s v = Some w /\ in_u 32 w /\ inst_length w = 4
    /\ writes w r (fun h => swrap 64 (get_reg h s + v)).
Proof.
  intros Hr Hs Hv.
  row_word (Row rv_op_addi [(ireg5, F_rd); (ireg5, F_rs1); (simm12, F_imm)] (fn3 emit_addi)) [r; s; v].
  { repeat (apply List.Forall_cons || apply List.Forall_nil);
      [apply fits_uimm5; [discriminate | exact Hr] | apply fits_uimm5; [discriminate | exact Hs]
      | apply fits_simm; [lia | exact Hv | apply Z.mod_1_r]]. }
  finish_word (mkDecode v r s 0 0 rv_op_addi rv_codec_i 0 0 0 0 0).
  - transitivity (mkDecode (swrap 32 (swrap 64 v)) (uwrap 8 (uwrap 64 r)) (uwrap 8 (uwrap 64 s)) 0 0 rv_op_addi rv_codec_i 0 0 0 0 0);
      [reflexivity | pose proof (in_s_mono 12 32 v ltac:(lia) Hv); field_values].
  - unfold ri, x. cbn [rs1 imm]. destruct (aget_get_reg 64 h s Hh Hs) as [-> _]. cbn [mbind option_bind].
    rewrite wr_spec by (exact Hh || exact Hr). reflexivity.
Qed.

Lemma emit_slli_writes (r s n : Z) : is_reg r -> is_reg s -> 0 <= n < 64 ->
  exists w, emit_slli r s n = Some w /\ in_u 32 w /\ inst_length w = 4
    /\ writes w r (fun h => swrap 64 (get_reg h s * 2 ^ n)).
Proof.
  intros Hr Hs Hn.
  row_word (Row rv_op_slli [(ireg5, F_rd); (ireg5, F_rs1); (uimm7, F_imm)] (fn3 emit_slli)) [r; s; n].
  { repeat (apply List.Forall_cons || apply List.Forall_nil);
      [apply fits_uimm5; [discriminate | exact Hr] | apply fits_uimm5; [discriminate | exact Hs] | split].
    - cbn [uimm7 valid imm_value]. rewrite uwrap_small by (unfold in_u; lia). apply Z.leb_le. lia.
    - intros _. apply Z.mod_1_r. }
  finish_word (mkDecode n r s 0 0 rv_op_slli rv_codec_i_sh7 0 0 0 0 0).
  - transitivity (mkDecode (swrap 32 (uwrap 64 n)) (uwrap 8 (uwrap 64 r)) (uwrap 8 (uwrap 64 s)) 0 0 rv_op_slli rv_codec_i_sh7 0 0 0 0 0);
      [reflexivity |]. rewrite (uwrap_small 64 n) by (unfold in_u; lia).
    assert (in_s 32 n) by (unfold in_s; lia). rewrite swrap_small by (lia || assumption). field_values.
  - unfold ri, xu, x. cbn [rs1 imm]. destruct (aget_get_reg 64 h s Hh Hs) as [-> _].
    cbn [mbind option_bind fmap option_fmap option_map]. rewrite shl_value by lia.
    rewrite wr_spec by (exact Hh || exact Hr). rewrite swrap_uwrap. reflexivity.
Qed.

(** ** Programs that load a register *)

Definition word_bytes (ws : list Z) : list Z := flat_map (le_bytes 4) ws.

(** Words that leave [v] in [r] and change no other register. *)
Definition loads (ws : list Z) (r v : Z) : Prop :=
  forall h, hart_wf 64 h -> exec_words ws h = Some (advance (length ws) (put_reg r v h)).

Lemma advance_wf (n : nat) (h : hart) : hart_wf 64 h -> hart_wf 64 (advance n h).
Proof. intros []. split; try assumption. apply uwrap_range. lia. Qed.

Lemma advance_add (m n : nat) (h : hart) : advance m (advance n h) = advance (n + m) h.
Proof.
  unfold advance, set_pc. cbn. f_equal. rewrite uwrap_add_l. f_equal. lia.
Qed.

Lemma put_reg_advance (r v : Z) (n : nat) (h : hart) : put_reg r v (advance n h) = advance n (put_reg r v h).
Proof. unfold put_reg. destruct (r =? 0); reflexivity. Qed.

Lemma put_put (r v v' : Z) (h : hart) : put_reg r v' (put_reg r v h) = put_reg r v' h.
Proof.
  unfold put_reg. destruct (r =? 0); [reflexivity |]. unfold set_ireg. cbn. rewrite list_insert_insert_eq. reflexivity.
Qed.

Lemma exec_words_app (ws ws' : list Z) (h : hart) :
  exec_words (ws ++ ws') h = h ← exec_words ws h; exec_words ws' h.
Proof.
  revert h. induction ws as [| w ws IH]; intros h; [reflexivity |]. cbn [app exec_words].
  destruct (exec_inst_rv64 _ _ _ h _); try reflexivity. apply IH.
Qed.

Lemma writes_step (w r : Z) (f : hart -> Z) (h : hart) : writes w r f -> hart_wf 64 h ->
  exec_words [w] h = Some (advance 1 (put_reg r (f h) h)).
Proof. intros H Hh. cbn [exec_words]. rewrite (H h Hh). reflexivity. Qed.

Lemma loads_one (w r v : Z) (f : hart -> Z) :
  writes w r f -> (forall h, hart_wf 64 h -> f h = v) -> loads [w] r v.
Proof. intros H E h Hh. rewrite (writes_step w r f h H Hh), (E h Hh). reflexivity. Qed.

Lemma loads_snoc (ws : list Z) (w r v v' : Z) (f : hart -> Z) :
  0 < r < 32 -> in_s 64 v -> loads ws r v -> writes w r f ->
  (forall h, hart_wf 64 h -> get_reg h r = v -> f h = v') -> loads (ws ++ [w]) r v'.
Proof.
  intros Hr Hv Hws Hw E h Hh. rewrite exec_words_app, (Hws h Hh). cbn [mbind option_bind].
  assert (Hi : is_reg r) by (unfold is_reg; lia).
  assert (H1 : hart_wf 64 (put_reg r v h)) by (apply put_reg_wf; assumption).
  rewrite (writes_step w r f _ Hw (advance_wf _ _ H1)), (E _ (advance_wf _ _ H1)).
  - rewrite put_reg_advance, put_put, advance_add, length_app. reflexivity.
  - change (get_reg (put_reg r v h) r = v). rewrite (get_put_reg 64) by assumption.
    rewrite Z.eqb_refl. destruct (Z.eqb_spec r 0); [lia | reflexivity].
Qed.

(** ** Appended words *)

Definition appends (ws : list Z) (a : assembler) : assembler := append_bytes (word_bytes ws) a.

Lemma alter_twice {A} (f g : A -> A) (n : nat) (l : list A) :
  alter f n (alter g n l) = alter (fun x => f (g x)) n l.
Proof. revert n. induction l as [| x l IH]; intros [| n]; try reflexivity. cbn. f_equal. apply IH. Qed.

Lemma append_append (bs bs' : list Z) (a : assembler) :
  append_bytes bs' (append_bytes bs a) = append_bytes (bs ++ bs') a.
Proof.
  unfold append_bytes, upd_section, with_sections. cbn. f_equal.
  rewrite alter_twice. apply list_alter_ext; [| reflexivity].
  intros s _. unfold set_buf. cbn. rewrite app_assoc. reflexivity.
Qed.

Lemma appends_app (ws ws' : list Z) (a : assembler) : appends ws' (appends ws a) = appends (ws ++ ws') a.
Proof. unfold appends, word_bytes. rewrite append_append, flat_map_app. reflexivity. Qed.

Lemma add_inst_word (w : Z) (a : assembler) : in_u 32 w -> inst_length w = 4 -> add_inst w a = appends [w] a.
Proof.
  intros Hw Hl. unfold add_inst. rewrite Hl. cbn [Z.eqb Pos.eqb]. unfold append, appends, word_bytes.
  cbn [flat_map]. rewrite app_nil_r, uwrap_small by exact Hw. reflexivity.
Qed.

(** What an emitter adds: the interface between emitters and [load_imm]. *)
Lemma add_emitted_word (e : option Z) (w : Z) (a : assembler) :
  e = Some w -> in_u 32 w -> inst_length w = 4 -> add_emitted e a = Some (appends [w] a).
Proof. intros -> Hw Hl. unfold add_emitted. cbn. rewrite add_inst_word by assumption. reflexivity. Qed.

(** ** [load_imm] *)

Definition is_s32 (val : Z) : bool := (- 2 ^ 31 <=? val) && (val <? 2 ^ 31).

Lemma upper_test (val : Z) :
  (val .& Z.lnot 0x7fffffff =? 0) || (val .& Z.lnot 0x7fffffff =? Z.lnot 0x7fffffff) = is_s32 val.
Proof.
  rewrite <- Z.ldiff_land. change 0x7fffffff with (Z.ones 31). rewrite Z.ldiff_ones_r by lia.
  rewrite shiftr_div, shiftl_mul by lia. change (Z.lnot (Z.ones 31)) with (- 2 ^ 31). unfold is_s32.
  apply eq_true_iff_eq. rewrite orb_true_iff, andb_true_iff, !Z.eqb_eq, Z.leb_le, Z.ltb_lt.
  pose proof (Z.div_mod val (2 ^ 31) ltac:(lia)). pose proof (Z.mod_pos_bound val (2 ^ 31) ltac:(lia)). lia.
Qed.

Lemma low_part (val : Z) : swrap 64 (bitextend 64 val 12) = swrap 12 val.
Proof.
  rewrite bitextend_spec, swrap_uwrap by lia. apply swrap_small; [lia |].
  apply (in_s_mono 12); [lia | apply swrap_range; lia].
Qed.

(** The part above the sign-extended low twelve bits, and the shift that brings
    its lowest bit to the bottom. *)
Definition upper (val : Z) : Z := swrap 64 (val - swrap 12 val).
Definition upper_shift (val : Z) : Z := 12 + ctz 64 (uwrap 64 (upper val) >>> 12).
Definition upper_bits (val : Z) : Z := upper val >>> upper_shift val.

Lemma upper_multiple (val : Z) : in_s 64 val -> is_s32 val = false ->
  exists q, upper val = 4096 * q /\ q <> 0 /\ - 2 ^ 51 <= q < 2 ^ 51 /\ Z.abs q = Z.abs ((val + 2048) / 4096).
Proof.
  unfold is_s32, in_s. intros Hv H. rewrite andb_false_iff, Z.leb_gt, Z.ltb_ge in H.
  unfold upper. set (q := (val + 2048) / 4096).
  assert (E : val - swrap 12 val = 4096 * q).
  { unfold swrap, q. change (2 ^ 12) with 4096. change (2 ^ (12 - 1)) with 2048.
    pose proof (Z.div_mod (val + 2048) 4096 ltac:(lia)). lia. }
  assert (Hq : q <> 0 /\ - 2 ^ 51 <= q <= 2 ^ 51).
  { unfold q. pose proof (Z.div_mod (val + 2048) 4096 ltac:(lia)).
    pose proof (Z.mod_pos_bound (val + 2048) 4096 ltac:(lia)). lia. }
  rewrite E. destruct (Z.eq_dec q (2 ^ 51)) as [-> | Hne].
  - exists (- 2 ^ 51). split; [reflexivity | lia].
  - exists q. split; [apply swrap_small; unfold in_s; lia | lia].
Qed.

Lemma upper_facts (val : Z) : in_s 64 val -> is_s32 val = false ->
  12 <= upper_shift val < 64 /\ upper val = upper_bits val * 2 ^ upper_shift val
  /\ Z.abs (upper_bits val) <= Z.abs ((val + 2048) / 4096) /\ in_s 64 (upper_bits val).
Proof.
  intros Hv H. destruct (upper_multiple val Hv H) as (q & E & Hq0 & Hq & <-).
  assert (Ex : uwrap 64 (upper val) >>> 12 = q mod 2 ^ 52).
  { rewrite E, shiftr_div by lia. unfold uwrap. change (2 ^ 64) with (4096 * 2 ^ 52). change (2 ^ 12) with 4096.
    rewrite Z.mul_mod_distr_l, Z.mul_comm, Z.div_mul by lia. reflexivity. }
  unfold upper_bits, upper_shift. rewrite Ex. set (c := ctz 64 (q mod 2 ^ 52)).
  assert (Hx : 0 < q mod 2 ^ 52 < 2 ^ 52).
  { pose proof (Z.div_mod q (2 ^ 52) ltac:(lia)). pose proof (Z.mod_pos_bound q (2 ^ 52) ltac:(lia)). nia. }
  destruct (ctz_divides 64 (q mod 2 ^ 52)) as (Hc & m & Em & Hm); [lia |]. fold c in Hc, Em.
  assert (Hc2 : c < 52).
  { destruct (Z.lt_ge_cases c 52) as [? | Hge]; [assumption |]. pose proof (Z.pow_le_mono_r 2 52 c ltac:(lia) Hge).
    assert (m <> 0) by (intros ->; discriminate Hm). nia. }
  assert (Ep : 2 ^ 52 = 2 ^ (52 - c) * 2 ^ c) by (rewrite <- pow2_split by lia; f_equal; lia).
  assert (Eq : q = (m + q / 2 ^ 52 * 2 ^ (52 - c)) * 2 ^ c).
  { rewrite Z.mul_add_distr_r, <- Em, <- Z.mul_assoc, <- Ep. pose proof (Z.div_mod q (2 ^ 52) ltac:(lia)). lia. }
  set (m' := m + q / 2 ^ 52 * 2 ^ (52 - c)) in *.
  assert (Eu : upper val = m' * 2 ^ (12 + c)).
  { rewrite E, Eq at 1. rewrite (pow2_split 12 c) by lia. change (2 ^ 12) with 4096. lia. }
  pose proof (pow2_pos c ltac:(lia)). pose proof (pow2_pos (12 + c) ltac:(lia)).
  assert (Em' : upper val >>> (12 + c) = m').
  { rewrite shiftr_div by lia. rewrite Eu. apply Z.div_mul. lia. }
  rewrite Em'. assert (Z.abs m' <= Z.abs q) by (rewrite Eq at 1; rewrite Z.abs_mul; nia).
  split; [lia |]. split; [exact Eu |]. split; [assumption | unfold in_s; lia].
Qed.

(** What [load_imm_r] loads: for 32-bit values the emitted [addi] adds the low
    twelve bits as a signed number to an upper part that does not allow for it. *)
Fixpoint loaded_r (fuel : nat) (val : Z) : Z :=
  match fuel with
  | O => val
  | Datatypes.S fuel =>
      if is_s32 val then (if val mod 4096 <? 2048 then val else val - 4096)
      else swrap 64 (loaded_r fuel (upper_bits val) * 2 ^ upper_shift val + swrap 12 val)
  end.

Fixpoint exact_r (fuel : nat) (val : Z) : bool :=
  match fuel with
  | O => true
  | Datatypes.S fuel => if is_s32 val then val mod 4096 <? 2048 else exact_r fuel (upper_bits val)
  end.

Lemma is_s32_in (val : Z) : is_s32 val = true <-> in_s 32 val.
Proof. unfold is_s32, in_s. rewrite andb_true_iff, Z.leb_le, Z.ltb_lt. reflexivity. Qed.

Lemma loaded_r_range (fuel : nat) (val : Z) : in_s 64 val -> in_s 64 (loaded_r fuel val).
Proof.
  intros Hv. destruct fuel as [| fuel]; cbn [loaded_r]; [exact Hv |].
  destruct (is_s32 val) eqn:E; [| apply swrap_range; lia]. apply is_s32_in in E. unfold in_s in *.
  destruct (_ <? _); lia.
Qed.

Lemma exact_loaded_r (fuel : nat) (val : Z) : in_s 64 val -> exact_r fuel val = true -> loaded_r fuel val = val.
Proof.
  revert val. induction fuel as [| fuel IH]; intros val Hv H; [reflexivity |]. cbn [loaded_r exact_r] in *.
  destruct (is_s32 val) eqn:E; [rewrite H; reflexivity |].
  destruct (upper_facts val Hv E) as (_ & Eu & _ & Hu). rewrite (IH _ Hu H), <- Eu. unfold upper.
  rewrite <- swrap_uwrap, <- uwrap_add_l, uwrap_swrap, uwrap_add_l, swrap_uwrap.
  rewrite Z.sub_add. apply swrap_small; [lia | exact Hv].
Qed.

(** The addition of the low part, left out when it is zero. *)
Lemma add_low (ws : list Z) (r v lo : Z) (b : bool) (e : option Z) (a : assembler) :
  0 < r < 32 -> in_s 64 v -> loads ws r v -> in_s 12 lo -> b = negb (lo =? 0) -> e = emit_addi r r lo ->
  exists ws', (if b then add_emitted e (appends ws a) else Some (appends ws a)) = Some (appends ws' a)
    /\ loads ws' r (swrap 64 (v + lo)).
Proof.
  intros Hr Hv Hws Hlo -> ->. destruct (Z.eqb_spec lo 0) as [-> | Hne]; cbn [negb].
  - exists ws. split; [reflexivity |]. rewrite Z.add_0_r, swrap_small by (lia || exact Hv). exact Hws.
  - assert (Hi : is_reg r) by (unfold is_reg; lia).
    destruct (emit_addi_writes r r lo Hi Hi Hlo) as (w & He & Hw & Hl & Hf). exists (ws ++ [w]).
    rewrite (add_emitted_word _ w) by assumption. rewrite appends_app. split; [reflexivity |].
    apply (loads_snoc ws w r v _ _ Hr Hv Hws Hf). intros h _ ->. reflexivity.
Qed.

Lemma emit_addi_u64 (r s v : Z) : emit_addi r s (uwrap 64 v) = emit_addi r s v.
Proof.
  unfold emit_addi, emit, build. cbn [forallb fold_left valid simm12 imm_value]. rewrite swrap_uwrap. reflexivity.
Qed.

Lemma sub_upper (val : Z) : val - Z.shiftl (val >>> 12) 12 = val mod 4096.
Proof. rewrite shiftr_div, shiftl_mul, (Z.mod_eq val 4096) by lia. change (2 ^ 12) with 4096. lia. Qed.

Lemma load_base (n : nat) (r val : Z) (a : assembler) : 0 < r < 32 -> in_s 32 val ->
  exists ws, load_imm_r (Datatypes.S n) r val a = Some (appends ws a) /\ loads ws r (loaded_r (Datatypes.S n) val).
Proof.
  intros Hr Hv. assert (Hi : is_reg r) by (unfold is_reg; lia).
  pose proof (proj2 (is_s32_in val) Hv) as E. cbn [load_imm_r loaded_r]. rewrite upper_test, sub_upper, E.
  set (hi := Z.shiftl (val >>> 12) 12). assert (Hhi : hi = val - val mod 4096) by (rewrite <- sub_upper; unfold hi; lia).
  pose proof (Z.div_mod val 4096 ltac:(lia)). pose proof (Z.mod_pos_bound val 4096 ltac:(lia)).
  assert (Hh : in_s 32 hi /\ hi mod 4096 = 0).
  { unfold in_s in *. split; [lia |]. replace hi with (val / 4096 * 4096) by lia. apply Z.mod_mul. lia. }
  destruct (emit_lui_writes r hi Hi (proj1 Hh) (proj2 Hh)) as (w & He & Hw & Hl & Hf).
  rewrite (add_emitted_word _ w) by assumption. cbn [mbind option_bind].
  assert (Elo : swrap 12 (val mod 4096) = if val mod 4096 <? 2048 then val mod 4096 else val mod 4096 - 4096).
  { unfold swrap. change (2 ^ 12) with 4096. change (2 ^ (12 - 1)) with 2048.
    destruct (Z.ltb_spec (val mod 4096) 2048).
    - rewrite Z.mod_small; lia.
    - rewrite <- (Z.mod_unique (val mod 4096 + 2048) 4096 1 (val mod 4096 - 2048)); lia. }
  destruct (add_low [w] r hi (swrap 12 (val mod 4096)) (negb (val mod 4096 =? 0))
    (emit_addi r r (bitextend 64 (val mod 4096) 12)) a) as (ws & Ea & Hws); try assumption.
  - apply (in_s_mono 32); [lia | apply Hh].
  - exact (loads_one w r hi _ Hf (fun _ _ => eq_refl)).
  - apply swrap_range; lia.
  - rewrite Elo. f_equal. destruct (Z.ltb_spec (val mod 4096) 2048); [reflexivity |].
    apply eq_true_iff_eq. rewrite !Z.eqb_eq. lia.
  - rewrite bitextend_spec by lia. apply emit_addi_u64.
  - exists ws. split; [exact Ea |]. replace (if _ <? _ then val else val - 4096) with (swrap 64 (hi + swrap 12 (val mod 4096))); [exact Hws |].
    rewrite Elo. unfold in_s in Hv.
    destruct (_ <? _); rewrite swrap_small by (unfold in_s; lia); lia.
Qed.

(** One unfolding. *)
Lemma load_imm_r_S (fuel : nat) (r val : Z) (a : assembler) :
  load_imm_r (Datatypes.S fuel) r val a =
    let m := val .& Z.lnot 0x7fffffff in
    if (m =? 0) || (m =? Z.lnot 0x7fffffff) then
      a ← add_emitted (emit_lui r (Z.shiftl (val >>> 12) 12)) a;
      let val := val - Z.shiftl (val >>> 12) 12 in
      if negb (val =? 0) then add_emitted (emit_addi r r (bitextend 64 val 12)) a else Some a
    else
      let lo := swrap 64 (bitextend 64 val 12) in
      let hi := swrap 64 (val - lo) in
      let shift := 12 + ctz 64 (uwrap 64 hi >>> 12) in
      a ← load_imm_r fuel r (hi >>> shift) a;
      a ← add_emitted (emit_slli r r shift) a;
      if negb (lo =? 0) then add_emitted (emit_addi r r (swrap 32 (swrap 64 (bitextend 64 lo 12)))) a else Some a.
Proof. reflexivity. Qed.

Lemma load_imm_r_step (fuel : nat) (r val : Z) (a : assembler) : is_s32 val = false ->
  load_imm_r (Datatypes.S fuel) r val a =
    a ← load_imm_r fuel r (upper_bits val) a;
    a ← add_emitted (emit_slli r r (upper_shift val)) a;
    if negb (swrap 12 val =? 0)
    then add_emitted (emit_addi r r (swrap 32 (swrap 64 (bitextend 64 (swrap 12 val) 12)))) a else Some a.
Proof.
  intros E. rewrite load_imm_r_S. cbv zeta. rewrite upper_test, E, low_part. unfold upper_bits, upper_shift, upper.
  reflexivity.
Qed.

Lemma loaded_r_S (fuel : nat) (val : Z) : loaded_r (Datatypes.S fuel) val =
  if is_s32 val then (if val mod 4096 <? 2048 then val else val - 4096)
  else swrap 64 (loaded_r fuel (upper_bits val) * 2 ^ upper_shift val + swrap 12 val).
Proof. reflexivity. Qed.

(** The recursion ends: [12 n + 30] bits need [n] calls above the first. *)
Lemma load_imm_r_loads (n : nat) (r val : Z) (a : assembler) : 0 < r < 32 -> in_s 64 val ->
  (n <= 3)%nat -> Z.abs val <= 2 ^ (12 * Z.of_nat n + 30) ->
  exists ws, load_imm_r (Datatypes.S n) r val a = Some (appends ws a) /\ loads ws r (loaded_r (Datatypes.S n) val).
Proof.
  intros Hr. revert val. induction n as [| n IH]; intros val Hv Hn Hb.
  { apply load_base; [exact Hr |]. change (2 ^ _) with (2 ^ 30) in Hb. unfold in_s. lia. }
  destruct (is_s32 val) eqn:E; [apply is_s32_in in E; apply load_base; assumption |].
  destruct (upper_facts val Hv E) as (Hs & Eu & Hle & Hu). assert (Hi : is_reg r) by (unfold is_reg; lia).
  destruct (IH (upper_bits val) Hu ltac:(lia)) as (ws & Ea & Hws).
  { pose proof (Z.div_mod (val + 2048) 4096 ltac:(lia)). pose proof (Z.mod_pos_bound (val + 2048) 4096 ltac:(lia)).
    replace (12 * Z.of_nat (Datatypes.S n) + 30) with (12 + (12 * Z.of_nat n + 30)) in Hb by lia.
    rewrite pow2_split in Hb by lia. change (2 ^ 12) with 4096 in Hb.
    pose proof (pow2_pos (12 * Z.of_nat n + 30) ltac:(lia)). lia. }
  rewrite load_imm_r_step by exact E.
  rewrite Ea. cbn [mbind option_bind].
  destruct (emit_slli_writes r r (upper_shift val) Hi Hi ltac:(lia)) as (w & He & Hw & Hl & Hf).
  rewrite (add_emitted_word _ w) by assumption. cbn [mbind option_bind]. rewrite appends_app.
  pose proof (swrap_range 12 val ltac:(lia)) as Hlo. pose proof (loaded_r_range (Datatypes.S n) _ Hu) as Hlr.
  rewrite loaded_r_S, E. set (v := loaded_r (Datatypes.S n) (upper_bits val)) in *.
  destruct (add_low (ws ++ [w]) r (swrap 64 (v * 2 ^ upper_shift val)) (swrap 12 val) (negb (swrap 12 val =? 0))
    (emit_addi r r (swrap 32 (swrap 64 (bitextend 64 (swrap 12 val) 12)))) a) as (ws' & Ea' & Hws'); try assumption.
  - apply swrap_range; lia.
  - apply (loads_snoc ws w r v _ _ Hr Hlr Hws Hf). intros h _ ->. reflexivity.
  - reflexivity.
  - rewrite low_part, (swrap_small 12 (swrap 12 val)), (swrap_small 32) by (lia || exact Hlo || (apply (in_s_mono 12); [lia | exact Hlo])).
    reflexivity.
  - exists ws'. split; [exact Ea' |].
    rewrite <- (swrap_uwrap 64 (swrap _ _ + _)), <- uwrap_add_l, uwrap_swrap, uwrap_add_l, swrap_uwrap in Hws'. exact Hws'.
Qed.

Lemma ctz_uwrap (n : nat) (val : Z) : ctz n (uwrap (Z.of_nat n) val) = ctz n val.
Proof.
  assert (Hb : forall i, In i (List.seq 0 n) -> bit_at (uwrap (Z.of_nat n) val) i = bit_at val i).
  { intros i Hi. apply List.in_seq in Hi. rewrite !bit_at_spec, testbit_uwrap by lia.
    rewrite (proj2 (Z.ltb_lt _ _)) by lia. reflexivity. }
  unfold ctz. f_equal. revert Hb. generalize (0, false) as s0. generalize (List.seq 0 n) as l.
  intros l. induction l as [| i l IH]; intros s0 Hb; [reflexivity |]. cbn [fold_left].
  unfold count_round at 2 4. rewrite (Hb i (or_introl eq_refl)). apply IH. intros j Hj. apply Hb. right. exact Hj.
Qed.

Lemma ispow2_uwrap (n : Z) (val : Z) : 0 < n -> in_s n val -> ispow2 n (uwrap n val) = ispow2 n val.
Proof.
  intros Hn Hv. unfold ispow2. f_equal.
  - f_equal. apply eq_true_iff_eq. rewrite !Z.eqb_eq. split; [| intros ->; reflexivity].
    intros H. rewrite <- (swrap_small n val), <- swrap_uwrap, H by assumption. apply swrap_small; [lia |].
    unfold in_s. pose proof (pow2_pos (n - 1) ltac:(lia)). lia.
  - rewrite uwrap_sub_l. f_equal. apply Z.bits_inj'. intros i Hi. rewrite !Z.land_spec.
    rewrite !testbit_uwrap by lia. destruct (i <? n); cbn [andb]; [reflexivity |].
    rewrite !andb_false_r. reflexivity.
Qed.

Lemma pow2_value (val : Z) : in_s 64 val -> ispow2 64 val = true ->
  0 <= ctz 64 val < 64 /\ swrap 64 (2 ^ ctz 64 val) = val.
Proof.
  intros Hv H. rewrite <- ispow2_uwrap in H by (lia || exact Hv).
  destruct (ispow2_power 64 (uwrap 64 val) (uwrap_range 64 val ltac:(lia)) H) as [E Hc].
  rewrite (ctz_uwrap 64) in E, Hc. split; [exact Hc |]. rewrite <- E, swrap_uwrap. apply swrap_small; [lia | exact Hv].
Qed.

Definition is_small (val : Z) : bool := (val >=? -2048) && (val <=? 2047).

(** The value that [load_imm] leaves in the register, and when it is the one asked for. *)
Definition loaded (val : Z) : Z :=
  if is_small val || ispow2 64 val then val else loaded_r load_imm_fuel val.
Definition exact (val : Z) : bool := is_small val || ispow2 64 val || exact_r load_imm_fuel val.

(** C39: [load_imm] is total, adds whole instructions to the current section and
    nothing else, and executing them from any hart state leaves one value in the
    register, advances over them and changes nothing else.  The value is the one
    asked for when it is a signed twelve-bit number, a power of two, or one whose
    last twelve bits (after the upper part is reduced to 32 bits by taking off
    sign-extended twelve-bit parts) are below 2048; for every other 32-bit value
    it is 4096 too small. *)
Theorem load_imm_correct (r val : Z) (a : assembler) : 0 < r < 32 -> in_s 64 val ->
  exists ws, load_imm r val a = Some (appends ws a) /\ loads ws r (loaded val)
    /\ (exact val = true -> loaded val = val)
    /\ (in_s 32 val -> exact val = false -> loaded val = val - 4096).
Proof.
  intros Hr Hv. assert (Hi : is_reg r) by (unfold is_reg; lia). assert (H0 : is_reg 0) by (unfold is_reg; lia).
  enough (exists ws, load_imm r val a = Some (appends ws a) /\ loads ws r (loaded val)) as (ws & Ea & Hws).
  { exists ws. split; [exact Ea |]. split; [exact Hws |]. unfold exact, loaded.
    destruct (is_small val || ispow2 64 val); cbn [orb]; (split; [| try discriminate]).
    - reflexivity.
    - apply exact_loaded_r, Hv.
    - intros H32 He. cbn [exact_r loaded_r load_imm_fuel] in *. rewrite (proj2 (is_s32_in val) H32) in *.
      rewrite He. reflexivity. }
  unfold load_imm, loaded. fold (is_small val). destruct (is_small val) eqn:Es; cbn [orb].
  { apply andb_true_iff in Es. rewrite Z.geb_leb, !Z.leb_le in Es.
    assert (Hs : in_s 12 val) by (unfold in_s; lia). rewrite (swrap_small 32) by (unfold in_s; lia).
    destruct (emit_addi_writes r 0 val Hi H0 Hs) as (w & He & Hw & Hl & Hf). exists [w].
    split; [exact (add_emitted_word _ w a He Hw Hl) |]. apply (loads_one w r _ _ Hf).
    intros h Hh. rewrite (get_reg_zero 64 h Hh). apply swrap_small; [lia | exact Hv]. }
  destruct (ispow2 64 val) eqn:Ep.
  { destruct (pow2_value val Hv Ep) as [Hc Ec].
    destruct (emit_addi_writes r 0 1 Hi H0 ltac:(unfold in_s; lia)) as (w & He & Hw & Hl & Hf).
    destruct (emit_slli_writes r r (ctz 64 val) Hi Hi Hc) as (w' & He' & Hw' & Hl' & Hf'). exists ([w] ++ [w']).
    change rv_ireg_zero with 0. rewrite (add_emitted_word _ w a He Hw Hl). cbn [mbind option_bind].
    rewrite (add_emitted_word _ w' _ He' Hw' Hl'), appends_app. split; [reflexivity |].
    apply (loads_snoc [w] w' r 1 _ _ Hr ltac:(unfold in_s; lia)) with (2 := Hf').
    - apply (loads_one w r _ _ Hf). intros h Hh. rewrite (get_reg_zero 64 h Hh). reflexivity.
    - intros h _ ->. rewrite Z.mul_1_l. exact Ec. }
  apply load_imm_r_loads; [exact Hr | exact Hv | lia |]. unfold in_s in Hv. change (2 ^ _) with (2 ^ 66). lia.
Qed.

Lemma load_imm_correct_witness : in_s 64 0x123400000007 /\ exact 0x123400000007 = true
  /\ exists ws, load_imm 5 0x123400000007 assembler_new = Some (appends ws assembler_new) /\ loads ws 5 0x123400000007.
Proof.
  split; [unfold in_s; lia |]. split; [vm_compute; reflexivity |].
  destruct (load_imm_correct 5 0x123400000007 assembler_new ltac:(lia) ltac:(unfold in_s; lia)) as (ws & Ea & Hws & He & _).
  exists ws. split; [exact Ea |]. rewrite <- (He ltac:(vm_compute; reflexivity)). exact Hws.
Defined.

(** [load_imm(rd, 2049)] loads -2047.  The error can be shifted out of the register
    where the upper part was shifted far enough. *)
Example load_imm_2049 : loaded 2049 = -2047.
Proof. vm_compute. reflexivity. Qed.
Example load_imm_wide : loaded 0x123456789abcdef = 0x123456789abcdef - 2 ^ 49.
Proof. vm_compute. reflexivity. Qed.
Example load_imm_max : loaded (2 ^ 63 - 1) = 2 ^ 63 - 1 /\ exact (2 ^ 63 - 1) = false.
Proof. vm_compute. split; reflexivity. Qed.
