(* ===== verification/LinkProofs.v ===== *)
(** * The linker: theorems

    What the instructions refer to after relocation. *)

From Stdlib Require Import ZArith Lia Bool List.
From stdpp Require Import base numbers list option gmap strings pretty.
From S2P Require Import Prelude Bits Operand Meta CompTables Codec Switch Decoder Emit Interp Isa Asm AsmProofs.

#[local] Open Scope Z_scope.
#[local] Open Scope word_scope.

(** ** Changing the immediate of an instruction *)

(** The formats with an immediate that relocations change, and its operand. *)
Definition imm_operand (c : rv_codec) : option operand :=
  match c with
  | rv_codec_uj => Some operand_jimm20
  | rv_codec_sb => Some operand_sbimm12
  | rv_codec_u => Some operand_imm20
  | rv_codec_i => Some operand_imm12
  | rv_codec_s => Some operand_simm12
  | _ => None
  end.

Definition imm_free (o : rv_op) : bool :=
  match imm_operand (rv_inst_codec o) with
  | None => true
  | Some p => (rv_inst_mask o .& o_bits p =? 0) && four_bytes o
      && bool_decide (rv_inst_decomp_rv64 o = rv_op_illegal)
  end.

Lemma ops_imm_free : forallb (fun o => negb (op_of_rv64 o) || imm_free o) all_ops = true.
Proof. vm_compute. reflexivity. Qed.

Lemma imm_operand_shape (c : rv_codec) (p : operand) : imm_operand c = Some p ->
  In (F_imm, SOp p 0) (shape_of c) /\ c <> rv_codec_cs /\ In p all_operands.
Proof.
  intros H. destruct c; try discriminate H; injection H as <-;
    (split; [cbn [shape_of In]; tauto |]; split; [discriminate |]; unfold all_operands; cbn [In]; tauto).
Qed.

Lemma imm_op_facts (d : decode) (p : operand) :
  codec d = rv_inst_codec (op d) -> op_of_rv64 (op d) = true -> imm_operand (codec d) = Some p ->
  rv_inst_mask (op d) .& o_bits p = 0 /\ four_bytes (op d) = true /\ decompress_inst_rv64 d = d.
Proof.
  intros Hc Hb Hp. pose proof (forall_ops _ (op d) ops_imm_free) as H. cbv beta in H.
  unfold imm_free in H. rewrite Hb, <- Hc, Hp in H. cbn [negb orb] in H.
  rewrite !andb_true_iff, Z.eqb_eq, bool_decide_eq_true in H. destruct H as [[H1 H2] H3].
  split; [exact H1 |]. split; [exact H2 |]. unfold decompress_inst_rv64, decompress. rewrite H3. reflexivity.
Qed.

Lemma get_set_imm (f : field) (v : Z) (d : decode) : f <> F_imm -> get f (set_imm v d) = get f d.
Proof. intros H. destruct f; try reflexivity. contradiction. Qed.

Lemma op_encode_outside (p : operand) (x n : Z) : operand_facts p -> 0 <= n ->
  in_dsts (swaps (o_moves p)) n = false -> Z.testbit (op_encode p x) n = false.
Proof.
  intros F Hn H. unfold op_encode. rewrite imm_encode_moves by (apply (of_segs p F) || lia). apply mv_out, H.
Qed.

Lemma op_encode_masked (p : operand) (x m : Z) : operand_facts p -> m .& o_bits p = 0 -> op_encode p x .& m = 0.
Proof.
  intros F Hm. zbits n Hn. apply (f_equal (fun z => Z.testbit z n)) in Hm.
  unfold o_bits in Hm. rewrite Z.land_spec, Z.bits_0, testbit_o_bits in Hm by assumption. rewrite Z.bits_0.
  destruct (in_dsts (swaps (o_moves p)) n) eqn:E.
  - rewrite andb_true_r in Hm. rewrite Hm. apply andb_false_r.
  - rewrite op_encode_outside by assumption. reflexivity.
Qed.

(** Another immediate that fits gives another instruction. *)
Lemma set_imm_wf (d : decode) (p : operand) (v : Z) :
  wf_decode d -> op_of_rv64 (op d) = true -> imm_operand (codec d) = Some p -> imm_fits p v ->
  wf_decode (set_imm v d) /\ imm (set_imm v d) = v.
Proof.
  intros (Hc & [Hs Hz] & Hb) Ho Hp Hv. pose proof (shape_of_facts (codec d)) as SF.
  destruct (imm_operand_shape _ _ Hp) as (Hin & _ & Hop). pose proof (operand_In_facts p Hop) as F.
  destruct (imm_op_facts d p Hc Ho Hp) as (Hm & _ & _).
  assert (Ev : imm (set_imm v d) = v).
  { apply (conv_ok_conv F_imm p 0 v F); [apply (sf_op _ SF _ _ _ Hin) |]. rewrite Z.sub_0_r. exact Hv. }
  assert (Hu : forall s, In (F_imm, s) (shape_of (codec d)) -> s = SOp p 0).
  { intros s Hi. destruct (codec d); try discriminate Hp; injection Hp as <-; cbn [shape_of In] in Hi;
      repeat (destruct Hi as [Hi | Hi]); try contradiction; try discriminate Hi;
      injection Hi as <-; reflexivity. }
  split; [| exact Ev]. split; [exact Hc |]. split; [split |].
  - apply List.Forall_forall. intros [f s] Hi. pose proof (proj1 (List.Forall_forall _ _) Hs _ Hi) as Hw.
    destruct (decide (f = F_imm)) as [-> | Hf].
    + rewrite (Hu s Hi). cbn [src_wf get]. rewrite Ev, Z.sub_0_r. exact Hv.
    + destruct s as [z | q b | q b]; cbn [src_wf] in *; rewrite ?get_set_imm by exact Hf; exact Hw.
  - intros f Hf. rewrite get_set_imm; [apply Hz, Hf |]. intros ->.
    enough (mentions (shape_of (codec d)) F_imm = true) as E by (cbn [codec set_imm] in Hf; congruence).
    apply mentions_In. apply (List.in_map fst) in Hin. exact Hin.
  - apply List.Forall_forall. intros [f s] Hi. pose proof (proj1 (List.Forall_forall _ _) Hb _ Hi) as Hw.
    destruct (decide (f = F_imm)) as [-> | Hf].
    + rewrite (Hu s Hi). unfold src_fixed. cbn [fst snd op set_imm].
      rewrite op_encode_masked by assumption. rewrite <- match_in_mask, <- Z.land_assoc, Hm, Z.land_0_r. reflexivity.
    + destruct s as [z | q b | q b]; unfold src_fixed in *; cbn [fst snd] in *; try exact I.
      rewrite get_set_imm by exact Hf. exact Hw.
Qed.

Lemma imm_guard (d : decode) (p : operand) :
  codec d = rv_inst_codec (op d) -> imm_operand (codec d) = Some p -> op_guard d.
Proof. intros Hc Hp. rewrite Hc in Hp. unfold op_guard. destruct (op d); try exact I; discriminate Hp. Qed.

Lemma encode_set_imm (d : decode) (p : operand) (v : Z) :
  wf_decode d -> op_of_rv64 (op d) = true -> imm_operand (codec d) = Some p -> imm_fits p v ->
  exists w, encode_inst (set_imm v d) = Some (set_imm v d, w) /\ in_u 32 w /\ inst_length w = 4
    /\ decode_inst isa_rv64 decode_init w = set_imm v d.
Proof.
  intros Hwf Ho Hp Hv. destruct (set_imm_wf d p v Hwf Ho Hp Hv) as [Hwf' _].
  destruct (imm_operand_shape _ _ Hp) as (_ & Hcs & _).
  destruct (imm_op_facts d p (proj1 Hwf) Ho Hp) as (_ & Hf & _).
  destruct (encoded_word _ Hwf' Hcs Hf) as (w & Hw & Hu & Hl). exists w. split; [exact Hw |]. split; [exact Hu |].
  split; [exact Hl |].
  destruct (encode_then_decode isa_rv64 (set_imm v d)) as (w' & Hw' & Hd); try assumption.
  - right. left. split; [reflexivity | exact Ho].
  - apply (imm_guard (set_imm v d) p); [apply (proj1 Hwf') | exact Hp].
  - rewrite Hw in Hw'. injection Hw' as <-. exact Hd.
Qed.

(** ** Words in a buffer *)

Definition in_buffer (off : Z) (b : list Z) : Prop := 0 <= off /\ off + 4 <= Z.of_nat (length b).

(** Only the four bytes at an offset differ. *)
Definition same_but (off : Z) (b b' : list Z) : Prop :=
  length b' = length b /\ forall i, i < off \/ off + 4 <= i -> aget b' i = aget b i.

Lemma aget_app {A} (l l' : list A) (i : Z) :
  aget (l ++ l') i = if i <? Z.of_nat (length l) then aget l i else aget l' (i - Z.of_nat (length l)).
Proof.
  unfold aget. destruct (Z.ltb_spec i (Z.of_nat (length l))).
  - destruct (Z.leb_spec 0 i); [| reflexivity]. apply lookup_app_l. lia.
  - rewrite (proj2 (Z.leb_le 0 i)), (proj2 (Z.leb_le 0 (i - _))) by lia.
    rewrite lookup_app_r by lia. f_equal. lia.
Qed.

Lemma store_le_4 (off v : Z) (b : list Z) : in_buffer off b ->
  exists b', store_le 4 off v b = Some b' /\ same_but off b b'
    /\ forall i, 0 <= i < 4 -> aget b' (off + i) = aget (le_bytes 4 (uwrap 32 v)) i.
Proof.
  intros [H0 H4]. unfold store_le. change (Z.of_nat 4) with 4. change (8 * 4) with 32.
  rewrite (proj2 (Z.leb_le 0 off)), (proj2 (Z.leb_le (off + 4) _)) by lia. cbn [andb].
  set (w := le_bytes 4 (uwrap 32 v)). assert (Lw : length w = 4%nat) by reflexivity.
  assert (Lf : Z.of_nat (length (firstn (Z.to_nat off) b)) = off) by (rewrite length_firstn; lia).
  eexists. split; [reflexivity |]. split; [split |].
  - rewrite !length_app, length_firstn, length_skipn, Lw. lia.
  - intros i Hi. rewrite !aget_app, Lf, Lw. destruct (Z.ltb_spec i off).
    + unfold aget. destruct (Z.leb_spec 0 i); [| reflexivity]. apply lookup_take_lt. lia.
    + destruct (Z.ltb_spec (i - off) (Z.of_nat 4)); [lia |]. unfold aget.
      rewrite (proj2 (Z.leb_le 0 (i - off - Z.of_nat 4))), (proj2 (Z.leb_le 0 i)) by lia.
      rewrite lookup_drop. f_equal. lia.
  - intros i Hi. rewrite !aget_app, Lf, Lw. destruct (Z.ltb_spec (off + i) off); [lia |].
    destruct (Z.ltb_spec (off + i - off) (Z.of_nat 4)); [| lia]. f_equal. lia.
Qed.

Lemma load_le_4 (off : Z) (b : list Z) : load_le 4 off b
  = default 0 (aget b off) + 256 * (default 0 (aget b (off + 1)) + 256 * (default 0 (aget b (off + 2))
    + 256 * default 0 (aget b (off + 3)))).
Proof.
  unfold load_le. cbn [List.seq fold_right]. change (Z.of_nat 0) with 0. change (Z.of_nat 1) with 1.
  change (Z.of_nat 2) with 2. change (Z.of_nat 3) with 3. rewrite Z.add_0_r, Z.mul_0_r, Z.add_0_r. reflexivity.
Qed.

Lemma load_same_but (off k : Z) (b b' : list Z) : same_but k b b' -> off + 4 <= k \/ k + 4 <= off ->
  load_le 4 off b' = load_le 4 off b.
Proof. intros [_ H] Hk. rewrite !load_le_4, !H by lia. reflexivity. Qed.

Lemma load_store_4 (off v : Z) (b : list Z) : in_buffer off b -> in_u 32 v ->
  exists b', store_le 4 off v b = Some b' /\ same_but off b b' /\ load_le 4 off b' = v.
Proof.
  intros Hb Hv. destruct (store_le_4 off v b Hb) as (b' & Hs & Hsame & Hg). exists b'. split; [exact Hs |].
  split; [exact Hsame |]. rewrite load_le_4. replace (aget b' off) with (aget b' (off + 0)) by (f_equal; lia).
  rewrite !Hg by lia. rewrite uwrap_small by exact Hv. cbn [le_bytes aget Z.leb Z.compare Z.to_nat].
  change (Z.to_nat 0) with 0%nat. change (Z.to_nat 1) with 1%nat. change (Z.to_nat 2) with 2%nat.
  change (Z.to_nat 3) with 3%nat.
  cbn [lookup list_lookup default from_option id].
  rewrite !(shiftr_div _ 8) by lia. change 0xff with (2 ^ 8 - 1). rewrite !uwrap_land by lia. unfold uwrap.
  change (2 ^ 8) with 256. unfold in_u in Hv.
  pose proof (Z.div_mod v 256 ltac:(lia)). pose proof (Z.div_mod (v / 256) 256 ltac:(lia)).
  pose proof (Z.div_mod (v / 256 / 256) 256 ltac:(lia)).
  pose proof (Z.mod_pos_bound v 256 ltac:(lia)). pose proof (Z.mod_pos_bound (v / 256) 256 ltac:(lia)).
  pose proof (Z.mod_pos_bound (v / 256 / 256) 256 ltac:(lia)).
  rewrite (Z.mod_small (v / 256 / 256 / 256)) by lia. lia.
Qed.

(** [inst_fetch] where the word is four bytes long. *)
Lemma fetch_word (off w : Z) (b : list Z) :
  fetch_buf off b = Some (w, 4) <-> in_buffer off b /\ uwrap 32 (load_le 4 off b) = w /\ inst_length w = 4.
Proof.
  unfold fetch_buf, inst_fetch, in_buffer. set (u := uwrap 32 (load_le 4 off b)). split.
  - intros H. assert (inst_length u = 4 /\ 0 <= off /\ off + 4 <= Z.of_nat (length b) /\ u = w) as (Hl & H1 & H2 & <-);
      [| auto].
    unfold inst_length. destruct (negb (u .& 0x3 =? 0x3)); [destruct (_ && _); discriminate H |].
    destruct (negb (u .& 0x1c =? 0x1c)).
    + destruct (_ && _) eqn:E; [| discriminate H]. injection H as <-. apply andb_true_iff in E as [E1 E2].
      rewrite Z.leb_le in E1, E2. change (Z.max 4 4) with 4 in E2. auto.
    + destruct (_ =? 0x1f); [destruct (_ && _); discriminate H |].
      destruct (_ =? 0x3f); destruct (_ && _); discriminate H.
  - intros ([H1 H2] & <- & Hl). unfold inst_length in Hl. destruct (negb (u .& 0x3 =? 0x3)); [discriminate Hl |].
    destruct (negb (u .& 0x1c =? 0x1c)).
    + change (Z.max 4 4) with 4. rewrite !(proj2 (Z.leb_le _ _)) by assumption. reflexivity.
    + destruct (_ =? 0x1f); [discriminate Hl |]. destruct (_ =? 0x3f); discriminate Hl.
Qed.

(** ** Re-encoding in place *)

(** The four-byte instruction at an offset. *)
Definition inst_at (off : Z) (b : list Z) (d : decode) : Prop :=
  exists w, fetch_buf off b = Some (w, 4) /\ decode_inst isa_rv64 decode_init w = d.

Lemma inst_at_same (off k : Z) (b b' : list Z) (d : decode) :
  same_but k b b' -> off + 4 <= k \/ k + 4 <= off -> inst_at off b d -> inst_at off b' d.
Proof.
  intros Hs Hk (w & Hf & Hd). exists w. split; [| exact Hd]. apply fetch_word in Hf as ([H1 H2] & Hw & Hl).
  apply fetch_word. rewrite (load_same_but off k b b') by assumption. destruct Hs as [E _].
  split; [split; [exact H1 | rewrite E; exact H2] | auto].
Qed.

Lemma inst_at_wf (off : Z) (b : list Z) (d : decode) (p : operand) :
  inst_at off b d -> op_of_rv64 (op d) = true -> imm_operand (codec d) = Some p ->
  in_buffer off b /\ wf_decode d /\ decompress_inst_rv64 d = d.
Proof.
  intros (w & Hf & Hd) Ho Hp. apply fetch_word in Hf as (Hb & Hw & _). split; [exact Hb |].
  assert (Hwf : wf_decode d).
  { rewrite <- Hd. apply decoded_wf.
    - rewrite <- Hw. pose proof (uwrap_range 32 (load_le 4 off b) ltac:(lia)). unfold in_u in *. lia.
    - intros E. assert (op d = rv_op_illegal) as E'; [| rewrite E' in Ho; discriminate Ho].
      rewrite <- Hd, <- E. unfold decode_inst. rewrite decode_inst_type_shape. apply shape_decode_keeps. }
  split; [exact Hwf |]. apply (imm_op_facts d p (proj1 Hwf) Ho Hp).
Qed.

Lemma reencode_at (off v : Z) (b : list Z) (d : decode) (p : operand) :
  inst_at off b d -> op_of_rv64 (op d) = true -> imm_operand (codec d) = Some p -> imm_fits p v ->
  exists b', reencode_inst (set_imm v d) off b = Some b' /\ same_but off b b' /\ inst_at off b' (set_imm v d).
Proof.
  intros Hat Ho Hp Hv. destruct (inst_at_wf off b d p Hat Ho Hp) as (Hb & Hwf & _).
  destruct (encode_set_imm d p v Hwf Ho Hp Hv) as (w & Hw & Hu & Hl & Hd).
  destruct (load_store_4 off w b Hb Hu) as (b' & Hs & Hsame & Hld).
  exists b'. unfold reencode_inst. rewrite Hw. cbn [mbind option_bind snd]. rewrite Hl. cbn [Z.eqb Pos.eqb].
  replace (w .& 0xffffffff) with w by (change 0xffffffff with (2 ^ 32 - 1); rewrite uwrap_land, uwrap_small by (lia || exact Hu); reflexivity).
  split; [exact Hs |]. split; [exact Hsame |]. exists w. split; [| exact Hd]. apply fetch_word.
  split; [destruct Hb, Hsame as [E _]; split; [| rewrite E]; assumption |].
  rewrite Hld, uwrap_small by exact Hu. auto.
Qed.

(** ** Upper and lower parts *)

(** The part an upper immediate holds, and the signed twelve bits that complete it. *)
Definition hi_part (x : Z) : Z := (x + 2048) / 4096 * 4096.
Definition lo_part (x : Z) : Z := x - hi_part x.

(** The distances an upper and a lower immediate can span. *)
Definition in_span (x : Z) : Prop := - 2 ^ 31 <= x < 2 ^ 31 - 2048.

Lemma parts_fit (x : Z) : in_span x ->
  imm_fits operand_imm20 (hi_part x) /\ in_s 32 (hi_part x) /\ in_s 12 (lo_part x).
Proof.
  unfold in_span. intros Hx. unfold lo_part, hi_part.
  pose proof (Z.div_mod (x + 2048) 4096 ltac:(lia)). pose proof (Z.mod_pos_bound (x + 2048) 4096 ltac:(lia)).
  assert (in_s 32 ((x + 2048) / 4096 * 4096)) by (unfold in_s; lia).
  split; [split; [assumption |] |]; [| split; [assumption | unfold in_s; lia]].
  change (o_align operand_imm20) with 12. change (2 ^ 12) with 4096. apply Z.mod_mul. lia.
Qed.

Lemma lo_fits (p : operand) (x : Z) : p = operand_imm12 \/ p = operand_simm12 -> in_s 12 x -> imm_fits p x.
Proof. intros [-> | ->] H; (split; [exact H | apply Z.mod_1_r]). Qed.

Lemma upper_part_hi (x : Z) : upper_part (uwrap 64 x) = uwrap 64 (hi_part x).
Proof.
  unfold upper_part, hi_part. rewrite uwrap_add_l, shiftr_div, shiftl_mul by lia.
  unfold uwrap at 2. rewrite (Z.mod_eq _ (2 ^ 64)) by lia. set (k := (x + 0x800) / 2 ^ 64).
  replace (x + 0x800 - 2 ^ 64 * k) with (x + 2048 + - 2 ^ 52 * k * 2 ^ 12) by lia.
  rewrite Z.div_add by lia. rewrite Z.mul_add_distr_r.
  replace (- 2 ^ 52 * k * 2 ^ 12) with (- k * 2 ^ 64) by lia. apply uwrap_add_multiple. lia.
Qed.

Lemma set_imm_u64 (v : Z) (d : decode) : set_imm (uwrap 64 v) d = set_imm v d.
Proof.
  unfold set_imm. f_equal. apply swrap_uwrap_inj. unfold uwrap at 2. rewrite (Z.mod_eq v) by lia.
  replace (v - 2 ^ 64 * (v / 2 ^ 64)) with (v + - (v / 2 ^ 64) * 2 ^ 32 * 2 ^ 32) by lia.
  apply uwrap_add_multiple. lia.
Qed.

(** What the [int] of the linker holds. *)
Lemma upper_int (x : Z) : in_span x -> swrap 32 (upper_part (uwrap 64 x)) = hi_part x.
Proof.
  intros Hx. rewrite upper_part_hi. destruct (parts_fit x Hx) as (_ & Hh & _).
  transitivity (imm (set_imm (uwrap 64 (hi_part x)) decode_init)); [reflexivity |].
  rewrite set_imm_u64. apply swrap_small; [lia | exact Hh].
Qed.

(** ** Relocations of one instruction *)

Inductive reloc_part : Type := Whole | High | Low.

Definition part_of (p : reloc_part) (x : Z) : Z :=
  match p with Whole => x | High => hi_part x | Low => lo_part x end.

(** The relocations, the format of the instruction and what it is given. *)
Definition reloc_forms : list (Z * rv_codec * reloc_part) :=
  [(R_RISCV_JAL, rv_codec_uj, Whole); (R_RISCV_BRANCH, rv_codec_sb, Whole);
   (R_RISCV_HI20, rv_codec_u, High); (R_RISCV_LO12_I, rv_codec_i, Low); (R_RISCV_LO12_S, rv_codec_s, Low);
   (R_RISCV_PCREL_HI20, rv_codec_u, High); (R_RISCV_PCREL_LO12_I, rv_codec_i, Low);
   (R_RISCV_PCREL_LO12_S, rv_codec_s, Low)].

(** What the symbol is to the instruction: its address, its distance, or what
    the relocation of the other instruction of the pair is given. *)
Definition reloc_target (type label_off reloc_off : Z) (target : option Z) : option Z :=
  if is_pcrel_lo type then target
  else if (type =? R_RISCV_HI20) || (type =? R_RISCV_LO12_I) || (type =? R_RISCV_LO12_S) then Some label_off
  else Some (label_off -[64] reloc_off).

Definition part_fits (c : rv_codec) (q : reloc_part) (x : Z) : Prop :=
  match q with
  | Whole => from_option (fun p => imm_fits p x) False (imm_operand c)
  | _ => in_span x
  end.

Lemma part_fits_imm (type : Z) (c : rv_codec) (q : reloc_part) (x : Z) :
  In (type, c, q) reloc_forms -> part_fits c q x ->
  exists p, imm_operand c = Some p /\ imm_fits p (part_of q x).
Proof.
  intros Hin Hx. unfold reloc_forms in Hin. cbn [In] in Hin.
  repeat destruct Hin as [Hin | Hin]; try contradiction; injection Hin as <- <- <-;
    cbn [part_of part_fits imm_operand from_option] in *; eexists; (split; [reflexivity |]);
    try exact Hx; destruct (parts_fit x Hx) as (H1 & _ & H3); try exact H1; apply lo_fits; auto.
Qed.

Lemma apply_reloc_imm (type label_off reloc_off off x : Z) (target : option Z) (c : rv_codec) (q : reloc_part)
    (b : list Z) (d : decode) :
  In (type, c, q) reloc_forms -> part_fits c q x ->
  reloc_target type label_off reloc_off target = Some (uwrap 64 x) ->
  inst_at off b d -> decompress_inst_rv64 d = d ->
  apply_reloc type label_off reloc_off off target b = reencode_inst (set_imm (part_of q x) d) off b.
Proof.
  intros Hin Hx Ht (w & Hf & Hd) Hdc. unfold apply_reloc. rewrite Hf. cbn [mbind option_bind fst snd].
  unfold decode_inst_rv64. rewrite Hd, Hdc. unfold reloc_forms in Hin. cbn [In] in Hin.
  repeat destruct Hin as [Hin | Hin]; try contradiction; injection Hin as <- <- <-;
    cbn [part_of part_fits] in *; unfold reloc_target, is_pcrel_lo in Ht;
    cbn [Z.eqb Pos.eqb orb R_RISCV_32 R_RISCV_64 R_RISCV_BRANCH R_RISCV_JAL R_RISCV_CALL R_RISCV_PCREL_HI20
         R_RISCV_PCREL_LO12_I R_RISCV_PCREL_LO12_S R_RISCV_HI20 R_RISCV_LO12_I R_RISCV_LO12_S] in *;
    first [injection Ht as -> | subst target]; cbn [mbind option_bind];
    rewrite ?upper_int by exact Hx; rewrite ?upper_part_hi, ?uwrap_sub_l, ?set_imm_u64; reflexivity.
Qed.

Lemma relocated_inst (type label_off reloc_off off x : Z) (target : option Z) (c : rv_codec) (q : reloc_part)
    (b : list Z) (d : decode) :
  In (type, c, q) reloc_forms -> part_fits c q x -> codec d = c -> op_of_rv64 (op d) = true ->
  reloc_target type label_off reloc_off target = Some (uwrap 64 x) -> inst_at off b d ->
  exists b', apply_reloc type label_off reloc_off off target b = Some b' /\ same_but off b b'
    /\ inst_at off b' (set_imm (part_of q x) d) /\ imm (set_imm (part_of q x) d) = part_of q x.
Proof.
  intros Hin Hx Hc Ho Ht Hat. destruct (part_fits_imm type c q x Hin Hx) as (p & Hp & Hfit).
  rewrite <- Hc in Hp. destruct (inst_at_wf off b d p Hat Ho Hp) as (_ & Hwf & Hdc).
  rewrite (apply_reloc_imm type label_off reloc_off off x target c q b d Hin Hx Ht Hat Hdc).
  destruct (reencode_at off _ b d p Hat Ho Hp Hfit) as (b' & Hr & Hs & Hi). exists b'.
  split; [exact Hr |]. split; [exact Hs |]. split; [exact Hi |]. apply (set_imm_wf d p _ Hwf Ho Hp Hfit).
Qed.

(** The name of a numeric label is replaced by the label's own. *)
Definition resolve (r : reloc) (l : label) (a : assembler) : assembler :=
  with_relocs (so_insert (r_offset r) (mkReloc (r_offset r) (l_name l) (rela_type r)) (relocs_byoffset a)) a.

Definition label_address (l : label) (a : assembler) : option Z :=
  if (l_offset l).1 =? SHN_ABS then Some (l_offset l).2 else label_offset l a.

Lemma section_lookup (a : assembler) (i : Z) (s : section) : aget (sections a) i = Some s ->
  0 <= i /\ sections a !! Z.to_nat i = Some s.
Proof. unfold aget. destruct (Z.leb_spec 0 i); [auto | discriminate]. Qed.

(** C38: [relocate] of a resolved relocation that one instruction carries.  The
    instruction at the relocation's place is decoded, given the part of the
    target that its format holds, encoded and stored back: in the section it
    decodes to the same instruction with that immediate, and no byte outside it
    changes.  The parts are the whole distance for [jal] and the branches, and
    for upper and lower immediates two numbers whose sum is the target, the lower
    of them a signed twelve-bit number. *)
Theorem relocate_correct (r : reloc) (a : assembler) (n : nat) (s : section) (label_off reloc_off x : Z)
    (target : option Z) (c : rv_codec) (q : reloc_part) (d : decode) :
  lookup_target r (r_name r) a = Some n -> label_address (the_label n a) a = Some label_off ->
  reloc_offset r a = Some reloc_off -> aget (sections a) (r_offset r).1 = Some s ->
  (if is_pcrel_lo (rela_type r) then pcrel_pair (r_offset r).1 label_off (resolve r (the_label n a) a) = Some target
   else target = None) ->
  In (rela_type r, c, q) reloc_forms -> part_fits c q x -> codec d = c -> op_of_rv64 (op d) = true ->
  reloc_target (rela_type r) label_off reloc_off target = Some (uwrap 64 x) ->
  inst_at (r_offset r).2 (s_buf s) d ->
  exists b', relocate r a
      = Some (upd_section (Z.to_nat (r_offset r).1) (set_buf b') (resolve r (the_label n a) a), true)
    /\ same_but (r_offset r).2 (s_buf s) b'
    /\ inst_at (r_offset r).2 b' (set_imm (part_of q x) d) /\ imm (set_imm (part_of q x) d) = part_of q x
    /\ (q <> Whole -> hi_part x + lo_part x = x /\ in_s 12 (lo_part x)).
Proof.
  intros Hn Hl Hr Hs Hp Hin Hx Hc Ho Ht Hat.
  destruct (relocated_inst _ label_off reloc_off _ x target c q _ d Hin Hx Hc Ho Ht Hat) as (b' & Ha & Hsame & Hi & Hv).
  exists b'. split; [| split; [exact Hsame |]; split; [exact Hi |]; split; [exact Hv |]].
  - unfold relocate. rewrite Hn. cbv zeta. fold (resolve r (the_label n a) a).
    change (label_offset (the_label n a) (resolve r (the_label n a) a)) with (label_offset (the_label n a) a).
    fold (label_address (the_label n a) a). rewrite Hl. cbn [mbind option_bind].
    change (reloc_offset r (resolve r (the_label n a) a)) with (reloc_offset r a). rewrite Hr. cbn [mbind option_bind].
    change (sections (resolve r (the_label n a) a)) with (sections a). rewrite Hs. cbn [mbind option_bind].
    destruct Hat as (w & Hf & _). rewrite Hf. cbn [mbind option_bind].
    destruct (is_pcrel_lo (rela_type r)) eqn:E; [rewrite Hp | subst target]; rewrite Ha; reflexivity.
  - intros Hq. assert (in_span x) by (destruct q; [contradiction | exact Hx | exact Hx]).
    destruct (parts_fit x) as (_ & _ & Hlo); [assumption |]. split; [unfold lo_part; lia | exact Hlo].
Qed.

(** ** Calls *)

Lemma wf_regs (d : decode) : wf_decode d -> codec d = rv_codec_u \/ codec d = rv_codec_i ->
  is_reg (rd d) /\ is_reg (rs1 d) /\ is_reg (rs2 d).
Proof.
  intros (_ & [Hs _] & _) Hc.
  assert (Hr : forall f s, In (f, s) (shape_of (codec d)) -> src_wf d (f, s))
    by (intros f s; apply (proj1 (List.Forall_forall _ _) Hs)).
  assert (Hreg : forall p v, (o_signed p = false /\ o_width p = 5) -> imm_fits p (v - 0) -> is_reg v).
  { intros p v [E1 E2] [H _]. rewrite E1, E2 in H. unfold is_reg, in_u in *. lia. }
  assert (Hz : forall v, v = 0 -> is_reg v) by (intros v ->; unfold is_reg; lia).
  destruct Hc as [Hc | Hc]; rewrite Hc in Hr; cbn [shape_of In] in Hr;
    pose proof (Hr F_rd _ ltac:(left; reflexivity)); pose proof (Hr F_rs1 _ ltac:(right; left; reflexivity));
    pose proof (Hr F_rs2 _ ltac:(do 2 right; left; reflexivity)); cbn [src_wf get] in *;
    (split; [| split]); first [apply Hz; assumption | eapply Hreg; [| eassumption]; split; reflexivity].
Qed.

(** Both instructions of the pair are patched. *)
Lemma apply_call (off label_off reloc_off x : Z) (b : list Z) (d1 d2 : decode) :
  inst_at off b d1 -> inst_at (off + 4) b d2 ->
  codec d1 = rv_codec_u -> codec d2 = rv_codec_i -> op_of_rv64 (op d1) = true -> op_of_rv64 (op d2) = true ->
  in_span x -> label_off -[64] reloc_off = uwrap 64 x ->
  exists b', apply_reloc R_RISCV_CALL label_off reloc_off off None b = Some b'
    /\ inst_at off b' (set_imm (hi_part x) d1) /\ inst_at (off + 4) b' (set_imm (lo_part x) d2)
    /\ wf_decode (set_imm (hi_part x) d1) /\ wf_decode (set_imm (lo_part x) d2)
    /\ imm (set_imm (hi_part x) d1) = hi_part x /\ imm (set_imm (lo_part x) d2) = lo_part x.
Proof.
  intros H1 H2 C1 C2 O1 O2 Hx Ex. destruct (parts_fit x Hx) as (Fh & _ & Fl).
  assert (P1 : imm_operand (codec d1) = Some operand_imm20) by (rewrite C1; reflexivity).
  assert (P2 : imm_operand (codec d2) = Some operand_imm12) by (rewrite C2; reflexivity).
  assert (Fl' : imm_fits operand_imm12 (lo_part x)) by (apply lo_fits; auto).
  destruct (inst_at_wf _ _ _ _ H1 O1 P1) as (_ & W1 & D1). destruct (inst_at_wf _ _ _ _ H2 O2 P2) as (_ & W2 & D2).
  destruct (reencode_at _ _ _ _ _ H2 O2 P2 Fl') as (b1 & R1 & S1 & I2).
  pose proof (inst_at_same off (off + 4) b b1 d1 S1 ltac:(lia) H1) as H1'.
  destruct (reencode_at _ _ _ _ _ H1' O1 P1 Fh) as (b2 & R2 & S2 & I1).
  pose proof (inst_at_same (off + 4) off b1 b2 _ S2 ltac:(lia) I2) as I2'.
  destruct (set_imm_wf _ _ _ W1 O1 P1 Fh) as [W1' V1]. destruct (set_imm_wf _ _ _ W2 O2 P2 Fl') as [W2' V2].
  exists b2. split; [| auto 8].
  destruct H1 as (w1 & F1 & E1). destruct H2 as (w2 & F2 & E2).
  assert (G1 : decode_inst_rv64 decode_init w1 = d1) by (unfold decode_inst_rv64; rewrite E1; exact D1).
  assert (G2 : decode_inst_rv64 decode_init w2 = d2) by (unfold decode_inst_rv64; rewrite E2; exact D2).
  unfold apply_reloc. rewrite F1. cbn [mbind option_bind fst snd]. rewrite G1.
  cbn [Z.eqb Pos.eqb orb R_RISCV_32 R_RISCV_64 R_RISCV_BRANCH R_RISCV_JAL R_RISCV_CALL R_RISCV_PCREL_HI20
         R_RISCV_PCREL_LO12_I R_RISCV_PCREL_LO12_S R_RISCV_HI20 R_RISCV_LO12_I R_RISCV_LO12_S].
  rewrite Ex, upper_int by exact Hx. unfold patch. rewrite F2. cbn [mbind option_bind fst].
  rewrite G2, uwrap_sub_l. fold (lo_part x).
  replace (set_imm (swrap 32 (uwrap 64 (lo_part x))) d2) with (set_imm (lo_part x) d2).
  - rewrite R1. cbn [mbind option_bind]. exact R2.
  - rewrite <- (set_imm_u64 (lo_part x)). unfold set_imm. f_equal. rewrite (swrap_small 32 (swrap 32 _)); [reflexivity | lia |].
    apply swrap_range. lia.
Qed.

(** One instruction of a control-transfer format. *)
Lemma exec_transfer (w : Z) (d : decode) (h : hart) (off target v : Z) (ws : list Z) :
  decode_inst_rv64 decode_init w = d -> inst_length w = 4 -> hart_wf 64 h ->
  is_reg (rd d) -> is_reg (rs1 d) -> is_reg (rs2 d) -> in_s 64 (imm d) -> pc h mod 2 = 0 ->
  isa_control 64 (op d) (get_reg h (rs1 d)) (get_reg h (rs2 d)) (imm d) (pc h) (next_pc 64 h 4) = Some (Some v, target) ->
  exec_words (w :: ws) h = exec_words ws (set_pc target (put_reg (rd d) v h)).
Proof.
  intros Hd Hl Hh R1 R2 R3 Hi Hp Hc.
  destruct (exec_control (fun _ _ _ => Undef) RV_I 64 d h 4 target (Some v) ltac:(right; reflexivity)
    Hh R1 R2 R3 Hi Hp eq_refl Hc) as (o & Ex & En).
  cbn [exec_words]. rewrite Hd, Hl. unfold exec_inst in Ex. cbn [Z.eqb Pos.eqb] in Ex. rewrite Ex, <- En.
  unfold next_pc, put_reg. destruct (rd d =? 0); reflexivity.
Qed.

Lemma uwrap_parity (v : Z) : uwrap 64 v mod 2 = v mod 2.
Proof. unfold uwrap. apply Z.mod_mod_divide. exists (2 ^ 63). reflexivity. Qed.

Lemma set_pc_wf (p : Z) (h : hart) : hart_wf 64 h -> in_u 64 p -> hart_wf 64 (set_pc p h).
Proof. intros [] Hp. split; assumption. Qed.

(** C37: [R_RISCV_CALL] makes an [auipc] and [jalr] pair reach its symbol.  Whatever
    immediates the pair had, after the relocation the two words fetched from the
    section and executed at the relocation's address take the program counter to
    the label's address, over any distance an upper and a lower immediate span,
    and leave the address after the pair in the link register. *)
Theorem linked_call_reaches (off label_off reloc_off x : Z) (b : list Z) (d1 d2 : decode) (h : hart) :
  inst_at off b d1 -> inst_at (off + 4) b d2 -> codec d1 = rv_codec_u -> codec d2 = rv_codec_i ->
  op d1 = rv_op_auipc -> op d2 = rv_op_jalr -> rs1 d2 = rd d1 -> rd d1 <> 0 ->
  in_span x -> in_u 64 label_off -> label_off = uwrap 64 (reloc_off + x) -> label_off mod 2 = 0 ->
  hart_wf 64 h -> pc h = reloc_off -> reloc_off mod 2 = 0 ->
  exists b' w1 w2 h', apply_reloc R_RISCV_CALL label_off reloc_off off None b = Some b'
    /\ fetch_buf off b' = Some (w1, 4) /\ fetch_buf (off + 4) b' = Some (w2, 4)
    /\ exec_words [w1; w2] h = Some h' /\ pc h' = label_off
    /\ (rd d2 <> 0 -> get_reg h' (rd d2) = swrap 64 (reloc_off + 8)).
Proof.
  intros H1 H2 C1 C2 O1 O2 Hr Hr0 Hx Hu El He Hh Hpc Hp2.
  assert (B1 : op_of_rv64 (op d1) = true) by (rewrite O1; reflexivity).
  assert (B2 : op_of_rv64 (op d2) = true) by (rewrite O2; reflexivity).
  destruct (apply_call off label_off reloc_off x b d1 d2 H1 H2 C1 C2 B1 B2 Hx) as (b' & Ha & I1 & I2 & W1 & W2 & V1 & V2).
  { rewrite El, uwrap_sub_l. f_equal. lia. }
  destruct (parts_fit x Hx) as (_ & Fh & Fl). destruct (wf_regs _ W1 (or_introl C1)) as (G1 & G2 & G3).
  destruct (wf_regs _ W2 (or_intror C2)) as (K1 & K2 & K3). destruct I1 as (w1 & F1 & E1). destruct I2 as (w2 & F2 & E2).
  pose proof F1 as T1. apply fetch_word in T1 as (_ & _ & L1). pose proof F2 as T2. apply fetch_word in T2 as (_ & _ & L2).
  assert (D1 : decode_inst_rv64 decode_init w1 = set_imm (hi_part x) d1).
  { unfold decode_inst_rv64. rewrite E1. apply (imm_op_facts _ operand_imm20 (proj1 W1) B1). cbn. rewrite C1. reflexivity. }
  assert (D2 : decode_inst_rv64 decode_init w2 = set_imm (lo_part x) d2).
  { unfold decode_inst_rv64. rewrite E2. apply (imm_op_facts _ operand_imm12 (proj1 W2) B2). cbn. rewrite C2. reflexivity. }
  assert (Hw : forall n v, 0 < n <= 64 -> in_s n v -> in_s 64 v) by (intros n v Hn; apply in_s_mono; lia).
  set (a := swrap 64 (reloc_off + hi_part x)). assert (Ra : in_s 64 a) by (apply swrap_range; lia).
  set (h1 := set_pc (next_pc 64 h 4) (put_reg (rd d1) a h)).
  assert (Hh1 : hart_wf 64 h1) by (apply set_pc_wf; [apply put_reg_wf; assumption | apply uwrap_range; lia]).
  assert (Hg : get_reg h1 (rs1 d2) = a).
  { rewrite Hr. change (get_reg (put_reg (rd d1) a h) (rd d1) = a). rewrite (get_put_reg 64) by assumption.
    rewrite Z.eqb_refl. destruct (Z.eqb_spec (rd d1) 0); [contradiction | reflexivity]. }
  assert (Et : uwrap 64 (a + lo_part x) = label_off).
  { unfold a. rewrite <- uwrap_add_l, uwrap_swrap, uwrap_add_l, El. f_equal. unfold lo_part. lia. }
  assert (Ee : 2 * ((a + lo_part x) / 2) = a + lo_part x).
  { rewrite <- Et, uwrap_parity in He. pose proof (Z.div_mod (a + lo_part x) 2 ltac:(lia)). lia. }
  exists b', w1, w2. eexists. split; [exact Ha |]. split; [exact F1 |]. split; [exact F2 |]. split.
  - rewrite (exec_transfer w1 (set_imm (hi_part x) d1) h 4 (next_pc 64 h 4) a [w2]);
      [| assumption .. | rewrite V1; apply (Hw 32); [lia | exact Fh] | rewrite Hpc; exact Hp2 |].
    + apply (exec_transfer w2 (set_imm (lo_part x) d2) h1 4 label_off (swrap 64 (next_pc 64 h1 4)) []);
        [assumption .. | rewrite V2; apply (Hw 12); [lia | exact Fl] | |].
      * change (pc h1) with (uwrap 64 (pc h + 4)). rewrite uwrap_parity, Hpc, Z.add_mod, Hp2 by lia. reflexivity.
      * rewrite V2. cbn [op set_imm rs1]. rewrite O2, Hg. cbn [isa_control]. rewrite Ee, Et. reflexivity.
    + rewrite V1. cbn [op set_imm]. rewrite O1, Hpc. reflexivity.
  - split; [reflexivity |]. intros Hd. change (get_reg (put_reg (rd d2) (swrap 64 (next_pc 64 h1 4)) h1) (rd d2) = swrap 64 (reloc_off + 8)).
    rewrite (get_put_reg 64) by assumption. rewrite Z.eqb_refl. destruct (Z.eqb_spec (rd d2) 0); [contradiction |].
    cbn [andb negb]. unfold next_pc. change (pc h1) with (uwrap 64 (pc h + 4)).
    rewrite swrap_uwrap, Hpc. apply swrap_uwrap_inj. rewrite uwrap_add_l. f_equal. lia.
Qed.

(** ** On concrete programs *)

Definition branch_program : assembler :=
  default assembler_new (run_asm [fun a => Some (fst (add_reloc "f" R_RISCV_BRANCH a));
    add_emitted (emit_beq 1 2 0); add_emitted (emit_addi 0 0 0);
    fun a => Some (fst (add_label_here "f" a)); add_emitted (emit_addi 0 0 0)]).
Definition branch_reloc : reloc := mkReloc (1, 0) "f" R_RISCV_BRANCH.
Definition beq_1_2 : decode := mkDecode 0 0 1 2 0 rv_op_beq rv_codec_sb 0 0 0 0 0.

Lemma relocate_correct_witness :
  relocs_byoffset branch_program = [((1, 0), branch_reloc)]
  /\ exists b', relocate branch_reloc branch_program
      = Some (upd_section 1 (set_buf b') (resolve branch_reloc (mkLabel "f" (1, 8) 0) branch_program), true)
    /\ inst_at 0 b' (set_imm 8 beq_1_2).
Proof.
  split; [vm_compute; reflexivity |].
  destruct (relocate_correct branch_reloc branch_program 0 (current_section branch_program) 8 0 8 None
    rv_codec_sb Whole beq_1_2) as (b' & H1 & _ & H2 & _).
  - vm_compute. reflexivity.
  - vm_compute. reflexivity.
  - vm_compute. reflexivity.
  - vm_compute. reflexivity.
  - reflexivity.
  - right. left. reflexivity.
  - split; [split; vm_compute; congruence | reflexivity].
  - reflexivity.
  - reflexivity.
  - reflexivity.
  - exists 0x208063. split; vm_compute; reflexivity.
  - exists b'. split; [exact H1 | exact H2].
Defined.

Definition call_pair : list Z := [0x97; 0; 0; 0; 0xe7; 0x80; 0; 0].

Lemma linked_call_reaches_witness :
  exists b' w1 w2 h', apply_reloc R_RISCV_CALL 0x7ffff7fe 0x1000 0 None call_pair = Some b'
    /\ fetch_buf 0 b' = Some (w1, 4) /\ fetch_buf 4 b' = Some (w2, 4)
    /\ exec_words [w1; w2] (hart_ex []) = Some h' /\ pc h' = 0x7ffff7fe
    /\ (1 <> 0 -> get_reg h' 1 = 0x1008).
Proof.
  apply (linked_call_reaches 0 0x7ffff7fe 0x1000 0x7fffe7fe call_pair
    (mkDecode 0 1 0 0 0 rv_op_auipc rv_codec_u 0 0 0 0 0) (mkDecode 0 1 1 0 0 rv_op_jalr rv_codec_i 0 0 0 0 0)
    (hart_ex [])); try reflexivity.
  - exists 0x97. split; vm_compute; reflexivity.
  - exists 0x80e7. split; vm_compute; reflexivity.
  - discriminate.
  - unfold in_span. lia.
  - unfold in_u. lia.
  - hart_ex_tac.
Defined.

(** The low half of a pair is looked up with the label's address where the map
    has offsets in the section: a pair in a section that does not start at
    address zero is not resolved. *)
Definition pcrel_program (section_ : string) : option assembler :=
  run_asm [add_emitted (emit_addi 0 0 0); fun a => Some (get_section section_ a);
    fun a => Some (fst (add_label_here "pair" a)); fun a => Some (fst (add_reloc "pair" R_RISCV_PCREL_HI20 a));
    add_emitted (emit_auipc 1 0); add_emitted (emit_addi 0 0 0);
    fun a => Some (fst (add_reloc "pair" R_RISCV_PCREL_LO12_I a));
    add_emitted (emit_addi 1 1 0)].

Example pcrel_sections :
  (a ← pcrel_program "" ; snd <$> link a) = Some []
  /\ (a ← pcrel_program ".init"; snd <$> link a) = Some ["pair"%string].
Proof. vm_compute. split; reflexivity. Qed.
