(* ===== verification/AsmLabels.v ===== *)
(** * Labels: theorems

    The maps by offset stay in order, numeric labels refer to the nearest label
    of their number in the direction they say, and the loop that names a numeric
    label ends with a name that is free. *)

From Stdlib Require Import ZArith Lia Bool List Sorting.Sorted.
From stdpp Require Import base numbers list option gmap strings pretty.
From S2P Require Import Prelude Asm.

#[local] Open Scope Z_scope.

(** ** The order of offsets *)

#[export] Instance so_lt_trans : Transitive (fun a b => so_lt a b = true).
Proof.
  intros [x1 x2] [y1 y2] [z1 z2]. unfold so_lt. cbn. rewrite !orb_true_iff, !andb_true_iff, !Z.ltb_lt, !Z.eqb_eq. lia.
Qed.

Lemma so_lt_irrefl (a : section_offset) : so_lt a a = false.
Proof. unfold so_lt. rewrite Z.eqb_refl, !Z.ltb_irrefl. reflexivity. Qed.

Lemma so_lt_total (a b : section_offset) : a <> b -> so_lt a b = false -> so_lt b a = true.
Proof.
  destruct a as [x1 x2], b as [y1 y2]. unfold so_lt. cbn. intros Hne.
  rewrite orb_false_iff, andb_false_iff, orb_true_iff, andb_true_iff, !Z.ltb_lt, !Z.ltb_ge, !Z.eqb_eq, Z.eqb_neq.
  intros. destruct (Z.eq_dec x1 y1) as [-> |]; [| lia]. destruct (Z.eq_dec x2 y2) as [-> |]; [congruence | lia].
Qed.

Lemma so_lt_asym (a b : section_offset) : so_lt a b = true -> so_lt b a = false.
Proof.
  intros H. destruct (so_lt b a) eqn:E; [| reflexivity]. rewrite <- (so_lt_irrefl a). symmetry.
  exact (so_lt_trans a b a H E).
Qed.

(** A [std::map]: keys strictly increasing. *)
Definition ordered {A} (m : list (section_offset * A)) : Prop :=
  StronglySorted (fun x y => so_lt x.1 y.1 = true) m.

Lemma so_insert_In {A} (k : section_offset) (a : A) (m : list (section_offset * A)) (j : section_offset) (b : A) :
  In (j, b) (so_insert k a m) -> (j, b) = (k, a) \/ In (j, b) m.
Proof.
  induction m as [| [i c] m IH]; cbn [so_insert]; [intros [H | []]; auto |].
  destruct (bool_decide (i = k)); [| destruct (so_lt k i)]; cbn [In]; intros H; intuition auto.
Qed.

Lemma so_insert_ordered {A} (k : section_offset) (a : A) (m : list (section_offset * A)) :
  ordered m -> ordered (so_insert k a m).
Proof.
  unfold ordered. induction m as [| [i c] m IH]; intros H; cbn [so_insert].
  { repeat constructor. }
  inversion H as [| ? ? Hs Hf]; subst. rewrite List.Forall_forall in Hf.
  destruct (bool_decide_reflect (i = k)) as [-> | Hne].
  - constructor; [exact Hs | apply List.Forall_forall, Hf].
  - destruct (so_lt k i) eqn:E.
    + constructor; [exact H |]. constructor; [exact E |]. apply List.Forall_forall. intros y Hy.
      exact (so_lt_trans _ _ _ E (Hf y Hy)).
    + constructor; [apply IH, Hs |]. apply List.Forall_forall. intros [j b] Hy.
      apply so_insert_In in Hy as [Hy | Hy]; [| exact (Hf _ Hy)]. injection Hy as -> ->.
      cbn. apply so_lt_total; congruence.
Qed.

Lemma so_find_insert {A} (k j : section_offset) (a : A) (m : list (section_offset * A)) :
  so_find j (so_insert k a m) = if bool_decide (j = k) then Some a else so_find j m.
Proof.
  induction m as [| [i c] m IH]; cbn [so_insert].
  - cbn [so_find]. destruct (bool_decide_reflect (k = j)), (bool_decide_reflect (j = k)); congruence.
  - destruct (bool_decide_reflect (i = k)) as [-> | Hne]; [| destruct (so_lt k i)]; cbn [so_find];
      rewrite ?IH; repeat case_bool_decide; congruence.
Qed.

(** ** The state *)

Record asm_wf (a : assembler) : Prop := {
  aw_labels : ordered (labels_byoffset a);
  aw_relocs : ordered (relocs_byoffset a);
  aw_numbers : forall k n, In (k, n) (labels_byoffset a) -> exists l, labels a !! n = Some l /\ l_offset l = k;
  aw_names : forall s n, labels_byname a !! s = Some n -> exists l, labels a !! n = Some l /\ l_name l = s }.

Lemma assembler_new_wf : asm_wf assembler_new.
Proof.
  split; [constructor | constructor | intros k n [] |]. intros s n H. discriminate H.
Qed.

Lemma wf_sections (s : list section) (m : gmap string nat) (se we : list string) (c : nat) (a : assembler) :
  asm_wf a -> asm_wf (mkAsm s m (labels a) (labels_byoffset a) (labels_byname a) (relocs_byoffset a) se we c).
Proof. intros []. split; assumption. Qed.

Lemma append_wf (bs : list Z) (a : assembler) : asm_wf a -> asm_wf (append_bytes bs a).
Proof. apply wf_sections. Qed.

Lemma add_inst_wf (w : Z) (a : assembler) : asm_wf a -> asm_wf (add_inst w a).
Proof.
  intros H. unfold add_inst, append. repeat destruct (_ =? _); repeat apply append_wf; exact H.
Qed.

Lemma get_section_wf (name : string) (a : assembler) : asm_wf a -> asm_wf (get_section name a).
Proof. intros H. unfold get_section. destruct (section_map a !! name); apply wf_sections, H. Qed.

Lemma add_label_wf (name : string) (at_ : section_offset) (a : assembler) :
  asm_wf a -> asm_wf (fst (add_label name at_ a)).
Proof.
  intros [H1 H2 H3 H4]. unfold add_label. destruct (labels_byname a !! name) eqn:E; [split; assumption |]. cbn [fst].
  assert (Hk : forall n l, labels a !! n = Some l -> (labels a ++ [mkLabel name at_ 0]) !! n = Some l)
    by (intros n l Hl; apply lookup_app_l_Some, Hl).
  assert (Hn : (labels a ++ [mkLabel name at_ 0]) !! length (labels a) = Some (mkLabel name at_ 0)).
  { rewrite lookup_app_r, Nat.sub_diag by lia. reflexivity. }
  split; cbn.
  - apply so_insert_ordered, H1.
  - exact H2.
  - intros k n Hin. apply so_insert_In in Hin as [Hin | Hin].
    + injection Hin as -> ->. rewrite Hn. eauto.
    + destruct (H3 k n Hin) as (l & Hl & Ho). exists l. eauto.
  - intros s n Hs. destruct (decide (s = name)) as [-> | Hne].
    + rewrite lookup_insert_eq in Hs. injection Hs as <-. rewrite Hn. eauto.
    + rewrite lookup_insert_ne in Hs by congruence. destruct (H4 s n Hs) as (l & Hl & Ho). exists l. eauto.
Qed.

Lemma set_num_wf (n : nat) (num : Z) (a : assembler) : asm_wf a -> asm_wf (set_num n num a).
Proof.
  intros [H1 H2 H3 H4]. unfold set_num.
  assert (Hl : forall j l, labels a !! j = Some l -> exists l',
    alter (fun l => mkLabel (l_name l) (l_offset l) num) n (labels a) !! j = Some l'
    /\ l_offset l' = l_offset l /\ l_name l' = l_name l).
  { intros j l Hj. destruct (decide (j = n)) as [-> | Hne].
    - rewrite list_lookup_alter_eq, Hj. eauto.
    - rewrite list_lookup_alter_ne by congruence. eauto. }
  split; cbn; [exact H1 | exact H2 | |].
  - intros k j Hin. destruct (H3 k j Hin) as (l & E & <-). destruct (Hl j l E) as (l' & ? & ? & _). eauto.
  - intros s j Hs. destruct (H4 s j Hs) as (l & E & <-). destruct (Hl j l E) as (l' & ? & _ & ?). eauto.
Qed.

Lemma with_relocs_wf (k : section_offset) (r : reloc) (a : assembler) :
  asm_wf a -> asm_wf (with_relocs (so_insert k r (relocs_byoffset a)) a).
Proof. intros []. split; cbn; try assumption. apply so_insert_ordered. assumption. Qed.

(** ** Numeric labels *)

Definition numbered (ls : list label) (num : Z) (n : nat) : bool := default 0 (l_num <$> ls !! n) =? num.

(** The nearest label of a number after, and at or before, an offset. *)
Definition nearest_after (at_ : section_offset) (num : Z) (ls : list label) (m : list (section_offset * nat)) (n : nat) : Prop :=
  exists k, In (k, n) m /\ so_lt at_ k = true /\ numbered ls num n = true
    /\ forall k' n', In (k', n') m -> so_lt at_ k' = true -> so_lt k' k = true -> numbered ls num n' = false.
Definition nearest_before (at_ : section_offset) (num : Z) (ls : list label) (m : list (section_offset * nat)) (n : nat) : Prop :=
  exists k, In (k, n) m /\ so_lt at_ k = false /\ numbered ls num n = true
    /\ forall k' n', In (k', n') m -> so_lt at_ k' = false -> so_lt k k' = true -> numbered ls num n' = false.

Lemma label_after_spec (at_ : section_offset) (num : Z) (ls : list label) (m : list (section_offset * nat)) (found : bool) :
  ordered m -> (found = true -> forall k n, In (k, n) m -> so_lt at_ k = true) ->
  match label_after at_ num ls found m with
  | Some n => nearest_after at_ num ls m n
  | None => forall k n, In (k, n) m -> so_lt at_ k = true -> numbered ls num n = false
  end.
Proof.
  unfold ordered. revert found. induction m as [| [i c] m IH]; intros found Ho Hf; [intros k n [] |].
  inversion Ho as [| ? ? Hs Hlt]; subst. rewrite List.Forall_forall in Hlt. cbn [label_after].
  assert (Efound : found || so_lt at_ i = so_lt at_ i).
  { destruct found; [| reflexivity]. symmetry. apply (Hf eq_refl i c). left. reflexivity. }
  rewrite Efound. fold (numbered ls num c). destruct (so_lt at_ i && numbered ls num c) eqn:E.
  - apply andb_true_iff in E as [E1 E2]. exists i. split; [left; reflexivity |]. split; [exact E1 |].
    split; [exact E2 |]. intros k' n' [Hin | Hin] H1 H2.
    + injection Hin as -> ->. rewrite so_lt_irrefl in H2. discriminate H2.
    + specialize (Hlt _ Hin). cbn in Hlt. rewrite (so_lt_asym _ _ Hlt) in H2. discriminate H2.
  - assert (Hi : so_lt at_ i = true -> numbered ls num c = false) by (intros H; rewrite H in E; exact E).
    specialize (IH (so_lt at_ i) Hs). destruct (label_after at_ num ls (so_lt at_ i) m) as [n |].
    + destruct IH as (k & H1 & H2 & H3 & H4).
      { intros H k n' Hin. specialize (Hlt _ Hin). exact (so_lt_trans _ _ _ H Hlt). }
      exists k. split; [right; exact H1 |]. split; [exact H2 |]. split; [exact H3 |].
      intros k' n' [Hin | Hin] Ha Hb; [injection Hin as -> ->; apply Hi, Ha | exact (H4 k' n' Hin Ha Hb)].
    + intros k n [Hin | Hin] Ha; [injection Hin as -> ->; apply Hi, Ha |].
      refine (IH _ k n Hin Ha). intros H k' n' Hin'. specialize (Hlt _ Hin'). exact (so_lt_trans _ _ _ H Hlt).
Qed.

Lemma label_before_spec (at_ : section_offset) (num : Z) (ls : list label) (m : list (section_offset * nat)) (found : option nat) :
  ordered m ->
  match label_before at_ num ls found m with
  | Some n => nearest_before at_ num ls m n
      \/ (found = Some n /\ forall k n, In (k, n) m -> so_lt at_ k = false -> numbered ls num n = false)
  | None => found = None /\ forall k n, In (k, n) m -> so_lt at_ k = false -> numbered ls num n = false
  end.
Proof.
  unfold ordered. revert found. induction m as [| [i c] m IH]; intros found Ho.
  { cbn [label_before]. destruct found; [right |]; split; try reflexivity; intros ? ? []. }
  inversion Ho as [| ? ? Hs Hlt]; subst. rewrite List.Forall_forall in Hlt. cbn [label_before].
  destruct (so_lt at_ i) eqn:Ei.
  - assert (Hn : forall k n, In (k, n) ((i, c) :: m) -> so_lt at_ k = false -> numbered ls num n = false).
    { intros k n [Hin | Hin] Hk; [congruence |]. specialize (Hlt _ Hin).
      pose proof (so_lt_trans _ _ _ Ei Hlt) as H. cbn in H. congruence. }
    destruct found; [right |]; auto.
  - fold (numbered ls num c). specialize (IH (if numbered ls num c then Some c else found) Hs).
    destruct (label_before _ _ _ _ m) as [n |].
    + destruct IH as [(k & H1 & H2 & H3 & H4) | [Hf Hn]].
      * left. exists k. split; [right; exact H1 |]. split; [exact H2 |]. split; [exact H3 |].
        intros k' n' [Hin | Hin] Ha Hb; [| exact (H4 k' n' Hin Ha Hb)]. injection Hin as -> ->.
        specialize (Hlt _ H1). cbn in Hlt. rewrite (so_lt_asym _ _ Hlt) in Hb. discriminate Hb.
      * destruct (numbered ls num c) eqn:Ec.
        -- injection Hf as <-. left. exists i. split; [left; reflexivity |]. split; [exact Ei |]. split; [exact Ec |].
           intros k' n' [Hin | Hin] Ha Hb; [| exact (Hn k' n' Hin Ha)].
           injection Hin as -> ->. rewrite so_lt_irrefl in Hb. discriminate Hb.
        -- right. split; [exact Hf |]. intros k n' [Hin | Hin] Ha; [congruence | exact (Hn k n' Hin Ha)].
    + destruct IH as [Hf Hn]. destruct (numbered ls num c) eqn:Ec; [discriminate Hf |]. split; [exact Hf |].
      intros k n' [Hin | Hin] Ha; [congruence | exact (Hn k n' Hin Ha)].
Qed.

(** A numeric label refers to the nearest label of its number, among all
    labels of the program in section and offset order: [f] to the first one
    strictly after the relocation, [b] to the last one at or before it; and the
    lookup fails only where there is none. *)
Theorem numeric_labels_nearest (r : reloc) (num : Z) (a : assembler) : asm_wf a ->
  match lookup_label_f r num a with
  | Some n => nearest_after (r_offset r) num (labels a) (labels_byoffset a) n
  | None => forall k n, In (k, n) (labels_byoffset a) -> so_lt (r_offset r) k = true -> numbered (labels a) num n = false
  end
  /\ match lookup_label_b r num a with
     | Some n => nearest_before (r_offset r) num (labels a) (labels_byoffset a) n
     | None => forall k n, In (k, n) (labels_byoffset a) -> so_lt (r_offset r) k = false -> numbered (labels a) num n = false
     end.
Proof.
  intros [Ho _ _ _]. split.
  - apply (label_after_spec _ _ _ _ false Ho). discriminate.
  - pose proof (label_before_spec (r_offset r) num (labels a) _ None Ho) as H. unfold lookup_label_b.
    destruct (label_before _ _ _ _ _); [destruct H as [H | [E _]]; [exact H | discriminate E] | apply H].
Qed.

(** "1: nop; 1: nop; reloc 1f, 1b; nop; 1:" *)
Definition number_one (a : assembler) : assembler :=
  match add_label_num 1 a with Some (a, _) => a | None => a end.
Definition numbers : assembler :=
  number_one (append 4 0x13 (append 4 0x13 (number_one (append 4 0x13 (number_one assembler_new))))).

(** ** Naming numeric labels *)

Lemma num_label_inj (num : Z) : Inj (=) (=) (num_label num).
Proof.
  intros i j H. unfold num_label in H.
  apply (inj (String.append _)) in H. apply (inj (String.append _)) in H. apply (inj pretty) in H. exact H.
Qed.

Definition names_from (num i : Z) (fuel : nat) : list string :=
  map (fun k => num_label num (i + Z.of_nat k)) (List.seq 0 fuel).

Lemma names_from_S (num i : Z) (fuel : nat) :
  names_from num i (S fuel) = num_label num i :: names_from num (i + 1) fuel.
Proof.
  unfold names_from. cbn [List.seq map]. rewrite Z.add_0_r, <- seq_shift, map_map. f_equal.
  apply map_ext. intros k. f_equal. lia.
Qed.

Lemma add_label_num_from_None (fuel : nat) (i num : Z) (a : assembler) :
  add_label_num_from fuel i num a = None -> forall s, In s (names_from num i fuel) -> s ∈ dom (labels_byname a).
Proof.
  revert i. induction fuel as [| fuel IH]; intros i H s Hs; [destruct Hs |].
  rewrite names_from_S in Hs. cbn [add_label_num_from] in H.
  destruct (labels_byname a !! num_label num i) eqn:E.
  - destruct Hs as [<- | Hs]; [apply elem_of_dom; rewrite E; eauto | exact (IH _ H s Hs)].
  - destruct (add_label_here _ a) as [? [? |]]; discriminate H.
Qed.

Lemma add_label_num_from_Some (fuel : nat) (i num : Z) (a : assembler) (r : assembler * option nat) :
  add_label_num_from fuel i num a = Some r ->
  exists j, labels_byname a !! num_label num j = None
    /\ r = (set_num (length (labels a)) num (fst (add_label_here (num_label num j) a)), Some (length (labels a))).
Proof.
  revert i. induction fuel as [| fuel IH]; intros i H; [discriminate H |]. cbn [add_label_num_from] in H.
  destruct (labels_byname a !! num_label num i) eqn:E; [exact (IH _ H) |].
  exists i. split; [exact E |]. unfold add_label_here, add_label in *. rewrite E in *. injection H as <-. reflexivity.
Qed.

Lemma add_label_num_some (num : Z) (a : assembler) : add_label_num num a <> None.
Proof.
  intros H. unfold add_label_num in H. pose proof (add_label_num_from_None _ _ _ _ H) as Hd.
  set (names := names_from num 1 (S (size (labels_byname a)))) in *.
  assert (Hn : base.NoDup names).
  { apply NoDup_fmap_2_strong; [| apply NoDup_ListNoDup, seq_NoDup].
    intros k k' _ _ E. apply (inj (num_label num)) in E. lia. }
  assert (Hs : (list_to_set names : gset string) ⊆ dom (labels_byname a)).
  { intros s Hs. apply elem_of_list_to_set, list_elem_of_In in Hs. exact (Hd s Hs). }
  apply subseteq_size in Hs. rewrite size_list_to_set in Hs by exact Hn. rewrite size_dom in Hs.
  unfold names, names_from in Hs. rewrite length_map, length_seq in Hs. lia.
Qed.

Lemma add_label_num_eq (num : Z) (a : assembler) : exists j,
  labels_byname a !! num_label num j = None
  /\ add_label_num num a = Some (set_num (length (labels a)) num (fst (add_label_here (num_label num j) a)), Some (length (labels a))).
Proof.
  destruct (add_label_num num a) as [r |] eqn:E; [| destruct (add_label_num_some num a E)].
  apply add_label_num_from_Some in E as (j & Hj & ->). eauto.
Qed.

(** The loop that names a numeric label ends: with as many rounds as there are
    names and one more it finds a free name, because the names of one number
    differ.  The label it adds has that number and the current offset, under a
    name that no label had, and is the one found at that offset and by that name. *)
Theorem add_label_num_total (num : Z) (a : assembler) : exists a' n j,
  add_label_num num a = Some (a', Some n)
  /\ labels a' !! n = Some (mkLabel (num_label num j) (current_offset a) num)
  /\ labels_byname a !! num_label num j = None /\ lookup_label (num_label num j) a' = Some n
  /\ so_find (current_offset a) (labels_byoffset a') = Some n
  /\ forall s, s <> num_label num j -> lookup_label s a' = lookup_label s a.
Proof.
  destruct (add_label_num_eq num a) as (j & Hj & ->). eexists _, _, j. split; [reflexivity |].
  unfold add_label_here, add_label, lookup_label. rewrite Hj. cbn. split; [| split; [reflexivity |]].
  - rewrite list_lookup_alter_eq, lookup_app_r, Nat.sub_diag by lia. reflexivity.
  - split; [apply lookup_insert_eq |]. split.
    + rewrite so_find_insert, bool_decide_eq_true_2 by reflexivity. reflexivity.
    + intros s Hs. apply lookup_insert_ne. congruence.
Qed.

(** ** The operations of the assembler keep its maps in order *)

Lemma relocate_wf (r : reloc) (a a' : assembler) (b : bool) : asm_wf a -> relocate r a = Some (a', b) -> asm_wf a'.
Proof.
  intros H E. unfold relocate in E. destruct (lookup_target r (r_name r) a) as [n |]; [| injection E as <- _; exact H].
  cbv zeta in E. set (a1 := with_relocs _ a) in E. assert (H1 : asm_wf a1) by apply with_relocs_wf, H.
  clearbody a1. destruct (if _ =? SHN_ABS then _ else _) as [lo |]; [| discriminate E]. cbn [mbind option_bind] in E.
  destruct (reloc_offset r a1) as [ro |]; [| discriminate E]. cbn [mbind option_bind] in E.
  destruct (aget (sections a1) _) as [s |]; [| discriminate E]. cbn [mbind option_bind] in E.
  destruct (fetch_buf _ _) as [f |]; [| discriminate E]. cbn [mbind option_bind] in E.
  destruct (if is_pcrel_lo _ then _ else _) as [target |]; [| injection E as <- _; exact H1].
  destruct (apply_reloc _ _ _ _ _ _) as [bs |]; [| discriminate E]. cbn [mbind option_bind] in E.
  injection E as <- _. apply wf_sections, H1.
Qed.

Lemma relocate_all_wf (ks : list section_offset) (a a' : assembler) (names : list string) :
  asm_wf a -> relocate_all ks a = Some (a', names) -> asm_wf a'.
Proof.
  revert a names. induction ks as [| k ks IH]; intros a names H E; cbn [relocate_all] in E.
  { injection E as <- _. exact H. }
  destruct (lookup_reloc k a) as [r |]; [| discriminate E]. cbn [mbind option_bind] in E.
  destruct (relocate r a) as [[a1 ok] |] eqn:Er; [| discriminate E]. cbn [mbind option_bind] in E.
  destruct (relocate_all ks a1) as [[a2 names'] |] eqn:Ea; [| discriminate E]. cbn [mbind option_bind] in E.
  injection E as <- _. apply (IH a1 names'); [exact (relocate_wf r a a1 ok H Er) | exact Ea].
Qed.

(** The public operations of the class, [load_imm] as the instructions it adds. *)
Inductive asm_step (a : assembler) : assembler -> Prop :=
  | step_section name : asm_step a (get_section name a)
  | step_global s : asm_step a (global s a)
  | step_weak s : asm_step a (weak s a)
  | step_append bs : asm_step a (append_bytes bs a)
  | step_inst w : asm_step a (add_inst w a)
  | step_label name o : asm_step a (fst (add_label name o a))
  | step_number num a' n : add_label_num num a = Some (a', n) -> asm_step a a'
  | step_constant name v : asm_step a (fst (add_constant name v a))
  | step_reloc name ty : asm_step a (fst (add_reloc name ty a))
  | step_balign n : asm_step a (balign n a)
  | step_p2align n a' : p2align n a = Some a' -> asm_step a a'
  | step_link a' names : link a = Some (a', names) -> asm_step a a'.

Lemma balign_wf (n : Z) (a : assembler) : asm_wf a -> asm_wf (balign n a).
Proof. intros H. unfold balign. destruct (negb _); [exact H |]. destruct (_ =? 0); [exact H | apply append_wf, H]. Qed.

Lemma asm_step_wf (a a' : assembler) : asm_step a a' -> asm_wf a -> asm_wf a'.
Proof.
  intros Hs H. destruct Hs as [name | s | s | bs | w | name o | num a' n E | name v | name ty | n | n a' E | a' names E].
  - apply get_section_wf, H.
  - apply wf_sections, H.
  - apply wf_sections, H.
  - apply append_wf, H.
  - apply add_inst_wf, H.
  - apply add_label_wf, H.
  - destruct (add_label_num_eq num a) as (j & _ & E'). rewrite E' in E. injection E as <- _.
    apply set_num_wf, add_label_wf, H.
  - apply add_label_wf, H.
  - unfold add_reloc. destruct (lookup_reloc _ a); [exact H | apply with_relocs_wf, H].
  - apply balign_wf, H.
  - unfold p2align in E. destruct (_ && _); [injection E as <- | discriminate E]. apply balign_wf, H.
  - unfold link in E. apply (relocate_all_wf _ _ _ _ (wf_sections _ _ _ _ _ _ H) E).
Qed.

(** In every state the operations of the assembler reach, the maps by offset
    are in strict order, the label found at an offset has that offset, and the
    label found by a name has that name. *)
Theorem assembler_invariant (a : assembler) : rtc asm_step assembler_new a -> asm_wf a.
Proof.
  intros H. assert (G : asm_wf assembler_new -> asm_wf a); [| exact (G assembler_new_wf)].
  induction H as [| x y z Hs _ IH]; intros Hx; [exact Hx | exact (IH (asm_step_wf _ _ Hs Hx))].
Qed.

Lemma assembler_invariant_witness : asm_wf numbers /\ length (labels_byoffset numbers) = 3%nat.
Proof.
  split; [| vm_compute; reflexivity]. apply assembler_invariant.
  assert (N : forall a, rtc asm_step assembler_new a -> rtc asm_step assembler_new (number_one a)).
  { intros a H. eapply rtc_r; [exact H |]. unfold number_one.
    destruct (add_label_num 1 a) as [[a' n] |] eqn:E; [exact (step_number a 1 a' n E) |].
    destruct (add_label_num_some 1 a E). }
  assert (W : forall a, rtc asm_step assembler_new a -> rtc asm_step assembler_new (append 4 0x13 a)).
  { intros a H. eapply rtc_r; [exact H | apply step_append]. }
  unfold numbers. apply N, W, W, N, W, N. constructor.
Defined.

Lemma numeric_labels_nearest_witness :
  lookup_label_f (mkReloc (1, 8) "1f" 17) 1 numbers = Some 2%nat
  /\ lookup_label_b (mkReloc (1, 8) "1b" 17) 1 numbers = Some 1%nat
  /\ nearest_after (1, 8) 1 (labels numbers) (labels_byoffset numbers) 2.
Proof.
  assert (Hwf : asm_wf numbers).
  { assert (M : forall a, asm_wf a -> asm_wf (number_one a)).
    { intros a H. unfold number_one. destruct (add_label_num 1 a) as [[a' n] |] eqn:E; [| exact H].
      exact (asm_step_wf _ _ (step_number a 1 a' n E) H). }
    unfold numbers. repeat first [apply M | apply append_wf]. apply assembler_new_wf. }
  destruct (numeric_labels_nearest (mkReloc (1, 8) "1f" 17) 1 numbers Hwf) as [H _].
  split; [vm_compute; reflexivity |]. split; [vm_compute; reflexivity |].
  assert (E : lookup_label_f (mkReloc (1, 8) "1f" 17) 1 numbers = Some 2%nat) by (vm_compute; reflexivity).
  rewrite E in H. exact H.
Defined.

(** ** Two corners *)

(** Named labels have number zero, so [0f] refers to any of them. *)
Example zero_is_every_label :
  let a := append 4 0x13 (fst (add_label_here "main" (append 4 0x13 assembler_new))) in
  lookup_target (mkReloc (1, 0) "0f" 17) "0f" a = Some 0%nat /\ l_name (the_label 0 a) = "main"%string.
Proof. vm_compute. split; reflexivity. Qed.

(** A second label at an offset takes the place of the first in the map by offset:
    the numeric label of "1: main:" is not found. *)
Example shadowed_number :
  lookup_target (mkReloc (1, 4) "1b" 17) "1b"
    (append 4 0x13 (fst (add_label_here "main" (number_one assembler_new)))) = None.
Proof. vm_compute. reflexivity. Qed.
