(* ===== verification/Mmu.v ===== *)
(** * The memory interface: [emu/mmu-proxy.h]

    What the interpreter needs from an MMU is the class [Mmu] (the operations)
    and the class [MmuLaws] (their contract: a little-endian byte memory).  The
    interpreter's memory instructions are proved correct against the contract;
    [mmu_proxy], which accesses the host's memory and feeds the checkpoint
    manager, is proved to meet it. *)

From Stdlib Require Import ZArith Lia Bool.
From stdpp Require Import base gmap list option.
From S2P Require Import Prelude Alu Meta Codec Ckpt CkptProofs Replay CkptManager Interp Isa.

#[local] Open Scope Z_scope.
#[local] Open Scope word_scope.

(** ** The interface *)

(** [Fault] is [raise], which leaves the call by [longjmp]; [Ub] is undefined
    behaviour. *)
Inductive outcome (S A : Type) : Type :=
| Fine (s : S) (a : A)
| Fault (s : S) (cause badaddr : Z)
| Ub.
Arguments Fine {S A}. Arguments Fault {S A}. Arguments Ub {S A}.

(** The template methods of an MMU; values are exchanged as bits. *)
Class Mmu (S : Type) : Type := {
  mmu_fetch : Z -> S -> outcome S (Z * Z);
  mmu_load : Z -> Z -> S -> outcome S Z;
  mmu_store : Z -> Z -> Z -> S -> outcome S unit;
  mmu_amo : amo_op -> Z -> Z -> Z -> S -> outcome S Z }.

(** Executing an instruction with an MMU. *)
Fixpoint run {S : Type} {M : Mmu S} {A : Type} (p : io A) (s : S) : outcome (hart * S) A :=
  match p with
  | Ret h a => Fine (h, s) a
  | Load h sz va k =>
      match mmu_load sz va s with
      | Fine s v => run (k v) s
      | Fault s c b => Fault (h, s) c b
      | Ub => Ub
      end
  | Store h sz va data k =>
      match mmu_store sz va data s with
      | Fine s _ => run k s
      | Fault s c b => Fault (h, s) c b
      | Ub => Ub
      end
  | Amo h a_op sz va val2 k =>
      match mmu_amo a_op sz va val2 s with
      | Fine s v => run (k v) s
      | Fault s c b => Fault (h, s) c b
      | Ub => Ub
      end
  | Undef => Ub
  end.

(** The read-modify-write of an [n]-byte location. *)
Definition amo_value (sz : Z) (a_op : amo_op) (old val2 : Z) : Z :=
  amo_fn (8 * sz) a_op old (uwrap (8 * sz) val2).

(** The contract (a fetch that finds no instruction length is left open), at the
    accesses [addr_ok] (a size and an address), the fetch
    addresses [fetch_ok] and the states [state_ok]. *)
Class MmuLaws (S : Type) {M : Mmu S} : Type := {
  view : S -> memory;
  state_ok : S -> Prop;
  addr_ok : Z -> Z -> Prop;
  fetch_ok : Z -> Prop;
  amo_size : Z -> Prop;
  law_bytes s : state_ok s -> bytes (view s);
  law_fetch s pc inst len : state_ok s -> fetch_ok pc ->
    inst_fetch (mem_read 2 (view s)) (mem_read 4 (view s)) pc = (inst, len) -> len <> 0 ->
    mmu_fetch pc s = Fine s (inst, len);
  law_load s sz va : state_ok s -> access_size sz -> addr_ok sz va ->
    exists s', mmu_load sz va s = Fine s' (mem_read (Z.to_nat sz) (view s) va)
      /\ state_ok s' /\ forall b, view s' b = view s b;
  law_store s sz va data : state_ok s -> access_size sz -> addr_ok sz va ->
    exists s', mmu_store sz va data s = Fine s' tt
      /\ state_ok s' /\ forall b, view s' b = mem_write sz (view s) va data b;
  law_amo s a_op sz va val2 : state_ok s -> amo_size sz -> addr_ok sz va ->
    exists s', mmu_amo a_op sz va val2 s = Fine s' (mem_read (Z.to_nat sz) (view s) va)
      /\ state_ok s' /\ forall b, view s' b
         = mem_write sz (view s) va (amo_value sz a_op (mem_read (Z.to_nat sz) (view s) va) val2) b }.

(** ** The proxy MMU *)

(** The process's memory, and the global checkpoint manager. *)
Record proxy : Type := mkProxy { host : memory; mgr : manager }.

Definition memory_top : Z := 0x80000000.

Definition ck {A} (o : option manager) (k : manager -> outcome proxy A) : outcome proxy A :=
  match o with Some m => k m | None => Ub end.

(** [load] and [store] (memory top is not enforced: [enfore_memory_top] is false). *)
Definition proxy_load (sz va : Z) (s : proxy) : outcome proxy Z :=
  let val := mem_read (Z.to_nat sz) (host s) va in
  ck (cm_load sz va val (mgr s)) (fun m => Fine (mkProxy (host s) m) val).

Definition proxy_store (sz va val : Z) (s : proxy) : outcome proxy unit :=
  let hst := mem_write sz (host s) va val in
  ck (cm_store sz va val (mgr s)) (fun m => Fine (mkProxy hst m) tt).

(** [amo]; [w] is the width of [UX].  The location is [va & (memory_top - 1)]. *)
Definition proxy_amo (w : Z) (a_op : amo_op) (sz va val2 : Z) (s : proxy) : outcome proxy Z :=
  let loc := va .& (memory_top - 1) in
  let val1 := mem_read (Z.to_nat sz) (host s) loc in
  let val2 := amo_fn w a_op (uwrap w (swrap (8 * sz) val1)) (uwrap w (swrap (8 * sz) val2)) in
  let hst := mem_write sz (host s) loc val2 in
  ck (cm_load sz va val1 (mgr s)) (fun m =>
  ck (cm_store sz va val2 m) (fun m =>
  Fine (mkProxy hst m) val1)).

(** [inst_fetch] (no histogram). *)
Definition proxy_fetch (pc : Z) (s : proxy) : outcome proxy (Z * Z) :=
  Fine s (inst_fetch (mem_read 2 (host s)) (mem_read 4 (host s)) pc).

Definition mmu_proxy (w : Z) : Mmu proxy :=
  {| mmu_fetch := proxy_fetch; mmu_load := proxy_load;
     mmu_store := proxy_store; mmu_amo := proxy_amo w |}.

(** ** The proxy meets the contract *)

Lemma mem_read_range (n : nat) (M : memory) (a : Z) : bytes M -> in_u (8 * Z.of_nat n) (mem_read n M a).
Proof.
  intros HM. revert a. induction n as [|n IH]; intros a; [split; reflexivity || lia |]. cbn [mem_read].
  specialize (IH (a + 1)). pose proof (HM a) as Ha. unfold in_u in *.
  replace (8 * Z.of_nat (S n)) with (8 + 8 * Z.of_nat n) by lia.
  rewrite pow2_split by lia. change (2 ^ 8) with 256 in *. lia.
Qed.

Lemma mem_read_4 (M : memory) (a : Z) :
  bytes M -> mem_read 4 M a = mem_read 2 M a + 65536 * mem_read 2 M (a + 2) /\ in_u 32 (mem_read 4 M a)
  /\ in_u 16 (mem_read 2 M a).
Proof.
  intros HM. split; [|split; [apply (mem_read_range 4 M a HM) | apply (mem_read_range 2 M a HM)]].
  cbn [mem_read]. replace (a + 2 + 1) with (a + 1 + 1 + 1) by lia. replace (a + 2) with (a + 1 + 1) by lia. lia.
Qed.

(** An operation on sign-extended words agrees with the operation on the words. *)
Lemma amo_fn_narrow (w n : Z) (a_op : amo_op) (u v : Z) :
  0 < n <= w -> in_u n u -> in_u n v ->
  uwrap n (amo_fn w a_op (uwrap w (swrap n u)) (uwrap w (swrap n v))) = amo_fn n a_op u v.
Proof.
  intros Hn Hu Hv.
  assert (Hnw : forall z, uwrap n (uwrap w z) = uwrap n z).
  { intros z. unfold uwrap. rewrite Z.mod_mod_divide; [reflexivity |].
    exists (2 ^ (w - n)). rewrite <- pow2_split by lia. f_equal. lia. }
  assert (Hs : forall z, in_u n z -> uwrap n (uwrap w (swrap n z)) = z).
  { intros z Hz. rewrite Hnw, uwrap_swrap. apply uwrap_small, Hz. }
  assert (Hss : forall z, swrap w (uwrap w (swrap n z)) = swrap n z).
  { intros z. rewrite swrap_uwrap. apply swrap_small; [lia |].
    apply (in_s_mono n); [lia | apply swrap_range; lia]. }
  assert (Hbit : forall (f : Z -> Z -> Z) (g : bool -> bool -> bool), g false false = false ->
    (forall x y k, Z.testbit (f x y) k = g (Z.testbit x k) (Z.testbit y k)) ->
    uwrap n (f (uwrap w (swrap n u)) (uwrap w (swrap n v))) = f u v).
  { intros f g Hg Hf. rewrite <- (uwrap_bitop f g n) by (assumption || lia). rewrite !Hs by assumption. reflexivity. }
  assert (Hord : forall z, in_u n z -> uwrap w (swrap n z) = if z <? 2 ^ (n - 1) then z else z - 2 ^ n + 2 ^ w).
  { intros z Hz. assert (2 ^ n <= 2 ^ w) by (apply Z.pow_le_mono_r; lia).
    pose proof (pow2_half n ltac:(lia)). rewrite swrap_neg by (assumption || lia).
    unfold in_u in *. destruct (Z.ltb_spec z (2 ^ (n - 1))); [apply uwrap_small; split; lia |].
    rewrite <- (uwrap_add_multiple w _ 1) by lia. rewrite uwrap_small; [lia | split; lia]. }
  assert (Hle : (uwrap w (swrap n u) <=? uwrap w (swrap n v)) = (u <=? v)).
  { rewrite !Hord by assumption. assert (2 ^ n <= 2 ^ w) by (apply Z.pow_le_mono_r; lia).
    pose proof (pow2_half n ltac:(lia)). unfold in_u in *. bcases; reflexivity || lia. }
  destruct a_op; cbn [amo_fn].
  - apply Hs, Hv.
  - unfold amoadd_fn. rewrite Hnw. rewrite <- uwrap_add_l, Hs by assumption.
    rewrite <- uwrap_add_r, Hs by assumption. reflexivity.
  - unfold amoxor_fn. apply (Hbit _ xorb); auto using Z.lxor_spec.
  - unfold amoor_fn. apply (Hbit _ orb); auto using Z.lor_spec.
  - unfold amoand_fn. apply (Hbit _ andb); auto using Z.land_spec.
  - unfold amomin_fn. rewrite Hnw, !Hss. reflexivity.
  - unfold amomax_fn. rewrite Hnw, !Hss. reflexivity.
  - unfold amominu_fn. rewrite !uwrap_idemp, (uwrap_small n u Hu), (uwrap_small n v Hv).
    destruct (Z.leb_spec u v); [apply Z.leb_le in Hle | apply Z.leb_gt in Hle].
    + rewrite !Z.min_l by lia. apply Hs, Hu.
    + rewrite !Z.min_r by lia. apply Hs, Hv.
  - unfold amomaxu_fn. rewrite !uwrap_idemp, (uwrap_small n u Hu), (uwrap_small n v Hv).
    destruct (Z.leb_spec u v); [apply Z.leb_le in Hle | apply Z.leb_gt in Hle].
    + rewrite !Z.max_r by lia. apply Hs, Hv.
    + rewrite !Z.max_l by lia. apply Hs, Hu.
Qed.

(** A store writes the low bytes of its value. *)
Lemma mem_write_uwrap (sz : Z) (M : memory) (a v b : Z) :
  mem_write sz M a (uwrap (8 * sz) v) b = mem_write sz M a v b.
Proof.
  unfold mem_write. destruct (Z.leb_spec a b), (Z.ltb_spec b (a + sz)); try reflexivity. cbn [andb].
  apply byte_uwrap; lia.
Qed.

Lemma mem_write_ext (sz : Z) (M M' : memory) (a v b : Z) :
  M b = M' b -> mem_write sz M a v b = mem_write sz M' a v b.
Proof. intros H. unfold mem_write. destruct (_ && _); auto. Qed.

(** The proxy's states and the addresses it treats like a memory: outside page 0,
    whose first access dereferences a null pointer while a trace is open, and
    below the memory top, where [amo] addresses the same location as [load]. *)
Definition proxy_ok (s : proxy) : Prop := bytes (host s) /\ manager_wf (mgr s).
Definition proxy_addr (va : Z) : Prop := 4096 <= va < memory_top.

Lemma cm_data_ok (s : manager) (sz addr data : Z) :
  manager_wf s -> access_size sz -> 4096 <= addr ->
  (exists s', cm_load sz addr data s = Some s' /\ manager_wf s')
  /\ (exists s', cm_store sz addr data s = Some s' /\ manager_wf s').
Proof.
  intros Hs Hsz Ha. destruct (data_ops (fun _ _ => 0) s sz addr data 0 0 Hs Hsz Ha)
    as ((s1 & E1 & H1 & _) & (s2 & E2 & H2 & _) & _). split; eauto.
Qed.

Lemma amo_location (va : Z) : proxy_addr va -> va .& (memory_top - 1) = va.
Proof.
  intros [H1 H2]. change (memory_top - 1) with (2 ^ 31 - 1). rewrite uwrap_land by lia.
  apply uwrap_small. split; [lia | exact H2].
Qed.

#[export] Program Instance proxy_laws (w : Z) (Hw : w = 32 \/ w = 64) : @MmuLaws proxy (mmu_proxy w) := {
  view := host; state_ok := proxy_ok; addr_ok _ := proxy_addr; fetch_ok _ := True;
  amo_size sz := (sz = 4 \/ sz = 8) /\ 8 * sz <= w }.
Next Obligation. intros. apply H. Qed.
Next Obligation. intros. cbn. unfold proxy_fetch. congruence. Qed.
Next Obligation.
  intros w Hw s sz va [Hb Hm] Hsz [Ha _]. cbn [mmu_load mmu_proxy]. unfold proxy_load, ck.
  destruct (cm_data_ok (mgr s) sz va (mem_read (Z.to_nat sz) (host s) va) Hm Hsz Ha) as [(m & -> & Hm') _].
  eexists. split; [reflexivity | split; [split; assumption | reflexivity]].
Qed.
Next Obligation.
  intros w Hw s sz va data [Hb Hm] Hsz [Ha _]. cbn [mmu_store mmu_proxy]. unfold proxy_store, ck.
  destruct (cm_data_ok (mgr s) sz va data Hm Hsz Ha) as [_ (m & -> & Hm')].
  eexists. split; [reflexivity | split; [split; [apply bytes_write, Hb | assumption] | reflexivity]].
Qed.
Next Obligation.
  intros w Hw s a_op sz va val2 [Hb Hm] [Hsz Hszw] Ha. cbn [mmu_amo mmu_proxy]. unfold proxy_amo, ck.
  rewrite amo_location by exact Ha. destruct Ha as [Ha _].
  assert (Has : access_size sz) by (unfold access_size; lia).
  set (v1 := mem_read (Z.to_nat sz) (host s) va).
  set (v2 := amo_fn w a_op _ _).
  destruct (cm_data_ok (mgr s) sz va v1 Hm Has Ha) as [(m1 & -> & Hm1) _].
  destruct (cm_data_ok m1 sz va v2 Hm1 Has Ha) as [_ (m2 & -> & Hm2)].
  eexists. split; [reflexivity | split; [split; [apply bytes_write, Hb | assumption] |]].
  intros b. cbn [view host]. rewrite <- mem_write_uwrap. unfold v2, amo_value.
  rewrite <- (swrap_uwrap (8 * sz) val2), amo_fn_narrow; [reflexivity | lia | | apply uwrap_range; lia].
  pose proof (mem_read_range (Z.to_nat sz) (host s) va Hb) as Hr.
  replace (8 * Z.of_nat (Z.to_nat sz)) with (8 * sz) in Hr by lia. exact Hr.
Qed.

(** The bare memory, as the reference (and what a replay runs on). *)
#[export] Instance mmu_memory : Mmu memory := {
  mmu_fetch pc M := Fine M (inst_fetch (mem_read 2 M) (mem_read 4 M) pc);
  mmu_load sz va M := Fine M (mem_read (Z.to_nat sz) M va);
  mmu_store sz va data M := Fine (mem_write sz M va data) tt;
  mmu_amo a_op sz va val2 M :=
    let old := mem_read (Z.to_nat sz) M va in
    Fine (mem_write sz M va (amo_value sz a_op old val2)) old }.

#[export] Program Instance memory_laws : MmuLaws memory := {
  view := fun M => M; state_ok := bytes; addr_ok _ _ := True; fetch_ok _ := True; amo_size sz := sz = 4 \/ sz = 8 }.
Next Obligation. auto. Qed.
Next Obligation. intros s pc inst len _ _ E _. cbn [mmu_fetch mmu_memory]. rewrite E. reflexivity. Qed.
Next Obligation. intros s sz va Hb _ _. eexists. split; [reflexivity | auto]. Qed.
Next Obligation. intros s sz va data Hb _ _. eexists. split; [reflexivity | split; [apply bytes_write, Hb | auto]]. Qed.
Next Obligation. intros s a_op sz va val2 Hb _ _. eexists. split; [reflexivity | split; [apply bytes_write, Hb | auto]]. Qed.

(** ** The memory instructions *)

(** What the instruction set says: the size and, for a load, the extension. *)
Inductive mem_inst : Type :=
| MLoad (sz : Z) (ext : Z -> Z)
| MStore (sz : Z)
| MLr (sz : Z)
| MSc (sz : Z)
| MAmo (a_op : amo_op) (sz : Z).

Definition isa_mem (w : Z) (o : rv_op) : option mem_inst :=
  match o with
  | rv_op_lb => Some (MLoad 1 (swrap 8)) | rv_op_lbu => Some (MLoad 1 (fun v => v))
  | rv_op_lh => Some (MLoad 2 (swrap 16)) | rv_op_lhu => Some (MLoad 2 (fun v => v))
  | rv_op_lw => Some (MLoad 4 (swrap 32))
  | rv_op_sb => Some (MStore 1) | rv_op_sh => Some (MStore 2) | rv_op_sw => Some (MStore 4)
  | rv_op_lr_w => Some (MLr 4) | rv_op_sc_w => Some (MSc 4)
  | rv_op_amoswap_w => Some (MAmo amoswap 4) | rv_op_amoadd_w => Some (MAmo amoadd 4)
  | rv_op_amoxor_w => Some (MAmo amoxor 4) | rv_op_amoor_w => Some (MAmo amoor 4)
  | rv_op_amoand_w => Some (MAmo amoand 4) | rv_op_amomin_w => Some (MAmo amomin 4)
  | rv_op_amomax_w => Some (MAmo amomax 4) | rv_op_amominu_w => Some (MAmo amominu 4)
  | rv_op_amomaxu_w => Some (MAmo amomaxu 4)
  | _ =>
      if w =? 64 then
        match o with
        | rv_op_lwu => Some (MLoad 4 (fun v => v)) | rv_op_ld => Some (MLoad 8 (swrap 64))
        | rv_op_sd => Some (MStore 8)
        | rv_op_lr_d => Some (MLr 8) | rv_op_sc_d => Some (MSc 8)
        | rv_op_amoswap_d => Some (MAmo amoswap 8) | rv_op_amoadd_d => Some (MAmo amoadd 8)
        | rv_op_amoxor_d => Some (MAmo amoxor 8) | rv_op_amoor_d => Some (MAmo amoor 8)
        | rv_op_amoand_d => Some (MAmo amoand 8) | rv_op_amomin_d => Some (MAmo amomin 8)
        | rv_op_amomax_d => Some (MAmo amomax 8) | rv_op_amominu_d => Some (MAmo amominu 8)
        | rv_op_amomaxu_d => Some (MAmo amomaxu 8)
        | _ => None
        end
      else None
  end.

(** The address an instruction accesses. *)
Definition mem_addr (w : Z) (m : mem_inst) (h : hart) (dec : decode) : Z :=
  match m with
  | MLoad _ _ | MStore _ => get_reg h (rs1 dec) +[w] imm dec
  | MLr _ | MSc _ | MAmo _ _ => uwrap w (get_reg h (rs1 dec))
  end.

(** What the instruction set makes of the registers and the memory when the hart
    holds the reservation [r]: [sc] stores exactly when the reservation is of the
    address it is given. *)
Definition mem_effect (w : Z) (m : mem_inst) (r : option Z) (h : hart) (dec : decode) (M : memory) : hart * memory :=
  let a := mem_addr w m h dec in
  let b := get_reg h (rs2 dec) in
  match m with
  | MLoad sz ext => (put_reg (rd dec) (ext (mem_read (Z.to_nat sz) M a)) h, M)
  | MStore sz => (h, mem_write sz M a b)
  | MLr sz => (put_reg (rd dec) (swrap (8 * sz) (mem_read (Z.to_nat sz) M a)) h, M)
  | MSc sz =>
      if bool_decide (r = Some (get_reg h (rs1 dec))) then (put_reg (rd dec) 0 h, mem_write sz M a b)
      else (put_reg (rd dec) 1 h, M)
  | MAmo a_op sz =>
      let old := mem_read (Z.to_nat sz) M a in
      (put_reg (rd dec) (swrap (8 * sz) old) h, mem_write sz M a (amo_value sz a_op old b))
  end.

(** What it makes of the reservation: [lr] registers one, and [sc] gives up the
    one there is, whether it succeeds or not. *)
Definition mem_reservation (m : mem_inst) (r : option Z) (h : hart) (dec : decode) : option Z :=
  match m with
  | MLr _ => Some (get_reg h (rs1 dec))
  | MSc _ => None
  | _ => r
  end.

(** The code has no value for no reservation: it keeps the one it had. *)
Definition kept_reservation (r : option Z) (h : hart) : Z := match r with Some a => a | None => lr h end.

Definition code_effect (w : Z) (m : mem_inst) (h : hart) (dec : decode) (M : memory) : hart * memory :=
  let e := mem_effect w m (Some (lr h)) h dec M in
  (set_lr (kept_reservation (mem_reservation m (Some (lr h)) h dec) h) (fst e), snd e).

Lemma set_lr_same (h : hart) : set_lr (lr h) h = h.
Proof. destruct h. reflexivity. Qed.

Lemma set_lr_put_reg (r v a : Z) (h : hart) : set_lr a (put_reg r v h) = put_reg r v (set_lr a h).
Proof. unfold put_reg. destruct (r =? 0), h; reflexivity. Qed.

Definition mem_flag (fl : flags) (m : mem_inst) : bool :=
  match m with MLoad _ _ | MStore _ => rvi fl | _ => rva fl end.

(** The case of the switch for each kind. *)
Definition mem_case (w : Z) (m : mem_inst) (dec : decode) (h : hart) (off : Z) : io Z :=
  match m with
  | MLoad sz ext => load_case w dec h off sz ext
  | MStore sz => store_case w dec h off sz
  | MLr sz => lr_case w dec h off sz
  | MSc sz => sc_case w dec h off sz
  | MAmo a_op sz => amo_case w dec h off a_op sz
  end.

Definition mem_size (m : mem_inst) : Z :=
  match m with MLoad sz _ | MStore sz | MLr sz | MSc sz | MAmo _ sz => sz end.

(** Unsigned loads: the source converts through the unsigned type. *)
Definition ext_of (sz : Z) (ext conv : Z -> Z) : Prop := forall v, in_u (8 * sz) v -> conv v = ext v.

Lemma exec_mem_case (exec_fp : decode -> hart -> Z -> io Z) (fl : flags) (w : Z) (m : mem_inst)
    (dec : decode) (h : hart) (off : Z) :
  w = 32 \/ w = 64 -> isa_mem w (op dec) = Some m -> mem_flag fl m = true ->
  exists m', exec_inst exec_fp fl w dec h off = mem_case w m' dec h off
    /\ access_size (mem_size m) /\ 8 * mem_size m <= w
    /\ match m, m' with
       | MLoad sz ext, MLoad sz' conv => sz' = sz /\ ext_of sz ext conv /\ forall v, in_u (8 * sz) v -> in_s w (ext v)
       | MAmo _ sz, _ => m' = m /\ (sz = 4 \/ sz = 8)
       | _, _ => m' = m
       end.
Proof.
  intros Hw E Hf. unfold isa_mem in E.
  assert (Hsu : forall n v, 0 < n < w -> in_u n v -> in_s w v).
  { intros n v Hn [Hv1 Hv2]. assert (2 ^ n <= 2 ^ (w - 1)) by (apply Z.pow_le_mono_r; lia). split; lia. }
  assert (Hss : forall n v, 0 < n <= w -> in_s w (swrap n v)).
  { intros n v Hn. apply (in_s_mono n); [lia | apply swrap_range; lia]. }
  destruct Hw as [-> | ->]; unfold exec_inst, exec_inst_rv32, exec_inst_rv64, guarded,
    exec_i, exec_i64, exec_m, exec_m64, exec_a, exec_a64; cbn [Z.eqb Pos.eqb] in *;
    destruct (op dec); try discriminate E; injection E as <-; cbn [mem_flag] in Hf; rewrite Hf;
    cbn [mem_size];
    match goal with
    | |- exists m', load_case _ _ _ _ ?sz ?conv = _ /\ _ => exists (MLoad sz conv)
    | |- exists m', store_case _ _ _ _ ?sz = _ /\ _ => exists (MStore sz)
    | |- exists m', lr_case _ _ _ _ ?sz = _ /\ _ => exists (MLr sz)
    | |- exists m', sc_case _ _ _ _ ?sz = _ /\ _ => exists (MSc sz)
    | |- exists m', amo_case _ _ _ _ ?o ?sz = _ /\ _ => exists (MAmo o sz)
    end;
    (split; [reflexivity | split; [unfold access_size; lia | split; [lia |]]]);
    cbn; auto; (split; [reflexivity |]); unfold ext_of; cbn [Z.mul Pos.mul];
    (split; [intros v Hv; first [reflexivity | apply uwrap_small, Hv] | intros v Hv; first [apply Hss; lia | eapply Hsu; [|exact Hv]; lia]]).
Qed.

Section MemoryInstructions.
  Context {S : Type} {M : Mmu S} {L : MmuLaws S}.
  Context (exec_fp : decode -> hart -> Z -> io Z) (fl : flags) (w : Z).
  Hypothesis Hw : w = 32 \/ w = 64.

Lemma exec_memory (m : mem_inst) (dec : decode) (h : hart) (off : Z) (s : S) :
  isa_mem w (op dec) = Some m -> mem_flag fl m = true ->
  hart_wf w h -> is_reg (rd dec) -> is_reg (rs1 dec) -> is_reg (rs2 dec) ->
  state_ok s -> addr_ok (mem_size m) (mem_addr w m h dec) -> (forall a_op sz, m = MAmo a_op sz -> amo_size sz) ->
  exists s', run (exec_inst exec_fp fl w dec h off) s
             = Fine (fst (code_effect w m h dec (view s)), s') off
    /\ state_ok s' /\ forall b, view s' b = snd (code_effect w m h dec (view s)) b.
Proof using Hw.
  intros Em Hf Hh Hrd H1 H2 Hs Ha Hamo.
  destruct (exec_mem_case exec_fp fl w m dec h off Hw Em Hf) as (m' & -> & Hsz & Hszw & Hm).
  destruct (aget_get_reg w h _ Hh H1) as [E1 R1]. destruct (aget_get_reg w h _ Hh H2) as [E2 R2].
  assert (Hsw : forall hh v, hart_wf w hh -> in_s w v ->
            assign w dec hh (Some v) = Some (put_reg (rd dec) v hh)).
  { intros hh v Hhh Hv. rewrite (assign_spec w) by assumption. rewrite swrap_small by (assumption || lia). reflexivity. }
  assert (Hread : forall va, in_u (8 * mem_size m) (mem_read (Z.to_nat (mem_size m)) (view s) va)).
  { intros va. pose proof (mem_read_range (Z.to_nat (mem_size m)) (view s) va (law_bytes s Hs)) as Hr.
    replace (8 * Z.of_nat (Z.to_nat (mem_size m))) with (8 * mem_size m) in Hr by (unfold access_size in Hsz; lia).
    exact Hr. }
  assert (Hz : 0 < mem_size m) by (unfold access_size in Hsz; lia).
  assert (Hss : forall v, in_s w (swrap (8 * mem_size m) v)).
  { intros v. apply (in_s_mono (8 * mem_size m)); [lia | apply swrap_range; lia]. }
  unfold code_effect, kept_reservation.
  destruct m as [sz ext | sz | sz | sz | a_op sz]; cbn [mem_size mem_addr mem_effect mem_reservation fst snd] in *;
    rewrite ?set_lr_put_reg, ?set_lr_same.
  - destruct m' as [sz' conv | | | |]; try discriminate Hm. destruct Hm as (-> & Hext & Hin).
    cbn [mem_case]. unfold load_case, x. rewrite E1. cbn [run].
    destruct (law_load s sz _ Hs Hsz Ha) as (s' & -> & Hs' & Hv). unfold wr. rewrite Hext by apply Hread.
    rewrite Hsw by (apply Hin, Hread || assumption). cbn [run finish].
    exists s'. split; [reflexivity | split; [exact Hs' | exact Hv]].
  - subst m'. cbn [mem_case]. unfold store_case, x. rewrite E1, E2. cbn [run].
    destruct (law_store s sz _ (swrap (8 * sz) (get_reg h (rs2 dec))) Hs Hsz Ha) as (s' & -> & Hs' & Hv).
    exists s'. split; [reflexivity | split; [exact Hs' |]]. intros b. rewrite Hv. 
    rewrite <- mem_write_uwrap, uwrap_swrap, mem_write_uwrap. reflexivity.
  - subst m'. cbn [mem_case]. unfold lr_case, x. rewrite E1. cbn [run].
    destruct (law_load s sz _ Hs Hsz Ha) as (s' & -> & Hs' & Hv).
    rewrite Hsw; [| destruct Hh; split; assumption | apply Hss]. cbn [run finish].
    exists s'. split; [reflexivity | split; [exact Hs' | exact Hv]].
  - subst m'. cbn [mem_case]. unfold sc_case, x. rewrite E1, E2.
    destruct (Z.eqb_spec (lr h) (get_reg h (rs1 dec))) as [El | El]; cbn [negb]; unfold wr;
      [rewrite bool_decide_true by congruence | rewrite bool_decide_false by congruence];
      cbn [fst snd]; rewrite set_lr_put_reg, set_lr_same.
    + cbn [run].
      destruct (law_store s sz _ (swrap (8 * sz) (get_reg h (rs2 dec))) Hs Hsz Ha) as (s' & -> & Hs' & Hv).
      rewrite Hsw by (assumption || (apply (b2z_in_s w false); lia)). cbn [run finish fst snd].
      exists s'. split; [reflexivity | split; [exact Hs' |]]. intros b. rewrite Hv.
      rewrite <- mem_write_uwrap, uwrap_swrap, mem_write_uwrap. reflexivity.
    + rewrite Hsw by (assumption || (apply (b2z_in_s w true); lia)). cbn [run finish fst snd].
      exists s. auto.
  - destruct Hm as [-> Hsz4]. cbn [mem_case]. unfold amo_case, x. rewrite E1, E2. cbn [run].
    destruct (law_amo s a_op sz _ (swrap (8 * sz) (get_reg h (rs2 dec))) Hs (Hamo _ _ eq_refl) Ha)
      as (s' & -> & Hs' & Hv). unfold wr.
    rewrite Hsw by (apply Hss || assumption). cbn [run finish].
    exists s'. split; [reflexivity | split; [exact Hs' |]]. intros b. rewrite Hv.
     unfold amo_value. rewrite uwrap_swrap. reflexivity.
Qed.

End MemoryInstructions.

(** C12: on every MMU that meets the contract, the loads, stores, reservations
    and atomics of RV32IA and RV64IA do to the registers and the memory what the
    instruction set says, for the reservation the code holds: the address, the
    extension of what is read, the bytes written (and no others), the
    read-modify-write of the atomics at their own width, [sc] storing exactly when
    the reservation matches, and the value left in [rd].  The reservation afterwards
    is the instruction set's, the address of [lr] and otherwise what it was, except
    after [sc], which must give it up: the code keeps it
    ([sc_keeps_reservation]). *)
Theorem memory_correct {S : Type} {M : Mmu S} {L : MmuLaws S}
    (exec_fp : decode -> hart -> Z -> io Z) (fl : flags) (w : Z) (m : mem_inst) (dec : decode)
    (h : hart) (off : Z) (s : S) :
  w = 32 \/ w = 64 -> isa_mem w (op dec) = Some m -> mem_flag fl m = true ->
  hart_wf w h -> is_reg (rd dec) -> is_reg (rs1 dec) -> is_reg (rs2 dec) ->
  state_ok s -> addr_ok (mem_size m) (mem_addr w m h dec) -> (forall a_op sz, m = MAmo a_op sz -> amo_size sz) ->
  let (h', M') := mem_effect w m (Some (lr h)) h dec (view s) in
  exists h1 s', run (exec_inst exec_fp fl w dec h off) s = Fine (h1, s') off
    /\ h1 = set_lr (lr h1) h'
    /\ match mem_reservation m (Some (lr h)) h dec with Some a => lr h1 = a | None => lr h1 = lr h end
    /\ state_ok s' /\ forall b, view s' b = M' b.
Proof.
  intros Hw Em Hf Hh Hrd H1 H2 Hs Ha Hamo.
  destruct (exec_memory exec_fp fl w Hw m dec h off s Em Hf Hh Hrd H1 H2 Hs Ha Hamo) as (s' & Er & Hs' & Hv).
  unfold code_effect, kept_reservation in *. destruct (mem_effect w m (Some (lr h)) h dec (view s)) as [h' M']. cbn [fst snd] in *.
  eexists _, s'. split; [exact Er |]. split; [reflexivity |].
  split; [destruct (mem_reservation _ _ _ _); reflexivity | split; assumption].
Qed.

(** A manager with an open trace, over a memory of [a mod 256]. *)
Definition proxy_ex : proxy := mkProxy (fun a => a mod 256) (mkManager true 100 0 (Some trace_new) []).

Lemma proxy_ex_ok : proxy_ok proxy_ex.
Proof.
  split; [intros a; apply (uwrap_range 8); lia |]. split; [apply trace_new_wf | apply trace_new_stores_ok].
Qed.

Lemma memory_correct_witness :
  let H := or_intror eq_refl : 64 = 32 \/ 64 = 64 in
  let h := hart_ex [(5, 0x2080); (6, 1)] in
  let dec := mkDecode 0 7 5 6 0 rv_op_amoadd_w rv_codec_r_a 0 0 0 0 0 in
  exists h1 s', @run proxy (mmu_proxy 64) _ (exec_inst (fun _ _ _ => Undef) RV_IMA 64 dec h 4) proxy_ex
               = Fine (h1, s') 4
    /\ h1 = set_lr (lr h1) (put_reg 7 (swrap 32 0x83828180) h) /\ lr h1 = lr h
    /\ proxy_ok s' /\ forall b, host s' b
        = mem_write 4 (host proxy_ex) 0x2080 (amo_value 4 amoadd 0x83828180 1) b.
Proof.
  intros H. cbv zeta.
  apply (@memory_correct proxy (mmu_proxy 64) (proxy_laws 64 H) (fun _ _ _ => Undef) RV_IMA 64 (MAmo amoadd 4)
    (mkDecode 0 7 5 6 0 rv_op_amoadd_w rv_codec_r_a 0 0 0 0 0) (hart_ex [(5, 0x2080); (6, 1)]) 4 proxy_ex).
  - right; reflexivity.
  - reflexivity.
  - reflexivity.
  - hart_ex_tac.
  - unfold is_reg; cbn; lia.
  - unfold is_reg; cbn; lia.
  - unfold is_reg; cbn; lia.
  - exact proxy_ex_ok.
  - split; vm_compute; congruence.
  - intros a_op sz [= <- <-]. cbn. lia.
Defined.

(** ** Where the proxy is not a memory *)

(** [amo] masks its address and [load] does not: above the memory top they
    access different locations. *)
Lemma amo_wraps :
  let s := mkProxy (fun a => if a =? 0x1000 then 1 else 0) (mkManager false 0 0 None []) in
  (exists s', proxy_amo 64 amoswap 4 0x80001000 7 s = Fine s' 1)
  /\ exists s', proxy_load 4 0x80001000 s = Fine s' 0.
Proof. cbv zeta. split; eexists; reflexivity. Qed.

(** The reservation survives [sc]: a second [sc] to the same address succeeds. *)
Lemma sc_keeps_reservation (M0 : memory) :
  let h := set_lr 0x2000 (hart_ex [(5, 0x2000); (6, 1)]) in
  let dec := mkDecode 0 7 5 6 0 rv_op_sc_w rv_codec_r_a 0 0 0 0 0 in
  exists h1 M1 h2 M2,
    run (exec_inst (fun _ _ _ => Undef) RV_IMA 64 dec h 4) M0 = Fine (h1, M1) 4
    /\ get_reg h1 7 = 0 /\ run (exec_inst (fun _ _ _ => Undef) RV_IMA 64 dec h1 4) M1 = Fine (h2, M2) 4
    /\ get_reg h2 7 = 0.
Proof. cbv zeta. do 4 eexists. split; [reflexivity | split; [reflexivity | split; reflexivity]]. Qed.
