(* ===== verification/Runloop.v ===== *)
(** * The run loop: [emu/processor-runloop.h]

    Fetch, the direct-mapped cache of decoded instructions, the checkpoint
    hooks, execution, and the [step] loop.  What the loop calls besides the MMU
    and the interpreter (the privileged instructions and the hooks) is the class
    [Platform]. *)

From Stdlib Require Import ZArith Lia Bool.
From stdpp Require Import base list option.
From S2P Require Import Prelude Alu Operand Meta CompTables Codec Switch Decoder.
From S2P Require Import Ckpt CkptProofs Replay CkptManager Interp Isa Mmu.

#[local] Open Scope Z_scope.
#[local] Open Scope word_scope.

(** ** What the loop calls *)

Class Platform (S : Type) : Type := {
  (** [inst_priv(dec, pc_offset)]; the third argument is [instret], which control
      register instructions may write: the result is the offset and [instret] *)
  inst_priv : decode -> hart -> Z -> Z -> S -> outcome (hart * S) (Z * Z);
  (** [checkpoint.fetch(this, dec, pc, inst, pc_offset)] *)
  on_fetch : hart -> Z -> decode -> Z -> Z -> S -> option S;
  (** [checkpoint.execute(this, dec, pc)] *)
  on_execute : hart -> decode -> S -> S }.

(** ** The machine *)

Record machine (S : Type) : Type := mkMachine {
  m_hart : hart;
  m_mmu : S;
  m_instret : Z;
  m_cache : list (Z * decode);      (* [inst_cache]: the word and its decoding *)
  m_dec : decode }.                 (* the local [dec], which [step] reuses *)
Arguments mkMachine {S}. Arguments m_hart {S}. Arguments m_mmu {S}. Arguments m_instret {S}.
Arguments m_cache {S}. Arguments m_dec {S}.

Definition inst_cache_size : Z := 8191.
Definition inst_cache_init : list (Z * decode) :=
  replicate (Z.to_nat inst_cache_size) (0, decode_init).

(** How one pass of the loop body ends: the next instruction, the breakpoint,
    [raise], undefined behaviour. *)
Inductive stepped (S : Type) : Type :=
| Next (m : machine S)
| Cli (m : machine S)
| Trap (m : machine S) (cause badaddr : Z)
| Broken.
Arguments Next {S}. Arguments Cli {S}. Arguments Trap {S}. Arguments Broken {S}.

Definition rv_cause_illegal_instruction : Z := 2.

Section Runloop.
  Context {S : Type} {M : Mmu S} {P : Platform S}.
  Context (exec_fp : decode -> hart -> Z -> io Z) (fl : flags) (w : Z).
  (** [P::inst_decode]: decodes into the record it is given. *)
  Context (inst_decode : decode -> Z -> decode).
  Context (breakpoint : Z).

(** The lookup: on a miss the entry is replaced. *)
Definition cached_decode (inst : Z) (dec : decode) (cache : list (Z * decode))
    : option (decode * list (Z * decode)) :=
  let key := inst mod inst_cache_size in
  e ← aget cache key;
  if fst e =? inst then Some (snd e, cache)
  else
    let dec := inst_decode dec inst in
    cache ← aset cache key (inst, dec);
    Some (dec, cache).

(** An instruction retires. *)
Definition retire (m : machine S) (h : hart) (s : S) (dec : decode) (instret new_offset : Z) : machine S :=
  mkMachine (set_pc (pc h +[w] new_offset) h) (on_execute h dec s) (instret +[64] 1)
    (m_cache m) (m_dec m).

Definition with_state (m : machine S) (h : hart) (s : S) : machine S :=
  mkMachine h s (m_instret m) (m_cache m) (m_dec m).

(** [inst_exec], then [inst_priv], then illegal instruction. *)
Definition execute (m : machine S) (dec : decode) (pc_offset : Z) : stepped S :=
  match run (exec_inst exec_fp fl w dec (m_hart m) pc_offset) (m_mmu m) with
  | Ub => Broken
  | Fault (h, s) c b => Trap (with_state m h s) c b
  | Fine (h, s) new_offset =>
      if negb (new_offset =? uwrap w (-1)) then Next (retire m h s dec (m_instret m) new_offset)
      else
        match inst_priv dec h (m_instret m) pc_offset s with
        | Ub => Broken
        | Fault (h, s) c b => Trap (with_state m h s) c b
        | Fine (h, s) (new_offset, instret) =>
            if negb (new_offset =? uwrap w (-1)) then Next (retire m h s dec instret new_offset)
            else Trap (mkMachine h s instret (m_cache m) (m_dec m)) rv_cause_illegal_instruction (pc h)
        end
  end.

(** The body of the loop. *)
Definition step1 (m : machine S) : stepped S :=
  let h := m_hart m in
  if (pc h =? breakpoint) && negb (breakpoint =? 0) then Cli m
  else
    match mmu_fetch (pc h) (m_mmu m) with
    | Ub => Broken
    | Fault s c b => Trap (with_state m h s) c b
    | Fine s (inst, pc_offset) =>
        match cached_decode inst (m_dec m) (m_cache m) with
        | None => Broken
        | Some (dec, cache) =>
            match on_fetch h (m_instret m) dec inst pc_offset s with
            | None => Broken
            | Some s => execute (mkMachine h s (m_instret m) cache dec) dec pc_offset
            end
        end
    end.

(** [step]'s loop, up to the exit it takes; [None]: out of fuel. *)
Fixpoint loop (fuel : nat) (inststop : Z) (m : machine S) : option (stepped S) :=
  if m_instret m =? inststop then Some (Next m)
  else
    match fuel with
    | O => None
    | Datatypes.S n =>
        match step1 m with
        | Next m' => loop n inststop m'
        | e => Some e
        end
    end.

(** [step(count)]: [inststop] has the type [ux]. *)
Definition step (fuel : nat) (count : Z) (m : machine S) : option (stepped S) :=
  loop fuel (m_instret m +[w] count) m.

(** ** Reference: decode every instruction *)

Definition step1_ref (m : machine S) : stepped S :=
  let h := m_hart m in
  if (pc h =? breakpoint) && negb (breakpoint =? 0) then Cli m
  else
    match mmu_fetch (pc h) (m_mmu m) with
    | Ub => Broken
    | Fault s c b => Trap (with_state m h s) c b
    | Fine s (inst, pc_offset) =>
        let dec := inst_decode decode_init inst in
        match on_fetch h (m_instret m) dec inst pc_offset s with
        | None => Broken
        | Some s => execute (mkMachine h s (m_instret m) (m_cache m) dec) dec pc_offset
        end
    end.

Fixpoint iterate (step : machine S -> stepped S) (n : nat) (m : machine S) : stepped S :=
  match n with
  | O => Next m
  | Datatypes.S n => match step m with Next m' => iterate step n m' | e => e end
  end.

End Runloop.

(** ** Decoded instructions up to unused fields

    A decoder assigns the fields of its codec; the record is reused, so the
    others keep the values of an earlier instruction.  Two records are
    equivalent when no reader can tell them apart. *)

Record dec_equiv (d d' : decode) : Prop := {
  de_op : op d = op d';
  de_fields : op d <> rv_op_illegal ->
    imm d = imm d' /\ rd d = rd d' /\ rs1 d = rs1 d' /\ rs2 d = rs2 d';
  de_rs3 : rv_inst_codec (op d) = rv_codec_r4_m -> rs3 d = rs3 d' }.

#[export] Instance dec_equiv_equivalence : Equivalence dec_equiv.
Proof.
  split.
  - intros d. split; auto.
  - intros d d' [H1 H2 H3]. split; rewrite <- ?H1; [auto | | intros H; symmetry; auto].
    intros H. destruct (H2 H) as (? & ? & ? & ?). auto.
  - intros d d' d'' [H1 H2 H3] [H4 H5 H6]. rewrite <- H1 in *. split; [congruence | |].
    + intros H. destruct (H2 H) as (? & ? & ? & ?), (H5 H) as (? & ? & ? & ?). repeat split; congruence.
    + intros H. rewrite (H3 H). exact (H6 H).
Qed.

(** What the floating-point cases are assumed to read of the instruction: the
    fields the codec assigns, [rs3] only in the fused multiply-adds. *)
Class FpReads (exec_fp : decode -> hart -> Z -> io Z) : Prop :=
  exec_fp_reads d d' h off :
    op d = op d' -> imm d = imm d' -> rd d = rd d' -> rs1 d = rs1 d' -> rs2 d = rs2 d' ->
    (rv_inst_codec (op d) = rv_codec_r4_m -> rs3 d = rs3 d') ->
    exec_fp d h off = exec_fp d' h off.

(** The interpreter only reads those fields. *)
Lemma exec_inst_equiv (exec_fp : decode -> hart -> Z -> io Z) (fl : flags) (w : Z) (d d' : decode)
    (h : hart) (off : Z) :
  FpReads exec_fp -> dec_equiv d d' ->
  exec_inst exec_fp fl w d h off = exec_inst exec_fp fl w d' h off.
Proof.
  intros Hf [H1 H2 H3]. pose proof (exec_fp_reads d d' h off H1) as He.
  unfold exec_inst, exec_inst_rv32, exec_inst_rv64.
  destruct d as [i r1 r2 r3 r4 o c x1 x2 x3 x4 x5], d' as [i' r1' r2' r3' r4' o' c' x1' x2' x3' x4' x5'].
  cbn [op imm rd rs1 rs2 rs3] in *. subst o'.
  destruct (rv_op_eq_dec o rv_op_illegal) as [-> | Ho]; [destruct (w =? 32); reflexivity |].
  destruct (H2 Ho) as (-> & -> & -> & ->). destruct (w =? 32); cbv beta; rewrite He by auto; reflexivity.
Qed.

Lemma rv_inst_codec_illegal (o : rv_op) : rv_inst_codec o = rv_codec_illegal -> o = rv_op_illegal.
Proof. destruct o; solve [reflexivity | discriminate]. Qed.

(** Decoding into any record. *)
Lemma decode_inst_stable (f : isa) (d d' : decode) (inst : Z) :
  dec_equiv (decode_inst f d inst) (decode_inst f d' inst).
Proof.
  unfold decode_inst. set (o := decode_inst_op f inst). clearbody o.
  unfold decode_inst_type. cbn [op codec set_codec set_op].
  destruct (rv_inst_codec o) eqn:Ec;
    try (split; [reflexivity | intros _; repeat split; reflexivity | cbn; rewrite Ec; (discriminate || reflexivity)]).
  apply rv_inst_codec_illegal in Ec. subst o. split; [reflexivity | | ]; cbn; congruence.
Qed.

Lemma decompress_stable (table : rv_op -> rv_op) (d d' : decode) :
  table rv_op_illegal = rv_op_illegal ->
  (forall o, table o <> rv_op_illegal -> rv_inst_codec (table o) <> rv_codec_r4_m) ->
  dec_equiv d d' -> dec_equiv (decompress table d) (decompress table d').
Proof.
  intros Ht H4 [H1 H2 H3]. unfold decompress. rewrite <- H1.
  destruct (bool_decide_reflect (table (op d) = rv_op_illegal)) as [E | E]; [split; assumption |].
  split; [reflexivity | | intros H; destruct (H4 _ E H)].
  intros _. apply H2. intros Ho. rewrite Ho in E. contradiction.
Qed.

(** What the run loop needs of [inst_decode]. *)
Definition stable (inst_decode : decode -> Z -> decode) : Prop :=
  forall d inst, dec_equiv (inst_decode d inst) (inst_decode decode_init inst).

#[local] Ltac decide_codec := intros o; destruct o; cbn; congruence.

Lemma stable_decoders :
  stable decode_inst_rv32 /\ stable decode_inst_rv64
  /\ stable (decode_inst isa_rv32) /\ stable (decode_inst isa_rv64).
Proof.
  split; [|split; [|split]]; intros d inst.
  - apply decompress_stable; [reflexivity | decide_codec | apply decode_inst_stable].
  - apply decompress_stable; [reflexivity | decide_codec | apply decode_inst_stable].
  - apply decode_inst_stable.
  - apply decode_inst_stable.
Qed.

Lemma exec_illegal (exec_fp : decode -> hart -> Z -> io Z) (fl : flags) (w : Z) (d : decode) (h : hart) (off : Z) :
  w = 32 \/ w = 64 -> op d = rv_op_illegal -> exec_inst exec_fp fl w d h off = Ret h (uwrap w (-1)).
Proof.
  destruct d as [i r1 r2 r3 r4 o c x1 x2 x3 x4 x5]. cbn [op]. intros [-> | ->] ->; reflexivity.
Qed.

(** ** The cache is transparent *)

(** The privileged instructions and the hooks read no more than the interpreter. *)
Class PlatformLaws (w : Z) (S : Type) {P : Platform S} : Prop := {
  inst_priv_proper :: Proper (dec_equiv ==> eq ==> eq ==> eq ==> eq ==> eq) inst_priv;
  on_fetch_proper :: Proper (eq ==> eq ==> dec_equiv ==> eq ==> eq ==> eq ==> eq) on_fetch;
  on_execute_proper h d d' s :
    dec_equiv d d' -> op d <> rv_op_illegal -> on_execute h d s = on_execute h d' s;
  priv_illegal d h n off s :
    op d = rv_op_illegal -> inst_priv d h n off s = Fine (h, s) (uwrap w (-1), n) }.

Section Transparent.
  Context (w : Z) {S : Type} {M : Mmu S} {P : Platform S} {PL : PlatformLaws w S}.
  Context (exec_fp : decode -> hart -> Z -> io Z) (fl : flags).
  Context (inst_decode : decode -> Z -> decode) (breakpoint : Z).
  Hypothesis Hw : w = 32 \/ w = 64.
  Hypothesis Hf : FpReads exec_fp.
  Hypothesis Hdec : stable inst_decode.

(** An entry for a word other than 0 holds that word's decoding. *)
Definition cache_ok (cache : list (Z * decode)) : Prop :=
  length cache = Z.to_nat inst_cache_size
  /\ Forall (fun e => fst e <> 0 -> dec_equiv (snd e) (inst_decode decode_init (fst e))) cache.

Lemma inst_cache_init_ok : cache_ok inst_cache_init.
Proof using Type. split; [apply length_replicate | apply Forall_replicate; cbn; congruence]. Qed.

Lemma cached_decode_spec (inst : Z) (d : decode) (cache : list (Z * decode)) :
  cache_ok cache -> inst <> 0 ->
  exists d' cache', cached_decode inst_decode inst d cache = Some (d', cache')
    /\ cache_ok cache' /\ dec_equiv d' (inst_decode decode_init inst).
Proof using Hdec.
  intros [Hl Hc] Hi. unfold cached_decode. set (key := inst mod inst_cache_size).
  assert (Hk : 0 <= key < Z.of_nat (length cache)).
  { rewrite Hl. unfold key, inst_cache_size. pose proof (Z.mod_pos_bound inst 8191). lia. }
  destruct (aget_Some cache key Hk) as [[i e] Ee]. rewrite Ee. cbn [mbind option_bind fst snd].
  destruct (Z.eqb_spec i inst) as [-> |].
  - exists e, cache. split; [reflexivity | split; [split; assumption |]].
    unfold aget in Ee. destruct (0 <=? key); [|discriminate].
    exact (Forall_lookup_1 _ _ _ _ Hc Ee Hi).
  - rewrite aset_Some by exact Hk. do 2 eexists. split; [reflexivity |]. split; [|apply Hdec].
    split; [rewrite length_insert; exact Hl |]. apply Forall_insert; [exact Hc | intros _; apply Hdec].
Qed.

(** The architectural part of a machine. *)
Record same (m m' : machine S) : Prop := {
  sm_hart : m_hart m = m_hart m';
  sm_mmu : m_mmu m = m_mmu m';
  sm_instret : m_instret m = m_instret m' }.

Definition stepped_same (e e' : stepped S) : Prop :=
  match e, e' with
  | Next m, Next m' | Cli m, Cli m' => same m m'
  | Trap m c b, Trap m' c' b' => same m m' /\ c = c' /\ b = b'
  | Broken, Broken => True
  | _, _ => False
  end.

Lemma execute_same (m m' : machine S) (d d' : decode) (off : Z) :
  same m m' -> dec_equiv d d' -> stepped_same (execute exec_fp fl w m d off) (execute exec_fp fl w m' d' off).
Proof using Hw Hf PL.
  intros [E1 E2 E3] He. unfold execute.
  rewrite (exec_inst_equiv exec_fp fl w d d') by assumption. rewrite <- E1, <- E2, <- E3.
  assert (Hret : forall h s n o, op d <> rv_op_illegal ->
            same (retire w m h s d n o) (retire w m' h s d' n o)).
  { intros h s n o Ho. split; cbn; [reflexivity | apply on_execute_proper; assumption | reflexivity]. }
  assert (Hst : forall h s, same (with_state m h s) (with_state m' h s)) by (intros; split; auto).
  destruct (rv_op_eq_dec (op d) rv_op_illegal) as [Ei | Ei].
  - assert (Ei' : op d' = rv_op_illegal) by (rewrite <- (de_op _ _ He); exact Ei).
    rewrite exec_illegal by assumption. cbn [run]. rewrite Z.eqb_refl. cbn [negb].
    rewrite (priv_illegal d), (priv_illegal d') by assumption. rewrite Z.eqb_refl. cbn.
    split; [split; auto | auto].
  - assert (Hp : forall h s, inst_priv d h (m_instret m) off s = inst_priv d' h (m_instret m) off s).
    { intros h s. apply inst_priv_proper; auto. }
    destruct (run _ _) as [[h s] o | [h s] c b |]; [| cbn; auto | exact I].
    rewrite <- ?E3. destruct (negb _); [apply Hret, Ei |]. rewrite Hp.
    destruct (inst_priv _ _ _ _ _) as [[h2 s2] [o2 n2] | [h2 s2] c b |]; [| cbn; auto | exact I].
    destruct (negb _); cbn; [apply Hret, Ei | split; [split; reflexivity | auto]].
Qed.

(** What a machine would fetch is not the zero word. *)
Definition fetches_nonzero (m : machine S) : bool :=
  match mmu_fetch (pc (m_hart m)) (m_mmu m) with
  | Fine _ (inst, _) => negb (inst =? 0)
  | _ => true
  end.

Fixpoint run_nonzero (n : nat) (m : machine S) : bool :=
  match n with
  | O => true
  | Datatypes.S n =>
      fetches_nonzero m
      && match step1_ref exec_fp fl w inst_decode breakpoint m with
         | Next m' => run_nonzero n m'
         | _ => true
         end
  end.

Lemma step1_same (m m' : machine S) :
  cache_ok (m_cache m) -> same m m' -> fetches_nonzero m = true ->
  stepped_same (step1 exec_fp fl w inst_decode breakpoint m) (step1_ref exec_fp fl w inst_decode breakpoint m')
  /\ forall m1, step1 exec_fp fl w inst_decode breakpoint m = Next m1 -> cache_ok (m_cache m1).
Proof using Hw Hf PL Hdec.
  intros Hc [E1 E2 E3] Hnz. unfold fetches_nonzero in Hnz. unfold step1, step1_ref. rewrite <- E1, <- E2.
  destruct (_ && _); [split; [split; auto | discriminate] |].
  destruct (mmu_fetch _ _) as [s [inst off] | s c b |] eqn:Ef;
    [| split; [cbn; split; [split; auto | auto] | discriminate] | split; [exact I | discriminate]].
  rewrite negb_true_iff, Z.eqb_neq in Hnz.
  destruct (cached_decode_spec inst (m_dec m) (m_cache m) Hc Hnz) as (d & cache & -> & Hc' & Hd').
  rewrite <- E3. rewrite (on_fetch_proper _ _ eq_refl _ _ eq_refl _ _ Hd' _ _ eq_refl _ _ eq_refl _ _ eq_refl).
  destruct (on_fetch _ _ _ _ _ _) as [s' |]; [|split; [exact I | discriminate]].
  split; [apply execute_same; [split; auto | exact Hd'] |].
  unfold execute. intros m1 H.
  repeat match type of H with
  | match ?o with _ => _ end = _ => destruct o
  | (let (_, _) := ?p in _) = _ => destruct p
  | (if ?c then _ else _) = _ => destruct c
  end; try discriminate H; injection H as <-; exact Hc'.
Qed.

Lemma iterate_same (n : nat) : forall m m',
  cache_ok (m_cache m) -> same m m' -> run_nonzero n m' = true ->
  stepped_same (iterate (step1 exec_fp fl w inst_decode breakpoint) n m)
    (iterate (step1_ref exec_fp fl w inst_decode breakpoint) n m').
Proof using Hw Hf PL Hdec.
  induction n as [|n IH]; intros m m' Hc Hs Hn; [exact Hs |]. cbn [iterate].
  cbn [run_nonzero] in Hn. apply andb_true_iff in Hn as [Hz Hn].
  assert (Hz' : fetches_nonzero m = true) by (unfold fetches_nonzero; rewrite (sm_hart _ _ Hs), (sm_mmu _ _ Hs); exact Hz).
  destruct (step1_same m m' Hc Hs Hz') as [H1 H2].
  destruct (step1 _ _ _ _ _ m) as [m1 | m1 | m1 c b |], (step1_ref _ _ _ _ _ m') as [m2 | m2 | m2 c2 b2 |];
    try contradiction H1; try exact H1.
  apply IH; [apply H2; reflexivity | exact H1 | exact Hn].
Qed.

End Transparent.

(** C11: the instruction cache is transparent but for the zero word.  A machine
    that starts with the cache [step] starts with, and any machine with a
    consistent cache, runs [n] instructions to the same outcome, hart, memory and
    retired count as the machine that decodes every instruction afresh, although
    the decodings are stored in a record whose unused fields are stale.  This is
    for every extension, floating point included if its cases, which are not
    translated, read of the instruction the fields its codec assigns ([FpReads]);
    and as long as the zero word is not fetched: the empty slot of a new cache
    matches it, so that what it does depends on the cache
    ([zero_word_depends_on_cache]). *)
Theorem inst_cache_transparent (w : Z) {S : Type} {M : Mmu S} {P : Platform S} {PL : PlatformLaws w S}
    (exec_fp : decode -> hart -> Z -> io Z) (fl : flags) (inst_decode : decode -> Z -> decode)
    (breakpoint : Z) (n : nat) (m m' : machine S) :
  w = 32 \/ w = 64 -> FpReads exec_fp -> stable inst_decode ->
  cache_ok inst_decode (m_cache m) -> same m m' ->
  run_nonzero w exec_fp fl inst_decode breakpoint n m' = true ->
  stepped_same (iterate (step1 exec_fp fl w inst_decode breakpoint) n m)
    (iterate (step1_ref exec_fp fl w inst_decode breakpoint) n m').
Proof. intros Hw Hf Hs. apply iterate_same; assumption. Qed.

(** ** The loop terminates *)

(** No privileged instruction writes [instret]. *)
Class KeepsInstret (S : Type) {P : Platform S} : Prop :=
  priv_keeps_instret : forall d h n off s hs o n', inst_priv d h n off s = Fine hs (o, n') -> n' = n.

Lemma uwrap_inj_small (a x y : Z) : in_u 64 a -> 0 <= x < 2 ^ 64 -> 0 <= y < 2 ^ 64 ->
  a +[64] x = a +[64] y -> x = y.
Proof. unfold in_u, uwrap. intros. dlia. Qed.

Section Terminates.
  Context {S : Type} {M : Mmu S} {P : Platform S} {K : KeepsInstret S}.
  Context (exec_fp : decode -> hart -> Z -> io Z) (fl : flags) (w : Z).
  Context (inst_decode : decode -> Z -> decode) (breakpoint : Z).

Abbreviation body := (step1 exec_fp fl w inst_decode breakpoint).

(** Every instruction that does not leave the loop retires. *)
Lemma step1_instret (m m' : machine S) : body m = Next m' -> m_instret m' = m_instret m +[64] 1.
Proof using K.
  unfold step1, execute. intros H.
  destruct (_ && _); [discriminate H |].
  destruct (mmu_fetch _ _) as [s [inst off] | |]; try discriminate H.
  destruct (cached_decode _ _ _ _) as [[dec cache] |]; [| discriminate H].
  destruct (on_fetch _ _ _ _ _ _) as [s1 |]; [| discriminate H].
  destruct (run _ _) as [[h2 s2] o | [? ?] ? ? |]; try discriminate H.
  destruct (negb _); [injection H as <-; reflexivity |].
  destruct (inst_priv _ _ _ _ _) as [[h3 s3] [o3 n3] | [? ?] ? ? |] eqn:Ep; try discriminate H.
  apply priv_keeps_instret in Ep. subst n3.
  destruct (negb _); [injection H as <-; reflexivity | discriminate H].
Qed.

Lemma loop_iterate (n : nat) : forall (stop : Z) (m : machine S),
  (forall k, (k < n)%nat -> m_instret m +[64] Z.of_nat k <> stop) -> m_instret m +[64] Z.of_nat n = stop ->
  in_u 64 (m_instret m) ->
  loop exec_fp fl w inst_decode breakpoint n stop m = Some (iterate body n m).
Proof using K.
  induction n as [|n IH]; intros stop m Hne Hst Hm; cbn [loop iterate].
  - rewrite Z.add_0_r, uwrap_small in Hst by assumption. rewrite Hst, Z.eqb_refl. reflexivity.
  - assert (H0 : m_instret m <> stop).
    { specialize (Hne 0%nat ltac:(lia)). rewrite Z.add_0_r, uwrap_small in Hne by assumption. exact Hne. }
    rewrite (proj2 (Z.eqb_neq _ _) H0).
    destruct (body m) as [m' | m' | m' c b |] eqn:E; try reflexivity.
    pose proof (step1_instret m m' E) as Ei.
    assert (Hk : forall k, m_instret m' +[64] Z.of_nat k = m_instret m +[64] Z.of_nat (Datatypes.S k)).
    { intros k. rewrite Ei, uwrap_add_l. f_equal. lia. }
    apply IH.
    + intros k Hlt. rewrite Hk. apply Hne. lia.
    + rewrite Hk. exact Hst.
    + rewrite Ei. apply uwrap_range. lia.
Qed.

Lemma iterate_instret (n : nat) : forall m m', in_u 64 (m_instret m) ->
  iterate body n m = Next m' -> m_instret m' = m_instret m +[64] Z.of_nat n.
Proof using K.
  induction n as [|n IH]; intros m m' Hm H; cbn [iterate] in H.
  - injection H as <-. rewrite Z.add_0_r, uwrap_small; auto.
  - destruct (body m) as [m1 | m1 | m1 c b |] eqn:E; try discriminate H.
    pose proof (step1_instret m m1 E) as Ei. rewrite (IH m1 m' ltac:(rewrite Ei; apply uwrap_range; lia) H).
    rewrite Ei, uwrap_add_l. f_equal. lia.
Qed.

Lemma step_iterate (count : Z) (m : machine S) :
  in_u 64 (m_instret m) -> 0 <= count < 2 ^ 64 ->
  w = 64 \/ w = 32 /\ m_instret m + count < 2 ^ 32 ->
  step exec_fp fl w inst_decode breakpoint (Z.to_nat count) count m = Some (iterate body (Z.to_nat count) m).
Proof using K.
  intros Hm Hc Hw. unfold step.
  assert (E : m_instret m +[w] count = m_instret m +[64] count).
  { destruct Hw as [-> | [-> Hlt]]; [reflexivity |]. unfold in_u in Hm.
    rewrite !uwrap_small; [reflexivity | |]; unfold in_u; lia. }
  rewrite E. apply loop_iterate; [| rewrite Z2Nat.id by lia; reflexivity | exact Hm].
  intros k Hk H. apply uwrap_inj_small in H; [| assumption | |]; lia.
Qed.

End Terminates.

(** C20: [step(count)] terminates: with fuel [count] the loop returns, and what
    it returns is [count] passes of the body or the first exit on the way
    (breakpoint, trap); if it runs to the end, exactly [count] instructions have
    retired.  On RV32, as long as the retired count stays below [2^32]. *)
Theorem step_terminates {S : Type} {M : Mmu S} {P : Platform S} {K : KeepsInstret S}
    (exec_fp : decode -> hart -> Z -> io Z) (fl : flags) (w : Z)
    (inst_decode : decode -> Z -> decode) (breakpoint count : Z) (m : machine S) :
  in_u 64 (m_instret m) -> 0 <= count < 2 ^ 64 ->
  w = 64 \/ w = 32 /\ m_instret m + count < 2 ^ 32 ->
  exists e, step exec_fp fl w inst_decode breakpoint (Z.to_nat count) count m = Some e
    /\ e = iterate (step1 exec_fp fl w inst_decode breakpoint) (Z.to_nat count) m
    /\ forall m', e = Next m' -> m_instret m' = m_instret m +[64] count.
Proof.
  intros Hm Hc Hw. eexists. split; [apply step_iterate; assumption | split; [reflexivity |]].
  intros m' H. rewrite (iterate_instret exec_fp fl w inst_decode breakpoint _ m m' Hm H).
  rewrite Z2Nat.id by lia. reflexivity.
Qed.

(** On RV32 [inststop] is 32 bits wide and [instret] is 64: past [2^32] retired
    instructions the loop no longer stops at its count. *)
Lemma rv32_step_overruns {S : Type} {M : Mmu S} {P : Platform S} {K : KeepsInstret S}
    (exec_fp : decode -> hart -> Z -> io Z) (fl : flags)
    (inst_decode : decode -> Z -> decode) (breakpoint count : Z) (n : nat) : forall m : machine S,
  2 ^ 32 <= m_instret m -> m_instret m + Z.of_nat n < 2 ^ 64 ->
  forall m', step exec_fp fl 32 inst_decode breakpoint n count m <> Some (Next m').
Proof.
  unfold step. intros m. generalize (m_instret m +[32] count), (uwrap_range 32 (m_instret m + count) ltac:(lia)).
  intros stop Hs. revert m. induction n as [|n IH]; intros m Hm Hn m'; cbn [loop];
    rewrite (proj2 (Z.eqb_neq (m_instret m) stop)) by (unfold in_u in Hs; lia); [discriminate |].
  destruct (step1 _ _ _ _ _ m) as [m1 | m1 | m1 c b |] eqn:E; try discriminate.
  pose proof (step1_instret _ _ _ _ _ m m1 E) as Ei. rewrite uwrap_small in Ei by (unfold in_u; lia).
  apply IH; lia.
Qed.
