(* ===== verification/ProxySim.v ===== *)
(** * The proxy simulator: [emu/processor-proxy.h] and [emu/processor-impl.h]

    The platform [rv-sim] runs on: the user-level control registers, the
    privileged cases it accepts, and the checkpoint hooks of the run loop. *)

From Stdlib Require Import ZArith Lia Bool.
From stdpp Require Import base gmap list option.
From S2P Require Import Prelude Alu Operand Meta CompTables Codec Switch Decoder.
From S2P Require Import Ckpt CkptProofs Replay CkptManager Interp Isa Mmu Runloop.

#[local] Open Scope Z_scope.
#[local] Open Scope word_scope.

(** ** The destination register, as the recorder sees it *)

(** [get_rd]: the register whose write can be replaced by a system call. *)
Definition get_rd (dec : decode) : Z :=
  match op dec with
  | rv_op_addi | rv_op_slti | rv_op_sltiu | rv_op_andi | rv_op_ori | rv_op_xori
  | rv_op_slli | rv_op_srli | rv_op_srai | rv_op_lui | rv_op_auipc
  | rv_op_add | rv_op_slt | rv_op_sltu | rv_op_and | rv_op_or | rv_op_xor
  | rv_op_sll | rv_op_srl | rv_op_sub | rv_op_sra
  | rv_op_lb | rv_op_lh | rv_op_lw | rv_op_lbu | rv_op_lhu
  | rv_op_addiw | rv_op_slliw | rv_op_srliw | rv_op_sraiw
  | rv_op_addw | rv_op_sllw | rv_op_srlw | rv_op_subw | rv_op_sraw | rv_op_lwu | rv_op_ld
  | rv_op_mul | rv_op_mulh | rv_op_mulhsu | rv_op_mulhu
  | rv_op_div | rv_op_divu | rv_op_rem | rv_op_remu
  | rv_op_mulw | rv_op_divw | rv_op_divuw | rv_op_remw | rv_op_remuw =>
      if rd dec =? 0 then 10 else rd dec
  | _ => -1
  end.

(** ** Control and status registers *)

Inductive csr_op : Type := csr_rw | csr_rs | csr_rc.

Definition rv_mode_U : Z := 0.

(** [if (dec.rd != rv_ireg_x0) ireg[dec.rd] = v] *)
Definition csr_read (w : Z) (dec : decode) (v : Z) (h : hart) : option hart :=
  if negb (rd dec =? 0) then r ← aset (ireg h) (rd dec) (swrap w v); Some (set_ireg r h)
  else Some h.

(** [set_csr], for a register of [n] bits; the result holds its new value. *)
Definition set_csr (w n : Z) (dec : decode) (mode : Z) (op : csr_op) (csr reg value write_mask read_mask shift : Z)
    (h : hart) : option (hart * Z) :=
  let csr_mode := (csr >>> 8) .& 3 in
  let readonly := (csr >>> 12) .& 1 in
  h ← csr_read w dec (if csr_mode <=? mode then (reg >>> shift) .& read_mask else 0) h;
  if negb (readonly =? 0) then Some (h, reg)
  else
    let bits := (value .& write_mask) <<[Z.max w n] shift in
    Some (h,
      match op with
      | csr_rw => uwrap n ((reg .& bnot n (write_mask <<[n] shift)) .| bits)
      | csr_rs => if negb (value =? 0) then uwrap n (reg .| bits) else reg
      | csr_rc => if negb (value =? 0) then uwrap n (reg .& bnot (Z.max w n) bits) else reg
      end).

Definition get_csr (w : Z) (dec : decode) (mode csr reg : Z) (h : hart) : option hart :=
  csr_read w dec (if (csr >>> 8) .& 3 <=? mode then reg else 0) h.

Definition get_csr_hi (w : Z) (dec : decode) (mode csr reg : Z) (h : hart) : option hart :=
  csr_read w dec (if (csr >>> 8) .& 3 <=? mode then swrap 32 (reg >>> 32) else 0) h.

Section Proxy.
  Context (w : Z).
  (** [cpu_cycle_clock()], by retired instructions, and the system calls. *)
  Context (cpu_cycle_clock : Z -> Z) (proxy_syscall : hart -> proxy -> outcome (hart * proxy) unit).
  Context (en : enumeration) (monitor_pc : Z).

(** [inst_csr]; [None] is an index out of the register file. *)
Definition inst_csr (dec : decode) (op : csr_op) (csr value pc_offset instret : Z) (h : hart) : option (hart * Z) :=
  let fcsr_case write_mask read_mask shift :=
    '(h', r) ← set_csr w 32 dec rv_mode_U op csr (fcsr h) value write_mask read_mask shift h;
    Some (set_fcsr r h', pc_offset) in
  let done o := h' ← o; Some (h', pc_offset) in
  if csr =? 0x001 then fcsr_case 0x1f 0x1f 0
  else if csr =? 0x002 then fcsr_case 0x3 0x3 5
  else if csr =? 0x003 then fcsr_case 0xff 0xff 0
  else if csr =? 0xc00 then done (get_csr w dec rv_mode_U csr instret h)
  else if csr =? 0xc01 then
    let h := set_time (cpu_cycle_clock instret) h in done (get_csr w dec rv_mode_U csr (time h) h)
  else if csr =? 0xc02 then done (get_csr w dec rv_mode_U csr instret h)
  else if csr =? 0xc80 then done (get_csr_hi w dec rv_mode_U csr instret h)
  else if csr =? 0xc81 then done (get_csr_hi w dec rv_mode_U csr (time h) h)
  else if csr =? 0xc82 then done (get_csr_hi w dec rv_mode_U csr instret h)
  else Some (h, uwrap w (-1)).

(** [inst_priv] *)
Definition proxy_inst_priv (dec : decode) (h : hart) (instret pc_offset : Z) (s : proxy)
    : outcome (hart * proxy) (Z * Z) :=
  let csr o value :=
    match value with
    | None => Ub
    | Some v =>
        match inst_csr dec o (imm dec) v pc_offset instret h with
        | Some (h, off) => Fine (h, s) (off, instret)
        | None => Ub
        end
    end in
  let reg := uwrap w <$> aget (ireg h) (rs1 dec) in
  match op dec with
  | rv_op_fence | rv_op_fence_i => Fine (h, s) (pc_offset, instret)
  | rv_op_ecall =>
      match proxy_syscall h s with
      | Fine s' _ => Fine s' (pc_offset, instret)
      | Fault s' c b => Fault s' c b
      | Ub => Ub
      end
  | rv_op_csrrw => csr csr_rw reg
  | rv_op_csrrs => csr csr_rs reg
  | rv_op_csrrc => csr csr_rc reg
  | rv_op_csrrwi => csr csr_rw (Some (rs1 dec))
  | rv_op_csrrsi => csr csr_rs (Some (rs1 dec))
  | rv_op_csrrci => csr csr_rc (Some (rs1 dec))
  | _ => Fine (h, s) (uwrap w (-1), instret)
  end.

(** ** The hooks *)

Definition guest_read (M : memory) (sz a : Z) : Z := mem_read (Z.to_nat sz) M a.

Definition proxy_on_fetch (h : hart) (instret : Z) (dec : decode) (inst length : Z) (s : proxy) : option proxy :=
  m ← cm_fetch en (guest_read (host s)) (mkProc instret (map (uwrap 64) (ireg h)) (freg h))
        (get_rd dec) (pc h) inst length (mgr s);
  Some (mkProxy (host s) m).

Definition proxy_on_execute (h : hart) (dec : decode) (s : proxy) : proxy :=
  mkProxy (host s) (cm_execute monitor_pc (pc h) (uwrap 64 (default 0 (aget (ireg h) (rd dec)))) (mgr s)).

#[export] Instance proxy_platform : Platform proxy := {
  inst_priv := proxy_inst_priv; on_fetch := proxy_on_fetch; on_execute := proxy_on_execute }.

(** The counters are only read. *)
#[export] Instance proxy_keeps_instret : KeepsInstret proxy.
Proof using Type.
  intros d h n off s hs o n'. cbn [inst_priv proxy_platform]. unfold proxy_inst_priv.
  destruct (op d); try (intros [= _ _ <-]; reflexivity);
  repeat match goal with
  | |- match ?o with _ => _ end = _ -> _ => destruct o
  | |- (let (_, _) := ?p in _) = _ -> _ => destruct p
  end; try discriminate; intros [= _ _ <-]; reflexivity.
Qed.

Lemma get_rd_equiv (d d' : decode) : dec_equiv d d' -> get_rd d = get_rd d'.
Proof using Type.
  intros [H1 H2 _]. unfold get_rd. rewrite <- H1.
  destruct (rv_op_eq_dec (op d) rv_op_illegal) as [E | E]; [rewrite E; reflexivity |].
  destruct (H2 E) as (_ & -> & _). reflexivity.
Qed.

(** It cannot tell equivalent decodings apart. *)
#[export] Instance proxy_platform_laws : PlatformLaws w proxy.
Proof using Type.
  split.
  - intros d d' H h _ <- n _ <- o _ <- s _ <-. cbn [inst_priv proxy_platform].
    destruct H as [H1 H2 _]. destruct (rv_op_eq_dec (op d) rv_op_illegal) as [E | E].
    { unfold proxy_inst_priv. rewrite <- H1, E. reflexivity. }
    destruct (H2 E) as (Ei & Er & E1 & _). clear H2 E.
    destruct d as [i r1 r2 r3 r4 o1 c x1 x2 x3 x4 x5], d' as [i' r1' r2' r3' r4' o1' c' x1' x2' x3' x4' x5'].
    cbn [op imm rd rs1 rs2] in *. subst. reflexivity.
  - intros h _ <- n _ <- d d' H i _ <- l _ <- s _ <-. cbn [on_fetch proxy_platform]. unfold proxy_on_fetch.
    rewrite (get_rd_equiv d d' H). reflexivity.
  - intros h d d' s [H1 H2 _] E. cbn [on_execute proxy_platform]. unfold proxy_on_execute.
    destruct (H2 E) as (_ & -> & _). reflexivity.
  - intros d h n off s E. cbn [inst_priv proxy_platform]. unfold proxy_inst_priv. rewrite E. reflexivity.
Qed.

End Proxy.

(** ** The machine [rv-sim] starts *)

(** Retired zero, the cache empty, a trace not yet open. *)
Definition machine_init (h : hart) (M : memory) (period : Z) : machine proxy :=
  mkMachine h (mkProxy M (mkManager true period 0 None [])) 0 inst_cache_init decode_init.

(** A memory holding a list of halfwords. *)
Fixpoint code (a : Z) (l : list Z) : memory :=
  match l with
  | [] => fun _ => 0
  | x :: l' => fun b => if b =? a then uwrap 8 x else if b =? a + 1 then uwrap 8 (x >>> 8) else code (a + 2) l' b
  end.

(** Deciding the claims about concrete machines. *)
Definition no_syscall : hart -> proxy -> outcome (hart * proxy) unit := fun _ _ => Ub.
Definition platform_ex : Platform proxy := proxy_platform 64 (fun n => n) no_syscall enum_sorted 0.

Definition step_ex : machine proxy -> stepped proxy :=
  @step1 proxy (mmu_proxy 64) platform_ex (fun _ _ _ => Undef) RV_IMA 64 decode_inst_rv64 0.

Definition pc_of (e : stepped proxy) : option Z :=
  match e with Next m => Some (pc (m_hart m)) | _ => None end.

(** The zero word, which the instruction set defines to be illegal, is decoded as
    [addi s0, sp, 0]: a fresh cache hides this, because its empty slot matches
    the zero word; once a word of that slot has run, the zero word executes. *)
Lemma zero_word_depends_on_cache :
  (exists m, step_ex (machine_init (set_pc 0x2002 hart_init) (code 0x2000 [0x5ffd; 0]) 100)
             = Trap m rv_cause_illegal_instruction 0x2002)
  /\ pc_of (iterate step_ex 2 (machine_init (set_pc 0x2000 hart_init) (code 0x2000 [0x5ffd; 0]) 100))
     = Some 0x2004.
Proof. split; [eexists |]; vm_compute; reflexivity. Qed.

Lemma inst_cache_transparent_witness :
  let fp := fun d h off => Ret (put_reg (rd d) (rs1 d) h) off in
  let m := machine_init (set_pc 0x2000 hart_init) (code 0x2000 [0x0505; 0x0513; 0x0075; 0xf543; 0x68c5]) 100 in
  stepped_same (iterate (@step1 proxy (mmu_proxy 64) platform_ex fp RV_IMAFD 64 decode_inst_rv64 0) 3 m)
    (iterate (@step1_ref proxy (mmu_proxy 64) platform_ex fp RV_IMAFD 64 decode_inst_rv64 0) 3 m).
Proof.
  cbv zeta.
  apply (@inst_cache_transparent 64 proxy (mmu_proxy 64) platform_ex
    (proxy_platform_laws 64 (fun n => n) no_syscall enum_sorted 0) _ RV_IMAFD decode_inst_rv64 0 3).
  - right; reflexivity.
  - intros d d' h off _ _ -> -> _ _. reflexivity.
  - apply stable_decoders.
  - apply inst_cache_init_ok.
  - split; reflexivity.
  - vm_compute. reflexivity.
Defined.

Lemma step_terminates_witness :
  let m := machine_init (set_pc 0x2000 hart_init) (code 0x2000 [0x0505; 0x0513; 0x0075]) 100 in
  exists e, @step proxy (mmu_proxy 64) platform_ex (fun _ _ _ => Undef) RV_IMA 64 decode_inst_rv64 0 2 2 m = Some e
    /\ e = iterate step_ex 2 m
    /\ forall m', e = Next m' -> m_instret m' = 2.
Proof.
  cbv zeta.
  apply (@step_terminates proxy (mmu_proxy 64) platform_ex
    (proxy_keeps_instret 64 (fun n => n) no_syscall enum_sorted 0) (fun _ _ _ => Undef) RV_IMA 64 decode_inst_rv64 0 2).
  - cbn [m_instret machine_init]. unfold in_u. lia.
  - lia.
  - left; reflexivity.
Defined.

(** ** Control registers *)

(** The rounding mode has three bits and its mask two: writing mode 4 (nearest,
    ties to maximum magnitude) leaves 0. *)
Lemma frm_loses_bit :
  exists h, inst_csr 64 (fun n => n) (mkDecode 2 0 5 0 0 rv_op_csrrw rv_codec_i_csr 0 0 0 0 0) csr_rw 2 4 4 0 hart_init
            = Some (h, 4) /\ fcsr h = 0.
Proof. eexists. split; reflexivity. Qed.
