(* ===== verification/IsaReplay.v ===== *)
(** * Replaying a checkpoint on the simulator

    The contract of [Replay] at the level of instructions.  The simulator runs
    with the recorder on from the start of a checkpoint to the instruction where
    the next one is cut; the same simulator, started from the same registers on
    any memory that holds the recorded bytes and with the recorder off, executes
    the same instructions and reaches the same registers. *)

From Stdlib Require Import ZArith Lia Bool.
From stdpp Require Import base gmap list option.
From S2P Require Import Prelude Alu Operand Meta CompTables Codec Switch Decoder.
From S2P Require Import Ckpt CkptProofs Replay CkptManager Interp Isa Mmu Runloop ProxySim.

#[local] Open Scope Z_scope.
#[local] Open Scope word_scope.

(** ** Agreement of the two memories *)

Definition ext (r r' : Z -> option Z) : Prop := forall b v, r b = Some v -> r' b = Some v.

(** [r] is recorded so far and [rend] by the end: the replay memory agrees with
    the program's where something has been recorded, and holds the values still
    to be recorded elsewhere. *)
Definition sim (r rend : Z -> option Z) (M R : memory) : Prop :=
  (forall b v, r b = Some v -> R b = M b) /\ (forall b v, r b = None -> rend b = Some v -> R b = v).

Lemma ext_trans (r1 r2 r3 : Z -> option Z) : ext r1 r2 -> ext r2 r3 -> ext r1 r3.
Proof. unfold ext. auto. Qed.

Lemma ext_record (a n : Z) (f : Z -> Z) (r r1 : Z -> option Z) :
  (forall b, r1 b = record a n f r b) -> ext r r1.
Proof. intros H b v Hb. rewrite H. apply record_keeps, Hb. Qed.

(** What [record] gives in its range. *)
Lemma record_at (a n : Z) (f : Z -> Z) (r r1 : Z -> option Z) (b : Z) :
  (forall b, r1 b = record a n f r b) -> a <= b < a + n -> r b = None -> r1 b = Some (f b).
Proof.
  intros H Hb Hr. rewrite H. unfold record. rewrite Hr.
  rewrite (proj2 (Z.leb_le a b)), (proj2 (Z.ltb_lt b (a + n))) by lia. reflexivity.
Qed.

(** The bytes newly recorded are those of the range. *)
Lemma record_new (a n : Z) (f : Z -> Z) (r r1 : Z -> option Z) (b v : Z) :
  (forall b, r1 b = record a n f r b) -> r1 b = Some v -> r b = None -> a <= b < a + n /\ v = f b.
Proof.
  intros H Hb Hr. rewrite H in Hb. unfold record in Hb. rewrite Hr in Hb.
  destruct (Z.leb_spec a b), (Z.ltb_spec b (a + n)); cbn [andb] in Hb; try discriminate.
  injection Hb as <-. lia.
Qed.

Lemma record_none (a n : Z) (f : Z -> Z) (r r1 : Z -> option Z) (b : Z) :
  (forall b, r1 b = record a n f r b) -> r1 b = None -> r b = None.
Proof. intros H Hb. destruct (r b) eqn:E; [|reflexivity]. rewrite (ext_record a n f r r1 H b z E) in Hb. discriminate. Qed.

Lemma sim_read (a n : Z) (r r1 rend : Z -> option Z) (M R : memory) :
  (forall b, r1 b = record a n M r b) -> ext r1 rend -> sim r rend M R ->
  sim r1 rend M R /\ forall b, a <= b < a + n -> R b = M b.
Proof.
  intros H He [Ha Hb].
  assert (Hr : forall b, a <= b < a + n -> R b = M b).
  { intros b Hin. destruct (r b) as [v|] eqn:E; [eapply Ha, E |].
    apply Hb; [exact E |]. apply He. eapply record_at; eassumption. }
  split; [|exact Hr]. split.
  - intros b v H1. destruct (r b) as [v'|] eqn:E; [eapply Ha, E |].
    apply Hr. eapply record_new; eassumption.
  - intros b v H1 H2. apply Hb; [eapply record_none; eassumption | exact H2].
Qed.

Lemma sim_write (a n d : Z) (f : Z -> Z) (r r1 rend : Z -> option Z) (M R : memory) :
  (forall b, r1 b = record a n f r b) -> sim r rend M R ->
  sim r1 rend (mem_write n M a d) (mem_write n R a d).
Proof.
  intros H [Ha Hb]. unfold mem_write. split.
  - intros b v H1. destruct ((a <=? b) && (b <? a + n)) eqn:Er; [reflexivity |].
    destruct (r b) as [v'|] eqn:E; [eapply Ha, E |].
    pose proof (record_new a n f r r1 b v H H1 E) as [Hin _].
    rewrite andb_false_iff, Z.leb_gt, Z.ltb_ge in Er. lia.
  - intros b v H1 H2. destruct ((a <=? b) && (b <? a + n)) eqn:Er.
    + rewrite andb_true_iff, Z.leb_le, Z.ltb_lt in Er.
      pose proof (record_at a n f r r1 b H ltac:(lia) (record_none a n f r r1 b H H1)). congruence.
    + apply Hb; [eapply record_none; eassumption | exact H2].
Qed.

(** ** Fetching *)

(** The result of [inst_fetch] from the word at [pc]. *)
Lemma inst_fetch_cases (M : memory) (a inst len : Z) :
  bytes M -> inst_fetch (mem_read 2 M) (mem_read 4 M) a = (inst, len) -> len = 2 \/ len = 4 ->
  let x := mem_read 4 M a in
  (len = 2 /\ inst = mem_read 2 M a /\ negb ((mem_read 2 M a .& 3) =? 3) = true)
  \/ (len = 4 /\ inst = x /\ negb ((x .& 3) =? 3) = false /\ negb ((x .& 0x1c) =? 0x1c) = true).
Proof.
  intros HM E Hl x. unfold inst_fetch in E. destruct (mem_read_4 M a HM) as (H4 & Hr & Hr2).
  rewrite (uwrap_small 32 _ Hr) in E. fold x in E, H4, Hr.
  assert (Ex : x mod 2 ^ 16 = mem_read 2 M a).
  { rewrite H4. unfold in_u in Hr2. change (2 ^ 16) with 65536 in *. dlia. }
  assert (E3 : x .& 3 = mem_read 2 M a .& 3) by (rewrite (land_mod x 3 16), Ex by lia; reflexivity).
  destruct (negb ((x .& 3) =? 3)) eqn:E1.
  { injection E as <- <-. left. split; [reflexivity |]. rewrite <- E3. split; [|exact E1].
    change 0xffff with (2 ^ 16 - 1). rewrite uwrap_land by lia. exact Ex. }
  destruct (negb ((x .& 0x1c) =? 0x1c)) eqn:E2.
  { injection E as <- <-. right. auto. }
  destruct (_ =? 0x1f); [injection E; lia |]. destruct (_ =? 0x3f); injection E; lia.
Qed.

(** The word holds the bytes of memory, and any memory with those bytes gives it. *)
Lemma inst_fetch_bytes (M : memory) (a inst len : Z) :
  bytes M -> inst_fetch (mem_read 2 M) (mem_read 4 M) a = (inst, len) -> len = 2 \/ len = 4 ->
  forall i, 0 <= i < len -> Page.byte inst i = M (a + i).
Proof.
  intros HM E Hl i Hi. destruct (inst_fetch_cases M a inst len HM E Hl) as [(-> & -> & _) | (-> & -> & _)];
    apply byte_mem_read; assumption || lia.
Qed.

Lemma inst_fetch_agree (M R : memory) (a inst len : Z) :
  bytes M -> bytes R -> inst_fetch (mem_read 2 M) (mem_read 4 M) a = (inst, len) -> len = 2 \/ len = 4 ->
  (forall b, a <= b < a + len -> R b = M b) ->
  inst_fetch (mem_read 2 R) (mem_read 4 R) a = (inst, len).
Proof.
  intros HM HR E Hl Hag. unfold inst_fetch. destruct (mem_read_4 R a HR) as (H4 & Hr & Hr2).
  rewrite (uwrap_small 32 _ Hr).
  assert (E2 : mem_read 2 R a = mem_read 2 M a).
  { apply mem_read_ext. intros b Hb. apply Hag. lia. }
  destruct (inst_fetch_cases M a inst len HM E Hl) as [(-> & -> & E1) | (-> & -> & E1 & E1')].
  - assert (Ex : mem_read 4 R a mod 2 ^ 16 = mem_read 2 R a).
    { rewrite H4. unfold in_u in Hr2. change (2 ^ 16) with 65536 in *. dlia. }
    rewrite (land_mod _ 3 16), Ex, E2, E1 by lia.
    change 0xffff with (2 ^ 16 - 1). rewrite uwrap_land by lia. unfold uwrap. rewrite Ex, E2. reflexivity.
  - assert (E4 : mem_read 4 R a = mem_read 4 M a) by (apply mem_read_ext; intros b Hb; apply Hag; lia).
    rewrite E4, E1, E1'. reflexivity.
Qed.

(** ** Recording on the proxy *)

Definition trace_open (s : manager) : bool := match mem s with Some _ => true | None => false end.

(** The recorder is off: no file, no trace. *)
Definition quiet (s : manager) : Prop := out s = false /\ mem s = None.

(** What the machine does to memory. *)
Inductive acc : Type := Fetched (a l : Z) | Accessed (sz va : Z) | Atomic (sz va : Z).

Section IsaReplay.
  (** The instructions of the program: distinct ones do not overlap. *)
  Context (unit : Z -> Z -> Prop).
  Hypothesis unit_len : forall a l, unit a l -> (l = 2 \/ l = 4) /\ 4096 <= a /\ a mod 2 = 0.
  Hypothesis unit_disj : forall a l a' l', unit a l -> unit a' l' ->
    (a = a' /\ l = l') \/ a + l <= a' \/ a' + l' <= a.
  Context (w : Z) (exec_fp : decode -> hart -> Z -> io Z) (fl : flags).
  Context (inst_decode : decode -> Z -> decode) (breakpoint : Z).
  Context (cpu_cycle_clock : Z -> Z) (en : enumeration) (monitor_pc : Z).
  Hypothesis Hen : forall ps pn p, ps !! pn = Some p -> In (pn, p) (enum_pages en ps).

#[local] Instance the_mmu : Mmu proxy := mmu_proxy w.
#[local] Instance the_platform : Platform proxy := proxy_platform w cpu_cycle_clock no_syscall en monitor_pc.

(** Data accesses stay outside the instructions and page 0. *)
Definition data_ok (sz va : Z) : Prop :=
  access_size sz /\ 4096 <= va /\ forall u l, unit u l -> u + l <= va \/ va + sz <= u.

(** The recorder's invariant, with the trace [T] open. *)
Record recording (s : proxy) (T : MemTrace) : Prop := {
  rc_bytes : bytes (host s);
  rc_wf : manager_wf (mgr s);
  rc_out : out (mgr s) = true;
  rc_mem : mem (mgr s) = Some T;
  rc_units : units_whole unit T }.

Lemma cm_load_record (M : memory) (s : manager) (T : MemTrace) (sz va v : Z) :
  recording (mkProxy M s) T -> data_ok sz va ->
  exists s' T', cm_load sz va v s = Some s' /\ recording (mkProxy M s') T'
    /\ forall b, recorded T' b = record va sz (fun b => Page.byte v (b - va)) (recorded T) b.
Proof using Type.
  intros [Hb Hwf Ho Hm Hu] (Hsz & Ha & Hd). cbn [host mgr] in *. unfold cm_load. rewrite Hm.
  unfold manager_wf in Hwf. rewrite Hm in Hwf. destruct Hwf as [HT Hst].
  destruct (load_spec T sz va v HT Hsz Ha) as (T' & -> & HT' & (Hs & _ & _) & Hr). cbn [mbind option_bind].
  do 2 eexists. split; [reflexivity |]. split; [|exact Hr].
  split; cbn [host mgr mem out with_mem]; auto.
  - split; [exact HT' |]. unfold stores_ok. rewrite Hs. exact Hst.
  - eapply units_data; eassumption.
Qed.

Lemma cm_store_record (M : memory) (s : manager) (T : MemTrace) (sz va v : Z) :
  recording (mkProxy M s) T -> data_ok sz va ->
  exists s' T', cm_store sz va v s = Some s' /\ recording (mkProxy M s') T'
    /\ forall b, recorded T' b = record va sz (fun _ => 0) (recorded T) b.
Proof using Type.
  intros [Hb Hwf Ho Hm Hu] (Hsz & Ha & Hd). cbn [host mgr] in *. unfold cm_store. rewrite Hm.
  unfold manager_wf in Hwf. rewrite Hm in Hwf. destruct Hwf as [HT Hst].
  destruct (store_keeps_ok T sz va HT Hst Hsz Ha) as (T1 & E1 & HT1 & Hst1).
  destruct (store_spec T sz va HT Hsz Ha) as (T' & E & HT' & Hr & _ & _).
  rewrite E in E1. injection E1 as ->. rewrite E. cbn [mbind option_bind].
  do 2 eexists. split; [reflexivity |]. split; [|exact Hr].
  split; cbn [host mgr mem out with_mem]; auto.
  - split; assumption.
  - eapply units_data; eassumption.
Qed.

Lemma recording_write (M : memory) (s : manager) (T : MemTrace) (sz va v : Z) :
  recording (mkProxy M s) T -> recording (mkProxy (mem_write sz M va v) s) T.
Proof using Type. intros [Hb Hwf Ho Hm Hu]. split; auto. apply bytes_write, Hb. Qed.

(** The accesses an instruction makes. *)
Fixpoint io_accesses {A} (p : io A) (s : proxy) : list acc :=
  match p with
  | Ret _ _ | Undef => []
  | Load _ sz va k =>
      Accessed sz va :: match proxy_load sz va s with Fine s v => io_accesses (k v) s | _ => [] end
  | Store _ sz va d k =>
      Accessed sz va :: match proxy_store sz va d s with Fine s _ => io_accesses k s | _ => [] end
  | Amo _ o sz va d k =>
      Atomic sz va :: match proxy_amo w o sz va d s with Fine s v => io_accesses (k v) s | _ => [] end
  end.

(** Which accesses the contract covers; atomics stay below the memory top. *)
Definition allowed (x : acc) : Prop :=
  match x with
  | Fetched a l => unit a l
  | Accessed sz va => data_ok sz va
  | Atomic sz va => data_ok sz va /\ va < memory_top
  end.

Definition io_valid {A} (p : io A) (s : proxy) : Prop := Forall allowed (io_accesses p s).

(** What the replay does at the same point. *)
Definition replays {A} (p : io A) (s s' : proxy) (T T' : MemTrace) (h : hart) (a : A) : Prop :=
  forall rend R mg, ext (recorded T') rend -> quiet mg -> bytes R -> sim (recorded T) rend (host s) R ->
  exists R', run p (mkProxy R mg) = Fine (h, mkProxy R' mg) a /\ bytes R' /\ sim (recorded T') rend (host s') R'.

Lemma cm_quiet (sz va v : Z) (s : manager) : quiet s -> cm_load sz va v s = Some s /\ cm_store sz va v s = Some s.
Proof using Type. intros [_ Hm]. unfold cm_load, cm_store. rewrite Hm. auto. Qed.

Lemma load_replays (s s1 : proxy) (T : MemTrace) (sz va v : Z) :
  recording s T -> data_ok sz va -> proxy_load sz va s = Fine s1 v ->
  exists T1, recording s1 T1 /\ host s1 = host s /\ ext (recorded T) (recorded T1)
    /\ forall rend R mg, ext (recorded T1) rend -> quiet mg -> sim (recorded T) rend (host s) R ->
       proxy_load sz va (mkProxy R mg) = Fine (mkProxy R mg) v /\ sim (recorded T1) rend (host s) R.
Proof using Type.
  intros HR Hd E. destruct s as [M mg0]. unfold proxy_load, ck in E. cbn [host mgr] in E.
  destruct (cm_load_record M mg0 T sz va (mem_read (Z.to_nat sz) M va) HR Hd) as (mg1 & T1 & E1 & HR1 & Hr).
  rewrite E1 in E. injection E as <- <-. destruct Hd as (Hsz & _).
  assert (Hr' : forall b, recorded T1 b = record va sz M (recorded T) b).
  { intros b. rewrite Hr. apply record_same. intros i Hi. replace (va + i - va) with i by lia.
    apply byte_mem_read; [apply HR | unfold access_size in Hsz; lia]. }
  exists T1. split; [exact HR1 | split; [reflexivity | split; [eapply ext_record, Hr |]]].
  intros rend R mg Hext Hq Hs. destruct (sim_read va sz _ _ rend M R Hr' Hext Hs) as [Hs1 Hag].
  split; [|exact Hs1]. unfold proxy_load, ck. cbn [host mgr].
  rewrite (proj1 (cm_quiet _ _ _ mg Hq)). f_equal. apply mem_read_ext. intros b Hb. apply Hag.
  unfold access_size in Hsz. lia.
Qed.

Lemma store_replays (s s1 : proxy) (T : MemTrace) (sz va d : Z) (u : Datatypes.unit) :
  recording s T -> data_ok sz va -> proxy_store sz va d s = Fine s1 u ->
  exists T1, recording s1 T1 /\ ext (recorded T) (recorded T1)
    /\ forall rend R mg, quiet mg -> sim (recorded T) rend (host s) R ->
       proxy_store sz va d (mkProxy R mg) = Fine (mkProxy (mem_write sz R va d) mg) u
       /\ sim (recorded T1) rend (host s1) (mem_write sz R va d).
Proof using Type.
  intros HR Hd E. destruct s as [M mg0], u. unfold proxy_store, ck in E. cbn [host mgr] in E.
  destruct (cm_store_record M mg0 T sz va d HR Hd) as (mg1 & T1 & E1 & HR1 & Hr).
  rewrite E1 in E. injection E as <-.
  exists T1. split; [apply recording_write, HR1 | split; [eapply ext_record, Hr |]].
  intros rend R mg Hq Hs. split.
  - unfold proxy_store, ck. cbn [host mgr]. rewrite (proj2 (cm_quiet _ _ _ mg Hq)). reflexivity.
  - eapply sim_write; eassumption.
Qed.

(** [amo] loads, then stores. *)
Lemma amo_split (o : amo_op) (sz va d : Z) (s : proxy) :
  proxy_addr va ->
  proxy_amo w o sz va d s
  = match proxy_load sz va s with
    | Fine s1 v =>
        let v2 := amo_fn w o (uwrap w (swrap (8 * sz) v)) (uwrap w (swrap (8 * sz) d)) in
        match proxy_store sz va v2 s1 with Fine s2 _ => Fine s2 v | Fault s2 c b => Fault s2 c b | Ub => Ub end
    | Fault s1 c b => Fault s1 c b
    | Ub => Ub
    end.
Proof using Type.
  intros Ha. unfold proxy_amo, proxy_load, proxy_store, ck. rewrite amo_location by exact Ha.
  destruct (cm_load _ _ _ _) as [m1|]; [|reflexivity]. cbn [host mgr].
  destruct (cm_store _ _ _ _) as [m2|]; reflexivity.
Qed.

Lemma run_replays {A} (p : io A) : forall (s s' : proxy) (T : MemTrace) (h : hart) (a : A),
  recording s T -> io_valid p s -> run p s = Fine (h, s') a ->
  exists T', recording s' T' /\ ext (recorded T) (recorded T') /\ replays p s s' T T' h a.
Proof using Type.
  induction p as [h0 a0 | h0 sz va k IH | h0 sz va d k IH | h0 o sz va d k IH |]; intros s s' T h a HR Hv E;
    cbn [run] in *; unfold io_valid in Hv; cbn [io_accesses] in Hv; try apply Forall_cons_1 in Hv.
  - injection E as <- <- <-. exists T. split; [exact HR | split; [unfold ext; auto |]].
    intros rend R mg _ _ HbR Hs. exists R. auto.
  - destruct Hv as [Hd Hv]. cbn [mmu_load the_mmu mmu_proxy] in E.
    destruct (proxy_load sz va s) as [s1 v | |] eqn:El; try discriminate E.
    destruct (load_replays s s1 T sz va v HR Hd El) as (T1 & HR1 & Hh & He & Hsim).
    destruct (IH v s1 s' T1 h a HR1 Hv E) as (T' & HR' & He' & Hrep).
    exists T'. split; [exact HR' | split; [eapply ext_trans; eassumption |]].
    intros rend R mg Hext Hq HbR Hs.
    destruct (Hsim rend R mg (ext_trans _ _ _ He' Hext) Hq Hs) as [E1 Hs1]. rewrite <- Hh in Hs1.
    cbn [run mmu_load the_mmu mmu_proxy]. rewrite E1. exact (Hrep rend R mg Hext Hq HbR Hs1).
  - destruct Hv as [Hd Hv]. cbn [mmu_store the_mmu mmu_proxy] in E.
    destruct (proxy_store sz va d s) as [s1 u | |] eqn:El; try discriminate E.
    destruct (store_replays s s1 T sz va d u HR Hd El) as (T1 & HR1 & He & Hsim).
    destruct (IH s1 s' T1 h a HR1 Hv E) as (T' & HR' & He' & Hrep).
    exists T'. split; [exact HR' | split; [eapply ext_trans; eassumption |]].
    intros rend R mg Hext Hq HbR Hs. destruct (Hsim rend R mg Hq Hs) as [E1 Hs1].
    cbn [run mmu_store the_mmu mmu_proxy]. rewrite E1. exact (Hrep rend _ mg Hext Hq (bytes_write _ _ _ _ HbR) Hs1).
  - destruct Hv as [[Hd Htop] Hv]. cbn [mmu_amo the_mmu mmu_proxy] in E.
    assert (Ha : proxy_addr va) by (destruct Hd as (_ & H & _); split; assumption).
    rewrite amo_split in E, Hv by exact Ha.
    destruct (proxy_load sz va s) as [s1 v | |] eqn:El; try discriminate E. cbv zeta in E, Hv.
    destruct (proxy_store sz va _ s1) as [s2 u | |] eqn:Es; try discriminate E.
    destruct (load_replays s s1 T sz va v HR Hd El) as (T1 & HR1 & Hh & He & Hsim).
    destruct (store_replays s1 s2 T1 sz va _ u HR1 Hd Es) as (T2 & HR2 & He2 & Hsim2).
    destruct (IH v s2 s' T2 h a HR2 Hv E) as (T' & HR' & He' & Hrep).
    exists T'. split; [exact HR' | split; [eauto using ext_trans |]].
    intros rend R mg Hext Hq HbR Hs.
    destruct (Hsim rend R mg ltac:(eauto using ext_trans) Hq Hs) as [E1 Hs1]. rewrite <- Hh in Hs1.
    destruct (Hsim2 rend R mg Hq Hs1) as [E2 Hs2].
    cbn [run mmu_amo the_mmu mmu_proxy]. rewrite amo_split, E1 by exact Ha. cbv zeta. rewrite E2.
    exact (Hrep rend _ mg Hext Hq (bytes_write _ _ _ _ HbR) Hs2).
  - discriminate E.
Qed.

(** ** One instruction *)

Abbreviation body := (step1 exec_fp fl w inst_decode breakpoint).

(** The accesses of the next instruction; [None] when the recorder cuts a
    checkpoint at it. *)
Definition step_accesses (m : machine proxy) : option (list acc) :=
  let h := m_hart m in
  let M := host (m_mmu m) in
  let '(inst, len) := inst_fetch (mem_read 2 M) (mem_read 4 M) (pc h) in
  '(dec, _) ← cached_decode inst_decode inst (m_dec m) (m_cache m);
  s ← on_fetch h (m_instret m) dec inst len (m_mmu m);
  if trace_open (mgr s) then Some (Fetched (pc h) len :: io_accesses (exec_inst exec_fp fl w dec h len) s)
  else None.

Definition admissible (m : machine proxy) : Prop :=
  exists l, step_accesses m = Some l /\ Forall allowed l.

(** Between instructions a trace may not have been opened yet. *)
Record ready (s : proxy) : Prop := {
  rd_bytes : bytes (host s);
  rd_wf : manager_wf (mgr s);
  rd_out : out (mgr s) = true;
  rd_units : units_whole unit (trace_at (mgr s)) }.

Lemma recording_ready (s : proxy) (T : MemTrace) : recording s T -> ready s /\ trace_at (mgr s) = T.
Proof using Type.
  intros [H1 H2 H3 H4 H5]. assert (E : trace_at (mgr s) = T) by (unfold trace_at; rewrite H4; reflexivity).
  split; [|exact E]. split; auto. rewrite E. exact H5.
Qed.

Lemma fetch_replays (h : hart) (n inst len : Z) (dec : decode) (s s1 : proxy) :
  ready s -> unit (pc h) len ->
  inst_fetch (mem_read 2 (host s)) (mem_read 4 (host s)) (pc h) = (inst, len) ->
  on_fetch h n dec inst len s = Some s1 -> trace_open (mgr s1) = true ->
  exists T1, recording s1 T1 /\ host s1 = host s /\ ext (recorded (trace_at (mgr s))) (recorded T1)
    /\ forall rend R, ext (recorded T1) rend -> bytes R -> sim (recorded (trace_at (mgr s))) rend (host s) R ->
       inst_fetch (mem_read 2 R) (mem_read 4 R) (pc h) = (inst, len) /\ sim (recorded T1) rend (host s) R.
Proof using unit_len unit_disj Hen.
  intros [Hb Hwf Ho Hu] Hun Ef E Hm. destruct (unit_len _ _ Hun) as (Hl & Ha & Hev).
  cbn [on_fetch the_platform proxy_platform] in E. unfold proxy_on_fetch in E.
  destruct (fetch_handler en (guest_read (host s)) (mkProc n (map (uwrap 64) (ireg h)) (freg h))
              (get_rd dec) (pc h) inst len (mgr s) Hen Hwf Ho Hl Ha Hev (Hu _ _ Hun))
    as (mg' & Em & Hwf' & Ho' & _ & Hcase).
  rewrite Em in E. cbn [mbind option_bind] in E. injection E as <-. cbn [mgr host] in *.
  destruct Hcase as [(T1 & Em1 & _ & Hr & _) | (Em1 & _)]; [|unfold trace_open in Hm; rewrite Em1 in Hm; discriminate].
  assert (Hr' : forall b, recorded T1 b = record (pc h) len (host s) (recorded (trace_at (mgr s))) b).
  { intros b. rewrite Hr. apply record_same. intros i Hi. replace (pc h + i - pc h) with i by lia.
    apply (inst_fetch_bytes (host s) (pc h) inst len Hb Ef Hl). lia. }
  exists T1. split; [split; auto; eapply units_fetch; eassumption |].
  split; [reflexivity | split; [eapply ext_record, Hr |]].
  intros rend R Hext HbR Hs. destruct (sim_read _ _ _ _ rend _ R Hr' Hext Hs) as [Hs1 Hag].
  split; [|exact Hs1]. apply (inst_fetch_agree (host s) R); assumption.
Qed.

(** Fences and control registers leave the memory alone. *)
Lemma priv_pure (dec : decode) (h h' : hart) (n off : Z) (o : Z * Z) (s s' : proxy) :
  inst_priv dec h n off s = Fine (h', s') o ->
  s' = s /\ forall s2, inst_priv dec h n off s2 = Fine (h', s2) o.
Proof using Type.
  cbn [inst_priv the_platform proxy_platform]. unfold proxy_inst_priv, no_syscall.
  intros H. destruct (op dec); try (injection H as <- <- <-; split; reflexivity); try discriminate H;
  repeat match type of H with
  | match ?o with _ => _ end = _ => destruct o
  | (let (_, _) := ?p in _) = _ => destruct p
  end; try discriminate H; injection H as <- <- <-; split; reflexivity.
Qed.

Lemma recording_execute (h : hart) (dec : decode) (s : proxy) (T : MemTrace) :
  recording s T -> recording (on_execute h dec s) T /\ host (on_execute h dec s) = host s.
Proof using Type.
  intros [H1 H2 H3 H4 H5]. cbn [on_execute the_platform proxy_platform]. unfold proxy_on_execute, cm_execute.
  split; [|reflexivity]. destruct (_ =? _); split; auto.
Qed.

Lemma quiet_execute (h : hart) (dec : decode) (R : memory) (mg : manager) :
  quiet mg -> exists mg', on_execute h dec (mkProxy R mg) = mkProxy R mg' /\ quiet mg'.
Proof using Type.
  intros [H1 H2]. cbn [on_execute the_platform proxy_platform]. unfold proxy_on_execute, cm_execute.
  cbn [host mgr]. eexists. split; [reflexivity |]. destruct (_ =? _); split; assumption.
Qed.

(** The replaying machine: the same but for its memory and manager. *)
Definition with_proxy (m : machine proxy) (s : proxy) : machine proxy :=
  mkMachine (m_hart m) s (m_instret m) (m_cache m) (m_dec m).

Lemma execute_replays (m m1 : machine proxy) (T : MemTrace) (dec : decode) (off : Z) :
  recording (m_mmu m) T -> io_valid (exec_inst exec_fp fl w dec (m_hart m) off) (m_mmu m) ->
  execute exec_fp fl w m dec off = Next m1 ->
  exists T1, recording (m_mmu m1) T1 /\ ext (recorded T) (recorded T1)
    /\ forall rend R mg, ext (recorded T1) rend -> quiet mg -> bytes R -> sim (recorded T) rend (host (m_mmu m)) R ->
       exists R' mg', execute exec_fp fl w (with_proxy m (mkProxy R mg)) dec off = Next (with_proxy m1 (mkProxy R' mg'))
         /\ quiet mg' /\ bytes R' /\ sim (recorded T1) rend (host (m_mmu m1)) R'.
Proof using Type.
  intros HR Hv E. unfold execute in E.
  destruct (run _ _) as [[h s] o | [? ?] ? ? |] eqn:Er; try discriminate E.
  destruct (run_replays _ _ _ T h o HR Hv Er) as (T1 & HR1 & He & Hrep).
  assert (Hdone : forall h2 n2 o2, m1 = retire w m h2 s dec n2 o2 ->
    recording (m_mmu m1) T1 /\ host (m_mmu m1) = host s
    /\ forall R mg, quiet mg -> exists mg', retire w (with_proxy m (mkProxy R mg)) h2 (mkProxy R mg) dec n2 o2
                                  = with_proxy m1 (mkProxy R mg') /\ quiet mg').
  { intros h2 n2 o2 ->. cbn [m_mmu retire]. destruct (recording_execute h2 dec s T1 HR1) as [Hr Hh].
    split; [exact Hr | split; [exact Hh |]]. intros R mg Hq.
    destruct (quiet_execute h2 dec R mg Hq) as (mg' & Ex & Hq'). exists mg'. split; [|exact Hq'].
    unfold retire. rewrite Ex. reflexivity. }
  destruct (negb (o =? uwrap w (-1))) eqn:Eo.
  - injection E as <-. destruct (Hdone h _ o eq_refl) as (Hr1 & Hh1 & Hret). exists T1.
    split; [exact Hr1 | split; [exact He |]]. intros rend R mg Hext Hq HbR Hs. rewrite Hh1.
    destruct (Hrep rend R mg Hext Hq HbR Hs) as (R' & E1 & HbR' & Hs').
    destruct (Hret R' mg Hq) as (mg' & Eret & Hq'). exists R', mg'.
    split; [|auto]. unfold execute. cbn [m_hart m_mmu with_proxy]. rewrite E1, Eo. f_equal. exact Eret.
  - destruct (inst_priv dec h (m_instret m) off s) as [[h2 s2] [o2 n2] | [? ?] ? ? |] eqn:Ep; try discriminate E.
    destruct (priv_pure _ _ _ _ _ _ _ _ Ep) as [-> Hp].
    destruct (negb (o2 =? uwrap w (-1))) eqn:Eo2; [|discriminate E]. injection E as <-.
    destruct (Hdone h2 _ o2 eq_refl) as (Hr1 & Hh1 & Hret). exists T1.
    split; [exact Hr1 | split; [exact He |]]. intros rend R mg Hext Hq HbR Hs. rewrite Hh1.
    destruct (Hrep rend R mg Hext Hq HbR Hs) as (R' & E1 & HbR' & Hs').
    destruct (Hret R' mg Hq) as (mg' & Eret & Hq'). exists R', mg'.
    split; [|auto]. unfold execute. cbn [m_hart m_mmu m_instret with_proxy]. rewrite E1, Eo, Hp, Eo2. f_equal. exact Eret.
Qed.

Lemma step_replays (m m1 : machine proxy) :
  ready (m_mmu m) -> admissible m -> body m = Next m1 ->
  exists T1, recording (m_mmu m1) T1 /\ ext (recorded (trace_at (mgr (m_mmu m)))) (recorded T1)
    /\ forall rend R mg, ext (recorded T1) rend -> quiet mg -> bytes R ->
       sim (recorded (trace_at (mgr (m_mmu m)))) rend (host (m_mmu m)) R ->
       exists R' mg', body (with_proxy m (mkProxy R mg)) = Next (with_proxy m1 (mkProxy R' mg'))
         /\ quiet mg' /\ bytes R' /\ sim (recorded T1) rend (host (m_mmu m1)) R'.
Proof using unit_len unit_disj Hen.
  intros Hr [l [El Ha]] E. unfold step_accesses in El. unfold step1 in E.
  cbn [mmu_fetch the_mmu mmu_proxy] in E. unfold proxy_fetch in E.
  destruct (_ && _) eqn:Ebp; [discriminate E |].
  destruct (inst_fetch _ _ _) as [inst len] eqn:Ef.
  destruct (cached_decode _ _ _ _) as [[dec cache]|] eqn:Ec; [|discriminate El]. cbn [mbind option_bind] in El.
  destruct (on_fetch _ _ _ _ _ _) as [s1|] eqn:Eo; [|discriminate El]. cbn [mbind option_bind] in El.
  destruct (trace_open (mgr s1)) eqn:Hm; [|discriminate El]. injection El as <-.
  apply Forall_cons_1 in Ha as [Hun Hv]. cbn [allowed] in Hun.
  destruct (fetch_replays _ _ _ _ _ _ _ Hr Hun Ef Eo Hm) as (T0 & HR0 & Hh0 & He0 & Hsim0).
  destruct (execute_replays (mkMachine (m_hart m) s1 (m_instret m) cache dec) m1 T0 dec len HR0 Hv E) as (T1 & HR1 & He1 & Hrep).
  exists T1. split; [exact HR1 | split; [eapply ext_trans; eassumption |]].
  intros rend R mg Hext Hq HbR Hs.
  destruct (Hsim0 rend R (ext_trans _ _ _ He1 Hext) HbR Hs) as [Ef' Hs0]. rewrite <- Hh0 in Hs0.
  destruct (Hrep rend R mg Hext Hq HbR Hs0) as (R' & mg' & Ex & Hrest).
  exists R', mg'. split; [|exact Hrest]. unfold step1.
  cbn [m_hart m_mmu m_instret m_cache m_dec with_proxy mmu_fetch the_mmu mmu_proxy].
  unfold proxy_fetch. cbn [host]. rewrite Ebp, Ef', Ec.
  cbn [on_fetch the_platform proxy_platform]. unfold proxy_on_fetch, cm_fetch. cbn [mgr host].
  rewrite (proj1 Hq). cbn [mbind option_bind]. exact Ex.
Qed.

(** The accesses of [n] instructions of one checkpoint. *)
Fixpoint interval_accesses (n : nat) (m : machine proxy) : option (list acc) :=
  match n with
  | O => Some []
  | Datatypes.S n =>
      l ← step_accesses m;
      match body m with
      | Next m1 => l' ← interval_accesses n m1; Some (l ++ l')
      | _ => None
      end
  end.

Lemma interval_replays (n : nat) : forall m m' l,
  ready (m_mmu m) -> interval_accesses n m = Some l -> Forall allowed l -> iterate body n m = Next m' ->
  ext (recorded (trace_at (mgr (m_mmu m)))) (recorded (trace_at (mgr (m_mmu m'))))
  /\ forall R mg, quiet mg -> bytes R ->
     sim (recorded (trace_at (mgr (m_mmu m)))) (recorded (trace_at (mgr (m_mmu m')))) (host (m_mmu m)) R ->
     exists R' mg', iterate body n (with_proxy m (mkProxy R mg)) = Next (with_proxy m' (mkProxy R' mg'))
       /\ forall b v, recorded (trace_at (mgr (m_mmu m'))) b = Some v -> R' b = host (m_mmu m') b.
Proof using unit_len unit_disj Hen.
  induction n as [|n IH]; intros m m' l Hr Hi Hal E; cbn [iterate interval_accesses] in *.
  - injection E as <-. split; [unfold ext; auto |]. intros R mg _ _ [Hs _]. exists R, mg.
    split; [reflexivity | exact Hs].
  - destruct (step_accesses m) as [l1|] eqn:Ea; [|discriminate Hi]. cbn [mbind option_bind] in Hi.
    destruct (body m) as [m1 | | |] eqn:E1; try discriminate Hi.
    destruct (interval_accesses n m1) as [l2|] eqn:Ei; [|discriminate Hi]. injection Hi as <-.
    apply Forall_app in Hal as [Hal1 Hal2].
    destruct (step_replays m m1 Hr (ex_intro _ l1 (conj Ea Hal1)) E1) as (T1 & HR1 & He1 & Hrep).
    destruct (recording_ready _ _ HR1) as [Hr1 ET1].
    destruct (IH m1 m' l2 Hr1 Ei Hal2 E) as [He Hn]. rewrite ET1 in He, Hn.
    split; [eapply ext_trans; eassumption |]. intros R mg Hq HbR Hs.
    destruct (Hrep _ R mg He Hq HbR Hs) as (R1 & mg1 & Ex & Hq1 & Hb1 & Hs1).
    rewrite Ex. exact (Hn R1 mg1 Hq1 Hb1 Hs1).
Qed.

End IsaReplay.

(** C1: a checkpoint replays.  The simulator executes [n] instructions from the
    start of a checkpoint with the recorder on (no instruction is cut by the next
    checkpoint, is a system call, or is read or written as data).  Then from the
    same hart, on any memory that holds the bytes the checkpoint recorded, and
    whatever it holds elsewhere, the simulator with the recorder off executes the
    same [n] instructions to the same hart, and the memories agree on every
    recorded byte. *)
Theorem isa_replay (unit : Z -> Z -> Prop) (w : Z) (exec_fp : decode -> hart -> Z -> io Z) (fl : flags)
    (inst_decode : decode -> Z -> decode) (breakpoint : Z) (cpu_cycle_clock : Z -> Z) (en : enumeration)
    (monitor_pc : Z) (n : nat) (m m' : machine proxy) (accs : list acc) :
  (forall a l, unit a l -> (l = 2 \/ l = 4) /\ 4096 <= a /\ a mod 2 = 0) ->
  (forall a l a' l', unit a l -> unit a' l' -> (a = a' /\ l = l') \/ a + l <= a' \/ a' + l' <= a) ->
  (forall ps pn p, ps !! pn = Some p -> In (pn, p) (enum_pages en ps)) ->
  bytes (host (m_mmu m)) -> out (mgr (m_mmu m)) = true -> mem (mgr (m_mmu m)) = None ->
  let body := @step1 proxy (mmu_proxy w) (proxy_platform w cpu_cycle_clock no_syscall en monitor_pc)
                exec_fp fl w inst_decode breakpoint in
  interval_accesses w exec_fp fl inst_decode breakpoint cpu_cycle_clock en monitor_pc n m = Some accs ->
  Forall (allowed unit) accs ->
  iterate body n m = Next m' ->
  let T := trace_at (mgr (m_mmu m')) in
  forall R mg, quiet mg -> bytes R -> (forall b v, recorded T b = Some v -> R b = v) ->
  exists R' mg', iterate body n (with_proxy m (mkProxy R mg)) = Next (with_proxy m' (mkProxy R' mg'))
    /\ forall b v, recorded T b = Some v -> R' b = host (m_mmu m') b.
Proof.
  intros Hl Hdj Hen Hb Ho Hm body Hi Ha E T R mg Hq HbR HR.
  assert (Et : trace_at (mgr (m_mmu m)) = trace_new) by (unfold trace_at; rewrite Hm; reflexivity).
  assert (Hr : ready unit (m_mmu m)).
  { split; auto; [unfold manager_wf; rewrite Hm; exact I |]. rewrite Et. intros a l _. left. intros b _. apply recorded_new. }
  apply (interval_replays unit Hl Hdj w exec_fp fl inst_decode breakpoint cpu_cycle_clock en monitor_pc
           Hen n m m' accs Hr Hi Ha E); auto.
  rewrite Et. split; [intros b v H; rewrite recorded_new in H; discriminate | intros b v _; apply HR].
Qed.

(** [lw a0, 0(a1); c.addi a0, 1; sw a0, 4(a1)] *)
Definition replay_unit (a l : Z) : Prop := (a = 0x2000 /\ l = 4) \/ (a = 0x2004 /\ l = 2) \/ (a = 0x2006 /\ l = 4).
Definition replay_machine : machine proxy :=
  machine_init (put_reg 11 0x3000 (set_pc 0x2000 hart_init)) (code 0x2000 [0xa503; 0x0005; 0x0505; 0xa223; 0x00a5]) 1000.

Lemma isa_replay_witness :
  exists m', iterate step_ex 3 replay_machine = Next m'
  /\ let T := trace_at (mgr (m_mmu m')) in
  forall R mg, quiet mg -> bytes R -> (forall b v, recorded T b = Some v -> R b = v) ->
  exists R' mg', iterate step_ex 3 (with_proxy replay_machine (mkProxy R mg)) = Next (with_proxy m' (mkProxy R' mg'))
    /\ forall b v, recorded T b = Some v -> R' b = host (m_mmu m') b.
Proof.
  destruct (iterate step_ex 3 replay_machine) as [m' | | |] eqn:E;
    [| apply (f_equal pc_of) in E; vm_compute in E; discriminate E ..].
  exists m'. split; [reflexivity |].
  apply (isa_replay replay_unit 64 (fun _ _ _ => Undef) RV_IMA decode_inst_rv64 0 (fun n => n) enum_sorted 0 3
    replay_machine m'
    [Fetched 0x2000 4; Accessed 4 0x3000; Fetched 0x2004 2; Fetched 0x2006 4; Accessed 4 0x3004]).
  - intros a l [[-> ->] | [[-> ->] | [-> ->]]]; (split; [lia | split; [lia | reflexivity]]).
  - unfold replay_unit. intros a l a' l' H1 H2. lia.
  - exact enum_sorted_complete.
  - intros a. cbn. unfold code. repeat match goal with |- context [if ?c then _ else _] => destruct c end;
      first [apply (uwrap_range 8); lia | split; reflexivity || lia].
  - reflexivity.
  - reflexivity.
  - vm_compute. reflexivity.
  - repeat apply Forall_cons_2; try apply Forall_nil_2; cbn [allowed]; unfold data_ok, replay_unit, access_size;
      repeat split; intros; lia.
  - exact E.
Defined.
