(* ===== verification/Bus.v ===== *)
(** * Physical memory: [emu/mmu-memory.h]

    The bus of the soft MMU: [user_memory] dispatches an access to the first
    segment that covers its address, host memory or a device.  What the MMU
    needs of it is the class [Bus] with the contract [BusLaws]; a bus of
    well-formed segments is proved to meet it. *)

From Stdlib Require Import ZArith Lia Bool.
From stdpp Require Import base numbers list option.
From Stdlib Require Import List.
From S2P Require Import Prelude Ckpt Replay.

#[local] Open Scope Z_scope.
#[local] Open Scope word_scope.

(** ** The interface *)

(** How an access ends: with a value, with the bus error [-1], in a device that
    raises a cause of the processor, or undefined (a device that reads or writes
    past its registers, or leaves the value unset). *)
Inductive reply (A : Type) : Type :=
| Done (a : A)
| BusError
| Raised (cause : Z)
| Undefined.
Arguments Done {A}. Arguments BusError {A}. Arguments Raised {A}. Arguments Undefined {A}.

(** [memory_bus::load] and [store] at a size and an address.  A device may change
    state on a load. *)
Class Bus (S : Type) : Type := {
  bus_load : Z -> Z -> S -> S * reply Z;
  bus_store : Z -> Z -> Z -> S -> S * reply unit }.

(** The contract: at the accesses [bus_ram] the bus is a byte memory. *)
Class BusLaws (S : Type) {B : Bus S} : Type := {
  bus_view : S -> memory;
  bus_ok : S -> Prop;
  bus_ram : Z -> Z -> Prop;
  law_bus_bytes s : bus_ok s -> bytes (bus_view s);
  law_bus_load s sz a : bus_ok s -> access_size sz -> bus_ram sz a ->
    bus_load sz a s = (s, Done (mem_read (Z.to_nat sz) (bus_view s) a));
  law_bus_store s sz a v : bus_ok s -> access_size sz -> bus_ram sz a ->
    exists s', bus_store sz a v s = (s', Done tt)
      /\ bus_ok s' /\ forall b, bus_view s' b = mem_write sz (bus_view s) a v b }.

(** The virtual methods of the device segments, by device. *)
Class Devices (D : Type) : Type := {
  dev_load : nat -> Z -> Z -> D -> D * reply Z;
  dev_store : nat -> Z -> Z -> Z -> D -> D * reply unit }.

(** ** Segments *)

Inductive seg_kind : Type := Mmap | Mmio (dev : nat).

Record segment : Type := mkSegment {
  seg_mpa : Z;             (* machine physical address *)
  seg_uva : Z;             (* user virtual address, in the host *)
  seg_size : Z;
  seg_flags : Z;           (* PMA flags, only printed *)
  seg_class : seg_kind }.

(** [user_memory], the host's memory and the devices. *)
Record user_memory (D : Type) : Type := mkUserMemory {
  segments : list segment;
  um_host : memory;
  um_dev : D }.
Arguments mkUserMemory {D}. Arguments segments {D}. Arguments um_host {D}. Arguments um_dev {D}.

Definition pma_type_main : Z := 2.
Definition pma_prot_read : Z := 8.
Definition pma_prot_write : Z := 16.
Definition pma_prot_execute : Z := 32.

(** [seg->mpa + seg->size] is a [u64] sum; it "may wrap to 0". *)
Definition seg_end (seg : segment) : Z := seg_mpa seg +[64] seg_size seg.
Definition seg_covers (seg : segment) (mpa : Z) : bool :=
  (seg_mpa seg <=? mpa) && ((mpa <? seg_end seg) || (seg_end seg =? 0)).

Fixpoint mpa_to_uva (segs : list segment) (mpa : Z) : option (segment * Z) :=
  match segs with
  | [] => None
  | seg :: segs' =>
      if seg_covers seg mpa then Some (seg, seg_uva seg +[64] (mpa - seg_mpa seg))
      else mpa_to_uva segs' mpa
  end.

Section UserMemory.
  Context {D : Type} {V : Devices D} (w : Z).

Definition add_segment (seg : segment) (s : user_memory D) : user_memory D :=
  mkUserMemory (segments s ++ [seg]) (um_host s) (um_dev s).

Definition add_mmap (mpa uva size flags : Z) (s : user_memory D) : user_memory D :=
  add_segment (mkSegment mpa uva size flags Mmap) s.

(** [add_ram]; [addr] is what [mmap] returned. *)
Definition add_ram (mpa size addr : Z) (s : user_memory D) : user_memory D :=
  add_mmap mpa addr size (pma_type_main .| pma_prot_read .| pma_prot_write .| pma_prot_execute) s.

Definition clear_segments (s : user_memory D) : user_memory D :=
  mkUserMemory [] (um_host s) (um_dev s).

(** [load_8] ... [load_64] and [store_8] ... [store_64].  The segment's method
    takes the host address as a [UX]. *)
Definition um_load (sz va : Z) (s : user_memory D) : user_memory D * reply Z :=
  match mpa_to_uva (segments s) va with
  | None => (s, BusError)
  | Some (seg, uva) =>
      match seg_class seg with
      | Mmap => (s, Done (mem_read (Z.to_nat sz) (um_host s) (uwrap w uva)))
      | Mmio n =>
          let (d, r) := dev_load n sz (uwrap w uva) (um_dev s) in
          (mkUserMemory (segments s) (um_host s) d, r)
      end
  end.

Definition um_store (sz va val : Z) (s : user_memory D) : user_memory D * reply unit :=
  match mpa_to_uva (segments s) va with
  | None => (s, BusError)
  | Some (seg, uva) =>
      match seg_class seg with
      | Mmap => (mkUserMemory (segments s) (mem_write sz (um_host s) (uwrap w uva) val) (um_dev s), Done tt)
      | Mmio n =>
          let (d, r) := dev_store n sz (uwrap w uva) val (um_dev s) in
          (mkUserMemory (segments s) (um_host s) d, r)
      end
  end.

Definition user_bus : Bus (user_memory D) := {| bus_load := um_load; bus_store := um_store |}.

(** ** The guest's memory *)

(** The host address behind a guest address that is memory. *)
Definition ram_addr (segs : list segment) (b : Z) : option Z :=
  if (0 <=? b) && (b <? 2 ^ w) then
    match mpa_to_uva segs b with
    | Some (seg, uva) => match seg_class seg with Mmap => Some (uwrap w uva) | Mmio _ => None end
    | None => None
    end
  else None.

Definition ram_view (s : user_memory D) : memory :=
  fun b => match ram_addr (segments s) b with Some x => um_host s x | None => 0 end.

(** All the bytes of an access are memory, at consecutive host addresses. *)
Definition ram_span (segs : list segment) (sz a : Z) : Prop :=
  exists x, forall i, 0 <= i < sz -> ram_addr segs (a + i) = Some (x + i).

(** Segments that fit the address spaces, host ranges that do not overlap. *)
Definition seg_wf (seg : segment) : Prop :=
  0 <= seg_mpa seg /\ 0 < seg_size seg /\ seg_mpa seg + seg_size seg <= 2 ^ w
  /\ (seg_class seg = Mmap -> 0 <= seg_uva seg /\ seg_uva seg + seg_size seg <= 2 ^ w).
Definition host_apart (s1 s2 : segment) : Prop :=
  seg_class s1 = Mmap -> seg_class s2 = Mmap ->
  seg_uva s1 + seg_size s1 <= seg_uva s2 \/ seg_uva s2 + seg_size s2 <= seg_uva s1.
Definition segs_wf (segs : list segment) : Prop :=
  Forall seg_wf segs /\ ForallOrdPairs host_apart segs.

(** ** Proofs *)

Hypothesis Hw : w = 32 \/ w = 64.

Lemma word_le_64 : 2 ^ w <= 2 ^ 64.
Proof using Hw. apply Z.pow_le_mono_r; lia. Qed.

Lemma seg_covers_spec (seg : segment) (b : Z) :
  seg_wf seg -> 0 <= b < 2 ^ w ->
  seg_covers seg b = (seg_mpa seg <=? b) && (b <? seg_mpa seg + seg_size seg).
Proof using Hw.
  intros (H0 & H1 & H2 & _) Hb. pose proof word_le_64. unfold seg_covers, seg_end.
  destruct (Z.eq_dec (seg_mpa seg + seg_size seg) (2 ^ 64)) as [E | E].
  - rewrite E. change (uwrap 64 (2 ^ 64)) with 0. rewrite orb_true_r.
    bcases; reflexivity || lia.
  - rewrite uwrap_small by (split; lia). bcases; reflexivity || lia.
Qed.

(** A byte of memory comes from a segment of the list, at its offset. *)
Lemma ram_addr_seg (segs : list segment) (b x : Z) :
  Forall seg_wf segs -> ram_addr segs b = Some x ->
  exists seg, In seg segs /\ seg_class seg = Mmap
    /\ seg_mpa seg <= b < seg_mpa seg + seg_size seg /\ x = seg_uva seg + (b - seg_mpa seg)
    /\ mpa_to_uva segs b = Some (seg, x).
Proof using Hw.
  intros Hf. unfold ram_addr. destruct (Z.leb_spec 0 b), (Z.ltb_spec b (2 ^ w)); try discriminate. cbn [andb].
  induction Hf as [| seg segs Hseg Hf IH]; [discriminate |]. cbn [mpa_to_uva].
  rewrite seg_covers_spec by (assumption || lia).
  destruct (Z.leb_spec (seg_mpa seg) b), (Z.ltb_spec b (seg_mpa seg + seg_size seg)); cbn [andb];
    try (intros E; destruct (IH E) as (g & Hg & Hrest); exists g; split; [right; exact Hg | exact Hrest]).
  destruct (seg_class seg) eqn:Ec; intros E; [injection E as <- | discriminate E].
  destruct Hseg as (H3 & H4 & H5 & H6). destruct (H6 Ec) as [H7 H8]. pose proof word_le_64.
  rewrite (uwrap_small 64) by (split; lia). rewrite uwrap_small by (split; lia).
  exists seg. split; [left; reflexivity | auto].
Qed.

(** Distinct guest addresses are distinct host addresses. *)
Lemma ram_addr_inj (segs : list segment) (b c x : Z) :
  segs_wf segs -> ram_addr segs b = Some x -> ram_addr segs c = Some x -> b = c.
Proof using Hw.
  intros [Hf Hp] Hb Hc.
  destruct (ram_addr_seg segs b x Hf Hb) as (s1 & I1 & C1 & R1 & E1 & _).
  destruct (ram_addr_seg segs c x Hf Hc) as (s2 & I2 & C2 & R2 & E2 & _).
  destruct (ForallOrdPairs_In Hp s1 s2 I1 I2) as [-> | [H | H]].
  - lia.
  - specialize (H C1 C2). lia.
  - specialize (H C2 C1). lia.
Qed.

Lemma view_read (s : user_memory D) (n : nat) (a x : Z) :
  (forall i, 0 <= i < Z.of_nat n -> ram_addr (segments s) (a + i) = Some (x + i)) ->
  mem_read n (um_host s) x = mem_read n (ram_view s) a.
Proof using Type.
  revert a x. induction n as [| n IH]; intros a x H; [reflexivity |]. cbn [mem_read]. f_equal.
  - unfold ram_view. specialize (H 0 ltac:(lia)). rewrite !Z.add_0_r in H. rewrite H. reflexivity.
  - f_equal. apply IH. intros i Hi. specialize (H (1 + i) ltac:(lia)).
    rewrite !Z.add_assoc in H. exact H.
Qed.

(** The access is served by host memory at the span's first address. *)
Lemma span_start (segs : list segment) (sz a : Z) :
  Forall seg_wf segs -> 0 < sz -> ram_span segs sz a ->
  exists x seg, mpa_to_uva segs a = Some (seg, x) /\ seg_class seg = Mmap /\ uwrap w x = x
    /\ forall i, 0 <= i < sz -> ram_addr segs (a + i) = Some (x + i).
Proof using Hw.
  intros Hf Hsz [x Hx]. pose proof (Hx 0 ltac:(lia)) as H0. rewrite !Z.add_0_r in H0.
  destruct (ram_addr_seg _ _ _ Hf H0) as (seg & Hin & Hc & Hr & Hxe & Hm).
  exists x, seg. repeat split; try assumption.
  rewrite Forall_forall in Hf. destruct (Hf seg Hin) as (H3 & H4 & H5 & H6).
  specialize (H6 Hc). apply uwrap_small. split; lia.
Qed.

Definition um_ok (segs : list segment) (s : user_memory D) : Prop :=
  segments s = segs /\ bytes (um_host s).

Lemma um_view_bytes (segs : list segment) (s : user_memory D) : um_ok segs s -> bytes (ram_view s).
Proof using Type.
  intros [_ Hb] b. unfold ram_view. destruct (ram_addr _ b); [apply Hb | split; reflexivity || lia].
Qed.

Lemma um_load_ram (segs : list segment) (s : user_memory D) (sz a : Z) :
  segs_wf segs -> um_ok segs s -> 0 < sz -> ram_span segs sz a ->
  um_load sz a s = (s, Done (mem_read (Z.to_nat sz) (ram_view s) a)).
Proof using Hw.
  intros [Hf _] [<- _] Hsz Hspan. destruct (span_start _ _ _ Hf Hsz Hspan) as (x & seg & Hm & Hc & Hx & Hi).
  unfold um_load. rewrite Hm, Hc, Hx. do 2 f_equal. apply view_read. intros i Hin. apply Hi. lia.
Qed.

Lemma um_store_ram (segs : list segment) (s : user_memory D) (sz a v : Z) :
  segs_wf segs -> um_ok segs s -> 0 < sz -> ram_span segs sz a ->
  exists s', um_store sz a v s = (s', Done tt) /\ um_ok segs s'
    /\ forall b, ram_view s' b = mem_write sz (ram_view s) a v b.
Proof using Hw.
  intros Hwf [<- Hb] Hsz Hspan.
  destruct (span_start _ _ _ (proj1 Hwf) Hsz Hspan) as (x & seg & Hm & Hc & Hx & Hi).
  unfold um_store. rewrite Hm, Hc, Hx. eexists. split; [reflexivity |].
  split; [split; [reflexivity | apply bytes_write, Hb] |]. intros b.
  unfold ram_view, mem_write. cbn [segments um_host].
  destruct (Z.leb_spec a b), (Z.ltb_spec b (a + sz)); cbn [andb].
  1: { specialize (Hi (b - a) ltac:(lia)). replace (a + (b - a)) with b in Hi by lia. rewrite Hi.
       destruct (Z.leb_spec x (x + (b - a))), (Z.ltb_spec (x + (b - a)) (x + sz)); try lia.
       cbn [andb]. f_equal. lia. }
  all: destruct (ram_addr (segments s) b) as [y |] eqn:E; [| reflexivity];
    destruct (Z.leb_spec x y), (Z.ltb_spec y (x + sz)); cbn [andb]; try reflexivity;
    specialize (Hi (y - x) ltac:(lia)); replace (x + (y - x)) with y in Hi by lia;
    pose proof (ram_addr_inj _ _ _ _ Hwf E Hi); lia.
Qed.

Definition user_laws (segs : list segment) (Hsegs : segs_wf segs) : @BusLaws (user_memory D) user_bus.
Proof using Hw.
  refine (@Build_BusLaws _ user_bus ram_view (um_ok segs) (ram_span segs) (um_view_bytes segs) _ _).
  - intros s sz a Hs Hsz Ha. apply (um_load_ram segs); auto. unfold access_size in Hsz. lia.
  - intros s sz a v Hs Hsz Ha. apply (um_store_ram segs); auto. unfold access_size in Hsz. lia.
Defined.
End UserMemory.

(** ** The bus as the MMU sees it *)

Lemma uncovered (w : Z) (segs : list segment) (b : Z) :
  w = 32 \/ w = 64 -> Forall (seg_wf w) segs -> 0 <= b < 2 ^ w ->
  Forall (fun seg => ~ seg_mpa seg <= b < seg_mpa seg + seg_size seg) segs -> mpa_to_uva segs b = None.
Proof.
  intros Hw Hf Hb. induction Hf as [| seg segs Hseg Hf IH]; intros Hno; [reflexivity |].
  inversion Hno as [| ? ? Hn Hno']; subst. cbn [mpa_to_uva].
  rewrite (seg_covers_spec w Hw) by assumption.
  destruct (Z.leb_spec (seg_mpa seg) b), (Z.ltb_spec b (seg_mpa seg + seg_size seg)); cbn [andb];
    try lia; apply IH; assumption.
Qed.

(** On well-formed segments, an access that lies in guest memory reads and
    writes a little-endian byte memory (so a store is seen by every later load,
    through whichever segment, and by no other byte), and an address no segment
    covers is a bus error that changes nothing. *)
Theorem user_memory_correct {D : Type} {V : Devices D} (w : Z) (segs : list segment)
    (s : user_memory D) (sz a v sz' a' b : Z) :
  w = 32 \/ w = 64 -> segs_wf w segs -> um_ok segs s ->
  access_size sz -> ram_span w segs sz a -> access_size sz' -> ram_span w segs sz' a' ->
  0 <= b < 2 ^ w -> Forall (fun seg => ~ seg_mpa seg <= b < seg_mpa seg + seg_size seg) segs ->
  let M := ram_view w s in
  um_load w sz a s = (s, Done (mem_read (Z.to_nat sz) M a))
  /\ (exists s', um_store w sz a v s = (s', Done tt) /\ um_ok segs s'
      /\ um_load w sz' a' s' = (s', Done (mem_read (Z.to_nat sz') (mem_write sz M a v) a')))
  /\ um_load w sz b s = (s, BusError) /\ um_store w sz b v s = (s, BusError).
Proof.
  intros Hw Hwf Hs Hsz Hspan Hsz' Hspan' Hb Hno M.
  assert (0 < sz /\ 0 < sz') as [? ?] by (unfold access_size in *; lia).
  split; [apply (um_load_ram w Hw segs); assumption |]. split.
  - destruct (um_store_ram w Hw segs s sz a v) as (s' & E & Hs' & Hv); try assumption.
    exists s'. split; [exact E | split; [exact Hs' |]].
    rewrite (um_load_ram w Hw segs) by assumption. do 2 f_equal.
    apply mem_read_ext. intros i _. apply Hv.
  - unfold um_load, um_store. rewrite (proj1 Hs), (uncovered w) by (assumption || apply Hwf). auto.
Qed.
