(* ===== verification/Tlb.v ===== *)
(** * The TLB: [emu/tlb-soft.h]

    A direct-mapped table of translations tagged with the protection domain and
    the address space. *)

From Stdlib Require Import ZArith Lia Bool List.
From stdpp Require Import base numbers list option gmap.
From S2P Require Import Prelude.

#[local] Open Scope Z_scope.
#[local] Open Scope word_scope.

Definition page_shift : Z := 12.

(** [param_rv32] and [param_rv64]: [UX] and the widths of the bit fields. *)
Record tlb_param : Type := mkParam { UX : Z; asid_bits : Z; ppn_bits : Z }.
Definition param_rv32 : tlb_param := mkParam 32 10 22.
Definition param_rv64 : tlb_param := mkParam 64 26 38.

Definition param_ok (p : tlb_param) : Prop := p = param_rv32 \/ p = param_rv64.

Definition vpn_bits (p : tlb_param) : Z := UX p - page_shift.
Definition ptel_bits : Z := 2.
Definition pteb_bits : Z := page_shift - 2.

Record tlb_entry : Type := mkEntry {
  ppn : Z; asid : Z; vpn : Z; ptel : Z; pteb : Z; pdid : Z; pma : Z }.

(** The constructors of [tagged_tlb_entry]: a bit field keeps the low bits. *)
Definition entry_default (p : tlb_param) : tlb_entry :=
  mkEntry (2 ^ ppn_bits p - 1) (2 ^ asid_bits p - 1) (2 ^ vpn_bits p - 1) 0 0 0 0.
Definition entry_of (p : tlb_param) (pdid asid vpn ptel pteb ppn : Z) : tlb_entry :=
  mkEntry (uwrap (ppn_bits p) ppn) (uwrap (asid_bits p) asid) (uwrap (vpn_bits p) vpn)
    (uwrap ptel_bits ptel) (uwrap pteb_bits pteb) (uwrap 32 pdid) 0.

(** ** The table *)

Abbreviation tlb := (list tlb_entry).

Section Tlb.
  Context (p : tlb_param) (shift : Z).

Definition tlb_size : Z := 2 ^ shift.
Definition tlb_mask : Z := 2 ^ shift - 1.
Definition tlb_new : tlb := replicate (Z.to_nat tlb_size) (entry_default p).

(** [flush(pdid)] and [flush(pdid, asid)]: the loops over the table. *)
Definition flush_pdid (d : Z) (t : tlb) : tlb :=
  map (fun e => if negb (pdid e =? d) then e else entry_default p) t.
Definition flush_asid (d a : Z) (t : tlb) : tlb :=
  map (fun e => if negb (a =? 0) && negb (pdid e =? d) && negb (asid e =? a)
                then e else entry_default p) t.

Definition tlb_vpn (va : Z) : Z := va >>> page_shift.
Definition tlb_index (va : Z) : Z := tlb_vpn va .& tlb_mask.

(** [lookup] and [insert] return a pointer into the table: the index. *)
Definition entry_match (d a va : Z) (e : tlb_entry) : bool :=
  (pdid e =? d) && (asid e =? a) && (vpn e =? tlb_vpn va).
Definition lookup (d a va : Z) (t : tlb) : option tlb_entry :=
  e ← aget t (tlb_index va);
  if entry_match d a va e then Some e else None.
Definition insert (d a va l b n : Z) (t : tlb) : option (tlb * tlb_entry) :=
  let e := entry_of p d a (tlb_vpn va) l b n in
  t' ← aset t (tlb_index va) e; Some (t', e).

(** ** Reference: a map of translations *)

(** What can happen to a table, and its effect on the translations in force. *)
Inductive tlb_op : Type :=
| TInsert (d a va l b n : Z)
| TFlush (d : Z)
| TFlushAsid (d a : Z).

Definition tlb_step (o : tlb_op) (t : tlb) : option tlb :=
  match o with
  | TInsert d a va l b n => fst <$> insert d a va l b n t
  | TFlush d => Some (flush_pdid d t)
  | TFlushAsid d a => Some (flush_asid d a t)
  end.

Fixpoint tlb_steps (os : list tlb_op) (t : tlb) : option tlb :=
  match os with
  | [] => Some t
  | o :: os' => t' ← tlb_step o t; tlb_steps os' t'
  end.

Abbreviation key := (Z * Z * Z)%type.        (* PDID, ASID, VPN *)
Abbreviation translations := (gmap key tlb_entry).

Definition map_step (o : tlb_op) (m : translations) : translations :=
  match o with
  | TInsert d a va l b n => <[(d, a, tlb_vpn va) := entry_of p d a (tlb_vpn va) l b n]> m
  | TFlush d => filter (fun kv => fst (fst (fst kv)) <> d) m
  | TFlushAsid d a =>
      filter (fun kv => a <> 0 /\ fst (fst (fst kv)) <> d /\ snd (fst (fst kv)) <> a) m
  end.

Definition map_steps (os : list tlb_op) (m : translations) : translations :=
  fold_left (fun m o => map_step o m) os m.

(** The arguments have the widths the MMU passes. *)
Definition key_ok (d a va : Z) : Prop :=
  in_u 32 d /\ in_u (asid_bits p) a /\ in_u (UX p) va.
Definition op_ok (o : tlb_op) : Prop :=
  match o with TInsert d a va _ _ _ => key_ok d a va | _ => True end.

(** Every hit is a translation in force, or the entry of an empty slot. *)
Definition coherent (t : tlb) (m : translations) : Prop :=
  forall d a va e, lookup d a va t = Some e -> m !! (d, a, tlb_vpn va) = Some e \/ e = entry_default p.

(** ** Proofs *)

Hypothesis Hp : param_ok p.
Hypothesis Hshift : 0 <= shift.

Definition tlb_wf (t : tlb) : Prop := length t = Z.to_nat tlb_size.

Lemma tlb_index_range (va : Z) : 0 <= tlb_index va < tlb_size.
Proof using Hshift.
  unfold tlb_index, tlb_mask, tlb_size. rewrite uwrap_land by lia. apply uwrap_range. lia.
Qed.

Lemma tlb_new_wf : tlb_wf tlb_new.
Proof using Type. unfold tlb_wf, tlb_new. apply length_replicate. Qed.

Lemma tlb_length (t : tlb) : tlb_wf t -> Z.of_nat (length t) = tlb_size.
Proof using Hshift. intros ->. pose proof (pow2_pos shift Hshift). unfold tlb_size. lia. Qed.

Lemma tlb_vpn_range (va : Z) : in_u (UX p) va -> in_u (vpn_bits p) (tlb_vpn va).
Proof using Hp.
  intros [H1 H2]. unfold tlb_vpn, vpn_bits. rewrite shiftr_div by (unfold page_shift; lia).
  assert (12 <= UX p) by (destruct Hp as [-> | ->]; cbn; lia). unfold page_shift.
  pose proof (pow2_pos 12 ltac:(lia)).
  split; [apply Z.div_pos; lia |]. apply Z.div_lt_upper_bound; [lia |].
  rewrite <- pow2_split by lia. replace (12 + (UX p - 12)) with (UX p) by lia. exact H2.
Qed.

(** The tags of an inserted entry are those of its key. *)
Lemma entry_of_match (d a va l b n d' a' va' : Z) :
  key_ok d a va ->
  entry_match d' a' va' (entry_of p d a (tlb_vpn va) l b n)
  = (d =? d') && (a =? a') && (tlb_vpn va =? tlb_vpn va').
Proof using Hp.
  intros (Hd & Ha & Hva). unfold entry_match, entry_of. cbn [pdid asid vpn].
  rewrite !uwrap_small by (assumption || apply tlb_vpn_range, Hva). reflexivity.
Qed.

Lemma tlb_insert_ok (d a va l b n : Z) (t : tlb) :
  tlb_wf t ->
  insert d a va l b n t
  = Some (<[Z.to_nat (tlb_index va) := entry_of p d a (tlb_vpn va) l b n]> t, entry_of p d a (tlb_vpn va) l b n).
Proof using Hshift.
  intros Ht. unfold insert. rewrite aset_Some; [reflexivity |].
  rewrite tlb_length by exact Ht. apply tlb_index_range.
Qed.

Lemma lookup_insert_spec (d a va l b n d' a' va' : Z) (t : tlb) :
  tlb_wf t -> key_ok d a va ->
  lookup d' a' va' (<[Z.to_nat (tlb_index va) := entry_of p d a (tlb_vpn va) l b n]> t)
  = if tlb_index va' =? tlb_index va then
      if (d =? d') && (a =? a') && (tlb_vpn va =? tlb_vpn va')
      then Some (entry_of p d a (tlb_vpn va) l b n) else None
    else lookup d' a' va' t.
Proof using Hp Hshift.
  intros Ht Hk. unfold lookup. rewrite aget_set;
    [| rewrite tlb_length by exact Ht; apply tlb_index_range | apply tlb_index_range].
  destruct (tlb_index va' =? tlb_index va); [| reflexivity].
  cbn [mbind option_bind]. rewrite entry_of_match by exact Hk. reflexivity.
Qed.

(** Flushing by a predicate on the entries. *)
Lemma aget_map {A} (f : A -> A) (l : list A) (i : Z) : aget (map f l) i = f <$> aget l i.
Proof using Type. unfold aget. destruct (0 <=? i); [| reflexivity]. apply list_lookup_fmap. Qed.

Lemma lookup_flush (keep : tlb_entry -> bool) (d a va : Z) (t : tlb) (e : tlb_entry) :
  lookup d a va (map (fun e => if keep e then e else entry_default p) t) = Some e ->
  (lookup d a va t = Some e /\ keep e = true) \/ e = entry_default p.
Proof using Type.
  unfold lookup. rewrite aget_map. destruct (aget t (tlb_index va)) as [x |]; [| discriminate].
  cbn [fmap option_fmap option_map mbind option_bind]. destruct (keep x) eqn:Ek.
  - destruct (entry_match d a va x); [| discriminate]. intros [= <-]. auto.
  - destruct (entry_match d a va (entry_default p)); [| discriminate]. intros [= <-]. auto.
Qed.

Lemma lookup_tags (d a va : Z) (t : tlb) (e : tlb_entry) :
  lookup d a va t = Some e -> pdid e = d /\ asid e = a /\ vpn e = tlb_vpn va.
Proof using Type.
  unfold lookup. destruct (aget t (tlb_index va)) as [x |]; [| discriminate].
  cbn [mbind option_bind]. unfold entry_match.
  destruct (Z.eqb_spec (pdid x) d), (Z.eqb_spec (asid x) a), (Z.eqb_spec (vpn x) (tlb_vpn va));
    try discriminate. intros [= <-]. auto.
Qed.

Lemma coherent_step (o : tlb_op) (t : tlb) (m : translations) :
  tlb_wf t -> op_ok o -> coherent t m ->
  exists t', tlb_step o t = Some t' /\ tlb_wf t' /\ coherent t' (map_step o m).
Proof using Hp Hshift.
  intros Ht Ho Hc. destruct o as [d a va l b n | d | d a]; cbn [tlb_step map_step].
  - rewrite tlb_insert_ok by exact Ht. eexists. split; [reflexivity |]. split.
    + unfold tlb_wf. cbn [fst]. rewrite length_insert. exact Ht.
    + intros d' a' va' e. cbn [fst]. rewrite lookup_insert_spec by assumption.
      destruct (Z.eqb_spec (tlb_index va') (tlb_index va)) as [Ei | Ei].
      * destruct (Z.eqb_spec d d') as [<- |], (Z.eqb_spec a a') as [<- |],
          (Z.eqb_spec (tlb_vpn va) (tlb_vpn va')) as [Ev |]; try discriminate.
        intros [= <-]. left. rewrite Ev. apply lookup_insert_eq.
      * intros H. rewrite lookup_insert_ne; [apply Hc, H |].
        intros [= -> -> Ev]. apply Ei. unfold tlb_index. rewrite Ev. reflexivity.
  - eexists. split; [reflexivity |]. split; [unfold tlb_wf, flush_pdid; rewrite length_map; exact Ht |].
    intros d' a' va' e H. apply lookup_flush in H as [[H Hk] |]; [| auto].
    destruct (lookup_tags _ _ _ _ _ H) as (<- & <- & _).
    destruct (Hc _ _ _ _ H) as [E |]; [| auto]. left. apply map_lookup_filter_Some. split; [exact E |].
    cbn. destruct (Z.eqb_spec (pdid e) d); [discriminate | assumption].
  - eexists. split; [reflexivity |]. split; [unfold tlb_wf, flush_asid; rewrite length_map; exact Ht |].
    intros d' a' va' e H. apply lookup_flush in H as [[H Hk] |]; [| auto].
    destruct (lookup_tags _ _ _ _ _ H) as (<- & <- & _).
    destruct (Hc _ _ _ _ H) as [E |]; [| auto]. left. apply map_lookup_filter_Some. split; [exact E |].
    cbn. destruct (Z.eqb_spec a 0), (Z.eqb_spec (pdid e) d), (Z.eqb_spec (asid e) a);
      try discriminate; auto.
Qed.

Lemma coherent_steps (os : list tlb_op) (t : tlb) (m : translations) :
  tlb_wf t -> Forall op_ok os -> coherent t m ->
  exists t', tlb_steps os t = Some t' /\ tlb_wf t' /\ coherent t' (map_steps os m).
Proof using Hp Hshift.
  intros Ht Hos. revert t m Ht. induction Hos as [| o os Ho Hos IH]; intros t m Ht Hc.
  - exists t. auto.
  - destruct (coherent_step o t m Ht Ho Hc) as (t1 & E1 & H1 & C1).
    destruct (IH t1 (map_step o m) H1 C1) as (t2 & E2 & H2 & C2).
    exists t2. split; [| auto]. cbn [tlb_steps]. rewrite E1. exact E2.
Qed.

Lemma coherent_new : coherent tlb_new ∅.
Proof using Type.
  intros d a va e. unfold lookup, aget, tlb_new. destruct (0 <=? _); [| discriminate].
  destruct (replicate _ _ !! _) as [x |] eqn:E; [| discriminate].
  apply lookup_replicate in E as [-> _]. cbn [mbind option_bind].
  destruct (entry_match _ _ _ _); [| discriminate]. intros [= <-]. auto.
Qed.

(** The entry of an empty slot grants nothing: a hit on it faults. *)
Lemma entry_default_denies : pteb (entry_default p) = 0.
Proof using Type. reflexivity. Qed.
End Tlb.

(** C27: Whatever sequence of insertions and flushes a table has seen, a hit is a
    translation still in force: one inserted last for that domain, space and page
    and not flushed since (or the permission-less entry of an empty slot). *)
Theorem tlb_refines_map (p : tlb_param) (shift : Z) (os : list tlb_op) (d a va : Z) (e : tlb_entry) :
  param_ok p -> 0 <= shift -> Forall (op_ok p) os ->
  exists t, tlb_steps p shift os (tlb_new p shift) = Some t
    /\ (lookup shift d a va t = Some e ->
        map_steps p os ∅ !! (d, a, tlb_vpn va) = Some e \/ e = entry_default p).
Proof.
  intros Hp Hs Hos.
  destruct (coherent_steps p shift Hp Hs os _ ∅ (tlb_new_wf p shift) Hos (coherent_new p shift))
    as (t & E & _ & Hc).
  exists t. split; [exact E | apply Hc].
Qed.

(** After an insertion a lookup in the same slot hits exactly for the inserted
    domain, space and page, and returns the inserted entry; the other slots are
    untouched. *)
Theorem tlb_lookup_insert (p : tlb_param) (shift : Z) (t : tlb) (d a va l b n d' a' va' : Z) :
  param_ok p -> 0 <= shift -> tlb_wf shift t -> key_ok p d a va ->
  exists t' e, insert p shift d a va l b n t = Some (t', e) /\ tlb_wf shift t'
    /\ lookup shift d a va t' = Some e
    /\ lookup shift d' a' va' t'
       = if tlb_index shift va' =? tlb_index shift va then
           if (d =? d') && (a =? a') && (tlb_vpn va =? tlb_vpn va') then Some e else None
         else lookup shift d' a' va' t.
Proof.
  intros Hp Hs Ht Hk. rewrite tlb_insert_ok by assumption. do 2 eexists. split; [reflexivity |].
  split; [unfold tlb_wf; rewrite length_insert; exact Ht |].
  rewrite !lookup_insert_spec by assumption. rewrite !Z.eqb_refl. split; reflexivity.
Qed.
