(* ===== verification/SoftMmu.v ===== *)
(** * The soft MMU: [emu/mmu-soft.h] and [emu/pte.h]

    Address translation with a page-table walker and two TLBs, the access checks,
    and the memory operations of the full-system emulator. *)

From Stdlib Require Import ZArith Lia Bool List.
From stdpp Require Import base numbers list option.
From S2P Require Import Prelude Alu Codec Ckpt Replay Interp Mmu Bus Tlb.

#[local] Open Scope Z_scope.
#[local] Open Scope word_scope.

(** ** Page-table entries: [pte.h] *)

Definition pte_flag_V : Z := 1.
Definition pte_flag_R : Z := 2.
Definition pte_flag_W : Z := 4.
Definition pte_flag_X : Z := 8.
Definition pte_flag_U : Z := 16.
Definition pte_flag_A : Z := 64.
Definition pte_flag_D : Z := 128.

(** A paged addressing mode: the constants of [sv32], [sv39] and [sv48], the size
    of an entry in bytes, and the width of its [ppn] field. *)
Record ptm : Type := mkPtm { levels : Z; ptm_bits : Z; pte_size : Z; pte_ppn_bits : Z }.
Definition sv32 : ptm := mkPtm 2 10 4 22.
Definition sv39 : ptm := mkPtm 3 9 8 44.
Definition sv48 : ptm := mkPtm 4 9 8 44.
Definition ptm_ok (m : ptm) : Prop := m = sv32 \/ m = sv39 \/ m = sv48.

Definition pte_flags (pte : Z) : Z := uwrap 10 pte.
Definition pte_ppn (m : ptm) (pte : Z) : Z := uwrap (pte_ppn_bits m) (pte >>> 10).

(** ** The processor, as the MMU sees it *)

Record proc : Type := mkProcRegs { mode : Z; mstatus : Z; sptbr : Z; proc_pdid : Z }.

Definition rv_mode_S : Z := 1.
Definition rv_mode_M : Z := 3.
Definition rv_mode_U : Z := 0.
Definition rv_vm_mbare : Z := 0.
Definition rv_vm_sv32 : Z := 8.
Definition rv_vm_sv39 : Z := 9.
Definition rv_vm_sv48 : Z := 10.

(** The bit fields of [union status]. *)
Definition bitfield (off n v : Z) : Z := uwrap n (v >>> off).
Definition mpp (v : Z) : Z := bitfield 11 2 v.
Definition mprv (v : Z) : Z := bitfield 17 1 v.
Definition pum (v : Z) : Z := bitfield 18 1 v.
Definition mxr (v : Z) : Z := bitfield 19 1 v.
Definition vm (v : Z) : Z := bitfield 24 4 v.

Inductive mmu_op : Type := op_fetch | op_load | op_store.

Definition rv_cause_misaligned_fetch : Z := 0.
Definition rv_cause_fault_fetch : Z := 1.
Definition rv_cause_misaligned_load : Z := 4.
Definition rv_cause_fault_load : Z := 5.
Definition rv_cause_misaligned_store : Z := 6.
Definition rv_cause_fault_store : Z := 7.

(** [raise] at the end of the walk. *)
Definition walk_cause (op : mmu_op) : Z :=
  match op with
  | op_fetch => rv_cause_fault_fetch
  | op_load => rv_cause_fault_load
  | op_store => rv_cause_fault_store
  end.

(** [sizeof(T)] is a power of two. *)
Definition misaligned (sz va : Z) : bool := negb ((va .& (sz - 1)) =? 0).

(** ** Access checks *)

Definition has (flags b : Z) : bool := negb ((flags .& b) =? 0).

(** [tlb_ent] is null when there is no translation. *)
Definition fetch_access_fault (q : proc) (level : Z) (ent : option tlb_entry) : bool :=
  match ent with
  | None => false
  | Some e =>
      negb (has (pteb e) pte_flag_X)
      || (if has (pteb e) pte_flag_U then rv_mode_U <? level else level <? rv_mode_S)
  end.

Definition load_access_fault (q : proc) (level : Z) (ent : option tlb_entry) : bool :=
  match ent with
  | None => false
  | Some e =>
      (negb (has (pteb e) pte_flag_R) && negb (has (pteb e) pte_flag_X && negb (mxr (mstatus q) =? 0)))
      || (if has (pteb e) pte_flag_U then (rv_mode_U <? level) && negb (pum (mstatus q) =? 0)
          else level <? rv_mode_S)
  end.

Definition store_access_fault (q : proc) (level : Z) (ent : option tlb_entry) : bool :=
  match ent with
  | None => false
  | Some e =>
      negb (has (pteb e) pte_flag_W)
      || (if has (pteb e) pte_flag_U then (rv_mode_U <? level) && negb (pum (mstatus q) =? 0)
          else level <? rv_mode_S)
  end.

Definition effective_mode (q : proc) (op : mmu_op) : Z :=
  if (rv_mode_M <=? mode q) && (mprv (mstatus q) =? 1)
     && (match op with op_fetch => false | _ => true end)
     && (mpp (mstatus q) <=? rv_mode_S)
  then mpp (mstatus q) else mode q.

(** The flags an access needs to be up to date. *)
Definition ad_flags (op : mmu_op) : Z :=
  pte_flag_A .| match op with op_store => pte_flag_D | _ => 0 end.

(** ** The MMU *)

(** [mmu_soft]; the PMA table is never consulted. *)
Record soft (B : Type) : Type := mkSoft { l1_itlb : tlb; l1_dtlb : tlb; smem : B }.
Arguments mkSoft {B}. Arguments l1_itlb {B}. Arguments l1_dtlb {B}. Arguments smem {B}.

Definition tlb_shift : Z := 7.

Section Soft.
  Context {B : Type} {bus : Bus B} (p : tlb_param).
  Local Abbreviation w := (UX p).

Definition with_bus (b : B) (s : soft B) : soft B := mkSoft (l1_itlb s) (l1_dtlb s) b.

Definition op_tlb (op : mmu_op) (s : soft B) : tlb :=
  match op with op_fetch => l1_itlb s | _ => l1_dtlb s end.
Definition with_tlb (op : mmu_op) (t : tlb) (s : soft B) : soft B :=
  match op with
  | op_fetch => mkSoft t (l1_dtlb s) (smem s)
  | _ => mkSoft (l1_itlb s) t (smem s)
  end.

(** [mmu_soft(mem)] *)
Definition soft_new (b : B) : soft B := mkSoft (tlb_new p tlb_shift) (tlb_new p tlb_shift) b.

(** The shift of a level: [PTM::bits * level + page_shift] as a [UX]. *)
Definition level_shift (m : ptm) (level : Z) : Z := (ptm_bits m *[w] level) +[w] page_shift.

(** [page_translate_offset]: an [addr_t].  [None]: the shift of [1ULL] is out of range. *)
Definition page_translate_offset (m : ptm) (ppn va level : Z) : option Z :=
  let shift := level_shift m level in
  if 64 <=? shift then None
  else Some ((ppn <<[w] page_shift) +[64] (va .& (2 ^ shift - 1))).

(** ** The walk *)

Inductive walked : Type :=
| WLeaf (b : B) (pte level pa : Z)
| WFault (b : B)
| WRaised (b : B) (cause : Z)
| WUb.

(** The page the pointer entry refers to.  The 22-bit [ppn] of [sv32] is promoted
    to [int], the 44-bit one is a [u64]. *)
Definition next_base (m : ptm) (pte : Z) : Z :=
  uwrap w (swrap (8 * pte_size m) (Z.shiftl (pte_ppn m pte) page_shift)).

(** Neither readable, writable nor executable. *)
Definition pte_pointer (pte : Z) : bool :=
  ((((pte >>> 1) .| (pte >>> 2)) .| (pte >>> 3)) .& 1) =? 0.
(** Invalid, or writable but not readable. *)
Definition pte_reserved (pte : Z) : bool :=
  let f := pte_flags pte in
  negb (((Z.lnot f >>> 0) .| ((Z.lnot f >>> 1) .& (f >>> 2))) .& 1 =? 0).

(** The body below the load: the end of the walk at this entry, or [None] to go
    on ([WUb] if the [int] shift is out of range). *)
Definition walk_leaf (m : ptm) (op : mmu_op) (va level shift pte_mpa pte : Z) (b : B) : option walked :=
  if pte_reserved pte then Some (WFault b)
  else if (pte_flags pte .& (pte_flag_R .| pte_flag_X)) =? 0 then None
  else
    let up := shift -[64] page_shift in
    if 32 <=? up then Some WUb
    else if negb (((2 ^ up - 1) .& pte_ppn m pte) =? 0) then Some (WFault b)
    else
      let finish b pte :=
        match page_translate_offset m (pte_ppn m pte) va level with
        | Some pa => WLeaf b pte level pa
        | None => WUb
        end in
      if negb ((pte_flags pte .& ad_flags op) =? ad_flags op) then
        let pte := pte .| ad_flags op in
        match bus_store (pte_size m) pte_mpa pte b with
        | (b, Done _) => Some (finish b pte)
        | (b, BusError) => Some (WFault b)
        | (b, Raised c) => Some (WRaised b c)
        | (b, Undefined) => Some WUb
        end
      else Some (finish b pte).

(** The loop: [level] is unsigned, so only a leaf, a fault or undefined behaviour
    ends it ([level >= 0] always holds).  [None]: out of fuel. *)
Fixpoint walk (fuel : nat) (m : ptm) (op : mmu_op) (va level base : Z) (b : B) : option walked :=
  match fuel with
  | O => None
  | S n =>
      let shift := level_shift m level in
      if w <=? shift then Some WUb
      else
        let vpn := (va >>> shift) .& (2 ^ ptm_bits m - 1) in
        let pte_mpa := base +[w] vpn * pte_size m in
        match bus_load (pte_size m) pte_mpa b with
        | (b, BusError) => Some (WFault b)
        | (b, Raised c) => Some (WRaised b c)
        | (b, Undefined) => Some WUb
        | (b, Done pte) =>
            if pte_pointer pte then walk n m op va (level -[w] 1) (next_base m pte) b
            else
              match walk_leaf m op va level shift pte_mpa pte b with
              | Some r => Some r
              | None => walk n m op va (level -[w] 1) base b
              end
        end
  end.

Definition walk_base (q : proc) : Z := (sptbr q .& (2 ^ ppn_bits p - 1)) <<[w] page_shift.

(** [walk_page_table] *)
Definition walk_page_table (m : ptm) (q : proc) (op : mmu_op) (va : Z) (b : B) : walked :=
  match walk (Z.to_nat (levels m) + 2) m op va (levels m - 1) (walk_base q) b with
  | Some r => r
  | None => WUb
  end.

(** ** Translation: the physical address and [tlb_ent] *)

Definition cur_asid (q : proc) : Z := sptbr q >>> ppn_bits p.

(** A device raised a cause, with the program counter as the bad address: the
    devices only raise the internal causes, whose handling does not look at it. *)
Definition raised {A} (b : B) (cause : Z) (s : soft B) : outcome (soft B) A := Fault (with_bus b s) cause 0.

(** [page_translate_addr_tlb_miss], after the walk. *)
Definition translate_walked (m : ptm) (q : proc) (op : mmu_op) (va : Z) (s : soft B) (r : walked)
    : outcome (soft B) (Z * option tlb_entry) :=
  match r with
  | WUb => Ub
  | WFault b => Fault (with_bus b s) (walk_cause op) va
  | WRaised b c => raised b c s
  | WLeaf b pte level pa =>
      let s := with_bus b s in
      if pa =? 0 then Fine s (0, None)
      else
        match Tlb.insert p tlb_shift (proc_pdid q) (cur_asid q) va level (pte_flags pte) (pte_ppn m pte)
                (op_tlb op s) with
        | Some (t, e) => Fine (with_tlb op t s) (pa, Some e)
        | None => Ub
        end
  end.

(** [page_translate_addr_tlb_miss] *)
Definition translate_miss (m : ptm) (q : proc) (op : mmu_op) (va : Z) (s : soft B)
    : outcome (soft B) (Z * option tlb_entry) :=
  translate_walked m q op va s (walk_page_table m q op va (smem s)).

(** [page_translate_addr] *)
Definition page_translate_addr (m : ptm) (q : proc) (op : mmu_op) (va : Z) (s : soft B)
    : outcome (soft B) (Z * option tlb_entry) :=
  match Tlb.lookup tlb_shift (proc_pdid q) (cur_asid q) va (op_tlb op s) with
  | Some e =>
      if negb ((pteb e .& ad_flags op) =? ad_flags op) then
        match page_translate_offset m (ppn e) va (ptel e) with
        | Some pa => Fine s (pa, Some e)
        | None => Ub
        end
      else translate_miss m q op va s
  | None => translate_miss m q op va s
  end.

(** [translate_addr]; another mode panics. *)
Definition translate_addr (q : proc) (op : mmu_op) (va : Z) (s : soft B)
    : outcome (soft B) (Z * option tlb_entry) :=
  if rv_mode_M <=? effective_mode q op then Fine s (va, None)
  else if vm (mstatus q) =? rv_vm_mbare then Fine s (va, None)
  else if vm (mstatus q) =? rv_vm_sv32 then page_translate_addr sv32 q op va s
  else if vm (mstatus q) =? rv_vm_sv39 then page_translate_addr sv39 q op va s
  else if vm (mstatus q) =? rv_vm_sv48 then page_translate_addr sv48 q op va s
  else Ub.

(** ** Memory operations *)

(** Translate, then [mem->load] or [mem->store] behind an access check.  A zero
    physical address returns early: [zero] is what the caller then sees. *)
Definition with_pa {A} (q : proc) (op : mmu_op) (va : Z) (s : soft B) (zero : soft B -> outcome (soft B) A)
    (k : soft B -> Z -> option tlb_entry -> outcome (soft B) A) : outcome (soft B) A :=
  match translate_addr q op va s with
  | Fine s (mpa, ent) => if mpa =? 0 then zero s else k s mpa ent
  | Fault s c b => Fault s c b
  | Ub => Ub
  end.

Definition mem_load {A} (denied : bool) (cause va sz mpa : Z) (s : soft B)
    (k : soft B -> Z -> outcome (soft B) A) : outcome (soft B) A :=
  if denied then Fault s cause va
  else
    match bus_load sz (uwrap w mpa) (smem s) with
    | (b, Done v) => k (with_bus b s) v
    | (b, BusError) => Fault (with_bus b s) cause va
    | (b, Raised c) => raised b c s
    | (b, Undefined) => Ub
    end.

Definition mem_store {A} (denied : bool) (cause va sz mpa val : Z) (s : soft B)
    (k : soft B -> outcome (soft B) A) : outcome (soft B) A :=
  if denied then Fault s cause va
  else
    match bus_store sz (uwrap w mpa) val (smem s) with
    | (b, Done _) => k (with_bus b s)
    | (b, BusError) => Fault (with_bus b s) cause va
    | (b, Raised c) => raised b c s
    | (b, Undefined) => Ub
    end.

(** [load]: with a zero physical address [val] is left unset. *)
Definition soft_load (q : proc) (sz va : Z) (s : soft B) : outcome (soft B) Z :=
  if misaligned sz va then Fault s rv_cause_misaligned_load va
  else
    with_pa q op_load va s (fun _ => Ub) (fun s mpa ent =>
    mem_load (load_access_fault q (mode q) ent) rv_cause_fault_load va sz mpa s (fun s v =>
    Fine s v)).

(** [store]: with a zero physical address nothing is stored. *)
Definition soft_store (q : proc) (sz va val : Z) (s : soft B) : outcome (soft B) unit :=
  if misaligned sz va then Fault s rv_cause_misaligned_store va
  else
    with_pa q op_store va s (fun s => Fine s tt) (fun s mpa ent =>
    mem_store (store_access_fault q (mode q) ent) rv_cause_fault_store va sz mpa val s (fun s =>
    Fine s tt)).

(** [amo] *)
Definition soft_amo (q : proc) (a_op : amo_op) (sz va val2 : Z) (s : soft B) : outcome (soft B) Z :=
  if misaligned sz va then Fault s rv_cause_misaligned_store va
  else
    with_pa q op_store va s (fun _ => Ub) (fun s mpa ent =>
    mem_load (load_access_fault q (mode q) ent) rv_cause_fault_store va sz mpa s (fun s val1 =>
    let val2 := amo_fn w a_op (uwrap w (swrap (8 * sz) val1)) (uwrap w (swrap (8 * sz) val2)) in
    mem_store (store_access_fault q (mode q) ent) rv_cause_fault_store va sz mpa val2 s (fun s =>
    Fine s val1))).

(** [inst_fetch] (no histogram): 16 bits at a time.  With a zero physical address
    [pc_offset] is left unset. *)
Definition soft_fetch (q : proc) (pc : Z) (s : soft B) : outcome (soft B) (Z * Z) :=
  let parcel denied mpa s k := mem_load denied rv_cause_fault_fetch pc 2 mpa s k in
  if misaligned 2 pc then Fault s rv_cause_misaligned_fetch pc
  else
    with_pa q op_fetch pc s (fun _ => Ub) (fun s mpa ent =>
    parcel (fetch_access_fault q (mode q) ent) mpa s (fun s inst =>
    if negb ((inst .& 0x3) =? 0x3) then Fine s (inst, 2)
    else if negb ((inst .& 0x1c) =? 0x1c) then
      parcel false (mpa +[64] 2) s (fun s v =>
      Fine s (inst .| (v <<[64] 16), 4))
    else if (inst .& 0x3f) =? 0x1f then
      parcel false (mpa +[64] 2) s (fun s v1 =>
      parcel false (mpa +[64] 4) s (fun s v2 =>
      Fine s ((inst .| (v1 <<[64] 16)) .| (v2 <<[64] 32), 6)))
    else if (inst .& 0x7f) =? 0x3f then
      parcel false (mpa +[64] 2) s (fun s v1 =>
      parcel false (mpa +[64] 4) s (fun s v2 =>
      parcel false (mpa +[64] 6) s (fun s v3 =>
      Fine s (((inst .| (v1 <<[64] 16)) .| (v2 <<[64] 32)) .| (v3 <<[64] 48), 8))))
    else Fault s rv_cause_fault_fetch pc)).

(** [sfence.vm] *)
Definition soft_flush (q : proc) (s : soft B) : soft B :=
  mkSoft (flush_asid p (proc_pdid q) (cur_asid q) (l1_itlb s))
    (flush_asid p (proc_pdid q) (cur_asid q) (l1_dtlb s)) (smem s).

(** The MMU with the registers of the processor. *)
Definition mmu_soft (q : proc) : Mmu (soft B) :=
  {| mmu_fetch := soft_fetch q; mmu_load := soft_load q;
     mmu_store := soft_store q; mmu_amo := soft_amo q |}.
End Soft.

Arguments WLeaf {B}. Arguments WFault {B}. Arguments WRaised {B}. Arguments WUb {B}.
Definition mmu_soft_rv32 {B} {bus : Bus B} : proc -> Mmu (soft B) := mmu_soft param_rv32.
Definition mmu_soft_rv64 {B} {bus : Bus B} : proc -> Mmu (soft B) := mmu_soft param_rv64.
