(* ===== verification/SoftMmuProofs.v ===== *)
(** * Correctness of the soft MMU

    The page-table walk ends, and on tables in memory it finds the leaf the
    architecture defines; what the TLB does to the accessed and dirty flags; which
    accesses the checks let through; and, in machine mode, the contract
    [MmuLaws]. *)

From Stdlib Require Import ZArith Lia Bool List.
From stdpp Require Import base numbers list option.
From S2P Require Import Prelude Alu Codec Ckpt Replay Interp Mmu Bus Tlb SoftMmu.

#[local] Open Scope Z_scope.
#[local] Open Scope word_scope.

Section Walk.
  Context {B : Type} {bus : Bus B} (p : tlb_param) (m : ptm).
  Hypothesis Hp : param_ok p.
  Hypothesis Hm : ptm_ok m.

(** One iteration ends the walk or goes down a level. *)
Lemma walk_step (n : nat) (op : mmu_op) (va level base : Z) (b : B) :
  (exists r, walk p (S n) m op va level base b = Some r)
  \/ exists base' b', walk p (S n) m op va level base b = walk p n m op va (level -[UX p] 1) base' b'.
Proof using Type.
  cbn [walk]. destruct (UX p <=? level_shift p m level); [eauto |].
  destruct (bus_load _ _ b) as [b' [pte | | c |]]; eauto.
  destruct (pte_pointer pte); [eauto |].
  destruct (walk_leaf _ _ _ _ _ _ _ _ _); eauto.
Qed.

Lemma walk_overrun (n : nat) (op : mmu_op) (va level base : Z) (b : B) :
  UX p <= level_shift p m level -> walk p (S n) m op va level base b = Some WUb.
Proof using Type. intros H. cbn [walk]. rewrite (proj2 (Z.leb_le _ _) H). reflexivity. Qed.

(** Two levels below the last, the shift is out of range. *)
Lemma walk_below (n : nat) (op : mmu_op) (va base : Z) (b : B) :
  exists r, walk p (S (S n)) m op va (uwrap (UX p) (-1)) base b = Some r.
Proof using Hp Hm.
  destruct (walk_step (S n) op va (uwrap (UX p) (-1)) base b) as [H | (base' & b' & ->)]; [exact H |].
  exists WUb. apply walk_overrun. rewrite uwrap_sub_l.
  destruct Hp as [-> | ->], Hm as [-> | [-> | ->]]; vm_compute; discriminate.
Qed.

Lemma walk_total (k : nat) (op : mmu_op) (va base : Z) (b : B) :
  exists r, walk p (k + 2) m op va (uwrap (UX p) (Z.of_nat k - 1)) base b = Some r.
Proof using Hp Hm.
  revert base b. induction k as [| k IH]; intros base b; [apply walk_below |].
  change (S k + 2)%nat with (S (k + 2)).
  destruct (walk_step (k + 2) op va (uwrap (UX p) (Z.of_nat (S k) - 1)) base b) as [H | (base' & b' & ->)];
    [exact H |].
  rewrite uwrap_sub_l. replace (Z.of_nat (S k) - 1 - 1) with (Z.of_nat k - 1) by lia. apply IH.
Qed.

(** From the level below [l]. *)
Lemma walk_from (l : Z) (op : mmu_op) (va base : Z) (b : B) :
  0 <= l < levels m -> exists r, walk p (Z.to_nat l + 2) m op va (l -[UX p] 1) base b = Some r.
Proof using Hp Hm.
  intros Hl. destruct (walk_total (Z.to_nat l) op va base b) as [r Hr]. exists r. rewrite <- Hr.
  rewrite Z2Nat.id by lia. reflexivity.
Qed.
End Walk.

(** ** Bits of a page-table entry *)

Lemma land_bit0 (x : Z) : (x .& 1 =? 0) = negb (Z.testbit x 0).
Proof.
  change 1 with (2 ^ 1 - 1). rewrite uwrap_land by lia. unfold uwrap. change (2 ^ 1) with 2.
  rewrite Zmod_odd, <- Z.bit0_odd. destruct (Z.testbit x 0); reflexivity.
Qed.

Lemma pte_pointer_spec (pte : Z) :
  pte_pointer pte = negb (Z.testbit pte 1 || Z.testbit pte 2 || Z.testbit pte 3).
Proof.
  unfold pte_pointer. rewrite land_bit0, !Z.lor_spec, !Z.shiftr_spec by lia. reflexivity.
Qed.

Lemma pte_flags_bit (pte i : Z) : 0 <= i < 10 -> Z.testbit (pte_flags pte) i = Z.testbit pte i.
Proof. intros H. unfold pte_flags. rewrite testbit_uwrap by lia. rewrite (proj2 (Z.ltb_lt i 10)) by lia. reflexivity. Qed.

Lemma pte_reserved_spec (pte : Z) :
  pte_reserved pte = negb (Z.testbit pte 0) || (negb (Z.testbit pte 1) && Z.testbit pte 2).
Proof.
  unfold pte_reserved. rewrite land_bit0, negb_involutive, Z.lor_spec, Z.land_spec, !Z.shiftr_spec by lia.
  cbn [Z.add]. rewrite !Z.lnot_spec by lia. rewrite !pte_flags_bit by lia. reflexivity.
Qed.

Lemma pte_flags_range (pte : Z) : in_u 10 (pte_flags pte).
Proof. apply uwrap_range. lia. Qed.

(** An accessed-and-dirty mask is a word of the flags. *)
Lemma ad_flags_range (op : mmu_op) : in_u 10 (ad_flags op).
Proof. destruct op; vm_compute; intuition discriminate. Qed.

Lemma pte_ppn_lor (m : ptm) (op : mmu_op) (pte : Z) : pte_ppn m (pte .| ad_flags op) = pte_ppn m pte.
Proof.
  unfold pte_ppn. rewrite Z.shiftr_lor.
  assert (ad_flags op >>> 10 = 0) as -> by (destruct op; reflexivity). rewrite Z.lor_0_r. reflexivity.
Qed.

(** Flags already set: the entry is unchanged. *)
Lemma pte_up_to_date (op : mmu_op) (pte : Z) :
  pte_flags pte .& ad_flags op = ad_flags op -> pte .| ad_flags op = pte.
Proof.
  intros H. apply Z.bits_inj'. intros i Hi. rewrite Z.lor_spec.
  destruct (Z.testbit (ad_flags op) i) eqn:E; [| apply orb_false_r].
  rewrite orb_true_r. assert (i < 10).
  { destruct (Z.lt_ge_cases i 10); [assumption |].
    rewrite (testbit_high 10 _ i (ad_flags_range op)) in E by lia. discriminate. }
  rewrite <- H, Z.land_spec, pte_flags_bit in E by lia. apply andb_prop in E as [E _]. symmetry. exact E.
Qed.

Lemma mem_write_same (sz : Z) (M : memory) (a b : Z) :
  bytes M -> 0 <= sz -> mem_write sz M a (mem_read (Z.to_nat sz) M a) b = M b.
Proof.
  intros HM Hsz. unfold mem_write. destruct (Z.leb_spec a b), (Z.ltb_spec b (a + sz)); try reflexivity.
  cbn [andb]. rewrite byte_mem_read by (assumption || lia). f_equal. lia.
Qed.

(** ** Reference: the walk of the architecture *)

Section Reference.
  Context (m : ptm).

Definition vpn_at (va l : Z) : Z := (va / 2 ^ (12 + ptm_bits m * l)) mod 2 ^ ptm_bits m.

(** What the walk of the architecture comes to: a leaf (the address and the value
    of the entry, and its level); a page fault at an entry that is readable,
    writable or executable but invalid, reserved or misaligned; a page fault at an
    entry with none of these permissions, invalid or in the last table. *)
Inductive arch_walk : Type :=
| ArchLeaf (a pte l : Z)
| ArchDenied
| ArchUnmapped (pte l : Z).

Fixpoint ref_walk (M : memory) (va : Z) (k : nat) (base : Z) : arch_walk :=
  match k with
  | O => ArchDenied
  | S l =>
      let a := base + vpn_at va (Z.of_nat l) * pte_size m in
      let pte := mem_read (Z.to_nat (pte_size m)) M a in
      let bit := Z.testbit pte in
      if negb (bit 1) && negb (bit 2) && negb (bit 3) then
        if bit 0 && negb (l =? 0)%nat then ref_walk M va l (pte_ppn m pte * 2 ^ 12)
        else ArchUnmapped pte (Z.of_nat l)
      else if negb (bit 0) || (negb (bit 1) && bit 2) then ArchDenied
      else if pte_ppn m pte mod 2 ^ (ptm_bits m * Z.of_nat l) =? 0 then ArchLeaf a pte (Z.of_nat l)
      else ArchDenied
  end.

(** The page number of the leaf (a superpage keeps the low page numbers of the
    virtual address) and the page offset. *)
Definition ref_pa (pte va l : Z) : Z :=
  pte_ppn m pte * 2 ^ 12 + va mod 2 ^ (12 + ptm_bits m * l).
End Reference.

Section WalkCorrect.
  Context {B : Type} {bus : Bus B} {L : BusLaws B} (p : tlb_param) (m : ptm).
  Hypothesis Hp : param_ok p.
  Hypothesis Hm : ptm_ok m.
  (** The virtual address fits the registers: sv48 is not for RV32. *)
  Hypothesis Hfit : ptm_bits m * (levels m - 1) + 12 < UX p.
  Local Abbreviation w := (UX p).

(** The tables the walk of the architecture visits for [va], and the page of its
    leaf, are in memory and below the top of the address space. *)
Fixpoint table_ok (b : B) (va : Z) (k : nat) (base : Z) : Prop :=
  match k with
  | O => True
  | S l =>
      let a := base + vpn_at m va (Z.of_nat l) * pte_size m in
      let pte := mem_read (Z.to_nat (pte_size m)) (bus_view b) a in
      0 <= a < 2 ^ w /\ bus_ram (pte_size m) a
      /\ (if pte_pointer pte then
            if Z.testbit pte 0 && negb (l =? 0)%nat
            then next_base p m pte = pte_ppn m pte * 2 ^ 12 /\ table_ok b va l (pte_ppn m pte * 2 ^ 12)
            else True
          else pte_ppn m pte * 2 ^ 12 < 2 ^ w)
  end.

(** A page whose entries are bus errors. *)
Definition dead (b : B) (base : Z) : Prop :=
  forall i, 0 <= i < 4096 -> bus_load (pte_size m) (base +[w] i) b = (b, BusError).

Lemma pte_size_ok : access_size (pte_size m) /\ 0 < ptm_bits m <= 10 /\ 0 < levels m <= 4
  /\ 2 ^ ptm_bits m * pte_size m = 4096.
Proof using Hp Hm Hfit. unfold access_size. destruct Hm as [-> | [-> | ->]]; cbn; lia. Qed.

Lemma w_cases : w = 32 \/ w = 64.
Proof using Hp. clear Hfit. destruct Hp as [-> | ->]; cbn; lia. Qed.

Lemma level_shift_small (l : Z) :
  0 <= l < levels m -> level_shift p m l = 12 + ptm_bits m * l /\ 12 + ptm_bits m * l < w.
Proof using Hp Hm Hfit.
  intros Hl. destruct pte_size_ok as (_ & Hb & Hlv & _).
  assert (0 <= ptm_bits m * l <= ptm_bits m * (levels m - 1)) by nia.
  assert (w < 2 ^ w) by (destruct w_cases as [-> | ->]; lia).
  split; [| lia]. unfold level_shift, page_shift. rewrite uwrap_add_l, uwrap_small; [lia | split; lia].
Qed.

(** The address of the entry: [vpn] is a table index. *)
Lemma vpn_shift (va s : Z) : 0 <= s -> (va >>> s) .& (2 ^ ptm_bits m - 1) = (va / 2 ^ s) mod 2 ^ ptm_bits m.
Proof using Hp Hm Hfit.
  intros Hs. destruct pte_size_ok as (_ & Hb & _). rewrite uwrap_land, shiftr_div by lia. reflexivity.
Qed.

Lemma vpn_offset (x : Z) : 0 <= (x mod 2 ^ ptm_bits m) * pte_size m < 4096.
Proof using Hp Hm Hfit.
  destruct pte_size_ok as (Hs & Hb & _ & He).
  pose proof (Z.mod_pos_bound x (2 ^ ptm_bits m) (pow2_pos (ptm_bits m) ltac:(lia))).
  unfold access_size in Hs. nia.
Qed.

Lemma walk_dead (n : nat) (op : mmu_op) (va level base : Z) (b : B) :
  level_shift p m level < w -> 0 <= level_shift p m level -> dead b base ->
  walk p (S n) m op va level base b = Some (WFault b).
Proof using Hp Hm Hfit.
  intros Hs Hs0 Hd. cbn [walk]. rewrite (proj2 (Z.leb_gt _ _)) by lia.
  rewrite vpn_shift by lia. rewrite Hd by apply vpn_offset. reflexivity.
Qed.

(** The level below any of the table's, the wrapped one included. *)
Lemma level_below_shift (l : Z) :
  0 <= l < levels m -> 0 <= level_shift p m (l -[w] 1) < w.
Proof using Hp Hm Hfit.
  intros Hl. destruct (Z.eq_dec l 0) as [-> | Hl0].
  - destruct Hp as [-> | ->], Hm as [-> | [-> | ->]]; vm_compute; intuition discriminate.
  - assert (l < 2 ^ w) by (destruct pte_size_ok as (_ & _ & ? & _), w_cases as [-> | ->]; lia).
    rewrite uwrap_small by (split; lia). destruct (level_shift_small (l - 1) ltac:(lia)) as [-> ?].
    destruct pte_size_ok as (_ & ? & _ & _). nia.
Qed.

(** What a leaf does to the entry and returns. *)
Definition leaf_result (op : mmu_op) (va a pte l : Z) (b : B) (r : walked) : Prop :=
  exists b', r = WLeaf b' (pte .| ad_flags op) l (ref_pa m pte va l)
    /\ bus_ok b' /\ forall x, bus_view b' x = mem_write (pte_size m) (bus_view b) a (pte .| ad_flags op) x.

Lemma leaf_offset (pte va l : Z) :
  0 <= l < levels m -> pte_ppn m pte mod 2 ^ (ptm_bits m * l) = 0 -> pte_ppn m pte * 2 ^ 12 < 2 ^ w ->
  page_translate_offset p m (pte_ppn m pte) va l = Some (ref_pa m pte va l).
Proof using Hp Hm Hfit.
  intros Hl Ha Hr. unfold page_translate_offset, ref_pa, page_shift.
  destruct (level_shift_small l Hl) as [-> Hs]. destruct pte_size_ok as (_ & Hb & _).
  assert (Hn : 0 <= ptm_bits m * l) by (apply Z.mul_nonneg_nonneg; lia). clear Hfit.
  set (sh := 12 + ptm_bits m * l) in *. assert (0 <= sh) by lia.
  assert (Hw64 : w <= 64) by (destruct w_cases as [-> | ->]; lia).
  rewrite (proj2 (Z.leb_gt 64 sh)) by lia. rewrite uwrap_land by lia.
  assert (0 <= pte_ppn m pte) by (apply uwrap_range; destruct Hm as [-> | [-> | ->]]; cbn; lia).
  rewrite shiftl_mul by lia. rewrite (uwrap_small w) by (split; lia).
  apply Z.mod_divide in Ha as [q Hq]; [| apply Z.pow_nonzero; lia].
  assert (E : pte_ppn m pte * 2 ^ 12 = q * 2 ^ sh) by (unfold sh; rewrite Hq, (pow2_split 12) by lia; ring).
  assert (E2 : 2 ^ w = 2 ^ (w - sh) * 2 ^ sh) by (rewrite <- pow2_split by lia; f_equal; lia).
  pose proof (pow2_pos sh ltac:(lia)). pose proof (Z.mod_pos_bound va (2 ^ sh) ltac:(lia)).
  assert (2 ^ w <= 2 ^ 64) by (apply Z.pow_le_mono_r; lia).
  assert (q + 1 <= 2 ^ (w - sh)) by (apply Z.le_succ_l, (Z.mul_lt_mono_pos_r (2 ^ sh)); lia).
  assert ((q + 1) * 2 ^ sh <= 2 ^ (w - sh) * 2 ^ sh) by (apply Z.mul_le_mono_nonneg_r; lia).
  unfold uwrap. rewrite Z.mod_small; [reflexivity |]. lia.
Qed.

Lemma walk_leaf_ok (op : mmu_op) (va l a pte : Z) (b : B) :
  bus_ok b -> 0 <= l < levels m -> pte = mem_read (Z.to_nat (pte_size m)) (bus_view b) a ->
  bus_ram (pte_size m) a -> pte_ppn m pte * 2 ^ 12 < 2 ^ w ->
  pte_reserved pte = false -> Z.testbit pte 1 || Z.testbit pte 3 = true ->
  exists r, walk_leaf p m op va l (level_shift p m l) a pte b = Some r
    /\ if pte_ppn m pte mod 2 ^ (ptm_bits m * l) =? 0 then leaf_result op va a pte l b r else r = WFault b.
Proof using Hp Hm Hfit.
  intros Hb Hl Hpte Hram Hr Hres Hrx. unfold walk_leaf. rewrite Hres.
  destruct pte_size_ok as (Hsz & Hbits & Hlv & _). destruct (level_shift_small l Hl) as [Hsh Hsw].
  replace (_ =? 0) with false.
  2: { symmetry. apply Z.eqb_neq. intros E. apply orb_true_iff in Hrx as [Hx | Hx];
       rewrite <- pte_flags_bit in Hx by lia;
       [assert (Hz := f_equal (fun z => Z.testbit z 1) E) | assert (Hz := f_equal (fun z => Z.testbit z 3) E)];
       cbv beta in Hz; rewrite Z.land_spec, Hx, Z.bits_0 in Hz; discriminate Hz. }
  assert (Hw64 : w <= 64) by (destruct w_cases as [-> | ->]; lia).
  assert (Hn : 0 <= ptm_bits m * l) by (apply Z.mul_nonneg_nonneg; lia).
  assert (Hn2 : ptm_bits m * l <= 30) by nia.
  assert (H64 : 64 < 2 ^ 64) by reflexivity.
  assert (Hup : level_shift p m l -[64] page_shift = ptm_bits m * l).
  { rewrite Hsh. unfold page_shift. rewrite uwrap_small; [lia |]. split; lia. }
  rewrite Hup, (proj2 (Z.leb_gt 32 _)) by lia. rewrite Z.land_comm, uwrap_land by lia. unfold uwrap.
  destruct (Z.eqb_spec (pte_ppn m pte mod 2 ^ (ptm_bits m * l)) 0) as [Ha | Ha]; cbn [negb]; [| eauto].
  rewrite pte_ppn_lor, (leaf_offset pte va l Hl Ha Hr).
  destruct (Z.eqb_spec (pte_flags pte .& ad_flags op) (ad_flags op)) as [Eu | Eu]; cbn [negb].
  - eexists. split; [reflexivity |]. exists b. rewrite pte_up_to_date by exact Eu.
    split; [reflexivity | split; [exact Hb |]]. intros x. rewrite Hpte.
    rewrite mem_write_same; [reflexivity | apply law_bus_bytes, Hb | unfold access_size in Hsz; lia].
  - destruct (law_bus_store b (pte_size m) a (pte .| ad_flags op) Hb Hsz Hram) as (b' & -> & Hb' & Hv).
    eexists. split; [reflexivity |]. exists b'. auto.
Qed.

(** ** How the walk ends *)

(** The address of the entry of the table at [base]. *)
Definition entry_addr (va level base : Z) : Z :=
  base +[w] ((va >>> level_shift p m level) .& (2 ^ ptm_bits m - 1)) * pte_size m.

(** The page the walk is at, and the memory, after [k] pointer entries in a row. *)
Fixpoint pointers (k : nat) (va level base : Z) (b : B) : option (Z * B) :=
  match k with
  | O => Some (base, b)
  | S k =>
      match bus_load (pte_size m) (entry_addr va level base) b with
      | (b, Done pte) => if pte_pointer pte then pointers k va (level -[w] 1) (next_base p m pte) b else None
      | _ => None
      end
  end.

(** The memory or a device has undefined behaviour of its own. *)
Definition bus_undefined : Prop :=
  exists sz a v b, snd (bus_load sz a b) = Undefined \/ snd (bus_store sz a v b) = Undefined.

(** An entry that is not a pointer ends the walk. *)
Lemma walk_leaf_ends (op : mmu_op) (va level shift a pte : Z) (b : B) :
  pte_pointer pte = false -> exists r, walk_leaf p m op va level shift a pte b = Some r.
Proof using Type.
  intros Hp0. unfold walk_leaf. destruct (pte_reserved pte) eqn:Er; [eauto |].
  rewrite pte_pointer_spec in Hp0. rewrite pte_reserved_spec in Er.
  destruct (Z.eqb_spec (pte_flags pte .& (pte_flag_R .| pte_flag_X)) 0) as [E |].
  - assert (H1 := f_equal (fun z => Z.testbit z 1) E). assert (H3 := f_equal (fun z => Z.testbit z 3) E).
    cbv beta in H1, H3. rewrite Z.land_spec, pte_flags_bit, Z.bits_0 in H1, H3 by lia.
    change (Z.testbit (pte_flag_R .| pte_flag_X) 1) with true in H1.
    change (Z.testbit (pte_flag_R .| pte_flag_X) 3) with true in H3. rewrite andb_true_r in H1, H3.
    rewrite H1, H3 in *. destruct (Z.testbit pte 2), (Z.testbit pte 0); discriminate.
  - repeat case_match; eauto.
Qed.

(** It does so without undefined behaviour at a level of the table, and always
    with it below: the shift wraps. *)
Lemma walk_leaf_defined (op : mmu_op) (va l a pte : Z) (b : B) :
  0 <= l < levels m -> walk_leaf p m op va l (level_shift p m l) a pte b = Some WUb -> bus_undefined.
Proof using Hp Hm Hfit.
  intros Hl. unfold walk_leaf, page_translate_offset. destruct (level_shift_small l Hl) as [Hsh Hsw].
  destruct pte_size_ok as (_ & Hb & Hlv & _).
  assert (Hn : 0 <= ptm_bits m * l) by (apply Z.mul_nonneg_nonneg; lia).
  assert (Hn2 : ptm_bits m * l <= 30) by nia.
  assert (H64 : 64 < 2 ^ 64) by reflexivity.
  assert (Hup : level_shift p m l -[64] page_shift = ptm_bits m * l).
  { rewrite Hsh. unfold page_shift. rewrite uwrap_small; [lia |]. split; lia. }
  rewrite Hup, (proj2 (Z.leb_gt 32 _)), (proj2 (Z.leb_gt 64 _)) by lia.
  destruct (pte_reserved pte); [discriminate |]. destruct (_ =? 0); [discriminate |].
  destruct (negb _); [discriminate |]. destruct (negb _); [| discriminate].
  destruct (bus_store _ _ _ b) as [b' [| | |]] eqn:E; try discriminate.
  intros _. exists (pte_size m), a, (pte .| ad_flags op), b. right. rewrite E. reflexivity.
Qed.

Lemma walk_leaf_below (op : mmu_op) (va a pte : Z) (b : B) (r : walked) :
  walk_leaf p m op va (uwrap w (-1)) (level_shift p m (uwrap w (-1))) a pte b = Some r ->
  if pte_reserved pte then r = WFault b else r = WUb.
Proof using Hp Hm.
  clear Hfit. unfold walk_leaf. destruct (pte_reserved pte); [congruence |]. destruct (_ =? 0); [discriminate |].
  assert ((32 <=? (level_shift p m (uwrap w (-1)) -[64] page_shift)) = true) as ->
    by (destruct Hp as [-> | ->], Hm as [-> | [-> | ->]]; reflexivity).
  congruence.
Qed.

Lemma walk_pointers (op : mmu_op) (va : Z) : forall k base b n, Z.of_nat k <= levels m ->
  match pointers k va (uwrap w (Z.of_nat k - 1)) base b with
  | None => exists r, walk p (k + n) m op va (uwrap w (Z.of_nat k - 1)) base b = Some r /\ (r = WUb -> bus_undefined)
  | Some (base', b') =>
      walk p (k + n) m op va (uwrap w (Z.of_nat k - 1)) base b = walk p n m op va (uwrap w (-1)) base' b'
  end.
Proof using Hp Hm Hfit.
  induction k as [| k IH]; intros base b n Hk; [reflexivity |].
  assert (Ek : uwrap w (Z.of_nat (S k) - 1) = Z.of_nat k).
  { replace (Z.of_nat (S k) - 1) with (Z.of_nat k) by lia. apply uwrap_small. split; [lia |].
    destruct pte_size_ok as (_ & _ & ? & _), w_cases as [-> | ->]; lia. }
  rewrite Ek. change (S k + n)%nat with (S (k + n)). cbn [pointers walk]. fold (entry_addr va (Z.of_nat k) base).
  destruct (level_shift_small (Z.of_nat k) ltac:(lia)) as [Hsh Hsw].
  rewrite (proj2 (Z.leb_gt _ _)) by (rewrite Hsh; exact Hsw).
  destruct (bus_load (pte_size m) (entry_addr va (Z.of_nat k) base) b) as [b' [pte | | c |]] eqn:E;
    try (eexists; split; [reflexivity | discriminate]).
  - destruct (pte_pointer pte) eqn:Ep; [apply IH; lia |].
    destruct (walk_leaf_ends op va (Z.of_nat k) (level_shift p m (Z.of_nat k)) (entry_addr va (Z.of_nat k) base) pte b' Ep)
      as [r Hr].
    rewrite Hr. exists r. split; [reflexivity |]. intros ->. eapply walk_leaf_defined, Hr. lia.
  - eexists. split; [reflexivity |]. intros _. exists (pte_size m), (entry_addr va (Z.of_nat k) base), 0, b.
    left. rewrite E. reflexivity.
Qed.

(** Below the last table: one more entry, and no translation. *)
Lemma walk_beyond (op : mmu_op) (va base : Z) (b : B) :
  exists r, walk p 2 m op va (uwrap w (-1)) base b = Some r
    /\ match bus_load (pte_size m) (entry_addr va (uwrap w (-1)) base) b with
       | (b', Done pte) => r = if negb (pte_pointer pte) && pte_reserved pte then WFault b' else WUb
       | (b', BusError) => r = WFault b'
       | (b', Raised c) => r = WRaised b' c
       | (_, Undefined) => r = WUb
       end.
Proof using Hp Hm.
  clear Hfit. cbn [walk]. fold (entry_addr va (uwrap w (-1)) base).
  assert ((w <=? level_shift p m (uwrap w (-1))) = false) as ->
    by (destruct Hp as [-> | ->], Hm as [-> | [-> | ->]]; reflexivity).
  destruct (bus_load _ _ b) as [b' [pte | | c |]]; eauto.
  destruct (pte_pointer pte) eqn:Ep; cbn [negb andb].
  - assert ((w <=? level_shift p m (uwrap w (-1) -[w] 1)) = true) as ->
      by (destruct Hp as [-> | ->], Hm as [-> | [-> | ->]]; reflexivity).
    eauto.
  - destruct (walk_leaf_ends op va (uwrap w (-1)) (level_shift p m (uwrap w (-1)))
      (entry_addr va (uwrap w (-1)) base) pte b' Ep) as [r Hr].
    rewrite Hr. exists r. split; [reflexivity |]. apply walk_leaf_below in Hr. destruct (pte_reserved pte); exact Hr.
Qed.

Lemma walk_refines_aux (op : mmu_op) (va : Z) (b : B) :
  bus_ok b -> forall k base n, (0 < k)%nat -> Z.of_nat k <= levels m -> table_ok b va k base ->
  match ref_walk m (bus_view b) va k base with
  | ArchLeaf a pte l => exists r, walk p (k + n) m op va (Z.of_nat k - 1) base b = Some r /\ leaf_result op va a pte l b r
  | ArchDenied => walk p (k + n) m op va (Z.of_nat k - 1) base b = Some (WFault b)
  | ArchUnmapped pte l =>
      0 <= l < levels m
      /\ walk p (k + n) m op va (Z.of_nat k - 1) base b
         = walk p (Z.to_nat l + n) m op va (l -[w] 1) (next_base p m pte) b
  end.
Proof using Hp Hm Hfit.
  intros Hb. induction k as [| l IH]; intros base n Hk Hle Hok; [lia |].
  replace (Z.of_nat (S l) - 1) with (Z.of_nat l) by lia. change (S l + n)%nat with (S (l + n)).
  cbn [table_ok] in Hok. destruct Hok as (Ha & Hram & Hpte).
  cbn [walk ref_walk]. set (a := base + vpn_at m va (Z.of_nat l) * pte_size m) in *.
  set (pte := mem_read (Z.to_nat (pte_size m)) (bus_view b) a) in *.
  destruct (level_shift_small (Z.of_nat l) ltac:(lia)) as [Hsh Hsw]. destruct pte_size_ok as (Hsz & Hbits & _).
  assert (Hn : 0 <= ptm_bits m * Z.of_nat l) by (apply Z.mul_nonneg_nonneg; lia).
  rewrite (proj2 (Z.leb_gt _ _)) by lia. rewrite vpn_shift, Hsh by lia.
  change ((va / 2 ^ (12 + ptm_bits m * Z.of_nat l)) mod 2 ^ ptm_bits m) with (vpn_at m va (Z.of_nat l)).
  fold a. rewrite (uwrap_small w a Ha), law_bus_load by assumption. fold pte. rewrite <- Hsh.
  destruct (pte_pointer pte) eqn:Eptr; rewrite pte_pointer_spec in Eptr.
  - apply negb_true_iff in Eptr. apply orb_false_iff in Eptr as [E12 E3]. apply orb_false_iff in E12 as [E1 E2].
    rewrite E1, E2, E3. cbn [negb andb].
    destruct (Z.testbit pte 0 && negb (l =? 0)%nat) eqn:E0.
    + apply andb_prop in E0 as [_ El]. apply negb_true_iff, Nat.eqb_neq in El.
      destruct Hpte as [Hnb Hok]. rewrite Hnb, (uwrap_small w (Z.of_nat l - 1)).
      * apply (IH _ n); [lia | lia | exact Hok].
      * destruct pte_size_ok as (_ & _ & ? & _). split; [lia | destruct w_cases as [-> | ->]; lia].
    + rewrite Nat2Z.id. split; [lia | reflexivity].
  - apply negb_false_iff in Eptr. pose proof (pte_reserved_spec pte) as Eres.
    assert (negb (Z.testbit pte 1) && negb (Z.testbit pte 2) && negb (Z.testbit pte 3) = false) as ->
      by (rewrite <- !negb_orb, Eptr; reflexivity).
    destruct (negb (Z.testbit pte 0) || (negb (Z.testbit pte 1) && Z.testbit pte 2)) eqn:Er.
    + unfold walk_leaf. rewrite Eres. reflexivity.
    + assert (Hrx : Z.testbit pte 1 || Z.testbit pte 3 = true).
      { destruct (Z.testbit pte 1), (Z.testbit pte 2), (Z.testbit pte 3), (Z.testbit pte 0);
          try discriminate Er; try discriminate Eptr; reflexivity. }
      destruct (walk_leaf_ok op va (Z.of_nat l) a pte b Hb ltac:(lia) eq_refl Hram Hpte Eres Hrx) as (r & -> & Hr).
      destruct (_ =? 0); [eauto | congruence].
Qed.
End WalkCorrect.

(** C26: On every memory and whatever the devices do, the page-table walk ends
    within [levels] iterations, in a translation, a fault or a device's cause and
    without undefined behaviour of its own, unless it meets a pointer entry in each
    of its [levels] tables.  The loop condition [level >= 0] on an unsigned counter
    never ends it: after that many pointers it goes on, [level] having wrapped, to
    one entry of the page the last one names; it then faults if that entry is
    refused or is not on the bus, raises what a device raises, and in every other
    case shifts by more than the width, which is undefined: no bound holds of what
    the compiled loop does.  (For sv48 on RV32 the first shift is already out of
    range.) *)
Theorem walk_terminates {B : Type} {bus : Bus B} (p : tlb_param) (m : ptm) (op : mmu_op) (va base : Z) (b : B) :
  param_ok p -> ptm_ok m -> ptm_bits m * (levels m - 1) + 12 < UX p ->
  let k := Z.to_nat (levels m) in
  let below := uwrap (UX p) (-1) in
  match pointers p m k va (levels m - 1) base b with
  | None => exists r, walk p k m op va (levels m - 1) base b = Some r /\ (r = WUb -> @bus_undefined B bus)
  | Some (base', b') =>
      exists r, walk p 2 m op va below base' b' = Some r
        /\ walk p (k + 2) m op va (levels m - 1) base b = Some r
        /\ match bus_load (pte_size m) (entry_addr p m va below base') b' with
           | (b2, Done pte) => r = if negb (pte_pointer pte) && pte_reserved pte then WFault b2 else WUb
           | (b2, BusError) => r = WFault b2
           | (b2, Raised c) => r = WRaised b2 c
           | (_, Undefined) => r = WUb
           end
  end.
Proof.
  intros Hp Hm Hfit k below.
  assert (E : levels m - 1 = uwrap (UX p) (Z.of_nat k - 1))
    by (destruct Hp as [-> | ->], Hm as [-> | [-> | ->]]; reflexivity).
  assert (Hk : Z.of_nat k <= levels m) by (destruct Hm as [-> | [-> | ->]]; unfold k; cbn; lia).
  pose proof (walk_pointers p m Hp Hm Hfit op va k base b 0 Hk) as H0.
  pose proof (walk_pointers p m Hp Hm Hfit op va k base b 2 Hk) as H2.
  rewrite Nat.add_0_r in H0. rewrite E in *. destruct (pointers _ _ _ _ _ _ _) as [[base' b'] |]; [| exact H0].
  destruct (walk_beyond p m Hp Hm op va base' b') as (r & Er & Hr). exists r. rewrite H2. auto.
Qed.

(** [page_translate_addr]'s walk, on the three outcomes of the architecture's. *)
Lemma page_walk_correct {B : Type} {bus : Bus B} {L : BusLaws B} (p : tlb_param) (m : ptm)
    (q : proc) (op : mmu_op) (va : Z) (b : B) :
  param_ok p -> ptm_ok m -> ptm_bits m * (levels m - 1) + 12 < UX p ->
  bus_ok b -> table_ok p m b va (Z.to_nat (levels m)) (walk_base p q) ->
  match ref_walk m (bus_view b) va (Z.to_nat (levels m)) (walk_base p q) with
  | ArchLeaf a pte l => leaf_result m op va a pte l b (walk_page_table p m q op va b)
  | ArchDenied => walk_page_table p m q op va b = WFault b
  | ArchUnmapped pte l =>
      0 <= l < levels m
      /\ walk p (Z.to_nat l + 2) m op va (l -[UX p] 1) (next_base p m pte) b = Some (walk_page_table p m q op va b)
  end.
Proof.
  intros Hp Hm Hfit Hb Hok. unfold walk_page_table.
  assert (Hl : 0 < levels m) by (destruct Hm as [-> | [-> | ->]]; cbn; lia).
  pose proof (walk_refines_aux p m Hp Hm Hfit op va b Hb (Z.to_nat (levels m)) (walk_base p q) 2%nat
              ltac:(lia) ltac:(lia) Hok) as Hr.
  rewrite Z2Nat.id in Hr by lia.
  destruct (ref_walk _ _ _ _ _) as [a pte l | | pte l].
  - destruct Hr as (r & -> & Hr). exact Hr.
  - rewrite Hr. reflexivity.
  - destruct Hr as [Hl' ->]. split; [exact Hl' |].
    destruct (walk_from p m Hp Hm l op va (next_base p m pte) b Hl') as [r Er]. rewrite Er. reflexivity.
Qed.

(** ** The TLB and the dirty flag *)

Section Stale.
  Context {B : Type} {bus : Bus B} (p : tlb_param) (m : ptm) (q : proc).
  Hypothesis Hp : param_ok p.
  Hypothesis Hpd : in_u 32 (proc_pdid q).
  Hypothesis Hsp : in_u (UX p) (sptbr q).

Lemma cur_asid_range : in_u (asid_bits p) (cur_asid p q).
Proof using Hp Hsp.
  unfold cur_asid. rewrite shiftr_div by (destruct Hp as [-> | ->]; cbn; lia).
  unfold in_u in *. destruct Hp as [-> | ->]; cbn [UX asid_bits ppn_bits param_rv32 param_rv64] in *;
    (split; [apply Z.div_pos; lia | apply Z.div_lt_upper_bound; lia]).
Qed.

(** After a translation the data TLB answers for the page with the entry returned. *)
Lemma translated_entry (op : mmu_op) (va pa : Z) (s s1 : soft B) (e : tlb_entry) :
  tlb_wf tlb_shift (op_tlb op s) -> in_u (UX p) va ->
  page_translate_addr p m q op va s = Fine s1 (pa, Some e) ->
  tlb_wf tlb_shift (op_tlb op s1) /\ Tlb.lookup tlb_shift (proc_pdid q) (cur_asid p q) va (op_tlb op s1) = Some e.
Proof using Hp Hpd Hsp.
  intros Ht Hva. unfold page_translate_addr.
  assert (Hmiss : translate_miss p m q op va s = Fine s1 (pa, Some e) ->
    tlb_wf tlb_shift (op_tlb op s1)
    /\ Tlb.lookup tlb_shift (proc_pdid q) (cur_asid p q) va (op_tlb op s1) = Some e).
  { unfold translate_miss, translate_walked. destruct (walk_page_table _ _ _ _ _ _) as [b pte level pa' | b | b c |]; try discriminate.
    destruct (pa' =? 0); [discriminate |].
    assert (op_tlb op (with_bus b s) = op_tlb op s) as -> by (destruct op; reflexivity).
    rewrite tlb_insert_ok by (assumption || (unfold tlb_shift; lia)). intros [= <- _ <-].
    assert (Hop : forall t, op_tlb op (with_tlb op t (with_bus b s)) = t) by (intros t; destruct op; reflexivity).
    rewrite Hop. split; [unfold tlb_wf; rewrite length_insert; exact Ht |].
    rewrite (lookup_insert_spec p);
      [| assumption | unfold tlb_shift; lia | exact Ht | split; [exact Hpd | split; [apply cur_asid_range | exact Hva]]].
    rewrite !Z.eqb_refl. reflexivity. }
  destruct (Tlb.lookup tlb_shift (proc_pdid q) (cur_asid p q) va (op_tlb op s)) as [e0 |] eqn:El; [| exact Hmiss].
  destruct (negb _); [| exact Hmiss].
  destruct (page_translate_offset _ _ _ _ _); [| discriminate]. intros [= <- _ <-]. auto.
Qed.
End Stale.

(** An entry whose flags are up to date, or none: the translation walks. *)
Definition walks (p : tlb_param) (q : proc) (op : mmu_op) (va : Z) (t : tlb) : Prop :=
  match Tlb.lookup tlb_shift (proc_pdid q) (cur_asid p q) va t with
  | Some e => pteb e .& ad_flags op = ad_flags op
  | None => True
  end.

(** The translation is the walk's. *)
Lemma page_translate_walks {B : Type} {bus : Bus B} (p : tlb_param) (m : ptm) (q : proc) (op : mmu_op) (va : Z) (s : soft B) :
  walks p q op va (op_tlb op s) ->
  page_translate_addr p m q op va s = translate_walked p m q op va s (walk_page_table p m q op va (smem s)).
Proof.
  intros Hw. unfold walks in Hw. unfold page_translate_addr.
  destruct (Tlb.lookup _ _ _ _ _) as [e |]; [| reflexivity]. rewrite Hw, Z.eqb_refl. reflexivity.
Qed.

(** What a leaf makes of it. *)
Lemma translate_leaf {B : Type} {bus : Bus B} {L : BusLaws B} (p : tlb_param) (m : ptm)
    (q : proc) (op : mmu_op) (va a pte l : Z) (s : soft B) (r : walked) :
  param_ok p -> tlb_wf tlb_shift (op_tlb op s) -> leaf_result m op va a pte l (smem s) r -> ref_pa m pte va l <> 0 ->
  exists s', translate_walked p m q op va s r
    = Fine s' (ref_pa m pte va l,
        Some (entry_of p (proc_pdid q) (cur_asid p q) (tlb_vpn va) l (pte_flags (pte .| ad_flags op))
                (pte_ppn m (pte .| ad_flags op))))
    /\ bus_ok (smem s')
    /\ forall x, bus_view (smem s') x = mem_write (pte_size m) (bus_view (smem s)) a (pte .| ad_flags op) x.
Proof.
  intros Hp Ht (b' & -> & Hb' & Hv) Hz. unfold translate_walked. rewrite (proj2 (Z.eqb_neq _ _) Hz).
  assert (op_tlb op (with_bus b' s) = op_tlb op s) as -> by (destruct op; reflexivity).
  rewrite tlb_insert_ok by (assumption || (unfold tlb_shift; lia)).
  eexists. split; [reflexivity |]. destruct op; cbn [with_tlb smem with_bus]; auto.
Qed.

(** C24: Unless a stale entry is cached, translating through page tables in memory
    gives the physical address the architecture defines (superpages included; other
    than zero), caches the leaf for the page, and changes memory only in the
    accessed flag (and the dirty flag for a store) of the leaf.  Where the
    architecture faults at an entry with a permission, it raises the access fault of
    the access and changes nothing.  Where the architecture faults at an entry with
    none, an invalid one or a pointer in the last table, it does not fault there: it
    goes on to the page the entry names, at the level below, and comes to what the
    walk comes to from there: a fault only if the entry it finds there is refused,
    as when that page is not on the bus. *)
Theorem page_translate_correct {B : Type} {bus : Bus B} {L : BusLaws B} (p : tlb_param) (m : ptm)
    (q : proc) (op : mmu_op) (va : Z) (s : soft B) :
  param_ok p -> ptm_ok m -> ptm_bits m * (levels m - 1) + 12 < UX p ->
  bus_ok (smem s) -> tlb_wf tlb_shift (op_tlb op s) -> walks p q op va (op_tlb op s) ->
  table_ok p m (smem s) va (Z.to_nat (levels m)) (walk_base p q) ->
  match ref_walk m (bus_view (smem s)) va (Z.to_nat (levels m)) (walk_base p q) with
  | ArchLeaf a pte l =>
      let pte' := pte .| ad_flags op in
      ref_pa m pte va l <> 0 ->
      exists s', page_translate_addr p m q op va s
        = Fine s' (ref_pa m pte va l,
            Some (entry_of p (proc_pdid q) (cur_asid p q) (tlb_vpn va) l (pte_flags pte') (pte_ppn m pte')))
        /\ bus_ok (smem s') /\ forall x, bus_view (smem s') x = mem_write (pte_size m) (bus_view (smem s)) a pte' x
  | ArchDenied => page_translate_addr p m q op va s = Fault s (walk_cause op) va
  | ArchUnmapped pte l =>
      let base' := next_base p m pte in
      exists r, walk p (Z.to_nat l + 2) m op va (l -[UX p] 1) base' (smem s) = Some r
        /\ page_translate_addr p m q op va s = translate_walked p m q op va s r
        /\ (dead p m (smem s) base' -> page_translate_addr p m q op va s = Fault s (walk_cause op) va)
  end.
Proof.
  intros Hp Hm Hfit Hb Ht Hw Hok. rewrite page_translate_walks by exact Hw.
  pose proof (page_walk_correct p m q op va (smem s) Hp Hm Hfit Hb Hok) as Hwalk.
  destruct (ref_walk _ _ _ _ _) as [a pte l | | pte l].
  - intros pte' Hz. apply translate_leaf; assumption.
  - rewrite Hwalk. destruct s; reflexivity.
  - destruct Hwalk as [Hl Hr]. exists (walk_page_table p m q op va (smem s)). split; [exact Hr | split; [reflexivity |]].
    intros Hd. rewrite Nat.add_succ_r in Hr.
    rewrite (walk_dead p m Hp Hm Hfit) in Hr by (exact Hd || apply (level_below_shift p m Hp Hm Hfit l Hl)).
    injection Hr as <-. destruct s; reflexivity.
Qed.

(** A page that was loaded from while its dirty flag was clear is stored to
    through the cached entry: translating the store neither walks the tables nor
    touches memory, so the dirty flag stays clear. *)
Theorem store_after_load_leaves_clean {B : Type} {bus : Bus B} (p : tlb_param) (m : ptm) (q : proc)
    (va va' pa : Z) (s s1 : soft B) (e : tlb_entry) :
  param_ok p -> ptm_ok m -> in_u 32 (proc_pdid q) -> in_u (UX p) (sptbr q) -> in_u (UX p) va ->
  tlb_wf tlb_shift (l1_dtlb s) -> tlb_vpn va' = tlb_vpn va -> 0 <= ptel e <= 3 ->
  page_translate_addr p m q op_load va s = Fine s1 (pa, Some e) ->
  has (pteb e) pte_flag_D = false ->
  exists pa', page_translate_addr p m q op_store va' s1 = Fine s1 (pa', Some e).
Proof.
  intros Hp Hm Hpd Hsp Hva Ht Hv Hl E Hd.
  destruct (translated_entry p m q Hp Hpd Hsp op_load va pa s s1 e Ht Hva E) as [_ Hlk].
  unfold page_translate_addr.
  assert (Tlb.lookup tlb_shift (proc_pdid q) (cur_asid p q) va' (op_tlb op_store s1) = Some e) as ->.
  { rewrite <- Hlk. unfold Tlb.lookup, tlb_index, entry_match. rewrite Hv. reflexivity. }
  assert (Hs : negb ((pteb e .& ad_flags op_store) =? ad_flags op_store) = true).
  { apply negb_true_iff, Z.eqb_neq. intros Ead. apply negb_false_iff, Z.eqb_eq in Hd.
    assert (H7 := f_equal (fun z => Z.testbit z 7) Ead). cbv beta in H7.
    assert (H7' := f_equal (fun z => Z.testbit z 7) Hd). cbv beta in H7'.
    rewrite Z.land_spec in H7, H7'. unfold pte_flag_D in H7'. change (Z.testbit 128 7) with true in H7'.
    change (Z.testbit (ad_flags op_store) 7) with true in H7. rewrite Z.bits_0 in H7'. congruence. }
  rewrite Hs. unfold page_translate_offset.
  assert (level_shift p m (ptel e) < 64) as Hsh.
  { assert (Hc : ptel e = 0 \/ ptel e = 1 \/ ptel e = 2 \/ ptel e = 3) by lia.
    destruct Hp as [-> | ->], Hm as [-> | [-> | ->]], Hc as [-> | [-> | [-> | ->]]]; reflexivity. }
  rewrite (proj2 (Z.leb_gt _ _) Hsh). eauto.
Qed.

(** ** Untranslated accesses meet the contract *)

(** The parcels of an instruction, joined as [inst_fetch] of the soft MMU does and
    as that of [codec.h] does. *)
Definition join_parcels (r0 r1 r2 r3 : Z) : Z * Z :=
  if negb ((r0 .& 0x3) =? 0x3) then (r0, 2)
  else if negb ((r0 .& 0x1c) =? 0x1c) then (r0 .| (r1 <<[64] 16), 4)
  else if (r0 .& 0x3f) =? 0x1f then ((r0 .| (r1 <<[64] 16)) .| (r2 <<[64] 32), 6)
  else if (r0 .& 0x7f) =? 0x3f then (((r0 .| (r1 <<[64] 16)) .| (r2 <<[64] 32)) .| (r3 <<[64] 48), 8)
  else (0, 0).

Lemma shift_parcel (v k : Z) : in_u 16 v -> 0 <= k <= 48 -> v <<[64] k = Z.shiftl v k.
Proof.
  intros [H1 H2] Hk. apply uwrap_small. rewrite shiftl_mul by lia. pose proof (pow2_pos k ltac:(lia)).
  assert (2 ^ k <= 2 ^ 48) by (apply Z.pow_le_mono_r; lia). change (2 ^ 16) with 65536 in H2.
  split; [lia |]. change (2 ^ 64) with (65536 * 2 ^ 48). nia.
Qed.

Lemma inst_fetch_parcels (M : memory) (pc : Z) :
  bytes M -> inst_fetch (mem_read 2 M) (mem_read 4 M) pc
  = join_parcels (mem_read 2 M pc) (mem_read 2 M (pc + 2)) (mem_read 2 M (pc + 4)) (mem_read 2 M (pc + 6)).
Proof.
  intros HM. unfold inst_fetch, join_parcels.
  assert (Hr : forall a, in_u 16 (mem_read 2 M a)) by (intros a; apply (mem_read_range 2 M a HM)).
  destruct (mem_read_4 M pc HM) as (E4 & R4 & _). destruct (mem_read_4 M (pc + 4) HM) as (E8 & R8 & _).
  replace (pc + 4 + 2) with (pc + 6) in E8 by lia.
  rewrite (uwrap_small 32 _ R4), (uwrap_small 32 _ R8), (uwrap_small 16 _ (Hr (pc + 4))).
  assert (Hlow : forall k, 0 <= k < 2 ^ 16 -> mem_read 4 M pc .& k = mem_read 2 M pc .& k).
  { intros k Hk. rewrite (land_mod _ k 16), E4 by (assumption || lia). f_equal.
    change 65536 with (2 ^ 16). rewrite Z.mul_comm, Z_mod_plus_full. apply Z.mod_small, Hr. }
  assert (E : forall a, mem_read 2 M a .| (mem_read 2 M (a + 2) <<[64] 16) = mem_read 4 M a).
  { intros a. rewrite shift_parcel, (lor_concat 16) by (apply Hr || lia).
    destruct (mem_read_4 M a HM) as (-> & _). change (2 ^ 16) with 65536. lia. }
  rewrite !Hlow by lia.
  assert (E16 : mem_read 2 M pc .& 0xffff = mem_read 2 M pc).
  { change 0xffff with (2 ^ 16 - 1). rewrite uwrap_land by lia. apply uwrap_small, Hr. }
  rewrite E16, E. rewrite <- (E (pc + 4)). replace (pc + 4 + 2) with (pc + 6) by lia.
  assert (E48 : (mem_read 2 M (pc + 4) .| (mem_read 2 M (pc + 6) <<[64] 16)) <<[64] 32
                = (mem_read 2 M (pc + 4) <<[64] 32) .| (mem_read 2 M (pc + 6) <<[64] 48)).
  { rewrite (shift_parcel (mem_read 2 M (pc + 6)) 16) by (apply Hr || lia). rewrite Z.shiftl_lor, Z.shiftl_shiftl by lia. change (16 + 32) with 48.
    rewrite <- (shift_parcel (mem_read 2 M (pc + 4)) 32), <- (shift_parcel (mem_read 2 M (pc + 6)) 48)
      by (apply Hr || lia).
    rewrite !uwrap_idemp. apply uwrap_small. apply lor_range; [lia | apply uwrap_range; lia ..]. }
  rewrite E48, Z.lor_assoc. reflexivity.
Qed.

(** No translation: machine mode without [mprv], or [mbare]. *)
Definition untranslated (q : proc) : Prop :=
  forall op, (rv_mode_M <=? effective_mode q op) || (vm (mstatus q) =? rv_vm_mbare) = true.

Section Untranslated.
  Context {B : Type} {bus : Bus B} {L : BusLaws B} (p : tlb_param) (q : proc).
  Hypothesis Hp : param_ok p.
  Hypothesis Hq : untranslated q.
  Local Abbreviation w := (UX p).

Definition soft_ok (s : soft B) : Prop := bus_ok (smem s).
Definition soft_view (s : soft B) : memory := bus_view (smem s).
Definition soft_addr (sz va : Z) : Prop :=
  bus_ram sz va /\ misaligned sz va = false /\ 0 < va < 2 ^ w.
Definition soft_fetch_ok (pc : Z) : Prop :=
  misaligned 2 pc = false /\ 0 < pc /\ pc + 8 <= 2 ^ w
  /\ bus_ram 2 pc /\ bus_ram 2 (pc + 2) /\ bus_ram 2 (pc + 4) /\ bus_ram 2 (pc + 6).

Lemma translate_bare (op : mmu_op) (va : Z) (s : soft B) : translate_addr p q op va s = Fine s (va, None).
Proof using Hq.
  unfold translate_addr. specialize (Hq op). apply orb_prop in Hq as [-> | ->]; [reflexivity |].
  destruct (rv_mode_M <=? effective_mode q op); reflexivity.
Qed.

Lemma with_pa_bare {A} (op : mmu_op) (va : Z) (s : soft B) (zero : soft B -> outcome (soft B) A) k :
  0 < va -> with_pa p q op va s zero k = k s va None.
Proof using Hq.
  intros Hva. unfold with_pa. rewrite translate_bare. rewrite (proj2 (Z.eqb_neq va 0)) by lia. reflexivity.
Qed.

Lemma mem_load_ram {A} (cause va sz mpa : Z) (s : soft B) (k : soft B -> Z -> outcome (soft B) A) :
  soft_ok s -> access_size sz -> bus_ram sz mpa -> 0 <= mpa < 2 ^ w ->
  mem_load p false cause va sz mpa s k = k s (mem_read (Z.to_nat sz) (soft_view s) mpa).
Proof using Type.
  intros Hs Hsz Hram Hr. unfold mem_load. rewrite (uwrap_small w mpa Hr), law_bus_load by assumption.
  destruct s; reflexivity.
Qed.

Lemma mem_store_ram {A} (cause va sz mpa val : Z) (s : soft B) (k : soft B -> outcome (soft B) A) :
  soft_ok s -> access_size sz -> bus_ram sz mpa -> 0 <= mpa < 2 ^ w ->
  exists s', mem_store p false cause va sz mpa val s k = k s' /\ soft_ok s'
    /\ forall b, soft_view s' b = mem_write sz (soft_view s) mpa val b.
Proof using Type.
  intros Hs Hsz Hram Hr. unfold mem_store. rewrite (uwrap_small w mpa Hr).
  destruct (law_bus_store (smem s) sz mpa val Hs Hsz Hram) as (b' & -> & Hb' & Hv).
  exists (with_bus b' s). auto.
Qed.

Lemma soft_fetch_bare (s : soft B) (pc inst len : Z) :
  soft_ok s -> soft_fetch_ok pc ->
  inst_fetch (mem_read 2 (soft_view s)) (mem_read 4 (soft_view s)) pc = (inst, len) -> len <> 0 ->
  soft_fetch p q pc s = Fine s (inst, len).
Proof using Hp Hq.
  intros Hs (Hal & Hpos & Hend & R0 & R2 & R4 & R6) E Hlen.
  rewrite inst_fetch_parcels in E by (apply law_bus_bytes, Hs).
  assert (Hw64 : 2 ^ w <= 2 ^ 64) by (apply Z.pow_le_mono_r; destruct Hp as [-> | ->]; cbn; lia).
  assert (H2 : access_size 2) by (unfold access_size; lia).
  unfold soft_fetch. rewrite Hal, with_pa_bare by lia. cbn [fetch_access_fault].
  assert (Hld : forall a k, bus_ram 2 a -> 0 <= a < 2 ^ w ->
            mem_load p false rv_cause_fault_fetch pc 2 a s k = k s (mem_read 2 (soft_view s) a))
    by (intros a k Ha Hr; exact (mem_load_ram (A := Z * Z) _ _ 2 a s k Hs H2 Ha Hr)).
  rewrite Hld by (assumption || lia). unfold join_parcels in E.
  destruct (negb (_ =? 0x3)); [congruence |].
  rewrite (uwrap_small 64 (pc + 2)), (uwrap_small 64 (pc + 4)), (uwrap_small 64 (pc + 6)) by (split; lia).
  destruct (negb (_ =? 0x1c)); [rewrite Hld by (assumption || lia); congruence |].
  destruct (_ =? 0x1f); [rewrite !Hld by (assumption || lia); congruence |].
  destruct (_ =? 0x3f); [rewrite !Hld by (assumption || lia); congruence |].
  congruence.
Qed.

Definition soft_laws : @MmuLaws (soft B) (mmu_soft p q).
Proof using Hp Hq L.
  refine (@Build_MmuLaws _ (mmu_soft p q) soft_view soft_ok soft_addr soft_fetch_ok
            (fun sz => (sz = 4 \/ sz = 8) /\ 8 * sz <= w) _ _ _ _ _).
  - intros s Hs. apply law_bus_bytes, Hs.
  - intros s pc inst len. apply soft_fetch_bare.
  - intros s sz va Hs Hsz (Hram & Hal & Hva). cbn [mmu_load mmu_soft]. unfold soft_load.
    rewrite Hal, with_pa_bare by lia. cbn [load_access_fault]. rewrite mem_load_ram by (assumption || lia). eauto.
  - intros s sz va data Hs Hsz (Hram & Hal & Hva). cbn [mmu_store mmu_soft]. unfold soft_store.
    rewrite Hal, with_pa_bare by lia. cbn [store_access_fault].
    destruct (mem_store_ram rv_cause_fault_store va sz va data s (fun s => Fine s tt) Hs Hsz Hram ltac:(lia))
      as (s' & -> & Hs' & Hv). exists s'. auto.
  - intros s a_op sz va val2 Hs [Hsz4 Hszw] (Hram & Hal & Hva). cbn [mmu_amo mmu_soft]. unfold soft_amo.
    assert (Hsz : access_size sz) by (unfold access_size; lia).
    rewrite Hal, with_pa_bare by lia. cbn [load_access_fault store_access_fault].
    rewrite mem_load_ram by (assumption || lia). set (v1 := mem_read _ _ _). cbv zeta.
    match goal with |- context [mem_store p false ?c va sz va ?v s ?k] =>
      destruct (mem_store_ram c va sz va v s k Hs Hsz Hram ltac:(lia)) as (s' & -> & Hs' & Hv) end.
    exists s'. split; [reflexivity | split; [exact Hs' |]]. intros b. rewrite Hv.
    rewrite <- mem_write_uwrap. unfold amo_value. rewrite <- (swrap_uwrap (8 * sz) val2), amo_fn_narrow;
      [reflexivity | lia | | apply uwrap_range; lia].
    pose proof (mem_read_range (Z.to_nat sz) (soft_view s) va (law_bus_bytes _ Hs)) as Hr.
    replace (8 * Z.of_nat (Z.to_nat sz)) with (8 * sz) in Hr by lia. exact Hr.
Defined.
End Untranslated.

(** ** Protection *)

Section Protection.
  Context {B : Type} {bus : Bus B} (p : tlb_param).
  Local Abbreviation w := (UX p).

(** Translation is on. *)
Definition paged (q : proc) (op : mmu_op) : Prop :=
  effective_mode q op < rv_mode_M /\ vm (mstatus q) <> rv_vm_mbare.

(** A paged translation that returns an address has an entry. *)
Lemma translate_entry (q : proc) (op : mmu_op) (va mpa : Z) (s s1 : soft B) (ent : option tlb_entry) :
  paged q op -> translate_addr p q op va s = Fine s1 (mpa, ent) -> mpa <> 0 -> exists e, ent = Some e.
Proof using Type.
  intros [Hm Hv] E Hz. unfold translate_addr in E. rewrite (proj2 (Z.leb_gt _ _) Hm) in E.
  rewrite (proj2 (Z.eqb_neq _ _) Hv) in E.
  assert (Hpt : forall m, page_translate_addr p m q op va s = Fine s1 (mpa, ent) -> exists e, ent = Some e).
  { intros m. unfold page_translate_addr.
    assert (Hmiss : translate_miss p m q op va s = Fine s1 (mpa, ent) -> exists e, ent = Some e).
    { unfold translate_miss, translate_walked. destruct (walk_page_table _ _ _ _ _ _); try discriminate.
      destruct (Z.eqb_spec pa 0); [intros [= _ <- _]; contradiction |].
      destruct (Tlb.insert _ _ _ _ _ _ _ _ _) as [[t e] |]; [| discriminate]. intros [= _ _ <-]. eauto. }
    destruct (Tlb.lookup _ _ _ _ _); [| exact Hmiss].
    destruct (negb _); [| exact Hmiss].
    destruct (page_translate_offset _ _ _ _ _); [| discriminate]. intros [= _ _ <-]. eauto. }
  destruct (_ =? rv_vm_sv32); [apply (Hpt _ E) |].
  destruct (_ =? rv_vm_sv39); [apply (Hpt _ E) |].
  destruct (_ =? rv_vm_sv48); [apply (Hpt _ E) | discriminate E].
Qed.

(** An operation that ends well went through [with_pa]. *)
Lemma with_pa_fine {A} (q : proc) (op : mmu_op) (va : Z) (s s' : soft B) zero k (r : A) :
  paged q op -> with_pa p q op va s zero k = Fine s' r ->
  (exists s1 ent, translate_addr p q op va s = Fine s1 (0, ent) /\ zero s1 = Fine s' r)
  \/ exists s1 mpa e, translate_addr p q op va s = Fine s1 (mpa, Some e) /\ k s1 mpa (Some e) = Fine s' r.
Proof using Type.
  intros Hq. unfold with_pa. destruct (translate_addr p q op va s) as [s1 [mpa ent] | |] eqn:E; try discriminate.
  destruct (Z.eqb_spec mpa 0) as [-> | Hz]; [left; eauto |]. intros H. right.
  destruct (translate_entry q op va mpa s s1 ent Hq E Hz) as [e ->]. eauto.
Qed.

Lemma mem_load_fine {A} (denied : bool) (cause va sz mpa : Z) (s s' : soft B) k (r : A) :
  mem_load p denied cause va sz mpa s k = Fine s' r ->
  denied = false /\ exists b v, bus_load sz (uwrap w mpa) (smem s) = (b, Done v) /\ k (with_bus b s) v = Fine s' r.
Proof using Type.
  unfold mem_load. destruct denied; [discriminate |].
  destruct (bus_load _ _ _) as [b [v | | c |]]; try discriminate. eauto.
Qed.

Lemma mem_store_fine {A} (denied : bool) (cause va sz mpa val : Z) (s s' : soft B) k (r : A) :
  mem_store p denied cause va sz mpa val s k = Fine s' r ->
  denied = false /\ exists b, bus_store sz (uwrap w mpa) val (smem s) = (b, Done tt) /\ k (with_bus b s) = Fine s' r.
Proof using Type.
  unfold mem_store. destruct denied; [discriminate |].
  destruct (bus_store _ _ _ _) as [b [[] | | c |]]; try discriminate. eauto.
Qed.

Lemma user_load_check (q : proc) (e : tlb_entry) :
  load_access_fault q rv_mode_U (Some e) = false ->
  has (pteb e) pte_flag_U = true
  /\ (has (pteb e) pte_flag_R = true \/ has (pteb e) pte_flag_X = true /\ mxr (mstatus q) <> 0).
Proof using Type.
  cbn [load_access_fault]. change (rv_mode_U <? rv_mode_U) with false. change (rv_mode_U <? rv_mode_S) with true.
  destruct (has (pteb e) pte_flag_U), (has (pteb e) pte_flag_R), (has (pteb e) pte_flag_X),
    (Z.eqb_spec (mxr (mstatus q)) 0); try discriminate; auto.
Qed.

Lemma user_store_check (q : proc) (e : tlb_entry) :
  store_access_fault q rv_mode_U (Some e) = false ->
  has (pteb e) pte_flag_U = true /\ has (pteb e) pte_flag_W = true.
Proof using Type.
  cbn [store_access_fault]. change (rv_mode_U <? rv_mode_U) with false. change (rv_mode_U <? rv_mode_S) with true.
  destruct (has (pteb e) pte_flag_U), (has (pteb e) pte_flag_W); try discriminate; auto.
Qed.

Lemma user_fetch_check (q : proc) (e : tlb_entry) :
  fetch_access_fault q rv_mode_U (Some e) = false ->
  has (pteb e) pte_flag_U = true /\ has (pteb e) pte_flag_X = true.
Proof using Type.
  cbn [fetch_access_fault]. change (rv_mode_U <? rv_mode_U) with false. change (rv_mode_U <? rv_mode_S) with true.
  destruct (has (pteb e) pte_flag_U), (has (pteb e) pte_flag_X); try discriminate; auto.
Qed.
End Protection.

(** C25: In user mode under translation, no load, store or fetch completes except
    through an entry with the user flag and the permission for it, at the address
    that translation gave, aligned to its size (a store whose physical address is
    zero completes without storing). *)
Theorem user_access_protected {B : Type} {bus : Bus B} (p : tlb_param) (q : proc) (sz va val : Z)
    (s s' : soft B) :
  mode q = rv_mode_U -> vm (mstatus q) <> rv_vm_mbare ->
  (forall v, soft_load p q sz va s = Fine s' v ->
     misaligned sz va = false /\ exists s1 mpa e b,
       translate_addr p q op_load va s = Fine s1 (mpa, Some e)
       /\ has (pteb e) pte_flag_U = true
       /\ (has (pteb e) pte_flag_R = true \/ has (pteb e) pte_flag_X = true /\ mxr (mstatus q) <> 0)
       /\ bus_load sz (uwrap (UX p) mpa) (smem s1) = (b, Done v) /\ s' = with_bus b s1)
  /\ (soft_store p q sz va val s = Fine s' tt ->
     misaligned sz va = false /\
     ((exists ent, translate_addr p q op_store va s = Fine s' (0, ent)) \/ exists s1 mpa e b,
       translate_addr p q op_store va s = Fine s1 (mpa, Some e)
       /\ has (pteb e) pte_flag_U = true /\ has (pteb e) pte_flag_W = true
       /\ bus_store sz (uwrap (UX p) mpa) val (smem s1) = (b, Done tt) /\ s' = with_bus b s1))
  /\ (forall inst len, soft_fetch p q va s = Fine s' (inst, len) ->
     misaligned 2 va = false /\ exists s1 mpa e,
       translate_addr p q op_fetch va s = Fine s1 (mpa, Some e)
       /\ has (pteb e) pte_flag_U = true /\ has (pteb e) pte_flag_X = true).
Proof.
  intros Hq Hv.
  assert (Hpg : forall op, paged q op).
  { intros op. split; [| exact Hv]. unfold effective_mode. rewrite Hq. reflexivity. }
  split; [| split].
  - intros v. unfold soft_load. destruct (misaligned sz va); [discriminate |]. intros H.
    apply with_pa_fine in H as [(s1 & ent & _ & H) | (s1 & mpa & e & Et & H)]; [discriminate H | | apply Hpg].
    rewrite Hq in H. apply mem_load_fine in H as (Hd & b & v' & Eb & [= <- <-]).
    apply user_load_check in Hd as [HU HR]. split; [reflexivity |]. eauto 10.
  - unfold soft_store. destruct (misaligned sz va); [discriminate |]. intros H. split; [reflexivity |].
    apply with_pa_fine in H as [(s1 & ent & Et & [= <-]) | (s1 & mpa & e & Et & H)]; [left; eauto | | apply Hpg].
    right. rewrite Hq in H. apply mem_store_fine in H as (Hd & b & Eb & [= <-]).
    apply user_store_check in Hd as [HU HW]. eauto 10.
  - intros inst len. unfold soft_fetch. destruct (misaligned 2 va); [discriminate |]. intros H.
    split; [reflexivity |].
    apply with_pa_fine in H as [(s1 & ent & _ & H) | (s1 & mpa & e & Et & H)]; [discriminate H | | apply Hpg].
    rewrite Hq in H. apply mem_load_fine in H as (Hd & _).
    apply user_fetch_check in Hd as [HU HX]. eauto 10.
Qed.

(** ** Faults *)

Section Faults.
  Context {B : Type} {bus : Bus B} (p : tlb_param).

(** A cause that a device on the bus raises. *)
Definition device_raised (c : Z) : Prop :=
  exists sz a v b, snd (bus_load sz a b) = Raised c \/ snd (bus_store sz a v b) = Raised c.

Lemma device_load (sz a c : Z) (b b' : B) : bus_load sz a b = (b', Raised c) -> device_raised c.
Proof using Type. intros E. exists sz, a, 0, b. left. rewrite E. reflexivity. Qed.
Lemma device_store (sz a v c : Z) (b b' : B) : bus_store sz a v b = (b', Raised c) -> device_raised c.
Proof using Type. intros E. exists sz, a, v, b. right. rewrite E. reflexivity. Qed.

(** How an access fails: its own cause at its address, or a device's. *)
Definition fails (cause va c bad : Z) : Prop :=
  (c = cause /\ bad = va) \/ (device_raised c /\ bad = 0).

Lemma walk_leaf_raised (m : ptm) (op : mmu_op) (va level shift pte_mpa pte c : Z) (b b' : B) :
  walk_leaf p m op va level shift pte_mpa pte b = Some (WRaised b' c) -> device_raised c.
Proof using Type.
  unfold walk_leaf. repeat case_match; try discriminate; intros [= <- <-]; eauto using device_store.
Qed.

Lemma walk_raised (n : nat) (m : ptm) (op : mmu_op) (va level base c : Z) (b b' : B) :
  walk p n m op va level base b = Some (WRaised b' c) -> device_raised c.
Proof using Type.
  revert level base b. induction n as [| n IH]; intros level base b; cbn [walk]; [discriminate |].
  destruct (_ <=? _); [discriminate |].
  destruct (bus_load _ _ b) as [b1 [pte | | r |]] eqn:E; try discriminate.
  - destruct (pte_pointer pte); [apply IH |].
    destruct (walk_leaf _ _ _ _ _ _ _ _ _) as [r |] eqn:El; [| apply IH].
    intros [= ->]. eapply walk_leaf_raised, El.
  - intros [= <- <-]. eapply device_load, E.
Qed.

Lemma translate_fault (q : proc) (op : mmu_op) (va c bad : Z) (s s1 : soft B) :
  translate_addr p q op va s = Fault s1 c bad -> fails (walk_cause op) va c bad.
Proof using Type.
  assert (Hpt : forall m, page_translate_addr p m q op va s = Fault s1 c bad -> fails (walk_cause op) va c bad).
  { intros m. unfold page_translate_addr.
    assert (Hmiss : translate_miss p m q op va s = Fault s1 c bad -> fails (walk_cause op) va c bad).
    { unfold translate_miss, translate_walked. destruct (walk_page_table _ _ _ _ _ _) eqn:Ew; try discriminate.
      - destruct (_ =? 0); [discriminate |]. destruct (Tlb.insert _ _ _ _ _ _ _ _ _) as [[t e] |]; discriminate.
      - intros [= _ <- <-]. left. auto.
      - intros [= _ <- <-]. right. split; [| reflexivity].
        unfold walk_page_table in Ew. destruct (walk _ _ _ _ _ _ _ _) as [r |] eqn:Er; [subst r | discriminate Ew].
        eapply walk_raised, Er. }
    destruct (Tlb.lookup _ _ _ _ _); [| exact Hmiss].
    destruct (negb _); [| exact Hmiss].
    destruct (page_translate_offset _ _ _ _ _); discriminate. }
  unfold translate_addr.
  repeat match goal with |- (if ?c then _ else _) = _ -> _ => destruct c end;
    try discriminate; apply Hpt.
Qed.

Lemma with_pa_fault {A} (q : proc) (op : mmu_op) (va c bad : Z) (s s' : soft B)
    (zero : soft B -> outcome (soft B) A) k :
  (forall s1, ~ (exists x y z, zero s1 = Fault x y z)) ->
  with_pa p q op va s zero k = Fault s' c bad ->
  fails (walk_cause op) va c bad \/ exists s1 mpa ent, k s1 mpa ent = Fault s' c bad.
Proof using Type.
  intros Hz. unfold with_pa. destruct (translate_addr p q op va s) as [s1 [mpa ent] | s1 c1 b1 |] eqn:E;
    try discriminate.
  - destruct (mpa =? 0); [intros H; exfalso; eapply Hz; eauto | eauto].
  - intros [= <- <- <-]. left. eapply translate_fault, E.
Qed.

Lemma mem_load_fault {A} (denied : bool) (cause va sz mpa c bad : Z) (s s' : soft B) (k : soft B -> Z -> outcome (soft B) A) :
  mem_load p denied cause va sz mpa s k = Fault s' c bad ->
  fails cause va c bad \/ exists s1 v, k s1 v = Fault s' c bad.
Proof using Type.
  unfold mem_load. destruct denied; [intros [= _ <- <-]; left; left; auto |].
  destruct (bus_load _ _ _) as [b [v | | r |]] eqn:E; [eauto | intros [= _ <- <-]; left; left; auto | | discriminate].
  intros [= _ <- <-]. left. right. split; [eapply device_load, E | reflexivity].
Qed.

Lemma mem_store_fault {A} (denied : bool) (cause va sz mpa val c bad : Z) (s s' : soft B) (k : soft B -> outcome (soft B) A) :
  mem_store p denied cause va sz mpa val s k = Fault s' c bad ->
  fails cause va c bad \/ exists s1, k s1 = Fault s' c bad.
Proof using Type.
  unfold mem_store. destruct denied; [intros [= _ <- <-]; left; left; auto |].
  destruct (bus_store _ _ _ _) as [b [[] | | r |]] eqn:E; [eauto | intros [= _ <- <-]; left; left; auto | | discriminate].
  intros [= _ <- <-]. left. right. split; [eapply device_store, E | reflexivity].
Qed.
End Faults.

(** What the architecture permits in the mode of the processor; all, where there
    is no translation. *)
Definition permitted (q : proc) (op : mmu_op) (ent : option tlb_entry) : bool :=
  match ent with
  | None => true
  | Some e =>
      let bit := Z.testbit (pteb e) in
      match op with
      | op_fetch => bit 3 && (if bit 4 then mode q <=? rv_mode_U else rv_mode_S <=? mode q)
      | op_load =>
          (bit 1 || (bit 3 && negb (mxr (mstatus q) =? 0)))
          && (if bit 4 then (mode q <=? rv_mode_U) || (pum (mstatus q) =? 0) else rv_mode_S <=? mode q)
      | op_store =>
          bit 2 && (if bit 4 then (mode q <=? rv_mode_U) || (pum (mstatus q) =? 0) else rv_mode_S <=? mode q)
      end
  end.

Lemma has_bit (f i : Z) : 0 <= i -> has f (2 ^ i) = Z.testbit f i.
Proof.
  intros Hi. unfold has. destruct (Z.eqb_spec (f .& 2 ^ i) 0) as [E | E]; cbn [negb]; symmetry.
  - assert (H := f_equal (fun z => Z.testbit z i) E). cbv beta in H.
    rewrite Z.land_spec, Z.pow2_bits_true, Z.bits_0, andb_true_r in H by exact Hi. exact H.
  - apply not_false_iff_true. intros H. apply E. apply Z.bits_inj'. intros j Hj. rewrite Z.land_spec, Z.bits_0.
    destruct (Z.eq_dec j i) as [-> |]; [rewrite H; reflexivity |].
    rewrite Z.pow2_bits_false by congruence. apply andb_false_r.
Qed.

Lemma checks_permitted (q : proc) (ent : option tlb_entry) :
  fetch_access_fault q (mode q) ent = negb (permitted q op_fetch ent)
  /\ load_access_fault q (mode q) ent = negb (permitted q op_load ent)
  /\ store_access_fault q (mode q) ent = negb (permitted q op_store ent).
Proof.
  destruct ent as [e |]; [| auto]. cbn [fetch_access_fault load_access_fault store_access_fault permitted].
  rewrite !(has_bit _ 1 : _ -> has _ pte_flag_R = _), !(has_bit _ 2 : _ -> has _ pte_flag_W = _),
    !(has_bit _ 3 : _ -> has _ pte_flag_X = _), !(has_bit _ 4 : _ -> has _ pte_flag_U = _) by lia.
  rewrite (Z.leb_antisym rv_mode_U (mode q)), (Z.leb_antisym (mode q) rv_mode_S).
  destruct (Z.testbit (pteb e) 1), (Z.testbit (pteb e) 2), (Z.testbit (pteb e) 3), (Z.testbit (pteb e) 4),
    (rv_mode_U <? mode q), (mode q <? rv_mode_S), (mxr (mstatus q) =? 0), (pum (mstatus q) =? 0); auto.
Qed.

(** Which exceptions an access raises: [perm] decides the permission, [refused]
    says that the bus refuses the access.  A misaligned one raises [cmis]; an
    aligned one raises what its translation raises, then [cfault] without the
    permission or when the bus refuses, and whatever it raises is [cfault] at [va]
    or a device's cause. *)
Definition fault_spec {B : Type} {bus : Bus B} {A : Type} (p : tlb_param) (q : proc) (op : mmu_op) (mis : bool)
    (cmis cfault : Z) (perm : option tlb_entry -> bool) (refused : option tlb_entry -> Z -> B -> B -> Prop)
    (va : Z) (s : soft B) (o : outcome (soft B) A) : Prop :=
  if mis then o = Fault s cmis va
  else
    (forall s1 c bad, translate_addr p q op va s = Fault s1 c bad -> o = Fault s1 c bad)
    /\ (forall s1 mpa ent, translate_addr p q op va s = Fine s1 (mpa, ent) -> mpa <> 0 ->
         (perm ent = false -> o = Fault s1 cfault va)
         /\ (perm ent = true -> forall b, refused ent mpa (smem s1) b -> o = Fault (with_bus b s1) cfault va))
    /\ (forall s1 c bad, o = Fault s1 c bad -> fails cfault va c bad).

(** The bus refuses the first access. *)
Definition load_refused {B : Type} {bus : Bus B} (p : tlb_param) (sz mpa : Z) (b b' : B) : Prop :=
  bus_load sz (uwrap (UX p) mpa) b = (b', BusError).

Ltac faults H :=
  repeat first
    [ discriminate H
    | apply mem_load_fault in H as [H | (? & ? & H)]; [exact H |]
    | apply mem_store_fault in H as [H | (? & H)]; [exact H |]
    | match type of H with (if ?b then _ else _) = _ => destruct b end ];
  try (injection H as _ <- <-; left; split; reflexivity).

(** The three parts of [fault_spec] for an aligned access. *)
Ltac fault_parts q :=
  split; [| split];
  [ intros s1 c bad E; unfold with_pa; rewrite E; reflexivity
  | intros s1 mpa ent E Hz; unfold with_pa; rewrite E; rewrite (proj2 (Z.eqb_neq _ _) Hz);
    destruct (checks_permitted q ent) as (Ef & El & Es); rewrite ?Ef, ?El, ?Es;
    split; [intros ->; reflexivity | intros -> b Hr]
  | intros s1 c bad H; apply with_pa_fault in H as [H | (s2 & mpa & ent & H)];
    [exact H | faults H | intros ? (? & ? & ? & ?); discriminate] ].


(** ** Two divergences *)

(** With MPRV set in machine mode the address is translated as for MPP but
    checked as for machine mode: a load or store through a supervisor page
    completes with MPP = U, although the same access in user mode faults. *)
Theorem mprv_unprotected {B : Type} {bus : Bus B} (p : tlb_param) (q : proc) (sz va mpa v val : Z)
    (s s1 : soft B) (b : B) (e : tlb_entry) :
  mode q = rv_mode_M -> mprv (mstatus q) = 1 -> mpp (mstatus q) = rv_mode_U ->
  misaligned sz va = false -> mpa <> 0 -> has (pteb e) pte_flag_U = false ->
  let u := mkProcRegs rv_mode_U (mstatus q) (sptbr q) (proc_pdid q) in
  (translate_addr p q op_load va s = Fine s1 (mpa, Some e) -> has (pteb e) pte_flag_R = true ->
   bus_load sz (uwrap (UX p) mpa) (smem s1) = (b, Done v) ->
   soft_load p q sz va s = Fine (with_bus b s1) v /\ soft_load p u sz va s = Fault s1 5 va)
  /\ (translate_addr p q op_store va s = Fine s1 (mpa, Some e) -> has (pteb e) pte_flag_W = true ->
   bus_store sz (uwrap (UX p) mpa) val (smem s1) = (b, Done tt) ->
   soft_store p q sz va val s = Fine (with_bus b s1) tt /\ soft_store p u sz va val s = Fault s1 7 va).
Proof.
  intros Hm Hv Hpp Hal Hz HU u.
  assert (Ht : forall op, op <> op_fetch -> translate_addr p u op va s = translate_addr p q op va s).
  { intros op Hop. unfold translate_addr.
    assert (effective_mode u op = effective_mode q op) as ->.
    { unfold effective_mode. cbn [u mode mstatus]. rewrite Hm, Hv, Hpp. destruct op; [contradiction | reflexivity ..]. }
    reflexivity. }
  split; intros Et Hr Eb; unfold soft_load, soft_store, with_pa; rewrite Hal, Ht, Et by discriminate;
    rewrite (proj2 (Z.eqb_neq _ _) Hz); unfold mem_load, mem_store;
    cbn [load_access_fault store_access_fault u mode mstatus]; rewrite HU, Hr, Hm;
    change (rv_mode_U <? rv_mode_S) with true; change (rv_mode_M <? rv_mode_S) with false;
    cbn [negb andb orb]; rewrite Eb; split; reflexivity.
Qed.

(** A four-byte instruction is fetched with the translation of its first half
    alone: the second half comes from the next physical bytes, whatever the next
    virtual page maps to, also when the instruction crosses the page. *)
Theorem fetch_translates_once {B : Type} {bus : Bus B} {L : BusLaws B} (p : tlb_param) (q : proc)
    (pc mpa : Z) (s s1 : soft B) (e : tlb_entry) :
  misaligned 2 pc = false -> translate_addr p q op_fetch pc s = Fine s1 (mpa, Some e) ->
  fetch_access_fault q (mode q) (Some e) = false ->
  bus_ok (smem s1) -> 0 < mpa -> mpa + 2 < 2 ^ UX p -> param_ok p -> bus_ram 2 mpa -> bus_ram 2 (mpa + 2) ->
  let r := mem_read 4 (bus_view (smem s1)) mpa in
  r .& 3 = 3 -> r .& 0x1c <> 0x1c ->
  soft_fetch p q pc s = Fine s1 (r, 4).
Proof.
  intros Hal Et Hx Hb Hpos Hend Hp R0 R2 r H3 H1c.
  destruct (mem_read_4 (bus_view (smem s1)) mpa (law_bus_bytes _ Hb)) as (E4 & Hr4 & Hr).
  pose proof (mem_read_range 2 (bus_view (smem s1)) (mpa + 2) (law_bus_bytes _ Hb)) as Hr'.
  assert (H2 : access_size 2) by (unfold access_size; lia).
  assert (Hw64 : 2 ^ UX p <= 2 ^ 64) by (apply Z.pow_le_mono_r; destruct Hp as [-> | ->]; cbn; lia).
  assert (Hs : with_bus (smem s1) s1 = s1) by (destruct s1; reflexivity).
  assert (Hlow : forall k, 0 <= k < 2 ^ 16 -> r .& k = mem_read 2 (bus_view (smem s1)) mpa .& k).
  { intros k Hk. unfold r. rewrite (land_mod _ k 16), E4 by (assumption || lia). f_equal.
    change 65536 with (2 ^ 16). rewrite Z.mul_comm, Z_mod_plus_full. apply Z.mod_small, Hr. }
  rewrite Hlow in H3, H1c by lia.
  unfold soft_fetch, with_pa. rewrite Hal, Et, (proj2 (Z.eqb_neq mpa 0)) by lia. rewrite Hx.
  unfold mem_load. rewrite (uwrap_small 64 (mpa + 2)) by (split; lia).
  rewrite (uwrap_small _ mpa), law_bus_load by (assumption || (split; lia)). change (Z.to_nat 2) with 2%nat.
  rewrite H3. cbn [negb Z.eqb Pos.eqb]. rewrite (proj2 (Z.eqb_neq _ _) H1c). cbn [negb].
  rewrite Hs, (uwrap_small _ (mpa + 2)), law_bus_load by (assumption || (split; lia)).
  change (Z.to_nat 2) with 2%nat. rewrite Hs, shift_parcel, (lor_concat 16) by (assumption || lia).
  do 2 f_equal. unfold r. rewrite E4. change (2 ^ 16) with 65536. f_equal. lia.
Qed.
