(* ===== verification/SoftExamples.v ===== *)
(** * A concrete full-system memory

    An RV64 machine with one megabyte of memory at [0x80000000], no other segment,
    and an sv39 table whose third root entry is a one-gigabyte user page: the
    theorems on the bus, the TLB and the soft MMU at this machine. *)

From Stdlib Require Import ZArith Lia Bool List.
From stdpp Require Import base numbers list option gmap.
From S2P Require Import Prelude Alu Codec Ckpt Replay Interp Mmu Bus Tlb SoftMmu SoftMmuProofs.

#[local] Open Scope Z_scope.
#[local] Open Scope word_scope.

(** ** The machine *)

Module Machine.
(** No devices. *)
#[export] Instance no_devices : Devices unit := {
  dev_load _ _ _ d := (d, BusError); dev_store _ _ _ _ d := (d, BusError) }.

Definition ram : segment := mkSegment 0x80000000 0x10000 0x100000 0 Mmap.
Definition segs : list segment := [ram].
#[export] Instance ram_bus : Bus (user_memory unit) := user_bus 64.

Lemma segs_ok : segs_wf 64 segs.
Proof.
  split; [| repeat constructor]. constructor; [| constructor].
  unfold seg_wf, ram. cbn. lia.
Qed.
#[export] Instance ram_laws : BusLaws (user_memory unit) := user_laws 64 (or_intror eq_refl) segs segs_ok.

(** A leaf for the gigabyte at [0x80000000] in the table at [0x80001000]: valid,
    readable, writable, executable, user, accessed; not dirty. *)
Definition leaf : Z := Z.lor (Z.shiftl 0x80000 10) 0x5f.
Definition leaf_addr : Z := 0x80001000 + 2 * 8.
Definition host : memory := mem_write 8 (fun _ => 0) (0x10000 + 0x1000 + 2 * 8) leaf.
Definition mem : user_memory unit := mkUserMemory segs host tt.
Definition soft0 : soft (user_memory unit) := soft_new param_rv64 mem.

(** User mode, sv39, the root table in [sptbr]. *)
Definition user : proc := mkProcRegs rv_mode_U (Z.shiftl rv_vm_sv39 24) 0x80001 0.
(** Machine mode. *)
Definition machine_mode : proc := mkProcRegs rv_mode_M 0 0 0.
(** Machine mode with MPRV and MPP = U. *)
Definition mprv_q : proc := mkProcRegs rv_mode_M (Z.lor (Z.shiftl rv_vm_sv39 24) (Z.shiftl 1 17)) 0x80001 0.

Lemma mem_ok : um_ok segs mem.
Proof. split; [reflexivity |]. apply bytes_write. intros a. split; reflexivity || lia. Qed.

(** Spans are decided byte by byte. *)
Definition span_check (sz : nat) (a : Z) : bool :=
  match ram_addr 64 segs a with
  | Some x => forallb (fun i => bool_decide (ram_addr 64 segs (a + Z.of_nat i) = Some (x + Z.of_nat i))) (seq 0 sz)
  | None => false
  end.
Lemma span_check_ok (sz : nat) (a : Z) : span_check sz a = true -> ram_span 64 segs (Z.of_nat sz) a.
Proof.
  unfold span_check. destruct (ram_addr 64 segs a) as [x |]; [| discriminate].
  rewrite forallb_forall. intros H. exists x. intros i Hi.
  specialize (H (Z.to_nat i) ltac:(apply in_seq; lia)). apply bool_decide_eq_true in H.
  rewrite Z2Nat.id in H by lia. exact H.
Qed.
End Machine.
Import Machine.

(** ** The theorems here *)

Lemma user_memory_correct_witness :
  um_load 64 8 leaf_addr mem = (mem, Done leaf)
  /\ um_load 64 8 0x1000 mem = (mem, BusError).
Proof.
  destruct (user_memory_correct (D := unit) 64 segs mem 8 leaf_addr 0 8 leaf_addr 0x1000)
    as (E1 & _ & E2 & _).
  - right. reflexivity.
  - apply segs_ok.
  - apply mem_ok.
  - unfold access_size. lia.
  - apply (span_check_ok 8). vm_compute. reflexivity.
  - unfold access_size. lia.
  - apply (span_check_ok 8). vm_compute. reflexivity.
  - lia.
  - constructor; [cbn; lia | constructor].
  - assert (Hv : mem_read (Z.to_nat 8) (ram_view 64 mem) leaf_addr = leaf) by (vm_compute; reflexivity).
    rewrite Hv in E1. split; [exact E1 | exact E2].
Defined.

Definition ops : list tlb_op :=
  [TInsert 0 1 0x5000 0 0x4f 7; TInsert 0 2 0x6000 0 0x4f 8; TFlushAsid 0 1; TInsert 0 2 0x7000 0 0x4f 9].
Lemma ops_ok : Forall (op_ok param_rv64) ops.
Proof. repeat constructor; unfold op_ok, key_ok, in_u; cbn; lia. Qed.
Lemma tlb_refines_map_witness :
  exists t, tlb_steps param_rv64 7 ops (tlb_new param_rv64 7) = Some t
    /\ (Tlb.lookup 7 0 2 0x7abc t = Some (entry_of param_rv64 0 2 7 0 0x4f 9) ->
        map_steps param_rv64 ops ∅ !! (0, 2, tlb_vpn 0x7abc) = Some (entry_of param_rv64 0 2 7 0 0x4f 9)
        \/ entry_of param_rv64 0 2 7 0 0x4f 9 = entry_default param_rv64).
Proof. apply tlb_refines_map; [right; reflexivity | lia | apply ops_ok]. Defined.

Lemma tlb_lookup_insert_witness :
  exists t' e, Tlb.insert param_rv32 7 0 1 0x5000 0 0x4f 7 (tlb_new param_rv32 7) = Some (t', e)
    /\ tlb_wf 7 t' /\ Tlb.lookup 7 0 1 0x5000 t' = Some e /\ Tlb.lookup 7 0 1 0x85000 t' = None.
Proof.
  destruct (tlb_lookup_insert param_rv32 7 (tlb_new param_rv32 7) 0 1 0x5000 0 0x4f 7 0 1 0x85000)
    as (t' & e & H1 & H2 & H3 & H4).
  - left. reflexivity.
  - lia.
  - apply tlb_new_wf.
  - unfold key_ok, in_u. cbn. lia.
  - exists t', e. rewrite H4. auto.
Defined.

Lemma walk_terminates_witness :
  exists r, walk param_rv64 3 sv39 op_load 0x80002000 2 0x80001000 mem = Some r
    /\ (r = WUb -> bus_undefined (B := user_memory unit)).
Proof.
  pose proof (walk_terminates param_rv64 sv39 op_load 0x80002000 0x80001000 mem
    (or_intror eq_refl) (or_intror (or_introl eq_refl)) eq_refl) as H. cbv zeta in H.
  assert (E : pointers param_rv64 sv39 (Z.to_nat (levels sv39)) 0x80002000 (levels sv39 - 1) 0x80001000 mem = None)
    by (vm_compute; reflexivity).
  rewrite E in H. exact H.
Defined.

Lemma table_ok_here : table_ok param_rv64 sv39 mem 0x80002345 3 0x80001000.
Proof.
  cbn [table_ok]. split; [vm_compute; intuition discriminate |]. split.
  - apply (span_check_ok 8). vm_compute. reflexivity.
  - vm_compute. reflexivity.
Qed.

Lemma tlb_empty (va : Z) (mm : user_memory unit) (q : proc) (op : mmu_op) :
  tlb_wf tlb_shift (op_tlb op (soft_new param_rv64 mm)).
Proof. destruct op; apply tlb_new_wf. Qed.

Lemma page_translate_correct_witness :
  exists s', page_translate_addr param_rv64 sv39 user op_load 0x80002345 soft0
             = Fine s' (0x80002345, Some (entry_of param_rv64 0 0 0x80002 2 0x5f 0x80000))
    /\ bus_ok (smem s').
Proof.
  pose proof (page_translate_correct param_rv64 sv39 user op_load 0x80002345 soft0
    (or_intror eq_refl) (or_intror (or_introl eq_refl)) eq_refl mem_ok (tlb_empty 0 _ user op_load) I table_ok_here) as H.
  change (walk_base param_rv64 user) with 0x80001000 in H.
  assert (E : ref_walk sv39 (bus_view (smem soft0)) 0x80002345 (Z.to_nat (levels sv39)) 0x80001000
              = ArchLeaf leaf_addr leaf 2) by (vm_compute; reflexivity).
  rewrite E in H. destruct (H ltac:(discriminate)) as (s' & E' & Hb & _).
  exists s'. split; [exact E' | exact Hb].
Defined.

(** The load at [0x80002345] in user mode, and what a store there then does. *)
Definition load_result : outcome (soft (user_memory unit)) (Z * option tlb_entry) :=
  page_translate_addr param_rv64 sv39 user op_load 0x80002345 soft0.
Definition state_of {A} (o : outcome (soft (user_memory unit)) A) : soft (user_memory unit) :=
  match o with Fine s _ => s | _ => soft0 end.
Definition leaf_entry : tlb_entry := entry_of param_rv64 0 0 0x80002 2 0x5f 0x80000.

Lemma load_result_eq : load_result = Fine (state_of load_result) (0x80002345, Some leaf_entry).
Proof.
  assert (H : match load_result with Fine _ r => r = (0x80002345, Some leaf_entry) | _ => False end)
    by (vm_compute; reflexivity).
  destruct load_result as [s r | |]; [subst r; reflexivity | contradiction ..].
Qed.

Lemma store_after_load_leaves_clean_witness :
  exists pa', page_translate_addr param_rv64 sv39 user op_store 0x80002999 (state_of load_result)
              = Fine (state_of load_result) (pa', Some leaf_entry).
Proof.
  apply (store_after_load_leaves_clean param_rv64 sv39 user 0x80002345 0x80002999 0x80002345 soft0
           (state_of load_result) leaf_entry);
    [right; reflexivity | right; left; reflexivity | split; reflexivity || discriminate
    | split; reflexivity || discriminate | split; reflexivity || discriminate | apply tlb_new_wf | reflexivity
    | vm_compute; intuition discriminate | apply load_result_eq | reflexivity].
Defined.

(** The whole accesses: the store changes the data and leaves the entry clean. *)
Example store_leaves_clean_run :
  match soft_load param_rv64 user 4 0x80002344 soft0 with
  | Fine s _ =>
      match soft_store param_rv64 user 4 0x80002344 0x12345678 s with
      | Fine s' _ => mem_read 4 (ram_view 64 (smem s')) 0x80002344 = 0x12345678
                     /\ mem_read 8 (ram_view 64 (smem s')) leaf_addr = leaf
      | _ => False
      end
  | _ => False
  end.
Proof. vm_compute. split; reflexivity. Qed.

Lemma user_access_protected_witness :
  exists s' v, soft_load param_rv64 user 4 0x80002344 soft0 = Fine s' v
    /\ exists s1 mpa e, translate_addr param_rv64 user op_load 0x80002344 soft0 = Fine s1 (mpa, Some e)
       /\ has (pteb e) pte_flag_U = true.
Proof.
  assert (E : match soft_load param_rv64 user 4 0x80002344 soft0 with Fine _ _ => True | _ => False end)
    by (vm_compute; exact I).
  destruct (soft_load param_rv64 user 4 0x80002344 soft0) as [s' v | |] eqn:El; [| contradiction ..].
  destruct (user_access_protected param_rv64 user 4 0x80002344 0 soft0 s' eq_refl ltac:(discriminate))
    as (Hl & _).
  destruct (Hl v El) as (_ & s1 & mpa & e & b & Et & HU & _).
  exists s', v. split; [reflexivity |]. exists s1, mpa, e. auto.
Defined.

(** A supervisor page under the root's fourth entry. *)
Definition super_leaf : Z := Z.lor (Z.shiftl 0x80000 10) 0x4f.
Definition mem2 : user_memory unit := mkUserMemory segs (mem_write 8 host (0x10000 + 0x1000 + 3 * 8) super_leaf) tt.
Definition soft2 : soft (user_memory unit) := soft_new param_rv64 mem2.
Definition mprv_load : outcome (soft (user_memory unit)) (Z * option tlb_entry) :=
  translate_addr param_rv64 mprv_q op_load 0xc0002344 soft2.
Definition super_entry : tlb_entry := entry_of param_rv64 0 0 0xc0002 2 0x4f 0x80000.

Lemma mprv_unprotected_witness :
  exists s1 b, soft_load param_rv64 mprv_q 4 0xc0002344 soft2 = Fine (with_bus b s1) 0
    /\ soft_load param_rv64 (mkProcRegs rv_mode_U (mstatus mprv_q) (sptbr mprv_q) (proc_pdid mprv_q)) 4 0xc0002344 soft2
       = Fault s1 5 0xc0002344.
Proof.
  assert (E : match mprv_load with
              | Fine s1 r => r = (0x80002344, Some super_entry) /\ snd (bus_load 4 0x80002344 (smem s1)) = Done 0
              | _ => False
              end) by (vm_compute; split; reflexivity).
  unfold mprv_load in E.
  destruct (translate_addr param_rv64 mprv_q op_load 0xc0002344 soft2) as [s1 r | |] eqn:Et; [| contradiction ..].
  destruct E as [-> Eb]. destruct (bus_load 4 0x80002344 (smem s1)) as [b v] eqn:Ebus.
  cbn [snd] in Eb. subst v. exists s1, b.
  destruct (mprv_unprotected param_rv64 mprv_q 4 0xc0002344 0x80002344 0 0 soft2 s1 b super_entry
              eq_refl eq_refl eq_refl eq_refl ltac:(discriminate) eq_refl) as [H _].
  apply H; [exact Et | reflexivity | exact Ebus].
Defined.


(** An entry that is invalid in every bit but its page number is followed: where
    the architecture faults at the root's fourth entry, the translation goes on to
    the table it names and completes. *)
Definition invalid_entry : Z := Z.shiftl 0x80002 10.
Definition mem4 : user_memory unit :=
  mkUserMemory segs (mem_write 8 (mem_write 8 host (0x10000 + 0x1000 + 3 * 8) invalid_entry) (0x10000 + 0x2000) leaf) tt.
Definition soft4 : soft (user_memory unit) := soft_new param_rv64 mem4.
Definition outcome_value {S A} (o : outcome S A) : option A := match o with Fine _ x => Some x | _ => None end.

Lemma invalid_entry_followed :
  ref_walk sv39 (bus_view mem4) 0xc0002344 3 0x80001000 = ArchUnmapped invalid_entry 2
  /\ outcome_value (soft_load param_rv64 user 4 0xc0002344 soft4) = Some 0.
Proof. split; vm_compute; reflexivity. Qed.

(** A four-byte instruction in the last two bytes of a page. *)
Definition code : memory := mem_write 4 host (0x10000 + 0x2ffe) 0x00500093.
Definition soft3 : soft (user_memory unit) := soft_new param_rv64 (mkUserMemory segs code tt).
Definition fetch_entry : tlb_entry := entry_of param_rv64 0 0 0x80002 2 0x5f 0x80000.

Lemma fetch_translates_once_witness :
  exists s1, soft_fetch param_rv64 user 0x80002ffe soft3 = Fine s1 (0x00500093, 4).
Proof.
  assert (Hb3 : um_ok segs (smem soft3)) by (split; [reflexivity | apply bytes_write, mem_ok]).
  assert (Hok : table_ok param_rv64 sv39 (smem soft3) 0x80002ffe 3 0x80001000).
  { cbn [table_ok]. split; [vm_compute; intuition discriminate |].
    split; [apply (span_check_ok 8); vm_compute; reflexivity | vm_compute; reflexivity]. }
  assert (E : ref_walk sv39 (bus_view (smem soft3)) 0x80002ffe (Z.to_nat (levels sv39)) (walk_base param_rv64 user)
              = ArchLeaf leaf_addr leaf 2) by (vm_compute; reflexivity).
  pose proof (page_walk_correct param_rv64 sv39 user op_fetch 0x80002ffe (smem soft3)
    (or_intror eq_refl) (or_intror (or_introl eq_refl)) eq_refl Hb3 Hok) as H. rewrite E in H.
  destruct (translate_leaf param_rv64 sv39 user op_fetch 0x80002ffe _ _ _ soft3 _
    (or_intror eq_refl) (tlb_empty 0 _ user op_fetch) H ltac:(discriminate)) as (s1 & E1 & Hb1 & Hv1). exists s1.
  rewrite <- page_translate_walks in E1 by exact I.
  assert (Et : translate_addr param_rv64 user op_fetch 0x80002ffe soft3 = Fine s1 (0x80002ffe, Some fetch_entry))
    by exact E1.
  assert (Er : mem_read 4 (bus_view (smem s1)) 0x80002ffe = 0x00500093).
  { rewrite (mem_read_ext 4 _ _ 0x80002ffe (fun b _ => Hv1 b)). vm_compute. reflexivity. }
  pose proof (fetch_translates_once (L := ram_laws) param_rv64 user 0x80002ffe 0x80002ffe soft3 s1 fetch_entry
    eq_refl Et eq_refl Hb1 ltac:(lia) ltac:(cbn; lia) (or_intror eq_refl)
    (span_check_ok 2 0x80002ffe eq_refl) (span_check_ok 2 0x80003000 eq_refl)) as Hf.
  cbv zeta in Hf. rewrite Er in Hf. apply Hf; vm_compute; [reflexivity | discriminate].
Defined.
