(* ===== verification/Priv.v ===== *)
(** * The privileged processor: [emu/processor-priv-1.9.h]

    The machine and supervisor registers, the control-register instructions, trap
    entry and return, the interrupt service routine, and the step loop of the
    full-system emulator around the run loop's body. *)

From Stdlib Require Import ZArith Lia Bool List.
From stdpp Require Import base numbers list option.
From S2P Require Import Prelude Alu Operand Meta Codec Decoder Interp Mmu Runloop ProxySim Bus Tlb SoftMmu.

#[local] Open Scope Z_scope.
#[local] Open Scope word_scope.

(** ** Registers *)

(** The fields of [processor_priv], by name; the unions [mstatus], [mip], [mie] and
    the counter enables by their word [xu.val]. *)
Inductive priv_reg : Type :=
| Rpdid | Rmode | Rresetvec
| Rmisa | Rmvendorid | Rmarchid | Rmimpid | Rmhartid
| Rmstatus | Rmtvec | Rmedeleg | Rmideleg | Rmip | Rmie
| Rmhcounteren | Rmscounteren | Rmucounteren
| Rmscratch | Rmepc | Rmcause | Rmbadaddr
| Rmbase | Rmbound | Rmibase | Rmibound | Rmdbase | Rmdbound
| Rstvec | Rsedeleg | Rsideleg | Rsscratch | Rsepc | Rscause | Rsbadaddr | Rsptbr.

#[export] Instance priv_reg_eq_dec : EqDecision priv_reg.
Proof. solve_decision. Defined.

Definition csrs : Type := priv_reg -> Z.
Definition csr_put (r : priv_reg) (v : Z) (R : csrs) : csrs :=
  fun r' => if decide (r' = r) then v else R r'.

(** Assigning to a bit field keeps the low bits of the value. *)
Definition set_bitfield (off n x v : Z) : Z :=
  Z.ldiff v (Z.shiftl (2 ^ n - 1) off) .| Z.shiftl (uwrap n x) off.

(** The other fields of [status] and of [ip] and [ie]. *)
Definition sie_field (v : Z) : Z := bitfield 1 1 v.
Definition mie_field (v : Z) : Z := bitfield 3 1 v.
Definition spie (v : Z) : Z := bitfield 5 1 v.
Definition mpie (v : Z) : Z := bitfield 7 1 v.
Definition spp (v : Z) : Z := bitfield 8 1 v.

Definition set_sie : Z -> Z -> Z := set_bitfield 1 1.
Definition set_mie : Z -> Z -> Z := set_bitfield 3 1.
Definition set_spie : Z -> Z -> Z := set_bitfield 5 1.
Definition set_mpie : Z -> Z -> Z := set_bitfield 7 1.
Definition set_spp : Z -> Z -> Z := set_bitfield 8 1.
Definition set_mpp : Z -> Z -> Z := set_bitfield 11 2.
Definition set_mprv : Z -> Z -> Z := set_bitfield 17 1.
Definition set_vm : Z -> Z -> Z := set_bitfield 24 4.

(** Positions in [ip] and [ie]: software, timer, external; supervisor, machine. *)
Definition ss_shift : Z := 1.
Definition ms_shift : Z := 3.
Definition st_shift : Z := 5.
Definition mt_shift : Z := 7.
Definition se_shift : Z := 9.
Definition me_shift : Z := 11.

Definition ip_field (shift v : Z) : Z := bitfield shift 1 v.
Definition set_ip (shift x : Z) (R : csrs) : csrs :=
  csr_put Rmip (set_bitfield shift 1 x (R Rmip)) R.

(** What the MMU reads. *)
Definition proc_of (R : csrs) : proc := mkProcRegs (R Rmode) (R Rmstatus) (R Rsptbr) (R Rpdid).

(** [processor_priv()] sets these; the host zeroes nothing else. *)
Definition csrs_init (R : csrs) : csrs :=
  csr_put Rpdid 0 (csr_put Rmode rv_mode_M (csr_put Rresetvec 0x1000 R)).

(** [processor_privileged::reset]: the program counter and the registers. *)
Definition priv_reset (h : hart) (R : csrs) : hart * csrs :=
  let R := csr_put Rmode rv_mode_M R in
  let R := csr_put Rmstatus (set_vm rv_vm_mbare (R Rmstatus)) R in
  let R := csr_put Rmstatus (set_mprv 0 (R Rmstatus)) R in
  let R := csr_put Rmstatus (set_mie 0 (R Rmstatus)) R in
  let R := csr_put Rmcause 0 R in
  (set_pc (R Rresetvec) h, R).

(** ** Traps *)

Section Traps.
  Context (w : Z).

Definition cause_word (cause : Z) (interrupt : bool) : Z :=
  uwrap w (cause .| (if interrupt then Z.shiftl 1 (w - 1) else 0)).

(** [strap] and [mtrap] (without the debugger). *)
Definition strap (cause : Z) (interrupt : bool) (h : hart) (R : csrs) : hart * csrs :=
  let R := csr_put Rsepc (pc h) R in
  let R := csr_put Rscause (cause_word cause interrupt) R in
  let R := csr_put Rmstatus (set_spp (R Rmode) (R Rmstatus)) R in
  let R := csr_put Rmstatus (set_spie (sie_field (R Rmstatus)) (R Rmstatus)) R in
  let R := csr_put Rmstatus (set_sie 0 (R Rmstatus)) R in
  let R := csr_put Rmode rv_mode_S R in
  (set_pc (R Rstvec) h, R).

Definition mtrap (cause : Z) (interrupt : bool) (h : hart) (R : csrs) : hart * csrs :=
  let R := csr_put Rmepc (pc h) R in
  let R := csr_put Rmcause (cause_word cause interrupt) R in
  let R := csr_put Rmstatus (set_mpp (R Rmode) (R Rmstatus)) R in
  let R := csr_put Rmstatus (set_mpie (mie_field (R Rmstatus)) (R Rmstatus)) R in
  let R := csr_put Rmstatus (set_mie 0 (R Rmstatus)) R in
  let R := csr_put Rmode rv_mode_M R in
  (set_pc (R Rmtvec) h, R).

Definition rv_cause_breakpoint : Z := 3.
Definition rv_cause_user_ecall : Z := 8.
Definition rv_cause_supervisor_ecall : Z := 9.
Definition rv_cause_hypervisor_ecall : Z := 10.
Definition rv_cause_machine_ecall : Z := 11.

(** Causes caught as illegal instructions. *)
Definition translate_cause (o : rv_op) (cause mode : Z) : Z :=
  if cause =? rv_cause_illegal_instruction then
    match o with
    | rv_op_ebreak => rv_cause_breakpoint
    | rv_op_ecall =>
        if mode =? 0 then rv_cause_user_ecall
        else if mode =? 1 then rv_cause_supervisor_ecall
        else if mode =? 2 then rv_cause_hypervisor_ecall
        else if mode =? 3 then rv_cause_machine_ecall
        else cause
    | _ => cause
    end
  else cause.

Definition sets_badaddr (cause : Z) : bool :=
  existsb (Z.eqb cause)
    [rv_cause_misaligned_fetch; rv_cause_misaligned_load; rv_cause_misaligned_store;
     rv_cause_fault_fetch; rv_cause_fault_load; rv_cause_fault_store].

Definition internal_cause_reset : Z := 0x1000.

(** [trap]; [None] when an [ebreak] ends the run.  [badaddr] is what [raise] left. *)
Definition trap (o : rv_op) (cause badaddr : Z) (h : hart) (R : csrs) : option (hart * csrs) :=
  if cause =? internal_cause_reset then Some (h, R)
  else
    let cause := translate_cause o cause (R Rmode) in
    if match o with rv_op_ebreak => true | _ => false end then None
    else
      let deleg := uwrap w (swrap 32 (Z.shiftl 1 cause)) in
      Some
        (if negb ((R Rmedeleg .& deleg) =? 0) then
           let R := if sets_badaddr cause then csr_put Rsbadaddr badaddr R else R in
           strap cause false h (set_ip ss_shift 0 (set_ip se_shift 0 (set_ip st_shift 0 R)))
         else
           let R := if sets_badaddr cause then csr_put Rmbadaddr badaddr R else R in
           mtrap cause false h (set_ip ms_shift 0 (set_ip me_shift 0 (set_ip mt_shift 0 R)))).

(** [sret] and [mret]: the offset and the registers; [None] is the illegal instruction. *)
Definition do_sret (pc : Z) (R : csrs) : option (Z * csrs) :=
  if rv_mode_S <=? R Rmode then
    let R := csr_put Rmode (spp (R Rmstatus)) R in
    let R := csr_put Rmstatus (set_spp rv_mode_U (R Rmstatus)) R in
    let R := csr_put Rmstatus (set_sie (spie (R Rmstatus)) (R Rmstatus)) R in
    let R := csr_put Rmstatus (set_spie 0 (R Rmstatus)) R in
    Some (R Rsepc -[w] pc, R)
  else None.

Definition do_mret (pc : Z) (R : csrs) : option (Z * csrs) :=
  if rv_mode_M <=? R Rmode then
    let R := csr_put Rmode (mpp (R Rmstatus)) R in
    let R := csr_put Rmstatus (set_mpp rv_mode_U (R Rmstatus)) R in
    let R := csr_put Rmstatus (set_mie (mpie (R Rmstatus)) (R Rmstatus)) R in
    let R := csr_put Rmstatus (set_mpie 0 (R Rmstatus)) R in
    Some (R Rmepc -[w] pc, R)
  else None.
End Traps.

(** ** Control and status registers *)

Section Csrs.
  Context (w : Z).
  (** [get_time()], by retired instructions. *)
  Context (get_time : Z -> Z).

Definition all_ones : Z := 2 ^ w - 1.
Definition misa_wmask : Z := 2 ^ (w - 2) - 1.
Definition mstatus_wmask : Z := 2 ^ (w - 1) - 1.
Definition sstatus_wmask : Z := 0x5e133.
Definition sstatus_rmask : Z := uwrap w (0x5e133 .| Z.shiftl 1 (w - 1)).
Definition si_mask : Z := 0x333.
Definition tvec_rmask : Z := all_ones.
Definition tvec_wmask : Z := all_ones <<[w] 2.

(** The registers [inst_csr] passes to [set_csr], with the write and the read mask
    as passed: for the trap vectors [tvec_rmask] comes first. *)
Definition csr_field (csr : Z) : option (priv_reg * Z * Z) :=
  let full r := Some (r, all_ones, all_ones) in
  match csr with
  | 0x301 => Some (Rmisa, misa_wmask, all_ones)
  | 0x300 => Some (Rmstatus, mstatus_wmask, all_ones)
  | 0x305 => Some (Rmtvec, tvec_rmask, tvec_wmask)
  | 0x302 => full Rmedeleg
  | 0x303 => full Rmideleg
  | 0x344 => full Rmip
  | 0x304 => full Rmie
  | 0x322 => full Rmhcounteren
  | 0x321 => full Rmscounteren
  | 0x320 => full Rmucounteren
  | 0x340 => full Rmscratch
  | 0x341 => full Rmepc
  | 0x342 => full Rmcause
  | 0x343 => full Rmbadaddr
  | 0x380 => full Rmbase
  | 0x381 => full Rmbound
  | 0x382 => full Rmibase
  | 0x383 => full Rmibound
  | 0x384 => full Rmdbase
  | 0x385 => full Rmdbound
  | 0x100 => Some (Rmstatus, sstatus_wmask, sstatus_rmask)
  | 0x105 => Some (Rstvec, tvec_rmask, tvec_wmask)
  | 0x102 => full Rsedeleg
  | 0x103 => full Rsideleg
  | 0x144 => Some (Rmip, si_mask, si_mask)
  | 0x104 => Some (Rmie, si_mask, si_mask)
  | 0x140 => full Rsscratch
  | 0x141 => full Rsepc
  | 0x142 => full Rscause
  | 0x143 => full Rsbadaddr
  | 0x180 => full Rsptbr
  | _ => None
  end.

(** The registers it only reads. *)
Definition csr_const (csr : Z) : option priv_reg :=
  match csr with
  | 0xf11 => Some Rmvendorid
  | 0xf12 => Some Rmarchid
  | 0xf13 => Some Rmimpid
  | 0xf14 => Some Rmhartid
  | _ => None
  end.

(** [set_csr_hi], on a 64-bit register. *)
Definition set_csr_hi (dec : decode) (mode : Z) (op : csr_op) (csr reg value : Z) (h : hart)
    : option (hart * Z) :=
  let csr_mode := (csr >>> 8) .& 3 in
  let readonly := (csr >>> 12) .& 1 in
  h ← csr_read w dec (if csr_mode <=? mode then swrap 32 (reg >>> 32) else 0) h;
  if negb (readonly =? 0) then Some (h, reg)
  else
    let hi := value <<[64] 32 in
    Some (h,
      match op with
      | csr_rw => hi .| (reg .& 0xffffffff)
      | csr_rs => if negb (value =? 0) then reg .| hi else reg
      | csr_rc => if negb (value =? 0) then reg .& (bnot 64 hi .| 0xffffffff) else reg
      end).

(** [inst_csr] (the host's floating-point environment aside): the offset, the hart,
    the registers and [instret]; [None] is an index out of the register file. *)
Definition priv_csr (dec : decode) (op : csr_op) (csr value pc_offset instret : Z) (h : hart) (R : csrs)
    : option (Z * hart * csrs * Z) :=
  let mode := R Rmode in
  let fcsr_case write_mask read_mask shift :=
    '(h', r) ← set_csr w 32 dec rv_mode_U op csr (fcsr h) value write_mask read_mask shift h;
    Some (pc_offset, set_fcsr r h', R, instret) in
  let done o := h' ← o; Some (pc_offset, h', R, instret) in
  let count o := '(h', n) ← o; Some (pc_offset, h', R, n) in
  match csr with
  | 0x001 => fcsr_case 0x1f 0x1f 0
  | 0x002 => fcsr_case 0x3 0x3 5
  | 0x003 => fcsr_case 0xff 0xff 0
  | 0xc00 => done (get_csr w dec rv_mode_U csr instret h)
  | 0xc01 => let h := set_time (get_time instret) h in done (get_csr w dec rv_mode_U csr (time h) h)
  | 0xc02 => done (get_csr w dec mode csr instret h)
  | 0xc80 => done (get_csr_hi w dec mode csr instret h)
  | 0xc81 => done (get_csr_hi w dec mode csr (time h) h)
  | 0xc82 => done (get_csr_hi w dec mode csr instret h)
  | 0xb00 => count (set_csr w 64 dec rv_mode_U op csr instret value (2 ^ 64 - 1) (2 ^ 64 - 1) 0 h)
  | 0xb02 => count (set_csr w 64 dec mode op csr instret value (2 ^ 64 - 1) (2 ^ 64 - 1) 0 h)
  | 0xb80 => count (set_csr_hi dec mode op csr instret value h)
  | 0xb82 => count (set_csr_hi dec mode op csr instret value h)
  | _ =>
      match csr_const csr, csr_field csr with
      | Some r, _ => done (get_csr w dec mode csr (R r) h)
      | None, Some (r, write_mask, read_mask) =>
          '(h', v) ← set_csr w w dec mode op csr (R r) value write_mask read_mask 0 h;
          Some (pc_offset, h', csr_put r v R, instret)
      | None, None => Some (uwrap w (-1), h, R, instret)
      end
  end.
End Csrs.

(** ** The system *)

(** The registers and the soft MMU with the bus behind it. *)
Record sys (B : Type) : Type := mkSys { sys_regs : csrs; sys_mmu : soft B }.
Arguments mkSys {B}. Arguments sys_regs {B}. Arguments sys_mmu {B}.

(** What the interrupt service routine calls on the devices. *)
Class Interrupts (B : Type) : Type := {
  (** [device_uart->service(); device_gpio->service()] *)
  service : B -> B;
  (** [device_plic->irq_pending()] *)
  irq_pending : B -> bool;
  (** [device_rtc->update_time(time)] *)
  update_time : Z -> B -> B;
  (** [device_timer->timer_pending(hart_id, time)], which claims the timer *)
  timer_pending : Z -> Z -> B -> B * bool;
  (** [device_mipi->ipi_pending(hart_id) || console->has_char()] *)
  ipi_pending : Z -> B -> bool;
  (** whether a device has called [proc.reset()] since it was last asked *)
  take_reset : B -> B * bool }.

Section System.
  Context {B : Type} {bus : Bus B} {I : Interrupts B} (p : tlb_param).
  Local Abbreviation w := (UX p).
  Context (get_time cpu_cycle_clock : Z -> Z) (hart_id : Z).

Definition lift {A} (R : csrs) (o : outcome (soft B) A) : outcome (sys B) A :=
  match o with
  | Fine s a => Fine (mkSys R s) a
  | Fault s c b => Fault (mkSys R s) c b
  | Ub => Ub
  end.

Definition mmu_sys : Mmu (sys B) :=
  {| mmu_fetch pc s := lift (sys_regs s) (soft_fetch p (proc_of (sys_regs s)) pc (sys_mmu s));
     mmu_load sz va s := lift (sys_regs s) (soft_load p (proc_of (sys_regs s)) sz va (sys_mmu s));
     mmu_store sz va v s := lift (sys_regs s) (soft_store p (proc_of (sys_regs s)) sz va v (sys_mmu s));
     mmu_amo o sz va v s := lift (sys_regs s) (soft_amo p (proc_of (sys_regs s)) o sz va v (sys_mmu s)) |}.

(** [inst_priv]; [wait_for_interrupt] only sleeps. *)
Definition sys_inst_priv (dec : decode) (h : hart) (instret pc_offset : Z) (s : sys B)
    : outcome (hart * sys B) (Z * Z) :=
  let R := sys_regs s in
  let illegal := Fine (h, s) (uwrap w (-1), instret) in
  let csr o value :=
    match value with
    | None => Ub
    | Some v =>
        match priv_csr w get_time dec o (imm dec) v pc_offset instret h R with
        | Some (off, h, R, n) => Fine (h, mkSys R (sys_mmu s)) (off, n)
        | None => Ub
        end
    end in
  let reg := uwrap w <$> aget (ireg h) (rs1 dec) in
  let return_from o :=
    match o with
    | Some (off, R) => Fine (h, mkSys R (sys_mmu s)) (off, instret)
    | None => illegal
    end in
  match op dec with
  | rv_op_csrrw => csr csr_rw reg
  | rv_op_csrrs => csr csr_rs reg
  | rv_op_csrrc => csr csr_rc reg
  | rv_op_csrrwi => csr csr_rw (Some (rs1 dec))
  | rv_op_csrrsi => csr csr_rs (Some (rs1 dec))
  | rv_op_csrrci => csr csr_rc (Some (rs1 dec))
  | rv_op_sret => return_from (do_sret w (pc h) R)
  | rv_op_mret => return_from (do_mret w (pc h) R)
  | rv_op_sfence_vm =>
      if rv_mode_S <=? R Rmode
      then Fine (h, mkSys R (soft_flush p (proc_of R) (sys_mmu s))) (pc_offset, instret)
      else illegal
  | rv_op_wfi => if rv_mode_S <=? R Rmode then Fine (h, s) (pc_offset, instret) else illegal
  | rv_op_fence | rv_op_fence_i => Fine (h, s) (pc_offset, instret)
  | _ => illegal
  end.

(** The checkpoint hooks do nothing: [rv-sys] opens no checkpoint file. *)
Definition sys_platform : Platform (sys B) :=
  {| inst_priv := sys_inst_priv; on_fetch _ _ _ _ _ s := Some s; on_execute _ _ s := s |}.

(** [isr]: the interrupt in turn raises its pending bits, and is taken in machine
    mode or else in supervisor mode if enabled; the first taken returns. *)
Definition with_bus_sys (b : B) (s : sys B) : sys B := mkSys (sys_regs s) (with_bus b (sys_mmu s)).

(** One source: its two pending bits, then the trap taken, if any.  The causes
    [rv_intr_*] are the positions of the bits. *)
Definition take (m_shift s_shift : Z) (pending : bool) (h : hart) (R : csrs) : csrs * option (hart * csrs) :=
  let R := set_ip s_shift (b2z pending) (set_ip m_shift (b2z pending) R) in
  (R, if pending then
        if negb (mie_field (R Rmstatus) =? 0) && negb (ip_field m_shift (R Rmie) =? 0)
        then Some (mtrap w m_shift true h R)
        else if negb (sie_field (R Rmstatus) =? 0) && negb (ip_field s_shift (R Rmie) =? 0)
        then Some (strap w s_shift true h R)
        else None
      else None).

Definition isr (h : hart) (s : sys B) : hart * sys B :=
  let s := with_bus_sys (service (smem (sys_mmu s))) s in
  let (R, t) := take me_shift se_shift (irq_pending (smem (sys_mmu s))) h (sys_regs s) in
  match t with
  | Some (h, R) => (h, mkSys R (sys_mmu s))
  | None =>
      let b := update_time (uwrap w (time h)) (smem (sys_mmu s)) in
      let (b, tip) := timer_pending hart_id (time h) b in
      let s := mkSys R (with_bus b (sys_mmu s)) in
      let (R, t) := take mt_shift st_shift tip h (sys_regs s) in
      match t with
      | Some (h, R) => (h, mkSys R (sys_mmu s))
      | None =>
          let (R, t) := take ms_shift ss_shift (ipi_pending hart_id (smem (sys_mmu s))) h R in
          match t with
          | Some (h, R) => (h, mkSys R (sys_mmu s))
          | None => (h, mkSys R (sys_mmu s))
          end
      end
  end.

(** ** The step loop *)

Context (exec_fp : decode -> hart -> Z -> io Z) (fl : flags).
Context (inst_decode : decode -> Z -> decode) (breakpoint : Z).

(** How [step] ends: its count is reached, the command line, power off (a raised
    internal cause, or an [ebreak]), undefined behaviour. *)
Inductive sys_stepped : Type :=
| SContinue (m : machine (sys B))
| SCli (m : machine (sys B))
| SPowerOff (m : machine (sys B))
| SBroken.

Definition internal_cause_cli : Z := 0x1001.
Definition internal_cause_poweroff : Z := 0x1002.
Definition internal_cause_fatal : Z := 0x1003.

(** The trap return path: on the right, the machine the loop goes on with. *)
Definition handle (m : machine (sys B)) (cause badaddr : Z) : sys_stepped + machine (sys B) :=
  if cause =? internal_cause_cli then inl (SCli m)
  else if (cause =? internal_cause_fatal) || (cause =? internal_cause_poweroff) then inl (SPowerOff m)
  else
    match trap w (op (m_dec m)) cause badaddr (m_hart m) (sys_regs (m_mmu m)) with
    | None => inl (SPowerOff m)
    | Some (h, R) =>
        inr (mkMachine h (mkSys R (sys_mmu (m_mmu m))) (m_instret m) (m_cache m) (m_dec m))
    end.

(** A device may reset the processor while an instruction stores to it.  The
    instruction then completes, so its offset is added to the reset vector. *)
Definition settle (m m' : machine (sys B)) : machine (sys B) :=
  let s := m_mmu m' in
  let (b, reset) := take_reset (smem (sys_mmu s)) in
  let mmu := with_bus b (sys_mmu s) in
  if reset then
    let new_offset := pc (m_hart m') -[w] pc (m_hart m) in
    let (h, R) := priv_reset (m_hart m') (sys_regs s) in
    mkMachine (set_pc (pc h +[w] new_offset) h) (mkSys R mmu) (m_instret m') (m_cache m') (m_dec m')
  else mkMachine (m_hart m') (mkSys (sys_regs s) mmu) (m_instret m') (m_cache m') (m_dec m').

Fixpoint sys_loop (fuel : nat) (inststop : Z) (m : machine (sys B)) : option sys_stepped :=
  if m_instret m =? inststop then Some (SContinue m)
  else
    match fuel with
    | O => None
    | Datatypes.S n =>
        match @step1 _ mmu_sys sys_platform exec_fp fl w inst_decode breakpoint m with
        | Next m' => sys_loop n inststop (settle m m')
        | Cli m' => Some (SCli m')
        | Trap m' c b =>
            match handle m' c b with
            | inl e => Some e
            | inr m'' => sys_loop n inststop m''
            end
        | Broken => Some SBroken
        end
    end.

(** [step(count)] *)
Definition sys_step (fuel : nat) (count : Z) (m : machine (sys B)) : option sys_stepped :=
  let inststop := m_instret m +[w] count in
  let (h, s) := isr (set_time (cpu_cycle_clock (m_instret m)) (m_hart m)) (m_mmu m) in
  sys_loop fuel inststop (mkMachine h s (m_instret m) (m_cache m) (m_dec m)).
End System.
