(* ===== verification/PrivProofs.v ===== *)
(** * Correctness of the privileged processor

    Bit fields; trap entry, and return as its inverse; what a control-register
    instruction writes and who may; which interrupt is taken; and when the step
    loop does not end. *)

From Stdlib Require Import ZArith Lia Bool List.
From stdpp Require Import base numbers list option.
From S2P Require Import Prelude Alu Operand Meta Codec Decoder Interp Isa Mmu Runloop ProxySim.
From S2P Require Import Ckpt Replay Bus Tlb SoftMmu SoftMmuProofs SoftExamples Priv.

#[local] Open Scope Z_scope.
#[local] Open Scope word_scope.

(** ** Bit fields *)

Lemma testbit_set_bitfield (off n x v i : Z) : 0 <= off -> 0 <= n -> 0 <= i ->
  Z.testbit (set_bitfield off n x v) i
  = if (off <=? i) && (i <? off + n) then Z.testbit x (i - off) else Z.testbit v i.
Proof.
  intros Ho Hn Hi. unfold set_bitfield. rewrite Z.lor_spec, Z.ldiff_spec, !testbit_shiftl by lia.
  destruct (Z.leb_spec off i); cbn [andb]; [| rewrite andb_true_r, orb_false_r; reflexivity].
  rewrite testbit_pow2_m1, testbit_uwrap by lia.
  destruct (Z.ltb_spec (i - off) n), (Z.ltb_spec i (off + n)); try lia; cbn [andb negb].
  - rewrite andb_false_r. reflexivity.
  - rewrite andb_true_r, orb_false_r. reflexivity.
Qed.

Lemma testbit_bitfield (off n v i : Z) : 0 <= off -> 0 <= n -> 0 <= i ->
  Z.testbit (bitfield off n v) i = (i <? n) && Z.testbit v (i + off).
Proof. intros. unfold bitfield. rewrite testbit_uwrap, Z.shiftr_spec by lia. reflexivity. Qed.

Lemma bitfield_set_same (off n x v : Z) : 0 <= off -> 0 <= n ->
  bitfield off n (set_bitfield off n x v) = uwrap n x.
Proof.
  intros Ho Hn. apply Z.bits_inj'. intros i Hi.
  rewrite testbit_bitfield, testbit_set_bitfield, testbit_uwrap by lia.
  destruct (Z.leb_spec off (i + off)), (Z.ltb_spec (i + off) (off + n)), (Z.ltb_spec i n); try lia; cbn [andb];
    try reflexivity; f_equal; lia.
Qed.

Lemma bitfield_set_other (off n x v off' n' : Z) : 0 <= off -> 0 <= n -> 0 <= off' -> 0 <= n' ->
  off' + n' <= off \/ off + n <= off' ->
  bitfield off' n' (set_bitfield off n x v) = bitfield off' n' v.
Proof.
  intros Ho Hn Ho' Hn' Hd. apply Z.bits_inj'. intros i Hi.
  rewrite !testbit_bitfield, testbit_set_bitfield by lia.
  destruct (Z.ltb_spec i n'); [| reflexivity]. cbn [andb].
  destruct (Z.leb_spec off (i + off')), (Z.ltb_spec (i + off') (off + n)); try lia; reflexivity.
Qed.

(** One-bit fields read as 0 or 1. *)
Lemma bitfield_idem (off n v : Z) : uwrap n (bitfield off n v) = bitfield off n v.
Proof. apply uwrap_idemp. Qed.

Create Rewrite HintDb fields.
#[export] Hint Rewrite bitfield_set_same bitfield_idem : fields.

Lemma csr_put_eq (r : priv_reg) (v : Z) (R : csrs) : csr_put r v R r = v.
Proof. unfold csr_put. rewrite decide_True by reflexivity. reflexivity. Qed.
Lemma csr_put_ne (r r' : priv_reg) (v : Z) (R : csrs) : r' <> r -> csr_put r v R r' = R r'.
Proof. intros H. unfold csr_put. rewrite decide_False by exact H. reflexivity. Qed.

(** Reads of registers after writes, and of fields after assignments. *)
Ltac regs := repeat first [ rewrite csr_put_eq | rewrite csr_put_ne by discriminate ].
Ltac fields :=
  unfold set_sie, set_mie, set_spie, set_mpie, set_spp, set_mpp, set_mprv, set_vm,
    sie_field, mie_field, spie, mpie, spp, mpp in *;
  repeat first [ rewrite bitfield_set_same by lia | rewrite bitfield_set_other by lia | rewrite bitfield_idem ].

(** ** Trap entry and return *)

(** The registers after a trap. *)
Lemma mtrap_regs (w cause : Z) (i : bool) (h : hart) (R : csrs) :
  let '(h1, R1) := mtrap w cause i h R in
  h1 = set_pc (R Rmtvec) h /\ R1 Rmode = rv_mode_M /\ R1 Rmepc = pc h /\ R1 Rmcause = cause_word w cause i
  /\ R1 Rmstatus = set_mie 0 (set_mpie (mie_field (R Rmstatus)) (set_mpp (R Rmode) (R Rmstatus)))
  /\ forall r, r <> Rmode -> r <> Rmepc -> r <> Rmcause -> r <> Rmstatus -> R1 r = R r.
Proof.
  unfold mtrap. regs. repeat split; [fields; reflexivity |].
  intros r H1 H2 H3 H4. rewrite !csr_put_ne by assumption. reflexivity.
Qed.

Lemma strap_regs (w cause : Z) (i : bool) (h : hart) (R : csrs) :
  let '(h1, R1) := strap w cause i h R in
  h1 = set_pc (R Rstvec) h /\ R1 Rmode = rv_mode_S /\ R1 Rsepc = pc h /\ R1 Rscause = cause_word w cause i
  /\ R1 Rmstatus = set_sie 0 (set_spie (sie_field (R Rmstatus)) (set_spp (R Rmode) (R Rmstatus)))
  /\ forall r, r <> Rmode -> r <> Rsepc -> r <> Rscause -> r <> Rmstatus -> R1 r = R r.
Proof.
  unfold strap. regs. repeat split; [fields; reflexivity |].
  intros r H1 H2 H3 H4. rewrite !csr_put_ne by assumption. reflexivity.
Qed.

Lemma mret_regs (w at_pc : Z) (R : csrs) :
  rv_mode_M <= R Rmode ->
  exists R2, do_mret w at_pc R = Some (R Rmepc -[w] at_pc, R2) /\ R2 Rmode = mpp (R Rmstatus)
    /\ R2 Rmstatus = set_mpie 0 (set_mie (mpie (R Rmstatus)) (set_mpp rv_mode_U (R Rmstatus))).
Proof.
  intros Hm. unfold do_mret. rewrite (proj2 (Z.leb_le _ _) Hm). cbv zeta.
  match goal with |- exists R2, Some (_, ?R1) = _ /\ _ => exists R1 end. regs.
  split; [reflexivity | split; [reflexivity |]]. fields. reflexivity.
Qed.

Lemma sret_regs (w at_pc : Z) (R : csrs) :
  rv_mode_S <= R Rmode ->
  exists R2, do_sret w at_pc R = Some (R Rsepc -[w] at_pc, R2) /\ R2 Rmode = spp (R Rmstatus)
    /\ R2 Rmstatus = set_spie 0 (set_sie (spie (R Rmstatus)) (set_spp rv_mode_U (R Rmstatus))).
Proof.
  intros Hm. unfold do_sret. rewrite (proj2 (Z.leb_le _ _) Hm). cbv zeta.
  match goal with |- exists R2, Some (_, ?R1) = _ /\ _ => exists R1 end. regs.
  split; [reflexivity | split; [reflexivity |]]. fields. reflexivity.
Qed.

(** A field of [status] apart from the given ones. *)
Definition apart (off n off' n' : Z) : Prop := off + n <= off' \/ off' + n' <= off.

(** C29: Trap return undoes trap entry.  After a trap to machine mode, interrupts
    are off and control is at the vector; [mret], from whatever address the handler
    runs it with [mepc] and [mstatus] as the trap left them, goes back to the
    interrupted address in the interrupted mode with the interrupt enable restored,
    and no other field of [mstatus] but the saved pair changes.  The same for
    supervisor traps and [sret], from user and supervisor mode. *)
Theorem trap_return (w cause : Z) (interrupt : bool) (h : hart) (R : csrs) (R' : csrs) (at_pc off n : Z) :
  0 < w -> in_u w (pc h) -> 0 <= off -> 0 <= n ->
  (in_u 2 (R Rmode) ->
   let '(h1, R1) := mtrap w cause interrupt h R in
   R1 Rmode = rv_mode_M /\ pc h1 = R Rmtvec /\ mie_field (R1 Rmstatus) = 0
   /\ (R' Rmepc = R1 Rmepc -> R' Rmstatus = R1 Rmstatus -> R' Rmode = rv_mode_M ->
       exists o R2, do_mret w at_pc R' = Some (o, R2)
         /\ at_pc +[w] o = pc h /\ R2 Rmode = R Rmode
         /\ mie_field (R2 Rmstatus) = mie_field (R Rmstatus)
         /\ (apart off n 3 1 -> apart off n 7 1 -> apart off n 11 2 ->
             bitfield off n (R2 Rmstatus) = bitfield off n (R Rmstatus))))
  /\ (in_u 1 (R Rmode) ->
   let '(h1, R1) := strap w cause interrupt h R in
   R1 Rmode = rv_mode_S /\ pc h1 = R Rstvec /\ sie_field (R1 Rmstatus) = 0
   /\ (R' Rsepc = R1 Rsepc -> R' Rmstatus = R1 Rmstatus -> rv_mode_S <= R' Rmode ->
       exists o R2, do_sret w at_pc R' = Some (o, R2)
         /\ at_pc +[w] o = pc h /\ R2 Rmode = R Rmode
         /\ sie_field (R2 Rmstatus) = sie_field (R Rmstatus)
         /\ (apart off n 1 1 -> apart off n 5 1 -> apart off n 8 1 ->
             bitfield off n (R2 Rmstatus) = bitfield off n (R Rmstatus)))).
Proof.
  intros Hw Hpc Hoff Hn.
  assert (Hback : forall a, a = pc h -> at_pc +[w] (a -[w] at_pc) = pc h).
  { intros a ->. rewrite uwrap_add_r. replace (at_pc + (pc h - at_pc)) with (pc h) by lia. apply uwrap_small, Hpc. }
  split; intros Hm.
  - pose proof (mtrap_regs w cause interrupt h R) as HR. destruct (mtrap w cause interrupt h R) as [h1 R1].
    destruct HR as (-> & HM & He & _ & Hs & _). rewrite HM, Hs.
    split; [reflexivity | split; [reflexivity | split; [fields; reflexivity |]]].
    intros Ee Es Em. destruct (mret_regs w at_pc R' ltac:(rewrite Em; reflexivity)) as (R2 & E2 & Hm2 & Hs2).
    exists (R' Rmepc -[w] at_pc), R2. rewrite E2, Hm2, Hs2, Es.
    split; [reflexivity | split; [apply Hback; congruence |]].
    split; [fields; apply uwrap_small, Hm |]. split; [fields; reflexivity |].
    unfold apart. intros H1 H2 H3. fields. reflexivity.
  - pose proof (strap_regs w cause interrupt h R) as HR. destruct (strap w cause interrupt h R) as [h1 R1].
    destruct HR as (-> & HM & He & _ & Hs & _). rewrite HM, Hs.
    split; [reflexivity | split; [reflexivity | split; [fields; reflexivity |]]].
    intros Ee Es Em. destruct (sret_regs w at_pc R' Em) as (R2 & E2 & Hm2 & Hs2).
    exists (R' Rsepc -[w] at_pc), R2. rewrite E2, Hm2, Hs2, Es.
    split; [reflexivity | split; [apply Hback; congruence |]].
    split; [fields; apply uwrap_small, Hm |]. split; [fields; reflexivity |].
    unfold apart. intros H1 H2 H3. fields. reflexivity.
Qed.

(** ** Dispatch of a trap *)

Lemma land_pow2 (x c : Z) : 0 <= c -> (x .& 2 ^ c =? 0) = negb (Z.testbit x c).
Proof.
  intros Hc. destruct (Z.testbit x c) eqn:E; cbn [negb].
  - apply Z.eqb_neq. intros H. assert (Hb := f_equal (fun z => Z.testbit z c) H). cbv beta in Hb.
    rewrite Z.land_spec, E, Z.pow2_bits_true, Z.bits_0 in Hb by lia. discriminate Hb.
  - apply Z.eqb_eq, Z.bits_inj'. intros i Hi. rewrite Z.land_spec, Z.bits_0, Z.pow2_bits_eqb by lia.
    destruct (Z.eqb_spec c i) as [<- |]; [rewrite E; reflexivity | apply andb_false_r].
Qed.

Lemma deleg_mask (w c : Z) : w = 32 \/ w = 64 -> 0 <= c < 31 -> uwrap w (swrap 32 (Z.shiftl 1 c)) = 2 ^ c.
Proof.
  intros Hw Hc. rewrite shiftl_mul, Z.mul_1_l by lia. pose proof (pow2_pos c ltac:(lia)).
  assert (2 ^ c <= 2 ^ 30) by (apply Z.pow_le_mono_r; lia). change (2 ^ 30) with 1073741824 in *.
  rewrite swrap_small; [| lia | unfold in_s; cbn; lia].
  apply uwrap_small. destruct Hw as [-> | ->]; unfold in_u; cbn; lia.
Qed.

Lemma cause_word_exception (w c : Z) : w = 32 \/ w = 64 -> 0 <= c < 31 -> cause_word w c false = c.
Proof.
  intros Hw Hc. unfold cause_word. rewrite Z.lor_0_r. apply uwrap_small.
  destruct Hw as [-> | ->]; unfold in_u; cbn; lia.
Qed.

(** What a trap leaves in the registers of the mode it goes to: the vector, the
    saved address, mode and interrupt enable, the cause and the bad address, with
    that mode's pending bits cleared; the rest is untouched. *)
Record trapped (tvec epc_r cause_r bad_r : priv_reg) (target prev ie_saved ie : Z) (shifts : list Z)
    (c badaddr : Z) (h : hart) (R : csrs) (h' : hart) (R' : csrs) : Prop := {
  tr_hart : h' = set_pc (R tvec) h;
  tr_mode : R' Rmode = target;
  tr_epc : R' epc_r = pc h;
  tr_cause : R' cause_r = c;
  tr_bad : R' bad_r = if sets_badaddr c then badaddr else R bad_r;
  tr_prev : prev = uwrap (if target =? rv_mode_M then 2 else 1) (R Rmode);
  tr_ie : ie_saved = (if target =? rv_mode_M then mie_field (R Rmstatus) else sie_field (R Rmstatus)) /\ ie = 0;
  tr_pending : forall s, 0 <= s -> ip_field s (R' Rmip) = if existsb (Z.eqb s) shifts then 0 else ip_field s (R Rmip);
  tr_frame : forall r, r <> Rmode -> r <> epc_r -> r <> cause_r -> r <> bad_r -> r <> Rmstatus -> r <> Rmip -> R' r = R r }.

(** Clearing three pending bits. *)
Lemma clear_pending (a b c : Z) (R : csrs) (s : Z) : 0 <= a -> 0 <= b -> 0 <= c -> 0 <= s ->
  ip_field s (set_ip a 0 (set_ip b 0 (set_ip c 0 R)) Rmip)
  = if existsb (Z.eqb s) [a; b; c] then 0 else ip_field s (R Rmip).
Proof.
  intros Ha Hb Hc Hs. unfold set_ip, ip_field. regs.
  assert (Hone : forall t v, 0 <= t -> bitfield s 1 (set_bitfield t 1 0 v) = if s =? t then 0 else bitfield s 1 v).
  { intros t v Ht. destruct (Z.eqb_spec s t) as [-> |].
    - rewrite bitfield_set_same by lia. reflexivity.
    - apply bitfield_set_other; lia. }
  rewrite !Hone by assumption. cbn [existsb]. destruct (s =? a), (s =? b), (s =? c); reflexivity.
Qed.

Lemma set_ip_other (t x : Z) (R : csrs) (r : priv_reg) : r <> Rmip -> set_ip t x R r = R r.
Proof. intros H. apply csr_put_ne, H. Qed.

Lemma trapped_strap (w c badaddr : Z) (h : hart) (R : csrs) :
  w = 32 \/ w = 64 -> 0 <= c < 31 ->
  let Rb := if sets_badaddr c then csr_put Rsbadaddr badaddr R else R in
  let '(h', R') := strap w c false h (set_ip ss_shift 0 (set_ip se_shift 0 (set_ip st_shift 0 Rb))) in
  trapped Rstvec Rsepc Rscause Rsbadaddr rv_mode_S (spp (R' Rmstatus)) (spie (R' Rmstatus))
    (sie_field (R' Rmstatus)) [ss_shift; se_shift; st_shift] c badaddr h R h' R'.
Proof.
  intros Hw Hc Rb.
  assert (HRb : forall r, r <> Rsbadaddr -> Rb r = R r).
  { intros r Hr. unfold Rb. destruct (sets_badaddr c); [apply csr_put_ne, Hr | reflexivity]. }
  set (Ri := set_ip ss_shift 0 _). pose proof (strap_regs w c false h Ri) as HR.
  destruct (strap w c false h Ri) as [h1 R1]. destruct HR as (-> & Hm & He & Hca & Hs & Hf).
  assert (HRi : forall r, r <> Rmip -> r <> Rsbadaddr -> Ri r = R r).
  { intros r H1 H2. unfold Ri. rewrite !set_ip_other by exact H1. apply HRb, H2. }
  rewrite Hs. split.
  - rewrite HRi by discriminate. reflexivity.
  - exact Hm.
  - exact He.
  - rewrite Hca. apply cause_word_exception; assumption.
  - rewrite Hf by discriminate. unfold Ri. rewrite !set_ip_other by discriminate. unfold Rb.
    destruct (sets_badaddr c); [apply csr_put_eq | reflexivity].
  - fields. rewrite HRi by discriminate. reflexivity.
  - split; fields; rewrite ?HRi by discriminate; reflexivity.
  - intros s Hs0. rewrite Hf by discriminate. unfold Ri.
    rewrite clear_pending by (unfold ss_shift, se_shift, st_shift; lia). rewrite HRb by discriminate. reflexivity.
  - intros r H1 H2 H3 H4 H5 H6. rewrite Hf, HRi by assumption. reflexivity.
Qed.

Lemma trapped_mtrap (w c badaddr : Z) (h : hart) (R : csrs) :
  w = 32 \/ w = 64 -> 0 <= c < 31 ->
  let Rb := if sets_badaddr c then csr_put Rmbadaddr badaddr R else R in
  let '(h', R') := mtrap w c false h (set_ip ms_shift 0 (set_ip me_shift 0 (set_ip mt_shift 0 Rb))) in
  trapped Rmtvec Rmepc Rmcause Rmbadaddr rv_mode_M (mpp (R' Rmstatus)) (mpie (R' Rmstatus))
    (mie_field (R' Rmstatus)) [ms_shift; me_shift; mt_shift] c badaddr h R h' R'.
Proof.
  intros Hw Hc Rb.
  assert (HRb : forall r, r <> Rmbadaddr -> Rb r = R r).
  { intros r Hr. unfold Rb. destruct (sets_badaddr c); [apply csr_put_ne, Hr | reflexivity]. }
  set (Ri := set_ip ms_shift 0 _). pose proof (mtrap_regs w c false h Ri) as HR.
  destruct (mtrap w c false h Ri) as [h1 R1]. destruct HR as (-> & Hm & He & Hca & Hs & Hf).
  assert (HRi : forall r, r <> Rmip -> r <> Rmbadaddr -> Ri r = R r).
  { intros r H1 H2. unfold Ri. rewrite !set_ip_other by exact H1. apply HRb, H2. }
  rewrite Hs. split.
  - rewrite HRi by discriminate. reflexivity.
  - exact Hm.
  - exact He.
  - rewrite Hca. apply cause_word_exception; assumption.
  - rewrite Hf by discriminate. unfold Ri. rewrite !set_ip_other by discriminate. unfold Rb.
    destruct (sets_badaddr c); [apply csr_put_eq | reflexivity].
  - fields. rewrite HRi by discriminate. reflexivity.
  - split; fields; rewrite ?HRi by discriminate; reflexivity.
  - intros s Hs0. rewrite Hf by discriminate. unfold Ri.
    rewrite clear_pending by (unfold ms_shift, me_shift, mt_shift; lia). rewrite HRb by discriminate. reflexivity.
  - intros r H1 H2 H3 H4 H5 H6. rewrite Hf, HRi by assumption. reflexivity.
Qed.

(** C30: A trap other than one at an [ebreak] goes to supervisor mode exactly when
    the bit of its cause in [medeleg] is set, to machine mode otherwise, whatever
    the mode it is taken in; with the environment calls told apart by mode and the
    bad address kept for the misaligned and access faults only. *)
Theorem trap_spec (w : Z) (o : rv_op) (cause badaddr : Z) (h : hart) (R : csrs) :
  w = 32 \/ w = 64 -> 0 <= cause < 31 -> o <> rv_op_ebreak ->
  let c := translate_cause o cause (R Rmode) in
  exists h' R', trap w o cause badaddr h R = Some (h', R')
    /\ if Z.testbit (R Rmedeleg) c
       then trapped Rstvec Rsepc Rscause Rsbadaddr rv_mode_S (spp (R' Rmstatus)) (spie (R' Rmstatus))
              (sie_field (R' Rmstatus)) [ss_shift; se_shift; st_shift] c badaddr h R h' R'
       else trapped Rmtvec Rmepc Rmcause Rmbadaddr rv_mode_M (mpp (R' Rmstatus)) (mpie (R' Rmstatus))
              (mie_field (R' Rmstatus)) [ms_shift; me_shift; mt_shift] c badaddr h R h' R'.
Proof.
  intros Hw Hc Ho c.
  assert (Hc' : 0 <= c < 31).
  { unfold c, translate_cause. destruct (_ =? rv_cause_illegal_instruction); [| exact Hc].
    destruct o; try exact Hc; unfold rv_cause_breakpoint; try lia.
    repeat match goal with |- context [if ?b then _ else _] => destruct b end;
      unfold rv_cause_user_ecall, rv_cause_supervisor_ecall, rv_cause_hypervisor_ecall, rv_cause_machine_ecall; lia. }
  unfold trap. rewrite (proj2 (Z.eqb_neq cause internal_cause_reset)) by (unfold internal_cause_reset; lia).
  fold c. replace (match o with rv_op_ebreak => true | _ => false end) with false
    by (destruct o; reflexivity || contradiction).
  rewrite deleg_mask, land_pow2 by (assumption || lia). rewrite negb_involutive.
  destruct (Z.testbit (R Rmedeleg) c).
  - pose proof (trapped_strap w c badaddr h R Hw Hc') as H. cbv zeta in H.
    destruct (strap _ _ _ _ _) as [h' R']. eauto.
  - pose proof (trapped_mtrap w c badaddr h R Hw Hc') as H. cbv zeta in H.
    destruct (mtrap _ _ _ _ _) as [h' R']. eauto.
Qed.

(** ** Control-register instructions *)

(** What a write makes of the register, by its write mask. *)
Definition csr_new (o : csr_op) (write_mask old value : Z) : Z :=
  match o with
  | csr_rw => Z.ldiff old write_mask .| (value .& write_mask)
  | csr_rs => old .| (value .& write_mask)
  | csr_rc => Z.ldiff old (value .& write_mask)
  end.

(** Bit by bit: the bits outside the mask stay. *)
Lemma testbit_csr_new (o : csr_op) (write_mask old value i : Z) : 0 <= i ->
  Z.testbit (csr_new o write_mask old value) i
  = if Z.testbit write_mask i
    then match o with
         | csr_rw => Z.testbit value i
         | csr_rs => Z.testbit old i || Z.testbit value i
         | csr_rc => Z.testbit old i && negb (Z.testbit value i)
         end
    else Z.testbit old i.
Proof.
  intros Hi. destruct o; cbn [csr_new]; rewrite ?Z.lor_spec, ?Z.ldiff_spec, ?Z.land_spec;
    destruct (Z.testbit write_mask i), (Z.testbit old i), (Z.testbit value i); reflexivity.
Qed.

Lemma ldiff_range (w x y : Z) : 0 <= w -> in_u w x -> in_u w (Z.ldiff x y).
Proof.
  intros Hw Hx. apply in_u_testbit; [exact Hw | apply Z.ldiff_nonneg; left; apply Hx |].
  intros n Hn. rewrite Z.ldiff_spec, (testbit_high w x n Hx) by lia. reflexivity.
Qed.

Lemma land_range_l (w x y : Z) : 0 <= w -> in_u w x -> in_u w y -> in_u w (x .& y).
Proof. intros Hw Hx Hy. apply land_range; [exact Hw | exact Hx | apply Hy]. Qed.

Lemma csr_new_range (w : Z) (o : csr_op) (m old value : Z) :
  0 <= w -> in_u w m -> in_u w old -> in_u w value -> in_u w (csr_new o m old value).
Proof.
  intros Hw Hm Ho Hv. destruct o; cbn [csr_new];
    auto using lor_range, land_range_l, ldiff_range.
Qed.

Lemma land_bnot (w x y : Z) : 0 <= w -> in_u w x -> in_u w y -> x .& bnot w y = Z.ldiff x y.
Proof.
  intros Hw Hx Hy. unfold bnot. apply Z.bits_inj'. intros i Hi.
  rewrite Z.land_spec, Z.ldiff_spec, testbit_uwrap, Z.lnot_spec by lia.
  destruct (Z.ltb_spec i w); cbn [andb]; [reflexivity |].
  rewrite (testbit_high w x i Hx) by lia. reflexivity.
Qed.

(** [set_csr] on a register as wide as the processor. *)
Lemma set_csr_full (w : Z) (dec : decode) (mode : Z) (o : csr_op) (csr reg value wm rm : Z) (h : hart) :
  0 < w -> in_u w reg -> in_u w value -> in_u w wm -> 0 <= csr < 0x1000 ->
  set_csr w w dec mode o csr reg value wm rm 0 h
  = (fun h => (h, csr_new o wm reg value)) <$> csr_read w dec (if (csr >>> 8) .& 3 <=? mode then reg .& rm else 0) h.
Proof.
  intros Hw Hr Hv Hm Hc. unfold set_csr. rewrite Z.shiftr_0_r, Z.max_id.
  destruct (csr_read _ _ _ _) as [h' |]; [| reflexivity]. cbn.
  assert (Hro : (csr >>> 12) .& 1 = 0).
  { rewrite shiftr_div by lia. rewrite Z.div_small by (cbn; lia). reflexivity. }
  rewrite Hro. cbn [Z.eqb negb]. do 2 f_equal.
  rewrite !Z.shiftl_0_r. rewrite (uwrap_small w wm) by exact Hm.
  assert (Hb : in_u w (value .& wm)) by auto using land_range_l with lia.
  rewrite (uwrap_small w (value .& wm)) by exact Hb.
  rewrite !land_bnot by (assumption || lia).
  destruct o; cbn [csr_new].
  - apply uwrap_small. auto using lor_range, ldiff_range with lia.
  - destruct (Z.eqb_spec value 0) as [-> |]; cbn [negb].
    + rewrite Z.land_0_l, Z.lor_0_r. reflexivity.
    + apply uwrap_small. auto using lor_range with lia.
  - destruct (Z.eqb_spec value 0) as [-> |]; cbn [negb].
    + rewrite Z.land_0_l, Z.ldiff_0_r. reflexivity.
    + apply uwrap_small. auto using ldiff_range with lia.
Qed.

(** The registers stay in range. *)
Definition csrs_wf (w : Z) (R : csrs) : Prop := forall r, in_u w (R r).

Lemma in_u_le (n w x : Z) : 0 <= n <= w -> in_u n x -> in_u w x.
Proof. intros Hn [H1 H2]. pose proof (Z.pow_le_mono_r 2 n w ltac:(lia) ltac:(lia)). split; lia. Qed.

(** The numbers of those registers. *)
Lemma csr_field_cases (w csr : Z) (x : priv_reg * Z * Z) :
  csr_field w csr = Some x ->
  In csr [0x301; 0x300; 0x305; 0x302; 0x303; 0x344; 0x304; 0x322; 0x321; 0x320; 0x340; 0x341; 0x342;
    0x343; 0x380; 0x381; 0x382; 0x383; 0x384; 0x385; 0x100; 0x105; 0x102; 0x103; 0x144; 0x104; 0x140; 0x141;
    0x142; 0x143; 0x180].
Proof. unfold csr_field. intros H. repeat case_match; try discriminate H; cbn [In]; tauto. Qed.

Ltac csr_cases H :=
  let Hc := fresh in
  pose proof (csr_field_cases _ _ _ H) as Hc; cbn [In] in Hc;
  repeat (destruct Hc as [<- | Hc]; [| ]); [.. | contradiction Hc];
  cbn [csr_field] in H; injection H as <- <- <-.

Lemma csr_field_range (w csr : Z) (r : priv_reg) (wm rm : Z) :
  w = 32 \/ w = 64 -> csr_field w csr = Some (r, wm, rm) -> 0 <= csr < 0x1000 /\ in_u w wm /\ in_u w rm.
Proof.
  intros Hw H. csr_cases H; (split; [lia |]); split;
    destruct Hw as [-> | ->]; unfold in_u; vm_compute; split; first [reflexivity | discriminate].
Qed.

Lemma csr_read_spec (w : Z) (dec : decode) (v : Z) (h : hart) :
  hart_wf w h -> is_reg (rd dec) -> csr_read w dec v h = Some (put_reg (rd dec) (swrap w v) h).
Proof.
  intros Hh Hr. unfold csr_read, put_reg. destruct (Z.eqb_spec (rd dec) 0); cbn [negb]; [reflexivity |].
  pose proof (hw_length _ _ Hh). unfold is_reg in Hr. rewrite aset_Some by lia. reflexivity.
Qed.

Lemma priv_csr_field (w : Z) (get_time : Z -> Z) (dec : decode) (o : csr_op) (csr value off n : Z)
    (h : hart) (R : csrs) (r : priv_reg) (wm rm : Z) :
  csr_field w csr = Some (r, wm, rm) ->
  priv_csr w get_time dec o csr value off n h R
  = ('(h', v) ← set_csr w w dec (R Rmode) o csr (R r) value wm rm 0 h; Some (off, h', csr_put r v R, n)).
Proof. intros H. csr_cases H; reflexivity. Qed.

(** C31: What a control-register instruction does to a register of the processor, in
    every mode: the destination gets the register under the read mask, or zero when
    the mode is below the one the number encodes; the register takes the written,
    set or cleared bits under the write mask and keeps the others, whatever the
    mode is: the privilege check guards the read only. *)
Theorem csr_access (w : Z) (get_time : Z -> Z) (dec : decode) (o : csr_op) (csr value off n : Z)
    (h : hart) (R : csrs) (r : priv_reg) (wm rm : Z) :
  w = 32 \/ w = 64 -> hart_wf w h -> is_reg (rd dec) -> csrs_wf w R -> in_u w value ->
  csr_field w csr = Some (r, wm, rm) ->
  exists v,
    priv_csr w get_time dec o csr value off n h R
    = Some (off, put_reg (rd dec) (swrap w (if (csr >>> 8) .& 3 <=? R Rmode then R r .& rm else 0)) h,
            csr_put r v R, n)
    /\ csrs_wf w (csr_put r v R)
    /\ forall i, 0 <= i ->
        Z.testbit v i
        = if Z.testbit wm i
          then match o with
               | csr_rw => Z.testbit value i
               | csr_rs => Z.testbit (R r) i || Z.testbit value i
               | csr_rc => Z.testbit (R r) i && negb (Z.testbit value i)
               end
          else Z.testbit (R r) i.
Proof.
  intros Hw Hh Hrd HR Hv H. destruct (csr_field_range _ _ _ _ _ Hw H) as (Hc & Hwm & Hrm).
  exists (csr_new o wm (R r) value). split; [| split; [| intros i Hi; apply testbit_csr_new, Hi]].
  - rewrite (priv_csr_field _ _ _ _ _ _ _ _ _ _ _ _ _ H), set_csr_full by (apply HR || assumption || lia).
    rewrite (csr_read_spec w) by assumption. reflexivity.
  - intros r'. unfold csr_put. destruct (decide (r' = r)); [| apply HR].
    apply csr_new_range; try assumption; [lia | apply HR].
Qed.

(** From user mode, with any registers, three instructions give machine mode at
    an address of the program's choice: a write of zero to [medeleg], a write of the
    address to [mtvec], an [ecall]. *)
Theorem user_takes_machine_mode (w : Z) (get_time : Z -> Z) (dec : decode) (target off n badaddr : Z)
    (h0 h1 h2 : hart) (R : csrs) :
  w = 32 \/ w = 64 -> hart_wf w h0 -> hart_wf w h1 -> rd dec = 0 -> csrs_wf w R -> in_u w target ->
  R Rmode = rv_mode_U ->
  exists R1 R2 h3 R3,
    priv_csr w get_time dec csr_rw 0x302 0 off n h0 R = Some (off, h0, R1, n)
    /\ priv_csr w get_time dec csr_rw 0x305 target off n h1 R1 = Some (off, h1, R2, n)
    /\ R2 Rmode = rv_mode_U
    /\ trap w rv_op_ecall rv_cause_illegal_instruction badaddr h2 R2 = Some (h3, R3)
    /\ R3 Rmode = rv_mode_M /\ pc h3 = target.
Proof.
  intros Hw Hh0 Hh1 Hd HR Ht Hm. assert (Hrd : is_reg (rd dec)) by (rewrite Hd; unfold is_reg; lia).
  set (R1 := csr_put Rmedeleg (csr_new csr_rw (2 ^ w - 1) (R Rmedeleg) 0) R).
  set (R2 := csr_put Rmtvec (csr_new csr_rw (2 ^ w - 1) (R1 Rmtvec) target) R1).
  assert (H0 : forall v h, hart_wf w h -> csr_read w dec v h = Some h).
  { intros v h Hh. rewrite (csr_read_spec w) by assumption. rewrite Hd. reflexivity. }
  assert (Hones : in_u w (2 ^ w - 1)) by (destruct Hw as [-> | ->]; unfold in_u; cbn; lia).
  assert (Hnew : forall old v, in_u w old -> in_u w v -> csr_new csr_rw (2 ^ w - 1) old v = v).
  { intros old v Ho Hv. apply Z.bits_inj'. intros i Hi.
    rewrite testbit_csr_new, testbit_pow2_m1 by lia. destruct (Z.ltb_spec i w); [reflexivity |].
    rewrite !(testbit_high w) by (assumption || lia). reflexivity. }
  assert (Hz : in_u w 0) by (destruct Hw as [-> | ->]; unfold in_u; cbn; lia).
  exists R1, R2. eexists _, _.
  split; [rewrite (priv_csr_field _ _ _ _ _ _ _ _ _ _ Rmedeleg (all_ones w) (all_ones w)) by reflexivity;
          rewrite set_csr_full by (apply HR || assumption || lia); rewrite H0 by assumption; reflexivity |].
  split; [rewrite (priv_csr_field _ _ _ _ _ _ _ _ _ _ Rmtvec (all_ones w) (tvec_wmask w)) by reflexivity;
          rewrite set_csr_full by ((unfold R1; regs; apply HR) || assumption || lia);
          rewrite H0 by assumption; reflexivity |].
  assert (Hm2 : R2 Rmode = rv_mode_U) by (unfold R2, R1; regs; exact Hm).
  split; [exact Hm2 |].
  assert (Hdeleg : R2 Rmedeleg = 0) by (unfold R2, R1; regs; apply Hnew; [apply HR | exact Hz]).
  assert (Hvec : R2 Rmtvec = target) by (unfold R2, R1; regs; apply Hnew; [apply HR | exact Ht]).
  unfold trap. rewrite Hm2, Hdeleg, Z.land_0_l. cbn [Z.eqb negb]. cbn.
  split; [reflexivity |]. exact (conj eq_refl Hvec).
Qed.

(** ** Interrupts *)

(** A source: its bit in machine mode, its bit in supervisor mode, pending or not. *)
Definition source : Type := (Z * Z * bool)%type.

(** The reference: the sources are examined in order until one is taken, in machine
    mode ([true]) if it is enabled there and otherwise in supervisor mode. *)
Fixpoint arbitrate (mstatus mie : Z) (l : list source) : list source * option (bool * Z) :=
  match l with
  | [] => ([], None)
  | (m, s, pending) :: l' =>
      if pending && Z.testbit mstatus 3 && Z.testbit mie m then ([(m, s, pending)], Some (true, m))
      else if pending && Z.testbit mstatus 1 && Z.testbit mie s then ([(m, s, pending)], Some (false, s))
      else let (ex, t) := arbitrate mstatus mie l' in ((m, s, pending) :: ex, t)
  end.

(** The pending bits after the sources [l] have been examined. *)
Definition pending_bit (l : list source) (mip : Z) (i : Z) : bool :=
  match find (fun x : source => (i =? fst (fst x)) || (i =? snd (fst x))) l with
  | Some x => snd x
  | None => Z.testbit mip i
  end.

Lemma bit_field (i v : Z) : 0 <= i -> negb (bitfield i 1 v =? 0) = Z.testbit v i.
Proof.
  intros Hi. unfold bitfield, uwrap. change (2 ^ 1) with 2. rewrite <- Z.bit0_mod, Z.shiftr_spec by lia.
  rewrite Z.add_0_l. destruct (Z.testbit v i); reflexivity.
Qed.

Lemma set_ip_bit (s i : Z) (b : bool) (R : csrs) : 0 <= s -> 0 <= i ->
  Z.testbit (set_ip s (b2z b) R Rmip) i = if i =? s then b else Z.testbit (R Rmip) i.
Proof.
  intros Hs Hi. unfold set_ip. regs. rewrite testbit_set_bitfield by lia.
  destruct (Z.eqb_spec i s) as [-> | Hne].
  - rewrite Z.leb_refl, (proj2 (Z.ltb_lt s (s + 1))), Z.sub_diag by lia. destruct b; reflexivity.
  - destruct (Z.leb_spec s i), (Z.ltb_spec i (s + 1)); cbn [andb]; reflexivity || lia.
Qed.

Lemma trap_keeps_mip (w c : Z) (i : bool) (h : hart) (R : csrs) :
  snd (mtrap w c i h R) Rmip = R Rmip /\ snd (strap w c i h R) Rmip = R Rmip.
Proof.
  pose proof (mtrap_regs w c i h R) as H1. pose proof (strap_regs w c i h R) as H2.
  destruct (mtrap w c i h R) as [? R1], (strap w c i h R) as [? R2].
  destruct H1 as (_ & _ & _ & _ & _ & H1), H2 as (_ & _ & _ & _ & _ & H2).
  cbn. split; [apply H1 | apply H2]; discriminate.
Qed.

(** What the service routine leaves, for the sources examined and the trap taken. *)
Definition interrupt (w : Z) (t : option (bool * Z)) (h : hart) (R : csrs) : hart * csrs :=
  match t with
  | Some (true, c) => mtrap w c true h R
  | Some (false, c) => strap w c true h R
  | None => (h, R)
  end.
Record served (w : Z) (ex : list source) (t : option (bool * Z)) (h : hart) (R : csrs) (h' : hart) (R' : csrs) : Prop := {
  sv_trap : exists Rp, (forall r, r <> Rmip -> Rp r = R r) /\ (h', R') = interrupt w t h Rp;
  sv_pending : forall i, 0 <= i -> Z.testbit (R' Rmip) i = pending_bit ex (R Rmip) i }.

Lemma interrupt_mip (w : Z) (t : option (bool * Z)) (h : hart) (R : csrs) : snd (interrupt w t h R) Rmip = R Rmip.
Proof. destruct t as [[[|] c] |]; [apply (trap_keeps_mip w c true h R) .. | reflexivity]. Qed.

Section Served.
  Context (p : tlb_param).
  Local Abbreviation w := (UX p).

(** One source: taken, or examined and passed over. *)
Definition taken (m s : Z) (pending : bool) (R : csrs) : option (bool * Z) :=
  if pending && Z.testbit (R Rmstatus) 3 && Z.testbit (R Rmie) m then Some (true, m)
  else if pending && Z.testbit (R Rmstatus) 1 && Z.testbit (R Rmie) s then Some (false, s)
  else None.

Lemma arbitrate_cons (m s : Z) (pending : bool) (R : csrs) (l : list source) :
  arbitrate (R Rmstatus) (R Rmie) ((m, s, pending) :: l)
  = match taken m s pending R with
    | Some t => ([(m, s, pending)], Some t)
    | None => let (ex, t) := arbitrate (R Rmstatus) (R Rmie) l in ((m, s, pending) :: ex, t)
    end.
Proof. cbn [arbitrate]. unfold taken. repeat case_match; reflexivity || discriminate. Qed.

Lemma taken_frame (m s : Z) (pending : bool) (R R' : csrs) :
  (forall r, r <> Rmip -> R' r = R r) -> taken m s pending R' = taken m s pending R.
Proof. intros H. unfold taken. rewrite !H by discriminate. reflexivity. Qed.

Lemma take_spec (m s : Z) (pending : bool) (h : hart) (R : csrs) : 0 <= m -> 0 <= s ->
  let '(R', t) := take p m s pending h R in
  (forall r, r <> Rmip -> R' r = R r)
  /\ (forall i, 0 <= i -> Z.testbit (R' Rmip) i = if (i =? m) || (i =? s) then pending else Z.testbit (R Rmip) i)
  /\ t = (t ← taken m s pending R; Some (interrupt w (Some t) h R')).
Proof.
  intros Hm Hs. unfold take, taken. split; [| split].
  - intros r Hr. rewrite !set_ip_other by exact Hr. reflexivity.
  - intros i Hi. rewrite !set_ip_bit by assumption. destruct (i =? m), (i =? s); reflexivity.
  - unfold mie_field, sie_field, ip_field. rewrite !set_ip_other by discriminate.
    rewrite !bit_field by lia. destruct pending; [| reflexivity]. cbn [andb].
    destruct (_ && _); [reflexivity |]. destruct (_ && _); reflexivity.
Qed.

Lemma served_none (h : hart) (R : csrs) : served w [] None h R h R.
Proof. split; [exists R; split; reflexivity | reflexivity]. Qed.

Lemma served_taken (m s : Z) (pending : bool) (h : hart) (R R' : csrs) (t : bool * Z) :
  (forall r, r <> Rmip -> R' r = R r) ->
  (forall i, 0 <= i -> Z.testbit (R' Rmip) i = if (i =? m) || (i =? s) then pending else Z.testbit (R Rmip) i) ->
  served w [(m, s, pending)] (Some t) h R (fst (interrupt w (Some t) h R')) (snd (interrupt w (Some t) h R')).
Proof.
  intros H1 H2. split.
  - exists R'. split; [exact H1 |]. destruct (interrupt _ _ _ _); reflexivity.
  - intros i Hi. rewrite interrupt_mip, H2 by exact Hi. unfold pending_bit. cbn.
    destruct (_ || _); reflexivity.
Qed.

Lemma served_cons (m s : Z) (pending : bool) (ex : list source) (t : option (bool * Z)) (h h' : hart) (R R1 R' : csrs) :
  (forall r, r <> Rmip -> R1 r = R r) ->
  (forall i, 0 <= i -> Z.testbit (R1 Rmip) i = if (i =? m) || (i =? s) then pending else Z.testbit (R Rmip) i) ->
  Forall (fun x : source => ~ In (fst (fst x)) [m; s] /\ ~ In (snd (fst x)) [m; s]) ex ->
  served w ex t h R1 h' R' -> served w ((m, s, pending) :: ex) t h R h' R'.
Proof.
  intros H1 H2 Hd [(Rp & H3 & H4) H5]. split.
  - exists Rp. split; [| exact H4]. intros r Hr. rewrite H3, H1 by exact Hr. reflexivity.
  - intros i Hi. rewrite H5 by exact Hi. unfold pending_bit. cbn [find fst snd].
    destruct (find _ ex) as [x |] eqn:E.
    + apply find_some in E. destruct E as [Hin Hx]. rewrite List.Forall_forall in Hd.
      specialize (Hd x Hin). cbn [In] in Hd.
      destruct (Z.eqb_spec i m), (Z.eqb_spec i s), (Z.eqb_spec i (fst (fst x))), (Z.eqb_spec i (snd (fst x)));
        cbn [orb] in *; try reflexivity; try discriminate; exfalso; subst; intuition congruence.
    + rewrite H2 by exact Hi. destruct (_ || _); reflexivity.
Qed.
End Served.

(** C32: The interrupt service routine is the arbitration of its three sources, in
    the order external, timer, software: the sources are examined up to the first
    that is pending and enabled, which is trapped to machine mode if it is enabled
    there and to supervisor mode otherwise, whatever the current mode; the two
    pending bits of each source examined show whether it is pending, and no other
    bit of [mip] and no other register changes but by the trap.  When an external
    interrupt is taken the timer is not asked. *)
Theorem isr_spec {B : Type} {bus : Bus B} {I : Interrupts B} (p : tlb_param) (hart_id : Z) (h : hart) (s : sys B) :
  let R := sys_regs s in
  let b0 := service (smem (sys_mmu s)) in
  let (b1, tip) := timer_pending hart_id (time h) (update_time (uwrap (UX p) (time h)) b0) in
  let (ex, t) := arbitrate (R Rmstatus) (R Rmie)
                   [(me_shift, se_shift, irq_pending b0); (mt_shift, st_shift, tip);
                    (ms_shift, ss_shift, ipi_pending hart_id b1)] in
  let (h', s') := isr p hart_id h s in
  served (UX p) ex t h R h' (sys_regs s')
  /\ sys_mmu s' = with_bus (if (length ex =? 1)%nat then b0 else b1) (sys_mmu s).
Proof.
  cbv zeta. destruct (timer_pending hart_id (time h) _) as [b1 tip] eqn:Eb.
  unfold isr, with_bus_sys. cbn [sys_regs sys_mmu smem with_bus]. rewrite Eb.
  rewrite arbitrate_cons. pose proof (take_spec p me_shift se_shift (irq_pending (service (smem (sys_mmu s)))) h
    (sys_regs s) ltac:(easy) ltac:(easy)) as T1.
  destruct (take p me_shift se_shift _ h _) as [R1 t1]. destruct T1 as (F1 & M1 & ->).
  destruct (taken me_shift se_shift _ _) as [c1 |]; cbn [mbind option_bind].
  { rewrite (surjective_pairing (interrupt _ _ _ _)). split; [apply served_taken; assumption | reflexivity]. }
  rewrite arbitrate_cons. pose proof (take_spec p mt_shift st_shift tip h R1 ltac:(easy) ltac:(easy)) as T2.
  cbn [smem with_bus sys_mmu sys_regs].
  destruct (take p mt_shift st_shift _ h _) as [R2 t2]. destruct T2 as (F2 & M2 & ->).
  rewrite (taken_frame _ _ _ _ _ F1).
  assert (D : forall ex, incl ex [(mt_shift, st_shift, tip); (ms_shift, ss_shift, ipi_pending hart_id b1)] ->
    Forall (fun x : source => ~ In (fst (fst x)) [me_shift; se_shift] /\ ~ In (snd (fst x)) [me_shift; se_shift]) ex).
  { intros ex Hi. apply List.Forall_forall. intros x Hx. destruct (Hi x Hx) as [<- | [<- | []]];
      cbn [In fst snd]; unfold mt_shift, st_shift, ms_shift, ss_shift, me_shift, se_shift; lia. }
  destruct (taken mt_shift st_shift _ _) as [c2 |]; cbn [mbind option_bind].
  { rewrite (surjective_pairing (interrupt _ _ _ _)). split; [| reflexivity].
    apply (served_cons p _ _ _ _ _ _ _ _ R1); try assumption; [apply D; intros x [<- | []]; left; reflexivity |].
    apply served_taken; assumption. }
  rewrite arbitrate_cons.
  pose proof (take_spec p ms_shift ss_shift (ipi_pending hart_id b1) h R2 ltac:(easy) ltac:(easy)) as T3.
  destruct (take p ms_shift ss_shift _ h _) as [R3 t3]. destruct T3 as (F3 & M3 & ->).
  rewrite (taken_frame _ _ _ _ _ F2), (taken_frame _ _ _ _ _ F1).
  assert (D3 : Forall (fun x : source => ~ In (fst (fst x)) [mt_shift; st_shift] /\ ~ In (snd (fst x)) [mt_shift; st_shift])
                 [(ms_shift, ss_shift, ipi_pending hart_id b1)]).
  { constructor; [| constructor]. cbn [In fst snd]. unfold mt_shift, st_shift, ms_shift, ss_shift. lia. }
  destruct (taken ms_shift ss_shift _ _) as [c3 |]; cbn [mbind option_bind arbitrate].
  - rewrite (surjective_pairing (interrupt _ _ _ _)). split; [| reflexivity].
    apply (served_cons p _ _ _ _ _ _ _ _ R1); try assumption; [apply D, incl_refl |].
    apply (served_cons p _ _ _ _ _ _ _ _ R2); try assumption. apply served_taken; assumption.
  - split; [| reflexivity].
    apply (served_cons p _ _ _ _ _ _ _ _ R1); try assumption; [apply D, incl_refl |].
    apply (served_cons p _ _ _ _ _ _ _ _ R2); try assumption.
    apply (served_cons p _ _ _ _ _ _ _ _ R3); try assumption; [constructor | apply served_none].
Qed.

(** ** A step that does not end *)

Section Storm.
  Context {B : Type} {bus : Bus B} {I : Interrupts B} (p : tlb_param).
  Context (get_time : Z -> Z) (exec_fp : decode -> hart -> Z -> io Z) (fl : flags).
  Context (inst_decode : decode -> Z -> decode) (breakpoint : Z).

(** A vector that cannot be fetched from, whose fault comes back to it. *)
Record storming (m : machine (sys B)) : Prop := {
  st_pc : pc (m_hart m) = sys_regs (m_mmu m) Rmtvec;
  st_odd : Z.odd (pc (m_hart m)) = true;
  st_deleg : Z.testbit (sys_regs (m_mmu m) Rmedeleg) rv_cause_misaligned_fetch = false;
  st_ebreak : op (m_dec m) <> rv_op_ebreak }.

Lemma storm_step (m : machine (sys B)) : UX p = 32 \/ UX p = 64 -> breakpoint <> pc (m_hart m) -> storming m ->
  exists m' m'' c b,
    @step1 _ (mmu_sys p) (sys_platform p get_time) exec_fp fl (UX p) inst_decode breakpoint m = Trap m' c b
    /\ handle p m' c b = inr m''
    /\ storming m'' /\ m_instret m'' = m_instret m /\ pc (m_hart m'') = pc (m_hart m).
Proof.
  intros Hw Hb [Hpc Hodd Hd He]. set (h := m_hart m) in *. set (s := m_mmu m) in *.
  assert (Hf : @mmu_fetch _ (mmu_sys p) (pc h) s = Fault s rv_cause_misaligned_fetch (pc h)).
  { cbn [mmu_fetch mmu_sys]. unfold soft_fetch, misaligned. change (2 - 1) with 1.
    replace (pc h .& 1) with 1 by (rewrite (Z.land_ones _ 1), Zmod_odd, Hodd by lia; reflexivity).
    cbn. destruct s; reflexivity. }
  unfold step1. fold h s. rewrite (proj2 (Z.eqb_neq _ _)) by congruence. cbn [andb]. rewrite Hf.
  pose proof (trapped_mtrap (UX p) rv_cause_misaligned_fetch (pc h) h (sys_regs s) Hw ltac:(easy)) as HT.
  cbv zeta in HT. destruct (mtrap _ _ _ _ _) as [h' R'] eqn:EM in HT. destruct HT as [-> _ _ _ _ _ _ _ Hfr].
  eexists _, _, _, _. split; [reflexivity |].
  unfold handle, trap, with_state. cbn [m_dec m_hart m_mmu].
  change (rv_cause_misaligned_fetch =? internal_cause_cli) with false.
  change ((rv_cause_misaligned_fetch =? internal_cause_fatal) || (rv_cause_misaligned_fetch =? internal_cause_poweroff))
    with false.
  change (rv_cause_misaligned_fetch =? internal_cause_reset) with false.
  change (translate_cause (op (m_dec m)) rv_cause_misaligned_fetch (sys_regs s Rmode)) with rv_cause_misaligned_fetch.
  replace (match op (m_dec m) with rv_op_ebreak => true | _ => false end) with false
    by (destruct (op (m_dec m)); reflexivity || contradiction).
  cbv iota zeta.
  rewrite deleg_mask, land_pow2, Hd by (assumption || easy). cbn [negb]. rewrite EM.
  split; [reflexivity |]. cbn [m_instret m_hart m_mmu m_dec sys_regs].
  assert (Hv : R' Rmtvec = sys_regs s Rmtvec) by (apply Hfr; discriminate).
  assert (Hdl : R' Rmedeleg = sys_regs s Rmedeleg) by (apply Hfr; discriminate).
  split; [split | split]; cbn [m_hart m_mmu m_dec sys_regs pc set_pc]; rewrite ?Hv, ?Hdl; auto.
  rewrite <- Hpc. exact Hodd.
Qed.
End Storm.

(** C33: The step loop counts instructions, not traps: on a machine whose program
    counter is an odd [mtvec] (the write mask keeps the low bits) and that does not
    delegate misaligned fetches, no amount of fuel ends [sys_loop], whatever the
    devices, the memory and the count are.  Every fault of the fetch traps to the
    vector, whose fetch faults again; the host does not get control back. *)
Theorem trap_storm {B : Type} {bus : Bus B} {I : Interrupts B} (p : tlb_param) (get_time : Z -> Z)
    (exec_fp : decode -> hart -> Z -> io Z) (fl : flags) (inst_decode : decode -> Z -> decode)
    (breakpoint inststop : Z) (m : machine (sys B)) (fuel : nat) :
  UX p = 32 \/ UX p = 64 -> breakpoint <> pc (m_hart m) -> m_instret m <> inststop -> storming m ->
  sys_loop p get_time exec_fp fl inst_decode breakpoint fuel inststop m = None.
Proof.
  intros Hw Hb Hi Hs. revert m Hb Hi Hs. induction fuel as [| n IH]; intros m Hb Hi Hs;
    cbn [sys_loop]; rewrite (proj2 (Z.eqb_neq _ _) Hi); [reflexivity |].
  destruct (storm_step p get_time exec_fp fl inst_decode breakpoint m Hw Hb Hs)
    as (m' & m'' & c & b & E1 & E2 & H1 & H2 & H3).
  rewrite E1, E2. apply IH; [rewrite H3; exact Hb | rewrite H2; exact Hi | exact H1].
Qed.
