(* ===== verification/PrivExamples.v ===== *)
(** * A concrete privileged processor

    The theorems on traps, control registers and the step loop at concrete
    registers, on the machine of [SoftExamples]. *)

From Stdlib Require Import ZArith Lia Bool List.
From stdpp Require Import base numbers list option.
From S2P Require Import Prelude Alu Operand Meta Codec Decoder Interp Isa Mmu Runloop ProxySim.
From S2P Require Import Ckpt Replay Bus Tlb SoftMmu SoftMmuProofs SoftExamples Priv PrivProofs.
Import Machine.

#[local] Open Scope Z_scope.
#[local] Open Scope word_scope.

(** User mode with interrupts enabled, vectors, breakpoints delegated. *)
Definition regs0 : csrs :=
  csr_put Rmstatus 0xa (csr_put Rmtvec 0x80000100 (csr_put Rstvec 0x80000200
    (csr_put Rmedeleg 8 (fun _ => 0)))).
Definition hart0 : hart := set_pc 0x80000010 hart_init.

Lemma hart0_wf : hart_wf 64 hart0.
Proof. split; [reflexivity | repeat constructor; discriminate | reflexivity | split; reflexivity || discriminate]. Qed.

Lemma regs0_wf : csrs_wf 64 regs0.
Proof. intros r. destruct r; (split; [discriminate | reflexivity]). Qed.

Lemma trap_return_witness :
  exists o R2, do_mret 64 0x80000100 (snd (mtrap 64 2 false hart0 regs0)) = Some (o, R2)
    /\ 0x80000100 +[64] o = 0x80000010 /\ R2 Rmode = rv_mode_U /\ mie_field (R2 Rmstatus) = 1.
Proof.
  destruct (trap_return 64 2 false hart0 regs0 (snd (mtrap 64 2 false hart0 regs0)) 0x80000100 17 1)
    as [Hm _].
  - lia.
  - split; [discriminate | reflexivity].
  - lia.
  - lia.
  - assert (Hu : in_u 2 (regs0 Rmode)) by (split; [discriminate | reflexivity]).
    specialize (Hm Hu). destruct (mtrap 64 2 false hart0 regs0) as [h1 R1] eqn:E.
    cbn [snd] in Hm |- *. destruct Hm as (M1 & _ & _ & H).
    destruct (H eq_refl eq_refl M1) as (o & R2 & E1 & E2 & E3 & E4 & _).
    exists o, R2. rewrite E3, E4. split; [exact E1 | split; [exact E2 | split; reflexivity]].
Defined.

(** An [ecall] from user mode goes to machine mode. *)
Lemma trap_spec_witness :
  exists h' R', trap 64 rv_op_ecall 2 0 hart0 regs0 = Some (h', R')
    /\ pc h' = 0x80000100 /\ R' Rmode = rv_mode_M /\ R' Rmcause = 8.
Proof.
  destruct (trap_spec 64 rv_op_ecall 2 0 hart0 regs0) as (h' & R' & E & H).
  - right. reflexivity.
  - lia.
  - discriminate.
  - change (Z.testbit (regs0 Rmedeleg) (translate_cause rv_op_ecall 2 (regs0 Rmode))) with false in H.
    cbv iota in H. destruct H as [Hh Hm _ Hc _ _ _ _ _].
    exists h', R'. split; [exact E |]. rewrite Hh, Hm, Hc. split; [reflexivity | split; reflexivity].
Defined.

(** User mode sets [MPRV] in [mstatus]; the read is refused, the write is done. *)
Definition dec5 : decode := mkDecode 0 5 0 0 0 rv_op_csrrs rv_codec_i_csr 0 0 0 0 0.
Lemma csr_access_witness :
  exists v, priv_csr 64 (fun n => n) dec5 csr_rs 0x300 0x20000 4 7 hart0 regs0
            = Some (4, put_reg 5 0 hart0, csr_put Rmstatus v regs0, 7)
    /\ Z.testbit v 17 = true /\ Z.testbit v 1 = true.
Proof.
  destruct (csr_access 64 (fun n => n) dec5 csr_rs 0x300 0x20000 4 7 hart0 regs0 Rmstatus
              (mstatus_wmask 64) (all_ones 64)) as (v & E & _ & Hb).
  - right. reflexivity.
  - apply hart0_wf.
  - unfold is_reg. cbn. lia.
  - apply regs0_wf.
  - split; [discriminate | reflexivity].
  - reflexivity.
  - exists v. rewrite !Hb by lia. split; [exact E | split; reflexivity].
Defined.

Lemma user_takes_machine_mode_witness :
  exists R1 R2 h3 R3,
    priv_csr 64 (fun n => n) decode_init csr_rw 0x302 0 4 0 hart0 regs0 = Some (4, hart0, R1, 0)
    /\ priv_csr 64 (fun n => n) decode_init csr_rw 0x305 0x80001234 4 0 hart0 R1 = Some (4, hart0, R2, 0)
    /\ R2 Rmode = rv_mode_U
    /\ trap 64 rv_op_ecall rv_cause_illegal_instruction 0 hart0 R2 = Some (h3, R3)
    /\ R3 Rmode = rv_mode_M /\ pc h3 = 0x80001234.
Proof.
  apply user_takes_machine_mode.
  - right. reflexivity.
  - apply hart0_wf.
  - apply hart0_wf.
  - reflexivity.
  - apply regs0_wf.
  - split; [discriminate | reflexivity].
  - reflexivity.
Defined.

(** No interrupts. *)
#[export] Instance no_interrupts : Interrupts (user_memory unit) := {
  service b := b; irq_pending _ := false; update_time _ b := b;
  timer_pending _ _ b := (b, false); ipi_pending _ _ := false; take_reset b := (b, false) }.

Definition odd_machine : machine (sys (user_memory unit)) :=
  mkMachine (set_pc 0x80000101 hart_init)
    (mkSys (csr_put Rmode 3 (csr_put Rmtvec 0x80000101 (fun _ => 0))) soft0) 0 inst_cache_init decode_init.

Lemma trap_storm_witness :
  sys_loop param_rv64 (fun n => n) (fun _ h _ => Ret h 0) RV_IMA
    decode_inst_rv64 0 200 1 odd_machine = None.
Proof.
  apply trap_storm.
  - right. reflexivity.
  - discriminate.
  - discriminate.
  - split; [reflexivity | reflexivity | reflexivity | discriminate].
Defined.
