(* ===== verification/Devices.v ===== *)
(** * The devices: [emu/device-*.h], [emu/console.h]

    The memory-mapped devices of the full-system emulator behind the bus, the
    console they share, and what the interrupt service routine asks of them: the
    instances of [Devices] and [Interrupts] for the machine that
    [processor_privileged::init] builds. *)

From Stdlib Require Import ZArith Lia Bool List.
From stdpp Require Import base numbers list option.
From S2P Require Import Prelude Bits Ckpt Replay Interp Mmu Bus Tlb SoftMmu Priv.

#[local] Open Scope Z_scope.
#[local] Open Scope word_scope.

(** ** Registers as bytes *)

(** [*(as_u<n>() + (va >> k))] guarded by [va < total_size - (n/8 - 1)], on an
    object of [size] bytes: past the object the access is undefined. *)
Definition array_load (size total sz va : Z) (m : memory) : reply Z :=
  if va <? total -[64] (sz - 1) then
    let a := va / sz * sz in
    if a + sz <=? size then Done (mem_read (Z.to_nat sz) m a) else Undefined
  else Done 0.

(** The store; [false]: nothing was written. *)
Definition array_store (size total sz va val : Z) (m : memory) : memory * reply bool :=
  if va <? total -[64] (sz - 1) then
    let a := va / sz * sz in
    if a + sz <=? size then (mem_write sz m a val, Done true) else (m, Undefined)
  else (m, Done false).

Definition map_reply {A C} (f : A -> C) (r : reply A) : reply C :=
  match r with Done a => Done (f a) | BusError => BusError | Raised c => Raised c | Undefined => Undefined end.

(** ** The console *)

(** The queue as the list of its characters (see [Queue]) and what was written. *)
Record console : Type := mkConsole { con_in : list Z; con_out : list Z }.

Definition console_size : Z := 1024.
Definition has_char (c : console) : bool := 0 <? Z.of_nat (length (con_in c)).
Definition read_char (c : console) : console * Z :=
  match con_in c with
  | x :: l => (mkConsole l (con_out c), x)
  | [] => (c, 0)
  end.
Definition write_char (x : Z) (c : console) : console := mkConsole (con_in c) (con_out c ++ [x]).

(** [process_input]: what does not fit is lost. *)
Definition process_input (buf : list Z) (c : console) : console :=
  mkConsole (firstn (Z.to_nat console_size) (con_in c ++ buf)) (con_out c).

(** ** The interrupt controller *)

Record plic : Type := mkPlic { pending : Z; served : Z }.
Definition plic_new : plic := mkPlic 0 0.

(** [1 << i] at [int], as a word. *)
Definition irq_bit (i : Z) : Z := uwrap 32 (swrap 32 (Z.shiftl 1 i)).

Definition set_irq (irq : Z) (val : bool) (p : plic) : plic :=
  if val then mkPlic (pending p .| irq_bit irq) (served p)
  else mkPlic (pending p .& bnot 32 (irq_bit irq)) (served p).

Definition plic_mask (p : plic) : Z := pending p .& bnot 32 (served p).
Definition plic_irq_pending (p : plic) : bool := 0 <? plic_mask p.

(** The claim on a load, the completion on a store. *)
Definition plic_claim (p : plic) : plic * Z :=
  if negb (plic_mask p =? 0) then
    let i := ctz 32 (plic_mask p) in (mkPlic (pending p) (served p .| irq_bit i), i + 1)
  else (p, 0).
Definition plic_complete (n val : Z) (p : plic) : plic :=
  let val := val -[n] 1 in
  if val <? 32 then mkPlic (pending p) (served p .& bnot 32 (irq_bit val)) else p.

Definition plic_load (sz va : Z) (p : plic) : plic * reply Z :=
  if sz =? 4 then if va =? 4 then let (p, v) := plic_claim p in (p, Done v) else (p, Done 0)
  else if sz =? 8 then if va =? 0 then let (p, v) := plic_claim p in (p, Done v) else (p, Done 0)
  else (p, BusError).
Definition plic_store (sz va val : Z) (p : plic) : plic * reply unit :=
  if sz =? 4 then (if va =? 4 then plic_complete 32 val p else p, Done tt)
  else if sz =? 8 then (if va =? 0 then plic_complete 64 val p else p, Done tt)
  else (p, BusError).

(** ** The timer *)

Definition num_harts : Z := 4.

(** [timecmp] and [claimed]; [total_size] counts the bits of a word, not its bytes. *)
Record timer : Type := mkTimer { timecmp : memory; claimed : list Z }.
Definition timer_total : Z := 64 * num_harts.
Definition timer_new : timer := mkTimer (fun _ => 0) (replicate (Z.to_nat num_harts) (2 ^ 64 - 1)).

Definition timer_fire (hart_id now : Z) (t : timer) : timer * bool :=
  match aget (claimed t) hart_id with
  | Some c =>
      if 0 <? c then (t, false)
      else if mem_read 8 (timecmp t) (8 * hart_id) <=? now
      then (mkTimer (timecmp t) (<[Z.to_nat hart_id := now]> (claimed t)), true)
      else (t, false)
  | None => (t, false)
  end.

Definition timer_load (sz va : Z) (t : timer) : timer * reply Z :=
  (t, array_load (8 * num_harts) timer_total sz va (timecmp t)).
Definition timer_store (sz va val : Z) (t : timer) : timer * reply unit :=
  match array_store (8 * num_harts) timer_total sz va val (timecmp t) with
  | (m, Done true) =>
      match aset (claimed t) (va / 8) 0 with
      | Some c => (mkTimer m c, Done tt)
      | None => (t, Undefined)
      end
  | (m, Done false) => (t, Done tt)
  | (m, BusError) => (t, BusError)
  | (m, Raised c) => (t, Raised c)
  | (m, Undefined) => (t, Undefined)
  end.

(** ** Interprocessor interrupts *)

Definition mipi_total : Z := 32 * num_harts.
Definition mipi_pending (hart_id : Z) (m : memory) : bool :=
  if num_harts <=? hart_id then false else 0 <? mem_read 4 m (4 * hart_id).
(** [signal_ipi] writes [hart[num_harts]], past the array: undefined.  Nothing calls it. *)
Definition signal_ipi (hart_id : Z) (m : memory) : option memory :=
  if num_harts <=? hart_id then Some m else None.
Definition mipi_load (sz va : Z) (m : memory) : memory * reply Z :=
  (m, array_load (4 * num_harts) mipi_total sz va m).
Definition mipi_store (sz va val : Z) (m : memory) : memory * reply unit :=
  let (m, r) := array_store (4 * num_harts) mipi_total sz va val m in (m, map_reply (fun _ => tt) r).

(** ** The real-time clock *)

(** At another offset the value is left unset. *)
Definition rtc_load (sz va mtime : Z) : reply Z :=
  if sz =? 4 then
    if va =? 0 then Done (uwrap 32 mtime) else if va =? 4 then Done (uwrap 32 (mtime >>> 32)) else Undefined
  else if sz =? 8 then if va =? 0 then Done mtime else Undefined
  else BusError.

(** A store to one half or to both of a word of 64 bits. *)
Definition set_lo (x val : Z) : Z := (x .& ((2 ^ 64 - 1) <<[64] 32)) .| val.
Definition set_hi (x val : Z) : Z := (x .& ((2 ^ 64 - 1) >>> 32)) .| (val <<[64] 32).
Definition rtc_store (sz va val mtime : Z) : Z * reply unit :=
  if sz =? 4 then (if va =? 0 then set_lo mtime val else if va =? 4 then set_hi mtime val else mtime, Done tt)
  else if sz =? 8 then (if va =? 0 then val else mtime, Done tt)
  else (mtime, BusError).

(** ** The serial port *)

(** The registers that are ever written; the others stay 0. *)
Record uart : Type := mkUart { rbr : Z; thr : Z; ier : Z; lcr : Z; mcr : Z; scr : Z; dll : Z; dlm : Z }.
Definition uart_new : uart := mkUart 0 0 0 0 0 0 0 0.
Definition LCR_DLAB : Z := 0x80.
Definition IER_ERBDA : Z := 0x01.
Definition IER_MASK : Z := 0x0f.
Definition IIR_TX_RDY : Z := 0x02.
Definition IIR_RD_LSR : Z := 0x06.
Definition LSR_DA : Z := 0x01.
Definition LSR_RE : Z := 0x20.
Definition MSR_DSR : Z := 0x20.
Definition MSR_DCD : Z := 0x80.

(** A read of the interrupt enable register falls through to the identity register. *)
Definition uart_load_8 (va : Z) (u : uart) (c : console) : uart * console * reply Z :=
  let iir := if has_char c then IIR_RD_LSR else IIR_TX_RDY in
  if negb ((lcr u .& LCR_DLAB) =? 0) then
    (u, c, match va with 0 => Done (dll u) | 1 => Done (dlm u) | 3 => Done (lcr u) | 4 => Done (mcr u) | _ => Undefined end)
  else
    match va with
    | 0 =>
        let (c, u) := if has_char c
                      then let (c, x) := read_char c in
                           (c, mkUart x (thr u) (ier u) (lcr u) (mcr u) (scr u) (dll u) (dlm u))
                      else (c, u) in
        (u, c, Done (rbr u))
    | 1 | 2 => (u, c, Done iir)
    | 3 => (u, c, Done (lcr u))
    | 4 => (u, c, Done (mcr u))
    | 5 => (u, c, Done (LSR_RE .| (if has_char c then LSR_DA else 0)))
    | 6 => (u, c, Done (MSR_DCD .| MSR_DSR))
    | 7 => (u, c, Done (scr u))
    | _ => (u, c, Done 0)
    end.

Definition set_lcr (x : Z) (u : uart) : uart := mkUart (rbr u) (thr u) (ier u) x (mcr u) (scr u) (dll u) (dlm u).
Definition set_mcr (x : Z) (u : uart) : uart := mkUart (rbr u) (thr u) (ier u) (lcr u) x (scr u) (dll u) (dlm u).

Definition uart_store_8 (va val : Z) (u : uart) (c : console) : uart * console :=
  if negb ((lcr u .& LCR_DLAB) =? 0) then
    (match va with
     | 0 => mkUart (rbr u) (thr u) (ier u) (lcr u) (mcr u) (scr u) val (dlm u)
     | 1 => mkUart (rbr u) (thr u) (ier u) (lcr u) (mcr u) (scr u) (dll u) val
     | 3 => set_lcr val u
     | 4 => set_mcr val u
     | _ => u
     end, c)
  else
    match va with
    | 0 => (mkUart (rbr u) val (ier u) (lcr u) (mcr u) (scr u) (dll u) (dlm u), write_char val c)
    | 1 => (mkUart (rbr u) (thr u) (val .& IER_MASK) (lcr u) (mcr u) (scr u) (dll u) (dlm u), c)
    | 3 => (set_lcr val u, c)
    | 4 => (set_mcr val u, c)
    | 7 => (mkUart (rbr u) (thr u) (ier u) (lcr u) (mcr u) val (dll u) (dlm u), c)
    | _ => (u, c)
    end.

Definition uart_irq : Z := 3.
Definition uart_service (u : uart) (c : console) (p : plic) : plic :=
  set_irq uart_irq (negb ((ier u .& IER_ERBDA) =? 0) && has_char c) p.

(** ** General-purpose input and output *)

(** The words [ie], [ip], [in], [out]. *)
Definition gpio_total : Z := 16.
Definition gpio_irq : Z := 4.
Definition OUT_POWER_OFF : Z := 1.
Definition OUT_RESET : Z := 2.
Definition gpio_service (m : memory) (p : plic) : plic :=
  set_irq gpio_irq (negb ((mem_read 4 m 0 .& mem_read 4 m 4) =? 0)) p.
Definition gpio_load (sz va : Z) (m : memory) : reply Z := array_load gpio_total gpio_total sz va m.

(** [trigger] after every store: raised, or reset. *)
Definition gpio_trigger (m : memory) : reply bool :=
  let out := mem_read 4 m 12 in
  if negb ((out .& OUT_POWER_OFF) =? 0) then Raised internal_cause_poweroff
  else Done (negb ((out .& OUT_RESET) =? 0)).
Definition gpio_store (sz va val : Z) (m : memory) : memory * reply bool :=
  match array_store gpio_total gpio_total sz va val m with
  | (m, Done _) => (m, gpio_trigger m)
  | r => r
  end.

(** ** The host-target interface *)

Record htif : Type := mkHtif { htif_tohost : Z; htif_fromhost : Z }.
Definition htif_device_command (device command : Z) : Z := (device <<[64] 56) .| (command <<[64] 48).
Definition htif_device (v : Z) : Z := uwrap 8 (v >>> 56).
Definition htif_command (v : Z) : Z := uwrap 8 ((v >>> 48) .& 0xff).

Definition handle_output (h : htif) (c : console) : htif * console * reply unit :=
  if htif_tohost h =? 1 then (h, c, Raised internal_cause_poweroff)
  else
    let device := htif_device (htif_tohost h) in
    let command := htif_command (htif_tohost h) in
    if device =? 1 then
      if command =? 0 then (mkHtif 0 (htif_device_command device command), c, Done tt)
      else if command =? 1 then
        (mkHtif 0 (htif_device_command device command), write_char (htif_tohost h .& 0xff) c, Done tt)
      else (h, c, Done tt)
    else (h, c, Done tt).

Definition handle_input (h : htif) (c : console) : htif * console :=
  if (htif_fromhost h =? 0) && has_char c then
    let (c, x) := read_char c in (mkHtif (htif_tohost h) (htif_device_command 1 0 .| x), c)
  else (h, c).

Definition htif_load (sz va : Z) (h : htif) (c : console) : htif * console * reply Z :=
  if sz =? 4 then
    if va =? 0 then (h, c, Done (uwrap 32 (htif_tohost h)))
    else if va =? 4 then (h, c, Done (uwrap 32 (htif_tohost h >>> 32)))
    else if va =? 8 then let (h, c) := handle_input h c in (h, c, Done (uwrap 32 (htif_fromhost h)))
    else if va =? 12 then (h, c, Done (uwrap 32 (htif_fromhost h >>> 32)))
    else (h, c, Undefined)
  else if sz =? 8 then
    if va =? 0 then (h, c, Done (htif_tohost h))
    else if va =? 8 then let (h, c) := handle_input h c in (h, c, Done (htif_fromhost h))
    else (h, c, Undefined)
  else (h, c, BusError).

Definition htif_store (sz va val : Z) (h : htif) (c : console) : htif * console * reply unit :=
  if sz =? 4 then
    if va =? 0 then handle_output (mkHtif (set_lo (htif_tohost h) val) (htif_fromhost h)) c
    else if va =? 4 then handle_output (mkHtif (set_hi (htif_tohost h) val) (htif_fromhost h)) c
    else if va =? 8 then (mkHtif (htif_tohost h) (set_lo (htif_fromhost h) val), c, Done tt)
    else if va =? 12 then (mkHtif (htif_tohost h) (set_hi (htif_fromhost h) val), c, Done tt)
    else (h, c, Done tt)
  else if sz =? 8 then
    if va =? 0 then handle_output (mkHtif val (htif_fromhost h)) c
    else if va =? 8 then (mkHtif (htif_tohost h) val, c, Done tt)
    else (h, c, Done tt)
  else (h, c, BusError).

(** ** The machine's devices *)

(** A read-only image: the boot and SBI roms, the configuration string. *)
Record rom : Type := mkRom { rom_size : Z; rom_bytes : memory }.
Definition rom_load (sz va : Z) (r : rom) : reply Z := array_load (rom_size r) (rom_size r) sz va (rom_bytes r).

(** [d_random] counts the seeds drawn; [d_reset] that [proc.reset()] was called. *)
Record devices : Type := mkDevices {
  d_console : console; d_rtc : Z; d_mipi : memory; d_plic : plic; d_uart : uart; d_timer : timer;
  d_gpio : memory; d_random : Z; d_htif : htif; d_reset : bool }.

Section Machine.
  Context (w : Z).
  (** The images that the build generates, the configuration's words, and the
      host's random seeds. *)
  Context (sbi boot str : rom) (config : memory) (seed : Z -> Z).

Definition config_total : Z := w / 8 * 7.

(** [rand_mmio_device]: a seed is drawn even where 0 is returned. *)
Definition rand_total : Z := 4096.
Definition rand_load (sz va n : Z) : Z * reply Z :=
  if sz =? 8 then
    (n + 2, Done (if va <? rand_total -[64] 7
                  then (uwrap 32 (seed n) <<[64] 32) .| uwrap 32 (seed (n + 1)) else 0))
  else
    (n + 1, Done (if va <? rand_total -[64] (sz - 1) then uwrap (8 * sz) (uwrap 32 (seed n)) else 0)).

Definition devices_load (n : nat) (sz va : Z) (d : devices) : devices * reply Z :=
  let '(mkDevices c rtc mi pl u t g r h rs) := d in
  match n with
  | 0%nat => (d, rom_load sz va sbi)
  | 1%nat => (d, rom_load sz va boot)
  | 2%nat => (d, rtc_load sz va rtc)
  | 3%nat => let (mi, v) := mipi_load sz va mi in (mkDevices c rtc mi pl u t g r h rs, v)
  | 4%nat => let (pl, v) := plic_load sz va pl in (mkDevices c rtc mi pl u t g r h rs, v)
  | 5%nat =>
      if sz =? 1 then let '(u, c, v) := uart_load_8 va u c in (mkDevices c rtc mi pl u t g r h rs, v)
      else (d, BusError)
  | 6%nat => let (t, v) := timer_load sz va t in (mkDevices c rtc mi pl u t g r h rs, v)
  | 7%nat => (d, gpio_load sz va g)
  | 8%nat => let (r, v) := rand_load sz va r in (mkDevices c rtc mi pl u t g r h rs, v)
  | 9%nat => let '(h, c, v) := htif_load sz va h c in (mkDevices c rtc mi pl u t g r h rs, v)
  | 10%nat => (d, array_load config_total config_total sz va config)
  | 11%nat => (d, rom_load sz va str)
  | _ => (d, BusError)
  end.

Definition devices_store (n : nat) (sz va val : Z) (d : devices) : devices * reply unit :=
  let '(mkDevices c rtc mi pl u t g r h rs) := d in
  let val := uwrap (8 * sz) val in
  match n with
  | 2%nat => let (rtc, v) := rtc_store sz va val rtc in (mkDevices c rtc mi pl u t g r h rs, v)
  | 3%nat => let (mi, v) := mipi_store sz va val mi in (mkDevices c rtc mi pl u t g r h rs, v)
  | 4%nat => let (pl, v) := plic_store sz va val pl in (mkDevices c rtc mi pl u t g r h rs, v)
  | 5%nat =>
      if sz =? 1 then let '(u, c) := uart_store_8 va val u c in (mkDevices c rtc mi pl u t g r h rs, Done tt)
      else (d, BusError)
  | 6%nat => let (t, v) := timer_store sz va val t in (mkDevices c rtc mi pl u t g r h rs, v)
  | 7%nat =>
      let (g, v) := gpio_store sz va val g in
      (mkDevices c rtc mi pl u t g r h (rs || match v with Done reset => reset | _ => false end),
       map_reply (fun _ => tt) v)
  | 9%nat => let '(h, c, v) := htif_store sz va val h c in (mkDevices c rtc mi pl u t g r h rs, v)
  | _ => (d, BusError)
  end.

Definition machine_devices : Devices devices := {| dev_load := devices_load; dev_store := devices_store |}.

(** [init]: the device segments in order.  The address of the SBI rom is
    [s32(0xfffff000)] at the width of the machine. *)
Definition device_segment (n : nat) (mpa size : Z) : segment := mkSegment mpa 0 size 0 (Mmio n).
Definition machine_segments : list segment :=
  [device_segment 0 (uwrap w (swrap 32 0xfffff000)) (rom_size sbi);
   device_segment 1 0x1000 (rom_size boot);
   device_segment 2 0x40000000 8;
   device_segment 3 0x40001000 mipi_total;
   device_segment 4 0x40002000 8;
   device_segment 5 0x40003000 8;
   device_segment 6 0x40004000 timer_total;
   device_segment 7 0x40005000 gpio_total;
   device_segment 8 0x40006000 rand_total;
   device_segment 9 0x40008000 16;
   device_segment 10 0x4000f000 config_total;
   device_segment 11 0x40010000 (rom_size str)].

Definition devices_new : devices :=
  mkDevices (mkConsole [] []) 0 (fun _ => 0) plic_new uart_new timer_new (fun _ => 0) 0 (mkHtif 0 0) false.

(** What the processor asks of the devices. *)
Definition with_devices (f : devices -> devices) (s : user_memory devices) : user_memory devices :=
  mkUserMemory (segments s) (um_host s) (f (um_dev s)).

Definition service_devices (d : devices) : devices :=
  let '(mkDevices c rtc mi pl u t g r h rs) := d in
  mkDevices c rtc mi (gpio_service g (uart_service u c pl)) u t g r h rs.

#[export] Instance machine_interrupts : Interrupts (user_memory devices) := {
  service s := with_devices service_devices s;
  irq_pending s := plic_irq_pending (d_plic (um_dev s));
  update_time now s :=
    with_devices (fun '(mkDevices c rtc mi pl u t g r h rs) => mkDevices c now mi pl u t g r h rs) s;
  timer_pending hart_id now s :=
    let '(mkDevices c rtc mi pl u t g r h rs) := um_dev s in
    let (t, b) := timer_fire hart_id now t in
    (with_devices (fun _ => mkDevices c rtc mi pl u t g r h rs) s, b);
  ipi_pending hart_id s := mipi_pending hart_id (d_mipi (um_dev s)) || has_char (d_console (um_dev s));
  take_reset s :=
    let '(mkDevices c rtc mi pl u t g r h rs) := um_dev s in
    (with_devices (fun _ => mkDevices c rtc mi pl u t g r h false) s, rs) }.
End Machine.
