(* ===== verification/DeviceProofs.v ===== *)
(** * Correctness of the devices

    The interrupt controller's claims, the timer, the bounds of the register
    arrays, and the path of a console character to the trap handler. *)

From Stdlib Require Import ZArith Lia Bool List.
From stdpp Require Import base numbers list option.
From S2P Require Import Prelude Bits Ckpt CkptProofs Replay Interp Isa Mmu Bus Tlb SoftMmu Priv PrivProofs Devices.

#[local] Open Scope Z_scope.
#[local] Open Scope word_scope.

(** ** The interrupt controller *)

(** Pending and not being served. *)
Definition claimable (p : plic) (i : Z) : bool := Z.testbit (pending p) i && negb (Z.testbit (served p) i).

Definition plic_ok (p : plic) : Prop := in_u 32 (pending p) /\ in_u 32 (served p).

Lemma irq_bit_spec (i : Z) : 0 <= i < 32 -> irq_bit i = 2 ^ i.
Proof.
  intros Hi. unfold irq_bit. rewrite uwrap_swrap, shiftl_mul, Z.mul_1_l by lia.
  apply uwrap_small. split; [lia | apply Z.pow_lt_mono_r; lia].
Qed.

Lemma testbit_irq_bit (i j : Z) : 0 <= i < 32 -> 0 <= j -> Z.testbit (irq_bit i) j = (i =? j).
Proof. intros Hi Hj. rewrite irq_bit_spec by exact Hi. apply Z.pow2_bits_eqb. lia. Qed.

Lemma testbit_bnot (w x i : Z) : 0 <= w -> 0 <= i -> Z.testbit (bnot w x) i = (i <? w) && negb (Z.testbit x i).
Proof. intros Hw Hi. unfold bnot. rewrite testbit_uwrap, Z.lnot_spec by lia. reflexivity. Qed.

Lemma testbit_plic_mask (p : plic) (i : Z) : 0 <= i < 32 -> Z.testbit (plic_mask p) i = claimable p i.
Proof.
  intros Hi. unfold plic_mask, claimable. rewrite Z.land_spec, testbit_bnot by lia.
  rewrite (proj2 (Z.ltb_lt i 32)) by lia. reflexivity.
Qed.

Lemma plic_mask_range (p : plic) : plic_ok p -> in_u 32 (plic_mask p).
Proof. intros [H1 H2]. apply land_range; [lia | exact H1 | apply uwrap_range; lia]. Qed.

Lemma plic_mask_zero (p : plic) : plic_ok p -> plic_mask p = 0 <-> forall i, 0 <= i < 32 -> claimable p i = false.
Proof.
  intros Hp. pose proof (plic_mask_range p Hp) as Hm. split.
  - intros E i Hi. rewrite <- testbit_plic_mask, E by exact Hi. apply Z.bits_0.
  - intros H. apply Z.bits_inj'. intros i Hi. rewrite Z.bits_0. destruct (Z.lt_ge_cases i 32).
    + rewrite testbit_plic_mask by lia. apply H. lia.
    + apply (testbit_high 32); [exact Hm | lia].
Qed.

(** The operations on the controller, and a run of them. *)
Inductive plic_op : Type := OpIrq (irq : Z) (val : bool) | OpClaim | OpComplete (n : Z).
Definition plic_op_ok (o : plic_op) : Prop :=
  match o with OpIrq i _ => 0 <= i < 32 | OpClaim => True | OpComplete n => in_u 32 n end.
Definition plic_do (o : plic_op) (p : plic) : plic :=
  match o with
  | OpIrq i v => set_irq i v p
  | OpClaim => fst (plic_claim p)
  | OpComplete n => plic_complete 32 n p
  end.
Definition plic_run (l : list plic_op) (p : plic) : plic := fold_left (fun p o => plic_do o p) l p.

(** A claim takes the lowest source. *)
Lemma plic_claim_spec (p : plic) : plic_ok p ->
  let (p', v) := plic_claim p in
  plic_ok p' /\ pending p' = pending p
  /\ (v = 0 <-> forall i, 0 <= i < 32 -> claimable p i = false)
  /\ (v <> 0 -> 1 <= v <= 32 /\ claimable p (v - 1) = true /\ (forall i, 0 <= i < v - 1 -> claimable p i = false))
  /\ (forall i, 0 <= i < 32 -> Z.testbit (served p') i = Z.testbit (served p) i || (i =? v - 1)).
Proof.
  intros Hp. pose proof (plic_mask_zero p Hp) as H0. pose proof (plic_mask_range p Hp) as Hm. unfold plic_claim.
  destruct (Z.eqb_spec (plic_mask p) 0) as [E | E]; cbn [negb].
  - split; [exact Hp | split; [reflexivity | split; [split; [intros _; apply H0, E | reflexivity] | split; [lia |]]]].
    intros i Hi. rewrite (proj2 (Z.eqb_neq i _)) by lia. rewrite orb_false_r. reflexivity.
  - destruct (ctz_spec 32 (plic_mask p)) as (C1 & C2 & C3). set (i := ctz 32 (plic_mask p)) in *.
    assert (Hi : i < 32).
    { destruct (Z.lt_ge_cases i 32); [assumption |]. exfalso. apply E, Z.bits_inj'. intros j Hj. rewrite Z.bits_0.
      destruct (Z.lt_ge_cases j 32); [apply C2; lia | apply (testbit_high 32); [exact Hm | lia]]. }
    split; [split; [apply Hp |] | split; [reflexivity | split; [| split]]].
    + apply lor_range; [lia | apply Hp | apply uwrap_range; lia].
    + split; [lia |]. intros H. exfalso. apply E, H0, H.
    + intros _. replace (i + 1 - 1) with i by lia. rewrite <- testbit_plic_mask by lia. split; [lia |].
      split; [apply C3; lia |]. intros j Hj. rewrite <- testbit_plic_mask by lia. apply C2. lia.
    + intros j Hj. cbn [served]. rewrite Z.lor_spec, testbit_irq_bit by lia.
      replace (i + 1 - 1) with i by lia. rewrite (Z.eqb_sym i j). reflexivity.
Qed.

Lemma plic_complete_spec (n : Z) (p : plic) : in_u 32 n -> plic_ok p ->
  let p' := plic_complete 32 n p in
  plic_ok p' /\ pending p' = pending p
  /\ forall i, 0 <= i < 32 -> Z.testbit (served p') i = Z.testbit (served p) i && negb (i =? n - 1).
Proof.
  intros Hn Hp. unfold plic_complete. cbv zeta.
  destruct (Z.eq_dec n 0) as [-> |].
  { change (0 -[32] 1 <? 32) with false. cbv iota. split; [exact Hp | split; [reflexivity |]].
    intros i Hi. rewrite (proj2 (Z.eqb_neq i _)) by lia. rewrite andb_true_r. reflexivity. }
  rewrite (uwrap_small 32 (n - 1)) by (unfold in_u in *; lia).
  destruct (Z.ltb_spec (n - 1) 32).
  - unfold in_u in Hn. split; [split; [apply Hp |] | split; [reflexivity |]].
    + apply land_range; [lia | apply Hp | apply uwrap_range; lia].
    + intros i Hi. cbn [served]. rewrite Z.land_spec, testbit_bnot, testbit_irq_bit by lia.
      rewrite (proj2 (Z.ltb_lt i 32)), (Z.eqb_sym i (n - 1)) by lia. reflexivity.
  - split; [exact Hp | split; [reflexivity |]]. intros i Hi. rewrite (proj2 (Z.eqb_neq i _)) by lia.
    rewrite andb_true_r. reflexivity.
Qed.

Lemma set_irq_spec (irq : Z) (v : bool) (p : plic) : 0 <= irq < 32 -> plic_ok p ->
  plic_ok (set_irq irq v p) /\ served (set_irq irq v p) = served p
  /\ forall i, 0 <= i < 32 -> Z.testbit (pending (set_irq irq v p)) i = if i =? irq then v else Z.testbit (pending p) i.
Proof.
  intros Hirq [H1 H2]. unfold set_irq. assert (Hb : in_u 32 (irq_bit irq)) by (apply uwrap_range; lia).
  destruct v; cbn [pending served].
  - split; [split; [apply lor_range; assumption || lia | exact H2] | split; [reflexivity |]]. intros i Hi.
    rewrite Z.lor_spec, testbit_irq_bit, (Z.eqb_sym irq i) by lia. destruct (i =? irq); [apply orb_true_r | apply orb_false_r].
  - split; [split; [apply land_range; assumption || (try apply uwrap_range; lia) | exact H2] | split; [reflexivity |]]. intros i Hi.
    rewrite Z.land_spec, testbit_bnot, testbit_irq_bit, (Z.eqb_sym irq i), (proj2 (Z.ltb_lt i 32)) by lia.
    destruct (i =? irq); [apply andb_false_r | apply andb_true_r].
Qed.

Lemma plic_do_ok (o : plic_op) (p : plic) : plic_op_ok o -> plic_ok p -> plic_ok (plic_do o p).
Proof.
  intros Ho Hp. destruct o; cbn in *.
  - apply set_irq_spec; assumption.
  - pose proof (plic_claim_spec p Hp) as H. destruct (plic_claim p). apply H.
  - apply plic_complete_spec; assumption.
Qed.

(** A source being served stays so until it is completed. *)
Lemma plic_run_served (l : list plic_op) : forall (p : plic) (i : Z), Forall plic_op_ok l -> plic_ok p -> 0 <= i < 32 ->
  ~ In (OpComplete (i + 1)) l -> Z.testbit (served p) i = true ->
  plic_ok (plic_run l p) /\ Z.testbit (served (plic_run l p)) i = true.
Proof.
  induction l as [| o l IH]; intros p i Hl Hp Hi Hno Hs; [auto |]. inversion Hl as [| ? ? Ho Hl']; subst.
  cbn [plic_run fold_left]. apply IH; [exact Hl' | apply plic_do_ok; assumption | exact Hi | intros H; apply Hno; right; exact H |].
  destruct o as [irq v | | n]; cbn [plic_do plic_op_ok] in *.
  - destruct (set_irq_spec irq v p Ho Hp) as (_ & -> & _). exact Hs.
  - pose proof (plic_claim_spec p Hp) as H. destruct (plic_claim p) as [p' n]. destruct H as (_ & _ & _ & _ & H).
    cbn [fst]. rewrite H, Hs by exact Hi. reflexivity.
  - destruct (plic_complete_spec n p Ho Hp) as (_ & _ & H). cbv zeta in H. rewrite H, Hs by exact Hi.
    destruct (Z.eqb_spec i (n - 1)) as [-> |]; [| reflexivity].
    exfalso. apply Hno. left. f_equal. lia.
Qed.

(** C34: The interrupt controller promises its driver: an interrupt is signalled
    exactly when some source is pending and not being served; a claim returns zero
    exactly when none is, and otherwise the lowest such source, numbered from one;
    whatever happens then (interrupts raised and lowered, other claims and
    completions), that source is not claimable again before it is completed, and is
    after its completion exactly if it is pending. *)
Theorem plic_contract (p : plic) (l : list plic_op) : plic_ok p -> Forall plic_op_ok l ->
  let (p', v) := plic_claim p in
  (plic_irq_pending p = true <-> exists i, 0 <= i < 32 /\ claimable p i = true)
  /\ (v = 0 <-> plic_irq_pending p = false)
  /\ (v <> 0 ->
      1 <= v <= 32 /\ claimable p (v - 1) = true /\ (forall i, 0 <= i < v - 1 -> claimable p i = false)
      /\ (~ In (OpComplete v) l ->
          let q := plic_run l p' in
          claimable q (v - 1) = false /\ snd (plic_claim q) <> v
          /\ claimable (plic_complete 32 v q) (v - 1) = Z.testbit (pending q) (v - 1))).
Proof.
  intros Hp Hl. pose proof (plic_claim_spec p Hp) as H. pose proof (plic_mask_zero p Hp) as H0.
  pose proof (plic_mask_range p Hp) as Hm. destruct (plic_claim p) as [p' v].
  destruct H as (Hp' & _ & Hv0 & Hv & Hs).
  assert (Hirq : plic_irq_pending p = false <-> v = 0).
  { rewrite Hv0, <- H0. unfold plic_irq_pending. unfold in_u in Hm. rewrite Z.ltb_ge. lia. }
  split; [| split; [symmetry; exact Hirq |]].
  - destruct (plic_irq_pending p) eqn:E.
    + split; [intros _ | reflexivity]. assert (Hne : v <> 0) by (intros Hz; apply Hirq in Hz; discriminate Hz).
      exists (v - 1). destruct (Hv Hne) as (? & ? & _). split; [lia | assumption].
    + split; [discriminate |]. intros (i & Hi & Hc). rewrite (proj1 Hv0) in Hc; [discriminate Hc | apply Hirq; reflexivity | exact Hi].
  - intros Hne. destruct (Hv Hne) as (R & C & L). split; [exact R | split; [exact C | split; [exact L |]]].
    intros Hno q. destruct (plic_run_served l p' (v - 1) Hl Hp' ltac:(lia)) as [Hq Hsq].
    + replace (v - 1 + 1) with v by lia. exact Hno.
    + rewrite Hs, Z.eqb_refl by lia. apply orb_true_r.
    + fold q in Hq, Hsq. assert (Hc : claimable q (v - 1) = false) by (unfold claimable; rewrite Hsq; apply andb_false_r).
      split; [exact Hc |]. split.
      * pose proof (plic_claim_spec q Hq) as Hc'. destruct (plic_claim q) as [q' v']. destruct Hc' as (_ & _ & _ & Hv' & _).
        cbn [snd]. intros ->. destruct (Hv' Hne) as (_ & Hcl & _). congruence.
      * destruct (plic_complete_spec v q ltac:(unfold in_u; lia) Hq) as (_ & Hpe & Hse).
        unfold claimable. rewrite Hpe, Hse, Z.eqb_refl by lia. cbn [negb]. rewrite andb_false_r, andb_true_r. reflexivity.
Qed.

Lemma plic_contract_witness :
  let p := mkPlic 0x18 0 in
  let (p', v) := plic_claim p in
  v = 4 /\ snd (plic_claim (plic_run [OpIrq 3 true; OpClaim; OpComplete 5] p')) <> 4.
Proof.
  pose proof (plic_contract (mkPlic 0x18 0) [OpIrq 3 true; OpClaim; OpComplete 5]) as H.
  assert (H1 : plic_ok (mkPlic 0x18 0)) by (split; split; reflexivity || discriminate).
  assert (H2 : Forall plic_op_ok [OpIrq 3 true; OpClaim; OpComplete 5]).
  { repeat constructor; cbn; unfold in_u; lia. }
  specialize (H H1 H2). cbv zeta. destruct (plic_claim (mkPlic 0x18 0)) as [p' v] eqn:E.
  assert (Ev : v = 4) by (vm_compute in E; injection E as _ <-; reflexivity). subst v.
  split; [reflexivity |]. apply H; [discriminate |]. cbn [In]. intuition discriminate.
Defined.

(** ** The timer *)

Inductive timer_op : Type := TFire (hart_id now : Z) | TStore (sz va val : Z).
Definition timer_do (t : timer) (o : timer_op) : timer :=
  match o with TFire i now => fst (timer_fire i now t) | TStore sz va val => fst (timer_store sz va val t) end.

Definition timer_ok (t : timer) : Prop := length (claimed t) = 4%nat.

(** Operations that do not touch the compare register of a hart. *)
Definition spares (hart_id : Z) (o : timer_op) : Prop :=
  match o with TFire i now => i <> hart_id \/ 0 < now | TStore _ va _ => va / 8 <> hart_id end.

Lemma timer_claimed (i : Z) (o : timer_op) (t : timer) (c : Z) : timer_ok t -> 0 <= i -> spares i o ->
  aget (claimed t) i = Some c -> 0 < c -> exists c', timer_ok (timer_do t o) /\ aget (claimed (timer_do t o)) i = Some c' /\ 0 < c'.
Proof.
  intros Ht Hi Hs Hg Hc. unfold timer_ok in *. destruct o as [j now | sz va val]; cbn [timer_do].
  - unfold timer_fire. destruct (aget (claimed t) j) as [cj |] eqn:Ej; [| eauto].
    destruct (Z.ltb_spec 0 cj); [eauto |]. destruct (_ <=? now); [| eauto]. cbn [fst claimed].
    assert (j <> i) by (intros ->; rewrite Ej in Hg; injection Hg as ->; lia).
    exists c. rewrite length_insert. split; [exact Ht |]. split; [| exact Hc].
    unfold aget in Ej, Hg |- *. rewrite (proj2 (Z.leb_le 0 i)) in * by lia. destruct (Z.leb_spec 0 j); [| discriminate Ej].
    rewrite list_lookup_insert_ne by lia. exact Hg.
  - unfold timer_store. cbn [spares] in Hs. destruct (array_store _ _ _ _ _ _) as [m [[|] | | r |]]; eauto.
    unfold aset. destruct ((0 <=? va / 8) && _) eqn:Eb; [| eauto]. cbn [fst claimed].
    apply andb_prop in Eb as [Eb _]. apply Z.leb_le in Eb.
    exists c. rewrite length_insert. split; [exact Ht |]. split; [| exact Hc].
    unfold aget in Hg |- *. rewrite (proj2 (Z.leb_le 0 i)) in * by lia. rewrite list_lookup_insert_ne by lia. exact Hg.
Qed.

Lemma timer_run_claimed (i : Z) (l : list timer_op) : forall (t : timer) (c : Z), timer_ok t -> 0 <= i ->
  Forall (spares i) l -> aget (claimed t) i = Some c -> 0 < c ->
  exists c', aget (claimed (fold_left timer_do l t)) i = Some c' /\ 0 < c'.
Proof.
  induction l as [| o l IH]; intros t c Ht Hi Hl Hg Hc; [eauto |]. inversion Hl as [| ? ? Ho Hl']; subst.
  destruct (timer_claimed i o t c Ht Hi Ho Hg Hc) as (c' & Ht' & Hg' & Hc'). eapply IH; eauto.
Qed.

(** A word stored is read back. *)
Lemma mem_read_bytes (n : nat) (v a : Z) : forall j, 0 <= j ->
  mem_read n (fun b => Page.byte v (b - a)) (a + j) = uwrap (8 * Z.of_nat n) (v >>> (8 * j)).
Proof.
  induction n as [| n IH]; intros j Hj; [symmetry; apply Z.mod_1_r |]. cbn [mem_read].
  replace (a + j + 1) with (a + (j + 1)) by lia. rewrite IH by lia. unfold Page.byte.
  replace (a + j - a) with j by lia. replace (8 * (j + 1)) with (8 * j + 8) by lia.
  rewrite <- (Z.shiftr_shiftr v (8 * j) 8) by lia. set (x := v >>> (8 * j)).
  unfold uwrap. rewrite shiftr_div by lia. replace (8 * Z.of_nat (S n)) with (8 + 8 * Z.of_nat n) by lia.
  rewrite pow2_split by lia. change (2 ^ 8) with 256. rewrite Z.rem_mul_r by (try apply pow2_pos; lia). reflexivity.
Qed.

Lemma mem_read_write (n : nat) (m : memory) (a v : Z) :
  mem_read n (mem_write (Z.of_nat n) m a v) a = uwrap (8 * Z.of_nat n) v.
Proof.
  rewrite (mem_read_ext n _ (fun b => Page.byte v (b - a))).
  - pose proof (mem_read_bytes n v a 0 ltac:(lia)) as H. rewrite Z.add_0_r, Z.mul_0_r, Z.shiftr_0_r in H. exact H.
  - intros b Hb. unfold mem_write. destruct (Z.leb_spec a b), (Z.ltb_spec b (a + Z.of_nat n)); try lia. reflexivity.
Qed.

(** A store to the compare register arms its hart. *)
Lemma timer_arm (i v : Z) (t : timer) : timer_ok t -> 0 <= i < 4 -> in_u 64 v ->
  exists t1, timer_store 8 (8 * i) v t = (t1, Done tt) /\ timer_ok t1
    /\ aget (claimed t1) i = Some 0 /\ mem_read 8 (timecmp t1) (8 * i) = v.
Proof.
  intros Ht Hi Hv. unfold timer_store, array_store. change (timer_total -[64] (8 - 1)) with 249.
  rewrite (proj2 (Z.ltb_lt _ _)) by lia. cbv zeta.
  replace (8 * i / 8 * 8) with (8 * i) by (rewrite (Z.mul_comm 8 i), Z.div_mul by lia; lia).
  rewrite (proj2 (Z.leb_le _ _)) by (unfold num_harts; lia).
  rewrite (Z.mul_comm 8 i), Z.div_mul by lia. unfold timer_ok in Ht. rewrite aset_Some by lia.
  eexists. split; [reflexivity |]. unfold timer_ok. cbn [claimed timecmp]. rewrite length_insert.
  split; [exact Ht |]. split.
  - unfold aget. rewrite (proj2 (Z.leb_le 0 i)) by lia. apply list_lookup_insert_eq. lia.
  - etransitivity; [exact (mem_read_write 8 (timecmp t) (i * 8) v) | apply uwrap_small, Hv].
Qed.

(** The timer of a hart fires once per write of its compare register: after the
    write the first query at a time from the compare value on, and no earlier one,
    reports the timer; after that (at a time other than zero) no query reports it
    again, whatever the other harts do, until the register is written. *)
Theorem timer_one_shot (t : timer) (i v now : Z) (l : list timer_op) (later : Z) :
  timer_ok t -> 0 <= i < 4 -> in_u 64 v -> Forall (spares i) l ->
  exists t1, timer_store 8 (8 * i) v t = (t1, Done tt)
    /\ (now < v -> timer_fire i now t1 = (t1, false))
    /\ (v <= now -> snd (timer_fire i now t1) = true
        /\ (0 < now -> snd (timer_fire i later (fold_left timer_do l (fst (timer_fire i now t1)))) = false)).
Proof.
  intros Ht Hi Hv Hl. destruct (timer_arm i v t Ht Hi Hv) as (t1 & E & Ht1 & Hc & Hcmp).
  set (t2 := mkTimer (timecmp t1) (<[Z.to_nat i := now]> (claimed t1))).
  assert (Ef : timer_fire i now t1 = if v <=? now then (t2, true) else (t1, false))
    by (unfold timer_fire; rewrite Hc, Hcmp; reflexivity).
  exists t1. split; [exact E |]. rewrite Ef.
  split; [intros Hlt; rewrite (proj2 (Z.leb_gt v now)) by lia; reflexivity |].
  intros Hle. rewrite (proj2 (Z.leb_le v now)) by lia. cbn [fst snd]. split; [reflexivity |]. intros Hnow.
  destruct (timer_run_claimed i l t2 now) as (c' & Hg & Hc').
  - unfold timer_ok, t2. cbn [claimed]. rewrite length_insert. exact Ht1.
  - lia.
  - exact Hl.
  - unfold t2, aget. cbn [claimed]. rewrite (proj2 (Z.leb_le 0 i)) by lia. apply list_lookup_insert_eq.
    unfold timer_ok in Ht1. lia.
  - exact Hnow.
  - unfold timer_fire. rewrite Hg, (proj2 (Z.ltb_lt 0 c')) by exact Hc'. reflexivity.
Qed.

Lemma timer_one_shot_witness :
  exists t1, timer_store 8 8 100 timer_new = (t1, Done tt)
    /\ timer_fire 1 99 t1 = (t1, false) /\ snd (timer_fire 1 100 t1) = true
    /\ snd (timer_fire 1 200 (fold_left timer_do [TFire 0 150; TStore 8 0 7] (fst (timer_fire 1 100 t1)))) = false.
Proof.
  assert (Ht : timer_ok timer_new) by reflexivity.
  assert (Hl : Forall (spares 1) [TFire 0 150; TStore 8 0 7])
    by (constructor; [left; discriminate | constructor; [discriminate | constructor]]).
  destruct (timer_one_shot timer_new 1 100 99 _ 200 Ht ltac:(lia) ltac:(split; reflexivity || discriminate) Hl)
    as (t1 & E & H1 & _).
  destruct (timer_one_shot timer_new 1 100 100 _ 200 Ht ltac:(lia) ltac:(split; reflexivity || discriminate) Hl)
    as (t1' & E' & _ & H2).
  change (8 * 1) with 8 in *. assert (t1' = t1) as -> by congruence. exists t1.
  split; [exact E |]. split; [apply H1; lia |]. destruct (H2 ltac:(lia)) as [H3 H4].
  split; [exact H3 | apply H4; lia].
Defined.

(** Offsets past the compare registers are accepted, because the size counts bits:
    an aligned access is undefined exactly there. *)
Lemma timer_overrun (t : timer) (sz va : Z) : In sz [1; 2; 4; 8] -> 0 <= va < timer_total -> va mod sz = 0 ->
  snd (timer_load sz va t) = Undefined <-> 32 <= va.
Proof.
  intros Hsz Hva Hal. unfold timer_load, array_load. change timer_total with 256 in *. change (8 * num_harts) with 32.
  cbn [In] in Hsz. pose proof (Z.div_mod va sz) as Hd.
  repeat (destruct Hsz as [<- | Hsz]); try contradiction;
    match goal with |- context [256 -[64] ?k] => let n := eval vm_compute in (uwrap 64 (256 - k)) in change (256 -[64] k) with n end;
    specialize (Hd ltac:(lia)); rewrite Hal in Hd;
    match goal with |- context [va <? ?k] => destruct (Z.ltb_spec va k) end; cbn [snd]; cbv zeta;
    try match goal with |- context [?x <=? 32] => destruct (Z.leb_spec x 32) end; split; intros; try reflexivity; try discriminate; lia.
Qed.

(** ** From the console to the trap handler *)

Definition uart_signals (d : devices) : bool :=
  negb ((ier (d_uart d) .& IER_ERBDA) =? 0) && has_char (d_console d).
Definition gpio_signals (d : devices) : bool :=
  negb ((mem_read 4 (d_gpio d) 0 .& mem_read 4 (d_gpio d) 4) =? 0).

Lemma service_plic (d : devices) : plic_ok (d_plic d) ->
  let p := d_plic (service_devices d) in
  plic_ok p /\ served p = served (d_plic d)
  /\ forall i, 0 <= i < 32 -> Z.testbit (pending p) i
       = if i =? gpio_irq then gpio_signals d else if i =? uart_irq then uart_signals d else Z.testbit (pending (d_plic d)) i.
Proof.
  intros Hp. destruct d as [c rtc mi pl u t g r h rs]. cbn [service_devices d_plic] in *. unfold gpio_service, uart_service.
  destruct (set_irq_spec uart_irq (uart_signals (mkDevices c rtc mi pl u t g r h rs)) pl ltac:(easy) Hp) as (K1 & K2 & K3).
  destruct (set_irq_spec gpio_irq (gpio_signals (mkDevices c rtc mi pl u t g r h rs)) _ ltac:(easy) K1) as (J1 & J2 & J3).
  split; [exact J1 |]. split; [rewrite <- K2; exact J2 |]. intros i Hi. rewrite <- (K3 i Hi). exact (J3 i Hi).
Qed.

(** A character typed at the console reaches the machine-mode handler: when the
    serial port has its receive interrupt enabled and no earlier one is being
    served, the interrupt service routine traps to [mtvec] with the external cause
    and the interrupted address saved, and the interrupt controller then holds the
    serial port's interrupt, which the handler's claim returns unless a lower source
    is waiting. *)
Theorem console_interrupt (p : tlb_param) (hart_id : Z) (h : hart) (s : sys (user_memory devices)) :
  let R := sys_regs s in
  let d := um_dev (smem (sys_mmu s)) in
  plic_ok (d_plic d) -> uart_signals d = true -> Z.testbit (served (d_plic d)) uart_irq = false ->
  Z.testbit (R Rmstatus) 3 = true -> Z.testbit (R Rmie) me_shift = true ->
  let '(h', s') := isr p hart_id h s in
  let d' := um_dev (smem (sys_mmu s')) in
  pc h' = R Rmtvec /\ sys_regs s' Rmode = rv_mode_M /\ sys_regs s' Rmepc = pc h
  /\ sys_regs s' Rmcause = cause_word (UX p) me_shift true
  /\ claimable (d_plic d') uart_irq = true
  /\ ((forall i, 0 <= i < uart_irq -> claimable (d_plic d) i = false) ->
      snd (plic_load 4 4 (d_plic d')) = Done (uart_irq + 1)).
Proof.
  intros R d Hp Hu Hs Hm He. destruct (service_plic d Hp) as (Hp' & Hse & Hpe).
  set (d1 := service_devices d) in *.
  assert (Hc : claimable (d_plic d1) uart_irq = true)
    by (unfold claimable; rewrite Hpe, Hse, Hs by easy; exact Hu || (rewrite Hu; reflexivity)).
  assert (Hirq : plic_irq_pending (d_plic d1) = true).
  { unfold plic_irq_pending. apply Z.ltb_lt. pose proof (plic_mask_range _ Hp') as [Hr _].
    destruct (Z.eq_dec (plic_mask (d_plic d1)) 0) as [E | E]; [| lia].
    apply (plic_mask_zero _ Hp') with (i := uart_irq) in E; [congruence | easy]. }
  unfold isr. cbn [service machine_interrupts irq_pending with_bus_sys sys_mmu sys_regs smem with_bus with_devices um_dev].
  fold d. fold d1. rewrite Hirq.
  pose proof (take_spec p me_shift se_shift true h R ltac:(easy) ltac:(easy)) as T. fold R.
  destruct (take p me_shift se_shift true h R) as [R1 t]. destruct T as (F & _ & ->).
  unfold taken. rewrite Hm, He. cbn [andb mbind option_bind interrupt].
  pose proof (mtrap_regs (UX p) me_shift true h R1) as HR. destruct (mtrap (UX p) me_shift true h R1) as [h' R'].
  destruct HR as (-> & M1 & M2 & M3 & _). cbn [sys_regs sys_mmu smem with_bus um_dev pc set_pc].
  split; [rewrite F by discriminate; reflexivity |]. split; [exact M1 | split; [exact M2 | split; [exact M3 |]]].
  split; [exact Hc |]. intros Hlow. unfold plic_load. cbn [Z.eqb Pos.eqb].
  change (um_dev (with_devices service_devices (smem (sys_mmu s)))) with d1.
  pose proof (plic_claim_spec _ Hp') as HC. destruct (plic_claim (d_plic d1)) as [p2 v]. cbn [snd].
  destruct HC as (_ & _ & Hv0 & Hv & _).
  assert (Hne : v <> 0) by (intros Hz; rewrite (proj1 Hv0 Hz) in Hc; [discriminate Hc | easy]).
  destruct (Hv Hne) as (Hr & Hcl & Hmin). f_equal. unfold uart_irq in *.
  destruct (Z.lt_trichotomy (v - 1) 3) as [Hlt | [Heq | Hgt]]; [| lia |].
  - assert (Hx : claimable (d_plic d) (v - 1) = true).
    { unfold claimable in *. rewrite Hpe, Hse in Hcl by lia. unfold gpio_irq, uart_irq in Hcl.
      rewrite (proj2 (Z.eqb_neq (v - 1) 4)), (proj2 (Z.eqb_neq (v - 1) 3)) in Hcl by lia. exact Hcl. }
    rewrite Hlow in Hx by lia. discriminate Hx.
  - rewrite Hmin in Hc by lia. discriminate Hc.
Qed.

(** The RV64 machine with its devices and one character typed. *)
Definition idle_rom : rom := mkRom 0x1000 (fun _ => 0).
Definition typed : devices :=
  mkDevices (mkConsole [97] []) 0 (fun _ => 0) plic_new (mkUart 0 0 1 0 0 0 0 0) timer_new (fun _ => 0) 0
    (mkHtif 0 0) false.
Definition typed_sys : sys (user_memory devices) :=
  mkSys (csr_put Rmstatus 8 (csr_put Rmie 0x800 (csr_put Rmtvec 0x80000100 (fun _ => 0))))
    (soft_new param_rv64 (mkUserMemory (machine_segments 64 idle_rom idle_rom idle_rom) (fun _ => 0) typed)).

Lemma console_interrupt_witness :
  let '(h', s') := isr param_rv64 0 (set_pc 0x1000 hart_init) typed_sys in
  pc h' = 0x80000100 /\ snd (plic_load 4 4 (d_plic (um_dev (smem (sys_mmu s'))))) = Done 4.
Proof.
  pose proof (console_interrupt param_rv64 0 (set_pc 0x1000 hart_init) typed_sys) as H. cbv zeta in H.
  specialize (H ltac:(split; split; reflexivity || discriminate) eq_refl eq_refl eq_refl eq_refl).
  destruct (isr param_rv64 0 (set_pc 0x1000 hart_init) typed_sys) as [h' s'].
  destruct H as (H1 & _ & _ & _ & _ & H2). split; [exact H1 |]. apply H2.
  intros i Hi. unfold claimable. change (pending (d_plic (um_dev (smem (sys_mmu typed_sys))))) with 0.
  rewrite Z.bits_0. reflexivity.
Defined.
