(* ===== verification/X86.v ===== *)
(** * What the JIT asks of the assembler and the processor

    The JIT calls the methods of a third-party assembler, one per instruction, and
    the host executes what they encode.  Here are the calls the source makes, as
    data, and their documented meaning on the state the emitted code works on.
    The processor itself is a parameter ([Cpu]): all that is asked of it is that
    it does what is documented where something is. *)

From Stdlib Require Import ZArith Lia Bool List.
From stdpp Require Import base list option.
From S2P Require Import Prelude.

#[local] Open Scope Z_scope.
#[local] Open Scope word_scope.

(** ** Operands and instructions *)

(** The members of the processor object that the code addresses through [rbp]. *)
Inductive proc_field : Type := P_pc | P_instret | P_cause.

(** General registers by number and width, the slots of the guest's registers in
    the processor object, its other members by their width (for RV32 the program
    counter and the cause have 32 bits), memory, and constants.  The address of
    [Mem32] is computed in 32 bits, from a 32-bit register. *)
Inductive opnd : Type :=
  | Gp (w r : Z) | Slot (w g : Z) | Field (f : proc_field) | Field32 (f : proc_field)
  | Mem (w base disp : Z) | Mem32 (w base disp : Z) | Abs (w a : Z) | Const (v : Z).

Definition gpq (r : Z) : opnd := Gp 64 r.
Definition gpd (r : Z) : opnd := Gp 32 r.
Definition gpw (r : Z) : opnd := Gp 16 r.
Definition gpb_lo (r : Z) : opnd := Gp 8 r.
Definition rax : opnd := gpq 0.
Definition eax : opnd := gpd 0.
Definition al : opnd := gpb_lo 0.
Definition ax : opnd := gpw 0.
Definition rcx : opnd := gpq 1.
Definition ecx : opnd := gpd 1.
Definition cx : opnd := gpw 1.
Definition cl : opnd := gpb_lo 1.
Definition rdx_ : opnd := gpq 2.
Definition edx : opnd := gpd 2.
Definition dl : opnd := gpb_lo 2.

Inductive cond : Type := CondE | CondNE | CondL | CondGE | CondB | CondAE | CondNS.

Inductive instr : Type :=
  | as_mov (d s : opnd) | as_movsxd (d s : opnd) | as_movzx (d s : opnd) | as_movsx (d s : opnd)
  | as_lea (d s : opnd)
  | as_add (d s : opnd) | as_sub (d s : opnd) | as_and (d s : opnd) | as_or (d s : opnd) | as_xor (d s : opnd)
  | as_cmp (d s : opnd) | as_test (d s : opnd) | as_neg (d : opnd)
  | as_shl (d c : opnd) | as_shr (d c : opnd) | as_sar (d c : opnd) | as_ror (d c : opnd)
  | as_imul (d s : opnd) | as_imul1 (s : opnd) | as_mul (s : opnd) | as_div (s : opnd) | as_idiv (s : opnd)
  | as_cqo | as_cdq | as_set (c : cond) (d : opnd)
  | as_j (c : cond) (l : Z) | as_jmp (l : Z) | as_bind (l : Z)
  | as_j_abs (c : cond) (a : Z) | as_jmp_abs (a : Z) | as_call (a : Z) | as_push (r : Z) | as_pop (r : Z) | as_ret.

(** ** State *)

Record eflags : Type := mkEflags { ZF : bool; SF : bool; CF : bool; OF : bool }.

(** Registers and slots hold 64-bit words; [None] where the flags are not
    specified.  The stack is what the code itself has pushed. *)
Record xstate : Type := mkX {
  xr : Z -> Z; slot : Z -> Z; pfield : proc_field -> Z; flags_ : option eflags; mem : Z -> Z; stack : list Z }.

Definition upd (f : Z -> Z) (i v : Z) : Z -> Z := fun j => if j =? i then v else f j.
Definition set_xr (f : Z -> Z) (s : xstate) : xstate := mkX f (slot s) (pfield s) (flags_ s) (mem s) (stack s).
Definition set_slot (f : Z -> Z) (s : xstate) : xstate := mkX (xr s) f (pfield s) (flags_ s) (mem s) (stack s).
Definition set_field (f : proc_field) (v : Z) (s : xstate) : xstate :=
  mkX (xr s) (slot s) (fun g => match f, g with P_pc, P_pc | P_instret, P_instret | P_cause, P_cause => v | _, _ => pfield s g end)
    (flags_ s) (mem s) (stack s).
Definition set_flags (fl : option eflags) (s : xstate) : xstate := mkX (xr s) (slot s) (pfield s) fl (mem s) (stack s).
Definition set_mem (m : Z -> Z) (s : xstate) : xstate := mkX (xr s) (slot s) (pfield s) (flags_ s) m (stack s).
Definition set_stack (l : list Z) (s : xstate) : xstate := mkX (xr s) (slot s) (pfield s) (flags_ s) (mem s) l.

Fixpoint read_le (n : nat) (m : Z -> Z) (a : Z) : Z :=
  match n with O => 0 | S n => m (uwrap 64 a) + 256 * read_le n m (a + 1) end.
Fixpoint write_le (n : nat) (m : Z -> Z) (a v : Z) : Z -> Z :=
  match n with O => m | S n => write_le n (upd m (uwrap 64 a) (uwrap 8 v)) (a + 1) (v / 256) end.

(** ** Operand access *)

Definition width (o : opnd) : option Z :=
  match o with Gp w _ | Slot w _ | Mem w _ _ | Mem32 w _ _ | Abs w _ => Some w | Field _ => Some 64 | Field32 _ => Some 32 | Const _ => None end.
Definition in_memory (o : opnd) : bool := match o with Slot _ _ | Field _ | Field32 _ | Mem _ _ _ | Mem32 _ _ _ | Abs _ _ => true | _ => false end.

(** Constants are encoded in 32 bits, sign-extended, but for the move to a
    64-bit register. *)
Definition const_ok (w v : Z) : bool :=
  if w =? 64 then (- 2 ^ 31 <=? v) && (v <? 2 ^ 31) else (- 2 ^ (w - 1) <=? v) && (v <? 2 ^ w).

(** The immediate of the move to a 64-bit register, and the count of a shift. *)
Definition const64_ok (v : Z) : bool := (- 2 ^ 63 <=? v) && (v <? 2 ^ 64).
Definition count_ok (v : Z) : bool := (0 <=? v) && (v <? 256).

Definition read (w : Z) (o : opnd) (s : xstate) : option Z :=
  match o with
  | Gp w' r => if w' =? w then Some (uwrap w (xr s r)) else None
  | Slot w' g => if w' =? w then Some (uwrap w (slot s g)) else None
  | Field f => if w =? 64 then Some (pfield s f) else None
  | Field32 f => if w =? 32 then Some (uwrap 32 (pfield s f)) else None
  | Mem w' b d => if w' =? w then Some (read_le (Z.to_nat (w / 8)) (mem s) (xr s b + d)) else None
  | Mem32 w' b d => if w' =? w then Some (read_le (Z.to_nat (w / 8)) (mem s) (xr s b +[32] d)) else None
  | Abs w' a => if (w' =? w) && (a <? 2 ^ 31) then Some (read_le (Z.to_nat (w / 8)) (mem s) a) else None
  | Const v => if const_ok w v then Some (uwrap w v) else None
  end.

(** A 32-bit write to a register clears the upper half; an 8- or 16-bit one
    keeps the rest. *)
Definition write (w : Z) (o : opnd) (v : Z) (s : xstate) : option xstate :=
  match o with
  | Gp w' r => if w' =? w then Some (set_xr (upd (xr s) r (if w <? 32 then Z.shiftl (xr s r >>> w) w + v else v)) s) else None
  | Slot w' g => if w' =? w then Some (set_slot (upd (slot s) g (if w =? 64 then v else Z.shiftl (slot s g >>> w) w + v)) s) else None
  | Field f => if w =? 64 then Some (set_field f v s) else None
  | Field32 f => if w =? 32 then Some (set_field f v s) else None
  | Mem w' b d => if w' =? w then Some (set_mem (write_le (Z.to_nat (w / 8)) (mem s) (xr s b + d) v) s) else None
  | Mem32 w' b d => if w' =? w then Some (set_mem (write_le (Z.to_nat (w / 8)) (mem s) (xr s b +[32] d) v) s) else None
  | Abs _ _ | Const _ => None
  end.

(** ** Flags *)

Definition logic_flags (w v : Z) : eflags := mkEflags (v =? 0) (Z.testbit v (w - 1)) false false.
Definition sub_flags (w a b : Z) : eflags :=
  let v := uwrap w (a - b) in
  mkEflags (v =? 0) (Z.testbit v (w - 1)) (a <? b) (negb (swrap w a - swrap w b =? swrap w v)).
Definition add_flags (w a b : Z) : eflags :=
  let v := uwrap w (a + b) in
  mkEflags (v =? 0) (Z.testbit v (w - 1)) (negb (a + b =? v)) (negb (swrap w a + swrap w b =? swrap w v)).

Definition holds_cond (c : cond) (f : eflags) : bool :=
  match c with
  | CondE => ZF f | CondNE => negb (ZF f) | CondB => CF f | CondAE => negb (CF f) | CondNS => negb (SF f)
  | CondL => xorb (SF f) (OF f) | CondGE => negb (xorb (SF f) (OF f))
  end.

(** ** The documented instructions *)

(** Two operands of one width, at most one of them in memory. *)
Definition binary (d r : opnd) (s : xstate) (f : Z -> Z -> Z -> Z) (fl : Z -> Z -> Z -> option eflags) : option xstate :=
  w ← width d;
  if in_memory d && in_memory r then None
  else
    a ← read w d s;
    b ← read w r s;
    s ← write w d (uwrap w (f w a b)) s;
    Some (set_flags (fl w a b) s).

Definition compare (d r : opnd) (s : xstate) (fl : Z -> Z -> Z -> option eflags) : option xstate :=
  w ← width d;
  if in_memory d && in_memory r then None
  else
    a ← read w d s;
    b ← read w r s;
    Some (set_flags (fl w a b) s).

(** The count is a constant or [cl], and taken modulo 64 or 32. *)
Definition shift (d c : opnd) (s : xstate) (f : Z -> Z -> Z -> Z) : option xstate :=
  w ← width d;
  if (w =? 64) || (w =? 32) then
    n ← (match c with
         | Const v => if count_ok v then Some v else None
         | Gp 8 1 => Some (uwrap 8 (xr s 1))
         | _ => None
         end);
    a ← read w d s;
    s ← write w d (uwrap w (f w a (n mod w))) s;
    Some (set_flags None s)
  else None.

Definition rotate_right (w a n : Z) : Z := a / 2 ^ n + (a mod 2 ^ n) * 2 ^ (w - n).

(** The register pair [rdx:rax], [edx:eax]. *)
Definition set_pair (w hi lo : Z) (s : xstate) : xstate :=
  set_flags None (set_xr (upd (upd (xr s) 0 (uwrap w lo)) 2 (uwrap w hi)) s).

(** The quotients that fit: the others trap. *)
Definition quotient_u (w q : Z) : bool := q <? 2 ^ w.
Definition quotient_s (w q : Z) : bool := (- 2 ^ (w - 1) <=? q) && (q <? 2 ^ (w - 1)).

Definition divide (o : opnd) (s : xstate) (sgn : Z -> Z -> Z) (quo rem_ : Z -> Z -> Z) (fits : Z -> Z -> bool) : option xstate :=
  w ← width o;
  if (w =? 64) || (w =? 32) then
    b ← read w o s;
    let n := sgn (2 * w) (uwrap w (xr s 2) * 2 ^ w + uwrap w (xr s 0)) in
    let b := sgn w b in
    if (b =? 0) || negb (fits w (quo n b)) then None
    else Some (set_pair w (rem_ n b) (quo n b) s)
  else None.

Definition documented (i : instr) (s : xstate) : option xstate :=
  match i with
  | as_mov d r =>
      w ← width d;
      if in_memory d && in_memory r then None
      else
        v ← (match d, r with
             | Gp 64 _, Const v => if const64_ok v then Some (uwrap 64 v) else None
             | _, _ => read w r s
             end);
        write w d v s
  | as_movsxd d r =>
      match d with
      | Gp 64 _ => v ← read 32 r s; write 64 d (uwrap 64 (swrap 32 v)) s
      | Gp 32 _ => v ← read 32 r s; write 32 d v s
      | _ => None
      end
  | as_movsx d r =>
      match d, width r with
      | Gp 64 _, Some w => if w <? 32 then v ← read w r s; write 64 d (uwrap 64 (swrap w v)) s else None
      | Gp 32 _, Some w => if w <? 32 then v ← read w r s; write 32 d (uwrap 32 (swrap w v)) s else None
      | _, _ => None
      end
  | as_movzx d r =>
      match d, width r with
      | Gp 32 _, Some w => if w <? 32 then v ← read w r s; write 32 d v s else None
      | _, _ => None
      end
  | as_lea d r =>
      match d, r with
      | Gp 64 _, Mem _ b o => write 64 d (uwrap 64 (xr s b + o)) s
      | Gp 32 _, (Mem _ b o | Mem32 _ b o) => write 32 d (xr s b +[32] o) s
      | _, _ => None
      end
  | as_add d r => binary d r s (fun _ a b => a + b) (fun w a b => Some (add_flags w a b))
  | as_sub d r => binary d r s (fun _ a b => a - b) (fun w a b => Some (sub_flags w a b))
  | as_and d r => binary d r s (fun _ a b => a .& b) (fun w a b => Some (logic_flags w (a .& b)))
  | as_or d r => binary d r s (fun _ a b => a .| b) (fun w a b => Some (logic_flags w (a .| b)))
  | as_xor d r => binary d r s (fun _ a b => a .^ b) (fun w a b => Some (logic_flags w (a .^ b)))
  | as_cmp d r => compare d r s (fun w a b => Some (sub_flags w a b))
  | as_test d r => compare d r s (fun w a b => Some (logic_flags w (a .& b)))
  | as_neg d => w ← width d; a ← read w d s; s ← write w d (uwrap w (- a)) s; Some (set_flags (Some (sub_flags w 0 a)) s)
  | as_shl d c => shift d c s (fun _ a n => a * 2 ^ n)
  | as_shr d c => shift d c s (fun _ a n => a / 2 ^ n)
  | as_sar d c => shift d c s (fun w a n => swrap w a / 2 ^ n)
  | as_ror d c => shift d c s rotate_right
  | as_imul d r => match d with Gp _ _ => binary d r s (fun _ a b => a * b) (fun _ _ _ => None) | _ => None end
  | as_imul1 r =>
      w ← width r;
      if (w =? 64) || (w =? 32) then
        b ← read w r s;
        let p := swrap w (xr s 0) * swrap w b in
        Some (set_pair w (p / 2 ^ w) p s)
      else None
  | as_mul r =>
      w ← width r;
      if (w =? 64) || (w =? 32) then
        b ← read w r s;
        let p := uwrap w (xr s 0) * b in
        Some (set_pair w (p / 2 ^ w) p s)
      else None
  | as_div r => divide r s (fun _ x => x) Z.div Z.modulo quotient_u
  | as_idiv r => divide r s swrap Z.quot Z.rem quotient_s
  | as_cqo => Some (set_xr (upd (xr s) 2 (uwrap 64 (swrap 64 (xr s 0) / 2 ^ 64))) s)
  | as_cdq => Some (set_xr (upd (xr s) 2 (uwrap 32 (swrap 32 (xr s 0) / 2 ^ 32))) s)
  | as_set c d => f ← flags_ s; match d with Gp 8 _ => write 8 d (b2z (holds_cond c f)) s | _ => None end
  | as_bind _ => Some s
  | as_push r => Some (set_stack (xr s r :: stack s) s)
  | as_pop r => match stack s with v :: l => Some (set_stack l (set_xr (upd (xr s) r v) s)) | [] => None end
  | as_j _ _ | as_jmp _ | as_j_abs _ _ | as_jmp_abs _ | as_call _ | as_ret => None
  end.

(** ** Running code *)

(** The processor, on instructions that do not transfer control. *)
Class Cpu : Type := {
  cpu_step : instr -> xstate -> option xstate;
  cpu_documented : forall i s s', documented i s = Some s' -> cpu_step i s = Some s' }.

(** The processor that does only what is documented. *)
#[export] Instance plain_cpu : Cpu | 10 := {| cpu_step := documented; cpu_documented := fun _ _ _ H => H |}.

(** How a run of code leaves it. *)
Inductive exit_ : Type := Through | To_label (l : Z) | To_address (a : Z) | Return.

Section Run.
Context (step : instr -> xstate -> option xstate).

(** Jumps go forward; one to a label that is not ahead leaves the code.  [seek]
    is the label looked for. *)
Fixpoint run_code (seek : option Z) (code : list instr) (s : xstate) : option (xstate * exit_) :=
  match code with
  | [] => Some (s, match seek with Some l => To_label l | None => Through end)
  | i :: code =>
      match seek with
      | Some l => match i with as_bind l' => run_code (if l =? l' then None else seek) code s | _ => run_code seek code s end
      | None =>
          match i with
          | as_jmp l => run_code (Some l) code s
          | as_jmp_abs a => Some (s, To_address a)
          | as_ret => Some (s, Return)
          | as_j c l => f ← flags_ s; if holds_cond c f then run_code (Some l) code s else run_code None code s
          | as_j_abs c a => f ← flags_ s; if holds_cond c f then Some (s, To_address a) else run_code None code s
          | _ => s ← step i s; run_code None code s
          end
      end
  end.
End Run.

(** Code that the documentation accounts for runs as documented. *)
Lemma run_code_cpu `{Cpu} (code : list instr) (seek : option Z) (s : xstate) (r : xstate * exit_) :
  run_code documented seek code s = Some r -> run_code cpu_step seek code s = Some r.
Proof.
  revert seek s. induction code as [| i code IH]; intros seek s; [auto |].
  assert (Hs : forall i, (s ← documented i s; run_code documented None code s) = Some r ->
    (s ← cpu_step i s; run_code cpu_step None code s) = Some r).
  { intros j. destruct (documented j s) as [s' |] eqn:E; [| discriminate].
    rewrite (cpu_documented _ _ _ E). apply IH. }
  cbn [run_code]. destruct seek as [l |].
  - destruct i; apply IH.
  - destruct i; try apply Hs; try apply IH; try (intros E; exact E).
    + destruct (flags_ s) as [f |]; [cbn [mbind option_bind] | discriminate]. destruct (holds_cond c f); apply IH.
    + destruct (flags_ s) as [f |]; [cbn [mbind option_bind] | discriminate]. destruct (holds_cond c f); [auto | apply IH].
Qed.
