(* ===== verification/Jit.v ===== *)
(** * The JIT: state of the emitter, [jit/jit-decode.h] and the frame of
    [jit/jit-emitter-rv64.h]

    An emitter appends calls of the assembler ([X86]) and changes the state of
    the emitter object: a monad [M] of its own.  The register allocation, the code
    around a trace, jumps between traces. *)

From Stdlib Require Import ZArith Lia Bool List.
From stdpp Require Import base list option gmap.
From S2P Require Import Prelude Meta Codec X86.

#[local] Open Scope Z_scope.
#[local] Open Scope word_scope.

(** ** Decoded instructions *)

Inductive jit_op : Type :=
  | jit_op_la | jit_op_call | jit_op_zextw | jit_op_addiwz | jit_op_rorwi_rr | jit_op_rorwi_lr
  | jit_op_rordi_rr | jit_op_rordi_lr | jit_op_auipc_lw | jit_op_auipc_ld.

#[export] Instance jit_op_eq_dec : EqDecision jit_op.
Proof. solve_decision. Defined.

(** The numbers of [jit_op] continue those of [rv_op]. *)
Inductive jop : Type := Rv (o : rv_op) | Fused (o : jit_op).

(** The fields the JIT reads. *)
Record jit_decode : Type := mkJit {
  jd_pc : Z; jd_inst : Z; jd_imm : Z; jd_op : jop; jd_rd : Z; jd_rs1 : Z; jd_rs2 : Z; jd_rs3 : Z;
  jd_brt : bool; jd_brc : bool; jd_sz : Z }.

(** ** Configuration *)

Inductive mmu_fn : Type := O_lb | O_lh | O_lw | O_ld | O_sb | O_sh | O_sw | O_sd.

(** The options of the processor, and the addresses of the host's functions. *)
Class Jit : Type := {
  memory_registers : bool;
  update_instret : bool;
  use_mmu : bool;
  mmu_op : mmu_fn -> Z;
  lookup_trace_fast : Z;
  lookup_trace_slow : Z -> Z }.

(** ** The emitter's state *)

Record est : Type := mkEst {
  e_next : Z; e_term_pc : Z; e_instret : Z; e_callstack : list Z; e_labels : gmap Z Z;
  e_jmp_tramp : gmap Z Z; e_exit_tramp : gmap Z Z; e_jmp_fixup : gmap Z (list Z); e_start : Z; e_term : Z }.

(** The constructor. *)
Definition est_new : est := mkEst 0 0 0 [] ∅ ∅ ∅ ∅ (-1) (-1).

Definition set_e_next (v : Z) (s : est) : est :=
  mkEst v (e_term_pc s) (e_instret s) (e_callstack s) (e_labels s) (e_jmp_tramp s) (e_exit_tramp s) (e_jmp_fixup s) (e_start s) (e_term s).
Definition set_e_term_pc (v : Z) (s : est) : est :=
  mkEst (e_next s) v (e_instret s) (e_callstack s) (e_labels s) (e_jmp_tramp s) (e_exit_tramp s) (e_jmp_fixup s) (e_start s) (e_term s).
Definition set_e_instret (v : Z) (s : est) : est :=
  mkEst (e_next s) (e_term_pc s) v (e_callstack s) (e_labels s) (e_jmp_tramp s) (e_exit_tramp s) (e_jmp_fixup s) (e_start s) (e_term s).
Definition set_e_callstack (v : list Z) (s : est) : est :=
  mkEst (e_next s) (e_term_pc s) (e_instret s) v (e_labels s) (e_jmp_tramp s) (e_exit_tramp s) (e_jmp_fixup s) (e_start s) (e_term s).
Definition set_e_labels (v : gmap Z Z) (s : est) : est :=
  mkEst (e_next s) (e_term_pc s) (e_instret s) (e_callstack s) v (e_jmp_tramp s) (e_exit_tramp s) (e_jmp_fixup s) (e_start s) (e_term s).
Definition set_e_jmp_tramp (v : gmap Z Z) (s : est) : est :=
  mkEst (e_next s) (e_term_pc s) (e_instret s) (e_callstack s) (e_labels s) v (e_exit_tramp s) (e_jmp_fixup s) (e_start s) (e_term s).
Definition set_e_exit_tramp (v : gmap Z Z) (s : est) : est :=
  mkEst (e_next s) (e_term_pc s) (e_instret s) (e_callstack s) (e_labels s) (e_jmp_tramp s) v (e_jmp_fixup s) (e_start s) (e_term s).
Definition set_e_jmp_fixup (v : gmap Z (list Z)) (s : est) : est :=
  mkEst (e_next s) (e_term_pc s) (e_instret s) (e_callstack s) (e_labels s) (e_jmp_tramp s) (e_exit_tramp s) v (e_start s) (e_term s).
Definition set_e_start (v : Z) (s : est) : est :=
  mkEst (e_next s) (e_term_pc s) (e_instret s) (e_callstack s) (e_labels s) (e_jmp_tramp s) (e_exit_tramp s) (e_jmp_fixup s) v (e_term s).
Definition set_e_term (v : Z) (s : est) : est :=
  mkEst (e_next s) (e_term_pc s) (e_instret s) (e_callstack s) (e_labels s) (e_jmp_tramp s) (e_exit_tramp s) (e_jmp_fixup s) (e_start s) v.

(** ** The monad: a result, the instructions appended, the new state *)

Definition M (A : Type) : Type := est -> A * list instr * est.
#[export] Instance M_ret : MRet M := fun A a s => (a, [], s).
#[export] Instance M_bind : MBind M := fun A B k m s =>
  let '(a, c1, s1) := m s in let '(b, c2, s2) := k a s1 in (b, c1 ++ c2, s2).

Definition ins (i : instr) : M unit := fun s => (tt, [i], s).
Definition gets {A} (f : est -> A) : M A := fun s => (f s, [], s).
Definition modify (f : est -> est) : M unit := fun s => (tt, [], f s).

Definition newLabel : M Z := fun s => (e_next s, [], set_e_next (e_next s + 1) s).
Definition set_term_pc (v : Z) : M unit := modify (set_e_term_pc v).
(** The vector's back, where it is not empty. *)
Definition callstack_push (a : Z) : M unit := modify (fun s => set_e_callstack (a :: e_callstack s) s).
Definition callstack_back : M Z := gets (fun s => hd 0 (e_callstack s)).
Definition callstack_pop : M unit := modify (fun s => set_e_callstack (tl (e_callstack s)) s).
Definition callstack_size : M Z := gets (fun s => Z.of_nat (length (e_callstack s))).

(** What an emitter appends. *)
Definition code_of {A} (m : M A) (s : est) : list instr := snd (fst (m s)).

(** ** Registers of the guest *)

Definition rbp_reg_q (reg : Z) : opnd := Slot 64 reg.
Definition rbp_reg_d (reg : Z) : opnd := Slot 32 reg.

(** The guest registers that live in host registers, and where. *)
Definition allocation : list (Z * Z) :=
  [(1, 2); (2, 3); (5, 6); (6, 7); (10, 8); (11, 9); (12, 10); (13, 11); (14, 12); (15, 13); (16, 14); (17, 15)].

Section Frame.
Context `{Jit}.

(** The register number, 0 for [x0], negative where memory backs it. *)
Definition x86_reg (rd : Z) : Z :=
  if memory_registers then -1
  else if rd =? rv_ireg_zero then 0
  else match find (fun p => p.1 =? rd) allocation with Some p => p.2 | None => -1 end.

Definition commit_instret : M unit :=
  n ← gets e_instret;
  if update_instret && (0 <? n)
  then ins (as_add (Field P_instret) (Const n));; modify (set_e_instret 0)
  else mret tt.

Definition mov_list (l : list (opnd * opnd)) : M unit := fun s => (tt, map (fun p => as_mov p.1 p.2) l, s).
Definition pushes (l : list Z) : M unit := fun s => (tt, map as_push l, s).
Definition pops (l : list Z) : M unit := fun s => (tt, map as_pop l, s).
Definition loads_of (l : list (Z * Z)) : list (opnd * opnd) := map (fun p => (gpq p.2, rbp_reg_q p.1)) l.
Definition stores_of (l : list (Z * Z)) : list (opnd * opnd) := map (fun p => (rbp_reg_q p.1, gpq p.2)) l.

Definition emit_prolog : M unit :=
  (if negb memory_registers then pushes [12; 13; 14; 15; 3] else mret tt);;
  ins (as_push 5);;
  ins (as_mov (gpq 5) (gpq 7));;
  (if negb memory_registers then mov_list (loads_of allocation) else mret tt);;
  modify (set_e_instret 0).

(** The body of the epilogue, before the trampolines. *)
Definition emit_epilog_body : M unit :=
  commit_instret;;
  (if negb memory_registers then mov_list (stores_of allocation) else mret tt);;
  ins (as_pop 5);;
  (if negb memory_registers then pops [3; 15; 14; 13; 12] else mret tt);;
  ins as_ret.

(** The caller-saved host registers, around a call. *)
Definition volatile : list (Z * Z) := filter (fun p : Z * Z => p.1 ∈ [1; 5; 6; 10; 11; 12; 13]) allocation.
Definition save_volatile : M unit := if memory_registers then mret tt else mov_list (stores_of volatile).
Definition restore_volatile : M unit := if memory_registers then mret tt else mov_list (loads_of volatile).

(** One of the eight stubs of [create_load_store]. *)
Definition load_stub (l : Z) (f : mmu_fn) : M unit :=
  ins (as_bind l);; save_volatile;; ins (as_mov (gpq 7) rax);; ins (as_call (mmu_op f));; restore_volatile;; ins as_ret.
Definition store_stub (l : Z) (f : mmu_fn) : M unit :=
  ins (as_bind l);; save_volatile;; ins (as_mov (gpq 7) rax);; ins (as_mov (gpq 6) rcx);;
  ins (as_call (mmu_op f));; restore_volatile;; ins as_ret.

(** Trampolines: one per target. *)
Definition create_exit_tramp (pc : Z) : M Z :=
  t ← gets e_exit_tramp;
  match t !! pc with
  | Some l => mret l
  | None => l ← newLabel; modify (fun s => set_e_exit_tramp (<[pc := l]> (e_exit_tramp s)) s);; mret l
  end.
Definition create_jump_tramp (pc : Z) : M Z :=
  t ← gets e_jmp_tramp;
  match t !! pc with
  | Some l => mret l
  | None => l ← newLabel; modify (fun s => set_e_jmp_tramp (<[pc := l]> (e_jmp_tramp s)) s);; mret l
  end.
Definition push_fixup (pc l : Z) : M unit :=
  modify (fun s => set_e_jmp_fixup (<[pc := default [] (e_jmp_fixup s !! pc) ++ [l]]> (e_jmp_fixup s)) s).

Definition emit_jump_fixup (pc : Z) : M unit :=
  jtl ← create_jump_tramp pc;
  ins (as_jmp jtl);;
  label ← newLabel;
  ins (as_bind label);;
  push_fixup pc label.
Definition emit_branch_fixup (bf : cond) (pc : Z) : M unit :=
  jtl ← create_jump_tramp pc;
  ins (as_j bf jtl);;
  label ← newLabel;
  ins (as_bind label);;
  push_fixup pc label.

End Frame.
