(* ===== verification/JitProofs.v ===== *)
(** * The emitted code computes what the guest instruction computes *)

From Stdlib Require Import ZArith Lia Bool List.
From stdpp Require Import base list option gmap.
From S2P Require Import Prelude Meta Codec Isa X86 Jit JitEmit.

#[local] Open Scope Z_scope.
#[local] Open Scope word_scope.

Section State.
Context `{Jit}.

(** Where a guest register lives. *)
Lemma x86_reg_range (g : Z) :
  x86_reg g = -1 \/ (x86_reg g = 0 /\ g = 0) \/ (2 <= x86_reg g < 4 /\ g <> 0) \/ (6 <= x86_reg g < 16 /\ g <> 0).
Proof.
  unfold x86_reg. destruct memory_registers; [lia |]. unfold rv_ireg_zero. destruct (Z.eqb_spec g 0); [lia |].
  cbn [allocation find fst snd].
  repeat match goal with |- context [?a =? g] => destruct (Z.eqb_spec a g); [cbn; lia |] end. lia.
Qed.

Lemma x86_reg_inj (g g' : Z) : 0 < x86_reg g -> x86_reg g = x86_reg g' -> g = g'.
Proof.
  unfold x86_reg. destruct memory_registers; [lia |]. unfold rv_ireg_zero.
  destruct (Z.eqb_spec g 0), (Z.eqb_spec g' 0); try lia;
    cbn [allocation find fst snd];
    repeat match goal with |- context [?a =? g] => destruct (Z.eqb_spec a g); cbn [fst snd] end;
    repeat match goal with |- context [?a =? g'] => destruct (Z.eqb_spec a g'); cbn [fst snd] end; lia.
Qed.
Definition guest_reg (s : xstate) (g : Z) : Z := if x86_reg g >? 0 then xr s (x86_reg g) else slot s g.

(** Guest registers of [w] bits: the host's state for RV64 and for RV32. *)
Record word_state (w : Z) (s : xstate) : Prop := {
  xw_range : forall g, in_u w (guest_reg s g);
  xw_zero : guest_reg s 0 = 0 }.
(** The run [r] ends with [v] in [rd] and nothing else of the guest changed. *)
Definition writes (r : option (xstate * exit_)) (s : xstate) (rd v : Z) : Prop :=
  exists s', r = Some (s', Through)
    /\ (forall g, guest_reg s' g = if (g =? rd) && negb (rd =? 0) then v else guest_reg s g)
    /\ mem s' = mem s /\ pfield s' = pfield s.

(** The host registers of the allocation are not [rax] and [rcx]. *)
Lemma place (g : Z) : (exists p, x86_reg g = Z.pos p /\ p <> 1%positive) \/ x86_reg g = -1 \/ (x86_reg g = 0 /\ g = 0).
Proof.
  destruct (x86_reg_range g) as [E | [E | [[E _] | [E _]]]]; auto; left; destruct (x86_reg g) as [| p |]; try lia;
    exists p; split; auto; intros ->; lia.
Qed.
Lemma place_zero : x86_reg 0 = -1 \/ x86_reg 0 = 0.
Proof. unfold x86_reg. destruct memory_registers; auto. Qed.
Lemma memory_place (g : Z) : memory_registers = true -> x86_reg g = -1.
Proof. intros E. unfold x86_reg. rewrite E. reflexivity. Qed.
Lemma ra_place : memory_registers = false -> x86_reg 1 = 2.
Proof. intros E. unfold x86_reg. rewrite E. reflexivity. Qed.
Lemma place_ne (g g' : Z) (p p' : positive) : x86_reg g = Z.pos p -> x86_reg g' = Z.pos p' -> g <> g' -> p <> p'.
Proof. intros E E' Hg ->. apply Hg, x86_reg_inj; lia. Qed.

Lemma guest_pos (s : xstate) (g : Z) (p : positive) : x86_reg g = Z.pos p -> guest_reg s g = xr s (Z.pos p).
Proof. intros E. unfold guest_reg. rewrite E. reflexivity. Qed.
Lemma guest_neg (s : xstate) (g : Z) : x86_reg g = -1 -> guest_reg s g = slot s g.
Proof. intros E. unfold guest_reg. rewrite E. reflexivity. Qed.
Lemma guest_zero (s : xstate) (g : Z) : x86_reg g = 0 -> guest_reg s g = slot s g.
Proof. intros E. unfold guest_reg. rewrite E. reflexivity. Qed.

(** Where a register lives, with [rdx] apart. *)
Lemma place_rdx (g : Z) : memory_registers = false -> g <> 0 ->
  (g = 1 /\ x86_reg g = 2) \/ (exists q, x86_reg g = Z.pos q /\ q <> 1%positive /\ q <> 2%positive /\ Z.pos q <> 2 /\ g <> 1)
  \/ (x86_reg g = -1 /\ g <> 1).
Proof.
  intros Em Hg. pose proof (ra_place Em) as Hra.
  destruct (Z.eq_dec g 1) as [-> | H1]; [left; auto | right].
  destruct (place g) as [(q & E & Hq) | [E | [E ->]]]; [left | right; auto | congruence].
  assert (Z.pos q <> 2) by (intros E2; apply H1, x86_reg_inj; lia).
  exists q. repeat split; auto. congruence.
Qed.
Section Intro.
Context (s s' : xstate) (rd v : Z).
Hypothesis (Hmem : mem s' = mem s) (Hfields : pfield s' = pfield s).

Lemma writes_register (r : positive) : x86_reg rd = Z.pos r -> rd <> 0 -> r <> 1%positive ->
  (forall q, q <> 1%positive -> xr s' (Z.pos q) = if (q =? r)%positive then v else xr s (Z.pos q)) ->
  (forall g, x86_reg g <= 0 -> slot s' g = slot s g) ->
  writes (Some (s', Through)) s rd v.
Proof using Hmem Hfields.
  intros Er H0 H1 Hx Hs. exists s'. split; [reflexivity |]. split; [| auto]. intros g.
  rewrite (proj2 (Z.eqb_neq rd 0)), andb_true_r by assumption.
  destruct (place g) as [(q & E & Hq) | [E | [E _]]].
  - rewrite !(guest_pos _ _ _ E), Hx by assumption.
    destruct (Pos.eqb_spec q r) as [Eqr |].
    + rewrite (x86_reg_inj g rd), Z.eqb_refl by lia. reflexivity.
    + destruct (Z.eqb_spec g rd) as [-> |]; [congruence | reflexivity].
  - rewrite !(guest_neg _ _ E), Hs by lia. destruct (Z.eqb_spec g rd) as [-> |]; [congruence | reflexivity].
  - rewrite !(guest_zero _ _ E), Hs by lia. destruct (Z.eqb_spec g rd) as [-> |]; [congruence | reflexivity].
Qed.

Lemma writes_slot : x86_reg rd = -1 -> rd <> 0 ->
  (forall q, q <> 1%positive -> xr s' (Z.pos q) = xr s (Z.pos q)) ->
  (forall g, x86_reg g <= 0 -> slot s' g = if g =? rd then v else slot s g) ->
  writes (Some (s', Through)) s rd v.
Proof using Hmem Hfields.
  intros Er H0 Hx Hs. exists s'. split; [reflexivity |]. split; [| auto]. intros g.
  rewrite (proj2 (Z.eqb_neq rd 0)), andb_true_r by assumption.
  destruct (place g) as [(q & E & Hq) | [E | [E _]]].
  - rewrite !(guest_pos _ _ _ E), Hx by assumption. destruct (Z.eqb_spec g rd) as [-> |]; [congruence | reflexivity].
  - rewrite !(guest_neg _ _ E), Hs by lia. reflexivity.
  - rewrite !(guest_zero _ _ E), Hs by lia. reflexivity.
Qed.

(** When every guest register is a slot, the host's are free. *)
Lemma writes_memory : memory_registers = true -> rd <> 0 ->
  (forall g, slot s' g = if g =? rd then v else slot s g) ->
  writes (Some (s', Through)) s rd v.
Proof using Hmem Hfields.
  intros Em H0 Hs. exists s'. split; [reflexivity |]. split; [| auto]. intros g.
  rewrite (proj2 (Z.eqb_neq rd 0)), andb_true_r by assumption.
  rewrite !(guest_neg _ _ (memory_place g Em)). apply Hs.
Qed.
End Intro.

Lemma writes_nothing (s : xstate) (v : Z) : writes (Some (s, Through)) s 0 v.
Proof. exists s. split; [reflexivity |]. split; [| split; reflexivity]. intros g. rewrite andb_false_r. reflexivity. Qed.

(** What [emit_x dec] appends computes [f] of the sources, at [w] bits. *)
Definition computes_at (w : Z) (emit_x : jit_decode -> M bool) (sel : operand2) (f : Z -> Z -> Z) (dec : jit_decode) (e : est) (s : xstate) : Prop :=
  writes (run_code documented None (code_of (emit_x dec) e) s) s (jd_rd dec)
    (uwrap w (f (swrap w (guest_reg s (jd_rs1 dec)))
       match sel with Reg => swrap w (guest_reg s (jd_rs2 dec)) | Imm => jd_imm dec end)).

End State.
#[global] Arguments xw_range {_ w}.
#[global] Arguments xw_zero {_ w}.
Abbreviation xstate_wf := (word_state 64).
Abbreviation computes := (computes_at 64).

Create HintDb emitters.
#[export] Hint Unfold emit_add emit_sub emit_mul emit_mulh emit_mulhu emit_mulhsu emit_div emit_rem emit_divu emit_remu emit_slt emit_sltu emit_and emit_or emit_xor emit_sll emit_srl emit_sra emit_addw emit_subw emit_mulw emit_divw emit_remw emit_divuw emit_remuw emit_sllw emit_srlw emit_sraw emit_addi emit_slti emit_sltiu emit_andi emit_ori emit_xori emit_slli emit_srli emit_srai emit_addiw emit_slliw emit_srliw emit_sraiw emit_lui emit_auipc : emitters.
#[export] Hint Unfold emit_mv_rax_rs1 emit_mv_eax_rs1 emit_mv_rd_rs1 emit_mv_rd_rs1_32 emit_mv_rd_rs2 emit_mv_rd_rs1_sx_32
  emit_mv_rd_rs2_sx_32 emit_mv_cl_rs2 emit_sx_32_rd emit_zero_rd rv_ireg_zero rv_ireg_ra : emitters.

Lemma eqb_ne (a b : Z) : a <> b -> (a =? b) = false.
Proof. apply Z.eqb_neq. Qed.
Lemma eqb_ne' (a b : Z) : a <> b -> (b =? a) = false.
Proof. intros. apply Z.eqb_neq. auto. Qed.
Lemma peqb_ne (a b : positive) : a <> b -> (a =? b)%positive = false.
Proof. apply Pos.eqb_neq. Qed.
Lemma peqb_ne' (a b : positive) : a <> b -> (b =? a)%positive = false.
Proof. intros. apply Pos.eqb_neq. auto. Qed.

(** Decide the comparisons of register numbers that the hypotheses decide. *)
Ltac equalities :=
  repeat match goal with
  | H : ?a <> ?b |- context [(?a =? ?b)%Z] => rewrite (eqb_ne a b H)
  | H : ?a <> ?b |- context [(?b =? ?a)%Z] => rewrite (eqb_ne' a b H)
  | H : ?a <> ?b |- context [(?a =? ?b)%positive] => rewrite (peqb_ne a b H)
  | H : ?a <> ?b |- context [(?b =? ?a)%positive] => rewrite (peqb_ne' a b H)
  end; rewrite ?Z.eqb_refl, ?Pos.eqb_refl.

Ltac place_of g :=
  let q := fresh "q" in let E := fresh "E" in let Hq := fresh "Hq" in
  destruct (place g) as [(q & E & Hq) | [E | [E ->]]]; [| | try congruence; try contradiction].

Ltac different :=
  repeat match goal with
  | E : x86_reg ?a = Z.pos ?p, E' : x86_reg ?b = Z.pos ?q, H : ?a <> ?b |- _ =>
      lazymatch goal with
      | _ : p <> q |- _ => fail
      | _ => pose proof (place_ne a b p q E E' H)
      end
  end.

(** The cases of a register operand against the destination. *)
Ltac operand_of rs rd :=
  destruct (Z.eq_dec rs 0) as [-> |]; [| destruct (Z.eq_dec rs rd) as [-> |]; [| place_of rs]].
Ltac destination rd := destruct (Z.eq_dec rd 0) as [-> |]; [| place_of rd].

Ltac use_places :=
  equalities;
  repeat match goal with
  | E : x86_reg ?r = _ |- context [x86_reg ?r] => rewrite E
  | |- context [x86_reg 0] => let E := fresh "Ezero" in destruct place_zero as [E | E]; rewrite E
  end;
  equalities;
  cbn [Z.gtb Z.ltb Z.compare CompOpp andb orb].

Ltac run_it :=
  cbv beta iota zeta delta [code_of mbind mret M_bind M_ret ins modify gets newLabel set_term_pc fst snd app];
  cbn - [uwrap swrap x86_reg Z.pow inst_length Z.land Z.lor Z.lxor Z.testbit upd writes rv_ireg_zero guest_reg const_ok const64_ok count_ok quotient_u quotient_s holds_cond sub_flags add_flags logic_flags].

(** Reading back what was written. *)
Lemma upd_same (f : Z -> Z) (i v : Z) : upd f i v i = v.
Proof. unfold upd. rewrite Z.eqb_refl. reflexivity. Qed.
Lemma upd_other (f : Z -> Z) (i v j : Z) : j <> i -> upd f i v j = f j.
Proof. intros Hj. unfold upd. rewrite (proj2 (Z.eqb_neq _ _) Hj). reflexivity. Qed.

Ltac lookups :=
  cbn [xr slot set_xr set_slot set_flags set_field];
  repeat match goal with
  | |- context [upd ?f ?i ?v ?j] =>
      first [rewrite (upd_same f i v) | rewrite (upd_other f i v j) by first [discriminate | congruence]]
  end.

(** Values in terms of the guest's registers. *)
Ltac values :=
  repeat match goal with
  | E : x86_reg ?r = Z.pos ?q |- context [xr ?s (Z.pos ?q)] => rewrite <- (guest_pos s r q E)
  | E : x86_reg ?r = -1 |- context [slot ?s ?r] => rewrite <- (guest_neg s r E)
  | E : x86_reg ?r = 0 |- context [slot ?s ?r] => rewrite <- (guest_zero s r E)
  end;
  repeat match goal with H : guest_reg ?s 0 = 0 |- context [guest_reg ?s 0] => rewrite H end;
  repeat match goal with H : forall g, in_u ?w (guest_reg ?s g) |- context [uwrap ?w (guest_reg ?s ?r)] =>
    rewrite (uwrap_small w (guest_reg s r)) by apply H end.

Ltac written :=
  lazymatch goal with
  | |- writes (Some _) _ 0 _ => apply writes_nothing
  | E : x86_reg ?r = Z.pos ?q |- writes (Some _) _ ?r _ =>
      apply (fun Hm Hf => writes_register _ _ _ _ Hm Hf q E);
      [reflexivity | reflexivity | assumption | assumption | | intros; reflexivity];
      let i := fresh "i" in let Hi := fresh "Hi" in let Hj := fresh "Hj" in intros i Hi;
      destruct (Pos.eqb_spec i q) as [-> | Hj]; lookups; [values | try reflexivity]
  | E : x86_reg ?r = -1 |- writes (Some _) _ ?r _ =>
      apply (fun Hm Hf => writes_slot _ _ _ _ Hm Hf E); [reflexivity | reflexivity | assumption | intros; lookups; try reflexivity |];
      let g := fresh "g" in let Hg := fresh "Hg" in intros g Hg;
      destruct (Z.eqb_spec g r) as [-> | Hg']; lookups; [values | try reflexivity]
  end.

(** Congruences of the sign. *)
Lemma uwrap_add_swrap (w a b : Z) : uwrap w (swrap w a + swrap w b) = uwrap w (a + b).
Proof. rewrite <- uwrap_add_l, <- uwrap_add_r, !uwrap_swrap, uwrap_add_l, uwrap_add_r. reflexivity. Qed.
Lemma uwrap_add_swrap_l (w a b : Z) : uwrap w (swrap w a + b) = uwrap w (a + b).
Proof. rewrite <- uwrap_add_l, uwrap_swrap, uwrap_add_l. reflexivity. Qed.
Lemma uwrap_sub_swrap (w a b : Z) : uwrap w (swrap w a - swrap w b) = uwrap w (a - b).
Proof. rewrite <- uwrap_sub_l, <- uwrap_sub_r, !uwrap_swrap, uwrap_sub_l, uwrap_sub_r. reflexivity. Qed.
Lemma uwrap_mul_swrap (w a b : Z) : uwrap w (swrap w a * swrap w b) = uwrap w (a * b).
Proof. rewrite <- uwrap_mul_l, <- uwrap_mul_r, !uwrap_swrap, uwrap_mul_l, uwrap_mul_r. reflexivity. Qed.
Lemma uwrap_land_swrap (w a b : Z) : 0 <= w -> uwrap w (swrap w a .& swrap w b) = uwrap w (a .& b).
Proof. intros. rewrite <- !(uwrap_bitop Z.land andb), !uwrap_swrap by (auto using Z.land_spec). reflexivity. Qed.
Lemma uwrap_lor_swrap (w a b : Z) : 0 <= w -> uwrap w (swrap w a .| swrap w b) = uwrap w (a .| b).
Proof. intros. rewrite <- !(uwrap_bitop Z.lor orb), !uwrap_swrap by (auto using Z.lor_spec). reflexivity. Qed.
Lemma uwrap_lxor_swrap (w a b : Z) : 0 <= w -> uwrap w (swrap w a .^ swrap w b) = uwrap w (a .^ b).
Proof. intros. rewrite <- !(uwrap_bitop Z.lxor xorb), !uwrap_swrap by (auto using Z.lxor_spec). reflexivity. Qed.


(** Constants that can be encoded. *)
Lemma const_ok_imm (w v : Z) : w = 64 \/ w = 32 -> in_s 32 v -> const_ok w v = true.
Proof. unfold const_ok, in_s. intros [-> | ->] Hv; cbn [Z.eqb Pos.eqb]; change (32 - 1) with 31 in *; lia. Qed.
Lemma const64_ok_imm (v : Z) : in_s 32 v -> const64_ok v = true.
Proof. unfold const64_ok, in_s. intros Hv. change (2 ^ (32 - 1)) with 2147483648 in *. change (2 ^ 63) with 9223372036854775808. change (2 ^ 64) with 18446744073709551616. lia. Qed.
Lemma const_ok_b2z (w : Z) (b : bool) : w = 64 \/ w = 32 -> const_ok w (b2z b) = true.
Proof. intros [-> | ->]; destruct b; reflexivity. Qed.
Lemma const64_ok_b2z (b : bool) : const64_ok (b2z b) = true.
Proof. destruct b; reflexivity. Qed.
Lemma count_ok_imm (v : Z) : 0 <= v < 64 -> count_ok v = true.
Proof. unfold count_ok. lia. Qed.

(** Comparisons, from the flags. *)
Lemma holds_e (w a b : Z) : 0 < w -> in_u w a -> in_u w b -> holds_cond CondE (sub_flags w a b) = (a =? b).
Proof.
  intros Hw Ha Hb. cbn. unfold uwrap, in_u in *. destruct (Z.eqb_spec a b) as [-> | Hab].
  - rewrite Z.sub_diag, Z.mod_0_l by lia. reflexivity.
  - apply Z.eqb_neq. intros E. apply Hab. apply Z.mod_divide in E as [k E]; [| lia].
    assert (k = 0) by nia. subst. lia.
Qed.
Lemma holds_ne (w a b : Z) : 0 < w -> in_u w a -> in_u w b -> holds_cond CondNE (sub_flags w a b) = negb (a =? b).
Proof. intros. rewrite <- (holds_e w a b) by assumption. reflexivity. Qed.
Lemma holds_b (w a b : Z) : holds_cond CondB (sub_flags w a b) = (a <? b).
Proof. reflexivity. Qed.
Lemma holds_ae (w a b : Z) : holds_cond CondAE (sub_flags w a b) = negb (a <? b).
Proof. reflexivity. Qed.
Lemma sign_bit (w a : Z) : 0 < w -> Z.testbit (uwrap w a) (w - 1) = (swrap w a <? 0).
Proof.
  intros Hw. rewrite <- (swrap_uwrap w a). pose proof (uwrap_range w a ltac:(lia)) as Hu.
  rewrite (swrap_neg w _ Hw Hu). unfold in_u in Hu. pose proof (pow2_half w Hw).
  rewrite Z.testbit_odd, shiftr_div by lia.
  destruct (Z.ltb_spec (uwrap w a) (2 ^ (w - 1))).
  - rewrite Z.div_small by lia. cbn. lia.
  - replace (uwrap w a / 2 ^ (w - 1)) with 1; [cbn; lia |].
    apply (Z.div_unique _ _ _ (uwrap w a - 2 ^ (w - 1))); lia.
Qed.
Lemma holds_l (w a b : Z) : 0 < w -> in_u w a -> in_u w b ->
  holds_cond CondL (sub_flags w a b) = (swrap w a <? swrap w b).
Proof.
  intros Hw Ha Hb. cbn. rewrite sign_bit, swrap_uwrap by lia.
  pose proof (swrap_range w a Hw) as Ra. pose proof (swrap_range w b Hw) as Rb. pose proof (swrap_range w (a - b) Hw) as Rd.
  assert (E : uwrap w (swrap w (a - b)) = uwrap w (swrap w a - swrap w b)) by (rewrite uwrap_sub_swrap, uwrap_swrap; reflexivity).
  unfold uwrap, in_s in *. pose proof (pow2_half w Hw). pose proof (pow2_pos (w - 1) ltac:(lia)).
  apply (f_equal (fun x => x - (swrap w a - swrap w b) mod 2 ^ w)) in E. rewrite Z.sub_diag in E.
  set (d := swrap w (a - b)) in *. set (x := swrap w a) in *. set (y := swrap w b) in *.
  assert (exists k, d = x - y + k * 2 ^ w) as [k Hk].
  { exists (d / 2 ^ w - (x - y) / 2 ^ w). pose proof (Z.div_mod d (2 ^ w) ltac:(lia)). pose proof (Z.div_mod (x - y) (2 ^ w) ltac:(lia)). nia. }
  assert (k = 0 \/ k = 1 \/ k = -1) as [-> | [-> | ->]] by nia;
    destruct (Z.ltb_spec d 0), (Z.ltb_spec x y), (Z.eqb_spec (x - y) d); cbn; lia.
Qed.
Lemma holds_ge (w a b : Z) : 0 < w -> in_u w a -> in_u w b ->
  holds_cond CondGE (sub_flags w a b) = negb (swrap w a <? swrap w b).
Proof. intros. rewrite <- (holds_l w a b) by assumption. reflexivity. Qed.

(** The low byte. *)
Lemma low_byte (x : Z) (b : bool) : uwrap 8 (Z.shiftl (x >>> 8) 8 + b2z b) = b2z b.
Proof. rewrite Z.shiftl_mul_pow2, Z.add_comm by lia. rewrite uwrap_add_multiple by lia. destruct b; reflexivity. Qed.

(** Residues: [y] is what is left of [x] modulo [2 ^ w] when inner wraps are
    dropped. *)
Class Residue (w x y : Z) : Prop := residue : uwrap w x = uwrap w y.
#[export] Typeclasses Opaque uwrap swrap Z.add Z.sub Z.mul Z.opp Z.land Z.lor Z.lxor Z.shiftl Z.shiftr Z.div Z.modulo Z.pow.

#[export] Instance residue_self (w x : Z) : Residue w x x | 20.
Proof. reflexivity. Qed.
#[export] Instance residue_uwrap (w x y : Z) : Residue w x y -> Residue w (uwrap w x) y | 1.
Proof. unfold Residue. intros <-. apply uwrap_idemp. Qed.
#[export] Instance residue_swrap (w x y : Z) : Residue w x y -> Residue w (swrap w x) y | 1.
Proof. unfold Residue. intros <-. apply uwrap_swrap. Qed.
Lemma residue_low (n w x : Z) : 0 <= n <= w -> uwrap n (uwrap w x) = uwrap n x.
Proof.
  intros Hn. apply Z.bits_inj'. intros i Hi. rewrite !testbit_uwrap by lia.
  destruct (Z.ltb_spec i n), (Z.ltb_spec i w); try reflexivity; lia.
Qed.
#[export] Instance residue_low_uwrap (x y : Z) : Residue 32 x y -> Residue 32 (uwrap 64 x) y | 1.
Proof. unfold Residue. intros <-. apply residue_low. lia. Qed.
#[export] Instance residue_low_swrap (x y : Z) : Residue 32 x y -> Residue 32 (swrap 64 x) y | 1.
Proof. unfold Residue. intros <-. rewrite <- (residue_low 32 64), uwrap_swrap by lia. apply residue_low. lia. Qed.
#[export] Instance residue_high (x y y' : Z) : Residue 32 y y' -> Residue 32 (Z.shiftl x 32 + y) y' | 0.
Proof. unfold Residue. intros <-. rewrite Z.shiftl_mul_pow2, Z.add_comm, uwrap_add_multiple by lia. reflexivity. Qed.
#[export] Instance residue_add (w a a' b b' : Z) : Residue w a a' -> Residue w b b' -> Residue w (a + b) (a' + b') | 2.
Proof. unfold Residue. intros Ha Hb. rewrite <- uwrap_add_l, <- uwrap_add_r, Ha, Hb, uwrap_add_l, uwrap_add_r. reflexivity. Qed.
#[export] Instance residue_sub (w a a' b b' : Z) : Residue w a a' -> Residue w b b' -> Residue w (a - b) (a' - b') | 2.
Proof. unfold Residue. intros Ha Hb. rewrite <- uwrap_sub_l, <- uwrap_sub_r, Ha, Hb, uwrap_sub_l, uwrap_sub_r. reflexivity. Qed.
#[export] Instance residue_opp (w a a' : Z) : Residue w a a' -> Residue w (- a) (- a') | 2.
Proof. unfold Residue. rewrite <- !Z.sub_0_l. intros Ha. rewrite <- uwrap_sub_r, Ha, uwrap_sub_r. reflexivity. Qed.
#[export] Instance residue_mul (w a a' b b' : Z) : Residue w a a' -> Residue w b b' -> Residue w (a * b) (a' * b') | 2.
Proof. unfold Residue. intros Ha Hb. rewrite <- uwrap_mul_l, <- uwrap_mul_r, Ha, Hb, uwrap_mul_l, uwrap_mul_r. reflexivity. Qed.

Lemma uwrap_bit (f : Z -> Z -> Z) (g : bool -> bool -> bool) (w a a' b b' : Z) : 0 <= w -> g false false = false ->
  (forall x y n, Z.testbit (f x y) n = g (Z.testbit x n) (Z.testbit y n)) ->
  uwrap w a = uwrap w a' -> uwrap w b = uwrap w b' -> uwrap w (f a b) = uwrap w (f a' b').
Proof. intros Hw Hg Hf Ha Hb. rewrite <- !(uwrap_bitop f g) by assumption. rewrite Ha, Hb. reflexivity. Qed.
#[export] Instance residue_land (a a' b b' : Z) : Residue 64 a a' -> Residue 64 b b' -> Residue 64 (a .& b) (a' .& b') | 2.
Proof. apply (uwrap_bit Z.land andb); auto using Z.land_spec. lia. Qed.
#[export] Instance residue_lor (a a' b b' : Z) : Residue 64 a a' -> Residue 64 b b' -> Residue 64 (a .| b) (a' .| b') | 2.
Proof. apply (uwrap_bit Z.lor orb); auto using Z.lor_spec. lia. Qed.
#[export] Instance residue_lxor (a a' b b' : Z) : Residue 64 a a' -> Residue 64 b b' -> Residue 64 (a .^ b) (a' .^ b') | 2.
Proof. apply (uwrap_bit Z.lxor xorb); auto using Z.lxor_spec. lia. Qed.

Lemma residues (w x y z z' : Z) : Residue w x z -> Residue w y z' -> z = z' -> uwrap w x = uwrap w y.
Proof. unfold Residue. intros -> -> ->. reflexivity. Qed.
Lemma word_residues (w n x y z z' : Z) : Residue w x z -> Residue w y z' -> z = z' -> uwrap n (swrap w x) = uwrap n (swrap w y).
Proof. intros Hx Hy Hz. f_equal. apply swrap_uwrap_inj. exact (residues w x y z z' Hx Hy Hz). Qed.
Lemma small_residues (w x y z z' : Z) : in_u w x -> Residue w x z -> Residue w y z' -> z = z' -> x = uwrap w y.
Proof. intros Hx Ex Ey E. rewrite <- (uwrap_small w x Hx). exact (residues w x y z z' Ex Ey E). Qed.

(** Shift counts, in [cl]. *)
Lemma count_mod (k x : Z) : 0 <= k <= 8 -> uwrap 8 (uwrap 32 x) mod 2 ^ k = swrap 64 x mod 2 ^ k.
Proof.
  intros Hk. change (uwrap 8 (uwrap 32 x) mod 2 ^ k) with (uwrap k (uwrap 8 (uwrap 32 x))).
  change (swrap 64 x mod 2 ^ k) with (uwrap k (swrap 64 x)).
  rewrite <- (residue_low k 64 (swrap 64 x)), uwrap_swrap, !residue_low by lia. reflexivity.
Qed.
Lemma count_64 (x : Z) : uwrap 8 (uwrap 32 x) mod 64 = swrap 64 x mod 64.
Proof. exact (count_mod 6 x ltac:(lia)). Qed.
Lemma count_32 (x : Z) : uwrap 8 (uwrap 32 x) mod 32 = swrap 64 x mod 32.
Proof. exact (count_mod 5 x ltac:(lia)). Qed.
Lemma uwrap_b2z (w : Z) (b : bool) : 1 <= w -> uwrap w (b2z b) = b2z b.
Proof. intros Hw. apply uwrap_small. assert (2 ^ 1 <= 2 ^ w) by (apply Z.pow_le_mono_r; lia). destruct b; split; cbn; lia. Qed.

(** Low words. *)
Lemma low_u (x : Z) : uwrap 32 (swrap 64 x) = uwrap 32 x.
Proof. apply (residues 32 _ _ x x); [typeclasses eauto | typeclasses eauto | reflexivity]. Qed.
Lemma low_s (x : Z) : swrap 32 (swrap 64 x) = swrap 32 x.
Proof. apply swrap_uwrap_inj, low_u. Qed.
Lemma sra_word (a c : Z) : swrap 32 (swrap 32 a / 2 ^ (c mod 32)) = swrap 32 a / 2 ^ (c mod 32).
Proof.
  apply swrap_small; [lia |]. apply in_s_shift; [lia | apply Z.mod_pos_bound; lia | apply swrap_range; lia].
Qed.
Lemma low_word (x y : Z) : swrap 32 (Z.shiftl x 32 + y) = swrap 32 y.
Proof. apply swrap_uwrap_inj. rewrite Z.shiftl_mul_pow2, Z.add_comm, uwrap_add_multiple by lia. reflexivity. Qed.

Ltac constants :=
  repeat match goal with
  | |- context [const_ok ?w ?v] => first [rewrite (const_ok_imm w v) by auto | rewrite const_ok_b2z by auto | change (const_ok w v) with true ]
  | |- context [const64_ok ?v] => first [rewrite (const64_ok_imm v) by auto | rewrite const64_ok_b2z | change (const64_ok v) with true ]
  | |- context [count_ok ?v] => rewrite (count_ok_imm v) by lia
  end.
Ltac emit_cases regs :=
  intros [Hr Hz]; intros;
  match goal with |- computes_at _ _ _ _ ?dec _ _ =>
    let rd := fresh "rd" in let rs1 := fresh "rs1" in let rs2 := fresh "rs2" in let imm := fresh "imm" in
    destruct dec as [pc inst imm op rd rs1 rs2 rs3 brt brc sz];
    unfold computes_at; autounfold with emitters; cbn [jd_pc jd_inst jd_imm jd_rd jd_rs1 jd_rs2 fst snd] in *;
    destination rd; [| regs rd rs1 rs2 ..];
    try match goal with |- context [imm =? 0] => destruct (Z.eqb_spec imm 0) as [-> |] end
  end;
  different; use_places; run_it; constants; run_it.
Ltac emit_rr := emit_cases ltac:(fun rd rs1 rs2 => operand_of rs1 rd; operand_of rs2 rd).
Ltac emit_ri := emit_cases ltac:(fun rd rs1 rs2 => operand_of rs1 rd).

Ltac conds :=
  rewrite ?low_byte, ?holds_b, ?holds_ae, ?holds_l, ?holds_ge, ?count_64, ?count_32
    by (first [lia | apply uwrap_range; lia | eauto]).
Ltac units :=
  change (swrap 64 0) with 0; change (uwrap 32 0) with 0; change (uwrap 64 0) with 0; change (swrap 32 0) with 0;
  change (0 mod 64) with 0; change (0 mod 32) with 0; change (2 ^ 0) with 1;
  rewrite ?Z.lxor_nilpotent, ?Zdiv_0_l, ?Z.mul_1_r, ?Z.div_1_r, ?Z.add_0_l, ?Z.add_0_r, ?Z.sub_0_l, ?Z.sub_0_r, ?Z.mul_0_l, ?Z.mul_0_r, ?Z.land_0_l, ?Z.land_0_r, ?Z.lor_0_l, ?Z.lor_0_r, ?Z.lxor_0_l, ?Z.lxor_0_r;
  change (uwrap 32 0) with 0; change (uwrap 64 0) with 0.
Ltac identical := match goal with |- ?x = ?y => constr_eq x y; reflexivity end.
Ltac same :=
  units; first [identical |
    lazymatch goal with
    | |- context [_ / _] => fail
    | |- _ * _ = _ => apply Z.mul_comm
    | |- context [_ ^ _] => fail
    | |- _ .& _ = _ => apply Z.land_comm
    | |- _ .| _ = _ => apply Z.lor_comm
    | |- _ .^ _ = _ => apply Z.lxor_comm
    | _ => lia
    end].
Ltac small_terms :=
  repeat match goal with
  | |- context [uwrap 64 (guest_reg ?s ?r)] => rewrite (uwrap_small 64 (guest_reg s r)) by auto
  | H : in_s 32 ?i |- context [swrap 32 ?i] => rewrite (swrap_small 32 i ltac:(lia) H)
  | H : in_s 32 ?i |- context [swrap 64 ?i] => rewrite (swrap_small 64 i ltac:(lia) (in_s_mono 32 64 i ltac:(lia) H))
  end.
Ltac compared :=
  rewrite ?uwrap_b2z, ?uwrap_swrap, ?low_word, ?low_u, ?low_s, ?swrap_uwrap, ?uwrap_idemp, ?sra_word by lia; units; rewrite ?swrap_uwrap, ?low_word, ?swrap_uwrap, ?sra_word; units; rewrite ?uwrap_swrap; small_terms; identical.
Ltac value :=
  conds;
  first [ identical | compared
    | simple eapply residues; [typeclasses eauto | typeclasses eauto | solve [same]]
    | rewrite ?uwrap_idemp; simple eapply word_residues; [typeclasses eauto | typeclasses eauto | solve [same]]
    | simple eapply small_residues; [solve [auto] | typeclasses eauto | typeclasses eauto | solve [same]]
    | idtac ].
Ltac finish := match goal with |- writes _ _ _ _ => idtac | _ => value end.
