(* ===== verification/JitAlu.v ===== *)
(** * The JIT: additions, comparisons, logic and shifts

    What the emitters of the computational instructions other than products and
    quotients append computes the value of the instruction set ([computes], of
    [JitProofs]), for every placement of the operands in host registers and in the
    processor object. *)

From Stdlib Require Import ZArith Lia Bool List.
From stdpp Require Import base list option gmap.
From S2P Require Import Prelude Meta Codec Isa X86 Jit JitEmit JitProofs.

#[local] Open Scope Z_scope.
#[local] Open Scope word_scope.

Section Alu.
Context `{Jit}.
Lemma emit_addi_ok dec e s : xstate_wf s -> in_s 32 (jd_imm dec) -> computes emit_addi Imm (fun a b => swrap 64 (a + b)) dec e s.
Proof.
  emit_ri; written; value.
Qed.
Lemma emit_slti_ok dec e s : xstate_wf s -> in_s 32 (jd_imm dec) -> computes emit_slti Imm (fun a b => b2z (a <? b)) dec e s.
Proof.
  emit_ri; written; value.
Qed.
Lemma emit_sltiu_ok dec e s : xstate_wf s -> in_s 32 (jd_imm dec) -> computes emit_sltiu Imm (fun a b => b2z (uwrap 64 a <? uwrap 64 b)) dec e s.
Proof.
  emit_ri; written; value.
Qed.
Lemma emit_xori_ok dec e s : xstate_wf s -> in_s 32 (jd_imm dec) -> computes emit_xori Imm (fun a b => swrap 64 (a .^ b)) dec e s.
Proof.
  emit_ri; written; value.
Qed.
Lemma emit_ori_ok dec e s : xstate_wf s -> in_s 32 (jd_imm dec) -> computes emit_ori Imm (fun a b => swrap 64 (a .| b)) dec e s.
Proof.
  emit_ri; written; value.
Qed.
Lemma emit_andi_ok dec e s : xstate_wf s -> in_s 32 (jd_imm dec) -> computes emit_andi Imm (fun a b => swrap 64 (a .& b)) dec e s.
Proof.
  emit_ri; written; value.
Qed.
Lemma emit_slli_ok dec e s : xstate_wf s -> 0 <= jd_imm dec < 64 -> computes emit_slli Imm (fun a b => swrap 64 (a * 2 ^ (b mod 64))) dec e s.
Proof.
  emit_ri; written; value.
Qed.
Lemma emit_srli_ok dec e s : xstate_wf s -> 0 <= jd_imm dec < 64 -> computes emit_srli Imm (fun a b => swrap 64 (uwrap 64 a / 2 ^ (b mod 64))) dec e s.
Proof.
  emit_ri; written; value.
Qed.
Lemma emit_srai_ok dec e s : xstate_wf s -> 0 <= jd_imm dec < 64 -> computes emit_srai Imm (fun a b => a / 2 ^ (b mod 64)) dec e s.
Proof.
  emit_ri; written; value.
Qed.
Lemma emit_add_ok dec e s : xstate_wf s -> computes emit_add Reg (fun a b => swrap 64 (a + b)) dec e s.
Proof.
  emit_rr; written; value.
Qed.
Lemma emit_sub_ok dec e s : xstate_wf s -> computes emit_sub Reg (fun a b => swrap 64 (a - b)) dec e s.
Proof.
  emit_rr; written; value.
Qed.
Lemma emit_sll_ok dec e s : xstate_wf s -> computes emit_sll Reg (fun a b => swrap 64 (a * 2 ^ (b mod 64))) dec e s.
Proof.
  emit_rr; written; value.
Qed.
Lemma emit_slt_ok dec e s : xstate_wf s -> computes emit_slt Reg (fun a b => b2z (a <? b)) dec e s.
Proof.
  emit_rr; written; value.
Qed.
Lemma emit_sltu_ok dec e s : xstate_wf s -> computes emit_sltu Reg (fun a b => b2z (uwrap 64 a <? uwrap 64 b)) dec e s.
Proof.
  emit_rr; written; value.
Qed.
Lemma emit_xor_ok dec e s : xstate_wf s -> computes emit_xor Reg (fun a b => swrap 64 (a .^ b)) dec e s.
Proof.
  emit_rr; written; value.
Qed.
Lemma emit_srl_ok dec e s : xstate_wf s -> computes emit_srl Reg (fun a b => swrap 64 (uwrap 64 a / 2 ^ (b mod 64))) dec e s.
Proof.
  emit_rr; written; value.
Qed.
Lemma emit_sra_ok dec e s : xstate_wf s -> computes emit_sra Reg (fun a b => a / 2 ^ (b mod 64)) dec e s.
Proof.
  emit_rr; written; value.
Qed.
Lemma emit_or_ok dec e s : xstate_wf s -> computes emit_or Reg (fun a b => swrap 64 (a .| b)) dec e s.
Proof.
  emit_rr; written; value.
Qed.
Lemma emit_and_ok dec e s : xstate_wf s -> computes emit_and Reg (fun a b => swrap 64 (a .& b)) dec e s.
Proof.
  emit_rr; written; value.
Qed.
Lemma emit_addiw_ok dec e s : xstate_wf s -> in_s 32 (jd_imm dec) -> computes emit_addiw Imm (fun a b => swrap 32 (a + b)) dec e s.
Proof.
  emit_ri; written; value.
Qed.
Lemma emit_slliw_ok dec e s : xstate_wf s -> 0 <= jd_imm dec < 32 -> computes emit_slliw Imm (fun a b => swrap 32 (a * 2 ^ (b mod 32))) dec e s.
Proof.
  emit_ri; written; value.
Qed.
Lemma emit_srliw_ok dec e s : xstate_wf s -> 0 <= jd_imm dec < 32 -> computes emit_srliw Imm (fun a b => swrap 32 (uwrap 32 a / 2 ^ (b mod 32))) dec e s.
Proof.
  emit_ri; written; value.
Qed.
Lemma emit_sraiw_ok dec e s : xstate_wf s -> 0 <= jd_imm dec < 32 -> computes emit_sraiw Imm (fun a b => swrap 32 a / 2 ^ (b mod 32)) dec e s.
Proof.
  emit_ri; written; value.
Qed.
Lemma emit_addw_ok dec e s : xstate_wf s -> ~ (jd_rs1 dec = 0 /\ 0 < x86_reg (jd_rd dec) /\ x86_reg (jd_rs2 dec) <= 0) -> computes emit_addw Reg (fun a b => swrap 32 (a + b)) dec e s.
Proof.
  emit_rr; try (exfalso; match goal with Hn : ~ _ |- _ => apply Hn; lia end); written; value.
Qed.
Lemma emit_subw_ok dec e s : xstate_wf s -> computes emit_subw Reg (fun a b => swrap 32 (a - b)) dec e s.
Proof.
  emit_rr; written; value.
Qed.
Lemma emit_sllw_ok dec e s : xstate_wf s -> computes emit_sllw Reg (fun a b => swrap 32 (a * 2 ^ (b mod 32))) dec e s.
Proof.
  emit_rr; written; value.
Qed.
Lemma emit_srlw_ok dec e s : xstate_wf s -> computes emit_srlw Reg (fun a b => swrap 32 (uwrap 32 a / 2 ^ (b mod 32))) dec e s.
Proof.
  emit_rr; written; value.
Qed.
Lemma emit_sraw_ok dec e s : xstate_wf s -> computes emit_sraw Reg (fun a b => swrap 32 a / 2 ^ (b mod 32)) dec e s.
Proof.
  emit_rr; written; value.
Qed.
Lemma emit_mul_ok dec e s : xstate_wf s -> computes emit_mul Reg (fun a b => swrap 64 (a * b)) dec e s.
Proof.
  emit_rr; written; value.
Qed.
Lemma emit_mulw_ok dec e s : xstate_wf s -> computes emit_mulw Reg (fun a b => swrap 32 (a * b)) dec e s.
Proof.
  emit_rr; written; value.
Qed.
End Alu.
