(* ===== verification/JitMul.v ===== *)
(** * The JIT: products

    [emit_mul], [emit_mulw], [emit_mulh] and [emit_mulhu].  The host's
    multiplication clobbers [rdx], where [ra] lives; the emitters put it aside. *)

From Stdlib Require Import ZArith Lia Bool List.
From stdpp Require Import base list option gmap.
From S2P Require Import Prelude Meta Codec Isa X86 Jit JitEmit JitProofs.

#[local] Open Scope Z_scope.
#[local] Open Scope word_scope.

(** The cases of an operand by whether it lives in [rdx]. *)
Ltac place_rdx_of g :=
  lazymatch goal with
  | Em : memory_registers = true |- _ => pose proof (memory_place g Em)
  | Em : memory_registers = false, Hg : g <> 0 |- _ =>
      let q := fresh "q" in let E := fresh "E" in let Hq := fresh "Hq" in
      destruct (place_rdx g Em Hg) as [[-> E] | [(q & E & Hq & ? & ? & ?) | [E ?]]]
  end.
Ltac emit_rdx :=
  intros [Hr Hz]; intros;
  match goal with |- computes_at _ _ _ _ ?dec _ _ =>
    let rd := fresh "rd" in let rs1 := fresh "rs1" in let rs2 := fresh "rs2" in let imm := fresh "imm" in
    destruct dec as [pc inst imm op rd rs1 rs2 rs3 brt brc sz];
    unfold computes_at; autounfold with emitters; cbn [jd_pc jd_inst jd_imm jd_rd jd_rs1 jd_rs2 fst snd] in *;
    destruct (Z.eq_dec rd 0) as [-> |];
    [| let Em := fresh "Em" in destruct memory_registers eqn:Em;
       [| pose proof (ra_place Em)];
       (destruct (Z.eq_dec rs1 0) as [-> |]; [| destruct (Z.eq_dec rs1 rd) as [-> |]]);
       (destruct (Z.eq_dec rs2 0) as [-> |]; [| destruct (Z.eq_dec rs2 rd) as [-> |]]);
       place_rdx_of rd; try place_rdx_of rs1; try place_rdx_of rs2 ]
  end;
  different; use_places; run_it; constants; run_it.

(** [rdx] is restored. *)
Lemma rdx_word `{Jit} (s : xstate) : x86_reg 1 = 2 -> (forall g, in_u 64 (guest_reg s g)) -> uwrap 64 (xr s 2) = xr s 2.
Proof. intros E Hr. apply uwrap_small. rewrite <- (guest_pos s 1 2%positive E). apply Hr. Qed.

Ltac lookups_rdx :=
  cbn [xr slot set_xr set_slot set_flags set_field set_pair];
  repeat match goal with
  | |- context [upd ?f ?i ?v ?j] =>
      first [rewrite (upd_same f i v) | rewrite (upd_other f i v j) by first [discriminate | congruence]]
  end.
Ltac written_rdx :=
  lazymatch goal with
  | |- writes (Some _) _ 0 _ => apply writes_nothing
  | Em : memory_registers = true |- writes (Some _) _ ?r _ =>
      apply (fun Hm Hf => writes_memory _ _ _ _ Hm Hf Em); [reflexivity | reflexivity | assumption |];
      let g := fresh "g" in intros g;
      destruct (Z.eqb_spec g r) as [-> |]; lookups_rdx; [values | try reflexivity]
  | Em : memory_registers = false, Hra : x86_reg 1 = 2, E : x86_reg ?r = Z.pos ?q |- writes (Some _) _ ?r _ =>
      apply (fun Hm Hf => writes_register _ _ _ _ Hm Hf q E);
      [reflexivity | reflexivity | assumption || discriminate | assumption || discriminate | |];
      [ let i := fresh "i" in let Hi := fresh "Hi" in let Hj := fresh "Hj" in intros i Hi;
        destruct (Pos.eqb_spec i q) as [-> | Hj]; lookups_rdx; [values |];
        try (destruct (Pos.eq_dec i 2%positive) as [-> |]; lookups_rdx); rewrite ?uwrap_idemp; try (apply rdx_word; assumption); try reflexivity
      | let g := fresh "g" in let Hg := fresh "Hg" in intros g Hg; assert (g <> 1) by (intros ->; lia); lookups_rdx; try reflexivity ]
  | Em : memory_registers = false, Hra : x86_reg 1 = 2, E : x86_reg ?r = -1 |- writes (Some _) _ ?r _ =>
      apply (fun Hm Hf => writes_slot _ _ _ _ Hm Hf E); [reflexivity | reflexivity | assumption | |];
      [ let i := fresh "i" in let Hi := fresh "Hi" in intros i Hi; lookups_rdx;
        try (destruct (Pos.eq_dec i 2%positive) as [-> |]; lookups_rdx); rewrite ?uwrap_idemp; try (apply rdx_word; assumption); try reflexivity
      | let g := fresh "g" in let Hg := fresh "Hg" in intros g Hg; assert (g <> 1) by (intros ->; lia);
        destruct (Z.eqb_spec g r) as [-> | Hg']; lookups_rdx; [values | try reflexivity] ]
  end.

Section Multiply.
Context `{Jit}.
Lemma emit_mulh_ok dec e s : xstate_wf s -> computes emit_mulh Reg (fun a b => (a * b) / 2 ^ 64) dec e s.
Proof. emit_rdx; written_rdx; value. Qed.
Lemma emit_mulhu_ok dec e s : xstate_wf s ->
  computes emit_mulhu Reg (fun a b => swrap 64 ((uwrap 64 a * uwrap 64 b) / 2 ^ 64)) dec e s.
Proof. emit_rdx; written_rdx; value. Qed.
End Multiply.
