(* ===== verification/JitDiv.v ===== *)
(** * Division: the emitted code, symbolically executed

    The emitters of the divisions share four shapes of code: [n] is the width of
    the guest's registers (64, or 32 for RV32) and [w] the width that is divided.
    Each emitter is shown to append its shape; the shape is then run once, with
    the operands wherever they live. *)

From Stdlib Require Import ZArith Lia Bool List.
From stdpp Require Import base list option gmap.
From S2P Require Import Prelude Alu Meta Codec Isa X86 Jit JitEmit JitProofs.

#[local] Open Scope Z_scope.
#[local] Open Scope word_scope.

(** ** Running instructions one at a time *)

Definition transfers (i : instr) : bool :=
  match i with as_j _ _ | as_jmp _ | as_j_abs _ _ | as_jmp_abs _ => true | _ => false end.

Lemma run_step (i : instr) (c : list instr) (s s' : xstate) :
  transfers i = false -> documented i s = Some s' ->
  run_code documented None (i :: c) s = run_code documented None c s'.
Proof. intros Ht Hd. destruct i; try discriminate; cbn [run_code]; rewrite Hd; reflexivity. Qed.

Lemma run_j (k : cond) (l : Z) (c : list instr) (s : xstate) (f : eflags) :
  flags_ s = Some f ->
  run_code documented None (as_j k l :: c) s =
    if holds_cond k f then run_code documented (Some l) c s else run_code documented None c s.
Proof. intros Hf. cbn [run_code]. rewrite Hf. reflexivity. Qed.

Section Operands.
Context `{Jit}.

(** A guest register as an operand of width [w]. *)
Definition src (w g : Z) : opnd := if x86_reg g >? 0 then Gp w (x86_reg g) else Slot w g.
Definition set_guest (g v : Z) (s : xstate) : xstate :=
  if x86_reg g >? 0 then set_xr (upd (xr s) (x86_reg g) v) s else set_slot (upd (slot s) g v) s.

(** The test of the divisor against zero: all of the register, or [w] bits of
    the slot. *)
Definition tst (n w g : Z) : instr :=
  if x86_reg g >? 0 then as_test (Gp n (x86_reg g)) (Gp n (x86_reg g)) else as_cmp (Slot w g) (Const 0).

Definition is_width (w : Z) : Prop := w = 64 \/ w = 32.
Definition widths (n w : Z) : Prop := is_width n /\ is_width w /\ w <= n.
Lemma widths_cases (n w : Z) : widths n w -> (n = 64 /\ w = 64) \/ (n = 64 /\ w = 32) \/ (n = 32 /\ w = 32).
Proof. intros ([-> | ->] & [-> | ->] & Hn); lia. Qed.

Ltac at_operand g Hw := destruct Hw as [-> | ->]; unfold src, tst, set_guest, guest_reg; destruct (x86_reg g >? 0); reflexivity.

Lemma mov_reg_src (w r g : Z) (s : xstate) : is_width w ->
  documented (as_mov (Gp w r) (src w g)) s = Some (set_xr (upd (xr s) r (uwrap w (guest_reg s g))) s).
Proof. intros Hw. at_operand g Hw. Qed.
(** A write of a slot's low bits is the whole slot, if it holds no more. *)
Lemma slot_low (n x v : Z) : in_u n x -> 0 <= n -> Z.shiftl (x >>> n) n + v = v.
Proof. intros [H1 H2] Hn. rewrite Z.shiftr_div_pow2, Z.div_small, Z.shiftl_0_l by lia. apply Z.add_0_l. Qed.
Lemma write_src (n g v : Z) (s : xstate) : is_width n -> (x86_reg g <= 0 -> in_u n (slot s g)) ->
  write n (src n g) v s = Some (set_guest g v s).
Proof.
  intros Hw Hg. unfold src, set_guest. rewrite Z.gtb_ltb. destruct (Z.ltb_spec 0 (x86_reg g)) as [Hp | Hp].
  - destruct Hw as [-> | ->]; reflexivity.
  - destruct Hw as [-> | ->]; cbn - [Z.shiftl Z.shiftr]; rewrite ?slot_low by (auto; lia); reflexivity.
Qed.
Lemma mov_src_reg (n g r : Z) (s : xstate) : is_width n -> (x86_reg g <= 0 -> in_u n (slot s g)) ->
  documented (as_mov (src n g) (Gp n r)) s = Some (set_guest g (uwrap n (xr s r)) s).
Proof.
  intros Hw Hg. pose proof (write_src n g (uwrap n (xr s r)) s Hw Hg) as E. unfold src in *.
  destruct (x86_reg g >? 0), Hw as [-> | ->]; exact E.
Qed.
Lemma mov_reg_reg (w r r' : Z) (s : xstate) : is_width w ->
  documented (as_mov (Gp w r) (Gp w r')) s = Some (set_xr (upd (xr s) r (uwrap w (xr s r'))) s).
Proof. intros [-> | ->]; reflexivity. Qed.
Lemma mov_reg_const (w r v : Z) (s : xstate) : is_width w -> - 2 ^ (w - 1) <= v < 2 ^ (w - 1) ->
  documented (as_mov (Gp w r) (Const v)) s = Some (set_xr (upd (xr s) r (uwrap w v)) s).
Proof.
  intros [-> | ->] Hv.
  - cbn - [uwrap Z.pow]. unfold const64_ok. change (64 - 1) with 63 in Hv.
    rewrite (proj2 (Z.leb_le _ _)), (proj2 (Z.ltb_lt _ _)); [reflexivity | | lia].
    change (2 ^ 64) with (2 * 2 ^ 63). lia.
  - cbn - [uwrap Z.pow]. unfold const_ok. cbn - [Z.pow uwrap]. change (32 - 1) with 31 in Hv.
    rewrite (proj2 (Z.leb_le _ _)), (proj2 (Z.ltb_lt _ _)); [reflexivity | | lia].
    change (2 ^ 32) with (2 * 2 ^ 31). lia.
Qed.
Lemma cmp_src_reg (w g r : Z) (s : xstate) : is_width w ->
  documented (as_cmp (src w g) (Gp w r)) s
  = Some (set_flags (Some (sub_flags w (uwrap w (guest_reg s g)) (uwrap w (xr s r)))) s).
Proof. intros Hw. at_operand g Hw. Qed.
Lemma cmp_src_const (w g v : Z) (s : xstate) : is_width w -> const_ok w v = true ->
  documented (as_cmp (src w g) (Const v)) s
  = Some (set_flags (Some (sub_flags w (uwrap w (guest_reg s g)) (uwrap w v))) s).
Proof.
  intros Hw Hv. destruct Hw as [-> | ->]; unfold src, guest_reg; destruct (x86_reg g >? 0);
    cbn - [const_ok uwrap sub_flags]; rewrite Hv; reflexivity.
Qed.
Lemma xor_self (w r : Z) (s : xstate) : is_width w ->
  documented (as_xor (Gp w r) (Gp w r)) s
  = Some (set_flags (Some (logic_flags w 0)) (set_xr (upd (xr s) r 0) s)).
Proof. intros [-> | ->]; cbn - [Z.lxor uwrap logic_flags]; rewrite Z.lxor_nilpotent; reflexivity. Qed.

Lemma tst_src (n w g : Z) (s : xstate) : widths n w -> in_u n (guest_reg s g) ->
  (0 < x86_reg g -> uwrap w (guest_reg s g) = 0 -> guest_reg s g = 0) ->
  exists f, documented (tst n w g) s = Some (set_flags (Some f) s)
    /\ holds_cond CondNE f = negb (uwrap w (guest_reg s g) =? 0).
Proof.
  intros (Hn & Hw & Hle) Hr Hz. unfold tst. rewrite Z.gtb_ltb. destruct (Z.ltb_spec 0 (x86_reg g)) as [Hp | Hp].
  - assert (Eg : xr s (x86_reg g) = guest_reg s g)
      by (unfold guest_reg; rewrite Z.gtb_ltb, (proj2 (Z.ltb_lt _ _) Hp); reflexivity).
    exists (logic_flags n (guest_reg s g)). split.
    + destruct Hn as [-> | ->]; cbn - [uwrap logic_flags Z.land];
        rewrite Z.land_diag, Eg, uwrap_small by exact Hr; reflexivity.
    + cbn. f_equal. destruct (Z.eqb_spec (guest_reg s g) 0) as [-> | Hne].
      * destruct Hw as [-> | ->]; reflexivity.
      * symmetry. apply Z.eqb_neq. auto.
  - assert (Eg : slot s g = guest_reg s g)
      by (unfold guest_reg; rewrite Z.gtb_ltb, (proj2 (Z.ltb_ge _ _) Hp); reflexivity).
    exists (sub_flags w (uwrap w (guest_reg s g)) 0). split.
    + destruct Hw as [-> | ->]; cbn - [uwrap sub_flags]; rewrite Eg; reflexivity.
    + assert (0 < w) by (destruct Hw; lia). rewrite holds_ne; [reflexivity | lia | apply uwrap_range; lia |].
      split; [lia | apply pow2_pos; lia].
Qed.

(** ** The guest's registers under the host's updates *)

Lemma guest_flags (s : xstate) (f : option eflags) (g : Z) : guest_reg (set_flags f s) g = guest_reg s g.
Proof. reflexivity. Qed.
Lemma guest_scratch (s : xstate) (r v g : Z) : r = 0 \/ r = 1 -> guest_reg (set_xr (upd (xr s) r v) s) g = guest_reg s g.
Proof.
  intros Hr. unfold guest_reg. destruct (place g) as [(q & E & Hq) | [E | [E _]]]; rewrite E; try reflexivity.
  cbn [Z.gtb Z.compare xr set_xr]. apply upd_other. destruct Hr; subst; congruence.
Qed.
(** [rdx] holds a guest register only as [ra]. *)
Definition apart (g : Z) : Prop := memory_registers = true \/ g <> 1.
Lemma guest_rdx (s : xstate) (v g : Z) : apart g -> guest_reg (set_xr (upd (xr s) 2 v) s) g = guest_reg s g.
Proof.
  intros Hg. unfold guest_reg. destruct (place g) as [(q & E & Hq) | [E | [E _]]]; rewrite E; try reflexivity.
  cbn [Z.gtb Z.compare xr set_xr]. apply upd_other. intros E2. rewrite E2 in E. destruct Hg as [Hm | Hg].
  - rewrite memory_place in E by exact Hm. discriminate.
  - apply Hg. destruct memory_registers eqn:Em; [rewrite memory_place in E by exact Em; discriminate |].
    apply x86_reg_inj; [lia |]. rewrite (ra_place Em). exact E.
Qed.
Lemma guest_set (s : xstate) (rd v g : Z) : rd <> 0 ->
  guest_reg (set_guest rd v s) g = if g =? rd then v else guest_reg s g.
Proof.
  intros Hrd. unfold set_guest. destruct (place rd) as [(q & E & Hq) | [E | [_ ?]]]; [| | contradiction]; rewrite E.
  - cbn [Z.gtb Z.compare]. unfold guest_reg. cbn [xr slot set_xr]. destruct (Z.eqb_spec g rd) as [-> | Hne].
    + rewrite E. cbn [Z.gtb Z.compare]. apply upd_same.
    + destruct (place g) as [(q' & E' & Hq') | [E' | [E' _]]]; rewrite E'; try reflexivity.
      cbn [Z.gtb Z.compare]. apply upd_other. intros Eq. apply Hne, x86_reg_inj; [lia | congruence].
  - cbn [Z.gtb Z.compare]. unfold guest_reg. cbn [xr slot set_slot]. destruct (Z.eqb_spec g rd) as [-> | Hne].
    + rewrite E. cbn [Z.gtb Z.compare]. apply upd_same.
    + rewrite upd_other by assumption. reflexivity.
Qed.
Lemma guest_ra (s : xstate) : memory_registers = false -> guest_reg s 1 = xr s 2.
Proof. intros Em. apply (guest_pos s 1 2%positive). exact (ra_place Em). Qed.
End Operands.

Section Division.
Context `{Jit}.

(** ** Pieces of the shapes *)

Definition save (n rd : Z) : list instr := if x86_reg rd =? 2 then [] else [as_mov (Gp n 1) (Gp n 2)].
Definition restore (n rd : Z) : list instr := if x86_reg rd =? 2 then [] else [as_mov (Gp n 2) (Gp n 1)].
Definition extend (n w : Z) : instr := if w =? n then as_cqo else as_cdq.
(** The quotient in [rax], the remainder in [rdx], to the destination. *)
Definition quotient (n w rd : Z) : list instr :=
  if w =? n then [as_mov (src n rd) (Gp n 0)]
  else if x86_reg rd >? 0 then [as_movsxd (gpq (x86_reg rd)) eax]
  else [as_movsxd rax eax; as_mov (Slot 64 rd) rax].
Definition remainder (n w rd : Z) : list instr :=
  if w =? n then
    if x86_reg rd >? 0 then if x86_reg rd =? 2 then [] else [as_mov (Gp n (x86_reg rd)) (Gp n 2)] else [as_mov (Slot n rd) (Gp n 2)]
  else if x86_reg rd >? 0 then [as_movsxd (gpq (x86_reg rd)) edx]
  else [as_movsxd rdx_ edx; as_mov (Slot 64 rd) rdx_].

(** The state [s1] is reached from [s] without a change of the guest, but for
    what [P] excepts. *)
Record kept (P : Z -> Prop) (s s1 : xstate) : Prop := {
  kept_guest : forall g, P g -> guest_reg s1 g = guest_reg s g;
  kept_slots : forall g, x86_reg g <= 0 -> slot s1 g = slot s g;
  kept_mem : mem s1 = mem s;
  kept_fields : pfield s1 = pfield s }.

Lemma kept_refl (P : Z -> Prop) (s : xstate) : kept P s s.
Proof. split; reflexivity. Qed.
Lemma kept_flags (P : Z -> Prop) (s s1 : xstate) (f : option eflags) : kept P s s1 -> kept P s (set_flags f s1).
Proof. intros [Hg Hsl Hm Hf]. split; assumption. Qed.
Lemma kept_scratch (P : Z -> Prop) (s s1 : xstate) (r v : Z) : r = 0 \/ r = 1 -> kept P s s1 -> kept P s (set_xr (upd (xr s1) r v) s1).
Proof. intros Hr [Hg Hm Hf]. split; [| assumption..]. intros g HP. rewrite guest_scratch by exact Hr. auto. Qed.
Lemma kept_rdx (P : Z -> Prop) (s s1 : xstate) (v : Z) : (forall g, P g -> apart g) -> kept P s s1 -> kept P s (set_xr (upd (xr s1) 2 v) s1).
Proof. intros HP [Hg Hm Hf]. split; [| assumption..]. intros g Hp. rewrite guest_rdx by auto. auto. Qed.
Lemma kept_weak (P Q : Z -> Prop) (s s1 : xstate) : (forall g, Q g -> P g) -> kept P s s1 -> kept Q s s1.
Proof. intros HQ [Hg Hm Hf]. split; auto. Qed.

Lemma kept_slot (n : Z) (P : Z -> Prop) (s s1 : xstate) (g : Z) : word_state n s -> kept P s s1 -> x86_reg g <= 0 -> in_u n (slot s1 g).
Proof.
  intros Hs Hk Hg. rewrite (kept_slots _ _ _ Hk g Hg). pose proof (xw_range s Hs g) as Hr. unfold guest_reg in Hr.
  rewrite Z.gtb_ltb, (proj2 (Z.ltb_ge _ _) Hg) in Hr. exact Hr.
Qed.

(** Restoring [rdx] from [rcx]. *)
Lemma kept_restore (n rd : Z) (s s1 : xstate) : word_state n s -> kept (fun g => apart g /\ g <> rd) s s1 ->
  xr s1 1 = uwrap n (xr s 2) ->
  kept (fun g => g <> rd) s (set_xr (upd (xr s1) 2 (uwrap n (xr s1 1))) s1).
Proof.
  intros Hs [Hg Hsl Hm Hf] Hc. split; [| assumption..]. intros g Hp.
  destruct memory_registers eqn:Em.
  - rewrite guest_rdx by (left; exact Em). apply Hg. split; [left; exact Em | exact Hp].
  - destruct (Z.eq_dec g 1) as [-> | Hne].
    + rewrite !guest_ra by exact Em. cbn [xr set_xr]. rewrite upd_same, Hc, uwrap_idemp.
      apply uwrap_small. rewrite <- guest_ra by exact Em. apply (xw_range s Hs).
    + rewrite guest_rdx by (right; exact Hne). apply Hg. split; [right; exact Hne | exact Hp].
Qed.

Lemma kept_writes (s s1 : xstate) (rd v : Z) : rd <> 0 -> kept (fun g => g <> rd) s s1 ->
  writes (Some (set_guest rd v s1, Through)) s rd v.
Proof.
  intros Hrd [Hg Hm Hf]. eexists. split; [reflexivity |]. split.
  - intros g. rewrite guest_set by exact Hrd. rewrite (proj2 (Z.eqb_neq rd 0)), andb_true_r by exact Hrd.
    destruct (Z.eqb_spec g rd); auto.
  - unfold set_guest. destruct (x86_reg rd >? 0); auto.
Qed.

Lemma run_quotient (n w rd v : Z) (s s1 : xstate) : widths n w -> word_state n s -> rd <> 0 -> kept (fun g => g <> rd) s s1 ->
  v = uwrap n (swrap w (xr s1 0)) -> writes (run_code documented None (quotient n w rd) s1) s rd v.
Proof.
  intros Hw Hs Hrd Hk ->. unfold quotient. destruct (Z.eqb_spec w n) as [-> | Hne].
  - erewrite run_step; [| reflexivity | apply mov_src_reg; [apply Hw | apply (kept_slot _ _ _ _ _ Hs Hk)]].
    cbn [run_code]. rewrite uwrap_swrap. apply kept_writes; assumption.
  - destruct (widths_cases n w Hw) as [[-> ->] | [[-> ->] | [-> ->]]]; [contradiction | | contradiction].
    pose proof (kept_scratch _ s s1 0 (uwrap 64 (swrap 32 (xr s1 0))) (or_introl eq_refl) Hk) as Hk'.
    pose proof (kept_writes s s1 rd (uwrap 64 (swrap 32 (xr s1 0))) Hrd Hk) as W.
    pose proof (kept_writes _ _ rd (uwrap 64 (swrap 32 (xr s1 0))) Hrd Hk') as W'.
    unfold set_guest in W, W'. destruct (x86_reg rd >? 0).
    + cbn - [uwrap swrap upd]. rewrite swrap_uwrap. exact W.
    + cbn - [uwrap swrap upd]. rewrite upd_same, uwrap_idemp, swrap_uwrap. exact W'.
Qed.

Lemma apart_rd (rd : Z) : x86_reg rd <> 2 -> apart rd.
Proof.
  intros Hx. destruct memory_registers eqn:Em; [left; exact Em | right; intros ->]. apply Hx, ra_place, Em.
Qed.
Lemma rdx_is_ra (rd : Z) : x86_reg rd = 2 -> memory_registers = false /\ rd = 1.
Proof.
  intros E. destruct memory_registers eqn:Em; [rewrite memory_place in E by exact Em; discriminate |].
  split; [reflexivity |]. apply x86_reg_inj; [lia |]. rewrite (ra_place Em). exact E.
Qed.

(** The result is moved before [rdx] is restored. *)
Lemma writes_back (n : Z) (s s1 : xstate) (rd v : Z) : word_state n s -> rd <> 0 -> x86_reg rd <> 2 ->
  kept (fun g => apart g /\ g <> rd) s s1 ->
  writes (Some (set_xr (upd (xr (set_guest rd v s1)) 2 (uwrap n (xr s 2))) (set_guest rd v s1), Through)) s rd v.
Proof.
  intros Hs Hrd Hx Hk. set (s2 := set_guest rd v s1). eexists. split; [reflexivity |]. split.
  - intros g. rewrite (proj2 (Z.eqb_neq rd 0)), andb_true_r by exact Hrd.
    assert (E2 : apart g -> guest_reg (set_xr (upd (xr s2) 2 (uwrap n (xr s 2))) s2) g = if g =? rd then v else guest_reg s g).
    { intros Hg. rewrite guest_rdx by exact Hg. unfold s2. rewrite guest_set by exact Hrd.
      destruct (Z.eqb_spec g rd); [reflexivity |]. apply (kept_guest _ _ _ Hk). auto. }
    destruct memory_registers eqn:Em; [apply E2; left; exact Em |].
    destruct (Z.eq_dec g 1) as [-> | Hne]; [| apply E2; right; exact Hne].
    rewrite !guest_ra by exact Em. cbn [xr set_xr]. rewrite upd_same.
    destruct (Z.eqb_spec 1 rd) as [<- |]; [destruct (Hx (ra_place Em)) |].
    apply uwrap_small. rewrite <- guest_ra by exact Em. apply (xw_range s Hs).
  - cbn [mem pfield set_xr]. unfold s2, set_guest. destruct (x86_reg rd >? 0); destruct Hk; auto.
Qed.
Lemma writes_restore (n : Z) (s s1 : xstate) (rd v : Z) : is_width n -> word_state n s -> rd <> 0 -> x86_reg rd <> 2 ->
  kept (fun g => apart g /\ g <> rd) s s1 -> xr s1 1 = uwrap n (xr s 2) ->
  writes (run_code documented None (restore n rd) (set_guest rd v s1)) s rd v.
Proof.
  intros Hw Hs Hrd Hx Hk Hc. unfold restore. rewrite (proj2 (Z.eqb_neq _ _) Hx).
  erewrite run_step; [| reflexivity | apply mov_reg_reg; exact Hw]. cbn [run_code].
  replace (uwrap n (xr (set_guest rd v s1) 1)) with (uwrap n (xr s 2)); [apply writes_back; assumption |].
  rewrite <- (uwrap_idemp n (xr s 2)), <- Hc. f_equal. symmetry.
  unfold set_guest. destruct (place rd) as [(q & E & Hq) | [E | [E _]]]; rewrite E; try reflexivity.
  cbn [Z.gtb Z.compare xr set_xr]. apply upd_other. congruence.
Qed.

(** The remainder is where it belongs when the destination is [rdx] itself. *)
Lemma run_remainder_rdx (n w v : Z) (s s1 : xstate) : widths n w -> x86_reg 1 = 2 ->
  kept (fun g => apart g /\ g <> 1) s s1 -> in_u n (xr s1 2) -> v = uwrap n (swrap w (xr s1 2)) ->
  writes (run_code documented None (remainder n w 1) s1) s 1 v.
Proof.
  intros Hw Hx Hk Hr ->. set (v := uwrap n (swrap w (xr s1 2))).
  assert (W : writes (Some (set_xr (upd (xr s1) 2 v) s1, Through)) s 1 v).
  { pose proof (kept_writes s s1 1 v) as W. unfold set_guest in W. rewrite Hx in W. apply W; [discriminate |].
    eapply kept_weak; [| exact Hk]. intros g Hg. split; [right; exact Hg | exact Hg]. }
  unfold remainder. rewrite Hx. cbn [Z.eqb Pos.eqb Z.gtb Z.compare]. destruct (Z.eqb_spec w n) as [-> | Hne].
  - destruct W as (s' & [= <-] & Hg & Hm & Hf). exists s1. split; [reflexivity |]. split; [| auto].
    intros g. rewrite <- Hg. unfold guest_reg. cbn [xr slot set_xr]. destruct (x86_reg g >? 0); [| reflexivity].
    destruct (Z.eq_dec (x86_reg g) 2) as [-> | Hg2]; [| rewrite upd_other by exact Hg2; reflexivity].
    rewrite upd_same. unfold v. rewrite uwrap_swrap, uwrap_small by exact Hr. reflexivity.
  - destruct (widths_cases n w Hw) as [[-> ->] | [[-> ->] | [-> ->]]]; [contradiction | | contradiction].
    cbn - [uwrap swrap upd]. rewrite swrap_uwrap. exact W.
Qed.

Lemma run_remainder (n w rd v : Z) (s s1 : xstate) : widths n w -> word_state n s -> rd <> 0 ->
  kept (fun g => apart g /\ g <> rd) s s1 -> (x86_reg rd <> 2 -> xr s1 1 = uwrap n (xr s 2)) ->
  in_u n (xr s1 2) -> v = uwrap n (swrap w (xr s1 2)) ->
  writes (run_code documented None (remainder n w rd ++ restore n rd) s1) s rd v.
Proof.
  intros Hw Hs Hrd Hk Hc Hr Ev. destruct (Z.eq_dec (x86_reg rd) 2) as [Hx | Hx].
  { destruct (rdx_is_ra rd Hx) as [Em ->]. unfold restore. rewrite Hx, app_nil_r. apply run_remainder_rdx; assumption. }
  subst v. set (v := uwrap n (swrap w (xr s1 2))).
  pose proof (writes_restore n s s1 rd v (proj1 Hw) Hs Hrd Hx Hk (Hc Hx)) as W.
  unfold remainder. rewrite (proj2 (Z.eqb_neq _ _) Hx). destruct (Z.eqb_spec w n) as [-> | Hne].
  - pose proof (mov_src_reg n rd 2 s1 (proj1 Hw) (kept_slot _ _ _ _ _ Hs Hk)) as E.
    unfold v in W |- *. rewrite uwrap_swrap in W |- *. unfold src in E.
    destruct (x86_reg rd >? 0); cbn [app]; (erewrite run_step; [exact W | reflexivity | exact E]).
  - destruct (widths_cases n w Hw) as [[-> ->] | [[-> ->] | [-> ->]]]; [contradiction | | contradiction].
    unfold set_guest in W. destruct (x86_reg rd >? 0) eqn:Ep; cbn [app].
    + erewrite run_step; [| reflexivity | reflexivity]. rewrite swrap_uwrap. exact W.
    + erewrite run_step; [| reflexivity | reflexivity].
      erewrite run_step; [| reflexivity | reflexivity]. rewrite swrap_uwrap.
      pose proof (writes_restore 64 s (set_xr (upd (xr s1) 2 v) s1) rd v (proj1 Hw) Hs Hrd Hx) as W2.
      unfold set_guest in W2. rewrite Ep in W2. cbn - [uwrap swrap upd run_code]. rewrite upd_same.
      unfold v. rewrite uwrap_idemp. apply W2.
      * apply kept_rdx; [tauto | exact Hk].
      * cbn [xr set_xr]. rewrite upd_other by discriminate. apply Hc, Hx.
Qed.

(** ** The division instructions *)

Lemma signed_pair (w x : Z) : 0 < w ->
  swrap (2 * w) (uwrap w (uwrap w (swrap w x / 2 ^ w)) * 2 ^ w + uwrap w x) = swrap w x.
Proof.
  intros Hw. pose proof (swrap_range w x Hw) as Rx. pose proof (pow2_pos w ltac:(lia)).
  transitivity (swrap (2 * w) (swrap w x)).
  - apply swrap_uwrap_inj. rewrite uwrap_idemp, <- (uwrap_swrap w x).
    unfold uwrap. rewrite (Z.mod_eq (swrap w x / 2 ^ w)) by lia.
    rewrite (Z.mod_eq (swrap w x) (2 ^ w)) by lia.
    replace ((swrap w x / 2 ^ w - 2 ^ w * (swrap w x / 2 ^ w / 2 ^ w)) * 2 ^ w + (swrap w x - 2 ^ w * (swrap w x / 2 ^ w)))
      with (swrap w x + (- (swrap w x / 2 ^ w / 2 ^ w)) * (2 ^ w * 2 ^ w)) by ring.
    rewrite <- Z.pow_add_r by lia. replace (w + w) with (2 * w) by lia. apply Z_mod_plus_full.
  - apply swrap_small; [lia |]. apply (in_s_mono w); [lia | exact Rx].
Qed.

(** The dividend is extended from 64 bits on RV32 too: exactly if it is not negative. *)
Lemma extend_step (n w : Z) (s : xstate) : widths n w -> (n = 64 \/ 0 <= swrap w (xr s 0)) -> in_u w (xr s 0) ->
  exists v, documented (extend n w) s = Some (set_xr (upd (xr s) 2 v) s) /\ uwrap w v = uwrap w (swrap w (xr s 0) / 2 ^ w).
Proof.
  intros Hw Hx Hr. destruct (widths_cases n w Hw) as [[-> ->] | [[-> ->] | [-> ->]]];
    (eexists; split; [reflexivity |]); rewrite ?uwrap_idemp; [reflexivity | reflexivity |].
  destruct Hx as [[=] | Hx]. rewrite (swrap_small 64), residue_low by (lia || (unfold in_u, in_s in *; change (64 - 1) with 63; cbn in *; lia)).
  rewrite swrap_neg in * by (lia || assumption). unfold in_u in Hr.
  destruct (xr s 0 <? 2 ^ (32 - 1)); [| lia]. rewrite !Z.div_small by (cbn; lia). reflexivity.
Qed.

Lemma idiv_step (w g a b : Z) (s : xstate) : is_width w ->
  a = swrap w (xr s 0) -> uwrap w (xr s 2) = uwrap w (a / 2 ^ w) -> b = swrap w (guest_reg s g) ->
  b <> 0 -> (a <> - 2 ^ (w - 1) \/ b <> -1) ->
  documented (as_idiv (src w g)) s = Some (set_pair w (Z.rem a b) (Z.quot a b) s).
Proof.
  intros Hw Ea Ehi Eb Hb0 Hov. assert (0 < w) by (destruct Hw; lia).
  assert (Ra : in_s w a) by (subst; apply swrap_range; lia).
  assert (Rb : in_s w b) by (subst; apply swrap_range; lia).
  pose proof (quot_in_s w a b ltac:(destruct Hw; lia) Ra Rb Hov Hb0) as Rq.
  assert (En : swrap (2 * w) (uwrap w (xr s 2) * 2 ^ w + uwrap w (xr s 0)) = a).
  { rewrite Ehi, <- uwrap_idemp. subst a. apply signed_pair. lia. }
  assert (E : divide (src w g) s swrap Z.quot Z.rem quotient_s
    = if (b =? 0) || negb (quotient_s w (Z.quot a b)) then None else Some (set_pair w (Z.rem a b) (Z.quot a b) s)).
  { clear - En Eb Hw. rewrite Eb, <- En. clear En Eb. unfold src, guest_reg. destruct Hw as [-> | ->]; destruct (x86_reg g >? 0);
      cbn - [uwrap swrap Z.pow Z.quot Z.rem quotient_s set_pair Z.mul]; rewrite ?swrap_uwrap; reflexivity. }
  cbn [documented]. rewrite E, (proj2 (Z.eqb_neq _ _) Hb0).
  replace (quotient_s w (Z.quot a b)) with true; [reflexivity |]. unfold quotient_s, in_s in *. lia.
Qed.

Lemma div_step (w g a b : Z) (s : xstate) : is_width w ->
  a = uwrap w (xr s 0) -> uwrap w (xr s 2) = 0 -> b = uwrap w (guest_reg s g) -> b <> 0 ->
  documented (as_div (src w g)) s = Some (set_pair w (a mod b) (a / b) s).
Proof.
  intros Hw Ea Ehi Eb Hb0. assert (0 < w) by (destruct Hw; lia).
  assert (Ra : in_u w a) by (subst; apply uwrap_range; lia).
  assert (Rb : in_u w b) by (subst; apply uwrap_range; lia).
  assert (En : uwrap w (xr s 2) * 2 ^ w + uwrap w (xr s 0) = a) by (rewrite Ehi, Ea; lia).
  assert (E : divide (src w g) s (fun _ x => x) Z.div Z.modulo quotient_u
    = if (b =? 0) || negb (quotient_u w (a / b)) then None else Some (set_pair w (a mod b) (a / b) s)).
  { clear - En Eb Hw. rewrite Eb, <- En. clear En Eb. unfold src, guest_reg. destruct Hw as [-> | ->]; destruct (x86_reg g >? 0);
      cbn - [uwrap Z.pow Z.div Z.modulo quotient_u set_pair Z.mul]; reflexivity. }
  cbn [documented]. rewrite E, (proj2 (Z.eqb_neq _ _) Hb0).
  replace (quotient_u w (a / b)) with true; [reflexivity |]. unfold quotient_u, in_u in *. symmetry. apply Z.ltb_lt.
  apply Z.div_lt_upper_bound; nia.
Qed.

Lemma kept_pair (P : Z -> Prop) (w hi lo : Z) (s s1 : xstate) :
  (forall g, P g -> apart g) -> kept P s s1 -> kept P s (set_pair w hi lo s1).
Proof.
  intros HP Hk. unfold set_pair. apply kept_flags.
  apply (kept_rdx P s (set_xr (upd (xr s1) 0 (uwrap w lo)) s1) (uwrap w hi) HP).
  apply kept_scratch; [left; reflexivity | exact Hk].
Qed.

(** ** Signed division *)

Definition div_tail (n w l rd rs1 rs2 : Z) : list instr :=
  [tst n w rs2; as_j CondNE (l + 2); as_mov (Gp w 0) (Const (-1)); as_jmp l; as_bind (l + 2); as_mov (Gp w 0) (src w rs1)]
  ++ save n rd ++ [extend n w; as_idiv (src w rs2)] ++ restore n rd ++ as_bind l :: quotient n w rd.
Definition div_code (n w l rd rs1 rs2 : Z) : list instr :=
  [as_mov (Gp w 0) (Const (- 2 ^ (w - 1))); as_cmp (src w rs1) (Gp w 0); as_j CondNE (l + 1);
   as_cmp (src w rs2) (Const (-1)); as_j CondE l; as_bind (l + 1)] ++ div_tail n w l rd rs1 rs2.

(** The divisor is tested at the width that is divided. *)
Definition test_exact (w b g : Z) : Prop := 0 < x86_reg g -> uwrap w b = 0 -> b = 0.

Lemma seek_save (n l rd : Z) (c : list instr) (s : xstate) : run_code documented (Some l) (save n rd ++ c) s = run_code documented (Some l) c s.
Proof. unfold save. destruct (x86_reg rd =? 2); reflexivity. Qed.
Lemma seek_restore (n l rd : Z) (c : list instr) (s : xstate) : run_code documented (Some l) (restore n rd ++ c) s = run_code documented (Some l) c s.
Proof. unfold restore. destruct (x86_reg rd =? 2); reflexivity. Qed.
Lemma seek_extend (n l w : Z) (c : list instr) (s : xstate) : run_code documented (Some l) (extend n w :: c) s = run_code documented (Some l) c s.
Proof. unfold extend. destruct (w =? n); reflexivity. Qed.
Lemma seek_tst (n l w g : Z) (c : list instr) (s : xstate) : run_code documented (Some l) (tst n w g :: c) s = run_code documented (Some l) c s.
Proof. unfold tst. destruct (x86_reg g >? 0); reflexivity. Qed.
Lemma seek_bind (l : Z) (c : list instr) (s : xstate) : run_code documented (Some l) (as_bind l :: c) s = run_code documented None c s.
Proof. cbn. rewrite Z.eqb_refl. reflexivity. Qed.
Lemma seek_other (l l' : Z) (c : list instr) (s : xstate) : l <> l' ->
  run_code documented (Some l) (as_bind l' :: c) s = run_code documented (Some l) c s.
Proof. intros Hl. cbn. rewrite (proj2 (Z.eqb_neq _ _) Hl). reflexivity. Qed.
Lemma seek_skip (l : Z) (i : instr) (c : list instr) (s : xstate) :
  match i with as_bind _ => False | _ => True end -> run_code documented (Some l) (i :: c) s = run_code documented (Some l) c s.
Proof. destruct i; intros Hi; first [destruct Hi; fail | reflexivity]. Qed.
Lemma run_bind (l : Z) (c : list instr) (s : xstate) : run_code documented None (as_bind l :: c) s = run_code documented None c s.
Proof. reflexivity. Qed.
Lemma run_jmp (l : Z) (c : list instr) (s : xstate) : run_code documented None (as_jmp l :: c) s = run_code documented (Some l) c s.
Proof. reflexivity. Qed.

Lemma run_save (n rd : Z) (c : list instr) (s s1 : xstate) (P : Z -> Prop) : is_width n -> kept P s s1 ->
  exists s2, run_code documented None (save n rd ++ c) s1 = run_code documented None c s2 /\ kept P s s2
    /\ xr s2 0 = xr s1 0 /\ xr s2 2 = xr s1 2 /\ (x86_reg rd <> 2 -> xr s2 1 = uwrap n (xr s1 2)).
Proof.
  intros Hn Hk. unfold save. destruct (Z.eqb_spec (x86_reg rd) 2) as [E | E].
  - exists s1. repeat split; auto; try apply Hk. congruence.
  - eexists. split; [cbn [app]; erewrite run_step; [reflexivity | reflexivity | apply mov_reg_reg; exact Hn] |].
    split; [apply kept_scratch; auto |]. cbn [xr set_xr]. rewrite !upd_other by discriminate.
    split; [reflexivity |]. split; [reflexivity |]. intros _. apply upd_same.
Qed.

Lemma run_restore (n rd : Z) (c : list instr) (s s1 : xstate) : is_width n -> word_state n s -> kept (fun g => apart g /\ g <> rd) s s1 ->
  (x86_reg rd <> 2 -> xr s1 1 = uwrap n (xr s 2)) ->
  exists s2, run_code documented None (restore n rd ++ c) s1 = run_code documented None c s2
    /\ kept (fun g => g <> rd) s s2 /\ xr s2 0 = xr s1 0.
Proof.
  intros Hn Hs Hk Hc. unfold restore. destruct (Z.eqb_spec (x86_reg rd) 2) as [E | E].
  - exists s1. split; [reflexivity |]. split; [| reflexivity]. eapply kept_weak; [| exact Hk].
    intros g Hg. split; [| exact Hg]. destruct (rdx_is_ra rd E) as [_ ->]. right. exact Hg.
  - eexists. split; [cbn [app]; erewrite run_step; [reflexivity | reflexivity | apply mov_reg_reg; exact Hn] |].
    split; [apply (kept_restore n rd); auto |]. cbn [xr set_xr]. apply upd_other. discriminate.
Qed.

Lemma transfers_tst (n w g : Z) : transfers (tst n w g) = false.
Proof. unfold tst. destruct (x86_reg g >? 0); reflexivity. Qed.
Lemma transfers_extend (n w : Z) : transfers (extend n w) = false.
Proof. unfold extend. destruct (w =? n); reflexivity. Qed.
End Division.

(** Running forward. *)
Ltac seeks := repeat first [rewrite seek_bind | rewrite seek_other by lia | rewrite seek_save | rewrite seek_restore | rewrite seek_extend | rewrite seek_tst | rewrite seek_skip by exact I].
Ltac step lem := erewrite run_step; [| first [reflexivity | apply transfers_tst | apply transfers_extend] | lem].
Ltac guests := rewrite ?guest_flags, ?guest_scratch by auto.


Section Signed.
Context `{Jit}.

(** The dividends that are extended exactly: on RV32, those that are not negative. *)
Definition dividend_ok (n w a b : Z) : Prop := n = 64 \/ 0 <= a \/ b = 0 \/ (a = - 2 ^ (w - 1) /\ b = -1).

(** [rax] and [rcx] may hold anything; [rdx] is untouched. *)
Lemma div_tail_run (n w l rd rs1 rs2 a b : Z) (s s1 : xstate) : widths n w -> word_state n s -> rd <> 0 -> apart rs2 ->
  kept (fun _ => True) s s1 -> xr s1 2 = xr s 2 ->
  a = swrap w (guest_reg s rs1) -> b = swrap w (guest_reg s rs2) -> test_exact w (guest_reg s rs2) rs2 ->
  (a <> - 2 ^ (w - 1) \/ b <> -1) -> dividend_ok n w a b ->
  writes (run_code documented None (div_tail n w l rd rs1 rs2) s1) s rd (uwrap n (isa_div w a b)).
Proof.
  intros Hnw Hs Hrd Hap Hk Hdx Ea Eb Ht Hov Hdo. destruct Hnw as (Hn & Hw & Hle) eqn:Ehw. clear Ehw. assert (Hw0 : 1 < w) by (destruct Hw; lia).
  assert (Hall : forall g, guest_reg s1 g = guest_reg s g) by (intros; apply (kept_guest _ _ _ Hk); exact I).
  assert (Hb0 : (uwrap w (guest_reg s rs2) =? 0) = (b =? 0)).
  { subst b. rewrite <- (uwrap_eq0 w (swrap w (guest_reg s rs2))), uwrap_swrap; [reflexivity | lia |].
    apply swrap_range. lia. }
  unfold div_tail, isa_div. cbn [app].
  destruct (tst_src n w rs2 s1 Hnw) as (f & Hf & Hne); [rewrite Hall; apply (xw_range s Hs) | rewrite Hall; exact Ht |].
  rewrite Hall, Hb0 in Hne. step ltac:(exact Hf). rewrite (run_j _ _ _ _ f) by reflexivity. rewrite Hne.
  destruct (Z.eqb_spec b 0) as [E0 | E0]; cbn [negb].
  - step ltac:(apply mov_reg_const; [exact Hw | pose proof (pow2_pos (w - 1) ltac:(lia)); lia]).
    rewrite run_jmp. seeks. cbn [app]. seeks. apply run_quotient; [exact Hnw | exact Hs | exact Hrd | |].
    + apply kept_scratch, kept_flags; [auto |]. eapply kept_weak; [| exact Hk]. intros; exact I.
    + cbn [xr set_xr]. rewrite upd_same, swrap_uwrap. f_equal. symmetry. apply swrap_small; [lia |].
      pose proof (pow2_pos (w - 1) ltac:(lia)). split; lia.
  - seeks. step ltac:(apply mov_reg_src; exact Hw). guests. rewrite Hall.
    set (s2 := set_xr _ _).
    assert (Hk2 : kept (fun _ => True) s s2) by (apply kept_scratch, kept_flags; auto).
    destruct (run_save n rd (extend n w :: as_idiv (src w rs2) :: restore n rd ++ as_bind l :: quotient n w rd) s s2 _ Hn Hk2)
      as (s3 & -> & Hk3 & H30 & H32 & H31).
    assert (E30 : xr s3 0 = uwrap w (guest_reg s rs1)) by (rewrite H30; unfold s2; cbn [xr set_xr]; apply upd_same).
    assert (Ea3 : swrap w (xr s3 0) = a) by (rewrite E30, swrap_uwrap; auto).
    destruct (extend_step n w s3 Hnw) as (hi & Ehi & Evhi); [rewrite Ea3; unfold dividend_ok in Hdo; lia | rewrite E30; apply uwrap_range; lia |].
    rewrite Ea3 in Evhi. cbn [app]. step ltac:(exact Ehi).
    step ltac:(apply (idiv_step w rs2 a b); try assumption).
    + destruct (run_restore n rd (as_bind l :: quotient n w rd) s
        (set_pair w (Z.rem a b) (Z.quot a b) (set_xr (upd (xr s3) 2 hi) s3)) Hn Hs)
        as (s4 & -> & Hk4 & H40).
      * apply kept_pair; [tauto |]. apply kept_rdx; [tauto |]. eapply kept_weak; [| exact Hk3]. intros; exact I.
      * intros Hx. cbn [xr set_pair set_flags set_xr]. rewrite !upd_other by discriminate. rewrite (H31 Hx).
        unfold s2. cbn [xr set_xr set_flags]. rewrite upd_other by discriminate. rewrite Hdx. reflexivity.
      * rewrite run_bind. apply run_quotient; [exact Hnw | exact Hs | exact Hrd | exact Hk4 |].
        rewrite H40. cbn [xr set_pair set_flags set_xr]. rewrite upd_other, upd_same, swrap_uwrap by discriminate. reflexivity.
    + cbn [xr set_xr]. rewrite upd_other by discriminate. symmetry. exact Ea3.
    + rewrite guest_rdx by exact Hap. rewrite (kept_guest _ _ _ Hk3) by exact I. exact Eb.
Qed.

End Signed.
