(* ===== verification/JitDivisions.v ===== *)
(** * The four divisions at both widths *)

From Stdlib Require Import ZArith Lia Bool List.
From stdpp Require Import base list option gmap.
From S2P Require Import Prelude Alu Meta Codec Isa X86 Jit JitEmit JitProofs JitDiv.

#[local] Open Scope Z_scope.
#[local] Open Scope word_scope.

Section Width.
Context (w : Z) (Hw : is_width w).

Lemma width_bounds : 1 < w /\ 0 < w <= 64.
Proof. destruct Hw; lia. Qed.
Lemma minus_one : - 2 ^ (w - 1) <= -1 < 2 ^ (w - 1).
Proof. pose proof (pow2_pos (w - 1) ltac:(destruct Hw; lia)). lia. Qed.
Lemma least : - 2 ^ (w - 1) <= - 2 ^ (w - 1) < 2 ^ (w - 1).
Proof. pose proof minus_one. lia. Qed.
Lemma narrow_range (n x : Z) : w <= n -> in_u n (uwrap w x).
Proof.
  intros Hn. destruct width_bounds as [_ Hb]. pose proof (uwrap_range w x ltac:(lia)) as Hx. unfold in_u in *.
  assert (2 ^ w <= 2 ^ n) by (apply Z.pow_le_mono_r; lia). lia.
Qed.
(** The two comparisons before a signed division. *)
Lemma is_least (x : Z) : holds_cond CondNE (sub_flags w (uwrap w x) (uwrap w (uwrap w (- 2 ^ (w - 1)))))
  = negb (swrap w x =? - 2 ^ (w - 1)).
Proof.
  destruct width_bounds as [Hw1 _]. rewrite holds_ne by (try apply uwrap_range; lia). rewrite uwrap_idemp. f_equal.
  pose proof least as Hl.
  destruct (Z.eqb_spec (uwrap w x) (uwrap w (- 2 ^ (w - 1)))) as [E | E], (Z.eqb_spec (swrap w x) (- 2 ^ (w - 1))) as [E' | E'];
    try reflexivity; exfalso.
  - apply E'. rewrite (swrap_uwrap_inj w _ _ E). apply swrap_small; [lia | exact Hl].
  - apply E. rewrite <- E', uwrap_swrap. reflexivity.
Qed.
Lemma is_minus_one (x : Z) : holds_cond CondE (sub_flags w (uwrap w x) (uwrap w (-1))) = (swrap w x =? -1).
Proof.
  destruct width_bounds as [Hw1 _]. rewrite holds_e by (try apply uwrap_range; lia). pose proof minus_one as Hl.
  destruct (Z.eqb_spec (uwrap w x) (uwrap w (-1))) as [E | E], (Z.eqb_spec (swrap w x) (-1)) as [E' | E'];
    try reflexivity; exfalso.
  - apply E'. rewrite (swrap_uwrap_inj w _ _ E). apply swrap_small; [lia | exact Hl].
  - apply E. rewrite <- E', uwrap_swrap. reflexivity.
Qed.
Lemma const_minus_one : const_ok w (-1) = true.
Proof. destruct Hw as [-> | ->]; reflexivity. Qed.
End Width.

Section Divisions.
Context `{Jit}.
Context (n w rd rs1 rs2 : Z) (s : xstate).
Hypothesis (Hn : is_width n) (Hw : is_width w) (Hle : w <= n) (Hs : word_state n s) (Hrd : rd <> 0) (Hap : apart rs2).
Hypothesis (Ht : test_exact w (guest_reg s rs2) rs2).

Lemma section_widths : widths n w.
Proof using Hn Hw Hle. split; auto. Qed.

Lemma tested (s1 : xstate) : guest_reg s1 rs2 = guest_reg s rs2 ->
  exists f, documented (tst n w rs2) s1 = Some (set_flags (Some f) s1)
    /\ holds_cond CondNE f = negb (uwrap w (guest_reg s rs2) =? 0).
Proof.
  intros E. rewrite <- E. apply tst_src; [exact section_widths | rewrite E; apply (xw_range s Hs) | rewrite E; exact Ht].
Qed.
Lemma div_run (l : Z) : dividend_ok n w (swrap w (guest_reg s rs1)) (swrap w (guest_reg s rs2)) ->
  writes (run_code documented None (div_code n w l rd rs1 rs2) s) s rd
    (uwrap n (isa_div w (swrap w (guest_reg s rs1)) (swrap w (guest_reg s rs2)))).
Proof.
  intros Hdo. unfold div_code. cbn [app]. step ltac:(apply mov_reg_const; [exact Hw | exact (least w Hw)]).
  step ltac:(apply cmp_src_reg; exact Hw). erewrite run_j by reflexivity. guests.
  cbn [xr set_xr]. rewrite upd_same, is_least by exact Hw.
  destruct (Z.eqb_spec (swrap w (guest_reg s rs1)) (- 2 ^ (w - 1))) as [Ea | Ea]; cbn [negb].
  - step ltac:(apply cmp_src_const; [exact Hw | exact (const_minus_one w Hw)]). erewrite run_j by reflexivity. guests.
    rewrite is_minus_one by exact Hw. destruct (Z.eqb_spec (swrap w (guest_reg s rs2)) (-1)) as [Eb | Eb].
    + unfold div_tail. cbn [app]. seeks. cbn [app]. seeks. apply run_quotient; [exact section_widths | exact Hs | exact Hrd | |].
      * apply kept_flags, kept_flags, kept_scratch; [auto | apply kept_refl].
      * cbn [xr set_flags set_xr]. rewrite upd_same, swrap_uwrap. f_equal. rewrite Ea, Eb. unfold isa_div. cbn [Z.eqb].
        apply swrap_uwrap_inj. rewrite (Z.quot_opp_opp _ 1), Z.quot_1_r by lia.
        destruct (width_bounds w Hw). rewrite <- (uwrap_add_multiple w (- 2 ^ (w - 1)) 1) by lia. rewrite (pow2_half w) by lia. f_equal. lia.
    + rewrite run_bind. apply div_tail_run; auto using section_widths.
      apply kept_flags, kept_flags, kept_scratch; [auto | apply kept_refl].
  - seeks. apply div_tail_run; auto using section_widths.
    apply kept_flags, kept_scratch; [auto | apply kept_refl].
Qed.

(** ** Unsigned division *)

Definition divu_code (l : Z) : list instr :=
  [tst n w rs2; as_j CondNE (l + 1); as_mov (Gp w 0) (Const (-1)); as_jmp l; as_bind (l + 1); as_mov (Gp w 0) (src w rs1)]
  ++ save n rd ++ [as_xor (Gp w 2) (Gp w 2); as_div (src w rs2)] ++ restore n rd ++ as_bind l :: quotient n w rd.

Lemma divu_run (l : Z) :
  writes (run_code documented None (divu_code l) s) s rd
    (uwrap n (isa_divu w (uwrap w (guest_reg s rs1)) (uwrap w (guest_reg s rs2)))).
Proof.
  destruct (width_bounds w Hw) as [Hw1 Hw64]. unfold divu_code, isa_divu. cbn [app].
  destruct (tested s eq_refl) as (f & Hf & Hne). step ltac:(exact Hf).
  rewrite (run_j _ _ _ _ f) by reflexivity. rewrite Hne.
  set (a := uwrap w (guest_reg s rs1)). set (b := uwrap w (guest_reg s rs2)).
  destruct (Z.eqb_spec b 0) as [E0 | E0]; cbn [negb].
  - step ltac:(apply mov_reg_const; [exact Hw | exact (minus_one w Hw)]).
    rewrite run_jmp. seeks. cbn [app]. seeks. apply run_quotient; [exact section_widths | exact Hs | exact Hrd | |].
    + apply kept_scratch, kept_flags; [auto | apply kept_refl].
    + cbn [xr set_xr]. rewrite upd_same, swrap_uwrap. f_equal. symmetry. apply swrap_small; [lia | exact (minus_one w Hw)].
  - seeks. step ltac:(apply mov_reg_src; exact Hw). guests. set (s2 := set_xr _ _).
    assert (Hk2 : kept (fun _ => True) s s2) by (apply kept_scratch, kept_flags; [auto | apply kept_refl]).
    destruct (run_save n rd (as_xor (Gp w 2) (Gp w 2) :: as_div (src w rs2) :: restore n rd ++ as_bind l :: quotient n w rd) s s2 _ Hn Hk2)
      as (s3 & -> & Hk3 & H30 & H32 & H31).
    step ltac:(apply xor_self; exact Hw).
    step ltac:(apply (div_step w rs2 a b); try assumption).
    + match goal with |- context [restore n rd ++ ?c] => match goal with |- context [run_code _ _ _ ?s5] =>
        destruct (run_restore n rd c s s5 Hn Hs) as (s4 & -> & Hk4 & H40) end end.
      * apply kept_pair, kept_flags; [tauto |]. apply kept_rdx; [tauto |].
        eapply kept_weak; [| exact Hk3]. intros; exact I.
      * intros Hx. cbn [xr set_pair set_flags set_xr]. rewrite !upd_other by discriminate. rewrite (H31 Hx).
        unfold s2. cbn [xr set_xr set_flags]. rewrite upd_other by discriminate. reflexivity.
      * rewrite run_bind. apply run_quotient; [exact section_widths | exact Hs | exact Hrd | exact Hk4 |].
        rewrite H40. cbn [xr set_pair set_flags set_xr]. rewrite upd_other, upd_same, swrap_uwrap, ?uwrap_swrap by discriminate.
        reflexivity.
    + cbn [xr set_xr set_flags]. rewrite upd_other by discriminate. rewrite H30. unfold s2. cbn [xr set_xr].
      rewrite upd_same, uwrap_idemp. reflexivity.
    + cbn [xr set_xr set_flags]. rewrite upd_same. apply uwrap_small. pose proof (pow2_pos w ltac:(lia)). split; lia.
    + rewrite guest_flags, guest_rdx by exact Hap. rewrite (kept_guest _ _ _ Hk3) by exact I. reflexivity.
Qed.

(** ** Remainders *)

Definition remu_code (l : Z) : list instr :=
  save n rd ++ [as_mov (Gp w 0) (src w rs1); tst n w rs2; as_j CondNE (l + 1); as_mov (Gp w 2) (Gp w 0); as_jmp l; as_bind (l + 1);
    as_xor (Gp w 2) (Gp w 2); as_div (src w rs2); as_bind l] ++ remainder n w rd ++ restore n rd.

Lemma remu_run (l : Z) :
  writes (run_code documented None (remu_code l) s) s rd
    (uwrap n (isa_remu w (uwrap w (guest_reg s rs1)) (uwrap w (guest_reg s rs2)))).
Proof.
  destruct (width_bounds w Hw) as [Hw1 Hw64]. unfold remu_code, isa_remu.
  match goal with |- context [save n rd ++ ?c] => destruct (run_save n rd c s s _ Hn (kept_refl (fun _ => True) s))
    as (s1 & -> & Hk1 & H10 & H12 & H11) end.
  assert (Hg : forall g, guest_reg s1 g = guest_reg s g) by (intros; apply (kept_guest _ _ _ Hk1); exact I).
  cbn [app]. step ltac:(apply mov_reg_src; exact Hw). rewrite Hg.
  set (a := uwrap w (guest_reg s rs1)). set (b := uwrap w (guest_reg s rs2)). set (s2 := set_xr _ _).
  assert (Hk2 : kept (fun _ => True) s s2) by (apply kept_scratch; auto).
  destruct (tested s2) as (f & Hf & Hne); [apply (kept_guest _ _ _ Hk2); exact I |].
  step ltac:(exact Hf). rewrite (run_j _ _ _ _ f) by reflexivity. rewrite Hne. fold b.
  destruct (Z.eqb_spec b 0) as [E0 | E0]; cbn [negb].
  - step ltac:(apply mov_reg_reg; exact Hw). rewrite run_jmp. seeks. apply run_remainder; [exact section_widths | exact Hs | exact Hrd | | | |].
    + apply kept_rdx, kept_flags; [tauto |]. eapply kept_weak; [| exact Hk2]. intros; exact I.
    + intros Hx. cbn [xr set_xr set_flags]. rewrite upd_other by discriminate. unfold s2. cbn [xr set_xr].
      rewrite upd_other by discriminate. auto.
    + cbn [xr set_xr]. rewrite upd_same. apply narrow_range; assumption.
    + cbn [xr set_xr set_flags]. rewrite upd_same, !swrap_uwrap. unfold s2. cbn [xr set_xr]. rewrite upd_same. reflexivity.
  - seeks. step ltac:(apply xor_self; exact Hw). step ltac:(apply (div_step w rs2 a b); try assumption).
    + rewrite run_bind. apply run_remainder; [exact section_widths | exact Hs | exact Hrd | | | |].
      * apply kept_pair, kept_flags; [tauto |]. apply kept_rdx; [tauto |]. apply kept_flags.
        eapply kept_weak; [| exact Hk2]. intros; exact I.
      * intros Hx. cbn [xr set_pair set_flags set_xr]. rewrite !upd_other by discriminate. unfold s2. cbn [xr set_xr].
        rewrite upd_other by discriminate. auto.
      * cbn [xr set_pair set_flags set_xr]. rewrite upd_same. apply narrow_range; assumption.
      * cbn [xr set_pair set_flags set_xr]. rewrite upd_same, swrap_uwrap. reflexivity.
    + cbn [xr set_xr set_flags]. rewrite upd_other by discriminate. unfold s2. cbn [xr set_xr].
      rewrite upd_same. unfold a. rewrite uwrap_idemp. reflexivity.
    + cbn [xr set_xr set_flags]. rewrite upd_same. apply uwrap_small. pose proof (pow2_pos w ltac:(lia)). split; lia.
    + rewrite guest_flags, guest_rdx by exact Hap. rewrite guest_flags, (kept_guest _ _ _ Hk2) by exact I. reflexivity.
Qed.

Definition rem_tail (l : Z) : list instr :=
  [as_mov (Gp w 0) (src w rs1); tst n w rs2; as_j CondNE (l + 2); as_mov (Gp w 2) (Gp w 0); as_jmp l; as_bind (l + 2);
   extend n w; as_idiv (src w rs2); as_bind l] ++ remainder n w rd ++ restore n rd.
Definition rem_code (l : Z) : list instr :=
  save n rd ++ [as_mov (Gp w 0) (Const (- 2 ^ (w - 1))); as_cmp (src w rs1) (Gp w 0); as_j CondNE (l + 1); as_xor edx edx;
    as_cmp (src w rs2) (Const (-1)); as_j CondE l; as_bind (l + 1)] ++ rem_tail l.

Hypothesis (Hap1 : apart rs1).

Lemma rem_in_s (a b : Z) : in_s w a -> in_s w b -> b <> 0 -> in_s w (Z.rem a b).
Proof.
  intros Ha Hb Hb0. pose proof (Z.rem_bound_abs a b Hb0). unfold in_s in *.
  pose proof (Z.rem_sign_nz a b Hb0) as Hnz.
  destruct (Z.eq_dec (Z.rem a b) 0) as [-> | Hr]; [destruct (width_bounds w Hw); pose proof (pow2_pos (w - 1) ltac:(lia)); lia |].
  specialize (Hnz Hr). destruct (Z.rem a b), a; cbn in *; lia.
Qed.

Lemma rem_tail_run (l a b : Z) (s1 : xstate) : kept apart s s1 -> (x86_reg rd <> 2 -> xr s1 1 = uwrap n (xr s 2)) ->
  a = swrap w (guest_reg s rs1) -> b = swrap w (guest_reg s rs2) -> (a <> - 2 ^ (w - 1) \/ b <> -1) ->
  dividend_ok n w a b -> writes (run_code documented None (rem_tail l) s1) s rd (uwrap n (isa_rem a b)).
Proof.
  intros Hk H11 Ea Eb Hov Hdo. destruct (width_bounds w Hw) as [Hw1 Hw64]. unfold rem_tail, isa_rem. cbn [app].
  assert (Ra : in_s w a) by (subst a; apply swrap_range; lia). assert (Rb : in_s w b) by (subst b; apply swrap_range; lia).
  assert (Hb0 : (uwrap w (guest_reg s rs2) =? 0) = (b =? 0)).
  { rewrite <- (uwrap_eq0 w b), Eb, uwrap_swrap by (lia || assumption). reflexivity. }
  step ltac:(apply mov_reg_src; exact Hw). rewrite (kept_guest _ _ _ Hk rs1 Hap1). set (s2 := set_xr _ _).
  assert (Hk2 : kept apart s s2) by (apply kept_scratch; auto).
  destruct (tested s2) as (f & Hf & Hne); [apply (kept_guest _ _ _ Hk2), Hap |]. rewrite Hb0 in Hne.
  step ltac:(exact Hf). rewrite (run_j _ _ _ _ f) by reflexivity. rewrite Hne.
  assert (E20 : swrap w (xr s2 0) = a) by (unfold s2; cbn [xr set_xr]; rewrite upd_same, swrap_uwrap; auto).
  assert (Hc : forall v, x86_reg rd <> 2 -> upd (xr s2) 2 v 1 = uwrap n (xr s 2)).
  { intros v Hx. rewrite upd_other by discriminate. unfold s2. cbn [xr set_xr]. rewrite upd_other by discriminate. auto. }
  destruct (Z.eqb_spec b 0) as [E0 | E0]; cbn [negb].
  - step ltac:(apply mov_reg_reg; exact Hw). rewrite run_jmp. seeks. apply run_remainder; [exact section_widths | exact Hs | exact Hrd | | | |].
    + apply kept_rdx, kept_flags; [tauto |]. eapply kept_weak; [| exact Hk2]. tauto.
    + intros Hx. apply Hc, Hx.
    + cbn [xr set_xr]. rewrite upd_same. apply narrow_range; assumption.
    + cbn [xr set_xr set_flags]. rewrite upd_same, swrap_uwrap, E20. reflexivity.
  - seeks. assert (E2 : xr s2 0 = uwrap w (guest_reg s rs1)) by apply upd_same.
    destruct (extend_step n w (set_flags (Some f) s2) section_widths) as (hi & Ehi & Evhi);
      [cbn [xr set_flags]; rewrite E20; unfold dividend_ok in Hdo; lia | cbn [xr set_flags]; rewrite E2; apply uwrap_range; lia |].
    cbn [xr set_flags] in Evhi. rewrite E20 in Evhi.
    step ltac:(exact Ehi). step ltac:(apply (idiv_step w rs2 a b); try assumption).
    + rewrite run_bind. apply run_remainder; [exact section_widths | exact Hs | exact Hrd | | | |].
      * apply kept_pair; [tauto |]. apply kept_rdx, kept_flags; [tauto |]. eapply kept_weak; [| exact Hk2]. tauto.
      * intros Hx. cbn [xr set_pair set_flags set_xr]. rewrite (upd_other _ 2), (upd_other _ 0) by discriminate. apply Hc, Hx.
      * cbn [xr set_pair set_flags set_xr]. rewrite upd_same. apply narrow_range; assumption.
      * cbn [xr set_pair set_flags set_xr]. rewrite upd_same, swrap_uwrap, swrap_small; [reflexivity | lia |].
        apply rem_in_s; assumption.
    + cbn [xr set_xr set_flags]. rewrite upd_other by discriminate. symmetry. exact E20.
    + rewrite guest_rdx by exact Hap. rewrite guest_flags, (kept_guest _ _ _ Hk2) by exact Hap. exact Eb.
Qed.

Lemma rem_run (l : Z) : dividend_ok n w (swrap w (guest_reg s rs1)) (swrap w (guest_reg s rs2)) ->
  writes (run_code documented None (rem_code l) s) s rd
    (uwrap n (isa_rem (swrap w (guest_reg s rs1)) (swrap w (guest_reg s rs2)))).
Proof.
  intros Hdo. destruct (width_bounds w Hw) as [Hw1 Hw64]. unfold rem_code.
  match goal with |- context [save n rd ++ ?c] => destruct (run_save n rd c s s _ Hn (kept_refl (fun _ => True) s))
    as (s1 & -> & Hk1 & H10 & H12 & H11) end.
  assert (Hg : forall g, guest_reg s1 g = guest_reg s g) by (intros; apply (kept_guest _ _ _ Hk1); exact I).
  assert (Hka : kept apart s s1) by (eapply kept_weak; [| exact Hk1]; intros; exact I).
  cbn [app]. step ltac:(apply mov_reg_const; [exact Hw | exact (least w Hw)]).
  step ltac:(apply cmp_src_reg; exact Hw). erewrite run_j by reflexivity. guests. rewrite Hg.
  cbn [xr set_xr]. rewrite upd_same, is_least by exact Hw.
  destruct (Z.eqb_spec (swrap w (guest_reg s rs1)) (- 2 ^ (w - 1))) as [Ea | Ea]; cbn [negb].
  - step ltac:(apply (xor_self 32); right; reflexivity).
    step ltac:(apply cmp_src_const; [exact Hw | exact (const_minus_one w Hw)]). erewrite run_j by reflexivity.
    rewrite guest_flags, guest_rdx by exact Hap. guests. rewrite Hg, is_minus_one by exact Hw.
    set (s2 := set_flags _ _).
    assert (Hk2 : kept apart s s2).
    { apply kept_flags, kept_flags, kept_rdx, kept_flags, kept_scratch; auto. }
    assert (Hc : x86_reg rd <> 2 -> xr s2 1 = uwrap n (xr s 2)).
    { intros Hx. unfold s2. cbn [xr set_xr set_flags]. rewrite !upd_other by discriminate. auto. }
    destruct (Z.eqb_spec (swrap w (guest_reg s rs2)) (-1)) as [Eb | Eb].
    + unfold rem_tail. cbn [app]. seeks. apply run_remainder; [exact section_widths | exact Hs | exact Hrd | | | |].
      * eapply kept_weak; [| exact Hk2]. tauto.
      * exact Hc.
      * unfold s2. cbn [xr set_xr set_flags]. rewrite upd_same. unfold in_u. lia.
      * unfold s2. cbn [xr set_xr set_flags]. rewrite upd_same, Ea, Eb. unfold isa_rem. cbn [Z.eqb].
        rewrite (Z.rem_opp_r _ 1), Z.rem_1_r by lia. f_equal. symmetry. apply swrap_small; [lia |].
        pose proof (pow2_pos (w - 1) ltac:(lia)). split; lia.
    + rewrite run_bind. apply rem_tail_run; auto.
  - seeks. apply rem_tail_run; auto.
    + apply kept_flags, kept_scratch; auto.
Qed.

End Divisions.

(** ** The emitters append the shapes *)

Ltac shape :=
  intros Hrd H1 H2;
  match goal with |- code_of (_ ?dec) _ = _ =>
    destruct dec as [pc inst imm op rd rs1 rs2 rs3 brt brc sz]; autounfold with emitters;
    cbn [jd_pc jd_inst jd_imm jd_rd jd_rs1 jd_rs2] in *;
    equalities;
    unfold div_code, div_tail, divu_code, remu_code, rem_code, rem_tail, save, restore, quotient, remainder, src, tst, extend;
    generalize (x86_reg rd) (x86_reg rs1) (x86_reg rs2); intros x x1 x2
  end;
  repeat match goal with |- context [?a >? 0] => destruct (a >? 0) end;
  repeat match goal with |- context [?a =? 2] => destruct (a =? 2) end;
  cbv beta iota zeta delta [code_of mbind mret M_bind M_ret ins modify gets newLabel set_term_pc fst snd app negb
    set_e_term_pc set_e_next e_next Z.eqb Pos.eqb];
  rewrite <- ?Z.add_assoc; reflexivity.

Section Shapes.
Context `{Jit}.
Lemma emit_div_code (dec : jit_decode) (e : est) : jd_rd dec <> 0 -> jd_rs1 dec <> 0 -> jd_rs2 dec <> 0 ->
  code_of (emit_div dec) e = div_code 64 64 (e_next e) (jd_rd dec) (jd_rs1 dec) (jd_rs2 dec).
Proof. shape. Qed.
Lemma emit_divw_code (dec : jit_decode) (e : est) : jd_rd dec <> 0 -> jd_rs1 dec <> 0 -> jd_rs2 dec <> 0 ->
  code_of (emit_divw dec) e = div_code 64 32 (e_next e) (jd_rd dec) (jd_rs1 dec) (jd_rs2 dec).
Proof. shape. Qed.
Lemma emit_divu_code (dec : jit_decode) (e : est) : jd_rd dec <> 0 -> jd_rs1 dec <> 0 -> jd_rs2 dec <> 0 ->
  code_of (emit_divu dec) e = divu_code 64 64 (jd_rd dec) (jd_rs1 dec) (jd_rs2 dec) (e_next e).
Proof. shape. Qed.
Lemma emit_divuw_code (dec : jit_decode) (e : est) : jd_rd dec <> 0 -> jd_rs1 dec <> 0 -> jd_rs2 dec <> 0 ->
  code_of (emit_divuw dec) e = divu_code 64 32 (jd_rd dec) (jd_rs1 dec) (jd_rs2 dec) (e_next e).
Proof. shape. Qed.
Lemma emit_rem_code (dec : jit_decode) (e : est) : jd_rd dec <> 0 -> jd_rs1 dec <> 0 -> jd_rs2 dec <> 0 ->
  code_of (emit_rem dec) e = rem_code 64 64 (jd_rd dec) (jd_rs1 dec) (jd_rs2 dec) (e_next e).
Proof. shape. Qed.
Lemma emit_remw_code (dec : jit_decode) (e : est) : jd_rd dec <> 0 -> jd_rs1 dec <> 0 -> jd_rs2 dec <> 0 ->
  code_of (emit_remw dec) e = rem_code 64 32 (jd_rd dec) (jd_rs1 dec) (jd_rs2 dec) (e_next e).
Proof. shape. Qed.
Lemma emit_remu_code (dec : jit_decode) (e : est) : jd_rd dec <> 0 -> jd_rs1 dec <> 0 -> jd_rs2 dec <> 0 ->
  code_of (emit_remu dec) e = remu_code 64 64 (jd_rd dec) (jd_rs1 dec) (jd_rs2 dec) (e_next e).
Proof. shape. Qed.
Lemma emit_remuw_code (dec : jit_decode) (e : est) : jd_rd dec <> 0 -> jd_rs1 dec <> 0 -> jd_rs2 dec <> 0 ->
  code_of (emit_remuw dec) e = remu_code 64 32 (jd_rd dec) (jd_rs1 dec) (jd_rs2 dec) (e_next e).
Proof. shape. Qed.
End Shapes.

(** ** Every division computes what the instruction set defines *)

Section Undivided.
Context `{Jit}.

(** The divisor is not in [rdx], and is tested at the width that is divided. *)
Definition divisor_ok (w : Z) (dec : jit_decode) (s : xstate) : Prop :=
  apart (jd_rs2 dec) /\ test_exact w (guest_reg s (jd_rs2 dec)) (jd_rs2 dec).
(** The quotient of [x0] is taken to be zero. *)
Definition zero_quotient_ok (w : Z) (dec : jit_decode) (s : xstate) : Prop :=
  jd_rs1 dec = 0 -> jd_rs2 dec = 0 \/ uwrap w (guest_reg s (jd_rs2 dec)) <> 0.
(** The remainder by [x0] is taken to be minus one. *)
Definition by_register (dec : jit_decode) : Prop := jd_rs2 dec <> 0.

Lemma isa_div_0 (w b : Z) : b <> 0 -> 1 < w -> isa_div w 0 b = 0.
Proof.
  intros Hb Hw. unfold isa_div. rewrite (proj2 (Z.eqb_neq _ _) Hb). rewrite Z.quot_0_l by exact Hb. apply swrap_small; [lia |].
  pose proof (pow2_pos (w - 1) ltac:(lia)). split; lia.
Qed.
Lemma isa_rem_0 (b : Z) : isa_rem 0 b = 0.
Proof. unfold isa_rem. destruct (Z.eqb_spec b 0); [reflexivity | apply Z.rem_0_l; assumption]. Qed.
Lemma isa_divu_0 (w b : Z) : b <> 0 -> 1 < w -> isa_divu w 0 b = 0.
Proof.
  intros Hb Hw. unfold isa_divu. rewrite (proj2 (Z.eqb_neq _ _) Hb), Z.div_0_l by exact Hb. apply swrap_small; [lia |].
  pose proof (pow2_pos (w - 1) ltac:(lia)). split; lia.
Qed.
Lemma isa_remu_0 (w b : Z) : 1 < w -> isa_remu w 0 b = 0.
Proof.
  intros Hw. unfold isa_remu. rewrite Zmod_0_l. destruct (b =? 0); apply swrap_small; try lia;
    pose proof (pow2_pos (w - 1) ltac:(lia)); split; lia.
Qed.
Lemma swrap_ne0 (w x : Z) : 0 < w -> uwrap w x <> 0 -> swrap w x <> 0.
Proof.
  intros Hw Hx E. apply Hx. rewrite <- uwrap_swrap, E. apply uwrap_small. pose proof (pow2_pos w ltac:(lia)). split; lia.
Qed.

(** The code where the emitter does not divide. *)
Definition zero_code (n rd : Z) : list instr :=
  if x86_reg rd >? 0 then [as_xor (gpd (x86_reg rd)) (gpd (x86_reg rd))] else [as_mov (Slot n rd) (Const 0)].
Definition undivided (n rd rs1 rs2 : Z) : list instr :=
  if rd =? 0 then [] else if rs2 =? 0 then [as_mov (src n rd) (Const (-1))] else zero_code n rd.

Lemma mov_src_const (n g v : Z) (s : xstate) : is_width n -> in_s 32 v -> (x86_reg g <= 0 -> in_u n (slot s g)) ->
  documented (as_mov (src n g) (Const v)) s = Some (set_guest g (uwrap n v) s).
Proof.
  intros Hn Hv Hg. pose proof (write_src n g (uwrap n v) s Hn Hg) as E. unfold src in *.
  destruct (x86_reg g >? 0), Hn as [-> | ->]; cbn - [const_ok const64_ok uwrap write set_guest];
    rewrite ?const64_ok_imm, ?const_ok_imm by auto; exact E.
Qed.

Lemma run_undivided (n rd rs1 rs2 v : Z) (s : xstate) : is_width n -> word_state n s ->
  (rd <> 0 -> rs2 = 0 -> v = uwrap n (-1)) -> (rd <> 0 -> rs2 <> 0 -> v = 0) ->
  writes (run_code documented None (undivided n rd rs1 rs2) s) s rd v.
Proof.
  intros Hn Hs Hm Hz. unfold undivided. destruct (Z.eqb_spec rd 0) as [-> | Hrd]; [apply writes_nothing |].
  assert (Hsl : x86_reg rd <= 0 -> in_u n (slot s rd)) by (apply (kept_slot n (fun _ => True) s s); [exact Hs | apply kept_refl]).
  destruct (Z.eqb_spec rs2 0) as [E2 | E2].
  - step ltac:(apply mov_src_const; [exact Hn | unfold in_s; lia | exact Hsl]). rewrite <- (Hm Hrd E2). apply kept_writes; [exact Hrd | apply kept_refl].
  - rewrite (Hz Hrd E2). pose proof (kept_writes s s rd 0 Hrd (kept_refl _ s)) as W. unfold zero_code.
    pose proof (mov_src_const n rd 0 s Hn ltac:(unfold in_s; lia) Hsl) as Em. unfold src, set_guest in *.
    destruct (x86_reg rd >? 0).
    + step ltac:(apply (xor_self 32); right; reflexivity). destruct W as (s' & [= <-] & W).
      eexists. split; [reflexivity | exact W].
    + step ltac:(exact Em). exact W.
Qed.

(** Dividing, or not. *)
Definition degenerate (dec : jit_decode) : Prop := jd_rd dec = 0 \/ jd_rs2 dec = 0 \/ jd_rs1 dec = 0.

Lemma degenerate_dec (dec : jit_decode) : degenerate dec \/ (jd_rd dec <> 0 /\ jd_rs1 dec <> 0 /\ jd_rs2 dec <> 0).
Proof. unfold degenerate. lia. Qed.

End Undivided.

Ltac undivided_shape :=
  unfold degenerate; intros Hd;
  match goal with |- code_of (_ ?dec) _ = _ =>
    destruct dec as [pc inst imm op rd rs1 rs2 rs3 brt brc sz]; autounfold with emitters;
    cbn [jd_pc jd_inst jd_imm jd_rd jd_rs1 jd_rs2] in *;
    unfold undivided, zero_code, src; generalize (x86_reg rd) (x86_reg rs1) (x86_reg rs2); intros x x1 x2;
    destruct (Z.eqb_spec rd 0); [| destruct (Z.eqb_spec rs2 0); [| destruct (Z.eqb_spec rs1 0); [| exfalso; tauto]]]
  end;
  try match goal with |- context [?a >? 0] => destruct (a >? 0) end; reflexivity.

Section Computes.
Context `{Jit}.
Lemma emit_div_none (dec : jit_decode) (e : est) : degenerate dec ->
  code_of (emit_div dec) e = undivided 64 (jd_rd dec) (jd_rs1 dec) (jd_rs2 dec).
Proof. undivided_shape. Qed.
Lemma emit_divw_none (dec : jit_decode) (e : est) : degenerate dec ->
  code_of (emit_divw dec) e = undivided 64 (jd_rd dec) (jd_rs1 dec) (jd_rs2 dec).
Proof. undivided_shape. Qed.
Lemma emit_divu_none (dec : jit_decode) (e : est) : degenerate dec ->
  code_of (emit_divu dec) e = undivided 64 (jd_rd dec) (jd_rs1 dec) (jd_rs2 dec).
Proof. undivided_shape. Qed.
Lemma emit_divuw_none (dec : jit_decode) (e : est) : degenerate dec ->
  code_of (emit_divuw dec) e = undivided 64 (jd_rd dec) (jd_rs1 dec) (jd_rs2 dec).
Proof. undivided_shape. Qed.
Lemma emit_rem_none (dec : jit_decode) (e : est) : degenerate dec ->
  code_of (emit_rem dec) e = undivided 64 (jd_rd dec) (jd_rs1 dec) (jd_rs2 dec).
Proof. undivided_shape. Qed.
Lemma emit_remw_none (dec : jit_decode) (e : est) : degenerate dec ->
  code_of (emit_remw dec) e = undivided 64 (jd_rd dec) (jd_rs1 dec) (jd_rs2 dec).
Proof. undivided_shape. Qed.
Lemma emit_remu_none (dec : jit_decode) (e : est) : degenerate dec ->
  code_of (emit_remu dec) e = undivided 64 (jd_rd dec) (jd_rs1 dec) (jd_rs2 dec).
Proof. undivided_shape. Qed.
Lemma emit_remuw_none (dec : jit_decode) (e : est) : degenerate dec ->
  code_of (emit_remuw dec) e = undivided 64 (jd_rd dec) (jd_rs1 dec) (jd_rs2 dec).
Proof. undivided_shape. Qed.

End Computes.

Ltac at_zero :=
  repeat match goal with Hs : word_state _ ?s, E : ?r = 0 |- context [guest_reg ?s ?r] => rewrite E, (xw_zero s Hs) end;
  units.
(** [none] is the code without the division, [code] the code with it, [run] its run. *)
Ltac division none code run :=
  intros Hs [Ha Ht]; intros; unfold computes_at;
  match goal with |- context [code_of (_ ?dec) _] => destruct (degenerate_dec dec) as [Hd | (Hn0 & Hn1 & Hn2)] end;
  [ rewrite none by assumption; apply run_undivided; [unfold is_width; auto | assumption | |]; intros;
    match goal with
    | Hr : by_register _, E : jd_rs2 _ = 0 |- _ => destruct (Hr E)
    | |- _ = uwrap _ (-1) => at_zero; reflexivity
    | Hd : degenerate ?dec, E2 : jd_rs2 ?dec <> 0 |- _ =>
        let E1 := fresh "E" in let Hb := fresh "Hb" in
        assert (E1 : jd_rs1 dec = 0) by (destruct Hd as [| []]; tauto);
        try match goal with Hq : zero_quotient_ok _ _ _ |- _ => destruct (Hq E1) as [| Hb]; [contradiction |] end;
        at_zero; first [rewrite isa_div_0 | rewrite isa_rem_0 | rewrite isa_divu_0 | rewrite isa_remu_0];
        rewrite ?low_s, ?low_u, ?uwrap_swrap; first [reflexivity | lia | apply swrap_ne0; [lia | assumption] | assumption]
    end
  | rewrite code, ?low_s, ?low_u, ?uwrap_swrap by assumption; apply run; unfold widths, is_width, dividend_ok; auto; lia ].

Section Quotients.
Context `{Jit}.
Lemma emit_div_ok (dec : jit_decode) (e : est) (s : xstate) : xstate_wf s -> divisor_ok 64 dec s -> zero_quotient_ok 64 dec s ->
  computes emit_div Reg (isa_div 64) dec e s.
Proof. division emit_div_none emit_div_code div_run. Qed.
Lemma emit_divw_ok (dec : jit_decode) (e : est) (s : xstate) : xstate_wf s -> divisor_ok 32 dec s -> zero_quotient_ok 32 dec s ->
  computes emit_divw Reg (fun a b => isa_div 32 (swrap 32 a) (swrap 32 b)) dec e s.
Proof. division emit_divw_none emit_divw_code div_run. Qed.
Lemma emit_divu_ok (dec : jit_decode) (e : est) (s : xstate) : xstate_wf s -> divisor_ok 64 dec s -> zero_quotient_ok 64 dec s ->
  computes emit_divu Reg (fun a b => isa_divu 64 (uwrap 64 a) (uwrap 64 b)) dec e s.
Proof. division emit_divu_none emit_divu_code divu_run. Qed.
Lemma emit_divuw_ok (dec : jit_decode) (e : est) (s : xstate) : xstate_wf s -> divisor_ok 32 dec s -> zero_quotient_ok 32 dec s ->
  computes emit_divuw Reg (fun a b => isa_divu 32 (uwrap 32 a) (uwrap 32 b)) dec e s.
Proof. division emit_divuw_none emit_divuw_code divu_run. Qed.
Lemma emit_rem_ok (dec : jit_decode) (e : est) (s : xstate) : xstate_wf s -> divisor_ok 64 dec s -> by_register dec -> apart (jd_rs1 dec) ->
  computes emit_rem Reg (isa_rem) dec e s.
Proof. division emit_rem_none emit_rem_code rem_run. Qed.
Lemma emit_remw_ok (dec : jit_decode) (e : est) (s : xstate) : xstate_wf s -> divisor_ok 32 dec s -> by_register dec -> apart (jd_rs1 dec) ->
  computes emit_remw Reg (fun a b => isa_rem (swrap 32 a) (swrap 32 b)) dec e s.
Proof. division emit_remw_none emit_remw_code rem_run. Qed.
Lemma emit_remu_ok (dec : jit_decode) (e : est) (s : xstate) : xstate_wf s -> divisor_ok 64 dec s -> by_register dec ->
  computes emit_remu Reg (fun a b => isa_remu 64 (uwrap 64 a) (uwrap 64 b)) dec e s.
Proof. division emit_remu_none emit_remu_code remu_run. Qed.
Lemma emit_remuw_ok (dec : jit_decode) (e : est) (s : xstate) : xstate_wf s -> divisor_ok 32 dec s -> by_register dec ->
  computes emit_remuw Reg (fun a b => isa_remu 32 (uwrap 32 a) (uwrap 32 b)) dec e s.
Proof. division emit_remuw_none emit_remuw_code remu_run. Qed.

End Quotients.
