(* ===== verification/JitMulhsu.v ===== *)
(** * The signed-by-unsigned high product *)

From Stdlib Require Import ZArith Lia Bool List.
From stdpp Require Import base list option gmap.
From S2P Require Import Prelude Alu Meta Codec Isa X86 Jit JitEmit JitProofs JitDiv JitDivisions.

#[local] Open Scope Z_scope.
#[local] Open Scope word_scope.

(** A step that computes. *)
Ltac simple_step := erewrite run_step; [| reflexivity | cbn - [uwrap swrap x86_reg upd]; reflexivity].
(** One whose width is the guest's. *)
Ltac native_step native wide const :=
  erewrite run_step;
  [| reflexivity
   | cbn - [uwrap swrap x86_reg upd Z.eqb Z.ltb const_ok orb logic_flags sub_flags add_flags Z.land Z.lxor Z.pow set_pair];
     rewrite ?Z.eqb_refl, ?const, ?native, ?wide;
     cbn - [uwrap swrap x86_reg upd Z.eqb Z.ltb const_ok orb logic_flags sub_flags add_flags Z.land Z.lxor Z.pow set_pair];
     rewrite ?Z.eqb_refl, ?wide; reflexivity ].

Ltac keeps :=
  repeat lazymatch goal with
  | |- kept _ _ (set_flags _ _) => apply kept_flags
  | |- kept _ _ (set_xr (upd _ 2 ?v) ?s1) => apply (kept_rdx _ _ s1 v); [auto |]
  | |- kept _ _ (set_xr (upd _ ?r ?v) ?s1) => apply (kept_scratch _ _ s1 r v); [auto |]
  end; auto.

Section Run.
Context `{Jit}.

(** The width of the guest's registers: 64, or 32 for RV32. *)
Context (n : Z).

Definition mulq (g : Z) : list instr :=
  if x86_reg g >? 0 then [as_mul (Gp n (x86_reg g))] else [as_mov (Gp n 1) (Slot n g); as_mul (Gp n 1)].
Definition stash (b : bool) : list instr := if negb memory_registers && b then [as_mov (Slot n 1) (Gp n 2)] else [].
Definition unstash (b : bool) : list instr := if negb memory_registers && b then [as_mov (Gp n 2) (Slot n 1)] else [].
Definition in_rdx (rs1 rs2 : Z) : bool := (x86_reg rs1 =? 2) || (x86_reg rs2 =? 2).

Definition mulhsu_code (l rd rs1 rs2 : Z) : list instr :=
  stash (negb (x86_reg rd =? 2) || in_rdx rs1 rs2)
  ++ [as_mov (Gp n 0) (src n rs1); as_test (Gp n 0) (Gp n 0); as_j CondNS l; as_neg (Gp n 0)] ++ mulq rs2
  ++ [as_xor (Gp n 2) (Const (-1)); as_mov (Gp n 1) (Gp n 2)] ++ unstash (in_rdx rs1 rs2)
  ++ [as_mov (Gp n 0) (src n rs1); as_imul (Gp n 0) (src n rs2); as_test (Gp n 0) (Gp n 0); as_set CondE dl; as_movzx edx dl;
      as_add (Gp n 2) (Gp n 1); as_jmp (l + 1); as_bind l] ++ mulq rs2
  ++ as_bind (l + 1) :: remainder n n rd ++ unstash (negb (x86_reg rd =? 2)).

(** ** Pieces *)

Hypothesis (Hn : is_width n).
Lemma width_positive : 0 < n.
Proof. destruct Hn; lia. Qed.
Lemma width_native : (n =? 64) || (n =? 32) = true.
Proof. destruct Hn as [-> | ->]; reflexivity. Qed.
Lemma width_wide : (n <? 32) = false.
Proof. destruct Hn as [-> | ->]; reflexivity. Qed.
Lemma mov_reg_slot (r g : Z) (s : xstate) :
  documented (as_mov (Gp n r) (Slot n g)) s = Some (set_xr (upd (xr s) r (uwrap n (slot s g))) s).
Proof. destruct Hn as [-> | ->]; reflexivity. Qed.
Lemma width_const : const_ok n (-1) = true.
Proof. destruct Hn as [-> | ->]; reflexivity. Qed.


Lemma kept_stash (P : Z -> Prop) (s s1 : xstate) (v : Z) : memory_registers = false ->
  kept P s s1 -> kept P s (set_slot (upd (slot s1) 1 v) s1).
Proof.
  intros Em [Hg Hsl Hm Hf]. split; [| | assumption..].
  - intros g HP. rewrite <- (Hg g HP). unfold guest_reg. cbn [xr slot set_slot].
    rewrite Z.gtb_ltb. destruct (Z.ltb_spec 0 (x86_reg g)) as [Hp | Hp]; [reflexivity |].
    apply upd_other. intros ->. rewrite (ra_place Em) in Hp. lia.
  - intros g Hp. rewrite <- (Hsl g Hp). apply upd_other. intros ->. rewrite (ra_place Em) in Hp. lia.
Qed.

(** A write of [n] bits of a slot, read back. *)
Lemma stash_write (s : xstate) : exists u, documented (as_mov (Slot n 1) (Gp n 2)) s = Some (set_slot (upd (slot s) 1 u) s)
  /\ uwrap n u = uwrap n (xr s 2).
Proof.
  destruct Hn as [-> | ->]; (eexists; split; [reflexivity |]); cbn [Z.eqb Pos.eqb];
    rewrite ?Z.shiftl_mul_pow2, ?(Z.add_comm (_ * _)), ?uwrap_add_multiple, uwrap_idemp by lia; reflexivity.
Qed.

(** What the stash holds, if it was made. *)
Definition stashed (b : bool) (s s1 : xstate) : Prop := memory_registers = false -> b = true -> uwrap n (slot s1 1) = uwrap n (xr s 2).

Lemma run_stash (b : bool) (c : list instr) (s : xstate) :
  exists s1, run_code documented None (stash b ++ c) s = run_code documented None c s1
    /\ kept (fun _ => True) s s1 /\ xr s1 = xr s /\ stashed b s s1.
Proof.
  unfold stash, stashed. destruct memory_registers eqn:Em; cbn [negb andb].
  { exists s. split; [reflexivity |]. split; [apply kept_refl |]. split; [reflexivity | discriminate]. }
  destruct b.
  - destruct (stash_write s) as (u & Eu & Hu). eexists. split; [cbn [app]; step ltac:(exact Eu); reflexivity |].
    split; [apply kept_stash; [exact Em | apply kept_refl] |].
    split; [reflexivity |]. intros _ _. cbn [slot set_slot]. rewrite upd_same. exact Hu.
  - exists s. split; [reflexivity |]. split; [apply kept_refl |]. split; [reflexivity | discriminate].
Qed.

Ltac nstep := native_step width_native width_wide width_const.
Lemma run_mulq (g : Z) (c : list instr) (s s1 : xstate) (a b : Z) : kept (fun g' => apart g' \/ g' = g) s s1 -> word_state n s ->
  a = uwrap n (xr s1 0) -> b = guest_reg s g ->
  exists s2, run_code documented None (mulq g ++ c) s1 = run_code documented None c s2 /\ kept apart s s2
    /\ xr s2 2 = uwrap n (a * b / 2 ^ n) /\ slot s2 = slot s1.
Proof.
  intros Hk Hs Ea Eb. assert (Hb : guest_reg s1 g = b) by (rewrite (kept_guest _ _ _ Hk g (or_intror eq_refl)); congruence).
  assert (Ub : uwrap n b = b) by (subst b; apply uwrap_small, (xw_range s Hs)).
  assert (Hka : kept apart s s1) by (eapply kept_weak; [| exact Hk]; intros g' Hg'; left; exact Hg').
  unfold mulq. destruct (x86_reg g >? 0) eqn:Eg; cbn [app].
  - eexists. split; [nstep; reflexivity |]. split; [apply kept_pair; [tauto | exact Hka] |].
    split; [| reflexivity]. cbn [xr set_pair set_flags set_xr]. rewrite upd_same.
    replace (xr s1 (x86_reg g)) with b by (rewrite <- Hb; unfold guest_reg; rewrite Eg; reflexivity).
    rewrite Ub, <- Ea. reflexivity.
  - eexists. split; [step ltac:(apply mov_reg_slot); nstep; reflexivity |].
    split; [apply kept_pair; [tauto | apply kept_scratch; [auto | exact Hka]] |].
    split; [| reflexivity]. cbn [xr set_pair set_flags set_xr]. rewrite !upd_same, upd_other by discriminate.
    replace (slot s1 g) with b by (rewrite <- Hb; unfold guest_reg; rewrite Eg; reflexivity).
    rewrite !Ub, <- Ea. reflexivity.
Qed.

(** Where an operand was in [rdx], it is there again. *)
Lemma run_unstash (rs1 rs2 : Z) (b : bool) (c : list instr) (s s1 : xstate) : word_state n s -> kept apart s s1 ->
  stashed (b || in_rdx rs1 rs2) s s1 ->
  exists s2, run_code documented None (unstash (in_rdx rs1 rs2) ++ c) s1 = run_code documented None c s2
    /\ kept (fun g => apart g \/ g = rs1 \/ g = rs2) s s2 /\ xr s2 0 = xr s1 0 /\ xr s2 1 = xr s1 1 /\ slot s2 = slot s1.
Proof.
  intros Hs Hk Hst. unfold unstash, stashed in *. destruct memory_registers eqn:Em; cbn [negb andb].
  { exists s1. split; [reflexivity |]. split; [| auto]. eapply kept_weak; [| exact Hk]. intros g _. left. exact Em. }
  destruct (in_rdx rs1 rs2) eqn:Ei.
  - eexists. split; [cbn [app]; step ltac:(apply mov_reg_slot); reflexivity |].
    split; [| cbn [xr slot set_xr]; rewrite !upd_other by discriminate; auto].
    assert (K : kept (fun g => g <> 0) s (set_xr (upd (xr s1) 2 (uwrap n (slot s1 1))) s1)).
    { destruct Hk as [Hg Hsl Hm Hf]. split; [| assumption..]. intros g Hp. destruct (Z.eq_dec g 1) as [-> | Hne].
      - rewrite !guest_ra by exact Em. cbn [xr set_xr]. rewrite upd_same, Hst by (auto; apply orb_true_r).
        apply uwrap_small. rewrite <- guest_ra by exact Em. apply (xw_range s Hs).
      - rewrite guest_rdx by (right; exact Hne). apply Hg. right. exact Hne. }
    destruct K as [Kg Ksl Km Kf]. split; [| assumption..]. intros g _. destruct (Z.eq_dec g 0) as [-> | H0]; [| auto].
    rewrite guest_rdx by (right; discriminate). apply (kept_guest _ _ _ Hk). right. discriminate.
  - exists s1. split; [reflexivity |]. split; [| auto]. unfold in_rdx in Ei. apply orb_false_iff in Ei as [E1 E2].
    eapply kept_weak; [| exact Hk]. intros g [Hg | [-> | ->]]; [exact Hg | |]; apply apart_rd; apply Z.eqb_neq; assumption.
Qed.

Lemma run_high (rd v : Z) (b : bool) (s s1 : xstate) : word_state n s -> rd <> 0 -> kept apart s s1 ->
  stashed (negb (x86_reg rd =? 2) || b) s s1 -> v = xr s1 2 -> in_u n v ->
  writes (run_code documented None (remainder n n rd ++ unstash (negb (x86_reg rd =? 2))) s1) s rd v.
Proof.
  intros Hs Hrd Hk Hst Ev Rv.
  assert (Hk2 : kept (fun g => apart g /\ g <> rd) s s1) by (eapply kept_weak; [| exact Hk]; intros g' [Hg' _]; exact Hg').
  destruct (Z.eq_dec (x86_reg rd) 2) as [Hx | Hx].
  - pose proof (run_remainder n n rd v s s1 (conj Hn (conj Hn (Z.le_refl n))) Hs Hrd Hk2) as W. unfold restore, unstash in *.
    rewrite Hx in *. cbn [Z.eqb Pos.eqb negb] in *. rewrite andb_false_r. apply W; [congruence | congruence |].
    rewrite uwrap_swrap, uwrap_small; congruence.
  - rewrite (proj2 (Z.eqb_neq _ _) Hx) in *. unfold unstash, stashed in *. cbn [negb orb] in Hst.
    assert (R : forall c, run_code documented None (remainder n n rd ++ c) s1 = run_code documented None c (set_guest rd v s1)).
    { intros c. unfold remainder. rewrite (proj2 (Z.eqb_neq _ _) Hx), Z.eqb_refl.
      pose proof (mov_src_reg n rd 2 s1 Hn (kept_slot n _ s s1 rd Hs Hk)) as E. rewrite <- Ev, (uwrap_small n v Rv) in E.
      unfold src in E. destruct (x86_reg rd >? 0); cbn [app]; step ltac:(exact E); reflexivity. }
    rewrite R. destruct memory_registers eqn:Em; cbn [negb andb].
    + apply kept_writes; [exact Hrd |]. eapply kept_weak; [| exact Hk]. intros g _. left. exact Em.
    + step ltac:(apply mov_reg_slot). cbn [run_code].
      replace (slot (set_guest rd v s1) 1) with (slot s1 1); [rewrite Hst by auto; apply writes_back; assumption |].
      unfold set_guest. rewrite Z.gtb_ltb.
      destruct (Z.ltb_spec 0 (x86_reg rd)); [reflexivity |]. cbn [slot set_slot]. symmetry. apply upd_other.
      intros <-. rewrite (ra_place Em) in *. lia.
Qed.
(** ** Values *)

Lemma imul_src (g : Z) (s : xstate) :
  documented (as_imul (Gp n 0) (src n g)) s
  = Some (set_flags None (set_xr (upd (xr s) 0 (uwrap n (uwrap n (xr s 0) * uwrap n (guest_reg s g)))) s)).
Proof. unfold src, guest_reg. destruct (x86_reg g >? 0), Hn as [-> | ->]; reflexivity. Qed.

(** The high word of a negated product is the complement of the high word, and
    one more if the low word is zero. *)
Lemma high_neg (a b : Z) : in_u n a -> in_u n b -> swrap n a < 0 ->
  uwrap n (swrap n a * b / 2 ^ n)
  = uwrap n (b2z (uwrap n (a * b) =? 0) + (-1 - uwrap n (uwrap n (- a) * b / 2 ^ n))).
Proof.
  pose proof width_positive as Hpos. intros Ra Rb Hneg. rewrite swrap_neg in * by (lia || exact Ra). unfold in_u in *.
  pose proof (pow2_half n Hpos) as HM. assert (Hm' : 0 < 2 ^ (n - 1)) by (apply pow2_pos; lia).
  set (m := 2 ^ n) in *. set (m' := 2 ^ (n - 1)) in *.
  destruct (Z.ltb_spec a m') as [Hlt | Hge]; [lia |]. set (x := a - m) in *.
  assert (Ena : uwrap n (- a) = - x).
  { rewrite <- (uwrap_add_multiple n (- a) 1) by lia. fold m. replace (- a + 1 * m) with (- x) by (unfold x; lia). apply uwrap_small. unfold in_u. fold m. lia. }
  rewrite Ena. set (p := - x * b). assert (Ep : x * b = - p) by (unfold p; ring).
  assert (El : uwrap n (a * b) = (- p) mod m).
  { rewrite <- Ep. unfold uwrap. fold m. replace (a * b) with (x * b + b * m) by (unfold x; ring). apply Z_mod_plus_full. }
  rewrite El, Ep. f_equal.
  assert (Hp : 0 <= p < m * m) by (unfold p; nia).
  assert (Hh : 0 <= p / m < m) by (split; [apply Z.div_pos; lia | apply Z.div_lt_upper_bound; lia]).
  rewrite (uwrap_small n (p / m)) by (unfold in_u; fold m; lia).
  destruct (Z.eq_dec (p mod m) 0) as [E0 | E0].
  - rewrite (Z_mod_zero_opp_full p m E0), (Z_div_zero_opp_full p m E0). cbn [Z.eqb b2z]. lia.
  - rewrite (Z_div_nz_opp_full p m), (Z_mod_nz_opp_full p m) by (assumption || lia).
    pose proof (Z.mod_pos_bound p m ltac:(lia)). rewrite (proj2 (Z.eqb_neq (m - p mod m) 0)) by lia. cbn [b2z]. lia.
Qed.

Lemma lxor_m1_word (h : Z) : in_u n h -> uwrap n (h .^ uwrap n (-1)) = uwrap n (-1 - h).
Proof.
  pose proof width_positive as Hpos. intros Hh. pose proof (lxor_uwrap_ones n h ltac:(lia)) as E. rewrite (uwrap_small n h Hh), Z.lxor_comm in E.
  replace (uwrap n (-1)) with (2 ^ n - 1) by (destruct Hn as [-> | ->]; reflexivity). rewrite E. apply uwrap_idemp.
Qed.

Lemma seek_mulq (l g : Z) (c : list instr) (s : xstate) : run_code documented (Some l) (mulq g ++ c) s = run_code documented (Some l) c s.
Proof. unfold mulq. destruct (x86_reg g >? 0); reflexivity. Qed.
Lemma seek_unstash (l : Z) (b : bool) (c : list instr) (s : xstate) : run_code documented (Some l) (unstash b ++ c) s = run_code documented (Some l) c s.
Proof. unfold unstash. destruct (negb memory_registers && b); reflexivity. Qed.

(** ** The run *)

Lemma mulhsu_run (l rd rs1 rs2 : Z) (s : xstate) : word_state n s -> rd <> 0 ->
  writes (run_code documented None (mulhsu_code l rd rs1 rs2) s) s rd
    (uwrap n (swrap n (guest_reg s rs1) * guest_reg s rs2 / 2 ^ n)).
Proof.
  pose proof width_positive as Hpos0. intros Hs Hrd. set (a := guest_reg s rs1). set (b := guest_reg s rs2).
  assert (Ra : in_u n a) by apply (xw_range s Hs). assert (Rb : in_u n b) by apply (xw_range s Hs).
  unfold mulhsu_code. match goal with |- context [stash ?x ++ ?c] => destruct (run_stash x c s) as (s1 & -> & Hk1 & Hx1 & Hst1) end.
  cbn [app]. step ltac:(apply mov_reg_src; exact Hn). rewrite (kept_guest _ _ _ Hk1) by exact I. fold a.
  rewrite (uwrap_small n a Ra). set (s2 := set_xr _ _).
  assert (Hk2 : kept (fun _ => True) s s2) by (apply kept_scratch; auto).
  assert (Hst2 : stashed (negb (x86_reg rd =? 2) || in_rdx rs1 rs2) s s2) by exact Hst1.
  assert (H20 : xr s2 0 = a) by apply upd_same. clearbody s2.
  nstep. erewrite run_j by reflexivity. rewrite H20, Z.land_diag, (uwrap_small n a Ra).
  assert (Hns : holds_cond CondNS (logic_flags n a) = negb (swrap n a <? 0)).
  { cbn. rewrite <- (uwrap_small n a Ra) at 1. rewrite <- (sign_bit n a) by lia. reflexivity. }
  rewrite Hns. destruct (Z.ltb_spec (swrap n a) 0) as [Hneg | Hpos]; cbn [negb].
  - nstep. change (xr (set_flags (Some (logic_flags n a)) s2) 0) with (xr s2 0). rewrite H20, (uwrap_small n a Ra).
    set (s3 := set_flags _ (set_xr _ _)).
    assert (Hk3 : kept (fun _ => True) s s3) by (unfold s3; keeps).
    match goal with |- context [mulq rs2 ++ ?c] =>
      destruct (run_mulq rs2 c s s3 (uwrap n (- a)) b) as (s4 & -> & Hk4 & H42 & Hs4);
        [eapply kept_weak; [| exact Hk3]; intros; exact I | exact Hs | unfold s3; cbn [xr set_flags set_xr]; rewrite upd_same, ?uwrap_idemp; reflexivity | reflexivity |] end.
    set (h := uwrap n (uwrap n (- a) * b / 2 ^ n)) in *.
    assert (Rh : in_u n h) by (apply uwrap_range; lia).
    cbn [app]. nstep. rewrite H42, (uwrap_small n h Rh), lxor_m1_word by exact Rh.
    step ltac:(apply mov_reg_reg; exact Hn). cbn [xr set_flags set_xr]. rewrite upd_same, uwrap_idemp. set (s5 := set_xr (upd _ 1 _) _).
    assert (Hk5 : kept apart s s5) by (unfold s5; keeps).
    match goal with |- context [unstash (in_rdx rs1 rs2) ++ ?c] =>
      destruct (run_unstash rs1 rs2 (negb (x86_reg rd =? 2)) c s s5 Hs Hk5) as (s6 & -> & Hk6 & H60 & H61 & Hs6) end.
    { unfold stashed in *. unfold s5. cbn [slot set_flags set_xr]. rewrite Hs4. exact Hst2. }
    cbn [app]. step ltac:(apply mov_reg_src; exact Hn). rewrite (kept_guest _ _ _ Hk6) by auto. fold a.
    step ltac:(apply imul_src). rewrite guest_scratch by auto. rewrite (kept_guest _ _ _ Hk6) by auto. fold b.
    cbn [xr set_flags set_xr]. rewrite upd_same, (uwrap_small n a Ra), (uwrap_small n a Ra), (uwrap_small n b Rb).
    nstep. cbn [xr set_flags set_xr]. rewrite upd_same, uwrap_idemp, Z.land_diag.
    simple_step. simple_step. nstep. cbn [xr set_flags set_xr].
    rewrite !upd_same, !(upd_other _ 2), !(upd_other _ 0) by discriminate. rewrite low_byte, H61.
    rewrite run_jmp. seeks. rewrite seek_mulq. seeks. eapply run_high; [exact Hs | exact Hrd | | | |].
    + keeps. eapply kept_weak; [| exact Hk6]. intros g Hg. left. exact Hg.
    + unfold stashed in *. cbn [slot set_flags set_xr]. rewrite Hs6. unfold s5. cbn [slot set_flags set_xr]. rewrite Hs4. exact Hst2.
    + cbn [xr set_flags set_xr]. rewrite upd_same. rewrite (high_neg a b Ra Rb Hneg). fold h. unfold s5. cbn [xr set_flags set_xr].
      rewrite upd_same. autorewrite with wrap. reflexivity.
    + apply uwrap_range. lia.
  - seeks. rewrite seek_mulq. cbn [app]. seeks. rewrite seek_unstash. seeks.
    match goal with |- context [mulq rs2 ++ ?c] =>
      destruct (run_mulq rs2 c s (set_flags (Some (logic_flags n a)) s2) a b) as (s4 & -> & Hk4 & H42 & Hs4);
        [keeps; eapply kept_weak; [| exact Hk2]; intros; exact I | exact Hs
        | cbn [xr set_flags]; rewrite H20, (uwrap_small n a Ra); reflexivity | reflexivity |] end.
    rewrite run_bind. eapply run_high; [exact Hs | exact Hrd | exact Hk4 | | | apply uwrap_range; lia].
    + unfold stashed in *. rewrite Hs4. exact Hst2.
    + rewrite H42. do 3 f_equal. pose proof (swrap_neg n a ltac:(lia) Ra) as E. destruct (Z.ltb_spec a (2 ^ (n - 1))); [exact E |].
      unfold in_u in Ra. rewrite (pow2_half n) in * by lia. lia.
Qed.

(** What an emitter that appends the shape, or zero without a product, computes. *)
Lemma mulhsu_computes (emit_x : jit_decode -> M bool) (dec : jit_decode) (e : est) (s : xstate) : word_state n s ->
  (degenerate dec -> code_of (emit_x dec) e = if jd_rd dec =? 0 then [] else zero_code n (jd_rd dec)) ->
  (jd_rd dec <> 0 -> jd_rs1 dec <> 0 -> jd_rs2 dec <> 0 ->
   code_of (emit_x dec) e = mulhsu_code (e_next e) (jd_rd dec) (jd_rs1 dec) (jd_rs2 dec)) ->
  computes_at n emit_x Reg (fun a b => a * uwrap n b / 2 ^ n) dec e s.
Proof.
  intros Hs E0 Ec. unfold computes_at. destruct (degenerate_dec dec) as [Hd | (H0 & H1 & H2)].
  - rewrite (E0 Hd). pose proof (run_undivided n (jd_rd dec) 0 1 0 s Hn Hs) as W. unfold undivided in W. cbn [Z.eqb] in W.
    destruct (Z.eqb_spec (jd_rd dec) 0) as [Er | Er]; [rewrite Er; apply writes_nothing |].
    assert (Hv : uwrap n (swrap n (guest_reg s (jd_rs1 dec)) * uwrap n (swrap n (guest_reg s (jd_rs2 dec))) / 2 ^ n) = 0).
    { destruct Hd as [| [Hd | Hd]]; [contradiction | |]; rewrite Hd, (xw_zero s Hs); destruct Hn as [-> | ->]; units; reflexivity. }
    rewrite Hv. apply W; [discriminate | reflexivity].
  - rewrite (Ec H0 H1 H2), uwrap_swrap, (uwrap_small n (guest_reg s (jd_rs2 dec)) (xw_range s Hs _)). apply mulhsu_run; assumption.
Qed.
End Run.

Ltac mulhsu_shape :=
  intros Hrd H1 H2;
  match goal with |- code_of (_ ?dec) _ = _ =>
    destruct dec as [pc inst imm op rd rs1 rs2 rs3 brt brc sz]; autounfold with emitters;
    cbn [jd_pc jd_inst jd_imm jd_rd jd_rs1 jd_rs2] in *; equalities;
    unfold mulhsu_code, mulq, stash, unstash, in_rdx, remainder, src;
    generalize (x86_reg rd) (x86_reg rs1) (x86_reg rs2); intros x x1 x2;
    destruct memory_registers, (x =? 2), (x1 =? 2), (x2 =? 2), (x >? 0), (x1 >? 0), (x2 >? 0); reflexivity
  end.
Ltac zero_shape :=
  unfold degenerate; intros Hd;
  match goal with |- code_of (_ ?dec) _ = _ =>
    destruct dec as [pc inst imm op rd rs1 rs2 rs3 brt brc sz]; autounfold with emitters;
    cbn [jd_pc jd_inst jd_imm jd_rd jd_rs1 jd_rs2] in *; unfold zero_code;
    destruct (Z.eqb_spec rd 0); [reflexivity |]; replace ((rs1 =? 0) || (rs2 =? 0)) with true by lia;
    destruct (x86_reg rd >? 0); reflexivity
  end.

Section Emitted.
Context `{Jit}.
Lemma emit_mulhsu_code (dec : jit_decode) (e : est) : jd_rd dec <> 0 -> jd_rs1 dec <> 0 -> jd_rs2 dec <> 0 ->
  code_of (emit_mulhsu dec) e = mulhsu_code 64 (e_next e) (jd_rd dec) (jd_rs1 dec) (jd_rs2 dec).
Proof. mulhsu_shape. Qed.
Lemma emit_mulhsu_none (dec : jit_decode) (e : est) : degenerate dec ->
  code_of (emit_mulhsu dec) e = if jd_rd dec =? 0 then [] else zero_code 64 (jd_rd dec).
Proof. zero_shape. Qed.
Lemma emit_mulhsu_ok (dec : jit_decode) (e : est) (s : xstate) : xstate_wf s ->
  computes emit_mulhsu Reg (fun a b => a * uwrap 64 b / 2 ^ 64) dec e s.
Proof. intros Hs. apply mulhsu_computes; [left; reflexivity | exact Hs | apply emit_mulhsu_none | apply emit_mulhsu_code]. Qed.
End Emitted.
