(* ===== verification/JitMem.v ===== *)
(** * Constants, loads and stores

    The code of [lui], [auipc], the links of the jumps, and of the loads and stores
    of a processor that accesses the host's memory directly ([use_mmu] is
    never set). *)

From Stdlib Require Import ZArith Lia Bool List.
From stdpp Require Import base list option gmap.
From S2P Require Import Prelude Meta Codec Replay Isa X86 Jit JitEmit JitProofs.

#[local] Open Scope Z_scope.
#[local] Open Scope word_scope.

#[local] Hint Unfold emit_ld emit_lw emit_lwu emit_lh emit_lhu emit_lb emit_lbu emit_sd emit_sw emit_sh emit_sb : emitters.
#[local] Arguments read_le : simpl never.
#[local] Arguments write_le : simpl never.

Section Memory.
Context `{Jit}.
Hypothesis Hmmu : use_mmu = false.

(** ** Constants *)

(** A constant goes to a slot only if it is a signed word. *)
Definition const_code (rd v : Z) : list instr :=
  if rd =? 0 then []
  else if x86_reg rd >? 0 then [as_mov (gpq (x86_reg rd)) (Const v)]
  else [as_mov (rbp_reg_q rd) (Const v)].
Definition link_code (rd v : Z) : list instr :=
  if rd =? 0 then []
  else if x86_reg rd >? 0 then [as_mov (gpq (x86_reg rd)) (Const v)]
  else [as_mov rax (Const v); as_mov (rbp_reg_q rd) rax].
Definition const_fits (rd v : Z) : Prop := rd = 0 \/ 0 < x86_reg rd \/ in_s 32 v.

Lemma const_writes (rd v : Z) (s : xstate) : xstate_wf s -> in_s 64 v -> const_fits rd v ->
  writes (run_code documented None (const_code rd v) s) s rd (uwrap 64 v).
Proof using.
  intros [Hr Hz] Hv Hf. unfold const_code.
  assert (Hc : const64_ok v = true) by (unfold const64_ok, in_s in *; change (64 - 1) with 63 in *; lia).
  destination rd; use_places; run_it; [| rewrite ?Hc; run_it ..].
  - written.
  - written. reflexivity.
  - destruct Hf as [Hf | [Hf | Hf]]; try lia. rewrite (const_ok_imm 64 v) by auto. run_it. written. reflexivity.
Qed.
Lemma link_writes (rd v : Z) (s : xstate) : xstate_wf s -> in_s 64 v ->
  writes (run_code documented None (link_code rd v) s) s rd (uwrap 64 v).
Proof using.
  intros [Hr Hz] Hv. unfold link_code.
  assert (Hc : const64_ok v = true) by (unfold const64_ok, in_s in *; change (64 - 1) with 63 in *; lia).
  destination rd; use_places; run_it; [| rewrite ?Hc; run_it ..]; written; rewrite ?uwrap_idemp; reflexivity.
Qed.

(** ** Loads *)

Definition loads (emit_x : jit_decode -> M bool) (n : nat) (ext : Z -> Z) (dec : jit_decode) (e : est) (s : xstate) : Prop :=
  writes (run_code documented None (code_of (emit_x dec) e) s) s (jd_rd dec)
    (uwrap 64 (ext (read_le n (mem s) (guest_reg s (jd_rs1 dec) + jd_imm dec)))).

Definition byte_memory (m : Z -> Z) : Prop := forall a, in_u 64 a -> in_u 8 (m a).
Lemma read_le_range (n : nat) (m : Z -> Z) (a : Z) : byte_memory m -> in_u (8 * Z.of_nat n) (read_le n m a).
Proof using.
  intros Hm. revert a. induction n as [| n IH]; intros a; [split; [reflexivity || discriminate | reflexivity] |].
  unfold read_le; fold read_le. pose proof (Hm (uwrap 64 a) ltac:(apply uwrap_range; lia)) as [H1 H2]. pose proof (IH (a + 1)) as [H3 H4].
  replace (8 * Z.of_nat (S n)) with (8 + 8 * Z.of_nat n) by lia. unfold in_u. rewrite Z.pow_add_r by lia.
  change (2 ^ 8) with 256 in *. split; lia.
Qed.
Lemma uwrap_read_le (n : nat) (m : Z -> Z) (a : Z) : (n <= 8)%nat -> byte_memory m -> uwrap 64 (read_le n m a) = read_le n m a.
Proof using.
  intros Hn Hm. apply uwrap_small. destruct (read_le_range n m a Hm) as [H1 H2]. split; [exact H1 |].
  eapply Z.lt_le_trans; [exact H2 |]. apply Z.pow_le_mono_r; lia.
Qed.

(** Sizes in bytes. *)
Ltac sizes :=
  change (Z.to_nat (64 / 8)) with 8%nat; change (Z.to_nat (32 / 8)) with 4%nat;
  change (Z.to_nat (16 / 8)) with 2%nat; change (Z.to_nat (8 / 8)) with 1%nat; change (uwrap 64 0) with 0.
Ltac mem_decode dec :=
  destruct dec as [pc inst imm op rd rs1 rs2 rs3 brt brc sz]; autounfold with emitters;
  cbn [jd_pc jd_inst jd_imm jd_rd jd_rs1 jd_rs2 fst snd] in *.
Ltac load_cases :=
  intros [Hr Hz] Hm; unfold loads;
  match goal with |- context [code_of (_ ?dec) _] => mem_decode dec end;
  match goal with |- context [writes _ _ ?rd (uwrap 64 _)] =>
    match goal with |- context [guest_reg _ ?rs1 + _] => destination rd; [| operand_of rs1 rd ..] end
  end;
  rewrite ?Hmmu; different; use_places; run_it; written; values; sizes;
  rewrite ?uwrap_swrap, ?uwrap_idemp, ?uwrap_read_le by (lia || assumption); reflexivity.
Lemma emit_ld_ok dec e s : xstate_wf s -> byte_memory (mem s) -> loads emit_ld 8 (swrap 64) dec e s.
Proof using Hmmu. load_cases. Qed.
Lemma emit_lw_ok dec e s : xstate_wf s -> byte_memory (mem s) -> loads emit_lw 4 (swrap 32) dec e s.
Proof using Hmmu. load_cases. Qed.
Lemma emit_lwu_ok dec e s : xstate_wf s -> byte_memory (mem s) -> loads emit_lwu 4 (fun v => v) dec e s.
Proof using Hmmu. load_cases. Qed.
Lemma emit_lh_ok dec e s : xstate_wf s -> byte_memory (mem s) -> loads emit_lh 2 (swrap 16) dec e s.
Proof using Hmmu. load_cases. Qed.
Lemma emit_lhu_ok dec e s : xstate_wf s -> byte_memory (mem s) -> loads emit_lhu 2 (fun v => v) dec e s.
Proof using Hmmu. load_cases. Qed.
Lemma emit_lb_ok dec e s : xstate_wf s -> byte_memory (mem s) -> loads emit_lb 1 (swrap 8) dec e s.
Proof using Hmmu. load_cases. Qed.
Lemma emit_lbu_ok dec e s : xstate_wf s -> byte_memory (mem s) -> loads emit_lbu 1 (fun v => v) dec e s.
Proof using Hmmu. load_cases. Qed.

(** ** Stores *)

(** The low bytes of the source go to memory and the guest's registers stay. *)
Definition stores (emit_x : jit_decode -> M bool) (n : nat) (dec : jit_decode) (e : est) (s : xstate) : Prop :=
  exists s', run_code documented None (code_of (emit_x dec) e) s = Some (s', Through)
    /\ (forall g, guest_reg s' g = guest_reg s g) /\ pfield s' = pfield s
    /\ mem s' = write_le n (mem s) (guest_reg s (jd_rs1 dec) + jd_imm dec) (uwrap (8 * Z.of_nat n) (guest_reg s (jd_rs2 dec))).

Lemma scratch_guest (s s' : xstate) : (forall q, q <> 1%positive -> xr s' (Z.pos q) = xr s (Z.pos q)) ->
  slot s' = slot s -> forall g, guest_reg s' g = guest_reg s g.
Proof using.
  intros Hx Hs g. destruct (place g) as [(q & E & Hq) | [E | [E _]]].
  - rewrite !(guest_pos _ _ _ E). apply Hx, Hq.
  - rewrite !(guest_neg _ _ E), Hs. reflexivity.
  - rewrite !(guest_zero _ _ E), Hs. reflexivity.
Qed.

Lemma narrow (n x : Z) : 0 <= n <= 64 -> uwrap n (uwrap 64 x) = uwrap n x.
Proof using. apply residue_low. Qed.

Ltac store_cases :=
  intros [Hr Hz]; unfold stores;
  match goal with |- context [code_of (_ ?dec) _] => mem_decode dec end;
  match goal with |- context [uwrap _ (guest_reg _ ?rs2)] =>
    match goal with |- context [guest_reg _ ?rs1 + _] =>
      (destruct (Z.eq_dec rs2 0) as [-> |]; [| place_of rs2]); (destruct (Z.eq_dec rs1 0) as [-> |]; [| place_of rs1]) end
  end;
  rewrite ?Hmmu; different; use_places; run_it; constants; run_it;
  eexists; (split; [reflexivity |]);
  (split; [apply scratch_guest; [intros; cbn [xr set_mem]; lookups; reflexivity | reflexivity] | split; [reflexivity |]]);
  change (8 * Z.of_nat 8) with 64; cbn [mem set_mem set_xr]; lookups; values; sizes; rewrite ?narrow by lia; reflexivity.
Lemma emit_sd_ok dec e s : xstate_wf s -> stores emit_sd 8 dec e s.
Proof using Hmmu. store_cases. Qed.
Lemma emit_sw_ok dec e s : xstate_wf s -> stores emit_sw 4 dec e s.
Proof using Hmmu. store_cases. Qed.
Lemma emit_sh_ok dec e s : xstate_wf s -> stores emit_sh 2 dec e s.
Proof using Hmmu. store_cases. Qed.
Lemma emit_sb_ok dec e s : xstate_wf s -> stores emit_sb 1 dec e s.
Proof using Hmmu. store_cases. Qed.
End Memory.
