(* ===== verification/JitCorrect.v ===== *)
(** * One instruction: the emitted code against the interpreter

    The processor's state as the host holds it ([matches]), one step of the
    interpreter on a decoded instruction ([inst_step]), and the simulation: for
    every integer computational instruction, [lui], [auipc], and the loads and
    stores, what the emitter appends takes a state that holds the guest's to one
    that holds what the interpreter leaves. *)

From Stdlib Require Import ZArith Lia Bool List.
From stdpp Require Import base list option gmap.
From S2P Require Import Prelude Alu Meta Codec Ckpt Replay Interp Isa Mmu X86 Jit JitEmit JitProofs.
From S2P Require Import JitMem JitAlu JitMul JitDiv JitDivisions JitMulhsu.

#[local] Open Scope Z_scope.
#[local] Open Scope word_scope.

(** ** The interpreter's side *)

(** The interpreter's view of an instruction of a trace. *)
Definition decode_of (o : rv_op) (d : jit_decode) : decode :=
  mkDecode (jd_imm d) (jd_rd d) (jd_rs1 d) (jd_rs2 d) (jd_rs3 d) o rv_codec_none 0 0 0 0 0.

(** [inst_exec] and the assignment to [pc], on the host's memory, of a processor
    of [w] bits. *)
Definition inst_step_at (w : Z) (exec_fp : decode -> hart -> Z -> io Z) (fl : flags) (o : rv_op) (d : jit_decode)
    (h : hart) (M : memory) : option (hart * memory) :=
  match run (exec_inst exec_fp fl w (decode_of o d) h (inst_length (jd_inst d))) M with
  | Fine (h', M') off => Some (set_pc (next_pc w h' off) h', M')
  | _ => None
  end.
Abbreviation inst_step := (inst_step_at 64).

(** ** The divisions that are computed exactly *)

(** The operands for which an emitter's code is what the instruction asks for: shift
    counts that can be encoded; a division whose code neither overwrites its divisor
    nor tests more than it divides by; a constant that fits its destination; an
    access that stays below the top of memory.  [a] and [b] are the sources. *)
Definition exact `{Jit} (o : rv_op) (d : jit_decode) (a b : Z) : Prop :=
  let divisor w := apart (jd_rs2 d) /\ test_exact w b (jd_rs2 d) in
  let quotient w := jd_rs1 d = 0 -> jd_rs2 d = 0 \/ uwrap w b <> 0 in
  match o with
  | rv_op_slli | rv_op_srli | rv_op_srai => 0 <= jd_imm d < 64
  | rv_op_slliw | rv_op_srliw | rv_op_sraiw => 0 <= jd_imm d < 32
  | rv_op_sll | rv_op_srl | rv_op_sra => b mod 128 < 64
  | rv_op_addw => ~ (jd_rs1 d = 0 /\ 0 < x86_reg (jd_rd d) /\ x86_reg (jd_rs2 d) <= 0)
  | rv_op_div | rv_op_divu => divisor 64 /\ quotient 64
  | rv_op_divw | rv_op_divuw => divisor 32 /\ quotient 32
  | rv_op_rem => divisor 64 /\ by_register d /\ apart (jd_rs1 d)
  | rv_op_remw => divisor 32 /\ by_register d /\ apart (jd_rs1 d)
  | rv_op_remu => divisor 64 /\ by_register d
  | rv_op_remuw => divisor 32 /\ by_register d
  | rv_op_auipc => const_fits (jd_rd d) (swrap 64 (jd_pc d +[64] jd_imm d))
  | rv_op_lb | rv_op_lbu | rv_op_sb => (a +[64] jd_imm d) + 1 <= 2 ^ 64
  | rv_op_lh | rv_op_lhu | rv_op_sh => (a +[64] jd_imm d) + 2 <= 2 ^ 64
  | rv_op_lw | rv_op_lwu | rv_op_sw => (a +[64] jd_imm d) + 4 <= 2 ^ 64
  | rv_op_ld | rv_op_sd => (a +[64] jd_imm d) + 8 <= 2 ^ 64
  | _ => True
  end.

Definition exact_at `{Jit} (o : rv_op) (d : jit_decode) (h : hart) : Prop :=
  exact o d (uwrap 64 (get_reg h (jd_rs1 d))) (uwrap 64 (get_reg h (jd_rs2 d))).

Record jit_wf (d : jit_decode) : Prop := {
  jw_rd : is_reg (jd_rd d); jw_rs1 : is_reg (jd_rs1 d); jw_rs2 : is_reg (jd_rs2 d);
  jw_imm : in_s 32 (jd_imm d);
  jw_pc : jd_pc d mod 2 = 0 }.

(** ** The host's side *)

Record matches_at `{Jit} (w : Z) (h : hart) (M : memory) (s : xstate) : Prop := {
  mt_hart : hart_wf w h;
  mt_host : word_state w s;
  mt_regs : forall g, is_reg g -> guest_reg s g = uwrap w (get_reg h g);
  mt_mem : forall a, in_u 64 a -> mem s a = M a;
  mt_bytes : bytes M }.
#[global] Arguments mt_hart {_ _}.
#[global] Arguments mt_host {_ _}.
#[global] Arguments mt_regs {_ _}.
#[global] Arguments mt_mem {_ _}.
#[global] Arguments mt_bytes {_ _}.
Abbreviation matches := (matches_at 64).

(** ** At either width *)

Class Bitwidth (w : Z) : Prop := { width_cases : w = 32 \/ w = 64 }.
#[export] Instance bitwidth_32 : Bitwidth 32 := {| width_cases := or_introl eq_refl |}.
#[export] Instance bitwidth_64 : Bitwidth 64 := {| width_cases := or_intror eq_refl |}.

Section Width.
Context `{Jit} {w : Z} {BW : Bitwidth w} (exec_fp : decode -> hart -> Z -> io Z) (fl : flags).

(** Writing a register preserves the correspondence. *)
Lemma matches_writes (h : hart) (M : memory) (s : xstate) (rd v : Z) (r : option (xstate * exit_)) :
  matches_at w h M s -> is_reg rd -> in_s w v -> writes r s rd (uwrap w v) ->
  exists s', r = Some (s', Through) /\ matches_at w (put_reg rd v h) M s' /\ pfield s' = pfield s.
Proof using BW.
  pose proof (@width_cases w BW) as Hw.
  intros Hm Hrd Hv (s' & -> & Hg & Hmem & Hf). exists s'. split; [reflexivity | split; [| exact Hf]].
  destruct (mt_host _ _ _ Hm) as [Hr H0]. split.
  - apply put_reg_wf; [apply Hm | assumption | assumption].
  - split.
    + intros g. rewrite Hg. destruct ((g =? rd) && negb (rd =? 0)); [apply uwrap_range; lia | apply Hr].
    + rewrite Hg. destruct (Z.eqb_spec 0 rd) as [<- | Hn]; [exact H0 | exact H0].
  - intros g Hgr. rewrite Hg, (get_put_reg w) by (assumption || apply Hm).
    destruct ((g =? rd) && negb (rd =? 0)); [reflexivity | apply (mt_regs _ _ _ Hm g Hgr)].
  - rewrite Hmem. apply Hm.
  - apply Hm.
Qed.

Lemma matches_pc (h : hart) (M : memory) (s : xstate) (p : Z) : matches_at w h M s -> in_u w p -> matches_at w (set_pc p h) M s.
Proof using. intros [[L R Z0 P] Hs Hr Hm Hb] Hp. split; [split; assumption | assumption ..]. Qed.

(** The guest's registers, as the code sees them. *)
Lemma matches_reg (h : hart) (M : memory) (s : xstate) (g : Z) : matches_at w h M s -> is_reg g ->
  swrap w (guest_reg s g) = get_reg h g.
Proof using BW.
  pose proof (@width_cases w BW) as Hw.
  intros Hm Hg. rewrite (mt_regs _ _ _ Hm g Hg), swrap_uwrap. apply swrap_small; [lia |].
  apply (aget_get_reg w); [apply Hm | exact Hg].
Qed.

(** What a straight-line instruction's code does: one step of the interpreter,
    to the next instruction. *)
Definition simulates_at (emit_x : jit_decode -> Jit.M bool) (o : rv_op) (d : jit_decode) (h : hart) (M : memory) (e : est) (s : xstate) : Prop :=
  exists h' M' s',
    inst_step_at w exec_fp fl o d h M = Some (h', M') /\ pc h' = next_pc w h (inst_length (jd_inst d))
    /\ run_code documented None (code_of (emit_x d) e) s = Some (s', Through)
    /\ matches_at w h' M' s' /\ pfield s' = pfield s.

Lemma next_pc_range (h : hart) (off : Z) : in_u w (next_pc w h off).
Proof using BW. pose proof (@width_cases w BW) as Hw. apply uwrap_range. lia. Qed.

Lemma put_reg_pc (r v : Z) (h : hart) : pc (put_reg r v h) = pc h.
Proof using. unfold put_reg. destruct (r =? 0); reflexivity. Qed.

Lemma in_s_minus_one (n : Z) : 0 < n -> in_s n (-1).
Proof using. intros Hn. pose proof (pow2_pos (n - 1) ltac:(lia)). split; lia. Qed.
Lemma isa_div_range (n a b : Z) : 0 < n -> in_s n (isa_div n a b).
Proof using. intros Hn. unfold isa_div. destruct (b =? 0); [apply in_s_minus_one, Hn | apply swrap_range, Hn]. Qed.
Lemma isa_divu_range (n a b : Z) : 0 < n -> in_s n (isa_divu n a b).
Proof using. intros Hn. unfold isa_divu. destruct (b =? 0); [apply in_s_minus_one, Hn | apply swrap_range, Hn]. Qed.
Lemma isa_rem_range (n a b : Z) : in_s n a -> in_s n (isa_rem a b).
Proof using.
  intros [Ha1 Ha2]. unfold isa_rem. destruct (Z.eqb_spec b 0) as [-> | Hb]; [split; assumption |].
  pose proof (Z.rem_abs a b Hb). pose proof (Z.rem_le (Z.abs a) (Z.abs b) ltac:(lia) ltac:(lia)).
  destruct (Z.le_ge_cases 0 a).
  - pose proof (Z.rem_nonneg a b Hb ltac:(assumption)). split; lia.
  - pose proof (Z.rem_nonpos a b Hb ltac:(assumption)). split; lia.
Qed.

(** What the instruction set computes is a word. *)
Lemma isa_alu_range (o : rv_op) (sel : operand2) (f : Z -> Z -> Z) (a b : Z) :
  isa_alu fl w o = Some (sel, f) -> in_s w a -> in_s w b -> in_s w (f a b).
Proof using BW.
  pose proof (@width_cases w BW) as Hw.
  intros Eo Ha Hb. unfold isa_alu in Eo.
  assert (Hword : forall v, in_s 32 v -> in_s w v) by (intros v; apply in_s_mono; lia).
  assert (Hm : forall n, 0 <= n mod w) by (intros; apply Z.mod_pos_bound; lia).
  assert (Hn : forall n, 0 <= n mod 32) by (intros; apply Z.mod_pos_bound; lia).
  destruct Hw as [-> | ->]; destruct o; cbn in Eo; try discriminate Eo;
    (match type of Eo with (if ?c then _ else _) = _ => destruct c; [| discriminate Eo] end);
    injection Eo as <- <-;
    first [apply swrap_range; lia | apply b2z_in_s; lia | apply in_s_shift; auto; lia
      | apply Hword, swrap_range; lia | apply Hword, in_s_shift; [lia | apply Hn | apply swrap_range; lia]
      | apply isa_div_range; lia | apply isa_divu_range; lia | apply isa_rem_range; assumption
      | apply Hword, isa_div_range; lia | apply Hword, isa_divu_range; lia | apply Hword, isa_rem_range, swrap_range; lia
      | apply mul_high_range; lia || assumption
      | apply mul_high_mixed_range; [lia | assumption | apply uwrap_range; lia] ].
Qed.

(** Code that computes an instruction's value simulates it. *)
Lemma computes_simulates (emit_x : jit_decode -> Jit.M bool) (o : rv_op) (sel : operand2) (f : Z -> Z -> Z) (d : jit_decode) (h : hart)
    (M : memory) (e : est) (s : xstate) :
  isa_alu fl w o = Some (sel, f) -> jit_wf d -> matches_at w h M s -> shift_ok w o (operand2_val sel h (decode_of o d)) ->
  computes_at w emit_x sel f d e s -> simulates_at emit_x o d h M e s.
Proof using BW.
  pose proof (@width_cases w BW) as Hw.
  intros Eo [Hrd H1 H2 Hi Hpc] Hm Hx Hc.
  pose proof (exec_alu exec_fp fl w (decode_of o d) h (inst_length (jd_inst d)) sel f Hw
    (mt_hart _ _ _ Hm) Hrd H1 H2 Eo Hx) as Ex.
  cbn [decode_of rd rs1] in Ex.
  set (v := f (get_reg h (jd_rs1 d)) (operand2_val sel h (decode_of o d))) in *.
  assert (Hv : in_s w v).
  { apply (isa_alu_range o sel); [exact Eo | apply (aget_get_reg w); [apply Hm | exact H1] |].
    destruct sel; cbn; [apply (aget_get_reg w); [apply Hm | exact H2] | apply (in_s_mono 32); [lia | exact Hi]]. }
  destruct (matches_writes h M s (jd_rd d) v (run_code documented None (code_of (emit_x d) e) s) Hm Hrd Hv)
    as (s' & Er & Hm' & Hf).
  { unfold computes_at in Hc. rewrite (matches_reg _ _ _ _ Hm H1), (matches_reg _ _ _ _ Hm H2) in Hc.
    destruct sel; exact Hc. }
  eexists _, M, s'. unfold inst_step_at. rewrite Ex. cbn [run].
  split; [reflexivity |]. split; [cbn; unfold next_pc; rewrite put_reg_pc; reflexivity |].
  split; [exact Er | split; [| exact Hf]]. apply matches_pc; [exact Hm' | apply next_pc_range].
Qed.

(** A step that writes a constant, from the code that writes it. *)
Lemma control_step (o : rv_op) (d : jit_decode) (h : hart) (M : memory) (s : xstate) (link : option Z) (target : Z) :
  rvi fl = true -> jit_wf d -> matches_at w h M s -> pc h = jd_pc d ->
  isa_control w o (get_reg h (jd_rs1 d)) (get_reg h (jd_rs2 d)) (jd_imm d) (pc h) (next_pc w h (inst_length (jd_inst d)))
    = Some (link, target) ->
  inst_step_at w exec_fp fl o d h M
  = Some (set_pc target (match link with Some v => put_reg (jd_rd d) v h | None => h end), M).
Proof using BW.
  pose proof (@width_cases w BW) as Hw.
  intros Hf [Hrd H1 H2 Hi Hev] Hm Hpc Ec.
  destruct (exec_control exec_fp fl w (decode_of o d) h (inst_length (jd_inst d)) target link Hw
    (mt_hart _ _ _ Hm) Hrd H1 H2 (in_s_mono 32 w _ ltac:(lia) Hi) ltac:(rewrite Hpc; exact Hev) Hf Ec) as (off & Ex & Et).
  unfold inst_step_at. rewrite Ex. cbn [run]. do 2 f_equal. rewrite <- Et. unfold next_pc.
  destruct link; rewrite ?put_reg_pc; reflexivity.
Qed.

Lemma const_simulates (emit_x : jit_decode -> Jit.M bool) (o : rv_op) (v : Z) (d : jit_decode) (h : hart) (M : memory) (e : est) (s : xstate) :
  rvi fl = true -> jit_wf d -> matches_at w h M s -> pc h = jd_pc d ->
  isa_control w o (get_reg h (jd_rs1 d)) (get_reg h (jd_rs2 d)) (jd_imm d) (pc h) (next_pc w h (inst_length (jd_inst d)))
    = Some (Some v, next_pc w h (inst_length (jd_inst d))) ->
  in_s w v -> writes (run_code documented None (code_of (emit_x d) e) s) s (jd_rd d) (uwrap w v) ->
  simulates_at emit_x o d h M e s.
Proof using BW.
  pose proof (@width_cases w BW) as Hw.
  intros Hf Hd Hm Hpc Ec Hv Hc. unfold simulates_at.
  destruct (matches_writes h M s (jd_rd d) v _ Hm (jw_rd _ Hd) Hv Hc) as (s' & Er & Hm' & Hfi).
  eexists _, M, s'. rewrite (control_step o d h M s _ _ Hf Hd Hm Hpc Ec).
  split; [reflexivity |]. split; [reflexivity |]. split; [exact Er | split; [| exact Hfi]].
  apply matches_pc; [exact Hm' | apply next_pc_range].
Qed.

(** ** Loads and stores *)

Lemma read_le_mem (n : nat) (m : Z -> Z) (M : memory) : (forall a, in_u 64 a -> m a = M a) ->
  forall x va, uwrap 64 x = va -> va + Z.of_nat n <= 2 ^ 64 -> read_le n m x = mem_read n M va.
Proof using.
  intros Hm. induction n as [| n IH]; intros x va Hx Hn; [reflexivity |]. cbn [read_le mem_read].
  pose proof (uwrap_range 64 x ltac:(lia)) as Hr. rewrite Hx in Hr |- *. rewrite Hm by exact Hr.
  destruct n as [| n]; [reflexivity |]. rewrite (IH (x + 1) (va + 1)); [reflexivity | | lia].
  rewrite <- uwrap_add_l, Hx. apply uwrap_small. unfold in_u in *. lia.
Qed.
Lemma mem_write_byte (M : memory) (va v : Z) (m : Z -> Z) (a : Z) : m a = M a ->
  upd m va (uwrap 8 v) a = mem_write 1 M va v a.
Proof using.
  intros E. unfold upd, mem_write. destruct (Z.eqb_spec a va) as [-> | Hne].
  - rewrite Z.leb_refl, (proj2 (Z.ltb_lt _ _)) by lia. cbn [andb]. unfold Page.byte. rewrite Z.sub_diag. reflexivity.
  - destruct (Z.leb_spec va a), (Z.ltb_spec a (va + 1)); cbn [andb]; try assumption. lia.
Qed.
Lemma mem_write_0 (M : memory) (va v a : Z) : mem_write 0 M va v a = M a.
Proof using. unfold mem_write. destruct (Z.leb_spec va a), (Z.ltb_spec a (va + 0)); try reflexivity. lia. Qed.
Lemma mem_write_cons (n va v a : Z) (M : memory) : 0 <= n ->
  mem_write n (mem_write 1 M va v) (va + 1) (v / 256) a = mem_write (n + 1) M va v a.
Proof using.
  intros Hn. unfold mem_write.
  destruct (Z.leb_spec (va + 1) a), (Z.ltb_spec a (va + 1 + n)), (Z.leb_spec va a), (Z.ltb_spec a (va + 1)),
    (Z.ltb_spec a (va + (n + 1))); try lia; cbn [andb]; try reflexivity.
  unfold Page.byte. change 256 with (2 ^ 8). rewrite <- Z.shiftr_div_pow2, Z.shiftr_shiftr by lia. do 2 f_equal. lia.
Qed.
Lemma write_le_mem (n : nat) : forall (m : Z -> Z) (M : memory), (forall a, in_u 64 a -> m a = M a) ->
  forall x va v, uwrap 64 x = va -> va + Z.of_nat n <= 2 ^ 64 ->
  forall a, in_u 64 a -> write_le n m x v a = mem_write (Z.of_nat n) M va v a.
Proof using.
  induction n as [| n IH]; intros m M Hm x va v Hx Hn a Ha; cbn [write_le].
  - cbn [Z.of_nat]. rewrite Hm, mem_write_0 by exact Ha. reflexivity.
  - rewrite Hx. assert (Hb : forall a, in_u 64 a -> upd m va (uwrap 8 v) a = mem_write 1 M va v a)
      by (intros; apply mem_write_byte, Hm; assumption).
    replace (Z.of_nat (S n)) with (Z.of_nat n + 1) by lia. rewrite <- mem_write_cons by lia.
    destruct n as [| n].
    + cbn [write_le Z.of_nat]. rewrite Hb, mem_write_0 by exact Ha. reflexivity.
    + apply IH; [exact Hb | | lia | exact Ha]. pose proof (uwrap_range 64 x ltac:(lia)) as Hr. rewrite Hx in Hr.
      rewrite <- uwrap_add_l, Hx. apply uwrap_small. unfold in_u in *. lia.
Qed.

Lemma matches_bytes (h : hart) (M : memory) (s : xstate) : matches_at w h M s -> byte_memory (mem s).
Proof using. intros Hm a Ha. rewrite (mt_mem _ _ _ Hm a Ha). apply (mt_bytes _ _ _ Hm). Qed.

(** One step of the interpreter on a load or a store. *)
Lemma memory_step (o : rv_op) (m : mem_inst) (d : jit_decode) (h : hart) (M : memory) :
  isa_mem w o = Some m -> mem_flag fl m = true -> hart_wf w h -> jit_wf d -> bytes M ->
  match m with MLoad _ _ | MStore _ => True | _ => False end ->
  exists M', inst_step_at w exec_fp fl o d h M
      = Some (set_pc (next_pc w (fst (mem_effect w m (Some (lr h)) h (decode_of o d) M)) (inst_length (jd_inst d)))
                (fst (mem_effect w m (Some (lr h)) h (decode_of o d) M)), M')
    /\ bytes M' /\ forall a, M' a = snd (mem_effect w m (Some (lr h)) h (decode_of o d) M) a.
Proof using BW.
  pose proof (@width_cases w BW) as Hw.
  intros Eo Hf Hh [Hrd H1 H2 Hi Hpc] Hb Hk.
  destruct (exec_memory (L := memory_laws) exec_fp fl w Hw m (decode_of o d) h (inst_length (jd_inst d)) M Eo Hf Hh Hrd H1 H2 Hb I)
    as (M' & Er & Hb' & Hv).
  { intros a_op sz ->. destruct Hk. }
  exists M'. unfold inst_step_at. rewrite Er. unfold code_effect in *. destruct m; try destruct Hk;
    cbn [mem_effect mem_reservation kept_reservation fst snd] in *; rewrite ?set_lr_put_reg, set_lr_same; auto.
Qed.

(** [x] is the address the host computes, [va] the guest's. *)
Lemma load_simulates (emit_x : jit_decode -> Jit.M bool) (o : rv_op) (n : nat) (ext : Z -> Z) (d : jit_decode) (h : hart)
    (M : memory) (e : est) (s : xstate) (x va : Z) :
  isa_mem w o = Some (MLoad (Z.of_nat n) ext) -> rvi fl = true -> jit_wf d -> matches_at w h M s ->
  va = get_reg h (jd_rs1 d) +[w] jd_imm d -> uwrap 64 x = va -> va + Z.of_nat n <= 2 ^ 64 ->
  (forall v, in_u (8 * Z.of_nat n) v -> in_s w (ext v)) ->
  writes (run_code documented None (code_of (emit_x d) e) s) s (jd_rd d) (uwrap w (ext (read_le n (mem s) x))) ->
  simulates_at emit_x o d h M e s.
Proof using BW.
  pose proof (@width_cases w BW) as Hw.
  intros Eo Hf Hd Hm Eva Ex Ha Hext Hl.
  destruct (memory_step o _ d h M Eo Hf (mt_hart _ _ _ Hm) Hd (mt_bytes _ _ _ Hm) I) as (M' & Es & Hb & HM).
  cbn [mem_effect fst snd decode_of rd rs1 imm mem_addr] in *. rewrite Nat2Z.id, <- Eva in *.
  set (v := ext (mem_read n M va)) in *.
  assert (Hv : in_s w v) by (apply Hext, mem_read_range, Hm).
  rewrite (read_le_mem n (mem s) M (mt_mem _ _ _ Hm) x va Ex Ha) in Hl.
  destruct (matches_writes h M s (jd_rd d) v _ Hm (jw_rd _ Hd) Hv Hl) as (s' & Er & Hm' & Hfi).
  eexists _, M', s'. split; [exact Es |]. split; [cbn; unfold next_pc; rewrite put_reg_pc; reflexivity |].
  split; [exact Er | split; [| exact Hfi]].
  apply matches_pc; [| apply next_pc_range]. destruct Hm' as [A B C D _]. split; auto.
  intros a Ha'. rewrite HM. apply D, Ha'.
Qed.

Lemma store_simulates (emit_x : jit_decode -> Jit.M bool) (o : rv_op) (n : nat) (d : jit_decode) (h : hart) (M : memory)
    (e : est) (s : xstate) (x va : Z) :
  isa_mem w o = Some (MStore (Z.of_nat n)) -> rvi fl = true -> jit_wf d -> matches_at w h M s -> 8 * Z.of_nat n <= w ->
  va = get_reg h (jd_rs1 d) +[w] jd_imm d -> uwrap 64 x = va -> va + Z.of_nat n <= 2 ^ 64 ->
  (exists s', run_code documented None (code_of (emit_x d) e) s = Some (s', Through)
    /\ (forall g, guest_reg s' g = guest_reg s g) /\ pfield s' = pfield s
    /\ mem s' = write_le n (mem s) x (uwrap (8 * Z.of_nat n) (guest_reg s (jd_rs2 d)))) ->
  simulates_at emit_x o d h M e s.
Proof using BW.
  pose proof (@width_cases w BW) as Hw.
  intros Eo Hf Hd Hm Hn Eva Ex Ha (s' & Er & Hg & Hfi & Hmem).
  destruct (memory_step o _ d h M Eo Hf (mt_hart _ _ _ Hm) Hd (mt_bytes _ _ _ Hm) I) as (M' & Es & Hb & HM).
  cbn [mem_effect fst snd decode_of rd rs1 rs2 imm mem_addr] in *. rewrite <- Eva in *.
  eexists _, M', s'. split; [exact Es |]. split; [reflexivity |]. split; [exact Er | split; [| exact Hfi]].
  apply matches_pc; [| apply next_pc_range]. split.
  - apply Hm.
  - destruct (mt_host _ _ _ Hm) as [Hr H0]. split; intros; rewrite Hg; auto.
  - intros g Hgr. rewrite Hg. apply Hm, Hgr.
  - intros a Ha'. rewrite Hmem, HM. rewrite (write_le_mem n (mem s) M (mt_mem _ _ _ Hm) x va _ Ex Ha a Ha').
    rewrite mem_write_uwrap, (mt_regs _ _ _ Hm _ (jw_rs2 _ Hd)), <- mem_write_uwrap, residue_low, mem_write_uwrap by lia. reflexivity.
  - exact Hb.
Qed.

Lemma signed_word (n v : Z) : 0 < n <= w -> in_s w (swrap n v).
Proof using. intros Hn. apply (in_s_mono n); [exact Hn | apply swrap_range; lia]. Qed.
Lemma unsigned_word (n v : Z) : 0 <= n < w -> in_u n v -> in_s w v.
Proof using. intros Hn [H1 H2]. assert (2 ^ n <= 2 ^ (w - 1)) by (apply Z.pow_le_mono_r; lia). split; lia. Qed.
End Width.
#[global] Arguments simulates_at {_} w.
Abbreviation simulates := (simulates_at 64).

(** ** RV64 *)

Lemma in_s_word (v : Z) : in_s 64 (swrap 32 v).
Proof. apply (in_s_mono 32); [lia | apply swrap_range; lia]. Qed.

(** The lemmas, by the emitter they are about. *)
Create HintDb emitted discriminated.
#[export] Hint Constants Opaque : emitted.
#[export] Hint Resolve emit_addi_ok emit_slti_ok emit_sltiu_ok emit_xori_ok emit_ori_ok emit_andi_ok emit_slli_ok
  emit_srli_ok emit_srai_ok emit_add_ok emit_sub_ok emit_sll_ok emit_slt_ok emit_sltu_ok emit_xor_ok emit_srl_ok
  emit_sra_ok emit_or_ok emit_and_ok emit_addiw_ok emit_slliw_ok emit_srliw_ok emit_sraiw_ok emit_addw_ok
  emit_subw_ok emit_sllw_ok emit_srlw_ok emit_sraw_ok emit_mul_ok emit_mulw_ok emit_mulh_ok emit_mulhu_ok
  emit_mulhsu_ok emit_div_ok emit_divw_ok emit_divu_ok emit_divuw_ok emit_rem_ok emit_remw_ok emit_remu_ok
  emit_remuw_ok
  emit_lb_ok emit_lbu_ok emit_lh_ok emit_lhu_ok emit_lw_ok emit_lwu_ok emit_ld_ok emit_sb_ok emit_sh_ok emit_sw_ok emit_sd_ok : emitted.
#[export] Hint Extern 1 (divisor_ok _ _ _) => assumption : emitted.
#[export] Hint Extern 1 (zero_quotient_ok _ _ _) => assumption : emitted.

Section Simulation.
Context `{Jit} (exec_fp : decode -> hart -> Z -> io Z) (fl : flags).

(** What is emitted for a computational instruction computes it. *)
Lemma alu_emitted (o : rv_op) (sel : operand2) (f : Z -> Z -> Z) (dec : jit_decode) (e : est) (s : xstate) :
  isa_alu fl 64 o = Some (sel, f) -> xstate_wf s -> jit_wf dec -> exact o dec (guest_reg s (jd_rs1 dec)) (guest_reg s (jd_rs2 dec)) ->
  exists emit_x, emit_case (Rv o) = Some (1, emit_x) /\ computes emit_x sel f dec e s.
Proof.
  intros Eo Hs [_ _ _ Hi _] Hx. unfold isa_alu in Eo.
  destruct o; cbn in Eo; try discriminate Eo;
    (match type of Eo with (if ?c then _ else _) = _ => destruct c; [| discriminate Eo] end);
    injection Eo as <- <-; (eexists; split; [reflexivity |]); cbn [exact] in Hx.
  all: try lazymatch type of Hx with
    | _ /\ by_register _ /\ _ => destruct Hx as (Hdiv & ? & ?)
    | (_ /\ test_exact _ _ _) /\ _ => destruct Hx as (Hdiv & ?)
    end.
  all: try eauto 3 with emitted nocore.
Qed.

Lemma exact_shift (o : rv_op) (d : jit_decode) (h : hart) (sel : operand2) (f : Z -> Z -> Z) :
  isa_alu fl 64 o = Some (sel, f) -> exact_at o d h ->
  shift_ok 64 o (operand2_val sel h (decode_of o d)).
Proof.
  unfold isa_alu. intros Eo Hx.
  destruct o; try exact I; cbn in Eo;
    (match type of Eo with (if ?c then _ else _) = _ => destruct c; [| discriminate Eo] end);
    injection Eo as <- <-; try exact Hx;
    unfold exact_at in Hx; cbn in *; rewrite <- (Z.mod_mod_divide _ (2 ^ 64) 128) by (exists (2 ^ 57); reflexivity); exact Hx.
Qed.

(** A computational instruction's code computes it and goes on. *)
Lemma alu_simulates (o : rv_op) (sel : operand2) (f : Z -> Z -> Z) (d : jit_decode) (h : hart) (M : memory)
    (e : est) (s : xstate) :
  isa_alu fl 64 o = Some (sel, f) -> jit_wf d -> matches h M s -> exact_at o d h ->
  exists emit_x, emit_case (Rv o) = Some (1, emit_x) /\ simulates exec_fp fl emit_x o d h M e s.
Proof.
  intros Eo Hd Hm Hx. pose proof Hd as [Hrd H1 H2 Hi Hpc].
  destruct (alu_emitted o sel f d e s Eo) as (emit_x & Ec & Hc); [apply Hm | exact Hd | rewrite (mt_regs _ _ _ Hm _ H1), (mt_regs _ _ _ Hm _ H2); exact Hx |].
  exists emit_x. split; [exact Ec |].
  apply (computes_simulates exec_fp fl emit_x o sel f); try assumption. apply (exact_shift o d h sel f Eo Hx).
Qed.

(** ** Constants *)

Lemma lui_code (d : jit_decode) (e : est) : code_of (emit_lui d) e = const_code (jd_rd d) (jd_imm d).
Proof. unfold emit_lui, const_code, rv_ireg_zero. destruct (jd_rd d =? 0), (x86_reg (jd_rd d) >? 0); reflexivity. Qed.
Lemma auipc_code (d : jit_decode) (e : est) :
  code_of (emit_auipc d) e = const_code (jd_rd d) (swrap 64 (jd_pc d +[64] jd_imm d)).
Proof. unfold emit_auipc, const_code, rv_ireg_zero. destruct (jd_rd d =? 0), (x86_reg (jd_rd d) >? 0); reflexivity. Qed.

Lemma lui_simulates (d : jit_decode) (h : hart) (M : memory) (e : est) (s : xstate) :
  rvi fl = true -> jit_wf d -> matches h M s -> pc h = jd_pc d -> simulates exec_fp fl emit_lui rv_op_lui d h M e s.
Proof.
  intros Hf Hd Hm Hpc. assert (Hi : in_s 64 (jd_imm d)) by (apply (in_s_mono 32); [lia | apply Hd]).
  apply (const_simulates exec_fp fl _ _ (jd_imm d)); auto. rewrite lui_code.
  apply const_writes; [apply Hm | exact Hi | right; right; apply Hd].
Qed.
Lemma auipc_simulates (d : jit_decode) (h : hart) (M : memory) (e : est) (s : xstate) :
  rvi fl = true -> jit_wf d -> matches h M s -> pc h = jd_pc d -> exact_at rv_op_auipc d h ->
  simulates exec_fp fl emit_auipc rv_op_auipc d h M e s.
Proof.
  intros Hf Hd Hm Hpc Hx. assert (Hi : in_s 64 (swrap 64 (jd_pc d +[64] jd_imm d))) by (apply swrap_range; lia).
  apply (const_simulates exec_fp fl _ _ (swrap 64 (jd_pc d +[64] jd_imm d))); auto.
  - cbn. rewrite Hpc, swrap_uwrap. reflexivity.
  - rewrite auipc_code. apply const_writes; [apply Hm | exact Hi | exact Hx].
Qed.

(** ** Loads and stores *)

Hypothesis Hmmu : use_mmu = false.

(** The address: computed modulo the width by the interpreter, by the access
    itself on the host. *)
Lemma matches_address (d : jit_decode) (h : hart) (M : memory) (s : xstate) : matches h M s -> is_reg (jd_rs1 d) ->
  uwrap 64 (guest_reg s (jd_rs1 d) + jd_imm d) = get_reg h (jd_rs1 d) +[64] jd_imm d.
Proof using. intros Hm Hr. rewrite (mt_regs _ _ _ Hm _ Hr). apply uwrap_add_l. Qed.

(** The emitters' lemmas, by size. *)
Ltac by_load n :=
  eapply (load_simulates exec_fp fl _ _ n);
  [ reflexivity | assumption .. | reflexivity | eapply matches_address; [eassumption | apply jw_rs1; assumption] | assumption
  | intros; first [apply signed_word; lia | eapply unsigned_word; [| eassumption]; lia]
  | match goal with |- writes (run_code _ _ (code_of (?f ?d) ?e) ?s) _ _ (uwrap _ (?ext _)) => change (loads f n ext d e s) | _ => idtac end;
    solve [eauto 2 with emitted nocore] ].
Ltac by_store n :=
  eapply (store_simulates exec_fp fl _ _ n);
  [ reflexivity | assumption .. | lia | reflexivity | eapply matches_address; [eassumption | apply jw_rs1; assumption] | assumption
  | match goal with |- exists s', run_code _ _ (code_of (?f ?d) ?e) ?s = _ /\ _ => change (stores f n d e s) end;
    solve [eauto 2 with emitted nocore] ].

(** Every load and store. *)
Lemma memory_simulates (o : rv_op) (m : mem_inst) (d : jit_decode) (h : hart) (M : memory) (e : est) (s : xstate) :
  isa_mem 64 o = Some m -> match m with MLoad _ _ | MStore _ => True | _ => False end ->
  rvi fl = true -> jit_wf d -> matches h M s -> exact_at o d h ->
  exists emit_x, emit_case (Rv o) = Some (1, emit_x) /\ simulates exec_fp fl emit_x o d h M e s.
Proof using Hmmu.
  intros Eo Hk Hf Hd Hm Hx. pose proof (mt_host _ _ _ Hm) as Hs. pose proof (matches_bytes _ _ _ Hm) as Hb.
  unfold exact_at in Hx.
  destruct o; try discriminate Eo; cbn in Eo; injection Eo as <-; try (destruct Hk; fail);
    (eexists; split; [reflexivity |]); cbn [exact] in Hx; rewrite uwrap_add_l in Hx.
  all: first [by_load 1%nat | by_load 2%nat | by_load 4%nat | by_load 8%nat
    | by_store 1%nat | by_store 2%nat | by_store 4%nat | by_store 8%nat].
Qed.

(** ** All of them *)

(** The instructions that go on to the next. *)
Definition straight (o : rv_op) : bool :=
  match o with
  | rv_op_lui | rv_op_auipc => true
  | _ =>
      match isa_mem 64 o with
      | Some (MLoad _ _) | Some (MStore _) => true
      | _ => match isa_alu fl 64 o with Some _ => true | None => false end
      end
  end.

Lemma straight_simulates (o : rv_op) (d : jit_decode) (h : hart) (M : memory) (e : est) (s : xstate) :
  straight o = true -> rvi fl = true -> jit_wf d -> matches h M s -> pc h = jd_pc d -> exact_at o d h ->
  exists emit_x, emit_case (Rv o) = Some (1, emit_x) /\ simulates exec_fp fl emit_x o d h M e s.
Proof using Hmmu.
  intros Ho Hf Hd Hm Hpc Hx.
  assert (Ho' : o = rv_op_lui \/ o = rv_op_auipc
    \/ (exists m, isa_mem 64 o = Some m /\ match m with MLoad _ _ | MStore _ => True | _ => False end)
    \/ exists sel f, isa_alu fl 64 o = Some (sel, f)).
  { unfold straight in Ho. destruct (isa_mem 64 o) as [[]|] eqn:Em;
      try (right; right; left; eexists; split; [reflexivity | exact I]);
      (destruct (isa_alu fl 64 o) as [[sel f]|] eqn:Ea; [eauto 6 |]);
      destruct o; auto; discriminate Ho. }
  destruct Ho' as [-> | [-> | [(m & Em & Hk) | (sel & f & Ea)]]].
  - eexists. split; [reflexivity |]. apply lui_simulates; assumption.
  - eexists. split; [reflexivity |]. apply auipc_simulates; assumption.
  - eapply memory_simulates; eassumption.
  - eapply alu_simulates; eassumption.
Qed.
End Simulation.
