(* ===== verification/JitEmit32.v ===== *)
(** * The JIT's emitters for RV32: [jit/jit-emitter-rv32.h]

    The members that are not those of [jit/jit-emitter-rv64.h] again (the state, the
    register allocation, the counter and the trampolines are in [Jit]): guest
    registers have 32 bits, in the low half of the host's registers and in
    the processor object, and so have the program counter, [term_pc] and addresses.
    [emit_pc] stores 64 bits over the program counter and the slot of [x0] behind
    it, whose half of the sign-extended constant is zero. *)

From Stdlib Require Import ZArith Lia Bool List.
From stdpp Require Import base list option numbers gmap sorting.
From S2P Require Import Prelude Meta Codec X86 Jit JitEmit.

#[local] Open Scope Z_scope.
#[local] Open Scope word_scope.

Section Emitters.
Context `{Jit}.

(** ** Around a trace *)

Definition loads_of (l : list (Z * Z)) : list (opnd * opnd) := map (fun p => (gpd p.2, rbp_reg_d p.1)) l.
Definition stores_of (l : list (Z * Z)) : list (opnd * opnd) := map (fun p => (rbp_reg_d p.1, gpd p.2)) l.

Definition emit_prolog : M unit :=
  (if negb memory_registers then pushes [12; 13; 14; 15; 3] else mret tt);;
  ins (as_push 5);;
  ins (as_mov (gpq 5) (gpq 7));;
  if negb memory_registers then mov_list (loads_of allocation) else mret tt.

Definition emit_epilog_body : M unit :=
  commit_instret;;
  (if negb memory_registers then mov_list (stores_of allocation) else mret tt);;
  ins (as_pop 5);;
  (if negb memory_registers then pops [3; 15; 14; 13; 12] else mret tt);;
  ins as_ret.

Definition save_volatile : M unit := if memory_registers then mret tt else mov_list (stores_of volatile).
Definition restore_volatile : M unit := if memory_registers then mret tt else mov_list (loads_of volatile).

(** One of the six stubs of [create_load_store]. *)
Definition load_stub (l : Z) (f : mmu_fn) : M unit :=
  ins (as_bind l);; save_volatile;; ins (as_mov (gpq 7) rax);; ins (as_call (mmu_op f));; restore_volatile;; ins as_ret.
Definition store_stub (l : Z) (f : mmu_fn) : M unit :=
  ins (as_bind l);; save_volatile;; ins (as_mov (gpq 7) rax);; ins (as_mov (gpq 6) rcx);;
  ins (as_call (mmu_op f));; restore_volatile;; ins as_ret.

(** ** One function per instruction *)

Definition emit_pc (new_pc : Z) : M unit :=
  ins (as_mov (Field P_pc) (Const (swrap 64 new_pc))).

Definition emit_zero_rd (dec : jit_decode) : M unit :=
  let rdx := x86_reg (jd_rd dec) in
  if (rdx >? 0)
  then ins (as_xor (gpd rdx) (gpd rdx))
  else ins (as_mov (rbp_reg_d (jd_rd dec)) (Const 0)).

Definition emit_mv_eax_rs1 (dec : jit_decode) : M unit :=
  let rs1x := x86_reg (jd_rs1 dec) in
  if (rs1x >? 0)
  then ins (as_mov eax (gpd rs1x))
  else ins (as_mov eax (rbp_reg_d (jd_rs1 dec))).

Definition emit_mv_rd_rs1 (dec : jit_decode) : M unit :=
  let rdx := x86_reg (jd_rd dec) in let rs1x := x86_reg (jd_rs1 dec) in
  if (rdx >? 0)
  then if (rs1x >? 0)
    then ins (as_mov (gpd rdx) (gpd rs1x))
    else ins (as_mov (gpd rdx) (rbp_reg_d (jd_rs1 dec)))
  else if (rs1x >? 0)
    then ins (as_mov (rbp_reg_d (jd_rd dec)) (gpd rs1x))
    else
      ins (as_mov eax (rbp_reg_d (jd_rs1 dec)));;
      ins (as_mov (rbp_reg_d (jd_rd dec)) eax).

Definition emit_mv_rd_rs2 (dec : jit_decode) : M unit :=
  let rdx := x86_reg (jd_rd dec) in let rs2x := x86_reg (jd_rs2 dec) in
  if (rdx >? 0)
  then if (rs2x >? 0)
    then ins (as_mov (gpd rdx) (gpd rs2x))
    else ins (as_mov (gpd rdx) (rbp_reg_d (jd_rs2 dec)))
  else if (rs2x >? 0)
    then ins (as_mov (rbp_reg_d (jd_rd dec)) (gpd rs2x))
    else
      ins (as_mov eax (rbp_reg_d (jd_rs2 dec)));;
      ins (as_mov (rbp_reg_d (jd_rd dec)) eax).

Definition emit_mv_cl_rs2 (dec : jit_decode) : M unit :=
  let rs2x := x86_reg (jd_rs2 dec) in
  if (rs2x >? 0)
  then ins (as_mov ecx (gpd rs2x))
  else ins (as_mov ecx (rbp_reg_d (jd_rs2 dec))).

Definition emit_auipc (dec : jit_decode) : M bool :=
  set_term_pc (uwrap 32 (jd_pc dec +[64] inst_length (jd_inst dec)));;
  let rdx := x86_reg (jd_rd dec) in
  (if (jd_rd dec =? rv_ireg_zero)
  then mret tt
  else if (rdx >? 0)
    then ins (as_mov (gpd rdx) (Const (swrap 64 (jd_pc dec +[64] jd_imm dec))))
    else
      ins (as_mov (rbp_reg_d (jd_rd dec)) (Const (swrap 64 (jd_pc dec +[64] jd_imm dec)))));;
  mret true.

Definition emit_add (dec : jit_decode) : M bool :=
  set_term_pc (uwrap 32 (jd_pc dec +[64] inst_length (jd_inst dec)));;
  let rdx := x86_reg (jd_rd dec) in let rs1x := x86_reg (jd_rs1 dec) in let rs2x := x86_reg (jd_rs2 dec) in
  (if (jd_rd dec =? rv_ireg_zero)
  then mret tt
  else if (jd_rs1 dec =? rv_ireg_zero)
    then if (rdx >? 0)
      then if (rs2x >? 0)
        then ins (as_mov (gpd rdx) (gpd rs2x))
        else ins (as_mov (gpd rdx) (rbp_reg_d (jd_rs2 dec)))
      else if (rs2x >? 0)
        then ins (as_mov (rbp_reg_d (jd_rd dec)) (gpd rs2x))
        else
          ins (as_mov eax (rbp_reg_d (jd_rs2 dec)));;
          ins (as_mov (rbp_reg_d (jd_rd dec)) eax)
    else if (jd_rs2 dec =? rv_ireg_zero)
      then emit_mv_rd_rs1 dec
      else if (jd_rd dec =? jd_rs1 dec)
        then if (rdx >? 0)
          then if (rs2x >? 0)
            then ins (as_add (gpd rdx) (gpd rs2x))
            else ins (as_add (gpd rdx) (rbp_reg_d (jd_rs2 dec)))
          else if (rs2x >? 0)
            then ins (as_add (rbp_reg_d (jd_rd dec)) (gpd rs2x))
            else
              ins (as_mov eax (rbp_reg_d (jd_rs2 dec)));;
              ins (as_add (rbp_reg_d (jd_rd dec)) eax)
        else if (jd_rd dec =? jd_rs2 dec)
          then if (rdx >? 0)
            then if (rs1x >? 0)
              then ins (as_add (gpd rdx) (gpd rs1x))
              else ins (as_add (gpd rdx) (rbp_reg_d (jd_rs1 dec)))
            else if (rs1x >? 0)
              then ins (as_add (rbp_reg_d (jd_rd dec)) (gpd rs1x))
              else
                ins (as_mov eax (rbp_reg_d (jd_rs1 dec)));;
                ins (as_add (rbp_reg_d (jd_rd dec)) eax)
          else if (rdx <? 0) && ((rs1x <? 0) || (rs2x <? 0))
            then
              emit_mv_eax_rs1 dec;;
              (if (rs2x >? 0)
              then ins (as_add eax (gpd rs2x))
              else
                ins (as_add eax (rbp_reg_d (jd_rs2 dec))));;
              ins (as_mov (rbp_reg_d (jd_rd dec)) eax)
            else
              emit_mv_rd_rs1 dec;;
              if (rdx >? 0)
              then if (rs2x >? 0)
                then ins (as_add (gpd rdx) (gpd rs2x))
                else ins (as_add (gpd rdx) (rbp_reg_d (jd_rs2 dec)))
              else if (rs2x >? 0)
                then ins (as_add (rbp_reg_d (jd_rd dec)) (gpd rs2x))
                else mret tt);;
  mret true.

Definition emit_sub (dec : jit_decode) : M bool :=
  set_term_pc (uwrap 32 (jd_pc dec +[64] inst_length (jd_inst dec)));;
  let rdx := x86_reg (jd_rd dec) in let rs1x := x86_reg (jd_rs1 dec) in let rs2x := x86_reg (jd_rs2 dec) in
  (if (jd_rd dec =? rv_ireg_zero)
  then mret tt
  else if (jd_rs1 dec =? rv_ireg_zero)
    then (if negb (jd_rd dec =? jd_rs2 dec)
      then emit_mv_rd_rs2 dec
      else mret tt);;
      if (rdx >? 0)
      then ins (as_neg (gpd rdx))
      else ins (as_neg (rbp_reg_d (jd_rd dec)))
    else if (jd_rs2 dec =? rv_ireg_zero)
      then emit_mv_rd_rs1 dec
      else if (jd_rd dec =? jd_rs1 dec)
        then if (rdx >? 0)
          then if (rs2x >? 0)
            then ins (as_sub (gpd rdx) (gpd rs2x))
            else ins (as_sub (gpd rdx) (rbp_reg_d (jd_rs2 dec)))
          else if (rs2x >? 0)
            then ins (as_sub (rbp_reg_d (jd_rd dec)) (gpd rs2x))
            else
              ins (as_mov eax (rbp_reg_d (jd_rs2 dec)));;
              ins (as_sub (rbp_reg_d (jd_rd dec)) eax)
        else if (jd_rd dec =? jd_rs2 dec)
          then (if (rdx >? 0)
            then if (rs1x >? 0)
              then ins (as_sub (gpd rdx) (gpd rs1x))
              else ins (as_sub (gpd rdx) (rbp_reg_d (jd_rs1 dec)))
            else if (rs1x >? 0)
              then ins (as_sub (rbp_reg_d (jd_rd dec)) (gpd rs1x))
              else
                ins (as_mov eax (rbp_reg_d (jd_rs1 dec)));;
                ins (as_sub (rbp_reg_d (jd_rd dec)) eax));;
            if (rdx >? 0)
            then ins (as_neg (gpd rdx))
            else ins (as_neg (rbp_reg_d (jd_rd dec)))
          else if (rdx <? 0) && ((rs1x <? 0) || (rs2x <? 0))
            then
              emit_mv_eax_rs1 dec;;
              (if (rs2x >? 0)
              then ins (as_sub eax (gpd rs2x))
              else
                ins (as_sub eax (rbp_reg_d (jd_rs2 dec))));;
              ins (as_mov (rbp_reg_d (jd_rd dec)) eax)
            else
              emit_mv_rd_rs1 dec;;
              if (rdx >? 0)
              then if (rs2x >? 0)
                then ins (as_sub (gpd rdx) (gpd rs2x))
                else ins (as_sub (gpd rdx) (rbp_reg_d (jd_rs2 dec)))
              else if (rs2x >? 0)
                then ins (as_sub (rbp_reg_d (jd_rd dec)) (gpd rs2x))
                else mret tt);;
  mret true.

Definition emit_mul (dec : jit_decode) : M bool :=
  set_term_pc (uwrap 32 (jd_pc dec +[64] inst_length (jd_inst dec)));;
  let rdx := x86_reg (jd_rd dec) in let rs1x := x86_reg (jd_rs1 dec) in let rs2x := x86_reg (jd_rs2 dec) in
  (if (jd_rd dec =? rv_ireg_zero)
  then mret tt
  else if (jd_rs1 dec =? rv_ireg_zero) || (jd_rs2 dec =? rv_ireg_zero)
    then emit_zero_rd dec
    else if (jd_rd dec =? jd_rs1 dec) && (rdx >? 0)
      then if (rs2x >? 0)
        then ins (as_imul (gpd rdx) (gpd rs2x))
        else ins (as_imul (gpd rdx) (rbp_reg_d (jd_rs2 dec)))
      else if (jd_rd dec =? jd_rs2 dec) && (rdx >? 0)
        then if (rs1x >? 0)
          then ins (as_imul (gpd rdx) (gpd rs1x))
          else ins (as_imul (gpd rdx) (rbp_reg_d (jd_rs1 dec)))
        else if (rdx <? 0)
          then
            emit_mv_eax_rs1 dec;;
            (if (rs2x >? 0)
            then ins (as_imul eax (gpd rs2x))
            else
              ins (as_imul eax (rbp_reg_d (jd_rs2 dec))));;
            ins (as_mov (rbp_reg_d (jd_rd dec)) eax)
          else
            emit_mv_rd_rs1 dec;;
            if (rs2x >? 0)
            then ins (as_imul (gpd rdx) (gpd rs2x))
            else
              ins (as_imul (gpd rdx) (rbp_reg_d (jd_rs2 dec))));;
  mret true.

Definition emit_mulh (dec : jit_decode) : M bool :=
  set_term_pc (uwrap 32 (jd_pc dec +[64] inst_length (jd_inst dec)));;
  let rdx := x86_reg (jd_rd dec) in let rs2x := x86_reg (jd_rs2 dec) in
  (if (jd_rd dec =? rv_ireg_zero)
  then mret tt
  else if (jd_rs1 dec =? rv_ireg_zero) || (jd_rs2 dec =? rv_ireg_zero)
    then emit_zero_rd dec
    else (if negb memory_registers && negb (rdx =? 2)
      then ins (as_mov (rbp_reg_d rv_ireg_ra) edx)
      else mret tt);;
      emit_mv_eax_rs1 dec;;
      (if (rs2x >? 0)
      then ins (as_imul1 (gpd rs2x))
      else
        ins (as_mov ecx (rbp_reg_d (jd_rs2 dec)));;
        ins (as_imul1 ecx));;
      (if (rdx >? 0)
      then if negb (rdx =? 2)
        then ins (as_mov (gpd rdx) edx)
        else mret tt
      else
        ins (as_mov (rbp_reg_d (jd_rd dec)) edx));;
      if negb memory_registers && negb (rdx =? 2)
      then ins (as_mov edx (rbp_reg_d rv_ireg_ra))
      else mret tt);;
  mret true.

Definition emit_mulhu (dec : jit_decode) : M bool :=
  set_term_pc (uwrap 32 (jd_pc dec +[64] inst_length (jd_inst dec)));;
  let rdx := x86_reg (jd_rd dec) in let rs2x := x86_reg (jd_rs2 dec) in
  (if (jd_rd dec =? rv_ireg_zero)
  then mret tt
  else if (jd_rs1 dec =? rv_ireg_zero) || (jd_rs2 dec =? rv_ireg_zero)
    then emit_zero_rd dec
    else (if negb memory_registers && negb (rdx =? 2)
      then ins (as_mov (rbp_reg_d rv_ireg_ra) edx)
      else mret tt);;
      emit_mv_eax_rs1 dec;;
      (if (rs2x >? 0)
      then ins (as_mul (gpd rs2x))
      else
        ins (as_mov ecx (rbp_reg_d (jd_rs2 dec)));;
        ins (as_mul ecx));;
      (if (rdx >? 0)
      then if negb (rdx =? 2)
        then ins (as_mov (gpd rdx) edx)
        else mret tt
      else
        ins (as_mov (rbp_reg_d (jd_rd dec)) edx));;
      if negb memory_registers && negb (rdx =? 2)
      then ins (as_mov edx (rbp_reg_d rv_ireg_ra))
      else mret tt);;
  mret true.

Definition emit_mulhsu (dec : jit_decode) : M bool :=
  set_term_pc (uwrap 32 (jd_pc dec +[64] inst_length (jd_inst dec)));;
  let rdx := x86_reg (jd_rd dec) in let rs1x := x86_reg (jd_rs1 dec) in let rs2x := x86_reg (jd_rs2 dec) in
  (if (jd_rd dec =? rv_ireg_zero)
  then mret tt
  else if (jd_rs1 dec =? rv_ireg_zero) || (jd_rs2 dec =? rv_ireg_zero)
    then emit_zero_rd dec
    else (if negb memory_registers && (negb (rdx =? 2) || (rs1x =? 2) || (rs2x =? 2))
      then ins (as_mov (rbp_reg_d rv_ireg_ra) edx)
      else mret tt);;
      umul ← newLabel;
      out ← newLabel;
      emit_mv_eax_rs1 dec;;
      ins (as_test eax eax);;
      ins (as_j CondNS umul);;
      ins (as_neg eax);;
      (if (rs2x >? 0)
      then ins (as_mul (gpd rs2x))
      else
        ins (as_mov ecx (rbp_reg_d (jd_rs2 dec)));;
        ins (as_mul ecx));;
      ins (as_xor edx (Const (-1)));;
      ins (as_mov ecx edx);;
      (if negb memory_registers && ((rs1x =? 2) || (rs2x =? 2))
      then ins (as_mov edx (rbp_reg_d rv_ireg_ra))
      else mret tt);;
      emit_mv_eax_rs1 dec;;
      (if (rs2x >? 0)
      then ins (as_imul eax (gpd rs2x))
      else
        ins (as_imul eax (rbp_reg_d (jd_rs2 dec))));;
      ins (as_test eax eax);;
      ins (as_set CondE dl);;
      ins (as_movzx edx dl);;
      ins (as_add edx ecx);;
      ins (as_jmp out);;
      ins (as_bind umul);;
      (if (rs2x >? 0)
      then ins (as_mul (gpd rs2x))
      else
        ins (as_mov ecx (rbp_reg_d (jd_rs2 dec)));;
        ins (as_mul ecx));;
      ins (as_bind out);;
      (if (rdx >? 0)
      then if negb (rdx =? 2)
        then ins (as_mov (gpd rdx) edx)
        else mret tt
      else
        ins (as_mov (rbp_reg_d (jd_rd dec)) edx));;
      if negb memory_registers && negb (rdx =? 2)
      then ins (as_mov edx (rbp_reg_d rv_ireg_ra))
      else mret tt);;
  mret true.

Definition emit_div (dec : jit_decode) : M bool :=
  set_term_pc (uwrap 32 (jd_pc dec +[64] inst_length (jd_inst dec)));;
  let rdx := x86_reg (jd_rd dec) in let rs1x := x86_reg (jd_rs1 dec) in let rs2x := x86_reg (jd_rs2 dec) in
  (if (jd_rd dec =? rv_ireg_zero)
  then mret tt
  else if (jd_rs2 dec =? rv_ireg_zero)
    then if (rdx >? 0)
      then ins (as_mov (gpd rdx) (Const (-1)))
      else ins (as_mov (rbp_reg_d (jd_rd dec)) (Const (-1)))
    else if (jd_rs1 dec =? rv_ireg_zero)
      then emit_zero_rd dec
      else
        out ← newLabel;
        div1 ← newLabel;
        div2 ← newLabel;
        ins (as_mov eax (Const (- 2 ^ 31)));;
        (if (rs1x >? 0)
        then ins (as_cmp (gpd rs1x) eax)
        else
          ins (as_cmp (rbp_reg_d (jd_rs1 dec)) eax));;
        ins (as_j CondNE div1);;
        (if (rs2x >? 0)
        then ins (as_cmp (gpd rs2x) (Const (-1)))
        else
          ins (as_cmp (rbp_reg_d (jd_rs2 dec)) (Const (-1))));;
        ins (as_j CondE out);;
        ins (as_bind div1);;
        (if (rs2x >? 0)
        then ins (as_test (gpd rs2x) (gpd rs2x))
        else
          ins (as_cmp (rbp_reg_d (jd_rs2 dec)) (Const 0)));;
        ins (as_j CondNE div2);;
        ins (as_mov eax (Const (-1)));;
        ins (as_jmp out);;
        ins (as_bind div2);;
        emit_mv_eax_rs1 dec;;
        (if negb (rdx =? 2)
        then ins (as_mov ecx edx)
        else mret tt);;
        ins as_cqo;;
        (if (rs2x >? 0)
        then ins (as_idiv (gpd rs2x))
        else
          ins (as_idiv (rbp_reg_d (jd_rs2 dec))));;
        (if negb (rdx =? 2)
        then ins (as_mov edx ecx)
        else mret tt);;
        ins (as_bind out);;
        if (rdx >? 0)
        then ins (as_mov (gpd rdx) eax)
        else
          ins (as_mov (rbp_reg_d (jd_rd dec)) eax));;
  mret true.

Definition emit_rem (dec : jit_decode) : M bool :=
  set_term_pc (uwrap 32 (jd_pc dec +[64] inst_length (jd_inst dec)));;
  let rdx := x86_reg (jd_rd dec) in let rs1x := x86_reg (jd_rs1 dec) in let rs2x := x86_reg (jd_rs2 dec) in
  (if (jd_rd dec =? rv_ireg_zero)
  then mret tt
  else if (jd_rs2 dec =? rv_ireg_zero)
    then if (rdx >? 0)
      then ins (as_mov (gpd rdx) (Const (-1)))
      else ins (as_mov (rbp_reg_d (jd_rd dec)) (Const (-1)))
    else if (jd_rs1 dec =? rv_ireg_zero)
      then emit_zero_rd dec
      else (if negb (rdx =? 2)
        then ins (as_mov ecx edx)
        else mret tt);;
        out ← newLabel;
        div1 ← newLabel;
        div2 ← newLabel;
        ins (as_mov eax (Const (- 2 ^ 31)));;
        (if (rs1x >? 0)
        then ins (as_cmp (gpd rs1x) eax)
        else
          ins (as_cmp (rbp_reg_d (jd_rs1 dec)) eax));;
        ins (as_j CondNE div1);;
        ins (as_xor edx edx);;
        (if (rs2x >? 0)
        then ins (as_cmp (gpd rs2x) (Const (-1)))
        else
          ins (as_cmp (rbp_reg_d (jd_rs2 dec)) (Const (-1))));;
        ins (as_j CondE out);;
        ins (as_bind div1);;
        emit_mv_eax_rs1 dec;;
        (if (rs2x >? 0)
        then ins (as_test (gpd rs2x) (gpd rs2x))
        else
          ins (as_cmp (rbp_reg_d (jd_rs2 dec)) (Const 0)));;
        ins (as_j CondNE div2);;
        ins (as_mov edx eax);;
        ins (as_jmp out);;
        ins (as_bind div2);;
        ins as_cqo;;
        (if (rs2x >? 0)
        then ins (as_idiv (gpd rs2x))
        else
          ins (as_idiv (rbp_reg_d (jd_rs2 dec))));;
        ins (as_bind out);;
        (if (rdx >? 0)
        then if negb (rdx =? 2)
          then ins (as_mov (gpd rdx) edx)
          else mret tt
        else
          ins (as_mov (rbp_reg_d (jd_rd dec)) edx));;
        if negb (rdx =? 2)
        then ins (as_mov edx ecx)
        else mret tt);;
  mret true.

Definition emit_divu (dec : jit_decode) : M bool :=
  set_term_pc (uwrap 32 (jd_pc dec +[64] inst_length (jd_inst dec)));;
  let rdx := x86_reg (jd_rd dec) in let rs2x := x86_reg (jd_rs2 dec) in
  (if (jd_rd dec =? rv_ireg_zero)
  then mret tt
  else if (jd_rs2 dec =? rv_ireg_zero)
    then if (rdx >? 0)
      then ins (as_mov (gpd rdx) (Const (-1)))
      else ins (as_mov (rbp_reg_d (jd_rd dec)) (Const (-1)))
    else if (jd_rs1 dec =? rv_ireg_zero)
      then emit_zero_rd dec
      else
        out ← newLabel;
        div1 ← newLabel;
        (if (rs2x >? 0)
        then ins (as_test (gpd rs2x) (gpd rs2x))
        else
          ins (as_cmp (rbp_reg_d (jd_rs2 dec)) (Const 0)));;
        ins (as_j CondNE div1);;
        ins (as_mov eax (Const (-1)));;
        ins (as_jmp out);;
        ins (as_bind div1);;
        emit_mv_eax_rs1 dec;;
        (if negb (rdx =? 2)
        then ins (as_mov ecx edx)
        else mret tt);;
        ins (as_xor edx edx);;
        (if (rs2x >? 0)
        then ins (as_div (gpd rs2x))
        else
          ins (as_div (rbp_reg_d (jd_rs2 dec))));;
        (if negb (rdx =? 2)
        then ins (as_mov edx ecx)
        else mret tt);;
        ins (as_bind out);;
        if (rdx >? 0)
        then ins (as_mov (gpd rdx) eax)
        else
          ins (as_mov (rbp_reg_d (jd_rd dec)) eax));;
  mret true.

Definition emit_remu (dec : jit_decode) : M bool :=
  set_term_pc (uwrap 32 (jd_pc dec +[64] inst_length (jd_inst dec)));;
  let rdx := x86_reg (jd_rd dec) in let rs2x := x86_reg (jd_rs2 dec) in
  (if (jd_rd dec =? rv_ireg_zero)
  then mret tt
  else if (jd_rs2 dec =? rv_ireg_zero)
    then if (rdx >? 0)
      then ins (as_mov (gpd rdx) (Const (-1)))
      else ins (as_mov (rbp_reg_d (jd_rd dec)) (Const (-1)))
    else if (jd_rs1 dec =? rv_ireg_zero)
      then emit_zero_rd dec
      else (if negb (rdx =? 2)
        then ins (as_mov ecx edx)
        else mret tt);;
        out ← newLabel;
        div1 ← newLabel;
        emit_mv_eax_rs1 dec;;
        (if (rs2x >? 0)
        then ins (as_test (gpd rs2x) (gpd rs2x))
        else
          ins (as_cmp (rbp_reg_d (jd_rs2 dec)) (Const 0)));;
        ins (as_j CondNE div1);;
        ins (as_mov edx eax);;
        ins (as_jmp out);;
        ins (as_bind div1);;
        ins (as_xor edx edx);;
        (if (rs2x >? 0)
        then ins (as_div (gpd rs2x))
        else
          ins (as_div (rbp_reg_d (jd_rs2 dec))));;
        ins (as_bind out);;
        (if (rdx >? 0)
        then if negb (rdx =? 2)
          then ins (as_mov (gpd rdx) edx)
          else mret tt
        else
          ins (as_mov (rbp_reg_d (jd_rd dec)) edx));;
        if negb (rdx =? 2)
        then ins (as_mov edx ecx)
        else mret tt);;
  mret true.

Definition emit_slt (dec : jit_decode) : M bool :=
  set_term_pc (uwrap 32 (jd_pc dec +[64] inst_length (jd_inst dec)));;
  let rdx := x86_reg (jd_rd dec) in let rs1x := x86_reg (jd_rs1 dec) in let rs2x := x86_reg (jd_rs2 dec) in
  (if (jd_rd dec =? rv_ireg_zero)
  then mret tt
  else (if (rs1x >? 0) && (rs2x >? 0)
    then ins (as_cmp (gpd rs1x) (gpd rs2x))
    else (if (jd_rs1 dec =? rv_ireg_zero)
      then ins (as_xor eax eax)
      else if (rs1x >? 0)
        then ins (as_mov eax (gpd rs1x))
        else
          ins (as_mov eax (rbp_reg_d (jd_rs1 dec))));;
      if (jd_rs2 dec =? rv_ireg_zero)
      then ins (as_cmp eax (Const 0))
      else if (rs2x >? 0)
        then ins (as_cmp eax (gpd rs2x))
        else
          ins (as_cmp eax (rbp_reg_d (jd_rs2 dec))));;
    ins (as_set CondL al);;
    if (rdx >? 0)
    then ins (as_movzx (gpd rdx) al)
    else
      ins (as_movzx eax al);;
      ins (as_mov (rbp_reg_d (jd_rd dec)) eax));;
  mret true.

Definition emit_sltu (dec : jit_decode) : M bool :=
  set_term_pc (uwrap 32 (jd_pc dec +[64] inst_length (jd_inst dec)));;
  let rdx := x86_reg (jd_rd dec) in let rs1x := x86_reg (jd_rs1 dec) in let rs2x := x86_reg (jd_rs2 dec) in
  (if (jd_rd dec =? rv_ireg_zero)
  then mret tt
  else (if (rs1x >? 0) && (rs2x >? 0)
    then ins (as_cmp (gpd rs1x) (gpd rs2x))
    else (if (jd_rs1 dec =? rv_ireg_zero)
      then ins (as_xor eax eax)
      else if (rs1x >? 0)
        then ins (as_mov eax (gpd rs1x))
        else
          ins (as_mov eax (rbp_reg_d (jd_rs1 dec))));;
      if (jd_rs2 dec =? rv_ireg_zero)
      then ins (as_cmp eax (Const 0))
      else if (rs2x >? 0)
        then ins (as_cmp eax (gpd rs2x))
        else
          ins (as_cmp eax (rbp_reg_d (jd_rs2 dec))));;
    ins (as_set CondB al);;
    if (rdx >? 0)
    then ins (as_movzx (gpd rdx) al)
    else
      ins (as_movzx eax al);;
      ins (as_mov (rbp_reg_d (jd_rd dec)) eax));;
  mret true.

Definition emit_and (dec : jit_decode) : M bool :=
  set_term_pc (uwrap 32 (jd_pc dec +[64] inst_length (jd_inst dec)));;
  let rdx := x86_reg (jd_rd dec) in let rs1x := x86_reg (jd_rs1 dec) in let rs2x := x86_reg (jd_rs2 dec) in
  (if (jd_rd dec =? rv_ireg_zero)
  then mret tt
  else if (jd_rs1 dec =? rv_ireg_zero) || (jd_rs2 dec =? rv_ireg_zero)
    then emit_zero_rd dec
    else if (jd_rd dec =? jd_rs1 dec)
      then if (rdx >? 0)
        then if (rs2x >? 0)
          then ins (as_and (gpd rdx) (gpd rs2x))
          else ins (as_and (gpd rdx) (rbp_reg_d (jd_rs2 dec)))
        else if (rs2x >? 0)
          then ins (as_and (rbp_reg_d (jd_rd dec)) (gpd rs2x))
          else
            ins (as_mov eax (rbp_reg_d (jd_rs2 dec)));;
            ins (as_and (rbp_reg_d (jd_rd dec)) eax)
      else if (jd_rd dec =? jd_rs2 dec)
        then if (rdx >? 0)
          then if (rs1x >? 0)
            then ins (as_and (gpd rdx) (gpd rs1x))
            else ins (as_and (gpd rdx) (rbp_reg_d (jd_rs1 dec)))
          else if (rs1x >? 0)
            then ins (as_and (rbp_reg_d (jd_rd dec)) (gpd rs1x))
            else
              ins (as_mov eax (rbp_reg_d (jd_rs1 dec)));;
              ins (as_and (rbp_reg_d (jd_rd dec)) eax)
        else if (rdx <? 0) && ((rs1x <? 0) || (rs2x <? 0))
          then
            emit_mv_eax_rs1 dec;;
            (if (rs2x >? 0)
            then ins (as_and eax (gpd rs2x))
            else
              ins (as_and eax (rbp_reg_d (jd_rs2 dec))));;
            ins (as_mov (rbp_reg_d (jd_rd dec)) eax)
          else
            emit_mv_rd_rs1 dec;;
            if (rdx >? 0)
            then if (rs2x >? 0)
              then ins (as_and (gpd rdx) (gpd rs2x))
              else ins (as_and (gpd rdx) (rbp_reg_d (jd_rs2 dec)))
            else if (rs2x >? 0)
              then ins (as_and (rbp_reg_d (jd_rd dec)) (gpd rs2x))
              else mret tt);;
  mret true.

Definition emit_or (dec : jit_decode) : M bool :=
  set_term_pc (uwrap 32 (jd_pc dec +[64] inst_length (jd_inst dec)));;
  let rdx := x86_reg (jd_rd dec) in let rs1x := x86_reg (jd_rs1 dec) in let rs2x := x86_reg (jd_rs2 dec) in
  (if (jd_rd dec =? rv_ireg_zero)
  then mret tt
  else if (jd_rs1 dec =? rv_ireg_zero) && (jd_rs2 dec =? rv_ireg_zero)
    then emit_zero_rd dec
    else if (jd_rs1 dec =? rv_ireg_zero)
      then emit_mv_rd_rs2 dec
      else if (jd_rs2 dec =? rv_ireg_zero)
        then emit_mv_rd_rs1 dec
        else if (jd_rd dec =? jd_rs1 dec)
          then if (rdx >? 0)
            then if (rs2x >? 0)
              then ins (as_or (gpd rdx) (gpd rs2x))
              else ins (as_or (gpd rdx) (rbp_reg_d (jd_rs2 dec)))
            else if (rs2x >? 0)
              then ins (as_or (rbp_reg_d (jd_rd dec)) (gpd rs2x))
              else
                ins (as_mov eax (rbp_reg_d (jd_rs2 dec)));;
                ins (as_or (rbp_reg_d (jd_rd dec)) eax)
          else if (jd_rd dec =? jd_rs2 dec)
            then if (rdx >? 0)
              then if (rs1x >? 0)
                then ins (as_or (gpd rdx) (gpd rs1x))
                else ins (as_or (gpd rdx) (rbp_reg_d (jd_rs1 dec)))
              else if (rs1x >? 0)
                then ins (as_or (rbp_reg_d (jd_rd dec)) (gpd rs1x))
                else
                  ins (as_mov eax (rbp_reg_d (jd_rs1 dec)));;
                  ins (as_or (rbp_reg_d (jd_rd dec)) eax)
            else if (rdx <? 0) && ((rs1x <? 0) || (rs2x <? 0))
              then
                emit_mv_eax_rs1 dec;;
                (if (rs2x >? 0)
                then ins (as_or eax (gpd rs2x))
                else
                  ins (as_or eax (rbp_reg_d (jd_rs2 dec))));;
                ins (as_mov (rbp_reg_d (jd_rd dec)) eax)
              else
                emit_mv_rd_rs1 dec;;
                if (rdx >? 0)
                then if (rs2x >? 0)
                  then ins (as_or (gpd rdx) (gpd rs2x))
                  else ins (as_or (gpd rdx) (rbp_reg_d (jd_rs2 dec)))
                else if (rs2x >? 0)
                  then ins (as_or (rbp_reg_d (jd_rd dec)) (gpd rs2x))
                  else mret tt);;
  mret true.

Definition emit_xor (dec : jit_decode) : M bool :=
  set_term_pc (uwrap 32 (jd_pc dec +[64] inst_length (jd_inst dec)));;
  let rdx := x86_reg (jd_rd dec) in let rs1x := x86_reg (jd_rs1 dec) in let rs2x := x86_reg (jd_rs2 dec) in
  (if (jd_rd dec =? rv_ireg_zero)
  then mret tt
  else if (jd_rs1 dec =? rv_ireg_zero) && (jd_rs2 dec =? rv_ireg_zero)
    then emit_zero_rd dec
    else if (jd_rs1 dec =? rv_ireg_zero)
      then emit_mv_rd_rs2 dec
      else if (jd_rs2 dec =? rv_ireg_zero)
        then emit_mv_rd_rs1 dec
        else if (jd_rd dec =? jd_rs1 dec)
          then if (rdx >? 0)
            then if (rs2x >? 0)
              then ins (as_xor (gpd rdx) (gpd rs2x))
              else ins (as_xor (gpd rdx) (rbp_reg_d (jd_rs2 dec)))
            else if (rs2x >? 0)
              then ins (as_xor (rbp_reg_d (jd_rd dec)) (gpd rs2x))
              else
                ins (as_mov eax (rbp_reg_d (jd_rs2 dec)));;
                ins (as_xor (rbp_reg_d (jd_rd dec)) eax)
          else if (jd_rd dec =? jd_rs2 dec)
            then if (rdx >? 0)
              then if (rs1x >? 0)
                then ins (as_xor (gpd rdx) (gpd rs1x))
                else ins (as_xor (gpd rdx) (rbp_reg_d (jd_rs1 dec)))
              else if (rs1x >? 0)
                then ins (as_xor (rbp_reg_d (jd_rd dec)) (gpd rs1x))
                else
                  ins (as_mov eax (rbp_reg_d (jd_rs1 dec)));;
                  ins (as_xor (rbp_reg_d (jd_rd dec)) eax)
            else if (rdx <? 0) && ((rs1x <? 0) || (rs2x <? 0))
              then
                emit_mv_eax_rs1 dec;;
                (if (rs2x >? 0)
                then ins (as_xor eax (gpd rs2x))
                else
                  ins (as_xor eax (rbp_reg_d (jd_rs2 dec))));;
                ins (as_mov (rbp_reg_d (jd_rd dec)) eax)
              else
                emit_mv_rd_rs1 dec;;
                if (rdx >? 0)
                then if (rs2x >? 0)
                  then ins (as_xor (gpd rdx) (gpd rs2x))
                  else ins (as_xor (gpd rdx) (rbp_reg_d (jd_rs2 dec)))
                else if (rs2x >? 0)
                  then ins (as_xor (rbp_reg_d (jd_rd dec)) (gpd rs2x))
                  else mret tt);;
  mret true.

Definition emit_sll (dec : jit_decode) : M bool :=
  set_term_pc (uwrap 32 (jd_pc dec +[64] inst_length (jd_inst dec)));;
  let rdx := x86_reg (jd_rd dec) in let rs2x := x86_reg (jd_rs2 dec) in
  (if (jd_rd dec =? rv_ireg_zero)
  then mret tt
  else if (jd_rs1 dec =? rv_ireg_zero)
    then emit_zero_rd dec
    else if (jd_rs2 dec =? 0)
      then emit_mv_rd_rs1 dec
      else if (jd_rd dec =? jd_rs1 dec)
        then
          emit_mv_cl_rs2 dec;;
          if (rdx >? 0)
          then ins (as_shl (gpd rdx) cl)
          else ins (as_shl (rbp_reg_d (jd_rd dec)) cl)
        else if (rdx <? 0)
          then
            emit_mv_cl_rs2 dec;;
            emit_mv_eax_rs1 dec;;
            (if (rs2x >? 0)
            then ins (as_shl eax cl)
            else
              ins (as_shl eax cl));;
            ins (as_mov (rbp_reg_d (jd_rd dec)) eax)
          else
            emit_mv_cl_rs2 dec;;
            emit_mv_rd_rs1 dec;;
            if (rs2x >? 0)
            then ins (as_shl (gpd rdx) cl)
            else
              ins (as_shl (gpd rdx) cl));;
  mret true.

Definition emit_srl (dec : jit_decode) : M bool :=
  set_term_pc (uwrap 32 (jd_pc dec +[64] inst_length (jd_inst dec)));;
  let rdx := x86_reg (jd_rd dec) in let rs2x := x86_reg (jd_rs2 dec) in
  (if (jd_rd dec =? rv_ireg_zero)
  then mret tt
  else if (jd_rs1 dec =? rv_ireg_zero)
    then emit_zero_rd dec
    else if (jd_rs2 dec =? 0)
      then emit_mv_rd_rs1 dec
      else if (jd_rd dec =? jd_rs1 dec)
        then
          emit_mv_cl_rs2 dec;;
          if (rdx >? 0)
          then ins (as_shr (gpd rdx) cl)
          else ins (as_shr (rbp_reg_d (jd_rd dec)) cl)
        else if (rdx <? 0)
          then
            emit_mv_cl_rs2 dec;;
            emit_mv_eax_rs1 dec;;
            (if (rs2x >? 0)
            then ins (as_shr eax cl)
            else
              ins (as_shr eax cl));;
            ins (as_mov (rbp_reg_d (jd_rd dec)) eax)
          else
            emit_mv_cl_rs2 dec;;
            emit_mv_rd_rs1 dec;;
            if (rs2x >? 0)
            then ins (as_shr (gpd rdx) cl)
            else
              ins (as_shr (gpd rdx) cl));;
  mret true.

Definition emit_sra (dec : jit_decode) : M bool :=
  set_term_pc (uwrap 32 (jd_pc dec +[64] inst_length (jd_inst dec)));;
  let rdx := x86_reg (jd_rd dec) in let rs2x := x86_reg (jd_rs2 dec) in
  (if (jd_rd dec =? rv_ireg_zero)
  then mret tt
  else if (jd_rs1 dec =? rv_ireg_zero)
    then emit_zero_rd dec
    else if (jd_rs2 dec =? 0)
      then emit_mv_rd_rs1 dec
      else if (jd_rd dec =? jd_rs1 dec)
        then
          emit_mv_cl_rs2 dec;;
          if (rdx >? 0)
          then ins (as_sar (gpd rdx) cl)
          else ins (as_sar (rbp_reg_d (jd_rd dec)) cl)
        else if (rdx <? 0)
          then
            emit_mv_cl_rs2 dec;;
            emit_mv_eax_rs1 dec;;
            (if (rs2x >? 0)
            then ins (as_sar eax cl)
            else
              ins (as_sar eax cl));;
            ins (as_mov (rbp_reg_d (jd_rd dec)) eax)
          else
            emit_mv_cl_rs2 dec;;
            emit_mv_rd_rs1 dec;;
            if (rs2x >? 0)
            then ins (as_sar (gpd rdx) cl)
            else
              ins (as_sar (gpd rdx) cl));;
  mret true.

Definition emit_addi (dec : jit_decode) : M bool :=
  set_term_pc (uwrap 32 (jd_pc dec +[64] inst_length (jd_inst dec)));;
  let rdx := x86_reg (jd_rd dec) in
  (if (jd_rd dec =? rv_ireg_zero)
  then mret tt
  else if (jd_rs1 dec =? rv_ireg_zero)
    then if (rdx >? 0)
      then ins (as_mov (gpd rdx) (Const (jd_imm dec)))
      else ins (as_mov (rbp_reg_d (jd_rd dec)) (Const (jd_imm dec)))
    else if (jd_rd dec =? jd_rs1 dec)
      then if (rdx >? 0)
        then ins (as_add (gpd rdx) (Const (jd_imm dec)))
        else ins (as_add (rbp_reg_d (jd_rd dec)) (Const (jd_imm dec)))
      else if (jd_imm dec =? 0)
        then emit_mv_rd_rs1 dec
        else
          emit_mv_rd_rs1 dec;;
          if (rdx >? 0)
          then ins (as_add (gpd rdx) (Const (jd_imm dec)))
          else
            ins (as_add (rbp_reg_d (jd_rd dec)) (Const (jd_imm dec))));;
  mret true.

Definition emit_slti (dec : jit_decode) : M bool :=
  set_term_pc (uwrap 32 (jd_pc dec +[64] inst_length (jd_inst dec)));;
  let rdx := x86_reg (jd_rd dec) in let rs1x := x86_reg (jd_rs1 dec) in
  (if (jd_rd dec =? rv_ireg_zero)
  then mret tt
  else if (jd_rs1 dec =? rv_ireg_zero)
    then let result := b2z (0 <? jd_imm dec) in
      if (rdx >? 0)
      then ins (as_mov (gpd rdx) (Const result))
      else ins (as_mov (rbp_reg_d (jd_rd dec)) (Const result))
    else (if (rs1x >? 0)
      then ins (as_cmp (gpd rs1x) (Const (jd_imm dec)))
      else
        ins (as_cmp (rbp_reg_d (jd_rs1 dec)) (Const (jd_imm dec))));;
      ins (as_set CondL al);;
      if (rdx >? 0)
      then ins (as_movzx (gpd rdx) al)
      else
        ins (as_movzx eax al);;
        ins (as_mov (rbp_reg_d (jd_rd dec)) eax));;
  mret true.

Definition emit_sltiu (dec : jit_decode) : M bool :=
  set_term_pc (uwrap 32 (jd_pc dec +[64] inst_length (jd_inst dec)));;
  let rdx := x86_reg (jd_rd dec) in let rs1x := x86_reg (jd_rs1 dec) in
  (if (jd_rd dec =? rv_ireg_zero)
  then mret tt
  else if (jd_rs1 dec =? rv_ireg_zero)
    then let result := b2z (0 <? uwrap 64 (jd_imm dec)) in
      if (rdx >? 0)
      then ins (as_mov (gpd rdx) (Const result))
      else ins (as_mov (rbp_reg_d (jd_rd dec)) (Const result))
    else (if (rs1x >? 0)
      then ins (as_cmp (gpd rs1x) (Const (jd_imm dec)))
      else
        ins (as_cmp (rbp_reg_d (jd_rs1 dec)) (Const (jd_imm dec))));;
      ins (as_set CondB al);;
      if (rdx >? 0)
      then ins (as_movzx (gpd rdx) al)
      else
        ins (as_movzx eax al);;
        ins (as_mov (rbp_reg_d (jd_rd dec)) eax));;
  mret true.

Definition emit_andi (dec : jit_decode) : M bool :=
  set_term_pc (uwrap 32 (jd_pc dec +[64] inst_length (jd_inst dec)));;
  let rdx := x86_reg (jd_rd dec) in
  (if (jd_rd dec =? rv_ireg_zero)
  then mret tt
  else if (jd_rs1 dec =? rv_ireg_zero)
    then emit_zero_rd dec
    else if (jd_rd dec =? jd_rs1 dec)
      then if (rdx >? 0)
        then ins (as_and (gpd rdx) (Const (jd_imm dec)))
        else ins (as_and (rbp_reg_d (jd_rd dec)) (Const (jd_imm dec)))
      else if (rdx <? 0)
        then
          emit_mv_eax_rs1 dec;;
          ins (as_and eax (Const (jd_imm dec)));;
          ins (as_mov (rbp_reg_d (jd_rd dec)) eax)
        else
          emit_mv_rd_rs1 dec;;
          if (rdx >? 0)
          then ins (as_and (gpd rdx) (Const (jd_imm dec)))
          else
            ins (as_and (rbp_reg_d (jd_rd dec)) (Const (jd_imm dec))));;
  mret true.

Definition emit_ori (dec : jit_decode) : M bool :=
  set_term_pc (uwrap 32 (jd_pc dec +[64] inst_length (jd_inst dec)));;
  let rdx := x86_reg (jd_rd dec) in
  (if (jd_rd dec =? rv_ireg_zero)
  then mret tt
  else if (jd_rs1 dec =? rv_ireg_zero)
    then if (rdx >? 0)
      then ins (as_mov (gpd rdx) (Const (jd_imm dec)))
      else ins (as_mov (rbp_reg_d (jd_rd dec)) (Const (jd_imm dec)))
    else if (jd_rd dec =? jd_rs1 dec)
      then if (rdx >? 0)
        then ins (as_or (gpd rdx) (Const (jd_imm dec)))
        else ins (as_or (rbp_reg_d (jd_rd dec)) (Const (jd_imm dec)))
      else if (rdx <? 0)
        then
          emit_mv_eax_rs1 dec;;
          ins (as_or eax (Const (jd_imm dec)));;
          ins (as_mov (rbp_reg_d (jd_rd dec)) eax)
        else
          emit_mv_rd_rs1 dec;;
          if (rdx >? 0)
          then ins (as_or (gpd rdx) (Const (jd_imm dec)))
          else
            ins (as_or (rbp_reg_d (jd_rd dec)) (Const (jd_imm dec))));;
  mret true.

Definition emit_xori (dec : jit_decode) : M bool :=
  set_term_pc (uwrap 32 (jd_pc dec +[64] inst_length (jd_inst dec)));;
  let rdx := x86_reg (jd_rd dec) in
  (if (jd_rd dec =? rv_ireg_zero)
  then mret tt
  else if (jd_rs1 dec =? rv_ireg_zero)
    then if (rdx >? 0)
      then ins (as_mov (gpd rdx) (Const (jd_imm dec)))
      else ins (as_mov (rbp_reg_d (jd_rd dec)) (Const (jd_imm dec)))
    else if (jd_rd dec =? jd_rs1 dec)
      then if (rdx >? 0)
        then ins (as_xor (gpd rdx) (Const (jd_imm dec)))
        else ins (as_xor (rbp_reg_d (jd_rd dec)) (Const (jd_imm dec)))
      else if (rdx <? 0)
        then
          emit_mv_eax_rs1 dec;;
          ins (as_xor eax (Const (jd_imm dec)));;
          ins (as_mov (rbp_reg_d (jd_rd dec)) eax)
        else
          emit_mv_rd_rs1 dec;;
          if (rdx >? 0)
          then ins (as_xor (gpd rdx) (Const (jd_imm dec)))
          else
            ins (as_xor (rbp_reg_d (jd_rd dec)) (Const (jd_imm dec))));;
  mret true.

Definition emit_slli (dec : jit_decode) : M bool :=
  set_term_pc (uwrap 32 (jd_pc dec +[64] inst_length (jd_inst dec)));;
  let rdx := x86_reg (jd_rd dec) in
  (if (jd_rd dec =? rv_ireg_zero)
  then mret tt
  else if (jd_rs1 dec =? rv_ireg_zero)
    then emit_zero_rd dec
    else if (jd_rd dec =? jd_rs1 dec)
      then if (rdx >? 0)
        then ins (as_shl (gpd rdx) (Const (jd_imm dec)))
        else ins (as_shl (rbp_reg_d (jd_rd dec)) (Const (jd_imm dec)))
      else if (rdx <? 0)
        then
          emit_mv_eax_rs1 dec;;
          ins (as_shl eax (Const (jd_imm dec)));;
          ins (as_mov (rbp_reg_d (jd_rd dec)) eax)
        else
          emit_mv_rd_rs1 dec;;
          if (rdx >? 0)
          then ins (as_shl (gpd rdx) (Const (jd_imm dec)))
          else
            ins (as_shl (rbp_reg_d (jd_rd dec)) (Const (jd_imm dec))));;
  mret true.

Definition emit_srli (dec : jit_decode) : M bool :=
  set_term_pc (uwrap 32 (jd_pc dec +[64] inst_length (jd_inst dec)));;
  let rdx := x86_reg (jd_rd dec) in
  (if (jd_rd dec =? rv_ireg_zero)
  then mret tt
  else if (jd_rs1 dec =? rv_ireg_zero)
    then emit_zero_rd dec
    else if (jd_rd dec =? jd_rs1 dec)
      then if (rdx >? 0)
        then ins (as_shr (gpd rdx) (Const (jd_imm dec)))
        else ins (as_shr (rbp_reg_d (jd_rd dec)) (Const (jd_imm dec)))
      else if (rdx <? 0)
        then
          emit_mv_eax_rs1 dec;;
          ins (as_shr eax (Const (jd_imm dec)));;
          ins (as_mov (rbp_reg_d (jd_rd dec)) eax)
        else
          emit_mv_rd_rs1 dec;;
          if (rdx >? 0)
          then ins (as_shr (gpd rdx) (Const (jd_imm dec)))
          else
            ins (as_shr (rbp_reg_d (jd_rd dec)) (Const (jd_imm dec))));;
  mret true.

Definition emit_srai (dec : jit_decode) : M bool :=
  set_term_pc (uwrap 32 (jd_pc dec +[64] inst_length (jd_inst dec)));;
  let rdx := x86_reg (jd_rd dec) in
  (if (jd_rd dec =? rv_ireg_zero)
  then mret tt
  else if (jd_rs1 dec =? rv_ireg_zero)
    then emit_zero_rd dec
    else if (jd_rd dec =? jd_rs1 dec)
      then if (rdx >? 0)
        then ins (as_sar (gpd rdx) (Const (jd_imm dec)))
        else ins (as_sar (rbp_reg_d (jd_rd dec)) (Const (jd_imm dec)))
      else if (rdx <? 0)
        then
          emit_mv_eax_rs1 dec;;
          ins (as_sar eax (Const (jd_imm dec)));;
          ins (as_mov (rbp_reg_d (jd_rd dec)) eax)
        else
          emit_mv_rd_rs1 dec;;
          if (rdx >? 0)
          then ins (as_sar (gpd rdx) (Const (jd_imm dec)))
          else
            ins (as_sar (rbp_reg_d (jd_rd dec)) (Const (jd_imm dec))));;
  mret true.

Definition emit_cmp (dec : jit_decode) : M unit :=
  let rs1x := x86_reg (jd_rs1 dec) in let rs2x := x86_reg (jd_rs2 dec) in
  if (jd_rs1 dec =? rv_ireg_zero)
  then
    ins (as_xor eax eax);;
    if (rs2x >? 0)
    then ins (as_cmp eax (gpd rs2x))
    else ins (as_cmp eax (rbp_reg_d (jd_rs2 dec)))
  else if (jd_rs2 dec =? rv_ireg_zero)
    then if (rs1x >? 0)
      then ins (as_cmp (gpd rs1x) (Const 0))
      else ins (as_cmp (rbp_reg_d (jd_rs1 dec)) (Const 0))
    else if (rs1x >? 0)
      then if (rs2x >? 0)
        then ins (as_cmp (gpd rs1x) (gpd rs2x))
        else ins (as_cmp (gpd rs1x) (rbp_reg_d (jd_rs2 dec)))
      else if (rs2x >? 0)
        then ins (as_cmp (rbp_reg_d (jd_rs1 dec)) (gpd rs2x))
        else
          ins (as_mov eax (rbp_reg_d (jd_rs1 dec)));;
          ins (as_cmp eax (rbp_reg_d (jd_rs2 dec))).

(** The directions, conditions and targets of a conditional branch: to labels of
    the trace, to other traces, to trampolines. *)
Definition emit_branch (dec : jit_decode) (cond_ : bool) (bf ibf : cond) : M bool :=
  let branch_pc := jd_pc dec +[64] jd_imm dec in
  let cont_pc := jd_pc dec +[64] inst_length (jd_inst dec) in
  labels ← gets e_labels;
  commit_instret;;
  emit_cmp dec;;
  (match labels !! branch_pc, labels !! cont_pc with
   | Some branch_l, Some cont_l => ins (as_j bf branch_l);; ins (as_jmp cont_l)
   | branch_i, cont_i =>
       match cond_, branch_i, cont_i with
       | true, Some branch_l, _ =>
           ins (as_j bf branch_l);;
           (if negb (lookup_trace_slow cont_pc =? 0) then ins (as_jmp_abs (lookup_trace_slow cont_pc))
            else emit_jump_fixup cont_pc);;
           set_term_pc 0
       | false, _, Some cont_l =>
           ins (as_j ibf cont_l);;
           (if negb (lookup_trace_slow branch_pc =? 0) then ins (as_jmp_abs (lookup_trace_slow branch_pc))
            else emit_jump_fixup branch_pc);;
           set_term_pc 0
       | true, None, _ =>
           (if negb (lookup_trace_slow cont_pc =? 0) then ins (as_j_abs ibf (lookup_trace_slow cont_pc))
            else emit_branch_fixup ibf cont_pc);;
           set_term_pc (uwrap 32 branch_pc)
       | false, _, None =>
           (if negb (lookup_trace_slow branch_pc =? 0) then ins (as_j_abs bf (lookup_trace_slow branch_pc))
            else emit_branch_fixup bf branch_pc);;
           set_term_pc (uwrap 32 cont_pc)
       end
   end);;
  mret true.

Definition emit_bne (dec : jit_decode) : M bool := emit_branch dec (jd_brc dec) CondNE CondE.
Definition emit_beq (dec : jit_decode) : M bool := emit_branch dec (jd_brc dec) CondE CondNE.
Definition emit_blt (dec : jit_decode) : M bool := emit_branch dec (jd_brc dec) CondL CondGE.
Definition emit_bge (dec : jit_decode) : M bool := emit_branch dec (jd_brc dec) CondGE CondL.
Definition emit_bltu (dec : jit_decode) : M bool := emit_branch dec (jd_brc dec) CondB CondAE.
Definition emit_bgeu (dec : jit_decode) : M bool := emit_branch dec (jd_brc dec) CondAE CondB.

Definition emit_lw (dec : jit_decode) : M bool :=
  set_term_pc (uwrap 32 (jd_pc dec +[64] inst_length (jd_inst dec)));;
  let rdx := x86_reg (jd_rd dec) in let rs1x := x86_reg (jd_rs1 dec) in
  (if (jd_rd dec =? rv_ireg_zero)
  then mret tt
  else if use_mmu
    then (if (jd_rs1 dec =? rv_ireg_zero)
      then ins (as_mov rax (Const (jd_imm dec)))
      else if (rs1x >? 0)
        then ins (as_lea eax (Mem32 32 rs1x (jd_imm dec)))
        else
          ins (as_mov ecx (rbp_reg_d (jd_rs1 dec)));;
          ins (as_lea eax (Mem 32 1 (jd_imm dec))));;
      ins (as_call (mmu_op O_lw));;
      okay ← newLabel;
      ins (as_cmp (Field32 P_cause) (Const 0));;
      ins (as_j CondE okay);;
      emit_pc (jd_pc dec);;
      term ← gets e_term;
      ins (as_jmp term);;
      ins (as_bind okay);;
      if (rdx >? 0)
      then ins (as_mov (gpd rdx) eax)
      else ins (as_mov (rbp_reg_d (jd_rd dec)) eax)
    else if (rdx >? 0)
      then if (rs1x >? 0)
        then ins (as_movsxd (gpd rdx) (Mem32 32 rs1x (jd_imm dec)))
        else
          ins (as_mov eax (rbp_reg_d (jd_rs1 dec)));;
          ins (as_movsxd (gpd rdx) (Mem32 32 0 (jd_imm dec)))
      else (if (rs1x >? 0)
        then ins (as_movsxd eax (Mem32 32 rs1x (jd_imm dec)))
        else
          ins (as_mov eax (rbp_reg_d (jd_rs1 dec)));;
          ins (as_movsxd eax (Mem32 32 0 (jd_imm dec))));;
        ins (as_mov (rbp_reg_d (jd_rd dec)) eax));;
  mret true.

Definition emit_lh (dec : jit_decode) : M bool :=
  set_term_pc (uwrap 32 (jd_pc dec +[64] inst_length (jd_inst dec)));;
  let rdx := x86_reg (jd_rd dec) in let rs1x := x86_reg (jd_rs1 dec) in
  (if (jd_rd dec =? rv_ireg_zero)
  then mret tt
  else if use_mmu
    then (if (jd_rs1 dec =? rv_ireg_zero)
      then ins (as_mov rax (Const (jd_imm dec)))
      else if (rs1x >? 0)
        then ins (as_lea eax (Mem32 32 rs1x (jd_imm dec)))
        else
          ins (as_mov ecx (rbp_reg_d (jd_rs1 dec)));;
          ins (as_lea eax (Mem 32 1 (jd_imm dec))));;
      ins (as_call (mmu_op O_lh));;
      okay ← newLabel;
      ins (as_cmp (Field32 P_cause) (Const 0));;
      ins (as_j CondE okay);;
      emit_pc (jd_pc dec);;
      term ← gets e_term;
      ins (as_jmp term);;
      ins (as_bind okay);;
      if (rdx >? 0)
      then ins (as_movsx (gpd rdx) ax)
      else
        ins (as_movsx eax ax);;
        ins (as_mov (rbp_reg_d (jd_rd dec)) eax)
    else if (rdx >? 0)
      then if (rs1x >? 0)
        then ins (as_movsx (gpd rdx) (Mem32 16 rs1x (jd_imm dec)))
        else
          ins (as_mov eax (rbp_reg_d (jd_rs1 dec)));;
          ins (as_movsx (gpd rdx) (Mem32 16 0 (jd_imm dec)))
      else (if (rs1x >? 0)
        then ins (as_movsx eax (Mem32 16 rs1x (jd_imm dec)))
        else
          ins (as_mov eax (rbp_reg_d (jd_rs1 dec)));;
          ins (as_movsx eax (Mem32 16 0 (jd_imm dec))));;
        ins (as_mov (rbp_reg_d (jd_rd dec)) eax));;
  mret true.

Definition emit_lhu (dec : jit_decode) : M bool :=
  set_term_pc (uwrap 32 (jd_pc dec +[64] inst_length (jd_inst dec)));;
  let rdx := x86_reg (jd_rd dec) in let rs1x := x86_reg (jd_rs1 dec) in
  (if (jd_rd dec =? rv_ireg_zero)
  then mret tt
  else if use_mmu
    then (if (jd_rs1 dec =? rv_ireg_zero)
      then ins (as_mov rax (Const (jd_imm dec)))
      else if (rs1x >? 0)
        then ins (as_lea eax (Mem32 32 rs1x (jd_imm dec)))
        else
          ins (as_mov ecx (rbp_reg_d (jd_rs1 dec)));;
          ins (as_lea eax (Mem 32 1 (jd_imm dec))));;
      ins (as_call (mmu_op O_lh));;
      okay ← newLabel;
      ins (as_cmp (Field32 P_cause) (Const 0));;
      ins (as_j CondE okay);;
      emit_pc (jd_pc dec);;
      term ← gets e_term;
      ins (as_jmp term);;
      ins (as_bind okay);;
      if (rdx >? 0)
      then ins (as_movzx (gpd rdx) ax)
      else
        ins (as_movzx eax ax);;
        ins (as_mov (rbp_reg_d (jd_rd dec)) eax)
    else if (rdx >? 0)
      then if (rs1x >? 0)
        then ins (as_movzx (gpd rdx) (Mem32 16 rs1x (jd_imm dec)))
        else
          ins (as_mov eax (rbp_reg_d (jd_rs1 dec)));;
          ins (as_movzx (gpd rdx) (Mem32 16 0 (jd_imm dec)))
      else (if (rs1x >? 0)
        then ins (as_movzx eax (Mem32 16 rs1x (jd_imm dec)))
        else
          ins (as_mov eax (rbp_reg_d (jd_rs1 dec)));;
          ins (as_movzx eax (Mem32 16 0 (jd_imm dec))));;
        ins (as_mov (rbp_reg_d (jd_rd dec)) eax));;
  mret true.

Definition emit_lb (dec : jit_decode) : M bool :=
  set_term_pc (uwrap 32 (jd_pc dec +[64] inst_length (jd_inst dec)));;
  let rdx := x86_reg (jd_rd dec) in let rs1x := x86_reg (jd_rs1 dec) in
  (if (jd_rd dec =? rv_ireg_zero)
  then mret tt
  else if use_mmu
    then (if (jd_rs1 dec =? rv_ireg_zero)
      then ins (as_mov rax (Const (jd_imm dec)))
      else if (rs1x >? 0)
        then ins (as_lea eax (Mem32 32 rs1x (jd_imm dec)))
        else
          ins (as_mov ecx (rbp_reg_d (jd_rs1 dec)));;
          ins (as_lea eax (Mem 32 1 (jd_imm dec))));;
      ins (as_call (mmu_op O_lb));;
      okay ← newLabel;
      ins (as_cmp (Field32 P_cause) (Const 0));;
      ins (as_j CondE okay);;
      emit_pc (jd_pc dec);;
      term ← gets e_term;
      ins (as_jmp term);;
      ins (as_bind okay);;
      if (rdx >? 0)
      then ins (as_movsx (gpd rdx) al)
      else
        ins (as_movsx eax al);;
        ins (as_mov (rbp_reg_d (jd_rd dec)) eax)
    else if (rdx >? 0)
      then if (rs1x >? 0)
        then ins (as_movsx (gpd rdx) (Mem32 8 rs1x (jd_imm dec)))
        else
          ins (as_mov eax (rbp_reg_d (jd_rs1 dec)));;
          ins (as_movsx (gpd rdx) (Mem32 8 0 (jd_imm dec)))
      else (if (rs1x >? 0)
        then ins (as_movsx eax (Mem32 8 rs1x (jd_imm dec)))
        else
          ins (as_mov eax (rbp_reg_d (jd_rs1 dec)));;
          ins (as_movsx eax (Mem32 8 0 (jd_imm dec))));;
        ins (as_mov (rbp_reg_d (jd_rd dec)) eax));;
  mret true.

Definition emit_lbu (dec : jit_decode) : M bool :=
  set_term_pc (uwrap 32 (jd_pc dec +[64] inst_length (jd_inst dec)));;
  let rdx := x86_reg (jd_rd dec) in let rs1x := x86_reg (jd_rs1 dec) in
  (if (jd_rd dec =? rv_ireg_zero)
  then mret tt
  else if use_mmu
    then (if (jd_rs1 dec =? rv_ireg_zero)
      then ins (as_mov rax (Const (jd_imm dec)))
      else if (rs1x >? 0)
        then ins (as_lea eax (Mem32 32 rs1x (jd_imm dec)))
        else
          ins (as_mov ecx (rbp_reg_d (jd_rs1 dec)));;
          ins (as_lea eax (Mem 32 1 (jd_imm dec))));;
      ins (as_call (mmu_op O_lb));;
      okay ← newLabel;
      ins (as_cmp (Field32 P_cause) (Const 0));;
      ins (as_j CondE okay);;
      emit_pc (jd_pc dec);;
      term ← gets e_term;
      ins (as_jmp term);;
      ins (as_bind okay);;
      if (rdx >? 0)
      then ins (as_movzx (gpd rdx) al)
      else
        ins (as_movzx eax al);;
        ins (as_mov (rbp_reg_d (jd_rd dec)) eax)
    else if (rdx >? 0)
      then if (rs1x >? 0)
        then ins (as_movzx (gpd rdx) (Mem32 8 rs1x (jd_imm dec)))
        else
          ins (as_mov eax (rbp_reg_d (jd_rs1 dec)));;
          ins (as_movzx (gpd rdx) (Mem32 8 0 (jd_imm dec)))
      else (if (rs1x >? 0)
        then ins (as_movzx eax (Mem32 8 rs1x (jd_imm dec)))
        else
          ins (as_mov eax (rbp_reg_d (jd_rs1 dec)));;
          ins (as_movzx eax (Mem32 8 0 (jd_imm dec))));;
        ins (as_mov (rbp_reg_d (jd_rd dec)) eax));;
  mret true.

Definition emit_sw (dec : jit_decode) : M bool :=
  set_term_pc (uwrap 32 (jd_pc dec +[64] inst_length (jd_inst dec)));;
  let rs2x := x86_reg (jd_rs2 dec) in let rs1x := x86_reg (jd_rs1 dec) in
  (if (jd_rs2 dec =? rv_ireg_zero)
  then if use_mmu
    then (if (rs1x >? 0)
      then ins (as_lea eax (Mem32 32 rs1x (jd_imm dec)))
      else
        ins (as_mov ecx (rbp_reg_d (jd_rs1 dec)));;
        ins (as_lea eax (Mem32 32 1 (jd_imm dec))));;
      ins (as_xor ecx ecx);;
      ins (as_call (mmu_op O_sw));;
      okay ← newLabel;
      ins (as_cmp (Field32 P_cause) (Const 0));;
      ins (as_j CondE okay);;
      emit_pc (jd_pc dec);;
      term ← gets e_term;
      ins (as_jmp term);;
      ins (as_bind okay)
    else if (rs1x >? 0)
      then ins (as_mov (Mem32 32 rs1x (jd_imm dec)) (Const 0))
      else
        ins (as_mov eax (rbp_reg_d (jd_rs1 dec)));;
        ins (as_mov (Mem32 32 0 (jd_imm dec)) (Const 0))
  else if use_mmu
    then (if (rs1x >? 0)
      then ins (as_lea eax (Mem 32 rs1x (jd_imm dec)))
      else
        ins (as_mov ecx (rbp_reg_d (jd_rs1 dec)));;
        ins (as_lea eax (Mem 32 1 (jd_imm dec))));;
      (if (rs2x >? 0)
      then ins (as_mov ecx (gpd rs2x))
      else
        ins (as_mov ecx (rbp_reg_d (jd_rs2 dec))));;
      ins (as_call (mmu_op O_sw));;
      okay ← newLabel;
      ins (as_cmp (Field32 P_cause) (Const 0));;
      ins (as_j CondE okay);;
      emit_pc (jd_pc dec);;
      term ← gets e_term;
      ins (as_jmp term);;
      ins (as_bind okay)
    else if (rs2x >? 0)
      then if (rs1x >? 0)
        then ins (as_mov (Mem32 32 rs1x (jd_imm dec)) (gpd rs2x))
        else
          ins (as_mov eax (rbp_reg_d (jd_rs1 dec)));;
          ins (as_mov (Mem32 32 0 (jd_imm dec)) (gpd rs2x))
      else
        ins (as_mov ecx (rbp_reg_d (jd_rs2 dec)));;
        if (rs1x >? 0)
        then ins (as_mov (Mem32 32 rs1x (jd_imm dec)) ecx)
        else
          ins (as_mov eax (rbp_reg_d (jd_rs1 dec)));;
          ins (as_mov (Mem32 32 0 (jd_imm dec)) ecx));;
  mret true.

Definition emit_sh (dec : jit_decode) : M bool :=
  set_term_pc (uwrap 32 (jd_pc dec +[64] inst_length (jd_inst dec)));;
  let rs2x := x86_reg (jd_rs2 dec) in let rs1x := x86_reg (jd_rs1 dec) in
  (if (jd_rs2 dec =? rv_ireg_zero)
  then if use_mmu
    then (if (rs1x >? 0)
      then ins (as_lea eax (Mem32 32 rs1x (jd_imm dec)))
      else
        ins (as_mov ecx (rbp_reg_d (jd_rs1 dec)));;
        ins (as_lea eax (Mem32 32 1 (jd_imm dec))));;
      ins (as_xor ecx ecx);;
      ins (as_call (mmu_op O_sh));;
      okay ← newLabel;
      ins (as_cmp (Field32 P_cause) (Const 0));;
      ins (as_j CondE okay);;
      emit_pc (jd_pc dec);;
      term ← gets e_term;
      ins (as_jmp term);;
      ins (as_bind okay)
    else if (rs1x >? 0)
      then ins (as_mov (Mem32 16 rs1x (jd_imm dec)) (Const 0))
      else
        ins (as_mov eax (rbp_reg_d (jd_rs1 dec)));;
        ins (as_mov (Mem32 16 0 (jd_imm dec)) (Const 0))
  else if use_mmu
    then (if (rs1x >? 0)
      then ins (as_lea eax (Mem 32 rs1x (jd_imm dec)))
      else
        ins (as_mov ecx (rbp_reg_d (jd_rs1 dec)));;
        ins (as_lea eax (Mem 32 1 (jd_imm dec))));;
      (if (rs2x >? 0)
      then ins (as_mov ecx (gpd rs2x))
      else
        ins (as_mov ecx (rbp_reg_d (jd_rs2 dec))));;
      ins (as_call (mmu_op O_sh));;
      okay ← newLabel;
      ins (as_cmp (Field32 P_cause) (Const 0));;
      ins (as_j CondE okay);;
      emit_pc (jd_pc dec);;
      term ← gets e_term;
      ins (as_jmp term);;
      ins (as_bind okay)
    else if (rs2x >? 0)
      then if (rs1x >? 0)
        then ins (as_mov (Mem32 16 rs1x (jd_imm dec)) (gpw rs2x))
        else
          ins (as_mov eax (rbp_reg_d (jd_rs1 dec)));;
          ins (as_mov (Mem32 16 0 (jd_imm dec)) (gpw rs2x))
      else
        ins (as_mov ecx (rbp_reg_d (jd_rs2 dec)));;
        if (rs1x >? 0)
        then ins (as_mov (Mem32 16 rs1x (jd_imm dec)) cx)
        else
          ins (as_mov eax (rbp_reg_d (jd_rs1 dec)));;
          ins (as_mov (Mem32 16 0 (jd_imm dec)) cx));;
  mret true.

Definition emit_sb (dec : jit_decode) : M bool :=
  set_term_pc (uwrap 32 (jd_pc dec +[64] inst_length (jd_inst dec)));;
  let rs2x := x86_reg (jd_rs2 dec) in let rs1x := x86_reg (jd_rs1 dec) in
  (if (jd_rs2 dec =? rv_ireg_zero)
  then if use_mmu
    then (if (rs1x >? 0)
      then ins (as_lea eax (Mem32 32 rs1x (jd_imm dec)))
      else
        ins (as_mov ecx (rbp_reg_d (jd_rs1 dec)));;
        ins (as_lea eax (Mem32 32 1 (jd_imm dec))));;
      ins (as_xor ecx ecx);;
      ins (as_call (mmu_op O_sb));;
      okay ← newLabel;
      ins (as_cmp (Field32 P_cause) (Const 0));;
      ins (as_j CondE okay);;
      emit_pc (jd_pc dec);;
      term ← gets e_term;
      ins (as_jmp term);;
      ins (as_bind okay)
    else if (rs1x >? 0)
      then ins (as_mov (Mem32 8 rs1x (jd_imm dec)) (Const 0))
      else
        ins (as_mov eax (rbp_reg_d (jd_rs1 dec)));;
        ins (as_mov (Mem32 8 0 (jd_imm dec)) (Const 0))
  else if use_mmu
    then (if (rs1x >? 0)
      then ins (as_lea eax (Mem 32 rs1x (jd_imm dec)))
      else
        ins (as_mov ecx (rbp_reg_d (jd_rs1 dec)));;
        ins (as_lea eax (Mem 32 1 (jd_imm dec))));;
      (if (rs2x >? 0)
      then ins (as_mov ecx (gpd rs2x))
      else
        ins (as_mov ecx (rbp_reg_d (jd_rs2 dec))));;
      ins (as_call (mmu_op O_sb));;
      okay ← newLabel;
      ins (as_cmp (Field32 P_cause) (Const 0));;
      ins (as_j CondE okay);;
      emit_pc (jd_pc dec);;
      term ← gets e_term;
      ins (as_jmp term);;
      ins (as_bind okay)
    else if (rs2x >? 0)
      then if (rs1x >? 0)
        then ins (as_mov (Mem32 8 rs1x (jd_imm dec)) (gpb_lo rs2x))
        else
          ins (as_mov eax (rbp_reg_d (jd_rs1 dec)));;
          ins (as_mov (Mem32 8 0 (jd_imm dec)) (gpb_lo rs2x))
      else
        ins (as_mov ecx (rbp_reg_d (jd_rs2 dec)));;
        if (rs1x >? 0)
        then ins (as_mov (Mem32 8 rs1x (jd_imm dec)) cl)
        else
          ins (as_mov eax (rbp_reg_d (jd_rs1 dec)));;
          ins (as_mov (Mem32 8 0 (jd_imm dec)) cl));;
  mret true.

Definition emit_lui (dec : jit_decode) : M bool :=
  set_term_pc (uwrap 32 (jd_pc dec +[64] inst_length (jd_inst dec)));;
  let rdx := x86_reg (jd_rd dec) in
  (if (jd_rd dec =? rv_ireg_zero)
  then mret tt
  else if (rdx >? 0)
    then ins (as_mov (gpd rdx) (Const (jd_imm dec)))
    else
      ins (as_mov (rbp_reg_d (jd_rd dec)) (Const (jd_imm dec))));;
  mret true.

Definition emit_jal (dec : jit_decode) : M bool :=
  set_term_pc (uwrap 32 (jd_pc dec +[64] jd_imm dec));;
  let rdx := x86_reg (jd_rd dec) in
  (if (jd_rd dec =? rv_ireg_zero)
  then mret tt
  else let link_addr := (jd_pc dec +[64] inst_length (jd_inst dec)) in
    (if (jd_rd dec =? rv_ireg_ra)
    then callstack_push link_addr
    else mret tt);;
    if (jd_rd dec =? rv_ireg_zero)
    then mret tt
    else if (rdx >? 0)
      then ins (as_mov (gpd rdx) (Const (swrap 64 link_addr)))
      else
        ins (as_mov eax (Const (swrap 64 link_addr)));;
        ins (as_mov (rbp_reg_d (jd_rd dec)) eax));;
  mret true.

Definition emit_jalr (dec : jit_decode) : M bool :=
  set_term_pc 0;;
  let rdx := x86_reg (jd_rd dec) in let rs1x := x86_reg (jd_rs1 dec) in
  size ← callstack_size;
  if (jd_rd dec =? rv_ireg_zero) && (jd_rs1 dec =? rv_ireg_ra) && (size >? 0)
  then
    link_addr ← callstack_back;
    callstack_pop;;
    etl ← create_exit_tramp (jd_pc dec);
    (if (rs1x >? 0)
    then ins (as_cmp (gpd rs1x) (Const (swrap 64 link_addr)))
    else
      ins (as_mov eax (Const (swrap 64 link_addr)));;
      ins (as_cmp (rbp_reg_d (jd_rs1 dec)) eax));;
    ins (as_j CondNE etl);;
    mret true
  else
    commit_instret;;
    let link_addr := (jd_pc dec +[64] inst_length (jd_inst dec)) in
    (if (jd_rd dec =? rv_ireg_ra)
    then callstack_push link_addr
    else mret tt);;
    (if (jd_rs1 dec =? rv_ireg_zero)
    then if (jd_imm dec =? 0)
      then ins (as_xor eax eax)
      else ins (as_mov rax (Const (jd_imm dec)))
    else if (rs1x >? 0)
      then if (jd_imm dec =? 0)
        then ins (as_mov (Field32 P_pc) (gpd rs1x))
        else
          ins (as_lea eax (Mem32 32 rs1x (jd_imm dec)));;
          ins (as_mov (Field32 P_pc) eax)
      else
        ins (as_mov eax (rbp_reg_d (jd_rs1 dec)));;
        ins (as_add eax (Const (jd_imm dec)));;
        ins (as_mov (Field32 P_pc) eax));;
    (if (jd_rd dec =? rv_ireg_zero)
    then mret tt
    else if (rdx >? 0)
      then ins (as_mov (gpd rdx) (Const (swrap 64 link_addr)))
      else
        ins (as_mov eax (Const (swrap 64 link_addr)));;
        ins (as_mov (rbp_reg_d (jd_rd dec)) eax));;
    ins (as_jmp_abs lookup_trace_fast);;
    mret false.

Definition emit_la (dec : jit_decode) : M bool :=
  set_term_pc (uwrap 32 (jd_pc dec +[64] jd_sz dec));;
  let rdx := x86_reg (jd_rd dec) in
  (if (jd_rd dec =? rv_ireg_zero)
  then mret tt
  else let addr := swrap 32 (jd_pc dec +[64] jd_imm dec) in
    if (jd_rd dec =? rv_ireg_zero)
    then mret tt
    else if (rdx >? 0)
      then ins (as_mov (gpd rdx) (Const addr))
      else
        ins (as_mov (rbp_reg_d (jd_rd dec)) (Const addr)));;
  mret true.

Definition emit_call (dec : jit_decode) : M bool :=
  set_term_pc (uwrap 32 (jd_pc dec +[64] jd_imm dec));;
  term_pc ← gets e_term_pc;
  let rdx := x86_reg (rv_ireg_ra) in let rs1x := x86_reg (jd_rd dec) in
  let link_addr := (jd_pc dec +[64] jd_sz dec) in
  callstack_push link_addr;;
  (if (jd_rd dec =? rv_ireg_ra)
  then mret tt
  else if (rs1x >? 0)
    then ins (as_mov (gpd rs1x) (Const term_pc))
    else
      ins (as_mov (rbp_reg_d (jd_rs1 dec)) (Const term_pc)));;
  (if (rdx >? 0)
  then ins (as_mov (gpd rdx) (Const (swrap 64 link_addr)))
  else
    ins (as_mov (rbp_reg_d (jd_rd dec)) (Const (swrap 64 link_addr))));;
  mret true.

Definition emit_zextw (dec : jit_decode) : M bool :=
  set_term_pc (uwrap 32 (jd_pc dec +[64] jd_sz dec));;
  let rdx := x86_reg (jd_rd dec) in let rs1x := x86_reg (jd_rs1 dec) in
  (if (jd_rd dec =? jd_rs1 dec)
  then mret tt
  else if (rdx >? 0) && (rs1x >? 0)
    then ins (as_mov (gpd rdx) (gpd rs1x))
    else if (rdx >? 0)
      then ins (as_mov (gpd rdx) (rbp_reg_d (jd_rs1 dec)))
      else if (rs1x >? 0)
        then ins (as_mov (rbp_reg_d (jd_rd dec)) (gpd rs1x))
        else
          ins (as_movzx eax (rbp_reg_d (jd_rs1 dec)));;
          ins (as_mov (rbp_reg_d (jd_rd dec)) eax));;
  mret true.

Definition emit_addiwz (dec : jit_decode) : M bool :=
  set_term_pc (uwrap 32 (jd_pc dec +[64] jd_sz dec));;
  let rdx := x86_reg (jd_rd dec) in
  (if (jd_rd dec =? rv_ireg_zero)
  then mret tt
  else if (rdx >? 0)
    then ins (as_add (gpd rdx) (Const (jd_imm dec)))
    else
      ins (as_mov eax (rbp_reg_d (jd_rd dec)));;
      ins (as_add eax (Const (jd_imm dec)));;
      ins (as_mov (rbp_reg_d (jd_rd dec)) eax));;
  mret true.

Definition emit_auipc_lw (dec : jit_decode) : M bool :=
  set_term_pc (uwrap 32 (jd_pc dec +[64] jd_sz dec));;
  let rdx := x86_reg (jd_rd dec) in
  (if (jd_rd dec =? rv_ireg_zero)
  then mret tt
  else let addr := uwrap 32 (jd_pc dec +[64] jd_imm dec) in
    if use_mmu
    then
      ins (as_mov rax (Const addr));;
      ins (as_call (mmu_op O_lw));;
      okay ← newLabel;
      ins (as_cmp (Field32 P_cause) (Const 0));;
      ins (as_j CondE okay);;
      emit_pc (jd_pc dec);;
      term ← gets e_term;
      ins (as_jmp term);;
      ins (as_bind okay);;
      if (rdx >? 0)
      then ins (as_mov (gpd rdx) eax)
      else ins (as_mov (rbp_reg_d (jd_rd dec)) eax)
    else if (rdx >? 0)
      then ins (as_mov (gpd rdx) (Abs 32 addr))
      else
        ins (as_mov eax (Abs 32 addr));;
        ins (as_mov (rbp_reg_d (jd_rd dec)) eax));;
  mret true.

(** The switch of [emit]: how many instructions are counted, and the emitter. *)
Definition emit_case (o : jop) : option (Z * (jit_decode -> M bool)) :=
  match o with
  | Rv rv_op_auipc => Some (1, emit_auipc)
  | Rv rv_op_add => Some (1, emit_add)
  | Rv rv_op_sub => Some (1, emit_sub)
  | Rv rv_op_mul => Some (1, emit_mul)
  | Rv rv_op_mulh => Some (1, emit_mulh)
  | Rv rv_op_mulhu => Some (1, emit_mulhu)
  | Rv rv_op_mulhsu => Some (1, emit_mulhsu)
  | Rv rv_op_div => Some (1, emit_div)
  | Rv rv_op_rem => Some (1, emit_rem)
  | Rv rv_op_divu => Some (1, emit_divu)
  | Rv rv_op_remu => Some (1, emit_remu)
  | Rv rv_op_slt => Some (1, emit_slt)
  | Rv rv_op_sltu => Some (1, emit_sltu)
  | Rv rv_op_and => Some (1, emit_and)
  | Rv rv_op_or => Some (1, emit_or)
  | Rv rv_op_xor => Some (1, emit_xor)
  | Rv rv_op_sll => Some (1, emit_sll)
  | Rv rv_op_srl => Some (1, emit_srl)
  | Rv rv_op_sra => Some (1, emit_sra)
  | Rv rv_op_addi => Some (1, emit_addi)
  | Rv rv_op_slti => Some (1, emit_slti)
  | Rv rv_op_sltiu => Some (1, emit_sltiu)
  | Rv rv_op_andi => Some (1, emit_andi)
  | Rv rv_op_ori => Some (1, emit_ori)
  | Rv rv_op_xori => Some (1, emit_xori)
  | Rv rv_op_slli => Some (1, emit_slli)
  | Rv rv_op_srli => Some (1, emit_srli)
  | Rv rv_op_srai => Some (1, emit_srai)
  | Rv rv_op_bne => Some (1, emit_bne)
  | Rv rv_op_beq => Some (1, emit_beq)
  | Rv rv_op_blt => Some (1, emit_blt)
  | Rv rv_op_bge => Some (1, emit_bge)
  | Rv rv_op_bltu => Some (1, emit_bltu)
  | Rv rv_op_bgeu => Some (1, emit_bgeu)
  | Rv rv_op_lw => Some (1, emit_lw)
  | Rv rv_op_lh => Some (1, emit_lh)
  | Rv rv_op_lhu => Some (1, emit_lhu)
  | Rv rv_op_lb => Some (1, emit_lb)
  | Rv rv_op_lbu => Some (1, emit_lbu)
  | Rv rv_op_sw => Some (1, emit_sw)
  | Rv rv_op_sh => Some (1, emit_sh)
  | Rv rv_op_sb => Some (1, emit_sb)
  | Rv rv_op_lui => Some (1, emit_lui)
  | Rv rv_op_jal => Some (1, emit_jal)
  | Rv rv_op_jalr => Some (1, emit_jalr)
  | Fused jit_op_la => Some (2, emit_la)
  | Fused jit_op_call => Some (2, emit_call)
  | Fused jit_op_zextw => Some (2, emit_zextw)
  | Fused jit_op_addiwz => Some (3, emit_addiwz)
  | Fused jit_op_auipc_lw => Some (2, emit_auipc_lw)
  | _ => None
  end.

(** [emit]: [false] ends the trace. *)
Definition emit (dec : jit_decode) : M bool :=
  labels ← gets e_labels;
  match labels !! jd_pc dec with
  | Some _ => mret false
  | None =>
      (if jd_brt dec
       then commit_instret;; l ← newLabel; modify (fun s => set_e_labels (<[jd_pc dec := l]> (e_labels s)) s);; ins (as_bind l)
       else mret tt);;
      match emit_case (jd_op dec) with
      | Some (n, f) => modify (fun s => set_e_instret (e_instret s + n) s);; f dec
      | None => mret false
      end
  end.

(** The labels of the trace's entry and of its end. *)
Definition begin : M unit :=
  term ← newLabel;
  modify (set_e_term term);;
  start ← newLabel;
  modify (set_e_start start);;
  ins (as_bind start).

Definition end_ : M unit :=
  pc ← gets e_term_pc;
  (if negb (pc =? 0) then emit_pc pc else mret tt);;
  term ← gets e_term;
  ins (as_bind term).

(** A trampoline sets the program counter and goes on to [next]. *)
Definition emit_tramp (next : M unit) (p : Z * Z) : M unit :=
  ins (as_bind p.2);; emit_pc p.1;; next.
Fixpoint emit_tramps (next : M unit) (l : list (Z * Z)) : M unit :=
  match l with [] => mret tt | p :: l => emit_tramp next p;; emit_tramps next l end.

(** [emit_epilog] with its trampolines. *)
Definition emit_epilog : M unit :=
  emit_epilog_body;;
  jmp_tramps ← gets e_jmp_tramp;
  emit_tramps (ins (as_jmp_abs lookup_trace_fast)) (ascending jmp_tramps);;
  exit_tramps ← gets e_exit_tramp;
  emit_tramps (term ← gets e_term; ins (as_jmp term)) (ascending exit_tramps).

End Emitters.

(** [jit_isa_rv32]: the operations a trace may contain. *)
Definition supported_ops : list jop := [
  Rv rv_op_auipc; Rv rv_op_add; Rv rv_op_sub; Rv rv_op_mul; Rv rv_op_mulh;
  Rv rv_op_mulhu; Rv rv_op_mulhsu; Rv rv_op_div; Rv rv_op_rem; Rv rv_op_divu;
  Rv rv_op_remu; Rv rv_op_slt; Rv rv_op_sltu; Rv rv_op_and; Rv rv_op_or;
  Rv rv_op_xor; Rv rv_op_sll; Rv rv_op_srl; Rv rv_op_sra; Rv rv_op_addi;
  Rv rv_op_slti; Rv rv_op_sltiu; Rv rv_op_andi; Rv rv_op_ori; Rv rv_op_xori;
  Rv rv_op_slli; Rv rv_op_srli; Rv rv_op_srai; Rv rv_op_bne; Rv rv_op_beq;
  Rv rv_op_blt; Rv rv_op_bge; Rv rv_op_bltu; Rv rv_op_bgeu; Rv rv_op_lw;
  Rv rv_op_lh; Rv rv_op_lhu; Rv rv_op_lb; Rv rv_op_lbu; Rv rv_op_sw;
  Rv rv_op_sh; Rv rv_op_sb; Rv rv_op_lui; Rv rv_op_jal; Rv rv_op_jalr;
  Fused jit_op_la; Fused jit_op_call; Fused jit_op_zextw; Fused jit_op_addiwz; Fused jit_op_auipc_lw].
