(* ===== verification/JitAlu32.v ===== *)
(** * The JIT for RV32: additions, comparisons, logic, shifts and products

    What the emitters of [jit/jit-emitter-rv32.h] append for the computational
    instructions other than quotients computes the value of the instruction set at
    32 bits, for every placement of the operands. *)

From Stdlib Require Import ZArith Lia Bool List.
From stdpp Require Import base list option gmap.
From S2P Require Import Prelude Meta Codec Isa X86 Jit JitEmit JitProofs JitMul JitEmit32.

#[local] Open Scope Z_scope.
#[local] Open Scope word_scope.

#[export] Hint Unfold emit_add emit_sub emit_mul emit_mulh emit_mulhu emit_mulhsu emit_div emit_rem emit_divu emit_remu
  emit_slt emit_sltu emit_and emit_or emit_xor emit_sll emit_srl emit_sra emit_addi emit_slti emit_sltiu emit_andi
  emit_ori emit_xori emit_slli emit_srli emit_srai emit_lui emit_auipc : emitters.
#[export] Hint Unfold emit_mv_eax_rs1 emit_mv_rd_rs1 emit_mv_rd_rs2 emit_mv_cl_rs2 emit_zero_rd : emitters.

(** ** Values *)

(** A 32-bit write of a slot that holds 32 bits. *)
Lemma slot_word (x v : Z) : in_u 32 x -> Z.shiftl (x >>> 32) 32 + v = v.
Proof. intros [H1 H2]. rewrite Z.shiftr_div_pow2, Z.div_small by lia. reflexivity. Qed.
Lemma count_word (x : Z) : uwrap 8 x mod 32 = swrap 32 x mod 32.
Proof.
  change (uwrap 8 x mod 2 ^ 5 = swrap 32 x mod 2 ^ 5). change (uwrap 5 (uwrap 8 x) = uwrap 5 (swrap 32 x)).
  rewrite <- (residue_low 5 32 (swrap 32 x)), uwrap_swrap, !residue_low by lia. reflexivity.
Qed.
Lemma positive_word (i : Z) : in_s 32 i -> (0 <? uwrap 64 i) = (0 <? uwrap 32 i).
Proof.
  intros [H1 H2]. change (2 ^ (32 - 1)) with 2147483648 in *. destruct (Z_lt_le_dec i 0).
  - rewrite <- (uwrap_add_multiple 64 i 1), <- (uwrap_add_multiple 32 i 1), !uwrap_small by (lia || split; lia). lia.
  - rewrite !(uwrap_small _ i) by (split; lia). reflexivity.
Qed.
#[export] Instance residue_land_word (a a' b b' : Z) : Residue 32 a a' -> Residue 32 b b' -> Residue 32 (a .& b) (a' .& b') | 2.
Proof. apply (uwrap_bit Z.land andb); auto using Z.land_spec. lia. Qed.
#[export] Instance residue_lor_word (a a' b b' : Z) : Residue 32 a a' -> Residue 32 b b' -> Residue 32 (a .| b) (a' .| b') | 2.
Proof. apply (uwrap_bit Z.lor orb); auto using Z.lor_spec. lia. Qed.
#[export] Instance residue_lxor_word (a a' b b' : Z) : Residue 32 a a' -> Residue 32 b b' -> Residue 32 (a .^ b) (a' .^ b') | 2.
Proof. apply (uwrap_bit Z.lxor xorb); auto using Z.lxor_spec. lia. Qed.

Ltac word_slots :=
  repeat match goal with |- context [Z.shiftl (guest_reg ?s ?r >>> 32) 32 + ?v] => rewrite (slot_word (guest_reg s r) v) by auto end;
  rewrite ?slot_word by (auto; apply uwrap_range; lia).
Ltac value32 :=
  word_slots; rewrite ?Z.lxor_nilpotent; conds; units;
  rewrite ?uwrap_swrap, ?uwrap_idemp, ?uwrap_b2z by lia;
  repeat match goal with H : forall g, in_u 32 (guest_reg ?s g) |- context [uwrap 32 (guest_reg ?s ?r)] =>
    rewrite (uwrap_small 32 (guest_reg s r)) by apply H end;
  rewrite ?count_word, ?positive_word by assumption; first [identical | value].

Section Alu32.
Context `{Jit}.
Lemma emit_addi_ok32 dec e s : word_state 32 s -> in_s 32 (jd_imm dec) -> computes_at 32 emit_addi Imm (fun a b => swrap 32 (a + b)) dec e s.
Proof. emit_ri; written; value32. Qed.
Lemma emit_slti_ok32 dec e s : word_state 32 s -> in_s 32 (jd_imm dec) -> computes_at 32 emit_slti Imm (fun a b => b2z (a <? b)) dec e s.
Proof. emit_ri; written; value32. Qed.
Lemma emit_sltiu_ok32 dec e s : word_state 32 s -> in_s 32 (jd_imm dec) -> computes_at 32 emit_sltiu Imm (fun a b => b2z (uwrap 32 a <? uwrap 32 b)) dec e s.
Proof. emit_ri; written; value32. Qed.
Lemma emit_xori_ok32 dec e s : word_state 32 s -> in_s 32 (jd_imm dec) -> computes_at 32 emit_xori Imm (fun a b => swrap 32 (a .^ b)) dec e s.
Proof. emit_ri; written; value32. Qed.
Lemma emit_ori_ok32 dec e s : word_state 32 s -> in_s 32 (jd_imm dec) -> computes_at 32 emit_ori Imm (fun a b => swrap 32 (a .| b)) dec e s.
Proof. emit_ri; written; value32. Qed.
Lemma emit_andi_ok32 dec e s : word_state 32 s -> in_s 32 (jd_imm dec) -> computes_at 32 emit_andi Imm (fun a b => swrap 32 (a .& b)) dec e s.
Proof. emit_ri; written; value32. Qed.
Lemma emit_slli_ok32 dec e s : word_state 32 s -> 0 <= jd_imm dec < 32 -> computes_at 32 emit_slli Imm (fun a b => swrap 32 (a * 2 ^ (b mod 32))) dec e s.
Proof. emit_ri; written; value32. Qed.
Lemma emit_srli_ok32 dec e s : word_state 32 s -> 0 <= jd_imm dec < 32 -> computes_at 32 emit_srli Imm (fun a b => swrap 32 (uwrap 32 a / 2 ^ (b mod 32))) dec e s.
Proof. emit_ri; written; value32. Qed.
Lemma emit_srai_ok32 dec e s : word_state 32 s -> 0 <= jd_imm dec < 32 -> computes_at 32 emit_srai Imm (fun a b => a / 2 ^ (b mod 32)) dec e s.
Proof. emit_ri; written; value32. Qed.
Lemma emit_add_ok32 dec e s : word_state 32 s -> computes_at 32 emit_add Reg (fun a b => swrap 32 (a + b)) dec e s.
Proof. emit_rr; written; value32. Qed.
Lemma emit_sub_ok32 dec e s : word_state 32 s -> computes_at 32 emit_sub Reg (fun a b => swrap 32 (a - b)) dec e s.
Proof. emit_rr; written; value32. Qed.
Lemma emit_sll_ok32 dec e s : word_state 32 s -> computes_at 32 emit_sll Reg (fun a b => swrap 32 (a * 2 ^ (b mod 32))) dec e s.
Proof. emit_rr; written; value32. Qed.
Lemma emit_slt_ok32 dec e s : word_state 32 s -> computes_at 32 emit_slt Reg (fun a b => b2z (a <? b)) dec e s.
Proof. emit_rr; written; value32. Qed.
Lemma emit_sltu_ok32 dec e s : word_state 32 s -> computes_at 32 emit_sltu Reg (fun a b => b2z (uwrap 32 a <? uwrap 32 b)) dec e s.
Proof. emit_rr; written; value32. Qed.
Lemma emit_xor_ok32 dec e s : word_state 32 s -> computes_at 32 emit_xor Reg (fun a b => swrap 32 (a .^ b)) dec e s.
Proof. emit_rr; written; value32. Qed.
Lemma emit_srl_ok32 dec e s : word_state 32 s -> computes_at 32 emit_srl Reg (fun a b => swrap 32 (uwrap 32 a / 2 ^ (b mod 32))) dec e s.
Proof. emit_rr; written; value32. Qed.
Lemma emit_sra_ok32 dec e s : word_state 32 s -> computes_at 32 emit_sra Reg (fun a b => a / 2 ^ (b mod 32)) dec e s.
Proof. emit_rr; written; value32. Qed.
Lemma emit_or_ok32 dec e s : word_state 32 s -> computes_at 32 emit_or Reg (fun a b => swrap 32 (a .| b)) dec e s.
Proof. emit_rr; written; value32. Qed.
Lemma emit_and_ok32 dec e s : word_state 32 s -> computes_at 32 emit_and Reg (fun a b => swrap 32 (a .& b)) dec e s.
Proof. emit_rr; written; value32. Qed.
Lemma emit_mul_ok32 dec e s : word_state 32 s -> computes_at 32 emit_mul Reg (fun a b => swrap 32 (a * b)) dec e s.
Proof. emit_rr; written; value32. Qed.
End Alu32.
