(* ===== verification/JitMul32.v ===== *)
(** * The JIT for RV32: high products and divisions

    The same shapes of code as for RV64, at 32 bits.  The signed quotients extend
    the dividend from the 64-bit accumulator, whose upper half is zero: they are
    exact for the dividends that are not negative. *)

From Stdlib Require Import ZArith Lia Bool List.
From stdpp Require Import base list option gmap.
From S2P Require Import Prelude Meta Codec Isa X86 Jit JitEmit JitProofs JitMul JitDiv JitDivisions JitMulhsu JitEmit32 JitAlu32.

#[local] Open Scope Z_scope.
#[local] Open Scope word_scope.

(** The word of [rdx], read back from the slot of [ra]. *)
Lemma stash_word `{Jit} (s : xstate) (x : Z) : x86_reg 1 = 2 -> (forall g, in_u 32 (guest_reg s g)) ->
  uwrap 32 (Z.shiftl x 32 + uwrap 32 (xr s 2)) = xr s 2.
Proof.
  intros E Hr. rewrite Z.shiftl_mul_pow2, Z.add_comm, uwrap_add_multiple, uwrap_idemp by lia.
  apply uwrap_small. rewrite <- (guest_pos s 1 2%positive E). apply Hr.
Qed.
Ltac values_rdx := try (apply stash_word; assumption); value32.

Section Multiply32.
Context `{Jit}.
Lemma emit_mulh_ok32 dec e s : word_state 32 s -> computes_at 32 emit_mulh Reg (fun a b => (a * b) / 2 ^ 32) dec e s.
Proof. emit_rdx; written_rdx; values_rdx. Qed.
Lemma emit_mulhu_ok32 dec e s : word_state 32 s ->
  computes_at 32 emit_mulhu Reg (fun a b => swrap 32 ((uwrap 32 a * uwrap 32 b) / 2 ^ 32)) dec e s.
Proof. emit_rdx; written_rdx; values_rdx. Qed.

Lemma emit_mulhsu_code32 (dec : jit_decode) (e : est) : jd_rd dec <> 0 -> jd_rs1 dec <> 0 -> jd_rs2 dec <> 0 ->
  code_of (emit_mulhsu dec) e = mulhsu_code 32 (e_next e) (jd_rd dec) (jd_rs1 dec) (jd_rs2 dec).
Proof. mulhsu_shape. Qed.
Lemma emit_mulhsu_none32 (dec : jit_decode) (e : est) : degenerate dec ->
  code_of (emit_mulhsu dec) e = if jd_rd dec =? 0 then [] else zero_code 32 (jd_rd dec).
Proof. zero_shape. Qed.
Lemma emit_mulhsu_ok32 (dec : jit_decode) (e : est) (s : xstate) : word_state 32 s ->
  computes_at 32 emit_mulhsu Reg (fun a b => a * uwrap 32 b / 2 ^ 32) dec e s.
Proof. intros Hs. apply mulhsu_computes; [right; reflexivity | exact Hs | apply emit_mulhsu_none32 | apply emit_mulhsu_code32]. Qed.
End Multiply32.

Section Divide32.
Context `{Jit}.
Lemma emit_div_code32 (dec : jit_decode) (e : est) : jd_rd dec <> 0 -> jd_rs1 dec <> 0 -> jd_rs2 dec <> 0 ->
  code_of (emit_div dec) e = div_code 32 32 (e_next e) (jd_rd dec) (jd_rs1 dec) (jd_rs2 dec).
Proof. shape. Qed.
Lemma emit_divu_code32 (dec : jit_decode) (e : est) : jd_rd dec <> 0 -> jd_rs1 dec <> 0 -> jd_rs2 dec <> 0 ->
  code_of (emit_divu dec) e = divu_code 32 32 (jd_rd dec) (jd_rs1 dec) (jd_rs2 dec) (e_next e).
Proof. shape. Qed.
Lemma emit_rem_code32 (dec : jit_decode) (e : est) : jd_rd dec <> 0 -> jd_rs1 dec <> 0 -> jd_rs2 dec <> 0 ->
  code_of (emit_rem dec) e = rem_code 32 32 (jd_rd dec) (jd_rs1 dec) (jd_rs2 dec) (e_next e).
Proof. shape. Qed.
Lemma emit_remu_code32 (dec : jit_decode) (e : est) : jd_rd dec <> 0 -> jd_rs1 dec <> 0 -> jd_rs2 dec <> 0 ->
  code_of (emit_remu dec) e = remu_code 32 32 (jd_rd dec) (jd_rs1 dec) (jd_rs2 dec) (e_next e).
Proof. shape. Qed.

Lemma emit_div_none32 (dec : jit_decode) (e : est) : degenerate dec ->
  code_of (emit_div dec) e = undivided 32 (jd_rd dec) (jd_rs1 dec) (jd_rs2 dec).
Proof. undivided_shape. Qed.
Lemma emit_divu_none32 (dec : jit_decode) (e : est) : degenerate dec ->
  code_of (emit_divu dec) e = undivided 32 (jd_rd dec) (jd_rs1 dec) (jd_rs2 dec).
Proof. undivided_shape. Qed.
Lemma emit_rem_none32 (dec : jit_decode) (e : est) : degenerate dec ->
  code_of (emit_rem dec) e = undivided 32 (jd_rd dec) (jd_rs1 dec) (jd_rs2 dec).
Proof. undivided_shape. Qed.
Lemma emit_remu_none32 (dec : jit_decode) (e : est) : degenerate dec ->
  code_of (emit_remu dec) e = undivided 32 (jd_rd dec) (jd_rs1 dec) (jd_rs2 dec).
Proof. undivided_shape. Qed.

(** At 32 bits the test of the divisor is exact; the divisor is not in [rdx]. *)
Lemma divisor_ok32 (dec : jit_decode) (s : xstate) : word_state 32 s -> apart (jd_rs2 dec) -> divisor_ok 32 dec s.
Proof. intros Hs Ha. split; [exact Ha |]. intros _ E. rewrite uwrap_small in E by apply (xw_range s Hs). exact E. Qed.
(** The dividend and the divisor, as the instruction set reads them. *)
Definition dividend_ok32 (dec : jit_decode) (s : xstate) : Prop :=
  dividend_ok 32 32 (swrap 32 (guest_reg s (jd_rs1 dec))) (swrap 32 (guest_reg s (jd_rs2 dec))).

Ltac division32 none code run :=
  let Hs := fresh "Hs" in let Ha := fresh "Ha" in
  intros Hs Ha; generalize (divisor_ok32 _ _ Hs Ha); revert Hs; clear Ha; division none code run.
Lemma emit_div_ok32 (dec : jit_decode) (e : est) (s : xstate) : word_state 32 s -> apart (jd_rs2 dec) -> zero_quotient_ok 32 dec s ->
  dividend_ok32 dec s -> computes_at 32 emit_div Reg (isa_div 32) dec e s.
Proof. division32 emit_div_none32 emit_div_code32 div_run. Qed.
Lemma emit_divu_ok32 (dec : jit_decode) (e : est) (s : xstate) : word_state 32 s -> apart (jd_rs2 dec) -> zero_quotient_ok 32 dec s ->
  computes_at 32 emit_divu Reg (fun a b => isa_divu 32 (uwrap 32 a) (uwrap 32 b)) dec e s.
Proof. division32 emit_divu_none32 emit_divu_code32 divu_run. Qed.
Lemma emit_rem_ok32 (dec : jit_decode) (e : est) (s : xstate) : word_state 32 s -> apart (jd_rs2 dec) -> by_register dec ->
  apart (jd_rs1 dec) -> dividend_ok32 dec s -> computes_at 32 emit_rem Reg isa_rem dec e s.
Proof. division32 emit_rem_none32 emit_rem_code32 rem_run. Qed.
Lemma emit_remu_ok32 (dec : jit_decode) (e : est) (s : xstate) : word_state 32 s -> apart (jd_rs2 dec) -> by_register dec ->
  computes_at 32 emit_remu Reg (fun a b => isa_remu 32 (uwrap 32 a) (uwrap 32 b)) dec e s.
Proof. division32 emit_remu_none32 emit_remu_code32 remu_run. Qed.
End Divide32.
