(* ===== verification/JitMem32.v ===== *)
(** * The JIT for RV32: constants, loads and stores

    As for RV64, of a processor that accesses the host's memory directly.  The
    address of an access is computed in 32 bits, as the guest computes it. *)

From Stdlib Require Import ZArith Lia Bool List.
From stdpp Require Import base list option gmap.
From S2P Require Import Prelude Meta Codec Replay Isa X86 Jit JitEmit JitProofs JitMem JitEmit32 JitAlu32.

#[local] Open Scope Z_scope.
#[local] Open Scope word_scope.

#[local] Hint Unfold emit_lw emit_lh emit_lhu emit_lb emit_lbu emit_sw emit_sh emit_sb : emitters.
#[local] Arguments read_le : simpl never.
#[local] Arguments write_le : simpl never.

Section Memory32.
Context `{Jit}.
Hypothesis Hmmu : use_mmu = false.

(** ** Constants *)

Definition const_code32 (rd v : Z) : list instr :=
  if rd =? 0 then []
  else if x86_reg rd >? 0 then [as_mov (gpd (x86_reg rd)) (Const v)]
  else [as_mov (rbp_reg_d rd) (Const v)].

Lemma const_writes32 (rd v : Z) (s : xstate) : word_state 32 s -> const_ok 32 v = true ->
  writes (run_code documented None (const_code32 rd v) s) s rd (uwrap 32 v).
Proof using.
  intros [Hr Hz] Hv. unfold const_code32.
  destination rd; use_places; run_it; [| rewrite ?Hv; run_it ..]; written; word_slots; reflexivity.
Qed.

(** ** Loads *)

Definition loads32 (emit_x : jit_decode -> M bool) (n : nat) (ext : Z -> Z) (dec : jit_decode) (e : est) (s : xstate) : Prop :=
  writes (run_code documented None (code_of (emit_x dec) e) s) s (jd_rd dec)
    (uwrap 32 (ext (read_le n (mem s) (guest_reg s (jd_rs1 dec) +[32] jd_imm dec)))).

Lemma uwrap_read_word (n : nat) (m : Z -> Z) (a : Z) : (n <= 4)%nat -> byte_memory m -> uwrap 32 (read_le n m a) = read_le n m a.
Proof using.
  intros Hn Hm. apply uwrap_small. destruct (read_le_range n m a Hm) as [H1 H2]. split; [exact H1 |].
  eapply Z.lt_le_trans; [exact H2 |]. apply Z.pow_le_mono_r; lia.
Qed.

Ltac sizes32 :=
  change (Z.to_nat (32 / 8)) with 4%nat; change (Z.to_nat (16 / 8)) with 2%nat; change (Z.to_nat (8 / 8)) with 1%nat;
  change (uwrap 32 0) with 0; word_slots.
Ltac mem_decode32 dec :=
  destruct dec as [pc inst imm op rd rs1 rs2 rs3 brt brc sz]; autounfold with emitters;
  cbn [jd_pc jd_inst jd_imm jd_rd jd_rs1 jd_rs2 fst snd] in *.
Ltac load_cases32 :=
  intros [Hr Hz] Hm; unfold loads32;
  match goal with |- context [code_of (_ ?dec) _] => mem_decode32 dec end;
  match goal with |- context [writes _ _ ?rd (uwrap 32 _)] =>
    match goal with |- context [guest_reg _ ?rs1 +[32] _] => destination rd; [| operand_of rs1 rd ..] end
  end;
  rewrite ?Hmmu; different; use_places; run_it; written; values; sizes32;
  rewrite ?uwrap_swrap, ?uwrap_idemp, ?uwrap_read_word by (lia || assumption); reflexivity.
Lemma emit_lw_ok32 dec e s : word_state 32 s -> byte_memory (mem s) -> loads32 emit_lw 4 (swrap 32) dec e s.
Proof using Hmmu. load_cases32. Qed.
Lemma emit_lh_ok32 dec e s : word_state 32 s -> byte_memory (mem s) -> loads32 emit_lh 2 (swrap 16) dec e s.
Proof using Hmmu. load_cases32. Qed.
Lemma emit_lhu_ok32 dec e s : word_state 32 s -> byte_memory (mem s) -> loads32 emit_lhu 2 (fun v => v) dec e s.
Proof using Hmmu. load_cases32. Qed.
Lemma emit_lb_ok32 dec e s : word_state 32 s -> byte_memory (mem s) -> loads32 emit_lb 1 (swrap 8) dec e s.
Proof using Hmmu. load_cases32. Qed.
Lemma emit_lbu_ok32 dec e s : word_state 32 s -> byte_memory (mem s) -> loads32 emit_lbu 1 (fun v => v) dec e s.
Proof using Hmmu. load_cases32. Qed.

(** ** Stores *)

Definition stores32 (emit_x : jit_decode -> M bool) (n : nat) (dec : jit_decode) (e : est) (s : xstate) : Prop :=
  exists s', run_code documented None (code_of (emit_x dec) e) s = Some (s', Through)
    /\ (forall g, guest_reg s' g = guest_reg s g) /\ pfield s' = pfield s
    /\ mem s' = write_le n (mem s) (guest_reg s (jd_rs1 dec) +[32] jd_imm dec) (uwrap (8 * Z.of_nat n) (guest_reg s (jd_rs2 dec))).

Ltac store_cases32 :=
  intros [Hr Hz]; unfold stores32;
  match goal with |- context [code_of (_ ?dec) _] => mem_decode32 dec end;
  match goal with |- context [uwrap _ (guest_reg _ ?rs2)] =>
    match goal with |- context [guest_reg _ ?rs1 +[32] _] =>
      (destruct (Z.eq_dec rs2 0) as [-> |]; [| place_of rs2]); (destruct (Z.eq_dec rs1 0) as [-> |]; [| place_of rs1]) end
  end;
  rewrite ?Hmmu; different; use_places; run_it; constants; run_it;
  eexists; (split; [reflexivity |]);
  (split; [apply scratch_guest; [intros; cbn [xr set_mem]; lookups; reflexivity | reflexivity] | split; [reflexivity |]]);
  change (8 * Z.of_nat 4) with 32; cbn [mem set_mem set_xr]; lookups; values; sizes32; rewrite ?uwrap_idemp, ?residue_low by lia; reflexivity.
Lemma emit_sw_ok32 dec e s : word_state 32 s -> stores32 emit_sw 4 dec e s.
Proof using Hmmu. store_cases32. Qed.
Lemma emit_sh_ok32 dec e s : word_state 32 s -> stores32 emit_sh 2 dec e s.
Proof using Hmmu. store_cases32. Qed.
Lemma emit_sb_ok32 dec e s : word_state 32 s -> stores32 emit_sb 1 dec e s.
Proof using Hmmu. store_cases32. Qed.
End Memory32.
