(* ===== verification/JitCorrect32.v ===== *)
(** * The JIT for RV32: one instruction

    The same simulation as for RV64, at 32 bits: for every integer computational
    instruction, [lui], [auipc], and the loads and stores, what the emitter of
    [jit/jit-emitter-rv32.h] appends takes a state that holds the guest's to one
    that holds what the interpreter of RV32 leaves. *)

From Stdlib Require Import ZArith Lia Bool List.
From stdpp Require Import base list option gmap.
From S2P Require Import Prelude Alu Meta Codec Ckpt Replay Interp Isa Mmu X86 Jit JitEmit JitProofs.
From S2P Require Import JitMem JitDiv JitDivisions JitCorrect JitEmit32 JitAlu32 JitMul32 JitMem32.

#[local] Open Scope Z_scope.
#[local] Open Scope word_scope.

(** The operands for which an emitter's code is what the instruction asks for: shift
    counts the interpreter defines; a division whose code does not overwrite its
    divisor and whose dividend, if signed, is extended correctly; a constant that can
    be encoded.  [a] and [b] are the sources. *)
Definition exact32 `{Jit} (o : rv_op) (d : jit_decode) (a b : Z) : Prop :=
  let quotient := jd_rs1 d = 0 -> jd_rs2 d = 0 \/ uwrap 32 b <> 0 in
  let dividend := dividend_ok 32 32 (swrap 32 a) (swrap 32 b) in
  match o with
  | rv_op_slli | rv_op_srli | rv_op_srai => 0 <= jd_imm d < 32
  | rv_op_sll | rv_op_srl | rv_op_sra => b mod 128 < 32
  | rv_op_div => apart (jd_rs2 d) /\ quotient /\ dividend
  | rv_op_divu => apart (jd_rs2 d) /\ quotient
  | rv_op_rem => apart (jd_rs2 d) /\ by_register d /\ apart (jd_rs1 d) /\ dividend
  | rv_op_remu => apart (jd_rs2 d) /\ by_register d
  | rv_op_auipc => const_ok 32 (swrap 64 (jd_pc d +[64] jd_imm d)) = true
  | _ => True
  end.
Definition exact32_at `{Jit} (o : rv_op) (d : jit_decode) (h : hart) : Prop :=
  exact32 o d (uwrap 32 (get_reg h (jd_rs1 d))) (uwrap 32 (get_reg h (jd_rs2 d))).

Create HintDb emitted32 discriminated.
#[export] Hint Constants Opaque : emitted32.
#[export] Hint Resolve emit_addi_ok32 emit_slti_ok32 emit_sltiu_ok32 emit_xori_ok32 emit_ori_ok32 emit_andi_ok32 emit_slli_ok32
  emit_srli_ok32 emit_srai_ok32 emit_add_ok32 emit_sub_ok32 emit_sll_ok32 emit_slt_ok32 emit_sltu_ok32 emit_xor_ok32 emit_srl_ok32
  emit_sra_ok32 emit_or_ok32 emit_and_ok32 emit_mul_ok32 emit_mulh_ok32 emit_mulhu_ok32 emit_mulhsu_ok32
  emit_div_ok32 emit_divu_ok32 emit_rem_ok32 emit_remu_ok32
  emit_lb_ok32 emit_lbu_ok32 emit_lh_ok32 emit_lhu_ok32 emit_lw_ok32 emit_sb_ok32 emit_sh_ok32 emit_sw_ok32 : emitted32.
#[export] Hint Extern 1 (zero_quotient_ok _ _ _) => assumption : emitted32.
#[export] Hint Extern 1 (dividend_ok32 _ _) => assumption : emitted32.

Section Simulation32.
Context `{Jit} (exec_fp : decode -> hart -> Z -> io Z) (fl : flags).

(** ** Computational instructions *)

Lemma alu_emitted32 (o : rv_op) (sel : operand2) (f : Z -> Z -> Z) (dec : jit_decode) (e : est) (s : xstate) :
  isa_alu fl 32 o = Some (sel, f) -> word_state 32 s -> jit_wf dec -> exact32 o dec (guest_reg s (jd_rs1 dec)) (guest_reg s (jd_rs2 dec)) ->
  exists emit_x, emit_case (Rv o) = Some (1, emit_x) /\ computes_at 32 emit_x sel f dec e s.
Proof.
  intros Eo Hs [_ _ _ Hi _] Hx. unfold isa_alu in Eo.
  destruct o; cbn in Eo; try discriminate Eo;
    (match type of Eo with (if ?c then _ else _) = _ => destruct c; [| discriminate Eo] end);
    injection Eo as <- <-; (eexists; split; [reflexivity |]); cbn [exact32] in Hx;
    repeat match type of Hx with _ /\ _ => let Hd := fresh "Hd" in destruct Hx as [Hd Hx] end;
    eauto 4 using conj with emitted32 nocore.
Qed.

Lemma exact32_shift (o : rv_op) (d : jit_decode) (h : hart) (sel : operand2) (f : Z -> Z -> Z) :
  isa_alu fl 32 o = Some (sel, f) -> exact32_at o d h -> shift_ok 32 o (operand2_val sel h (decode_of o d)).
Proof.
  unfold isa_alu. intros Eo Hx.
  destruct o; try exact I; cbn in Eo; try discriminate Eo;
    (match type of Eo with (if ?c then _ else _) = _ => destruct c; [| discriminate Eo] end);
    injection Eo as <- <-; try exact Hx;
    unfold exact32_at in Hx; cbn in *; rewrite <- (Z.mod_mod_divide _ (2 ^ 32) 128) by (exists (2 ^ 25); reflexivity); exact Hx.
Qed.

Lemma alu_simulates32 (o : rv_op) (sel : operand2) (f : Z -> Z -> Z) (d : jit_decode) (h : hart) (M : memory)
    (e : est) (s : xstate) :
  isa_alu fl 32 o = Some (sel, f) -> jit_wf d -> matches_at 32 h M s -> exact32_at o d h ->
  exists emit_x, emit_case (Rv o) = Some (1, emit_x) /\ simulates_at 32 exec_fp fl emit_x o d h M e s.
Proof.
  intros Eo Hd Hm Hx. pose proof Hd as [Hrd H1 H2 Hi Hpc].
  destruct (alu_emitted32 o sel f d e s Eo) as (emit_x & Ec & Hc);
    [apply Hm | exact Hd | rewrite (mt_regs _ _ _ Hm _ H1), (mt_regs _ _ _ Hm _ H2); exact Hx |].
  exists emit_x. split; [exact Ec |].
  apply (computes_simulates exec_fp fl emit_x o sel f); try assumption. apply (exact32_shift o d h sel f Eo Hx).
Qed.

(** ** Constants *)

Lemma lui_code32 (d : jit_decode) (e : est) : code_of (emit_lui d) e = const_code32 (jd_rd d) (jd_imm d).
Proof. unfold emit_lui, const_code32, rv_ireg_zero. destruct (jd_rd d =? 0), (x86_reg (jd_rd d) >? 0); reflexivity. Qed.
Lemma auipc_code32 (d : jit_decode) (e : est) :
  code_of (emit_auipc d) e = const_code32 (jd_rd d) (swrap 64 (jd_pc d +[64] jd_imm d)).
Proof. unfold emit_auipc, const_code32, rv_ireg_zero. destruct (jd_rd d =? 0), (x86_reg (jd_rd d) >? 0); reflexivity. Qed.

Lemma lui_simulates32 (d : jit_decode) (h : hart) (M : memory) (e : est) (s : xstate) :
  rvi fl = true -> jit_wf d -> matches_at 32 h M s -> pc h = jd_pc d -> simulates_at 32 exec_fp fl emit_lui rv_op_lui d h M e s.
Proof.
  intros Hf Hd Hm Hpc. apply (const_simulates exec_fp fl _ _ (jd_imm d)); auto; [apply Hd |].
  rewrite lui_code32. apply const_writes32; [apply Hm | apply const_ok_imm; [auto | apply Hd]].
Qed.
Lemma auipc_simulates32 (d : jit_decode) (h : hart) (M : memory) (e : est) (s : xstate) :
  rvi fl = true -> jit_wf d -> matches_at 32 h M s -> pc h = jd_pc d -> exact32_at rv_op_auipc d h ->
  simulates_at 32 exec_fp fl emit_auipc rv_op_auipc d h M e s.
Proof.
  intros Hf Hd Hm Hpc Hx. apply (const_simulates exec_fp fl _ _ (swrap 32 (jd_pc d + jd_imm d))); auto.
  - cbn. rewrite Hpc. reflexivity.
  - apply swrap_range. lia.
  - assert (E : uwrap 32 (swrap 32 (jd_pc d + jd_imm d)) = uwrap 32 (swrap 64 (jd_pc d +[64] jd_imm d)))
      by (apply (residues 32 _ _ (jd_pc d + jd_imm d) (jd_pc d + jd_imm d)); [typeclasses eauto | typeclasses eauto | reflexivity]).
    rewrite auipc_code32, E. apply const_writes32; [apply Hm | exact Hx].
Qed.

(** ** Loads and stores *)

Hypothesis Hmmu : use_mmu = false.

Lemma matches_address32 (d : jit_decode) (h : hart) (M : memory) (s : xstate) : matches_at 32 h M s -> is_reg (jd_rs1 d) ->
  guest_reg s (jd_rs1 d) +[32] jd_imm d = get_reg h (jd_rs1 d) +[32] jd_imm d.
Proof using. intros Hm Hr. rewrite (mt_regs _ _ _ Hm _ Hr). apply uwrap_add_l. Qed.
Lemma word_address (a : Z) : uwrap 64 (uwrap 32 a) = uwrap 32 a.
Proof using. apply uwrap_small. pose proof (uwrap_range 32 a ltac:(lia)) as [H1 H2]. split; [exact H1 |]. change (2 ^ 32) with 4294967296 in H2. change (2 ^ 64) with 18446744073709551616. lia. Qed.
Lemma word_bound (a n : Z) : n <= 4 -> uwrap 32 a + n <= 2 ^ 64.
Proof using. intros Hn. pose proof (uwrap_range 32 a ltac:(lia)) as [H1 H2]. change (2 ^ 32) with 4294967296 in H2. change (2 ^ 64) with 18446744073709551616. lia. Qed.

Ltac by_load32 n :=
  eapply (load_simulates exec_fp fl _ _ n);
  [ reflexivity | assumption .. | reflexivity | rewrite word_address; eapply matches_address32; [eassumption | apply jw_rs1; assumption]
  | apply word_bound; lia
  | intros; first [apply signed_word; lia | eapply unsigned_word; [| eassumption]; lia]
  | match goal with |- writes (run_code _ _ (code_of (?f ?d) ?e) ?s) _ _ (uwrap _ (?ext _)) => change (loads32 f n ext d e s) | _ => idtac end;
    solve [eauto 2 with emitted32 nocore] ].
Ltac by_store32 n :=
  eapply (store_simulates exec_fp fl _ _ n);
  [ reflexivity | assumption .. | lia | reflexivity | rewrite word_address; eapply matches_address32; [eassumption | apply jw_rs1; assumption]
  | apply word_bound; lia
  | match goal with |- exists s', run_code _ _ (code_of (?f ?d) ?e) ?s = _ /\ _ => change (stores32 f n d e s) end;
    solve [eauto 2 with emitted32 nocore] ].

Lemma memory_simulates32 (o : rv_op) (m : mem_inst) (d : jit_decode) (h : hart) (M : memory) (e : est) (s : xstate) :
  isa_mem 32 o = Some m -> match m with MLoad _ _ | MStore _ => True | _ => False end ->
  rvi fl = true -> jit_wf d -> matches_at 32 h M s ->
  exists emit_x, emit_case (Rv o) = Some (1, emit_x) /\ simulates_at 32 exec_fp fl emit_x o d h M e s.
Proof using Hmmu.
  intros Eo Hk Hf Hd Hm. pose proof (mt_host _ _ _ Hm) as Hs. pose proof (matches_bytes _ _ _ Hm) as Hb.
  destruct o; try discriminate Eo; cbn in Eo; injection Eo as <-; try (destruct Hk; fail); (eexists; split; [reflexivity |]).
  all: first [by_load32 1%nat | by_load32 2%nat | by_load32 4%nat | by_store32 1%nat | by_store32 2%nat | by_store32 4%nat].
Qed.

(** ** All of them *)

(** The instructions of RV32 that go on to the next. *)
Definition straight32 (o : rv_op) : bool :=
  match o with
  | rv_op_lui | rv_op_auipc => true
  | _ =>
      match isa_mem 32 o with
      | Some (MLoad _ _) | Some (MStore _) => true
      | _ => match isa_alu fl 32 o with Some _ => true | None => false end
      end
  end.

Lemma straight_simulates32 (o : rv_op) (d : jit_decode) (h : hart) (M : memory) (e : est) (s : xstate) :
  straight32 o = true -> rvi fl = true -> jit_wf d -> matches_at 32 h M s -> pc h = jd_pc d -> exact32_at o d h ->
  exists emit_x, emit_case (Rv o) = Some (1, emit_x) /\ simulates_at 32 exec_fp fl emit_x o d h M e s.
Proof using Hmmu.
  intros Ho Hf Hd Hm Hpc Hx.
  assert (Ho' : o = rv_op_lui \/ o = rv_op_auipc
    \/ (exists m, isa_mem 32 o = Some m /\ match m with MLoad _ _ | MStore _ => True | _ => False end)
    \/ exists sel f, isa_alu fl 32 o = Some (sel, f)).
  { unfold straight32 in Ho. destruct (isa_mem 32 o) as [[]|] eqn:Em;
      try (right; right; left; eexists; split; [reflexivity | exact I]);
      (destruct (isa_alu fl 32 o) as [[sel f]|] eqn:Ea; [eauto 6 |]);
      destruct o; auto; discriminate Ho. }
  destruct Ho' as [-> | [-> | [(m & Em & Hk) | (sel & f & Ea)]]].
  - eexists. split; [reflexivity |]. apply lui_simulates32; assumption.
  - eexists. split; [reflexivity |]. apply auipc_simulates32; assumption.
  - eapply memory_simulates32; eassumption.
  - eapply alu_simulates32; eassumption.
Qed.
End Simulation32.
