(* ===== verification/JitLabels.v ===== *)
(** * The emitter's state: labels, trampolines, and what an emitter may change

    Labels are fresh: an instruction's code binds only labels made for it, and the
    maps from program counters to labels only grow.  A jump out of the code of one
    instruction therefore passes over the code of those emitted after it. *)

From Stdlib Require Import ZArith Lia Bool List.
From stdpp Require Import base list option gmap.
From S2P Require Import Prelude Meta Codec Interp Isa Mmu X86 Jit JitEmit JitProofs JitCorrect.

#[local] Open Scope Z_scope.
#[local] Open Scope word_scope.

(** ** Code *)

(** The labels a piece of code binds. *)
Fixpoint binds (c : list instr) : list Z :=
  match c with [] => [] | as_bind l :: c => l :: binds c | _ :: c => binds c end.

Lemma binds_app (c1 c2 : list instr) : binds (c1 ++ c2) = binds c1 ++ binds c2.
Proof. induction c1 as [| i c1 IH]; [reflexivity |]. destruct i; cbn; rewrite ?IH; reflexivity. Qed.

Lemma run_code_app (step : instr -> xstate -> option xstate) (c2 c1 : list instr) : forall (seek : option Z) (s : xstate),
  run_code step seek (c1 ++ c2) s =
  match run_code step seek c1 s with
  | Some (s', Through) => run_code step None c2 s'
  | Some (s', To_label l) => run_code step (Some l) c2 s'
  | r => r
  end.
Proof.
  induction c1 as [| i c1 IH]; intros seek s; [destruct seek; reflexivity |].
  cbn [app run_code]. destruct seek as [l |]; [destruct i; apply IH |].
  destruct i; try apply IH; try reflexivity;
    try (match goal with |- context [flags_ ?s] => destruct (flags_ s) as [f |]; [cbn [mbind option_bind] | reflexivity] end;
         match goal with |- context [holds_cond ?c ?f] => destruct (holds_cond c f) end; (apply IH || reflexivity));
    (match goal with |- context [step ?i ?s] => destruct (step i s) as [s' |]; [cbn [mbind option_bind]; apply IH | reflexivity] end).
Qed.

(** Looking for a label that is not bound. *)
Lemma seek_absent (step : instr -> xstate -> option xstate) (l : Z) (c : list instr) (s : xstate) :
  l ∉ binds c -> run_code step (Some l) c s = Some (s, To_label l).
Proof.
  induction c as [| i c IH]; intros Hl; [reflexivity |]. cbn [run_code].
  destruct i; cbn [binds] in Hl; try apply IH, Hl.
  apply not_elem_of_cons in Hl as [Hne Hl]. rewrite (proj2 (Z.eqb_neq _ _) Hne). apply IH, Hl.
Qed.

(** ** The order on states *)

Record grows (e e' : est) : Prop := {
  gr_term : e_term e' = e_term e;
  gr_next : e_next e <= e_next e';
  gr_labels : e_labels e ⊆ e_labels e';
  gr_jmp : e_jmp_tramp e ⊆ e_jmp_tramp e';
  gr_exit : e_exit_tramp e ⊆ e_exit_tramp e' }.
#[export] Instance grows_preorder : PreOrder grows.
Proof.
  split.
  - intros e. split; reflexivity || lia.
  - intros e1 e2 e3 [H0 H1 H2 H3 H4] [G0 G1 G2 G3 G4]. split; [congruence | lia | etrans; eassumption ..].
Qed.

(** What a label stands for: an instruction of the trace, or a trampoline. *)
Inductive kind : Type := In_trace | In_jump | In_exit.
Definition target_of (e : est) (k : kind) (p : Z) : option Z :=
  match k with In_trace => e_labels e !! p | In_jump => e_jmp_tramp e !! p | In_exit => e_exit_tramp e !! p end.

(** Every label in use has been made after that of the trace's end, and stands for
    one thing. *)
Record est_wf (e : est) : Prop := {
  ew_term : e_term e < e_next e;
  ew_range : forall k p l, target_of e k p = Some l -> e_term e < l < e_next e;
  ew_one : forall k k' p p' l, target_of e k p = Some l -> target_of e k' p' = Some l -> k = k' /\ p = p' }.

Lemma ew_labels (e : est) : est_wf e -> forall p l, e_labels e !! p = Some l -> l < e_next e.
Proof. intros He p l E. apply (ew_range e He In_trace p l E). Qed.
Lemma ew_jmp (e : est) : est_wf e -> forall p l, e_jmp_tramp e !! p = Some l -> l < e_next e.
Proof. intros He p l E. apply (ew_range e He In_jump p l E). Qed.
Lemma ew_exit (e : est) : est_wf e -> forall p l, e_exit_tramp e !! p = Some l -> l < e_next e.
Proof. intros He p l E. apply (ew_range e He In_exit p l E). Qed.

Lemma est_wf_same (e e' : est) : est_wf e -> e_term e' = e_term e -> e_next e <= e_next e' ->
  (forall k p, target_of e' k p = target_of e k p) -> est_wf e'.
Proof.
  intros [Ht Hr H1] Et En Em. split.
  - lia.
  - intros k p l E. rewrite Em in E. specialize (Hr k p l E). lia.
  - intros k k' p p' l E E'. rewrite Em in E, E'. exact (H1 k k' p p' l E E').
Qed.
(** A new label for [p]. *)
Lemma est_wf_add (k : kind) (p : Z) (e e' : est) : est_wf e -> e_term e' = e_term e -> e_next e' = e_next e + 1 ->
  (forall k' p', target_of e' k' p' = Some (e_next e) \/ target_of e' k' p' = target_of e k' p') ->
  (forall k' p', target_of e' k' p' = Some (e_next e) -> k' = k /\ p' = p) -> est_wf e'.
Proof.
  intros [Ht Hr H1] Et En Em Hk. split.
  - lia.
  - intros k' p' l E. destruct (Em k' p') as [E' | E']; rewrite E' in E; [injection E as <-; lia | specialize (Hr k' p' l E); lia].
  - intros k1 k2 p1 p2 l E1 E2.
    destruct (Z.eq_dec l (e_next e)) as [-> | Hne].
    + destruct (Hk k1 p1 E1) as [-> ->], (Hk k2 p2 E2) as [-> ->]. auto.
    + destruct (Em k1 p1) as [E | E]; [congruence | rewrite E in E1]. destruct (Em k2 p2) as [E' | E']; [congruence | rewrite E' in E2].
      exact (H1 _ _ _ _ _ E1 E2).
Qed.

Lemma est_wf_new : est_wf est_new.
Proof. split; [cbn; lia | intros [] p l E; discriminate E | intros [] k' p p' l E; discriminate E]. Qed.

(** The cases of a map with one label more. *)
Ltac adding :=
  let k := fresh "k" in let p := fresh "p" in
  intros k p; destruct k; cbn [target_of e_labels e_jmp_tramp e_exit_tramp set_e_labels set_e_jmp_tramp set_e_exit_tramp set_e_next];
  try match goal with |- context [<[?q := _]> _ !! p] =>
    destruct (decide (p = q)) as [-> |]; [rewrite lookup_insert_eq | rewrite lookup_insert_ne by auto] end;
  try (left; reflexivity); try (right; reflexivity); try (intros _; split; reflexivity);
  let E := fresh "E" in intros E; exfalso;
  match goal with He : est_wf ?e |- _ =>
    first [apply (ew_labels e He) in E | apply (ew_jmp e He) in E | apply (ew_exit e He) in E]; lia end.

(** ** Emitters that keep to their labels *)

(** From a state whose next label is at least [hi], the labels bound are among
    those from [lo] on. *)
Definition state_of {A} (m : M A) (e : est) : est := snd (m e).
Definition scoped_at {A} (lo : Z) (m : M A) (e : est) : Prop :=
  grows e (state_of m e) /\ est_wf (state_of m e) /\ Forall (fun l => lo <= l < e_next (state_of m e)) (binds (code_of m e)).
Definition scoped {A} (lo hi : Z) (m : M A) : Prop := forall e, est_wf e -> hi <= e_next e -> scoped_at lo m e.

Definition result_of {A} (m : M A) (e : est) : A := fst (fst (m e)).
Lemma code_bind {A B} (m : M A) (k : A -> M B) (e : est) :
  code_of (m ≫= k) e = code_of m e ++ code_of (k (result_of m e)) (state_of m e).
Proof.
  unfold code_of, state_of, result_of, mbind, M_bind. destruct (m e) as [[a c1] e1]. cbn.
  destruct (k a e1) as [[b c2] e2]. reflexivity.
Qed.
Lemma state_bind {A B} (m : M A) (k : A -> M B) (e : est) :
  state_of (m ≫= k) e = state_of (k (result_of m e)) (state_of m e).
Proof.
  unfold state_of, result_of, mbind, M_bind. destruct (m e) as [[a c1] e1]. cbn.
  destruct (k a e1) as [[b c2] e2]. reflexivity.
Qed.
Lemma scoped_at_bind {A B} (lo : Z) (m : M A) (k : A -> M B) (e : est) :
  scoped_at lo m e -> scoped_at lo (k (result_of m e)) (state_of m e) -> scoped_at lo (m ≫= k) e.
Proof.
  intros (G1 & W1 & B1) (G2 & W2 & B2). unfold scoped_at. rewrite code_bind, state_bind.
  split; [etrans; eassumption | split; [exact W2 |]]. rewrite binds_app. apply Forall_app. split; [| exact B2].
  eapply Forall_impl; [exact B1 |]. intros l Hl. cbn in *. destruct G2. lia.
Qed.

Lemma scoped_ret {A} (lo hi : Z) (a : A) : scoped lo hi (mret a : M A).
Proof. intros e He Hn. cbn. split; [reflexivity | split; [exact He | constructor]]. Qed.
Lemma scoped_gets {A} (lo hi : Z) (f : est -> A) : scoped lo hi (gets f).
Proof. intros e He Hn. cbn. split; [reflexivity | split; [exact He | constructor]]. Qed.
Lemma scoped_bind {A B} (lo hi : Z) (m : M A) (k : A -> M B) :
  scoped lo hi m -> (forall a, scoped lo hi (k a)) -> scoped lo hi (m ≫= k).
Proof.
  intros Hm Hk e He Hn. destruct (Hm e He Hn) as (G1 & W1 & B1).
  apply scoped_at_bind; [exact (conj G1 (conj W1 B1)) | apply Hk; [exact W1 | destruct G1; lia]].
Qed.
Lemma scoped_seq {A B} (lo hi : Z) (m : M A) (k : M B) : scoped lo hi m -> scoped lo hi k -> scoped lo hi (m;; k).
Proof. intros Hm Hk. apply scoped_bind; auto. Qed.
Lemma scoped_label {B} (lo hi : Z) (k : Z -> M B) : lo <= hi ->
  (forall l, hi <= l -> scoped lo (l + 1) (k l)) -> scoped lo hi (newLabel ≫= k).
Proof.
  intros Hlh Hk e He Hn.
  assert (W : est_wf (state_of newLabel e)) by (apply (est_wf_same e); [exact He | reflexivity | cbn; lia | intros []; reflexivity]).
  apply scoped_at_bind; [| apply Hk; [exact Hn | exact W | cbn; lia]].
  split; [split; cbn; reflexivity || lia | split; [exact W | apply Forall_nil_2]].
Qed.
Lemma scoped_bound (lo hi l : Z) : lo <= l < hi -> scoped lo hi (ins (as_bind l)).
Proof.
  intros Hl e He Hn. split; [reflexivity | split; [exact He |]]. cbn [code_of ins fst snd binds].
  apply Forall_cons_2; [cbn; lia | apply Forall_nil_2].
Qed.
Lemma scoped_ins (lo hi : Z) (i : instr) : (forall l, i <> as_bind l) -> scoped lo hi (ins i).
Proof.
  intros Hi e He Hn. split; [reflexivity | split; [exact He |]]. cbn [code_of ins fst snd].
  destruct i; cbn [binds]; try apply Forall_nil_2. exfalso. eapply Hi. reflexivity.
Qed.

(** Changes to the state that leave the labels. *)
Definition silent (f : est -> est) : Prop := forall e,
  e_term (f e) = e_term e /\ e_next (f e) = e_next e /\ e_labels (f e) = e_labels e /\ e_jmp_tramp (f e) = e_jmp_tramp e /\ e_exit_tramp (f e) = e_exit_tramp e.
Lemma scoped_modify (lo hi : Z) (f : est -> est) : silent f -> scoped lo hi (modify f).
Proof.
  intros Hf e He Hn. unfold scoped_at, state_of, modify. cbn [snd]. destruct (Hf e) as (E0 & E1 & E2 & E3 & E4). split; [| split; [| constructor]].
  - split; rewrite ?E0, ?E1, ?E2, ?E3, ?E4; reflexivity || lia.
  - apply (est_wf_same e); [exact He | exact E0 | lia | intros []; cbn; rewrite ?E2, ?E3, ?E4; reflexivity].
Qed.

(** ** The helpers *)

Section Scopes.
Context `{Jit}.
Context (lo hi : Z).

Lemma scoped_commit : scoped lo hi commit_instret.
Proof.
  unfold commit_instret. apply scoped_bind; [apply scoped_gets | intros n].
  destruct (_ && _); [| apply scoped_ret].
  apply scoped_seq; [apply scoped_ins; discriminate | apply scoped_modify; intros e; auto].
Qed.
Lemma scoped_term_pc (p : Z) : scoped lo hi (set_term_pc p).
Proof. apply scoped_modify. intros e. auto. Qed.
Lemma scoped_push (a : Z) : scoped lo hi (callstack_push a).
Proof. apply scoped_modify. intros e. auto. Qed.
Lemma scoped_pop : scoped lo hi callstack_pop.
Proof. apply scoped_modify. intros e. auto. Qed.
Lemma scoped_fixup (p l : Z) : scoped lo hi (push_fixup p l).
Proof. apply scoped_modify. intros e. auto. Qed.

Lemma insert_grows (p l : Z) (m : gmap Z Z) : m !! p = None -> m ⊆ <[p := l]> m.
Proof. apply insert_subseteq. Qed.

(** A trampoline's label is made once. *)
Lemma scoped_jump_tramp (p : Z) : scoped lo hi (create_jump_tramp p).
Proof.
  intros e He Hn. unfold scoped_at, state_of, code_of, create_jump_tramp, mbind, M_bind, gets. cbn.
  destruct (e_jmp_tramp e !! p) eqn:E; cbn; [split; [reflexivity | split; [exact He | constructor]] |].
  split; [| split; [| constructor]].
  - split; cbn; [reflexivity | lia | reflexivity | apply insert_grows, E | reflexivity].
  - apply (est_wf_add In_jump p e); [exact He | reflexivity | reflexivity | |]; adding.
Qed.
Lemma scoped_exit_tramp (p : Z) : scoped lo hi (create_exit_tramp p).
Proof.
  intros e He Hn. unfold scoped_at, state_of, code_of, create_exit_tramp, mbind, M_bind, gets. cbn.
  destruct (e_exit_tramp e !! p) eqn:E; cbn; [split; [reflexivity | split; [exact He | constructor]] |].
  split; [| split; [| constructor]].
  - split; cbn; [reflexivity | lia | reflexivity | reflexivity | apply insert_grows, E].
  - apply (est_wf_add In_exit p e); [exact He | reflexivity | reflexivity | |]; adding.
Qed.
End Scopes.

(** Walk through an emitter, by its head. *)
Ltac scoping :=
  lazymatch goal with
  | |- scoped _ _ (let x := ?v in _) => cbv zeta; scoping
  | |- scoped _ _ (mret _) => apply scoped_ret
  | |- scoped _ _ (gets _) => apply scoped_gets
  | |- scoped _ _ callstack_size => apply scoped_gets
  | |- scoped _ _ callstack_back => apply scoped_gets
  | |- scoped _ _ (set_term_pc _) => apply scoped_term_pc
  | |- scoped _ _ (callstack_push _) => apply scoped_push
  | |- scoped _ _ callstack_pop => apply scoped_pop
  | |- scoped _ _ (push_fixup _ _) => apply scoped_fixup
  | |- scoped _ _ commit_instret => apply scoped_commit
  | |- scoped _ _ (create_jump_tramp _) => apply scoped_jump_tramp
  | |- scoped _ _ (create_exit_tramp _) => apply scoped_exit_tramp
  | |- scoped _ _ (ins (as_bind _)) => apply scoped_bound; lia
  | |- scoped _ _ (ins _) => apply scoped_ins; discriminate
  | |- scoped _ _ (newLabel ≫= _) => apply scoped_label; [lia | let l := fresh "l" in let Hl := fresh "Hl" in intros l Hl; scoping]
  | |- scoped _ _ (_ ≫= _) => apply scoped_bind; [scoping | intros; scoping]
  | |- scoped _ _ (if ?c then _ else _) => destruct c; scoping
  | |- scoped _ _ (match ?o with Some _ => _ | None => _ end) => destruct o; scoping
  | |- scoped _ _ emit_epilog_body => idtac
  | |- _ => progress autounfold with emit_helpers; scoping
  end.

Create HintDb emit_helpers.
#[export] Hint Unfold emit_pc emit_mv_rax_rs1 emit_mv_eax_rs1 emit_mv_rd_rs1 emit_mv_rd_rs1_32 emit_mv_rd_rs2 emit_mv_rd_rs1_sx_32
  emit_mv_rd_rs2_sx_32 emit_mv_cl_rs2 emit_sx_32_rd emit_zero_rd emit_cmp emit_jump_fixup emit_branch_fixup : emit_helpers.

(** Unfold an emitter. *)
Ltac emitter_body :=
  cbv beta delta [ emit_auipc emit_add emit_sub emit_mul emit_mulh emit_mulhu emit_mulhsu emit_div emit_rem
    emit_divu emit_remu emit_slt emit_sltu emit_and emit_or emit_xor emit_sll emit_srl emit_sra emit_addw emit_subw
    emit_mulw emit_divw emit_remw emit_divuw emit_remuw emit_sllw emit_srlw emit_sraw emit_addi emit_slti emit_sltiu
    emit_andi emit_ori emit_xori emit_slli emit_srli emit_srai emit_addiw emit_slliw emit_srliw emit_sraiw emit_bne
    emit_beq emit_blt emit_bge emit_bltu emit_bgeu emit_ld emit_lw emit_lwu emit_lh emit_lhu emit_lb emit_lbu
    emit_sd emit_sw emit_sh emit_sb emit_lui emit_jal emit_jalr emit_la emit_call emit_zextw emit_addiwz
    emit_rorwi_rr emit_rorwi_lr emit_rordi_rr emit_rordi_lr emit_auipc_lw emit_auipc_ld emit_branch].

Section Emitters.
Context `{Jit}.
Lemma emit_case_scoped (o : jop) (n : Z) (f : jit_decode -> M bool) (d : jit_decode) (lo : Z) :
  emit_case o = Some (n, f) -> scoped lo lo (f d).
Proof.
  intros E. destruct o as [o | o]; destruct o; try discriminate E; injection E as <- <-.
  all: emitter_body.
  all: scoping.
Qed.

(** The label of a branch target. *)
Lemma scoped_mark (lo p : Z) (e : est) : est_wf e -> lo <= e_next e -> e_labels e !! p = None ->
  scoped_at lo (l ← newLabel; modify (fun s => set_e_labels (<[p := l]> (e_labels s)) s);; ins (as_bind l)) e.
Proof.
  intros He Hn Hp.
  unfold scoped_at, state_of, code_of, mbind, M_bind, newLabel, modify, ins. cbn. split; [| split].
  - split; cbn; first [lia | reflexivity | apply insert_grows, Hp].
  - apply (est_wf_add In_trace p e); [exact He | reflexivity | reflexivity | |]; adding.
  - apply Forall_cons_2; [lia | apply Forall_nil_2].
Qed.
Lemma commit_labels (e : est) : e_labels (state_of commit_instret e) = e_labels e.
Proof. unfold commit_instret, state_of, mbind, M_bind, gets. cbn. destruct (_ && _); reflexivity. Qed.

(** The code of one instruction of a trace. *)
Lemma emit_scoped (d : jit_decode) (lo : Z) : scoped lo lo (emit d).
Proof.
  intros e He Hn. unfold emit. apply scoped_at_bind; [apply (scoped_gets lo lo); assumption |].
  cbn [result_of state_of gets fst snd].
  destruct (e_labels e !! jd_pc d) as [l |] eqn:El; [apply (scoped_ret lo lo); assumption |].
  assert (Hrest : scoped lo lo (match emit_case (jd_op d) with
    | Some (n, f) => modify (fun s => set_e_instret (e_instret s + n) s);; f d
    | None => mret false
    end)).
  { destruct (emit_case (jd_op d)) as [[n f] |] eqn:Ec; [| apply scoped_ret].
    apply scoped_seq; [apply scoped_modify; intros e1; auto | exact (emit_case_scoped _ n f d lo Ec)]. }
  apply scoped_at_bind.
  - destruct (jd_brt d); [| apply (scoped_ret lo lo); assumption].
    pose proof (scoped_commit lo lo e He Hn) as Hc.
    apply scoped_at_bind; [exact Hc | apply scoped_mark; [apply Hc | destruct Hc as [[] _]; lia | rewrite commit_labels; exact El]].
  - match goal with |- scoped_at _ _ (state_of ?m e) => assert (Hm : scoped_at lo m e) end; [| apply Hrest; [apply Hm | destruct Hm as [[] _]; lia]].
    destruct (jd_brt d); [| apply (scoped_ret lo lo); assumption].
    pose proof (scoped_commit lo lo e He Hn) as Hc.
    apply scoped_at_bind; [exact Hc | apply scoped_mark; [apply Hc | destruct Hc as [[] _]; lia | rewrite commit_labels; exact El]].
Qed.
End Emitters.

(** ** Whole traces *)

Section Trace.
Context `{Jit}.

(** The loop over the trace buffer. *)
Fixpoint emit_all (ds : list jit_decode) : M unit :=
  match ds with [] => mret tt | d :: ds => emit d;; emit_all ds end.

Lemma emit_all_scoped (ds : list jit_decode) (lo : Z) : scoped lo lo (emit_all ds).
Proof. induction ds as [| d ds IH]; [apply scoped_ret |]. apply scoped_seq; [apply emit_scoped | exact IH]. Qed.

(** A jump to a label made before the code leaves it. *)
Lemma seek_past (step : instr -> xstate -> option xstate) (ds : list jit_decode) (e : est) (l : Z) (s : xstate) :
  est_wf e -> l < e_next e -> run_code step (Some l) (code_of (emit_all ds) e) s = Some (s, To_label l).
Proof.
  intros He Hl. apply seek_absent. destruct (emit_all_scoped ds (e_next e) e He ltac:(lia)) as (_ & _ & Hb).
  intros Hin. rewrite Forall_forall in Hb. specialize (Hb l Hin). lia.
Qed.
End Trace.

(** ** Only a branch target gets a label *)

Section Kept.
Context `{Jit}.
Definition labels_kept {A} (m : M A) : Prop := forall e, e_labels (state_of m e) = e_labels e.
Lemma labels_kept_bind {A B} (m : M A) (k : A -> M B) : labels_kept m -> (forall a, labels_kept (k a)) -> labels_kept (m ≫= k).
Proof. intros Hm Hk e. rewrite state_bind, Hk. apply Hm. Qed.
Lemma labels_kept_jump_tramp (p : Z) : labels_kept (create_jump_tramp p).
Proof. intros e. unfold create_jump_tramp, state_of, mbind, M_bind, gets. cbn. destruct (_ !! _); reflexivity. Qed.
Lemma labels_kept_exit_tramp (p : Z) : labels_kept (create_exit_tramp p).
Proof. intros e. unfold create_exit_tramp, state_of, mbind, M_bind, gets. cbn. destruct (_ !! _); reflexivity. Qed.

Ltac keeping :=
  lazymatch goal with
  | |- labels_kept (let x := ?v in _) => cbv zeta; keeping
  | |- labels_kept commit_instret => exact commit_labels
  | |- labels_kept (create_jump_tramp _) => apply labels_kept_jump_tramp
  | |- labels_kept (create_exit_tramp _) => apply labels_kept_exit_tramp
  | |- labels_kept (_ ≫= _) => apply labels_kept_bind; [keeping | intros; keeping]
  | |- labels_kept (if ?c then _ else _) => destruct c; keeping
  | |- labels_kept (match ?o with Some _ => _ | None => _ end) => destruct o; keeping
  | |- _ => first [intros ?; reflexivity | progress autounfold with emit_helpers; keeping]
  end.
Lemma emit_case_labels (o : jop) (n : Z) (f : jit_decode -> M bool) (d : jit_decode) :
  emit_case o = Some (n, f) -> labels_kept (f d).
Proof.
  intros E. destruct o as [o | o]; destruct o; try discriminate E; injection E as <- <-.
  all: emitter_body.
  all: keeping.
Qed.

(** [emit], in parts. *)
Definition mark (d : jit_decode) : M unit :=
  if jd_brt d
  then commit_instret;; l ← newLabel; modify (fun s => set_e_labels (<[jd_pc d := l]> (e_labels s)) s);; ins (as_bind l)
  else mret tt.
Definition count_and_emit (n : Z) (f : jit_decode -> M bool) (d : jit_decode) : M bool :=
  modify (fun s => set_e_instret (e_instret s + n) s);; f d.
Lemma emit_parts (d : jit_decode) (n : Z) (f : jit_decode -> M bool) (e : est) :
  e_labels e !! jd_pc d = None -> emit_case (jd_op d) = Some (n, f) ->
  let e1 := state_of (mark d) e in let e2 := set_e_instret (e_instret e1 + n) e1 in
  code_of (emit d) e = code_of (mark d) e ++ code_of (f d) e2 /\ state_of (emit d) e = state_of (f d) e2.
Proof.
  intros El Ec e1 e2. unfold emit. rewrite code_bind, state_bind. cbn [code_of state_of result_of gets fst snd app].
  rewrite El, Ec, code_bind, state_bind. split; [| rewrite state_bind; reflexivity].
  unfold mark. f_equal. rewrite code_bind. reflexivity.
Qed.
Lemma mark_labels (d : jit_decode) (p : Z) (e : est) : p <> jd_pc d -> e_labels (state_of (mark d) e) !! p = e_labels e !! p.
Proof.
  intros Hp. unfold mark. destruct (jd_brt d); [| reflexivity]. rewrite !state_bind. cbn.
  rewrite lookup_insert_ne by auto. rewrite commit_labels. reflexivity.
Qed.
Lemma emit_labels (d : jit_decode) (n : Z) (f : jit_decode -> M bool) (p : Z) (e : est) :
  emit_case (jd_op d) = Some (n, f) -> p <> jd_pc d -> e_labels (state_of (emit d) e) !! p = e_labels e !! p.
Proof.
  intros Ec Hp. destruct (e_labels e !! jd_pc d) as [l |] eqn:El.
  - unfold emit. rewrite state_bind. cbn [state_of result_of gets fst snd]. rewrite El. reflexivity.
  - destruct (emit_parts d n f e El Ec) as [_ ->]. rewrite (emit_case_labels _ n f d Ec). cbn. apply mark_labels, Hp.
Qed.
End Kept.

(** ** Emitters that only set the end of the trace *)

(** All that changes is where the trace ends and which labels have been made. *)
Definition plain (p : Z) (m : M bool) : Prop := forall e, exists n, state_of m e = set_e_term_pc p (set_e_next n e).
Definition quiet {A} (m : M A) : Prop := forall e, exists n, state_of m e = set_e_next n e.
Lemma quiet_ret {A} (a : A) : quiet (mret a).
Proof. intros e. exists (e_next e). destruct e; reflexivity. Qed.
Lemma quiet_gets {A} (f : est -> A) : quiet (gets f).
Proof. intros e. exists (e_next e). destruct e; reflexivity. Qed.
Lemma quiet_ins (i : instr) : quiet (ins i).
Proof. intros e. exists (e_next e). destruct e; reflexivity. Qed.
Lemma quiet_label : quiet newLabel.
Proof. intros e. exists (e_next e + 1). reflexivity. Qed.
Lemma quiet_bind {A B} (m : M A) (k : A -> M B) : quiet m -> (forall a, quiet (k a)) -> quiet (m ≫= k).
Proof.
  intros Hm Hk e. destruct (Hm e) as [n En]. destruct (Hk (result_of m e) (state_of m e)) as [n' En'].
  exists n'. rewrite state_bind, En', En. reflexivity.
Qed.
Lemma plain_seq (p : Z) (k : M bool) : quiet k -> plain p (set_term_pc p;; k).
Proof. intros Hk e. rewrite state_bind. destruct (Hk (set_e_term_pc p e)) as [n En]. exists n. cbn. rewrite En. reflexivity. Qed.

Ltac quieting :=
  lazymatch goal with
  | |- quiet (let x := ?v in _) => cbv zeta; quieting
  | |- quiet (mret _) => apply quiet_ret
  | |- quiet (gets _) => apply quiet_gets
  | |- quiet (ins _) => apply quiet_ins
  | |- quiet newLabel => apply quiet_label
  | |- quiet (_ ≫= _) => apply quiet_bind; [quieting | intros; quieting]
  | |- quiet (if ?c then _ else _) => destruct c; quieting
  | |- _ => progress autounfold with emit_helpers; quieting
  end.

Section Straight.
Context `{Jit}.

(** What the instructions that go on to the next leave the emitter in. *)
Lemma straight_plain (fl : flags) (o : rv_op) (n : Z) (f : jit_decode -> M bool) (d : jit_decode) :
  straight fl o = true -> emit_case (Rv o) = Some (n, f) -> plain (jd_pc d +[64] inst_length (jd_inst d)) (f d).
Proof.
  intros Ho E. destruct o; try discriminate E; injection E as <- <-; try (unfold straight in Ho; cbn in Ho; discriminate Ho).
  all: clear Ho; emitter_body; apply plain_seq; quieting.
Qed.
End Straight.
