(* ===== verification/JitFused.v ===== *)
(** * Fused instructions: what they mean, and what is emitted for them

    [jit/jit-fusion.h] replaces groups of instructions by one pseudo-instruction of
    [jit/jit-decode.h].  A pseudo-instruction does to the hart what its group does
    ([fused_step]); what the emitter appends for it does the same, for the operands
    for which the emitter is exact. *)

From Stdlib Require Import ZArith Lia Bool List.
From stdpp Require Import base list option gmap.
From S2P Require Import Prelude Alu Meta Codec Ckpt Replay Interp Isa Mmu X86 Jit JitEmit JitProofs JitMem JitCorrect JitLabels.

#[local] Open Scope Z_scope.
#[local] Open Scope word_scope.

(** ** The meaning of a pseudo-instruction *)

(** The program counter behind the group. *)
Definition end_pc (d : jit_decode) : Z := jd_pc d +[64] jd_sz d.
(** The target of [la] and of the pc-relative loads. *)
Definition la_addr (d : jit_decode) : Z := jd_pc d +[64] jd_imm d.

(** A [w]-bit right rotation, for [0 < n < w]. *)
Definition rotated (w x n : Z) : Z := swrap w (uwrap w x / 2 ^ n + x * 2 ^ (w - n)).
Definition shifted_right (w x n : Z) : Z := swrap w (uwrap w x / 2 ^ n).
Definition shifted_left (w x n : Z) : Z := swrap w (x * 2 ^ (w - n)).

(** [rs2] names the register that keeps one of the halves of a rotation.  The
    pseudo-instruction of a call through another register than [ra] does not say
    what that register is left with. *)
Definition fused_step (o : jit_op) (d : jit_decode) (h : hart) (M : memory) : option (hart * memory) :=
  let a := get_reg h (jd_rs1 d) in
  let go v h := Some (set_pc (end_pc d) (put_reg (jd_rd d) v h), M) in
  match o with
  | jit_op_la => go (swrap 64 (la_addr d)) h
  | jit_op_call =>
      if jd_rd d =? rv_ireg_ra then Some (set_pc (uwrap 64 (2 * ((jd_pc d + jd_imm d) / 2))) (put_reg rv_ireg_ra (swrap 64 (end_pc d)) h), M)
      else None
  | jit_op_zextw => go (uwrap 32 a) h
  | jit_op_addiwz => go (uwrap 32 (get_reg h (jd_rd d) + jd_imm d)) h
  | jit_op_rorwi_rr => go (rotated 32 a (jd_imm d)) (put_reg (jd_rs2 d) (shifted_right 32 a (jd_imm d)) h)
  | jit_op_rorwi_lr => go (rotated 32 a (jd_imm d)) (put_reg (jd_rs2 d) (shifted_left 32 a (jd_imm d)) h)
  | jit_op_rordi_rr => go (rotated 64 a (jd_imm d)) (put_reg (jd_rs2 d) (shifted_right 64 a (jd_imm d)) h)
  | jit_op_rordi_lr => go (rotated 64 a (jd_imm d)) (put_reg (jd_rs2 d) (shifted_left 64 a (jd_imm d)) h)
  | jit_op_auipc_lw => go (swrap 32 (mem_read 4 M (la_addr d))) h
  | jit_op_auipc_ld => go (swrap 64 (mem_read 8 M (la_addr d))) h
  end.

(** The operands for which the emitted code is that. *)
Definition fused_exact `{Jit} (o : jit_op) (d : jit_decode) : Prop :=
  let rotation w := 0 < jd_imm d < w /\ jd_rd d <> 0 /\ jd_rs2 d <> 0 /\ jd_rd d <> jd_rs2 d in
  let aliased := jd_rd d = jd_rs1 d \/ jd_rs2 d = jd_rs1 d in
  let reads n := la_addr d + n <= 2 ^ 64 /\ (la_addr d < 2 ^ 31 \/ 0xffffffff < la_addr d) in
  match o with
  | jit_op_la => True
  | jit_op_call => jd_rd d = rv_ireg_ra /\ jd_imm d mod 2 = 0 /\ jd_sz d mod 2 = 0
  | jit_op_zextw => jd_rd d <> 0
  | jit_op_addiwz => x86_reg (jd_rd d) <= 0
  | jit_op_rorwi_rr => rotation 32 /\ (aliased \/ 0 < x86_reg (jd_rs2 d))
  | jit_op_rorwi_lr => rotation 32
  | jit_op_rordi_rr => rotation 64 /\ (aliased \/ x86_reg (jd_rs2 d) <= 0)
  | jit_op_rordi_lr => rotation 64
  | jit_op_auipc_lw => reads 4
  | jit_op_auipc_ld => reads 8
  end.

#[local] Hint Unfold emit_la emit_call emit_zextw emit_addiwz emit_rorwi_rr emit_rorwi_lr emit_rordi_rr emit_rordi_lr
  emit_auipc_lw emit_auipc_ld : emitters.
#[local] Arguments read_le : simpl never.

(** ** The code *)

Section Code.
Context `{Jit}.
Hypothesis Hmmu : use_mmu = false.

(** The run [r] ends with [v] in [rd] and [v2] in [rd2]. *)
Definition writes_both (r : option (xstate * exit_)) (s : xstate) (rd v rd2 v2 : Z) : Prop :=
  exists s', r = Some (s', Through)
    /\ (forall g, guest_reg s' g = if g =? rd then v else if g =? rd2 then v2 else guest_reg s g)
    /\ mem s' = mem s /\ pfield s' = pfield s.
Lemma writes_both_intro (s s' : xstate) (rd v rd2 v2 : Z) : rd <> rd2 ->
  mem s' = mem s -> pfield s' = pfield s -> guest_reg s' rd = v -> guest_reg s' rd2 = v2 ->
  (forall q, q <> 1%positive -> x86_reg rd <> Z.pos q -> x86_reg rd2 <> Z.pos q -> xr s' (Z.pos q) = xr s (Z.pos q)) ->
  (forall g, g <> rd -> g <> rd2 -> slot s' g = slot s g) ->
  writes_both (Some (s', Through)) s rd v rd2 v2.
Proof using.
  intros Hn Hm Hf H1 H2 Hx Hs. exists s'. split; [reflexivity |]. split; [| auto]. intros g.
  destruct (Z.eqb_spec g rd) as [-> | N1]; [exact H1 |]. destruct (Z.eqb_spec g rd2) as [-> | N2]; [exact H2 |].
  destruct (place g) as [(q & E & Hq) | [E | [E _]]].
  - rewrite !(guest_pos _ _ _ E). apply Hx; [exact Hq | intros E'; apply N1 | intros E'; apply N2]; apply x86_reg_inj; lia || congruence.
  - rewrite !(guest_neg _ _ E). apply Hs; assumption.
  - rewrite !(guest_zero _ _ E). apply Hs; assumption.
Qed.

Ltac read_guest :=
  lazymatch goal with
  | E : x86_reg ?r = Z.pos ?q |- guest_reg _ ?r = _ => rewrite (guest_pos _ r q E)
  | E : x86_reg ?r = -1 |- guest_reg _ ?r = _ => rewrite (guest_neg _ r E)
  end; lookups; values.
Ltac written_both :=
  apply writes_both_intro;
  [ assumption | reflexivity | reflexivity | read_guest | read_guest
  | let i := fresh "i" in let A := fresh "A" in let B := fresh "B" in let C := fresh "C" in intros i A B C; lookups; reflexivity
  | let g := fresh "g" in let A := fresh "A" in let B := fresh "B" in intros g A B; lookups; reflexivity ].
Ltac fused_decode dec :=
  destruct dec as [pc inst imm op rd rs1 rs2 rs3 brt brc sz]; autounfold with emitters;
  unfold emit_mv_eax_rs1, emit_mv_rax_rs1, emit_mv_rd_rs1, emit_mv_rd_rs1_sx_32, emit_sx_32_rd;
  cbn [jd_pc jd_inst jd_imm jd_rd jd_rs1 jd_rs2 jd_sz fst snd] in *.

Lemma count_mod_small (w n : Z) : 0 < n < w -> n mod w = n.
Proof using. intros Hn. apply Z.mod_small. lia. Qed.

Lemma rotate_value (w x n : Z) : 0 < n < w -> uwrap w (rotate_right w (uwrap w x) n) = uwrap w (uwrap w x / 2 ^ n + x * 2 ^ (w - n)).
Proof using.
  intros Hn. unfold rotate_right. rewrite <- uwrap_add_r, <- (uwrap_add_r w _ (x * _)). do 2 f_equal.
  transitivity (uwrap w (uwrap w x * 2 ^ (w - n))); [| rewrite uwrap_mul_l; reflexivity].
  set (a := uwrap w x). pose proof (Z.div_mod a (2 ^ n) ltac:(pose proof (pow2_pos n); lia)) as Ha.
  replace (a * 2 ^ (w - n)) with (a mod 2 ^ n * 2 ^ (w - n) + (a / 2 ^ n) * 2 ^ w); [symmetry; apply uwrap_add_multiple; lia |].
  rewrite Ha at 3. rewrite Z.mul_add_distr_r. replace (2 ^ w) with (2 ^ n * 2 ^ (w - n)) by (rewrite <- Z.pow_add_r by lia; f_equal; lia). ring.
Qed.

(** Both results of a rotation. *)
Definition rotates (emit_x : jit_decode -> M bool) (w : Z) (half : Z -> Z -> Z -> Z) (d : jit_decode) (e : est) (s : xstate) : Prop :=
  writes_both (run_code documented None (code_of (emit_x d) e) s) s
    (jd_rd d) (uwrap 64 (rotated w (guest_reg s (jd_rs1 d)) (jd_imm d)))
    (jd_rs2 d) (uwrap 64 (half w (guest_reg s (jd_rs1 d)) (jd_imm d))).

Ltac three_registers rd rs1 rs2 :=
  (destruct (Z.eq_dec rs1 rd) as [-> |]; [place_of rd; place_of rs2 | destruct (Z.eq_dec rs1 rs2) as [-> |]; [place_of rd; place_of rs2 |
    (destruct (Z.eq_dec rs1 0) as [-> |]; [| place_of rs1]); place_of rd; place_of rs2]]).
Lemma rotate_word (w x n : Z) : 0 < n < w -> swrap w (rotate_right w (uwrap w x) n) = rotated w x n.
Proof using. intros Hn. apply swrap_uwrap_inj, rotate_value, Hn. Qed.
Lemma rotate_small (w x n : Z) : 0 < n < w -> in_u w x -> uwrap w (rotate_right w x n) = uwrap w (rotated w x n).
Proof using. intros Hn Hx. unfold rotated. rewrite uwrap_swrap, <- (rotate_value w x n Hn), (uwrap_small w x Hx). reflexivity. Qed.
Ltac rotation_value :=
  rewrite ?count_mod_small, ?(residue_low 32 64), ?uwrap_idemp, ?swrap_uwrap, ?uwrap_swrap by lia;
  first [ rewrite rotate_word by lia; reflexivity | rewrite rotate_small by (lia || auto); reflexivity
    | unfold shifted_right, shifted_left; rewrite ?swrap_uwrap, ?uwrap_swrap, ?uwrap_idemp; small_terms;
      first [ reflexivity | rewrite ?uwrap_mul_l; reflexivity | f_equal; apply swrap_uwrap_inj; rewrite uwrap_mul_l; reflexivity | idtac ]].
Ltac rotation_cases :=
  intros [Hr Hz] Hx; unfold fused_exact in Hx; unfold rotates;
  match goal with |- context [code_of (_ ?d) _] => fused_decode d end;
  match goal with |- writes_both _ _ ?rd _ ?rs2 (uwrap 64 (_ _ (guest_reg _ ?rs1) _)) =>
    match type of Hx with
    | _ /\ (_ \/ _) => destruct Hx as [(Hn & H1 & H2 & H3) Hp]
    | _ => destruct Hx as (Hn & H1 & H2 & H3)
    end;
    three_registers rd rs1 rs2 end;
  try (match goal with Hp : (_ \/ _) \/ _ |- _ => exfalso; destruct Hp as [[Hp | Hp] | Hp]; congruence || lia end);
  different; use_places; cbn [orb]; run_it; constants; run_it; written_both; rotation_value.
Lemma emit_rorwi_rr_ok (d : jit_decode) (e : est) (s : xstate) : xstate_wf s -> fused_exact jit_op_rorwi_rr d ->
  rotates emit_rorwi_rr 32 shifted_right d e s.
Proof using. rotation_cases. Qed.
Lemma emit_rorwi_lr_ok (d : jit_decode) (e : est) (s : xstate) : xstate_wf s -> fused_exact jit_op_rorwi_lr d ->
  rotates emit_rorwi_lr 32 shifted_left d e s.
Proof using. rotation_cases. Qed.
Lemma emit_rordi_rr_ok (d : jit_decode) (e : est) (s : xstate) : xstate_wf s -> fused_exact jit_op_rordi_rr d ->
  rotates emit_rordi_rr 64 shifted_right d e s.
Proof using. rotation_cases. Qed.
Lemma emit_rordi_lr_ok (d : jit_decode) (e : est) (s : xstate) : xstate_wf s -> fused_exact jit_op_rordi_lr d ->
  rotates emit_rordi_lr 64 shifted_left d e s.
Proof using. rotation_cases. Qed.

Lemma la_code (d : jit_decode) (e : est) : code_of (emit_la d) e = link_code (jd_rd d) (swrap 64 (la_addr d)).
Proof using.
  unfold emit_la, link_code, rv_ireg_zero. cbv zeta. destruct (Z.eqb_spec (jd_rd d) 0); [reflexivity |].
  destruct (x86_reg (jd_rd d) >? 0); reflexivity.
Qed.
Lemma call_code (d : jit_decode) (e : est) : jd_rd d = rv_ireg_ra ->
  code_of (emit_call d) e = link_code rv_ireg_ra (swrap 64 (end_pc d))
  /\ state_of (emit_call d) e = set_e_callstack (end_pc d :: e_callstack e) (set_e_term_pc (la_addr d) e).
Proof using.
  intros E. unfold emit_call, link_code, rv_ireg_zero. cbv zeta. rewrite E. cbn [rv_ireg_ra Z.eqb Pos.eqb].
  unfold code_of, state_of, mbind, M_bind, rv_ireg_ra. cbn. destruct (x86_reg 1 >? 0); split; reflexivity.
Qed.

Lemma uwrap_low (x : Z) : uwrap 64 (uwrap 32 x) = uwrap 32 x.
Proof using. apply uwrap_small. pose proof (uwrap_range 32 x ltac:(lia)) as [H1 H2]. split; [exact H1 |]. cbn in *. lia. Qed.

(** One result. *)
Definition leaves_in_rd (emit_x : jit_decode -> M bool) (v : Z) (d : jit_decode) (e : est) (s : xstate) : Prop :=
  writes (run_code documented None (code_of (emit_x d) e) s) s (jd_rd d) (uwrap 64 v).

Lemma emit_zextw_ok (d : jit_decode) (e : est) (s : xstate) : xstate_wf s -> fused_exact jit_op_zextw d ->
  leaves_in_rd emit_zextw (uwrap 32 (guest_reg s (jd_rs1 d))) d e s.
Proof using.
  intros [Hr Hz] Hx. unfold fused_exact in Hx. unfold leaves_in_rd. fused_decode d.
  destination rd; [contradiction | operand_of rs1 rd | operand_of rs1 rd]; different; use_places; run_it; written;
    rewrite ?uwrap_idemp, ?uwrap_low; reflexivity.
Qed.
Lemma emit_addiwz_ok (d : jit_decode) (e : est) (s : xstate) : xstate_wf s -> in_s 32 (jd_imm d) -> fused_exact jit_op_addiwz d ->
  leaves_in_rd emit_addiwz (uwrap 32 (guest_reg s (jd_rd d) + jd_imm d)) d e s.
Proof using.
  intros [Hr Hz] Hi Hx. unfold fused_exact in Hx. unfold leaves_in_rd. fused_decode d.
  destination rd; [| rewrite E in Hx; lia |]; different; use_places; run_it; constants; run_it; written.
  rewrite ?uwrap_idemp, uwrap_add_l, uwrap_add_r. reflexivity.
Qed.
(** The address is an absolute one where it can be encoded. *)
Ltac sizes := change (Z.to_nat (64 / 8)) with 8%nat; change (Z.to_nat (32 / 8)) with 4%nat.
Ltac pc_load d :=
  let Hr := fresh "Hr" in let Hz := fresh "Hz" in let Hm := fresh "Hm" in let Hx := fresh "Hx" in
  intros [Hr Hz] Hm Hx; unfold fused_exact in Hx; unfold leaves_in_rd;
  pose proof (uwrap_range 64 (jd_pc d + jd_imm d) ltac:(lia)) as Ha;
  pose proof (swrap_range 64 (la_addr d) ltac:(lia)) as Hs;
  assert (Hc : const64_ok (swrap 64 (la_addr d)) = true) by (unfold const64_ok, in_s in *; change (64 - 1) with 63 in *; lia);
  unfold la_addr in *; fused_decode d;
  match goal with |- context [writes _ _ ?rd _] => destination rd end; rewrite ?Hmmu; use_places;
  try (match goal with |- context [?a <=? 0xffffffff] => destruct (Z.leb_spec a 0xffffffff);
    [assert (Hlt : (a <? 2 ^ 31) = true) by (apply Z.ltb_lt; lia) |] end);
  run_it; repeat match goal with E : _ = true |- _ => progress rewrite E end; run_it; written; sizes;
  rewrite ?Z.add_0_r, ?uwrap_swrap, ?uwrap_idemp, ?swrap_uwrap, ?uwrap_swrap, ?uwrap_read_le by (lia || assumption); reflexivity.
Lemma emit_auipc_lw_ok (d : jit_decode) (e : est) (s : xstate) :
  xstate_wf s -> byte_memory (mem s) -> fused_exact jit_op_auipc_lw d ->
  leaves_in_rd emit_auipc_lw (swrap 32 (read_le 4 (mem s) (la_addr d))) d e s.
Proof using Hmmu. pc_load d. Qed.
Lemma emit_auipc_ld_ok (d : jit_decode) (e : est) (s : xstate) :
  xstate_wf s -> byte_memory (mem s) -> fused_exact jit_op_auipc_ld d ->
  leaves_in_rd emit_auipc_ld (swrap 64 (read_le 8 (mem s) (la_addr d))) d e s.
Proof using Hmmu. pc_load d. Qed.
End Code.

(** ** What is emitted does what the group does *)

(** The instructions of the group. *)
Definition fused_size (o : jit_op) : Z :=
  match o with
  | jit_op_addiwz | jit_op_rorwi_rr | jit_op_rorwi_lr | jit_op_rordi_rr | jit_op_rordi_lr => 3
  | _ => 2
  end.

Section Simulation.
Context `{Jit}.
Hypothesis Hmmu : use_mmu = false.

Lemma matches_both (h : hart) (M : memory) (s : xstate) (rd v rd2 v2 : Z) (r : option (xstate * exit_)) :
  matches h M s -> is_reg rd -> is_reg rd2 -> in_s 64 v -> in_s 64 v2 -> rd <> 0 -> rd2 <> 0 -> rd <> rd2 ->
  writes_both r s rd (uwrap 64 v) rd2 (uwrap 64 v2) ->
  exists s', r = Some (s', Through) /\ matches (put_reg rd v (put_reg rd2 v2 h)) M s' /\ pfield s' = pfield s.
Proof using.
  intros Hm Hrd Hrd2 Hv Hv2 N1 N2 N3 (s' & -> & Hg & Hmem & Hf). exists s'. split; [reflexivity | split; [| exact Hf]].
  destruct (mt_host _ _ _ Hm) as [Hr H0].
  assert (Hh2 : hart_wf 64 (put_reg rd2 v2 h)) by (apply put_reg_wf; [apply Hm | assumption | assumption]).
  split.
  - apply put_reg_wf; assumption.
  - split.
    + intros g. rewrite Hg. destruct (g =? rd); [apply uwrap_range; lia |]. destruct (g =? rd2); [apply uwrap_range; lia | apply Hr].
    + rewrite Hg, !(proj2 (Z.eqb_neq 0 _)) by auto. exact H0.
  - intros g Hgr. rewrite Hg, (get_put_reg 64), (get_put_reg 64) by (assumption || apply Hm).
    rewrite (proj2 (Z.eqb_neq rd 0)), (proj2 (Z.eqb_neq rd2 0)) by assumption. cbn [negb]. rewrite !andb_true_r.
    destruct (g =? rd); [reflexivity |]. destruct (g =? rd2); [reflexivity | apply (mt_regs _ _ _ Hm g Hgr)].
  - rewrite Hmem. apply Hm.
  - apply Hm.
Qed.

(** The guest's registers and the host's give the same words. *)
Lemma rotated_guest (h : hart) (M : memory) (s : xstate) (g w n : Z) : matches h M s -> is_reg g -> 0 < n < w -> w = 32 \/ w = 64 ->
  rotated w (guest_reg s g) n = rotated w (get_reg h g) n
  /\ shifted_right w (guest_reg s g) n = shifted_right w (get_reg h g) n
  /\ shifted_left w (guest_reg s g) n = shifted_left w (get_reg h g) n.
Proof using.
  intros Hm Hg Hn Hw. rewrite (mt_regs _ _ _ Hm g Hg). set (x := get_reg h g).
  assert (Hu : uwrap w (uwrap 64 x) = uwrap w x) by (apply residue_low; lia).
  assert (Hl : uwrap w (uwrap 64 x * 2 ^ (w - n)) = uwrap w (x * 2 ^ (w - n))) by (rewrite <- uwrap_mul_l, Hu, uwrap_mul_l; reflexivity).
  unfold rotated, shifted_right, shifted_left. rewrite Hu. split; [| split; [reflexivity | apply swrap_uwrap_inj, Hl]].
  apply swrap_uwrap_inj. rewrite <- uwrap_add_r, Hl, uwrap_add_r. reflexivity.
Qed.

(** What is said of an emitter, for an instruction that goes on behind its group. *)
Definition fused_simulates (o : jit_op) (d : jit_decode) (h : hart) (M : memory) (e : est) (s : xstate) : Prop :=
  exists f h' M' s', emit_case (Fused o) = Some (fused_size o, f) /\ fused_step o d h M = Some (h', M') /\ pc h' = end_pc d
    /\ run_code documented None (code_of (f d) e) s = Some (s', Through) /\ matches h' M' s' /\ pfield s' = pfield s.

Section One.
Context (d : jit_decode) (h : hart) (M : memory) (e : est) (s : xstate).
Hypothesis (Hd : jit_wf d) (Hm : matches h M s).

Lemma end_pc_range : in_u 64 (end_pc d).
Proof using. apply uwrap_range. lia. Qed.

Lemma one_simulates (o : jit_op) (f : jit_decode -> Jit.M bool) (v : Z) :
  emit_case (Fused o) = Some (fused_size o, f) -> fused_step o d h M = Some (set_pc (end_pc d) (put_reg (jd_rd d) v h), M) ->
  in_s 64 v -> leaves_in_rd f v d e s -> fused_simulates o d h M e s.
Proof using Hd Hm.
  intros Ec Es Hv Hl. destruct (matches_writes h M s (jd_rd d) v _ Hm (jw_rd _ Hd) Hv Hl) as (s' & Er & Hm' & Hf).
  exists f, (set_pc (end_pc d) (put_reg (jd_rd d) v h)), M, s'. split; [exact Ec | split; [exact Es | split; [reflexivity |]]].
  split; [exact Er | split; [| exact Hf]]. apply matches_pc; [exact Hm' | apply end_pc_range].
Qed.

Lemma rotation_simulates (o : jit_op) (f : jit_decode -> Jit.M bool) (w : Z) (half : Z -> Z -> Z -> Z) :
  w = 32 \/ w = 64 -> half = shifted_right \/ half = shifted_left ->
  emit_case (Fused o) = Some (fused_size o, f) ->
  let a := get_reg h (jd_rs1 d) in
  fused_step o d h M = Some (set_pc (end_pc d) (put_reg (jd_rd d) (rotated w a (jd_imm d)) (put_reg (jd_rs2 d) (half w a (jd_imm d)) h)), M) ->
  0 < jd_imm d < w -> jd_rd d <> 0 -> jd_rs2 d <> 0 -> jd_rd d <> jd_rs2 d ->
  rotates f w half d e s -> fused_simulates o d h M e s.
Proof using Hd Hm.
  intros Hw Hh Ec a Es Hn H1 H2 H3 Hl. unfold rotates in Hl.
  destruct (rotated_guest h M s (jd_rs1 d) w (jd_imm d) Hm (jw_rs1 _ Hd) Hn Hw) as (E1 & E2 & E3).
  assert (E4 : half w (guest_reg s (jd_rs1 d)) (jd_imm d) = half w a (jd_imm d)) by (destruct Hh as [-> | ->]; assumption).
  rewrite E1, E4 in Hl. fold a in Hl.
  assert (Hword : forall x, in_s 64 (swrap w x)) by (intros; apply (in_s_mono w); [lia | apply swrap_range; lia]).
  destruct (matches_both h M s (jd_rd d) (rotated w a (jd_imm d)) (jd_rs2 d) (half w a (jd_imm d)) _ Hm (jw_rd _ Hd) (jw_rs2 _ Hd) (Hword _) ltac:(destruct Hh as [-> | ->]; apply Hword) H1 H2 H3 Hl)
    as (s' & Er & Hm' & Hf).
  eexists f, _, M, s'. split; [exact Ec | split; [exact Es | split; [reflexivity |]]].
  split; [exact Er | split; [| exact Hf]]. apply matches_pc; [exact Hm' | apply end_pc_range].
Qed.

Lemma fused_simulated (o : jit_op) : o <> jit_op_call -> fused_exact o d -> fused_simulates o d h M e s.
Proof using Hmmu Hd Hm.
  intros Ho Hx. pose proof (mt_host _ _ _ Hm) as Hs. pose proof (matches_bytes _ _ _ Hm) as Hb.
  assert (Hu : forall x, in_s 64 (uwrap 32 x)) by (intros; apply (unsigned_word 32); [lia | apply uwrap_range; lia]).
  pose proof (mt_regs _ _ _ Hm) as Hr. destruct Hd as [Hrd H1 H2 Hi Hpc]. destruct o; [| congruence | ..].
  - apply (one_simulates _ emit_la (swrap 64 (la_addr d))); try reflexivity; [apply swrap_range; lia |].
    unfold leaves_in_rd. rewrite la_code. apply link_writes; [exact Hs | apply swrap_range; lia].
  - apply (one_simulates _ emit_zextw (uwrap 32 (get_reg h (jd_rs1 d)))); try reflexivity; [apply Hu |].
    pose proof (emit_zextw_ok d e s Hs Hx) as G. rewrite (Hr _ H1), residue_low in G by lia. exact G.
  - apply (one_simulates _ emit_addiwz (uwrap 32 (get_reg h (jd_rd d) + jd_imm d))); try reflexivity; [apply Hu |].
    pose proof (emit_addiwz_ok d e s Hs Hi Hx) as G. rewrite (Hr _ Hrd), <- uwrap_add_l, residue_low, uwrap_add_l in G by lia. exact G.
  - destruct Hx as [(Hn & N1 & N2 & N3) Hp].
    apply (rotation_simulates _ emit_rorwi_rr 32 shifted_right); auto. apply emit_rorwi_rr_ok; [exact Hs | split; auto].
  - destruct Hx as (Hn & N1 & N2 & N3).
    apply (rotation_simulates _ emit_rorwi_lr 32 shifted_left); auto. apply emit_rorwi_lr_ok; [exact Hs | repeat split; auto; lia].
  - destruct Hx as [(Hn & N1 & N2 & N3) Hp].
    apply (rotation_simulates _ emit_rordi_rr 64 shifted_right); auto. apply emit_rordi_rr_ok; [exact Hs | split; auto].
  - destruct Hx as (Hn & N1 & N2 & N3).
    apply (rotation_simulates _ emit_rordi_lr 64 shifted_left); auto. apply emit_rordi_lr_ok; [exact Hs | repeat split; auto; lia].
  - apply (one_simulates _ emit_auipc_lw (swrap 32 (mem_read 4 M (la_addr d)))); try reflexivity; [apply in_s_word |].
    pose proof (emit_auipc_lw_ok Hmmu d e s Hs Hb Hx) as G.
    rewrite (read_le_mem 4 (mem s) M (mt_mem _ _ _ Hm) (la_addr d) (la_addr d)) in G; [exact G | apply uwrap_small, uwrap_range; lia | apply Hx].
  - apply (one_simulates _ emit_auipc_ld (swrap 64 (mem_read 8 M (la_addr d)))); try reflexivity; [apply swrap_range; lia |].
    pose proof (emit_auipc_ld_ok Hmmu d e s Hs Hb Hx) as G.
    rewrite (read_le_mem 8 (mem s) M (mt_mem _ _ _ Hm) (la_addr d) (la_addr d)) in G; [exact G | apply uwrap_small, uwrap_range; lia | apply Hx].
Qed.
End One.

End Simulation.

(** What the emitter is left in. *)
Lemma fused_plain `{Jit} (o : jit_op) (n : Z) (f : jit_decode -> Jit.M bool) (d : jit_decode) :
  o <> jit_op_call -> emit_case (Fused o) = Some (n, f) -> plain (end_pc d) (f d).
Proof.
  intros Ho E. destruct o; try congruence; injection E as <- <-.
  all: emitter_body; apply plain_seq; quieting.
Qed.
