(* ===== verification/JitTrace.v ===== *)
(** * Traces: the code of a whole trace against the interpreter

    A trace is a path of the interpreter, recorded by the tracer: conditional
    branches in the direction they went, jumps and calls followed, returns followed
    where the call was.  The code of the trace runs along the same path as long as
    the branches go as recorded, and otherwise leaves it for a label or an address
    that stands for the program counter the interpreter has. *)

From Stdlib Require Import ZArith Lia Bool List.
From stdpp Require Import base list option gmap.
From S2P Require Import Prelude Alu Meta Codec Replay Interp Isa Mmu X86 Jit JitEmit JitProofs JitMem JitCorrect JitLabels JitFused.

#[local] Open Scope Z_scope.
#[local] Open Scope word_scope.

(** ** Paths *)

Definition cont_pc (d : jit_decode) : Z := jd_pc d +[64] inst_length (jd_inst d).
Definition branch_pc (d : jit_decode) : Z := jd_pc d +[64] jd_imm d.

(** The condition of a branch, on the registers' values. *)
Definition taken (o : rv_op) (a b : Z) : option bool :=
  match o with
  | rv_op_beq => Some (a =? b)
  | rv_op_bne => Some (negb (a =? b))
  | rv_op_blt => Some (a <? b)
  | rv_op_bge => Some (b <=? a)
  | rv_op_bltu => Some (uwrap 64 a <? uwrap 64 b)
  | rv_op_bgeu => Some (uwrap 64 b <=? uwrap 64 a)
  | _ => None
  end.
Definition is_branch (o : rv_op) : bool := match taken o 0 0 with Some _ => true | None => false end.

(** A return to a call of the trace. *)
Definition is_return (d : jit_decode) (cs : list Z) : bool :=
  match jd_op d with
  | Rv rv_op_jalr => (jd_rd d =? rv_ireg_zero) && (jd_rs1 d =? rv_ireg_ra) && (Z.of_nat (length cs) >? 0)
  | _ => false
  end.

(** Where the trace goes on, and the callstack there; [None] at its last
    instruction. *)
Definition next_of (cs : list Z) (d : jit_decode) : option (Z * list Z) :=
  match jd_op d with
  | Rv rv_op_jal => Some (branch_pc d, if jd_rd d =? rv_ireg_ra then cont_pc d :: cs else cs)
  | Rv rv_op_jalr => if is_return d cs then Some (hd 0 cs, tl cs) else None
  | Rv o => Some (if is_branch o && jd_brc d then branch_pc d else cont_pc d, cs)
  | Fused jit_op_call => Some (la_addr d, end_pc d :: cs)
  | Fused _ => Some (end_pc d, cs)
  end.

Fixpoint path (p : Z) (cs : list Z) (ds : list jit_decode) : Prop :=
  match ds with
  | [] => True
  | d :: ds => jd_pc d = p /\ match next_of cs d with Some (p', cs') => path p' cs' ds | None => ds = [] end
  end.

(** ** The interpreter along a path *)

(** The instructions of the guest that an instruction of the trace stands for. *)
Definition retired (d : jit_decode) : Z := match jd_op d with Rv _ => 1 | Fused o => fused_size o end.
Definition retired_all (ds : list jit_decode) : Z := fold_right (fun d n => retired d + n) 0 ds.
Lemma retired_range (d : jit_decode) : 1 <= retired d <= 3.
Proof. unfold retired. destruct (jd_op d) as [o | o]; [lia |]. destruct o; cbn; lia. Qed.
Lemma retired_all_range (ds : list jit_decode) : Z.of_nat (length ds) <= retired_all ds <= 3 * Z.of_nat (length ds).
Proof. induction ds as [| d ds IH]; [cbn; lia |]. cbn [retired_all fold_right length]. pose proof (retired_range d). unfold retired_all in IH. lia. Qed.

Section Guest.
Context (exec_fp : decode -> hart -> Z -> io Z) (fl : flags).

Definition guest_step (d : jit_decode) (h : hart) (M : memory) : option (hart * memory) :=
  match jd_op d with Rv o => inst_step exec_fp fl o d h M | Fused o => fused_step o d h M end.
(** Each where its program counter is. *)
Fixpoint steps (ds : list jit_decode) (h : hart) (M : memory) : option (hart * memory) :=
  match ds with
  | [] => Some (h, M)
  | d :: ds => if jd_pc d =? pc h then p ← guest_step d h M; steps ds (fst p) (snd p) else None
  end.
End Guest.

Section Traces.
Context `{Jit} (exec_fp : decode -> hart -> Z -> io Z) (fl : flags).
Hypothesis (Hmmu : use_mmu = false) (Hrvi : rvi fl = true).

(** The instructions the theorem is about: those that go on, branches, jumps and
    fused groups. *)
Definition covered (d : jit_decode) : bool :=
  match jd_op d with
  | Rv rv_op_jal | Rv rv_op_jalr => true
  | Rv o => straight fl o || is_branch o
  | Fused _ => true
  end.

(** What [exact_at] and [fused_exact] ask of the operands; of a return, that the address compared
    with can be encoded and that the target is the register itself; of another
    [jalr], a base other than [x0] and an even target. *)
Definition ready (cs : list Z) (d : jit_decode) (h : hart) : Prop :=
  match jd_op d with
  | Rv rv_op_jalr =>
      if is_return d cs then jd_imm d = 0 /\ (x86_reg rv_ireg_ra <= 0 \/ hd 0 cs < 2 ^ 31 \/ 0xffffffff <= hd 0 cs)
      else jd_rs1 d <> 0 /\ (get_reg h (jd_rs1 d) + jd_imm d) mod 2 = 0
  | Rv o => exact_at o d h
  | Fused o => fused_exact o d
  end.

(** Along the path, as far as the interpreter follows it. *)
Fixpoint all_ready (cs : list Z) (ds : list jit_decode) (h : hart) (M : memory) : Prop :=
  match ds with
  | [] => True
  | d :: ds =>
      ready cs d h
      /\ match next_of cs d, guest_step exec_fp fl d h M with
         | Some (p, cs'), Some (h', M') => pc h' = p -> all_ready cs' ds h' M'
         | _, _ => True
         end
  end.

(** ** Where control goes *)

(** What a way out of the code stands for. *)
Inductive leaves (e : est) (s : xstate) (p : Z) : exit_ -> Prop :=
  | at_label (l : Z) : e_labels e !! p = Some l -> leaves e s p (To_label l)
  | at_jump (l : Z) : e_jmp_tramp e !! p = Some l -> leaves e s p (To_label l)
  | at_return (l : Z) : e_exit_tramp e !! p = Some l -> leaves e s p (To_label l)
  | at_trace : lookup_trace_slow p <> 0 -> leaves e s p (To_address (lookup_trace_slow p))
  | at_lookup : pfield s P_pc = p -> leaves e s p (To_address lookup_trace_fast).

Lemma leaves_grows (e e' : est) (s : xstate) (p : Z) (x : exit_) : grows e e' -> leaves e s p x -> leaves e' s p x.
Proof.
  intros [_ H1 H2 H3] [l E | l E | l E | E | E]; [apply at_label | apply at_jump | apply at_return | apply at_trace | apply at_lookup];
    eauto using lookup_weaken.
Qed.

(** ** The instruction counter *)

(** What it will be once the pending instructions are counted. *)
Definition counted (s : xstate) (e : est) : Z :=
  uwrap 64 (pfield s P_instret + if update_instret then e_instret e else 0).

(** Nothing of the guest's registers and memory changes. *)
Definition idle (s s' : xstate) : Prop := (forall g, guest_reg s' g = guest_reg s g) /\ mem s' = mem s.
Lemma matches_idle (h : hart) (M : memory) (s s' : xstate) : idle s s' -> matches h M s -> matches h M s'.
Proof.
  intros [Hg Hm] [A [B1 B2] C D E]. split; [exact A | split; intros; rewrite Hg; auto | | | exact E].
  - intros g Hr. rewrite Hg. apply C, Hr.
  - rewrite Hm. exact D.
Qed.

Lemma commit_runs (e : est) (s : xstate) : 0 <= e_instret e < 2 ^ 31 -> in_u 64 (pfield s P_instret) ->
  exists s', run_code documented None (code_of commit_instret e) s = Some (s', Through)
    /\ idle s s' /\ in_u 64 (pfield s' P_instret) /\ counted s' (state_of commit_instret e) = counted s e
    /\ (update_instret = true -> e_instret (state_of commit_instret e) = 0) /\ pfield s' P_pc = pfield s P_pc.
Proof.
  intros He Hs. unfold commit_instret, code_of, state_of, counted, mbind, M_bind, gets. cbn.
  destruct update_instret eqn:Eu; cbn [andb]; [destruct (Z.ltb_spec 0 (e_instret e)) |].
  - cbn - [Z.pow]. unfold const_ok. cbn [Z.eqb Pos.eqb]. rewrite (proj2 (Z.leb_le _ _)), (proj2 (Z.ltb_lt _ _)) by lia. cbn [andb].
    eexists. split; [reflexivity |]. split; [split; reflexivity |]. cbn. split; [apply uwrap_range; lia |].
    rewrite Z.add_0_r, uwrap_idemp, uwrap_add_r. auto 6.
  - exists s. cbn. split; [reflexivity | split; [split; reflexivity | split; [exact Hs | split; [reflexivity | split; [lia | reflexivity]]]]].
  - exists s. cbn. split; [reflexivity | split; [split; reflexivity | split; [exact Hs | split; [reflexivity | split; [discriminate | reflexivity]]]]].
Qed.


(** ** Branches *)

(** The comparison's flags. *)
Lemma cmp_runs (d : jit_decode) (e : est) (s : xstate) : xstate_wf s ->
  exists s', run_code documented None (code_of (emit_cmp d) e) s = Some (s', Through)
    /\ idle s s' /\ pfield s' = pfield s
    /\ flags_ s' = Some (sub_flags 64 (guest_reg s (jd_rs1 d)) (guest_reg s (jd_rs2 d))).
Proof.
  intros [Hr Hz]. destruct d as [pc inst imm op rd rs1 rs2 rs3 brt brc sz]; unfold emit_cmp, rv_ireg_zero; cbn [jd_rs1 jd_rs2].
  (destruct (Z.eq_dec rs2 0) as [-> |]; [| place_of rs2]); (destruct (Z.eq_dec rs1 0) as [-> |]; [| place_of rs1]);
    different; use_places; run_it; constants; run_it;
    eexists; (split; [reflexivity |]);
    (split; [split; [apply scratch_guest; [intros; cbn [xr set_flags set_xr]; lookups; reflexivity | reflexivity] | reflexivity] |]);
    (split; [reflexivity |]); cbn [flags_ set_flags]; lookups; values; change (uwrap 32 0) with 0; change (uwrap 64 0) with 0; rewrite ?uwrap_idemp; rewrite ?Z.lxor_nilpotent; reflexivity.
Qed.

(** The last part of [emit_branch]. *)
Definition branch_exits (d : jit_decode) (cond_ : bool) (bf ibf : cond) (labels : gmap Z Z) : M unit :=
  match labels !! branch_pc d, labels !! cont_pc d with
  | Some branch_l, Some cont_l => ins (as_j bf branch_l);; ins (as_jmp cont_l)
  | branch_i, cont_i =>
      match cond_, branch_i, cont_i with
      | true, Some branch_l, _ =>
          ins (as_j bf branch_l);;
          (if negb (lookup_trace_slow (cont_pc d) =? 0) then ins (as_jmp_abs (lookup_trace_slow (cont_pc d)))
           else emit_jump_fixup (cont_pc d));;
          set_term_pc 0
      | false, _, Some cont_l =>
          ins (as_j ibf cont_l);;
          (if negb (lookup_trace_slow (branch_pc d) =? 0) then ins (as_jmp_abs (lookup_trace_slow (branch_pc d)))
           else emit_jump_fixup (branch_pc d));;
          set_term_pc 0
      | true, None, _ =>
          (if negb (lookup_trace_slow (cont_pc d) =? 0) then ins (as_j_abs ibf (lookup_trace_slow (cont_pc d)))
           else emit_branch_fixup ibf (cont_pc d));;
          set_term_pc (branch_pc d)
      | false, _, None =>
          (if negb (lookup_trace_slow (branch_pc d) =? 0) then ins (as_j_abs bf (lookup_trace_slow (branch_pc d)))
           else emit_branch_fixup bf (branch_pc d));;
          set_term_pc (cont_pc d)
      end
  end.
Lemma emit_branch_parts (d : jit_decode) (cond_ : bool) (bf ibf : cond) :
  emit_branch d cond_ bf ibf
  = (labels ← gets e_labels; commit_instret;; emit_cmp d;; branch_exits d cond_ bf ibf labels;; mret true).
Proof. reflexivity. Qed.

(** A jump through a trampoline: its label stands for the program counter, and
    the label after it is a new one. *)
Definition tramp_spec (m : M unit) (j : Z -> instr) (p : Z) (e : est) : Prop :=
  exists l l', code_of m e = [j l; as_bind l'] /\ l < l' /\ e_next e <= l'
    /\ e_jmp_tramp (state_of m e) !! p = Some l /\ e_labels (state_of m e) = e_labels e
    /\ e_instret (state_of m e) = e_instret e /\ e_callstack (state_of m e) = e_callstack e.

Lemma jump_fixup_spec (p : Z) (e : est) : est_wf e -> tramp_spec (emit_jump_fixup p) as_jmp p e.
Proof.
  intros He. unfold tramp_spec, emit_jump_fixup, create_jump_tramp, push_fixup, code_of, state_of, mbind, M_bind, gets, newLabel, modify, ins. cbn.
  destruct (e_jmp_tramp e !! p) as [l |] eqn:E; cbn.
  - exists l, (e_next e). pose proof (ew_jmp _ He _ _ E) as Hl. cbn in Hl. repeat split; auto; lia.
  - exists (e_next e), (e_next e + 1). repeat split; try lia. apply lookup_insert_eq.
Qed.
Lemma branch_fixup_spec (c : cond) (p : Z) (e : est) : est_wf e -> tramp_spec (emit_branch_fixup c p) (as_j c) p e.
Proof.
  intros He. unfold tramp_spec, emit_branch_fixup, create_jump_tramp, push_fixup, code_of, state_of, mbind, M_bind, gets, newLabel, modify, ins. cbn.
  destruct (e_jmp_tramp e !! p) as [l |] eqn:E; cbn.
  - exists l, (e_next e). pose proof (ew_jmp _ He _ _ E) as Hl. cbn in Hl. repeat split; auto; lia.
  - exists (e_next e), (e_next e + 1). repeat split; try lia. apply lookup_insert_eq.
Qed.

(** The other way of a branch, when the trace goes on. *)
Definition way_out (c : cond) (p : Z) : M unit :=
  if negb (lookup_trace_slow p =? 0) then ins (as_j_abs c (lookup_trace_slow p)) else emit_branch_fixup c p.
(** The other way, when the branch goes back to a label. *)
Definition way_on (p : Z) : M unit :=
  if negb (lookup_trace_slow p =? 0) then ins (as_jmp_abs (lookup_trace_slow p)) else emit_jump_fixup p.

(** Control leaves for [p]. *)
Definition exits (m : M unit) (p : Z) (e : est) (s : xstate) : Prop :=
  exists x, run_code documented None (code_of m e) s = Some (s, x) /\ x <> Through /\ leaves (state_of m e) s p x.
(** The emitter keeps its labels, count and callstack. *)
Definition kept_by (m : M unit) (e : est) : Prop :=
  e_labels (state_of m e) = e_labels e /\ e_instret (state_of m e) = e_instret e /\ e_callstack (state_of m e) = e_callstack e.

Lemma way_out_runs (c : cond) (p : Z) (e : est) (s : xstate) (f : eflags) : est_wf e -> flags_ s = Some f ->
  (if holds_cond c f then exits (way_out c p) p e s
   else run_code documented None (code_of (way_out c p) e) s = Some (s, Through))
  /\ kept_by (way_out c p) e.
Proof.
  intros He Hf. unfold way_out, exits, kept_by. destruct (Z.eqb_spec (lookup_trace_slow p) 0) as [E | E]; cbn [negb].
  - destruct (branch_fixup_spec c p e He) as (l & l' & Ec & Hl & _ & Ej & El & Ei & Es). split; [| auto]. rewrite Ec. cbn.
    rewrite Hf. cbn. destruct (holds_cond c f); [| reflexivity].
    exists (To_label l). rewrite (proj2 (Z.eqb_neq l l')) by lia. split; [reflexivity | split; [discriminate | apply at_jump, Ej]].
  - split; [| auto]. cbn. rewrite Hf. cbn. destruct (holds_cond c f); [| reflexivity].
    eexists. split; [reflexivity | split; [discriminate | apply at_trace, E]].
Qed.
Lemma way_on_runs (p : Z) (e : est) (s : xstate) : est_wf e ->
  exits (way_on p) p e s /\ kept_by (way_on p) e /\ Forall (fun l => e_next e <= l) (binds (code_of (way_on p) e)).
Proof.
  intros He. unfold way_on, exits, kept_by. destruct (Z.eqb_spec (lookup_trace_slow p) 0) as [E | E]; cbn [negb].
  - destruct (jump_fixup_spec p e He) as (l & l' & Ec & Hl & Hn & Ej & El & Ei & Es). rewrite Ec. split; [| split; [auto |]].
    + exists (To_label l). cbn. rewrite (proj2 (Z.eqb_neq l l')) by lia. split; [reflexivity | split; [discriminate | apply at_jump, Ej]].
    + cbn. apply Forall_cons_2; [exact Hn | apply Forall_nil_2].
  - split; [| split; [auto | apply Forall_nil_2]].
    eexists. split; [reflexivity | split; [discriminate | apply at_trace, E]].
Qed.

Lemma seek_first (l : Z) (m : M unit) (e : est) (s : xstate) : l < e_next e ->
  Forall (fun l => e_next e <= l) (binds (code_of m e)) ->
  run_code documented (Some l) (code_of m e) s = Some (s, To_label l).
Proof.
  intros Hl Hb. apply seek_absent. intros Hin. rewrite Forall_forall in Hb. specialize (Hb l Hin). lia.
Qed.

(** A branch back to a label of the trace, and on to [q] otherwise. *)
Lemma back_runs (c : cond) (l p q : Z) (e : est) (s : xstate) (f : eflags) : est_wf e -> flags_ s = Some f ->
  e_labels e !! p = Some l ->
  let m := ins (as_j c l);; way_on q;; set_term_pc 0 in
  exits m (if holds_cond c f then p else q) e s /\ kept_by m e.
Proof.
  intros He Hf El m. destruct (way_on_runs q e s He) as ((x & Er & Hx & Hv) & (K1 & K2 & K3) & Hb).
  assert (Ec : code_of m e = as_j c l :: code_of (way_on q) e)
    by (unfold m; rewrite !code_bind; cbn [code_of state_of ins set_term_pc modify fst snd]; rewrite app_nil_r; reflexivity).
  assert (Es : state_of m e = set_e_term_pc 0 (state_of (way_on q) e)) by (unfold m; rewrite !state_bind; reflexivity).
  split; [| unfold kept_by; rewrite Es; auto]. unfold exits. rewrite Ec, Es. cbn [run_code]. rewrite Hf. cbn [mbind option_bind].
  destruct (holds_cond c f).
  - exists (To_label l). split; [| split; [discriminate | apply at_label; cbn; rewrite K1; exact El]].
    apply seek_first; [exact (ew_labels _ He _ _ El) | exact Hb].
  - exists x. split; [exact Er | split; [exact Hx |]]. eapply leaves_grows; [| exact Hv]. split; reflexivity || lia.
Qed.
(** A branch out to [q], the trace going on at [t]. *)
Lemma out_runs (c : cond) (q t : Z) (e : est) (s : xstate) (f : eflags) : est_wf e -> flags_ s = Some f ->
  let m := way_out c q;; set_term_pc t in
  kept_by m e /\
  (if holds_cond c f then exits m q e s
   else run_code documented None (code_of m e) s = Some (s, Through) /\ e_term_pc (state_of m e) = t).
Proof.
  intros He Hf m. destruct (way_out_runs c q e s f He Hf) as (Hr & K1 & K2 & K3).
  assert (Ec : code_of m e = code_of (way_out c q) e)
    by (unfold m; rewrite !code_bind; cbn [code_of set_term_pc modify fst snd]; apply app_nil_r).
  assert (Es : state_of m e = set_e_term_pc t (state_of (way_out c q) e)) by (unfold m; rewrite !state_bind; reflexivity).
  split; [unfold kept_by; rewrite Es; auto |]. unfold exits. rewrite Ec, Es. destruct (holds_cond c f).
  - destruct Hr as (x & Er & Hx & Hv). exists x. split; [exact Er | split; [exact Hx |]].
    eapply leaves_grows; [| exact Hv]. split; reflexivity || lia.
  - split; [exact Hr | reflexivity].
Qed.

(** The ways out of a branch: [b] is the condition that the flags hold. *)
Lemma exits_run (d : jit_decode) (c b : bool) (bf ibf : cond) (e : est) (s : xstate) (f : eflags) :
  est_wf e -> flags_ s = Some f -> holds_cond bf f = b -> holds_cond ibf f = negb b ->
  let p := if b then branch_pc d else cont_pc d in
  let m := branch_exits d c bf ibf (e_labels e) in
  kept_by m e /\
  (exits m p e s
   \/ run_code documented None (code_of m e) s = Some (s, Through) /\ b = c /\ e_term_pc (state_of m e) = p).
Proof.
  intros He Hf Hb Hib p m. subst m. unfold branch_exits.
  pose proof (fun q t => out_runs bf q t e s f He Hf) as Out. pose proof (fun q t => out_runs ibf q t e s f He Hf) as Iout.
  rewrite Hb in Out. rewrite Hib in Iout.
  destruct (e_labels e !! branch_pc d) as [bl |] eqn:Ebl, (e_labels e !! cont_pc d) as [cl |] eqn:Ecl; [| destruct c ..].
  - split; [repeat split |]. left. unfold exits, code_of, state_of, mbind, M_bind, ins, p. cbn. rewrite Hf. cbn. rewrite Hb.
    destruct b; (eexists; split; [reflexivity | split; [discriminate | apply at_label; assumption]]).
  - destruct (back_runs bf bl _ (cont_pc d) e s f He Hf Ebl) as [Hx Hk]. rewrite Hb in Hx. auto.
  - destruct (Out (branch_pc d) (cont_pc d)) as [Hk Ho]. split; [exact Hk |]. unfold p. destruct b; [left; exact Ho | right; destruct Ho; auto].
  - destruct (Iout (cont_pc d) (branch_pc d)) as [Hk Ho]. split; [exact Hk |]. unfold p. destruct b; [right; destruct Ho; auto | left; exact Ho].
  - destruct (back_runs ibf cl _ (branch_pc d) e s f He Hf Ecl) as [Hx Hk]. rewrite Hib in Hx. unfold p. destruct b; auto.
  - destruct (Iout (cont_pc d) (branch_pc d)) as [Hk Ho]. split; [exact Hk |]. unfold p. destruct b; [right; destruct Ho; auto | left; exact Ho].
  - destruct (Out (branch_pc d) (cont_pc d)) as [Hk Ho]. split; [exact Hk |]. unfold p. destruct b; [left; exact Ho | right; destruct Ho; auto].
Qed.

(** ** One instruction *)

(** How the code of [d] ends: on the path, one step of the interpreter further;
    out of it for the program counter after the step; or, at a return that does
    not match its call, out of it for the return itself. *)
Inductive runs_to (d : jit_decode) (cs : list Z) (h : hart) (M : memory) (e : est) (s : xstate) (e' : est) : xstate -> exit_ -> Prop :=
  | goes_on (h' : hart) (M' : memory) (p : Z) (cs' : list Z) (s' : xstate) :
      next_of cs d = Some (p, cs') -> guest_step exec_fp fl d h M = Some (h', M') -> pc h' = p -> matches h' M' s' ->
      in_u 64 (pfield s' P_instret) -> counted s' e' = counted s e -> 0 <= e_instret e' <= e_instret e -> e_callstack e' = cs' ->
      (e_term_pc e' = if is_return d cs then 0 else p) ->
      runs_to d cs h M e s e' s' Through
  | leaves_for (h' : hart) (M' : memory) (s' : xstate) (x : exit_) :
      guest_step exec_fp fl d h M = Some (h', M') -> matches h' M' s' -> in_u 64 (pfield s' P_instret) ->
      x <> Through -> leaves e' s' (pc h') x ->
      (update_instret = true -> pfield s' P_instret = counted s e) ->
      runs_to d cs h M e s e' s' x
  | misses (s' : xstate) (l : Z) :
      is_return d cs = true -> matches h M s' -> in_u 64 (pfield s' P_instret) -> e_exit_tramp e' !! jd_pc d = Some l ->
      runs_to d cs h M e s e' s' (To_label l).

Definition simulated (m : M bool) (d : jit_decode) (cs : list Z) (h : hart) (M : memory) (e : est) (s : xstate) : Prop :=
  exists s' x, run_code documented None (code_of m e) s = Some (s', x) /\ runs_to d cs h M e s (state_of m e) s' x.

Definition callstack_ok (cs : list Z) : Prop := Forall (fun a => in_u 64 a /\ a mod 2 = 0) cs.

(** What holds before the code of an instruction. *)
Record before (d : jit_decode) (cs : list Z) (h : hart) (M : memory) (e : est) (s : xstate) : Prop := {
  bf_wf : jit_wf d; bf_matches : matches h M s; bf_pc : pc h = jd_pc d; bf_est : est_wf e;
  bf_instret : 0 <= e_instret e < 2 ^ 31; bf_counter : in_u 64 (pfield s P_instret);
  bf_callstack : e_callstack e = cs; bf_callstack_ok : callstack_ok cs }.

Lemma cont_next (d : jit_decode) (h : hart) : pc h = jd_pc d -> next_pc 64 h (inst_length (jd_inst d)) = cont_pc d.
Proof. intros E. unfold next_pc, cont_pc. rewrite E. reflexivity. Qed.

Lemma straight_simulated (o : rv_op) (d : jit_decode) (cs : list Z) (h : hart) (M : memory) (e : est) (s : xstate) :
  jd_op d = Rv o -> straight fl o = true -> before d cs h M e s -> exact_at o d h ->
  exists f, emit_case (Rv o) = Some (1, f) /\ simulated (f d) d cs h M e s.
Proof.
  intros Eo Ho [Hd Hm Hpc He Hi Hc Hcs Hok] Hx.
  destruct (straight_simulates exec_fp fl Hmmu o d h M e s Ho Hrvi Hd Hm Hpc Hx) as (f & Ec & h' & M' & s' & Es & Ep & Er & Hm' & Hf).
  exists f. split; [exact Ec |]. exists s', Through. split; [exact Er |].
  destruct (straight_plain fl o 1 f d Ho Ec e) as [n En]. rewrite En.
  assert (Hnext : next_of cs d = Some (cont_pc d, cs) /\ is_return d cs = false).
  { unfold next_of, is_return. rewrite Eo. destruct o; try (split; reflexivity); discriminate Ho. }
  apply (goes_on d cs h M e s _ h' M' (cont_pc d) cs); try apply Hnext; try assumption.
  - unfold guest_step. rewrite Eo. exact Es.
  - rewrite Ep. apply cont_next, Hpc.
  - rewrite Hf. exact Hc.
  - unfold counted. rewrite Hf. reflexivity.
  - cbn. lia.
  - rewrite (proj2 Hnext). reflexivity.
Qed.

Definition branch_conds (o : rv_op) : cond * cond :=
  match o with
  | rv_op_bne => (CondNE, CondE) | rv_op_blt => (CondL, CondGE) | rv_op_bge => (CondGE, CondL)
  | rv_op_bltu => (CondB, CondAE) | rv_op_bgeu => (CondAE, CondB) | _ => (CondE, CondNE)
  end.
Lemma branch_case (o : rv_op) : is_branch o = true ->
  exists f, emit_case (Rv o) = Some (1, f) /\ forall d, f d = emit_branch d (jd_brc d) (fst (branch_conds o)) (snd (branch_conds o)).
Proof. destruct o; try discriminate; intros _; eexists; (split; [reflexivity | reflexivity]). Qed.

(** The flags of the comparison decide the branch. *)
Lemma branch_flags (o : rv_op) (a b : Z) : is_branch o = true -> in_u 64 a -> in_u 64 b ->
  exists t, taken o (swrap 64 a) (swrap 64 b) = Some t
    /\ holds_cond (fst (branch_conds o)) (sub_flags 64 a b) = t
    /\ holds_cond (snd (branch_conds o)) (sub_flags 64 a b) = negb t.
Proof.
  intros Ho Ha Hb.
  assert (Heq : (swrap 64 a =? swrap 64 b) = (a =? b)).
  { destruct (Z.eqb_spec a b) as [-> | Hne]; [apply Z.eqb_refl |]. apply Z.eqb_neq. intros E. apply Hne.
    rewrite <- (uwrap_small 64 a Ha), <- (uwrap_small 64 b Hb), <- (uwrap_swrap 64 a), <- (uwrap_swrap 64 b), E. reflexivity. }
  destruct o; try discriminate Ho; (eexists; split; [reflexivity |]); cbn [branch_conds fst snd];
    rewrite ?Heq, ?uwrap_swrap, ?(uwrap_small 64 a Ha), ?(uwrap_small 64 b Hb), ?holds_e, ?holds_ne, ?holds_b, ?holds_ae, ?holds_l, ?holds_ge, ?negb_involutive by (assumption || lia);
    rewrite ?Z.leb_antisym, ?negb_involutive; auto.
Qed.

Lemma cmp_state (d : jit_decode) (e : est) : state_of (emit_cmp d) e = e.
Proof.
  unfold emit_cmp. cbv zeta.
  repeat match goal with |- context [if ?c then _ else _] => destruct c end; reflexivity.
Qed.
Lemma branch_code (d : jit_decode) (c : bool) (bf ibf : cond) (e : est) :
  let e1 := state_of commit_instret e in
  let m := branch_exits d c bf ibf (e_labels e1) in
  code_of (emit_branch d c bf ibf) e = code_of commit_instret e ++ code_of (emit_cmp d) e1 ++ code_of m e1
  /\ state_of (emit_branch d c bf ibf) e = state_of m e1.
Proof.
  intros e1 m. rewrite emit_branch_parts. subst m e1. rewrite commit_labels. split.
  - rewrite !code_bind, !cmp_state. cbn [code_of state_of result_of gets mret M_ret fst snd app]. rewrite app_nil_r. reflexivity.
  - rewrite !state_bind, !cmp_state. reflexivity.
Qed.
Lemma commit_state (e : est) : est_wf e -> 0 <= e_instret e ->
  let e' := state_of commit_instret e in
  est_wf e' /\ 0 <= e_instret e' <= e_instret e /\ e_callstack e' = e_callstack e.
Proof.
  intros He Hi e'. split; [apply (scoped_commit (e_next e) (e_next e) e He); lia |].
  unfold e', commit_instret, state_of, mbind, M_bind, gets. cbn. destruct (_ && _); cbn; split; reflexivity || lia.
Qed.

(** A branch in the interpreter. *)
Lemma branch_step (o : rv_op) (d : jit_decode) (h : hart) (M : memory) (s : xstate) (t : bool) :
  jd_op d = Rv o -> jit_wf d -> matches h M s -> pc h = jd_pc d ->
  taken o (get_reg h (jd_rs1 d)) (get_reg h (jd_rs2 d)) = Some t ->
  guest_step exec_fp fl d h M = Some (set_pc (if t then branch_pc d else cont_pc d) h, M).
Proof.
  intros Eo Hd Hm Hpc Et. unfold guest_step. rewrite Eo.
  apply (control_step exec_fp fl o d h M s None); try assumption. rewrite (cont_next d h Hpc).
  destruct o; try discriminate Et; injection Et as <-; cbn [isa_control]; rewrite Hpc; reflexivity.
Qed.

Lemma branch_simulated (o : rv_op) (d : jit_decode) (cs : list Z) (h : hart) (M : memory) (e : est) (s : xstate) :
  jd_op d = Rv o -> is_branch o = true -> before d cs h M e s ->
  exists f, emit_case (Rv o) = Some (1, f) /\ simulated (f d) d cs h M e s.
Proof.
  intros Eo Ho [Hd Hm Hpc He Hi Hc Hcs Hok]. destruct (branch_case o Ho) as (f & Ec & Ef). exists f. split; [exact Ec |].
  unfold simulated. rewrite Ef. destruct (branch_code d (jd_brc d) (fst (branch_conds o)) (snd (branch_conds o)) e) as [-> ->].
  destruct (commit_runs e s Hi Hc) as (s1 & R1 & I1 & C1 & N1 & Z1 & _).
  destruct (commit_state e He ltac:(lia)) as (He1 & Hi1 & Hcs1). set (e1 := state_of commit_instret e) in *.
  pose proof (matches_idle _ _ _ _ I1 Hm) as Hm1.
  destruct (cmp_runs d e1 s1 (mt_host _ _ _ Hm1)) as (s2 & R2 & I2 & F2 & L2).
  pose proof (matches_idle _ _ _ _ I2 Hm1) as Hm2.
  destruct (branch_flags o _ _ Ho (xw_range _ (mt_host _ _ _ Hm1) (jd_rs1 d)) (xw_range _ (mt_host _ _ _ Hm1) (jd_rs2 d)))
    as (t & Et & Hb & Hib).
  rewrite (matches_reg _ _ _ _ Hm1 (jw_rs1 _ Hd)), (matches_reg _ _ _ _ Hm1 (jw_rs2 _ Hd)) in Et.
  pose proof (branch_step o d h M s1 t Eo Hd Hm1 Hpc Et) as Hstep.
  assert (Hm3 : matches (set_pc (if t then branch_pc d else cont_pc d) h) M s2)
    by (apply matches_pc; [exact Hm2 | destruct t; apply uwrap_range; lia]).
  destruct (exits_run d (jd_brc d) t _ _ e1 s2 _ He1 L2 Hb Hib) as ((_ & Ki & Kc) & Hx).
  rewrite run_code_app, R1; cbv iota beta; rewrite run_code_app, R2; cbv iota beta.
  destruct Hx as [(x & Rx & Hx & Hv) | (Rx & Hbc & Hp)].
  - exists s2, x. rewrite Rx. split; [reflexivity |].
    apply (leaves_for d cs h M e s _ (set_pc (if t then branch_pc d else cont_pc d) h) M _ x Hstep Hm3 ltac:(rewrite F2; exact C1) Hx Hv). intros Eu. rewrite F2, <- N1. unfold counted.
    rewrite (Z1 Eu). destruct update_instret; rewrite Z.add_0_r, uwrap_small by exact C1; reflexivity.
  - exists s2, Through. rewrite Rx. split; [reflexivity |].
    apply (goes_on d cs h M e s _ (set_pc (if t then branch_pc d else cont_pc d) h) M (if t then branch_pc d else cont_pc d) cs); try assumption.
    + unfold next_of. rewrite Eo, Hbc. destruct o; try discriminate Ho; reflexivity.
    + reflexivity.
    + rewrite F2. exact C1.
    + rewrite <- N1. unfold counted. rewrite F2, Ki. reflexivity.
    + rewrite Ki. lia.
    + rewrite Kc, Hcs1. exact Hcs.
    + unfold is_return. rewrite Eo. destruct o; try discriminate Ho; exact Hp.
Qed.

(** ** Jumps *)

Lemma jal_code (d : jit_decode) (e : est) :
  code_of (emit_jal d) e = link_code (jd_rd d) (swrap 64 (cont_pc d))
  /\ state_of (emit_jal d) e
     = (if jd_rd d =? rv_ireg_ra then set_e_callstack (cont_pc d :: e_callstack e) (set_e_term_pc (branch_pc d) e)
        else set_e_term_pc (branch_pc d) e).
Proof.
  unfold emit_jal, link_code, rv_ireg_zero, rv_ireg_ra, code_of, state_of, mbind, M_bind. cbn.
  destruct (Z.eqb_spec (jd_rd d) 0) as [E | E], (Z.eqb_spec (jd_rd d) 1) as [E1 | E1]; try (split; reflexivity); try congruence;
    destruct (x86_reg (jd_rd d) >? 0); split; reflexivity.
Qed.

(** What a link leaves. *)
Lemma link_matches (rd v : Z) (h : hart) (M : memory) (s : xstate) : matches h M s -> is_reg rd -> in_u 64 v ->
  exists s', run_code documented None (link_code rd (swrap 64 v)) s = Some (s', Through)
    /\ matches (put_reg rd (swrap 64 v) h) M s' /\ pfield s' = pfield s.
Proof.
  intros Hm Hr Hv. apply matches_writes; try assumption; [apply swrap_range; lia |].
  apply link_writes; [apply Hm | apply swrap_range; lia].
Qed.

Lemma pc_ranges (d : jit_decode) : in_u 64 (cont_pc d) /\ in_u 64 (branch_pc d).
Proof. split; apply uwrap_range; lia. Qed.

Lemma jal_simulated (d : jit_decode) (cs : list Z) (h : hart) (M : memory) (e : est) (s : xstate) :
  jd_op d = Rv rv_op_jal -> before d cs h M e s -> simulated (emit_jal d) d cs h M e s.
Proof.
  intros Eo [Hd Hm Hpc He Hi Hc Hcs Hok]. destruct (pc_ranges d) as [Rc Rb].
  destruct (jal_code d e) as [Ec Es]. unfold simulated. rewrite Ec, Es.
  destruct (link_matches (jd_rd d) (cont_pc d) h M s Hm (jw_rd _ Hd) Rc) as (s' & Er & Hm' & Hf).
  exists s', Through. split; [exact Er |].
  apply (goes_on d cs h M e s _ (set_pc (branch_pc d) (put_reg (jd_rd d) (swrap 64 (cont_pc d)) h)) M (branch_pc d)
           (if jd_rd d =? rv_ireg_ra then cont_pc d :: cs else cs)).
  - unfold next_of. rewrite Eo. reflexivity.
  - unfold guest_step. rewrite Eo. rewrite (control_step exec_fp fl _ d h M s (Some (swrap 64 (cont_pc d))) (branch_pc d)); try assumption; [reflexivity |].
    rewrite (cont_next d h Hpc). cbn [isa_control]. rewrite Hpc. reflexivity.
  - reflexivity.
  - apply matches_pc; assumption.
  - rewrite Hf. exact Hc.
  - unfold counted. rewrite Hf. destruct (jd_rd d =? rv_ireg_ra); reflexivity.
  - destruct (jd_rd d =? rv_ireg_ra); cbn; lia.
  - destruct (jd_rd d =? rv_ireg_ra); cbn; rewrite ?Hcs; reflexivity.
  - unfold is_return. rewrite Eo. destruct (jd_rd d =? rv_ireg_ra); reflexivity.
Qed.

(** The two forms of [jalr]. *)
Definition return_compare (d : jit_decode) (link : Z) : list instr :=
  if x86_reg (jd_rs1 d) >? 0
  then if link <? 0xffffffff then [as_cmp (gpq (x86_reg (jd_rs1 d))) (Const (swrap 64 link))]
       else [as_mov rax (Const (swrap 64 link)); as_cmp (gpq (x86_reg (jd_rs1 d))) rax]
  else [as_mov rax (Const (swrap 64 link)); as_cmp (rbp_reg_q (jd_rs1 d)) rax].
Lemma exit_tramp_state (p : Z) (e : est) :
  let e' := state_of (create_exit_tramp p) e in
  code_of (create_exit_tramp p) e = [] /\ e_exit_tramp e' !! p = Some (result_of (create_exit_tramp p) e)
  /\ e_instret e' = e_instret e /\ e_callstack e' = e_callstack e /\ e_term_pc e' = e_term_pc e.
Proof.
  unfold create_exit_tramp, code_of, state_of, result_of, mbind, M_bind, gets. cbn.
  destruct (e_exit_tramp e !! p) eqn:E; cbn; repeat split; [exact E | apply lookup_insert_eq].
Qed.
Lemma return_code (d : jit_decode) (e : est) : is_return d (e_callstack e) = true ->
  let e1 := set_e_callstack (tl (e_callstack e)) (set_e_term_pc 0 e) in
  code_of (emit_jalr d) e
    = return_compare d (hd 0 (e_callstack e)) ++ [as_j CondNE (result_of (create_exit_tramp (jd_pc d)) e1)]
  /\ state_of (emit_jalr d) e = state_of (create_exit_tramp (jd_pc d)) e1.
Proof.
  intros Hr e1. unfold is_return in Hr. destruct (jd_op d) as [[] |]; try discriminate Hr.
  unfold emit_jalr, callstack_size, callstack_back, callstack_pop. cbv zeta. rewrite !code_bind, !state_bind.
  cbn [result_of state_of code_of set_term_pc modify gets fst snd app]. cbn [e_callstack set_e_term_pc]. rewrite Hr.
  rewrite !code_bind, !state_bind. cbn [result_of state_of code_of modify gets fst snd app e_callstack set_e_term_pc].
  change (set_e_callstack (tail (e_callstack e)) (set_e_term_pc 0 e)) with e1.
  destruct (exit_tramp_state (jd_pc d) e1) as [-> _]. unfold return_compare.
  destruct (x86_reg (jd_rs1 d) >? 0); [destruct (hd 0 (e_callstack e) <? 0xffffffff) |]; split; reflexivity.
Qed.

(** The comparison of the return address. *)
Lemma return_runs (d : jit_decode) (link : Z) (s : xstate) : xstate_wf s -> in_u 64 link ->
  x86_reg (jd_rs1 d) <= 0 \/ link < 2 ^ 31 \/ 0xffffffff <= link ->
  exists s', run_code documented None (return_compare d link) s = Some (s', Through)
    /\ idle s s' /\ pfield s' = pfield s /\ flags_ s' = Some (sub_flags 64 (guest_reg s (jd_rs1 d)) link).
Proof.
  intros [Hr Hz] Hl Hf. unfold return_compare.
  assert (Hc : const64_ok (swrap 64 link) = true)
    by (pose proof (swrap_range 64 link ltac:(lia)); unfold const64_ok, in_s in *; change (64 - 1) with 63 in *; lia).
  assert (Hu : uwrap 64 (swrap 64 link) = link) by (rewrite uwrap_swrap; apply uwrap_small, Hl).
  destruct d as [pc inst imm op rd rs1 rs2 rs3 brt brc sz]; cbn [jd_rs1] in *.
  destruct (place rs1) as [(q & E & Hq) | [E | [E ->]]]; rewrite E; cbn [Z.gtb Z.compare].
  1: destruct (Z.ltb_spec link 0xffffffff).
  1: assert (Hc64 : const_ok 64 (swrap 64 link) = true)
       by (rewrite E in Hf; rewrite swrap_small by (unfold in_s, in_u in *; lia); unfold const_ok; cbn [Z.eqb Pos.eqb]; unfold in_u in *; lia).
  all: run_it; rewrite ?Hc, ?Hc64; run_it; eexists; (split; [reflexivity |]);
    (split; [split; [apply scratch_guest; [intros; cbn [xr set_flags set_xr]; lookups; reflexivity | reflexivity] | reflexivity] |]);
    (split; [reflexivity |]); cbn [flags_ set_flags]; lookups; values; rewrite ?Hu, ?uwrap_idemp, ?(uwrap_small 64 link Hl); reflexivity.
Qed.

(** [jalr] in the interpreter, to an even target. *)
Lemma even_target (t : Z) : t mod 2 = 0 -> 2 * (t / 2) = t.
Proof. intros E. pose proof (Z.div_mod t 2 ltac:(lia)). lia. Qed.
Lemma jalr_step (d : jit_decode) (h : hart) (M : memory) (s : xstate) :
  jd_op d = Rv rv_op_jalr -> jit_wf d -> matches h M s -> pc h = jd_pc d -> (get_reg h (jd_rs1 d) + jd_imm d) mod 2 = 0 ->
  guest_step exec_fp fl d h M
  = Some (set_pc (get_reg h (jd_rs1 d) +[64] jd_imm d) (put_reg (jd_rd d) (swrap 64 (cont_pc d)) h), M).
Proof.
  intros Eo Hd Hm Hpc Ht. unfold guest_step. rewrite Eo.
  rewrite (control_step exec_fp fl _ d h M s (Some (swrap 64 (cont_pc d))) (get_reg h (jd_rs1 d) +[64] jd_imm d)); try assumption; [reflexivity |].
  rewrite (cont_next d h Hpc). cbn [isa_control]. rewrite (even_target _ Ht). reflexivity.
Qed.

Lemma word_mod_2 (x : Z) : uwrap 64 x mod 2 = x mod 2.
Proof. apply (Z.mod_mod_divide x (2 ^ 64) 2). exists (2 ^ 63). reflexivity. Qed.

Lemma return_simulated (d : jit_decode) (cs : list Z) (h : hart) (M : memory) (e : est) (s : xstate) :
  jd_op d = Rv rv_op_jalr -> is_return d cs = true -> before d cs h M e s -> ready cs d h ->
  simulated (emit_jalr d) d cs h M e s.
Proof.
  intros Eo Hret [Hd Hm Hpc He Hi Hc Hcs Hok] Hx. unfold ready in Hx. rewrite Eo, Hret in Hx. destruct Hx as [Himm Hfit].
  assert (Hregs : jd_rd d = 0 /\ jd_rs1 d = rv_ireg_ra /\ exists link cs', cs = link :: cs').
  { unfold is_return in Hret. rewrite Eo in Hret. apply andb_true_iff in Hret as [Hret Hlen]. apply andb_true_iff in Hret as [H0 H1].
    apply Z.eqb_eq in H0, H1. destruct cs as [| link cs']; [discriminate Hlen | eauto]. }
  destruct Hregs as (Hrd & Hrs & link & cs' & Ecs). rewrite Ecs in Hok. apply Forall_cons in Hok as [[Hlu Hl2] Hok].
  assert (Hret' : is_return d (e_callstack e) = true) by (rewrite Hcs; exact Hret).
  destruct (return_code d e Hret') as [Ec Es]. set (e1 := set_e_callstack _ _) in *.
  destruct (exit_tramp_state (jd_pc d) e1) as (_ & Etr & Ei & Ecall & Et).
  unfold simulated. rewrite Ec, Es. rewrite Hcs, Ecs in *. cbn [hd] in *.
  destruct (return_runs d link s (mt_host _ _ _ Hm) Hlu) as (s' & Er & Hid & Hf & Hfl); [rewrite Hrs; exact Hfit |].
  pose proof (matches_idle _ _ _ _ Hid Hm) as Hm'.
  rewrite run_code_app, Er. cbv iota beta. cbn [run_code]. rewrite Hfl. cbn [mbind option_bind].
  rewrite holds_ne by (assumption || lia || apply Hm).
  destruct (Z.eqb_spec (guest_reg s (jd_rs1 d)) link) as [El | El]; cbn [negb].
  - exists s', Through. split; [reflexivity |].
    assert (Ereg : uwrap 64 (get_reg h (jd_rs1 d)) = link) by (rewrite <- (mt_regs _ _ _ Hm _ (jw_rs1 _ Hd)); exact El).
    assert (Etarget : get_reg h (jd_rs1 d) +[64] jd_imm d = link) by (rewrite Himm, Z.add_0_r; exact Ereg).
    assert (Heven : (get_reg h (jd_rs1 d) + jd_imm d) mod 2 = 0) by (rewrite Himm, Z.add_0_r, <- word_mod_2, Ereg; exact Hl2).
    pose proof (jalr_step d h M s Eo Hd Hm Hpc Heven) as Hstep. rewrite Etarget, Hrd in Hstep.
    apply (goes_on d _ h M e s _ (set_pc link h) M link cs'); try assumption.
    + unfold next_of. rewrite Eo, Hret. reflexivity.
    + reflexivity.
    + apply matches_pc; assumption.
    + rewrite Hf. exact Hc.
    + unfold counted. rewrite Hf, Ei. reflexivity.
    + rewrite Ei. exact (conj (proj1 Hi) (Z.le_refl _)).
    + rewrite Ecall. unfold e1. cbn. rewrite Hcs. reflexivity.
    + rewrite Hret, Et. reflexivity.
  - eexists s', _. split; [reflexivity |]. apply misses; try assumption. rewrite Hf. exact Hc.
Qed.

(** The code that sets the program counter of an indirect jump. *)
Definition target_code (d : jit_decode) : list instr :=
  if x86_reg (jd_rs1 d) >? 0
  then if jd_imm d =? 0 then [as_mov (Field P_pc) (gpq (x86_reg (jd_rs1 d)))]
       else [as_lea rax (Mem 64 (x86_reg (jd_rs1 d)) (jd_imm d)); as_mov (Field P_pc) rax]
  else [as_mov rax (rbp_reg_q (jd_rs1 d)); as_add rax (Const (jd_imm d)); as_mov (Field P_pc) rax].
Lemma indirect_code (d : jit_decode) (e : est) :
  jd_op d = Rv rv_op_jalr -> is_return d (e_callstack e) = false -> jd_rs1 d <> 0 ->
  code_of (emit_jalr d) e = code_of commit_instret (set_e_term_pc 0 e) ++ target_code d
    ++ link_code (jd_rd d) (swrap 64 (cont_pc d)) ++ [as_jmp_abs lookup_trace_fast].
Proof.
  intros Eo Hr H1. unfold is_return in Hr. rewrite Eo in Hr.
  unfold emit_jalr, callstack_size. cbv zeta. rewrite !code_bind.
  cbn [result_of state_of code_of set_term_pc modify gets fst snd app]. cbn [e_callstack set_e_term_pc]. rewrite Hr.
  rewrite code_bind. f_equal. rewrite code_bind.
  assert (Epush : forall e, code_of (if jd_rd d =? rv_ireg_ra then callstack_push (cont_pc d) else mret tt) e = [])
    by (intros; destruct (jd_rd d =? rv_ireg_ra); reflexivity).
  unfold cont_pc in Epush at 1. rewrite Epush. cbn [app]. unfold rv_ireg_zero. rewrite (proj2 (Z.eqb_neq _ 0) H1).
  unfold target_code, link_code, cont_pc, rv_ireg_zero.
  destruct (x86_reg (jd_rs1 d) >? 0); [destruct (jd_imm d =? 0) |]; (destruct (jd_rd d =? 0); [| destruct (x86_reg (jd_rd d) >? 0)]); reflexivity.
Qed.

Lemma target_runs (d : jit_decode) (s : xstate) : xstate_wf s -> in_s 32 (jd_imm d) ->
  exists s', run_code documented None (target_code d) s = Some (s', Through)
    /\ idle s s' /\ pfield s' P_pc = uwrap 64 (guest_reg s (jd_rs1 d) + jd_imm d) /\ pfield s' P_instret = pfield s P_instret.
Proof.
  intros [Hr Hz] Hi. unfold target_code.
  destruct d as [pc inst imm op rd rs1 rs2 rs3 brt brc sz]; cbn [jd_rs1 jd_imm] in *.
  destruct (place rs1) as [(q & E & Hq) | [E | [E ->]]]; rewrite E; cbn [Z.gtb Z.compare].
  1: destruct (Z.eqb_spec imm 0) as [-> |].
  all: run_it; constants; run_it; eexists; (split; [reflexivity |]);
    (split; [split; [apply scratch_guest; [intros; cbn [xr set_flags set_xr set_field]; lookups; reflexivity | reflexivity] | reflexivity] |]);
    (split; [| reflexivity]); cbn [pfield set_field]; lookups; values; rewrite ?uwrap_idemp, ?uwrap_add_r, ?uwrap_add_l, ?Z.add_0_r; try reflexivity.
  symmetry. apply uwrap_small, Hr.
Qed.

Lemma indirect_simulated (d : jit_decode) (cs : list Z) (h : hart) (M : memory) (e : est) (s : xstate) :
  jd_op d = Rv rv_op_jalr -> is_return d cs = false -> before d cs h M e s -> ready cs d h ->
  simulated (emit_jalr d) d cs h M e s.
Proof.
  intros Eo Hret [Hd Hm Hpc He Hi Hc Hcs Hok] Hx. unfold ready in Hx. rewrite Eo, Hret in Hx. destruct Hx as [H1 Heven].
  destruct (pc_ranges d) as [Rc _]. unfold simulated. rewrite indirect_code by (rewrite ?Hcs; assumption).
  set (e1 := set_e_term_pc 0 e).
  destruct (commit_runs e1 s Hi Hc) as (s1 & R1 & I1 & C1 & N1 & Z1 & _). pose proof (matches_idle _ _ _ _ I1 Hm) as Hm1.
  destruct (target_runs d s1 (mt_host _ _ _ Hm1) (jw_imm _ Hd)) as (s2 & R2 & I2 & P2 & C2).
  pose proof (matches_idle _ _ _ _ I2 Hm1) as Hm2.
  destruct (link_matches (jd_rd d) (cont_pc d) h M s2 Hm2 (jw_rd _ Hd) Rc) as (s3 & R3 & Hm3 & Hf).
  rewrite run_code_app, R1; cbv iota beta. rewrite run_code_app, R2; cbv iota beta. rewrite run_code_app, R3; cbv iota beta.
  cbn [run_code]. exists s3, (To_address lookup_trace_fast). split; [reflexivity |].
  apply (leaves_for d cs h M e s _ _ _ s3 _ (jalr_step d h M s Eo Hd Hm Hpc Heven)).
  - apply matches_pc; [exact Hm3 | apply uwrap_range; lia].
  - rewrite Hf, C2. exact C1.
  - discriminate.
  - apply at_lookup. cbn. rewrite Hf, P2, (mt_regs _ _ _ Hm1 _ (jw_rs1 _ Hd)). apply uwrap_add_l.
  - intros Eu. rewrite Hf, C2. change (counted s e) with (counted s e1). rewrite <- N1. unfold counted. rewrite (Z1 Eu).
    destruct update_instret; rewrite Z.add_0_r, uwrap_small by exact C1; reflexivity.
Qed.

(** ** Fused groups *)

Lemma fused_on_simulated (o : jit_op) (d : jit_decode) (cs : list Z) (h : hart) (M : memory) (e : est) (s : xstate) :
  jd_op d = Fused o -> o <> jit_op_call -> before d cs h M e s -> fused_exact o d ->
  exists f, emit_case (Fused o) = Some (fused_size o, f) /\ simulated (f d) d cs h M e s.
Proof.
  intros Eo Ho [Hd Hm Hpc He Hi Hc Hcs Hok] Hx.
  destruct (fused_simulated Hmmu d h M e s Hd Hm o Ho Hx) as (f & h' & M' & s' & Ec & Es & Ep & Er & Hm' & Hf).
  exists f. split; [exact Ec |]. exists s', Through. split; [exact Er |].
  destruct (fused_plain o _ f d Ho Ec e) as [n En]. rewrite En.
  assert (Hnext : next_of cs d = Some (end_pc d, cs)) by (unfold next_of; rewrite Eo; destruct o; congruence).
  apply (goes_on d cs h M e s _ h' M' (end_pc d) cs); try assumption.
  - unfold guest_step. rewrite Eo. exact Es.
  - rewrite Hf. exact Hc.
  - unfold counted. rewrite Hf. reflexivity.
  - cbn. lia.
  - unfold is_return. rewrite Eo. reflexivity.
Qed.

Lemma call_simulated (d : jit_decode) (cs : list Z) (h : hart) (M : memory) (e : est) (s : xstate) :
  jd_op d = Fused jit_op_call -> before d cs h M e s -> fused_exact jit_op_call d -> simulated (emit_call d) d cs h M e s.
Proof.
  intros Eo [Hd Hm Hpc He Hi Hc Hcs Hok] (Hrd & Himm & _).
  destruct (call_code d e Hrd) as [Ec Es]. unfold simulated. rewrite Ec, Es.
  destruct (link_matches rv_ireg_ra (end_pc d) h M s Hm ltac:(unfold is_reg, rv_ireg_ra; lia) (end_pc_range d)) as (s' & Er & Hm' & Hf).
  assert (Ht : uwrap 64 (2 * ((jd_pc d + jd_imm d) / 2)) = la_addr d).
  { rewrite even_target; [reflexivity |]. rewrite Z.add_mod, (jw_pc _ Hd), Himm by lia. reflexivity. }
  exists s', Through. split; [exact Er |].
  apply (goes_on d cs h M e s _ (set_pc (la_addr d) (put_reg rv_ireg_ra (swrap 64 (end_pc d)) h)) M (la_addr d) (end_pc d :: cs)).
  - unfold next_of. rewrite Eo. reflexivity.
  - unfold guest_step. rewrite Eo. cbn [fused_step]. rewrite Hrd, Ht. reflexivity.
  - reflexivity.
  - apply matches_pc; [exact Hm' | apply uwrap_range; lia].
  - rewrite Hf. exact Hc.
  - unfold counted. rewrite Hf. reflexivity.
  - cbn. lia.
  - cbn. rewrite Hcs. reflexivity.
  - unfold is_return. rewrite Eo. reflexivity.
Qed.

(** Every instruction the theorem is about. *)
Lemma covered_simulated (d : jit_decode) (cs : list Z) (h : hart) (M : memory) (e : est) (s : xstate) :
  covered d = true -> before d cs h M e s -> ready cs d h ->
  exists f, emit_case (jd_op d) = Some (retired d, f) /\ simulated (f d) d cs h M e s.
Proof.
  intros Hcov Hb Hx. unfold covered in Hcov. unfold retired. destruct (jd_op d) as [o | o] eqn:Eo.
  2:{ unfold ready in Hx. rewrite Eo in Hx. destruct (decide (o = jit_op_call)) as [-> | Ho].
      - exists emit_call. split; [reflexivity | apply call_simulated; assumption].
      - exact (fused_on_simulated o d cs h M e s Eo Ho Hb Hx). }
  destruct (is_branch o) eqn:Eb; [eapply branch_simulated; eassumption |].
  destruct (straight fl o) eqn:Es.
  - eapply straight_simulated; try eassumption. unfold ready in Hx. rewrite Eo in Hx. destruct o; try exact Hx. discriminate Es.
  - destruct o; try discriminate Hcov; try (cbn in Hcov; rewrite Es in Hcov; discriminate Hcov); (eexists; split; [reflexivity |]).
    + eapply jal_simulated; eassumption.
    + destruct (is_return d cs) eqn:Er; [eapply return_simulated | eapply indirect_simulated]; eassumption.
Qed.

(** ** The trace *)

(** The count of [n] instructions, when they are counted. *)
Definition tick (n : Z) : Z := if update_instret then n else 0.
Lemma counted_tick (n : Z) (s : xstate) (e : est) :
  counted s (set_e_instret (e_instret e + n) e) = uwrap 64 (counted s e + tick n).
Proof. unfold counted, tick. cbn. destruct update_instret; rewrite uwrap_add_l; f_equal; lia. Qed.

(** The label of a branch target commits what is pending. *)
Lemma mark_runs (d : jit_decode) (e : est) (s : xstate) :
  est_wf e -> 0 <= e_instret e < 2 ^ 31 -> in_u 64 (pfield s P_instret) -> e_labels e !! jd_pc d = None ->
  let e' := state_of (mark d) e in
  exists s', run_code documented None (code_of (mark d) e) s = Some (s', Through) /\ idle s s'
    /\ in_u 64 (pfield s' P_instret) /\ counted s' e' = counted s e
    /\ est_wf e' /\ 0 <= e_instret e' <= e_instret e /\ e_callstack e' = e_callstack e.
Proof.
  intros He Hi Hc El e'. unfold e', mark. destruct (jd_brt d).
  - destruct (commit_runs e s Hi Hc) as (s' & R & I & C & N & _ & _). destruct (commit_state e He ltac:(lia)) as (W & Hi' & Hcs).
    set (e1 := state_of commit_instret e) in *. exists s'.
    rewrite code_bind, state_bind. fold e1. rewrite run_code_app, R. cbv iota beta. split; [reflexivity |].
    split; [exact I | split; [exact C | split; [exact N | split; [| split; [exact Hi' | exact Hcs]]]]].
    apply (scoped_mark (e_next e1) (jd_pc d) e1 W ltac:(lia)). unfold e1. rewrite commit_labels. exact El.
  - exists s. split; [reflexivity | split; [split; reflexivity | split; [exact Hc | split; [reflexivity | split; [exact He | split; [| reflexivity]]]]]].
    cbn. lia.
Qed.

(** One instruction of the trace, marked and counted. *)
Lemma emit_simulated (d : jit_decode) (cs : list Z) (h : hart) (M : memory) (e : est) (s : xstate) :
  covered d = true -> before d cs h M e s -> ready cs d h -> e_labels e !! jd_pc d = None -> e_instret e + retired d < 2 ^ 31 ->
  exists e2 s1 s' x, run_code documented None (code_of (emit d) e) s = Some (s', x)
    /\ runs_to d cs h M e2 s1 (state_of (emit d) e) s' x
    /\ counted s1 e2 = uwrap 64 (counted s e + tick (retired d)) /\ 0 <= e_instret e2 <= e_instret e + retired d.
Proof.
  intros Hcov [Hd Hm Hpc He Hi Hc Hcs Hok] Hx El Hb. pose proof (retired_range d) as Hret.
  destruct (mark_runs d e s He Hi Hc El) as (s1 & R1 & I1 & C1 & N1 & W1 & Hi1 & Hcs1).
  set (e1 := state_of (mark d) e) in *. set (e2 := set_e_instret (e_instret e1 + retired d) e1).
  assert (Hbefore : before d cs h M e2 s1).
  { split; try assumption; [exact (matches_idle _ _ _ _ I1 Hm) | destruct W1; split; assumption | cbn; lia | cbn; congruence]. }
  destruct (covered_simulated d cs h M e2 s1 Hcov Hbefore Hx) as (f & Ec & s' & x & R2 & Hto).
  destruct (emit_parts d (retired d) f e El Ec) as [Ecode Estate]. fold e1 e2 in Ecode, Estate.
  exists e2, s1, s', x. rewrite Ecode, Estate, run_code_app, R1. cbv iota beta.
  split; [exact R2 | split; [exact Hto | split; [| cbn; lia]]]. unfold e2. rewrite counted_tick, N1. reflexivity.
Qed.

(** How the code of a trace ends, after [k] steps of the interpreter. *)
Record trace_end (ds : list jit_decode) (h : hart) (M : memory) (e : est) (s : xstate) (s' : xstate) (x : exit_) (k : nat) (h' : hart) (M' : memory) : Prop := {
  te_steps : steps exec_fp fl (firstn k ds) h M = Some (h', M');
  te_matches : matches h' M' s';
  te_counter : in_u 64 (pfield s' P_instret);
  te_exit : let e' := state_of (emit_all ds) e in
    x = Through /\ k = length ds /\ counted s' e' = uwrap 64 (counted s e + tick (retired_all ds))
      /\ (jd_op <$> last ds = Some (Rv rv_op_jalr) /\ e_term_pc e' = 0 \/ ds = [] \/ e_term_pc e' = pc h')
    \/ leaves e' s' (pc h') x
      /\ ((exists l, x = To_label l /\ e_exit_tramp e' !! pc h' = Some l)
          \/ (update_instret = true -> pfield s' P_instret = uwrap 64 (counted s e + retired_all (firstn k ds)))) }.

(** What is asked of a trace. *)
Record trace_ok (ds : list jit_decode) (cs : list Z) (h : hart) (M : memory) (e : est) (s : xstate) : Prop := {
  to_path : path (pc h) cs ds;
  to_covered : Forall (fun d => covered d = true /\ jit_wf d) ds;
  to_ready : all_ready cs ds h M;
  to_once : NoDup (map jd_pc ds);
  to_fresh : Forall (fun d => e_labels e !! jd_pc d = None) ds;
  to_matches : matches h M s;
  to_est : est_wf e;
  to_instret : 0 <= e_instret e /\ e_instret e + retired_all ds < 2 ^ 31;
  to_counter : in_u 64 (pfield s P_instret);
  to_callstack : e_callstack e = cs;
  to_callstack_ok : callstack_ok cs }.

Lemma leaves_seek (ds : list jit_decode) (e : est) (s : xstate) (p : Z) (x : exit_) : est_wf e -> leaves e s p x -> x <> Through ->
  match x with
  | Through => run_code documented None (code_of (emit_all ds) e) s
  | To_label l => run_code documented (Some l) (code_of (emit_all ds) e) s
  | To_address a => Some (s, To_address a)
  | Return => Some (s, Return)
  end = Some (s, x).
Proof.
  intros He Hv Hx. destruct Hv as [l E | l E | l E | E | E]; try reflexivity; apply seek_past; try exact He.
  - exact (ew_labels _ He _ _ E).
  - exact (ew_jmp _ He _ _ E).
  - exact (ew_exit _ He _ _ E).
Qed.

Lemma inst_length_even (inst : Z) : inst_length inst mod 2 = 0.
Proof. unfold inst_length. repeat match goal with |- context [if ?c then _ else _] => destruct c end; reflexivity. Qed.
Lemma cont_even (d : jit_decode) : jit_wf d -> in_u 64 (cont_pc d) /\ cont_pc d mod 2 = 0.
Proof.
  intros Hd. split; [apply uwrap_range; lia |]. unfold cont_pc. rewrite word_mod_2.
  rewrite Z.add_mod, (jw_pc _ Hd), inst_length_even by lia. reflexivity.
Qed.
Lemma next_callstack (d : jit_decode) (cs cs' : list Z) (h : hart) (p : Z) :
  jit_wf d -> ready cs d h -> callstack_ok cs -> next_of cs d = Some (p, cs') -> callstack_ok cs'.
Proof.
  intros Hd Hx Hok E. unfold next_of in E. unfold ready in Hx. destruct (jd_op d) as [o | o].
  - destruct o; try (injection E as _ <-; exact Hok).
    + injection E as _ <-. destruct (_ =? _); [| exact Hok]. apply Forall_cons_2; [apply cont_even, Hd | exact Hok].
    + destruct (is_return d cs); [| discriminate E]. injection E as _ <-. destruct cs; [exact Hok | apply Forall_cons in Hok; apply Hok].
  - destruct o; try (injection E as _ <-; exact Hok). injection E as _ <-. apply Forall_cons_2; [| exact Hok].
    destruct Hx as (_ & _ & Hsz). split; [apply end_pc_range |]. unfold end_pc. rewrite word_mod_2, Z.add_mod, (jw_pc _ Hd), Hsz by lia. reflexivity.
Qed.
Lemma covered_case (d : jit_decode) : covered d = true -> exists f, emit_case (jd_op d) = Some (retired d, f).
Proof.
  unfold covered, retired. destruct (jd_op d) as [o | o]; [| intros _; destruct o; eexists; reflexivity].
  destruct o; intros E; try (eexists; reflexivity); try (cbn in E; discriminate E).
Qed.

(** The rest of a trace after an instruction that goes on. *)
Lemma trace_ok_tail (d : jit_decode) (ds : list jit_decode) (cs cs' : list Z) (h h' : hart) (M M' : memory) (e e2 : est) (s s1 s' : xstate) (p : Z) :
  trace_ok (d :: ds) cs h M e s -> next_of cs d = Some (p, cs') -> guest_step exec_fp fl d h M = Some (h', M') -> pc h' = p ->
  matches h' M' s' -> in_u 64 (pfield s' P_instret) -> 0 <= e_instret (state_of (emit d) e) <= e_instret e + retired d ->
  e_callstack (state_of (emit d) e) = cs' -> trace_ok ds cs' h' M' (state_of (emit d) e) s'.
Proof.
  intros [[P1 P2] C R O F Hm He [Hi1 Hi2] Hc Hcs Hok] En Es Ep Hm' Hc' Hi' Hcs'.
  rewrite En in P2. apply Forall_cons in C as [[Cd Wd] C]. destruct R as [Rd R]. cbn [retired_all fold_right] in Hi2. fold (retired_all ds) in Hi2. rewrite En, Es in R.
  apply NoDup_cons in O as [O1 O2]. apply Forall_cons in F as [_ F].
  split; try assumption.
  - rewrite Ep. exact P2.
  - exact (R Ep).
  - destruct (covered_case d Cd) as [f Ec]. rewrite Forall_forall in F |- *. intros d' Hin.
    rewrite (emit_labels d (retired d) f _ e Ec); [exact (F d' Hin) |]. intros Eq. apply O1. rewrite <- Eq. apply list_elem_of_In, in_map, list_elem_of_In, Hin.
  - apply (emit_scoped d (e_next e) e He). lia.
  - lia.
  - exact (next_callstack d cs cs' h p Wd Rd Hok En).
Qed.

Lemma tick_add (m n c : Z) : uwrap 64 (uwrap 64 (c + tick m) + tick n) = uwrap 64 (c + tick (m + n)).
Proof. rewrite uwrap_add_l. f_equal. unfold tick. destruct update_instret; lia. Qed.
Lemma tick_counted (n : Z) (s : xstate) (e : est) : update_instret = true -> uwrap 64 (counted s e + tick n) = uwrap 64 (counted s e + n).
Proof. intros E. unfold tick. rewrite E. reflexivity. Qed.
Lemma state_cons (d : jit_decode) (ds : list jit_decode) (e : est) :
  state_of (emit_all (d :: ds)) e = state_of (emit_all ds) (state_of (emit d) e).
Proof. cbn [emit_all]. apply state_bind. Qed.

(** One more instruction on the path. *)
Lemma trace_end_cons (d : jit_decode) (ds : list jit_decode) (h h' h'' : hart) (M M' M'' : memory) (e : est) (s s' s'' : xstate) (x : exit_) (k : nat) :
  jd_pc d = pc h -> guest_step exec_fp fl d h M = Some (h', M') ->
  counted s' (state_of (emit d) e) = uwrap 64 (counted s e + tick (retired d)) ->
  (jd_op d = Rv rv_op_jalr /\ e_term_pc (state_of (emit d) e) = 0 \/ e_term_pc (state_of (emit d) e) = pc h') ->
  trace_end ds h' M' (state_of (emit d) e) s' s'' x k h'' M'' -> trace_end (d :: ds) h M e s s'' x (S k) h'' M''.
Proof.
  intros Epc Es N T [T1 T2 Tc T3]. split; [| exact T2 | exact Tc |].
  - cbn [firstn steps]. rewrite Epc, Z.eqb_refl, Es. exact T1.
  - cbv zeta in *. rewrite state_cons. destruct T3 as [(-> & -> & Hn & Ht) | (Hv & Hc)]; [left | right].
    + split; [reflexivity | split; [reflexivity | split]].
      * rewrite Hn, N, tick_add. reflexivity.
      * destruct Ht as [Ht | [-> | Ht]]; [| | right; right; exact Ht].
        -- left. rewrite last_cons. destruct (last ds); [exact Ht | destruct Ht; discriminate].
        -- cbn in T1. injection T1 as -> ->. destruct T as [[T T0] | T]; [left; cbn; rewrite T; split; [reflexivity | exact T0] | right; right; exact T].
    + split; [exact Hv |]. destruct Hc as [Hc | Hc]; [left; exact Hc | right]. intros Eu.
      rewrite (Hc Eu), N. unfold tick. rewrite Eu, uwrap_add_l. f_equal. cbn [firstn retired_all fold_right]. unfold retired_all. lia.
Qed.

Lemma trace_runs (ds : list jit_decode) : forall (cs : list Z) (h : hart) (M : memory) (e : est) (s : xstate),
  trace_ok ds cs h M e s ->
  exists s' x k h' M', run_code documented None (code_of (emit_all ds) e) s = Some (s', x)
    /\ (k <= length ds)%nat /\ trace_end ds h M e s s' x k h' M'
    /\ (k = 0%nat -> match ds with d :: _ => is_return d cs = true | [] => True end).
Proof.
  induction ds as [| d ds IH]; intros cs h M e s Hok.
  - exists s, Through, 0%nat, h, M. split; [reflexivity | split; [lia | split; [| auto]]]. split; [reflexivity | apply Hok | apply Hok |].
    left. split; [reflexivity | split; [reflexivity | split; [| auto]]]. unfold tick. cbn. destruct update_instret; rewrite Z.add_0_r; symmetry; apply uwrap_small, uwrap_range; lia.
  - pose proof Hok as [[P1 P2] C R O F Hm He [Hi1 Hi2] Hc Hcs Hcok].
    apply Forall_cons in C as [[Cd Wd] C]. destruct R as [Rd R]. apply Forall_cons in F as [Fd F]. cbn [retired_all fold_right] in Hi2. fold (retired_all ds) in Hi2.
    pose proof (retired_range d) as Hret0. pose proof (retired_all_range ds) as Hrets.
    assert (Hb : before d cs h M e s) by (split; auto; lia).
    destruct (emit_simulated d cs h M e s Cd Hb Rd Fd ltac:(lia)) as (e2 & s1 & s' & x & R1 & Hto & N1 & I2).
    destruct (emit_scoped d (e_next e) e He ltac:(lia)) as (_ & W & _).
    destruct (emit_all_scoped ds _ _ W (Z.le_refl _)) as (G & _ & _).
    cbn [emit_all]. rewrite code_bind, run_code_app, R1.
    destruct Hto as [h' M' p cs' s' En Es Ep Hm' Hc' N' I' K' T' | h' M' s' x Es Hm' Hc' Hx Hv N' | s' l Hret Hm' Hc' El].
    + cbv iota beta.
      destruct (IH cs' h' M' (state_of (emit d) e) s') as (s'' & x & k & h'' & M'' & R2 & Hk & Hend & _).
      { eapply (trace_ok_tail d ds cs cs' h h' M M' e e2 s s1 s' p); try eassumption. lia. }
      exists s'', x, (S k), h'', M''. split; [exact R2 | split; [cbn; lia | split; [| discriminate]]].
      eapply trace_end_cons; [exact P1 | exact Es | rewrite N'; exact N1 | | exact Hend]. rewrite T', Ep. unfold next_of in En. destruct (is_return d cs) eqn:Er; [left | right; reflexivity].
      split; [| reflexivity]. unfold is_return in Er. destruct (jd_op d) as [[] |]; try discriminate Er; reflexivity.
    + exists s', x, 1%nat, h', M'. split; [| split; [cbn; lia | split; [| discriminate]]].
      { pose proof (leaves_seek ds _ _ _ _ W Hv Hx) as Hseek. destruct x; exact Hseek. }
      split; [cbn; rewrite P1, Z.eqb_refl, Es; destruct ds; reflexivity | exact Hm' | exact Hc' |]. cbv zeta. rewrite state_cons. right.
      split; [exact (leaves_grows _ _ _ _ _ G Hv) | right]. intros Eu. rewrite (N' Eu), N1, (tick_counted _ _ _ Eu). cbn [firstn retired_all fold_right]. rewrite Z.add_0_r. reflexivity.
    + exists s', (To_label l), 0%nat, h, M.
      assert (Hv : leaves (state_of (emit d) e) s' (pc h) (To_label l)) by (apply at_return; rewrite <- P1; exact El).
      split; [exact (leaves_seek ds _ _ _ _ W Hv ltac:(discriminate)) | split; [cbn; lia | split; [| auto]]].
      split; [reflexivity | exact Hm' | exact Hc' |]. cbv zeta. rewrite state_cons. right.
      split; [exact (leaves_grows _ _ _ _ _ G Hv) | left]. exists l. split; [reflexivity |]. rewrite <- P1.
      eapply lookup_weaken; [exact El | apply G].
Qed.
End Traces.
