(* ===== verification/JitFunction.v ===== *)
(** * The compiled function of a trace: prologue, trace, epilogue

    [jit_trace] surrounds the code of the trace with code that takes the guest's
    registers from the processor object to the host's registers and back.  Called
    on a processor object that holds the interpreter's state, the function returns
    with the state the interpreter reaches, the host's saved registers and its
    stack as they were, or goes on to another trace with the program counter the
    interpreter has. *)

From Stdlib Require Import ZArith Lia Bool List.
From stdpp Require Import base list option numbers gmap sorting.
From S2P Require Import Prelude Alu Meta Codec Replay Interp Isa Mmu X86 Jit JitEmit JitProofs JitMem JitCorrect JitLabels JitFused JitTrace.

#[local] Open Scope Z_scope.
#[local] Open Scope word_scope.

(** ** The stack *)

(** Code that neither pushes, pops nor returns. *)
Definition flat (i : instr) : bool := match i with as_push _ | as_pop _ | as_ret => false | _ => true end.

Lemma write_stack (w : Z) (o : opnd) (v : Z) (s s' : xstate) : write w o v s = Some s' -> stack s' = stack s.
Proof.
  unfold write. destruct o; try discriminate; try (destruct (_ =? _); [| discriminate]); intros E; injection E as <-; reflexivity.
Qed.
Ltac stack_step :=
  repeat match goal with
  | H : mbind _ ?o = Some _ |- _ => destruct o eqn:?; [cbn [mbind option_bind] in H | discriminate H]
  | H : (if ?c then _ else _) = Some _ |- _ => destruct c; try discriminate H
  | H : match ?c with _ => _ end = Some _ |- _ => destruct c; try discriminate H
  | H : Some _ = Some _ |- _ => injection H as <-
  | H : write _ _ _ _ = Some _ |- _ => apply write_stack in H
  end; cbn [stack set_flags set_xr set_pair]; congruence || auto.
Lemma documented_stack (i : instr) (s s' : xstate) : flat i = true -> documented i s = Some s' -> stack s' = stack s.
Proof.
  intros Hi H. destruct i; try discriminate Hi; try discriminate H; cbn [documented] in H;
    unfold binary, compare, shift, divide in H; stack_step.
Qed.
Lemma run_stack (c : list instr) : forall (seek : option Z) (s s' : xstate) (x : exit_),
  forallb flat c = true -> run_code documented seek c s = Some (s', x) -> stack s' = stack s.
Proof.
  induction c as [| i c IH]; intros seek s s' x Hc Hr; [injection Hr as <- _; reflexivity |].
  cbn [forallb] in Hc. apply andb_true_iff in Hc as [Hi Hc].
  assert (Hs : (s ← documented i s; run_code documented None c s) = Some (s', x) -> stack s' = stack s).
  { destruct (documented i s) as [s1 |] eqn:E; [| discriminate]. intros R. rewrite (IH None s1 s' x Hc R). exact (documented_stack i s s1 Hi E). }
  cbn [run_code] in Hr. destruct seek as [l |].
  - destruct i; eapply IH; eassumption.
  - destruct i; try exact (Hs Hr); try (eapply IH; eassumption); try (injection Hr as <- _; reflexivity);
      (destruct (flags_ s) as [f |]; [cbn [mbind option_bind] in Hr | discriminate Hr]; destruct (holds_cond c0 f);
       [first [injection Hr as <- _; reflexivity | eapply IH; eassumption] | eapply IH; eassumption]).
Qed.

Section Flat.
Context `{Jit}.

(** An emitter's own count: it only commits. *)
Definition counts {A} (m : M A) : Prop := forall e, 0 <= e_instret e -> 0 <= e_instret (state_of m e) <= e_instret e.
Lemma counts_bind {A B} (m : M A) (k : A -> M B) : counts m -> (forall a, counts (k a)) -> counts (m ≫= k).
Proof.
  intros Hm Hk e He. rewrite state_bind. specialize (Hm e He). specialize (Hk (result_of m e) (state_of m e) ltac:(lia)). lia.
Qed.
Lemma counts_commit : counts commit_instret.
Proof. intros e He. unfold commit_instret, state_of, mbind, M_bind, gets. cbn. destruct (_ && _); cbn; lia. Qed.
Lemma counts_jump_tramp (p : Z) : counts (create_jump_tramp p).
Proof. intros e He. unfold create_jump_tramp, state_of, mbind, M_bind, gets. cbn. destruct (_ !! _); cbn; lia. Qed.
Lemma counts_exit_tramp (p : Z) : counts (create_exit_tramp p).
Proof. intros e He. unfold create_exit_tramp, state_of, mbind, M_bind, gets. cbn. destruct (_ !! _); cbn; lia. Qed.
Ltac counting :=
  lazymatch goal with
  | |- counts (let x := ?v in _) => cbv zeta; counting
  | |- counts commit_instret => exact counts_commit
  | |- counts (create_jump_tramp _) => apply counts_jump_tramp
  | |- counts (create_exit_tramp _) => apply counts_exit_tramp
  | |- counts (_ ≫= _) => apply counts_bind; [counting | intros; counting]
  | |- counts (if ?c then _ else _) => destruct c; counting
  | |- counts (match ?o with Some _ => _ | None => _ end) => destruct o; counting
  | |- _ => first [intros ? ?; cbn; lia | progress autounfold with emit_helpers; counting]
  end.
Lemma emit_case_counts (o : jop) (n : Z) (f : jit_decode -> M bool) (d : jit_decode) :
  emit_case o = Some (n, f) -> counts (f d) /\ 0 <= n <= 3.
Proof.
  intros E. destruct o as [o | o]; destruct o; try discriminate E; injection E as <- <-; (split; [| lia]).
  all: emitter_body.
  all: counting.
Qed.
Lemma emit_counts (d : jit_decode) (e : est) : 0 <= e_instret e -> 0 <= e_instret (state_of (emit d) e) <= e_instret e + 3.
Proof.
  intros He. unfold emit. rewrite state_bind. cbn [state_of result_of gets fst snd].
  destruct (e_labels e !! jd_pc d); [change (0 <= e_instret e <= e_instret e + 3); lia |]. rewrite state_bind.
  assert (Hm : counts (if jd_brt d
    then commit_instret;; l ← newLabel; modify (fun s => set_e_labels (<[jd_pc d := l]> (e_labels s)) s);; ins (as_bind l)
    else mret tt)) by counting.
  specialize (Hm e He). set (e1 := state_of _ e) in *.
  destruct (emit_case (jd_op d)) as [[n f] |] eqn:Ec; [| change (0 <= e_instret e1 <= e_instret e + 3); lia].
  destruct (emit_case_counts _ n f d Ec) as [Hf Hn]. rewrite state_bind. cbn [state_of result_of modify fst snd].
  specialize (Hf (set_e_instret (e_instret e1 + n) e1) ltac:(cbn; lia)). cbn in Hf. unfold state_of in *. lia.
Qed.
Lemma emit_all_counts (ds : list jit_decode) : forall e, 0 <= e_instret e ->
  0 <= e_instret (state_of (emit_all ds) e) <= e_instret e + 3 * Z.of_nat (length ds).
Proof.
  induction ds as [| d ds IH]; intros e He; [change (0 <= e_instret e <= e_instret e + 0); lia |]. rewrite state_cons. pose proof (emit_counts d e He) as Hd.
  specialize (IH (state_of (emit d) e) (proj1 Hd)). cbn [length]. rewrite Nat2Z.inj_succ. destruct Hd, IH. lia.
Qed.

Definition flat_code {A} (m : M A) : Prop := forall e, forallb flat (code_of m e) = true.
Lemma flat_bind {A B} (m : M A) (k : A -> M B) : flat_code m -> (forall a, flat_code (k a)) -> flat_code (m ≫= k).
Proof. intros Hm Hk e. rewrite code_bind, forallb_app, Hm, Hk. reflexivity. Qed.
Lemma flat_commit : flat_code commit_instret.
Proof. intros e. unfold commit_instret, code_of, mbind, M_bind, gets. cbn. destruct (_ && _); reflexivity. Qed.
Lemma flat_jump_tramp (p : Z) : flat_code (create_jump_tramp p).
Proof. intros e. unfold create_jump_tramp, code_of, mbind, M_bind, gets. cbn. destruct (_ !! _); reflexivity. Qed.
Lemma flat_exit_tramp (p : Z) : flat_code (create_exit_tramp p).
Proof. intros e. unfold create_exit_tramp, code_of, mbind, M_bind, gets. cbn. destruct (_ !! _); reflexivity. Qed.

Ltac flattening :=
  lazymatch goal with
  | |- flat_code (let x := ?v in _) => cbv zeta; flattening
  | |- flat_code commit_instret => exact flat_commit
  | |- flat_code (create_jump_tramp _) => apply flat_jump_tramp
  | |- flat_code (create_exit_tramp _) => apply flat_exit_tramp
  | |- flat_code (_ ≫= _) => apply flat_bind; [flattening | intros; flattening]
  | |- flat_code (if ?c then _ else _) => destruct c; flattening
  | |- flat_code (match ?o with Some _ => _ | None => _ end) => destruct o; flattening
  | |- _ => first [intros ?; reflexivity | progress autounfold with emit_helpers; flattening]
  end.
Lemma emit_case_flat (o : jop) (n : Z) (f : jit_decode -> M bool) (d : jit_decode) : emit_case o = Some (n, f) -> flat_code (f d).
Proof.
  intros E. destruct o as [o | o]; destruct o; try discriminate E; injection E as <- <-.
  all: emitter_body.
  all: flattening.
Qed.
Lemma emit_flat (d : jit_decode) : flat_code (emit d).
Proof.
  unfold emit. apply flat_bind; [intros e; reflexivity | intros labels]. destruct (labels !! jd_pc d); [intros e; reflexivity |].
  apply flat_bind; [flattening | intros _]. destruct (emit_case (jd_op d)) as [[n f] |] eqn:Ec; [| intros e; reflexivity].
  apply flat_bind; [intros e; reflexivity | intros _; exact (emit_case_flat _ n f d Ec)].
Qed.
Lemma emit_all_flat (ds : list jit_decode) : flat_code (emit_all ds).
Proof. induction ds as [| d ds IH]; [intros e; reflexivity |]. apply flat_bind; [apply emit_flat | intros _; exact IH]. Qed.
End Flat.

Section Function.
Context `{Jit}.

(** ** Entering and leaving *)

Lemma allocation_place (g : Z) : 0 < x86_reg g -> memory_registers = false /\ (g, x86_reg g) ∈ allocation.
Proof.
  unfold x86_reg. destruct memory_registers; [lia |]. unfold rv_ireg_zero. destruct (Z.eqb_spec g 0); [lia |].
  intros Hp. split; [reflexivity |]. destruct (find _ allocation) as [[g' q] |] eqn:E; [| lia].
  apply find_some in E as [Hin Hg]. cbn in Hg. apply Z.eqb_eq in Hg. subst g'. apply list_elem_of_In. exact Hin.
Qed.

(** Host registers that hold the slots' values hold the guest's. *)
Lemma guest_loaded (s s1 : xstate) : (memory_registers = false -> Forall (fun p => xr s1 p.2 = slot s p.1) allocation) ->
  slot s1 = slot s -> forall g, guest_reg s1 g = slot s g.
Proof.
  intros Ha Hs g. unfold guest_reg. destruct (Z.gtb_spec (x86_reg g) 0) as [Hp |]; [| rewrite Hs; reflexivity].
  destruct (allocation_place g Hp) as [Em Hin]. specialize (Ha Em). rewrite Forall_forall in Ha. exact (Ha _ Hin).
Qed.

(** What the prologue pushes. *)
Definition saved (s : xstate) : list Z :=
  xr s 5 :: if memory_registers then [] else [xr s 3; xr s 15; xr s 14; xr s 13; xr s 12].

Lemma prolog_state (e : est) : state_of emit_prolog e = set_e_instret 0 e.
Proof. unfold emit_prolog, state_of, mbind, M_bind. destruct memory_registers; reflexivity. Qed.
Lemma prolog_runs (e : est) (s : xstate) : (forall g, in_u 64 (slot s g)) ->
  exists s1, run_code documented None (code_of emit_prolog e) s = Some (s1, Through)
    /\ (forall g, guest_reg s1 g = slot s g) /\ mem s1 = mem s /\ pfield s1 = pfield s /\ stack s1 = saved s ++ stack s.
Proof.
  intros Hs. unfold emit_prolog, saved. destruct memory_registers eqn:Em.
  - cbn [negb]. run_it. eexists. split; [reflexivity |]. split; [| auto]. apply guest_loaded; [rewrite Em; discriminate | reflexivity].
  - cbn [negb]. unfold pushes, mov_list. run_it. eexists. split; [reflexivity |]. split; [| auto].
    apply guest_loaded; [intros _ | reflexivity].
    repeat (apply Forall_cons_2; [cbn - [uwrap]; apply uwrap_small, Hs |]). apply Forall_nil_2.
Qed.

(** The registers the epilogue pops. *)
Definition saved_regs : list Z := 5 :: if memory_registers then [] else [3; 15; 14; 13; 12].

(** The stores of the epilogue: every slot holds its register's value again. *)
Definition stored (s : xstate) : Z -> Z :=
  fold_left (fun f p => upd f p.1 (uwrap 64 (xr s p.2))) allocation (slot s).
Lemma stored_guest (s : xstate) (g : Z) : memory_registers = false -> (forall g, in_u 64 (guest_reg s g)) -> stored s g = guest_reg s g.
Proof.
  intros Em Hr.
  assert (Hu : forall p, In p allocation -> uwrap 64 (xr s p.2) = guest_reg s p.1).
  { intros p Hin. assert (E : guest_reg s p.1 = xr s p.2).
    { unfold guest_reg, x86_reg. rewrite Em. cbn in Hin. repeat (destruct Hin as [<- | Hin]; [reflexivity |]). destruct Hin. }
    rewrite <- E. apply uwrap_small, Hr. }
  unfold stored. cbn [allocation fold_left fst snd].
  repeat match goal with |- upd ?f ?i ?v g = _ => unfold upd at 1; destruct (Z.eqb_spec g i) as [-> |]; [exact (Hu (i, _) ltac:(cbn; tauto)) |] end.
  unfold guest_reg, x86_reg. rewrite Em. destruct (g =? rv_ireg_zero); [reflexivity |]. cbn [allocation find fst snd].
  repeat match goal with |- context [?a =? g] => rewrite (proj2 (Z.eqb_neq a g)) by auto end. reflexivity.
Qed.

Lemma stores_run (l : list (Z * Z)) (c : list instr) : forall s,
  run_code documented None (map (fun p => as_mov p.1 p.2) (stores_of l) ++ c) s
  = run_code documented None c (set_slot (fold_left (fun f p => upd f p.1 (uwrap 64 (xr s p.2))) l (slot s)) s).
Proof.
  induction l as [| [g r] l IH]; intros s; [destruct s; reflexivity |].
  exact (IH (set_slot (upd (slot s) g (uwrap 64 (xr s r))) s)).
Qed.

Lemma epilog_runs (e : est) (s s0 : xstate) (st : list Z) :
  0 <= e_instret e < 2 ^ 31 -> in_u 64 (pfield s P_instret) -> (forall g, in_u 64 (guest_reg s g)) -> stack s = saved s0 ++ st ->
  exists s', run_code documented None (code_of emit_epilog_body e) s = Some (s', Return)
    /\ (forall g, slot s' g = guest_reg s g) /\ mem s' = mem s /\ pfield s' P_pc = pfield s P_pc
    /\ pfield s' P_instret = counted s e /\ stack s' = st /\ Forall (fun r => xr s' r = xr s0 r) saved_regs.
Proof.
  intros Hi Hc Hr Hst. unfold emit_epilog_body. rewrite code_bind, run_code_app.
  destruct (commit_runs e s Hi Hc) as (s1 & R1 & I1 & C1 & N1 & Z1 & P1). rewrite R1. cbv iota beta.
  assert (Hst1 : stack s1 = saved s0 ++ st) by (rewrite <- Hst; exact (run_stack _ _ _ _ _ (flat_commit e) R1)).
  assert (Hn : pfield s1 P_instret = counted s e).
  { rewrite <- N1. unfold counted. destruct update_instret; [rewrite Z1 by reflexivity |]; rewrite Z.add_0_r, uwrap_small by exact C1; reflexivity. }
  destruct I1 as [Hg Hmem]. rewrite <- Hn, <- P1, <- Hmem.
  assert (Hr1 : forall g, in_u 64 (guest_reg s1 g)) by (intros; rewrite Hg; apply Hr).
  assert (Hfin : forall g, memory_registers = false -> stored s1 g = guest_reg s g) by (intros; rewrite stored_guest, Hg by assumption; reflexivity).
  clear R1 Hn P1 C1 N1 Z1. unfold saved, saved_regs in *. destruct memory_registers eqn:Em; cbn [negb app] in *.
  - run_it. rewrite Hst1. run_it. eexists. split; [reflexivity |]. cbn.
    split; [| repeat split; auto; repeat constructor].
    intros g. rewrite <- Hg. unfold guest_reg. rewrite (memory_place g Em). reflexivity.
  - unfold mov_list, pops, mbind, M_bind, code_of, ins. cbn [fst snd]. rewrite stores_run. fold (stored s1).
    cbn [app map run_code documented stack set_slot mbind option_bind]. rewrite Hst1.
    cbn [mbind option_bind app stack set_stack set_xr]. eexists. split; [reflexivity |]. cbn [slot mem pfield stack set_xr set_stack set_slot].
    split; [intros g; apply Hfin, eq_refl | repeat split; auto].
    repeat (apply Forall_cons_2; [reflexivity |]). apply Forall_nil_2.
Qed.

(** ** The program counter and the trampolines *)

(** The program counters that can be stored: the source takes those below
    [2 ^ 32 - 1] for constants, which the assembler encodes below [2 ^ 31]. *)
Definition pc_fits (p : Z) : Prop := in_u 64 p /\ (0 < p < 2 ^ 31 \/ 0xffffffff <= p).

Lemma pc_runs (p : Z) (e : est) (s : xstate) : pc_fits p ->
  exists s', run_code documented None (code_of (emit_pc p) e) s = Some (s', Through)
    /\ idle s s' /\ pfield s' P_pc = p /\ pfield s' P_instret = pfield s P_instret /\ stack s' = stack s.
Proof.
  intros [Hp Hf]. unfold emit_pc.
  assert (Hc : const64_ok (swrap 64 p) = true)
    by (pose proof (swrap_range 64 p ltac:(lia)); unfold const64_ok, in_s in *; change (64 - 1) with 63 in *; lia).
  assert (Hu : uwrap 64 (swrap 64 p) = p) by (rewrite uwrap_swrap; apply uwrap_small, Hp).
  destruct (Z.ltb_spec p 0xffffffff).
  - assert (Hc64 : const_ok 64 (swrap 64 p) = true)
      by (rewrite swrap_small by (unfold in_s, in_u in *; lia); unfold const_ok; cbn [Z.eqb Pos.eqb]; unfold in_u in *; lia).
    run_it. rewrite Hc64. run_it. eexists. split; [reflexivity |]. cbn [pfield set_field]. rewrite Hu.
    split; [split; intros; reflexivity | auto].
  - run_it. rewrite Hc. run_it. eexists. split; [reflexivity |]. cbn [pfield set_field]. rewrite upd_same, !Hu.
    split; [split; [apply scratch_guest; [intros; cbn [xr set_field set_xr]; lookups; reflexivity | reflexivity] | reflexivity] |].
    split; [apply uwrap_small, Hp | split; reflexivity].
Qed.
Lemma pc_state (p : Z) (e : est) : state_of (emit_pc p) e = e.
Proof. unfold emit_pc. destruct (p <? 0xffffffff); reflexivity. Qed.
Lemma pc_binds (p : Z) (e : est) : binds (code_of (emit_pc p) e) = [].
Proof. unfold emit_pc. destruct (p <? 0xffffffff); reflexivity. Qed.

(** What follows the program counter in a trampoline. *)
Definition hop (next : M unit) (e : est) : Prop := state_of next e = e /\ binds (code_of next e) = [].
Lemma tramp_code (next : M unit) (p : Z * Z) (e : est) : hop next e ->
  code_of (emit_tramp next p) e = as_bind p.2 :: code_of (emit_pc p.1) e ++ code_of next e /\ state_of (emit_tramp next p) e = e.
Proof.
  intros [Hs _]. unfold emit_tramp. rewrite !code_bind, !state_bind. cbn [code_of state_of ins fst snd app].
  rewrite pc_state. split; [reflexivity | exact Hs].
Qed.
Lemma tramps_binds (next : M unit) (l : list (Z * Z)) (e : est) : hop next e -> binds (code_of (emit_tramps next l) e) = map snd l.
Proof.
  intros Hn. induction l as [| p l IH]; [reflexivity |]. cbn [emit_tramps map]. rewrite code_bind.
  destruct (tramp_code next p e Hn) as [-> ->]. destruct Hn as [_ Hb].
  cbn [app binds]. rewrite !binds_app, pc_binds, Hb, IH. reflexivity.
Qed.
Lemma tramps_state (next : M unit) (l : list (Z * Z)) (e : est) : hop next e -> state_of (emit_tramps next l) e = e.
Proof.
  intros Hn. induction l as [| p l IH]; [reflexivity |]. cbn [emit_tramps]. rewrite state_bind.
  destruct (tramp_code next p e Hn) as [_ ->]. exact IH.
Qed.
(** Looking for a trampoline finds it. *)
Lemma tramps_seek (next : M unit) (p l : Z) (e : est) (s : xstate) : hop next e ->
  forall ps, (p, l) ∈ ps -> (forall p', (p', l) ∈ ps -> p' = p) ->
  exists ps', incl ps' ps /\ run_code documented (Some l) (code_of (emit_tramps next ps) e) s
    = run_code documented None (code_of (emit_pc p) e ++ code_of next e ++ code_of (emit_tramps next ps') e) s.
Proof.
  intros Hn. induction ps as [| [q m] ps IH]; intros Hin Hone; [inversion Hin |].
  cbn [emit_tramps]. rewrite code_bind. destruct (tramp_code next (q, m) e Hn) as [-> ->]. cbn [fst snd app run_code].
  destruct (Z.eqb_spec l m) as [<- | Hne].
  - rewrite (Hone q) by apply list_elem_of_here. exists ps. split; [intros x Hx; right; exact Hx |]. rewrite app_assoc. reflexivity.
  - destruct IH as (ps' & Hi & Er).
    + apply elem_of_cons in Hin as [E | Hin]; [congruence | exact Hin].
    + intros p' Hp'. apply Hone. apply list_elem_of_further, Hp'.
    + exists ps'. split; [intros x Hx; right; apply Hi, Hx |]. rewrite <- Er, run_code_app, seek_absent; [reflexivity |].
      rewrite binds_app, pc_binds, (proj2 Hn). intros Hx. inversion Hx.
Qed.

Lemma ascending_elem (m : gmap Z Z) (p l : Z) : (p, l) ∈ ascending m <-> m !! p = Some l.
Proof. unfold ascending. rewrite merge_sort_Permutation. apply elem_of_map_to_list. Qed.
Lemma ascending_labels (m : gmap Z Z) (l : Z) : l ∈ map snd (ascending m) -> exists p, m !! p = Some l.
Proof.
  intros Hin. apply list_elem_of_In, in_map_iff in Hin as ([p l'] & <- & Hin). exists p. apply ascending_elem, list_elem_of_In, Hin.
Qed.

(** ** After the trace *)

Definition to_lookup : M unit := ins (as_jmp_abs lookup_trace_fast).
Definition to_term : M unit := term ← gets e_term; ins (as_jmp term).
Lemma hop_lookup (e : est) : hop to_lookup e.
Proof. split; reflexivity. Qed.
Lemma hop_term (e : est) : hop to_term e.
Proof. split; reflexivity. Qed.

Definition jump_tramps (e : est) : list instr := code_of (emit_tramps to_lookup (ascending (e_jmp_tramp e))) e.
Definition exit_tramps (e : est) : list instr := code_of (emit_tramps to_term (ascending (e_exit_tramp e))) e.

Lemma body_code (e : est) : state_of emit_epilog_body e = state_of commit_instret e /\ binds (code_of emit_epilog_body e) = [].
Proof.
  unfold emit_epilog_body. rewrite code_bind, state_bind, binds_app.
  assert (Hc : binds (code_of commit_instret e) = []) by (unfold commit_instret, code_of, mbind, M_bind, gets; cbn; destruct (_ && _); reflexivity).
  rewrite Hc. destruct memory_registers; split; reflexivity.
Qed.
Lemma commit_targets (e : est) : let e1 := state_of commit_instret e in
  e_term e1 = e_term e /\ forall k p, target_of e1 k p = target_of e k p.
Proof. unfold commit_instret, state_of, mbind, M_bind, gets. cbn. destruct (_ && _); (split; [reflexivity | intros []; reflexivity]). Qed.

Lemma epilog_code (e : est) : let e1 := state_of commit_instret e in
  code_of emit_epilog e = code_of emit_epilog_body e ++ jump_tramps e1 ++ exit_tramps e1.
Proof.
  intros e1. unfold emit_epilog. rewrite code_bind, (proj1 (body_code e)). fold e1. rewrite code_bind. cbn [code_of state_of result_of gets fst snd app].
  rewrite code_bind. fold to_lookup to_term. rewrite tramps_state by apply hop_lookup. rewrite code_bind. reflexivity.
Qed.

(** The code after the trace. *)
Definition rest (e : est) : list instr := code_of (end_;; emit_epilog) e.
Lemma rest_code (e : est) : let e1 := state_of commit_instret e in
  rest e = (if negb (e_term_pc e =? 0) then code_of (emit_pc (e_term_pc e)) e else [])
    ++ as_bind (e_term e) :: code_of emit_epilog_body e ++ jump_tramps e1 ++ exit_tramps e1.
Proof.
  intros e1. unfold rest. rewrite code_bind.
  assert (Hs : state_of end_ e = e) by (unfold end_; rewrite !state_bind; cbn; destruct (negb _); [apply pc_state | reflexivity]).
  rewrite Hs, epilog_code. unfold end_. rewrite !code_bind. cbn [code_of state_of result_of gets fst snd app].
  destruct (negb _); [rewrite pc_state |]; cbn [code_of state_of result_of gets ins mret M_ret fst snd app]; rewrite <- ?app_assoc; reflexivity.
Qed.

Lemma rest_seek (e : est) (l : Z) (s : xstate) : l <> e_term e ->
  let e1 := state_of commit_instret e in
  run_code documented (Some l) (rest e) s = run_code documented (Some l) (jump_tramps e1 ++ exit_tramps e1) s.
Proof.
  intros Hl e1. rewrite rest_code. fold e1. rewrite run_code_app, seek_absent; [| destruct (negb _); [rewrite pc_binds |]; intros Hx; inversion Hx].
  cbn [run_code]. rewrite (proj2 (Z.eqb_neq _ _) Hl), run_code_app, seek_absent; [reflexivity |].
  rewrite (proj2 (body_code e)). intros Hx. inversion Hx.
Qed.
Lemma rest_term (e : est) (s : xstate) :
  run_code documented (Some (e_term e)) (rest e) s = run_code documented None (code_of emit_epilog e) s.
Proof.
  rewrite rest_code, run_code_app, seek_absent, epilog_code; [| destruct (negb _); [rewrite pc_binds |]; intros Hx; inversion Hx].
  cbn [run_code]. rewrite Z.eqb_refl. reflexivity.
Qed.

Lemma jump_tramps_absent (e : est) (l : Z) : (forall p, target_of e In_jump p <> Some l) -> l ∉ binds (jump_tramps e).
Proof.
  intros Hl. unfold jump_tramps. rewrite tramps_binds by apply hop_lookup. intros Hin. destruct (ascending_labels _ _ Hin) as [p E]. exact (Hl p E).
Qed.
Lemma exit_tramps_absent (e : est) (l : Z) : (forall p, target_of e In_exit p <> Some l) -> l ∉ binds (exit_tramps e).
Proof.
  intros Hl. unfold exit_tramps. rewrite tramps_binds by apply hop_term. intros Hin. destruct (ascending_labels _ _ Hin) as [p E]. exact (Hl p E).
Qed.

Section Leaving.
Context (e : est) (He : est_wf e).
Let e1 := state_of commit_instret e.

Lemma commit_wf : est_wf e1.
Proof using He. apply (scoped_commit (e_next e) (e_next e) e He). lia. Qed.
Lemma target_not_term (k : kind) (p l : Z) : target_of e k p = Some l -> l <> e_term e.
Proof using He. intros E. pose proof (ew_range e He k p l E). lia. Qed.

(** A label of the trace is behind. *)
Lemma leave_label (p l : Z) (s : xstate) : target_of e In_trace p = Some l ->
  run_code documented (Some l) (rest e) s = Some (s, To_label l).
Proof using He.
  intros E. rewrite rest_seek by exact (target_not_term _ _ _ E). fold e1. destruct (commit_targets e) as [_ Em]. fold e1 in Em.
  apply seek_absent. rewrite binds_app, elem_of_app.
  intros [Hin | Hin]; revert Hin; [apply jump_tramps_absent | apply exit_tramps_absent]; intros p'; rewrite Em; intros E';
    destruct (ew_one e He _ _ _ _ _ E E') as [Hk _]; discriminate Hk.
Qed.
(** A jump trampoline goes on to the lookup. *)
Lemma leave_jump (p l : Z) (s : xstate) : target_of e In_jump p = Some l -> pc_fits p ->
  exists s', run_code documented (Some l) (rest e) s = Some (s', To_address lookup_trace_fast)
    /\ idle s s' /\ pfield s' P_pc = p /\ pfield s' P_instret = pfield s P_instret /\ stack s' = stack s.
Proof using He.
  intros E Hp. rewrite rest_seek by exact (target_not_term _ _ _ E). fold e1. destruct (commit_targets e) as [_ Em]. fold e1 in Em.
  rewrite run_code_app. unfold jump_tramps.
  destruct (tramps_seek to_lookup p l e1 s (hop_lookup e1) (ascending (e_jmp_tramp e1))) as (ps' & _ & ->).
  - apply ascending_elem. specialize (Em In_jump p). cbn in Em. rewrite Em. exact E.
  - intros p' Hp'. apply ascending_elem in Hp'. specialize (Em In_jump p'). cbn in Em. rewrite Em in Hp'.
    symmetry. exact (proj2 (ew_one e He In_jump In_jump _ _ _ E Hp')).
  - destruct (pc_runs p e1 s Hp) as (s' & Er & Hrest). rewrite run_code_app, Er. exists s'. split; [reflexivity | exact Hrest].
Qed.
(** An exit trampoline goes back to the end of the trace. *)
Lemma leave_exit (p l : Z) (s : xstate) : target_of e In_exit p = Some l -> pc_fits p ->
  exists s', run_code documented (Some l) (rest e) s = Some (s', To_label (e_term e))
    /\ idle s s' /\ pfield s' P_pc = p /\ pfield s' P_instret = pfield s P_instret /\ stack s' = stack s.
Proof using He.
  intros E Hp. rewrite rest_seek by exact (target_not_term _ _ _ E). fold e1. destruct (commit_targets e) as [Et Em]. fold e1 in Em, Et.
  rewrite run_code_app, seek_absent.
  2:{ apply jump_tramps_absent. intros p'. rewrite Em. intros E'. destruct (ew_one e He _ _ _ _ _ E E') as [Hk _]. discriminate Hk. }
  unfold exit_tramps.
  destruct (tramps_seek to_term p l e1 s (hop_term e1) (ascending (e_exit_tramp e1))) as (ps' & Hi & ->).
  - apply ascending_elem. specialize (Em In_exit p). cbn in Em. rewrite Em. exact E.
  - intros p' Hp'. apply ascending_elem in Hp'. specialize (Em In_exit p'). cbn in Em. rewrite Em in Hp'.
    symmetry. exact (proj2 (ew_one e He In_exit In_exit _ _ _ E Hp')).
  - destruct (pc_runs p e1 s Hp) as (s' & Er & Hrest). rewrite run_code_app, Er. exists s'. split; [| exact Hrest].
    cbn [to_term code_of mbind M_bind gets ins fst snd app run_code]. rewrite <- Et. apply seek_absent.
    rewrite tramps_binds by apply hop_term. intros Hin. apply list_elem_of_In, in_map_iff in Hin as ([p' l'] & Hl & Hin).
    cbn in Hl. subst l'. apply Hi in Hin. apply list_elem_of_In, ascending_elem in Hin.
    specialize (Em In_exit p'). cbn in Em. rewrite Em in Hin. pose proof (ew_range e He In_exit p' _ Hin). lia.
Qed.
End Leaving.

(** ** The function *)

(** [jit_trace], after the tracer. *)
Definition trace_function (ds : list jit_decode) : list instr :=
  code_of (emit_prolog;; begin;; emit_all ds;; end_;; emit_epilog) est_new.

(** The state the trace is emitted from. *)
Definition est_begun : est := mkEst 2 0 0 [] ∅ ∅ ∅ ∅ 1 0.
Lemma begun_wf : est_wf est_begun.
Proof. split; [cbn; lia | intros [] p l E; discriminate E | intros [] k' p p' l E; discriminate E]. Qed.
Definition est_after (ds : list jit_decode) : est := state_of (emit_all ds) est_begun.

Lemma function_code (ds : list jit_decode) :
  trace_function ds = code_of emit_prolog est_new ++ as_bind 1 :: code_of (emit_all ds) est_begun ++ rest (est_after ds).
Proof.
  unfold trace_function. rewrite code_bind, prolog_state. f_equal. rewrite code_bind.
  change (code_of begin (set_e_instret 0 est_new)) with [as_bind 1]. change (state_of begin (set_e_instret 0 est_new)) with est_begun.
  rewrite code_bind. reflexivity.
Qed.
Lemma prolog_binds (e : est) : binds (code_of emit_prolog e) = [].
Proof. unfold emit_prolog, code_of, mbind, M_bind. destruct memory_registers; reflexivity. Qed.
(** From the end of the trace. *)
Lemma function_term (ds : list jit_decode) (s : xstate) :
  run_code documented (Some 0) (trace_function ds) s = run_code documented None (code_of emit_epilog (est_after ds)) s.
Proof.
  rewrite function_code, run_code_app, seek_absent by (rewrite prolog_binds; intros Hx; inversion Hx).
  cbn [run_code Z.eqb]. rewrite run_code_app, seek_past by (apply begun_wf || (cbn; lia)).
  destruct (emit_all_scoped ds 2 est_begun begun_wf ltac:(cbn; lia)) as (G & _ & _).
  replace 0 with (e_term (est_after ds)) at 1 by (unfold est_after; rewrite (gr_term _ _ G); reflexivity). apply rest_term.
Qed.

(** The processor object holds the interpreter's registers and memory. *)
Record held (h : hart) (M : memory) (s : xstate) : Prop := {
  hd_hart : hart_wf 64 h;
  hd_regs : forall g, is_reg g -> slot s g = uwrap 64 (get_reg h g);
  hd_words : forall g, in_u 64 (slot s g);
  hd_mem : forall a, in_u 64 a -> mem s a = M a;
  hd_bytes : bytes M;
  hd_counter : in_u 64 (pfield s P_instret) }.

Lemma held_matches (h : hart) (M : memory) (s s1 : xstate) : held h M s ->
  (forall g, guest_reg s1 g = slot s g) -> mem s1 = mem s -> matches h M s1.
Proof.
  intros [A B C D E _] Hg Hm. split; [exact A | split | | | exact E].
  - intros g. rewrite Hg. apply C.
  - rewrite Hg, B by (unfold is_reg; lia). rewrite (get_reg_zero 64 h A). reflexivity.
  - intros g Hr. rewrite Hg. apply B, Hr.
  - rewrite Hm. exact D.
Qed.
Lemma matches_held (h : hart) (M : memory) (s s' : xstate) : matches h M s ->
  (forall g, slot s' g = guest_reg s g) -> mem s' = mem s -> in_u 64 (pfield s' P_instret) -> held h M s'.
Proof.
  intros [A [B _] C D E] Hg Hm Hc. split; [exact A | | | | exact E | exact Hc].
  - intros g Hr. rewrite Hg. apply C, Hr.
  - intros g. rewrite Hg. apply B.
  - rewrite Hm. exact D.
Qed.

(** Runs that may go back to a label. *)
Inductive runs (step : instr -> xstate -> option xstate) (c : list instr) (seek : option Z) (s : xstate) : xstate -> exit_ -> Prop :=
  | runs_once (s' : xstate) (x : exit_) : run_code step seek c s = Some (s', x) -> runs step c seek s s' x
  | runs_back (s1 s' : xstate) (l : Z) (x : exit_) :
      run_code step seek c s = Some (s1, To_label l) -> runs step c (Some l) s1 s' x -> runs step c seek s s' x.
Lemma runs_cpu `{Cpu} (c : list instr) (seek : option Z) (s s' : xstate) (x : exit_) :
  runs documented c seek s s' x -> runs cpu_step c seek s s' x.
Proof.
  intros Hr. induction Hr as [seek s s' x R | seek s s1 s' l x R _ IH]; [apply runs_once | eapply runs_back; [| exact IH]];
    apply run_code_cpu; exact R.
Qed.

(** What the function leaves when the interpreter, after some steps of the trace,
    is in [h'] and [M']: a return to the caller, another trace, or a label of the
    trace, each for the interpreter's program counter. *)
Inductive returns (ds : list jit_decode) (s : xstate) (h' : hart) (M' : memory) (s' : xstate) : exit_ -> Prop :=
  | returned : held h' M' s' -> (jd_op <$> last ds <> Some (Rv rv_op_jalr) -> pfield s' P_pc = pc h') ->
      stack s' = stack s -> Forall (fun r => xr s' r = xr s r) saved_regs -> returns ds s h' M' s' Return
  | looked_up : matches h' M' s' -> pfield s' P_pc = pc h' -> stack s' = saved s ++ stack s ->
      returns ds s h' M' s' (To_address lookup_trace_fast)
  | linked : matches h' M' s' -> lookup_trace_slow (pc h') <> 0 -> stack s' = saved s ++ stack s ->
      returns ds s h' M' s' (To_address (lookup_trace_slow (pc h')))
  | looped (l : Z) : matches h' M' s' -> e_labels (est_after ds) !! pc h' = Some l -> stack s' = saved s ++ stack s ->
      returns ds s h' M' s' (To_label l).

Section Correct.
Context (exec_fp : decode -> hart -> Z -> io Z) (fl : flags) (ds : list jit_decode) (h : hart) (M : memory) (s : xstate).
Hypothesis (Hmmu : use_mmu = false) (Hrvi : rvi fl = true).

(** What is asked of a recorded trace and of the state the function is called in. *)
Record callable : Prop := {
  ca_trace : ds <> [] /\ 3 * Z.of_nat (length ds) < 2 ^ 31;
  ca_path : path (pc h) [] ds;
  ca_covered : Forall (fun d => covered fl d = true /\ jit_wf d) ds;
  ca_ready : all_ready exec_fp fl [] ds h M;
  ca_once : NoDup (map jd_pc ds);
  ca_held : held h M s;
  ca_pcs : forall k h' M', steps exec_fp fl (firstn k ds) h M = Some (h', M') -> pc_fits (pc h') }.

Lemma callable_ok (s1 : xstate) : callable -> (forall g, guest_reg s1 g = slot s g) -> mem s1 = mem s -> pfield s1 = pfield s ->
  trace_ok exec_fp fl ds [] h M est_begun s1.
Proof using.
  intros [[Hne Hlen] P C R O Hh _] Hg Hm Hf. split; try assumption.
  - apply Forall_forall. intros d _. apply lookup_empty.
  - exact (held_matches h M s s1 Hh Hg Hm).
  - exact begun_wf.
  - pose proof (retired_all_range ds). cbn. lia.
  - rewrite Hf. apply Hh.
  - reflexivity.
  - apply Forall_nil_2.
Qed.

(** The counter, unless the function leaves by a return that does not match. *)
Definition ticked (k : nat) (s' : xstate) (h' : hart) : Prop :=
  (exists l, e_exit_tramp (est_after ds) !! pc h' = Some l)
  \/ (update_instret = true -> pfield s' P_instret = uwrap 64 (pfield s P_instret + retired_all (firstn k ds))).

(** From the end of the trace, with the program counter set. *)
Lemma epilog_returns (e : est) (h' : hart) (M' : memory) (s2 : xstate) :
  0 <= e_instret e < 2 ^ 31 -> in_u 64 (pfield s2 P_instret) -> matches h' M' s2 -> stack s2 = saved s ++ stack s ->
  (jd_op <$> last ds <> Some (Rv rv_op_jalr) -> pfield s2 P_pc = pc h') ->
  exists s', run_code documented None (code_of emit_epilog e) s2 = Some (s', Return)
    /\ returns ds s h' M' s' Return /\ pfield s' P_instret = counted s2 e /\ pfield s' P_pc = pfield s2 P_pc.
Proof using.
  intros Hi Hc Hm Hst Hpc. rewrite epilog_code, run_code_app.
  destruct (epilog_runs e s2 s (stack s) Hi Hc (xw_range _ (mt_host _ _ _ Hm)) Hst) as (s' & Er & Hg & Hmem & Hp & Hn & Hst' & Hsv).
  rewrite Er. exists s'. split; [reflexivity | split; [| split; [exact Hn | exact Hp]]].
  apply returned; try assumption.
  - apply (matches_held h' M' s2 s' Hm Hg Hmem). rewrite Hn. apply uwrap_range. lia.
  - intros Hl. rewrite Hp. exact (Hpc Hl).
Qed.

Lemma last_pc (e : est) (s2 : xstate) : pc_fits (e_term_pc e) \/ e_term_pc e = 0 ->
  exists s3, run_code documented None (rest e) s2 = run_code documented None (code_of emit_epilog e) s3
    /\ idle s2 s3 /\ pfield s3 P_instret = pfield s2 P_instret /\ (e_term_pc e <> 0 -> pfield s3 P_pc = e_term_pc e)
    /\ stack s3 = stack s2.
Proof using.
  intros Hf. rewrite rest_code, epilog_code. destruct (Z.eqb_spec (e_term_pc e) 0) as [E | E]; cbn [negb app].
  - exists s2. split; [reflexivity | split; [split; reflexivity | split; [reflexivity | split; [congruence | reflexivity]]]].
  - destruct Hf as [Hf |]; [| contradiction]. destruct (pc_runs (e_term_pc e) e s2 Hf) as (s3 & Er & Hi & Hp & Hn & Hst).
    exists s3. rewrite run_code_app, Er. split; [reflexivity | split; [exact Hi | split; [exact Hn | split; [auto | exact Hst]]]].
Qed.

Lemma function_runs : callable ->
  exists k h' M' s' x, (0 < k <= length ds)%nat /\ steps exec_fp fl (firstn k ds) h M = Some (h', M')
    /\ runs documented (trace_function ds) None s s' x /\ returns ds s h' M' s' x /\ ticked k s' h'.
Proof using Hmmu Hrvi.
  intros Hca. pose proof Hca as [[Hne Hlen] _ _ _ _ Hh Hpcs].
  destruct (prolog_runs est_new s (hd_words _ _ _ Hh)) as (s1 & R1 & Hg1 & Hm1 & Hf1 & St1).
  pose proof (callable_ok s1 Hca Hg1 Hm1 Hf1) as Hok.
  destruct (trace_runs exec_fp fl Hmmu Hrvi ds [] h M est_begun s1 Hok) as (s2 & x & k & h' & M' & R2 & Hk & [T1 T2 Tc T3] & Hk0).
  assert (Hk' : (0 < k <= length ds)%nat).
  { split; [| exact Hk]. destruct k; [exfalso | lia]. specialize (Hk0 eq_refl). destruct ds as [| d ds']; [contradiction |].
    unfold is_return in Hk0. destruct (jd_op d) as [[] |]; try discriminate Hk0. rewrite andb_false_r in Hk0. discriminate Hk0. }
  clear Hk Hk0.
  assert (St2 : stack s2 = saved s ++ stack s) by (rewrite (run_stack _ _ _ _ _ (emit_all_flat ds est_begun) R2); exact St1).
  assert (Hn1 : counted s1 est_begun = pfield s P_instret)
    by (unfold counted; cbn; rewrite Hf1; destruct update_instret; rewrite Z.add_0_r; apply uwrap_small, Hh).
  cbv zeta in T3. fold (est_after ds) in T3. rewrite Hn1 in T3.
  destruct (emit_all_scoped ds 2 est_begun begun_wf ltac:(cbn; lia)) as (G & W & _). fold (est_after ds) in G, W.
  pose proof (emit_all_counts ds est_begun ltac:(cbn; lia)) as Hcount. fold (est_after ds) in Hcount.
  assert (Hi : 0 <= e_instret (est_after ds) < 2 ^ 31) by (cbn in Hcount; lia).
  assert (Hrun : run_code documented None (trace_function ds) s =
    match x with
    | Through => run_code documented None (rest (est_after ds)) s2
    | To_label l => run_code documented (Some l) (rest (est_after ds)) s2
    | x => Some (s2, x)
    end).
  { rewrite function_code, run_code_app, R1. cbn [run_code mbind option_bind documented]. rewrite run_code_app, R2. destruct x; reflexivity. }
  exists k, h', M'. pose proof (Hpcs k h' M' T1) as Hfit.
  destruct T3 as [(-> & -> & Hn & Ht) | (Hv & Hn)].
  - destruct (last_pc (est_after ds) s2) as (s3 & E3 & I3 & N3 & P3 & St3).
    { destruct Ht as [[_ Ht] | [-> | ->]]; [right; exact Ht | contradiction | left; exact Hfit]. }
    destruct (epilog_returns (est_after ds) h' M' s3 Hi) as (s' & E4 & Hret & N4 & _).
    + rewrite N3. exact Tc.
    + exact (matches_idle _ _ _ _ I3 T2).
    + rewrite St3. exact St2.
    + intros Hl. destruct Ht as [[Ht _] | [-> | Ht]]; [contradiction | contradiction |]. rewrite P3; [exact Ht |].
      rewrite Ht. destruct Hfit as [[? ?] [? | ?]]; lia.
    + exists s', Return. split; [exact Hk' | split; [exact T1 | split; [apply runs_once; rewrite Hrun, E3; exact E4 | split; [exact Hret |]]]].
      right. intros Eu. rewrite N4, firstn_all. unfold counted in *. rewrite N3, Hn. unfold tick. rewrite Eu. reflexivity.
  - assert (Htick : forall s', pfield s' P_instret = pfield s2 P_instret -> ticked k s' h').
    { intros s' E. unfold ticked. rewrite E. destruct Hn as [(l & _ & El) | Hn]; [left; eauto | right; exact Hn]. }
    destruct Hv as [l El | l El | l El | E | E].
    + exists s2, (To_label l). rewrite (leave_label _ W _ _ s2 El) in Hrun.
      split; [exact Hk' | split; [exact T1 | split; [apply runs_once, Hrun | split; [apply looped; assumption | auto]]]].
    + destruct (leave_jump _ W _ _ s2 El Hfit) as (s3 & E3 & I3 & P3 & N3 & St3). rewrite E3 in Hrun.
      exists s3, (To_address lookup_trace_fast).
      split; [exact Hk' | split; [exact T1 | split; [apply runs_once, Hrun | split; [apply looked_up | auto]]]].
      * exact (matches_idle _ _ _ _ I3 T2).
      * exact P3.
      * rewrite St3. exact St2.
    + destruct (leave_exit _ W _ _ s2 El Hfit) as (s3 & E3 & I3 & P3 & N3 & St3). rewrite E3 in Hrun.
      rewrite (gr_term _ _ G) in Hrun. cbn [e_term est_begun] in Hrun.
      destruct (epilog_returns (est_after ds) h' M' s3 Hi) as (s' & E4 & Hret & _).
      * rewrite N3. exact Tc.
      * exact (matches_idle _ _ _ _ I3 T2).
      * rewrite St3. exact St2.
      * intros _. exact P3.
      * exists s', Return. split; [exact Hk' | split; [exact T1 | split; [| split; [exact Hret | left; eauto]]]].
        eapply runs_back; [exact Hrun |]. apply runs_once. rewrite function_term. exact E4.
    + exists s2, (To_address (lookup_trace_slow (pc h'))).
      split; [exact Hk' | split; [exact T1 | split; [apply runs_once, Hrun | split; [apply linked; assumption | auto]]]].
    + exists s2, (To_address lookup_trace_fast).
      split; [exact Hk' | split; [exact T1 | split; [apply runs_once, Hrun | split; [apply looked_up; assumption | auto]]]].
Qed.
End Correct.
End Function.

(** C3: a compiled trace runs like the interpreter, on the traces and in the states
    of [callable]. Called with the processor object holding a hart and the host's
    memory, the function [jit_trace] builds from a recorded trace (prologue, the
    emitted instructions, epilogue and trampolines) runs on any processor that
    follows the documentation, and comes out after some steps of the interpreter
    along the trace: at its caller, with the processor object holding the
    interpreter's registers and memory and the host's saved registers and stack
    restored; at another trace or the lookup of one, for the interpreter's program
    counter; or at the label of an instruction of the trace. At its caller the
    program counter stored is the interpreter's unless the trace ends in [jalr],
    when none is promised ([last_return_pc]). The instruction counter is the
    interpreter's (a fused instruction counts for the instructions of its group)
    unless the program counter is one the trace has an exit trampoline for, which a
    return that does not match its call leaves by ([missed_return_counter]).
    [callable] asks that the trace is a path with each program counter once and
    fewer than 2^31 / 3 instructions, that the program counters reached can be
    stored ([pc_fits]: below 2^31 or from 2^32 - 1), and that each instruction
    reached is one its code is exact for; the exceptions are those of [ready]: the
    operands of [exact] and [fused_exact] that the emitters are not exact for, a
    return that adds a constant to [ra] or whose call's address cannot be compared
    with, and another [jalr] from [x0] or to an odd target. Memory is the host's
    ([use_mmu] is off). *)
Theorem trace_function_correct `{Cpu} `{Jit} (exec_fp : decode -> hart -> Z -> io Z) (fl : flags) (ds : list jit_decode)
    (h : hart) (M : memory) (s : xstate) :
  use_mmu = false -> rvi fl = true -> callable exec_fp fl ds h M s ->
  exists k h' M' s' x, (0 < k <= length ds)%nat /\ steps exec_fp fl (firstn k ds) h M = Some (h', M')
    /\ runs cpu_step (trace_function ds) None s s' x /\ returns ds s h' M' s' x /\ ticked ds s k s' h'.
Proof.
  intros Hmmu Hrvi Hca. destruct (function_runs exec_fp fl ds h M s Hmmu Hrvi Hca) as (k & h' & M' & s' & x & Hk & Hs & Hr & Hv & Ht).
  exists k, h', M', s', x. split; [exact Hk | split; [exact Hs | split; [exact (runs_cpu _ _ _ _ _ Hr) | auto]]].
Qed.

(** A processor with its registers allocated, that counts, and no other trace. *)
Definition jit_ex : Jit :=
  {| memory_registers := false; update_instret := true; use_mmu := false; mmu_op := fun _ => 0;
     lookup_trace_fast := 0x7000; lookup_trace_slow := fun _ => 0 |}.
(** The host's state for a hart. *)
Definition host_ex (h : hart) (M : memory) : xstate :=
  mkX (fun r => r) (fun g => if (0 <=? g) && (g <? 32) then uwrap 64 (get_reg h g) else 0)
    (fun f => match f with P_pc => pc h | P_instret => 100 | P_cause => 0 end) None M [].

(** [loop: lw a0, 8(t0); div a1, a0, a2; addi t0, t0, 4; bne a1, x0, loop] *)
Definition trace_ex : list jit_decode := [
  mkJit 0x10000 0x0082a503 8 (Rv rv_op_lw) 10 5 0 0 true false 0;
  mkJit 0x10004 0x02c545b3 0 (Rv rv_op_div) 11 10 12 0 false false 0;
  mkJit 0x10008 0x00428293 4 (Rv rv_op_addi) 5 5 0 0 false false 0;
  mkJit 0x1000c 0xfe059ae3 (-12) (Rv rv_op_bne) 0 11 0 0 false true 0].
Definition hart_trace : hart := set_pc 0x10000 (hart_ex [(5, 0x2000); (12, -3)]).
Definition memory_trace : memory := fun a => if a =? 0x2008 then 21 else 0.

(** The state it is called in. *)
Lemma host_ex_held `{Jit} (h : hart) (M : memory) : hart_wf 64 h -> bytes M -> held h M (host_ex h M).
Proof.
  intros Hh Hb. assert (Hs : forall g, slot (host_ex h M) g = if (0 <=? g) && (g <? 32) then uwrap 64 (get_reg h g) else 0) by reflexivity.
  split; [exact Hh | | | reflexivity | exact Hb | unfold in_u; cbn; lia].
  - intros g Hg. unfold is_reg in Hg. rewrite Hs, (proj2 (Z.leb_le _ _)), (proj2 (Z.ltb_lt _ _)) by lia. reflexivity.
  - intros g. rewrite Hs. destruct (_ && _); [apply uwrap_range; lia | unfold in_u; lia].
Qed.
Lemma trace_ex_wf : Forall (fun d => covered RV_IMA d = true /\ jit_wf d) trace_ex.
Proof. repeat (constructor; [split; [reflexivity | split; unfold is_reg, in_s; cbn; try lia; reflexivity] |]). constructor. Qed.
Lemma hart_trace_wf : hart_wf 64 hart_trace.
Proof.
  assert (Hh : hart_wf 64 (hart_ex [(5, 0x2000); (12, -3)]))
    by (apply hart_ex_wf; [auto | repeat constructor; vm_compute; try lia; discriminate]).
  destruct Hh. split; assumption.
Qed.
Lemma memory_trace_bytes : bytes memory_trace.
Proof. intros a. unfold memory_trace. destruct (_ =? _); unfold in_u; lia. Qed.

(** No floating point. *)
Definition no_fp (d : decode) (h : hart) (p : Z) : io Z := Undef.

Lemma trace_ex_callable : callable (H := jit_ex) no_fp RV_IMA trace_ex hart_trace memory_trace (host_ex hart_trace memory_trace).
Proof.
  split.
  - split; [discriminate | reflexivity].
  - vm_compute. auto 10.
  - exact trace_ex_wf.
  - vm_compute. repeat match goal with |- _ /\ _ => split | |- _ -> _ => intro | |- True => exact I end; try discriminate; auto. right; discriminate.
  - apply (bool_decide_unpack _). vm_compute. exact I.
  - exact (host_ex_held (H := jit_ex) _ _ hart_trace_wf memory_trace_bytes).
  - intros k h' M' Hk.
    assert (Hl : exists j, (j <= 4)%nat /\ firstn k trace_ex = firstn j trace_ex).
    { destruct (le_gt_dec k 4); [exists k; auto |]. exists 4%nat. split; [lia |]. rewrite !firstn_all2 by (cbn; lia). reflexivity. }
    destruct Hl as (j & Hj & E). rewrite E in Hk. clear E.
    do 5 (destruct j as [| j]; [vm_compute in Hk; injection Hk as <- _; vm_compute; (split; [split; [discriminate | reflexivity] | left; split; reflexivity]) |]). lia.
Qed.

Example trace_function_correct_witness :
  exists k h' M' s' x, (0 < k <= 4)%nat
    /\ steps no_fp RV_IMA (firstn k trace_ex) hart_trace memory_trace = Some (h', M')
    /\ runs documented (trace_function (H := jit_ex) trace_ex) None (host_ex hart_trace memory_trace) s' x
    /\ returns (H := jit_ex) trace_ex (host_ex hart_trace memory_trace) h' M' s' x
    /\ ticked (H := jit_ex) trace_ex (host_ex hart_trace memory_trace) k s' h'.
Proof.
  exact (trace_function_correct (H := plain_cpu) (H0 := jit_ex) no_fp RV_IMA trace_ex hart_trace memory_trace
           (host_ex hart_trace memory_trace) eq_refl eq_refl trace_ex_callable).
Defined.
