(* ===== verification/JitInstruction.v ===== *)
(** * One instruction of a trace, at either width

    The two emitters, of RV64 and of RV32, against the interpreter of their width:
    what is appended for an instruction that goes on to the next leaves what the
    interpreter leaves, on any processor that follows the documentation. *)

From Stdlib Require Import ZArith Lia Bool List.
From stdpp Require Import base list option gmap.
From S2P Require Import Prelude Alu Meta Codec Replay Interp Isa Mmu X86 Jit JitEmit JitProofs JitDiv JitDivisions JitCorrect.
From S2P Require Import JitEmit32 JitCorrect32 JitFunction.

#[local] Open Scope Z_scope.
#[local] Open Scope word_scope.

(** The emitter of a width, the instructions that go on to the next, and the
    operands it is exact for. *)
Definition emitter `{Jit} (w : Z) (o : rv_op) : option (Z * (jit_decode -> Jit.M bool)) :=
  if w =? 64 then JitEmit.emit_case (Rv o) else JitEmit32.emit_case (Rv o).
Definition goes_on (fl : flags) (w : Z) (o : rv_op) : bool := if w =? 64 then straight fl o else straight32 fl o.
Definition exact_for `{Jit} (w : Z) (o : rv_op) (d : jit_decode) (h : hart) : Prop :=
  if w =? 64 then exact_at o d h else exact32_at o d h.

(** A host state that holds a hart where the code of a trace has it. *)
Definition inside_ex (w : Z) (h : hart) (M : memory) : xstate :=
  mkX (fun r => match find (fun p => p.2 =? r) allocation with Some p => uwrap w (get_reg h p.1) | None => 0 end)
    (fun g => if (0 <=? g) && (g <? 32) then uwrap w (get_reg h g) else 0)
    (fun f => match f with P_pc => pc h | P_instret => 100 | P_cause => 0 end) None M [].
Lemma inside_ex_reg (w : Z) (h : hart) (M : memory) (g : Z) :
  guest_reg (H := jit_ex) (inside_ex w h M) g = if (0 <=? g) && (g <? 32) then uwrap w (get_reg h g) else 0.
Proof.
  unfold guest_reg, x86_reg. cbn [memory_registers jit_ex]. destruct (Z.eqb_spec g rv_ireg_zero) as [-> | _]; [reflexivity |].
  destruct (find (fun p => p.1 =? g) allocation) as [p |] eqn:E; [| reflexivity].
  apply find_some in E as [Hin Hp]. apply Z.eqb_eq in Hp. subst g. revert Hin. cbn [allocation In].
  intuition (subst p; reflexivity).
Qed.
Lemma inside_ex_matches (w : Z) (h : hart) (M : memory) : 0 < w -> hart_wf w h -> bytes M ->
  matches_at (H := jit_ex) w h M (inside_ex w h M).
Proof.
  intros Hw Hh Hb. split; [exact Hh | split | | reflexivity | exact Hb].
  - intros g. rewrite inside_ex_reg. destruct (_ && _); [apply uwrap_range; lia | split; [lia | apply pow2_pos; lia]].
  - rewrite inside_ex_reg. cbn [andb Z.leb Z.ltb Z.compare]. rewrite (get_reg_zero w h Hh). reflexivity.
  - intros g Hg. unfold is_reg in Hg. rewrite inside_ex_reg, (proj2 (Z.leb_le _ _)), (proj2 (Z.ltb_lt _ _)) by lia. reflexivity.
Qed.

(** C9: one instruction, for RV64 and RV32. In a state that holds the guest's
    registers where the register allocation puts them, and its memory, what is
    appended for an integer computational instruction, [lui], [auipc], a load or a
    store, runs on any processor that follows the documentation and falls through,
    in a state that holds what the interpreter leaves. This is for the operands of
    [exact_for]. Excepted are: shift counts the interpreter leaves undefined; a
    divisor in [ra] where the registers are the host's, a signed remainder of [ra],
    a remainder by [x0], and [x0] divided by a register that is zero; on RV64 a
    division of words whose divisor, in a register of the host, is zero only in its
    low word, [addw] of [x0] and a register of the processor object to a register of
    the host, an [auipc] constant of more than 32 bits for the processor object, and
    an access that runs over the end of the address space; on RV32 a signed division
    of a negative dividend (but by zero, or of the least by minus one), and an
    [auipc] constant that does not fit 32 bits. *)
Theorem emitted_instruction_correct `{Cpu} `{Jit} (exec_fp : decode -> hart -> Z -> io Z) (fl : flags) (w : Z) (o : rv_op)
    (d : jit_decode) (h : hart) (M : memory) (e : est) (s : xstate) :
  w = 32 \/ w = 64 -> use_mmu = false -> rvi fl = true -> goes_on fl w o = true -> jit_wf d -> matches_at w h M s ->
  pc h = jd_pc d -> exact_for w o d h ->
  exists emit_x h' M' s',
    emitter w o = Some (1, emit_x)
    /\ inst_step_at w exec_fp fl o d h M = Some (h', M') /\ pc h' = next_pc w h (inst_length (jd_inst d))
    /\ run_code cpu_step None (code_of (emit_x d) e) s = Some (s', Through)
    /\ matches_at w h' M' s' /\ pfield s' = pfield s.
Proof.
  intros Hw Hmmu Hrvi Ho Hd Hm Hpc Hx.
  assert (Hs : exists emit_x, emitter w o = Some (1, emit_x) /\ simulates_at w exec_fp fl emit_x o d h M e s).
  { destruct Hw as [-> | ->]; [eapply straight_simulates32 | eapply straight_simulates]; eassumption. }
  destruct Hs as (emit_x & E & h' & M' & s' & Es & Ep & Er & Hrest).
  exists emit_x, h', M', s'. split; [exact E | split; [exact Es | split; [exact Ep | split; [apply run_code_cpu; exact Er | exact Hrest]]]].
Qed.

(** [div a1, a0, a2] on RV64 and [lw a0, -8(t0)] on RV32. *)
Example emitted_instruction_correct_witness :
  (let d := mkJit 0x10000 0x02c545b3 0 (Rv rv_op_div) 11 10 12 0 false false 0 in
   exists emit_x h' M' s',
    emitter (H := jit_ex) 64 rv_op_div = Some (1, emit_x)
    /\ inst_step no_fp RV_IMA rv_op_div d hart_trace memory_trace = Some (h', M') /\ pc h' = next_pc 64 hart_trace (inst_length (jd_inst d))
    /\ run_code documented None (code_of (emit_x d) est_new) (inside_ex 64 hart_trace memory_trace) = Some (s', Through)
    /\ matches_at (H := jit_ex) 64 h' M' s' /\ pfield s' = pfield (inside_ex 64 hart_trace memory_trace))
  /\ (let d := mkJit 0x10000 0xff82a503 (-8) (Rv rv_op_lw) 10 5 0 0 false false 0 in
   exists emit_x h' M' s',
    emitter (H := jit_ex) 32 rv_op_lw = Some (1, emit_x)
    /\ inst_step_at 32 no_fp RV_IMA rv_op_lw d hart_trace memory_trace = Some (h', M') /\ pc h' = next_pc 32 hart_trace (inst_length (jd_inst d))
    /\ run_code documented None (code_of (emit_x d) est_new) (inside_ex 32 hart_trace memory_trace) = Some (s', Through)
    /\ matches_at (H := jit_ex) 32 h' M' s' /\ pfield s' = pfield (inside_ex 32 hart_trace memory_trace)).
Proof.
  split.
  - apply (emitted_instruction_correct (H := plain_cpu) (H0 := jit_ex) no_fp RV_IMA 64 rv_op_div
             (mkJit 0x10000 0x02c545b3 0 (Rv rv_op_div) 11 10 12 0 false false 0) hart_trace memory_trace est_new
             (inside_ex 64 hart_trace memory_trace)); [right; reflexivity | reflexivity | reflexivity | reflexivity | | | reflexivity |].
    + split; unfold is_reg, in_s; cbn; try lia; reflexivity.
    + exact (inside_ex_matches 64 _ _ ltac:(lia) hart_trace_wf memory_trace_bytes).
    + vm_compute. repeat split; try (right; discriminate); auto; discriminate.
  - apply (emitted_instruction_correct (H := plain_cpu) (H0 := jit_ex) no_fp RV_IMA 32 rv_op_lw
             (mkJit 0x10000 0xff82a503 (-8) (Rv rv_op_lw) 10 5 0 0 false false 0) hart_trace memory_trace est_new
             (inside_ex 32 hart_trace memory_trace)); [left; reflexivity | reflexivity | reflexivity | reflexivity | | | reflexivity | exact I].
    + split; unfold is_reg, in_s; cbn; try lia; reflexivity.
    + refine (inside_ex_matches 32 _ _ ltac:(lia) _ memory_trace_bytes).
      assert (Hh : hart_wf 32 (hart_ex [(5, 0x2000); (12, -3)])) by hart_ex_tac. destruct Hh. split; assumption.
Defined.
