(* ===== verification/Fields.v ===== *)
(** * What a fetched and decoded instruction can hold

    The range of every field of a decoded instruction, for the readers that index
    arrays with registers and add immediates: registers are registers, immediates
    are 32-bit and, where control goes by them, even; the length of a fetched
    instruction is the one its word says. *)

From Stdlib Require Import ZArith Lia Bool List.
From stdpp Require Import base list option.
From S2P Require Import Prelude Operand Meta CompTables Codec Switch Decoder Ckpt Replay Interp Isa Mmu.

#[local] Open Scope Z_scope.
#[local] Open Scope word_scope.

(** ** The fields of a codec *)

Definition src_reg (s : src) : bool :=
  match s with
  | SConst z => (0 <=? z) && (z <? 32)
  | SOp o b => negb (o_signed o) && (0 <=? b) && (2 ^ o_width o + b <=? 32)
  | SCopy _ _ => true
  end.
Definition src_word (s : src) : bool :=
  match s with
  | SConst z => (- 2 ^ 31 <=? z) && (z <? 2 ^ 31)
  | SOp o b => (b =? 0) && (1 <=? o_width o) && (o_width o <=? if o_signed o then 32 else 31)
  | SCopy _ _ => false
  end.
Definition src_even (s : src) : bool :=
  match s with SConst z => z mod 2 =? 0 | SOp o b => (b =? 0) && (1 <=? o_align o) | SCopy _ _ => false end.
Definition is_copy (s : src) : bool := match s with SCopy _ _ => true | _ => false end.

Definition codec_ranges (c : rv_codec) : bool :=
  forallb (fun fs : field * src =>
    match fst fs with
    | F_rs1 => src_reg (snd fs) && negb (is_copy (snd fs))
    | F_rd | F_rs2 => src_reg (snd fs)
    | F_imm => src_word (snd fs)
    | _ => true
    end) (shape_of c).
Lemma codecs_ranges (c : rv_codec) : codec_ranges c = true.
Proof. destruct c; vm_compute; reflexivity. Qed.

Definition is_transfer (o : rv_op) : bool :=
  match o with
  | rv_op_jal | rv_op_beq | rv_op_bne | rv_op_blt | rv_op_bge | rv_op_bltu | rv_op_bgeu => true
  | _ => false
  end.
(** The opcode after expansion. *)
Definition expanded (o : rv_op) : rv_op :=
  if bool_decide (rv_inst_decomp_rv64 o = rv_op_illegal) then o else rv_inst_decomp_rv64 o.
Definition transfer_even (o : rv_op) : bool :=
  negb (is_transfer (expanded o))
  || (mentions (shape_of (rv_inst_codec o)) F_imm
      && forallb (fun fs : field * src => match fst fs with F_imm => src_even (snd fs) | _ => true end) (shape_of (rv_inst_codec o))).
Lemma transfers_even (o : rv_op) : transfer_even o = true.
Proof. apply forall_ops. vm_compute. reflexivity. Qed.

(** ** A well-formed instruction *)

Section Wf.
Context (d : decode) (Hd : wf_decode d).

Lemma field_src (f : field) : get f d = 0 \/ exists s, In (f, s) (shape_of (codec d)) /\ src_wf d (f, s).
Proof using Hd.
  destruct Hd as (_ & [Hs Hz] & _). destruct (mentions (shape_of (codec d)) f) eqn:E; [right | left; exact (Hz f E)].
  unfold mentions in E. apply existsb_exists in E as ([g s] & Hin & Hg). apply bool_decide_eq_true in Hg. cbn in Hg. subst g.
  exists s. split; [exact Hin |]. exact (proj1 (List.Forall_forall _ _) Hs _ Hin).
Qed.

Lemma src_range (f : field) (s : src) : In (f, s) (shape_of (codec d)) ->
  match f with
  | F_rs1 => src_reg s && negb (is_copy s)
  | F_rd | F_rs2 => src_reg s
  | F_imm => src_word s
  | _ => true
  end = true.
Proof using. intros Hin. exact (forallb_In _ _ (f, s) (codecs_ranges (codec d)) Hin). Qed.

Lemma src_reg_ok (f : field) (s : src) : src_wf d (f, s) -> src_reg s = true -> is_copy s = false -> is_reg (get f d).
Proof using.
  destruct s as [z | o b | o b]; cbn [src_wf src_reg is_copy]; [| | discriminate].
  - intros -> H _. rewrite andb_true_iff, Z.leb_le, Z.ltb_lt in H. exact H.
  - intros [Hr _] H _. rewrite !andb_true_iff, !Z.leb_le, negb_true_iff in H. destruct H as [[Hs Hb] Hw].
    rewrite Hs in Hr. unfold in_u in Hr. unfold is_reg. lia.
Qed.

Lemma zero_reg : is_reg 0.
Proof using. unfold is_reg. lia. Qed.

Lemma wf_rs1 : is_reg (rs1 d).
Proof using Hd.
  destruct (field_src F_rs1) as [E | (s & Hin & Hs)]; cbn [get] in *; [rewrite E; apply zero_reg |].
  pose proof (src_range _ _ Hin) as Hr. cbn in Hr. apply andb_true_iff in Hr as [Hr Hc]. apply negb_true_iff in Hc.
  exact (src_reg_ok F_rs1 s Hs Hr Hc).
Qed.
Lemma wf_register (f : field) : f = F_rd \/ f = F_rs2 -> is_reg (get f d).
Proof using Hd.
  intros Hf. destruct (field_src f) as [E | (s & Hin & Hs)]; [rewrite E; apply zero_reg |].
  pose proof (src_range _ _ Hin) as Hr. assert (Hr' : src_reg s = true) by (destruct Hf; subst f; exact Hr).
  destruct (is_copy s) eqn:Hc; [| exact (src_reg_ok f s Hs Hr' Hc)].
  destruct s; try discriminate Hc. cbn [src_wf] in Hs. rewrite Hs. apply wf_rs1.
Qed.

Lemma wf_imm : in_s 32 (imm d).
Proof using Hd.
  destruct (field_src F_imm) as [E | (s & Hin & Hs)]; cbn [get] in *; [rewrite E; unfold in_s; lia |].
  pose proof (src_range _ _ Hin) as Hr. cbn in Hr.
  destruct s as [z | o b | o b]; cbn [src_wf src_word] in *; [| | discriminate].
  - rewrite andb_true_iff, Z.leb_le, Z.ltb_lt in Hr. cbn [get] in Hs. unfold in_s. lia.
  - rewrite !andb_true_iff, Z.eqb_eq, !Z.leb_le in Hr. destruct Hr as [[-> Hw0] Hw]. destruct Hs as [Hs _]. cbn [get] in Hs.
    rewrite Z.sub_0_r in Hs. destruct (o_signed o).
    + apply (in_s_mono (o_width o)); [lia | exact Hs].
    + destruct Hs as [H1 H2]. assert (2 ^ o_width o <= 2 ^ 31) by (apply Z.pow_le_mono_r; lia).
      split; change (32 - 1) with 31; lia.
Qed.

Lemma wf_even : is_transfer (expanded (op d)) = true -> imm d mod 2 = 0.
Proof using Hd.
  intros Ht. pose proof (transfers_even (op d)) as He. unfold transfer_even in He. rewrite Ht in He. cbn [negb orb] in He.
  apply andb_true_iff in He as [Hm He].
  assert (Ec : codec d = rv_inst_codec (op d)) by apply Hd. rewrite <- Ec in Hm, He.
  destruct (field_src F_imm) as [E | (s & Hin & Hs)]; cbn [get] in *; [rewrite E; reflexivity |].
  pose proof (forallb_In _ _ _ He Hin) as Hse. cbn in Hse.
  destruct s as [z | o b | o b]; cbn [src_wf src_even] in *; [| | discriminate].
  - cbn [get] in Hs. rewrite Hs. apply Z.eqb_eq, Hse.
  - rewrite andb_true_iff, Z.eqb_eq, Z.leb_le in Hse. destruct Hse as [-> Ha]. destruct Hs as [_ Hs]. cbn [get] in Hs.
    rewrite Z.sub_0_r in Hs. replace (2 ^ o_align o) with (2 * 2 ^ (o_align o - 1)) in Hs by (rewrite <- Z.pow_succ_r by lia; f_equal; lia).
    apply Z.mod_divide in Hs; [| pose proof (pow2_pos (o_align o - 1) ltac:(lia)); lia].
    apply Z.mod_divide; [lia |]. destruct Hs as [k Hk]. exists (k * 2 ^ (o_align o - 1)). lia.
Qed.
End Wf.

(** What the RV64 decoder leaves. *)
Record ranged (d : decode) : Prop := {
  rg_rd : is_reg (rd d); rg_rs1 : is_reg (rs1 d); rg_rs2 : is_reg (rs2 d);
  rg_imm : in_s 32 (imm d);
  rg_even : transfer_aligned d }.

Lemma expand_fields (d : decode) :
  op (decompress rv_inst_decomp_rv64 d) = expanded (op d) /\ forall f, get f (decompress rv_inst_decomp_rv64 d) = get f d.
Proof. unfold decompress, expanded. destruct (bool_decide _); (split; [reflexivity | intros []; reflexivity]). Qed.

Lemma expand_ranged (d : decode) : wf_decode d -> ranged (decompress rv_inst_decomp_rv64 d).
Proof.
  intros Hd. destruct (expand_fields d) as [He Hf].
  pose proof (Hf F_rd) as E1. pose proof (Hf F_rs1) as E2. pose proof (Hf F_rs2) as E3. pose proof (Hf F_imm) as E4. cbn [get] in *.
  split.
  - rewrite E1. apply (wf_register d Hd F_rd). auto.
  - rewrite E2. apply wf_rs1, Hd.
  - rewrite E3. apply (wf_register d Hd F_rs2). auto.
  - rewrite E4. apply wf_imm, Hd.
  - unfold transfer_aligned. rewrite He, E4. pose proof (wf_even d Hd) as Hev. unfold is_transfer in Hev.
    destruct (expanded (op d)); auto.
Qed.

Lemma decoded_op (fl : isa) (inst : Z) : op (decode_inst fl decode_init inst) = decode_inst_op fl inst.
Proof. unfold decode_inst. rewrite decode_inst_type_shape. apply shape_decode_keeps. Qed.

Lemma decoded_rv64 (inst : Z) : in_u 64 inst -> op (decode_inst_rv64 decode_init inst) <> rv_op_illegal ->
  ranged (decode_inst_rv64 decode_init inst).
Proof.
  intros Hi Ho. apply expand_ranged, decoded_wf; [exact Hi |]. rewrite <- decoded_op.
  intros E. apply Ho. unfold decode_inst_rv64, decompress_inst_rv64. rewrite (proj1 (expand_fields _)), E. reflexivity.
Qed.

(** ** A fetched word *)

Lemma high_word_low (x y m : Z) : 0 <= m < 2 ^ 32 -> (x .| (y <<[64] 32)) .& m = x .& m.
Proof.
  intros Hm. rewrite Z.land_lor_distr_l. replace ((y <<[64] 32) .& m) with 0; [apply Z.lor_0_r |].
  symmetry. apply Z.bits_inj_0. intros n. destruct (Z.leb_spec 0 n); [| rewrite Z.testbit_neg_r by lia; reflexivity].
  rewrite Z.land_spec. destruct (Z.ltb_spec n 32).
  - rewrite testbit_uwrap by lia. rewrite Z.shiftl_spec_low by lia. rewrite andb_false_r. reflexivity.
  - rewrite (testbit_high 32 m n) by (unfold in_u; lia). apply andb_false_r.
Qed.

Lemma fetched (M : memory) (a inst len : Z) :
  bytes M -> inst_fetch (mem_read 2 M) (mem_read 4 M) a = (inst, len) -> in_u 64 inst /\ (inst <> 0 -> len = inst_length inst /\ (len = 2 \/ len = 4 \/ len = 6 \/ len = 8)).
Proof.
  intros HM E. pose proof (mem_read_range 4 M a HM) as Hr. change (8 * Z.of_nat 4) with 32 in Hr.
  unfold inst_fetch in E. rewrite (uwrap_small 32 _ Hr) in E. set (x := mem_read 4 M a) in *.
  assert (Hx : in_u 64 x) by (unfold in_u in *; lia).
  assert (Hlow : forall y m, 0 <= m < 2 ^ 32 -> (x .| (y <<[64] 32)) .& m = x .& m) by (intros; apply high_word_low; assumption).
  assert (Hu : forall y, in_u 64 (x .| (y <<[64] 32)))
    by (intros y; apply lor_range; [lia | exact Hx | apply uwrap_range; lia]).
  unfold inst_length.
  destruct (negb ((x .& 3) =? 3)) eqn:E1.
  { injection E as <- <-. split.
    - apply land_range; [lia | exact Hx | unfold in_u; lia].
    - intros _. rewrite <- Z.land_assoc. change (0xffff .& 0x3) with 3. rewrite E1. auto. }
  destruct (negb ((x .& 0x1c) =? 0x1c)) eqn:E2.
  { injection E as <- <-. split; [exact Hx |]. intros _. rewrite E1, E2. auto. }
  destruct ((x .& 0x3f) =? 0x1f) eqn:E3.
  { injection E as <- <-. split; [apply Hu |]. intros _. rewrite !Hlow by lia. rewrite E1, E2, E3. auto. }
  destruct ((x .& 0x7f) =? 0x3f) eqn:E4; injection E as <- <-.
  - split; [apply Hu |]. intros _. rewrite !Hlow by lia. rewrite E1, E2, E3, E4. auto.
  - split; [unfold in_u; lia | congruence].
Qed.

(** The codec of the immediate shifts has a seven-bit count, for RV128: the RV64
    decoder accepts counts the processor has no bits for. *)
Example decoded_long_shift :
  let d := decode_inst_rv64 decode_init 0x04009093 in
  op d = rv_op_slli /\ rd d = 1 /\ rs1 d = 1 /\ imm d = 64.
Proof. vm_compute. auto. Qed.
