(* ===== verification/JitTracer.v ===== *)
(** * Recording a trace: [jit/jit-tracer.h] and [jit_trace] of [jit/jit-runloop.h]

    The tracer is shown every instruction before it is executed, keeps those it can
    compile, follows jumps, calls and returns, records the direction of branches
    and marks the targets of backward ones.  [jit_trace] interprets until the
    tracer stops, and compiles what was recorded.  A trace it records is a path of
    the interpreter, and so a trace [JitFunction] is about. *)

From Stdlib Require Import ZArith Lia Bool List.
From stdpp Require Import base list option gmap.
From S2P Require Import Prelude Alu Meta Codec Decoder Ckpt Replay Interp Isa Mmu X86 Jit JitEmit JitProofs JitCorrect JitLabels.
From S2P Require Import JitTrace JitFunction Fields.

#[local] Open Scope Z_scope.
#[local] Open Scope word_scope.

#[export] Instance jop_eq_dec : EqDecision jop.
Proof. solve_decision. Defined.

(** ** The tracer *)

Record tracer : Type := mkTracer {
  t_labels : gmap Z Z;          (* the index in the trace of each program counter *)
  t_callstack : list Z;
  t_trace : list jit_decode;
  t_inst_num : Z }.
Definition tracer_new : tracer := mkTracer ∅ [] [] 0.

Definition supported_op (d : jit_decode) : bool := bool_decide (jd_op d ∈ supported_ops).

Definition set_brt (b : bool) (d : jit_decode) : jit_decode :=
  mkJit (jd_pc d) (jd_inst d) (jd_imm d) (jd_op d) (jd_rd d) (jd_rs1 d) (jd_rs2 d) (jd_rs3 d) b (jd_brc d) (jd_sz d).
Definition set_brc (b : bool) (d : jit_decode) : jit_decode :=
  mkJit (jd_pc d) (jd_inst d) (jd_imm d) (jd_op d) (jd_rd d) (jd_rs1 d) (jd_rs2 d) (jd_rs3 d) (jd_brt d) b (jd_sz d).

Definition push_callstack (a : Z) (t : tracer) : tracer := mkTracer (t_labels t) (a :: t_callstack t) (t_trace t) (t_inst_num t).
Definition pop_callstack (t : tracer) : tracer := mkTracer (t_labels t) (tl (t_callstack t)) (t_trace t) (t_inst_num t).
Definition push_trace (d : jit_decode) (t : tracer) : tracer :=
  mkTracer (t_labels t) (t_callstack t) (t_trace t ++ [d]) (t_inst_num t).

(** [trace[li->second].brt = true], where [p] has a label. *)
Definition label_block (p : Z) (t : tracer) : option tracer :=
  match t_labels t !! p with
  | None => Some t
  | Some i =>
      d ← aget (t_trace t) i;
      tr ← aset (t_trace t) i (set_brt true d);
      Some (mkTracer (t_labels t) (t_callstack t) tr (t_inst_num t))
  end.

(** The condition of a branch, on the processor's registers. *)
Definition branch_cond (h : hart) (o : rv_op) (d : jit_decode) : option bool :=
  a ← aget (ireg h) (jd_rs1 d);
  b ← aget (ireg h) (jd_rs2 d);
  taken o a b.

(** [jit_tracer::emit]: whether to go on. *)
Definition tracer_emit (h : hart) (d : jit_decode) (t : tracer) : option (bool * tracer) :=
  match t_labels t !! jd_pc d with
  | Some _ => Some (false, t)
  | None =>
      let t := mkTracer (<[jd_pc d := t_inst_num t]> (t_labels t)) (t_callstack t) (t_trace t) (t_inst_num t + 1) in
      match jd_op d with
      | Fused jit_op_call => Some (true, push_trace d (push_callstack (jd_pc d +[64] jd_sz d) t))
      | Rv rv_op_jal =>
          let link_addr := cont_pc d in
          Some (true, push_trace d (if jd_rd d =? rv_ireg_ra then push_callstack link_addr t else t))
      | Rv rv_op_jalr =>
          if (jd_rd d =? rv_ireg_zero) && (jd_rs1 d =? rv_ireg_ra) && (Z.of_nat (length (t_callstack t)) >? 0)
          then Some (true, push_trace d (pop_callstack t))
          else
            let link_addr := cont_pc d in
            Some (false, push_trace d (if jd_rd d =? rv_ireg_ra then push_callstack link_addr t else t))
      | Rv (rv_op_bne as o) | Rv (rv_op_beq as o) | Rv (rv_op_blt as o) | Rv (rv_op_bge as o)
      | Rv (rv_op_bltu as o) | Rv (rv_op_bgeu as o) =>
          c ← branch_cond h o d;
          t ← label_block (branch_pc d) t;
          t ← label_block (cont_pc d) t;
          Some (true, push_trace (set_brc c d) t)
      | _ => if supported_op d then Some (true, push_trace d t) else Some (false, t)
      end
  end.

(** What [jit_trace] asks of a tracer, which is a parameter of the run loop. *)
Class Tracer (T : Type) : Type := {
  tr_new : T;
  tr_emit : hart -> jit_decode -> T -> option (bool * T);
  tr_end : hart -> T -> option T;
  tr_trace : T -> list jit_decode }.
#[export] Instance plain_tracer : Tracer tracer :=
  {| tr_new := tracer_new; tr_emit := tracer_emit; tr_end := fun _ t => Some t; tr_trace := t_trace |}.

(** ** [jit_trace] *)

(** [dec.pc] and [dec.inst] are set after decoding into a new record. *)
Definition jit_of (d : decode) (pc inst : Z) : jit_decode :=
  mkJit pc inst (imm d) (Rv (op d)) (rd d) (rs1 d) (rs2 d) (rs3 d) false false 0.

Section Record.
Context {T : Type} `{Tracer T} {S : Type} `{Mmu S}.
Context (exec_fp : decode -> hart -> Z -> io Z) (fl : flags).
(** [P::inst_decode]. *)
Context (inst_decode : decode -> Z -> decode).

(** How the loop ends; [raise] leaves [jit_trace]. *)
Inductive recording : Type :=
  | Recorded (t : T) (h : hart) (s : S) (instret : Z)
  | Raised (h : hart) (s : S) (cause badaddr : Z)
  | Undefined.

Fixpoint record_loop (fuel : nat) (t : T) (h : hart) (s : S) (instret : Z) : option recording :=
  match fuel with
  | O => None
  | Datatypes.S n =>
      match mmu_fetch (pc h) s with
      | Ub => Some Undefined
      | Fault s c b => Some (Raised h s c b)
      | Fine s (inst, pc_offset) =>
          let d := inst_decode decode_init inst in
          match tr_emit h (jit_of d (pc h) inst) t with
          | None => Some Undefined
          | Some (false, t) => Some (Recorded t h s instret)
          | Some (true, t) =>
              match run (exec_inst exec_fp fl 64 d h pc_offset) s with
              | Ub => Some Undefined
              | Fault (h, s) c b => Some (Raised h s c b)
              | Fine (h, s) new_offset =>
                  if new_offset =? uwrap 64 (-1) then Some (Recorded t h s instret)
                  else record_loop n t (set_pc (pc h +[64] new_offset) h) s (instret +[64] 1)
              end
          end
      end
  end.

(** The whole of [jit_trace]: the function, and whether it goes to the cache (not
    when no instruction was executed). *)
Inductive traced : Type :=
  | Compiled (ds : list jit_decode) (code : list instr) (cached : bool) (h : hart) (s : S) (instret : Z)
  | Trace_raised (h : hart) (s : S) (cause badaddr : Z)
  | Trace_undefined.
Definition jit_trace `{Jit} (fuel : nat) (h : hart) (s : S) (instret : Z) : option traced :=
  r ← record_loop fuel tr_new h s instret;
  Some match r with
       | Undefined => Trace_undefined
       | Raised h s c b => Trace_raised h s c b
       | Recorded t h s n =>
           match tr_end h t with
           | None => Trace_undefined
           | Some t => Compiled (tr_trace t) (trace_function (tr_trace t)) (negb (n =? instret)) h s n
           end
       end.
End Record.
Arguments recording T S : clear implicits. Arguments traced S : clear implicits.
