(* ===== verification/JitRecord.v ===== *)
(** * What a recorded trace is

    The trace [jit_trace] records is the path the interpreter took, instruction by
    instruction; the function compiled for it runs like the interpreter whenever it
    is called at its start. *)

From Stdlib Require Import ZArith Lia Bool List.
From stdpp Require Import base list option gmap.
From S2P Require Import Prelude Alu Meta Codec Decoder Ckpt Replay Interp Isa Mmu X86 Jit JitEmit JitProofs JitCorrect JitLabels.
From S2P Require Import JitTrace JitFunction Fields JitTracer.

#[local] Open Scope Z_scope.
#[local] Open Scope word_scope.

(** ** What the tracer supports *)

Section Supported.
Context (exec_fp : decode -> hart -> Z -> io Z) (fl : flags) (inst_decode : decode -> Z -> decode).
Hypothesis (Hi : rvi fl = true) (Hm : rvm fl = true).
Hypothesis (Hdecode : forall inst, in_u 64 inst -> op (inst_decode decode_init inst) <> rv_op_illegal -> ranged (inst_decode decode_init inst)).

(** The opcodes of the list. *)
Definition rv_supported (o : rv_op) : bool :=
  match o with
  | rv_op_auipc | rv_op_add | rv_op_sub | rv_op_mul | rv_op_mulh | rv_op_mulhu | rv_op_mulhsu
  | rv_op_div | rv_op_rem | rv_op_divu | rv_op_remu | rv_op_slt | rv_op_sltu | rv_op_and | rv_op_or
  | rv_op_xor | rv_op_sll | rv_op_srl | rv_op_sra | rv_op_addw | rv_op_subw | rv_op_mulw
  | rv_op_divw | rv_op_remw | rv_op_divuw | rv_op_remuw | rv_op_sllw | rv_op_srlw | rv_op_sraw
  | rv_op_addi | rv_op_slti | rv_op_sltiu | rv_op_andi | rv_op_ori | rv_op_xori | rv_op_slli
  | rv_op_srli | rv_op_srai | rv_op_addiw | rv_op_slliw | rv_op_srliw | rv_op_sraiw | rv_op_bne
  | rv_op_beq | rv_op_blt | rv_op_bge | rv_op_bltu | rv_op_bgeu | rv_op_ld | rv_op_lw | rv_op_lwu
  | rv_op_lh | rv_op_lhu | rv_op_lb | rv_op_lbu | rv_op_sd | rv_op_sw | rv_op_sh | rv_op_sb
  | rv_op_lui | rv_op_jal | rv_op_jalr => true
  | _ => false
  end.
Lemma supported_list (o : rv_op) : bool_decide (Rv o ∈ supported_ops) = rv_supported o.
Proof using.
  assert (E : forallb (fun o => Bool.eqb (bool_decide (Rv o ∈ supported_ops)) (rv_supported o)) all_ops = true)
    by (vm_compute; reflexivity).
  exact (eqb_prop _ _ (forall_ops _ o E)).
Qed.
Lemma supported_rv (o : rv_op) (d : jit_decode) : jd_op d = Rv o -> supported_op d = rv_supported o.
Proof using. intros E. unfold supported_op. rewrite E. apply supported_list. Qed.

(** A supported instruction of the instruction set is one the theorems on traces cover. *)
Definition op_alone (o : rv_op) : jit_decode := mkJit 0 0 0 (Rv o) 0 0 0 0 false false 0.
Lemma covered_op (o : rv_op) (d : jit_decode) : jd_op d = Rv o -> covered fl d = covered fl (op_alone o).
Proof using. intros E. unfold covered. rewrite E. reflexivity. Qed.
Lemma supported_covered (o : rv_op) (d : jit_decode) : jd_op d = Rv o -> supported_op d = true -> covered fl d = true.
Proof using Hi Hm.
  intros E. rewrite (supported_rv o d E), (covered_op o d E). clear d E.
  destruct fl as [i m a f g]. cbn [rvi rvm] in *. subst i m. intros Ho. destruct o; try discriminate Ho; reflexivity.
Qed.

Lemma supported_exec (d : decode) (pc inst : Z) (h : hart) (off : Z) : supported_op (jit_of d pc inst) = true ->
  exec_inst exec_fp fl 64 (decode_of (op d) (jit_of d pc inst)) h off = exec_inst exec_fp fl 64 d h off.
Proof using.
  rewrite (supported_rv (op d)) by reflexivity. destruct d as [i r1 r2 r3 r4 o' c x1 x2 x3 x4 x5]. cbn [op].
  intros Hs. destruct o'; try discriminate Hs; reflexivity.
Qed.

(** Where an instruction other than a jump goes on. *)
Lemma next_of_plain (o : rv_op) (d : jit_decode) (cs : list Z) : jd_op d = Rv o -> o <> rv_op_jal -> o <> rv_op_jalr ->
  next_of cs d = Some (if is_branch o && jd_brc d then branch_pc d else cont_pc d, cs).
Proof using. intros E H1 H2. unfold next_of. rewrite E. destruct o; reflexivity || contradiction. Qed.
Lemma plain_straight (o : rv_op) : taken o 0 0 = None -> o <> rv_op_jal -> is_transfer o = false.
Proof using. destruct o; reflexivity || discriminate || contradiction. Qed.
Lemma next_of_return (d : jit_decode) (cs : list Z) : is_return d cs = true -> next_of cs d = Some (hd 0 cs, tl cs).
Proof using.
  intros E. unfold next_of. rewrite E. unfold is_return in E. destruct (jd_op d) as [o | o]; [| discriminate E].
  destruct o; discriminate E || reflexivity.
Qed.
Lemma taken_branch (o : rv_op) (b0 : bool) (a b : Z) : taken o 0 0 = Some b0 ->
  exists c, taken o a b = Some c
    /\ forall i p next, isa_control 64 o a b i p next = Some (None, if c then uwrap 64 (p + i) else next).
Proof using. destruct o; try discriminate; intros _; eexists; (split; [reflexivity |]); reflexivity. Qed.

(** ** One instruction *)

Abbreviation sized := (fun _ sz _ => 0 <= sz) (only parsing).

Lemma wr_every (dec : decode) (h : hart) (off : Z) (e : option Z) : every (A := Z) sized (fun _ o => o = off) (wr 64 dec h off e).
Proof using. unfold wr. destruct (assign 64 dec h e); [reflexivity | exact I]. Qed.
Lemma load_every (dec : decode) (h : hart) (off sz : Z) (conv : Z -> Z) :
  0 <= sz -> every (A := Z) sized (fun _ o => o = off) (load_case 64 dec h off sz conv).
Proof using. intros Hsz. unfold load_case. destruct (x h (rs1 dec)); [split; [exact Hsz |]; intros v _; apply wr_every | exact I]. Qed.
Lemma store_every (dec : decode) (h : hart) (off sz : Z) : 0 <= sz -> every (A := Z) sized (fun _ o => o = off) (store_case 64 dec h off sz).
Proof using. intros Hsz. unfold store_case. destruct (x h (rs1 dec)); [destruct (x h (rs2 dec)) |]; cbn; auto. Qed.

(** An instruction that is no transfer goes to the next. *)
Lemma straight_every (dec : decode) (h : hart) (off : Z) : rv_supported (op dec) = true -> is_transfer (op dec) = false -> op dec <> rv_op_jalr ->
  every (A := Z) sized (fun _ o => o = off) (exec_inst exec_fp fl 64 dec h off).
Proof using Hi Hm.
  unfold exec_inst. cbn [Z.eqb Pos.eqb]. unfold exec_inst_rv64, guarded, exec_i, exec_i64, exec_m, exec_m64. rewrite Hi, Hm.
  intros Hs Ht Hj. destruct (op dec); try discriminate Hs; try discriminate Ht; try congruence; cbn [is_transfer];
    first [apply wr_every | apply load_every; lia | apply store_every; lia].
Qed.

(** The frame of a supported instruction. *)
Lemma supported_every (dec : decode) (h : hart) (off : Z) : rv_supported (op dec) = true ->
  hart_wf 64 h -> is_reg (rd dec) -> offset_ok 64 off -> transfer_aligned dec ->
  every (request_ok 64 h) (result_ok 64 dec h) (exec_inst exec_fp fl 64 dec h off).
Proof using Hi Hm.
  intros Hs Hh Hrd Ho Ha. unfold exec_inst. cbn [Z.eqb Pos.eqb]. unfold exec_inst_rv64, guarded. rewrite Hi, Hm.
  pose proof (exec_i_ok 64 dec h off (or_intror eq_refl) Hh Hrd Ho Ha) as G1.
  pose proof (exec_i64_ok 64 dec h off (or_intror eq_refl) Hh Hrd Ho Ha) as G2.
  pose proof (exec_m_ok 64 dec h off (or_intror eq_refl) Hh Hrd Ho Ha) as G3.
  pose proof (exec_m64_ok 64 dec h off (or_intror eq_refl) Hh Hrd Ho Ha) as G4.
  destruct (exec_i 64 dec h off) eqn:E1; [auto |]. destruct (exec_i64 64 dec h off) eqn:E2; [auto |].
  destruct (exec_m 64 dec h off) eqn:E3; [auto |]. destruct (exec_m64 64 dec h off) eqn:E4; [auto |].
  exfalso. unfold exec_i, exec_i64, exec_m, exec_m64 in *. destruct (op dec); discriminate.
Qed.

(** On the host's memory every way it returns is as [every] says. *)
Lemma every_run {A} (R : hart -> Z -> Z -> Prop) (Q : hart -> A -> Prop) (p : io A) (M : memory) (h : hart) (M' : memory) (a : A) :
  (forall h sz va, R h sz va -> 0 <= sz) -> every R Q p -> bytes M -> run p M = Fine (h, M') a -> Q h a /\ bytes M'.
Proof using.
  intros HR. assert (Hread : forall sz va M0, 0 <= sz -> bytes M0 -> in_u (8 * sz) (mem_read (Z.to_nat sz) M0 va)).
  { intros sz va M0 Hsz Hb. pose proof (mem_read_range (Z.to_nat sz) M0 va Hb) as Hr. rewrite Z2Nat.id in Hr by exact Hsz. exact Hr. }
  revert M. induction p as [h0 b | h0 sz va k IH | h0 sz va d k IH | h0 o sz va v k IH |]; intros M Hp Hb Er;
    cbn [run mmu_load mmu_store mmu_amo mmu_memory every] in *.
  - injection Er as <- <- <-. auto.
  - destruct Hp as [H1 H2]. apply (IH (mem_read (Z.to_nat sz) M va) M); [apply H2, Hread; eauto | exact Hb | exact Er].
  - destruct Hp as [H1 H2]. apply (IH (mem_write sz M va d)); [exact H2 | apply bytes_write, Hb | exact Er].
  - destruct Hp as [H1 H2].
    refine (IH _ _ _ _ Er); [apply H2, Hread; eauto | apply bytes_write, Hb].
  - discriminate Er.
Qed.

Lemma pc_sum_even (a b : Z) : a mod 2 = 0 -> b mod 2 = 0 -> (a +[64] b) mod 2 = 0.
Proof using. intros Ha Hb. apply uwrap_even; [lia |]. rewrite Z.add_mod, Ha, Hb by lia. reflexivity. Qed.

Section Step.
Context (h : hart) (M : memory) (dec : decode) (inst len : Z).
Hypothesis (Hh : hart_wf 64 h) (HM : bytes M) (Hpc : pc h mod 2 = 0).
Hypothesis (Hdec : ranged dec) (El : len = inst_length inst) (Hlen : len = 2 \/ len = 4 \/ len = 6 \/ len = 8).
Abbreviation j := (jit_of dec (pc h) inst).
Hypothesis (Hs : supported_op j = true).

Lemma step_wf : jit_wf j.
Proof using Hdec Hpc. destruct Hdec. split; assumption. Qed.
Lemma step_offset_ok : offset_ok 64 len.
Proof using Hlen. split; [unfold in_u; lia |]. change (uwrap 64 (-1)) with (2 ^ 64 - 1). lia. Qed.
Lemma step_supported : rv_supported (op dec) = true.
Proof using Hs. rewrite <- (supported_rv (op dec) j) by reflexivity. exact Hs. Qed.

(** Where a transfer goes. *)
Lemma transfer_target (target off : Z) (link : option Z) (h' : hart) (M' : memory) :
  isa_control 64 (op dec) (get_reg h (rs1 dec)) (get_reg h (rs2 dec)) (imm dec) (pc h) (next_pc 64 h len) = Some (link, target) ->
  run (exec_inst exec_fp fl 64 dec h len) M = Fine (h', M') off -> next_pc 64 h' off = target.
Proof using Hi Hh Hpc Hdec.
  intros Ec Er. destruct Hdec as [Hrd H1 H2 Himm _].
  destruct (exec_control exec_fp fl 64 dec h len target link (or_intror eq_refl) Hh Hrd H1 H2 (in_s_mono 32 64 _ ltac:(lia) Himm) Hpc Hi Ec)
    as (off' & Ex & Et).
  rewrite Ex in Er. cbn [run] in Er. injection Er as <- _ <-. rewrite <- Et. unfold next_pc. destruct link; rewrite ?put_reg_pc; reflexivity.
Qed.

Context (h' : hart) (M' : memory) (off : Z).
Hypothesis (Hrun : run (exec_inst exec_fp fl 64 dec h len) M = Fine (h', M') off).
Abbreviation h1 := (set_pc (pc h' +[64] off) h').

Lemma step_frame : frame 64 (rd dec) h h' /\ offset_ok 64 off /\ bytes M'.
Proof using Hi Hm Hh HM Hdec Hlen Hs Hrun.
  assert (Hev : every (request_ok 64 h) (result_ok 64 dec h) (exec_inst exec_fp fl 64 dec h len))
    by (apply supported_every; [apply step_supported | exact Hh | apply Hdec | apply step_offset_ok | apply Hdec]).
  apply every_run with (M := M) (h := h') (M' := M') (a := off) in Hev; [| | exact HM | exact Hrun].
  - destruct Hev as [[H1 H2] H3]. auto.
  - intros h0 sz va [[Hsz | [Hsz | [Hsz | Hsz]]] _]; lia.
Qed.

Lemma step_guest : guest_step exec_fp fl j h M = Some (h1, M').
Proof using Hs El Hrun.
  unfold guest_step, inst_step_at. cbn [jit_of jd_op jd_inst].
  change (mkJit (pc h) inst (imm dec) (Rv (op dec)) (rd dec) (rs1 dec) (rs2 dec) (rs3 dec) false false 0) with j.
  rewrite (supported_exec dec (pc h) inst) by exact Hs. rewrite <- El, Hrun. reflexivity.
Qed.

(** The instruction after, if the recorded direction is the one the branch takes. *)
Lemma step_next (cs : list Z) (c : bool) (p : Z) (cs' : list Z) :
  (forall b, taken (op dec) (get_reg h (rs1 dec)) (get_reg h (rs2 dec)) = Some b -> c = b) ->
  next_of cs (set_brc c j) = Some (p, cs') -> is_return j cs = false -> pc h1 = p.
Proof using Hi Hm Hh HM Hpc Hdec El Hlen Hs Hrun.
  intros Hc Hn Hr. change (pc h1) with (next_pc 64 h' off).
  destruct step_frame as [[_ Hp _ _ _ _] _].
  assert (Econt : next_pc 64 h len = cont_pc j) by (unfold next_pc, cont_pc; rewrite El; reflexivity).
  pose proof (fun t l => transfer_target t off l h' M') as Ht. rewrite Econt in Ht.
  destruct (rv_op_eq_dec (op dec) rv_op_jalr) as [Ej | Nj].
  { unfold next_of in Hn. cbn [set_brc jit_of jd_op] in Hn. rewrite Ej in Hn.
    change (is_return _ cs) with (is_return j cs) in Hn. rewrite Hr in Hn. discriminate Hn. }
  destruct (rv_op_eq_dec (op dec) rv_op_jal) as [Ejal | Njal].
  { unfold next_of in Hn. cbn [set_brc jit_of jd_op jd_rd] in Hn. rewrite Ejal in Hn. injection Hn as <- _.
    apply (Ht _ (Some (swrap 64 (cont_pc j)))); [| exact Hrun]. rewrite Ejal. reflexivity. }
  rewrite (next_of_plain (op dec)) in Hn by (reflexivity || assumption). injection Hn as <- _. cbn [set_brc jd_brc].
  unfold is_branch. destruct (taken (op dec) 0 0) as [b0 |] eqn:Et0.
  - destruct (taken_branch (op dec) _ (get_reg h (rs1 dec)) (get_reg h (rs2 dec)) Et0) as (b & Eb & Ec).
    rewrite (Hc b Eb). apply (Ht _ None); [apply Ec | exact Hrun].
  - assert (Hst : is_transfer (op dec) = false) by (apply plain_straight; assumption).
    assert (off = len) as ->.
    { refine (proj1 (every_run sized (fun _ o => o = len) _ M h' M' off _ _ HM Hrun)); [auto |].
      apply straight_every; [exact step_supported | exact Hst | exact Nj]. }
    transitivity (cont_pc j); [rewrite <- Econt; unfold next_pc; rewrite Hp; reflexivity | reflexivity].
Qed.

Lemma step_even : pc h1 mod 2 = 0.
Proof using Hi Hm Hh HM Hpc Hdec El Hlen Hs Hrun.
  assert (Hc : (cont_pc j) mod 2 = 0) by apply cont_even, step_wf.
  assert (Hb : is_transfer (op dec) = true -> branch_pc j mod 2 = 0).
  { intros Ht. apply pc_sum_even; [exact Hpc |]. destruct Hdec as [_ _ _ _ Ha]. unfold transfer_aligned in Ha. cbn [jit_of jd_imm].
    destruct (op dec); discriminate Ht || exact Ha. }
  destruct (rv_op_eq_dec (op dec) rv_op_jalr) as [Ej | Nj].
  { change (pc h1) with (next_pc 64 h' off).
    rewrite (transfer_target (uwrap 64 (2 * ((get_reg h (rs1 dec) + imm dec) / 2))) off (Some (swrap 64 (next_pc 64 h len))) h' M');
      [| rewrite Ej; reflexivity | exact Hrun].
    apply uwrap_even; [lia |]. rewrite Z.mul_comm. apply Z_mod_mult. }
  assert (Hr : is_return j [] = false) by (unfold is_return; cbn [jit_of jd_op]; destruct (op dec); reflexivity || contradiction).
  destruct (rv_op_eq_dec (op dec) rv_op_jal) as [Ejal | Njal].
  { rewrite (step_next [] false (branch_pc j) (if rd dec =? rv_ireg_ra then [cont_pc j] else [])); [| | | exact Hr].
    - apply Hb. rewrite Ejal. reflexivity.
    - rewrite Ejal. discriminate.
    - unfold next_of. cbn [set_brc jit_of jd_op]. rewrite Ejal. reflexivity. }
  set (c := default false (taken (op dec) (get_reg h (rs1 dec)) (get_reg h (rs2 dec)))).
  rewrite (step_next [] c _ [] ltac:(unfold c; intros b ->; reflexivity) (next_of_plain (op dec) (set_brc c j) [] eq_refl Njal Nj) Hr).
  destruct (is_branch (op dec)) eqn:Ei; cbn [andb]; [| exact Hc]. cbn [set_brc jd_brc]. destruct c; [| exact Hc].
  apply Hb. destruct (op dec); reflexivity || discriminate Ei.
Qed.
End Step.

(** ** The tracer *)

(** A recorded instruction without its mark, which later branches may set. *)
Definition raw : jit_decode -> jit_decode := set_brt false.

(** With the label of its program counter. *)
Definition entered (d : jit_decode) (t : tracer) : tracer :=
  mkTracer (<[jd_pc d := t_inst_num t]> (t_labels t)) (t_callstack t) (t_trace t) (t_inst_num t + 1).

Lemma emit_plain (h : hart) (d : jit_decode) (t : tracer) (o : rv_op) :
  jd_op d = Rv o -> is_branch o = false -> o <> rv_op_jal -> o <> rv_op_jalr -> t_labels t !! jd_pc d = None ->
  tracer_emit h d t = Some (if supported_op d then (true, push_trace d (entered d t)) else (false, entered d t)).
Proof using. intros E Hb H1 H2 El. unfold tracer_emit. rewrite El, E. destruct o; try discriminate Hb; try contradiction; destruct (supported_op d); reflexivity. Qed.
Lemma emit_branch_spec (h : hart) (d : jit_decode) (t : tracer) (o : rv_op) :
  jd_op d = Rv o -> is_branch o = true -> t_labels t !! jd_pc d = None ->
  tracer_emit h d t
  = (c ← branch_cond h o d; t1 ← label_block (branch_pc d) (entered d t); t2 ← label_block (cont_pc d) t1;
     Some (true, push_trace (set_brc c d) t2)).
Proof using. intros E Hb El. unfold tracer_emit. rewrite El, E. destruct o; try discriminate Hb; reflexivity. Qed.

(** Marking changes marks only. *)
Record same_but_marks (t t' : tracer) : Prop := {
  sm_labels : t_labels t' = t_labels t; sm_callstack : t_callstack t' = t_callstack t; sm_num : t_inst_num t' = t_inst_num t;
  sm_raw : map raw (t_trace t') = map raw (t_trace t) }.
Lemma label_block_marks (p : Z) (t t' : tracer) : label_block p t = Some t' -> same_but_marks t t'.
Proof using.
  unfold label_block. destruct (t_labels t !! p) as [i |]; [| intros E; injection E as <-; split; reflexivity].
  destruct (aget (t_trace t) i) as [d |] eqn:E1; cbn [mbind option_bind]; [| discriminate].
  destruct (aset (t_trace t) i (set_brt true d)) as [tr |] eqn:E2; cbn [mbind option_bind]; [| discriminate].
  intros E. injection E as <-. split; try reflexivity. cbn [t_trace].
  unfold aset in E2. destruct (_ && _); [| discriminate E2]. injection E2 as <-.
  unfold aget in E1. destruct (0 <=? i); [| discriminate E1].
  change (map raw) with (fmap (M := list) raw). rewrite list_fmap_insert. apply list_insert_id. rewrite list_lookup_fmap, E1. reflexivity.
Qed.

(** What one call adds to the trace. *)
Inductive emits (h : hart) (d : jit_decode) (t : tracer) : bool -> tracer -> Prop :=
  | emits_on (c : bool) (p : Z) (t' : tracer) :
      t_labels t !! jd_pc d = None -> supported_op d = true ->
      (forall o b, jd_op d = Rv o -> taken o (get_reg h (jd_rs1 d)) (get_reg h (jd_rs2 d)) = Some b -> c = b) ->
      next_of (t_callstack t) (set_brc c d) = Some (p, t_callstack t') ->
      t_labels t' = <[jd_pc d := t_inst_num t]> (t_labels t) -> t_inst_num t' = t_inst_num t + 1 ->
      map raw (t_trace t') = map raw (t_trace t) ++ [raw (set_brc c d)] ->
      emits h d t true t'
  | emits_last (t' : tracer) :
      t_labels t !! jd_pc d = None -> supported_op d = true -> next_of (t_callstack t) d = None ->
      t_labels t' = <[jd_pc d := t_inst_num t]> (t_labels t) ->
      map raw (t_trace t') = map raw (t_trace t) ++ [raw d] ->
      emits h d t false t'
  | emits_nothing (t' : tracer) : t_trace t' = t_trace t -> emits h d t false t'.

Lemma tracer_emits (h : hart) (d : jit_decode) (t t' : tracer) (o : rv_op) (b : bool) :
  hart_wf 64 h -> is_reg (jd_rs1 d) -> is_reg (jd_rs2 d) -> jd_op d = Rv o -> jd_brc d = false ->
  tracer_emit h d t = Some (b, t') -> emits h d t b t'.
Proof using.
  intros Hh H1 H2 Eo Hc0. destruct (t_labels t !! jd_pc d) eqn:El.
  { unfold tracer_emit. rewrite El. intros E. injection E as <- <-. apply emits_nothing. reflexivity. }
  assert (Ed : set_brc false d = d) by (destruct d; cbn in *; subst; reflexivity).
  assert (Hlast : forall l d', map raw (l ++ [d']) = map raw l ++ [raw d']) by (intros; rewrite map_app; reflexivity).
  destruct (rv_op_eq_dec o rv_op_jal) as [-> | Njal].
  { unfold tracer_emit. rewrite El, Eo. intros E. injection E as <- <-.
    apply (emits_on h d t false (branch_pc d)); rewrite ?Ed; try assumption.
    - rewrite (supported_rv _ d Eo). reflexivity.
    - intros o b' Eo'. rewrite Eo in Eo'. injection Eo' as <-. discriminate.
    - unfold next_of. rewrite Eo. destruct (jd_rd d =? rv_ireg_ra); reflexivity.
    - destruct (jd_rd d =? rv_ireg_ra); reflexivity.
    - destruct (jd_rd d =? rv_ireg_ra); reflexivity.
    - destruct (jd_rd d =? rv_ireg_ra); apply Hlast. }
  destruct (rv_op_eq_dec o rv_op_jalr) as [-> | Njalr].
  { unfold tracer_emit. rewrite El, Eo. cbn [t_callstack].
    destruct ((jd_rd d =? rv_ireg_zero) && (jd_rs1 d =? rv_ireg_ra) && (Z.of_nat (length (t_callstack t)) >? 0)) eqn:Er;
      intros E; injection E as <- <-.
    - apply (emits_on h d t false (hd 0 (t_callstack t))); rewrite ?Ed; try assumption; try reflexivity.
      + rewrite (supported_rv _ d Eo). reflexivity.
      + intros o b' Eo'. rewrite Eo in Eo'. injection Eo' as <-. discriminate.
      + unfold next_of, is_return. rewrite Eo, Er. reflexivity.
      + apply Hlast.
    - apply emits_last; try assumption.
      + rewrite (supported_rv _ d Eo). reflexivity.
      + unfold next_of, is_return. rewrite Eo, Er. reflexivity.
      + destruct (jd_rd d =? rv_ireg_ra); reflexivity.
      + destruct (jd_rd d =? rv_ireg_ra); apply Hlast. }
  destruct (is_branch o) eqn:Hb.
  - rewrite (emit_branch_spec h d t o Eo Hb El). unfold branch_cond.
    rewrite (proj1 (aget_get_reg 64 h _ Hh H1)), (proj1 (aget_get_reg 64 h _ Hh H2)). cbn [mbind option_bind].
    destruct (taken o _ _) as [c |] eqn:Et; cbn [mbind option_bind]; [| discriminate].
    destruct (label_block (branch_pc d) (entered d t)) as [t1 |] eqn:E1; cbn [mbind option_bind]; [| discriminate].
    destruct (label_block (cont_pc d) t1) as [t2 |] eqn:E2; cbn [mbind option_bind]; [| discriminate].
    intros E. injection E as <- <-. destruct (label_block_marks _ _ _ E1) as [A1 A2 A3 A4]. destruct (label_block_marks _ _ _ E2) as [B1 B2 B3 B4].
    apply (emits_on h d t c (if c then branch_pc d else cont_pc d)); try assumption.
    + rewrite (supported_rv _ d Eo). destruct o; reflexivity || discriminate Hb.
    + intros o' b' Eo'. rewrite Eo in Eo'. injection Eo' as <-. rewrite Et. congruence.
    + rewrite (next_of_plain o (set_brc c d)) by assumption. rewrite Hb. cbn [andb set_brc jd_brc push_trace t_callstack].
      rewrite B2, A2. destruct c; reflexivity.
    + cbn [push_trace t_labels]. rewrite B1, A1. reflexivity.
    + cbn [push_trace t_inst_num]. rewrite B3, A3. reflexivity.
    + cbn [push_trace t_trace]. rewrite Hlast, B4, A4. reflexivity.
  - rewrite (emit_plain h d t o Eo Hb Njal Njalr El). destruct (supported_op d) eqn:Hs; intros E; injection E as <- <-.
    + apply (emits_on h d t false (cont_pc d)); rewrite ?Ed; try assumption; try reflexivity.
      * intros o' b' Eo'. rewrite Eo in Eo'. injection Eo' as <-. unfold is_branch in Hb.
        destruct (taken o 0 0) eqn:E0; [discriminate Hb |]. destruct o; discriminate E0 || discriminate.
      * rewrite (next_of_plain o d) by assumption. rewrite Hb. reflexivity.
      * apply Hlast.
    + apply emits_nothing. reflexivity.
Qed.

Lemma tracer_unsupported (h : hart) (d : jit_decode) (t t' : tracer) (o : rv_op) (b : bool) :
  jd_op d = Rv o -> supported_op d = false -> tracer_emit h d t = Some (b, t') -> b = false /\ t_trace t' = t_trace t.
Proof using.
  intros Eo Hs. destruct (t_labels t !! jd_pc d) eqn:El.
  { unfold tracer_emit. rewrite El. intros E. injection E as <- <-. auto. }
  pose proof Hs as Hs'. rewrite (supported_rv o d Eo) in Hs'.
  rewrite (emit_plain h d t o Eo) by (exact El || destruct o; discriminate Hs' || reflexivity || congruence).
  rewrite Hs. intros E. injection E as <- <-. auto.
Qed.

(** The trace grows by the instruction or not at all, up to marks. *)
Inductive grown (d : jit_decode) (t : tracer) : bool -> tracer -> Prop :=
  | grown_not (t' : tracer) : t_trace t' = t_trace t -> grown d t false t'
  | grown_by (b : bool) (d' : jit_decode) (t' : tracer) :
      jd_pc d' = jd_pc d -> t_labels t !! jd_pc d = None ->
      t_labels t' = <[jd_pc d := t_inst_num t]> (t_labels t) -> t_inst_num t' = t_inst_num t + 1 ->
      map raw (t_trace t') = map raw (t_trace t) ++ [raw d'] -> grown d t b t'.

Lemma tracer_grows (h : hart) (d : jit_decode) (t t' : tracer) (o : rv_op) (b : bool) :
  jd_op d = Rv o -> tracer_emit h d t = Some (b, t') -> grown d t b t'.
Proof using.
  intros Eo. assert (Hlast : forall l d', map raw (l ++ [d']) = map raw l ++ [raw d']) by (intros; rewrite map_app; reflexivity).
  destruct (t_labels t !! jd_pc d) eqn:El.
  { unfold tracer_emit. rewrite El. intros E. injection E as <- <-. apply grown_not. reflexivity. }
  destruct (rv_op_eq_dec o rv_op_jal) as [-> | Njal].
  { unfold tracer_emit. rewrite El, Eo. intros E. injection E as <- <-.
    apply (grown_by d t true d); destruct (jd_rd d =? rv_ireg_ra); try reflexivity; try exact El; apply Hlast. }
  destruct (rv_op_eq_dec o rv_op_jalr) as [-> | Njalr].
  { unfold tracer_emit. rewrite El, Eo. destruct (_ && _); intros E; injection E as <- <-; apply (grown_by d t _ d);
      try destruct (jd_rd d =? rv_ireg_ra); try reflexivity; try exact El; apply Hlast. }
  destruct (is_branch o) eqn:Hb.
  - rewrite (emit_branch_spec h d t o Eo Hb El). destruct (branch_cond h o d) as [c |]; cbn [mbind option_bind]; [| discriminate].
    destruct (label_block (branch_pc d) (entered d t)) as [t1 |] eqn:E1; cbn [mbind option_bind]; [| discriminate].
    destruct (label_block (cont_pc d) t1) as [t2 |] eqn:E2; cbn [mbind option_bind]; [| discriminate].
    intros E. injection E as <- <-. destruct (label_block_marks _ _ _ E1) as [A1 A2 A3 A4]. destruct (label_block_marks _ _ _ E2) as [B1 B2 B3 B4].
    apply (grown_by d t true (set_brc c d)); cbn [push_trace t_labels t_inst_num t_trace];
      rewrite ?B1, ?B3, ?A1, ?A3, ?Hlast, ?B4, ?A4; reflexivity || exact El.
  - rewrite (emit_plain h d t o Eo Hb Njal Njalr El). destruct (supported_op d); intros E; injection E as <- <-.
    + apply (grown_by d t true d); try reflexivity; [exact El | apply Hlast].
    + apply grown_not. reflexivity.
Qed.

Definition extends (t t' : tracer) : Prop := exists l, map raw (t_trace t') = map raw (t_trace t) ++ l.
Lemma extends_refl (t : tracer) : extends t t.
Proof using. exists []. symmetry. apply app_nil_r. Qed.
Lemma grown_extends (d : jit_decode) (t t' : tracer) (b : bool) : grown d t b t' -> extends t t'.
Proof using. intros [t2 E | b2 d' t2 _ _ _ _ E]; [exists []; rewrite E, app_nil_r; reflexivity | eexists; exact E]. Qed.

(** What every call preserves, the loop preserves. *)
Section Loop.
Context (P : tracer -> Prop) (Q : tracer -> Prop) (HPQ : forall t, P t -> Q t).
Hypothesis (Hstep : forall h d t o b t', jd_op d = Rv o -> jd_brt d = false -> P t -> tracer_emit h d t = Some (b, t') ->
  if b : bool then P t' else Q t').
Lemma record_invariant (fuel : nat) (t t' : tracer) (h h' : hart) (M M' : memory) (n n' : Z) :
  record_loop exec_fp fl inst_decode fuel t h M n = Some (Recorded t' h' M' n') -> P t -> Q t'.
Proof using HPQ Hstep.
  revert t h M n. induction fuel as [| fuel IH]; intros t h M n; [discriminate |]. cbn [record_loop mmu_fetch mmu_memory tr_emit plain_tracer].
  destruct (inst_fetch _ _ (pc h)) as [inst len]. set (dec := inst_decode decode_init inst).
  destruct (tracer_emit h (jit_of dec (pc h) inst) t) as [[[] t1] |] eqn:Ee; [| | discriminate].
  - intros E Hp. apply (Hstep _ _ _ (op dec)) in Ee; [| reflexivity | reflexivity | exact Hp]. revert E.
    destruct (run _ M) as [[h2 M2] off | [h2 M2] c2 b2 |]; [| discriminate | discriminate].
    destruct (off =? _); [intros E; injection E as <- _ _ _; exact (HPQ _ Ee) | intros E; exact (IH _ _ _ _ E Ee)].
  - intros E Hp. apply (Hstep _ _ _ (op dec)) in Ee; [| reflexivity | reflexivity | exact Hp]. injection E as <- _ _ _. exact Ee.
Qed.
End Loop.

Lemma record_extends (fuel : nat) (t t' : tracer) (h h' : hart) (M M' : memory) (n n' : Z) :
  record_loop exec_fp fl inst_decode fuel t h M n = Some (Recorded t' h' M' n') -> extends t t'.
Proof using.
  intros E. refine (record_invariant (extends t) (extends t) (fun _ H => H) _ fuel t t' h h' M M' n n' E (extends_refl t)).
  intros h0 d t0 o b t1 Eo _ [l1 E1] Ee. apply tracer_grows with (o := o) in Ee; [| exact Eo]. apply grown_extends in Ee as [l2 E2].
  assert (H1 : extends t t1) by (exists (l1 ++ l2); rewrite E2, E1, app_assoc; reflexivity). destruct b; exact H1.
Qed.

(** ** The path *)

(** Every return the trace follows goes where its call is. *)
Fixpoint returns_matched (cs : list Z) (ds : list jit_decode) : Prop :=
  match ds with
  | [] => True
  | d :: ds =>
      (is_return d cs = true -> match ds with [] => True | d' :: _ => jd_pc d' = hd 0 cs end)
      /\ match next_of cs d with Some (_, cs') => returns_matched cs' ds | None => True end
  end.

Record recorded_path (cs : list Z) (ds : list jit_decode) (k : nat) (h : hart) (M : memory) (h' : hart) (M' : memory) : Prop := {
  rp_length : (k <= length ds <= Datatypes.S k)%nat;
  rp_steps : steps exec_fp fl (firstn k ds) h M = Some (h', M');
  rp_covered : Forall (fun d => covered fl d = true /\ jit_wf d) ds;
  rp_head : match ds with [] => True | d :: _ => jd_pc d = pc h end;
  rp_path : returns_matched cs ds -> path (pc h) cs ds }.

Lemma raw_brc (dec : decode) (p inst : Z) (c : bool) : raw (set_brc c (jit_of dec p inst)) = set_brc c (jit_of dec p inst).
Proof using. reflexivity. Qed.
Lemma guest_step_brc (c : bool) (d : jit_decode) (h : hart) (M : memory) : guest_step exec_fp fl (set_brc c d) h M = guest_step exec_fp fl d h M.
Proof using. reflexivity. Qed.
Lemma return_brc (c : bool) (d : jit_decode) (cs : list Z) : is_return (set_brc c d) cs = is_return d cs.
Proof using. reflexivity. Qed.

Lemma recorded_nothing (t t1 : tracer) (cs : list Z) (h : hart) (M : memory) (n : Z) :
  map raw (t_trace t1) = map raw (t_trace t) -> in_u 64 n ->
  exists ds k, map raw (t_trace t1) = map raw (t_trace t) ++ ds /\ n = n +[64] Z.of_nat k /\ recorded_path cs ds k h M h M.
Proof using.
  intros Et Hn. exists [], 0%nat. split; [rewrite app_nil_r; exact Et |]. split; [rewrite Z.add_0_r, uwrap_small by exact Hn; reflexivity |].
  split; [cbn; lia | reflexivity | constructor | exact I | intros _; exact I].
Qed.

Lemma record_path (fuel : nat) (t t' : tracer) (h h' : hart) (M M' : memory) (n n' : Z) :
  record_loop exec_fp fl inst_decode fuel t h M n = Some (Recorded t' h' M' n') ->
  hart_wf 64 h -> bytes M -> pc h mod 2 = 0 -> in_u 64 n -> Forall (fun d => jd_inst d <> 0) (map raw (t_trace t')) ->
  exists ds k, map raw (t_trace t') = map raw (t_trace t) ++ ds /\ n' = n +[64] Z.of_nat k
    /\ recorded_path (t_callstack t) ds k h M h' M'.
Proof using Hi Hm Hdecode.
  revert t h M n. induction fuel as [| fuel IH]; intros t h M n; [discriminate |]. cbn [record_loop mmu_fetch mmu_memory tr_emit plain_tracer].
  destruct (inst_fetch _ _ (pc h)) as [inst len] eqn:Ef.
  intros E Hh HM Hpc Hn Hz. destruct (fetched M (pc h) inst len HM Ef) as [Hi64 Hlen].
  set (dec := inst_decode decode_init inst) in *. set (j := jit_of dec (pc h) inst) in *.
  assert (Hrg : supported_op j = true -> ranged dec).
  { intros Hs. apply Hdecode; [exact Hi64 |]. fold dec. intros Eo. rewrite (supported_rv (op dec) j eq_refl), Eo in Hs. discriminate Hs. }
  destruct (tracer_emit h j t) as [[b t1] |] eqn:Ee; [| discriminate E].
  destruct (supported_op j) eqn:Hs.
  2:{ destruct (tracer_unsupported h j t t1 (op dec) b eq_refl Hs Ee) as [-> Et]. injection E as <- <- <- <-.
      apply (recorded_nothing t t1); [rewrite Et; reflexivity | exact Hn]. }
  specialize (Hrg eq_refl). clearbody dec.
  apply (tracer_emits h j t t1 (op dec) b Hh (rg_rs1 _ Hrg) (rg_rs2 _ Hrg) eq_refl eq_refl) in Ee.
  destruct Ee as [c p t1 El _ Hc Hnext Hlab Hnum Hraw | t1 El _ Hnext Hlab Hraw | t1 Et].
  - destruct (run (exec_inst exec_fp fl 64 dec h len) M) as [[h2 M2] off | [h2 M2] c2 b2 |] eqn:Er; [| discriminate E | discriminate E].
    change (raw (set_brc c j)) with (set_brc c j) in Hraw.
    assert (Hext : extends t1 t') by (destruct (off =? _); [injection E as <- _ _ _; apply extends_refl | exact (record_extends _ _ _ _ _ _ _ _ _ E)]).
    destruct Hext as [l Hl]. pose proof Hz as Hall. rewrite Hl, Hraw in Hz. apply Forall_app in Hz as [Hz _]. apply Forall_app in Hz as [_ Hz].
    apply Forall_cons in Hz as [Hz _]. cbn [set_brc jd_inst j jit_of] in Hz. destruct (Hlen Hz) as [El' Hl4].
    destruct (step_frame h M dec inst len Hh HM Hrg Hl4 Hs h2 M2 off Er) as ([Hwf2 _ _ _ _ _] & [_ Hoff] & HM2).
    rewrite (proj2 (Z.eqb_neq _ _) Hoff) in E.
    pose proof (step_even h M dec inst len Hh HM Hpc Hrg El' Hl4 Hs h2 M2 off Er) as Hev.
    destruct (IH t1 _ M2 _ E) as (ds & k & Eds & En & [Rl Rs Rc Rh Rp]).
    { destruct Hwf2. split; try assumption. apply uwrap_range. lia. }
    { exact HM2. } { exact Hev. } { apply uwrap_range. lia. } { exact Hall. }
    exists (set_brc c j :: ds), (Datatypes.S k). split; [rewrite Eds, Hraw, <- app_assoc; reflexivity |].
    split; [rewrite En, uwrap_add_l; f_equal; lia |].
    pose proof (step_guest h M dec inst len El' Hs h2 M2 off Er) as Eg.
    assert (Hwf : jit_wf j) by (apply step_wf; assumption).
    split.
    + cbn [length]. lia.
    + cbn [firstn steps]. change (jd_pc (set_brc c j)) with (pc h). rewrite Z.eqb_refl, guest_step_brc. fold j in Eg. rewrite Eg. exact Rs.
    + apply Forall_cons_2; [| exact Rc]. split; [exact (supported_covered (op dec) (set_brc c j) eq_refl Hs) |]. destruct Hwf. split; assumption.
    + reflexivity.
    + intros [Hret Hm']. rewrite Hnext in Hm'. cbn [path]. split; [reflexivity |]. rewrite Hnext. specialize (Rp Hm').
      destruct ds as [| d' ds]; [exact I |]. rewrite return_brc in Hret. destruct (is_return j (t_callstack t)) eqn:Eret.
      * specialize (Hret eq_refl). rewrite Rh in Hret.
        rewrite (next_of_return (set_brc c j)) in Hnext by exact Eret.
        injection Hnext as <- _. rewrite <- Hret. exact Rp.
      * rewrite <- (step_next h M dec inst len Hh HM Hpc Hrg El' Hl4 Hs h2 M2 off Er _ c p _ (fun b Eb => Hc _ b eq_refl Eb) Hnext Eret). exact Rp.
  - injection E as <- <- <- <-. exists [j], 0%nat. rewrite Hraw in Hz |- *. apply Forall_app in Hz as [_ Hz]. apply Forall_cons in Hz as [Hz _].
    split; [reflexivity |]. split; [rewrite Z.add_0_r, uwrap_small by exact Hn; reflexivity |].
    split; [cbn; lia | reflexivity | | reflexivity |].
    + apply Forall_cons_2; [| constructor]. split; [exact (supported_covered (op dec) j eq_refl Hs) | apply step_wf; assumption].
    + intros _. cbn [path]. rewrite Hnext. auto.
  - injection E as <- <- <- <-. apply (recorded_nothing t t1); [rewrite Et; reflexivity | exact Hn].
Qed.
End Supported.
