(* ===== verification/JitRecorded.v ===== *)
(** * Recorded traces: labels, marks, termination, and the function compiled

    The invariant of the tracer's labels; which instructions it marks as branch
    targets; that recording ends; and the composition with [JitFunction]: the
    function compiled for a recorded trace, called whenever the processor is at its
    start, runs like the interpreter. *)

From Stdlib Require Import ZArith Lia Bool List.
From stdpp Require Import base list option gmap.
From S2P Require Import Prelude Alu Meta Codec Decoder Ckpt Replay Interp Isa Mmu X86 Jit JitEmit JitProofs JitCorrect JitLabels.
From S2P Require Import JitTrace JitFunction Fields JitTracer JitRecord.

#[local] Open Scope Z_scope.
#[local] Open Scope word_scope.

(** ** The labels *)

(** The labels are the indices of the program counters of the trace. *)
Record labels_ok (L : gmap Z Z) (tr : list jit_decode) : Prop := {
  lo_index : forall i d, tr !! i = Some d -> L !! jd_pc d = Some (Z.of_nat i);
  lo_label : forall p i, L !! p = Some i -> 0 <= i /\ exists d, tr !! Z.to_nat i = Some d /\ jd_pc d = p }.

Lemma labels_nodup (L : gmap Z Z) (tr : list jit_decode) : labels_ok L tr -> NoDup (map jd_pc tr).
Proof.
  intros [Hi _]. apply NoDup_alt. intros i j p E1 E2. change (map jd_pc tr) with (jd_pc <$> tr) in *.
  rewrite list_lookup_fmap in E1, E2.
  destruct (tr !! i) as [d1 |] eqn:H1; [| discriminate E1]. destruct (tr !! j) as [d2 |] eqn:H2; [| discriminate E2].
  cbn in E1, E2. injection E1 as <-. injection E2 as E2. apply Hi in H1, H2. rewrite E2, H1 in H2. injection H2 as H2. lia.
Qed.

(** The same program counters. *)
Lemma labels_ok_map (L : gmap Z Z) (tr : list jit_decode) (f : jit_decode -> jit_decode) :
  (forall d, jd_pc (f d) = jd_pc d) -> labels_ok L tr -> labels_ok L (map f tr).
Proof.
  intros Hf [Hi Hl]. change (map f tr) with (f <$> tr). split.
  - intros i d E. rewrite list_lookup_fmap in E. destruct (tr !! i) as [d0 |] eqn:E0; [| discriminate E].
    injection E as <-. rewrite Hf. exact (Hi i d0 E0).
  - intros p i E. destruct (Hl p i E) as (H0 & d & Ed & Hp). split; [exact H0 |]. exists (f d).
    rewrite list_lookup_fmap, Ed, Hf. auto.
Qed.

Lemma labels_ok_snoc (L : gmap Z Z) (tr : list jit_decode) (d : jit_decode) : labels_ok L tr -> L !! jd_pc d = None ->
  labels_ok (<[jd_pc d := Z.of_nat (length tr)]> L) (tr ++ [d]).
Proof.
  intros [Hi Hl] Hn. split.
  - intros i d' E. destruct (Nat.lt_ge_cases i (length tr)) as [H | H].
    + rewrite lookup_app_l in E by exact H. specialize (Hi i d' E). rewrite lookup_insert_ne; [exact Hi | congruence].
    + rewrite lookup_app_r in E by exact H. destruct (i - length tr)%nat as [| k] eqn:Ek; [| discriminate E].
      injection E as <-. rewrite lookup_insert_eq. do 2 f_equal. lia.
  - intros p i E. destruct (Z.eq_dec (jd_pc d) p) as [<- | Hp].
    + rewrite lookup_insert_eq in E. injection E as <-. split; [lia |]. exists d. rewrite Nat2Z.id, list_lookup_middle; auto.
    + rewrite lookup_insert_ne in E by exact Hp. destruct (Hl p i E) as (H0 & d' & Ed & Hp'). split; [exact H0 |]. exists d'.
      split; [| exact Hp']. apply lookup_app_l_Some, Ed.
Qed.

(** ** The marks *)

Definition mark_at (p : Z) (d : jit_decode) : jit_decode := if jd_pc d =? p then set_brt true d else d.
Lemma mark_at_pc (p : Z) (d : jit_decode) : jd_pc (mark_at p d) = jd_pc d.
Proof. unfold mark_at. destruct (_ =? _); reflexivity. Qed.

(** [label_block] marks the instruction at the program counter, and is not called
    for the instruction being recorded. *)
Lemma label_block_map (p : Z) (d : jit_decode) (L : gmap Z Z) (t t' : tracer) :
  labels_ok L (t_trace t) -> L !! jd_pc d = None -> t_labels t = <[jd_pc d := Z.of_nat (length (t_trace t))]> L ->
  label_block p t = Some t' ->
  jd_pc d <> p /\ t' = mkTracer (t_labels t) (t_callstack t) (map (mark_at p) (t_trace t)) (t_inst_num t).
Proof.
  intros [Hi Hl] Hn EL. unfold label_block. rewrite EL.
  assert (Hout : forall i, Z.of_nat (length (t_trace t)) <= i -> aget (t_trace t) i = None).
  { intros i H. unfold aget. rewrite (proj2 (Z.leb_le _ _)) by lia. apply lookup_ge_None. lia. }
  destruct (Z.eq_dec (jd_pc d) p) as [-> | Hp].
  { rewrite lookup_insert_eq, Hout by lia. discriminate. }
  rewrite lookup_insert_ne by exact Hp. intros E. split; [exact Hp |]. destruct (L !! p) as [i |] eqn:El.
  - destruct (Hl p i El) as (H0 & d0 & Ed & Hd0). unfold aget, aset in E. rewrite (proj2 (Z.leb_le _ _) H0), Ed in E. cbn [mbind option_bind andb] in E.
    rewrite (proj2 (Z.ltb_lt _ _)) in E by (apply lookup_lt_Some in Ed; lia). cbn [mbind option_bind] in E. injection E as <-.
    f_equal. apply list_eq. intros k. change (map (mark_at p) (t_trace t)) with (mark_at p <$> t_trace t). rewrite list_lookup_fmap.
    destruct (Nat.eq_dec (Z.to_nat i) k) as [<- | Hk].
    + rewrite list_lookup_insert_eq, Ed by (apply lookup_lt_Some in Ed; exact Ed). cbn. unfold mark_at. rewrite Hd0, Z.eqb_refl. reflexivity.
    + rewrite list_lookup_insert_ne by exact Hk. destruct (t_trace t !! k) as [d1 |] eqn:E1; [| reflexivity]. cbn. unfold mark_at.
      destruct (Z.eqb_spec (jd_pc d1) p) as [H1 |]; [| reflexivity]. apply Hi in E1. rewrite H1, El in E1. injection E1 as E1. lia.
  - injection E as <-. rewrite <- EL. destruct t as [L0 cs tr n]. cbn [t_labels t_callstack t_trace t_inst_num] in *. f_equal. symmetry.
    rewrite <- (map_id tr) at 2. apply map_ext_in. intros d1 Hin. apply list_elem_of_In, list_elem_of_lookup in Hin as [k Ek].
    apply Hi in Ek. unfold mark_at. destruct (Z.eqb_spec (jd_pc d1) p) as [H1 |]; [| reflexivity]. rewrite H1, El in Ek. discriminate Ek.
Qed.

(** Whether a branch may go to a program counter. *)
Definition targets (b : jit_decode) (p : Z) : bool :=
  match jd_op b with Rv o => is_branch o && ((branch_pc b =? p) || (cont_pc b =? p)) | Fused _ => false end.
Definition mark_targets (b d : jit_decode) : jit_decode := if targets b (jd_pc d) then set_brt true d else d.

(** An instruction is marked when a later branch of the trace may go to it. *)
Definition marks_ok (tr : list jit_decode) : Prop :=
  forall i d, tr !! i = Some d -> jd_brt d = true <-> exists j b, (i < j)%nat /\ tr !! j = Some b /\ targets b (jd_pc d) = true.

Lemma targets_mark (b d : jit_decode) (p : Z) : targets (mark_targets b d) p = targets d p.
Proof. unfold mark_targets. destruct (targets b (jd_pc d)); reflexivity. Qed.
Lemma marks_snoc (tr : list jit_decode) (d : jit_decode) : marks_ok tr -> jd_brt d = false ->
  marks_ok (map (mark_targets d) tr ++ [d]).
Proof.
  intros Hm Hd i x E. change (map (mark_targets d) tr) with (mark_targets d <$> tr) in *.
  assert (Hlen : length (mark_targets d <$> tr) = length tr) by apply length_fmap.
  destruct (Nat.lt_ge_cases i (length tr)) as [H | H].
  - rewrite lookup_app_l in E by (rewrite Hlen; exact H). rewrite list_lookup_fmap in E.
    destruct (tr !! i) as [x0 |] eqn:E0; [| discriminate E]. injection E as <-.
    assert (Hpc : jd_pc (mark_targets d x0) = jd_pc x0) by (unfold mark_targets; destruct (targets d (jd_pc x0)); reflexivity).
    rewrite Hpc. destruct (targets d (jd_pc x0)) eqn:Et.
    + split; [| intros _; unfold mark_targets; rewrite Et; reflexivity]. intros _. exists (length tr), d.
      split; [exact H | split; [| exact Et]]. rewrite lookup_app_r, Hlen, Nat.sub_diag by (rewrite Hlen; lia). reflexivity.
    + unfold mark_targets at 1. rewrite Et, (Hm i x0 E0). split; intros (j & b & Hj & Eb & Ht).
      * exists j, (mark_targets d b). split; [exact Hj | split; [| rewrite targets_mark; exact Ht]].
        apply lookup_app_l_Some. rewrite list_lookup_fmap, Eb. reflexivity.
      * destruct (Nat.lt_ge_cases j (length tr)) as [Hj' | Hj'].
        -- rewrite lookup_app_l in Eb by (rewrite Hlen; exact Hj'). rewrite list_lookup_fmap in Eb.
           destruct (tr !! j) as [b0 |] eqn:Eb0; [| discriminate Eb]. injection Eb as <-. rewrite targets_mark in Ht. eauto.
        -- rewrite lookup_app_r in Eb by (rewrite Hlen; exact Hj'). rewrite Hlen in Eb.
           destruct (j - length tr)%nat; [| discriminate Eb]. injection Eb as <-. congruence.
  - rewrite lookup_app_r in E by (rewrite Hlen; exact H). rewrite Hlen in E. destruct (i - length tr)%nat eqn:Ek; [| discriminate E].
    injection E as <-. rewrite Hd. split; [discriminate |]. intros (j & b & Hj & Eb & _).
    apply lookup_lt_Some in Eb. rewrite length_app, Hlen in Eb. cbn in Eb. lia.
Qed.

Definition inst_num_ok (t : tracer) : Prop := t_inst_num t = Z.of_nat (length (t_trace t)).

(** What a call of the tracer does, marks included. *)
Lemma tracer_marked (h : hart) (d : jit_decode) (t t' : tracer) (o : rv_op) (b : bool) :
  jd_op d = Rv o -> jd_brt d = false -> labels_ok (t_labels t) (t_trace t) -> inst_num_ok t ->
  tracer_emit h d t = Some (b, t') ->
  (b = false /\ t_trace t' = t_trace t)
  \/ exists d', jd_pc d' = jd_pc d /\ jd_brt d' = false /\ t_labels t !! jd_pc d = None
       /\ t_labels t' = <[jd_pc d := t_inst_num t]> (t_labels t) /\ t_inst_num t' = t_inst_num t + 1
       /\ t_trace t' = map (mark_targets d') (t_trace t) ++ [d'].
Proof.
  intros Eo Hd HL Hn. destruct (t_labels t !! jd_pc d) eqn:El.
  { unfold tracer_emit. rewrite El. intros E. injection E as <- <-. auto. }
  assert (Hid : is_branch o = false -> map (mark_targets d) (t_trace t) = t_trace t).
  { intros Hb. rewrite <- (map_id (t_trace t)) at 2. apply map_ext. intros x. unfold mark_targets, targets. rewrite Eo, Hb. reflexivity. }
  destruct (rv_op_eq_dec o rv_op_jal) as [-> | Njal].
  { unfold tracer_emit. rewrite El, Eo. intros E. injection E as <- <-. right. exists d. rewrite Hid by reflexivity.
    destruct (jd_rd d =? rv_ireg_ra); auto 10. }
  destruct (rv_op_eq_dec o rv_op_jalr) as [-> | Njalr].
  { unfold tracer_emit. rewrite El, Eo. intros E. right. exists d. rewrite Hid by reflexivity.
    destruct (_ && _); injection E as <- <-; [| destruct (jd_rd d =? rv_ireg_ra)]; auto 10. }
  destruct (is_branch o) eqn:Hb.
  - rewrite (emit_branch_spec h d t o Eo Hb El). destruct (branch_cond h o d) as [c |]; cbn [mbind option_bind]; [| discriminate].
    destruct (label_block (branch_pc d) (entered d t)) as [t1 |] eqn:E1; cbn [mbind option_bind]; [| discriminate].
    apply (label_block_map _ d (t_labels t)) in E1 as [_ ->]; [| exact HL | exact El | cbn; rewrite Hn; reflexivity].
    cbn [entered t_labels t_callstack t_trace t_inst_num].
    destruct (label_block (cont_pc d) _) as [t2 |] eqn:E2; cbn [mbind option_bind]; [| discriminate].
    apply (label_block_map _ d (t_labels t)) in E2 as [_ ->]; [| | exact El |].
    2:{ apply labels_ok_map; [apply mark_at_pc | exact HL]. }
    2:{ cbn [t_labels t_trace]. rewrite length_map, Hn. reflexivity. }
    cbn [t_labels t_callstack t_trace t_inst_num]. intros E. injection E as <- <-. right. exists (set_brc c d).
    cbn [push_trace t_labels t_inst_num t_trace]. split_and!; try assumption; try reflexivity. f_equal.
    rewrite map_map. apply map_ext. intros x. unfold mark_targets, targets, mark_at. cbn [set_brc jd_op]. rewrite Eo, Hb.
    change (branch_pc (set_brc c d)) with (branch_pc d). change (cont_pc (set_brc c d)) with (cont_pc d).
    rewrite (Z.eqb_sym (branch_pc d)), (Z.eqb_sym (cont_pc d)).
    destruct (jd_pc x =? branch_pc d); cbn [set_brt jd_pc andb orb]; destruct (jd_pc x =? cont_pc d); reflexivity.
  - rewrite (emit_plain h d t o Eo Hb Njal Njalr El). destruct (supported_op d); intros E; injection E as <- <-; [right | left; auto].
    exists d. rewrite Hid by reflexivity. auto 10.
Qed.

(** ** The invariant *)

Record tracer_ok (t : tracer) : Prop := {
  to_labels : labels_ok (t_labels t) (t_trace t); to_num : inst_num_ok t; to_marks : marks_ok (t_trace t) }.
Lemma tracer_new_ok : tracer_ok tracer_new.
Proof.
  split; [split | reflexivity | intros i d E; discriminate E].
  - intros i d E. discriminate E.
  - intros p i E. discriminate E.
Qed.

Lemma tracer_step_ok (h : hart) (d : jit_decode) (t t' : tracer) (o : rv_op) (b : bool) :
  jd_op d = Rv o -> jd_brt d = false -> tracer_ok t -> tracer_emit h d t = Some (b, t') ->
  (b = false /\ t_trace t' = t_trace t) \/ (tracer_ok t' /\ t_labels t !! jd_pc d = None
    /\ t_labels t' = <[jd_pc d := t_inst_num t]> (t_labels t)).
Proof.
  intros Eo Hd [HL Hn Hm] Ee.
  destruct (tracer_marked h d t t' o b Eo Hd HL Hn Ee) as [H | (d' & Hpc & Hd' & El & EL & EN & ET)]; [auto | right].
  assert (Hmt : forall x, jd_pc (mark_targets d' x) = jd_pc x) by (intros x; unfold mark_targets; destruct (targets _ _); reflexivity).
  split; [| auto]. split.
  - rewrite EL, ET, Hn, <- Hpc. rewrite <- (length_map (mark_targets d') (t_trace t)).
    apply labels_ok_snoc; [apply labels_ok_map; assumption | rewrite Hpc; exact El].
  - unfold inst_num_ok in *. rewrite EN, ET, length_app, length_map, Hn. cbn [length]. lia.
  - rewrite ET. apply marks_snoc; assumption.
Qed.

(** ** Recording ends *)

Lemma map_size_bound (L : gmap Z Z) (N : Z) : 0 <= N -> (forall p, is_Some (L !! p) -> 0 <= p < N) -> Z.of_nat (size L) <= N.
Proof.
  intros HN HL. rewrite <- size_dom. assert (Hsub : dom L ⊆ (list_to_set (seqZ 0 N) : gset Z)).
  { intros p Hp. apply elem_of_dom, HL in Hp. apply elem_of_list_to_set, elem_of_seqZ. lia. }
  apply subseteq_size in Hsub. rewrite size_list_to_set, length_seqZ in Hsub by apply NoDup_seqZ. lia.
Qed.

(** Marking fails only for the instruction being recorded. *)
Lemma label_block_some (p : Z) (d : jit_decode) (L : gmap Z Z) (t : tracer) :
  labels_ok L (t_trace t) -> t_labels t = <[jd_pc d := Z.of_nat (length (t_trace t))]> L -> jd_pc d <> p ->
  exists t', label_block p t = Some t'.
Proof.
  intros [_ Hl] EL Hp. unfold label_block. rewrite EL, lookup_insert_ne by exact Hp.
  destruct (L !! p) as [i |] eqn:El; [| eauto]. destruct (Hl p i El) as (H0 & d0 & Ed & _).
  unfold aget, aset. rewrite (proj2 (Z.leb_le _ _) H0), Ed. cbn [mbind option_bind andb].
  rewrite (proj2 (Z.ltb_lt _ _)) by (apply lookup_lt_Some in Ed; lia). cbn [mbind option_bind]. eauto.
Qed.

Lemma tracer_emit_none (h : hart) (d : jit_decode) (t : tracer) (o : rv_op) :
  jd_op d = Rv o -> tracer_ok t -> tracer_emit h d t = None ->
  is_branch o = true /\ (branch_cond h o d = None \/ targets d (jd_pc d) = true).
Proof.
  intros Eo [HL Hn _]. destruct (t_labels t !! jd_pc d) eqn:El; [unfold tracer_emit; rewrite El; discriminate |].
  destruct (rv_op_eq_dec o rv_op_jal) as [-> | Njal]; [unfold tracer_emit; rewrite El, Eo; discriminate |].
  destruct (rv_op_eq_dec o rv_op_jalr) as [-> | Njalr]; [unfold tracer_emit; rewrite El, Eo; destruct (_ && _); discriminate |].
  destruct (is_branch o) eqn:Hb; [| rewrite (emit_plain h d t o Eo Hb Njal Njalr El); destruct (supported_op d); discriminate].
  rewrite (emit_branch_spec h d t o Eo Hb El). intros E. split; [reflexivity |].
  destruct (branch_cond h o d) as [c |]; [right | auto]. unfold targets. rewrite Eo, Hb. cbn [andb].
  destruct (Z.eqb_spec (branch_pc d) (jd_pc d)) as [| N1]; [reflexivity |].
  destruct (Z.eqb_spec (cont_pc d) (jd_pc d)) as [| N2]; [reflexivity |]. exfalso. cbn [mbind option_bind] in E.
  assert (E0 : t_labels (entered d t) = <[jd_pc d := Z.of_nat (length (t_trace (entered d t)))]> (t_labels t))
    by (cbn; rewrite Hn; reflexivity).
  destruct (label_block_some (branch_pc d) d _ (entered d t) HL E0 ltac:(congruence)) as [t1 E1].
  rewrite E1 in E. cbn [mbind option_bind] in E.
  apply (label_block_map _ d (t_labels t)) in E1 as [_ ->]; [| exact HL | exact El | exact E0].
  destruct (label_block_some (cont_pc d) d (t_labels t)
      (mkTracer (t_labels (entered d t)) (t_callstack (entered d t)) (map (mark_at (branch_pc d)) (t_trace (entered d t)))
         (t_inst_num (entered d t)))) as [t2 E2].
  - apply labels_ok_map; [apply mark_at_pc | exact HL].
  - cbn [t_labels t_trace]. rewrite length_map. exact E0.
  - congruence.
  - rewrite E2 in E. discriminate E.
Qed.

Section Termination.
Context {S : Type} `{Mmu S} (exec_fp : decode -> hart -> Z -> io Z) (fl : flags) (inst_decode : decode -> Z -> decode).

(** [k] instructions of the interpreter. *)
Fixpoint interpret (k : nat) (h : hart) (s : S) : option (hart * S) :=
  match k with
  | O => Some (h, s)
  | Datatypes.S k =>
      match mmu_fetch (pc h) s with
      | Fine s (inst, pc_offset) =>
          match run (exec_inst exec_fp fl 64 (inst_decode decode_init inst) h pc_offset) s with
          | Fine (h, s) new_offset =>
              if new_offset =? uwrap 64 (-1) then None else interpret k (set_pc (pc h +[64] new_offset) h) s
          | _ => None
          end
      | _ => None
      end
  end.

(** What is undefined at an instruction: its fetch or its execution, or, in the
    tracer, a branch on a register that does not exist, and a branch to itself. *)
Definition undefined_at (h : hart) (s : S) : Prop :=
  match mmu_fetch (pc h) s with
  | Ub => True
  | Fault _ _ _ => False
  | Fine s (inst, pc_offset) =>
      let d := inst_decode decode_init inst in
      let j := jit_of d (pc h) inst in
      run (exec_inst exec_fp fl 64 d h pc_offset) s = Ub
      \/ (is_branch (op d) = true /\ (branch_cond h (op d) j = None \/ targets j (pc h) = true))
  end.

Lemma record_ends (fuel : nat) (t : tracer) (h : hart) (s : S) (n : Z) :
  tracer_ok t -> (forall p, is_Some (t_labels t !! p) -> 0 <= p < 2 ^ 64) -> in_u 64 (pc h) -> in_u 64 n ->
  2 ^ 64 < Z.of_nat (size (t_labels t)) + Z.of_nat fuel ->
  exists k h1 s1 t1 r, (k < fuel)%nat /\ interpret k h s = Some (h1, s1)
    /\ record_loop exec_fp fl inst_decode fuel t h s n = Some r
    /\ record_loop exec_fp fl inst_decode 1 t1 h1 s1 (n +[64] Z.of_nat k) = Some r
    /\ (r = Undefined -> undefined_at h1 s1).
Proof.
  revert t h s n. induction fuel as [| fuel IH]; intros t h s n Ht HL Hpc Hin Hf.
  { pose proof (map_size_bound (t_labels t) (2 ^ 64) ltac:(lia) HL). lia. }
  assert (Hend : forall r, record_loop exec_fp fl inst_decode (Datatypes.S fuel) t h s n = Some r ->
    record_loop exec_fp fl inst_decode 1 t h s n = Some r -> (r = Undefined -> undefined_at h s) ->
    exists k h1 s1 t1 r, (k < Datatypes.S fuel)%nat /\ interpret k h s = Some (h1, s1)
    /\ record_loop exec_fp fl inst_decode (Datatypes.S fuel) t h s n = Some r
    /\ record_loop exec_fp fl inst_decode 1 t1 h1 s1 (n +[64] Z.of_nat k) = Some r
    /\ (r = Undefined -> undefined_at h1 s1)).
  { intros r H1 H2 H3. exists 0%nat, h, s, t, r. rewrite Z.add_0_r, (uwrap_small 64 n) by exact Hin.
    split; [lia | auto]. }
  cbn [record_loop] in *. unfold undefined_at in Hend.
  destruct (mmu_fetch (pc h) s) as [s1 [inst len] | s1 c b |] eqn:Em;
    [| eapply Hend; [reflexivity | reflexivity | discriminate] | eapply Hend; auto].
  cbn [tr_emit plain_tracer] in *. set (d := inst_decode decode_init inst) in *. set (j := jit_of d (pc h) inst) in *.
  destruct (tracer_emit h j t) as [[[] t1] |] eqn:Ee; [| eapply Hend; [reflexivity | reflexivity | discriminate] |].
  2: { eapply Hend; [reflexivity | reflexivity |]. intros _. right. apply (tracer_emit_none h j t (op d) eq_refl Ht Ee). }
  destruct (run _ s1) as [[h2 s2] off | [h2 s2] c b |] eqn:Er;
    [| eapply Hend; [reflexivity | reflexivity | discriminate] | eapply Hend; auto].
  destruct (off =? _) eqn:Eoff; [eapply Hend; [reflexivity | reflexivity | discriminate] |]. clear Hend.
  destruct (tracer_step_ok h j t t1 (op d) true eq_refl eq_refl Ht Ee) as [[E _] | (Ht1 & El & EL)]; [discriminate E |].
  destruct (IH t1 (set_pc (pc h2 +[64] off) h2) s2 (n +[64] 1) Ht1) as (k & h3 & s3 & t3 & r & Hk & Hi & Hr & H1 & Hu).
  - intros p. rewrite EL. intros [i Ei]. destruct (Z.eq_dec (jd_pc j) p) as [<- | Hp]; [exact Hpc |].
    rewrite lookup_insert_ne in Ei by exact Hp. apply HL. eauto.
  - apply uwrap_range. lia.
  - apply uwrap_range. lia.
  - rewrite EL, map_size_insert, El. lia.
  - exists (Datatypes.S k), h3, s3, t3, r. split; [lia |]. cbn [interpret]. rewrite Em. fold d. rewrite Er, Eoff.
    split; [exact Hi | split; [exact Hr | split; [| exact Hu]]].
    rewrite uwrap_add_l in H1. replace (n + Z.of_nat (Datatypes.S k)) with (n + 1 + Z.of_nat k) by lia. exact H1.
Qed.
End Termination.

(** ** Marks do not matter to the path *)

Lemma path_raw (ds : list jit_decode) (p : Z) (cs : list Z) : path p cs (map raw ds) <-> path p cs ds.
Proof.
  revert p cs. induction ds as [| d ds IH]; intros p cs; [reflexivity |]. cbn [map path].
  change (jd_pc (raw d)) with (jd_pc d). change (next_of cs (raw d)) with (next_of cs d).
  destruct (next_of cs d) as [[p' cs'] |]; [rewrite IH; reflexivity |]. destruct ds; [reflexivity | split; intros [_ E]; discriminate E].
Qed.
Lemma returns_raw (ds : list jit_decode) (cs : list Z) : returns_matched cs (map raw ds) <-> returns_matched cs ds.
Proof.
  revert cs. induction ds as [| d ds IH]; intros cs; [reflexivity |]. cbn [map returns_matched].
  change (is_return (raw d) cs) with (is_return d cs). change (next_of cs (raw d)) with (next_of cs d).
  assert (E : match map raw ds with [] => True | d' :: _ => jd_pc d' = hd 0 cs end <-> match ds with [] => True | d' :: _ => jd_pc d' = hd 0 cs end)
    by (destruct ds; reflexivity).
  rewrite E. destruct (next_of cs d) as [[p' cs'] |]; [rewrite IH |]; reflexivity.
Qed.
Lemma steps_raw (exec_fp : decode -> hart -> Z -> io Z) (fl : flags) (ds : list jit_decode) (h : hart) (M : memory) :
  steps exec_fp fl (map raw ds) h M = steps exec_fp fl ds h M.
Proof.
  revert h M. induction ds as [| d ds IH]; intros h M; [reflexivity |]. cbn [map steps].
  change (guest_step exec_fp fl (raw d) h M) with (guest_step exec_fp fl d h M).
  change (jd_pc (raw d)) with (jd_pc d). destruct (jd_pc d =? pc h); [| reflexivity].
  destruct (guest_step exec_fp fl d h M) as [[h1 M1] |]; cbn; [apply IH | reflexivity].
Qed.

(** ** What is recorded *)

Section Recorded.
Context (exec_fp : decode -> hart -> Z -> io Z) (fl : flags).
Hypothesis (Hi : rvi fl = true) (Hm : rvm fl = true).

(** A state [jit_trace] can be entered in. *)
Record recordable (h : hart) (M : memory) (instret : Z) : Prop := {
  rc_hart : hart_wf 64 h; rc_bytes : bytes M; rc_even : pc h mod 2 = 0; rc_instret : in_u 64 instret }.

Lemma record_trace (fuel : nat) (h h' : hart) (M M' : memory) (n n' : Z) (t : tracer) :
  record_loop exec_fp fl decode_inst_rv64 fuel tracer_new h M n = Some (Recorded t h' M' n') ->
  recordable h M n -> Forall (fun d => jd_inst d <> 0) (t_trace t) ->
  (NoDup (map jd_pc (t_trace t)) /\ marks_ok (t_trace t))
  /\ exists k, n' = n +[64] Z.of_nat k /\ recorded_path exec_fp fl [] (t_trace t) k h M h' M'.
Proof using Hi Hm.
  intros E [Hh HM Hev Hn] Hz. split.
  - refine (record_invariant exec_fp fl decode_inst_rv64 tracer_ok (fun t => NoDup (map jd_pc (t_trace t)) /\ marks_ok (t_trace t)) _ _
      fuel tracer_new t h h' M M' n n' E tracer_new_ok).
    + intros t0 [H1 _ H3]. split; [exact (labels_nodup _ _ H1) | exact H3].
    + intros h0 d t0 o b t1 Eo Hd Ht0 Ee. destruct (tracer_step_ok h0 d t0 t1 o b Eo Hd Ht0 Ee) as [[-> Et] | ([H1 H2 H3] & _)].
      * rewrite Et. destruct Ht0 as [H1 _ H3]. split; [exact (labels_nodup _ _ H1) | exact H3].
      * destruct b; [split; assumption | split; [exact (labels_nodup _ _ H1) | exact H3]].
  - destruct (record_path exec_fp fl decode_inst_rv64 Hi Hm decoded_rv64 fuel tracer_new t h h' M M' n n' E Hh HM Hev Hn)
      as (ds & k & Eds & En & [Rl Rs Rc Rh Rp]).
    { apply List.Forall_map. exact Hz. }
    cbn [tracer_new t_trace map app t_callstack] in *. subst ds. exists k. split; [exact En |]. rewrite length_map in Rl. split.
    + exact Rl.
    + rewrite firstn_map, steps_raw in Rs. exact Rs.
    + apply List.Forall_map in Rc. eapply Forall_impl; [exact Rc |]. intros d [H1 [A1 A2 A3 A4 A5]]. split; [exact H1 | split; assumption].
    + destruct (t_trace t); exact Rh.
    + rewrite returns_raw, path_raw in Rp. exact Rp.
Qed.
End Recorded.

(** C5: what [jit_trace] records is the interpreter's path.  The trace has no
    program counter twice; every instruction is one the emitter compiles; running
    the interpreter along it, from where recording began, gives the state recording
    ended in, except that a final indirect jump is recorded and not executed; the
    instruction counter counts what was executed; an instruction is marked as a
    branch target exactly when a later branch of the trace may go to it; and the
    trace is a path (each instruction where the one before goes) if the returns
    it follows go to its calls. *)
Theorem recorded_trace_is_path (exec_fp : decode -> hart -> Z -> io Z) (fl : flags) (fuel : nat) (h h' : hart) (M M' : memory)
    (n n' : Z) (t : tracer) :
  rvi fl = true -> rvm fl = true -> recordable h M n ->
  record_loop exec_fp fl decode_inst_rv64 fuel tracer_new h M n = Some (Recorded t h' M' n') ->
  Forall (fun d => jd_inst d <> 0) (t_trace t) ->
  NoDup (map jd_pc (t_trace t)) /\ marks_ok (t_trace t)
  /\ Forall (fun d => covered fl d = true /\ jit_wf d) (t_trace t)
  /\ (exists k, (k <= length (t_trace t) <= S k)%nat /\ n' = n +[64] Z.of_nat k
      /\ steps exec_fp fl (firstn k (t_trace t)) h M = Some (h', M'))
  /\ (returns_matched [] (t_trace t) -> path (pc h) [] (t_trace t)).
Proof.
  intros Hi Hm Hr E Hz. destruct (record_trace exec_fp fl Hi Hm fuel h h' M M' n n' t E Hr Hz) as ([Hnd Hmk] & k & En & [Rl Rs Rc _ Rp]).
  split; [exact Hnd | split; [exact Hmk | split; [exact Rc | split; [| exact Rp]]]]. exists k. auto.
Qed.

(** C6: recording with the plain tracer ends: on any MMU and from any state, with
    more fuel than there are addresses, the loop of [jit_trace] comes to an end
    after some instructions of the interpreter, because the tracer stops at a
    program counter it has seen.  How it ends is what its body makes of the
    instruction it is then at; the behaviour is undefined only if that instruction's
    fetch or execution is, or it is a branch to itself, which the tracer marks past
    the end of its trace ([self_branch]), or one on a register that does not exist.
    (The fusing tracer, which is the default of the command line, need not end:
    [self_call_unended].) *)
Theorem recording_terminates {S : Type} `{Mmu S} (exec_fp : decode -> hart -> Z -> io Z) (fl : flags) (inst_decode : decode -> Z -> decode)
    (fuel : nat) (h : hart) (s : S) (instret : Z) :
  in_u 64 (pc h) -> in_u 64 instret -> 2 ^ 64 < Z.of_nat fuel ->
  exists k h1 s1 t1 r, (k < fuel)%nat /\ interpret exec_fp fl inst_decode k h s = Some (h1, s1)
    /\ record_loop exec_fp fl inst_decode fuel tracer_new h s instret = Some r
    /\ record_loop exec_fp fl inst_decode 1 t1 h1 s1 (instret +[64] Z.of_nat k) = Some r
    /\ (r = Undefined -> undefined_at exec_fp fl inst_decode h1 s1).
Proof.
  intros Hpc Hin Hf. apply record_ends; [apply tracer_new_ok | | exact Hpc | exact Hin |].
  - intros p [i Ei]. discriminate Ei.
  - change (size (t_labels tracer_new)) with 0%nat. lia.
Qed.

(** C4: from the plain tracer to the machine. Take a trace [jit_trace] recorded
    without fusion, compiled and put in the cache, whose returns went to their
    calls, without a zero instruction word and with fewer than 2^31 / 3
    instructions. When the processor comes back to its start, with whatever
    registers and memory, the function runs like the interpreter if each instruction
    the interpreter then reaches along the trace is one its code is exact for
    ([all_ready]: the exceptions C3 lists) and the program counters can be stored
    ([pc_fits]). It comes out after some steps of the interpreter along the trace as
    C3 states: with its registers and memory; with its program counter, unless it is
    at its caller and the trace ends in [jalr]; with its instruction counter, unless
    the program counter has an exit trampoline in the trace. *)
Theorem compiled_recording_correct `{Cpu} `{Jit} (exec_fp : decode -> hart -> Z -> io Z) (fl : flags) (fuel : nat)
    (h0 h0' : hart) (M0 M0' : memory) (n n' : Z) (ds : list jit_decode) (code : list instr) (h : hart) (M : memory) (s : xstate) :
  use_mmu = false -> rvi fl = true -> rvm fl = true -> recordable h0 M0 n ->
  jit_trace (T := tracer) exec_fp fl decode_inst_rv64 fuel h0 M0 n = Some (Compiled ds code true h0' M0' n') ->
  Forall (fun d => jd_inst d <> 0) ds -> returns_matched [] ds -> 3 * Z.of_nat (length ds) < 2 ^ 31 ->
  pc h = pc h0 -> held h M s -> all_ready exec_fp fl [] ds h M ->
  (forall k h' M', steps exec_fp fl (firstn k ds) h M = Some (h', M') -> pc_fits (pc h')) ->
  exists k h' M' s' x, (0 < k <= length ds)%nat /\ steps exec_fp fl (firstn k ds) h M = Some (h', M')
    /\ runs cpu_step code None s s' x /\ returns ds s h' M' s' x /\ ticked ds s k s' h'.
Proof.
  intros Hmmu Hi Hm Hr E Hz Hret Hlen Hpc Hheld Hready Hpcs. unfold jit_trace in E.
  destruct (record_loop _ _ _ _ _ _ _ _) as [[t h1 M1 n1 | |] |] eqn:Er; [| discriminate E | discriminate E | discriminate E].
  cbn [mbind option_bind tr_end tr_trace plain_tracer] in E. injection E as <- <- Ec <- <- <-.
  destruct (record_trace exec_fp fl Hi Hm fuel h0 h1 M0 M1 n n1 t Er Hr Hz) as ([Hnd _] & k0 & En & [Rl _ Rc _ Rp]).
  assert (Hne : t_trace t <> []).
  { intros E0. rewrite E0 in Rl. cbn in Rl. replace k0 with 0%nat in En by lia. destruct Hr as [_ _ _ Hn].
    rewrite Z.add_0_r, (uwrap_small 64 n Hn) in En. rewrite En, Z.eqb_refl in Ec. discriminate Ec. }
  destruct (function_runs exec_fp fl (t_trace t) h M s Hmmu Hi) as (k & h' & M' & s' & x & Hk & Hs & Hrun & Hv & Ht).
  { split; auto. rewrite Hpc. exact (Rp Hret). }
  exists k, h', M', s', x. split; [exact Hk | split; [exact Hs | split; [exact (runs_cpu _ _ _ _ _ Hrun) | auto]]].
Qed.

(** ** Examples *)

(** The loop of [trace_ex] in memory, with its data. *)
Definition loop_code : list (Z * Z) := [(0x10000, 0x0082a503); (0x10004, 0x02c545b3); (0x10008, 0x00428293); (0x1000c, 0xfe059ae3)].
Definition loop_memory : memory := fun a =>
  match find (fun p => (fst p <=? a) && (a <? fst p + 4)) loop_code with
  | Some p => snd p / 2 ^ (8 * (a - fst p)) mod 256
  | None => memory_trace a
  end.
Lemma loop_recordable : recordable hart_trace loop_memory 0.
Proof.
  split; [exact hart_trace_wf | | reflexivity | unfold in_u; lia]. intros a. unfold loop_memory.
  destruct (find _ _); [apply (Z.mod_pos_bound _ 256); lia | apply memory_trace_bytes].
Qed.

Definition loop_recording : option (recording tracer memory) :=
  record_loop no_fp RV_IMA decode_inst_rv64 10 tracer_new hart_trace loop_memory 0.
(** One round is recorded, up to the branch back, and its first instruction marked. *)
Example loop_recorded :
  match loop_recording with Some (Recorded t h _ n) => (t_trace t, pc h, n) | _ => ([], 0, 0) end = (trace_ex, 0x10000, 4).
Proof. vm_compute. reflexivity. Qed.

Example recorded_trace_is_path_witness :
  match loop_recording with
  | Some (Recorded t h' M' n') =>
      NoDup (map jd_pc (t_trace t)) /\ marks_ok (t_trace t)
      /\ Forall (fun d => covered RV_IMA d = true /\ jit_wf d) (t_trace t)
      /\ (exists k, (k <= length (t_trace t) <= S k)%nat /\ n' = 0 +[64] Z.of_nat k
          /\ steps no_fp RV_IMA (firstn k (t_trace t)) hart_trace loop_memory = Some (h', M'))
      /\ (returns_matched [] (t_trace t) -> path (pc hart_trace) [] (t_trace t))
  | _ => False
  end.
Proof.
  assert (Hz : match loop_recording with Some (Recorded t _ _ _) => forallb (fun d => negb (jd_inst d =? 0)) (t_trace t) | _ => false end = true)
    by (vm_compute; reflexivity).
  destruct loop_recording as [[t h' M' n' | |] |] eqn:E; try discriminate Hz.
  apply (recorded_trace_is_path no_fp RV_IMA 10 hart_trace h' loop_memory M' 0 n' t eq_refl eq_refl loop_recordable E).
  apply List.Forall_forall. intros d Hin. exact (proj1 (Z.eqb_neq _ _) (proj1 (negb_true_iff _) (proj1 (forallb_forall _ _) Hz d Hin))).
Defined.

Example recording_terminates_witness :
  in_u 64 (pc hart_trace)
  /\ exists k h1 s1 t1 r, (k < Z.to_nat (2 ^ 64 + 1))%nat
    /\ interpret no_fp RV_IMA decode_inst_rv64 k hart_trace loop_memory = Some (h1, s1)
    /\ record_loop no_fp RV_IMA decode_inst_rv64 (Z.to_nat (2 ^ 64 + 1)) tracer_new hart_trace loop_memory 0 = Some r
    /\ record_loop no_fp RV_IMA decode_inst_rv64 1 t1 h1 s1 (0 +[64] Z.of_nat k) = Some r
    /\ (r = Undefined -> undefined_at no_fp RV_IMA decode_inst_rv64 h1 s1).
Proof.
  assert (Hp : in_u 64 (pc hart_trace)) by apply hart_trace_wf. split; [exact Hp |].
  apply (recording_terminates no_fp RV_IMA decode_inst_rv64 (Z.to_nat (2 ^ 64 + 1)) hart_trace loop_memory 0 Hp).
  - split; [intros H; discriminate H | reflexivity].
  - rewrite Z2Nat.id by (intros H; discriminate H). reflexivity.
Defined.

Lemma loop_compiled : exists h' M' n',
  jit_trace (T := tracer) (H1 := jit_ex) no_fp RV_IMA decode_inst_rv64 10 hart_trace loop_memory 0
  = Some (Compiled trace_ex (trace_function (H := jit_ex) trace_ex) true h' M' n').
Proof.
  pose proof loop_recorded as Hr. unfold jit_trace. change (record_loop _ _ _ _ _ _ _ _) with loop_recording.
  destruct loop_recording as [[t h' M' n' | |] |]; try discriminate Hr. injection Hr as Et Ep En.
  exists h', M', n'. cbn [mbind option_bind tr_end tr_trace plain_tracer]. rewrite Et. subst n'. reflexivity.
Qed.

Example compiled_recording_correct_witness :
  exists code k h' M' s' x, (0 < k <= 4)%nat
    /\ steps no_fp RV_IMA (firstn k trace_ex) hart_trace memory_trace = Some (h', M')
    /\ runs documented code None (host_ex hart_trace memory_trace) s' x
    /\ returns (H := jit_ex) trace_ex (host_ex hart_trace memory_trace) h' M' s' x
    /\ ticked (H := jit_ex) trace_ex (host_ex hart_trace memory_trace) k s' h'.
Proof.
  destruct loop_compiled as (h0' & M0' & n' & E). destruct trace_ex_callable as [[_ Hlen] _ _ Hready _ Hheld Hpcs].
  eexists. refine (compiled_recording_correct (H := plain_cpu) (H0 := jit_ex) no_fp RV_IMA 10 hart_trace h0' loop_memory M0' 0 n'
    trace_ex _ hart_trace memory_trace (host_ex hart_trace memory_trace) eq_refl eq_refl eq_refl loop_recordable E _ _ Hlen eq_refl Hheld Hready Hpcs).
  - repeat (constructor; [discriminate |]). constructor.
  - vm_compute. repeat split; discriminate.
Defined.
