(* ===== verification/JitFusion.v ===== *)
(** * Fusion: [jit/jit-fusion.h]

    A tracer around a tracer: it holds back instructions that may begin one of its
    groups, and gives the inner tracer one pseudo-instruction for a group, or what
    it held back as it came.  What reaches the inner tracer is the input, regrouped
    ([regroup]); a pseudo-instruction does what its group does; so a function
    compiled for a regrouped trace runs like the interpreter on the instructions
    one by one. *)

From Stdlib Require Import ZArith Lia Bool List.
From stdpp Require Import base list option gmap.
From S2P Require Import Prelude Alu Meta Codec Decoder Ckpt Replay Interp Isa Mmu X86 Jit JitEmit JitProofs JitCorrect JitLabels.
From S2P Require Import JitFused JitTrace JitFunction Fields JitTracer JitRecord.

#[local] Open Scope Z_scope.
#[local] Open Scope word_scope.

(** ** The state machine *)

Inductive match_state : Type :=
  | match_state_none | match_state_auipc | match_state_zextw | match_state_addiw | match_state_addiwz
  | match_state_rotw_slliw | match_state_rotw_srliw | match_state_rotw_or
  | match_state_rotd_slli | match_state_rotd_srli | match_state_rotd_or.

(** The inner tracer and the fields of [jit_fusion]. *)
Record fusion (T : Type) : Type := mkFusion {
  f_inner : T; f_imm : Z; f_rd : Z; f_rs1 : Z; f_rs2 : Z; f_rs3 : Z; f_sz : Z; pseudo_pc : Z;
  f_state : match_state; f_queue : list jit_decode }.
Arguments mkFusion {T}. Arguments f_inner {T}. Arguments f_imm {T}. Arguments f_rd {T}. Arguments f_rs1 {T}. Arguments f_rs2 {T}.
Arguments f_rs3 {T}. Arguments f_sz {T}. Arguments pseudo_pc {T}. Arguments f_state {T}. Arguments f_queue {T}.

(** The constructor, which leaves [sz] and [pseudo_pc] to the first group. *)
Definition fusion_new {T} (t : T) : fusion T := mkFusion t 0 0 0 0 0 0 0 match_state_none [].

Definition is_op (o : rv_op) (d : jit_decode) : bool := bool_decide (jd_op d = Rv o).
Definition inst_len (d : jit_decode) : Z := inst_length (jd_inst d).

(** The pseudo-instruction: its immediate has 32 bits and its size four. *)
Definition pseudo (p inst : Z) (o : jit_op) (rd rs1 rs2 i sz : Z) : jit_decode :=
  mkJit p inst (swrap 32 i) (Fused o) rd rs1 rs2 0 false false (uwrap 4 sz).

Section Machine.
Context {T : Type} `{Tracer T}.

(** [E::emit] in [emit_queue] and for a pseudo-instruction: its result is ignored. *)
Definition emit_inner (h : hart) (d : jit_decode) (t : T) : option T := snd <$> tr_emit h d t.
Fixpoint emit_list (h : hart) (ds : list jit_decode) (t : T) : option T :=
  match ds with [] => Some t | d :: ds => t ← emit_inner h d t; emit_list h ds t end.

Definition set_queue (st : match_state) (t : T) (f : fusion T) : fusion T :=
  mkFusion t (f_imm f) (f_rd f) (f_rs1 f) (f_rs2 f) (f_rs3 f) (f_sz f) (pseudo_pc f) st [].
Definition emit_queue (h : hart) (f : fusion T) : option (fusion T) :=
  t ← emit_list h (f_queue f) (f_inner f);
  Some (set_queue match_state_none t f).
Definition clear_queue (f : fusion T) : fusion T := set_queue match_state_none (f_inner f) f.

(** Holding back the first instruction of a group, with the fields it sets, and one
    more. *)
Definition start (st : match_state) (i rd rs1 rs2 rs3 : Z) (d : jit_decode) (f : fusion T) : option (bool * fusion T) :=
  Some (true, mkFusion (f_inner f) i rd rs1 rs2 rs3 (inst_len d) (jd_pc d) st (f_queue f ++ [d])).
Definition hold_next (st : match_state) (rs2 rs3 : Z) (d : jit_decode) (f : fusion T) : option (bool * fusion T) :=
  Some (true, mkFusion (f_inner f) (f_imm f) (f_rd f) (f_rs1 f) rs2 rs3 (f_sz f + inst_len d) (pseudo_pc f) st (f_queue f ++ [d])).
(** The group is complete (the caller has dropped the queue): its pseudo-instruction
    is emitted. *)
Definition fuse (h : hart) (o : jit_op) (rd rs1 rs2 i : Z) (d : jit_decode) (f : fusion T) : option (bool * fusion T) :=
  t ← emit_inner h (pseudo (pseudo_pc f) (jd_inst d) o rd rs1 rs2 i (f_sz f + inst_len d)) (f_inner f);
  Some (true, mkFusion t (f_imm f) (f_rd f) (f_rs1 f) (f_rs2 f) (f_rs3 f) (f_sz f) (pseudo_pc f) (f_state f) (f_queue f)).
(** [imm += dec.imm]. *)
Definition add_imm (i : Z) (f : fusion T) : fusion T :=
  mkFusion (f_inner f) (f_imm f + i) (f_rd f) (f_rs1 f) (f_rs2 f) (f_rs3 f) (f_sz f) (pseudo_pc f) (f_state f) (f_queue f).
(** [return E::emit(dec)]. *)
Definition pass (h : hart) (d : jit_decode) (f : fusion T) : option (bool * fusion T) :=
  r ← tr_emit h d (f_inner f);
  Some (fst r, mkFusion (snd r) (f_imm f) (f_rd f) (f_rs1 f) (f_rs2 f) (f_rs3 f) (f_sz f) (pseudo_pc f) (f_state f) (f_queue f)).
Definition flush (h : hart) (d : jit_decode) (f : fusion T) : option (bool * fusion T) := f ← emit_queue h f; pass h d f.

Definition fusion_emit (h : hart) (d : jit_decode) (f : fusion T) : option (bool * fusion T) :=
  let imm := f_imm f in let rd := f_rd f in let rs1 := f_rs1 f in let rs2 := f_rs2 f in let rs3 := f_rs3 f in
  let other := negb (jd_rd d =? 0) && negb (jd_rd d =? jd_rs1 d) in
  let same := (rd =? jd_rd d) && (rd =? jd_rs1 d) in
  let or_of := ((jd_rd d =? rs2) || (jd_rd d =? rs3))
    && (((jd_rs1 d =? rs2) && (jd_rs2 d =? rs3)) || ((jd_rs1 d =? rs3) && (jd_rs2 d =? rs2))) in
  match f_state f with
  | match_state_none =>
      if is_op rv_op_auipc d then start match_state_auipc (jd_imm d) (jd_rd d) rs1 rs2 rs3 d f
      else if is_op rv_op_addiw d && (jd_rd d =? jd_rs1 d) then start match_state_addiw (jd_imm d) (jd_rd d) rs1 rs2 rs3 d f
      else if is_op rv_op_slliw d && other then start match_state_rotw_srliw (32 - jd_imm d) rd (jd_rs1 d) (jd_rd d) rs3 d f
      else if is_op rv_op_srliw d && other then start match_state_rotw_slliw (jd_imm d) rd (jd_rs1 d) rs2 (jd_rd d) d f
      else if is_op rv_op_slli d && (jd_imm d =? 32) then start match_state_zextw imm (jd_rd d) (jd_rs1 d) rs2 rs3 d f
      else if is_op rv_op_slli d && other then start match_state_rotd_srli (64 - jd_imm d) rd (jd_rs1 d) (jd_rd d) rs3 d f
      else if is_op rv_op_srli d && other then start match_state_rotd_slli (jd_imm d) rd (jd_rs1 d) rs2 (jd_rd d) d f
      else pass h d f
  | match_state_addiw =>
      if is_op rv_op_slli d && same && (jd_imm d =? 32) then hold_next match_state_addiwz rs2 rs3 d f
      else if is_op rv_op_slli d && (jd_imm d =? 32)
      then f ← emit_queue h f; start match_state_zextw imm (jd_rd d) (jd_rs1 d) rs2 rs3 d f
      else flush h d f
  | match_state_addiwz =>
      if is_op rv_op_srli d && same && (jd_imm d =? 32) then fuse h jit_op_addiwz rd 0 0 imm d (clear_queue f) else flush h d f
  | match_state_auipc =>
      if is_op rv_op_addi d && same then fuse h jit_op_la (jd_rs1 d) 0 0 (imm + jd_imm d) d (add_imm (jd_imm d) (clear_queue f))
      else if is_op rv_op_jalr d && ((rd =? jd_rs1 d) && (jd_rd d =? rv_ireg_ra))
      then fuse h jit_op_call (jd_rs1 d) 0 0 (imm + jd_imm d) d (add_imm (jd_imm d) (clear_queue f))
      else if is_op rv_op_lw d && same then fuse h jit_op_auipc_lw rd 0 0 (imm + jd_imm d) d (add_imm (jd_imm d) (clear_queue f))
      else if is_op rv_op_ld d && same then fuse h jit_op_auipc_ld rd 0 0 (imm + jd_imm d) d (add_imm (jd_imm d) (clear_queue f))
      else flush h d f
  | match_state_zextw =>
      if is_op rv_op_srli d && same && (jd_imm d =? 32)
      then fuse h jit_op_zextw rd rs1 0 0 d (clear_queue f)
      else flush h d f
  | match_state_rotw_slliw =>
      if is_op rv_op_slliw d && (negb (jd_rd d =? 0) && negb (jd_rd d =? rs3) && (rs1 =? jd_rs1 d) && (jd_imm d =? 32 - imm))
      then hold_next match_state_rotw_or (jd_rd d) rs3 d f else flush h d f
  | match_state_rotw_srliw =>
      if is_op rv_op_srliw d && (negb (jd_rd d =? 0) && negb (jd_rd d =? rs2) && (rs1 =? jd_rs1 d) && (jd_imm d =? imm))
      then hold_next match_state_rotw_or rs2 (jd_rd d) d f else flush h d f
  | match_state_rotd_slli =>
      if is_op rv_op_slli d && (negb (jd_rd d =? 0) && negb (jd_rd d =? rs3) && (rs1 =? jd_rs1 d) && (jd_imm d =? 64 - imm))
      then hold_next match_state_rotd_or (jd_rd d) rs3 d f else flush h d f
  | match_state_rotd_srli =>
      if is_op rv_op_srli d && (negb (jd_rd d =? 0) && negb (jd_rd d =? rs2) && (rs1 =? jd_rs1 d) && (jd_imm d =? imm))
      then hold_next match_state_rotd_or rs2 (jd_rd d) d f else flush h d f
  | match_state_rotw_or =>
      if is_op rv_op_or d && or_of
      then if jd_rd d =? rs2 then fuse h jit_op_rorwi_rr rs2 rs1 rs3 imm d (clear_queue f)
           else fuse h jit_op_rorwi_lr rs3 rs1 rs2 imm d (clear_queue f)
      else flush h d f
  | match_state_rotd_or =>
      if is_op rv_op_or d && or_of
      then if jd_rd d =? rs2 then fuse h jit_op_rordi_rr rs2 rs1 rs3 imm d (clear_queue f)
           else fuse h jit_op_rordi_lr rs3 rs1 rs2 imm d (clear_queue f)
      else flush h d f
  end.

Definition fusion_end (h : hart) (f : fusion T) : option (fusion T) :=
  f ← emit_queue h f;
  t ← tr_end h (f_inner f);
  Some (set_queue (f_state f) t f).

#[export] Instance fusion_tracer : Tracer (fusion T) :=
  {| tr_new := fusion_new tr_new; tr_emit := fusion_emit; tr_end := fusion_end; tr_trace := fun f => tr_trace (f_inner f) |}.
End Machine.

(** ** The groups *)

Definition shift_left (w : Z) : rv_op := if w =? 32 then rv_op_slliw else rv_op_slli.
Definition shift_right (w : Z) : rv_op := if w =? 32 then rv_op_srliw else rv_op_srli.
Definition op_rr (w : Z) : jit_op := if w =? 32 then jit_op_rorwi_rr else jit_op_rordi_rr.
Definition op_lr (w : Z) : jit_op := if w =? 32 then jit_op_rorwi_lr else jit_op_rordi_lr.

(** The first half of a rotation. *)
Record half (o : rv_op) (a : jit_decode) : Prop := {
  ha_op : jd_op a = Rv o; ha_rd : jd_rd a <> 0; ha_rs1 : jd_rd a <> jd_rs1 a }.
(** Both halves, the left shift [l] and the right shift [r], in the order [a], [b]. *)
Record halves (w : Z) (a b l r : jit_decode) : Prop := {
  hv_order : a = l /\ b = r \/ a = r /\ b = l;
  hv_left : jd_op l = Rv (shift_left w); hv_right : jd_op r = Rv (shift_right w);
  hv_rd : jd_rd l <> 0 /\ jd_rd r <> 0 /\ jd_rd l <> jd_rd r; hv_first : jd_rd a <> jd_rs1 a;
  hv_rs1 : jd_rs1 l = jd_rs1 r; hv_imm : jd_imm l = w - jd_imm r }.
(** The instruction that joins them. *)
Record joins (c l r : jit_decode) : Prop := {
  jo_op : jd_op c = Rv rv_op_or;
  jo_sources : jd_rs1 c = jd_rd l /\ jd_rs2 c = jd_rd r \/ jd_rs1 c = jd_rd r /\ jd_rs2 c = jd_rd l }.

Definition pc_pair (o : rv_op) : option jit_op :=
  match o with rv_op_addi => Some jit_op_la | rv_op_lw => Some jit_op_auipc_lw | rv_op_ld => Some jit_op_auipc_ld | _ => None end.

(** A group and its pseudo-instruction. *)
Inductive fuses : list jit_decode -> jit_decode -> Prop :=
  | fuses_pc (a b : jit_decode) (o : rv_op) (o' : jit_op) :
      jd_op a = Rv rv_op_auipc -> jd_op b = Rv o -> pc_pair o = Some o' -> jd_rd a = jd_rd b -> jd_rd a = jd_rs1 b ->
      fuses [a; b] (pseudo (jd_pc a) (jd_inst b) o' (jd_rd a) 0 0 (jd_imm a + jd_imm b) (inst_len a + inst_len b))
  | fuses_call (a b : jit_decode) :
      jd_op a = Rv rv_op_auipc -> jd_op b = Rv rv_op_jalr -> jd_rd a = jd_rs1 b -> jd_rd b = rv_ireg_ra ->
      fuses [a; b] (pseudo (jd_pc a) (jd_inst b) jit_op_call (jd_rd a) 0 0 (jd_imm a + jd_imm b) (inst_len a + inst_len b))
  | fuses_zextw (a b : jit_decode) :
      jd_op a = Rv rv_op_slli -> jd_op b = Rv rv_op_srli -> jd_imm a = 32 -> jd_imm b = 32 -> jd_rd a = jd_rd b -> jd_rd a = jd_rs1 b ->
      fuses [a; b] (pseudo (jd_pc a) (jd_inst b) jit_op_zextw (jd_rd a) (jd_rs1 a) 0 0 (inst_len a + inst_len b))
  | fuses_addiwz (a b c : jit_decode) :
      jd_op a = Rv rv_op_addiw -> jd_op b = Rv rv_op_slli -> jd_op c = Rv rv_op_srli -> jd_imm b = 32 -> jd_imm c = 32 ->
      jd_rd a = jd_rs1 a -> jd_rd a = jd_rd b -> jd_rd a = jd_rs1 b -> jd_rd a = jd_rd c -> jd_rd a = jd_rs1 c ->
      fuses [a; b; c] (pseudo (jd_pc a) (jd_inst c) jit_op_addiwz (jd_rd a) 0 0 (jd_imm a) (inst_len a + inst_len b + inst_len c))
  | fuses_rr (w : Z) (a b c l r : jit_decode) :
      w = 32 \/ w = 64 -> halves w a b l r -> joins c l r -> jd_rd c = jd_rd l ->
      fuses [a; b; c] (pseudo (jd_pc a) (jd_inst c) (op_rr w) (jd_rd l) (jd_rs1 l) (jd_rd r) (jd_imm r) (inst_len a + inst_len b + inst_len c))
  | fuses_lr (w : Z) (a b c l r : jit_decode) :
      w = 32 \/ w = 64 -> halves w a b l r -> joins c l r -> jd_rd c = jd_rd r ->
      fuses [a; b; c] (pseudo (jd_pc a) (jd_inst c) (op_lr w) (jd_rd r) (jd_rs1 l) (jd_rd l) (jd_imm r) (inst_len a + inst_len b + inst_len c)).

(** A trace with some of its groups replaced. *)
Inductive regroup : list jit_decode -> list jit_decode -> Prop :=
  | regroup_nil : regroup [] []
  | regroup_one (d : jit_decode) (ds ds' : list jit_decode) : regroup ds ds' -> regroup (d :: ds) (d :: ds')
  | regroup_fused (g : list jit_decode) (p : jit_decode) (ds ds' : list jit_decode) :
      fuses g p -> regroup ds ds' -> regroup (g ++ ds) (p :: ds').

Lemma regroup_refl (ds : list jit_decode) : regroup ds ds.
Proof. induction ds; constructor; assumption. Qed.
Lemma regroup_app (a a' b b' : list jit_decode) : regroup a a' -> regroup b b' -> regroup (a ++ b) (a' ++ b').
Proof. intros Ha Hb. induction Ha; [exact Hb | constructor; assumption | rewrite <- app_assoc; constructor; assumption]. Qed.

(** ** What it holds back *)

Section Moves.
Context {T : Type} `{Tracer T}.

(** The queue, and what the fields say of it. *)
Definition begun (f : fusion T) (a : jit_decode) : Prop := f_queue f = [a] /\ pseudo_pc f = jd_pc a /\ f_sz f = inst_len a.
Definition waits_second (w : Z) (left : bool) (f : fusion T) : Prop :=
  exists a, begun f a /\ half (if left then shift_left w else shift_right w) a /\ f_rs1 f = jd_rs1 a
    /\ (if left then f_rs2 f = jd_rd a /\ f_imm f = w - jd_imm a else f_rs3 f = jd_rd a /\ f_imm f = jd_imm a).
Definition waits_or (w : Z) (f : fusion T) : Prop :=
  exists a b l r, f_queue f = [a; b] /\ pseudo_pc f = jd_pc a /\ f_sz f = inst_len a + inst_len b
    /\ halves w a b l r /\ f_rs1 f = jd_rs1 l /\ f_rs2 f = jd_rd l /\ f_rs3 f = jd_rd r /\ f_imm f = jd_imm r.
Definition waiting (f : fusion T) : Prop :=
  match f_state f with
  | match_state_none => f_queue f = []
  | match_state_auipc => exists a, begun f a /\ jd_op a = Rv rv_op_auipc /\ f_rd f = jd_rd a /\ f_imm f = jd_imm a
  | match_state_zextw => exists a, begun f a /\ jd_op a = Rv rv_op_slli /\ jd_imm a = 32 /\ f_rd f = jd_rd a /\ f_rs1 f = jd_rs1 a
  | match_state_addiw => exists a, begun f a /\ jd_op a = Rv rv_op_addiw /\ jd_rd a = jd_rs1 a /\ f_rd f = jd_rd a /\ f_imm f = jd_imm a
  | match_state_addiwz => exists a b, f_queue f = [a; b] /\ pseudo_pc f = jd_pc a /\ f_sz f = inst_len a + inst_len b
      /\ jd_op a = Rv rv_op_addiw /\ jd_op b = Rv rv_op_slli /\ jd_rd a = jd_rs1 a /\ jd_rd a = jd_rd b /\ jd_rd a = jd_rs1 b
      /\ jd_imm b = 32 /\ f_rd f = jd_rd a /\ f_imm f = jd_imm a
  | match_state_rotw_srliw => waits_second 32 true f
  | match_state_rotw_slliw => waits_second 32 false f
  | match_state_rotd_srli => waits_second 64 true f
  | match_state_rotd_slli => waits_second 64 false f
  | match_state_rotw_or => waits_or 32 f
  | match_state_rotd_or => waits_or 64 f
  end.

(** What a call does with the instruction. *)
Inductive moves (h : hart) (d : jit_decode) (f : fusion T) : bool -> fusion T -> Prop :=
  | holds_back (f' : fusion T) : f_inner f' = f_inner f -> f_queue f' = f_queue f ++ [d] -> waiting f' -> moves h d f true f'
  | begins_again (f' : fusion T) :
      emit_list h (f_queue f) (f_inner f) = Some (f_inner f') -> f_queue f' = [d] -> waiting f' -> moves h d f true f'
  | completes (p : jit_decode) (f' : fusion T) :
      fuses (f_queue f ++ [d]) p -> emit_inner h p (f_inner f) = Some (f_inner f') -> f_queue f' = [] -> waiting f' -> moves h d f true f'
  | passes_on (b : bool) (t : T) (f' : fusion T) :
      emit_list h (f_queue f) (f_inner f) = Some t -> tr_emit h d t = Some (b, f_inner f') -> f_queue f' = [] -> waiting f' ->
      moves h d f b f'.

Lemma is_op_true (o : rv_op) (d : jit_decode) : is_op o d = true -> jd_op d = Rv o.
Proof. exact (bool_decide_eq_true_1 _). Qed.
Ltac tests :=
  repeat match goal with
  | E : _ && _ = true |- _ => apply andb_true_iff in E as [? ?]
  | E : _ || _ = true |- _ => apply orb_true_iff in E
  | E : negb _ = true |- _ => apply negb_true_iff in E
  | E : (_ =? _) = true |- _ => apply Z.eqb_eq in E
  | E : (_ =? _) = false |- _ => apply Z.eqb_neq in E
  | E : is_op _ _ = true |- _ => apply is_op_true in E
  end.

Lemma flush_moves (h : hart) (d : jit_decode) (f f' : fusion T) (b : bool) : flush h d f = Some (b, f') -> moves h d f b f'.
Proof.
  unfold flush, emit_queue, pass. destruct (emit_list h (f_queue f) (f_inner f)) as [t |] eqn:E; [| discriminate].
  cbn [mbind option_bind f_inner set_queue]. destruct (tr_emit h d t) as [[b' t'] |] eqn:E'; [| discriminate].
  cbn [mbind option_bind fst snd]. intros X. injection X as <- <-. eapply passes_on; [exact E | exact E' | reflexivity | reflexivity].
Qed.
Lemma fuse_moves (h : hart) (d : jit_decode) (f g f' : fusion T) (b : bool) (o : jit_op) (rd rs1 rs2 i : Z) :
  f_inner g = f_inner f -> pseudo_pc g = pseudo_pc f -> f_sz g = f_sz f -> f_state g = match_state_none -> f_queue g = [] ->
  fuses (f_queue f ++ [d]) (pseudo (pseudo_pc f) (jd_inst d) o rd rs1 rs2 i (f_sz f + inst_len d)) ->
  fuse h o rd rs1 rs2 i d g = Some (b, f') -> moves h d f b f'.
Proof.
  intros E1 E2 E3 E4 E5 Hg. unfold fuse. rewrite E1, E2, E3, E4, E5. destruct (emit_inner h _ (f_inner f)) as [t |] eqn:E; [| discriminate].
  cbn [mbind option_bind]. intros X. injection X as <- <-. eapply completes; [exact Hg | exact E | reflexivity | reflexivity].
Qed.

Section State.
Context (h : hart) (d : jit_decode) (f f' : fusion T) (b : bool).
Hypothesis (Hw : waiting f) (He : fusion_emit h d f = Some (b, f')).

Lemma none_moves : f_state f = match_state_none -> moves h d f b f'.
Proof using Hw He.
  intros Es. unfold waiting in Hw. unfold fusion_emit in He. rewrite Es in *. cbv zeta in He.
  repeat match type of He with (if ?c then _ else _) = _ => destruct c eqn:?; tests end.
  all: try (unfold start in He; rewrite Hw in He; injection He as <- <-; apply holds_back; cbn [f_inner f_queue]; rewrite ?Hw; try reflexivity;
    cbn [waiting f_state]; exists d; unfold begun; cbn; repeat split; auto; fail).
  apply flush_moves. unfold flush, emit_queue. rewrite Hw. cbn [emit_list mbind option_bind].
  revert He. unfold pass, set_queue. cbn [f_inner f_state f_queue f_imm f_rd f_rs1 f_rs2 f_rs3 f_sz pseudo_pc]. rewrite Es, Hw. auto.
Qed.

Ltac in_state Es :=
  let H := fresh "Hw" in pose proof Hw as H; unfold waiting in H; rewrite Es in H;
  let H' := fresh "He" in pose proof He as H'; unfold fusion_emit in H'; rewrite Es in H'; cbv zeta in H'; clear Hw He.

Lemma auipc_moves : f_state f = match_state_auipc -> moves h d f b f'.
Proof using Hw He.
  intros Es. in_state Es. destruct Hw0 as (a & (Eq & Ep & Ez) & Ea & Erd & Ei). rewrite Ei, ?Erd in He0.
  repeat match type of He0 with (if ?c then _ else _) = _ => destruct c eqn:?; tests end; [.. | apply flush_moves; exact He0].
  all: refine (fuse_moves h d f _ f' b _ _ _ _ _ _ _ _ _ _ _ He0); try reflexivity; rewrite Eq, Ep, Ez; cbn [app].
  - replace (jd_rs1 d) with (jd_rd a) by assumption. eapply fuses_pc; eauto.
  - replace (jd_rs1 d) with (jd_rd a) by assumption. apply fuses_call; auto.
  - eapply fuses_pc; eauto.
  - eapply fuses_pc; eauto.
Qed.
Lemma zextw_moves : f_state f = match_state_zextw -> moves h d f b f'.
Proof using Hw He.
  intros Es. in_state Es. destruct Hw0 as (a & (Eq & Ep & Ez) & Ea & Ei & Erd & Ers). rewrite ?Erd, Ers in He0.
  match type of He0 with (if ?c then _ else _) = _ => destruct c eqn:?; tests end; [| apply flush_moves; exact He0].
  refine (fuse_moves h d f _ f' b _ _ _ _ _ _ _ _ _ _ _ He0); try reflexivity. rewrite Eq, Ep, Ez. apply fuses_zextw; auto.
Qed.
Lemma addiw_moves : f_state f = match_state_addiw -> moves h d f b f'.
Proof using Hw He.
  intros Es. in_state Es. destruct Hw0 as (a & (Eq & Ep & Ez) & Ea & Ers & Erd & Ei). rewrite ?Erd in He0.
  repeat match type of He0 with (if ?c then _ else _) = _ => destruct c eqn:?; tests end; [| | apply flush_moves; exact He0].
  - unfold hold_next in He0. injection He0 as <- <-. apply holds_back; [reflexivity | reflexivity |]. cbn. exists a, d. rewrite Eq, Ez. repeat split; auto; congruence.
  - unfold emit_queue in He0. destruct (emit_list h (f_queue f) (f_inner f)) as [t |] eqn:E; [| discriminate He0].
    cbn [mbind option_bind] in He0. unfold start in He0. injection He0 as <- <-. apply begins_again; [exact E | reflexivity |].
    cbn. exists d. unfold begun. cbn. auto 10.
Qed.
Lemma addiwz_moves : f_state f = match_state_addiwz -> moves h d f b f'.
Proof using Hw He.
  intros Es. in_state Es. destruct Hw0 as (a & b' & Eq & Ep & Ez & Ea & Eb & H1 & H2 & H3 & H4 & Erd & Ei). rewrite Erd, Ei in He0.
  match type of He0 with (if ?c then _ else _) = _ => destruct c eqn:?; tests end; [| apply flush_moves; exact He0].
  refine (fuse_moves h d f _ f' b _ _ _ _ _ _ _ _ _ _ _ He0); try reflexivity. rewrite Eq, Ep, Ez. apply fuses_addiwz; auto.
Qed.

(** The second half of a rotation. *)
Lemma second_moves (w : Z) (left : bool) (st : match_state) (rs2 rs3 : Z) :
  waits_second w left f -> (forall g : fusion T, f_state g = st -> waiting g <-> waits_or w g) ->
  (if left then rs2 = f_rs2 f /\ rs3 = jd_rd d else rs2 = jd_rd d /\ rs3 = f_rs3 f) ->
  (if is_op (if left then shift_right w else shift_left w) d
     && (negb (jd_rd d =? 0) && negb (jd_rd d =? (if left then f_rs2 f else f_rs3 f)) && (f_rs1 f =? jd_rs1 d)
         && (jd_imm d =? (if left then f_imm f else w - f_imm f)))
   then hold_next st rs2 rs3 d f else flush h d f) = Some (b, f') -> moves h d f b f'.
Proof using.
  clear Hw He. intros (a & (Eq & Ep & Ez) & [Ho Hrd Hrs] & Ers & Hl) Hst Hr He.
  match type of He with (if ?c then _ else _) = _ => destruct c eqn:?; tests end; [| apply flush_moves; exact He].
  unfold hold_next in He. injection He as <- <-. apply holds_back; [reflexivity | reflexivity |]. apply Hst; [reflexivity |].
  destruct left.
  - destruct Hr as [-> ->], Hl as [El Ei]. exists a, d, a, d. cbn. rewrite Eq, Ez, El in *. repeat split; auto; congruence || lia.
  - destruct Hr as [-> ->], Hl as [El Ei]. exists a, d, d, a. cbn. rewrite Eq, Ez, El in *. repeat split; auto; congruence.
Qed.
(** And the instruction that joins them. *)
Lemma or_moves (w : Z) (o o' : jit_op) : w = 32 \/ w = 64 -> o = op_rr w -> o' = op_lr w -> waits_or w f ->
  (if is_op rv_op_or d && (((jd_rd d =? f_rs2 f) || (jd_rd d =? f_rs3 f))
     && (((jd_rs1 d =? f_rs2 f) && (jd_rs2 d =? f_rs3 f)) || ((jd_rs1 d =? f_rs3 f) && (jd_rs2 d =? f_rs2 f))))
   then if jd_rd d =? f_rs2 f then fuse h o (f_rs2 f) (f_rs1 f) (f_rs3 f) (f_imm f) d (clear_queue f)
        else fuse h o' (f_rs3 f) (f_rs1 f) (f_rs2 f) (f_imm f) d (clear_queue f)
   else flush h d f) = Some (b, f') -> moves h d f b f'.
Proof using.
  clear Hw He. intros Hw -> -> (x & y & l & r & Eq & Ep & Ez & Hh & E1 & E2 & E3 & Ei) He. rewrite E1, E2, E3, Ei in He.
  match type of He with (if ?c then _ else _) = _ => destruct c eqn:Ec; tests end; [| apply flush_moves; exact He].
  assert (Hj : joins d l r).
  { split; [assumption |]. match goal with E : _ && _ = true \/ _ && _ = true |- _ => destruct E; tests; auto end. }
  destruct (Z.eqb_spec (jd_rd d) (jd_rd l)) as [Hd | Hd].
  - refine (fuse_moves h d f _ f' b _ _ _ _ _ _ _ _ _ _ _ He); try reflexivity. rewrite Eq, Ep, Ez. eapply fuses_rr; eassumption.
  - refine (fuse_moves h d f _ f' b _ _ _ _ _ _ _ _ _ _ _ He); try reflexivity. rewrite Eq, Ep, Ez. eapply fuses_lr; try eassumption.
    match goal with E : _ = true \/ _ = true |- jd_rd d = _ => destruct E; tests; congruence end.
Qed.

Lemma fusion_moves : moves h d f b f'.
Proof using Hw He.
  destruct (f_state f) eqn:Es;
    [exact (none_moves Es) | exact (auipc_moves Es) | exact (zextw_moves Es) | exact (addiw_moves Es) | exact (addiwz_moves Es) | ..];
    in_state Es.
  - apply (second_moves 32 false match_state_rotw_or (jd_rd d) (f_rs3 f)); auto. intros g Eg. unfold waiting. rewrite Eg. reflexivity.
  - apply (second_moves 32 true match_state_rotw_or (f_rs2 f) (jd_rd d)); auto. intros g Eg. unfold waiting. rewrite Eg. reflexivity.
  - eapply (or_moves 32); eauto.
  - apply (second_moves 64 false match_state_rotd_or (jd_rd d) (f_rs3 f)); auto. intros g Eg. unfold waiting. rewrite Eg. reflexivity.
  - apply (second_moves 64 true match_state_rotd_or (f_rs2 f) (jd_rd d)); auto. intros g Eg. unfold waiting. rewrite Eg. reflexivity.
  - eapply (or_moves 64); eauto.
Qed.
End State.
End Moves.
