(* ===== verification/JitGroups.v ===== *)
(** * What the groups of [jit/jit-fusion.h] do

    A pseudo-instruction does to the hart what its group does, instruction by
    instruction; so a regrouped trace takes the interpreter where the trace takes
    it, and the function compiled for it runs like the interpreter. *)

From Stdlib Require Import ZArith Lia Bool List.
From stdpp Require Import base list option gmap.
From S2P Require Import Prelude Alu Meta Codec Ckpt Replay Interp Isa Mmu X86 Jit JitEmit JitProofs JitCorrect JitLabels.
From S2P Require Import JitFused JitTrace JitFunction Fields JitTracer JitRecord JitFusion.

#[local] Open Scope Z_scope.
#[local] Open Scope word_scope.

(** ** Registers *)

Lemma put_set_pc (r v p : Z) (h : hart) : put_reg r v (set_pc p h) = set_pc p (put_reg r v h).
Proof. unfold put_reg. destruct (r =? 0); reflexivity. Qed.
Lemma set_set_pc (p q : Z) (h : hart) : set_pc p (set_pc q h) = set_pc p h.
Proof. reflexivity. Qed.
Lemma get_set_pc (p r : Z) (h : hart) : get_reg (set_pc p h) r = get_reg h r.
Proof. reflexivity. Qed.
Lemma put_put_reg (r v v' : Z) (h : hart) : put_reg r v (put_reg r v' h) = put_reg r v h.
Proof. unfold put_reg. destruct (r =? 0); [reflexivity |]. unfold set_ireg. cbn [ireg pc freg lr fcsr time]. rewrite list_insert_insert_eq. reflexivity. Qed.
Lemma put_reg_ext (r v v' : Z) (h : hart) : (r <> 0 -> v = v') -> put_reg r v h = put_reg r v' h.
Proof. intros E. unfold put_reg. destruct (Z.eqb_spec r 0) as [| N]; [reflexivity |]. rewrite (E N). reflexivity. Qed.
Lemma put_put_comm (r r' v v' : Z) (h : hart) : is_reg r -> is_reg r' -> r <> r' ->
  put_reg r v (put_reg r' v' h) = put_reg r' v' (put_reg r v h).
Proof.
  intros Hr Hr' Hn. unfold put_reg. destruct (r =? 0), (r' =? 0); try reflexivity. unfold set_ireg. cbn [ireg pc freg lr fcsr time].
  f_equal. apply list_insert_insert_ne. unfold is_reg in *. lia.
Qed.
Lemma at_pc_wf (p : Z) (h : hart) : hart_wf 64 h -> in_u 64 p -> hart_wf 64 (set_pc p h).
Proof. intros [A B C D] Hp. split; assumption. Qed.

(** ** Values *)

Lemma in_s_div (w a : Z) : 0 < w -> in_s w a <-> a / 2 ^ (w - 1) = 0 \/ a / 2 ^ (w - 1) = -1.
Proof.
  intros Hw. pose proof (pow2_pos (w - 1) ltac:(lia)) as Hp. pose proof (Z.div_mod a (2 ^ (w - 1)) ltac:(lia)) as E.
  pose proof (Z.mod_pos_bound a (2 ^ (w - 1)) Hp). unfold in_s. split; intros H1.
  - assert (-1 <= a / 2 ^ (w - 1) < 1) by (split; [apply Z.div_le_lower_bound; lia | apply Z.div_lt_upper_bound; lia]). lia.
  - destruct H1 as [H1 | H1]; rewrite H1 in E; lia.
Qed.
Lemma in_s_lor (w a b : Z) : 0 < w -> in_s w a -> in_s w b -> in_s w (a .| b).
Proof.
  intros Hw Ha Hb. apply in_s_div in Ha, Hb; try exact Hw. apply in_s_div; [exact Hw |].
  rewrite <- !Z.shiftr_div_pow2 in * by lia. rewrite Z.shiftr_lor. destruct Ha as [-> | ->], Hb as [-> | ->]; cbn; auto.
Qed.
(** Both halves of a rotation. *)
Lemma rotation_value (w x n : Z) : 0 < n < w -> w <= 64 ->
  swrap 64 (shifted_left w x n .| shifted_right w x n) = rotated w x n
  /\ swrap 64 (shifted_right w x n .| shifted_left w x n) = rotated w x n.
Proof.
  intros Hn Hw. rewrite (Z.lor_comm (shifted_right w x n)). split.
  all: unfold shifted_left, shifted_right, rotated; set (a := uwrap w x / 2 ^ n).
  all: assert (Ha : in_u (w - n) a)
    by (unfold a; pose proof (uwrap_range w x ltac:(lia)) as [H1 H2]; pose proof (pow2_pos n ltac:(lia));
        split; [apply Z.div_pos; lia | apply Z.div_lt_upper_bound; [lia |]; rewrite <- Z.pow_add_r by lia; replace (n + (w - n)) with w by lia; exact H2]).
  all: rewrite <- (lor_concat (w - n) a x Ha) by lia; rewrite Z.shiftl_mul_pow2 by lia; rewrite (swrap_small 64) by
    (lia || (apply (in_s_mono w); [lia |]; apply in_s_lor; [lia | apply swrap_range; lia | apply swrap_range; lia])).
  all: rewrite <- (swrap_small w (swrap w (x * _) .| swrap w a)) by (lia || (apply in_s_lor; [lia | apply swrap_range; lia | apply swrap_range; lia])).
  all: apply swrap_uwrap_inj; rewrite uwrap_lor_swrap, Z.lor_comm by lia; reflexivity.
Qed.
Lemma zext_value (x : Z) : swrap 64 (uwrap 64 (swrap 64 (x * 2 ^ 32)) / 2 ^ 32) = uwrap 32 x.
Proof.
  rewrite uwrap_swrap. unfold uwrap at 1. change (2 ^ 64) with (2 ^ 32 * 2 ^ 32). rewrite Z.mul_mod_distr_r, Z.div_mul by lia.
  apply swrap_small; [lia |]. apply (unsigned_word 32); [lia | apply uwrap_range; lia].
Qed.
Lemma even_part (x y : Z) : uwrap 64 x = uwrap 64 y -> uwrap 64 (2 * (x / 2)) = uwrap 64 (2 * (y / 2)).
Proof.
  intros E. assert (Hp : forall z, 2 * (z / 2) = z - z mod 2) by (intros z; pose proof (Z.div_mod z 2 ltac:(lia)); lia).
  rewrite !Hp, <- (word_mod_2 x), <- (word_mod_2 y), E. rewrite <- uwrap_sub_l, E, uwrap_sub_l. reflexivity.
Qed.

(** ** The instructions of a group *)

(** A shift's count, as it is decoded. *)
Definition count_in_range (d : jit_decode) : Prop :=
  match jd_op d with
  | Rv (rv_op_slli | rv_op_srli) => 0 <= jd_imm d < 64
  | Rv (rv_op_slliw | rv_op_srliw) => 0 <= jd_imm d < 32
  | _ => True
  end.
Record member (d : jit_decode) : Prop := {
  mb_wf : jit_wf d; mb_len : inst_len d = 2 \/ inst_len d = 4; mb_count : count_in_range d }.

(** The instructions that may be held back go on to the next. *)
Definition held_back (d : jit_decode) : bool :=
  match jd_op d with
  | Rv (rv_op_auipc | rv_op_addiw | rv_op_slliw | rv_op_srliw | rv_op_slli | rv_op_srli) => true
  | _ => false
  end.
(** Of two adjacent instructions: the offset of a pc-relative pair fits the field of
    its pseudo-instruction, and a call goes through [ra]; and the second is where
    the first goes on. *)
Record pair_fits (a b : jit_decode) : Prop := {
  pk_offset : jd_op a = Rv rv_op_auipc -> jd_rd a = jd_rs1 b -> in_s 32 (jd_imm a + jd_imm b);
  pk_call : jd_op a = Rv rv_op_auipc -> jd_op b = Rv rv_op_jalr -> jd_rd b = rv_ireg_ra -> jd_rd a = jd_rs1 b -> jd_rd a = rv_ireg_ra }.
Record pair_ok (a b : jit_decode) : Prop := { pk_next : held_back a = true -> jd_pc b = cont_pc a; pk_fits : pair_fits a b }.
Fixpoint adjacent (P : jit_decode -> jit_decode -> Prop) (ds : list jit_decode) : Prop :=
  match ds with
  | a :: ds' => match ds' with b :: _ => P a b | [] => True end /\ adjacent P ds'
  | [] => True
  end.
Abbreviation pairs_ok := (adjacent pair_ok).

Section Groups.
Context (exec_fp : decode -> hart -> Z -> io Z) (fl : flags).
Hypothesis (Hi : rvi fl = true).

Lemma step_cons (d : jit_decode) (ds : list jit_decode) (h h' : hart) (M M' : memory) :
  jd_pc d = pc h -> guest_step exec_fp fl d h M = Some (h', M') -> steps exec_fp fl (d :: ds) h M = steps exec_fp fl ds h' M'.
Proof using. intros Hp E. cbn [steps]. rewrite Hp, Z.eqb_refl, E. reflexivity. Qed.

(** One instruction of each kind. *)
Lemma alu_guest (o : rv_op) (sel : operand2) (f : Z -> Z -> Z) (d : jit_decode) (h : hart) (M : memory) :
  isa_alu fl 64 o = Some (sel, f) -> jd_op d = Rv o -> jit_wf d -> hart_wf 64 h -> jd_pc d = pc h ->
  shift_ok 64 o (match sel with Reg => get_reg h (jd_rs2 d) | Imm => jd_imm d end) ->
  guest_step exec_fp fl d h M
  = Some (set_pc (cont_pc d) (put_reg (jd_rd d) (f (get_reg h (jd_rs1 d)) (match sel with Reg => get_reg h (jd_rs2 d) | Imm => jd_imm d end)) h), M).
Proof using.
  intros Eo Ed [Hrd H1 H2 Himm Hpc] Hh Hp Hs. unfold guest_step, inst_step_at. rewrite Ed.
  rewrite (exec_alu exec_fp fl 64 (decode_of o d) h (inst_length (jd_inst d)) sel f (or_intror eq_refl) Hh Hrd H1 H2 Eo) by (destruct sel; exact Hs).
  cbn [run decode_of rd rs1]. unfold next_pc, cont_pc. rewrite put_reg_pc, Hp. destruct sel; reflexivity.
Qed.
Lemma auipc_guest (d : jit_decode) (h : hart) (M : memory) :
  jd_op d = Rv rv_op_auipc -> jit_wf d -> hart_wf 64 h -> jd_pc d = pc h ->
  guest_step exec_fp fl d h M = Some (set_pc (cont_pc d) (put_reg (jd_rd d) (swrap 64 (branch_pc d)) h), M).
Proof using Hi.
  intros Ed [Hrd H1 H2 Himm Hpc] Hh Hp. unfold guest_step, inst_step_at. rewrite Ed.
  destruct (exec_control exec_fp fl 64 (decode_of rv_op_auipc d) h (inst_length (jd_inst d)) (cont_pc d) (Some (swrap 64 (branch_pc d)))
    (or_intror eq_refl) Hh Hrd H1 H2 (in_s_mono 32 64 _ ltac:(lia) Himm)) as (off & -> & Ht).
  - rewrite <- Hp. exact Hpc.
  - exact Hi.
  - cbn [isa_control decode_of op imm]. unfold branch_pc, cont_pc, next_pc. rewrite Hp, swrap_uwrap. reflexivity.
  - cbn [run decode_of rd]. rewrite <- Ht. unfold next_pc. rewrite put_reg_pc. reflexivity.
Qed.
Lemma jalr_guest (d : jit_decode) (h : hart) (M : memory) :
  jd_op d = Rv rv_op_jalr -> jit_wf d -> hart_wf 64 h -> jd_pc d = pc h ->
  guest_step exec_fp fl d h M
  = Some (set_pc (uwrap 64 (2 * ((get_reg h (jd_rs1 d) + jd_imm d) / 2))) (put_reg (jd_rd d) (swrap 64 (cont_pc d)) h), M).
Proof using Hi.
  intros Ed [Hrd H1 H2 Himm Hpc] Hh Hp. unfold guest_step, inst_step_at. rewrite Ed.
  destruct (exec_control exec_fp fl 64 (decode_of rv_op_jalr d) h (inst_length (jd_inst d))
    (uwrap 64 (2 * ((get_reg h (jd_rs1 d) + jd_imm d) / 2))) (Some (swrap 64 (cont_pc d)))
    (or_intror eq_refl) Hh Hrd H1 H2 (in_s_mono 32 64 _ ltac:(lia) Himm)) as (off & -> & Ht).
  - rewrite <- Hp. exact Hpc.
  - exact Hi.
  - cbn [isa_control decode_of op imm rs1]. unfold cont_pc, next_pc. rewrite Hp. reflexivity.
  - cbn [run decode_of rd]. rewrite <- Ht. unfold next_pc. rewrite put_reg_pc. reflexivity.
Qed.
Lemma load_guest (o : rv_op) (n : nat) (ext : Z -> Z) (d : jit_decode) (h : hart) (M : memory) :
  o = rv_op_lw /\ n = 4%nat /\ ext = swrap 32 \/ o = rv_op_ld /\ n = 8%nat /\ ext = swrap 64 ->
  jd_op d = Rv o -> jit_wf d -> hart_wf 64 h -> jd_pc d = pc h ->
  guest_step exec_fp fl d h M
  = Some (set_pc (cont_pc d) (put_reg (jd_rd d) (ext (mem_read n M (get_reg h (jd_rs1 d) +[64] jd_imm d))) h), M).
Proof using Hi.
  intros Ho Ed [Hrd H1 H2 Himm Hpc] Hh Hp. unfold guest_step. rewrite Ed. unfold inst_step_at, exec_inst. cbn [Z.eqb Pos.eqb].
  destruct (aget_get_reg 64 h (jd_rs1 d) Hh H1) as [Ea Ra].
  assert (Er : exec_inst_rv64 exec_fp fl (decode_of o d) h (inst_length (jd_inst d))
    = load_case 64 (decode_of o d) h (inst_length (jd_inst d)) (Z.of_nat n) ext).
  { unfold exec_inst_rv64, guarded. rewrite Hi. destruct Ho as [(-> & -> & ->) | (-> & -> & ->)]; reflexivity. }
  rewrite Er. unfold load_case, x. cbn [decode_of rs1 imm]. rewrite Ea. cbn [run mmu_load mmu_memory]. rewrite Nat2Z.id, wr_spec by assumption.
  cbn [run decode_of rd]. unfold next_pc, cont_pc. rewrite put_reg_pc, Hp, swrap_small; [reflexivity | lia |].
  destruct Ho as [(_ & _ & ->) | (_ & _ & ->)]; [apply in_s_word | apply swrap_range; lia].
Qed.

Lemma alu_addi : isa_alu fl 64 rv_op_addi = Some (Imm, fun a b => swrap 64 (a + b)).
Proof using Hi. unfold isa_alu. cbn. rewrite Hi. reflexivity. Qed.
Lemma alu_addiw : isa_alu fl 64 rv_op_addiw = Some (Imm, fun a b => swrap 32 (a + b)).
Proof using Hi. unfold isa_alu. cbn. rewrite Hi. reflexivity. Qed.
Lemma alu_or : isa_alu fl 64 rv_op_or = Some (Reg, fun a b => swrap 64 (a .| b)).
Proof using Hi. unfold isa_alu. cbn. rewrite Hi. reflexivity. Qed.
Lemma alu_left (w : Z) : w = 32 \/ w = 64 -> isa_alu fl 64 (shift_left w) = Some (Imm, fun a b => swrap w (a * 2 ^ (b mod w))).
Proof using Hi. intros [-> | ->]; unfold isa_alu; cbn; rewrite Hi; reflexivity. Qed.
Lemma alu_right (w : Z) : w = 32 \/ w = 64 -> isa_alu fl 64 (shift_right w) = Some (Imm, fun a b => swrap w (uwrap w a / 2 ^ (b mod w))).
Proof using Hi. intros [-> | ->]; unfold isa_alu; cbn; rewrite Hi; reflexivity. Qed.

(** ** The groups *)

Section Group.
Context (h : hart) (M : memory).
Hypothesis Hh : hart_wf 64 h.

(** The state after the first instruction, on which the second runs. *)
Lemma after_wf (p r v : Z) : in_u 64 p -> is_reg r -> in_s 64 v -> hart_wf 64 (set_pc p (put_reg r v h)).
Proof using Hh. intros Hp Hr Hv. apply at_pc_wf; [apply put_reg_wf; assumption | exact Hp]. Qed.
Lemma cont_range (d : jit_decode) : in_u 64 (cont_pc d).
Proof using. apply uwrap_range. lia. Qed.
Lemma get_put_same (r v : Z) : is_reg r -> r <> 0 -> get_reg (put_reg r v h) r = v.
Proof using Hh. intros Hr Hn. rewrite (get_put_reg 64) by assumption. rewrite Z.eqb_refl, (proj2 (Z.eqb_neq r 0)) by exact Hn. reflexivity. Qed.
Lemma get_put_other (r r' v : Z) : is_reg r -> is_reg r' -> r' <> r -> get_reg (put_reg r v h) r' = get_reg h r'.
Proof using Hh. intros Hr Hr' Hn. rewrite (get_put_reg 64) by assumption. rewrite (proj2 (Z.eqb_neq r' r)) by exact Hn. reflexivity. Qed.

Lemma end_two (a b p : jit_decode) : jd_pc b = cont_pc a -> member a -> member b -> jd_pc p = jd_pc a ->
  jd_sz p = uwrap 4 (inst_len a + inst_len b) -> end_pc p = cont_pc b.
Proof using.
  intros Eb [_ La _] [_ Lb _] Ep Es. unfold end_pc. rewrite Ep, Es. unfold cont_pc in *. fold (inst_len a) in Eb. fold (inst_len b).
  rewrite Eb, uwrap_add_l. rewrite (uwrap_small 4); [f_equal; lia | unfold in_u; change (2 ^ 4) with 16; lia].
Qed.
Lemma end_three (a b c p : jit_decode) : jd_pc b = cont_pc a -> jd_pc c = cont_pc b -> member a -> member b -> member c ->
  jd_pc p = jd_pc a -> jd_sz p = uwrap 4 (inst_len a + inst_len b + inst_len c) -> end_pc p = cont_pc c.
Proof using.
  intros Eb Ec [_ La _] [_ Lb _] [_ Lc _] Ep Es. unfold end_pc. rewrite Ep, Es. unfold cont_pc in *.
  fold (inst_len a) in Eb. fold (inst_len b) in Ec. fold (inst_len c).
  rewrite Ec, Eb. rewrite uwrap_add_l, <- (Z.add_assoc (uwrap 64 _)), uwrap_add_l. rewrite (uwrap_small 4); [| unfold in_u; change (2 ^ 4) with 16; lia]. f_equal. lia.
Qed.

(** The address of a pc-relative pair. *)
Lemma pair_address (a b : jit_decode) (o : jit_op) (r : Z) (sz : Z) : in_s 32 (jd_imm a + jd_imm b) ->
  la_addr (pseudo (jd_pc a) (jd_inst b) o r 0 0 (jd_imm a + jd_imm b) sz) = uwrap 64 (swrap 64 (branch_pc a) + jd_imm b).
Proof using.
  intros Hs. unfold la_addr, branch_pc, pseudo. cbn [jd_pc jd_imm]. rewrite (swrap_small 32) by (lia || exact Hs).
  rewrite <- (uwrap_add_l 64 (swrap 64 _)), uwrap_swrap, uwrap_idemp, uwrap_add_l. f_equal. lia.
Qed.

Lemma pc_group (a b : jit_decode) (o : rv_op) (o' : jit_op) :
  jd_op a = Rv rv_op_auipc -> jd_op b = Rv o -> pc_pair o = Some o' -> jd_rd a = jd_rd b -> jd_rd a = jd_rs1 b ->
  member a -> member b -> pair_ok a b -> jd_pc a = pc h ->
  let p := pseudo (jd_pc a) (jd_inst b) o' (jd_rd a) 0 0 (jd_imm a + jd_imm b) (inst_len a + inst_len b) in
  steps exec_fp fl [a; b] h M = fused_step o' p h M.
Proof using Hi Hh.
  intros Ea Eb Ho H1 H2 Ma Mb [Hn [Hs _]] Hp p. specialize (Hn ltac:(unfold held_back; rewrite Ea; reflexivity)). specialize (Hs Ea H2).
  pose proof (end_two a b p Hn Ma Mb eq_refl eq_refl) as He. pose proof (pair_address a b o' (jd_rd a) (inst_len a + inst_len b) Hs) as Hl.
  fold p in Hl. destruct Ma as [Wa _ _], Mb as [Wb _ _]. pose proof (jw_rd _ Wa) as Hrd.
  rewrite (step_cons a _ h _ M M Hp (auipc_guest a h M Ea Wa Hh Hp)). set (v := swrap 64 (branch_pc a)) in *.
  assert (Hv : in_s 64 v) by (apply swrap_range; lia). set (h1 := set_pc (cont_pc a) (put_reg (jd_rd a) v h)).
  assert (Hh1 : hart_wf 64 h1) by (apply after_wf; [apply cont_range | assumption | assumption]).
  assert (Hx : jd_rd a <> 0 -> get_reg h1 (jd_rs1 b) = v) by (intros; rewrite <- H2; apply get_put_same; assumption).
  assert (Hput : forall x, put_reg (jd_rd b) x h1 = set_pc (cont_pc a) (put_reg (jd_rd a) x h))
    by (intros; unfold h1; rewrite put_set_pc, <- H1, put_put_reg; reflexivity).
  assert (Hset : forall x y, (jd_rd a <> 0 -> x = y) -> set_pc (cont_pc b) (put_reg (jd_rd b) x h1) = set_pc (end_pc p) (put_reg (jd_rd a) y h)).
  { intros x y E. rewrite Hput, set_set_pc, He. f_equal. apply put_reg_ext, E. }
  destruct o; try discriminate Ho; injection Ho as <-; cbn [fused_step].
  - rewrite (step_cons b [] h1 _ M M Hn (load_guest rv_op_lw 4 (swrap 32) b h1 M ltac:(auto) Eb Wb Hh1 Hn)).
    cbn [steps]. do 2 f_equal. apply Hset. intros N. rewrite (Hx N), Hl. reflexivity.
  - rewrite (step_cons b [] h1 _ M M Hn (alu_guest _ _ _ b h1 M alu_addi Eb Wb Hh1 Hn I)).
    cbn [steps]. do 2 f_equal. apply Hset. intros N. rewrite (Hx N), Hl, swrap_uwrap. reflexivity.
  - rewrite (step_cons b [] h1 _ M M Hn (load_guest rv_op_ld 8 (swrap 64) b h1 M ltac:(auto) Eb Wb Hh1 Hn)).
    cbn [steps]. do 2 f_equal. apply Hset. intros N. rewrite (Hx N), Hl. reflexivity.
Qed.

Lemma call_group (a b : jit_decode) :
  jd_op a = Rv rv_op_auipc -> jd_op b = Rv rv_op_jalr -> jd_rd a = jd_rs1 b -> jd_rd b = rv_ireg_ra ->
  member a -> member b -> pair_ok a b -> jd_pc a = pc h ->
  let p := pseudo (jd_pc a) (jd_inst b) jit_op_call (jd_rd a) 0 0 (jd_imm a + jd_imm b) (inst_len a + inst_len b) in
  steps exec_fp fl [a; b] h M = fused_step jit_op_call p h M.
Proof using Hi Hh.
  intros Ea Eb H1 H2 Ma Mb [Hn [Hs Hc]] Hp p. specialize (Hn ltac:(unfold held_back; rewrite Ea; reflexivity)). specialize (Hs Ea H1).
  specialize (Hc Ea Eb H2 H1). pose proof (end_two a b p Hn Ma Mb eq_refl eq_refl) as He. destruct Ma as [Wa _ _], Mb as [Wb _ _].
  pose proof (jw_rd _ Wa) as Hrd. rewrite (step_cons a _ h _ M M Hp (auipc_guest a h M Ea Wa Hh Hp)). set (v := swrap 64 (branch_pc a)).
  assert (Hv : in_s 64 v) by (apply swrap_range; lia). set (h1 := set_pc (cont_pc a) (put_reg (jd_rd a) v h)).
  assert (Hh1 : hart_wf 64 h1) by (apply after_wf; [apply cont_range | assumption | assumption]).
  rewrite (step_cons b [] h1 _ M M Hn (jalr_guest b h1 M Eb Wb Hh1 Hn)). cbn [steps fused_step]. cbn [p pseudo jd_rd jd_pc jd_imm].
  rewrite Hc, Z.eqb_refl. unfold h1. rewrite <- H1, get_set_pc, get_put_same by (exact Hrd || (rewrite Hc; discriminate)).
  rewrite put_set_pc, set_set_pc, H2, Hc, put_put_reg, He. do 3 f_equal. apply even_part.
  rewrite (swrap_small 32) by (lia || exact Hs). unfold v, branch_pc. rewrite <- uwrap_add_l, uwrap_swrap, uwrap_idemp, uwrap_add_l. f_equal. lia.
Qed.

Lemma zextw_group (a b : jit_decode) :
  jd_op a = Rv rv_op_slli -> jd_op b = Rv rv_op_srli -> jd_imm a = 32 -> jd_imm b = 32 -> jd_rd a = jd_rd b -> jd_rd a = jd_rs1 b ->
  member a -> member b -> pair_ok a b -> jd_pc a = pc h ->
  let p := pseudo (jd_pc a) (jd_inst b) jit_op_zextw (jd_rd a) (jd_rs1 a) 0 0 (inst_len a + inst_len b) in
  steps exec_fp fl [a; b] h M = fused_step jit_op_zextw p h M.
Proof using Hi Hh.
  intros Ea Eb Ia Ib H1 H2 Ma Mb [Hn _] Hp p. specialize (Hn ltac:(unfold held_back; rewrite Ea; reflexivity)).
  pose proof (end_two a b p Hn Ma Mb eq_refl eq_refl) as He. destruct Ma as [Wa _ _], Mb as [Wb _ _]. pose proof (jw_rd _ Wa) as Hrd.
  rewrite (step_cons a _ h _ M M Hp (alu_guest rv_op_slli _ _ a h M (alu_left 64 (or_intror eq_refl)) Ea Wa Hh Hp ltac:(cbn; lia))).
  rewrite Ia. change (32 mod 64) with 32. set (v := swrap 64 (get_reg h (jd_rs1 a) * 2 ^ 32)).
  assert (Hv : in_s 64 v) by (apply swrap_range; lia). set (h1 := set_pc (cont_pc a) (put_reg (jd_rd a) v h)).
  assert (Hh1 : hart_wf 64 h1) by (apply after_wf; [apply cont_range | assumption | assumption]).
  rewrite (step_cons b [] h1 _ M M Hn (alu_guest rv_op_srli _ _ b h1 M (alu_right 64 (or_intror eq_refl)) Eb Wb Hh1 Hn ltac:(cbn; lia))).
  rewrite Ib. change (32 mod 64) with 32. cbn [steps fused_step]. cbn [p pseudo jd_rd jd_rs1]. unfold h1.
  rewrite put_set_pc, set_set_pc, <- H1, <- H2, put_put_reg, He, get_set_pc. do 3 f_equal.
  apply put_reg_ext. intros N. rewrite get_put_same by assumption. apply zext_value.
Qed.

Lemma addiwz_group (a b c : jit_decode) :
  jd_op a = Rv rv_op_addiw -> jd_op b = Rv rv_op_slli -> jd_op c = Rv rv_op_srli -> jd_imm b = 32 -> jd_imm c = 32 ->
  jd_rd a = jd_rs1 a -> jd_rd a = jd_rd b -> jd_rd a = jd_rs1 b -> jd_rd a = jd_rd c -> jd_rd a = jd_rs1 c ->
  member a -> member b -> member c -> pair_ok a b -> pair_ok b c -> jd_pc a = pc h ->
  let p := pseudo (jd_pc a) (jd_inst c) jit_op_addiwz (jd_rd a) 0 0 (jd_imm a) (inst_len a + inst_len b + inst_len c) in
  steps exec_fp fl [a; b; c] h M = fused_step jit_op_addiwz p h M.
Proof using Hi Hh.
  intros Ea Eb Ec Ib Ic A1 B1 B2 C1 C2 Ma Mb Mc [Hn _] [Hn' _] Hp p.
  specialize (Hn ltac:(unfold held_back; rewrite Ea; reflexivity)). specialize (Hn' ltac:(unfold held_back; rewrite Eb; reflexivity)).
  pose proof (end_three a b c p Hn Hn' Ma Mb Mc eq_refl eq_refl) as He. destruct Ma as [Wa _ _], Mb as [Wb _ _], Mc as [Wc _ _].
  pose proof (jw_rd _ Wa) as Hrd. pose proof (jw_imm _ Wa) as Himm.
  rewrite (step_cons a _ h _ M M Hp (alu_guest rv_op_addiw _ _ a h M alu_addiw Ea Wa Hh Hp I)).
  set (v := swrap 32 (get_reg h (jd_rs1 a) + jd_imm a)). set (h1 := set_pc (cont_pc a) (put_reg (jd_rd a) v h)).
  assert (Hh1 : hart_wf 64 h1) by (apply after_wf; [apply cont_range | assumption | apply in_s_word]).
  rewrite (step_cons b _ h1 _ M M Hn (alu_guest rv_op_slli _ _ b h1 M (alu_left 64 (or_intror eq_refl)) Eb Wb Hh1 Hn ltac:(cbn; lia))).
  rewrite Ib. change (32 mod 64) with 32. unfold h1 at 2. rewrite put_set_pc, set_set_pc, <- B1, <- B2, put_put_reg.
  set (v2 := swrap 64 (get_reg h1 (jd_rd a) * 2 ^ 32)). set (h2 := set_pc (cont_pc b) (put_reg (jd_rd a) v2 h)).
  assert (Hh2 : hart_wf 64 h2) by (apply after_wf; [apply cont_range | assumption | apply swrap_range; lia]).
  rewrite (step_cons c [] h2 _ M M Hn' (alu_guest rv_op_srli _ _ c h2 M (alu_right 64 (or_intror eq_refl)) Ec Wc Hh2 Hn' ltac:(cbn; lia))).
  rewrite Ic. change (32 mod 64) with 32. unfold h2 at 2. rewrite put_set_pc, set_set_pc, <- C1, <- C2, put_put_reg.
  cbn [steps fused_step]. cbn [p pseudo jd_rd jd_imm]. rewrite He. do 3 f_equal. apply put_reg_ext. intros N.
  unfold h2. rewrite get_set_pc, get_put_same by assumption. unfold v2, h1. rewrite get_set_pc, get_put_same, zext_value by assumption.
  unfold v. rewrite uwrap_swrap, <- A1, (swrap_small 32) by (lia || exact Himm). reflexivity.
Qed.

(** ** Rotations *)

Lemma half_value (w x n : Z) : 0 < n < w -> w = 32 \/ w = 64 ->
  swrap w (x * 2 ^ ((w - n) mod w)) = shifted_left w x n /\ swrap w (uwrap w x / 2 ^ (n mod w)) = shifted_right w x n.
Proof using. intros Hn Hw. rewrite !Z.mod_small by lia. split; reflexivity. Qed.

Section Rotation.
Context (w : Z) (a b c l r : jit_decode).
Hypothesis (Hw : w = 32 \/ w = 64) (Hv : halves w a b l r) (Hj : joins c l r).
Hypothesis (Ma : member a) (Mb : member b) (Mc : member c) (Pab : pair_ok a b) (Pbc : pair_ok b c) (Hp : jd_pc a = pc h).
Abbreviation x := (get_reg h (jd_rs1 l)).
Abbreviation n := (jd_imm r).

Lemma rotation_count : 0 < n < w.
Proof using Hw Hv Ma Mb.
  clear Hp Pab Pbc. destruct Hv as [Ho Hl Hr _ _ _ Him]. destruct Ma as [_ _ Ca], Mb as [_ _ Cb]. unfold count_in_range in Ca, Cb.
  destruct Hw as [-> | ->]; cbn in Hl, Hr; destruct Ho as [[-> ->] | [-> ->]]; rewrite Hl, Hr in *; lia.
Qed.

(** Both halves, whichever comes first. *)
Lemma halves_steps (ds : list jit_decode) :
  steps exec_fp fl (a :: b :: ds) h M
  = steps exec_fp fl ds (set_pc (cont_pc b) (put_reg (jd_rd l) (shifted_left w x n) (put_reg (jd_rd r) (shifted_right w x n) h))) M.
Proof using Hi Hh Hw Hv Ma Mb Pab Hp.
  clear Pbc. pose proof rotation_count as Hc. destruct Hv as [Ho Hl Hr (Nl & Nr & Nlr) Hf Hs Him].
  destruct (half_value w x n Hc Hw) as [E1 E2].
  assert (Hsl : forall y, shift_ok 64 (shift_left w) (w - n) /\ shift_ok 64 (shift_right w) n /\ in_s 64 (swrap w y)).
  { intros y. destruct Hw as [-> | ->]; cbn; (split; [lia | split; [lia |]]); [apply in_s_word | apply swrap_range; lia]. }
  assert (Hnx : jd_pc b = cont_pc a).
  { apply Pab. unfold held_back. destruct Ho as [[-> _] | [-> _]]; [rewrite Hl | rewrite Hr]; destruct Hw as [-> | ->]; reflexivity. }
  assert (Rl : is_reg (jd_rd l) /\ is_reg (jd_rd r) /\ is_reg (jd_rs1 l)).
  { destruct Ma as [[? ? _ _ _] _ _], Mb as [[? ? _ _ _] _ _]. destruct Ho as [[-> ->] | [-> ->]]; auto. }
  destruct Rl as (Rl & Rr & Rs). destruct Ma as [Wa _ _], Mb as [Wb _ _].
  destruct Ho as [[-> ->] | [-> ->]].
  - rewrite (step_cons l _ h _ M M Hp (alu_guest (shift_left w) _ _ l h M (alu_left w Hw) Hl Wa Hh Hp ltac:(rewrite Him; apply (Hsl 0)))).
    set (h1 := set_pc (cont_pc l) _). assert (Hh1 : hart_wf 64 h1) by (apply after_wf; [apply cont_range | assumption | apply Hsl]).
    rewrite (step_cons r _ h1 _ M M Hnx (alu_guest (shift_right w) _ _ r h1 M (alu_right w Hw) Hr Wb Hh1 Hnx ltac:(apply (Hsl 0)))).
    unfold h1. rewrite put_set_pc, set_set_pc, get_set_pc, <- Hs, get_put_other by auto. rewrite Him, E1, E2.
    rewrite (put_put_comm (jd_rd r)) by auto. reflexivity.
  - rewrite (step_cons r _ h _ M M Hp (alu_guest (shift_right w) _ _ r h M (alu_right w Hw) Hr Wa Hh Hp ltac:(apply (Hsl 0)))).
    set (h1 := set_pc (cont_pc r) _). assert (Hh1 : hart_wf 64 h1) by (apply after_wf; [apply cont_range | assumption | apply Hsl]).
    rewrite (step_cons l _ h1 _ M M Hnx (alu_guest (shift_left w) _ _ l h1 M (alu_left w Hw) Hl Wb Hh1 Hnx ltac:(rewrite Him; apply (Hsl 0)))).
    unfold h1. rewrite put_set_pc, set_set_pc, get_set_pc, <- Hs, get_put_other by (auto; rewrite Hs; auto). rewrite Him, E1, E2. reflexivity.
Qed.

Lemma rotation_regs : is_reg (jd_rd l) /\ is_reg (jd_rd r) /\ jd_rd l <> 0 /\ jd_rd r <> 0 /\ jd_rd l <> jd_rd r.
Proof using Hv Ma Mb Hp Pab Pbc.
  destruct Hv as [Ho _ _ (Nl & Nr & Nlr) _ _ _]. destruct Ma as [[? _ _ _ _] _ _], Mb as [[? _ _ _ _] _ _].
  destruct Ho as [[-> ->] | [-> ->]]; auto.
Qed.

(** The three together, [dest] being the register of [c]. *)
Lemma rotation_steps (dest : Z) : jd_rd c = dest -> is_reg dest ->
  steps exec_fp fl [a; b; c] h M
  = Some (set_pc (cont_pc c) (put_reg dest (rotated w x n) (put_reg (jd_rd l) (shifted_left w x n) (put_reg (jd_rd r) (shifted_right w x n) h))), M).
Proof using Hi Hh Hw Hv Hj Ma Mb Mc Pab Pbc Hp.
  intros Ed Rd. rewrite halves_steps. pose proof rotation_count as Hc. destruct rotation_regs as (Rl & Rr & Nl & Nr & Nlr).
  assert (Hword : forall y, in_s 64 (swrap w y)) by (intros; apply (in_s_mono w); [lia | apply swrap_range; lia]).
  set (g := put_reg (jd_rd r) (shifted_right w x n) h). assert (Hg : hart_wf 64 g) by (apply put_reg_wf; [exact Hh | exact Rr | apply Hword]).
  set (k := put_reg (jd_rd l) (shifted_left w x n) g). assert (Hk : hart_wf 64 k) by (apply put_reg_wf; [exact Hg | exact Rl | apply Hword]).
  assert (Hnx : jd_pc c = cont_pc b).
  { apply Pbc. unfold held_back. destruct Hv as [[[_ ->] | [_ ->]] El Er _ _ _ _]; [rewrite Er | rewrite El]; destruct Hw as [-> | ->]; reflexivity. }
  assert (Hl : get_reg k (jd_rd l) = shifted_left w x n)
    by (unfold k; rewrite (get_put_reg 64), Z.eqb_refl, (proj2 (Z.eqb_neq _ 0) Nl) by assumption; reflexivity).
  assert (Hr : get_reg k (jd_rd r) = shifted_right w x n).
  { unfold k. rewrite (get_put_reg 64), (proj2 (Z.eqb_neq (jd_rd r) (jd_rd l))) by (assumption || auto). cbn [andb].
    unfold g. rewrite (get_put_reg 64), Z.eqb_refl, (proj2 (Z.eqb_neq _ 0) Nr) by assumption. reflexivity. }
  destruct Hj as [Eo Hsrc]. assert (Hwf : hart_wf 64 (set_pc (cont_pc b) k)) by (apply at_pc_wf; [exact Hk | apply cont_range]).
  rewrite (step_cons c [] (set_pc (cont_pc b) k) _ M M Hnx (alu_guest rv_op_or _ _ c (set_pc (cont_pc b) k) M alu_or Eo (mb_wf _ Mc) Hwf Hnx I)).
  rewrite put_set_pc, set_set_pc, !get_set_pc, Ed. cbn [steps]. do 4 f_equal.
  destruct (rotation_value w x n Hc ltac:(lia)) as [V1 V2]. destruct Hsrc as [[-> ->] | [-> ->]]; rewrite Hl, Hr; assumption.
Qed.

Lemma rotation_end (p : jit_decode) : jd_pc p = jd_pc a -> jd_sz p = uwrap 4 (inst_len a + inst_len b + inst_len c) -> end_pc p = cont_pc c.
Proof using Hw Hv Ma Mb Mc Pab Pbc.
  clear Hp Hj. intros E1 E2. assert (Hnx : held_back a = true /\ held_back b = true).
  { unfold held_back. destruct Hv as [[[-> ->] | [-> ->]] El Er _ _ _ _]; rewrite El, Er; destruct Hw as [-> | ->]; split; reflexivity. }
  apply (end_three a b c p); auto; [apply Pab | apply Pbc]; apply Hnx.
Qed.

Lemma rr_group : jd_rd c = jd_rd l ->
  let p := pseudo (jd_pc a) (jd_inst c) (op_rr w) (jd_rd l) (jd_rs1 l) (jd_rd r) n (inst_len a + inst_len b + inst_len c) in
  steps exec_fp fl [a; b; c] h M = fused_step (op_rr w) p h M.
Proof using Hi Hh Hw Hv Hj Ma Mb Mc Pab Pbc Hp.
  intros Ed p. destruct rotation_regs as (Rl & Rr & Nl & Nr & Nlr). rewrite (rotation_steps (jd_rd l) Ed Rl), put_put_reg.
  pose proof rotation_count as Hc. assert (En : jd_imm p = n) by (apply swrap_small; [lia |]; unfold in_s; change (2 ^ (32 - 1)) with 2147483648; lia).
  rewrite <- (rotation_end p eq_refl eq_refl). destruct Hw as [E | E]; rewrite E in *; cbn [op_rr Z.eqb Pos.eqb fused_step]; rewrite En; reflexivity.
Qed.
Lemma lr_group : jd_rd c = jd_rd r ->
  let p := pseudo (jd_pc a) (jd_inst c) (op_lr w) (jd_rd r) (jd_rs1 l) (jd_rd l) n (inst_len a + inst_len b + inst_len c) in
  steps exec_fp fl [a; b; c] h M = fused_step (op_lr w) p h M.
Proof using Hi Hh Hw Hv Hj Ma Mb Mc Pab Pbc Hp.
  intros Ed p. destruct rotation_regs as (Rl & Rr & Nl & Nr & Nlr).
  rewrite (rotation_steps (jd_rd r) Ed Rr), (put_put_comm (jd_rd l)), put_put_reg by auto.
  pose proof rotation_count as Hc. assert (En : jd_imm p = n) by (apply swrap_small; [lia |]; unfold in_s; change (2 ^ (32 - 1)) with 2147483648; lia).
  rewrite <- (rotation_end p eq_refl eq_refl). destruct Hw as [E | E]; rewrite E in *; cbn [op_lr Z.eqb Pos.eqb fused_step]; rewrite En; reflexivity.
Qed.
End Rotation.
End Group.

(** A group and its pseudo-instruction. *)
Lemma group_steps (g : list jit_decode) (p : jit_decode) (h : hart) (M : memory) :
  fuses g p -> Forall member g -> pairs_ok g -> hart_wf 64 h -> steps exec_fp fl g h M = steps exec_fp fl [p] h M.
Proof using Hi.
  intros Hf Hm Hpk Hh.
  assert (Hhead : exists a g', g = a :: g' /\ jd_pc p = jd_pc a) by (destruct Hf; eauto).
  destruct Hhead as (a & g' & -> & Ep). destruct (Z.eqb_spec (jd_pc a) (pc h)) as [Hp | Hp].
  2:{ cbn [steps]. rewrite Ep, (proj2 (Z.eqb_neq _ _) Hp). reflexivity. }
  assert (Eone : forall o, jd_op p = Fused o -> steps exec_fp fl [p] h M = fused_step o p h M).
  { intros o Eo. cbn [steps]. rewrite Ep, Hp, Z.eqb_refl. unfold guest_step. rewrite Eo. destruct (fused_step o p h M) as [[? ?] |]; reflexivity. }
  repeat match goal with H : Forall _ (_ :: _) |- _ => apply Forall_cons in H as [? H] end.
  inversion Hf; subst; rewrite (Eone _ eq_refl);
    repeat match goal with H : Forall _ (_ :: _) |- _ => apply Forall_cons in H as [? H] end;
    cbn [adjacent] in Hpk; repeat match goal with H : _ /\ _ |- _ => destruct H end.
  - eapply pc_group; eauto.
  - apply call_group; auto.
  - apply zextw_group; auto.
  - apply addiwz_group; auto.
  - eapply rr_group; eauto.
  - eapply lr_group; eauto.
Qed.

(** ** Regrouped traces *)

Hypothesis (Hm : rvm fl = true).

(** A decoded instruction the tracer supports. *)
Record inst_ok (d : jit_decode) : Prop := {
  io_op : exists o, jd_op d = Rv o /\ rv_supported o = true /\ ranged (decode_of o d);
  io_pc : jd_pc d mod 2 = 0; io_len : inst_len d = 2 \/ inst_len d = 4; io_count : count_in_range d }.
Lemma inst_member (d : jit_decode) : inst_ok d -> member d.
Proof using. intros [(o & _ & _ & [A B C D _]) Hp Hl Hc]. split; [split; assumption | exact Hl | exact Hc]. Qed.

Lemma guest_wf (d : jit_decode) (h h' : hart) (M M' : memory) :
  inst_ok d -> hart_wf 64 h -> bytes M -> guest_step exec_fp fl d h M = Some (h', M') -> hart_wf 64 h' /\ bytes M'.
Proof using Hi Hm.
  intros [(o & Eo & Hs & Hr) _ Hl _] Hh HM Hg. unfold guest_step, inst_step_at in Hg. rewrite Eo in Hg.
  destruct (run _ M) as [[h1 M1] off | |] eqn:Er; [| discriminate Hg | discriminate Hg]. injection Hg as <- <-.
  assert (Hev : every (request_ok 64 h) (result_ok 64 (decode_of o d) h) (exec_inst exec_fp fl 64 (decode_of o d) h (inst_length (jd_inst d)))).
  { apply (supported_every exec_fp fl Hi Hm); [exact Hs | exact Hh | apply Hr | | apply Hr].
    apply (step_offset_ok (inst_length (jd_inst d))). fold (inst_len d). lia. }
  apply every_run with (M := M) (h := h1) (M' := M1) (a := off) in Hev; [| | exact HM | exact Er].
  - destruct Hev as [[[Hw _ _ _ _ _] _] HM1]. split; [apply at_pc_wf; [exact Hw | apply uwrap_range; lia] | exact HM1].
  - intros h0 sz va [[Hsz | [Hsz | [Hsz | Hsz]]] _]; lia.
Qed.
Lemma steps_app (ds ds' : list jit_decode) (h : hart) (M : memory) :
  steps exec_fp fl (ds ++ ds') h M = p ← steps exec_fp fl ds h M; steps exec_fp fl ds' (fst p) (snd p).
Proof using.
  revert h M. induction ds as [| d ds IH]; intros h M; [reflexivity |]. cbn [app steps].
  destruct (jd_pc d =? pc h); [| reflexivity]. destruct (guest_step exec_fp fl d h M) as [[h1 M1] |]; [apply IH | reflexivity].
Qed.
Lemma steps_wf (ds : list jit_decode) : forall (h h' : hart) (M M' : memory),
  Forall inst_ok ds -> hart_wf 64 h -> bytes M -> steps exec_fp fl ds h M = Some (h', M') -> hart_wf 64 h' /\ bytes M'.
Proof using Hi Hm.
  induction ds as [| d ds IH]; intros h h' M M' Hd Hh HM E; [injection E as <- <-; auto |]. apply Forall_cons in Hd as [Hd Hds].
  cbn [steps] in E. destruct (jd_pc d =? pc h); [| discriminate E].
  destruct (guest_step exec_fp fl d h M) as [[h1 M1] |] eqn:Eg; [| discriminate E].
  destruct (guest_wf d h h1 M M1 Hd Hh HM Eg) as [Hh1 HM1]. exact (IH h1 h' M1 M' Hds Hh1 HM1 E).
Qed.

(** Where the interpreter follows a trace, what may be held back goes to the next. *)
Lemma held_next (d : jit_decode) (h h' : hart) (M M' : memory) : inst_ok d -> held_back d = true -> hart_wf 64 h -> jd_pc d = pc h ->
  guest_step exec_fp fl d h M = Some (h', M') -> pc h' = cont_pc d.
Proof using Hi.
  intros Hd Hb Hh Hp Hg. destruct (inst_member d Hd) as [Hwf _ Hc]. destruct Hd as [(o & Eo & _) _ _ _].
  destruct (rv_op_eq_dec o rv_op_auipc) as [-> | Na].
  { rewrite auipc_guest in Hg by assumption. injection Hg as <- _. reflexivity. }
  assert (Ha : exists f, isa_alu fl 64 o = Some (Imm, f)).
  { unfold held_back in Hb. rewrite Eo in Hb. unfold isa_alu. rewrite Hi. destruct o; discriminate Hb || contradiction || (eexists; reflexivity). }
  destruct Ha as [f Ha]. rewrite (alu_guest o Imm f d h M Ha Eo Hwf Hh Hp) in Hg.
  - injection Hg as <- _. reflexivity.
  - unfold count_in_range in Hc. unfold held_back in Hb. rewrite Eo in Hb, Hc. destruct o; discriminate Hb || exact I || exact Hc.
Qed.
Lemma steps_head (d : jit_decode) (ds : list jit_decode) (h h' : hart) (M M' : memory) :
  steps exec_fp fl (d :: ds) h M = Some (h', M') -> jd_pc d = pc h.
Proof using. cbn [steps]. destruct (Z.eqb_spec (jd_pc d) (pc h)); [auto | discriminate]. Qed.
Lemma steps_pairs (ds : list jit_decode) : forall (last : list jit_decode) (h h' : hart) (M M' : memory),
  Forall inst_ok ds -> hart_wf 64 h -> bytes M -> steps exec_fp fl ds h M = Some (h', M') ->
  last = [] \/ (exists d, last = [d] /\ jd_pc d = pc h') -> adjacent pair_fits (ds ++ last) -> pairs_ok (ds ++ last).
Proof using Hi Hm.
  induction ds as [| d ds IH]; intros last h h' M M' Hd Hh HM E Hl Hf.
  - destruct Hl as [-> | (d & -> & _)]; cbn; auto.
  - apply Forall_cons in Hd as [Hd Hds]. pose proof (steps_head d ds h h' M M' E) as Hp. cbn [steps] in E. rewrite Hp, Z.eqb_refl in E.
    destruct (guest_step exec_fp fl d h M) as [[h1 M1] |] eqn:Eg; [| discriminate E].
    destruct (guest_wf d h h1 M M1 Hd Hh HM Eg) as [Hh1 HM1]. cbn [app adjacent] in Hf |- *. destruct Hf as [Hf1 Hf].
    split; [| exact (IH last h1 h' M1 M' Hds Hh1 HM1 E Hl Hf)].
    assert (Hnext : forall b, jd_pc b = pc h1 -> pair_fits d b -> pair_ok d b)
      by (intros b Eb Hb; split; [intros Hhb; rewrite Eb; exact (held_next d h h1 M M1 Hd Hhb Hh Hp Eg) | exact Hb]).
    destruct ds as [| b ds]; cbn [app] in Hf1 |- *.
    + destruct Hl as [-> | (b & -> & Eb)]; [exact I |]. injection E as <- <-. exact (Hnext b Eb Hf1).
    + exact (Hnext b (steps_head b ds h1 h' M1 M' E) Hf1).
Qed.

Lemma pairs_app (a b : list jit_decode) : pairs_ok (a ++ b) -> pairs_ok a /\ pairs_ok b.
Proof using.
  induction a as [| d a IH]; intros Hp; [split; [exact I | exact Hp] |]. cbn [app adjacent] in Hp. destruct Hp as [H1 H2].
  destruct (IH H2) as [Ha Hb]. split; [| exact Hb]. cbn [adjacent]. split; [| exact Ha]. destruct a; [exact I | exact H1].
Qed.
Lemma fuses_size (g : list jit_decode) (p : jit_decode) : fuses g p -> retired p = Z.of_nat (length g).
Proof using.
  destruct 1 as [? ? o ? ? ? Ho | | | | w ? ? ? ? ? Hw | w ? ? ? ? ? Hw]; try reflexivity.
  - destruct o; try discriminate Ho; injection Ho as <-; reflexivity.
  - destruct Hw as [-> | ->]; reflexivity.
  - destruct Hw as [-> | ->]; reflexivity.
Qed.

(** As far as the interpreter follows the regrouped trace, it follows the trace:
    to the same state, in as many instructions as are counted. *)
Lemma regroup_steps (ds ds' : list jit_decode) : regroup ds ds' -> forall (k : nat) (h h' : hart) (M M' : memory),
  Forall inst_ok ds -> pairs_ok ds -> hart_wf 64 h -> bytes M -> steps exec_fp fl (firstn k ds') h M = Some (h', M') ->
  exists j, (j <= length ds)%nat /\ Z.of_nat j = retired_all (firstn k ds') /\ steps exec_fp fl (firstn j ds) h M = Some (h', M').
Proof using Hi Hm.
  induction 1 as [| d ds ds' _ IH | g p ds ds' Hg _ IH]; intros k h h' M M' Hd Hp Hh HM E.
  - exists 0%nat. rewrite firstn_nil in *. auto.
  - destruct k as [| k]; [exists 0%nat; split; [lia | auto] |]. apply Forall_cons in Hd as [Hd Hds]. destruct Hp as [_ Hp].
    cbn [firstn steps] in E |- *. destruct (jd_pc d =? pc h) eqn:Epc; [| discriminate E].
    destruct (guest_step exec_fp fl d h M) as [[h1 M1] |] eqn:Eg; [| discriminate E].
    destruct (guest_wf d h h1 M M1 Hd Hh HM Eg) as [Hh1 HM1].
    destruct (IH k h1 h' M1 M' Hds Hp Hh1 HM1 E) as (j & Hj & Hn & Ej). exists (S j). cbn [length firstn steps retired_all fold_right].
    rewrite Epc, Eg. destruct Hd as [(o & Eo & _) _ _ _]. unfold retired at 1. rewrite Eo. split; [lia | split; [unfold retired_all in Hn; lia | exact Ej]].
  - destruct k as [| k]; [exists 0%nat; split; [lia | auto] |]. apply Forall_app in Hd as [Hd Hds]. apply pairs_app in Hp as [Hpg Hp].
    change (firstn (S k) (p :: ds')) with ([p] ++ firstn k ds') in *. rewrite steps_app in E.
    rewrite <- (group_steps g p h M Hg) in E by (assumption || (eapply Forall_impl; [exact Hd | exact inst_member])).
    destruct (steps exec_fp fl g h M) as [[h1 M1] |] eqn:Eg; [| discriminate E].
    destruct (steps_wf g h h1 M M1 Hd Hh HM Eg) as [Hh1 HM1].
    destruct (IH k h1 h' M1 M' Hds Hp Hh1 HM1 E) as (j & Hj & Hn & Ej). exists (length g + j)%nat.
    rewrite length_app, firstn_app_2, steps_app, Eg. cbn [app retired_all fold_right]. rewrite (fuses_size g p Hg).
    split; [lia | split; [unfold retired_all in Hn; lia | exact Ej]].
Qed.
End Groups.

(** ** Marks and directions, which the tracer sets *)

Definition bare (d : jit_decode) : jit_decode := set_brc false (set_brt false d).
Lemma steps_bare (exec_fp : decode -> hart -> Z -> io Z) (fl : flags) (ds : list jit_decode) (h : hart) (M : memory) :
  steps exec_fp fl (map bare ds) h M = steps exec_fp fl ds h M.
Proof.
  revert h M. induction ds as [| d ds IH]; intros h M; [reflexivity |]. cbn [map steps].
  change (guest_step exec_fp fl (bare d) h M) with (guest_step exec_fp fl d h M).
  change (jd_pc (bare d)) with (jd_pc d). destruct (jd_pc d =? pc h); [| reflexivity].
  destruct (guest_step exec_fp fl d h M) as [[h1 M1] |]; cbn; [apply IH | reflexivity].
Qed.
Lemma retired_bare (ds : list jit_decode) : retired_all (map bare ds) = retired_all ds.
Proof. unfold retired_all. induction ds as [| d ds IH]; [reflexivity |]. cbn [map fold_right]. rewrite IH. reflexivity. Qed.

Section Correct.
Context `{Jit} (exec_fp : decode -> hart -> Z -> io Z) (fl : flags).
Hypothesis (Hmmu : use_mmu = false) (Hi : rvi fl = true) (Hm : rvm fl = true).

Lemma regrouped_runs (ds ds' : list jit_decode) (h : hart) (M : memory) (s : xstate) :
  regroup ds (map bare ds') -> Forall inst_ok ds -> pairs_ok ds -> callable exec_fp fl ds' h M s ->
  exists j h' M' s' x, (0 < j <= length ds)%nat /\ steps exec_fp fl (firstn j ds) h M = Some (h', M')
    /\ runs documented (trace_function ds') None s s' x /\ returns ds' s h' M' s' x
    /\ ((exists l, e_exit_tramp (est_after ds') !! pc h' = Some l)
        \/ (update_instret = true -> pfield s' P_instret = uwrap 64 (pfield s P_instret + Z.of_nat j))).
Proof using Hmmu Hi Hm.
  intros Hg Hd Hp Hca. destruct (function_runs exec_fp fl ds' h M s Hmmu Hi Hca) as (k & h' & M' & s' & x & Hk & Hs & Hr & Hv & Ht).
  pose proof (ca_held _ _ _ _ _ _ Hca) as Hheld. rewrite <- steps_bare, <- firstn_map in Hs.
  destruct (regroup_steps exec_fp fl Hi Hm ds _ Hg k h h' M M' Hd Hp (hd_hart _ _ _ Hheld) (hd_bytes _ _ _ Hheld) Hs) as (j & Hj & Hn & Ej).
  exists j, h', M', s', x. rewrite firstn_map, retired_bare in Hn.
  assert (Hpos : 0 < retired_all (firstn k ds')).
  { destruct k as [| k]; [lia |]. destruct ds' as [| d ds']; [cbn in Hk; lia |]. cbn [firstn retired_all fold_right].
    pose proof (retired_range d). pose proof (retired_all_range (firstn k ds')) as Hrs. unfold retired_all in Hrs. lia. }
  split; [lia | split; [exact Ej | split; [exact Hr | split; [exact Hv |]]]].
  destruct Ht as [Ht | Ht]; [left; exact Ht | right]. intros Eu. rewrite (Ht Eu), Hn. reflexivity.
Qed.
End Correct.

(** C8: fused groups. The function [jit_trace] compiles for a trace in which
    [jit_fusion] has replaced groups of instructions runs, on any processor that
    follows the documentation and in the states of [callable], like the interpreter
    on the instructions one by one: it comes out after some of them, never inside a
    group, as C3 states, with the registers and memory the interpreter has there,
    with its program counter unless it is at its caller and the trace ends in
    [jalr], and having counted every instruction of the groups unless the program
    counter has an exit trampoline in the trace. The instructions are supported ones
    with shift counts in range and pairs whose address fits ([inst_ok], [pairs_ok]).
    [callable] excepts, besides what C3 lists, the groups of which the code is not
    exact ([fused_exact]): a zero extension to [x0]; a rotation to or through [x0],
    by zero, or into its own temporary, and one of three registers placed so that
    the code leaves bits of the old value ([rorwi_residual], [rordi_residual]); an
    [addiwz] to a register of the host; a call that does not link in [ra]
    ([call_temporary]); and a load relative to [auipc] from an address between 2^31
    and 2^32. *)
Theorem fused_function_correct `{Cpu} `{Jit} (exec_fp : decode -> hart -> Z -> io Z) (fl : flags) (ds ds' : list jit_decode)
    (h : hart) (M : memory) (s : xstate) :
  use_mmu = false -> rvi fl = true -> rvm fl = true ->
  regroup ds (map bare ds') -> Forall inst_ok ds -> pairs_ok ds -> callable exec_fp fl ds' h M s ->
  exists j h' M' s' x, (0 < j <= length ds)%nat /\ steps exec_fp fl (firstn j ds) h M = Some (h', M')
    /\ runs cpu_step (trace_function ds') None s s' x /\ returns ds' s h' M' s' x
    /\ ((exists l, e_exit_tramp (est_after ds') !! pc h' = Some l)
        \/ (update_instret = true -> pfield s' P_instret = uwrap 64 (pfield s P_instret + Z.of_nat j))).
Proof.
  intros Hmmu Hi Hm Hg Hd Hp Hca.
  destruct (regrouped_runs exec_fp fl Hmmu Hi Hm ds ds' h M s Hg Hd Hp Hca) as (j & h' & M' & s' & x & Hj & Hs & Hr & Hv & Ht).
  exists j, h', M', s', x. split; [exact Hj | split; [exact Hs | split; [exact (runs_cpu _ _ _ _ _ Hr) | auto]]].
Qed.

(** ** An example *)

(** [loop: lw a0, 8(t0); slli a0, a0, 32; srli a0, a0, 32; auipc t1, 0; addi t1, t1, 16;
    slli t2, a0, 7; srli t3, a0, 57; or t3, t2, t3; addi t0, t0, 4; bne t3, x0, loop] *)
Definition group_ex : list jit_decode := [
  mkJit 0x10000 0x0082a503 8 (Rv rv_op_lw) 10 5 0 0 false false 0;
  mkJit 0x10004 0x02051513 32 (Rv rv_op_slli) 10 10 0 0 false false 0;
  mkJit 0x10008 0x02055513 32 (Rv rv_op_srli) 10 10 0 0 false false 0;
  mkJit 0x1000c 0x00000317 0 (Rv rv_op_auipc) 6 0 0 0 false false 0;
  mkJit 0x10010 0x01030313 16 (Rv rv_op_addi) 6 6 0 0 false false 0;
  mkJit 0x10014 0x00751393 7 (Rv rv_op_slli) 7 10 0 0 false false 0;
  mkJit 0x10018 0x03955e13 57 (Rv rv_op_srli) 28 10 0 0 false false 0;
  mkJit 0x1001c 0x01c3ee33 0 (Rv rv_op_or) 28 7 28 0 false false 0;
  mkJit 0x10020 0x00428293 4 (Rv rv_op_addi) 5 5 0 0 false false 0;
  mkJit 0x10024 0xfc0e1ee3 (-36) (Rv rv_op_bne) 0 28 0 0 false false 0].
(** A zero extension, the address of a symbol and a rotation. *)
Definition fused_ex : list jit_decode := [
  mkJit 0x10000 0x0082a503 8 (Rv rv_op_lw) 10 5 0 0 true false 0;
  mkJit 0x10004 0x02055513 0 (Fused jit_op_zextw) 10 10 0 0 false false 8;
  mkJit 0x1000c 0x01030313 16 (Fused jit_op_la) 6 0 0 0 false false 8;
  mkJit 0x10014 0x01c3ee33 57 (Fused jit_op_rordi_lr) 28 10 7 0 false false 12;
  mkJit 0x10020 0x00428293 4 (Rv rv_op_addi) 5 5 0 0 false false 0;
  mkJit 0x10024 0xfc0e1ee3 (-36) (Rv rv_op_bne) 0 28 0 0 false true 0].

Definition at_ex (i : nat) : jit_decode := nth i group_ex (op_alone rv_op_illegal).
Lemma fused_ex_regroup : regroup group_ex (map bare fused_ex).
Proof.
  apply regroup_one. apply (regroup_fused [at_ex 1; at_ex 2]); [apply (fuses_zextw (at_ex 1) (at_ex 2)); reflexivity |].
  apply (regroup_fused [at_ex 3; at_ex 4]); [apply (fuses_pc (at_ex 3) (at_ex 4) rv_op_addi jit_op_la); reflexivity |].
  apply (regroup_fused [at_ex 5; at_ex 6; at_ex 7]); [| apply regroup_refl].
  apply (fuses_lr 64 (at_ex 5) (at_ex 6) (at_ex 7) (at_ex 5) (at_ex 6)); [auto | | | reflexivity].
  - split; cbn; auto; lia.
  - split; cbn; auto.
Qed.
Lemma group_ex_ok : Forall inst_ok group_ex /\ pairs_ok group_ex.
Proof.
  split.
  - repeat (apply Forall_cons; split); [.. | apply Forall_nil; exact I].
    all: split; [eexists; split; [reflexivity | split; [reflexivity |]] | reflexivity | right; reflexivity | unfold count_in_range; cbn; lia || exact I].
    all: split; unfold is_reg, in_s, transfer_aligned; cbn; try lia; try exact I; reflexivity.
  - repeat split; try discriminate; reflexivity.
Qed.
Lemma fused_ex_callable : callable (H := jit_ex) no_fp RV_IMA fused_ex hart_trace memory_trace (host_ex hart_trace memory_trace).
Proof.
  split.
  - split; [discriminate | reflexivity].
  - vm_compute. auto 10.
  - repeat (constructor; [split; [reflexivity | split; unfold is_reg, in_s; cbn; try lia; reflexivity] |]). constructor.
  - vm_compute. repeat match goal with |- _ /\ _ => split | |- _ -> _ => intro | |- True => exact I end; try discriminate; auto; try (right; discriminate).
  - apply (bool_decide_unpack _). vm_compute. exact I.
  - exact (host_ex_held (H := jit_ex) _ _ hart_trace_wf memory_trace_bytes).
  - intros k h' M' Hk.
    assert (Hl : exists j, (j <= 6)%nat /\ firstn k fused_ex = firstn j fused_ex).
    { destruct (le_gt_dec k 6); [exists k; auto |]. exists 6%nat. split; [lia |]. rewrite !firstn_all2 by (cbn; lia). reflexivity. }
    destruct Hl as (j & Hj & E). rewrite E in Hk. clear E.
    do 7 (destruct j as [| j]; [vm_compute in Hk; injection Hk as <- _; vm_compute; (split; [split; [discriminate | reflexivity] | left; split; reflexivity]) |]). lia.
Qed.

Example fused_function_correct_witness :
  exists j h' M' s' x, (0 < j <= 10)%nat
    /\ steps no_fp RV_IMA (firstn j group_ex) hart_trace memory_trace = Some (h', M')
    /\ runs documented (trace_function (H := jit_ex) fused_ex) None (host_ex hart_trace memory_trace) s' x
    /\ returns (H := jit_ex) fused_ex (host_ex hart_trace memory_trace) h' M' s' x
    /\ ((exists l, e_exit_tramp (est_after (H := jit_ex) fused_ex) !! pc h' = Some l)
        \/ (update_instret (Jit := jit_ex) = true ->
            pfield s' P_instret = uwrap 64 (pfield (host_ex hart_trace memory_trace) P_instret + Z.of_nat j))).
Proof.
  destruct group_ex_ok as [Hd Hp].
  exact (fused_function_correct (H := plain_cpu) (H0 := jit_ex) no_fp RV_IMA group_ex fused_ex hart_trace memory_trace
           (host_ex hart_trace memory_trace) eq_refl eq_refl eq_refl fused_ex_regroup Hd Hp fused_ex_callable).
Defined.
