(* ===== verification/JitFusedRecord.v ===== *)
(** * Recording with fusion

    What [jit_trace] records when its tracer is [jit_fusion] around [jit_tracer]: the
    instructions the interpreter executed, regrouped; and how the function compiled
    for them runs. *)

From Stdlib Require Import ZArith Lia Bool List.
From stdpp Require Import base list option gmap.
From S2P Require Import Prelude Alu Meta Codec Decoder Ckpt Replay Interp Isa Mmu X86 Jit JitEmit JitProofs JitCorrect JitLabels.
From S2P Require Import JitFused JitTrace JitFunction Fields JitTracer JitRecord JitRecorded JitFusion JitGroups.

#[local] Open Scope Z_scope.
#[local] Open Scope word_scope.

(** ** The inner tracer *)

(** It keeps what it supports and has not seen, up to marks and directions. *)
Lemma bare_raw (d d' : jit_decode) : raw d = raw d' -> bare d = bare d'.
Proof. intros E. unfold bare. change (set_brt false d) with (raw d). rewrite E. reflexivity. Qed.
Lemma bare_traces (t t' : tracer) : map raw (t_trace t') = map raw (t_trace t) -> map bare (t_trace t') = map bare (t_trace t).
Proof.
  intros E. assert (Hm : forall l : list jit_decode, map bare l = map (set_brc false) (map raw l)) by (intros; rewrite map_map; reflexivity).
  rewrite !Hm, E. reflexivity.
Qed.

(** One call, for an instruction at a new program counter: whether it is kept. *)
Lemma tracer_keeps (h : hart) (d : jit_decode) (t t' : tracer) (b : bool) :
  bare d = d -> t_labels t !! jd_pc d = None -> tracer_emit h d t = Some (b, t') ->
  t_labels t' = <[jd_pc d := t_inst_num t]> (t_labels t)
  /\ (map bare (t_trace t') = map bare (t_trace t) ++ [d] \/ b = false /\ t_trace t' = t_trace t)
  /\ (b = true -> supported_op d = true)
  /\ (supported_op d = true -> map bare (t_trace t') = map bare (t_trace t) ++ [d]).
Proof.
  intros Ed El. assert (Hpush : forall l, map bare (l ++ [d]) = map bare l ++ [d]) by (intros; rewrite map_app; cbn; rewrite Ed; reflexivity).
  destruct (jd_op d) as [o | o] eqn:Eo.
  - destruct (rv_op_eq_dec o rv_op_jal) as [-> | Njal].
    { unfold tracer_emit. rewrite El, Eo. intros E. injection E as <- <-. rewrite (supported_rv _ d Eo).
      destruct (jd_rd d =? rv_ireg_ra); cbn [push_trace push_callstack t_labels t_trace]; rewrite Hpush; auto. }
    destruct (rv_op_eq_dec o rv_op_jalr) as [-> | Njalr].
    { unfold tracer_emit. rewrite El, Eo. rewrite (supported_rv _ d Eo).
      destruct (_ && _); intros E; injection E as <- <-; [| destruct (jd_rd d =? rv_ireg_ra)];
        cbn [push_trace push_callstack pop_callstack t_labels t_trace]; rewrite Hpush; auto. }
    destruct (is_branch o) eqn:Hb.
    + rewrite (emit_branch_spec h d t o Eo Hb El). destruct (branch_cond h o d) as [c |]; cbn [mbind option_bind]; [| discriminate].
      destruct (label_block (branch_pc d) (entered d t)) as [t1 |] eqn:E1; cbn [mbind option_bind]; [| discriminate].
      destruct (label_block (cont_pc d) t1) as [t2 |] eqn:E2; cbn [mbind option_bind]; [| discriminate].
      intros E. injection E as <- <-. destruct (label_block_marks _ _ _ E1) as [A1 _ _ A4]. destruct (label_block_marks _ _ _ E2) as [B1 _ _ B4].
      assert (Et : map bare (t_trace (push_trace (set_brc c d) t2)) = map bare (t_trace t) ++ [d]).
      { cbn [push_trace t_trace]. rewrite map_app. cbn [map]. change (bare (set_brc c d)) with (bare d). rewrite Ed.
        rewrite (bare_traces _ _ B4), (bare_traces _ _ A4). reflexivity. }
      rewrite Et. cbn [push_trace t_labels]. rewrite B1, A1, (supported_rv o d Eo).
      assert (Hsup : rv_supported o = true) by (destruct o; reflexivity || discriminate Hb). auto.
    + rewrite (emit_plain h d t o Eo Hb Njal Njalr El). destruct (supported_op d) eqn:Hs; intros E; injection E as <- <-;
        cbn [push_trace entered t_labels t_trace]; rewrite ?Hpush; split_and!; auto; discriminate.
  - assert (Hs : supported_op d = true) by (unfold supported_op; rewrite Eo; destruct o; reflexivity).
    unfold tracer_emit. rewrite El, Eo, Hs. intros E.
    destruct o; injection E as <- <-; cbn [push_trace push_callstack t_labels t_trace]; rewrite Hpush; auto.
Qed.

(** ** What has been fed *)

Lemma sublist_In {A} (l k : list A) : l `sublist_of` k -> forall x, In x l -> In x k.
Proof. induction 1; intros y Hy; cbn in *; intuition. Qed.
Lemma sublist_NoDup {A} (l k : list A) : l `sublist_of` k -> NoDup k -> NoDup l.
Proof.
  induction 1 as [| x l k Hs IH | x l k Hs IH]; intros Hk; [constructor | |]; apply NoDup_cons in Hk as [Hx Hk]; [| auto].
  apply NoDup_cons. split; [| auto]. intros Hin. apply Hx. apply list_elem_of_In, (sublist_In l k Hs), list_elem_of_In, Hin.
Qed.

Abbreviation pcs := (map jd_pc).

(** Each element of a regrouped trace is where an instruction of the trace is. *)
Lemma regroup_pcs (ds ds' : list jit_decode) : regroup ds ds' -> pcs ds' `sublist_of` pcs ds.
Proof.
  induction 1 as [| d ds ds' _ IH | g p ds ds' Hg _ IH]; [constructor | cbn; constructor; exact IH |].
  rewrite map_app. assert (E : exists g', pcs g = jd_pc p :: g') by (destruct Hg; eexists; reflexivity). destruct E as [g' ->].
  cbn [map app]. constructor. apply sublist_inserts_l, IH.
Qed.
Lemma regrouped_NoDup (ds ds' q : list jit_decode) : regroup ds ds' -> NoDup (pcs (ds ++ q)) -> NoDup (pcs (ds' ++ q)).
Proof. intros Hg. apply sublist_NoDup. rewrite !map_app. apply sublist_app; [exact (regroup_pcs _ _ Hg) | reflexivity]. Qed.

(** The inner tracer has kept exactly [L]. *)
Record feeds (L : list jit_decode) (t : tracer) : Prop := {
  fe_trace : map bare (t_trace t) = L; fe_labels : forall p, is_Some (t_labels t !! p) -> In p (pcs L) }.
Lemma fed_nothing : feeds [] tracer_new.
Proof. split; [reflexivity |]. intros p [i E]. discriminate E. Qed.

Record kept (d : jit_decode) : Prop := { kp_bare : bare d = d; kp_supported : supported_op d = true }.

Lemma not_seen (L : list jit_decode) (t : tracer) (p : Z) : feeds L t -> ~ In p (pcs L) -> t_labels t !! p = None.
Proof. intros [_ Hl] Hn. destruct (t_labels t !! p) eqn:E; [| reflexivity]. destruct Hn. apply Hl. eauto. Qed.
Lemma last_fresh (L : list jit_decode) (d : jit_decode) : NoDup (pcs (L ++ [d])) -> ~ In (jd_pc d) (pcs L).
Proof. rewrite map_app. intros H Hin. apply NoDup_app in H as (_ & H & _). apply (H (jd_pc d)); [apply list_elem_of_In, Hin | constructor]. Qed.
Lemma feeds_one (h : hart) (d : jit_decode) (t t' : tracer) (b : bool) (L : list jit_decode) :
  feeds L t -> kept d -> NoDup (pcs (L ++ [d])) -> tracer_emit h d t = Some (b, t') -> feeds (L ++ [d]) t'.
Proof.
  intros Hf [Hb Hs] Hn He. destruct (tracer_keeps h d t t' b Hb (not_seen L t _ Hf (last_fresh L d Hn)) He) as (El & _ & _ & Ht).
  destruct Hf as [Htr Hl]. split; [rewrite (Ht Hs), Htr; reflexivity |]. intros p. rewrite El, map_app, in_app_iff. intros [i E].
  destruct (Z.eq_dec (jd_pc d) p) as [<- | Hp]; [right; left; reflexivity |]. left. rewrite lookup_insert_ne in E by exact Hp. apply Hl. eauto.
Qed.
Lemma feeds_list (h : hart) (q : list jit_decode) : forall (t t' : tracer) (L : list jit_decode),
  feeds L t -> Forall kept q -> NoDup (pcs (L ++ q)) -> emit_list h q t = Some t' -> feeds (L ++ q) t'.
Proof.
  induction q as [| d q IH]; intros t t' L Hf Hk Hn E.
  - injection E as <-. rewrite app_nil_r. exact Hf.
  - apply Forall_cons in Hk as [Hd Hq]. cbn [emit_list] in E. unfold emit_inner in E. cbn [tr_emit plain_tracer] in E.
    destruct (tracer_emit h d t) as [[b t1] |] eqn:Ee; [| discriminate E]. cbn [fmap option_fmap option_map mbind option_bind snd] in E.
    change (d :: q) with ([d] ++ q) in *. rewrite app_assoc in *. apply (IH t1 t' (L ++ [d])); try assumption.
    apply (feeds_one h d t t1 b L Hf Hd); [| exact Ee]. rewrite map_app in Hn. apply NoDup_app in Hn as [Hn _]. exact Hn.
Qed.

(** ** What the fusion has been shown *)

Record plain_inst (d : jit_decode) : Prop := { pi_bare : bare d = d; pi_op : exists o, jd_op d = Rv o }.

(** All of [es], the end of it still held back. *)
Definition recorded_as (es : list jit_decode) (f : fusion tracer) : Prop :=
  exists c L, es = c ++ f_queue f /\ regroup c L /\ feeds L (f_inner f) /\ waiting f /\ Forall kept es.

Lemma waiting_queue (f : fusion tracer) : waiting f -> Forall (fun a => held_back a = true) (f_queue f).
Proof.
  unfold waiting, waits_second, waits_or, begun, held_back. destruct (f_state f); intros Hw.
  1: rewrite Hw; constructor.
  all: repeat match goal with H : exists _, _ |- _ => destruct H | H : _ /\ _ |- _ => destruct H end;
    match goal with E : f_queue _ = _ |- _ => rewrite E end.
  all: try match goal with H : half _ _ |- _ => destruct H as [? _ _] end;
    try match goal with H : halves _ _ _ _ _ |- _ => destruct H as [[[-> ->] | [-> ->]] ? ? _ _ _ _] end;
    rewrite ?Forall_cons, Forall_nil; repeat split; repeat match goal with H : jd_op _ = _ |- _ => rewrite H end; reflexivity.
Qed.
Lemma held_supported (d : jit_decode) : held_back d = true -> supported_op d = true.
Proof.
  unfold held_back. destruct (jd_op d) as [o |] eqn:Eo; [| discriminate]. intros Hh. rewrite (supported_rv o d Eo).
  destruct o; reflexivity || discriminate Hh.
Qed.
Lemma fuses_supported (g : list jit_decode) (p : jit_decode) : fuses g p -> kept p /\ Forall (fun d => supported_op d = true) g.
Proof.
  assert (Hs : forall o d, jd_op d = Rv o -> rv_supported o = true -> supported_op d = true) by (intros o d E <-; apply supported_rv, E).
  assert (Hp : forall p0 i o r s1 s2 im z, kept (pseudo p0 i o r s1 s2 im z)) by (intros; split; [reflexivity | destruct o; reflexivity]).
  intros Hg. split; [destruct Hg; apply Hp |].
  destruct Hg as [a b o o' Ha Hb Ho _ _ | a b Ha Hb _ _ | a b Ha Hb _ _ _ _ | a b c Ha Hb Hc _ _ _ _ _ _ _
    | w a b c l r Hw [Ho Hl Hr _ _ _ _] [Hj _] _ | w a b c l r Hw [Ho Hl Hr _ _ _ _] [Hj _] _].
  1: destruct o; try discriminate Ho.
  all: try (repeat constructor; eapply Hs; eauto; reflexivity).
  all: destruct Ho as [[-> ->] | [-> ->]]; destruct Hw as [-> | ->]; repeat constructor; eapply Hs; eauto; reflexivity.
Qed.

(** ** One call *)

Lemma tracer_accepts (h : hart) (d : jit_decode) (t t' : tracer) (L : list jit_decode) :
  feeds L t -> plain_inst d -> ~ In (jd_pc d) (pcs L) -> tracer_emit h d t = Some (true, t') -> kept d.
Proof.
  intros Hf [Hb _] Hn He. split; [exact Hb |]. destruct (tracer_keeps h d t t' true Hb (not_seen L t _ Hf Hn) He) as (_ & _ & Hs & _).
  exact (Hs eq_refl).
Qed.

(** What was held back has been given to the inner tracer. *)
Lemma recorded_flush (h : hart) (f : fusion tracer) (es : list jit_decode) (t : tracer) :
  recorded_as es f -> NoDup (pcs es) -> emit_list h (f_queue f) (f_inner f) = Some t -> exists L, regroup es L /\ feeds L t.
Proof.
  intros (c & L & -> & Hg & Hf & _ & Hk) Hn E. apply Forall_app in Hk as [_ Hq]. exists (L ++ f_queue f). split.
  - apply regroup_app; [exact Hg | apply regroup_refl].
  - exact (feeds_list h _ _ _ _ Hf Hq (regrouped_NoDup _ _ _ Hg Hn) E).
Qed.

Lemma recorded_accept (h : hart) (d : jit_decode) (f f' : fusion tracer) (es : list jit_decode) :
  recorded_as es f -> plain_inst d -> NoDup (pcs (es ++ [d])) -> fusion_emit h d f = Some (true, f') ->
  supported_op d = true /\ recorded_as (es ++ [d]) f'.
Proof.
  intros Hr Hd Hn He. pose proof Hr as (c & L & Ees & Hg & Hf & Hw & Hk). pose proof Hd as [Hb _].
  assert (Hnes : NoDup (pcs es)) by (rewrite map_app in Hn; apply NoDup_app in Hn as [Hn _]; exact Hn).
  assert (Hsup : forall q, f_queue f' = q ++ [d] -> waiting f' -> supported_op d = true).
  { intros q Eq Hw'. pose proof (waiting_queue f' Hw') as Hq. rewrite Eq in Hq. apply Forall_app in Hq as [_ Hq].
    apply Forall_cons in Hq as [Hq _]. exact (held_supported d Hq). }
  assert (Hall : supported_op d = true -> Forall kept (es ++ [d])) by (intros Hs; apply Forall_app; split; [exact Hk | repeat constructor; assumption]).
  remember true as b eqn:Eb in He.
  destruct (fusion_moves h d f f' b Hw He) as [f' Ei Eq Hw' | f' El Eq Hw' | p f' Hp Ei Eq Hw' | b t f' El Ee Eq Hw'].
  - pose proof (Hsup (f_queue f) Eq Hw') as Hs. split; [exact Hs |]. exists c, L. rewrite Eq, Ei, app_assoc, Ees, <- Ees. auto 6.
  - pose proof (Hsup [] Eq Hw') as Hs. split; [exact Hs |]. destruct (recorded_flush h f es _ Hr Hnes El) as (L' & Hg' & Hf').
    exists es, L'. rewrite Eq. auto 6.
  - destruct (fuses_supported _ _ Hp) as [Hkp Hs]. apply Forall_app in Hs as [_ Hs]. apply Forall_cons in Hs as [Hs _]. split; [exact Hs |].
    assert (Hg' : regroup (es ++ [d]) (L ++ [p])).
    { rewrite Ees, <- app_assoc. apply regroup_app; [exact Hg |]. rewrite <- (app_nil_r (_ ++ [d])). constructor; [exact Hp | constructor]. }
    exists (es ++ [d]), (L ++ [p]). rewrite Eq, app_nil_r. unfold emit_inner in Ei. cbn [tr_emit plain_tracer] in Ei.
    destruct (tracer_emit h p (f_inner f)) as [[b t1] |] eqn:Ee; [| discriminate Ei]. injection Ei as Ei. rewrite <- Ei.
    split; [reflexivity | split; [exact Hg' | split; [| auto]]].
    apply (feeds_one h p (f_inner f) t1 b L Hf Hkp); [| exact Ee]. exact (sublist_NoDup _ _ (regroup_pcs _ _ Hg') Hn).
  - subst b. destruct (recorded_flush h f es t Hr Hnes El) as (L' & Hg' & Hf'). pose proof (regrouped_NoDup _ _ _ Hg' Hn) as Hn'.
    pose proof (tracer_accepts h d t _ L' Hf' Hd (last_fresh _ _ Hn') Ee) as Hkd. split; [exact (kp_supported _ Hkd) |].
    exists (es ++ [d]), (L' ++ [d]). rewrite Eq, app_nil_r. split; [reflexivity | split; [| split; [| split; [exact Hw' | exact (Hall (kp_supported _ Hkd))]]]].
    + apply regroup_app; [exact Hg' | apply regroup_refl].
    + exact (feeds_one h d t _ _ L' Hf' Hkd Hn' Ee).
Qed.

Lemma recorded_reject (h : hart) (d : jit_decode) (f f' : fusion tracer) (es : list jit_decode) :
  recorded_as es f -> plain_inst d -> NoDup (pcs es) -> fusion_emit h d f = Some (false, f') ->
  f_queue f' = []
  /\ (regroup es (map bare (t_trace (f_inner f'))) \/ supported_op d = true /\ regroup (es ++ [d]) (map bare (t_trace (f_inner f')))).
Proof.
  intros Hr [Hb [o Ho]] Hn He. pose proof Hr as (c & L & Ees & _ & _ & Hw & _).
  pose proof (fusion_moves h d f f' false Hw He) as Hmv. remember false as b eqn:Eb in Hmv.
  destruct Hmv as [f' _ _ _ | f' _ _ _ | p f' _ _ _ _ | b t f' El Ee Eq Hw']; [discriminate Eb | discriminate Eb | discriminate Eb |]. subst b.
  split; [exact Eq |]. destruct (recorded_flush h f es t Hr Hn El) as (L' & Hg' & Hf'). cbn [tr_emit plain_tracer] in Ee.
  destruct (t_labels t !! jd_pc d) eqn:Elab.
  - unfold tracer_emit in Ee. rewrite Elab in Ee. injection Ee as <-. left. rewrite (fe_trace _ _ Hf'). exact Hg'.
  - destruct (supported_op d) eqn:Hs.
    + destruct (tracer_keeps h d t _ false Hb Elab Ee) as (_ & _ & _ & Ht). right. split; [reflexivity |].
      rewrite (Ht Hs), (fe_trace _ _ Hf'). apply regroup_app; [exact Hg' | apply regroup_refl].
    + destruct (tracer_unsupported h d t _ o false Ho Hs Ee) as [_ Et]. left. rewrite Et, (fe_trace _ _ Hf'). exact Hg'.
Qed.

(** ** What is executed *)

(** The instructions [jit_trace] executes while it records: the loop of
    [record_loop], with the instruction of each round. *)
Fixpoint executed {T : Type} `{Tracer T} (exec_fp : decode -> hart -> Z -> io Z) (fl : flags) (inst_decode : decode -> Z -> decode)
    (fuel : nat) (t : T) (h : hart) (M : memory) : list jit_decode :=
  match fuel with
  | O => []
  | S n =>
      match mmu_fetch (pc h) M with
      | Fine M (inst, pc_offset) =>
          let d := inst_decode decode_init inst in
          match tr_emit h (jit_of d (pc h) inst) t with
          | Some (true, t) =>
              match run (exec_inst exec_fp fl 64 d h pc_offset) M with
              | Fine (h', M') off => jit_of d (pc h) inst :: executed exec_fp fl inst_decode n t (set_pc (pc h' +[64] off) h') M'
              | _ => []
              end
          | _ => []
          end
      | _ => []
      end
  end.

(** A 16- or 32-bit instruction other than zero, its shift in range. *)
Record ordinary (d : jit_decode) : Prop := {
  or_inst : jd_inst d <> 0; or_len : inst_len d = 2 \/ inst_len d = 4; or_count : count_in_range d }.

Section Loop.
Context (exec_fp : decode -> hart -> Z -> io Z) (fl : flags) (inst_decode : decode -> Z -> decode).
Hypothesis (Hi : rvi fl = true) (Hm : rvm fl = true).
Hypothesis (Hdecode : forall inst, in_u 64 inst -> op (inst_decode decode_init inst) <> rv_op_illegal -> ranged (inst_decode decode_init inst)).

Lemma recorded_ok (h : hart) (inst : Z) : in_u 64 inst -> pc h mod 2 = 0 ->
  let j := jit_of (inst_decode decode_init inst) (pc h) inst in supported_op j = true -> ordinary j -> inst_ok j.
Proof using Hdecode.
  intros Hi64 Hpc j Hs [Hz Hl Hc].
  assert (Hrg : ranged (inst_decode decode_init inst)).
  { apply Hdecode; [exact Hi64 |]. intros Eo. rewrite (supported_rv (op (inst_decode decode_init inst)) j eq_refl), Eo in Hs. discriminate Hs. }
  split; [| exact Hpc | exact Hl | exact Hc]. exists (op (inst_decode decode_init inst)).
  rewrite (supported_rv (op (inst_decode decode_init inst)) j eq_refl) in Hs. split; [reflexivity | split; [exact Hs |]]. destruct Hrg. split; assumption.
Qed.

Lemma fused_loop (fuel : nat) : forall (es es' : list jit_decode) (f f' : fusion tracer) (h h' : hart) (M M' : memory) (n n' : Z),
  record_loop exec_fp fl inst_decode fuel f h M n = Some (Recorded f' h' M' n') ->
  es' = executed exec_fp fl inst_decode fuel f h M ->
  recorded_as es f -> NoDup (pcs (es ++ es')) -> Forall ordinary es' ->
  hart_wf 64 h -> bytes M -> pc h mod 2 = 0 -> in_u 64 n ->
  n' = n +[64] Z.of_nat (length es') /\ steps exec_fp fl es' h M = Some (h', M') /\ Forall inst_ok es'
  /\ f_queue f' = [] /\ exists last, regroup ((es ++ es') ++ last) (map bare (t_trace (f_inner f')))
  /\ (last = [] \/ exists d, last = [d] /\ jd_pc d = pc h') /\ (Forall ordinary last -> Forall inst_ok last).
Proof using Hi Hm Hdecode.
  induction fuel as [| fuel IH]; intros es es' f f' h h' M M' n n'; [discriminate |].
  cbn [record_loop executed mmu_fetch mmu_memory tr_emit fusion_tracer].
  destruct (inst_fetch _ _ (pc h)) as [inst len] eqn:Ef. set (dec := inst_decode decode_init inst) in *. set (j := jit_of dec (pc h) inst) in *.
  intros E -> Hr Hnd Hord Hh HM Hpc Hn. destruct (fetched M (pc h) inst len HM Ef) as [Hi64 Hlen].
  assert (Hj : plain_inst j) by (split; [reflexivity | eexists; reflexivity]).
  destruct (fusion_emit h j f) as [[[] f1] |] eqn:Ee; [| | discriminate E].
  - destruct (run (exec_inst exec_fp fl 64 dec h len) M) as [[h2 M2] off | [h2 M2] c2 b2 |] eqn:Er; [| discriminate E | discriminate E].
    set (es' := executed _ _ _ _ _ _ _) in *. change (j :: es') with ([j] ++ es') in *. rewrite app_assoc in *.
    destruct (recorded_accept h j f f1 es Hr Hj) as [Hs Hr1]; [| exact Ee |].
    { rewrite map_app in Hnd. apply NoDup_app in Hnd as [Hnd _]. exact Hnd. }
    apply Forall_cons in Hord as [[Hz Hl4 Hcnt] Hord]. destruct (Hlen Hz) as [El Hl8].
    assert (Hrg : ranged dec).
    { apply Hdecode; [exact Hi64 |]. fold dec. intros Eo. rewrite (supported_rv (op dec) j eq_refl), Eo in Hs. discriminate Hs. }
    destruct (step_frame exec_fp fl Hi Hm h M dec inst len Hh HM Hrg Hl8 Hs h2 M2 off Er) as ([Hwf2 _ _ _ _ _] & [_ Hoff] & HM2).
    rewrite (proj2 (Z.eqb_neq _ _) Hoff) in E.
    pose proof (step_even exec_fp fl Hi Hm h M dec inst len Hh HM Hpc Hrg El Hl8 Hs h2 M2 off Er) as Hev.
    destruct (IH (es ++ [j]) es' f1 f' _ h' M2 M' _ n' E eq_refl Hr1 Hnd Hord) as (En & Est & Hok & Hq & Hlast).
    { apply at_pc_wf; [exact Hwf2 | apply uwrap_range; lia]. } { exact HM2. } { exact Hev. } { apply uwrap_range. lia. }
    split; [rewrite En, uwrap_add_l; cbn [app length]; f_equal; fold es'; lia |].
    pose proof (step_guest exec_fp fl h M dec inst len El Hs h2 M2 off Er) as Eg. fold j in Eg.
    split; [cbn [app]; rewrite (step_cons exec_fp fl j es' h _ M M2 eq_refl Eg); exact Est |]. split; [| auto].
    apply Forall_cons. split; [| exact Hok]. exact (recorded_ok h inst Hi64 Hpc Hs (Build_ordinary j Hz Hl4 Hcnt)).
  - injection E as <- <- <- <-. rewrite app_nil_r in *. destruct (recorded_reject h j f f1 es Hr Hj Hnd Ee) as [Hq Hg].
    split; [cbn [length]; rewrite Z.add_0_r; symmetry; apply uwrap_small, Hn |]. split; [reflexivity |]. split; [constructor |]. split; [exact Hq |].
    destruct Hg as [Hg | [Hs Hg]]; [exists []; rewrite app_nil_r; auto |].
    exists [j]. split; [exact Hg | split; [right; exists j; auto |]]. intros Ho. apply Forall_cons in Ho as [Ho _]. apply Forall_cons.
    split; [exact (recorded_ok h inst Hi64 Hpc Hs Ho) | apply Forall_nil; exact I].
Qed.
End Loop.

(** C7: from the fusing tracer to the machine, for a recording that ends, in which
    no program counter was executed twice and every instruction is an [ordinary] one
    (two or four bytes, not zero, an immediate shift count the width has). When
    [jit_trace] records so with [jit_fusion] around its tracer, the instructions it
    executed and counted take the interpreter from where recording began to where it
    ended; and its trace is these instructions, and at most the one recording
    stopped at, with some groups replaced. If moreover the addresses of its [auipc]
    pairs fit the register ([pair_fits]), the function it compiles, called in a
    state that is [callable] (C3: in particular each instruction and each group
    reached is one its code is exact for, which excepts some rotations and zero
    extensions to [x0]), comes out after some of these instructions as C3 states,
    with the registers and memory the interpreter has there; with its program
    counter, unless it is at its caller and the trace ends in [jalr]; and having
    counted these instructions one by one, unless the program counter has an exit
    trampoline in the trace. *)
Theorem fused_recording_correct `{Cpu} `{Jit} (exec_fp : decode -> hart -> Z -> io Z) (fl : flags) (fuel : nat)
    (h0 h0' : hart) (M0 M0' : memory) (n n' : Z) (ds es : list jit_decode) (code : list instr) (cached : bool) :
  use_mmu = false -> rvi fl = true -> rvm fl = true -> recordable h0 M0 n ->
  jit_trace (T := fusion tracer) exec_fp fl decode_inst_rv64 fuel h0 M0 n = Some (Compiled ds code cached h0' M0' n') ->
  es = executed (T := fusion tracer) exec_fp fl decode_inst_rv64 fuel tr_new h0 M0 ->
  NoDup (map jd_pc es) -> Forall ordinary es ->
  n' = n +[64] Z.of_nat (length es) /\ steps exec_fp fl es h0 M0 = Some (h0', M0')
  /\ exists last, (last = [] \/ exists d, last = [d] /\ jd_pc d = pc h0') /\ regroup (es ++ last) (map bare ds)
  /\ (Forall ordinary last -> adjacent pair_fits (es ++ last) -> forall h M s, callable exec_fp fl ds h M s ->
      exists j h' M' s' x, (0 < j <= length (es ++ last))%nat /\ steps exec_fp fl (firstn j (es ++ last)) h M = Some (h', M')
        /\ runs cpu_step code None s s' x /\ returns ds s h' M' s' x
        /\ ((exists l, e_exit_tramp (est_after ds) !! pc h' = Some l)
            \/ (update_instret = true -> pfield s' P_instret = uwrap 64 (pfield s P_instret + Z.of_nat j)))).
Proof.
  intros Hmmu Hi Hm [Hh HM Hpc Hn] E Ees Hnd Hord. unfold jit_trace in E.
  destruct (record_loop _ _ _ _ _ _ _ _) as [[f h1 M1 n1 | |] |] eqn:Er; [| discriminate E | discriminate E | discriminate E].
  cbn [mbind option_bind tr_end tr_trace fusion_tracer] in E.
  destruct (fused_loop exec_fp fl decode_inst_rv64 Hi Hm decoded_rv64 fuel [] es _ f h0 h1 M0 M1 n n1 Er Ees) as (En & Est & Hok & Hq & last & Hg & Hl & Hlo);
    try assumption.
  { exists [], []. split; [reflexivity | split; [constructor | split; [exact fed_nothing | split; [reflexivity | constructor]]]]. }
  unfold fusion_end, emit_queue in E. rewrite Hq in E. cbn [emit_list mbind option_bind tr_end plain_tracer set_queue f_inner tr_trace] in E.
  injection E as <- <- _ <- <- <-. split; [exact En | split; [exact Est |]]. exists last. split; [exact Hl | split; [exact Hg |]].
  intros Hlast Hf h M s Hca. assert (Hall : Forall inst_ok (es ++ last)) by (apply Forall_app; auto).
  destruct (regrouped_runs exec_fp fl Hmmu Hi Hm (es ++ last) (t_trace (f_inner f)) h M s Hg Hall) as (j & h' & M' & s' & x & Hj & Hs & Hr & Hv & Ht);
    [| exact Hca |].
  { exact (steps_pairs exec_fp fl Hi Hm es last h0 h1 M0 M1 Hok Hh HM Est Hl Hf). }
  exists j, h', M', s', x. split; [exact Hj | split; [exact Hs | split; [exact (runs_cpu _ _ _ _ _ Hr) | auto]]].
Qed.

(** ** An example *)

(** The loop of [group_ex] in memory, with its data. *)
Definition group_memory : memory := fun a =>
  match find (fun d => (jd_pc d <=? a) && (a <? jd_pc d + 4)) group_ex with
  | Some d => jd_inst d / 2 ^ (8 * (a - jd_pc d)) mod 256
  | None => memory_trace a
  end.
Lemma group_recordable : recordable hart_trace group_memory 0.
Proof.
  split; [exact hart_trace_wf | | reflexivity | unfold in_u; lia]. intros a. unfold group_memory.
  destruct (find _ _); [apply (Z.mod_pos_bound _ 256); lia | apply memory_trace_bytes].
Qed.
Abbreviation group_recording :=
  (record_loop (T := fusion tracer) (S := memory) no_fp RV_IMA decode_inst_rv64 11 tr_new hart_trace group_memory 0).
(** One round is executed, and recorded with its groups replaced. *)
Example group_recorded :
  match group_recording with Some (Recorded f h _ n) => (t_trace (f_inner f), pc h, n) | _ => ([], 0, 0) end = (fused_ex, 0x10000, 10)
  /\ executed (T := fusion tracer) no_fp RV_IMA decode_inst_rv64 11 tr_new hart_trace group_memory = group_ex.
Proof. split; vm_compute; reflexivity. Qed.
Lemma group_compiled : exists h' M' n',
  jit_trace (T := fusion tracer) (H1 := jit_ex) no_fp RV_IMA decode_inst_rv64 11 hart_trace group_memory 0
  = Some (Compiled fused_ex (trace_function (H := jit_ex) fused_ex) true h' M' n').
Proof.
  pose proof (proj1 group_recorded) as Hr.
  assert (Hq : match group_recording with Some (Recorded f _ _ _) => f_queue f | _ => [] end = []) by (vm_compute; reflexivity).
  unfold jit_trace.
  destruct (record_loop _ _ _ _ _ _ _ _) as [[f h' M' n' | |] |]; try discriminate Hr. injection Hr as Et Ep En.
  exists h', M', n'. cbn [mbind option_bind tr_end tr_trace fusion_tracer]. unfold fusion_end, emit_queue. rewrite Hq.
  cbn [emit_list mbind option_bind tr_end plain_tracer set_queue f_inner tr_trace]. rewrite Et. subst n'. reflexivity.
Qed.

Example fused_recording_correct_witness :
  exists h0' M0' n' code,
    n' = 0 +[64] 10 /\ steps no_fp RV_IMA group_ex hart_trace group_memory = Some (h0', M0')
    /\ exists last, (last = [] \/ exists d, last = [d] /\ jd_pc d = pc h0') /\ regroup (group_ex ++ last) (map bare fused_ex)
    /\ (Forall ordinary last -> adjacent pair_fits (group_ex ++ last) -> forall h M s, callable (H := jit_ex) no_fp RV_IMA fused_ex h M s ->
        exists j h' M' s' x, (0 < j <= length (group_ex ++ last))%nat
          /\ steps no_fp RV_IMA (firstn j (group_ex ++ last)) h M = Some (h', M')
          /\ runs documented code None s s' x /\ returns (H := jit_ex) fused_ex s h' M' s' x
          /\ ((exists l, e_exit_tramp (est_after (H := jit_ex) fused_ex) !! pc h' = Some l)
              \/ (update_instret (Jit := jit_ex) = true -> pfield s' P_instret = uwrap 64 (pfield s P_instret + Z.of_nat j)))).
Proof.
  destruct group_compiled as (h0' & M0' & n' & E). exists h0', M0', n', (trace_function (H := jit_ex) fused_ex).
  apply (fused_recording_correct (H := plain_cpu) (H0 := jit_ex) no_fp RV_IMA 11 hart_trace h0' group_memory M0' 0 n' fused_ex group_ex
           (trace_function (H := jit_ex) fused_ex) true eq_refl eq_refl eq_refl group_recordable E).
  - symmetry. exact (proj2 group_recorded).
  - apply (bool_decide_unpack _). vm_compute. exact I.
  - repeat (apply Forall_cons; split); [.. | apply Forall_nil; exact I];
      (split; [discriminate | right; reflexivity | unfold count_in_range; cbn; lia || exact I]).
Defined.
