(* ===== verification/JitFindings.v ===== *)
(** * What the JIT does otherwise than the interpreter, by example

    Traces the tracer can record and states they can be called in, for which the
    function [jit_trace] builds and the interpreter part: each case that the
    hypotheses of the theorems on traces leave out, evaluated. *)

From Stdlib Require Import ZArith Lia Bool List.
From stdpp Require Import base list option gmap.
From S2P Require Import Prelude Alu Meta Codec Ckpt Replay Interp Isa Mmu X86 Jit JitEmit JitProofs JitMem JitCorrect JitLabels.
From S2P Require Import Decoder JitTrace JitFunction JitTracer JitRecord JitRecorded JitFusion JitGroups JitFusedRecord.

#[local] Open Scope Z_scope.
#[local] Open Scope word_scope.

(** Registers allocated, instructions counted, no other trace. *)
#[local] Existing Instance jit_ex.

(** ** Evaluation *)

Definition no_memory : memory := fun _ => 0.
Definition hart_at (p : Z) (l : list (Z * Z)) : hart := set_pc p (hart_ex l).
Definition itype (p : Z) (o : rv_op) (rd rs1 imm : Z) : jit_decode := mkJit p 3 imm (Rv o) rd rs1 0 0 false false 0.
Definition rtype (p : Z) (o : rv_op) (rd rs1 rs2 : Z) : jit_decode := mkJit p 3 0 (Rv o) rd rs1 rs2 0 false false 0.
Definition fused (o : jit_op) (rd rs1 rs2 imm : Z) : jit_decode := mkJit 0x10000 3 imm (Fused o) rd rs1 rs2 0 false false 8.

(** The state the function comes back with, by way of the trampolines. *)
Definition called (ds : list jit_decode) (h : hart) : option xstate :=
  match run_code documented None (trace_function ds) (host_ex h no_memory) with
  | Some (s, Return) => Some s
  | Some (s, To_label l) => match run_code documented (Some l) (trace_function ds) s with Some (s, Return) => Some s | _ => None end
  | _ => None
  end.
Definition called_reg (g : Z) (ds : list jit_decode) (h : hart) : option Z := (fun s => slot s g) <$> called ds h.
Definition called_field (f : proc_field) (ds : list jit_decode) (h : hart) : option Z := (fun s => pfield s f) <$> called ds h.
(** Where it goes on, with the program counter, when it does not come back. *)
Definition jumps (ds : list jit_decode) (h : hart) : option (exit_ * Z) :=
  (fun r => (snd r, pfield (fst r) P_pc)) <$> run_code documented None (trace_function ds) (host_ex h no_memory).
(** A fused instruction's code alone. *)
Definition fused_reg (g : Z) (emit_x : jit_decode -> M bool) (d : jit_decode) (l : list (Z * Z)) : option Z :=
  (fun r => guest_reg (fst r) g)
    <$> run_code documented None (code_of emit_prolog est_new ++ code_of (emit_x d) est_new) (host_ex (hart_ex l) no_memory).

Definition stepped_reg (g : Z) (ds : list jit_decode) (h : hart) : option Z :=
  (fun r => uwrap 64 (get_reg (fst r) g)) <$> steps no_fp RV_IMA ds h no_memory.
Definition stepped_pc (ds : list jit_decode) (h : hart) : option Z := (fun r => pc (fst r)) <$> steps no_fp RV_IMA ds h no_memory.

(** ** The program counter *)

(** A trace that ends in a return to one of its calls leaves the program counter it
    was called with: [emit_jalr] clears [term_pc], and [end] then stores nothing. *)
Definition call_and_return : list jit_decode := [itype 0x10000 rv_op_jal 1 0 8; itype 0x10008 rv_op_jalr 0 1 0].
Example last_return_pc :
  called_field P_pc call_and_return (hart_at 0x10000 []) = Some 0x10000
  /\ stepped_pc call_and_return (hart_at 0x10000 []) = Some 0x10004.
Proof. split; vm_compute; reflexivity. Qed.

(** The way out of a return that does not match ends in the epilogue, which counts
    the instructions pending at the end of the trace: four, where two ran. *)
Definition missed_return : list jit_decode :=
  [itype 0x10000 rv_op_jal 1 0 8; itype 0x10008 rv_op_addi 1 1 16; itype 0x1000c rv_op_jalr 0 1 0; itype 0x10004 rv_op_addi 5 5 1].
Example missed_return_counter :
  called_field P_pc missed_return (hart_at 0x10000 []) = Some 0x1000c
  /\ stepped_pc (firstn 2 missed_return) (hart_at 0x10000 []) = Some 0x1000c
  /\ called_field P_instret missed_return (hart_at 0x10000 []) = Some 104.
Proof. split_and!; vm_compute; reflexivity. Qed.

(** A return that goes to its call plus a constant is taken for one to the call. *)
Definition return_beyond : list jit_decode :=
  [itype 0x10000 rv_op_jal 1 0 8; itype 0x10008 rv_op_jalr 0 1 4; itype 0x10004 rv_op_addi 5 5 1].
Example return_offset :
  called_reg 5 return_beyond (hart_at 0x10000 []) = Some 1
  /\ stepped_pc (firstn 2 return_beyond) (hart_at 0x10000 []) = Some 0x10008.
Proof. split; vm_compute; reflexivity. Qed.

(** Program counters from [2^31] to below [2^32 - 1] are stored with an immediate
    that the instruction sign-extends. *)
Example pc_above_2_31 :
  called [itype 0x80000000 rv_op_addi 5 5 1] (hart_at 0x80000000 []) = None
  /\ stepped_reg 5 [itype 0x80000000 rv_op_addi 5 5 1] (hart_at 0x80000000 []) = Some 1.
Proof. split; vm_compute; reflexivity. Qed.

(** A jump to a constant address does not store it. *)
Example jalr_constant :
  jumps [itype 0x10000 rv_op_jalr 0 0 0x400] (hart_at 0x10000 []) = Some (To_address 0x7000, 0x10000)
  /\ stepped_pc [itype 0x10000 rv_op_jalr 0 0 0x400] (hart_at 0x10000 []) = Some 0x400.
Proof. split; vm_compute; reflexivity. Qed.
(** Bit 0 of a jump's target is kept. *)
Example jalr_odd_target :
  jumps [itype 0x10000 rv_op_jalr 0 6 0] (hart_at 0x10000 [(6, 0x401)]) = Some (To_address 0x7000, 0x401)
  /\ stepped_pc [itype 0x10000 rv_op_jalr 0 6 0] (hart_at 0x10000 [(6, 0x401)]) = Some 0x400.
Proof. split; vm_compute; reflexivity. Qed.

(** ** Arithmetic *)

(** The 32-bit divisions test 64 bits of the divisor: a divisor with a zero low half
    goes to the division instruction, which traps. *)
Definition half_zero : hart := hart_at 0x10000 [(6, 5); (10, 2 ^ 32)].
Example divw_traps :
  called [rtype 0x10000 rv_op_divw 5 6 10] half_zero = None
  /\ stepped_reg 5 [rtype 0x10000 rv_op_divw 5 6 10] half_zero = Some (2 ^ 64 - 1).
Proof. split; vm_compute; reflexivity. Qed.
Example remw_traps :
  called [rtype 0x10000 rv_op_remw 5 6 10] half_zero = None
  /\ stepped_reg 5 [rtype 0x10000 rv_op_remw 5 6 10] half_zero = Some 5.
Proof. split; vm_compute; reflexivity. Qed.

(** [ra] lives in the register that the division instruction takes the high half
    of the dividend from. *)
Example div_by_ra :
  called [rtype 0x10000 rv_op_div 5 6 1] (hart_at 0x10000 [(6, 7); (1, 2)]) = None
  /\ stepped_reg 5 [rtype 0x10000 rv_op_div 5 6 1] (hart_at 0x10000 [(6, 7); (1, 2)]) = Some 3.
Proof. split; vm_compute; reflexivity. Qed.
Example rem_of_ra :
  called_reg 5 [rtype 0x10000 rv_op_rem 5 1 10] (hart_at 0x10000 [(1, - 2 ^ 63); (10, 7)]) = Some 0
  /\ stepped_reg 5 [rtype 0x10000 rv_op_rem 5 1 10] (hart_at 0x10000 [(1, - 2 ^ 63); (10, 7)]) = Some (2 ^ 64 - 1).
Proof. split; vm_compute; reflexivity. Qed.
(** The remainder of a division by [x0] is the dividend; the quotient of [x0] by
    zero is all ones. *)
Example rem_by_zero_register :
  called_reg 5 [rtype 0x10000 rv_op_rem 5 6 0] (hart_at 0x10000 [(6, 17)]) = Some (2 ^ 64 - 1)
  /\ stepped_reg 5 [rtype 0x10000 rv_op_rem 5 6 0] (hart_at 0x10000 [(6, 17)]) = Some 17.
Proof. split; vm_compute; reflexivity. Qed.
Example zero_register_by_zero :
  called_reg 5 [rtype 0x10000 rv_op_div 5 0 7] (hart_at 0x10000 []) = Some 0
  /\ stepped_reg 5 [rtype 0x10000 rv_op_div 5 0 7] (hart_at 0x10000 []) = Some (2 ^ 64 - 1).
Proof. split; vm_compute; reflexivity. Qed.

(** [addw] of [x0] and a register of the processor object moves 32 bits of memory
    to a 64-bit register, which no instruction does. *)
Example addw_of_zero :
  called [rtype 0x10000 rv_op_addw 5 0 20] (hart_at 0x10000 [(20, 17)]) = None
  /\ stepped_reg 5 [rtype 0x10000 rv_op_addw 5 0 20] (hart_at 0x10000 [(20, 17)]) = Some 17.
Proof. split; vm_compute; reflexivity. Qed.
(** [auipc] stores its constant to the processor object in one instruction. *)
Example auipc_to_slot :
  called [itype 0x100000000 rv_op_auipc 20 0 0x1000] (hart_at 0x100000000 []) = None
  /\ stepped_reg 20 [itype 0x100000000 rv_op_auipc 20 0 0x1000] (hart_at 0x100000000 []) = Some 0x100001000.
Proof. split; vm_compute; reflexivity. Qed.

(** ** Fused instructions *)

(** The temporary of a fused rotation keeps a logical right shift: in the first
    case its emitter shifts arithmetically, in the second too, for 64 bits. *)
Example rorwi_residual :
  fused_reg 20 emit_rorwi_rr (fused jit_op_rorwi_rr 5 6 20 8) [(6, - 2 ^ 31)] = Some (uwrap 64 (- 2 ^ 23))
  /\ fused_reg 10 emit_rorwi_rr (fused jit_op_rorwi_rr 5 6 10 8) [(6, - 2 ^ 31)] = Some (2 ^ 23).
Proof. split; vm_compute; reflexivity. Qed.
Example rordi_residual :
  fused_reg 10 emit_rordi_rr (fused jit_op_rordi_rr 5 6 10 8) [(6, - 2 ^ 63)] = Some (uwrap 64 (- 2 ^ 55))
  /\ fused_reg 20 emit_rordi_rr (fused jit_op_rordi_rr 5 6 20 8) [(6, - 2 ^ 63)] = Some (2 ^ 55).
Proof. split; vm_compute; reflexivity. Qed.

(** A fused call leaves the called address where [auipc] leaves its own, and
    for a register of the processor object stores it to [x0]. *)
Example call_temporary :
  fused_reg 10 emit_call (fused jit_op_call 10 0 0 0x1008) [] = Some 0x11008
  /\ stepped_reg 10 [itype 0x10000 rv_op_auipc 10 0 0x1000; itype 0x10004 rv_op_jalr 1 10 8] (hart_at 0x10000 []) = Some 0x11000.
Proof. split; vm_compute; reflexivity. Qed.
Example call_writes_zero : fused_reg 0 emit_call (fused jit_op_call 20 0 0 0x1008) [] = Some 0x11008.
Proof. vm_compute. reflexivity. Qed.
(** A fused zero extension to [x0] writes it. *)
Example zextw_writes_zero : fused_reg 0 emit_zextw (fused jit_op_zextw 0 6 0 0) [(6, 17)] = Some 17.
Proof. vm_compute. reflexivity. Qed.
(** A fused [addiw] and zero extension of a register uses a zero extension from 32 to 64 bits
    that does not exist. *)
Example addiwz_not_encodable : fused_reg 5 emit_addiwz (fused jit_op_addiwz 5 0 0 1) [] = None.
Proof. vm_compute. reflexivity. Qed.

(** ** Recording *)

Definition code_at (l : list (Z * Z)) : memory := fun a =>
  match find (fun p => (fst p <=? a) && (a <? fst p + 4)) l with Some p => snd p / 2 ^ (8 * (a - fst p)) mod 256 | None => 0 end.
Definition record_of (l : list (Z * Z)) (h : hart) : option (recording tracer memory) :=
  record_loop no_fp RV_IMA decode_inst_rv64 20 tracer_new h (code_at l) 0.

(** A branch to itself has a label before it is in the trace: the tracer writes the
    mark behind the end of the vector. *)
Example self_branch : record_of [(0x10000, 0x00000063)] (hart_at 0x10000 []) = Some Undefined.
Proof. vm_compute. reflexivity. Qed.

(** A return is followed wherever it goes.  Recorded with [a0 = 12], this function
    returns behind its call; called with [a0 = 0], where the return matches the
    call, the compiled trace still goes on behind it. *)
Definition skipping_return : list (Z * Z) :=
  [(0x10000, 0x008000ef); (0x10008, 0x00a080b3); (0x1000c, 0x00008067); (0x10004, 0x00000073); (0x10010, 0x00128293); (0x10014, 0x00000073)].
Definition skipping_trace : list jit_decode :=
  match record_of skipping_return (hart_at 0x10000 [(10, 12)]) with Some (Recorded t _ _ _) => t_trace t | _ => [] end.
Example followed_return :
  called_reg 5 skipping_trace (hart_at 0x10000 [(10, 0)]) = Some 1
  /\ stepped_pc (firstn 3 skipping_trace) (hart_at 0x10000 [(10, 0)]) = Some 0x10004.
Proof. split; vm_compute; reflexivity. Qed.

(** ** Fusion *)

(** What reaches the inner tracer when the instructions are [ds]. *)
Definition regrouped (ds : list jit_decode) : list jit_decode :=
  match fold_left (fun f d => f ← f; snd <$> fusion_emit (hart_at 0 []) d f) ds (Some (fusion_new tracer_new)) with
  | Some f => match fusion_end (hart_at 0 []) f with Some f => t_trace (f_inner f) | None => [] end
  | None => []
  end.

(** The sum of the two immediates of a pc-relative pair is kept in 32 bits: below
    them the fused address is 4 GiB too high. *)
Definition far_pair : list jit_decode := [itype 0x100000000 rv_op_auipc 10 0 (- 2 ^ 31); itype 0x100000004 rv_op_addi 10 10 (-1)].
Example far_pair_address :
  called_reg 10 (regrouped far_pair) (hart_at 0x100000000 []) = Some 0x17fffffff
  /\ stepped_reg 10 far_pair (hart_at 0x100000000 []) = Some 0x7fffffff.
Proof. split; vm_compute; reflexivity. Qed.

(** An [auipc] to [x0] and a call through [x0] are fused too: the interpreter jumps
    to the offset, the fused call relative to the program counter. *)
Definition zero_call : list jit_decode := [itype 0x10000 rv_op_auipc 0 0 0x1000; itype 0x10004 rv_op_jalr 1 0 16].
Example zero_call_target :
  called_field P_pc (regrouped zero_call) (hart_at 0x10000 []) = Some 0x11010
  /\ stepped_pc zero_call (hart_at 0x10000 []) = Some 16.
Proof. split; vm_compute; reflexivity. Qed.

(** The result of the inner tracer is not used for a fused group: a function that
    calls itself with [auipc] and [jalr] is recorded for ever, where the tracer alone
    stops when it comes back. *)
Definition self_call : list (Z * Z) := [(0x10000, 0x00000097); (0x10004, 0x000080e7)].
Abbreviation record_fused fuel f h n :=
  (record_loop (T := fusion tracer) (S := memory) no_fp RV_IMA decode_inst_rv64 fuel f h (code_at self_call) n).

(** The hart and the tracer after one call, which later ones leave as they are. *)
Definition called_hart : hart := hart_at 0x10000 [(1, 0x10008)].
Definition called_fusion : fusion tracer :=
  mkFusion (mkTracer {[0x10000 := 0]} [0x10008] [mkJit 0x10000 0x80e7 0 (Fused jit_op_call) 1 0 0 0 false false 8] 1)
    0 1 0 0 0 4 0x10000 match_state_none [].
Lemma record_round {T : Type} `{Tracer T} (fuel : nat) (t t' : T) (h h' h2 : hart) (M : memory) (n inst len off : Z) :
  inst_fetch (mem_read 2 M) (mem_read 4 M) (pc h) = (inst, len) ->
  tr_emit h (jit_of (decode_inst_rv64 decode_init inst) (pc h) inst) t = Some (true, t') ->
  exec_inst no_fp RV_IMA 64 (decode_inst_rv64 decode_init inst) h len = Ret h' off ->
  (off =? uwrap 64 (-1)) = false -> set_pc (pc h' +[64] off) h' = h2 ->
  record_loop no_fp RV_IMA decode_inst_rv64 (S fuel) t h M n = record_loop no_fp RV_IMA decode_inst_rv64 fuel t' h2 M (n +[64] 1).
Proof. intros E1 E2 E3 E4 <-. cbn [record_loop mmu_fetch mmu_memory]. rewrite E1, E2, E3. cbn [run]. rewrite E4. reflexivity. Qed.
Ltac round := eapply record_round; [vm_compute; reflexivity ..].
Lemma first_call (fuel : nat) : record_fused (S (S fuel)) tr_new (hart_at 0x10000 []) 0 = record_fused fuel called_fusion called_hart 2.
Proof. etransitivity; round. Qed.
Lemma next_call (fuel : nat) (n : Z) : record_fused (S (S fuel)) called_fusion called_hart n = record_fused fuel called_fusion called_hart ((n +[64] 1) +[64] 1).
Proof. etransitivity; round. Qed.
Lemma next_calls (fuel : nat) (n : Z) : record_fused fuel called_fusion called_hart n = None /\ record_fused (S fuel) called_fusion called_hart n = None.
Proof.
  revert n. induction fuel as [| fuel IH]; intros n.
  - split; vm_compute; reflexivity.
  - split; [apply IH |]. rewrite next_call. apply IH.
Qed.
Lemma self_call_unended (fuel : nat) : record_fused fuel tr_new (hart_at 0x10000 []) 0 = None.
Proof.
  destruct fuel as [| [| fuel]]; [reflexivity | vm_compute; reflexivity |]. rewrite first_call. apply next_calls.
Qed.
Example self_call_ends :
  match record_of self_call (hart_at 0x10000 []) with Some (Recorded t _ _ n) => Some (length (t_trace t), n) | _ => None end = Some (2%nat, 1).
Proof. vm_compute. reflexivity. Qed.
