(* ===== verification/JitFindings32.v ===== *)
(** * What the emitter of RV32 does otherwise than the interpreter, by example

    The cases that [exact32] leaves out, and two fused or last instructions whose
    code does not do what they ask for, evaluated. *)

From Stdlib Require Import ZArith Lia Bool List.
From stdpp Require Import base list option gmap.
From S2P Require Import Prelude Alu Meta Codec Replay Interp Isa Mmu X86 Jit JitEmit JitProofs JitCorrect JitEmit32 JitFunction JitInstruction.

#[local] Open Scope Z_scope.
#[local] Open Scope word_scope.

(** Registers allocated, instructions counted, no other trace. *)
#[local] Existing Instance jit_ex.

(** A register after the code of one instruction, and after the interpreter's step. *)
Definition emitted_word (g : Z) (emit_x : jit_decode -> Jit.M bool) (d : jit_decode) (l : list (Z * Z)) : option Z :=
  (fun r => guest_reg (fst r) g) <$> run_code documented None (code_of (emit_x d) est_new) (inside_ex 32 (hart_ex l) (fun _ => 0)).
Definition stepped_word (g : Z) (o : rv_op) (d : jit_decode) (l : list (Z * Z)) : option Z :=
  (fun r => uwrap 32 (get_reg (fst r) g)) <$> inst_step_at 32 no_fp RV_IMA o d (hart_ex l) (fun _ => 0).
Definition word_inst (o : rv_op) (rd rs1 rs2 imm : Z) : jit_decode := mkJit 0x1000 3 imm (Rv o) rd rs1 rs2 0 false false 4.

(** The dividend is moved to [eax], which clears the upper half of [rax], and then
    extended with [cqo]: -6 by 2 is taken for 4294967290 by 2. *)
Example negative_quotient_rv32 :
  emitted_word 7 emit_div (word_inst rv_op_div 7 5 6 0) [(5, -6); (6, 2)] = Some 0x7ffffffd
  /\ stepped_word 7 rv_op_div (word_inst rv_op_div 7 5 6 0) [(5, -6); (6, 2)] = Some 0xfffffffd.
Proof. split; vm_compute; reflexivity. Qed.
Example negative_remainder_rv32 :
  emitted_word 7 emit_rem (word_inst rv_op_rem 7 5 6 0) [(5, -7); (6, 3)] = Some 0
  /\ stepped_word 7 rv_op_rem (word_inst rv_op_rem 7 5 6 0) [(5, -7); (6, 3)] = Some 0xffffffff.
Proof. split; vm_compute; reflexivity. Qed.
(** By one, the quotient does not fit and the host traps. *)
Example negative_quotient_traps_rv32 :
  emitted_word 7 emit_div (word_inst rv_op_div 7 5 6 0) [(5, -6); (6, 1)] = None
  /\ stepped_word 7 rv_op_div (word_inst rv_op_div 7 5 6 0) [(5, -6); (6, 1)] = Some 0xfffffffa.
Proof. split; vm_compute; reflexivity. Qed.

(** A divisor in [ra] is overwritten before it is used. *)
Example div_by_ra_rv32 :
  emitted_word 7 emit_divu (word_inst rv_op_divu 7 5 1 0) [(5, 42); (1, 6)] = None
  /\ stepped_word 7 rv_op_divu (word_inst rv_op_divu 7 5 1 0) [(5, 42); (1, 6)] = Some 7.
Proof. split; vm_compute; reflexivity. Qed.

(** A jump to a constant address does not store it. *)
Example jalr_constant_rv32 :
  ((fun r => pfield (fst r) P_pc)
    <$> run_code documented None (code_of (emit_jalr (word_inst rv_op_jalr 0 0 0 0x400)) est_new) (inside_ex 32 (hart_ex []) (fun _ => 0)))
  = Some 0x1000.
Proof. vm_compute. reflexivity. Qed.

(** A zero-extending move of 32 bits is not an instruction. *)
Example zextw_not_encodable_rv32 :
  emitted_word 28 emit_zextw (mkJit 0x1000 3 0 (Fused jit_op_zextw) 28 29 0 0 false false 8) [(29, 17)] = None.
Proof. vm_compute. reflexivity. Qed.
